(* ===== verification/_CoqProject ===== *)
-Q . S2P
Prelude.v
JsString.v
JsDate.v
Json.v
Money.v
CurrencyArithmetic.v
CurrencyPolicy.v
States.v
AuthTables.v
DomainTables.v
Calendar.v
Database.v
InvoiceNumber.v
InvoiceTotals.v
Invoices.v
BackgroundJobs.v
Outbox.v
JobProperties.v
Payments.v
Gateways.v
GatewayAdapters.v
MapSum.v
OutboxProperties.v
OutboxProtocol.v
Ledger.v
Settlement.v
Orders.v
HostingServices.v
HostingAutomation.v
HostingPanels.v
CpanelAdapter.v
DomainContracts.v
PanelOperations.v
JsonText.v
ServerAdministration.v
CpanelProperties.v
ServiceLifecycle.v
OrderProperties.v
PaymentProperties.v
GatewayProperties.v
GatewayFaults.v
Renewal.v
RenewalProperties.v
HostingProperties.v
PanelProtocol.v
PanelProperties.v
ServerProtocol.v
Totp.v
TotpProperties.v
Authentication.v
Sessions.v
SecondFactor.v
Staff.v
Guards.v
AuthProtocol.v
AuthSamples.v
AuthProperties.v
AuthFaults.v
AccessProperties.v
StaffProperties.v
Registrar.v
Resellbiz.v
LogicBoxesSandbox.v
RegistrarProcessor.v
DomainAdministration.v
Domains.v
DomainSales.v
DomainManagement.v
DomainLifecycle.v
ExistingDomains.v
DomainProtocol.v
DomainTransitions.v
JsonProperties.v
DomainSamples.v
DomainProperties.v
SalesProperties.v
DomainLedger.v
DomainHandlers.v
CancellationProperties.v
Conservation.v
