(* ===== verification/Prelude.v ===== *)
(** * Webhost Billing: verification library

    Webhost Billing sells hosting packages, add-ons and domain names, bills them,
    takes payments, renews services, suspends or cancels them on the customer's
    hosting panel, and registers and changes domains at a registrar.  An API
    (apps/api) serves customers and staff, a worker (apps/worker) runs the scheduled
    automation and hands the events of an outbox to queues, both write one PostgreSQL
    database through Prisma (packages/database), and they share contracts, pure calculations and the
    queues (packages/shared, packages/queue).  This library models the part that
    decides about money, about the services it pays for and about who may act: how
    amounts, currencies and dates are computed, how orders, invoices, payments, gateways
    and renewals change the database, how their events reach the jobs that act on
    them, what those jobs do to a service, how domains are sold, registered and
    managed, and how customers and staff are authenticated.

    ** Files and the code they model

    Shared vocabulary
    - [Prelude]: outcomes ([result], [exn]), the state-and-exception monad [M],
      record update, the hint databases and the tactics of the library.
    - [JsString], [JsDate], [Json]: what the code uses of JavaScript: strings and
      BigInt numerals, [Date] arithmetic in the proleptic Gregorian calendar,
      untyped values and Zod schemas.
    - [MapSum]: sums over finite maps, what a SQL [SUM] computes.

    Pure components
    - [Money]: contracts/money.ts, contracts/pagination.ts and
      payment-gateways/payment-money.ts.
    - [CurrencyArithmetic], [CurrencyPolicy]: currency-arithmetic.ts and
      currency-policy.ts of packages/shared.
    - [States]: the enumerations of contracts/states.ts and schema.prisma.
    - [Calendar]: the worker's renewal-calendar.ts, the API's service-period.ts
      and dashboard-period.ts, and calendar-presentation.ts.
    - [InvoiceTotals]: [calculateInvoiceTotals] and [nextInvoiceStatus] of
      invoice.service.ts.

    State
    - [Database]: the tables as finite maps from primary keys to rows ([Db]), the
      Prisma operations the services use, and [transaction].
    - [InvoiceNumber]: the numbering settings and [allocateInvoiceNumber].
    - [Invoices]: invoice.service.ts, one definition per method.
    - [Payments]: payment.service.ts and the partial payment policy.
    - [Gateways]: payment-gateway.service.ts and its registry: sessions, provider
      events, bKash callbacks and reconciliation.
    - [GatewayAdapters]: the bKash and SSLCOMMERZ adapters and the HTTP client.
    - [Orders]: order.service.ts, checkout-terms.ts and fulfillment.ts.
    - [Renewal]: renewal-scheduler.service.ts, renewal-processor.service.ts and
      renewal-policy.ts of the worker.
    - [BackgroundJobs]: contracts/background-jobs.ts and packages/queue: routes,
      job data, and what a worker does with a failed job.
    - [Outbox]: outbox-dispatcher.service.ts of the worker, and the retries of
      background-job.service.ts.
    - [HostingServices]: service.service.ts, hosting-cancellation.service.ts and
      service-add-ons.service.ts.
    - [HostingAutomation]: hosting-automation.service.ts of the worker: jobs,
      panel operations and the requests to the panel.
    - [HostingPanels]: contracts/hosting-panels.ts and the interface, errors,
      registry and credential cipher of apps/api/src/modules/hosting-panels.
    - [CpanelAdapter]: cpanel-whm-http.client.ts and cpanel-whm.hosting-panel.ts.
    - [PanelOperations]: the operations, connection tests and retries of
      hosting-panel.service.ts.
    - [ServerAdministration]: its servers, server-administration.service.ts and
      virtualizor.client.ts.
    - [AuthTables]: the tables of users, sessions, second factors and tokens.
    - [Totp]: totp.service.ts and token-cipher.service.ts: base32, one-time
      passwords, recovery codes, sealed texts.
    - [Authentication]: auth.service.ts: identities, sessions, registration,
      verification and login, with admin-session-policy.ts; [Sessions]: its e-mailed
      codes, support sessions, the authentication of a request, password resets and
      the end of sessions; [SecondFactor]: the second step of a login and enrollment.
    - [Staff]: staff.service.ts and contracts/staff.ts.
    - [Guards]: the guards of apps/api/src/modules/auth, csrf.service.ts,
      auth-rate-limit.service.ts and the session cookie.
    - [DomainTables], [DomainContracts]: the tables of domains, and the contracts
      domains.ts, domain-administration.ts and domain-inventory.ts.
    - [JsonText]: JSON texts, and [losslessRegistrarJson].
    - [Registrar]: packages/database/src/registrar: its interface, the simulated
      registrar, the cipher, the preparation of contacts; [Resellbiz]: the live
      resell.biz adapter; [LogicBoxesSandbox]: the sandbox one; [RegistrarProcessor]:
      processor.ts and the worker's job handler.
    - [DomainAdministration]: domain-administration.service.ts: connections, the
      catalogue of extensions, DNS defaults and policies.
    - [Domains], [DomainSales], [DomainManagement]: domain.service.ts: registrar
      accounts and the view of a domain; offers, quotes and purchases; approval,
      reconciliation and the context of management.
    - [DomainLifecycle]: domain-lifecycle.service.ts: the actions on a domain.
    - [ExistingDomains]: existing-domain-link.service.ts, domain-inventory.service.ts
      and admin-order-domain.service.ts, with the [DomainServices] of the orders.

    Specification and properties
    - [Ledger]: an abstract ledger of accounts and entries, the moves that post to
      it ([ledger_step]) and its invariant.
    - [Settlement]: every transaction of the invoice and payment services that
      commits is a sequence of moves of that ledger; the interface is the class
      [Posts].  [Orders], [GatewayProperties] and [RenewalProperties] prove it of
      their transactions.
    - [Conservation]: histories of committed transactions keep the invariant.
    - [OutboxProtocol]: the abstract delivery of events ([deliver]) and the steps
      of any number of dispatchers, which refine it; [OutboxProperties]: one cycle
      of a dispatcher, and that the outbox drains.  Both are proved against the
      class [JobQueueLaws] of a queue; [BackgroundJobs] has an instance.
    - [ServiceLifecycle]: the life cycle of services ([services_follow]), which
      every transaction that makes or changes one follows.
    - [PanelProtocol]: the moves that the API's and the worker's transactions make
      on panel operations, and the invariant they keep; [PanelProperties]: what one
      operation, a repeated submission and a retry do; [CpanelProperties]: what the
      adapter sends to a panel; [ServerProtocol]: edits of servers and tests of
      their connections in any order, and the round trip of credentials.
    - [DomainProtocol]: an abstract machine for what may be sent to a registrar;
      [DomainTransitions]: each transaction that registers, changes or cancels as a
      run of that machine; [DomainHandlers]: the endpoints and the job, with all they
      read and send, as histories of those transactions, composed through the class
      [Extends]; [DomainProperties]: what holds over those histories;
      [SalesProperties]: purchases, reads, secrets and the laws of [DomainServices];
      [DomainLedger]: the invoices of domains as moves of the ledger;
      [JsonProperties]: JSON texts are read back, with fuel to spare;
      [DomainSamples]: rows and runs to try the theorems on.
    - [OrderProperties], [PaymentProperties], [GatewayProperties],
      [RenewalProperties], [JobProperties], [HostingProperties],
      [CancellationProperties]: what each service guarantees of its own.
      [GatewayFaults]: two ways in which the gateways fail.
    - [AuthProtocol]: what every transaction of authentication and staff keeps of
      the account tables, whatever was read before it ([advance]), and histories of
      them; [AuthProperties]: sessions, resets, second factors and codes over those
      histories; [TotpProperties]: base32 and one-time passwords; [AccessProperties]:
      the guards; [StaffProperties]: the administrators that remain;
      [AuthSamples]: accounts to try the theorems on; [AuthFaults]: where
      authentication departs from its description.

    ** How the model corresponds to the code

    A method of a service is a computation over a [World]: the database, the
    stream of random UUIDs, the stream of clock readings the run observes, and the
    requests registrars have received ([registrarRequests], which no code reads and
    no rollback undoes: it is there to count what was sent).
    Methods keep the names of the source, their guards stand in the source's order
    and throw the source's errors, and the writes that feed the outbox and the
    activity log are part of them.  [transaction] undoes the writes of a body
    that throws; nothing else is undone.  A create enforces the primary key and
    the unique indexes of the schema and answers [UniqueViolation] (Prisma's
    P2002); an update of a missing row answers [RecordNotFound] (P2025).  The
    dispatcher works on a [Stack]: a world and the queues.

    Transactions run one at a time.  What happens between a request's first read
    and its transaction is modelled, because the code depends on it: where a
    method reads a row and then opens a transaction, the part from the transaction
    on is a definition of its own (the suffix [_tx]) that takes the rows read
    before as arguments.  [Conservation.served] runs it in any later database, so
    every interleaving of requests at the boundaries of transactions is covered;
    [OutboxProtocol.sys_step] does the same for dispatchers.  Row and advisory
    locks have no further effect in such a model ([FOR UPDATE SKIP LOCKED] only
    skips rows of a transaction that is still running).

    Amounts are minor units in [Z]; the code's BigInt has no width, and the bounds
    it does check (PostgreSQL BIGINT, the ranges of the schemas) are written out
    and proved.  Instants are milliseconds in [Z].  A string is a sequence of
    code units below 256; the program's own patterns accept ASCII only.

    Parameters, for code outside the repository: [ZodFormats] and [ZodUrl] (the
    format checks of Zod), [DateParser] ([Date.parse]), [UrlParser] and
    [https_url] (the URL parser), [Sha256], [TimeZones] and [valid_time_zone]
    ([Intl]), [JobQueue] (BullMQ, with the laws [JobQueueLaws]: a job is stored
    under its identifier and a second one with the same identifier is ignored),
    and for the providers and the panels the request functions, name resolution,
    the ciphers (with the laws [CipherLaws]: decryption undoes encryption, and
    base64url has no dot), HMAC and [JSON.parse].  [DomainServices] is what the
    orders ask of the domains, with the laws [DomainServicesLaws] that it writes
    nothing and refuses prices that are not positive;
    [order_domain_services] implements it and [order_services_lawful] proves the laws.
    The registrar takes the ciphers ([RegistrarCrypto], with [RegistrarCryptoLaws]:
    decryption undoes encryption), the requests to resell.biz ([ResellbizTransport]),
    its random choices, [Number] and the ISO check of Zod; [calls_follow_protocol]
    assumes that a transport records what it is asked and writes nothing else
    ([RecordingTransport]), and that a random choice writes nothing ([QuietRandom]).
    Theorems over the protocol start from [registrar_ok]: rows under their keys, and the
    invariant of the abstract machine.
    [view_ok] and its likes say whether a stored row can be presented.
    [AuthCrypto] holds the random values, Argon2 and the ciphers of
    authentication, with the laws [AuthCryptoLaws]: none of them writes a table.
    The guards take the HMAC of the tokens, which spells 64 hexadecimal digits, and
    the commands of Redis as arguments.  Theorems over histories of accounts start
    from [auth_ok]: rows under their keys, tokens and identifiers not repeated.
    The theorems about one panel operation ([PanelKeeps]) assume that a request to the
    panel does not write the database, which [adapter_keeps] proves of the cPanel
    adapter from its requests; [automation_job_exact] does not assume it and speaks of
    the rows before and after the panel's answer.
    [operation_key_once] assumes that HMAC does not collide on the two texts it
    compares.  [active_server_was_tested] follows the clock: what is read later is
    not earlier, and [outbox_drains] needs that it passes every date.  The CHECK constraints
    of the migrations appear as the hypotheses [prices_nonneg] and
    [amounts_nonneg] on the databases of a history, as an invariant that is proved
    ([service_checks]), and, where the code can run into one, as an operation that
    may throw ([counts_check], [operation_check]).  Dispatchers are assumed to
    have distinct names; the code names them by process number, which is unique
    on one machine only.

    Fuel: Euclid's loop runs [2 * bits + 1] steps, enough by [gcd_loop_gcd]; a
    numeral is printed with [log2 n + 1] digits of fuel, enough by
    [print_digits_spec] and [log2_fuel]; [attempts] of an HTTP request is bounded
    by the code's own number of retries; the readers of JSON have twice the length of
    the text, enough by [JsonFuel.json_fuel_enough].  Every other function is structural.

    ** What is shown

    - Money is conserved ([money_is_conserved]): over every history of the six
      services, with stale reads, what an invoice says is paid is its successful
      charges less what was given back, balances add up and are never negative,
      statuses agree with amounts, and no charge is given back twice.  The one
      exception is the unconditional update after a provider's error: the histories have
      it only on a payment still pending ([late_awaits]), which the code does not make
      sure of; without that it breaks the invariant ([callback_overwrites_settlement]).
    - Services: verification of a payment, a provider's event, the lines of an
      order, a renewal invoice with each of its lines, and the effect of a renewal payment are stated
      exactly; a period is billed once, a day is scheduled once, an event is
      processed once, and a request under a used key writes nothing.
    - Delivery: dispatchers refine the abstract delivery of events, a published
      event was queued, a cycle settles an oldest batch, every event is settled in
      the end, each the right way, and a job reads back as the event it was made for.
    - Hosting: services follow their life cycle and constraints, if a panel's answer
      comes while its service is still in the status it was asked for ([in_time];
      [late_answer_revives] shows what happens otherwise); a job that ends
      well changed its service exactly when the rows called for it; an unknown
      result is never retried; a cancellation waits for the paid time to end and is
      not lost; an ended add-on is billed no more; what renewals and requests ask
      for is what the jobs read.
    - Panels: a service has one operation running at a time and its account is
      attempted five times at most, whoever asks; an operation's outcome is in the
      rows what the panel answered, and an uncertain one is never marked as safe to
      retry; an error that is marked so left the panel as it was; accounts are
      created only where none is; a submission key acts once; an ACTIVE server was
      tested with exactly the connection it has; stored tokens are read back by
      the API and the worker; addresses are refused exactly by their CIDR blocks.
    - Domains: every endpoint and the job, however they fail, follow the protocol of
      registrar mutations: an account has at most one mutation without a known
      outcome, a registration is dispatched once and a change submitted once, and
      registrars receive no more than that, only
      for invoices paid in full by verified charges and approved by a full
      administrator; a cancelled action is never sent; the state recorded of a
      registration is exactly what was observed; a purchase bills its quote once;
      reads are limited; secrets are read back.
    - Accounts: every method of authentication and staff is a sequence of the
      protocol's transactions ([method_runs] of [AuthProtocol]); a second factor and its challenge are used once; ended
      sessions, and those from before a password reset, are never authenticated
      again; a request is authenticated exactly under the stated conditions; at most
      five wrong e-mailed codes are compared; a support session only reads; the
      guards for CSRF and roles decide exactly as stated; a full administrator always
      remains; one-time passwords and base32 secrets are exact.
    - Errors: when a cycle records its run and when it cannot; what a stale
      cancellation and a cancellation of a partly paid order do; a payment that
      can never be reconciled; the third temporary failure of a panel operation; a
      job that overtakes its event; the answers of the panel; the late answer of a
      panel that revives a service that has ended; five failures that do not close a
      login challenge read before, a login that outlives a password reset, and an
      invitation stuck by an edit.
    - Calculations: invoice totals, half-even conversion, ratio normal forms,
      policy transitions, billing dates (clamping, no drift, agreement of the two
      copies), ISO dates, numbering, and the round trips of amounts and dates.

    ** What is not modelled

    Token caching, the development gateway and the development panel; settings;
    e-mail, notifications, tickets and reports; products and customers; the database
    stores of currency policies.  They read or feed the tables above and are mostly
    record keeping.  Of the registrar, node's HTTPS client with its address checks and
    time limits is the parameter [ResellbizTransport].  Listings with their SQL filters
    (but for the inventory of domains), PDF rendering, the timers that poll, logging
    and metrics, database triggers, the controllers that wire handlers to the guards,
    the web application and deployment carry no decision about money and are left
    out. *)
From Stdlib Require Export ZArith Lia Ascii String.
From stdpp Require Export base gmap strings list option.

#[export] Set Default Proof Using "Type".
#[global] Open Scope string_scope.
#[global] Open Scope Z_scope.
#[global] Open Scope list_scope.

(** [length] is the length of lists; strings have [String.length]. *)
Notation length := Datatypes.length.
#[global] Arguments String.append !_ _ / : simpl nomatch.

(** ** Outcomes *)

(** [HostingPanelErrorKind] and [BackgroundFailureKind]: what a failure means. *)
Module ErrorKind.
Inductive ErrorKind := TEMPORARY | PERMANENT | INCONSISTENT.
#[global] Instance ErrorKind_eq_dec : EqDecision ErrorKind.
Proof. solve_decision. Defined.
Definition to_string (k : ErrorKind) : string :=
  match k with
  | TEMPORARY => "TEMPORARY" | PERMANENT => "PERMANENT" | INCONSISTENT => "INCONSISTENT"
  end.
End ErrorKind.
Notation ErrorKind := ErrorKind.ErrorKind.

(** The exceptions the modelled code throws or receives.  [AppException] is
    [ApplicationException]; [UniqueViolation] is Prisma's [P2002];
    [RecordNotFound] is Prisma's [P2025]; [ZodError] is a failed
    [schema.parse]. *)
Inductive exn : Type :=
| AppException (status : Z) (code message : string)
| UniqueViolation
| RecordNotFound
| ZodError
| RangeError (message : string)
| PaymentProviderError (message disposition : string)
| BackgroundJobError (kind code message : string)
| JsError (message : string)
| UnrecoverableError (message : string)
| PanelAutomationError (kind : ErrorKind) (code : string)
| HostingPanelProviderError (kind : ErrorKind) (code message : string).

#[export] Instance exn_eq_dec : EqDecision exn.
Proof. solve_decision. Defined.

Inductive result (A : Type) : Type :=
| Ok (a : A)
| Err (e : exn).
Arguments Ok {A} a.
Arguments Err {A} e.

#[export] Instance result_eq_dec `{EqDecision A} : EqDecision (result A).
Proof. solve_decision. Defined.

Definition is_ok {A} (r : result A) : bool :=
  match r with Ok _ => true | Err _ => false end.

#[export] Instance result_ret : MRet result := λ A a, Ok a.
#[export] Instance result_bind : MBind result := λ A B k r,
  match r with Ok a => k a | Err e => Err e end.
#[export] Instance result_fmap : FMap result := λ A B f r,
  match r with Ok a => Ok (f a) | Err e => Err e end.

(** [throw_unless b e]: the JavaScript [if (!b) throw e]. *)
Definition throw_unless (b : bool) (e : exn) : result unit :=
  if b then Ok tt else Err e.
Definition of_option {A} (e : exn) (o : option A) : result A :=
  match o with Some a => Ok a | None => Err e end.

Lemma result_bind_Ok {A B} (r : result A) (k : A → result B) b :
  (r ≫= k) = Ok b ↔ ∃ a, r = Ok a ∧ k a = Ok b.
Proof. destruct r; split; [eauto|naive_solver|discriminate|naive_solver]. Qed.
Lemma throw_unless_Ok b e u : throw_unless b e = Ok u ↔ b = true.
Proof. destruct b, u; naive_solver. Qed.
Lemma of_option_Ok {A} e (o : option A) a : of_option e o = Ok a ↔ o = Some a.
Proof. destruct o; naive_solver. Qed.

(** ** State and exceptions

    An asynchronous method of the program is a computation over a world [S].
    The world survives an exception; only [transaction] (of Database) rolls
    anything back. *)
Definition M (S A : Type) : Type := S → result A * S.

#[export] Instance M_ret {S} : MRet (M S) := λ A a w, (Ok a, w).
#[export] Instance M_bind {S} : MBind (M S) := λ A B k m w,
  match m w with
  | (Ok a, w') => k a w'
  | (Err e, w') => (Err e, w')
  end.

Definition throw {S A} (e : exn) : M S A := λ w, (Err e, w).
(** [try m catch h]. *)
Definition catch {S A} (m : M S A) (h : exn → M S A) : M S A := λ w,
  match m w with
  | (Ok a, w') => (Ok a, w')
  | (Err e, w') => h e w'
  end.
(** The outcome of [m] as a value: [try] without a handler. *)
Definition reify {S A} (m : M S A) : M S (result A) := λ w,
  let '(r, w') := m w in (Ok r, w').
Definition gets {S A} (f : S → A) : M S A := λ w, (Ok (f w), w).
Definition modify {S} (f : S → S) : M S unit := λ w, (Ok tt, f w).
Definition lift {S A} (r : result A) : M S A := λ w, (r, w).
(** [require b e]: the early exit [if (!b) throw e]. *)
Definition require {S} (b : bool) (e : exn) : M S unit :=
  lift (throw_unless b e).
Definition when {S} (b : bool) (m : M S unit) : M S unit :=
  if b then m else mret tt.
(** [for (const a of l) await f(a)]. *)
Fixpoint for_each {S A} (l : list A) (f : A → M S unit) : M S unit :=
  match l with
  | [] => mret tt
  | a :: l => f a ≫= λ _, for_each l f
  end.
(** A loop that threads an accumulator, as [reduce] or a mutated local. *)
Fixpoint fold_each {S A B} (f : B → A → M S B) (b : B) (l : list A) : M S B :=
  match l with
  | [] => mret b
  | a :: l => f b a ≫= λ b', fold_each f b' l
  end.

Section M_lemmas.
Context {S : Type}.

Lemma bind_Ok {A B} (m : M S A) (k : A → M S B) w b w'' :
  (m ≫= k) w = (Ok b, w'') ↔
  ∃ a w', m w = (Ok a, w') ∧ k a w' = (Ok b, w'').
Proof.
  unfold mbind, M_bind. destruct (m w) as [[a|e] w'] eqn:E; split.
  - eauto.
  - intros (?&?&?&?). by simplify_eq.
  - discriminate.
  - intros (?&?&?&?). by simplify_eq.
Qed.
Lemma ret_Ok {A} (a b : A) (w w' : S) :
  (mret a : M S A) w = (Ok b, w') ↔ b = a ∧ w' = w.
Proof. unfold mret, M_ret. naive_solver. Qed.
Lemma throw_Ok {A} e (b : A) (w w' : S) :
  throw e w = (Ok b, w') ↔ False.
Proof. unfold throw. naive_solver. Qed.
Lemma gets_Ok {A} (f : S → A) b w w' :
  gets f w = (Ok b, w') ↔ b = f w ∧ w' = w.
Proof. unfold gets. naive_solver. Qed.
Lemma modify_Ok (f : S → S) u w w' :
  modify f w = (Ok u, w') ↔ w' = f w.
Proof. destruct u; unfold modify; naive_solver. Qed.
Lemma lift_Ok {A} (r : result A) b (w w' : S) :
  lift r w = (Ok b, w') ↔ r = Ok b ∧ w' = w.
Proof. unfold lift. naive_solver. Qed.
Lemma require_Ok b e u (w w' : S) :
  require b e w = (Ok u, w') ↔ b = true ∧ w' = w.
Proof. unfold require. rewrite lift_Ok, throw_unless_Ok. done. Qed.
Lemma when_Ok b (m : M S unit) u w w' :
  when b m w = (Ok u, w') ↔
  (b = true ∧ m w = (Ok u, w')) ∨ (b = false ∧ w' = w).
Proof. destruct b, u; unfold when, mret, M_ret; naive_solver. Qed.
(** The outcome of a run determines its result. *)
Lemma run_outcome {A} (m : M S A) w r : fst (m w) = r → m w = (r, snd (m w)).
Proof. intros <-. apply surjective_pairing. Qed.
End M_lemmas.

(** ** Record update

    [r <| f := v |>] is the object spread [{ ...r, f: v }].  A record type
    declares how it is rebuilt from its projections; the setter of each field
    is then found by type class search. *)
Class Rebuild (R : Type) := rebuild : R → R.
Class Setter {R T : Type} (proj : R → T) := set_field : (T → T) → R → R.
#[global] Hint Mode Setter - - + : typeclass_instances.

Ltac build_setter :=
  match goal with
  | |- @Setter ?R ?T ?proj =>
    let f := fresh "f" in let r := fresh "r" in
    intros f r;
    let e := eval unfold rebuild in (@rebuild R _ r) in
    let e := eval cbv beta delta [rebuild] in e in
    let e := eval hnf in e in
    lazymatch e with context [proj r] => idtac end;
    let e := eval pattern (proj r) in e in
    match e with
    | ?g _ => let t := eval cbv beta in (g (f (proj r))) in exact t
    end
  end.
#[global] Hint Extern 0 (Setter _) => build_setter : typeclass_instances.

Notation "r <| proj := v |>" := (set_field (proj := proj) (λ _, v) r)
  (at level 12, left associativity, proj at level 99,
   format "r  <|  proj  :=  v  |>").
Arguments set_field {R T} proj {Setter} f r /.
Arguments rebuild {R Rebuild} r /.

(** ** Lists *)

Lemma Forall_elem {A} (P : A → Prop) (l : list A) x : Forall P l → x ∈ l → P x.
Proof. rewrite list_elem_of_In, List.Forall_forall. auto. Qed.

(** ** Tactics *)

(** Split the booleans the code's guards are made of. *)
Ltac split_bool :=
  repeat match goal with
  | H : _ && _ = true |- _ => apply andb_true_iff in H as [? ?]
  | H : _ || _ = false |- _ => apply orb_false_iff in H as [? ?]
  | H : negb _ = true |- _ => apply negb_true_iff in H
  | H : negb _ = false |- _ => apply negb_false_iff in H
  | H : bool_decide _ = true |- _ => apply bool_decide_eq_true in H
  | H : bool_decide _ = false |- _ => apply bool_decide_eq_false in H
  | H : (_ =? _)%Z = true |- _ => apply Z.eqb_eq in H
  | H : (_ =? _)%Z = false |- _ => apply Z.eqb_neq in H
  | H : (_ <=? _)%Z = true |- _ => apply Z.leb_le in H
  | H : (_ <=? _)%Z = false |- _ => apply Z.leb_gt in H
  | H : (_ <? _)%Z = true |- _ => apply Z.ltb_lt in H
  | H : (_ <? _)%Z = false |- _ => apply Z.ltb_ge in H
  end.

(** One step of reading a successful run backwards. *)
Ltac run_step :=
  match goal with
  | H : (_ ≫= _) _ = (Ok _, _) |- _ =>
      apply bind_Ok in H as (?&?&?&?); cbn beta iota in *
  | H : mret _ _ = (Ok _, _) |- _ => apply ret_Ok in H as [? ?]
  | H : throw _ _ = (Ok _, _) |- _ => apply throw_Ok in H as []
  | H : gets _ _ = (Ok _, _) |- _ => apply gets_Ok in H as [? ?]
  | H : modify _ _ = (Ok _, _) |- _ => apply modify_Ok in H
  | H : lift _ _ = (Ok _, _) |- _ => apply lift_Ok in H as [? ?]
  | H : require _ _ _ = (Ok _, _) |- _ => apply require_Ok in H as [? ?]
  | H : (_ ≫= _) = Ok _ |- _ => apply result_bind_Ok in H as (?&?&?)
  | H : throw_unless _ _ = Ok _ |- _ => apply throw_unless_Ok in H
  | H : of_option _ _ = Ok _ |- _ => apply of_option_Ok in H
  end.
Ltac run_inv := repeat (run_step; simplify_eq).
