(* ===== verification/JsString.v ===== *)
(** * JavaScript strings and decimal integers

    Strings are sequences of code units in [0,255]; the program's own patterns
    accept ASCII only, and [js_trim], [js_upper] and [js_lower] are the ASCII
    part of [trim], [toUpperCase] and [toLowerCase].  [Z_to_string] is
    [BigInt.prototype.toString], [string_to_Z] is [BigInt(s)] on a string of
    decimal digits. *)
From S2P Require Import Prelude.

(** ** Character classes *)
Definition code (c : ascii) : Z := Z.of_N (N_of_ascii c).
Definition in_range (lo hi c : ascii) : bool :=
  (code lo <=? code c) && (code c <=? code hi).
Definition is_digit (c : ascii) : bool := in_range "0" "9" c.
Definition is_nonzero_digit (c : ascii) : bool := in_range "1" "9" c.
Definition is_upper (c : ascii) : bool := in_range "A" "Z" c.
Definition is_lower (c : ascii) : bool := in_range "a" "z" c.
Definition is_alnum (c : ascii) : bool := is_digit c || is_upper c || is_lower c.
(** The characters [String.prototype.trim] removes, below U+0080. *)
Definition is_space (c : ascii) : bool :=
  (code c =? 32) || ((9 <=? code c) && (code c <=? 13)).

Fixpoint all_chars (p : ascii → bool) (s : string) : bool :=
  match s with
  | EmptyString => true
  | String c s => p c && all_chars p s
  end.

Fixpoint map_chars (f : ascii → ascii) (s : string) : string :=
  match s with
  | EmptyString => ""
  | String c s => String (f c) (map_chars f s)
  end.

Definition slen (s : string) : Z := Z.of_nat (String.length s).

Definition upper_char (c : ascii) : ascii :=
  if is_lower c then ascii_of_N (N_of_ascii c - 32) else c.
Definition lower_char (c : ascii) : ascii :=
  if is_upper c then ascii_of_N (N_of_ascii c + 32) else c.
Definition js_upper : string → string := map_chars upper_char.
Definition js_lower : string → string := map_chars lower_char.

Fixpoint trim_start (s : string) : string :=
  match s with
  | EmptyString => ""
  | String c t => if is_space c then trim_start t else s
  end.
(** Dropping the trailing blanks: a blank stays only when something is left
    after it. *)
Fixpoint trim_end (s : string) : string :=
  match s with
  | EmptyString => ""
  | String c t =>
      match trim_end t with
      | EmptyString => if is_space c then "" else String c ""
      | t' => String c t'
      end
  end.
Definition js_trim (s : string) : string := trim_end (trim_start s).

(** [s.padStart(n, c)] and [s.padEnd(n, c)] for a one-character pad. *)
Fixpoint repeat_char (c : ascii) (n : nat) : string :=
  match n with O => "" | S n => String c (repeat_char c n) end.
Definition pad_start (n : nat) (c : ascii) (s : string) : string :=
  (repeat_char c (n - String.length s) ++ s)%string.
Definition pad_end (n : nat) (c : ascii) (s : string) : string :=
  (s ++ repeat_char c (n - String.length s))%string.

(** [s.indexOf(c)] split in two: the text before and after the first [c]. *)
Fixpoint split_at (c : ascii) (s : string) : option (string * string) :=
  match s with
  | EmptyString => None
  | String d t =>
      if Ascii.eqb d c then Some ("", t)
      else match split_at c t with
           | Some (a, b) => Some (String d a, b)
           | None => None
           end
  end.

(** The parts of [s.split(c)]. *)
Fixpoint split_on (c : ascii) (s : string) : list string :=
  match s with
  | EmptyString => [""]
  | String d t =>
      if Ascii.eqb d c then "" :: split_on c t
      else match split_on c t with
           | [] => [String d ""]
           | part :: rest => String d part :: rest
           end
  end.
(** [Buffer.byteLength(s, 'utf8')]. *)
Fixpoint utf8_length (s : string) : Z :=
  match s with
  | EmptyString => 0
  | String c t => (if code c <? 128 then 1 else 2) + utf8_length t
  end.

(** ** Decimal integers *)
Definition digit_value (c : ascii) : Z := code c - 48.
Definition digit_char (d : Z) : ascii := ascii_of_N (Z.to_N (48 + d)).

Fixpoint dec_value (acc : Z) (s : string) : Z :=
  match s with
  | EmptyString => acc
  | String c s => dec_value (10 * acc + digit_value c) s
  end.
(** [BigInt(s)], for a string of digits ([BigInt('')] is [0n]). *)
Definition string_to_Z (s : string) : Z := dec_value 0 s.

Fixpoint print_digits (fuel : nat) (n : Z) (acc : string) : string :=
  match fuel with
  | O => acc
  | S fuel =>
      let acc := String (digit_char (n mod 10)) acc in
      if n / 10 =? 0 then acc else print_digits fuel (n / 10) acc
  end.
(** [n.toString()]. A number of [k] bits has at most [k] decimal digits. *)
Definition nat_to_string (n : Z) : string :=
  print_digits (S (Z.to_nat (Z.log2 n))) n "".
Definition Z_to_string (n : Z) : string :=
  if n <? 0 then String "-" (nat_to_string (- n)) else nat_to_string n.

(** The amount pattern of money.ts: a lone zero, or digits without a leading zero. *)
Definition canonical_decimal (s : string) : bool :=
  match s with
  | String c EmptyString => is_digit c
  | String c t => is_nonzero_digit c && all_chars is_digit t
  | EmptyString => false
  end.
(** The positive integer pattern: digits without a leading zero. *)
Definition positive_decimal (s : string) : bool :=
  match s with
  | String c t => is_nonzero_digit c && all_chars is_digit t
  | EmptyString => false
  end.

(** ** Properties of strings *)

Lemma length_app_string (s t : string) :
  String.length (s ++ t) = (String.length s + String.length t)%nat.
Proof. induction s as [|c s IH]; simpl; [done|]. by rewrite IH. Qed.
Lemma app_string_assoc (s t u : string) :
  (s ++ (t ++ u))%string = ((s ++ t) ++ u)%string.
Proof. induction s as [|c s IH]; simpl; [done|]. by rewrite IH. Qed.
Lemma app_string_nil_r (s : string) : (s ++ "")%string = s.
Proof. induction s as [|c s IH]; simpl; [done|]. by rewrite IH. Qed.
Lemma slen_app (s t : string) : slen (s ++ t) = slen s + slen t.
Proof. unfold slen. rewrite length_app_string. lia. Qed.
Lemma slen_nonneg s : 0 <= slen s.
Proof. unfold slen. lia. Qed.
Lemma slen_cons c s : slen (String c s) = 1 + slen s.
Proof. unfold slen. simpl String.length. lia. Qed.
Lemma all_chars_app p s t :
  all_chars p (s ++ t) = all_chars p s && all_chars p t.
Proof. induction s as [|c s IH]; simpl; [done|]. by rewrite IH, andb_assoc. Qed.
Lemma all_chars_repeat p c n : p c = true → all_chars p (repeat_char c n) = true.
Proof. intros H. induction n; simpl; [done|]. by rewrite H. Qed.
Lemma length_repeat_char c n : String.length (repeat_char c n) = n.
Proof. induction n; simpl; congruence. Qed.

Lemma all_chars_impl (p q : ascii → bool) s :
  (∀ c, p c = true → q c = true) → all_chars p s = true → all_chars q s = true.
Proof.
  intros Hpq. induction s as [|c s IH]; simpl; [done|].
  intros H. split_bool. by rewrite Hpq, IH.
Qed.

(** ** Properties of decimal strings *)

Lemma is_digit_value c : is_digit c = true → 0 <= digit_value c <= 9.
Proof.
  unfold is_digit, in_range, digit_value. intros H. split_bool.
  change (code "0") with 48 in *. change (code "9") with 57 in *. lia.
Qed.
Lemma nonzero_digit_value c :
  is_nonzero_digit c = true → 1 <= digit_value c <= 9 ∧ is_digit c = true.
Proof.
  unfold is_nonzero_digit, is_digit, in_range, digit_value. intros H. split_bool.
  change (code "0") with 48 in *. change (code "1") with 49 in *.
  change (code "9") with 57 in *. split; [lia|].
  apply andb_true_iff. split; apply Z.leb_le; lia.
Qed.
Lemma code_bound c : 0 <= code c < 256.
Proof. unfold code. pose proof (N_ascii_bounded c). lia. Qed.
Lemma code_inj c d : code c = code d → c = d.
Proof.
  unfold code. intros H%N2Z.inj.
  rewrite <- (ascii_N_embedding c), <- (ascii_N_embedding d). by rewrite H.
Qed.
Lemma code_ascii n : 0 <= n < 256 → code (ascii_of_N (Z.to_N n)) = n.
Proof. intros ?. unfold code. rewrite N_ascii_embedding; lia. Qed.
Lemma digit_char_code d : 0 <= d <= 9 → code (digit_char d) = 48 + d.
Proof. intros ?. unfold digit_char. rewrite code_ascii; lia. Qed.
Lemma digit_char_value d : 0 <= d <= 9 → digit_value (digit_char d) = d.
Proof. intros ?. unfold digit_value. rewrite digit_char_code; lia. Qed.
Lemma digit_char_is_digit d : 0 <= d <= 9 → is_digit (digit_char d) = true.
Proof.
  intros ?. unfold is_digit, in_range. rewrite digit_char_code by lia.
  change (code "0") with 48. change (code "9") with 57.
  apply andb_true_iff. split; apply Z.leb_le; lia.
Qed.
Lemma digit_char_nonzero d : 1 <= d <= 9 → is_nonzero_digit (digit_char d) = true.
Proof.
  intros ?. unfold is_nonzero_digit, in_range. rewrite digit_char_code by lia.
  change (code "1") with 49. change (code "9") with 57.
  apply andb_true_iff. split; apply Z.leb_le; lia.
Qed.

Lemma pow10_pos n : 0 <= n → 0 < 10 ^ n.
Proof. intros. apply Z.pow_pos_nonneg; lia. Qed.
Lemma pow10_slen_cons c s : 10 ^ slen (String c s) = 10 * 10 ^ slen s.
Proof. rewrite slen_cons, Z.pow_add_r by (pose proof (slen_nonneg s); lia). lia. Qed.

Lemma dec_value_acc acc s : dec_value acc s = acc * 10 ^ slen s + string_to_Z s.
Proof.
  unfold string_to_Z. revert acc. induction s as [|c s IH]; intros acc; cbn [dec_value].
  - change (slen "") with 0. lia.
  - rewrite (IH (10 * acc + digit_value c)), (IH (10 * 0 + digit_value c)),
      pow10_slen_cons. lia.
Qed.
Lemma string_to_Z_cons c s :
  string_to_Z (String c s) = digit_value c * 10 ^ slen s + string_to_Z s.
Proof. unfold string_to_Z at 1. cbn [dec_value]. by rewrite dec_value_acc. Qed.
Lemma string_to_Z_app s t :
  string_to_Z (s ++ t) = string_to_Z s * 10 ^ slen t + string_to_Z t.
Proof.
  induction s as [|c s IH]; simpl; [done|].
  rewrite !string_to_Z_cons, slen_app, IH.
  rewrite Z.pow_add_r by apply slen_nonneg. lia.
Qed.
Lemma string_to_Z_zeros n : string_to_Z (repeat_char "0" n) = 0.
Proof.
  induction n as [|n IH]; simpl; [done|]. rewrite string_to_Z_cons, IH.
  change (digit_value "0") with 0. lia.
Qed.
Lemma string_to_Z_bound s :
  all_chars is_digit s = true → 0 <= string_to_Z s < 10 ^ slen s.
Proof.
  induction s as [|c s IH]; simpl.
  - intros _. unfold string_to_Z, slen. simpl. lia.
  - intros H. split_bool. specialize (IH ltac:(done)).
    rewrite string_to_Z_cons, pow10_slen_cons.
    pose proof (is_digit_value c ltac:(done)). nia.
Qed.

Lemma canonical_digits s : canonical_decimal s = true → all_chars is_digit s = true.
Proof.
  destruct s as [|c [|d t]]; simpl; intros H; try done.
  - by rewrite H.
  - split_bool. destruct (nonzero_digit_value c) as [_ ->]; [done|].
    simpl in *. by apply andb_true_iff.
Qed.
Lemma positive_canonical s : positive_decimal s = true → canonical_decimal s = true.
Proof.
  destruct s as [|c [|d t]]; simpl; intros H; try done.
  split_bool. by apply nonzero_digit_value.
Qed.
Lemma positive_lower s :
  positive_decimal s = true → 10 ^ (slen s - 1) <= string_to_Z s.
Proof.
  destruct s as [|c t]; simpl; [done|]. intros H. split_bool.
  rewrite string_to_Z_cons, slen_cons.
  replace (1 + slen t - 1) with (slen t) by lia.
  pose proof (nonzero_digit_value c ltac:(done)) as [? _].
  pose proof (string_to_Z_bound t ltac:(done)).
  pose proof (pow10_pos (slen t) (slen_nonneg t)). nia.
Qed.
Lemma positive_slen s : positive_decimal s = true → 1 <= slen s.
Proof.
  destruct s as [|c t]; [done|]. intros _. rewrite slen_cons.
  pose proof (slen_nonneg t). lia.
Qed.
Lemma positive_decimal_value s :
  positive_decimal s = true → 0 < string_to_Z s.
Proof.
  intros H. apply positive_lower in H as ?. pose proof (positive_slen s H).
  pose proof (pow10_pos (slen s - 1)). lia.
Qed.
Lemma canonical_cases s :
  canonical_decimal s = true → s = "0" ∨ positive_decimal s = true.
Proof.
  destruct s as [|c [|d t]]; intros H; [done| |by right].
  simpl in *. unfold is_nonzero_digit, is_digit, in_range in *. split_bool.
  destruct (decide (code c = 48)) as [Heq|?].
  - left. f_equal. by apply code_inj.
  - right. change (code "0") with 48 in *. change (code "1") with 49.
    rewrite andb_true_r. apply andb_true_iff. split; apply Z.leb_le; lia.
Qed.

(** Two digit strings of one length are equal when their values are. *)
Lemma digits_value_inj s t :
  slen s = slen t → all_chars is_digit s = true → all_chars is_digit t = true →
  string_to_Z s = string_to_Z t → s = t.
Proof.
  revert t. induction s as [|c s IH]; intros [|d t]; rewrite ?slen_cons; intros Hl;
    [done|pose proof (slen_nonneg t); change (slen "") with 0 in Hl; lia
    |pose proof (slen_nonneg s); change (slen "") with 0 in Hl; lia|].
  simpl. intros Hs Ht. split_bool. rewrite !string_to_Z_cons.
  assert (slen s = slen t) as Hlen by lia. rewrite Hlen. intros Heq.
  pose proof (string_to_Z_bound s ltac:(done)). rewrite Hlen in *.
  pose proof (string_to_Z_bound t ltac:(done)).
  assert (digit_value c = digit_value d) as Hd by nia.
  rewrite Hd in Heq. f_equal.
  - apply code_inj. unfold digit_value in Hd. lia.
  - apply IH; [done..|lia].
Qed.

Lemma canonical_value_inj s t :
  canonical_decimal s = true → canonical_decimal t = true →
  string_to_Z s = string_to_Z t → s = t.
Proof.
  intros Hs Ht Heq.
  destruct (canonical_cases s Hs) as [->|Ps], (canonical_cases t Ht) as [->|Pt];
    [done| | |].
  - pose proof (positive_decimal_value t Pt). change (string_to_Z "0") with 0 in Heq. lia.
  - pose proof (positive_decimal_value s Ps). change (string_to_Z "0") with 0 in Heq. lia.
  - apply canonical_digits in Hs, Ht.
    pose proof (string_to_Z_bound s Hs). pose proof (string_to_Z_bound t Ht).
    pose proof (positive_lower s Ps). pose proof (positive_lower t Pt).
    apply digits_value_inj; [|done..].
    destruct (Z.lt_trichotomy (slen s) (slen t)) as [?|[?|?]]; [|done|];
      [assert (10 ^ slen s <= 10 ^ (slen t - 1)) by (apply Z.pow_le_mono_r; lia)
      |assert (10 ^ slen t <= 10 ^ (slen s - 1)) by (apply Z.pow_le_mono_r; lia)];
      lia.
Qed.

Lemma positive_app ds t :
  positive_decimal ds = true → all_chars is_digit t = true →
  positive_decimal (ds ++ t) = true.
Proof.
  destruct ds as [|c ds]; simpl; [done|]. intros H Ht. split_bool.
  rewrite all_chars_app, Ht, andb_true_r. by apply andb_true_iff.
Qed.

Lemma print_digits_spec fuel n acc :
  0 <= n < 10 ^ Z.of_nat fuel → (0 < fuel)%nat →
  ∃ ds, print_digits fuel n acc = (ds ++ acc)%string ∧
        canonical_decimal ds = true ∧ string_to_Z ds = n ∧
        (0 < n → positive_decimal ds = true).
Proof.
  revert n acc. induction fuel as [|fuel IH]; intros n acc Hn Hf; [lia|].
  simpl. pose proof (Z.mod_pos_bound n 10 ltac:(lia)) as Hm.
  pose proof (Z.div_mod n 10 ltac:(lia)) as Hdm.
  destruct (Z.eqb_spec (n / 10) 0) as [Hz|Hz].
  - exists (String (digit_char (n mod 10)) ""). split_and!; [done|..].
    + apply digit_char_is_digit. lia.
    + rewrite string_to_Z_cons, digit_char_value by lia.
      unfold string_to_Z, slen. simpl. lia.
    + intros ?. simpl. rewrite digit_char_nonzero by lia. done.
  - assert (0 < n / 10) by (pose proof (Z.div_pos n 10); lia).
    assert (n / 10 < 10 ^ Z.of_nat fuel) as Hlt.
    { apply Z.div_lt_upper_bound; [lia|].
      replace (Z.of_nat (Datatypes.S fuel)) with (1 + Z.of_nat fuel) in Hn by lia.
      rewrite Z.pow_add_r in Hn by lia. lia. }
    assert (0 < fuel)%nat by (destruct fuel; [simpl in Hlt; lia|lia]).
    destruct (IH (n / 10) (String (digit_char (n mod 10)) acc))
      as (ds&->&Hc&Hv&Hp); [lia|done|].
    specialize (Hp ltac:(done)).
    assert (all_chars is_digit (String (digit_char (n mod 10)) "") = true) as Hd.
    { simpl. rewrite digit_char_is_digit by lia. done. }
    exists (ds ++ String (digit_char (n mod 10)) "")%string. split_and!.
    + by rewrite <- app_string_assoc.
    + by apply positive_canonical, positive_app.
    + rewrite string_to_Z_app, Hv, string_to_Z_cons, digit_char_value by lia.
      change (slen (String _ "")) with 1. unfold string_to_Z, slen. simpl. lia.
    + intros _. by apply positive_app.
Qed.

Lemma log2_fuel n : 0 <= n → n < 10 ^ Z.of_nat (S (Z.to_nat (Z.log2 n))).
Proof.
  intros Hn. replace (Z.of_nat _) with (Z.succ (Z.log2 n))
    by (pose proof (Z.log2_nonneg n); lia).
  destruct (decide (n = 0)) as [->|?]; [done|].
  pose proof (Z.log2_spec n ltac:(lia)) as [_ ?].
  assert (2 ^ Z.succ (Z.log2 n) <= 10 ^ Z.succ (Z.log2 n)).
  { apply Z.pow_le_mono_l. lia. }
  lia.
Qed.

Lemma Z_to_string_spec n :
  0 <= n → canonical_decimal (Z_to_string n) = true ∧
           string_to_Z (Z_to_string n) = n.
Proof.
  intros Hn. unfold Z_to_string.
  destruct (Z.ltb_spec n 0); [lia|]. unfold nat_to_string.
  destruct (print_digits_spec (S (Z.to_nat (Z.log2 n))) n "") as (ds&->&?&?&?).
  - split; [done|]. by apply log2_fuel.
  - lia.
  - by rewrite app_string_nil_r.
Qed.
Lemma string_to_Z_to_string s :
  canonical_decimal s = true → Z_to_string (string_to_Z s) = s.
Proof.
  intros Hs. pose proof (string_to_Z_bound s (canonical_digits s Hs)) as [? _].
  destruct (Z_to_string_spec (string_to_Z s)) as [? ?]; [done|].
  by apply canonical_value_inj.
Qed.
Lemma Z_to_string_inj n m :
  0 <= n → 0 <= m → Z_to_string n = Z_to_string m → n = m.
Proof.
  intros ?? Heq. destruct (Z_to_string_spec n), (Z_to_string_spec m); [done..|].
  congruence.
Qed.

(** A number below [10^k], padded with zeros to [k] digits. *)
Lemma pad_start_spec (k : nat) n :
  (0 < k)%nat → 0 <= n < 10 ^ Z.of_nat k →
  all_chars is_digit (pad_start k "0" (Z_to_string n)) = true ∧
  slen (pad_start k "0" (Z_to_string n)) = Z.of_nat k ∧
  string_to_Z (pad_start k "0" (Z_to_string n)) = n.
Proof.
  intros Hk Hn. destruct (Z_to_string_spec n) as [Hc Hv]; [lia|].
  assert (slen (Z_to_string n) <= Z.of_nat k) as Hl.
  { destruct (canonical_cases _ Hc) as [->|Hp]; [change (slen "0") with 1; lia|].
    pose proof (positive_lower _ Hp) as Hlow. rewrite Hv in Hlow.
    destruct (Z.le_gt_cases (slen (Z_to_string n)) (Z.of_nat k)) as [?|Hgt]; [done|].
    assert (10 ^ Z.of_nat k <= 10 ^ (slen (Z_to_string n) - 1))
      by (apply Z.pow_le_mono_r; lia). lia. }
  unfold pad_start. rewrite all_chars_app, all_chars_repeat by done.
  rewrite (canonical_digits _ Hc), string_to_Z_app, string_to_Z_zeros, Hv.
  split_and!; [done| |lia].
  unfold slen in *. rewrite length_app_string, length_repeat_char. lia.
Qed.

(** Code-unit order on digit strings of one length is the order of values. *)
Lemma string_compare_digits s t :
  slen s = slen t → all_chars is_digit s = true → all_chars is_digit t = true →
  String.compare s t = Z.compare (string_to_Z s) (string_to_Z t).
Proof.
  revert t. induction s as [|c s IH]; intros [|d t]; rewrite ?slen_cons; intros Hl;
    [done|pose proof (slen_nonneg t); change (slen "") with 0 in Hl; lia
    |pose proof (slen_nonneg s); change (slen "") with 0 in Hl; lia|].
  simpl. intros Hs Ht. split_bool. rewrite !string_to_Z_cons.
  assert (slen s = slen t) as Hlen by lia. rewrite Hlen.
  pose proof (string_to_Z_bound s ltac:(done)). rewrite Hlen in *.
  pose proof (string_to_Z_bound t ltac:(done)).
  unfold Ascii.compare.
  assert ((N_of_ascii c ?= N_of_ascii d)%N = (digit_value c ?= digit_value d)) as ->.
  { rewrite <- N2Z.inj_compare. fold (code c) (code d). unfold digit_value.
    destruct (Z.compare_spec (code c) (code d)); symmetry;
      [apply Z.compare_eq_iff|apply Z.compare_lt_iff|apply Z.compare_gt_iff]; lia. }
  destruct (Z.compare_spec (digit_value c) (digit_value d)) as [Heq|?|?].
  - rewrite Heq, IH by done. symmetry.
    destruct (Z.compare_spec (string_to_Z s) (string_to_Z t));
      [apply Z.compare_eq_iff|apply Z.compare_lt_iff|apply Z.compare_gt_iff]; lia.
  - symmetry. apply Z.compare_lt_iff. nia.
  - symmetry. apply Z.compare_gt_iff. nia.
Qed.
Lemma string_leb_digits s t :
  slen s = slen t → all_chars is_digit s = true → all_chars is_digit t = true →
  String.leb s t = (string_to_Z s <=? string_to_Z t).
Proof.
  intros. unfold String.leb, Z.leb. by rewrite string_compare_digits.
Qed.

Lemma string_compare_app a b x y :
  slen a = slen b →
  String.compare (a ++ x) (b ++ y) =
    match String.compare a b with Eq => String.compare x y | c => c end.
Proof.
  revert b. induction a as [|c a IH]; intros [|d b]; rewrite ?slen_cons; intros Hl;
    [done|pose proof (slen_nonneg b); change (slen "") with 0 in Hl; lia
    |pose proof (slen_nonneg a); change (slen "") with 0 in Hl; lia|].
  simpl. rewrite IH by lia. by destruct (Ascii.compare c d).
Qed.
Lemma string_compare_cons c x y :
  String.compare (String c "" ++ x) (String c "" ++ y) = String.compare x y.
Proof.
  simpl. unfold Ascii.compare. by rewrite N.compare_refl.
Qed.
