(* ===== verification/JsDate.v ===== *)
(** * ECMAScript dates

    A [Date] is its time value, a number of milliseconds since 1970-01-01
    (ECMA-262, "Time Values and Time Range"); [NaN] is [None].  The functions
    are the specification's abstract operations, in the proleptic Gregorian
    calendar and in UTC.  Time zones are [Intl]'s: [TimeZones] is the offset it
    applies to an instant. *)
From S2P Require Import Prelude JsString.

(** [lia] reads quotients and remainders by constants. *)
Ltac Zify.zify_post_hook ::= Z.to_euclidean_division_equations.

Definition ms_per_day : Z := 86400000.
Definition day_of_time (t : Z) : Z := t / ms_per_day.
Definition time_within_day (t : Z) : Z := t mod ms_per_day.

Definition day_from_year (y : Z) : Z :=
  365 * (y - 1970) + (y - 1969) / 4 - (y - 1901) / 100 + (y - 1601) / 400.
Definition is_leap (y : Z) : bool :=
  (y mod 4 =? 0) && (negb (y mod 100 =? 0) || (y mod 400 =? 0)).
Definition leap_day (y : Z) : Z := if is_leap y then 1 else 0.

(** The largest year that starts on or before a day: the mean-year estimate is
    off by at most one. *)
Definition year_of_day (n : Z) : Z :=
  let y := 1970 + (400 * n) / 146097 in
  if n <? day_from_year y then y - 1
  else if day_from_year (y + 1) <=? n then y + 1
  else y.

(** First day of a month within its year (months count from 0). *)
Definition month_start (y m : Z) : Z :=
  if m <? 1 then 0
  else if m <? 2 then 31
  else leap_day y +
    (if m <? 3 then 59 else if m <? 4 then 90 else if m <? 5 then 120
     else if m <? 6 then 151 else if m <? 7 then 181 else if m <? 8 then 212
     else if m <? 9 then 243 else if m <? 10 then 273 else if m <? 11 then 304
     else if m <? 12 then 334 else 365).
Definition days_in_month (y m : Z) : Z := month_start y (m + 1) - month_start y m.

Definition month_of_day (y d : Z) : Z :=
  if d <? month_start y 1 then 0 else if d <? month_start y 2 then 1
  else if d <? month_start y 3 then 2 else if d <? month_start y 4 then 3
  else if d <? month_start y 5 then 4 else if d <? month_start y 6 then 5
  else if d <? month_start y 7 then 6 else if d <? month_start y 8 then 7
  else if d <? month_start y 9 then 8 else if d <? month_start y 10 then 9
  else if d <? month_start y 11 then 10 else 11.

(** [getUTCFullYear], [getUTCMonth], [getUTCDate] and the clock fields. *)
Definition utc_year (t : Z) : Z := year_of_day (day_of_time t).
Definition day_in_year (t : Z) : Z := day_of_time t - day_from_year (utc_year t).
Definition utc_month (t : Z) : Z := month_of_day (utc_year t) (day_in_year t).
Definition utc_date (t : Z) : Z :=
  day_in_year t - month_start (utc_year t) (utc_month t) + 1.
Definition utc_hours (t : Z) : Z := (t / 3600000) mod 24.
Definition utc_minutes (t : Z) : Z := (t / 60000) mod 60.
Definition utc_seconds (t : Z) : Z := (t / 1000) mod 60.
Definition utc_ms (t : Z) : Z := t mod 1000.

(** [MakeDay], [MakeTime], [MakeDate], [TimeClip] and [Date.UTC]. *)
Definition make_day (year month date : Z) : Z :=
  let y := year + month / 12 in
  day_from_year y + month_start y (month mod 12) + date - 1.
Definition make_time (h mi s ms : Z) : Z :=
  h * 3600000 + mi * 60000 + s * 1000 + ms.
Definition make_date (day time : Z) : Z := day * ms_per_day + time.
Definition time_clip (t : Z) : option Z :=
  if Z.abs t <=? 8640000000000000 then Some t else None.
Definition date_UTC (year month date h mi s ms : Z) : option Z :=
  let y := if (0 <=? year) && (year <=? 99) then 1900 + year else year in
  time_clip (make_date (make_day y month date) (make_time h mi s ms)).

(** [toISOString]: four-digit years from 0 to 9999, six signed digits outside. *)
Definition pad2 (n : Z) : string := pad_start 2 "0" (Z_to_string n).
Definition pad3 (n : Z) : string := pad_start 3 "0" (Z_to_string n).
Definition iso_year (y : Z) : string :=
  if (0 <=? y) && (y <=? 9999) then pad_start 4 "0" (Z_to_string y)
  else String (if y <? 0 then "-"%char else "+"%char)
              (pad_start 6 "0" (Z_to_string (Z.abs y))).
Definition iso_date (t : Z) : string :=
  (iso_year (utc_year t) ++ "-" ++ pad2 (utc_month t + 1) ++ "-" ++
   pad2 (utc_date t))%string.
Definition to_ISO_string (t : Z) : string :=
  (iso_date t ++ "T" ++ pad2 (utc_hours t) ++ ":" ++ pad2 (utc_minutes t) ++ ":"
   ++ pad2 (utc_seconds t) ++ "." ++ pad3 (utc_ms t) ++ "Z")%string.

(** What [Intl.DateTimeFormat] contributes: the offset of a zone from UTC at an
    instant, in milliseconds. *)
Class TimeZones := utc_offset : string → Z → Z.

(** ** Years *)

Lemma is_leap_div y :
  leap_day y = (y - 1968) / 4 - (y - 1969) / 4
             - ((y - 1900) / 100 - (y - 1901) / 100)
             + ((y - 1600) / 400 - (y - 1601) / 400).
Proof.
  assert ((y - 1968) / 4 - (y - 1969) / 4 = if y mod 4 =? 0 then 1 else 0) as ->
    by (destruct (Z.eqb_spec (y mod 4) 0); lia).
  assert ((y - 1900) / 100 - (y - 1901) / 100 = if y mod 100 =? 0 then 1 else 0)
    as -> by (destruct (Z.eqb_spec (y mod 100) 0); lia).
  assert ((y - 1600) / 400 - (y - 1601) / 400 = if y mod 400 =? 0 then 1 else 0)
    as -> by (destruct (Z.eqb_spec (y mod 400) 0); lia).
  unfold leap_day, is_leap.
  destruct (Z.eqb_spec (y mod 4) 0), (Z.eqb_spec (y mod 100) 0),
    (Z.eqb_spec (y mod 400) 0); cbn [andb orb negb]; lia.
Qed.
Lemma leap_day_bounds y : 0 <= leap_day y <= 1.
Proof. unfold leap_day. destruct (is_leap y); lia. Qed.
Lemma day_from_year_succ y :
  day_from_year (y + 1) = day_from_year y + 365 + leap_day y.
Proof.
  rewrite is_leap_div. unfold day_from_year.
  replace (y + 1 - 1969) with (y - 1968) by lia.
  replace (y + 1 - 1901) with (y - 1900) by lia.
  replace (y + 1 - 1601) with (y - 1600) by lia. lia.
Qed.
Lemma day_from_year_lt y y' : y < y' → day_from_year y + 365 <= day_from_year y'.
Proof.
  intros Hlt. replace y' with (y + 1 + Z.of_nat (Z.to_nat (y' - y - 1))) by lia.
  induction (Z.to_nat (y' - y - 1)) as [|k IH].
  - rewrite Z.add_0_r, day_from_year_succ. pose proof (leap_day_bounds y). lia.
  - replace (y + 1 + Z.of_nat (S k)) with (y + 1 + Z.of_nat k + 1) by lia.
    rewrite day_from_year_succ. pose proof (leap_day_bounds (y + 1 + Z.of_nat k)). lia.
Qed.
Lemma year_of_day_spec n :
  day_from_year (year_of_day n) <= n < day_from_year (year_of_day n + 1).
Proof.
  unfold year_of_day. set (y := 1970 + (400 * n) / 146097).
  assert (day_from_year (y - 1) <= n) by (unfold day_from_year, y; lia).
  assert (n < day_from_year (y + 2)) by (unfold day_from_year, y; lia).
  destruct (Z.ltb_spec n (day_from_year y)).
  - by replace (y - 1 + 1) with y by lia.
  - destruct (Z.leb_spec (day_from_year (y + 1)) n); [|done].
    by replace (y + 1 + 1) with (y + 2) by lia.
Qed.
Lemma year_of_day_unique n y :
  day_from_year y <= n < day_from_year (y + 1) → year_of_day n = y.
Proof.
  intros [H1 H2]. pose proof (year_of_day_spec n) as [H3 H4].
  destruct (Z.lt_trichotomy (year_of_day n) y) as [Hl|[?|Hl]]; [|done|].
  - assert (year_of_day n + 1 = y ∨ year_of_day n + 1 < y) as [Heq|Hl'] by lia;
      [by rewrite Heq in *; lia|]. apply day_from_year_lt in Hl'. lia.
  - assert (y + 1 = year_of_day n ∨ y + 1 < year_of_day n) as [Heq|Hl'] by lia;
      [by rewrite Heq in *; lia|]. apply day_from_year_lt in Hl'. lia.
Qed.

(** ** Months *)

Ltac split_ltb :=
  repeat match goal with
  | |- context [Z.ltb ?a ?b] => destruct (Z.ltb_spec a b); try lia
  end.
Lemma month_start_12 y : month_start y 12 = 365 + leap_day y.
Proof. unfold month_start. simpl. lia. Qed.
Lemma month_start_0 y : month_start y 0 = 0.
Proof. done. Qed.
Lemma days_in_month_bounds y m : 0 <= m <= 11 → 28 <= days_in_month y m <= 31.
Proof.
  intros ?. unfold days_in_month, month_start. pose proof (leap_day_bounds y).
  assert (m = 0 ∨ m = 1 ∨ m = 2 ∨ m = 3 ∨ m = 4 ∨ m = 5 ∨ m = 6 ∨ m = 7 ∨ m = 8 ∨
          m = 9 ∨ m = 10 ∨ m = 11) as Hm by lia.
  repeat (destruct Hm as [->|Hm]; [simpl; lia|]). subst. simpl. lia.
Qed.
Lemma month_start_succ y m : month_start y (m + 1) = month_start y m + days_in_month y m.
Proof. unfold days_in_month. lia. Qed.
Lemma month_start_mono y m m' :
  0 <= m → m <= m' → m' <= 12 → month_start y m <= month_start y m'.
Proof.
  intros. replace m' with (m + Z.of_nat (Z.to_nat (m' - m))) in * by lia.
  induction (Z.to_nat (m' - m)) as [|k IH].
  - by rewrite Z.add_0_r.
  - replace (m + Z.of_nat (S k)) with (m + Z.of_nat k + 1) in * by lia.
    rewrite month_start_succ.
    pose proof (days_in_month_bounds y (m + Z.of_nat k)). lia.
Qed.
Lemma month_of_day_spec y d :
  0 <= d < 365 + leap_day y →
  0 <= month_of_day y d <= 11 ∧
  month_start y (month_of_day y d) <= d < month_start y (month_of_day y d + 1).
Proof.
  intros Hd. pose proof (leap_day_bounds y). unfold month_of_day.
  repeat match goal with
  | |- 0 <= (if Z.ltb ?a ?b then _ else _) <= 11 ∧ _ =>
      destruct (Z.ltb_spec a b);
      [split; [lia|]; unfold month_start in *; simpl in *; lia|]
  end.
  split; [lia|]. change (11 + 1) with 12. rewrite month_start_12. lia.
Qed.
Lemma month_of_day_unique y m d :
  0 <= m <= 11 → month_start y m <= d < month_start y (m + 1) → month_of_day y d = m.
Proof.
  intros Hm Hd.
  assert (0 <= d < 365 + leap_day y) as Hr.
  { pose proof (month_start_mono y 0 m). pose proof (month_start_mono y (m + 1) 12).
    rewrite month_start_12, month_start_0 in *. lia. }
  destruct (month_of_day_spec y d Hr) as [Hb Hs].
  destruct (Z.lt_trichotomy (month_of_day y d) m) as [Hl|[?|Hl]]; [|done|].
  - pose proof (month_start_mono y (month_of_day y d + 1) m). lia.
  - pose proof (month_start_mono y (m + 1) (month_of_day y d)). lia.
Qed.

(** ** Calendar dates *)

Definition valid_civil (y m d : Z) : Prop :=
  0 <= m <= 11 ∧ 1 <= d <= days_in_month y m.

Lemma day_in_year_bounds t : 0 <= day_in_year t < 365 + leap_day (utc_year t).
Proof.
  unfold day_in_year. pose proof (year_of_day_spec (day_of_time t)) as H.
  fold (utc_year t) in H. rewrite day_from_year_succ in H. lia.
Qed.
Lemma utc_civil_valid t : valid_civil (utc_year t) (utc_month t) (utc_date t).
Proof.
  pose proof (day_in_year_bounds t) as Hd.
  destruct (month_of_day_spec _ _ Hd) as [Hm Hs]. fold (utc_month t) in *.
  split; [done|]. unfold utc_date, days_in_month. lia.
Qed.
Lemma make_day_plain y m d :
  0 <= m <= 11 → make_day y m d = day_from_year y + month_start y m + d - 1.
Proof.
  intros. unfold make_day. rewrite Z.div_small, Z.mod_small by lia.
  by rewrite Z.add_0_r.
Qed.
Lemma make_day_civil t :
  make_day (utc_year t) (utc_month t) (utc_date t) = day_of_time t.
Proof.
  destruct (utc_civil_valid t) as [? _]. rewrite make_day_plain by done.
  unfold utc_date, day_in_year. lia.
Qed.

Section civil.
Context (y m d t : Z).
Hypothesis Hv : valid_civil y m d.
Hypothesis Ht : day_of_time t = make_day y m d.

Lemma civil_day_in_year : 0 <= month_start y m + d - 1 < 365 + leap_day y.
Proof using Hv.
  destruct Hv as [? ?]. unfold days_in_month in *.
  pose proof (month_start_mono y 0 m). pose proof (month_start_mono y (m + 1) 12).
  rewrite month_start_12, month_start_0 in *. lia.
Qed.
Lemma civil_year : utc_year t = y.
Proof using Hv Ht.
  unfold utc_year. rewrite Ht. apply year_of_day_unique.
  rewrite make_day_plain by apply Hv. pose proof civil_day_in_year.
  rewrite day_from_year_succ. lia.
Qed.
Lemma civil_month : utc_month t = m.
Proof using Hv Ht.
  unfold utc_month, day_in_year. rewrite civil_year, Ht.
  rewrite make_day_plain by apply Hv. apply month_of_day_unique; [apply Hv|].
  destruct Hv as [? ?]. unfold days_in_month in *. lia.
Qed.
Lemma civil_date : utc_date t = d.
Proof using Hv Ht.
  unfold utc_date, day_in_year. rewrite civil_month, civil_year, Ht.
  rewrite make_day_plain by apply Hv. lia.
Qed.
End civil.

(** ** Times of day *)

Lemma make_time_of_time t :
  make_time (utc_hours t) (utc_minutes t) (utc_seconds t) (utc_ms t) =
  time_within_day t.
Proof.
  unfold make_time, utc_hours, utc_minutes, utc_seconds, utc_ms, time_within_day,
    ms_per_day. lia.
Qed.
Lemma time_within_day_bounds t : 0 <= time_within_day t < ms_per_day.
Proof. unfold time_within_day, ms_per_day. lia. Qed.
Lemma make_date_split t : make_date (day_of_time t) (time_within_day t) = t.
Proof. unfold make_date, day_of_time, time_within_day, ms_per_day. lia. Qed.
Lemma day_of_make_date n r : 0 <= r < ms_per_day → day_of_time (make_date n r) = n.
Proof. unfold make_date, day_of_time, ms_per_day. lia. Qed.
Lemma time_of_make_date n r : 0 <= r < ms_per_day → time_within_day (make_date n r) = r.
Proof. unfold make_date, time_within_day, ms_per_day. lia. Qed.
Lemma time_clip_Some t t' :
  time_clip t = Some t' ↔ t' = t ∧ Z.abs t <= 8640000000000000.
Proof. unfold time_clip. destruct (Z.leb_spec (Z.abs t) 8640000000000000); naive_solver lia. Qed.
