(* ===== verification/Json.v ===== *)
(** * Untyped values and schemas

    [json] is the program's [unknown]: what a request body, a JSON column or a
    setting holds.  [JFrac t] is a number that is not a safe integer, [t] its text
    ([String(v)]).  A Zod schema is a partial function: [None]
    is a failed parse.  An object is the list of its own properties, keys
    distinct. *)
From S2P Require Import Prelude JsString.

Inductive json : Type :=
| JUndefined
| JNull
| JBool (b : bool)
| JNum (n : Z)
| JFrac (text : string)
| JStr (s : string)
| JArr (l : list json)
| JObj (o : list (string * json)).

Definition schema (A : Type) : Type := json → option A.

Definition max_safe_integer : Z := 9007199254740991.

(** [schema.parse(v)] throws; [schema.safeParse(v)] is the schema itself. *)
Definition parse {A} (s : schema A) (v : json) : result A := of_option ZodError (s v).

Definition z_string : schema string := λ v,
  match v with JStr s => Some s | _ => None end.
Definition z_bool : schema bool := λ v,
  match v with JBool b => Some b | _ => None end.
(** [z.number().int()]. *)
Definition z_int : schema Z := λ v,
  match v with
  | JNum n => if Z.abs n <=? max_safe_integer then Some n else None
  | _ => None
  end.
(** [.refine(p)] and every check [.min], [.max], [.regex]. *)
Definition z_refine {A} (p : A → bool) (s : schema A) : schema A := λ v,
  match s v with
  | Some a => if p a then Some a else None
  | None => None
  end.
(** [.transform(f)], [.trim()], [.toUpperCase()]. *)
Definition z_map {A B} (f : A → B) (s : schema A) : schema B := λ v, f <$> s v.
(** [.pipe(...)] of a check on the parsed value is [z_refine]. *)
Definition z_optional {A} (s : schema A) : schema (option A) := λ v,
  match v with JUndefined => Some None | _ => Some <$> s v end.

(** Property access; an absent property is [undefined]. *)
Fixpoint get (k : string) (o : list (string * json)) : json :=
  match o with
  | [] => JUndefined
  | (k', v) :: o => if String.eqb k k' then v else get k o
  end.
(** [z.object(...).strict()]: an object with no property outside [keys]. *)
Definition z_strict_object (keys : list string) : schema (list (string * json)) :=
  λ v,
  match v with
  | JObj o =>
      if forallb (λ kv, existsb (String.eqb kv.1) keys) o then Some o else None
  | _ => None
  end.
Fixpoint z_all {A} (s : schema A) (l : list json) : option (list A) :=
  match l with
  | [] => Some []
  | v :: l => a ← s v; as_ ← z_all s l; Some (a :: as_)
  end.
Definition z_array {A} (s : schema A) : schema (list A) := λ v,
  match v with JArr l => z_all s l | _ => None end.

(** ** Schema lemmas *)

Lemma z_refine_Some {A} p (s : schema A) v a :
  z_refine p s v = Some a ↔ s v = Some a ∧ p a = true.
Proof.
  unfold z_refine. destruct (s v) as [b|]; [|naive_solver].
  destruct (p b) eqn:?; split; intros; destruct_and?; simplify_eq; auto; congruence.
Qed.
Lemma z_string_Some v s : z_string v = Some s ↔ v = JStr s.
Proof. destruct v; split; intros; simplify_eq/=; done. Qed.
Lemma z_int_Some v n : z_int v = Some n ↔ v = JNum n ∧ Z.abs n <= max_safe_integer.
Proof.
  destruct v as [| | |m| | | |]; simpl; try by split; intros; destruct_and?.
  destruct (Z.leb_spec (Z.abs m) max_safe_integer); split; intros; destruct_and?;
    simplify_eq; auto; lia.
Qed.
Lemma z_bool_Some v b : z_bool v = Some b ↔ v = JBool b.
Proof. destruct v; split; intros; simplify_eq/=; done. Qed.
Lemma z_strict_object_Some keys v o :
  z_strict_object keys v = Some o ↔
  v = JObj o ∧ forallb (λ kv, existsb (String.eqb kv.1) keys) o = true.
Proof.
  destruct v as [| | | | | | |o']; simpl; try by split; intros; destruct_and?.
  destruct (forallb _ o') eqn:?; split; intros; destruct_and?; simplify_eq; auto;
    congruence.
Qed.
Lemma parse_Ok {A} (s : schema A) v a : parse s v = Ok a ↔ s v = Some a.
Proof. apply of_option_Ok. Qed.
Lemma z_all_length {A} (s : schema A) l as_ :
  z_all s l = Some as_ → length as_ = length l.
Proof.
  revert as_. induction l as [|v l IH]; intros as_ H; simpl in H.
  - by simplify_eq.
  - destruct (s v); [|done]. destruct (z_all s l) eqn:E; [|done]. simplify_eq/=.
    by rewrite (IH _ eq_refl).
Qed.
#[export] Hint Rewrite @z_refine_Some z_string_Some z_int_Some z_bool_Some
  @z_strict_object_Some @parse_Ok : schema.
