(* ===== verification/Money.v ===== *)
(** * Money: minor units, decimal strings and provider amounts

    packages/shared/src/contracts/money.ts,
    packages/shared/src/contracts/pagination.ts and
    apps/api/src/modules/payment-gateways/payment-money.ts. *)
From S2P Require Import Prelude JsString Json.

(** ** contracts/money.ts *)
Definition POSTGRES_BIGINT_MAX : Z := 9223372036854775807.
Definition POSTGRES_BIGINT_MAX_STRING : string := Z_to_string POSTGRES_BIGINT_MAX.

Definition fitsPostgresBigint (value : string) : bool :=
  if negb (canonical_decimal value) then false
  else
    (slen value <? slen POSTGRES_BIGINT_MAX_STRING) ||
    ((slen value =? slen POSTGRES_BIGINT_MAX_STRING) &&
     String.leb value POSTGRES_BIGINT_MAX_STRING).

Definition is_currency_code (s : string) : bool :=
  (slen s =? 3) && all_chars is_upper s.
Definition currencyCodeSchema : schema string := z_refine is_currency_code z_string.
Definition minorUnitAmountSchema : schema string :=
  z_refine fitsPostgresBigint (z_refine canonical_decimal z_string).

Record SerializedMoney := MkMoney { sm_amount : string; sm_currency : string }.
Definition moneySchema : schema SerializedMoney := λ v,
  o ← z_strict_object ["amount"; "currency"] v;
  amount ← minorUnitAmountSchema (get "amount" o);
  currency ← currencyCodeSchema (get "currency" o);
  Some (MkMoney amount currency).

Record MoneyValue := MkMoneyValue { mv_amount : Z; mv_currency : string }.

Definition money_json (amount currency : string) : json :=
  JObj [("amount", JStr amount); ("currency", JStr currency)].
Definition serializeMoney (amount : Z) (currency : string) : result SerializedMoney :=
  parse moneySchema (money_json (Z_to_string amount) currency).
Definition parseMoney (value : json) : result MoneyValue :=
  serialized ← parse moneySchema value;
  Ok (MkMoneyValue (string_to_Z (sm_amount serialized)) (sm_currency serialized)).

(** ** contracts/pagination.ts *)
Record PaginationMeta := MkPagination
  { pg_page : Z; pg_pageSize : Z; pg_totalItems : Z; pg_totalPages : Z }.
Definition safe_non_negative (n : Z) : bool := (0 <=? n) && (n <=? max_safe_integer).
(** [Math.ceil(a / b)] on non-negative safe integers, [0 < b]. *)
Definition ceil_div (a b : Z) : Z := (a + b - 1) / b.
Definition createPaginationMeta (page pageSize totalItems : Z) : result PaginationMeta :=
  let totalPages := if totalItems =? 0 then 0 else ceil_div totalItems pageSize in
  if (1 <=? page) && (page <=? max_safe_integer) && (1 <=? pageSize) &&
     (pageSize <=? 100) && safe_non_negative totalItems &&
     safe_non_negative totalPages
  then Ok (MkPagination page pageSize totalItems totalPages)
  else Err ZodError.

(** ** payment-money.ts *)
Definition invalidMoney : exn :=
  PaymentProviderError "The payment provider returned an invalid amount." "FAILED".
Definition minorToMajor (amount : Z) : result string :=
  if amount <? 0 then Err invalidMoney
  else
    let whole := amount / 100 in
    let fraction := pad_start 2 "0" (Z_to_string (amount mod 100)) in
    Ok (Z_to_string whole ++ "." ++ fraction)%string.
(** The two groups of [MAJOR_AMOUNT_PATTERN]: a canonical whole part, then
    optionally a point and one or two digits. *)
Definition match_major_amount (s : string) : option (string * option string) :=
  match split_at "." s with
  | None => if canonical_decimal s then Some (s, None) else None
  | Some (w, f) =>
      if canonical_decimal w && all_chars is_digit f && (1 <=? slen f) && (slen f <=? 2)
      then Some (w, Some f) else None
  end.
Definition majorToMinor (value : string) : result Z :=
  match match_major_amount value with
  | None => Err invalidMoney
  | Some (w, f) =>
      let fraction := pad_end 2 "0" (default "" f) in
      Ok (string_to_Z w * 100 + string_to_Z fraction)
  end.

(** ** Lemmas *)

Lemma bigint_max_string_length : slen POSTGRES_BIGINT_MAX_STRING = 19.
Proof. vm_compute. reflexivity. Qed.

Lemma fits_spec s :
  fitsPostgresBigint s = true ↔
  canonical_decimal s = true ∧ string_to_Z s <= POSTGRES_BIGINT_MAX.
Proof.
  unfold fitsPostgresBigint. rewrite bigint_max_string_length.
  destruct (canonical_decimal s) eqn:Hc; simpl; [|naive_solver].
  pose proof (canonical_digits s Hc) as Hd. pose proof (string_to_Z_bound s Hd) as Hb.
  rewrite orb_true_iff, andb_true_iff, Z.ltb_lt, Z.eqb_eq.
  destruct (Z.lt_trichotomy (slen s) 19) as [Hl|[Hl|Hl]].
  - assert (10 ^ slen s <= 10 ^ 18) by (apply Z.pow_le_mono_r; lia).
    unfold POSTGRES_BIGINT_MAX. split; [split; [done|lia]|auto].
  - rewrite string_leb_digits;
      [|by rewrite Hl|done|by vm_compute].
    assert (string_to_Z POSTGRES_BIGINT_MAX_STRING = POSTGRES_BIGINT_MAX) as ->
      by (vm_compute; reflexivity).
    rewrite Z.leb_le. split; [intros [?|[_ ?]]; [lia|done]|intros [_ ?]; auto].
  - split; [intros [?|[? _]]; lia|intros [_ Hle]].
    destruct (canonical_cases s Hc) as [->|Hp]; [done|].
    pose proof (positive_lower s Hp).
    assert (10 ^ 19 <= 10 ^ (slen s - 1)) by (apply Z.pow_le_mono_r; lia).
    unfold POSTGRES_BIGINT_MAX in *. lia.
Qed.

Lemma minor_unit_amount_spec s :
  minorUnitAmountSchema (JStr s) = Some s ↔
  canonical_decimal s = true ∧ string_to_Z s <= POSTGRES_BIGINT_MAX.
Proof.
  unfold minorUnitAmountSchema. rewrite !z_refine_Some, fits_spec.
  simpl. naive_solver.
Qed.
Lemma minor_unit_amount_printed n :
  0 <= n → (minorUnitAmountSchema (JStr (Z_to_string n)) = Some (Z_to_string n) ↔
            n <= POSTGRES_BIGINT_MAX).
Proof.
  intros Hn. destruct (Z_to_string_spec n Hn) as [? Hv].
  rewrite minor_unit_amount_spec, Hv. naive_solver.
Qed.
Lemma currency_code_spec s :
  currencyCodeSchema (JStr s) = Some s ↔ is_currency_code s = true.
Proof. unfold currencyCodeSchema. rewrite z_refine_Some. simpl. naive_solver. Qed.

Lemma moneySchema_json amount currency m :
  moneySchema (money_json amount currency) = Some m ↔
  m = MkMoney amount currency ∧
  minorUnitAmountSchema (JStr amount) = Some amount ∧
  currencyCodeSchema (JStr currency) = Some currency.
Proof.
  unfold moneySchema. cbn [z_strict_object money_json forallb existsb fst get
    String.eqb Ascii.eqb Bool.eqb andb orb mbind option_bind].
  destruct (minorUnitAmountSchema (JStr amount)) as [a|] eqn:Ea;
    [|split; [done|naive_solver]].
  assert (a = amount) as ->.
  { unfold minorUnitAmountSchema in Ea. rewrite !z_refine_Some in Ea.
    destruct Ea as [[Ea _] _]. by simplify_eq/=. }
  cbn [mbind option_bind].
  destruct (currencyCodeSchema (JStr currency)) as [c|] eqn:Ec;
    [|split; [done|naive_solver]].
  assert (c = currency) as ->.
  { unfold currencyCodeSchema in Ec. rewrite z_refine_Some in Ec.
    destruct Ec as [Ec _]. by simplify_eq/=. }
  naive_solver.
Qed.

Lemma negative_not_canonical n : n < 0 → canonical_decimal (Z_to_string n) = false.
Proof.
  intros Hn. unfold Z_to_string. destruct (Z.ltb_spec n 0); [|lia].
  simpl. destruct (nat_to_string (- n)) eqn:E; [done|done].
Qed.

Lemma split_at_app c s t :
  all_chars (λ d, negb (Ascii.eqb d c)) s = true →
  split_at c (s ++ String c "" ++ t) = Some (s, t).
Proof.
  change (String c "" ++ t)%string with (String c t). induction s as [|d s IH]; simpl.
  - by rewrite Ascii.eqb_refl.
  - intros H. split_bool. destruct (Ascii.eqb d c); [done|]. by rewrite IH.
Qed.
Lemma digit_not_dot d : is_digit d = true → negb (Ascii.eqb d ".") = true.
Proof.
  intros H. destruct (Ascii.eqb_spec d "."); [subst|done].
  by vm_compute in H.
Qed.
(** ** Properties *)

(** C38: [minorUnitAmountSchema] accepts exactly the canonical decimal numerals
    of the integers a PostgreSQL BIGINT column can hold: its comparison of
    lengths and of code units decides the numeric bound. *)
Theorem minor_units_exact s :
  minorUnitAmountSchema (JStr s) = Some s ↔
  ∃ n, 0 <= n <= POSTGRES_BIGINT_MAX ∧ s = Z_to_string n.
Proof.
  rewrite minor_unit_amount_spec. split.
  - intros [Hc Hle]. exists (string_to_Z s).
    rewrite string_to_Z_to_string by done.
    pose proof (string_to_Z_bound s (canonical_digits s Hc)). split; [lia|done].
  - intros (n & Hn & ->). destruct (Z_to_string_spec n) as [? ->]; [lia|].
    split; [done|lia].
Qed.

(** [parseMoney] reads back every amount [serializeMoney] writes, and
    [serializeMoney] accepts exactly the amounts of a BIGINT column in a
    three-letter uppercase currency. *)
Theorem money_roundtrip amount currency m :
  serializeMoney amount currency = Ok m ↔
  m = MkMoney (Z_to_string amount) currency ∧
  parseMoney (money_json (sm_amount m) (sm_currency m)) =
    Ok (MkMoneyValue amount currency) ∧
  0 <= amount <= POSTGRES_BIGINT_MAX ∧ is_currency_code currency = true.
Proof.
  unfold serializeMoney, parseMoney. rewrite parse_Ok, moneySchema_json.
  rewrite currency_code_spec.
  destruct (Z.lt_ge_cases amount 0) as [Hneg|Hpos].
  - split; [|intros (_&_&?&_); lia]. rewrite minor_unit_amount_spec.
    intros (_&[Hc _]&_). by rewrite negative_not_canonical in Hc.
  - rewrite minor_unit_amount_printed by done.
    split; [intros (->&?&?)|intros (->&_&?&?); naive_solver].
    split_and!; [done| |done..]. simpl.
    rewrite result_bind_Ok. exists (MkMoney (Z_to_string amount) currency).
    rewrite parse_Ok, moneySchema_json, currency_code_spec, minor_unit_amount_printed
      by done.
    simpl. destruct (Z_to_string_spec amount Hpos) as [_ ->]. naive_solver.
Qed.

(** A provider amount printed by [minorToMajor] reads back with
    [majorToMinor] as the same number of minor units, for every amount. *)
Theorem provider_amount_roundtrip amount :
  minorToMajor amount ≫= majorToMinor =
    if amount <? 0 then Err invalidMoney else Ok amount.
Proof.
  unfold minorToMajor. destruct (Z.ltb_spec amount 0) as [?|Hpos]; [done|].
  cbn [mbind result_bind].
  pose proof (Z.mod_pos_bound amount 100 ltac:(lia)) as Hm.
  pose proof (Z.div_mod amount 100 ltac:(lia)) as Hdm.
  destruct (pad_start_spec 2 (amount mod 100)) as (Hd&Hl&Hv); [lia|exact Hm|]. revert Hd Hl Hv.
  change (Z.of_nat 2) with 2.
  generalize (pad_start 2 "0" (Z_to_string (amount mod 100))). intros f Hd Hl Hv.
  destruct (Z_to_string_spec (amount / 100)) as [Hc Hw]; [apply Z.div_pos; lia|].
  unfold majorToMinor, match_major_amount.
  rewrite split_at_app.
  2:{ eapply all_chars_impl; [apply digit_not_dot|]. by apply canonical_digits. }
  rewrite Hc, Hd, Hl. simpl. unfold pad_end.
  replace (2 - String.length f)%nat with O by (unfold slen in Hl; lia).
  rewrite app_string_nil_r, Hv, Hw. f_equal. lia.
Qed.

(** The number of pages is the least one that holds every item. *)
Theorem pagination_pages page pageSize totalItems m
    (H : createPaginationMeta page pageSize totalItems = Ok m) :
  pg_page m = page ∧ pg_pageSize m = pageSize ∧ pg_totalItems m = totalItems ∧
  (pg_totalPages m - 1) * pageSize < Z.max 1 totalItems <=
    Z.max 1 (pg_totalPages m * pageSize).
Proof.
  unfold createPaginationMeta in H. case_match eqn:E; [|done]. simplify_eq/=.
  split_bool. unfold safe_non_negative in *. split_bool. split_and!; [done..| |].
  - destruct (Z.eqb_spec totalItems 0); [lia|]. unfold ceil_div.
    pose proof (Z.mul_div_le (totalItems + pageSize - 1) pageSize). lia.
  - destruct (Z.eqb_spec totalItems 0); [lia|]. unfold ceil_div.
    pose proof (Z.mul_succ_div_gt (totalItems + pageSize - 1) pageSize). lia.
Qed.
Lemma pagination_pages_witness :
  createPaginationMeta 1 20 41 = Ok (MkPagination 1 20 41 3) ∧
  (3 - 1) * 20 < 41 <= 60.
Proof.
  split; [reflexivity|].
  pose proof (pagination_pages 1 20 41 (MkPagination 1 20 41 3) eq_refl)
    as (_&_&_&H). exact H.
Defined.
