(* ===== verification/CurrencyArithmetic.v ===== *)
(** * Exact currency conversion

    packages/shared/src/currency-arithmetic.ts: the schemas of currency
    metadata and rates, ratio reduction, decimal rates, and half-even conversion
    of minor units. *)
From S2P Require Import Prelude JsString Json Money.

(** ** Limits and schemas *)
Definition CURRENCY_ARITHMETIC_POLICY : string := "currency-half-even-v1".
Definition limit_definitions : Z := 32.
Definition limit_minorUnitExponent : Z := 4.
Definition limit_ratioDigits : Z := 96.
Definition limit_decimalWholeDigits : Z := 64.
Definition limit_decimalFractionDigits : Z := 32.
Definition limit_decimalTokenLength : Z := 97.

Definition max_length (n : Z) (s : string) : bool := slen s <=? n.
Definition is_version_char (c : ascii) : bool :=
  is_alnum c || existsb (Ascii.eqb c) ["."; "_"; ":"; "-"]%char.
(** An alphanumeric first character, then letters, digits and [._:-]. *)
Definition is_version (s : string) : bool :=
  match s with
  | String c t => is_alnum c && all_chars is_version_char t
  | EmptyString => false
  end.
Definition metadataVersionSchema : schema string :=
  z_refine is_version (z_refine (max_length 64) z_string).
Definition boundedCurrencyCodeSchema : schema string :=
  z_refine is_currency_code (z_refine (λ s, slen s =? 3) z_string).
Definition boundedAmountSchema : schema string :=
  z_refine fitsPostgresBigint
    (z_refine canonical_decimal (z_refine (max_length 19) z_string)).
Definition positiveRatioIntegerSchema : schema string :=
  z_refine positive_decimal (z_refine (max_length limit_ratioDigits) z_string).
(** A canonical whole part, then optionally a point and digits. *)
Definition is_decimal_rate (s : string) : bool :=
  match split_at "." s with
  | None => canonical_decimal s
  | Some (w, f) => canonical_decimal w && all_chars is_digit f && (1 <=? slen f)
  end.
Definition decimalRateTokenSchema : schema string :=
  z_refine is_decimal_rate (z_refine (max_length limit_decimalTokenLength) z_string).

Definition is_graph (c : ascii) : bool := (33 <=? code c) && (code c <=? 126).
Definition is_print (c : ascii) : bool := (32 <=? code c) && (code c <=? 126).
(** Printable ASCII that neither starts nor ends with a blank. *)
Definition is_provenance (s : string) : bool :=
  all_chars is_print s &&
  match s with
  | String c t =>
      is_graph c &&
      match String.get (String.length s - 1) s with
      | Some d => is_graph d
      | None => false
      end
  | EmptyString => false
  end.
Definition provenanceSchema : schema string :=
  z_refine is_provenance (z_refine (λ s, (1 <=? slen s) && (slen s <=? 256)) z_string).

Inductive UnitStatus := current | historical.
#[export] Instance UnitStatus_eq_dec : EqDecision UnitStatus.
Proof. solve_decision. Defined.
Definition unitStatusSchema : schema UnitStatus := λ v,
  match v with
  | JStr s => if String.eqb s "current" then Some current
              else if String.eqb s "historical" then Some historical else None
  | _ => None
  end.

Record CurrencyUnitDefinition := MkUnit
  { cu_code : string; cu_minorUnitExponent : Z; cu_metadataVersion : string;
    cu_provenance : string; cu_status : UnitStatus }.
Definition currencyUnitDefinitionSchema : schema CurrencyUnitDefinition := λ v,
  o ← z_strict_object
        ["code"; "minorUnitExponent"; "metadataVersion"; "provenance"; "status"] v;
  code ← boundedCurrencyCodeSchema (get "code" o);
  exponent ← z_refine (λ n, (0 <=? n) && (n <=? limit_minorUnitExponent)) z_int
               (get "minorUnitExponent" o);
  version ← metadataVersionSchema (get "metadataVersion" o);
  provenance ← provenanceSchema (get "provenance" o);
  status ← unitStatusSchema (get "status" o);
  Some (MkUnit code exponent version provenance status).

Definition unit_identity (d : CurrencyUnitDefinition) : string :=
  (cu_code d ++ ":" ++ cu_metadataVersion d)%string.
(** The [superRefine] loop: an issue is raised for each identity seen before. *)
Fixpoint no_repeats (seen l : list string) : bool :=
  match l with
  | [] => true
  | s :: l => negb (existsb (String.eqb s) seen) && no_repeats (s :: seen) l
  end.
Definition bounded_array (n : Z) (v : json) : bool :=
  match v with
  | JArr l => (0 <? Z.of_nat (length l)) && (Z.of_nat (length l) <=? n)
  | _ => false
  end.
Definition currencyUnitContextSchema : schema (list CurrencyUnitDefinition) := λ v,
  if bounded_array limit_definitions v then
    definitions ← z_array currencyUnitDefinitionSchema v;
    if no_repeats [] (unit_identity <$> definitions) then Some definitions else None
  else None.

Record ExactRatio := MkRatio { er_numerator : string; er_denominator : string }.
Definition exactRatioSchema : schema ExactRatio := λ v,
  o ← z_strict_object ["numerator"; "denominator"] v;
  n ← positiveRatioIntegerSchema (get "numerator" o);
  d ← positiveRatioIntegerSchema (get "denominator" o);
  Some (MkRatio n d).

Record DirectedCurrencyRate := MkRate
  { dr_ratio : ExactRatio; dr_sourceCurrency : string; dr_targetCurrency : string }.
Definition directedCurrencyRateSchema : schema DirectedCurrencyRate := λ v,
  o ← z_strict_object
        ["numerator"; "denominator"; "sourceCurrency"; "targetCurrency"] v;
  n ← positiveRatioIntegerSchema (get "numerator" o);
  d ← positiveRatioIntegerSchema (get "denominator" o);
  s ← boundedCurrencyCodeSchema (get "sourceCurrency" o);
  t ← boundedCurrencyCodeSchema (get "targetCurrency" o);
  Some (MkRate (MkRatio n d) s t).

Record UnitReference := MkRef { ref_code : string; ref_metadataVersion : string }.
#[export] Instance UnitReference_eq_dec : EqDecision UnitReference.
Proof. solve_decision. Defined.
Definition unitReferenceSchema : schema UnitReference := λ v,
  o ← z_strict_object ["code"; "metadataVersion"] v;
  c ← boundedCurrencyCodeSchema (get "code" o);
  m ← metadataVersionSchema (get "metadataVersion" o);
  Some (MkRef c m).

Record CurrencyConversionInput := MkConversionInput
  { in_amount : string; in_source : UnitReference; in_target : UnitReference;
    in_rate : option DirectedCurrencyRate }.
Definition currencyConversionInputSchema : schema CurrencyConversionInput := λ v,
  o ← z_strict_object ["amount"; "source"; "target"; "rate"] v;
  a ← boundedAmountSchema (get "amount" o);
  s ← unitReferenceSchema (get "source" o);
  t ← unitReferenceSchema (get "target" o);
  r ← z_optional directedCurrencyRateSchema (get "rate" o);
  Some (MkConversionInput a s t r).

Inductive ConversionMethod := identity | conversion.
Record Rounding := MkRounding
  { rd_quotient : string; rd_remainder : string; rd_divisor : string;
    rd_incremented : bool }.
Record CurrencyConversionResult := MkConversion
  { cv_policyVersion : string; cv_method : ConversionMethod;
    cv_source : SerializedMoney * CurrencyUnitDefinition;
    cv_target : SerializedMoney * CurrencyUnitDefinition;
    cv_rate : option DirectedCurrencyRate; cv_rounding : Rounding }.

(** ** Ratios *)

(** The [while (right !== 0n)] loop. Two iterations at least halve [right], so
    twice its bit length is enough fuel ([gcd_loop_gcd]). *)
Fixpoint gcd_loop (fuel : nat) (left right : Z) : Z :=
  match fuel with
  | O => left
  | S fuel => if right =? 0 then left else gcd_loop fuel right (left mod right)
  end.
Definition greatestCommonDivisor (left right : Z) : Z :=
  gcd_loop (2 * Z.to_nat (Z.log2 right + 1) + 1) left right.
Definition reducedRatio (numerator denominator : Z) : ExactRatio :=
  let divisor := greatestCommonDivisor numerator denominator in
  MkRatio (Z_to_string (numerator / divisor)) (Z_to_string (denominator / divisor)).
Definition normalizeExactRatio (value : json) : result ExactRatio :=
  ratio ← parse exactRatioSchema value;
  Ok (reducedRatio (string_to_Z (er_numerator ratio))
                   (string_to_Z (er_denominator ratio))).
Definition parseExactDecimalRate (value : json) : result ExactRatio :=
  token ← parse decimalRateTokenSchema value;
  let '(whole, fraction) := default (token, "") (split_at "." token) in
  if (limit_decimalWholeDigits <? slen whole) ||
     (limit_decimalFractionDigits <? slen fraction)
  then Err (RangeError "Rate exceeds exact decimal limits")
  else
    let numerator := string_to_Z (whole ++ fraction) in
    if numerator =? 0 then Err (RangeError "Rate must be positive")
    else Ok (reducedRatio numerator (10 ^ slen fraction)).

(** ** Conversion *)
Definition unit_matches (r : UnitReference) (d : CurrencyUnitDefinition) : bool :=
  String.eqb (cu_code d) (ref_code r) &&
  String.eqb (cu_metadataVersion d) (ref_metadataVersion r).
(** [definitions.find(...)], shared with currency-policy.ts. *)
Definition find_unit (definitions : list CurrencyUnitDefinition) (r : UnitReference)
    : option CurrencyUnitDefinition :=
  List.find (unit_matches r) definitions.
Definition resolveDefinition (definitions : list CurrencyUnitDefinition)
    (reference : UnitReference) : result CurrencyUnitDefinition :=
  of_option (RangeError "Currency metadata is not in the explicit context")
            (find_unit definitions reference).

Definition ratio_json (r : ExactRatio) : json :=
  JObj [("numerator", JStr (er_numerator r)); ("denominator", JStr (er_denominator r))].

Definition identity_result (amount : string) (source target : CurrencyUnitDefinition)
    : CurrencyConversionResult :=
  let sourceMoney := MkMoney amount (cu_code source) in
  MkConversion CURRENCY_ARITHMETIC_POLICY identity (sourceMoney, source)
    (sourceMoney, target) None (MkRounding amount "0" "1" false).

Definition convertCurrencyMinorUnits (value explicitDefinitions : json)
    : result CurrencyConversionResult :=
  input ← parse currencyConversionInputSchema value;
  definitions ← parse currencyUnitContextSchema explicitDefinitions;
  source ← resolveDefinition definitions (in_source input);
  target ← resolveDefinition definitions (in_target input);
  let amount := string_to_Z (in_amount input) in
  let sourceMoney := MkMoney (in_amount input) (cu_code source) in
  if String.eqb (cu_code source) (cu_code target) then
    if negb (String.eqb (cu_metadataVersion source) (cu_metadataVersion target)) ||
       (if in_rate input then true else false)
    then Err (RangeError "Identity requires matching metadata and no external rate")
    else Ok (identity_result (in_amount input) source target)
  else
    match in_rate input with
    | None => Err (RangeError "Conversion requires a matching directed rate")
    | Some rate =>
        if negb (String.eqb (dr_sourceCurrency rate) (cu_code source)) ||
           negb (String.eqb (dr_targetCurrency rate) (cu_code target))
        then Err (RangeError "Conversion requires a matching directed rate")
        else
          ratio ← normalizeExactRatio (ratio_json (dr_ratio rate));
          let numerator := amount * string_to_Z (er_numerator ratio) *
                           10 ^ cu_minorUnitExponent target in
          let divisor := string_to_Z (er_denominator ratio) *
                         10 ^ cu_minorUnitExponent source in
          let quotient := numerator / divisor in
          let remainder := numerator mod divisor in
          let doubledRemainder := remainder * 2 in
          let incremented :=
            (divisor <? doubledRemainder) ||
            ((doubledRemainder =? divisor) && (quotient mod 2 =? 1)) in
          let rounded := quotient + (if incremented then 1 else 0) in
          if POSTGRES_BIGINT_MAX <? rounded
          then Err (RangeError "Converted amount exceeds the PostgreSQL BIGINT range")
          else
            Ok (MkConversion CURRENCY_ARITHMETIC_POLICY conversion
                  (sourceMoney, source)
                  (MkMoney (Z_to_string rounded) (cu_code target), target)
                  (Some (MkRate ratio (cu_code source) (cu_code target)))
                  (MkRounding (Z_to_string quotient) (Z_to_string remainder)
                              (Z_to_string divisor) incremented))
    end.

(** ** The greatest common divisor *)

Lemma gcd_loop_gcd k fuel l r :
  0 <= l → 0 <= r < 2 ^ Z.of_nat k → (2 * k + 1 <= fuel)%nat →
  gcd_loop fuel l r = Z.gcd l r.
Proof.
  revert fuel l r. induction k as [|k IH]; intros fuel l r Hl Hr Hf.
  - destruct fuel as [|fuel]; [lia|]. assert (r = 0) as -> by (simpl in Hr; lia).
    simpl. by rewrite Z.gcd_0_r, Z.abs_eq.
  - destruct fuel as [|[|fuel]]; [lia..|]. cbn [gcd_loop].
    destruct (Z.eqb_spec r 0) as [->|Hr0]; [by rewrite Z.gcd_0_r, Z.abs_eq|].
    pose proof (Z.mod_pos_bound l r ltac:(lia)) as Hs.
    rewrite (Z.gcd_comm l r), <- (Z.gcd_mod l r) by done.
    rewrite (Z.gcd_comm (l mod r) r). set (s := l mod r) in *.
    destruct (Z.eqb_spec s 0) as [->|Hs0]; [by rewrite Z.gcd_0_r, Z.abs_eq by lia|].
    rewrite (Z.gcd_comm r s), <- (Z.gcd_mod r s) by done.
    rewrite (Z.gcd_comm (r mod s) s).
    pose proof (Z.mod_pos_bound r s ltac:(lia)) as Ht.
    pose proof (Z.div_mod r s Hs0) as Hd.
    assert (1 <= r / s) by (apply Z.div_le_lower_bound; lia).
    apply IH; [lia| |lia].
    replace (Z.of_nat (S k)) with (1 + Z.of_nat k) in Hr by lia.
    rewrite Z.pow_add_r in Hr by lia. nia.
Qed.
Lemma greatestCommonDivisor_gcd l r :
  0 <= l → 0 <= r → greatestCommonDivisor l r = Z.gcd l r.
Proof.
  intros Hl Hr. unfold greatestCommonDivisor.
  apply (gcd_loop_gcd (Z.to_nat (Z.log2 r + 1))); [done| |lia].
  pose proof (Z.log2_nonneg r). split; [done|].
  replace (Z.of_nat _) with (Z.succ (Z.log2 r)) by lia.
  destruct (decide (r = 0)) as [->|?]; [done|]. apply Z.log2_spec. lia.
Qed.
(** One turn of the loop. *)
Inductive gcd_step : Z * Z → Z * Z → Prop :=
| gcd_turn left right : right ≠ 0 → gcd_step (left, right) (right, left mod right).
Lemma gcd_steps k l r :
  0 <= l → 0 <= r < 2 ^ Z.of_nat k →
  ∃ n, (n <= 2 * k)%nat ∧ nsteps gcd_step n (l, r) (Z.gcd l r, 0).
Proof.
  revert l r. induction k as [|k IH]; intros l r Hl Hr.
  - assert (r = 0) as -> by (simpl in Hr; lia). exists 0%nat. split; [lia|].
    rewrite Z.gcd_0_r, Z.abs_eq by done. constructor.
  - destruct (Z.eqb_spec r 0) as [->|Hr0].
    { exists 0%nat. split; [lia|]. rewrite Z.gcd_0_r, Z.abs_eq by done. constructor. }
    pose proof (Z.mod_pos_bound l r ltac:(lia)) as Hs.
    rewrite (Z.gcd_comm l r), <- (Z.gcd_mod l r), (Z.gcd_comm (l mod r) r) by done.
    assert (gcd_step (l, r) (r, l mod r)) as Hturn by by constructor.
    set (s := l mod r) in *. destruct (Z.eqb_spec s 0) as [->|Hs0].
    { exists 1%nat. split; [lia|]. rewrite Z.gcd_0_r, Z.abs_eq by lia. by apply nsteps_once. }
    rewrite (Z.gcd_comm r s), <- (Z.gcd_mod r s), (Z.gcd_comm (r mod s) s) by done.
    pose proof (Z.mod_pos_bound r s ltac:(lia)) as Ht. pose proof (Z.div_mod r s Hs0) as Hd.
    assert (1 <= r / s) by (apply Z.div_le_lower_bound; lia).
    destruct (IH s (r mod s)) as (n&Hn&Hsteps); [lia| |].
    { replace (Z.of_nat (S k)) with (1 + Z.of_nat k) in Hr by lia.
      rewrite Z.pow_add_r in Hr by lia. nia. }
    exists (S (S n)). split; [lia|]. eapply nsteps_l; [exact Hturn|].
    eapply nsteps_l; [by constructor|exact Hsteps].
Qed.

(** C36: the loop that reduces a ratio ends, whatever its two numbers: after at most
    two turns for each bit of the second number, with their greatest common divisor,
    which is what the function returns. *)
Theorem euclid_terminates l r (Hl : 0 <= l) (Hr : 0 <= r) :
  ∃ n, (n <= 2 * Z.to_nat (Z.log2 r + 1))%nat ∧
    nsteps gcd_step n (l, r) (greatestCommonDivisor l r, 0) ∧
    greatestCommonDivisor l r = Z.gcd l r.
Proof.
  rewrite greatestCommonDivisor_gcd by done.
  destruct (gcd_steps (Z.to_nat (Z.log2 r + 1)) l r Hl) as (n&Hn&Hs); [|by exists n].
  split; [done|]. pose proof (Z.log2_nonneg r). rewrite Z2Nat.id by lia.
  destruct (Z.eq_dec r 0) as [->|]; [done|]. apply Z.log2_lt_pow2; lia.
Qed.
Lemma euclid_terminates_witness :
  (0 <= 84 ∧ 0 <= 36) ∧ ∃ n, (n <= 2 * Z.to_nat (Z.log2 36 + 1))%nat ∧
    nsteps gcd_step n (84, 36) (greatestCommonDivisor 84 36, 0) ∧
    greatestCommonDivisor 84 36 = Z.gcd 84 36.
Proof. split; [lia|]. apply (euclid_terminates 84 36); lia. Defined.

(** [represents r n d]: the ratio is in lowest terms, written in canonical
    decimal, and equal to [n / d]. *)
Definition represents (r : ExactRatio) (n d : Z) : Prop :=
  positive_decimal (er_numerator r) = true ∧
  positive_decimal (er_denominator r) = true ∧
  Z.gcd (string_to_Z (er_numerator r)) (string_to_Z (er_denominator r)) = 1 ∧
  ∃ g, 0 < g ∧ n = string_to_Z (er_numerator r) * g ∧
       d = string_to_Z (er_denominator r) * g.

Lemma positive_printed n : 0 < n → positive_decimal (Z_to_string n) = true.
Proof.
  intros Hn. destruct (Z_to_string_spec n) as [Hc Hv]; [lia|].
  destruct (canonical_cases _ Hc) as [He|?]; [|done].
  rewrite He in Hv. by change (string_to_Z "0") with 0 in Hv; lia.
Qed.
Lemma reducedRatio_represents n d : 0 < n → 0 < d → represents (reducedRatio n d) n d.
Proof.
  intros Hn Hd. unfold reducedRatio. rewrite greatestCommonDivisor_gcd by lia.
  pose proof (Z.gcd_divide_l n d) as [a Ha]. pose proof (Z.gcd_divide_r n d) as [b Hb].
  pose proof (Z.gcd_nonneg n d) as Hg.
  assert (Z.gcd n d ≠ 0) by (intros E; rewrite Z.gcd_eq_0 in E; lia).
  set (g := Z.gcd n d) in *.
  assert (n / g = a) as Hna by (rewrite Ha; apply Z.div_mul; done).
  assert (d / g = b) as Hdb by (rewrite Hb; apply Z.div_mul; done).
  assert (0 < a ∧ 0 < b) as [? ?] by nia. unfold represents. cbn [er_numerator er_denominator].
  rewrite Hna, Hdb.
  destruct (Z_to_string_spec a) as [_ ->]; [lia|].
  destruct (Z_to_string_spec b) as [_ ->]; [lia|].
  split_and!; [by apply positive_printed..| |exists g; lia].
  rewrite <- Hna, <- Hdb. apply Z.gcd_div_gcd; done.
Qed.

Lemma positive_ratio_schema s :
  positiveRatioIntegerSchema (JStr s) = Some s ↔
  positive_decimal s = true ∧ slen s <= limit_ratioDigits.
Proof.
  unfold positiveRatioIntegerSchema, max_length. rewrite !z_refine_Some, Z.leb_le.
  simpl. split; [intros [[_ ?] ?]|intros [? ?]]; auto.
Qed.
Lemma z_refine_string p v s :
  z_refine p z_string v = Some s → v = JStr s ∧ p s = true.
Proof. rewrite z_refine_Some, z_string_Some. done. Qed.
Lemma positive_ratio_value v s :
  positiveRatioIntegerSchema v = Some s →
  v = JStr s ∧ positive_decimal s = true ∧ slen s <= limit_ratioDigits.
Proof.
  intros H. assert (v = JStr s) as ->.
  { unfold positiveRatioIntegerSchema in H. rewrite !z_refine_Some, z_string_Some in H.
    tauto. }
  apply positive_ratio_schema in H. done.
Qed.

(** ** Half-even rounding *)

(** The integer nearest to [n / d]; of two nearest ones, the even one. *)
Definition half_even (n d q : Z) : Prop :=
  2 * Z.abs (n - q * d) <= d ∧ (2 * Z.abs (n - q * d) = d → Z.Even q).

Lemma half_even_unique n d q q' : 0 < d → half_even n d q → half_even n d q' → q = q'.
Proof.
  intros Hd [H1 E1] [H2 E2].
  assert (q = q' ∨ q' = q + 1 ∨ q = q' + 1) as [?|[-> | ->]] by nia; [done|exfalso..].
  - destruct E1 as [a Ha], E2 as [b Hb]; [nia..|lia].
  - destruct E1 as [a Ha], E2 as [b Hb]; [nia..|lia].
Qed.
Lemma half_even_scale n d g q :
  0 < g → half_even (n * g) (d * g) q ↔ half_even n d q.
Proof.
  intros Hg. unfold half_even.
  replace (n * g - q * (d * g)) with ((n - q * d) * g) by ring.
  rewrite Z.abs_mul, (Z.abs_eq g) by lia.
  replace (2 * (Z.abs (n - q * d) * g)) with (2 * Z.abs (n - q * d) * g) by ring.
  rewrite <- (Z.mul_le_mono_pos_r _ _ g) by done.
  rewrite Z.mul_cancel_r by lia. done.
Qed.
Lemma half_even_mono n n' d q q' :
  0 < d → n <= n' → half_even n d q → half_even n' d q' → q <= q'.
Proof.
  intros Hd Hn [H1 E1] [H2 E2]. destruct (Z.le_gt_cases q q') as [?|Hgt]; [done|].
  exfalso. assert (q = q' + 1) as -> by nia.
  destruct E1 as [a Ha], E2 as [b Hb]; [nia..|lia].
Qed.

(** The rounding step of [convertCurrencyMinorUnits]. *)
Definition round_step (numerator divisor : Z) : Z * bool :=
  let quotient := numerator / divisor in
  let doubled := numerator mod divisor * 2 in
  let incremented :=
    (divisor <? doubled) || ((doubled =? divisor) && (quotient mod 2 =? 1)) in
  (quotient + (if incremented then 1 else 0), incremented).

Lemma round_step_half_even n d : 0 < d → half_even n d (round_step n d).1.
Proof.
  intros Hd. unfold round_step, half_even. cbn [fst].
  pose proof (Z.div_mod n d ltac:(lia)) as Hdm.
  pose proof (Z.mod_pos_bound n d Hd) as Hm.
  pose proof (Z.mod_pos_bound (n / d) 2 ltac:(lia)) as Hp.
  pose proof (Z.div_mod (n / d) 2 ltac:(lia)) as Hp2.
  set (q := n / d) in *. set (r := n mod d) in *.
  destruct (Z.ltb_spec d (r * 2)); cbn [orb].
  - replace (n - (q + 1) * d) with (- (d - r)) by lia. rewrite Z.abs_opp, Z.abs_eq by lia.
    split; [lia|]. intros. lia.
  - destruct (Z.eqb_spec (r * 2) d) as [Hh|Hh]; cbn [andb].
    + destruct (Z.eqb_spec (q mod 2) 1) as [Ho|Ho].
      * replace (n - (q + 1) * d) with (- (d - r)) by lia.
        rewrite Z.abs_opp, Z.abs_eq by lia. split; [lia|]. intros _. exists (q / 2 + 1). lia.
      * replace (n - (q + 0) * d) with r by lia. rewrite Z.abs_eq by lia.
        split; [lia|]. intros _. exists (q / 2). lia.
    + replace (n - (q + 0) * d) with r by lia. rewrite Z.abs_eq by lia. lia.
Qed.

(** ** What the schemas establish *)

Definition unit_wf (d : CurrencyUnitDefinition) : Prop :=
  is_currency_code (cu_code d) = true ∧ is_version (cu_metadataVersion d) = true ∧
  0 <= cu_minorUnitExponent d <= limit_minorUnitExponent.

Ltac schema_step :=
  match goal with
  | H : (_ ≫= _) = Some _ |- _ => apply bind_Some in H as (?&?&?); cbn beta in *
  | H : z_refine _ _ _ = Some _ |- _ => apply z_refine_Some in H as [? ?]
  | H : z_string _ = Some _ |- _ => apply z_string_Some in H
  | H : z_int _ = Some _ |- _ => apply z_int_Some in H as [? ?]
  end.
Ltac schema_inv := repeat (schema_step; simplify_eq).

Lemma unit_schema_wf v d : currencyUnitDefinitionSchema v = Some d → unit_wf d.
Proof.
  unfold currencyUnitDefinitionSchema. intros H. schema_inv.
  unfold boundedCurrencyCodeSchema, metadataVersionSchema in *. schema_inv.
  split_bool. by split_and!.
Qed.
Lemma z_all_Forall {A} (s : schema A) (P : A → Prop) l as_ :
  (∀ v a, s v = Some a → P a) → z_all s l = Some as_ → Forall P as_.
Proof.
  intros HP. revert as_. induction l as [|v l IH]; intros as_ H; simpl in H.
  - by simplify_eq.
  - schema_inv. eauto.
Qed.
Lemma context_wf v defs :
  currencyUnitContextSchema v = Some defs →
  Forall unit_wf defs ∧ no_repeats [] (unit_identity <$> defs) = true.
Proof.
  unfold currencyUnitContextSchema. intros H. case_match; [|done]. schema_inv.
  case_match; simplify_eq. split; [|done]. unfold z_array in *. case_match; try done.
  eapply z_all_Forall; [|done]. apply unit_schema_wf.
Qed.
Lemma find_unit_Some defs r d :
  find_unit defs r = Some d →
  d ∈ defs ∧ cu_code d = ref_code r ∧ cu_metadataVersion d = ref_metadataVersion r.
Proof.
  unfold find_unit. intros [Hin Hm]%find_some. unfold unit_matches in Hm. split_bool.
  rewrite list_elem_of_In. split_and!; [done|by apply String.eqb_eq..].
Qed.
Lemma resolved_wf v defs r d :
  currencyUnitContextSchema v = Some defs → resolveDefinition defs r = Ok d →
  unit_wf d ∧ cu_code d = ref_code r ∧ cu_metadataVersion d = ref_metadataVersion r.
Proof.
  intros [Hwf _]%context_wf Hd. apply of_option_Ok, find_unit_Some in Hd as (?&?&?).
  split; [|done]. by eapply Forall_elem.
Qed.
Definition rate_wf (r : ExactRatio) : Prop :=
  positive_decimal (er_numerator r) = true ∧ slen (er_numerator r) <= limit_ratioDigits ∧
  positive_decimal (er_denominator r) = true ∧
  slen (er_denominator r) <= limit_ratioDigits.
Definition input_wf (i : CurrencyConversionInput) : Prop :=
  canonical_decimal (in_amount i) = true ∧
  string_to_Z (in_amount i) <= POSTGRES_BIGINT_MAX ∧
  ∀ r, in_rate i = Some r → rate_wf (dr_ratio r).

Lemma rate_schema_wf v r : directedCurrencyRateSchema v = Some r → rate_wf (dr_ratio r).
Proof.
  unfold directedCurrencyRateSchema. intros H. schema_inv.
  repeat match goal with
  | H : positiveRatioIntegerSchema _ = Some _ |- _ =>
      apply positive_ratio_value in H as (_&?&?)
  end. done.
Qed.
Lemma input_schema_wf v i : currencyConversionInputSchema v = Some i → input_wf i.
Proof.
  unfold currencyConversionInputSchema, boundedAmountSchema. intros H. schema_inv.
  match goal with H : fitsPostgresBigint _ = true |- _ => apply fits_spec in H as [? ?] end.
  split_and!; [done..|]. cbn. intros r ->.
  match goal with H : z_optional _ ?x = Some _ |- _ => destruct x; simpl in H end;
    simplify_eq;
    match goal with H : _ <$> _ = Some _ |- _ => apply fmap_Some in H as (?&?&?) end;
    simplify_eq; by eapply rate_schema_wf.
Qed.

Lemma normalize_rate r :
  rate_wf r →
  normalizeExactRatio (ratio_json r) =
    Ok (reducedRatio (string_to_Z (er_numerator r)) (string_to_Z (er_denominator r))).
Proof.
  intros (?&?&?&?). unfold normalizeExactRatio, parse, exactRatioSchema, ratio_json.
  cbn [z_strict_object forallb existsb fst get String.eqb Ascii.eqb Bool.eqb andb orb
    mbind option_bind].
  rewrite (proj2 (positive_ratio_schema _)) by done. cbn [mbind option_bind].
  by rewrite (proj2 (positive_ratio_schema _)) by done.
Qed.

(** The exact fraction of target minor units a conversion asks for, with the
    rate as the caller wrote it. *)
Definition exact_numerator (amount : Z) (r : ExactRatio) (t : CurrencyUnitDefinition) : Z :=
  amount * string_to_Z (er_numerator r) * 10 ^ cu_minorUnitExponent t.
Definition exact_denominator (r : ExactRatio) (s : CurrencyUnitDefinition) : Z :=
  string_to_Z (er_denominator r) * 10 ^ cu_minorUnitExponent s.

Lemma exact_denominator_pos r s : rate_wf r → unit_wf s → 0 < exact_denominator r s.
Proof.
  intros (_&_&Hp&_) (_&_&?). apply positive_decimal_value in Hp.
  unfold exact_denominator. pose proof (pow10_pos (cu_minorUnitExponent s)). nia.
Qed.
Lemma reduced_fraction amount r s t :
  rate_wf r → unit_wf s → unit_wf t →
  let r' := reducedRatio (string_to_Z (er_numerator r)) (string_to_Z (er_denominator r)) in
  ∃ g, 0 < g ∧ 0 < exact_denominator r' s ∧
    exact_numerator amount r t = exact_numerator amount r' t * g ∧
    exact_denominator r s = exact_denominator r' s * g.
Proof.
  intros (Hn&_&Hd&_) Hs Ht r'.
  destruct (reducedRatio_represents (string_to_Z (er_numerator r))
    (string_to_Z (er_denominator r))) as (_&Hp&_&g&?&E1&E2);
    [by apply positive_decimal_value..|].
  fold r' in Hp, E1, E2. exists g. unfold exact_numerator, exact_denominator.
  rewrite E1, E2. split_and!; [done| |ring..].
  apply positive_decimal_value in Hp. destruct Hs as (_&_&?).
  pose proof (pow10_pos (cu_minorUnitExponent s)). nia.
Qed.

Lemma round_step_nonneg n d : 0 <= n → 0 < d → 0 <= (round_step n d).1.
Proof.
  intros. unfold round_step. cbn [fst].
  assert (0 <= n / d) by (apply Z.div_pos; lia). case_match; lia.
Qed.
Lemma exact_numerator_nonneg amount r t :
  0 <= amount → positive_decimal (er_numerator r) = true →
  0 <= exact_numerator amount r t.
Proof.
  intros ? Hp%positive_decimal_value. unfold exact_numerator.
  apply Z.mul_nonneg_nonneg; [lia|]. apply Z.pow_nonneg. lia.
Qed.
(** Rounding with the reduced ratio rounds the submitted one. *)
Lemma round_reduced amount r s t :
  rate_wf r → unit_wf s → unit_wf t → 0 <= amount →
  let r' := reducedRatio (string_to_Z (er_numerator r)) (string_to_Z (er_denominator r)) in
  let q := (round_step (exact_numerator amount r' t) (exact_denominator r' s)).1 in
  0 <= q ∧ half_even (exact_numerator amount r t) (exact_denominator r s) q.
Proof.
  intros Hr Hs Ht Ha r' q.
  destruct (reduced_fraction amount r s t Hr Hs Ht) as (g&Hg&Hpos&E1&E2).
  fold r' in Hpos, E1, E2. split.
  - apply round_step_nonneg; [|done]. apply exact_numerator_nonneg; [done|].
    destruct Hr as (Hn&_&Hd&_).
    apply (reducedRatio_represents (string_to_Z (er_numerator r))
      (string_to_Z (er_denominator r))); by apply positive_decimal_value.
  - rewrite E1, E2. apply half_even_scale; [done|]. by apply round_step_half_even.
Qed.

(** ** Properties *)

(** C35: a successful conversion between two currencies returns the half-even
    rounding of the exact product amount * rate * 10^target / 10^source, for
    the rate as submitted (reducing the ratio first changes nothing), within
    BIGINT, written in canonical decimal; and only a rate directed from source
    to target is used. *)
Theorem conversion_half_even value explicitDefinitions res
    (H : convertCurrencyMinorUnits value explicitDefinitions = Ok res)
    (Hm : cv_method res = conversion) :
  ∃ input rate,
    parse currencyConversionInputSchema value = Ok input ∧ in_rate input = Some rate ∧
    dr_sourceCurrency rate = cu_code (cv_source res).2 ∧
    dr_targetCurrency rate = cu_code (cv_target res).2 ∧
    let target_amount := sm_amount (cv_target res).1 in
    canonical_decimal target_amount = true ∧
    string_to_Z target_amount <= POSTGRES_BIGINT_MAX ∧
    half_even (exact_numerator (string_to_Z (in_amount input)) (dr_ratio rate)
                 (cv_target res).2)
              (exact_denominator (dr_ratio rate) (cv_source res).2)
              (string_to_Z target_amount).
Proof.
  unfold convertCurrencyMinorUnits in H. run_inv.
  rename x into input, x0 into defs, x1 into source, x2 into target.
  pose proof H as Hi. apply parse_Ok in H, H0.
  destruct (input_schema_wf _ _ H) as (Hc&Hmax&Hr).
  destruct (resolved_wf _ _ _ _ H0 H1) as (Hs&_), (resolved_wf _ _ _ _ H0 H2) as (Ht&_).
  case_match eqn:Ecode; [case_match; simplify_eq; done|].
  case_match eqn:Erate; [|done]. case_match eqn:Edir; [done|]. split_bool.
  specialize (Hr _ eq_refl). rewrite normalize_rate in H3 by done.
  cbn [mbind result_bind] in H3.
  match type of H3 with context [reducedRatio ?a ?b] => set (ratio := reducedRatio a b) in * end.
  case_match eqn:Emax; [done|]. simplify_eq. cbn [cv_source cv_target fst snd sm_amount].
  split_bool.
  destruct (round_reduced (string_to_Z (in_amount input)) (dr_ratio d) source target)
    as [Hnn Hround]; [done..|by apply string_to_Z_bound, canonical_digits|].
  destruct (Z_to_string_spec _ Hnn) as [Hcan Hval].
  exists input, d. split_and!; [done|done|by apply String.eqb_eq..|exact Hcan| |].
  - etrans; [apply Z.eq_le_incl, Hval|]. exact Emax.
  - rewrite <- Hval in Hround. exact Hround.
Qed.

(** Taka to yen at 3/4: 2 minor units of an exponent-0 target are exact halves. *)
Definition example_unit (code : string) (exponent : Z) : json :=
  JObj [("code", JStr code); ("minorUnitExponent", JNum exponent);
        ("metadataVersion", JStr "v1"); ("provenance", JStr "iso");
        ("status", JStr "current")].
Definition example_ref (code : string) : json :=
  JObj [("code", JStr code); ("metadataVersion", JStr "v1")].
Definition example_definitions : json :=
  JArr [example_unit "BDT" 2; example_unit "JPY" 0].
Definition example_conversion (amount numerator denominator : string) : json :=
  JObj [("amount", JStr amount); ("source", example_ref "BDT");
        ("target", example_ref "JPY");
        ("rate", JObj [("numerator", JStr numerator); ("denominator", JStr denominator);
                       ("sourceCurrency", JStr "BDT"); ("targetCurrency", JStr "JPY")])].

Example conversion_ties_to_even :
  (sm_amount ∘ fst ∘ cv_target) <$>
    convertCurrencyMinorUnits (example_conversion "250" "6" "6") example_definitions
    = Ok "2" ∧
  (sm_amount ∘ fst ∘ cv_target) <$>
    convertCurrencyMinorUnits (example_conversion "350" "1" "1") example_definitions
    = Ok "4".
Proof. split; vm_compute; reflexivity. Qed.

Lemma conversion_half_even_witness :
  ∃ res, convertCurrencyMinorUnits (example_conversion "250" "6" "6")
           example_definitions = Ok res ∧
  half_even (250 * 6 * 1) (6 * 100) (string_to_Z (sm_amount (cv_target res).1)).
Proof.
  eexists. split; [vm_compute; reflexivity|].
  destruct (conversion_half_even (example_conversion "250" "6" "6")
    example_definitions _ ltac:(vm_compute; reflexivity) eq_refl)
    as (i&r&Hi&Hr&_&_&_&_&Hh).
  vm_compute in Hi. injection Hi as <-. vm_compute in Hr. injection Hr as <-.
  exact Hh.
Defined.

Lemma represents_unique r r' n d n' d' :
  represents r n d → represents r' n' d' → n * d' = n' * d → r = r'.
Proof.
  destruct r as [a b], r' as [a' b']. unfold represents.
  cbn [er_numerator er_denominator].
  intros (Ha&Hb&Hg&g&Hg0&->&->) (Ha'&Hb'&Hg'&g'&Hg0'&->&->) Heq.
  assert (string_to_Z a * string_to_Z b' = string_to_Z a' * string_to_Z b) as Hcross.
  { apply (Z.mul_reg_r _ _ (g * g')); [nia|].
    replace (string_to_Z a * string_to_Z b' * (g * g'))
      with (string_to_Z a * g * (string_to_Z b' * g')) by ring.
    rewrite Heq. ring. }
  apply positive_decimal_value in Ha as Pa, Hb as Pb, Ha' as Pa', Hb' as Pb'.
  assert (string_to_Z a = string_to_Z a') as Hn.
  { apply Z.divide_antisym_nonneg; [lia..| |].
    - apply (Z.gauss _ (string_to_Z b)); [|done].
      exists (string_to_Z b'). lia.
    - apply (Z.gauss _ (string_to_Z b')); [|done].
      exists (string_to_Z b). lia. }
  assert (string_to_Z b = string_to_Z b') by nia.
  f_equal; apply canonical_value_inj; try by apply positive_canonical. all: done.
Qed.

(** [normalizeExactRatio] decides equality of rates: two ratios have the
    same normal form exactly when they are equal as fractions, the normal form
    is in lowest terms, and it exists for every accepted ratio. *)
Theorem normal_form_exact r r'
    (H : rate_wf r) (H' : rate_wf r') :
  (∃ nf, normalizeExactRatio (ratio_json r) = Ok nf ∧
         represents nf (string_to_Z (er_numerator r)) (string_to_Z (er_denominator r))) ∧
  (normalizeExactRatio (ratio_json r) = normalizeExactRatio (ratio_json r') ↔
   string_to_Z (er_numerator r) * string_to_Z (er_denominator r') =
   string_to_Z (er_numerator r') * string_to_Z (er_denominator r)).
Proof.
  rewrite !normalize_rate by done.
  pose proof H as (Hn&_&Hd&_). pose proof H' as (Hn'&_&Hd'&_).
  apply positive_decimal_value in Hn, Hd, Hn', Hd'.
  pose proof (reducedRatio_represents _ _ Hn Hd) as R.
  pose proof (reducedRatio_represents _ _ Hn' Hd') as R'.
  split; [eauto|]. split; [|intros Heq; f_equal; by eapply represents_unique].
  intros Heq.
  assert (∀ a b : ExactRatio, Ok a = Ok b → a = b) as Hinj by (intros; congruence).
  apply Hinj in Heq. rewrite Heq in R. clear Heq. revert R R'.
  generalize (reducedRatio (string_to_Z (er_numerator r'))
    (string_to_Z (er_denominator r'))).
  intros nf (_&_&_&g&_&->&->) (_&_&_&g'&_&->&->). ring.
Qed.
Lemma normal_form_exact_witness :
  normalizeExactRatio (ratio_json (MkRatio "6" "4")) =
  normalizeExactRatio (ratio_json (MkRatio "3" "2")).
Proof.
  assert (rate_wf (MkRatio "6" "4") ∧ rate_wf (MkRatio "3" "2")) as [H H'].
  { unfold rate_wf. repeat split; vm_compute; congruence. }
  destruct (normal_form_exact (MkRatio "6" "4") (MkRatio "3" "2") H H') as [_ [_ E]].
  apply E. vm_compute. reflexivity.
Defined.
