(* ===== verification/CurrencyPolicy.v ===== *)
(** * Currency policy

    packages/shared/src/currency-policy.ts: which currencies a business
    displays, sells and collects in, and when one policy may replace another. *)
From S2P Require Import Prelude JsString Json Money CurrencyArithmetic.

(** ** Schemas *)
Definition CURRENCY_POLICY_entries : Z := 32.
Definition CURRENCY_POLICY_revisionLength : Z := 64.

Definition revisionSchema : schema string :=
  z_refine is_version (z_refine (max_length CURRENCY_POLICY_revisionLength) z_string).
(** [currencyUnitDefinitionSchema.pick({code, metadataVersion}).strict()]. *)
Definition currencyPolicyUnitReferenceSchema : schema UnitReference :=
  unitReferenceSchema.

Record CurrencyCapabilities := MkCapabilities
  { cap_display : bool; cap_newSales : bool; cap_collection : bool }.
#[export] Instance CurrencyCapabilities_eq_dec : EqDecision CurrencyCapabilities.
Proof. solve_decision. Defined.
Definition currencyCapabilitiesSchema : schema CurrencyCapabilities := λ v,
  o ← z_strict_object ["display"; "newSales"; "collection"] v;
  d ← z_bool (get "display" o);
  n ← z_bool (get "newSales" o);
  c ← z_bool (get "collection" o);
  Some (MkCapabilities d n c).

Record CurrencyPolicyEntry := MkEntry
  { ent_unit : UnitReference; ent_capabilities : CurrencyCapabilities }.
Definition currencyPolicyEntrySchema : schema CurrencyPolicyEntry := λ v,
  o ← z_strict_object ["unit"; "capabilities"] v;
  u ← currencyPolicyUnitReferenceSchema (get "unit" o);
  c ← currencyCapabilitiesSchema (get "capabilities" o);
  Some (MkEntry u c).
Definition entriesSchema : schema (list CurrencyPolicyEntry) := λ v,
  if bounded_array CURRENCY_POLICY_entries v
  then z_array currencyPolicyEntrySchema v else None.

Record CurrencyPolicy := MkPolicy
  { cp_revision : string; cp_base : UnitReference; cp_defaultBrowsing : UnitReference;
    cp_preferredSecondary : option UnitReference;
    cp_currencies : list CurrencyPolicyEntry }.
(** The [superRefine] of [currencyPolicySchema]: it raises no issue. *)
Definition policy_checks (p : CurrencyPolicy) : bool :=
  no_repeats [] ((ref_code ∘ ent_unit) <$> cp_currencies p) &&
  match cp_preferredSecondary p with
  | Some s => negb (String.eqb (ref_code s) (ref_code (cp_defaultBrowsing p)))
  | None => true
  end.
Definition currencyPolicySchema : schema CurrencyPolicy := λ v,
  o ← z_strict_object
        ["revision"; "base"; "defaultBrowsing"; "preferredSecondary"; "currencies"] v;
  r ← revisionSchema (get "revision" o);
  b ← currencyPolicyUnitReferenceSchema (get "base" o);
  d ← currencyPolicyUnitReferenceSchema (get "defaultBrowsing" o);
  s ← z_optional currencyPolicyUnitReferenceSchema (get "preferredSecondary" o);
  c ← entriesSchema (get "currencies" o);
  let p := MkPolicy r b d s c in
  if policy_checks p then Some p else None.

(** ** A policy in its context *)
Definition findUnit (definitions : list CurrencyUnitDefinition)
    (reference : UnitReference) : option CurrencyUnitDefinition :=
  List.find (unit_matches reference) definitions.
Definition is_current (s : UnitStatus) : bool :=
  match s with current => true | historical => false end.

Record CurrencyPolicyContext := MkContext
  { ctx_policy : CurrencyPolicy; ctx_definitions : list CurrencyUnitDefinition }.
(** The first loop: each entry's unit is defined, and a historical unit enables
    neither display nor sales. *)
Definition entry_checks (definitions : list CurrencyUnitDefinition)
    (e : CurrencyPolicyEntry) : bool :=
  match findUnit definitions (ent_unit e) with
  | None => false
  | Some d =>
      negb (negb (is_current (cu_status d)) &&
            (cap_display (ent_capabilities e) || cap_newSales (ent_capabilities e)))
  end.
Definition same_unit (r r' : UnitReference) : bool :=
  String.eqb (ref_code r') (ref_code r) &&
  String.eqb (ref_metadataVersion r') (ref_metadataVersion r).
Definition find_entry (p : CurrencyPolicy) (r : UnitReference)
    : option CurrencyPolicyEntry :=
  List.find (λ e, same_unit r (ent_unit e)) (cp_currencies p).
(** The second loop, for one of [base], [defaultBrowsing], [preferredSecondary]. *)
Definition selection_checks (c : CurrencyPolicyContext) (is_base : bool)
    (reference : option UnitReference) : bool :=
  match reference with
  | None => true
  | Some r =>
      match find_entry (ctx_policy c) r, findUnit (ctx_definitions c) r with
      | Some e, Some d =>
          is_base || (cap_display (ent_capabilities e) && is_current (cu_status d))
      | _, _ => false
      end
  end.
Definition context_checks (c : CurrencyPolicyContext) : bool :=
  forallb (entry_checks (ctx_definitions c)) (cp_currencies (ctx_policy c)) &&
  selection_checks c true (Some (cp_base (ctx_policy c))) &&
  selection_checks c false (Some (cp_defaultBrowsing (ctx_policy c))) &&
  selection_checks c false (cp_preferredSecondary (ctx_policy c)).
Definition currencyPolicyContextSchema : schema CurrencyPolicyContext := λ v,
  o ← z_strict_object ["policy"; "definitions"] v;
  p ← currencyPolicySchema (get "policy" o);
  d ← currencyUnitContextSchema (get "definitions" o);
  let c := MkContext p d in
  if context_checks c then Some c else None.

(** ** Reading a policy *)
Definition no_capabilities : CurrencyCapabilities := MkCapabilities false false false.
Definition readCurrencyPolicyCapabilities (value code : json)
    : result CurrencyCapabilities :=
  parsedCode ← parse boundedCurrencyCodeSchema code;
  c ← parse currencyPolicyContextSchema value;
  Ok match List.find (λ e, String.eqb (ref_code (ent_unit e)) parsedCode)
             (cp_currencies (ctx_policy c)) with
     | Some e => ent_capabilities e
     | None => no_capabilities
     end.
Definition resolveHistoricalCurrencyUnit (reference explicitDefinitions : json)
    : result CurrencyUnitDefinition :=
  unit ← parse currencyPolicyUnitReferenceSchema reference;
  definitions ← parse currencyUnitContextSchema explicitDefinitions;
  of_option (RangeError "Historical unit is not in the explicit context")
            (findUnit definitions unit).

(** ** Replacing a policy *)
Record TransitionInput := MkTransition
  { ti_current : CurrencyPolicy; ti_proposed : CurrencyPolicy;
    ti_definitions : list CurrencyUnitDefinition; ti_expectedRevision : string;
    ti_financialHistoryExists : bool }.
Definition currencyPolicyTransitionInputSchema : schema TransitionInput := λ v,
  o ← z_strict_object ["current"; "proposed"; "definitions"; "expectedRevision";
                       "financialHistoryExists"] v;
  c ← currencyPolicySchema (get "current" o);
  p ← currencyPolicySchema (get "proposed" o);
  d ← currencyUnitContextSchema (get "definitions" o);
  r ← revisionSchema (get "expectedRevision" o);
  h ← z_bool (get "financialHistoryExists" o);
  Some (MkTransition c p d r h).
(** [currencyPolicyContextSchema.parse({policy, definitions})] on parsed values:
    parsing is idempotent, so only the cross checks are left. *)
Definition check_context (p : CurrencyPolicy) (d : list CurrencyUnitDefinition)
    : result CurrencyPolicyContext :=
  let c := MkContext p d in if context_checks c then Ok c else Err ZodError.
Definition validateCurrencyPolicyTransition (value : json)
    : result CurrencyPolicyContext :=
  input ← parse currencyPolicyTransitionInputSchema value;
  current ← check_context (ti_current input) (ti_definitions input);
  proposed ← check_context (ti_proposed input) (ti_definitions input);
  if negb (String.eqb (ti_expectedRevision input) (cp_revision (ctx_policy current)))
  then Err (RangeError "Currency policy revision is stale")
  else if String.eqb (cp_revision (ctx_policy proposed)) (cp_revision (ctx_policy current))
  then Err (RangeError "Replacement revision must differ from current revision")
  else if ti_financialHistoryExists input &&
          negb (String.eqb (ref_code (cp_base (ctx_policy proposed)))
                           (ref_code (cp_base (ctx_policy current))))
  then Err (RangeError "Base currency is locked after financial history exists")
  else Ok proposed.

(** ** Lemmas *)

Lemma no_repeats_NoDup seen l :
  no_repeats seen l = true → NoDup l ∧ ∀ x, x ∈ l → x ∉ seen.
Proof.
  revert seen. induction l as [|s l IH]; intros seen; simpl.
  - intros _. split; [constructor|]. by intros x ?%not_elem_of_nil.
  - intros H. split_bool.
    destruct (IH _ ltac:(done)) as [Hn Hs]. split.
    + constructor; [|done]. intros Hin. apply (Hs s Hin). left.
    + intros x [->|Hin]%elem_of_cons Hx.
      * assert (existsb (String.eqb s) seen = true); [|congruence].
        apply existsb_exists. exists s. rewrite <- list_elem_of_In.
        split; [done|apply String.eqb_refl].
      * apply (Hs x Hin). by right.
Qed.
Lemma check_context_Ok p d c :
  check_context p d = Ok c ↔ c = MkContext p d ∧ context_checks (MkContext p d) = true.
Proof.
  unfold check_context. cbn zeta. destruct (context_checks _) eqn:?; split; intros;
    destruct_and?; simplify_eq; auto.
Qed.

(** A context is sound when no historical unit is displayed or sold and the
    browsing choices are displayed units that are current. *)
Definition entry_sound (defs : list CurrencyUnitDefinition) (e : CurrencyPolicyEntry) : Prop :=
  ∃ d, d ∈ defs ∧ cu_code d = ref_code (ent_unit e) ∧
       cu_metadataVersion d = ref_metadataVersion (ent_unit e) ∧
       (cap_display (ent_capabilities e) = true ∨
        cap_newSales (ent_capabilities e) = true → cu_status d = current).
Definition browsable (c : CurrencyPolicyContext) (r : UnitReference) : Prop :=
  ∃ e d, e ∈ cp_currencies (ctx_policy c) ∧ ent_unit e = r ∧
         d ∈ ctx_definitions c ∧ cu_code d = ref_code r ∧
         cu_metadataVersion d = ref_metadataVersion r ∧
         cap_display (ent_capabilities e) = true ∧ cu_status d = current.
Definition context_sound (c : CurrencyPolicyContext) : Prop :=
  Forall (entry_sound (ctx_definitions c)) (cp_currencies (ctx_policy c)) ∧
  browsable c (cp_defaultBrowsing (ctx_policy c)) ∧
  (∀ r, cp_preferredSecondary (ctx_policy c) = Some r → browsable c r) ∧
  ∃ e, e ∈ cp_currencies (ctx_policy c) ∧ ent_unit e = cp_base (ctx_policy c).

Lemma findUnit_Some defs r d :
  findUnit defs r = Some d →
  d ∈ defs ∧ cu_code d = ref_code r ∧ cu_metadataVersion d = ref_metadataVersion r.
Proof. apply find_unit_Some. Qed.
Lemma same_unit_eq r r' : same_unit r r' = true → r' = r.
Proof.
  unfold same_unit. intros H. split_bool. destruct r, r'. cbn in *.
  f_equal; by apply String.eqb_eq.
Qed.
Lemma find_entry_Some p r e :
  find_entry p r = Some e → e ∈ cp_currencies p ∧ ent_unit e = r.
Proof.
  unfold find_entry. intros [Hin Hs]%find_some. rewrite list_elem_of_In.
  split; [done|]. by apply same_unit_eq.
Qed.
Lemma entry_checks_sound defs e : entry_checks defs e = true → entry_sound defs e.
Proof.
  unfold entry_checks. case_match eqn:Hf; [|done]. intros H.
  apply findUnit_Some in Hf as (?&?&?). exists c. split_and!; [done..|].
  intros Hor. destruct (cu_status c); [done|]. simpl in H. split_bool. naive_solver congruence.
Qed.
Lemma selection_sound c r :
  selection_checks c false (Some r) = true → browsable c r.
Proof.
  unfold selection_checks. case_match eqn:He; [|done]. case_match eqn:Hd; [|done].
  cbn [orb]. intros H. split_bool.
  apply find_entry_Some in He as [? ?]. apply findUnit_Some in Hd as (?&?&?).
  exists c0, c1. split_and!; try done. by destruct (cu_status c1).
Qed.
Lemma context_checks_sound c : context_checks c = true → context_sound c.
Proof.
  unfold context_checks. intros H. split_bool. split_and!.
  - apply List.Forall_forall. intros e He. apply entry_checks_sound.
    match goal with H : forallb _ _ = true |- _ =>
      rewrite forallb_forall in H; by apply H end.
  - by apply selection_sound.
  - intros r Hr. rewrite Hr in *. by apply selection_sound.
  - unfold selection_checks in *.
    destruct (find_entry (ctx_policy c) (cp_base (ctx_policy c))) eqn:He; [|done].
    apply find_entry_Some in He. eauto.
Qed.

(** ** Properties *)

(** An accepted policy replacement is guarded by the revision the caller
    saw, changes the revision, keeps the base currency once financial history
    exists, and installs a sound policy: every entry names a defined unit,
    historical units are neither displayed nor sold, and the browsing choices
    are displayed current units. *)
Theorem transition_safe value proposed
    (H : validateCurrencyPolicyTransition value = Ok proposed) :
  ∃ input,
    parse currencyPolicyTransitionInputSchema value = Ok input ∧
    ctx_policy proposed = ti_proposed input ∧
    ti_expectedRevision input = cp_revision (ti_current input) ∧
    cp_revision (ctx_policy proposed) ≠ cp_revision (ti_current input) ∧
    (ti_financialHistoryExists input = true →
     ref_code (cp_base (ctx_policy proposed)) = ref_code (cp_base (ti_current input))) ∧
    context_sound proposed.
Proof.
  unfold validateCurrencyPolicyTransition in H. run_inv.
  apply check_context_Ok in H0 as [-> _], H1 as [-> Hc].
  repeat case_match; simplify_eq. cbn in *. split_bool.
  exists x. split_and!; try done; try by apply String.eqb_eq.
  - by apply String.eqb_neq.
  - intros Hh. rewrite Hh in *. cbn in *. split_bool. by apply String.eqb_eq.
  - by apply context_checks_sound.
Qed.

Definition example_policy (revision : string) : json :=
  JObj [("revision", JStr revision); ("base", example_ref "BDT");
        ("defaultBrowsing", example_ref "BDT");
        ("preferredSecondary", example_ref "JPY");
        ("currencies", JArr
           [JObj [("unit", example_ref "BDT");
                  ("capabilities", JObj [("display", JBool true); ("newSales", JBool true);
                                         ("collection", JBool true)])];
            JObj [("unit", example_ref "JPY");
                  ("capabilities", JObj [("display", JBool true); ("newSales", JBool false);
                                         ("collection", JBool false)])]])].
Definition example_transition : json :=
  JObj [("current", example_policy "r1"); ("proposed", example_policy "r2");
        ("definitions", example_definitions); ("expectedRevision", JStr "r1");
        ("financialHistoryExists", JBool true)].
Lemma transition_safe_witness :
  ∃ proposed, validateCurrencyPolicyTransition example_transition = Ok proposed ∧
    context_sound proposed.
Proof.
  eexists. split; [vm_compute; reflexivity|].
  destruct (transition_safe example_transition _ ltac:(vm_compute; reflexivity))
    as (i&_&_&_&_&_&Hs). exact Hs.
Defined.

(** Reading fails closed: a capability of a valid context comes from its only
    entry for the code, and a code without an entry has none. *)
Lemma capabilities_fail_closed value code c cap :
  currencyPolicyContextSchema value = Some c →
  readCurrencyPolicyCapabilities value (JStr code) = Ok cap →
  (cap_display cap = true ∨ cap_newSales cap = true ∨ cap_collection cap = true) →
  ∃ e, e ∈ cp_currencies (ctx_policy c) ∧ ref_code (ent_unit e) = code ∧
       ent_capabilities e = cap ∧ entry_sound (ctx_definitions c) e.
Proof.
  intros Hc Hr Hcap. unfold readCurrencyPolicyCapabilities in Hr. run_inv.
  rewrite parse_Ok in *. simplify_eq.
  assert (x = code) as ->.
  { unfold boundedCurrencyCodeSchema in *. apply parse_Ok in H. schema_inv. done. }
  destruct (List.find _ _) as [e|] eqn:Hf;
    [|cbn in Hcap; by destruct Hcap as [?|[?|?]]].
  apply find_some in Hf as [Hin He]. apply String.eqb_eq in He.
  exists e. rewrite list_elem_of_In. split_and!; try done.
  assert (context_checks c = true) as Hck.
  { unfold currencyPolicyContextSchema in Hc. schema_inv. case_match; by simplify_eq. }
  apply context_checks_sound in Hck as [Hall _].
  eapply Forall_elem; [done|]. by rewrite list_elem_of_In.
Qed.
