(* ===== verification/States.v ===== *)
(** * Status enumerations

    packages/shared/src/contracts/states.ts and the enumerations of
    packages/database/prisma/schema.prisma the services use. *)
From S2P Require Import Prelude.

Module OrderStatus.
Inductive OrderStatus :=
| PENDING | AWAITING_PAYMENT | PAID | PROCESSING | COMPLETED | REJECTED
| CANCELLED | FAILED.
#[global] Instance OrderStatus_eq_dec : EqDecision OrderStatus.
Proof. solve_decision. Defined.
Definition to_string (s : OrderStatus) : string :=
  match s with
  | PENDING => "PENDING" | AWAITING_PAYMENT => "AWAITING_PAYMENT"
  | PAID => "PAID" | PROCESSING => "PROCESSING" | COMPLETED => "COMPLETED"
  | REJECTED => "REJECTED" | CANCELLED => "CANCELLED" | FAILED => "FAILED"
  end.
End OrderStatus.

Module InvoiceStatus.
Inductive InvoiceStatus :=
| DRAFT | UNPAID | PAID | OVERDUE | CANCELLED | REFUNDED | PARTIALLY_REFUNDED.
#[global] Instance InvoiceStatus_eq_dec : EqDecision InvoiceStatus.
Proof. solve_decision. Defined.
Definition to_string (s : InvoiceStatus) : string :=
  match s with
  | DRAFT => "DRAFT" | UNPAID => "UNPAID" | PAID => "PAID"
  | OVERDUE => "OVERDUE" | CANCELLED => "CANCELLED" | REFUNDED => "REFUNDED"
  | PARTIALLY_REFUNDED => "PARTIALLY_REFUNDED"
  end.
End InvoiceStatus.

Module PaymentStatus.
Inductive PaymentStatus := PENDING | SUCCEEDED | FAILED | CANCELLED.
#[global] Instance PaymentStatus_eq_dec : EqDecision PaymentStatus.
Proof. solve_decision. Defined.
End PaymentStatus.

Module PaymentKind.
Inductive PaymentKind := CHARGE | REFUND | REVERSAL.
#[global] Instance PaymentKind_eq_dec : EqDecision PaymentKind.
Proof. solve_decision. Defined.
End PaymentKind.

Module ServiceStatus.
Inductive ServiceStatus :=
| PENDING | PROVISIONING | ACTIVE | SUSPENDED | PROVISION_FAILED | CANCELLED
| TERMINATED.
#[global] Instance ServiceStatus_eq_dec : EqDecision ServiceStatus.
Proof. solve_decision. Defined.
Definition to_string (s : ServiceStatus) : string :=
  match s with
  | PENDING => "PENDING" | PROVISIONING => "PROVISIONING" | ACTIVE => "ACTIVE"
  | SUSPENDED => "SUSPENDED" | PROVISION_FAILED => "PROVISION_FAILED"
  | CANCELLED => "CANCELLED" | TERMINATED => "TERMINATED"
  end.
End ServiceStatus.

Module BillingPeriod.
Inductive BillingPeriod :=
| ONE_TIME | MONTHLY | QUARTERLY | SEMIANNUAL | ANNUAL | BIENNIAL | TRIENNIAL.
#[global] Instance BillingPeriod_eq_dec : EqDecision BillingPeriod.
Proof. solve_decision. Defined.
End BillingPeriod.

(** [hostingBillingPeriodSchema]: the periods hosting is billed in. *)
Inductive HostingBillingPeriod := MONTHLY | QUARTERLY | ANNUAL.
#[export] Instance HostingBillingPeriod_eq_dec : EqDecision HostingBillingPeriod.
Proof. solve_decision. Defined.
Definition hostingBillingPeriodSchema (p : BillingPeriod.BillingPeriod)
    : option HostingBillingPeriod :=
  match p with
  | BillingPeriod.MONTHLY => Some MONTHLY
  | BillingPeriod.QUARTERLY => Some QUARTERLY
  | BillingPeriod.ANNUAL => Some ANNUAL
  | _ => None
  end.
Definition of_hosting_period (p : HostingBillingPeriod) : BillingPeriod.BillingPeriod :=
  match p with
  | MONTHLY => BillingPeriod.MONTHLY
  | QUARTERLY => BillingPeriod.QUARTERLY
  | ANNUAL => BillingPeriod.ANNUAL
  end.

Module AutomationStatus.
Inductive AutomationStatus :=
| RUNNING | SUCCEEDED | PARTIALLY_SUCCEEDED | FAILED | SKIPPED.
#[global] Instance AutomationStatus_eq_dec : EqDecision AutomationStatus.
Proof. solve_decision. Defined.
End AutomationStatus.

Module OutboxStatus.
Inductive OutboxStatus := PENDING | PROCESSING | PUBLISHED | FAILED.
#[global] Instance OutboxStatus_eq_dec : EqDecision OutboxStatus.
Proof. solve_decision. Defined.
End OutboxStatus.

Module PaymentEventStatus.
Inductive PaymentEventStatus := RECEIVED | PROCESSED | IGNORED | FAILED.
#[global] Instance PaymentEventStatus_eq_dec : EqDecision PaymentEventStatus.
Proof. solve_decision. Defined.
End PaymentEventStatus.

Module CancellationTiming.
Inductive CancellationTiming := IMMEDIATE | END_OF_PERIOD.
#[global] Instance CancellationTiming_eq_dec : EqDecision CancellationTiming.
Proof. solve_decision. Defined.
Definition to_string (t : CancellationTiming) : string :=
  match t with IMMEDIATE => "IMMEDIATE" | END_OF_PERIOD => "END_OF_PERIOD" end.
End CancellationTiming.

Module CancellationStatus.
Inductive CancellationStatus := OPEN | WITHDRAWN | COMPLETED.
#[global] Instance CancellationStatus_eq_dec : EqDecision CancellationStatus.
Proof. solve_decision. Defined.
End CancellationStatus.

Module ServerStatus.
Inductive ServerStatus := ACTIVE | MAINTENANCE | DISABLED.
#[global] Instance ServerStatus_eq_dec : EqDecision ServerStatus.
Proof. solve_decision. Defined.
End ServerStatus.

Module OperationType.
Inductive OperationType :=
| TEST_CONNECTION | CREATE_ACCOUNT | GET_ACCOUNT | SUSPEND_ACCOUNT
| UNSUSPEND_ACCOUNT | CHANGE_PACKAGE | CHANGE_PASSWORD | GENERATE_LOGIN_URL
| TERMINATE_ACCOUNT.
#[global] Instance OperationType_eq_dec : EqDecision OperationType.
Proof. solve_decision. Defined.
End OperationType.

Module OperationStatus.
Inductive OperationStatus := RUNNING | SUCCEEDED | FAILED | INCONSISTENT.
#[global] Instance OperationStatus_eq_dec : EqDecision OperationStatus.
Proof. solve_decision. Defined.
End OperationStatus.

Module ProductKind.
Inductive ProductKind := HOSTING | DOMAIN | ADD_ON.
#[global] Instance ProductKind_eq_dec : EqDecision ProductKind.
Proof. solve_decision. Defined.
End ProductKind.

Inductive ProductStatus := DRAFT | ACTIVE | ARCHIVED.
#[export] Instance ProductStatus_eq_dec : EqDecision ProductStatus.
Proof. solve_decision. Defined.

Module UserStatus.
Inductive UserStatus := PENDING_VERIFICATION | ACTIVE | SUSPENDED | DISABLED.
#[global] Instance UserStatus_eq_dec : EqDecision UserStatus.
Proof. solve_decision. Defined.
End UserStatus.

Module CustomerStatus.
Inductive CustomerStatus := ACTIVE | INACTIVE | SUSPENDED.
#[global] Instance CustomerStatus_eq_dec : EqDecision CustomerStatus.
Proof. solve_decision. Defined.
End CustomerStatus.

Module UserRole.
Inductive UserRole := ADMIN | CUSTOMER.
#[global] Instance UserRole_eq_dec : EqDecision UserRole.
Proof. solve_decision. Defined.
End UserRole.

Notation OrderStatus := OrderStatus.OrderStatus.
Notation InvoiceStatus := InvoiceStatus.InvoiceStatus.
Notation PaymentStatus := PaymentStatus.PaymentStatus.
Notation PaymentKind := PaymentKind.PaymentKind.
Notation ServiceStatus := ServiceStatus.ServiceStatus.
Notation BillingPeriod := BillingPeriod.BillingPeriod.
Notation AutomationStatus := AutomationStatus.AutomationStatus.
Notation PaymentEventStatus := PaymentEventStatus.PaymentEventStatus.
Notation OutboxStatus := OutboxStatus.OutboxStatus.
Notation CancellationTiming := CancellationTiming.CancellationTiming.
Notation CancellationStatus := CancellationStatus.CancellationStatus.
Notation ServerStatus := ServerStatus.ServerStatus.
Notation OperationType := OperationType.OperationType.
Notation OperationStatus := OperationStatus.OperationStatus.
Notation ProductKind := ProductKind.ProductKind.
Notation UserStatus := UserStatus.UserStatus.
Notation CustomerStatus := CustomerStatus.CustomerStatus.
Notation UserRole := UserRole.UserRole.

(** Equality of statuses, as the code's [===]. *)
Notation "a '==b' b" := (bool_decide (a = b)) (at level 70, no associativity).
