(* ===== verification/AuthTables.v ===== *)
(** * The tables of accounts

    The models of packages/database/prisma/schema.prisma that hold users, their
    sessions, second factors and one-time tokens.  A row is keyed by its primary
    key; time stamps that no code reads are left out. *)
From S2P Require Import Prelude States.

Module StaffRole.
Inductive StaffRole := FULL_ADMINISTRATOR | BILLING_OPERATOR | SUPPORT_OPERATOR.
#[global] Instance StaffRole_eq_dec : EqDecision StaffRole.
Proof. solve_decision. Defined.
Definition to_string (r : StaffRole) : string :=
  match r with
  | FULL_ADMINISTRATOR => "FULL_ADMINISTRATOR" | BILLING_OPERATOR => "BILLING_OPERATOR"
  | SUPPORT_OPERATOR => "SUPPORT_OPERATOR"
  end.
End StaffRole.
Notation StaffRole := StaffRole.StaffRole.

Record User := MkUser
  { user_id : string; user_email : string; user_passwordHash : option string;
    user_role : UserRole; user_status : UserStatus; user_emailVerifiedAt : option Z;
    user_lastLoginAt : option Z; user_createdAt : Z; user_updatedAt : Z;
    user_deletedAt : option Z }.
#[export] Instance User_rebuild : Rebuild User := λ r,
  MkUser (user_id r) (user_email r) (user_passwordHash r) (user_role r) (user_status r)
    (user_emailVerifiedAt r) (user_lastLoginAt r) (user_createdAt r) (user_updatedAt r)
    (user_deletedAt r).

Record AdminProfile := MkAdminProfile
  { ap_id : string; ap_userId : string; ap_displayName : string; ap_staffRole : StaffRole }.
#[export] Instance AdminProfile_rebuild : Rebuild AdminProfile := λ r,
  MkAdminProfile (ap_id r) (ap_userId r) (ap_displayName r) (ap_staffRole r).

Record AuthSession := MkAuthSession
  { ses_id : string; ses_userId : string; ses_tokenHash : string; ses_expiresAt : Z;
    ses_lastSeenAt : Z; ses_revokedAt : option Z; ses_revokedReason : option string;
    ses_ipAddressHash : option string; ses_userAgent : option string;
    ses_twoFactorVerifiedAt : option Z; ses_createdAt : Z }.
#[export] Instance AuthSession_rebuild : Rebuild AuthSession := λ r,
  MkAuthSession (ses_id r) (ses_userId r) (ses_tokenHash r) (ses_expiresAt r)
    (ses_lastSeenAt r) (ses_revokedAt r) (ses_revokedReason r) (ses_ipAddressHash r)
    (ses_userAgent r) (ses_twoFactorVerifiedAt r) (ses_createdAt r).

Record CustomerSupportSession := MkSupportSession
  { sup_id : string; sup_tokenHash : string; sup_adminSessionId : string;
    sup_customerId : string; sup_expiresAt : Z; sup_endedAt : option Z }.
#[export] Instance CustomerSupportSession_rebuild : Rebuild CustomerSupportSession := λ r,
  MkSupportSession (sup_id r) (sup_tokenHash r) (sup_adminSessionId r) (sup_customerId r)
    (sup_expiresAt r) (sup_endedAt r).

Record AdminTotpCredential := MkTotpCredential
  { totp_id : string; totp_userId : string; totp_secretCiphertext : string;
    totp_keyVersion : string; totp_enabledAt : option Z; totp_lastUsedTimeStep : option Z }.
#[export] Instance AdminTotpCredential_rebuild : Rebuild AdminTotpCredential := λ r,
  MkTotpCredential (totp_id r) (totp_userId r) (totp_secretCiphertext r)
    (totp_keyVersion r) (totp_enabledAt r) (totp_lastUsedTimeStep r).

Record AdminRecoveryCode := MkRecoveryCode
  { rec_id : string; rec_credentialId : string; rec_codeHash : string;
    rec_usedAt : option Z }.
#[export] Instance AdminRecoveryCode_rebuild : Rebuild AdminRecoveryCode := λ r,
  MkRecoveryCode (rec_id r) (rec_credentialId r) (rec_codeHash r) (rec_usedAt r).

Record AdminLoginChallenge := MkLoginChallenge
  { lch_id : string; lch_userId : string; lch_tokenHash : string; lch_expiresAt : Z;
    lch_usedAt : option Z; lch_failedAttempts : Z; lch_ipAddressHash : string;
    lch_userAgent : option string }.
#[export] Instance AdminLoginChallenge_rebuild : Rebuild AdminLoginChallenge := λ r,
  MkLoginChallenge (lch_id r) (lch_userId r) (lch_tokenHash r) (lch_expiresAt r)
    (lch_usedAt r) (lch_failedAttempts r) (lch_ipAddressHash r) (lch_userAgent r).

(** Keyed by its user. *)
Record CustomerSecurityPreference := MkPreference
  { csp_emailTwoStep : bool; csp_marketingConsent : bool }.
#[export] Instance CustomerSecurityPreference_rebuild : Rebuild CustomerSecurityPreference :=
  λ r, MkPreference (csp_emailTwoStep r) (csp_marketingConsent r).

Record CustomerEmailChallenge := MkEmailChallenge
  { ech_id : string; ech_userId : string; ech_tokenHash : string;
    ech_credentialBinding : string; ech_deliveryCiphertext : string;
    ech_ipAddressHash : string; ech_expiresAt : Z; ech_usedAt : option Z;
    ech_failedAttempts : Z }.
#[export] Instance CustomerEmailChallenge_rebuild : Rebuild CustomerEmailChallenge := λ r,
  MkEmailChallenge (ech_id r) (ech_userId r) (ech_tokenHash r) (ech_credentialBinding r)
    (ech_deliveryCiphertext r) (ech_ipAddressHash r) (ech_expiresAt r) (ech_usedAt r)
    (ech_failedAttempts r).

(** [PasswordResetToken] and [EmailVerificationToken] have the same columns. *)
Record ActionToken := MkActionToken
  { tok_id : string; tok_userId : string; tok_tokenHash : string;
    tok_deliveryCiphertext : string; tok_expiresAt : Z; tok_usedAt : option Z;
    tok_createdAt : Z }.
#[export] Instance ActionToken_rebuild : Rebuild ActionToken := λ r,
  MkActionToken (tok_id r) (tok_userId r) (tok_tokenHash r) (tok_deliveryCiphertext r)
    (tok_expiresAt r) (tok_usedAt r) (tok_createdAt r).

Record AuthTables := MkAuthTables
  { users : gmap string User; adminProfiles : gmap string AdminProfile;
    authSessions : gmap string AuthSession;
    supportSessions : gmap string CustomerSupportSession;
    totpCredentials : gmap string AdminTotpCredential;
    recoveryCodes : gmap string AdminRecoveryCode;
    loginChallenges : gmap string AdminLoginChallenge;
    securityPreferences : gmap string CustomerSecurityPreference;
    emailChallenges : gmap string CustomerEmailChallenge;
    resetTokens : gmap string ActionToken; verificationTokens : gmap string ActionToken }.
#[export] Instance AuthTables_rebuild : Rebuild AuthTables := λ a,
  MkAuthTables (users a) (adminProfiles a) (authSessions a) (supportSessions a)
    (totpCredentials a) (recoveryCodes a) (loginChallenges a) (securityPreferences a)
    (emailChallenges a) (resetTokens a) (verificationTokens a).
Definition no_accounts : AuthTables := MkAuthTables ∅ ∅ ∅ ∅ ∅ ∅ ∅ ∅ ∅ ∅ ∅.
