(* ===== verification/DomainTables.v ===== *)
(** * The tables of domains

    The models of packages/database/prisma/schema.prisma that hold registrar
    accounts, domain quotes and offers, registrations and the actions on registered
    domains.  A row is keyed by its primary key; time stamps that no code reads are
    left out.  A nullable JSON column is [JNull] where it is null. *)
From S2P Require Import Prelude Json States.

Record RegistrarAccount := MkRegistrarAccount
  { ra_id : string; ra_provider : string; ra_mode : string; ra_enabled : bool;
    ra_configuration : json; ra_createdAt : Z }.
#[export] Instance RegistrarAccount_rebuild : Rebuild RegistrarAccount := λ r,
  MkRegistrarAccount (ra_id r) (ra_provider r) (ra_mode r) (ra_enabled r)
    (ra_configuration r) (ra_createdAt r).

Record RegistrarCredential := MkRegistrarCredential
  { rc_id : string; rc_accountId : string; rc_version : Z; rc_ciphertext : string }.

Record RegistrarOperation := MkRegistrarOperation
  { ro_id : string; ro_domainId : string; ro_customerId : string; ro_accountId : string;
    ro_credentialId : string; ro_selectedAccountId : option string;
    ro_selectedCredentialId : option string; ro_selectionFingerprint : option string;
    ro_actorUserId : string; ro_costCeiling : Z; ro_priceChangeRiskAccepted : bool;
    ro_claimedAt : option Z; ro_nextPollAt : Z; ro_pollCount : Z }.
#[export] Instance RegistrarOperation_rebuild : Rebuild RegistrarOperation := λ r,
  MkRegistrarOperation (ro_id r) (ro_domainId r) (ro_customerId r) (ro_accountId r)
    (ro_credentialId r) (ro_selectedAccountId r) (ro_selectedCredentialId r)
    (ro_selectionFingerprint r) (ro_actorUserId r) (ro_costCeiling r)
    (ro_priceChangeRiskAccepted r) (ro_claimedAt r) (ro_nextPollAt r) (ro_pollCount r).

Record RegistrarPreparation := MkRegistrarPreparation
  { rp_id : string; rp_accountId : string; rp_customerId : string; rp_fingerprint : string;
    rp_operationId : string; rp_customerClaimedAt : option Z;
    rp_remoteCustomerId : option string; rp_contactClaimedAt : option Z;
    rp_remoteContactId : option string }.
#[export] Instance RegistrarPreparation_rebuild : Rebuild RegistrarPreparation := λ r,
  MkRegistrarPreparation (rp_id r) (rp_accountId r) (rp_customerId r) (rp_fingerprint r)
    (rp_operationId r) (rp_customerClaimedAt r) (rp_remoteCustomerId r)
    (rp_contactClaimedAt r) (rp_remoteContactId r).

Record RegistrarMapping := MkRegistrarMapping
  { rm_id : string; rm_accountId : string; rm_customerId : string; rm_fingerprint : string;
    rm_remoteCustomerId : string; rm_remoteContactId : string }.

Record RegistrarEvidence := MkRegistrarEvidence
  { ev_operationId : string; ev_code : string; ev_createdAt : Z }.

(** Keyed by its account. *)
Record RegistrarProfile := MkRegistrarProfile
  { rpf_accountId : string; rpf_name : string; rpf_isDefault : bool;
    rpf_nativeCostConfirmed : bool }.
#[export] Instance RegistrarProfile_rebuild : Rebuild RegistrarProfile := λ r,
  MkRegistrarProfile (rpf_accountId r) (rpf_name r) (rpf_isDefault r)
    (rpf_nativeCostConfirmed r).

Record DomainOffer := MkDomainOffer
  { off_id : string; off_accountId : string; off_productId : string; off_priceId : string;
    off_tld : string; off_nameservers : json }.

Record DomainQuote := MkDomainQuote
  { quo_id : string; quo_customerId : string; quo_accountId : string; quo_offerId : string;
    quo_domainName : string; quo_sellingAmount : Z; quo_costAmount : Z;
    quo_costCurrency : string; quo_contactCiphertext : string; quo_fingerprint : string;
    quo_nameservers : json; quo_agreement : string; quo_selectionSnapshot : json;
    quo_offlineConsent : json; quo_createdAt : Z; quo_expiresAt : Z }.

Record DomainAction := MkDomainAction
  { da_id : string; da_domainId : string; da_accountId : string; da_customerId : string;
    da_credentialId : string; da_actorUserId : string; da_kind : string;
    da_payloadCiphertext : string; da_invoiceId : option string; da_state : string;
    da_claimedAt : option Z; da_contactClaimedAt : option Z; da_submittedAt : option Z;
    da_remoteContactId : option string; da_nextPollAt : Z; da_pollCount : Z;
    da_createdAt : Z }.
#[export] Instance DomainAction_rebuild : Rebuild DomainAction := λ r,
  MkDomainAction (da_id r) (da_domainId r) (da_accountId r) (da_customerId r)
    (da_credentialId r) (da_actorUserId r) (da_kind r) (da_payloadCiphertext r)
    (da_invoiceId r) (da_state r) (da_claimedAt r) (da_contactClaimedAt r)
    (da_submittedAt r) (da_remoteContactId r) (da_nextPollAt r) (da_pollCount r)
    (da_createdAt r).

Record DomainCatalogueTld := MkDomainCatalogueTld
  { dct_id : string; dct_tld : string; dct_productId : string;
    dct_registrationPriceId : option string; dct_renewalAmount : option Z;
    dct_preferredRegistrarId : option string; dct_enabled : bool; dct_featured : bool;
    dct_displayOrder : Z; dct_revision : Z }.
#[export] Instance DomainCatalogueTld_rebuild : Rebuild DomainCatalogueTld := λ r,
  MkDomainCatalogueTld (dct_id r) (dct_tld r) (dct_productId r) (dct_registrationPriceId r)
    (dct_renewalAmount r) (dct_preferredRegistrarId r) (dct_enabled r) (dct_featured r)
    (dct_displayOrder r) (dct_revision r).

Record FakeRegistrarRegistration := MkFakeRegistration
  { fr_id : string; fr_accountId : string; fr_customerId : string; fr_domainName : string;
    fr_operationId : string; fr_state : string; fr_expiresAt : Z }.

Record Domain := MkDomain
  { dom_id : string; dom_quoteId : option string; dom_customerId : string;
    dom_accountId : string; dom_executionAccountId : option string;
    dom_orderItemId : option string; dom_invoiceId : option string; dom_origin : string;
    dom_linkCredentialId : option string; dom_linkEvidenceCiphertext : option string;
    dom_ownershipVerifiedAt : option Z; dom_domainName : string;
    dom_submissionKey : string; dom_state : string; dom_verification : string;
    dom_providerOrderId : option string; dom_expiresAt : option Z;
    dom_managementSnapshot : json; dom_currentContactCiphertext : option string;
    dom_createdAt : Z }.
#[export] Instance Domain_rebuild : Rebuild Domain := λ r,
  MkDomain (dom_id r) (dom_quoteId r) (dom_customerId r) (dom_accountId r)
    (dom_executionAccountId r) (dom_orderItemId r) (dom_invoiceId r) (dom_origin r)
    (dom_linkCredentialId r) (dom_linkEvidenceCiphertext r) (dom_ownershipVerifiedAt r)
    (dom_domainName r) (dom_submissionKey r) (dom_state r) (dom_verification r)
    (dom_providerOrderId r) (dom_expiresAt r) (dom_managementSnapshot r)
    (dom_currentContactCiphertext r) (dom_createdAt r).
(** A registration as it is created: the columns with defaults. *)
Definition new_domain (id quoteId customerId accountId orderItemId invoiceId domainName
    submissionKey : string) (now : Z) : Domain :=
  MkDomain id (Some quoteId) customerId accountId None (Some orderItemId) (Some invoiceId)
    "REGISTRATION" None None None domainName submissionKey "AWAITING_PAYMENT" "Pending"
    None None JNull None now.

(** Keyed by its domain. *)
Record ExistingDomainOrder := MkExistingDomainOrder
  { edo_domainId : string; edo_orderItemId : string; edo_invoiceId : string;
    edo_customerId : string }.

(** The columns of a product that the domain catalogue writes. *)
Record Product := MkProduct
  { pdt_id : string; pdt_kind : ProductKind; pdt_slug : string; pdt_name : string;
    pdt_status : ProductStatus; pdt_publicVisible : bool; pdt_deletedAt : option Z }.

(** The entries of the activity log that reserve a registrar read: the account and
    the time of each, which the code counts. *)
Record ReadReservation := MkReservation { rr_accountId : string; rr_createdAt : Z }.

Record DomainTables := MkDomainTables
  { t_accounts : gmap string RegistrarAccount; t_credentials : gmap string RegistrarCredential;
    t_operations : gmap string RegistrarOperation;
    t_preparations : gmap string RegistrarPreparation;
    t_mappings : gmap string RegistrarMapping; t_evidence : list RegistrarEvidence;
    t_profiles : gmap string RegistrarProfile; t_offers : gmap string DomainOffer;
    t_quotes : gmap string DomainQuote; t_actions : gmap string DomainAction;
    t_catalogue : gmap string DomainCatalogueTld;
    t_fakes : gmap string FakeRegistrarRegistration; t_products : gmap string Product;
    t_reads : list ReadReservation }.
#[export] Instance DomainTables_rebuild : Rebuild DomainTables := λ t,
  MkDomainTables (t_accounts t) (t_credentials t) (t_operations t) (t_preparations t)
    (t_mappings t) (t_evidence t) (t_profiles t) (t_offers t) (t_quotes t) (t_actions t)
    (t_catalogue t) (t_fakes t) (t_products t) (t_reads t).
Definition no_registrar : DomainTables :=
  MkDomainTables ∅ ∅ ∅ ∅ ∅ [] ∅ ∅ ∅ ∅ ∅ ∅ ∅ [].
