(* ===== verification/Calendar.v ===== *)
(** * Billing calendar

    apps/worker/src/renewal/renewal-calendar.ts,
    apps/api/src/modules/services/service-period.ts,
    apps/api/src/modules/dashboard-reports/dashboard-period.ts and
    packages/shared/src/calendar-presentation.ts. *)
From S2P Require Import Prelude JsString JsDate States.

(** ** Patterns of fixed length: [#] is a digit, any other character itself. *)
Fixpoint like (pattern s : string) : bool :=
  match pattern, s with
  | EmptyString, EmptyString => true
  | String p pattern, String c s =>
      (if Ascii.eqb p "#" then is_digit c else Ascii.eqb p c) && like pattern s
  | _, _ => false
  end.
Definition slice (from to : nat) (s : string) : string := substring from (to - from) s.

(** ** renewal-calendar.ts and service-period.ts *)
Definition periodMonths (p : HostingBillingPeriod) : Z :=
  match p with MONTHLY => 1 | QUARTERLY => 3 | ANNUAL => 12 end.

Definition addBillingPeriod (value : Z) (billingPeriod : HostingBillingPeriod)
    : option Z :=
  let targetMonth := utc_month value + periodMonths billingPeriod in
  let targetYear := utc_year value + targetMonth / 12 in
  let normalizedMonth := Z.rem (Z.rem targetMonth 12 + 12) 12 in
  last ← date_UTC targetYear (normalizedMonth + 1) 0 0 0 0 0;
  date_UTC targetYear normalizedMonth (Z.min (utc_date value) (utc_date last))
    (utc_hours value) (utc_minutes value) (utc_seconds value) (utc_ms value).

Definition nextServiceDueAt (startedAt : Z) (billingPeriod : HostingBillingPeriod)
    : option Z :=
  let months := periodMonths billingPeriod in
  let targetMonth := utc_month startedAt + months in
  let targetYear := utc_year startedAt + targetMonth / 12 in
  let normalizedMonth := Z.rem targetMonth 12 in
  last ← date_UTC targetYear (normalizedMonth + 1) 0 0 0 0 0;
  date_UTC targetYear normalizedMonth (Z.min (utc_date startedAt) (utc_date last))
    (utc_hours startedAt) (utc_minutes startedAt) (utc_seconds startedAt)
    (utc_ms startedAt).

(** The calendar date of an instant in a time zone, as [en-CA] prints it: the
    year as it is, month and day on two digits. *)
Definition businessDate `{TimeZones} (value : Z) (timeZone : string) : string :=
  let local := value + utc_offset timeZone value in
  (Z_to_string (utc_year local) ++ "-" ++ pad2 (utc_month local + 1) ++ "-" ++
   pad2 (utc_date local))%string.

(** [toISOString] throws on an invalid date. *)
Definition iso_or_throw (t : option Z) : result string :=
  match t with
  | Some t => Ok (to_ISO_string t)
  | None => Err (RangeError "Invalid time value")
  end.
Definition addBusinessDays (date : string) (days : Z) : result string :=
  if negb (like "####-##-##" date) then Err (JsError "Business date invalid")
  else
    let year := string_to_Z (slice 0 4 date) in
    let month := string_to_Z (slice 5 7 date) in
    let day := string_to_Z (slice 8 10 date) in
    iso ← iso_or_throw (date_UTC year (month - 1) (day + days) 0 0 0 0);
    Ok (slice 0 10 iso).

Definition isOnOrAfter (left right : string) : bool := String.leb right left.

(** ** dashboard-period.ts *)
Record DashboardPeriod := MkPeriod
  { dp_from : string; dp_to : string; dp_start : option Z; dp_endExclusive : option Z }.

(** [date.split('-').map(Number)] followed by the same [Date.UTC]; the query
    schema admits ISO dates only, and anything else is not a number here. *)
Definition split_date (date : string) : option (Z * Z * Z) :=
  if like "####-##-##" date then
    Some (string_to_Z (slice 0 4 date), string_to_Z (slice 5 7 date),
          string_to_Z (slice 8 10 date))
  else None.
Definition addCalendarDays (date : string) (days : Z) : result string :=
  iso ← iso_or_throw ('(year, month, day) ← split_date date;
                      date_UTC year (month - 1) (day + days) 0 0 0 0);
  Ok (slice 0 10 iso).

(** One attempt of the correction loop: what the zone shows at [candidate],
    read back as if it were UTC, against the wanted local midnight. *)
Definition correct_candidate `{TimeZones} (timeZone : string) (target candidate : Z)
    : option Z :=
  let local := candidate + utc_offset timeZone candidate in
  represented ← date_UTC (utc_year local) (utc_month local + 1 - 1) (utc_date local)
    (utc_hours local) (utc_minutes local) (utc_seconds local) 0;
  Some (candidate + (target - represented)).
Definition startOfBusinessDate `{TimeZones} (date timeZone : string) : option Z :=
  '(year, month, day) ← split_date date;
  target ← date_UTC year (month - 1) day 0 0 0 0;
  c1 ← correct_candidate timeZone target target;
  c2 ← correct_candidate timeZone target c1;
  correct_candidate timeZone target c2.

(** [Math.round] of a quotient by a positive number. *)
Definition math_round_div (a b : Z) : Z := (2 * a + b) / (2 * b).
Definition resolveDashboardPeriod `{TimeZones} (query_from query_to : option string)
    (timeZone : string) (now : Z) : result DashboardPeriod :=
  let today := businessDate now timeZone in
  let to := default today query_to in
  from ← match query_from with
         | Some from => Ok from
         | None => addCalendarDays to (-6)
         end;
  let utc d := '(year, month, day) ← split_date d;
               time_clip (make_date (make_day year (month - 1) day) 0) in
  let days := b ← utc to; a ← utc from; Some (math_round_div (b - a) 86400000) in
  let invalid := AppException 422 "UNPROCESSABLE_ENTITY"
    "Dashboard period must be ordered and no longer than 366 days." in
  (* NaN compares false with everything: an unreadable bound is not refused *)
  if (match days with Some d => (d <? 0) || (365 <? d) | None => false end)
  then Err invalid
  else
    next ← addCalendarDays to 1;
    Ok (MkPeriod from to (startOfBusinessDate from timeZone)
          (startOfBusinessDate next timeZone)).

(** ** calendar-presentation.ts *)
Inductive DateDisplayFormat := day_first | month_first | iso | long.

(** [new Date(s + 'T00:00:00.000Z')] for [YYYY-MM-DD]. *)
Definition parse_iso_midnight (s : string) : option Z :=
  let year := string_to_Z (slice 0 4 s) in
  let month := string_to_Z (slice 5 7 s) in
  let day := string_to_Z (slice 8 10 s) in
  if (1 <=? month) && (month <=? 12) && (1 <=? day) && (day <=? 31)
  then time_clip (make_date (make_day year (month - 1) day) 0) else None.
Definition validIsoDate (value : string) : bool :=
  if negb (like "####-##-##" value) then false
  else match parse_iso_midnight value with
       | None => false
       | Some t => String.eqb (slice 0 10 (to_ISO_string t)) value
       end.
Definition month_name (m : Z) : string :=
  nth (Z.to_nat m)
    ["January"; "February"; "March"; "April"; "May"; "June"; "July"; "August";
     "September"; "October"; "November"; "December"] "".
Definition no_date : string := "—".
Definition formatCalendarDate (value : option string) (format : DateDisplayFormat)
    : string :=
  match value with
  | None | Some EmptyString => no_date
  | Some value =>
      let iso_date := slice 0 10 value in
      if negb (validIsoDate iso_date) then no_date
      else
        let year := slice 0 4 iso_date in
        let month := slice 5 7 iso_date in
        let day := slice 8 10 iso_date in
        match format with
        | iso => iso_date
        | month_first => (month ++ "/" ++ day ++ "/" ++ year)%string
        | long => (Z_to_string (string_to_Z day) ++ " " ++
                   month_name (string_to_Z month - 1) ++ " " ++
                   Z_to_string (string_to_Z year))%string
        | day_first => (day ++ "/" ++ month ++ "/" ++ year)%string
        end
  end.
Definition parseCalendarDate (value : string) : option string :=
  if like "##/##/####" value then
    let iso_date := (slice 6 10 value ++ "-" ++ slice 3 5 value ++ "-" ++
                     slice 0 2 value)%string in
    if validIsoDate iso_date then Some iso_date else None
  else None.
Definition parseCalendarDateTime (value : string) : option string :=
  if negb (like "##/##/#### ##:##" value) ||
     (23 <? string_to_Z (slice 11 13 value)) || (59 <? string_to_Z (slice 14 16 value))
  then None
  else
    date ← parseCalendarDate (slice 0 10 value);
    Some (date ++ "T" ++ slice 11 13 value ++ ":" ++ slice 14 16 value)%string.

(** ** Adding a billing period *)

(** Months counted from year 0. *)
Definition month_index (t : Z) : Z := 12 * utc_year t + utc_month t.

(** The instant of a calendar date and a time of day. *)
Lemma date_UTC_Some y m d r t' :
  100 <= y → 0 <= r < ms_per_day →
  time_clip (make_date (make_day y m d) r) = Some t' →
  day_of_time t' = make_day y m d ∧ time_within_day t' = r.
Proof.
  intros _ Hr [-> _]%time_clip_Some.
  by rewrite day_of_make_date, time_of_make_date.
Qed.
Lemma date_UTC_eq y m d h mi s ms :
  100 <= y → date_UTC y m d h mi s ms =
             time_clip (make_date (make_day y m d) (make_time h mi s ms)).
Proof.
  intros. unfold date_UTC. destruct (Z.leb_spec y 99); [lia|].
  by rewrite andb_false_r.
Qed.
Lemma make_day_last y m :
  0 <= m <= 11 → make_day y (m + 1) 0 = make_day y m (days_in_month y m).
Proof.
  intros Hm. rewrite (make_day_plain y m) by done. unfold days_in_month.
  destruct (decide (m = 11)) as [->|?].
  - unfold make_day. change ((11 + 1) / 12) with 1. change ((11 + 1) mod 12) with 0.
    change (11 + 1) with 12. rewrite day_from_year_succ, month_start_12, month_start_0. lia.
  - rewrite make_day_plain by lia. lia.
Qed.
Lemma last_day_spec y m last :
  100 <= y → 0 <= m <= 11 → date_UTC y (m + 1) 0 0 0 0 0 = Some last →
  utc_date last = days_in_month y m.
Proof.
  intros Hy Hm. rewrite date_UTC_eq by done.
  change (make_time 0 0 0 0) with 0. intros H.
  apply date_UTC_Some in H as [Hd _]; [|done|unfold ms_per_day; lia].
  rewrite make_day_last in Hd by done.
  pose proof (days_in_month_bounds y m Hm).
  eapply civil_date; [|exact Hd]. split; lia.
Qed.

Lemma period_months_bounds p : 1 <= periodMonths p <= 12.
Proof. destruct p; simpl; lia. Qed.

Section add_period.
Context (t : Z) (p : HostingBillingPeriod).
Hypothesis Hyear : 100 <= utc_year t.
Let target := utc_month t + periodMonths p.
Let y' := utc_year t + target / 12.
Let m' := target mod 12.

Lemma target_month : Z.rem (Z.rem target 12 + 12) 12 = m' ∧ Z.rem target 12 = m' ∧
  0 <= m' <= 11 ∧ 100 <= y'.
Proof using Hyear.
  pose proof (utc_civil_valid t) as [? _]. pose proof (period_months_bounds p).
  unfold m', y', target. lia.
Qed.

Lemma add_period_Some t' :
  addBillingPeriod t p = Some t' →
  valid_civil y' m' (Z.min (utc_date t) (days_in_month y' m')) ∧
  day_of_time t' = make_day y' m' (Z.min (utc_date t) (days_in_month y' m')) ∧
  time_within_day t' = time_within_day t.
Proof using Hyear.
  destruct target_month as (H1&_&Hm&Hy). unfold addBillingPeriod.
  fold target. fold y'. rewrite H1. intros H.
  apply bind_Some in H as (last&Hl&H). apply last_day_spec in Hl; [|done..].
  rewrite Hl in H. rewrite date_UTC_eq, make_time_of_time in H by done.
  apply date_UTC_Some in H as [Hd Ht]; [|done|apply time_within_day_bounds].
  pose proof (days_in_month_bounds y' m' Hm). pose proof (utc_civil_valid t) as [_ ?].
  split_and!; [|done..]. split; lia.
Qed.
End add_period.

(** Later months are later days. *)
Lemma make_day_mono y m d y' m' d' :
  valid_civil y m d → valid_civil y' m' d' → 12 * y + m < 12 * y' + m' →
  make_day y m d < make_day y' m' d'.
Proof.
  intros [Hm Hd] [Hm' Hd'] Hlt. rewrite !make_day_plain by done.
  unfold days_in_month in *.
  assert (y = y' ∨ y + 1 = y' ∨ y + 1 < y') as [->|Hy] by lia.
  - pose proof (month_start_mono y' (m + 1) m'). lia.
  - pose proof (month_start_mono y (m + 1) 12). rewrite month_start_12 in *.
    pose proof (month_start_mono y' 0 m'). rewrite month_start_0 in *.
    pose proof (day_from_year_succ y).
    assert (day_from_year (y + 1) <= day_from_year y').
    { destruct Hy as [->|Hy]; [lia|]. apply day_from_year_lt in Hy. lia. }
    lia.
Qed.

Lemma add_billing_exact t p t' :
  100 <= utc_year t → addBillingPeriod t p = Some t' →
  month_index t' = month_index t + periodMonths p ∧
  utc_date t' = Z.min (utc_date t) (days_in_month (utc_year t') (utc_month t')) ∧
  time_within_day t' = time_within_day t ∧
  t < t'.
Proof.
  intros Hyear H.
  destruct (add_period_Some t p Hyear t' H) as (Hv&Hd&Ht).
  destruct (target_month t p Hyear) as (_&_&Hm&Hy).
  pose proof (civil_year _ _ _ _ Hv Hd) as Ey.
  pose proof (civil_month _ _ _ _ Hv Hd) as Em.
  pose proof (civil_date _ _ _ _ Hv Hd) as Ed.
  assert (month_index t' = month_index t + periodMonths p) as Hidx.
  { unfold month_index. rewrite Ey, Em. lia. }
  split_and!; [done|by rewrite Ed, Ey, Em|done|].
  assert (day_of_time t < day_of_time t').
  { rewrite <- (make_day_civil t), <- (make_day_civil t').
    apply make_day_mono; [apply utc_civil_valid..|].
    pose proof (period_months_bounds p). unfold month_index in Hidx. lia. }
  rewrite <- (make_date_split t), <- (make_date_split t'), Ht. unfold make_date, ms_per_day.
  lia.
Qed.
(** C37: for dates from the year 100 on, adding a billing period moves the date exactly
    1, 3 or 12 calendar months later, keeps the time of day, keeps the day of the month when the
    target month has it and otherwise takes that month's last day, and always
    moves forward in time. *)
Theorem add_billing_period_exact t p t'
    (Hyear : 100 <= utc_year t) (H : addBillingPeriod t p = Some t') :
  month_index t' = month_index t + periodMonths p ∧
  utc_date t' = Z.min (utc_date t) (days_in_month (utc_year t') (utc_month t')) ∧
  time_within_day t' = time_within_day t ∧
  t < t'.
Proof. by apply add_billing_exact. Qed.
Lemma add_billing_period_exact_witness :
  (* 31 January 2028 and one month: 29 February 2028 *)
  ∃ t', addBillingPeriod 1832889600000 MONTHLY = Some t' ∧
        utc_date t' = 29 ∧ 1832889600000 < t'.
Proof.
  eexists. split; [vm_compute; reflexivity|].
  destruct (add_billing_period_exact 1832889600000 MONTHLY 1835395200000
    ltac:(vm_compute; congruence) ltac:(vm_compute; reflexivity)) as (_&Hd&_&Hlt).
  split; [rewrite Hd; vm_compute; reflexivity|exact Hlt].
Defined.

(** The two copies of the calendar rule, the worker's for renewals and the
    API's for a new service, agree on every instant and period. *)
Theorem service_period_agrees t p :
  nextServiceDueAt t p = addBillingPeriod t p.
Proof.
  unfold nextServiceDueAt, addBillingPeriod.
  pose proof (utc_civil_valid t) as [Hm _]. pose proof (period_months_bounds p).
  set (target := utc_month t + periodMonths p).
  assert (Z.rem (Z.rem target 12 + 12) 12 = Z.rem target 12) as -> by lia. done.
Qed.

Lemma utc_month_bounds t : 0 <= utc_month t <= 11.
Proof. apply utc_civil_valid. Qed.
Lemma later_year t t' :
  100 <= utc_year t → month_index t <= month_index t' → 100 <= utc_year t'.
Proof.
  unfold month_index. pose proof (utc_month_bounds t). pose proof (utc_month_bounds t').
  lia.
Qed.

#[global] Strategy 1000 [addBillingPeriod nextServiceDueAt addBusinessDays].

(** A service billed again and again from one start. *)
Fixpoint renew_times (n : nat) (t : Z) (p : HostingBillingPeriod) : option Z :=
  match n with
  | O => Some t
  | S n => t' ← addBillingPeriod t p; renew_times n t' p
  end.

(** One period from a day every month has. *)
Lemma add_period_keeps_day t p t1 :
  100 <= utc_year t → utc_date t <= 28 → addBillingPeriod t p = Some t1 →
  month_index t1 = month_index t + periodMonths p ∧ utc_date t1 = utc_date t ∧
  time_within_day t1 = time_within_day t ∧ 100 <= utc_year t1.
Proof.
  intros Hyear Hday H1.
  destruct (add_billing_exact t p t1 Hyear H1) as (Hm&Hd&Ht&_). clear H1.
  pose proof (days_in_month_bounds (utc_year t1) (utc_month t1) (utc_month_bounds t1)).
  pose proof (period_months_bounds p).
  split_and!; [exact Hm| |exact Ht|].
  - rewrite Hd. apply Z.min_l. lia.
  - apply (later_year t); [exact Hyear|]. rewrite Hm. lia.
Qed.

(** A service that starts on day 1 to 28 is billed on that day of the month
    for ever: after [n] periods the date is exactly [n] periods of months later,
    on the same day and at the same time, so for instance twelve monthly
    renewals end where one annual renewal does. *)
Theorem billing_day_never_drifts n t p t'
    (Hyear : 100 <= utc_year t) (Hday : utc_date t <= 28)
    (H : renew_times n t p = Some t') :
  month_index t' = month_index t + Z.of_nat n * periodMonths p ∧
  utc_date t' = utc_date t ∧ time_within_day t' = time_within_day t.
Proof.
  revert t Hyear Hday H. induction n as [|n IH]; intros t Hyear Hday H; cbn [renew_times] in H.
  - injection H as <-. split_and!; [lia|done..].
  - apply bind_Some in H as (t1&H1&H).
    destruct (add_period_keeps_day t p t1 Hyear Hday H1) as (Hm&Hd&Ht&Hy). clear H1.
    destruct (IH t1) as (E1&E2&E3); [exact Hy|rewrite Hd; exact Hday|exact H|].
    rewrite E1, Hm, E2, Hd, E3, Ht. split_and!; [|reflexivity..].
    rewrite Nat2Z.inj_succ, Z.mul_succ_l. lia.
Qed.
Lemma billing_day_never_drifts_witness :
  (* 28 January 2027, twelve months *)
  ∃ t', renew_times 12 1801094400000 MONTHLY = Some t' ∧
        addBillingPeriod 1801094400000 ANNUAL = Some t' ∧ utc_date t' = 28.
Proof.
  exists 1832630400000. split; [vm_compute; reflexivity|].
  split; [vm_compute; reflexivity|].
  destruct (billing_day_never_drifts 12 1801094400000 MONTHLY 1832630400000
    ltac:(vm_compute; congruence) ltac:(vm_compute; congruence)
    ltac:(vm_compute; reflexivity)) as (_&Hd&_).
  rewrite Hd. vm_compute. reflexivity.
Defined.
(** From day 31 the day is lost at the first shorter month: 31 January, 28
    February, 28 March. *)
Example billing_day_31_drifts :
  utc_date 1801353600000 = 31 ∧
  option_map utc_date (renew_times 2 1801353600000 MONTHLY) = Some 28.
Proof. split; vm_compute; reflexivity. Qed.

(** ** ISO dates as strings *)

Definition iso_range (t : Z) : Prop := 0 <= utc_year t <= 9999.

Lemma digits_length_4 s :
  slen s = 4 → ∃ a b c d, s = String a (String b (String c (String d ""))).
Proof.
  unfold slen. destruct s as [|a [|b [|c [|d [|e s]]]]]; simpl; try lia. eauto.
Qed.
Lemma digits_length_2 s : slen s = 2 → ∃ a b, s = String a (String b "").
Proof. unfold slen. destruct s as [|a [|b [|c s]]]; simpl; try lia. eauto. Qed.

Lemma dashed_parts y m d rest :
  slen y = 4 → slen m = 2 → slen d = 2 →
  all_chars is_digit y = true → all_chars is_digit m = true → all_chars is_digit d = true →
  let s := (y ++ "-" ++ m ++ "-" ++ d)%string in
  slice 0 10 (s ++ rest) = s ∧ like "####-##-##" s = true ∧ slice 0 4 s = y ∧
  slice 5 7 s = m ∧ slice 8 10 s = d ∧ slen s = 10.
Proof.
  intros (?&?&?&?&->)%digits_length_4 (?&?&->)%digits_length_2 (?&?&->)%digits_length_2
    Hy Hm Hd. simpl in *. split_bool.
  repeat match goal with H : is_digit _ = true |- _ => rewrite H; clear H end.
  split_and!; try done. by destruct rest.
Qed.

Lemma utc_date_bounds t : 1 <= utc_date t <= 31.
Proof.
  destruct (utc_civil_valid t) as [Hm ?].
  pose proof (days_in_month_bounds (utc_year t) (utc_month t) Hm). lia.
Qed.
Lemma iso_date_parts t rest :
  iso_range t →
  slice 0 10 (iso_date t ++ rest) = iso_date t ∧ like "####-##-##" (iso_date t) = true ∧
  slen (iso_date t) = 10 ∧
  string_to_Z (slice 0 4 (iso_date t)) = utc_year t ∧
  string_to_Z (slice 5 7 (iso_date t)) = utc_month t + 1 ∧
  string_to_Z (slice 8 10 (iso_date t)) = utc_date t.
Proof.
  intros [H0 H9]. pose proof (utc_month_bounds t). pose proof (utc_date_bounds t).
  unfold iso_date, iso_year, pad2.
  destruct (Z.leb_spec 0 (utc_year t)); [|lia].
  destruct (Z.leb_spec (utc_year t) 9999); [|lia]. cbn [andb].
  destruct (pad_start_spec 4 (utc_year t)) as (Dy&Ly&Vy); [lia..|].
  destruct (pad_start_spec 2 (utc_month t + 1)) as (Dm&Lm&Vm); [lia..|].
  destruct (pad_start_spec 2 (utc_date t)) as (Dd&Ld&Vd); [lia..|].
  destruct (dashed_parts _ _ _ rest Ly Lm Ld Dy Dm Dd) as (E1&E2&E3&E4&E5&E6).
  rewrite E3, E4, E5. split_and!; done.
Qed.
Lemma slice_iso_date t :
  iso_range t → slice 0 10 (to_ISO_string t) = iso_date t.
Proof. intros H. by apply iso_date_parts. Qed.

(** Padding is injective, so an ISO date determines its civil date. *)
Lemma iso_date_inj t t' :
  iso_range t → iso_range t' → iso_date t = iso_date t' → day_of_time t = day_of_time t'.
Proof.
  intros H H' Heq. destruct (iso_date_parts t "" H) as (_&_&_&Y&M&D).
  destruct (iso_date_parts t' "" H') as (_&_&_&Y'&M'&D').
  rewrite <- (make_day_civil t), <- (make_day_civil t'). rewrite Heq in *.
  f_equal; [congruence| |congruence]. lia.
Qed.

Lemma iso_date_of_day t t' :
  day_of_time t = day_of_time t' → iso_date t = iso_date t'.
Proof.
  intros H. unfold iso_date, utc_date, utc_month, day_in_year, utc_year. by rewrite H.
Qed.

Lemma iso_range_clip u : iso_range u → time_clip u = Some u.
Proof.
  intros [Hlo Hhi]. apply time_clip_Some. split; [done|].
  pose proof (year_of_day_spec (day_of_time u)) as [Ha Hb].
  fold (utc_year u) in Ha, Hb.
  assert (day_from_year 0 <= day_from_year (utc_year u)).
  { destruct (decide (utc_year u = 0)) as [->|]; [lia|].
    pose proof (day_from_year_lt 0 (utc_year u)). lia. }
  assert (day_from_year (utc_year u + 1) <= day_from_year 10000).
  { destruct (decide (utc_year u + 1 = 10000)) as [->|]; [lia|].
    pose proof (day_from_year_lt (utc_year u + 1) 10000). lia. }
  change (day_from_year 0) with (-719528) in *.
  change (day_from_year 10000) with 2932897 in *.
  unfold day_of_time, ms_per_day in *. lia.
Qed.
(** Midnight of the day of [t]. *)
Definition midnight (t : Z) : Z := t - time_within_day t.
Lemma midnight_day t : day_of_time (midnight t) = day_of_time t.
Proof. unfold midnight, day_of_time, time_within_day, ms_per_day. lia. Qed.
Lemma midnight_make_date t : make_date (day_of_time t) 0 = midnight t.
Proof. unfold midnight, make_date, day_of_time, time_within_day, ms_per_day. lia. Qed.
Lemma midnight_range t : iso_range t → iso_range (midnight t).
Proof. unfold iso_range, utc_year. by rewrite midnight_day. Qed.

(** [addBusinessDays] is exact day arithmetic on ISO dates, across month
    ends, leap days and year ends, forwards and backwards. *)
Theorem add_business_days_exact t days
    (H1 : 100 <= utc_year t <= 9999)
    (H2 : 0 <= utc_year (t + days * ms_per_day) <= 9999) :
  addBusinessDays (iso_date t) days = Ok (iso_date (t + days * ms_per_day)).
Proof.
  set (t' := t + days * ms_per_day) in *.
  destruct (iso_date_parts t "") as (_&Hl&_&Y&M&D); [split; lia|].
  unfold addBusinessDays. rewrite Hl, Y, M, D. cbn [negb].
  rewrite date_UTC_eq by lia. change (make_time 0 0 0 0) with 0.
  replace (utc_month t + 1 - 1) with (utc_month t) by lia.
  assert (make_day (utc_year t) (utc_month t) (utc_date t + days) = day_of_time t') as ->.
  { pose proof (make_day_civil t) as Hm. rewrite !make_day_plain in * by apply utc_month_bounds.
    unfold t', day_of_time, ms_per_day in *. lia. }
  rewrite midnight_make_date.
  assert (iso_range (midnight t')) as Hr by (by apply midnight_range).
  rewrite (iso_range_clip _ Hr). cbn [iso_or_throw mbind result_bind].
  rewrite slice_iso_date by done. f_equal. apply iso_date_of_day, midnight_day.
Qed.
Lemma add_business_days_exact_witness :
  (* 2028-02-27 and three days *)
  addBusinessDays "2028-02-27" 3 = Ok "2028-03-01".
Proof.
  pose proof (add_business_days_exact 1835222400000 3
    ltac:(vm_compute; split; congruence) ltac:(vm_compute; split; congruence)) as H.
  vm_compute in H. vm_compute. exact H.
Defined.

Lemma make_day_order y m d y' m' d' :
  valid_civil y m d → valid_civil y' m' d' →
  (make_day y m d ?= make_day y' m' d') =
    match y ?= y' with Eq => match m ?= m' with Eq => d ?= d' | c => c end | c => c end.
Proof.
  intros H H'. pose proof (proj1 H). pose proof (proj1 H').
  destruct (Z.compare_spec y y') as [->|?|?].
  - destruct (Z.compare_spec m m') as [->|?|?].
    + rewrite !make_day_plain by done.
      destruct (Z.compare_spec d d') as [->|?|?];
        [apply Z.compare_refl|apply Z.compare_lt_iff|apply Z.compare_gt_iff]; lia.
    + apply Z.compare_lt_iff, make_day_mono; [done..|lia].
    + apply Z.compare_gt_iff, make_day_mono; [done..|lia].
  - apply Z.compare_lt_iff, make_day_mono; [done..|lia].
  - apply Z.compare_gt_iff, make_day_mono; [done..|lia].
Qed.
Lemma iso_date_compare t t' :
  iso_range t → iso_range t' →
  String.compare (iso_date t) (iso_date t') = (day_of_time t ?= day_of_time t').
Proof.
  intros [? ?] [? ?]. rewrite <- (make_day_civil t), <- (make_day_civil t').
  rewrite make_day_order by apply utc_civil_valid.
  pose proof (utc_month_bounds t). pose proof (utc_month_bounds t').
  pose proof (utc_date_bounds t). pose proof (utc_date_bounds t').
  unfold iso_date, iso_year, pad2.
  destruct (Z.leb_spec 0 (utc_year t)), (Z.leb_spec (utc_year t) 9999),
    (Z.leb_spec 0 (utc_year t')), (Z.leb_spec (utc_year t') 9999); try lia. cbn [andb].
  destruct (pad_start_spec 4 (utc_year t)) as (D1&L1&V1); [lia..|].
  destruct (pad_start_spec 4 (utc_year t')) as (D1'&L1'&V1'); [lia..|].
  destruct (pad_start_spec 2 (utc_month t + 1)) as (D2&L2&V2); [lia..|].
  destruct (pad_start_spec 2 (utc_month t' + 1)) as (D2'&L2'&V2'); [lia..|].
  destruct (pad_start_spec 2 (utc_date t)) as (D3&L3&V3); [lia..|].
  destruct (pad_start_spec 2 (utc_date t')) as (D3'&L3'&V3'); [lia..|].
  rewrite string_compare_app by congruence.
  rewrite string_compare_digits, V1, V1' by congruence.
  destruct (utc_year t ?= utc_year t'); [|done..].
  rewrite string_compare_cons, string_compare_app by congruence.
  rewrite string_compare_digits, V2, V2' by congruence.
  rewrite (Z.add_comm (utc_month t)), (Z.add_comm (utc_month t')), Z.add_compare_mono_l.
  destruct (utc_month t ?= utc_month t'); [|done..].
  rewrite string_compare_cons, string_compare_digits, V3, V3' by congruence. done.
Qed.

(** Comparing ISO dates as strings compares the calendar days: the renewal
    processor's date guards mean what they say. *)
Theorem is_on_or_after_exact t t' (H : iso_range t) (H' : iso_range t') :
  isOnOrAfter (iso_date t) (iso_date t') = (day_of_time t' <=? day_of_time t).
Proof.
  unfold isOnOrAfter, String.leb, Z.leb. by rewrite iso_date_compare.
Qed.
Lemma is_on_or_after_exact_witness : isOnOrAfter "2028-03-01" "2028-02-29" = true.
Proof.
  pose proof (is_on_or_after_exact 1835481600000 1835395200000
    ltac:(vm_compute; split; congruence) ltac:(vm_compute; split; congruence)) as H.
  vm_compute in H. vm_compute. exact H.
Defined.

(** ** Dates on screen *)

Lemma like_digit pattern c s :
  like (String "#" pattern) (String c s) = is_digit c && like pattern s.
Proof. done. Qed.
Lemma like_dash pattern c s :
  like (String "-" pattern) (String c s) = Ascii.eqb "-" c && like pattern s.
Proof. done. Qed.
Lemma like_iso_shape v :
  like "####-##-##" v = true →
  ∃ a b c d e f g h, v = (String a (String b (String c (String d (String "-"
    (String e (String f (String "-" (String g (String h "")))))))))) ∧
  forallb is_digit [a; b; c; d; e; f; g; h] = true.
Proof.
  do 10 (destruct v as [|? v]; [cbn; intros; split_bool; done|]).
  repeat (rewrite like_digit || rewrite like_dash).
  destruct v; [|intros H; split_bool; match goal with H : like "" _ = true |- _ => discriminate H end].
  intros H. split_bool.
  repeat match goal with H : Ascii.eqb "-" _ = true |- _ =>
    apply Ascii.eqb_eq in H; subst end.
  do 8 eexists. split; [reflexivity|]. cbn [forallb].
  repeat match goal with H : is_digit _ = true |- _ => rewrite H; clear H end. done.
Qed.

(** [validIsoDate] accepts exactly the dates of the calendar, years 0 to
    9999: neither a thirteenth month nor a thirtieth of February. *)
Theorem valid_iso_date_exact v :
  validIsoDate v = true ↔ ∃ t, iso_range t ∧ v = iso_date t.
Proof.
  unfold validIsoDate. split.
  - destruct (like "####-##-##" v) eqn:Hl; [|done]. cbn [negb].
    destruct (parse_iso_midnight v) as [t|]; [|done].
    intros Heq%String.eqb_eq. exists t.
    assert (iso_range t) as Hr; [|split; [done|by rewrite slice_iso_date in Heq]].
    unfold iso_range. destruct (Z.leb_spec 0 (utc_year t)), (Z.leb_spec (utc_year t) 9999);
      [lia|exfalso..];
      apply like_iso_shape in Hl as (?&?&?&?&?&?&?&?&->&Hd); cbn [forallb] in Hd; split_bool;
      unfold to_ISO_string, iso_date, iso_year in Heq;
      repeat match type of Heq with context [Z.leb ?a ?b] =>
        destruct (Z.leb_spec a b); try lia end; cbn [andb] in Heq;
      destruct (utc_year t <? 0); injection Heq as Hc _; subst; done.
  - intros (t & Hr & ->). destruct (iso_date_parts t "" Hr) as (_&Hl&_&Y&M&D).
    rewrite Hl. cbn [negb]. unfold parse_iso_midnight. rewrite Y, M, D.
    replace (utc_month t + 1 - 1) with (utc_month t) by lia. rewrite make_day_civil.
    rewrite midnight_make_date, iso_range_clip by (by apply midnight_range).
    pose proof (utc_month_bounds t). pose proof (utc_date_bounds t).
    destruct (Z.leb_spec 1 (utc_month t + 1)), (Z.leb_spec (utc_month t + 1) 12),
      (Z.leb_spec 1 (utc_date t)), (Z.leb_spec (utc_date t) 31); try lia. cbn [andb].
    rewrite slice_iso_date by (by apply midnight_range).
    rewrite (iso_date_of_day _ t) by apply midnight_day. apply String.eqb_refl.
Qed.

(** A date shown day first reads back as the same ISO date. *)
Theorem presentation_roundtrip v (H : validIsoDate v = true) :
  parseCalendarDate (formatCalendarDate (Some v) day_first) = Some v.
Proof.
  assert (like "####-##-##" v = true) as Hl.
  { unfold validIsoDate in H. by destruct (like "####-##-##" v). }
  apply like_iso_shape in Hl as (a&b&c&d&e&f&g&h&->&Hd).
  unfold formatCalendarDate. change (slice 0 10 ?x) with x. rewrite H. cbn [negb].
  unfold parseCalendarDate. cbn [forallb] in Hd. split_bool.
  cbn [slice substring Nat.sub append like Ascii.eqb Bool.eqb].
  repeat match goal with H : is_digit _ = true |- _ => rewrite H; clear H end.
  cbn [andb append]. by rewrite H.
Qed.
Lemma presentation_roundtrip_witness :
  parseCalendarDate "29/02/2028" = Some "2028-02-29".
Proof. exact (presentation_roundtrip "2028-02-29" ltac:(vm_compute; reflexivity)). Defined.
