(* ===== verification/Database.v ===== *)
(** * The database

    The tables of packages/database/prisma/schema.prisma the modelled services
    read and write, and the Prisma operations they use.  A row is keyed by its
    primary key; [create] enforces the primary key and the unique indexes
    ([P2002]); [@updatedAt] columns follow every update.  Random UUIDs and clock
    readings are consumed from two streams of the world: a computation is
    deterministic given the values the run observes. *)
From S2P Require Import Prelude JsString Json States AuthTables DomainTables.

(** ** Rows *)
Record Setting := MkSetting
  { set_value : json; set_category : string; set_description : option string;
    set_updatedByUserId : option string }.

Record Invoice := MkInvoice
  { inv_id : string; inv_invoiceNumber : string; inv_submissionKey : string;
    inv_customerId : string; inv_orderId : option string; inv_status : InvoiceStatus;
    inv_currency : string; inv_subtotal : Z; inv_discountTotal : Z; inv_taxTotal : Z;
    inv_total : Z; inv_creditTotal : Z; inv_amountPaid : Z; inv_balanceDue : Z;
    inv_customerNameSnapshot : string; inv_customerEmailSnapshot : string;
    inv_customerAddressSnapshot : json; inv_businessIdentitySnapshot : json;
    inv_taxIdentitySnapshot : json; inv_issuedAt : option Z; inv_dueAt : Z;
    inv_paidAt : option Z; inv_cancelledAt : option Z; inv_createdAt : Z;
    inv_updatedAt : Z }.
#[export] Instance Invoice_rebuild : Rebuild Invoice := λ r,
  MkInvoice (inv_id r) (inv_invoiceNumber r) (inv_submissionKey r) (inv_customerId r)
    (inv_orderId r) (inv_status r) (inv_currency r) (inv_subtotal r)
    (inv_discountTotal r) (inv_taxTotal r) (inv_total r) (inv_creditTotal r)
    (inv_amountPaid r) (inv_balanceDue r) (inv_customerNameSnapshot r)
    (inv_customerEmailSnapshot r) (inv_customerAddressSnapshot r)
    (inv_businessIdentitySnapshot r) (inv_taxIdentitySnapshot r) (inv_issuedAt r)
    (inv_dueAt r) (inv_paidAt r) (inv_cancelledAt r) (inv_createdAt r)
    (inv_updatedAt r).

Record InvoiceItem := MkInvoiceItem
  { ii_id : string; ii_invoiceId : string; ii_linePosition : Z;
    ii_orderItemId : option string; ii_serviceId : option string;
    ii_descriptionSnapshot : string; ii_currency : string; ii_quantity : Z;
    ii_unitAmount : Z; ii_discountAmount : Z; ii_taxAmount : Z; ii_lineTotal : Z;
    ii_servicePeriodStart : option Z; ii_servicePeriodEnd : option Z }.
#[export] Instance InvoiceItem_rebuild : Rebuild InvoiceItem := λ r,
  MkInvoiceItem (ii_id r) (ii_invoiceId r) (ii_linePosition r) (ii_orderItemId r)
    (ii_serviceId r) (ii_descriptionSnapshot r) (ii_currency r) (ii_quantity r)
    (ii_unitAmount r) (ii_discountAmount r) (ii_taxAmount r) (ii_lineTotal r)
    (ii_servicePeriodStart r) (ii_servicePeriodEnd r).

Record Payment := MkPayment
  { pay_id : string; pay_invoiceId : string; pay_originalPaymentId : option string;
    pay_createdByUserId : option string; pay_reviewedByUserId : option string;
    pay_kind : PaymentKind; pay_status : PaymentStatus; pay_provider : string;
    pay_providerTransactionId : option string; pay_idempotencyKey : string;
    pay_amount : Z; pay_currency : string; pay_reference : option string;
    pay_providerCheckoutUrl : option string; pay_providerSessionExpiresAt : option Z;
    pay_manualMethod : option string; pay_proofMetadata : json;
    pay_failureReason : option string; pay_receivedAt : option Z;
    pay_reviewedAt : option Z; pay_verifiedAt : option Z; pay_createdAt : Z;
    pay_updatedAt : Z }.
#[export] Instance Payment_rebuild : Rebuild Payment := λ r,
  MkPayment (pay_id r) (pay_invoiceId r) (pay_originalPaymentId r)
    (pay_createdByUserId r) (pay_reviewedByUserId r) (pay_kind r) (pay_status r)
    (pay_provider r) (pay_providerTransactionId r) (pay_idempotencyKey r)
    (pay_amount r) (pay_currency r) (pay_reference r) (pay_providerCheckoutUrl r)
    (pay_providerSessionExpiresAt r) (pay_manualMethod r) (pay_proofMetadata r)
    (pay_failureReason r) (pay_receivedAt r)
    (pay_reviewedAt r) (pay_verifiedAt r) (pay_createdAt r) (pay_updatedAt r).

Record PaymentEvent := MkPaymentEvent
  { pe_id : string; pe_paymentId : option string; pe_provider : string;
    pe_providerEventId : string; pe_idempotencyKey : string; pe_eventType : string;
    pe_status : PaymentEventStatus; pe_payloadHash : string; pe_normalizedPayload : json;
    pe_errorMessage : option string; pe_receivedAt : Z; pe_processedAt : option Z }.
#[export] Instance PaymentEvent_rebuild : Rebuild PaymentEvent := λ r,
  MkPaymentEvent (pe_id r) (pe_paymentId r) (pe_provider r) (pe_providerEventId r)
    (pe_idempotencyKey r) (pe_eventType r) (pe_status r) (pe_payloadHash r)
    (pe_normalizedPayload r) (pe_errorMessage r) (pe_receivedAt r) (pe_processedAt r).

Record Order := MkOrder
  { ord_id : string; ord_orderNumber : string; ord_submissionKey : string;
    ord_customerId : string; ord_status : OrderStatus; ord_currency : string;
    ord_subtotal : Z; ord_setupTotal : Z; ord_discountTotal : Z; ord_taxTotal : Z;
    ord_total : Z; ord_customerEmailSnapshot : string; ord_notes : option string;
    ord_termsAcceptance : json; ord_placedAt : Z; ord_completedAt : option Z;
    ord_cancelledAt : option Z; ord_updatedAt : Z }.
#[export] Instance Order_rebuild : Rebuild Order := λ r,
  MkOrder (ord_id r) (ord_orderNumber r) (ord_submissionKey r) (ord_customerId r)
    (ord_status r) (ord_currency r) (ord_subtotal r) (ord_setupTotal r)
    (ord_discountTotal r) (ord_taxTotal r) (ord_total r)
    (ord_customerEmailSnapshot r) (ord_notes r) (ord_termsAcceptance r)
    (ord_placedAt r) (ord_completedAt r) (ord_cancelledAt r) (ord_updatedAt r).

Record OrderItem := MkOrderItem
  { oi_id : string; oi_orderId : string; oi_kind : ProductKind; oi_productId : string;
    oi_productPriceId : string; oi_productNameSnapshot : string;
    oi_descriptionSnapshot : option string; oi_billingPeriod : BillingPeriod;
    oi_currency : string; oi_unitAmount : Z; oi_setupFee : Z; oi_quantity : Z;
    oi_lineTotal : Z; oi_requestedDomain : option string;
    oi_provisioningSnapshot : json; oi_fulfilledAt : option Z;
    oi_renewalEndsAt : option Z; oi_createdAt : Z }.
#[export] Instance OrderItem_rebuild : Rebuild OrderItem := λ r,
  MkOrderItem (oi_id r) (oi_orderId r) (oi_kind r) (oi_productId r)
    (oi_productPriceId r) (oi_productNameSnapshot r) (oi_descriptionSnapshot r)
    (oi_billingPeriod r) (oi_currency r) (oi_unitAmount r) (oi_setupFee r)
    (oi_quantity r) (oi_lineTotal r) (oi_requestedDomain r)
    (oi_provisioningSnapshot r) (oi_fulfilledAt r) (oi_renewalEndsAt r)
    (oi_createdAt r).

(** A customer joined with its user: the columns [usr_...] are those of the row of
    [users] it refers to. *)
Record Customer := MkCustomer
  { cus_customerNumber : string; cus_phone : option string; cus_status : CustomerStatus; cus_deletedAt : option Z;
    cus_firstName : string; cus_lastName : string; cus_companyName : option string;
    cus_addressLine1 : string; cus_addressLine2 : option string; cus_city : string;
    cus_region : option string; cus_postalCode : option string;
    cus_countryCode : string; cus_taxIdentifier : option string;
    usr_id : string; usr_email : string; usr_status : UserStatus;
    usr_deletedAt : option Z; usr_emailVerifiedAt : option Z }.
#[export] Instance Customer_rebuild : Rebuild Customer := λ r,
  MkCustomer (cus_customerNumber r) (cus_phone r) (cus_status r) (cus_deletedAt r)
    (cus_firstName r) (cus_lastName r) (cus_companyName r) (cus_addressLine1 r)
    (cus_addressLine2 r) (cus_city r) (cus_region r) (cus_postalCode r)
    (cus_countryCode r) (cus_taxIdentifier r) (usr_id r) (usr_email r) (usr_status r)
    (usr_deletedAt r) (usr_emailVerifiedAt r).

Record Service := MkService
  { svc_id : string; svc_customerId : string; svc_orderItemId : option string;
    svc_productId : string; svc_productPriceId : string; svc_serverId : string;
    svc_status : ServiceStatus; svc_domain : option string;
    svc_productNameSnapshot : string; svc_productDescriptionSnapshot : option string;
    svc_provisioningSnapshot : json; svc_controlPanelUsername : option string;
    svc_externalAccountId : option string; svc_billingPeriod : BillingPeriod;
    svc_recurringAmount : Z; svc_currency : string; svc_startedAt : Z;
    svc_nextDueAt : Z; svc_activatedAt : option Z; svc_suspendedAt : option Z;
    svc_suspensionReason : option string; svc_suspensionInvoiceId : option string;
    svc_provisioningFailureReason : option string; svc_cancelledAt : option Z;
    svc_cancellationReason : option string; svc_terminatedAt : option Z;
    svc_terminationReason : option string; svc_terminatedByUserId : option string;
    svc_createdAt : Z; svc_updatedAt : Z }.
#[export] Instance Service_rebuild : Rebuild Service := λ r,
  MkService (svc_id r) (svc_customerId r) (svc_orderItemId r) (svc_productId r)
    (svc_productPriceId r) (svc_serverId r) (svc_status r) (svc_domain r)
    (svc_productNameSnapshot r) (svc_productDescriptionSnapshot r)
    (svc_provisioningSnapshot r) (svc_controlPanelUsername r)
    (svc_externalAccountId r) (svc_billingPeriod r) (svc_recurringAmount r)
    (svc_currency r) (svc_startedAt r) (svc_nextDueAt r) (svc_activatedAt r)
    (svc_suspendedAt r) (svc_suspensionReason r) (svc_suspensionInvoiceId r)
    (svc_provisioningFailureReason r) (svc_cancelledAt r) (svc_cancellationReason r)
    (svc_terminatedAt r) (svc_terminationReason r) (svc_terminatedByUserId r)
    (svc_createdAt r) (svc_updatedAt r).

Record HostingCancellationRequest := MkCancellation
  { hc_id : string; hc_serviceId : string; hc_timing : CancellationTiming;
    hc_status : CancellationStatus; hc_reason : option string;
    hc_effectiveAt : option Z; hc_approvedAt : option Z; hc_createdAt : Z;
    hc_resolvedAt : option Z }.
#[export] Instance HostingCancellationRequest_rebuild : Rebuild HostingCancellationRequest := λ r,
  MkCancellation (hc_id r) (hc_serviceId r) (hc_timing r) (hc_status r)
    (hc_reason r) (hc_effectiveAt r) (hc_approvedAt r) (hc_createdAt r)
    (hc_resolvedAt r).

Record Server := MkServer
  { srv_id : string; srv_name : string; srv_hostname : string;
    srv_status : ServerStatus; srv_adapterKey : string;
    srv_apiUsername : option string; srv_credentialsCiphertext : option string;
    srv_credentialKeyVersion : option string; srv_port : Z; srv_useTls : bool;
    srv_maxAccounts : option Z; srv_deletedAt : option Z; srv_updatedAt : Z }.
#[export] Instance Server_rebuild : Rebuild Server := λ r,
  MkServer (srv_id r) (srv_name r) (srv_hostname r) (srv_status r) (srv_adapterKey r)
    (srv_apiUsername r) (srv_credentialsCiphertext r) (srv_credentialKeyVersion r)
    (srv_port r) (srv_useTls r) (srv_maxAccounts r) (srv_deletedAt r) (srv_updatedAt r).

Record HostingPanelOperation := MkOperation
  { op_id : string; op_serviceId : option string; op_serverId : string;
    op_requestedByUserId : option string; op_automationRunId : option string;
    op_retryOfOperationId : option string; op_type : OperationType;
    op_status : OperationStatus; op_adapterKey : string; op_idempotencyKey : string;
    op_requestFingerprint : string; op_attemptNumber : Z; op_retryable : bool;
    op_errorKind : option ErrorKind; op_errorCode : option string;
    op_errorMessage : option string; op_requestMetadata : json;
    op_resultMetadata : json; op_startedAt : Z; op_completedAt : option Z;
    op_createdAt : Z; op_updatedAt : Z }.
#[export] Instance HostingPanelOperation_rebuild : Rebuild HostingPanelOperation := λ r,
  MkOperation (op_id r) (op_serviceId r) (op_serverId r) (op_requestedByUserId r)
    (op_automationRunId r) (op_retryOfOperationId r) (op_type r) (op_status r)
    (op_adapterKey r) (op_idempotencyKey r) (op_requestFingerprint r)
    (op_attemptNumber r) (op_retryable r) (op_errorKind r) (op_errorCode r)
    (op_errorMessage r) (op_requestMetadata r) (op_resultMetadata r)
    (op_startedAt r) (op_completedAt r) (op_createdAt r) (op_updatedAt r).

Record OutboxEvent := MkOutboxEvent
  { out_id : string; out_aggregateType : string; out_aggregateId : string;
    out_eventType : string; out_idempotencyKey : string; out_payload : json;
    out_status : OutboxStatus; out_attemptCount : Z; out_availableAt : Z;
    out_lockedAt : option Z; out_lockedBy : option string; out_publishedAt : option Z;
    out_lastError : option string; out_createdAt : Z; out_updatedAt : Z }.
#[export] Instance OutboxEvent_rebuild : Rebuild OutboxEvent := λ r,
  MkOutboxEvent (out_id r) (out_aggregateType r) (out_aggregateId r) (out_eventType r)
    (out_idempotencyKey r) (out_payload r) (out_status r) (out_attemptCount r)
    (out_availableAt r) (out_lockedAt r) (out_lockedBy r) (out_publishedAt r)
    (out_lastError r) (out_createdAt r) (out_updatedAt r).

Record ActivityLog := MkActivityLog
  { log_actorUserId : option string; log_action : string; log_entityType : string;
    log_entityId : option string; log_correlationId : option string;
    log_ipAddressHash : option string; log_metadata : json }.

Record AutomationRun := MkAutomationRun
  { run_id : string; run_jobName : string; run_idempotencyKey : string;
    run_status : AutomationStatus; run_startedAt : Z; run_completedAt : option Z;
    run_processedCount : Z; run_succeededCount : Z; run_failedCount : Z;
    run_errorSummary : option string; run_metadata : json }.
#[export] Instance AutomationRun_rebuild : Rebuild AutomationRun := λ r,
  MkAutomationRun (run_id r) (run_jobName r) (run_idempotencyKey r) (run_status r)
    (run_startedAt r) (run_completedAt r) (run_processedCount r)
    (run_succeededCount r) (run_failedCount r) (run_errorSummary r) (run_metadata r).

(** A price joined with its product; [pr_eligibleHostingPlans] are the hosting
    products an add-on may be bought with. *)
Record ProductPrice := MkProductPrice
  { pp_id : string; pp_productId : string; pp_billingPeriod : BillingPeriod;
    pp_currency : string; pp_amount : Z; pp_setupFee : Z; pp_isActive : bool;
    pp_validFrom : option Z; pp_validUntil : option Z; pp_deletedAt : option Z;
    pr_kind : ProductKind; pr_status : ProductStatus; pr_publicVisible : bool;
    pr_deletedAt : option Z; pr_name : string; pr_description : option string;
    pr_slug : string; pr_hostingPackageIdentifier : option string;
    pr_eligibleHostingPlans : list string }.

(** ** The world *)
Record Db := MkDb
  { settings : gmap string Setting; customers : gmap string Customer;
    invoices : gmap string Invoice; invoiceItems : gmap string InvoiceItem;
    payments : gmap string Payment; paymentEvents : gmap string PaymentEvent;
    orders : gmap string Order;
    orderItems : gmap string OrderItem; services : gmap string Service;
    productPrices : gmap string ProductPrice;
    domains : gmap string Domain; existingDomainOrders : gmap string ExistingDomainOrder;
    outboxEvents : gmap string OutboxEvent; activityLogs : list ActivityLog;
    automationRuns : gmap string AutomationRun; authTables : AuthTables;
    cancellations : gmap string HostingCancellationRequest; servers : gmap string Server;
    panelOperations : gmap string HostingPanelOperation; domainTables : DomainTables }.
#[export] Instance Db_rebuild : Rebuild Db := λ d,
  MkDb (settings d) (customers d) (invoices d) (invoiceItems d) (payments d)
    (paymentEvents d) (orders d) (orderItems d) (services d) (productPrices d) (domains d) (existingDomainOrders d)
    (outboxEvents d) (activityLogs d) (automationRuns d) (authTables d)
    (cancellations d) (servers d) (panelOperations d) (domainTables d).
(** A database without rows. *)
Definition empty_db : Db :=
  MkDb ∅ ∅ ∅ ∅ ∅ ∅ ∅ ∅ ∅ ∅ ∅ ∅ ∅ [] ∅ no_accounts ∅ ∅ ∅ no_registrar.
(** The role of a user. *)
Definition userRoles (d : Db) : gmap string UserRole := user_role <$> users (authTables d).
(** [registrarRequests]: the requests registrars received, the path and the parameters of
    each.  Nothing reads it and only a transport writes it, and no rollback undoes it. *)
Record World := MkWorld
  { db : Db; uuids : nat → string; drawn : nat; clock : nat → Z; ticks : nat;
    registrarRequests : list (string * list (string * list string)) }.
#[export] Instance World_rebuild : Rebuild World := λ w,
  MkWorld (db w) (uuids w) (drawn w) (clock w) (ticks w) (registrarRequests w).

Notation Io := (M World).

(** ** Environment *)
Definition new_date : Io Z := λ w,
  (Ok (clock w (ticks w)), w <| ticks := S (ticks w) |>).
Definition random_uuid : Io string := λ w,
  (Ok (uuids w (drawn w)), w <| drawn := S (drawn w) |>).
Definition read {A} (f : Db → A) : Io A := gets (λ w, f (db w)).
Definition write (f : Db → Db) : Io unit := modify (λ w, w <| db := f (db w) |>).

(** [prisma.$transaction(async (transaction) => ...)]: an exception undoes the
    writes of the transaction, not the passing of time. *)
Definition transaction {A} (m : Io A) : Io A := λ w,
  match m w with
  | (Ok a, w') => (Ok a, w')
  | (Err e, w') => (Err e, w' <| db := db w |>)
  end.
(** The tables of domains as tables of the database. *)
Definition in_domain {T} (table : DomainTables → T) (d : Db) : T := table (domainTables d).
#[export] Instance in_domain_setter {T} (table : DomainTables → T) `{!Setter table} :
  Setter (in_domain table) := λ f d,
  set_field domainTables (set_field table f) d.
Notation registrarAccounts := (in_domain t_accounts).
Notation registrarCredentials := (in_domain t_credentials).
Notation registrarOperations := (in_domain t_operations).
Notation registrarPreparations := (in_domain t_preparations).
Notation registrarMappings := (in_domain t_mappings).
Notation registrarEvidence := (in_domain t_evidence).
Notation registrarProfiles := (in_domain t_profiles).
Notation domainOffers := (in_domain t_offers).
Notation domainQuotes := (in_domain t_quotes).
Notation domainActions := (in_domain t_actions).
Notation domainCatalogue := (in_domain t_catalogue).
Notation fakeRegistrations := (in_domain t_fakes).
Notation catalogueProducts := (in_domain t_products).
Notation registrarReads := (in_domain t_reads).

(** A row or advisory lock held to the end of the transaction: the model runs
    transactions one at a time, so it has no further effect. *)
Definition lock_row (table id : string) : Io unit := mret tt.

(** ** Table operations *)
Section tables.
Context {R : Type}.
Implicit Types m : gmap string R.

(** No row agrees with the new one on a unique column. *)
Definition unique_in {K} `{EqDecision K} (m : gmap string R) (key : R → K) (k : K)
    : bool :=
  bool_decide (map_Forall (λ _ r, key r ≠ k) m).
(** A nullable unique column: [NULL]s never collide. *)
Definition unique_opt {K} `{EqDecision K} (m : gmap string R) (key : R → option K)
    (k : option K) : bool :=
  match k with None => true | Some _ => unique_in m key k end.
Definition find_unique {K} `{EqDecision K} (m : gmap string R) (key : R → K) (k : K)
    : option R :=
  snd <$> List.find (λ kv, bool_decide (key kv.2 = k)) (map_to_list m).
Definition rows (p : R → bool) (m : gmap string R) : list R :=
  List.filter p (snd <$> map_to_list m).
Definition count_rows (p : R → bool) (m : gmap string R) : Z :=
  Z.of_nat (length (rows p m)).
Definition update_rows (p : R → bool) (f : R → R) (m : gmap string R)
    : gmap string R :=
  (λ r, if p r then f r else r) <$> m.
Definition delete_rows (p : R → bool) (m : gmap string R) : gmap string R :=
  filter (λ kv, p kv.2 = false) m.
(** [updateMany] restricted to one primary key: the count and the new table. *)
Definition update_one (m : gmap string R) (id : string) (p : R → bool) (f : R → R)
    : Z * gmap string R :=
  match m !! id with
  | Some r => if p r then (1, <[id := f r]> m) else (0, m)
  | None => (0, m)
  end.
End tables.

(** The Prisma operations on the table [table] of the database. *)
Section operations.
Context {R : Type} (table : Db → gmap string R) `{!Setter table}.

(** [create]: the primary key and the unique columns [fresh] checks. *)
Definition create_row (id : string) (fresh : gmap string R → bool) (r : R) : Io unit :=
  m ← read table;
  _ ← require (bool_decide (m !! id = None) && fresh m) UniqueViolation;
  write (λ d, d <| table := <[id := r]> m |>).
(** [updateMany({where: {id, ...}})]: the count. *)
Definition change_row_if (id : string) (p : R → bool) (f : R → R) : Io Z :=
  m ← read table;
  let '(count, m') := update_one m id p f in
  _ ← write (λ d, d <| table := m' |>);
  mret count.
(** [update({where: {id}})]. *)
Definition change_row (id : string) (f : R → R) : Io unit :=
  count ← change_row_if id (λ _, true) f;
  require (count =? 1) RecordNotFound.
(** [findUniqueOrThrow({where: {id}})]. *)
Definition row_or_throw (id : string) : Io R :=
  found ← read (λ d, table d !! id);
  lift (of_option RecordNotFound found).
End operations.

(** Writes of one table. *)
Definition put_invoice (r : Invoice) : Io unit :=
  write (λ d, d <| invoices := <[inv_id r := r]> (invoices d) |>).
Definition put_invoice_item (r : InvoiceItem) : Io unit :=
  write (λ d, d <| invoiceItems := <[ii_id r := r]> (invoiceItems d) |>).
Definition put_payment (r : Payment) : Io unit :=
  write (λ d, d <| payments := <[pay_id r := r]> (payments d) |>).
Definition put_order (r : Order) : Io unit :=
  write (λ d, d <| orders := <[ord_id r := r]> (orders d) |>).
Definition put_order_item (r : OrderItem) : Io unit :=
  write (λ d, d <| orderItems := <[oi_id r := r]> (orderItems d) |>).
Definition put_service (r : Service) : Io unit :=
  write (λ d, d <| services := <[svc_id r := r]> (services d) |>).
Definition put_run (r : AutomationRun) : Io unit :=
  write (λ d, d <| automationRuns := <[run_id r := r]> (automationRuns d) |>).

(** [invoice.create]: primary key, number and submission key are unique. *)
Definition create_invoice (r : Invoice) : Io unit :=
  m ← read invoices;
  _ ← require (bool_decide (m !! inv_id r = None) &&
               unique_in m inv_invoiceNumber (inv_invoiceNumber r) &&
               unique_in m inv_submissionKey (inv_submissionKey r)) UniqueViolation;
  put_invoice r.
(** [invoice_items_service_period_key]: a service period is billed once. *)
Definition service_period (r : InvoiceItem) : option (string * Z * Z) :=
  s ← ii_serviceId r; from ← ii_servicePeriodStart r; to ← ii_servicePeriodEnd r;
  Some (s, from, to).
Definition create_invoice_item (r : InvoiceItem) : Io unit :=
  m ← read invoiceItems;
  _ ← require (bool_decide (m !! ii_id r = None) &&
               unique_in m (λ r, (ii_invoiceId r, ii_linePosition r))
                         (ii_invoiceId r, ii_linePosition r) &&
               unique_opt m service_period (service_period r)) UniqueViolation;
  put_invoice_item r.
(** [payment.create]: primary key, idempotency key, and (provider, transaction)
    are unique. *)
Definition transaction_key (r : Payment) : option (string * string) :=
  t ← pay_providerTransactionId r; Some (pay_provider r, t).
Definition create_payment (r : Payment) : Io unit :=
  m ← read payments;
  _ ← require (bool_decide (m !! pay_id r = None) &&
               unique_in m pay_idempotencyKey (pay_idempotencyKey r) &&
               unique_opt m transaction_key (transaction_key r)) UniqueViolation;
  put_payment r.
(** [paymentEvent.create]: primary key, idempotency key, and (provider, event id)
    are unique. *)
Definition event_key (r : PaymentEvent) : string * string :=
  (pe_provider r, pe_providerEventId r).
Definition put_payment_event (r : PaymentEvent) : Io unit :=
  write (λ d, d <| paymentEvents := <[pe_id r := r]> (paymentEvents d) |>).
Definition create_payment_event (r : PaymentEvent) : Io unit :=
  m ← read paymentEvents;
  _ ← require (bool_decide (m !! pe_id r = None) &&
               unique_in m pe_idempotencyKey (pe_idempotencyKey r) &&
               unique_in m event_key (event_key r)) UniqueViolation;
  put_payment_event r.
(** [paymentEvent.update({where: {id}})]. *)
Definition update_payment_event (id : string) (f : PaymentEvent → PaymentEvent) : Io unit :=
  m ← read paymentEvents;
  match m !! id with
  | None => throw RecordNotFound
  | Some r => write (λ d, d <| paymentEvents := <[id := f r]> m |>)
  end.
Definition create_order (r : Order) : Io unit :=
  m ← read orders;
  _ ← require (bool_decide (m !! ord_id r = None) &&
               unique_in m ord_orderNumber (ord_orderNumber r) &&
               unique_in m ord_submissionKey (ord_submissionKey r)) UniqueViolation;
  put_order r.
Definition create_order_item (r : OrderItem) : Io unit :=
  m ← read orderItems;
  _ ← require (bool_decide (m !! oi_id r = None)) UniqueViolation;
  put_order_item r.
Definition put_outbox (r : OutboxEvent) : Io unit :=
  write (λ d, d <| outboxEvents := <[out_id r := r]> (outboxEvents d) |>).
(** A new event and its column defaults; [availableAt] defaults to the time. *)
Definition pending_event (id aggregateType aggregateId eventType idempotencyKey : string)
    (payload : json) (availableAt now : Z) : OutboxEvent :=
  MkOutboxEvent id aggregateType aggregateId eventType idempotencyKey payload
    OutboxStatus.PENDING 0 availableAt None None None None now now.
(** [outboxEvent.create]. *)
Definition create_outbox (aggregateType aggregateId eventType idempotencyKey : string)
    (payload : json) : Io unit :=
  id ← random_uuid;
  now ← new_date;
  m ← read outboxEvents;
  _ ← require (bool_decide (m !! id = None) &&
               unique_in m out_idempotencyKey idempotencyKey) UniqueViolation;
  put_outbox (pending_event id aggregateType aggregateId eventType idempotencyKey
                payload now now).
(** [outboxEvent.createMany] of one event with [skipDuplicates]: the count. *)
Definition create_outbox_skip (aggregateType aggregateId eventType idempotencyKey : string)
    (payload : json) : Io Z :=
  id ← random_uuid;
  now ← new_date;
  m ← read outboxEvents;
  if bool_decide (m !! id = None) && unique_in m out_idempotencyKey idempotencyKey
  then _ ← put_outbox (pending_event id aggregateType aggregateId eventType
                         idempotencyKey payload now now);
       mret 1
  else mret 0.
(** A registrar's order belongs to one domain. *)
Definition provider_key (r : Domain) : option (string * string) :=
  account ← dom_executionAccountId r; order ← dom_providerOrderId r; Some (account, order).
(** [domain.create]: primary key, name, submission key, quote, order item, invoice
    and registrar order are unique. *)
Definition create_domain (r : Domain) : Io unit :=
  m ← read domains;
  _ ← require (bool_decide (m !! dom_id r = None) &&
               unique_in m dom_domainName (dom_domainName r) &&
               unique_in m dom_submissionKey (dom_submissionKey r) &&
               unique_opt m dom_quoteId (dom_quoteId r) &&
               unique_opt m dom_invoiceId (dom_invoiceId r) &&
               unique_opt m dom_orderItemId (dom_orderItemId r) &&
               unique_opt m provider_key (provider_key r)) UniqueViolation;
  write (λ d, d <| domains := <[dom_id r := r]> m |>).
(** [domain.update({where: {id}})] of columns other than the keys above, but for the
    registrar order. *)
Definition update_domain (id : string) (f : Domain → Domain) : Io unit :=
  m ← read domains;
  r ← lift (of_option RecordNotFound (m !! id));
  _ ← require (unique_opt (delete id m) provider_key (provider_key (f r))) UniqueViolation;
  write (λ d, d <| domains := <[id := f r]> m |>).
(** [existingDomainOrder.create]: a domain and an order item are linked once. *)
Definition create_existing_domain_order (r : ExistingDomainOrder) : Io unit :=
  m ← read existingDomainOrders;
  _ ← require (bool_decide (m !! edo_domainId r = None) &&
               unique_in m edo_orderItemId (edo_orderItemId r)) UniqueViolation;
  write (λ d, d <| existingDomainOrders := <[edo_domainId r := r]> m |>).
(** [activityLog.create]. *)
Definition log_activity (l : ActivityLog) : Io unit :=
  write (λ d, d <| activityLogs := activityLogs d ++ [l] |>).

(** [invoice.update({where: {id}})]. *)
Definition update_invoice (id : string) (f : Invoice → Invoice) : Io unit :=
  now ← new_date;
  m ← read invoices;
  match m !! id with
  | None => throw RecordNotFound
  | Some r => write (λ d, d <| invoices := <[id := f r <| inv_updatedAt := now |>]> m |>)
  end.
(** [invoice.updateMany({where: {id, ...}})]: the count. *)
Definition update_invoice_if (id : string) (p : Invoice → bool) (f : Invoice → Invoice)
    : Io Z :=
  now ← new_date;
  m ← read invoices;
  let '(count, m') := update_one m id p (λ r, f r <| inv_updatedAt := now |>) in
  _ ← write (λ d, d <| invoices := m' |>);
  mret count.
(** A payment's transaction key stays unique among the other rows. *)
Definition update_payment_if (id : string) (p : Payment → bool) (f : Payment → Payment)
    : Io Z :=
  now ← new_date;
  m ← read payments;
  match m !! id with
  | Some r =>
      if p r then
        let r' := f r <| pay_updatedAt := now |> in
        _ ← require (unique_opt (delete id m) transaction_key (transaction_key r'))
              UniqueViolation;
        _ ← write (λ d, d <| payments := <[id := r']> m |>);
        mret 1
      else mret 0
  | None => mret 0
  end.
(** [payment.update({where: {id}})]. *)
Definition update_payment (id : string) (f : Payment → Payment) : Io unit :=
  count ← update_payment_if id (λ _, true) f;
  require (count =? 1) RecordNotFound.
(** A service's account stays unique on its server. *)
Definition account_key (s : Service) : option (string * string) :=
  a ← svc_externalAccountId s; Some (svc_serverId s, a).
(** [service.updateMany({where: {id, ...}})]: the count. *)
Definition update_service_if (id : string) (p : Service → bool) (f : Service → Service)
    : Io Z :=
  now ← new_date;
  m ← read services;
  match m !! id with
  | Some s =>
      if p s then
        let s' := f s <| svc_updatedAt := now |> in
        _ ← require (unique_opt (delete id m) account_key (account_key s')) UniqueViolation;
        _ ← write (λ d, d <| services := <[id := s']> m |>);
        mret 1
      else mret 0
  | None => mret 0
  end.
(** [service.update({where: {id}})]. *)
Definition update_service (id : string) (f : Service → Service) : Io unit :=
  count ← update_service_if id (λ _, true) f;
  require (count =? 1) RecordNotFound.
(** A cancellation request that is or has been in force. *)
Definition cancellation_effective (r : HostingCancellationRequest) : bool :=
  (hc_status r ==b CancellationStatus.OPEN) || (hc_status r ==b CancellationStatus.COMPLETED).
Definition cancellation_pending (serviceId : string) (d : Db) : bool :=
  negb (bool_decide (rows (λ r, String.eqb (hc_serviceId r) serviceId &&
                              cancellation_effective r) (cancellations d) = [])).
(** [order.updateMany({where: {id, ...}})] and [order.update]. *)
Definition update_order_if (id : string) (p : Order → bool) (f : Order → Order) : Io Z :=
  now ← new_date;
  m ← read orders;
  let '(count, m') := update_one m id p (λ r, f r <| ord_updatedAt := now |>) in
  _ ← write (λ d, d <| orders := m' |>);
  mret count.
Definition update_order (id : string) (f : Order → Order) : Io unit :=
  count ← update_order_if id (λ _, true) f;
  require (count =? 1) RecordNotFound.

(** ** Requests *)
Inductive Identity :=
| AdminIdentity (userId : string)
| CustomerIdentity (userId customerId : string).
Definition userId (i : Identity) : string :=
  match i with AdminIdentity u | CustomerIdentity u _ => u end.
Record SecurityRequestContext := MkRequestContext
  { ipAddressHash : string; userAgent : option string }.

Definition admin_log (actor : Identity) (context : SecurityRequestContext)
    (action entityType : string) (entityId : option string) (metadata : json)
    : ActivityLog :=
  MkActivityLog (Some (userId actor)) action entityType entityId None
    (Some (ipAddressHash context)) metadata.

(** The exceptions every service builds. *)
Definition unprocessable (message : string) : exn :=
  AppException 422 "UNPROCESSABLE_ENTITY" message.
Definition conflict (message : string) : exn := AppException 409 "CONFLICT" message.
Definition forbidden (message : string) : exn := AppException 403 "FORBIDDEN" message.
Definition not_found (message : string) : exn :=
  AppException 404 "RESOURCE_NOT_FOUND" message.
(** [isUniqueConstraintError]. *)
Definition is_unique_violation (e : exn) : bool :=
  match e with UniqueViolation => true | _ => false end.

(** ** Lemmas *)

Lemma transaction_Ok {A} (m : Io A) a w w' :
  transaction m w = (Ok a, w') ↔ m w = (Ok a, w').
Proof.
  unfold transaction. destruct (m w) as [[b|e] w1]; split; intros; simplify_eq; done.
Qed.
Lemma transaction_Err_db {A} (m : Io A) e w w' :
  transaction m w = (Err e, w') → db w' = db w.
Proof.
  unfold transaction. destruct (m w) as [[b|e'] w1]; intros; by simplify_eq.
Qed.
Lemma read_Ok {A} (f : Db → A) a w w' : read f w = (Ok a, w') ↔ a = f (db w) ∧ w' = w.
Proof. unfold read. apply (gets_Ok (λ w, f (db w))). Qed.
Lemma write_Ok f u w w' : write f w = (Ok u, w') ↔ w' = w <| db := f (db w) |>.
Proof. unfold write. apply (modify_Ok (λ w, w <| db := f (db w) |>)). Qed.
Lemma new_date_Ok t w w' :
  new_date w = (Ok t, w') ↔ t = clock w (ticks w) ∧ w' = w <| ticks := S (ticks w) |>.
Proof. unfold new_date. split; intros; destruct_and?; simplify_eq; done. Qed.
Lemma random_uuid_Ok u w w' :
  random_uuid w = (Ok u, w') ↔ u = uuids w (drawn w) ∧ w' = w <| drawn := S (drawn w) |>.
Proof. unfold random_uuid. split; intros; destruct_and?; simplify_eq; done. Qed.
Lemma lock_row_Ok t i u w w' : lock_row t i w = (Ok u, w') ↔ w' = w.
Proof. destruct u. unfold lock_row. rewrite ret_Ok. naive_solver. Qed.
Lemma unique_in_spec {R K} `{EqDecision K} (m : gmap string R) (key : R → K) k :
  unique_in m key k = true ↔ ∀ i r, m !! i = Some r → key r ≠ k.
Proof. unfold unique_in. rewrite bool_decide_eq_true. done. Qed.
Lemma unique_opt_spec {R K} `{EqDecision K} (m : gmap string R) (key : R → option K) k :
  unique_opt m key k = true ↔ k = None ∨ ∀ i r, m !! i = Some r → key r ≠ k.
Proof.
  unfold unique_opt. destruct k; [rewrite unique_in_spec|]; naive_solver.
Qed.
Lemma find_unique_Some {R K} `{EqDecision K} (m : gmap string R) (key : R → K) k r :
  find_unique m key k = Some r → ∃ i, m !! i = Some r ∧ key r = k.
Proof.
  unfold find_unique. intros H. apply fmap_Some in H as ([i r']&H&->).
  apply List.find_some in H as [H Hk]. apply list_elem_of_In, elem_of_map_to_list in H.
  apply bool_decide_eq_true in Hk. eauto.
Qed.

Lemma create_outbox_Ok a b c k p w u w' :
  create_outbox a b c k p w = (Ok u, w') →
  ∃ i now, outboxEvents (db w) !! i = None ∧ outboxEvents (db w') =
    <[i := pending_event i a b c k p now now]> (outboxEvents (db w)).
Proof.
  unfold create_outbox, put_outbox. intros Hrun.
  apply bind_Ok in Hrun as (i&w1&Hi&Hrun). apply random_uuid_Ok in Hi as [_ ->].
  apply bind_Ok in Hrun as (now&w1&Hi&Hrun). apply new_date_Ok in Hi as [_ ->].
  apply bind_Ok in Hrun as (m&w1&Hr&Hrun). apply read_Ok in Hr as [-> ->].
  apply bind_Ok in Hrun as (?&w1&Hr&Hrun). apply require_Ok in Hr as [Hb ->].
  apply write_Ok in Hrun as ->. split_bool. by exists i, now.
Qed.
Lemma update_service_if_Ok id p f w n w' :
  update_service_if id p f w = (Ok n, w') →
  (n = 0 ∧ db w' = db w ∧ (∀ s, services (db w) !! id = Some s → p s = false)) ∨
  (n = 1 ∧ ∃ s now, services (db w) !! id = Some s ∧ p s = true ∧
     db w' = db w <| services := <[id := f s <| svc_updatedAt := now |>]> (services (db w)) |>).
Proof.
  unfold update_service_if. intros Hrun.
  apply bind_Ok in Hrun as (now&w1&Hn&Hrun). apply new_date_Ok in Hn as [_ ->].
  apply bind_Ok in Hrun as (m&w1&Hr&Hrun). apply read_Ok in Hr as [-> ->]. simpl in Hrun.
  destruct (services (db w) !! id) as [s|] eqn:Hs.
  - destruct (p s) eqn:Hp.
    + apply bind_Ok in Hrun as (?&w1&Hr&Hrun). apply require_Ok in Hr as [_ ->].
      apply bind_Ok in Hrun as (?&w1&Hw&Hrun). apply write_Ok in Hw as ->.
      apply ret_Ok in Hrun as [-> ->]. right. split; [done|]. by exists s, now.
    + apply ret_Ok in Hrun as [-> ->]. left. split_and!; [done..|]. intros. by simplify_eq.
  - apply ret_Ok in Hrun as [-> ->]. left. by split_and!.
Qed.
Lemma update_service_Ok id f s w u w' :
  services (db w) !! id = Some s → update_service id f w = (Ok u, w') →
  ∃ now, db w' = db w <| services := <[id := f s <| svc_updatedAt := now |>]>
                                       (services (db w)) |>.
Proof.
  intros Hs Hrun. unfold update_service in Hrun. apply bind_Ok in Hrun as (n&w1&Hu&Hrun).
  apply require_Ok in Hrun as [Hn ->]. apply Z.eqb_eq in Hn as ->.
  apply update_service_if_Ok in Hu as [(?&_)|(_&s'&now&Hs'&_&->)]; [done|].
  rewrite Hs in Hs'. apply (inj Some) in Hs' as <-. by exists now.
Qed.
Lemma elem_rows {R} (p : R → bool) (m : gmap string R) r :
  r ∈ rows p m ↔ p r = true ∧ ∃ i, m !! i = Some r.
Proof.
  unfold rows. rewrite list_elem_of_In, List.filter_In, <- list_elem_of_In.
  rewrite list_elem_of_fmap. split.
  - intros [([i r']&->&Hm) ?]. apply elem_of_map_to_list in Hm. eauto.
  - intros (?&i&Hm). split; [|done]. exists (i, r). by rewrite elem_of_map_to_list.
Qed.
Lemma update_rows_lookup {R} (p : R → bool) f (m : gmap string R) i :
  update_rows p f m !! i = (λ r, if p r then f r else r) <$> m !! i.
Proof. unfold update_rows. apply lookup_fmap. Qed.

(** ** Frames

    [Keeps proj m]: whatever [m] does, and whether or not it fails, it leaves
    the part [proj] of the database as it was. *)
Class Keeps {T A : Type} (proj : Db → T) (m : Io A) : Prop :=
  keeps : ∀ w, proj (db (snd (m w))) = proj (db w).

Section keeps.
Context {T : Type} (proj : Db → T).

#[export] Instance keeps_ret {A} (a : A) : Keeps proj (mret a).
Proof. done. Qed.
#[export] Instance keeps_throw {A} e : Keeps proj (throw e : Io A).
Proof. done. Qed.
#[export] Instance keeps_read {A} (f : Db → A) : Keeps proj (read f).
Proof. done. Qed.
#[export] Instance keeps_lift {A} (r : result A) : Keeps proj (lift r).
Proof. done. Qed.
#[export] Instance keeps_require b e : Keeps proj (require b e).
Proof. done. Qed.
#[export] Instance keeps_new_date : Keeps proj new_date.
Proof. done. Qed.
#[export] Instance keeps_random_uuid : Keeps proj random_uuid.
Proof. done. Qed.
#[export] Instance keeps_lock_row t i : Keeps proj (lock_row t i).
Proof. done. Qed.
#[export] Instance keeps_bind {A B} (m : Io A) (k : A → Io B) :
  Keeps proj m → (∀ a, Keeps proj (k a)) → Keeps proj (m ≫= k).
Proof.
  intros Hm Hk w. unfold mbind, M_bind. specialize (Hm w).
  destruct (m w) as [[a|e] w1]; [|done]. by rewrite (Hk a w1).
Qed.
#[export] Instance keeps_catch {A} (m : Io A) (h : exn → Io A) :
  Keeps proj m → (∀ e, Keeps proj (h e)) → Keeps proj (catch m h).
Proof.
  intros Hm Hk w. unfold catch. specialize (Hm w).
  destruct (m w) as [[a|e] w1]; [done|]. by rewrite (Hk e w1).
Qed.
#[export] Instance keeps_when b (m : Io unit) : Keeps proj m → Keeps proj (when b m).
Proof. destruct b; [done|]. intros _. apply keeps_ret. Qed.
#[export] Instance keeps_for_each {A} (l : list A) (f : A → Io unit) :
  (∀ a, Keeps proj (f a)) → Keeps proj (for_each l f).
Proof. intros Hf. induction l; simpl; apply _. Qed.
#[export] Instance keeps_fold_each {A B} (f : B → A → Io B) b (l : list A) :
  (∀ b a, Keeps proj (f b a)) → Keeps proj (fold_each f b l).
Proof. intros Hf. revert b. induction l; intros; simpl; apply _. Qed.
#[export] Instance keeps_transaction {A} (m : Io A) :
  Keeps proj m → Keeps proj (transaction m).
Proof.
  intros Hm w. specialize (Hm w). unfold transaction. by destruct (m w) as [[] ?].
Qed.
Lemma keeps_write f : (∀ d, proj (f d) = proj d) → Keeps proj (write f).
Proof. intros Hf w. apply Hf. Qed.

Lemma keeps_run {A} (m : Io A) w r w' :
  Keeps proj m → m w = (r, w') → proj (db w') = proj (db w).
Proof. intros Hm E. specialize (Hm w). by rewrite E in Hm. Qed.
End keeps.
#[global] Hint Extern 2 (Keeps _ (write _)) =>
  apply keeps_write; intros; reflexivity : typeclass_instances.
#[global] Hint Extern 4 (Keeps _ (match ?x with _ => _ end)) =>
  destruct x : typeclass_instances.
#[global] Hint Extern 6 (Keeps _ (log_activity _)) => unfold log_activity : typeclass_instances.
#[global] Hint Extern 6 (Keeps _ (create_outbox _ _ _ _ _)) =>
  unfold create_outbox, put_outbox : typeclass_instances.
#[global] Hint Extern 6 (Keeps _ (create_outbox_skip _ _ _ _ _)) =>
  unfold create_outbox_skip, put_outbox : typeclass_instances.
#[global] Hint Extern 6 (Keeps _ (update_order_if _ _ _)) =>
  unfold update_order_if : typeclass_instances.
#[global] Hint Extern 6 (Keeps _ (update_order _ _)) =>
  unfold update_order : typeclass_instances.
#[global] Hint Extern 6 (Keeps _ (update_service_if _ _ _)) =>
  unfold update_service_if : typeclass_instances.
#[global] Hint Extern 6 (Keeps _ (update_service _ _)) =>
  unfold update_service : typeclass_instances.
#[global] Hint Extern 6 (Keeps _ (create_domain _)) =>
  unfold create_domain : typeclass_instances.
#[global] Hint Extern 6 (Keeps _ (create_existing_domain_order _)) =>
  unfold create_existing_domain_order : typeclass_instances.
#[global] Hint Extern 6 (Keeps _ (create_payment_event _)) =>
  unfold create_payment_event, put_payment_event : typeclass_instances.
#[global] Hint Extern 6 (Keeps _ (update_payment_event _ _)) =>
  unfold update_payment_event : typeclass_instances.
#[global] Hint Extern 6 (Keeps _ (create_order _)) =>
  unfold create_order, put_order : typeclass_instances.
#[global] Hint Extern 6 (Keeps _ (create_order_item _)) =>
  unfold create_order_item, put_order_item : typeclass_instances.
#[global] Hint Extern 6 (Keeps _ (create_invoice_item _)) =>
  unfold create_invoice_item, put_invoice_item : typeclass_instances.

#[global] Typeclasses Opaque read write new_date random_uuid lock_row transaction
  require lift when for_each fold_each log_activity create_outbox create_outbox_skip
  update_order_if update_order create_order create_order_item create_domain
  create_existing_domain_order create_invoice create_invoice_item create_payment
  update_invoice update_invoice_if update_payment_if update_payment
  create_payment_event update_payment_event update_service_if update_service.

(** The tables of the ledger. *)
Definition ledger_tables (d : Db) : gmap string Invoice * gmap string Payment :=
  (invoices d, payments d).

#[export] Instance log_activity_keeps l : Keeps ledger_tables (log_activity l).
Proof. apply _. Qed.
#[export] Instance create_outbox_keeps a b c k p :
  Keeps ledger_tables (create_outbox a b c k p).
Proof. apply _. Qed.
#[export] Instance update_order_if_keeps id p f :
  Keeps ledger_tables (update_order_if id p f).
Proof. apply _. Qed.
