(* ===== verification/InvoiceNumber.v ===== *)
(** * Invoice numbers

    The numbering settings of packages/shared/src/contracts/settings.ts and
    [allocateInvoiceNumber], which the API
    (apps/api/src/common/identifiers/invoice-number.ts) and the worker
    (apps/worker/src/renewal/invoice-number.ts) both contain. *)
From S2P Require Import Prelude JsString Json Database.

(** ** Numbering settings *)
Record InvoiceNumberingSettings := MkNumbering
  { prefix : string; nextNumber : Z; padding : Z }.
#[export] Instance Numbering_rebuild : Rebuild InvoiceNumberingSettings := λ r,
  MkNumbering (prefix r) (nextNumber r) (padding r).

(** The pattern of a prefix: an upper-case letter, then one to nine letters or
    digits. *)
Definition is_number_prefix (s : string) : bool :=
  match s with
  | EmptyString => false
  | String c r =>
      is_upper c && all_chars (λ c, is_upper c || is_digit c) r &&
      (1 <=? slen r) && (slen r <=? 9)
  end.
Definition prefixSchema : schema string :=
  z_refine is_number_prefix (z_map (λ s, js_upper (js_trim s)) z_string).
Definition invoiceNumberingSettingsSchema : schema InvoiceNumberingSettings := λ v,
  o ← z_strict_object ["prefix"; "nextNumber"; "padding"] v;
  p ← prefixSchema (get "prefix" o);
  n ← z_refine (λ n, (1 <=? n) && (n <=? 999999999999)) z_int (get "nextNumber" o);
  k ← z_refine (λ n, (4 <=? n) && (n <=? 12)) z_int (get "padding" o);
  if k <? slen (Z_to_string n) then None else Some (MkNumbering p n k).
Definition numbering_json (s : InvoiceNumberingSettings) : json :=
  JObj [("prefix", JStr (prefix s)); ("nextNumber", JNum (nextNumber s));
        ("padding", JNum (padding s))].
Definition DEFAULT_NUMBERING : InvoiceNumberingSettings := MkNumbering "INV" 1001 6.
Definition formatInvoiceNumber (s : InvoiceNumberingSettings) : string :=
  (prefix s ++ "-" ++
   pad_start (Z.to_nat (padding s)) "0" (Z_to_string (nextNumber s)))%string.

(** ** Allocation *)
Definition NUMBERING_KEY : string := "billing.invoice-numbering".
Definition find_setting (key : string) : Io (option json) :=
  read (λ d, set_value <$> settings d !! key).
Definition read_numbering (value : json) : InvoiceNumberingSettings :=
  default DEFAULT_NUMBERING (invoiceNumberingSettingsSchema value).
Definition allocateInvoiceNumber : Io string :=
  _ ← write (λ d, d <| settings :=
         match settings d !! NUMBERING_KEY with
         | Some _ => settings d
         | None => <[NUMBERING_KEY :=
             MkSetting (numbering_json DEFAULT_NUMBERING) "BILLING"
               (Some "Sequential numbering policy for future invoices.") None]>
             (settings d)
         end |>);
  _ ← lock_row "settings" NUMBERING_KEY;
  record ← find_setting NUMBERING_KEY;
  value ← lift (of_option RecordNotFound record);
  let settings_ := read_numbering value in
  let invoiceNumber := formatInvoiceNumber settings_ in
  match invoiceNumberingSettingsSchema
          (numbering_json (settings_ <| nextNumber := nextNumber settings_ + 1 |>)) with
  | None => throw (JsError "Invoice numbering range has been exhausted.")
  | Some next =>
      _ ← write (λ d, d <| settings :=
             alter (λ s, MkSetting (numbering_json next) (set_category s)
                           (set_description s) (set_updatedByUserId s))
                   NUMBERING_KEY (settings d) |>);
      mret invoiceNumber
  end.

(** The numbering the next allocation starts from. *)
Definition current_numbering (d : Db) : InvoiceNumberingSettings :=
  match settings d !! NUMBERING_KEY with
  | Some r => read_numbering (set_value r)
  | None => DEFAULT_NUMBERING
  end.
(** A number remains after this one. *)
Definition numbers_left (s : InvoiceNumberingSettings) : bool :=
  (nextNumber s + 1 <=? 999999999999) &&
  (slen (Z_to_string (nextNumber s + 1)) <=? padding s).
(** Several allocations in a row. *)
Fixpoint allocate_many (k : nat) : Io (list string) :=
  match k with
  | O => mret []
  | S k => n ← allocateInvoiceNumber; ns ← allocate_many k; mret (n :: ns)
  end.

(** ** Lemmas *)
Definition numbering_valid (s : InvoiceNumberingSettings) : Prop :=
  is_number_prefix (prefix s) = true ∧ 1 <= nextNumber s <= 999999999999 ∧
  4 <= padding s <= 12 ∧ slen (Z_to_string (nextNumber s)) <= padding s.

Definition is_prefix_char (c : ascii) : bool := is_upper c || is_digit c.

Lemma prefix_char_stable c :
  is_prefix_char c = true → is_space c = false ∧ upper_char c = c.
Proof. destruct c as [[] [] [] [] [] [] [] []]; vm_compute; first [done|intros; split; done]. Qed.

Lemma clean_trim_upper s :
  all_chars is_prefix_char s = true → js_upper (js_trim s) = s.
Proof.
  intros H. unfold js_trim.
  assert (trim_start s = s) as ->.
  { destruct s as [|c t]; [done|]. simpl in *. apply andb_true_iff in H as [H _].
    by destruct (prefix_char_stable c H) as [-> _]. }
  assert (trim_end s = s) as ->.
  { induction s as [|c t IH]; [done|]. simpl in *. apply andb_true_iff in H as [H Ht].
    rewrite IH by done. destruct (prefix_char_stable c H) as [-> _]. by destruct t. }
  unfold js_upper. induction s as [|c t IH]; [done|]. simpl in *.
  apply andb_true_iff in H as [H Ht]. destruct (prefix_char_stable c H) as [_ ->].
  by rewrite IH.
Qed.
Lemma number_prefix_chars p : is_number_prefix p = true →
  all_chars is_prefix_char p = true ∧ slen p <= 10.
Proof.
  destruct p as [|c r]; [done|]. simpl. intros H. split_bool.
  rewrite slen_cons. unfold is_prefix_char at 1. rewrite H. simpl.
  split; [done|lia].
Qed.

Lemma numbering_schema_valid v s :
  invoiceNumberingSettingsSchema v = Some s → numbering_valid s.
Proof.
  unfold invoiceNumberingSettingsSchema. intros H.
  apply bind_Some in H as (o&_&H). apply bind_Some in H as (p&Hp&H).
  apply bind_Some in H as (n&Hn&H). apply bind_Some in H as (k&Hk&H).
  apply z_refine_Some in Hp as [_ Hp]. apply z_refine_Some in Hn as [_ Hn].
  apply z_refine_Some in Hk as [_ Hk]. split_bool.
  destruct (Z.ltb_spec k (slen (Z_to_string n))); [done|].
  simplify_eq. by split_and!.
Qed.
Lemma numbering_schema_json s :
  is_number_prefix (prefix s) = true → 4 <= padding s <= 12 → 1 <= nextNumber s →
  invoiceNumberingSettingsSchema (numbering_json s) =
  (if (nextNumber s <=? 999999999999) &&
      (slen (Z_to_string (nextNumber s)) <=? padding s)
   then Some s else None).
Proof.
  destruct s as [p n k]. simpl. intros Hp Hk Hn.
  unfold invoiceNumberingSettingsSchema, numbering_json, prefixSchema, z_refine, z_map.
  simpl. rewrite clean_trim_upper by apply (number_prefix_chars p Hp). rewrite Hp. simpl.
  unfold max_safe_integer.
  replace (Z.abs k <=? 9007199254740991) with true by (symmetry; apply Z.leb_le; lia).
  replace ((4 <=? k) && (k <=? 12)) with true by (symmetry; apply andb_true_iff; lia).
  destruct (Z.leb_spec n 999999999999).
  - replace (Z.abs n <=? 9007199254740991) with true by (symmetry; apply Z.leb_le; lia).
    replace (n <=? 999999999999) with true by (symmetry; apply Z.leb_le; lia).
    replace (1 <=? n) with true by (symmetry; apply Z.leb_le; lia). simpl.
    rewrite (Z.leb_antisym k). by destruct (k <? _).
  - assert (n <=? 999999999999 = false) as Hf by (apply Z.leb_gt; lia).
    destruct (Z.abs n <=? _); simpl; rewrite ?Hf, ?andb_false_r; done.
Qed.
Lemma read_numbering_valid v : numbering_valid (read_numbering v).
Proof.
  unfold read_numbering. destruct (invoiceNumberingSettingsSchema v) eqn:E; simpl.
  - by apply numbering_schema_valid in E.
  - by vm_compute.
Qed.
Lemma current_numbering_valid d : numbering_valid (current_numbering d).
Proof.
  unfold current_numbering. destruct (settings d !! _); [apply read_numbering_valid|].
  by vm_compute.
Qed.
Lemma read_numbering_default : read_numbering (numbering_json DEFAULT_NUMBERING) = DEFAULT_NUMBERING.
Proof. by vm_compute. Qed.

(** What one allocation does. *)
Lemma allocate_spec w :
  match allocateInvoiceNumber w with
  | (Ok n, w') =>
      numbers_left (current_numbering (db w)) = true ∧
      n = formatInvoiceNumber (current_numbering (db w)) ∧
      (∃ row, w' = w <| db := (db w) <| settings :=
                 <[NUMBERING_KEY := row]> (settings (db w)) |> |>) ∧
      current_numbering (db w') =
        (current_numbering (db w))
          <| nextNumber := nextNumber (current_numbering (db w)) + 1 |>
  | (Err e, w') =>
      numbers_left (current_numbering (db w)) = false ∧
      e = JsError "Invoice numbering range has been exhausted." ∧
      current_numbering (db w') = current_numbering (db w)
  end.
Proof.
  pose proof (current_numbering_valid (db w)) as (Hp&Hn&Hk&Hl).
  assert (∃ row, (match settings (db w) !! NUMBERING_KEY with
                  | Some _ => settings (db w)
                  | None => <[NUMBERING_KEY :=
                      MkSetting (numbering_json DEFAULT_NUMBERING) "BILLING"
                        (Some "Sequential numbering policy for future invoices.") None]>
                      (settings (db w)) end) = <[NUMBERING_KEY := row]> (settings (db w)) ∧
                 read_numbering (set_value row) = current_numbering (db w))
    as (row & Hset & Hrow).
  { unfold current_numbering. destruct (settings (db w) !! NUMBERING_KEY) as [r|] eqn:E.
    - exists r. by rewrite insert_id.
    - eexists. split; [reflexivity|]. apply read_numbering_default. }
  unfold allocateInvoiceNumber, write, find_setting, read, lift, lock_row.
  unfold mbind, M_bind, mret, M_ret, modify, gets. simpl. rewrite Hset, lookup_insert_eq.
  simpl. rewrite Hrow. set (s := current_numbering (db w)) in *.
  rewrite numbering_schema_json by (simpl; try done; lia). simpl. fold (numbers_left s).
  destruct (numbers_left s) eqn:Hleft.
  - simpl. split_and!; [done..| |].
    + eexists. unfold set_field; simpl. rewrite alter_insert_eq. done.
    + unfold current_numbering; simpl. rewrite alter_insert_eq, lookup_insert_eq. simpl.
      unfold read_numbering. rewrite numbering_schema_json by (simpl; try done; lia).
      simpl. fold (numbers_left s). by rewrite Hleft.
  - simpl. split_and!; [done..|]. unfold current_numbering; simpl.
    by rewrite lookup_insert_eq.
Qed.

(** The number [i] places after the current one. *)
Definition number_after (s : InvoiceNumberingSettings) (i : nat) : string :=
  formatInvoiceNumber (s <| nextNumber := nextNumber s + Z.of_nat i |>).

Lemma allocate_many_spec k w ns w' :
  allocate_many k w = (Ok ns, w') →
  ns = number_after (current_numbering (db w)) <$> seq 0 k ∧
  current_numbering (db w') = (current_numbering (db w))
    <| nextNumber := nextNumber (current_numbering (db w)) + Z.of_nat k |>.
Proof.
  revert w ns w'. induction k as [|k IH]; intros w ns w' H; cbn [allocate_many] in H.
  - run_inv. split; [done|]. destruct (current_numbering _). simpl. f_equal. lia.
  - run_inv. match goal with H : allocateInvoiceNumber _ = _ |- _ =>
      pose proof (allocate_spec w) as Ha; rewrite H in Ha end.
    destruct Ha as (_&->&_&Hcur). apply IH in H0 as [-> Hcur'].
    rewrite Hcur in Hcur' |- *. destruct (current_numbering (db w)) as [p n kk].
    unfold set_field in *; simpl in *. split.
    + unfold number_after at 2, set_field; simpl.
      f_equal; [do 2 f_equal; lia|]. rewrite <- fmap_S_seq.
      fold (fmap (M := list) (number_after (MkNumbering p n kk)) (S <$> seq 0 k)).
      rewrite <- list_fmap_compose. apply list_fmap_ext. intros i x _. unfold number_after, set_field; simpl.
      f_equal. f_equal. lia.
    + rewrite Hcur'. f_equal. lia.
Qed.

Lemma digits_fit n k : 0 <= n → slen (Z_to_string n) <= k → 0 <= n < 10 ^ k.
Proof.
  intros Hn Hk. destruct (Z_to_string_spec n Hn) as [Hc Hv].
  pose proof (string_to_Z_bound _ (canonical_digits _ Hc)) as Hb. rewrite Hv in Hb.
  assert (10 ^ slen (Z_to_string n) <= 10 ^ k) by (apply Z.pow_le_mono_r; lia). lia.
Qed.
Lemma append_inj_l (a s t : string) : (a ++ s)%string = (a ++ t)%string → s = t.
Proof. induction a; simpl; intros; simplify_eq; auto. Qed.
Lemma format_inj s n m :
  0 < padding s → 0 <= n < 10 ^ padding s → 0 <= m < 10 ^ padding s →
  formatInvoiceNumber (s <| nextNumber := n |>) =
  formatInvoiceNumber (s <| nextNumber := m |>) → n = m.
Proof.
  destruct s as [p q k]. unfold formatInvoiceNumber, set_field. simpl. intros Hk Hn Hm H.
  apply append_inj_l in H. simplify_eq/=.
  destruct (pad_start_spec (Z.to_nat k) n) as (_&_&Hvn); [lia|by rewrite Z2Nat.id by lia|].
  destruct (pad_start_spec (Z.to_nat k) m) as (_&_&Hvm); [lia|by rewrite Z2Nat.id by lia|].
  congruence.
Qed.

(** Every allocated number was below the padding's range. *)
Lemma allocate_many_bound k w ns w' :
  allocate_many k w = (Ok ns, w') →
  let s := current_numbering (db w) in
  nextNumber s + Z.of_nat k < 10 ^ padding s.
Proof.
  intros H. destruct (allocate_many_spec _ _ _ _ H) as [_ Hcur]. simpl.
  pose proof (current_numbering_valid (db w')) as (_&Hn&_&Hl). rewrite Hcur in *.
  destruct (current_numbering (db w)) as [p n kk]. unfold set_field in *; simpl in *.
  apply digits_fit in Hl; lia.
Qed.

(** ** Properties *)

(** An allocation returns the current number in its padded form, which has
    at most 23 characters (an invoice number may have 32), advances the stored
    counter by exactly one and changes nothing else; it fails, leaving the
    counter as it was, exactly when the next number would not fit. *)
Theorem allocation_exact w :
  let s := current_numbering (db w) in
  match allocateInvoiceNumber w with
  | (Ok n, w') =>
      numbers_left s = true ∧ n = formatInvoiceNumber s ∧ slen n <= 23 ∧
      current_numbering (db w') = s <| nextNumber := nextNumber s + 1 |> ∧
      ∃ row, w' = w <| db := (db w) <| settings :=
                         <[NUMBERING_KEY := row]> (settings (db w)) |> |>
  | (Err e, w') =>
      numbers_left s = false ∧
      e = JsError "Invoice numbering range has been exhausted." ∧
      current_numbering (db w') = s
  end.
Proof.
  simpl. pose proof (allocate_spec w) as H.
  destruct (allocateInvoiceNumber w) as [[n|e] w']; [|done].
  destruct H as (?&->&?&?). split_and!; [done..| |done|done].
  pose proof (current_numbering_valid (db w)) as (Hp&Hn&Hk&Hl).
  unfold formatInvoiceNumber. rewrite !slen_app.
  destruct (number_prefix_chars _ Hp) as [_ ?].
  destruct (pad_start_spec (Z.to_nat (padding (current_numbering (db w))))
              (nextNumber (current_numbering (db w)))) as (_&->&_).
  - lia.
  - rewrite Z2Nat.id by lia. apply digits_fit; lia.
  - change (slen "-") with 1. lia.
Qed.

(** Allocations in a row return the consecutive numbers from the current
    one, and no number twice, whatever the stored setting holds. *)
Theorem invoice_numbers_distinct k w ns w'
    (Hrun : allocate_many k w = (Ok ns, w')) :
  ns = number_after (current_numbering (db w)) <$> seq 0 k ∧ NoDup ns.
Proof.
  destruct (allocate_many_spec _ _ _ _ Hrun) as [-> _]. split; [done|].
  pose proof (allocate_many_bound _ _ _ _ Hrun) as Hb.
  pose proof (current_numbering_valid (db w)) as (_&?&?&_). simpl in Hb.
  apply NoDup_fmap_2_strong; [|apply NoDup_seq].
  intros i j Hi Hj Heq. apply elem_of_seq in Hi, Hj. apply format_inj in Heq; lia.
Qed.

Definition fresh_world : World :=
  MkWorld empty_db (λ n, ("id-" ++ Z_to_string (Z.of_nat n))%string) 0
          (λ n, Z.of_nat n) 0 [].

Lemma invoice_numbers_distinct_witness :
  fst (allocate_many 3 fresh_world) = Ok ["INV-001001"; "INV-001002"; "INV-001003"] ∧
  NoDup ["INV-001001"; "INV-001002"; "INV-001003"].
Proof.
  split; [by vm_compute|].
  refine (proj2 (invoice_numbers_distinct 3 fresh_world _
                   (snd (allocate_many 3 fresh_world)) _)).
  vm_compute. reflexivity.
Defined.
