(* ===== verification/InvoiceTotals.v ===== *)
(** * Invoice totals and invoice status

    The pure functions at the top of
    apps/api/src/modules/invoices/invoice.service.ts: [calculateInvoiceTotals]
    and [nextInvoiceStatus]. *)
From S2P Require Import Prelude JsString Json Money States.

Record CalculableItem := MkCalculable
  { quantity : Z; unitAmount : Z; discountAmount : Z; taxAmount : Z }.
Record InvoiceTotals := MkTotals
  { subtotal : Z; discountTotal : Z; taxTotal : Z; total : Z; creditTotal : Z;
    amountPaid : Z; balanceDue : Z; lineTotals : list Z }.

(** [InvoiceCalculationError] and [InvoiceStateTransitionError], which the
    service turns into [ApplicationException]s. *)
Definition InvoiceCalculationError (message : string) : exn := JsError message.
Definition InvoiceStateTransitionError (message : string) : exn := JsError message.

Inductive InvoiceAction := ISSUE | MARK_OVERDUE | CANCEL.
#[export] Instance CalculableItem_eq_dec : EqDecision CalculableItem.
Proof. solve_decision. Defined.
#[export] Instance InvoiceAction_eq_dec : EqDecision InvoiceAction.
Proof. solve_decision. Defined.

Definition nextInvoiceStatus (action : InvoiceAction) (status : InvoiceStatus)
    (dueAt balanceDue amountPaid now : Z) : result InvoiceStatus :=
  match action with
  | ISSUE =>
      if negb (status ==b InvoiceStatus.DRAFT)
      then Err (InvoiceStateTransitionError "Only a draft invoice can be issued.")
      else if dueAt <? now
      then Err (InvoiceStateTransitionError
                  "Invoice due date cannot precede its issue date.")
      else Ok (if balanceDue =? 0 then InvoiceStatus.PAID else InvoiceStatus.UNPAID)
  | MARK_OVERDUE =>
      if negb (status ==b InvoiceStatus.UNPAID) || (balanceDue =? 0) || (now <=? dueAt)
      then Err (InvoiceStateTransitionError
             "Only a past-due unpaid invoice with a balance can be marked overdue.")
      else Ok InvoiceStatus.OVERDUE
  | CANCEL =>
      if (negb (status ==b InvoiceStatus.DRAFT) && negb (status ==b InvoiceStatus.UNPAID)
          && negb (status ==b InvoiceStatus.OVERDUE)) || (0 <? amountPaid)
      then Err (InvoiceStateTransitionError
        "Paid or settled invoices cannot be cancelled; use a refund or reversal.")
      else Ok InvoiceStatus.CANCELLED
  end.

Definition checkedAdd (left right : Z) (label : string) : result Z :=
  if POSTGRES_BIGINT_MAX - left <? right
  then Err (InvoiceCalculationError (label ++ " exceeds the supported range.")%string)
  else Ok (left + right).

(** The four locals of the loop. *)
Record TotalsAcc := MkAcc
  { acc_subtotal : Z; acc_discount : Z; acc_tax : Z; acc_lines : list Z }.

Definition add_item (acc : TotalsAcc) (item : CalculableItem) : result TotalsAcc :=
  _ ← throw_unless (negb ((quantity item <? 1) || (max_safe_integer <? quantity item)))
        (InvoiceCalculationError "Invoice quantity is invalid.");
  _ ← throw_unless (negb ((unitAmount item <? 0) || (discountAmount item <? 0) ||
                          (taxAmount item <? 0)))
        (InvoiceCalculationError "Invoice amounts cannot be negative.");
  let quantity_ := quantity item in
  _ ← throw_unless (negb ((0 <? unitAmount item) &&
                          (POSTGRES_BIGINT_MAX / unitAmount item <? quantity_)))
        (InvoiceCalculationError "Invoice item subtotal exceeds the supported range.");
  let gross := unitAmount item * quantity_ in
  _ ← throw_unless (negb (gross <? discountAmount item))
        (InvoiceCalculationError "An item discount cannot exceed its subtotal.");
  let afterDiscount := gross - discountAmount item in
  lineTotal ← checkedAdd afterDiscount (taxAmount item) "Invoice item total";
  subtotal' ← checkedAdd (acc_subtotal acc) gross "Invoice subtotal";
  discountTotal' ← checkedAdd (acc_discount acc) (discountAmount item)
                     "Invoice discount total";
  taxTotal' ← checkedAdd (acc_tax acc) (taxAmount item) "Invoice tax total";
  Ok (MkAcc subtotal' discountTotal' taxTotal' (acc_lines acc ++ [lineTotal])).
Fixpoint add_items (acc : TotalsAcc) (items : list CalculableItem) : result TotalsAcc :=
  match items with
  | [] => Ok acc
  | item :: items => acc' ← add_item acc item; add_items acc' items
  end.

Definition calculateInvoiceTotals (items : list CalculableItem)
    (creditTotal amountPaid : Z) : result InvoiceTotals :=
  _ ← throw_unless (negb (bool_decide (items = [])))
        (InvoiceCalculationError "At least one invoice item is required.");
  acc ← add_items (MkAcc 0 0 0 []) items;
  let afterDiscount := acc_subtotal acc - acc_discount acc in
  total_ ← checkedAdd afterDiscount (acc_tax acc) "Invoice total";
  _ ← throw_unless (negb ((creditTotal <? 0) || (amountPaid <? 0)))
        (InvoiceCalculationError "Settlement amounts cannot be negative.");
  settled ← checkedAdd creditTotal amountPaid "Invoice settlement";
  _ ← throw_unless (negb (total_ <? settled))
        (InvoiceCalculationError "Credits and payments cannot exceed the invoice total.");
  Ok (MkTotals (acc_subtotal acc) (acc_discount acc) (acc_tax acc) total_ creditTotal
        amountPaid (total_ - settled) (acc_lines acc)).

(** ** The reference: exact sums *)
Definition sum_of {A} (f : A → Z) (l : list A) : Z := foldr (λ a z, f a + z) 0 l.
Definition gross (i : CalculableItem) : Z := unitAmount i * quantity i.
Definition line_total (i : CalculableItem) : Z :=
  gross i - discountAmount i + taxAmount i.
Definition item_valid (i : CalculableItem) : Prop :=
  1 <= quantity i <= max_safe_integer ∧ 0 <= unitAmount i ∧
  0 <= discountAmount i <= gross i ∧ 0 <= taxAmount i.

(** ** Lemmas *)
Lemma sum_of_nonneg {A} (f : A → Z) l : Forall (λ a, 0 <= f a) l → 0 <= sum_of f l.
Proof. induction 1; simpl; lia. Qed.
Lemma sum_of_le {A} (f g : A → Z) l :
  Forall (λ a, f a <= g a) l → sum_of f l <= sum_of g l.
Proof. induction 1; simpl; lia. Qed.
Lemma checkedAdd_Ok l r label s :
  checkedAdd l r label = Ok s ↔ s = l + r ∧ l + r <= POSTGRES_BIGINT_MAX.
Proof.
  unfold checkedAdd. destruct (Z.ltb_spec (POSTGRES_BIGINT_MAX - l) r); split;
    intros; destruct_and?; simplify_eq; auto; lia.
Qed.

(** The division guard is the exact bound on the product. *)
Lemma product_guard u q : 0 <= u → 1 <= q →
  (0 <? u) && (POSTGRES_BIGINT_MAX / u <? q) = false ↔ u * q <= POSTGRES_BIGINT_MAX.
Proof.
  intros Hu Hq. rewrite andb_false_iff, Z.ltb_ge, Z.ltb_ge. split.
  - intros [H|H]; [assert (u = 0) by lia; subst; vm_compute; discriminate|].
    destruct (Z.eq_dec u 0) as [->|?]; [vm_compute; discriminate|].
    assert (u * q <= u * (POSTGRES_BIGINT_MAX / u)) by (apply Z.mul_le_mono_nonneg_l; lia).
    pose proof (Z.mul_div_le POSTGRES_BIGINT_MAX u). lia.
  - intros H. destruct (Z.eq_dec u 0) as [->|?]; [by left|]. right.
    apply Z.div_le_lower_bound; lia.
Qed.

Definition item_fits (acc : TotalsAcc) (i : CalculableItem) : Prop :=
  gross i <= POSTGRES_BIGINT_MAX ∧ line_total i <= POSTGRES_BIGINT_MAX ∧
  acc_subtotal acc + gross i <= POSTGRES_BIGINT_MAX ∧
  acc_discount acc + discountAmount i <= POSTGRES_BIGINT_MAX ∧
  acc_tax acc + taxAmount i <= POSTGRES_BIGINT_MAX.
Definition acc_add (acc : TotalsAcc) (i : CalculableItem) : TotalsAcc :=
  MkAcc (acc_subtotal acc + gross i) (acc_discount acc + discountAmount i)
        (acc_tax acc + taxAmount i) (acc_lines acc ++ [line_total i]).

Lemma add_item_Ok acc i acc' :
  add_item acc i = Ok acc' ↔ acc' = acc_add acc i ∧ item_valid i ∧ item_fits acc i.
Proof.
  unfold add_item, acc_add, item_fits, item_valid, line_total.
  repeat setoid_rewrite result_bind_Ok. repeat setoid_rewrite throw_unless_Ok.
  repeat setoid_rewrite checkedAdd_Ok. fold (gross i).
  split.
  - intros (_&Hq&_&Ha&_&Hp&_&Hd&line&[-> ?]&sub&[-> ?]&disc&[-> ?]&tax&[-> ?]&?).
    apply negb_true_iff in Hp. split_bool. apply product_guard in Hp; [|lia..].
    unfold gross in *. simplify_eq. split_and!; try lia. f_equal.
  - intros (->&(?&?&?&?)&?&?&?&?&?).
    exists tt. split; [apply negb_true_iff, orb_false_iff; lia|].
    exists tt. split; [apply negb_true_iff, orb_false_iff; rewrite orb_false_iff; lia|].
    exists tt. split; [apply negb_true_iff, product_guard; unfold gross in *; lia|].
    exists tt. split; [apply negb_true_iff; lia|].
    eauto 20.
Qed.

Lemma add_items_Ok items acc acc' :
  add_items acc items = Ok acc' →
  Forall item_valid items ∧
  acc' = MkAcc (acc_subtotal acc + sum_of gross items)
               (acc_discount acc + sum_of discountAmount items)
               (acc_tax acc + sum_of taxAmount items)
               (acc_lines acc ++ (line_total <$> items)) ∧
  (items = [] ∨ acc_subtotal acc' <= POSTGRES_BIGINT_MAX ∧
     acc_tax acc' <= POSTGRES_BIGINT_MAX ∧
     Forall (λ l, l <= POSTGRES_BIGINT_MAX) (line_total <$> items)).
Proof.
  revert acc. induction items as [|i items IH]; intros acc H; simpl in H.
  - simplify_eq. simpl. rewrite !Z.add_0_r, app_nil_r. destruct acc'; auto.
  - apply result_bind_Ok in H as (acc1&Hi&H). apply add_item_Ok in Hi as (->&Hv&Hf).
    destruct (IH _ H) as (Hall&->&Hb). destruct Hf as (?&?&?&?&?). simpl.
    split; [by constructor|]. split.
    + f_equal; try lia. by rewrite <- app_assoc.
    + right. destruct Hb as [->|(?&?&?)]; simpl in *; [|split_and!; [lia..|by constructor]].
      split_and!; [lia..|]. by constructor.
Qed.

Lemma item_valid_nonneg i :
  item_valid i → 0 <= gross i ∧ 0 <= taxAmount i ∧ 0 <= line_total i ∧
                 0 <= discountAmount i <= gross i.
Proof. unfold item_valid, line_total. lia. Qed.
Lemma sums_nonneg items : Forall item_valid items →
  0 <= sum_of gross items ∧ 0 <= sum_of taxAmount items ∧
  0 <= sum_of discountAmount items <= sum_of gross items ∧
  sum_of line_total items =
    sum_of gross items - sum_of discountAmount items + sum_of taxAmount items.
Proof.
  induction 1 as [|i items Hi _ IH]; simpl; [lia|].
  apply item_valid_nonneg in Hi. unfold line_total at 1. lia.
Qed.
Lemma add_items_complete items acc :
  Forall item_valid items →
  acc_subtotal acc + sum_of gross items <= POSTGRES_BIGINT_MAX →
  acc_discount acc + sum_of discountAmount items <= POSTGRES_BIGINT_MAX →
  acc_tax acc + sum_of taxAmount items <= POSTGRES_BIGINT_MAX →
  0 <= acc_subtotal acc → sum_of line_total items <= POSTGRES_BIGINT_MAX →
  is_ok (add_items acc items) = true.
Proof.
  intros Hv. revert acc. induction Hv as [|i items Hi Hv IH]; intros acc; [done|].
  intros Hs Hd Ht H0 Hl. simpl in *. pose proof (sums_nonneg _ Hv).
  pose proof (item_valid_nonneg _ Hi).
  assert (add_item acc i = Ok (acc_add acc i)) as ->.
  { apply add_item_Ok. split_and!; [done..|]. unfold item_fits. lia. }
  simpl. apply IH; simpl; lia.
Qed.

Definition totals_of (items : list CalculableItem) (credit paid : Z) : InvoiceTotals :=
  MkTotals (sum_of gross items) (sum_of discountAmount items) (sum_of taxAmount items)
    (sum_of line_total items) credit paid (sum_of line_total items - (credit + paid))
    (line_total <$> items).

Lemma calculate_totals_Ok items credit paid t :
  calculateInvoiceTotals items credit paid = Ok t ↔
  items ≠ [] ∧ Forall item_valid items ∧
  sum_of gross items <= POSTGRES_BIGINT_MAX ∧
  sum_of taxAmount items <= POSTGRES_BIGINT_MAX ∧
  sum_of line_total items <= POSTGRES_BIGINT_MAX ∧
  0 <= credit ∧ 0 <= paid ∧ credit + paid <= sum_of line_total items ∧
  t = totals_of items credit paid.
Proof.
  unfold calculateInvoiceTotals. repeat setoid_rewrite result_bind_Ok.
  repeat setoid_rewrite throw_unless_Ok. repeat setoid_rewrite checkedAdd_Ok. split.
  - intros (_&Hne&acc&Hacc&tot&[-> ?]&_&Hs&set&[-> ?]&_&Hle&?).
    apply add_items_Ok in Hacc as (Hv&->&Hb). simpl in *. split_bool.
    destruct Hb as [?|(?&?&?)]; [done|].
    pose proof (sums_nonneg _ Hv). simplify_eq. unfold totals_of.
    split_and!; try done; try lia. f_equal; lia.
  - intros (Hne&Hv&?&?&?&?&?&?&->). pose proof (sums_nonneg _ Hv) as Hsum.
    pose proof (add_items_complete items (MkAcc 0 0 0 []) Hv) as Hok. simpl in Hok.
    destruct (add_items (MkAcc 0 0 0 []) items) as [acc|] eqn:Hacc;
      [|discriminate Hok; lia]. clear Hok.
    destruct (add_items_Ok _ _ _ Hacc) as (_&->&_). simpl.
    exists tt. split; [by rewrite bool_decide_eq_false_2|].
    eexists. split; [done|]. simpl. eexists. split; [split; [done|lia]|].
    exists tt. split; [apply negb_true_iff, orb_false_iff; lia|].
    eexists. split; [split; [done|lia]|].
    exists tt. split; [apply negb_true_iff; lia|].
    unfold totals_of. f_equal. f_equal; lia.
Qed.

(** ** Properties *)

(** C33: invoice totals are exact.  The calculation succeeds exactly when there is
    an item, every item is valid (a quantity of at least one, no negative amount,
    no discount above its gross), every sum fits a PostgreSQL BIGINT, and the
    credit and the payments are non-negative and do not exceed the total; and
    then every total is the exact sum over the items. *)
Theorem totals_exact items credit paid t :
  calculateInvoiceTotals items credit paid = Ok t ↔
  items ≠ [] ∧ Forall item_valid items ∧
  sum_of gross items <= POSTGRES_BIGINT_MAX ∧
  sum_of taxAmount items <= POSTGRES_BIGINT_MAX ∧
  sum_of line_total items <= POSTGRES_BIGINT_MAX ∧
  0 <= credit ∧ 0 <= paid ∧ credit + paid <= sum_of line_total items ∧
  t = totals_of items credit paid.
Proof. apply calculate_totals_Ok. Qed.

(** What the CHECK constraints of the tables invoices and invoice_items ask of
    amounts. *)
Definition totals_constraints (items : list CalculableItem) (t : InvoiceTotals) : Prop :=
  0 <= subtotal t ∧ 0 <= discountTotal t ∧ 0 <= taxTotal t ∧ 0 <= creditTotal t ∧
  0 <= amountPaid t ∧ 0 <= balanceDue t ∧
  total t = subtotal t - discountTotal t + taxTotal t ∧
  balanceDue t = total t - creditTotal t - amountPaid t ∧
  creditTotal t + amountPaid t <= total t <= POSTGRES_BIGINT_MAX ∧
  Forall2 (λ i l, l = unitAmount i * quantity i - discountAmount i + taxAmount i ∧
                  0 <= l <= POSTGRES_BIGINT_MAX) items (lineTotals t).

Lemma totals_constraints_hold items credit paid t :
  calculateInvoiceTotals items credit paid = Ok t → totals_constraints items t.
Proof.
  intros (_&Hv&?&?&?&?&?&?&->)%calculate_totals_Ok.
  pose proof (sums_nonneg _ Hv). unfold totals_constraints, totals_of; simpl.
  split_and!; try lia. clear -Hv H1.
  induction Hv as [|i items Hi Hv IH]; simpl in *; constructor.
  - apply item_valid_nonneg in Hi. pose proof (sums_nonneg _ Hv).
    unfold line_total, gross in *. lia.
  - apply IH. apply item_valid_nonneg in Hi. lia.
Qed.

(** What the calculation returns satisfies every amount constraint of the
    database tables the service writes it to, so the insert cannot be refused
    for an amount: all totals are non-negative, the total is subtotal less
    discount plus tax, the balance is the total less credit and payments, and
    each line is its quantity times unit price, less discount, plus tax. *)
Theorem totals_satisfy_constraints items credit paid t
    (Hok : calculateInvoiceTotals items credit paid = Ok t) :
  totals_constraints items t.
Proof. by apply totals_constraints_hold in Hok. Qed.

Lemma totals_satisfy_constraints_witness :
  totals_constraints [MkCalculable 3 100 50 25; MkCalculable 1 0 0 0]
    (MkTotals 300 50 25 275 75 0 200 [275; 0]).
Proof.
  apply (totals_satisfy_constraints [MkCalculable 3 100 50 25; MkCalculable 1 0 0 0] 75 0).
  vm_compute. reflexivity.
Defined.

(** The transitions an administrator's action may make, as a relation. *)
Inductive invoice_transition : InvoiceAction → InvoiceStatus → InvoiceStatus → Prop :=
| issue_paid : invoice_transition ISSUE InvoiceStatus.DRAFT InvoiceStatus.PAID
| issue_unpaid : invoice_transition ISSUE InvoiceStatus.DRAFT InvoiceStatus.UNPAID
| mark_overdue : invoice_transition MARK_OVERDUE InvoiceStatus.UNPAID InvoiceStatus.OVERDUE
| cancel_draft : invoice_transition CANCEL InvoiceStatus.DRAFT InvoiceStatus.CANCELLED
| cancel_unpaid : invoice_transition CANCEL InvoiceStatus.UNPAID InvoiceStatus.CANCELLED
| cancel_overdue : invoice_transition CANCEL InvoiceStatus.OVERDUE InvoiceStatus.CANCELLED.

Lemma next_status_Ok action status dueAt balance paid now s' :
  nextInvoiceStatus action status dueAt balance paid now = Ok s' ↔
  invoice_transition action status s' ∧
  match action with
  | ISSUE => now <= dueAt ∧ (s' = InvoiceStatus.PAID ↔ balance = 0)
  | MARK_OVERDUE => balance ≠ 0 ∧ dueAt < now
  | CANCEL => paid <= 0
  end.
Proof.
  split.
  - intros H. destruct action, status; simpl in H; try done; revert H.
    all: repeat match goal with |- context [if ?b then _ else _] =>
           let E := fresh in destruct b eqn:E end; intros; simplify_eq; split_bool.
    all: try (split; [constructor|]; try lia).
    all: split; [lia|]; split; intros; (done || lia).
  - intros [Ht Hg]. destruct Ht; simpl.
    + destruct (Z.ltb_spec dueAt now); [lia|]. destruct Hg as [_ [Hg _]].
      by rewrite Hg.
    + destruct (Z.ltb_spec dueAt now); [lia|].
      destruct (Z.eqb_spec balance 0); [|done]. by destruct Hg as [_ [_ Hg]]; discriminate Hg.
    + destruct (Z.eqb_spec balance 0), (Z.leb_spec now dueAt); simpl; done || lia.
    + destruct (Z.ltb_spec 0 paid); [lia|done].
    + destruct (Z.ltb_spec 0 paid); [lia|done].
    + destruct (Z.ltb_spec 0 paid); [lia|done].
Qed.

(** An administrator's action changes the status of an invoice exactly
    along the six allowed transitions: a draft is issued (as paid when nothing
    is due) no later than its due date, an unpaid invoice with a balance becomes
    overdue only past its due date, and only an invoice without any payment is
    cancelled.  Every other request fails. *)
Theorem invoice_actions_exact action status dueAt balance paid now s' :
  nextInvoiceStatus action status dueAt balance paid now = Ok s' ↔
  invoice_transition action status s' ∧
  match action with
  | ISSUE => now <= dueAt ∧ (s' = InvoiceStatus.PAID ↔ balance = 0)
  | MARK_OVERDUE => balance ≠ 0 ∧ dueAt < now
  | CANCEL => paid <= 0
  end.
Proof. apply next_status_Ok. Qed.
