(* ===== verification/Invoices.v ===== *)
(** * The invoice service

    apps/api/src/modules/invoices/invoice.service.ts and the schemas of
    packages/shared/src/contracts/invoices.ts.  Each operation that reads a
    snapshot outside its transaction is split at the transaction: the part from
    the transaction on is a definition of its own ([..._tx]) that takes the
    snapshot as an argument, so that a theorem can run it in a later state.
    The instants of a request are the values of [new Date(...)] on its validated
    ISO strings. *)
From stdpp Require Import sorting.
From S2P Require Import Prelude JsString JsDate Json Money States Database InvoiceNumber InvoiceTotals.

(** The format checks of the Zod package ([z.uuid()], [z.email()],
    [z.iso.datetime({offset: true})], [z.iso.date()]). *)
Class ZodFormats :=
  { zod_uuid : string → bool; zod_email : string → bool;
    zod_datetime : string → bool; zod_date : string → bool }.
(** Formats that accept every string. *)
Definition all_formats : ZodFormats :=
  Build_ZodFormats (λ _, true) (λ _, true) (λ _, true) (λ _, true).

(** ** Schemas *)
Definition text (lo hi : Z) (s : string) : bool := (lo <=? slen s) && (slen s <=? hi).
Definition trimmed (lo hi : Z) : schema string := z_refine (text lo hi) (z_map js_trim z_string).

Record BusinessIdentity := MkBusinessIdentity
  { bi_name : string; bi_addressLine1 : option string; bi_addressLine2 : option string;
    bi_city : option string; bi_region : option string; bi_postalCode : option string;
    bi_countryCode : option string; bi_email : option string; bi_phone : option string;
    bi_taxIdentifier : option string }.

Definition country_code (s : string) : bool := (slen s =? 2) && all_chars is_upper s.

Section schemas.
Context `{ZodFormats}.

Definition businessIdentitySchema : schema BusinessIdentity := λ v,
  o ← z_strict_object ["name"; "addressLine1"; "addressLine2"; "city"; "region";
        "postalCode"; "countryCode"; "email"; "phone"; "taxIdentifier"] v;
  name ← trimmed 1 200 (get "name" o);
  line1 ← z_optional (trimmed 1 200) (get "addressLine1" o);
  line2 ← z_optional (trimmed 1 200) (get "addressLine2" o);
  city ← z_optional (trimmed 1 100) (get "city" o);
  region ← z_optional (trimmed 1 100) (get "region" o);
  postal ← z_optional (trimmed 1 32) (get "postalCode" o);
  country ← z_optional (z_refine country_code
              (z_map (λ s, js_upper (js_trim s)) z_string)) (get "countryCode" o);
  email ← z_optional (z_refine (λ s, zod_email s && (slen s <=? 320))
              (z_map (λ s, js_lower (js_trim s)) z_string)) (get "email" o);
  phone ← z_optional (trimmed 1 32) (get "phone" o);
  tax ← z_optional (trimmed 1 64) (get "taxIdentifier" o);
  Some (MkBusinessIdentity name line1 line2 city region postal country email phone tax).
End schemas.

Record InvoiceAddress := MkAddress
  { ad_line1 : string; ad_line2 : option string; ad_city : string;
    ad_region : option string; ad_postalCode : option string; ad_countryCode : string }.
Definition z_nullable {A} (s : schema A) : schema (option A) := λ v,
  match v with JNull => Some None | _ => Some <$> s v end.
Definition sized (lo hi : Z) : schema string := z_refine (text lo hi) z_string.
Definition invoiceAddressSchema : schema InvoiceAddress := λ v,
  o ← z_strict_object ["line1"; "line2"; "city"; "region"; "postalCode"; "countryCode"] v;
  line1 ← sized 1 200 (get "line1" o);
  line2 ← z_nullable (sized 0 200) (get "line2" o);
  city ← sized 1 100 (get "city" o);
  region ← z_nullable (sized 0 100) (get "region" o);
  postal ← z_nullable (sized 0 32) (get "postalCode" o);
  country ← sized 2 2 (get "countryCode" o);
  Some (MkAddress line1 line2 city region postal country).

(** The JSON the service stores for a record; absent optional properties are
    left out. *)
Definition property (k : string) (v : option string) : list (string * json) :=
  match v with Some s => [(k, JStr s)] | None => [] end.
Definition nullable_json (v : option string) : json :=
  match v with Some s => JStr s | None => JNull end.
Definition identity_json (b : BusinessIdentity) : json :=
  JObj ([("name", JStr (bi_name b))] ++ property "addressLine1" (bi_addressLine1 b) ++
        property "addressLine2" (bi_addressLine2 b) ++ property "city" (bi_city b) ++
        property "region" (bi_region b) ++ property "postalCode" (bi_postalCode b) ++
        property "countryCode" (bi_countryCode b) ++ property "email" (bi_email b) ++
        property "phone" (bi_phone b) ++ property "taxIdentifier" (bi_taxIdentifier b)).
Definition address_json (c : Customer) : json :=
  JObj [("line1", JStr (cus_addressLine1 c)); ("line2", nullable_json (cus_addressLine2 c));
        ("city", JStr (cus_city c)); ("region", nullable_json (cus_region c));
        ("postalCode", nullable_json (cus_postalCode c));
        ("countryCode", JStr (cus_countryCode c))].

(** A truthy string. *)
Definition truthy (s : string) : bool := negb (String.eqb s "").
Definition non_blank (s : string) : bool := truthy (js_trim s).

(** ** Requests and responses *)
Record InvoiceItemInput := MkItemInput
  { in_description : string; in_quantity : Z; in_unitAmount : string;
    in_discountAmount : string; in_taxAmount : string;
    in_servicePeriodStart : option Z; in_servicePeriodEnd : option Z }.
(** [draftInvoiceFieldsSchema]; [CreateInvoiceRequest] extends it. *)
Record UpdateDraftInvoiceRequest := MkDraftRequest
  { rq_currency : string; rq_dueAt : Z; rq_creditTotal : string;
    rq_items : list InvoiceItemInput }.
Record CreateInvoiceRequest := MkCreateRequest
  { rq_fields : UpdateDraftInvoiceRequest; rq_customerId : string;
    rq_submissionKey : string }.

Record InvoiceItemView := MkItemView
  { iv_id : string; iv_description : string; iv_quantity : Z;
    iv_unitAmount : SerializedMoney; iv_discountAmount : SerializedMoney;
    iv_taxAmount : SerializedMoney; iv_lineTotal : SerializedMoney;
    iv_servicePeriodStart : option string; iv_servicePeriodEnd : option string }.
Record InvoiceView := MkInvoiceView
  { v_id : string; v_invoiceNumber : string; v_customerId : string;
    v_orderId : option string; v_orderNumber : option string; v_status : InvoiceStatus;
    v_currency : string; v_subtotal : SerializedMoney; v_discountTotal : SerializedMoney;
    v_taxTotal : SerializedMoney; v_total : SerializedMoney;
    v_creditTotal : SerializedMoney; v_amountPaid : SerializedMoney;
    v_balanceDue : SerializedMoney; v_customerName : string; v_customerEmail : string;
    v_customerAddress : InvoiceAddress; v_businessIdentity : BusinessIdentity;
    v_manualPaymentInstructions : option string; v_taxIdentity : option string;
    v_issuedAt : option string; v_dueAt : string; v_paidAt : option string;
    v_cancelledAt : option string; v_createdAt : string; v_updatedAt : string;
    v_items : list InvoiceItemView }.
#[export] Instance InvoiceView_rebuild : Rebuild InvoiceView := λ r,
  MkInvoiceView (v_id r) (v_invoiceNumber r) (v_customerId r) (v_orderId r)
    (v_orderNumber r) (v_status r) (v_currency r) (v_subtotal r) (v_discountTotal r)
    (v_taxTotal r) (v_total r) (v_creditTotal r) (v_amountPaid r) (v_balanceDue r)
    (v_customerName r) (v_customerEmail r) (v_customerAddress r) (v_businessIdentity r)
    (v_manualPaymentInstructions r) (v_taxIdentity r) (v_issuedAt r) (v_dueAt r)
    (v_paidAt r) (v_cancelledAt r) (v_createdAt r) (v_updatedAt r) (v_items r).
Record InvoiceCreationResult := MkCreationResult
  { cr_invoice : InvoiceView; cr_duplicate : bool }.

Definition invalidAction (message : string) : exn := unprocessable message.
Definition invoice_not_found : exn := not_found "Invoice was not found.".
Definition PROJECT_NAME : string := "Webhost Billing".

(** An invoice with its items in line order, and its order's number. *)
Record InvoiceRecord := MkInvoiceRecord
  { rec_invoice : Invoice; rec_items : list InvoiceItem; rec_orderNumber : option string }.
Definition by_position (a b : InvoiceItem) : Prop := ii_linePosition a <= ii_linePosition b.
#[export] Instance by_position_dec : RelDecision by_position :=
  λ a b, decide (ii_linePosition a <= ii_linePosition b).
Definition items_of (id : string) (d : Db) : list InvoiceItem :=
  merge_sort by_position (rows (λ r, String.eqb (ii_invoiceId r) id) (invoiceItems d)).
Definition include (d : Db) (r : Invoice) : InvoiceRecord :=
  MkInvoiceRecord r (items_of (inv_id r) d)
    (id ← inv_orderId r; o ← orders d !! id; Some (ord_orderNumber o)).
Definition findBySubmissionKey (key : string) : Io (option InvoiceRecord) :=
  read (λ d, include d <$> find_unique (invoices d) inv_submissionKey key).
Definition getRecord (invoiceId : string) : Io InvoiceRecord :=
  found ← read (λ d, include d <$> invoices d !! invoiceId);
  lift (of_option invoice_not_found found).

Definition iso_opt : option Z → option string := fmap to_ISO_string.
Fixpoint traverse {A B} (f : A → result B) (l : list A) : result (list B) :=
  match l with
  | [] => Ok []
  | a :: l => b ← f a; bs ← traverse f l; Ok (b :: bs)
  end.

Section service.
Context `{ZodFormats}.

(** ** Reading *)
Definition normalizeBusinessIdentity (value : json) : result BusinessIdentity :=
  let default_ := Ok (MkBusinessIdentity PROJECT_NAME None None None None None None
                        None None None) in
  match businessIdentitySchema value with
  | Some data => Ok data
  | None =>
      match value with
      | JObj record =>
          match get "name" record with
          | JStr name =>
              if non_blank name then
                parse businessIdentitySchema
                  (JObj ([("name", JStr name)] ++
                     match get "address" record with
                     | JStr address =>
                         if non_blank address then [("addressLine1", JStr address)] else []
                     | _ => []
                     end))
              else default_
          | _ => default_
          end
      | _ => default_
      end
  end.
(** An array has no [taxIdentifier] property either. *)
Definition normalizeTaxIdentity (value : json) : option string :=
  match value with
  | JObj o =>
      match get "taxIdentifier" o with
      | JStr s => if (0 <? slen s) && (slen s <=? 64) then Some s else None
      | _ => None
      end
  | _ => None
  end.

Definition item_view (item : InvoiceItem) : result InvoiceItemView :=
  unit_ ← serializeMoney (ii_unitAmount item) (ii_currency item);
  discount ← serializeMoney (ii_discountAmount item) (ii_currency item);
  tax ← serializeMoney (ii_taxAmount item) (ii_currency item);
  line ← serializeMoney (ii_lineTotal item) (ii_currency item);
  Ok (MkItemView (ii_id item) (ii_descriptionSnapshot item) (ii_quantity item)
        unit_ discount tax line (iso_opt (ii_servicePeriodStart item))
        (iso_opt (ii_servicePeriodEnd item))).
Definition datetime_opt (s : option string) : bool :=
  match s with Some s => zod_datetime s | None => true end.
(** [invoiceItemSchema] and [invoiceSchema] on a value built by [toInvoice]. *)
Definition item_view_ok (v : InvoiceItemView) : bool :=
  zod_uuid (iv_id v) && text 1 2000 (iv_description v) &&
  (1 <=? iv_quantity v) && (iv_quantity v <=? max_safe_integer) &&
  datetime_opt (iv_servicePeriodStart v) && datetime_opt (iv_servicePeriodEnd v).
Definition invoice_view_ok (v : InvoiceView) : bool :=
  zod_uuid (v_id v) && text 1 32 (v_invoiceNumber v) && zod_uuid (v_customerId v) &&
  match v_orderId v with Some o => zod_uuid o | None => true end &&
  match v_orderNumber v with Some n => text 1 32 n | None => true end &&
  is_currency_code (v_currency v) && text 1 200 (v_customerName v) &&
  zod_email (v_customerEmail v) && (slen (v_customerEmail v) <=? 320) &&
  datetime_opt (v_issuedAt v) && zod_datetime (v_dueAt v) &&
  datetime_opt (v_paidAt v) && datetime_opt (v_cancelledAt v) &&
  zod_datetime (v_createdAt v) && zod_datetime (v_updatedAt v) &&
  negb (bool_decide (length (v_items v) = 0%nat)) && forallb item_view_ok (v_items v).

Definition toInvoice (record : InvoiceRecord) : result InvoiceView :=
  let invoice := rec_invoice record in
  address ← parse invoiceAddressSchema (inv_customerAddressSnapshot invoice);
  businessIdentity ← normalizeBusinessIdentity (inv_businessIdentitySnapshot invoice);
  let taxIdentity := normalizeTaxIdentity (inv_taxIdentitySnapshot invoice) in
  let money amount := serializeMoney amount (inv_currency invoice) in
  subtotal_ ← money (inv_subtotal invoice);
  discount_ ← money (inv_discountTotal invoice);
  tax_ ← money (inv_taxTotal invoice);
  total_ ← money (inv_total invoice);
  credit_ ← money (inv_creditTotal invoice);
  paid_ ← money (inv_amountPaid invoice);
  balance_ ← money (inv_balanceDue invoice);
  items_ ← traverse item_view (rec_items record);
  let view := MkInvoiceView (inv_id invoice) (inv_invoiceNumber invoice)
    (inv_customerId invoice) (inv_orderId invoice) (rec_orderNumber record)
    (inv_status invoice) (inv_currency invoice) subtotal_ discount_ tax_ total_ credit_
    paid_ balance_ (inv_customerNameSnapshot invoice)
    (inv_customerEmailSnapshot invoice) address businessIdentity None taxIdentity
    (iso_opt (inv_issuedAt invoice)) (to_ISO_string (inv_dueAt invoice))
    (iso_opt (inv_paidAt invoice)) (iso_opt (inv_cancelledAt invoice))
    (to_ISO_string (inv_createdAt invoice)) (to_ISO_string (inv_updatedAt invoice))
    items_ in
  _ ← throw_unless (invoice_view_ok view) ZodError;
  Ok view.

(** payments/manual-payment-instructions.ts *)
Definition DEFAULT_INSTRUCTIONS : string :=
  "Pay by bank deposit, cash, or an approved mobile financial service, then submit the transaction reference for review.".
Definition readManualPaymentInstructions : Io string :=
  setting ← find_setting "billing.manual-payment-instructions";
  mret (default DEFAULT_INSTRUCTIONS
    (v ← setting; o ← z_strict_object ["instructions"] v;
     trimmed 0 4000 (get "instructions" o))).

Definition getUnchecked (invoiceId : string) : Io InvoiceView :=
  record ← getRecord invoiceId;
  view ← lift (toInvoice record);
  instructions ← readManualPaymentInstructions;
  mret (view <| v_manualPaymentInstructions := Some instructions |>).

Definition get_invoice (invoiceId : string) (actor : Identity)
    (customerId : option string) : Io InvoiceView :=
  record ← getRecord invoiceId;
  _ ← require (match customerId with
               | Some c => negb (truthy c &&
                   negb (String.eqb (js_lower (inv_customerId (rec_invoice record)))
                                    (js_lower c)))
               | None => true
               end) invoice_not_found;
  _ ← require (match actor with
               | CustomerIdentity _ c => String.eqb c (inv_customerId (rec_invoice record))
               | AdminIdentity _ => true
               end) (forbidden "You do not have access to this invoice.");
  view ← lift (toInvoice record);
  instructions ← readManualPaymentInstructions;
  mret (view <| v_manualPaymentInstructions := Some instructions |>).

Definition getBusinessIdentity : Io BusinessIdentity :=
  setting ← find_setting "business.identity";
  lift (normalizeBusinessIdentity (default JUndefined setting)).
Definition updateBusinessIdentity (input : json) (actor : Identity)
    (context : SecurityRequestContext) : Io BusinessIdentity :=
  identity ← lift (parse businessIdentitySchema input);
  transaction (
    _ ← write (λ d, d <| settings := <["business.identity" :=
           match settings d !! "business.identity" with
           | Some s => MkSetting (identity_json identity) "BUSINESS" (set_description s)
                         (Some (userId actor))
           | None => MkSetting (identity_json identity) "BUSINESS"
                       (Some "Legal identity snapshot source for future invoices.")
                       (Some (userId actor))
           end]> (settings d) |>);
    _ ← log_activity (admin_log actor context "INVOICE_BUSINESS_IDENTITY_UPDATED_BY_ADMIN"
                        "SETTING" None (JObj [("key", JStr "business.identity")]));
    mret identity).

(** ** Writing *)
Definition unprocessable_error (e : exn) : exn :=
  match e with JsError m => unprocessable m | e => e end.
Definition catch_error {A} (f : exn → exn) (r : result A) : result A :=
  match r with Ok a => Ok a | Err e => Err (f e) end.

Definition calculable (item : InvoiceItemInput) : CalculableItem :=
  MkCalculable (in_quantity item) (string_to_Z (in_unitAmount item))
    (string_to_Z (in_discountAmount item)) (string_to_Z (in_taxAmount item)).
Definition parseAndCalculate (items : list InvoiceItemInput) (credit : string)
    : result InvoiceTotals :=
  catch_error unprocessable_error
    (calculateInvoiceTotals (calculable <$> items) (string_to_Z credit) 0).

Definition itemCreateData (invoiceId id : string) (item : InvoiceItemInput)
    (currency : string) (lineTotal : option Z) (linePosition : Z)
    : result InvoiceItem :=
  match lineTotal with
  | None => Err (JsError "Missing invoice line total")
  | Some lineTotal =>
      Ok (MkInvoiceItem id invoiceId linePosition None None (in_description item)
            currency (in_quantity item) (string_to_Z (in_unitAmount item))
            (string_to_Z (in_discountAmount item)) (string_to_Z (in_taxAmount item))
            lineTotal (in_servicePeriodStart item) (in_servicePeriodEnd item))
  end.
(** [items: { create: input.items.map((item, index) => ...) }]. *)
Definition create_items (invoiceId currency : string) (items : list InvoiceItemInput)
    (lines : list Z) : Io unit :=
  for_each (imap (λ i item, (i, item)) items) (λ '(i, item),
    id ← random_uuid;
    row ← lift (itemCreateData invoiceId id item currency (lines !! i)
                  (Z.of_nat i + 1));
    create_invoice_item row).

(** The stored lines and the submitted ones, as the arrays they are compared
    by ([JSON.stringify] of strings, numbers and nulls is injective). *)
Definition stored_line (i : InvoiceItem) :=
  (ii_descriptionSnapshot i, ii_quantity i, Z_to_string (ii_unitAmount i),
   Z_to_string (ii_discountAmount i), Z_to_string (ii_taxAmount i),
   iso_opt (ii_servicePeriodStart i), iso_opt (ii_servicePeriodEnd i)).
Definition submitted_line (i : InvoiceItemInput) :=
  (in_description i, in_quantity i, in_unitAmount i, in_discountAmount i,
   in_taxAmount i, iso_opt (in_servicePeriodStart i), iso_opt (in_servicePeriodEnd i)).
Definition duplicateResult (existing : InvoiceRecord) (input : CreateInvoiceRequest)
    : result InvoiceCreationResult :=
  let stored := rec_invoice existing in
  let fields := rq_fields input in
  let sameItems := bool_decide ((stored_line <$> rec_items existing) =
                                (submitted_line <$> rq_items fields)) in
  if negb (String.eqb (inv_customerId stored) (rq_customerId input)) ||
     negb (String.eqb (inv_currency stored) (rq_currency fields)) ||
     negb (inv_dueAt stored =? rq_dueAt fields) ||
     negb (inv_creditTotal stored =? string_to_Z (rq_creditTotal fields)) ||
     negb sameItems
  then Err (conflict "This submission key has already been used for another invoice.")
  else
    view ← toInvoice existing;
    Ok (MkCreationResult view true).

Definition customer_active (c : Customer) : bool :=
  bool_decide (cus_deletedAt c = None) && (cus_status c ==b CustomerStatus.ACTIVE) &&
  (usr_status c ==b UserStatus.ACTIVE) && bool_decide (usr_deletedAt c = None).
Definition customer_name (c : Customer) : string :=
  default (cus_firstName c ++ " " ++ cus_lastName c)%string (cus_companyName c).
Definition tax_identity (c : Customer) : json :=
  match cus_taxIdentifier c with
  | Some t => if truthy t then JObj [("taxIdentifier", JStr t)] else JNull
  | None => JNull
  end.

(** [create]: a draft.  [createdAt] and [updatedAt] are one reading of the
    clock; the id is drawn when the row is made. *)
Definition create_tx (input : CreateInvoiceRequest) (amounts : InvoiceTotals)
    (actor : Identity) (context : SecurityRequestContext) : Io string :=
  let fields := rq_fields input in
  found ← read (λ d, customers d !! rq_customerId input);
  customer ← lift (of_option
    (unprocessable "The selected customer account is not active.")
    (c ← found; if customer_active c then Some c else None));
  setting ← find_setting "business.identity";
  invoiceNumber ← allocateInvoiceNumber;
  identity ← lift (normalizeBusinessIdentity (default JUndefined setting));
  id ← random_uuid;
  now ← new_date;
  _ ← create_invoice (MkInvoice id invoiceNumber (rq_submissionKey input)
        (rq_customerId input) None InvoiceStatus.DRAFT (rq_currency fields)
        (subtotal amounts) (discountTotal amounts) (taxTotal amounts) (total amounts)
        (creditTotal amounts) 0 (balanceDue amounts) (customer_name customer)
        (usr_email customer) (address_json customer) (identity_json identity)
        (tax_identity customer) None (rq_dueAt fields) None None now now);
  _ ← create_items id (rq_currency fields) (rq_items fields) (lineTotals amounts);
  _ ← log_activity (admin_log actor context "INVOICE_DRAFT_CREATED_BY_ADMIN" "INVOICE"
        (Some id) (JObj [("customerId", JStr (rq_customerId input));
                         ("itemCount", JNum (Z.of_nat (length (rq_items fields))))]));
  mret id.
Definition create (input : CreateInvoiceRequest) (actor : Identity)
    (context : SecurityRequestContext) : Io InvoiceCreationResult :=
  existing ← findBySubmissionKey (rq_submissionKey input);
  match existing with
  | Some existing => lift (duplicateResult existing input)
  | None =>
      amounts ← lift (parseAndCalculate (rq_items (rq_fields input))
                        (rq_creditTotal (rq_fields input)));
      catch
        (invoiceId ← transaction (create_tx input amounts actor context);
         view ← getUnchecked invoiceId;
         mret (MkCreationResult view false))
        (λ error,
          if is_unique_violation error then
            raced ← findBySubmissionKey (rq_submissionKey input);
            match raced with
            | Some raced => lift (duplicateResult raced input)
            | None => throw (conflict
                "Could not allocate a unique invoice number. Try again.")
            end
          else throw error)
  end.

Definition updateDraft_tx (invoiceId : string) (updatedAt : Z)
    (input : UpdateDraftInvoiceRequest) (amounts : InvoiceTotals) (actor : Identity)
    (context : SecurityRequestContext) : Io unit :=
  claimedDraft ← update_invoice_if invoiceId
    (λ r, (inv_status r ==b InvoiceStatus.DRAFT) && (inv_updatedAt r =? updatedAt))
    (λ r, r);
  _ ← require (claimedDraft =? 1) (invalidAction
    "The invoice changed while it was being edited. Reload and try again.");
  _ ← write (λ d, d <| invoiceItems :=
        delete_rows (λ r, String.eqb (ii_invoiceId r) invoiceId) (invoiceItems d) |>);
  _ ← update_invoice invoiceId (λ r, r
        <| inv_currency := rq_currency input |> <| inv_dueAt := rq_dueAt input |>
        <| inv_subtotal := subtotal amounts |>
        <| inv_discountTotal := discountTotal amounts |>
        <| inv_taxTotal := taxTotal amounts |> <| inv_total := total amounts |>
        <| inv_creditTotal := creditTotal amounts |>
        <| inv_balanceDue := balanceDue amounts |>);
  _ ← create_items invoiceId (rq_currency input) (rq_items input) (lineTotals amounts);
  log_activity (admin_log actor context "INVOICE_DRAFT_UPDATED_BY_ADMIN" "INVOICE"
    (Some invoiceId) (JObj [("itemCount", JNum (Z.of_nat (length (rq_items input))))])).
Definition updateDraft (invoiceId : string) (input : UpdateDraftInvoiceRequest)
    (actor : Identity) (context : SecurityRequestContext) : Io InvoiceView :=
  found ← read (λ d, invoices d !! invoiceId);
  current ← lift (of_option invoice_not_found found);
  _ ← require (inv_status current ==b InvoiceStatus.DRAFT)
        (unprocessable "Only a draft invoice can be edited.");
  amounts ← lift (parseAndCalculate (rq_items input) (rq_creditTotal input));
  _ ← transaction (updateDraft_tx invoiceId (inv_updatedAt current) input amounts
                     actor context);
  getUnchecked invoiceId.

Definition action_name (action : InvoiceAction) : string :=
  match action with
  | ISSUE => "INVOICE_ISSUED_BY_ADMIN"
  | MARK_OVERDUE => "INVOICE_MARKED_OVERDUE_BY_ADMIN"
  | CANCEL => "INVOICE_CANCELLED_BY_ADMIN"
  end.
(** The notification an action publishes. *)
Definition action_event (action : InvoiceAction) (invoiceId : string) : Io unit :=
  let payload := JObj [("schemaVersion", JNum 1); ("invoiceId", JStr invoiceId)] in
  match action with
  | ISSUE => create_outbox "INVOICE" invoiceId "EMAIL_INVOICE_CREATED"
               ("email:invoice-created:" ++ invoiceId)%string payload
  | MARK_OVERDUE => create_outbox "INVOICE" invoiceId "EMAIL_OVERDUE_NOTICE"
               ("email:overdue-notice:" ++ invoiceId)%string payload
  | CANCEL => mret tt
  end.
Definition cancel_linked_order (action : InvoiceAction) (orderId : option string)
    (invoiceId : string) (now : Z) (actor : Identity)
    (context : SecurityRequestContext) : Io unit :=
  match action, orderId with
  | CANCEL, Some orderId =>
      cancelledOrders ← update_order_if orderId
        (λ o, (ord_status o ==b OrderStatus.PENDING) ||
              (ord_status o ==b OrderStatus.AWAITING_PAYMENT))
        (λ o, o <| ord_status := OrderStatus.CANCELLED |>
                <| ord_cancelledAt := Some now |>);
      when (0 <? cancelledOrders)
        (log_activity (admin_log actor context "ORDER_CANCELLED_WITH_INVOICE_BY_ADMIN"
           "ORDER" (Some orderId) (JObj [("invoiceId", JStr invoiceId)])))
  | _, _ => mret tt
  end.
Definition apply_action (action : InvoiceAction) (nextStatus : InvoiceStatus) (now : Z)
    (r : Invoice) : Invoice :=
  let r := r <| inv_status := nextStatus |> in
  match action with
  | ISSUE =>
      let r := r <| inv_issuedAt := Some now |> in
      if nextStatus ==b InvoiceStatus.PAID then r <| inv_paidAt := Some now |> else r
  | MARK_OVERDUE => r
  | CANCEL => r <| inv_cancelledAt := Some now |>
  end.
Definition applyAction_tx (invoiceId : string) (action : InvoiceAction)
    (current : Invoice) (nextStatus : InvoiceStatus) (now : Z) (actor : Identity)
    (context : SecurityRequestContext) : Io unit :=
  transitioned ← update_invoice_if invoiceId
    (λ r, (inv_status r ==b inv_status current) && (inv_dueAt r =? inv_dueAt current) &&
          (inv_balanceDue r =? inv_balanceDue current) &&
          (inv_amountPaid r =? inv_amountPaid current) &&
          (inv_updatedAt r =? inv_updatedAt current))
    (apply_action action nextStatus now);
  _ ← require (transitioned =? 1) (invalidAction
    "The invoice changed while the action was being applied. Reload and try again.");
  _ ← cancel_linked_order action (inv_orderId current) invoiceId now actor context;
  _ ← action_event action invoiceId;
  log_activity (admin_log actor context (action_name action) "INVOICE" (Some invoiceId)
    (JObj [("previousStatus", JStr (InvoiceStatus.to_string (inv_status current)));
           ("status", JStr (InvoiceStatus.to_string nextStatus))])).
Definition applyAction (invoiceId : string) (action : InvoiceAction) (actor : Identity)
    (context : SecurityRequestContext) : Io InvoiceView :=
  found ← read (λ d, invoices d !! invoiceId);
  current ← lift (of_option invoice_not_found found);
  now ← new_date;
  nextStatus ← lift (catch_error unprocessable_error
    (nextInvoiceStatus action (inv_status current) (inv_dueAt current)
       (inv_balanceDue current) (inv_amountPaid current) now));
  _ ← transaction (applyAction_tx invoiceId action current nextStatus now actor context);
  getUnchecked invoiceId.
End service.
