(* ===== verification/BackgroundJobs.v ===== *)
(** * Background jobs

    packages/shared/src/contracts/background-jobs.ts (the queues, their retry
    policies, the routes of outbox events and the schema of job data) and
    packages/queue/src (adding a job, and running a handler on a job).  BullMQ
    and Redis are the interface [JobQueue]. *)
From S2P Require Import Prelude JsString Json States Database Invoices.

(** ** Queues and routes *)
Module QueueName.
Inductive QueueName :=
| notifications | emails | hosting_provisioning | hosting_suspension
| hosting_unsuspension | hosting_status_reconciliation | payment_reconciliation
| renewal_invoice_generation | domain_registration.
#[global] Instance QueueName_eq_dec : EqDecision QueueName.
Proof. solve_decision. Defined.
Definition to_string (q : QueueName) : string :=
  match q with
  | notifications => "notifications" | emails => "emails"
  | hosting_provisioning => "hosting-provisioning"
  | hosting_suspension => "hosting-suspension"
  | hosting_unsuspension => "hosting-unsuspension"
  | hosting_status_reconciliation => "hosting-status-reconciliation"
  | payment_reconciliation => "payment-reconciliation"
  | renewal_invoice_generation => "renewal-invoice-generation"
  | domain_registration => "domain-registration"
  end.
End QueueName.
Notation BackgroundQueueName := QueueName.QueueName.
Definition backgroundQueueNames : list BackgroundQueueName :=
  [QueueName.notifications; QueueName.emails; QueueName.hosting_provisioning;
   QueueName.hosting_suspension; QueueName.hosting_unsuspension;
   QueueName.hosting_status_reconciliation; QueueName.payment_reconciliation;
   QueueName.renewal_invoice_generation; QueueName.domain_registration].
Definition backgroundQueueNameSchema : schema BackgroundQueueName := λ v,
  s ← z_string v;
  List.find (λ q, String.eqb (QueueName.to_string q) s) backgroundQueueNames.

Record BackgroundQueuePolicy := MkQueuePolicy
  { qp_attempts : Z; qp_backoffMilliseconds : Z }.
Definition backgroundQueuePolicies (q : BackgroundQueueName) : BackgroundQueuePolicy :=
  match q with
  | QueueName.notifications | QueueName.emails => MkQueuePolicy 5 2000
  | QueueName.domain_registration | QueueName.hosting_provisioning
  | QueueName.hosting_suspension | QueueName.hosting_unsuspension => MkQueuePolicy 1 0
  | QueueName.hosting_status_reconciliation | QueueName.payment_reconciliation =>
      MkQueuePolicy 4 5000
  | QueueName.renewal_invoice_generation => MkQueuePolicy 3 3000
  end.

Record OutboxQueueRoute := MkRoute
  { rt_queueName : BackgroundQueueName; rt_jobName : string }.
Definition exactOutboxRoutes : list (string * OutboxQueueRoute) :=
  [("NOTIFICATION_DELIVERY_REQUESTED", MkRoute QueueName.notifications "preview-notification");
   ("DOMAIN_REGISTRATION_REQUESTED", MkRoute QueueName.domain_registration "register-domain-once");
   ("DOMAIN_REGISTRATION_RECONCILE", MkRoute QueueName.domain_registration "reconcile-domain");
   ("AUTH_EMAIL_VERIFICATION_REQUESTED", MkRoute QueueName.emails "send-auth-email");
   ("AUTH_PASSWORD_RESET_REQUESTED", MkRoute QueueName.emails "send-auth-email");
   ("AUTH_CUSTOMER_EMAIL_CODE_REQUESTED", MkRoute QueueName.emails "send-auth-email");
   ("EMAIL_ORDER_RECEIVED", MkRoute QueueName.emails "send-order-email");
   ("EMAIL_ORDER_APPROVED", MkRoute QueueName.emails "send-order-email");
   ("EMAIL_PAYMENT_RECEIVED", MkRoute QueueName.emails "send-payment-email");
   ("EMAIL_INVOICE_CREATED", MkRoute QueueName.emails "send-invoice-email");
   ("EMAIL_RENEWAL_REMINDER", MkRoute QueueName.emails "send-invoice-email");
   ("EMAIL_OVERDUE_NOTICE", MkRoute QueueName.emails "send-invoice-email");
   ("EMAIL_SERVICE_PROVISIONED", MkRoute QueueName.emails "send-service-email");
   ("EMAIL_SERVICE_SUSPENDED", MkRoute QueueName.emails "send-service-email");
   ("EMAIL_SERVICE_REACTIVATED", MkRoute QueueName.emails "send-service-email");
   ("EMAIL_HOSTING_CANCELLATION_REQUESTED", MkRoute QueueName.emails "send-service-email");
   ("EMAIL_TICKET_REPLY", MkRoute QueueName.emails "send-ticket-email");
   ("GATEWAY_PAYMENT_SUCCEEDED",
    MkRoute QueueName.payment_reconciliation "reconcile-payment-follow-up");
   ("GATEWAY_PAYMENT_FAILED",
    MkRoute QueueName.payment_reconciliation "reconcile-payment-follow-up");
   ("HOSTING_PROVISIONING_REQUESTED",
    MkRoute QueueName.hosting_provisioning "provision-hosting");
   ("HOSTING_SUSPENSION_REQUESTED", MkRoute QueueName.hosting_suspension "suspend-hosting");
   ("HOSTING_CANCELLATION_SUSPENSION_REQUESTED",
    MkRoute QueueName.hosting_suspension "suspend-hosting");
   ("HOSTING_UNSUSPENSION_REQUESTED",
    MkRoute QueueName.hosting_unsuspension "unsuspend-hosting");
   ("HOSTING_STATUS_RECONCILIATION_REQUESTED",
    MkRoute QueueName.hosting_status_reconciliation "reconcile-hosting-status");
   ("PAYMENT_RECONCILIATION_REQUESTED",
    MkRoute QueueName.payment_reconciliation "reconcile-payment");
   ("RENEWAL_INVOICE_GENERATION_REQUESTED",
    MkRoute QueueName.renewal_invoice_generation "generate-renewal-invoice");
   ("RENEWAL_PAYMENT_COMPLETED",
    MkRoute QueueName.renewal_invoice_generation "apply-renewal-payment")].
(** Own properties only: no event type of the program is a name that every
    object inherits, such as [constructor]. *)
Definition routeOutboxEvent (eventType : string) : option OutboxQueueRoute :=
  snd <$> List.find (λ kv, String.eqb kv.1 eventType) exactOutboxRoutes.

(** ** Job data *)
Record BackgroundJobData := MkJob
  { job_outboxEventId : string; job_aggregateType : string; job_aggregateId : string;
    job_eventType : string; job_correlationId : string; job_failureKind : option string;
    job_failureCode : option string; job_manualRetryAllowed : option bool }.
#[export] Instance BackgroundJobData_rebuild : Rebuild BackgroundJobData := λ r,
  MkJob (job_outboxEventId r) (job_aggregateType r) (job_aggregateId r) (job_eventType r)
    (job_correlationId r) (job_failureKind r) (job_failureCode r)
    (job_manualRetryAllowed r).

(** [^[A-Z][A-Z0-9_]{0,n}$]. *)
Definition code_name (n : Z) (s : string) : bool :=
  match s with
  | EmptyString => false
  | String c t =>
      is_upper c && (slen t <=? n) &&
      all_chars (λ c, is_upper c || is_digit c || Ascii.eqb c "_") t
  end.
Definition backgroundFailureKindSchema : schema string :=
  z_refine (λ s, existsb (String.eqb s) ["TEMPORARY"; "PERMANENT"; "INCONSISTENT"]) z_string.
(** [^[A-Za-z0-9_-]{1,191}$]. *)
Definition valid_job_id (s : string) : bool :=
  text 1 191 s && all_chars (λ c, is_alnum c || Ascii.eqb c "_" || Ascii.eqb c "-") s.

(** The object a job's data is stored as. *)
Definition optional_field {A} (k : string) (f : A → json) (o : option A)
    : list (string * json) :=
  match o with Some a => [(k, f a)] | None => [] end.
Definition job_json (data : BackgroundJobData) : json :=
  JObj ([("schemaVersion", JNum 1); ("outboxEventId", JStr (job_outboxEventId data));
         ("aggregateType", JStr (job_aggregateType data));
         ("aggregateId", JStr (job_aggregateId data));
         ("eventType", JStr (job_eventType data));
         ("correlationId", JStr (job_correlationId data))] ++
        optional_field "failureKind" JStr (job_failureKind data) ++
        optional_field "failureCode" JStr (job_failureCode data) ++
        optional_field "manualRetryAllowed" JBool (job_manualRetryAllowed data)).

Section schemas.
Context `{ZodFormats}.

Definition backgroundJobDataSchema : schema BackgroundJobData := λ v,
  o ← z_strict_object ["schemaVersion"; "outboxEventId"; "aggregateType"; "aggregateId";
                       "eventType"; "correlationId"; "failureKind"; "failureCode";
                       "manualRetryAllowed"] v;
  _ ← z_refine (λ n, n =? 1) z_int (get "schemaVersion" o);
  outboxEventId ← z_refine zod_uuid z_string (get "outboxEventId" o);
  aggregateType ← z_refine (code_name 79) z_string (get "aggregateType" o);
  aggregateId ← z_refine zod_uuid z_string (get "aggregateId" o);
  eventType ← z_refine (code_name 119) z_string (get "eventType" o);
  correlationId ← z_refine zod_uuid z_string (get "correlationId" o);
  failureKind ← z_optional backgroundFailureKindSchema (get "failureKind" o);
  failureCode ← z_optional (z_refine (code_name 79) z_string) (get "failureCode" o);
  manualRetryAllowed ← z_optional z_bool (get "manualRetryAllowed" o);
  Some (MkJob outboxEventId aggregateType aggregateId eventType correlationId failureKind
          failureCode manualRetryAllowed).
End schemas.

(** ** The queue catalogue *)
Record JobOptions := MkJobOptions
  { jo_jobId : string; jo_attempts : Z; jo_backoff : option Z;
    jo_completeAge : Z; jo_completeCount : Z; jo_removeOnFail : bool;
    jo_stackTraceLimit : Z; jo_sizeLimit : Z }.
(** A job as [getJob] returns it. *)
Record Job := MkQueuedJob
  { qj_name : string; qj_data : json; qj_options : JobOptions; qj_state : string }.

(** BullMQ: a store of jobs by queue and identifier.  [queue_add] may fail with
    or without having stored the job; [queue_retry] is [job.retry('failed')]. *)
Class JobQueue (Q : Type) :=
  { queue_add : BackgroundQueueName → string → json → JobOptions → Q → result unit * Q;
    queue_job : BackgroundQueueName → string → Q → option Job;
    queue_retry : BackgroundQueueName → string → Q → result unit * Q }.
(** What BullMQ documents of [add]: the job is stored as given and waits; an
    identifier that exists makes the call do nothing; no other job is touched;
    and a failed call has done that or nothing. *)
Class JobQueueLaws (Q : Type) `{JobQueue Q} : Prop :=
  { add_stores n name data o q q' :
      queue_add n name data o q = (Ok tt, q') →
      ∃ j, queue_job n (jo_jobId o) q' = Some j ∧
        (queue_job n (jo_jobId o) q = None → qj_name j = name ∧ qj_data j = data);
    add_keeps n name data o q r q' m i j :
      queue_add n name data o q = (r, q') → queue_job m i q = Some j →
      queue_job m i q' = Some j;
    add_new n name data o q r q' m i j :
      queue_add n name data o q = (r, q') → queue_job m i q = None →
      queue_job m i q' = Some j →
      m = n ∧ i = jo_jobId o ∧ qj_name j = name ∧ qj_data j = data }.

(** The database and the queues. *)
Record Stack (Q : Type) := MkStack { world : World; queues : Q }.
Arguments MkStack {Q}.
Arguments world {Q}.
Arguments queues {Q}.
Notation StackIo Q := (M (Stack Q)).
Definition io {Q A} (m : Io A) : StackIo Q A := λ s,
  let '(r, w) := m (world s) in (r, MkStack w (queues s)).
Definition on_queues {Q A} (f : Q → result A * Q) : StackIo Q A := λ s,
  let '(r, q) := f (queues s) in (r, MkStack (world s) q).

(** [id.replaceAll('-', '')]. *)
Fixpoint remove_dashes (s : string) : string :=
  match s with
  | EmptyString => ""
  | String c t => if Ascii.eqb c "-" then remove_dashes t else String c (remove_dashes t)
  end.
Definition outbox_job_id (eventId : string) : string :=
  ("outbox-" ++ remove_dashes eventId)%string.
Definition outbox_job_options (q : BackgroundQueueName) (eventId : string) : JobOptions :=
  let policy := backgroundQueuePolicies q in
  MkJobOptions (outbox_job_id eventId) (qp_attempts policy)
    (if 0 <? qp_backoffMilliseconds policy then Some (qp_backoffMilliseconds policy)
     else None)
    (7 * 86400) 10000 false 3 2048.
Definition outbox_job_data (event : OutboxEvent) : BackgroundJobData :=
  MkJob (out_id event) (out_aggregateType event) (out_aggregateId event)
    (out_eventType event) (out_id event) None None None.

Section catalog.
Context `{ZodFormats} {Q : Type} `{JobQueue Q}.

Definition addOutboxJob (route : OutboxQueueRoute) (event : OutboxEvent)
    : StackIo Q unit :=
  data ← lift (parse backgroundJobDataSchema (job_json (outbox_job_data event)));
  on_queues (queue_add (rt_queueName route) (rt_jobName route) (job_json data)
               (outbox_job_options (rt_queueName route) (out_id event))).
End catalog.

(** ** Running a job *)
Section worker.
Context `{ZodFormats} {S : Type}.

(** [error instanceof BackgroundJobError]. *)
Definition classify (e : exn) : string * string :=
  match e with
  | BackgroundJobError kind code _ => (kind, code)
  | _ => ("TEMPORARY", "BACKGROUND_JOB_UNEXPECTED")
  end.
Definition failed_job_data (data : BackgroundJobData) (kind code : string)
    : BackgroundJobData :=
  data <| job_failureKind := Some kind |> <| job_failureCode := Some code |>
       <| job_manualRetryAllowed := Some (String.eqb kind "TEMPORARY") |>.
(** [process]: [handler] does the work and [updateData] is [job.updateData].  An
    [UnrecoverableError] ends the job, any other error lets BullMQ run it again. *)
Definition process_job (handler : BackgroundJobData → M S unit)
    (updateData : json → M S unit) (raw : json) : M S unit :=
  match backgroundJobDataSchema raw with
  | None => throw (UnrecoverableError "BACKGROUND_JOB_PAYLOAD_INVALID")
  | Some data =>
      catch (handler data) (λ e,
        let '(kind, code) := classify e in
        _ ← updateData (job_json (failed_job_data data kind code));
        if negb (String.eqb kind "TEMPORARY") then throw (UnrecoverableError code)
        else throw (JsError code))
  end.
End worker.

(** ** Lemmas *)
Lemma io_Ok {Q A} (m : Io A) (s s' : Stack Q) a :
  io m s = (Ok a, s') ↔ m (world s) = (Ok a, world s') ∧ queues s' = queues s.
Proof.
  unfold io. destruct (m (world s)) as [r w]. destruct s as [ws qs], s' as [w' q']. simpl.
  naive_solver.
Qed.
Lemma on_queues_Ok {Q A} (f : Q → result A * Q) (s s' : Stack Q) a :
  on_queues f s = (Ok a, s') ↔ f (queues s) = (Ok a, queues s') ∧ world s' = world s.
Proof.
  unfold on_queues. destruct (f (queues s)) as [r q]. destruct s as [ws qs], s' as [w' q'].
  simpl. naive_solver.
Qed.

Lemma remove_dashes_app s t :
  remove_dashes (s ++ t) = (remove_dashes s ++ remove_dashes t)%string.
Proof. induction s as [|c s IH]; simpl; [done|]. destruct (Ascii.eqb c "-"); by rewrite IH. Qed.

(** ** A queue that keeps every job *)
Definition MemoryQueue : Type := BackgroundQueueName → string → option Job.
Definition memory_add (n : BackgroundQueueName) (name : string) (data : json)
    (o : JobOptions) (q : MemoryQueue) : result unit * MemoryQueue :=
  match q n (jo_jobId o) with
  | Some _ => (Ok tt, q)
  | None =>
      (Ok tt, λ m i, if bool_decide (m = n) && String.eqb i (jo_jobId o)
                     then Some (MkQueuedJob name data o "waiting") else q m i)
  end.
#[export] Instance memory_queue : JobQueue MemoryQueue :=
  {| queue_add := memory_add; queue_job := λ n i q, q n i;
     queue_retry := λ _ _ q, (Ok tt, q) |}.
#[export] Instance memory_queue_laws : JobQueueLaws MemoryQueue.
Proof.
  split; simpl; unfold memory_add.
  - intros n name data o q q' Ha. destruct (q n (jo_jobId o)) as [j|] eqn:E; simplify_eq.
    + by exists j.
    + rewrite bool_decide_eq_true_2, String.eqb_refl by done. simpl. by eexists.
  - intros n name data o q r q' m i j Ha Hj.
    destruct (q n (jo_jobId o)) as [j'|] eqn:E; simplify_eq; [done|].
    case_bool_decide as Hn; [|done]. destruct (String.eqb_spec i (jo_jobId o)); [|done].
    congruence.
  - intros n name data o q r q' m i j Ha Hnone Hj.
    destruct (q n (jo_jobId o)) as [j'|] eqn:E; simplify_eq.
    case_bool_decide as Hn; [|simpl in Hj; congruence].
    destruct (String.eqb_spec i (jo_jobId o)); simpl in Hj; [|congruence]. by simplify_eq.
Qed.
