(* ===== verification/Outbox.v ===== *)
(** * The outbox

    apps/worker/src/outbox/outbox-dispatcher.service.ts, which hands the events
    of the outbox to the queues, and
    apps/api/src/modules/background-jobs/background-job.service.ts, with which an
    administrator retries what failed.  Several dispatchers may run: the claim of
    a batch and the update after a publication are transactions of their own. *)
From stdpp Require Import sorting.
From S2P Require Import Prelude JsString Json States Database Invoices BackgroundJobs.

(** ** Table operations *)
(** [outboxEvent.updateMany({where: {id, ...}})]: the count. *)
Definition update_outbox_if (id : string) (p : OutboxEvent → bool)
    (f : OutboxEvent → OutboxEvent) : Io Z :=
  now ← new_date;
  m ← read outboxEvents;
  let '(count, m') := update_one m id p (λ r, f r <| out_updatedAt := now |>) in
  _ ← write (λ d, d <| outboxEvents := m' |>);
  mret count.
(** [outboxEvent.update({where: {id}})]. *)
Definition update_outbox (id : string) (f : OutboxEvent → OutboxEvent) : Io unit :=
  count ← update_outbox_if id (λ _, true) f;
  require (count =? 1) RecordNotFound.

(** [ORDER BY "available_at", "created_at"]. *)
Definition claim_order (a b : OutboxEvent) : Prop :=
  out_availableAt a < out_availableAt b ∨
  out_availableAt a = out_availableAt b ∧ out_createdAt a ≤ out_createdAt b.
#[export] Instance claim_order_dec a b : Decision (claim_order a b).
Proof. unfold claim_order. apply _. Defined.
#[export] Instance claim_order_total : Total claim_order.
Proof. intros a b. unfold claim_order. lia. Qed.
#[export] Instance claim_order_trans : Transitive claim_order.
Proof. intros a b c. unfold claim_order. lia. Qed.
Definition in_claim_order (l : list OutboxEvent) : list OutboxEvent :=
  merge_sort claim_order l.

(** ** The dispatcher *)
Definition MAX_PUBLICATION_ATTEMPTS : Z := 5.

Section dispatcher.
Context `{ZodFormats} {Q : Type} `{JobQueue Q}.
(** [workerId]: [outbox-] and the process number. *)
Context (workerId : string) (OUTBOX_BATCH_SIZE OUTBOX_LOCK_TIMEOUT_SECONDS : Z).

(** The [WHERE] of the claim; [NULL < x] is not true. *)
Definition claimable (now lockCutoff : Z) (e : OutboxEvent) : bool :=
  ((out_status e ==b OutboxStatus.PENDING) && (out_availableAt e <=? now)) ||
  ((out_status e ==b OutboxStatus.PROCESSING) &&
   match out_lockedAt e with Some t => t <? lockCutoff | None => false end).
Definition claimed (now : Z) (e : OutboxEvent) : OutboxEvent :=
  e <| out_status := OutboxStatus.PROCESSING |>
    <| out_attemptCount := out_attemptCount e + 1 |>
    <| out_lockedAt := Some now |> <| out_lockedBy := Some workerId |>
    <| out_updatedAt := now |>.
(** The candidates; rows that agree on both columns come in some order. *)
Definition candidates (now lockCutoff : Z) (d : Db) : list OutboxEvent :=
  take (Z.to_nat OUTBOX_BATCH_SIZE)
    (in_claim_order (rows (claimable now lockCutoff) (outboxEvents d))).
(** The statement that claims a batch: the identifiers it returns. *)
Definition claim : Io (list string) :=
  instant ← new_date;
  let lockCutoff := instant - OUTBOX_LOCK_TIMEOUT_SECONDS * 1000 in
  now ← new_date;
  found ← read (candidates now lockCutoff);
  let ids := out_id <$> found in
  _ ← write (λ d, d <| outboxEvents :=
        update_rows (λ e, bool_decide (out_id e ∈ ids)) (claimed now) (outboxEvents d) |>);
  mret ids.
Definition find_claimed (ids : list string) : Io (list OutboxEvent) :=
  read (λ d, in_claim_order
    (rows (λ e, bool_decide (out_id e ∈ ids)) (outboxEvents d))).
Definition claimBatch : Io (list OutboxEvent) :=
  ids ← claim;
  if bool_decide (ids = []) then mret [] else find_claimed ids.

(** [{status: PROCESSING, lockedBy: this.workerId}]. *)
Definition held (e : OutboxEvent) : bool :=
  (out_status e ==b OutboxStatus.PROCESSING) &&
  bool_decide (out_lockedBy e = Some workerId).
Definition unlocked (e : OutboxEvent) : OutboxEvent :=
  e <| out_lockedAt := None |> <| out_lockedBy := None |>.
Definition failPermanently (eventId failureCode : string) : Io unit :=
  _ ← update_outbox_if eventId held (λ e,
    unlocked e <| out_status := OutboxStatus.FAILED |>
               <| out_lastError := Some failureCode |>);
  mret tt.
Definition exhausted (event : OutboxEvent) : bool :=
  MAX_PUBLICATION_ATTEMPTS <=? out_attemptCount event.
Definition delayMilliseconds (event : OutboxEvent) : Z :=
  Z.min 300000 (2000 * 2 ^ Z.max 0 (out_attemptCount event - 1)).
Definition publicationFailed (event : OutboxEvent) : Io unit :=
  now ← new_date;
  _ ← update_outbox_if (out_id event) held (λ e,
    unlocked e
      <| out_status := if exhausted event then OutboxStatus.FAILED
                       else OutboxStatus.PENDING |>
      <| out_availableAt := now + delayMilliseconds event |>
      <| out_lastError := Some (if exhausted event
           then "OUTBOX_PUBLICATION_ATTEMPTS_EXHAUSTED"
           else "OUTBOX_PUBLICATION_TEMPORARILY_UNAVAILABLE") |>);
  mret tt.
Definition mark_published (eventId : string) : Io unit :=
  now ← new_date;
  _ ← update_outbox_if eventId held (λ e,
    unlocked e <| out_status := OutboxStatus.PUBLISHED |>
               <| out_publishedAt := Some now |> <| out_lastError := None |>);
  mret tt.
Definition publish (event : OutboxEvent) : StackIo Q unit :=
  match routeOutboxEvent (out_eventType event) with
  | None => io (failPermanently (out_id event) "OUTBOX_EVENT_UNROUTABLE")
  | Some route =>
      catch (_ ← addOutboxJob route event; io (mark_published (out_id event)))
            (λ _, io (publicationFailed event))
  end.
Definition dispatchOnce : StackIo Q Z :=
  events ← io claimBatch;
  _ ← for_each events publish;
  mret (Z.of_nat (length events)).
(** [tick]: nothing while a cycle is active; its errors are logged. *)
Definition tick (activeDispatch : bool) : StackIo Q unit :=
  if activeDispatch then mret tt
  else catch (_ ← dispatchOnce; mret tt) (λ _, mret tt).
End dispatcher.

(** ** Retries by an administrator *)
Section administration.
Context `{ZodFormats} {Q : Type} `{JobQueue Q}.

Definition assertAdministrator {S} (actor : Identity) : M S unit :=
  match actor with
  | AdminIdentity _ => mret tt
  | CustomerIdentity _ _ =>
      throw (forbidden "Only administrators can manage background jobs.")
  end.
Definition reopened (now : Z) (e : OutboxEvent) : OutboxEvent :=
  unlocked e <| out_status := OutboxStatus.PENDING |> <| out_attemptCount := 0 |>
             <| out_availableAt := now |> <| out_lastError := None |>.
Definition retryOutboxEvent_tx (eventId : string) (actor : Identity)
    (context : SecurityRequestContext) : Io unit :=
  _ ← lock_row "outbox_events" eventId;
  found ← read (λ d, outboxEvents d !! eventId);
  event ← lift (of_option (not_found "Outbox event was not found.") found);
  _ ← require ((out_status event ==b OutboxStatus.FAILED) &&
               bool_decide (is_Some (routeOutboxEvent (out_eventType event))))
        (conflict "Only failed events with a recognized safe route may be retried.");
  now ← new_date;
  _ ← update_outbox (out_id event) (reopened now);
  log_activity (MkActivityLog (Some (userId actor)) "OUTBOX_EVENT_RETRIED" "OUTBOX_EVENT"
    (Some (out_id event)) (Some (out_id event)) (Some (ipAddressHash context))
    (JObj [("eventType", JStr (out_eventType event));
           ("previousAttemptCount", JNum (out_attemptCount event))])).
Definition retryOutboxEvent (eventId : string) (actor : Identity)
    (context : SecurityRequestContext) : Io unit :=
  _ ← assertAdministrator actor;
  transaction (retryOutboxEvent_tx eventId actor context).

Definition auditRetry (actor : Identity) (context : SecurityRequestContext)
    (action entityId correlationId : string) (metadata : json) : Io unit :=
  log_activity (MkActivityLog (Some (userId actor)) action "BACKGROUND_JOB" (Some entityId)
    (Some correlationId) (Some (ipAddressHash context)) metadata).
Definition retryQueueJob (queueNameInput jobId : string) (actor : Identity)
    (context : SecurityRequestContext) : StackIo Q unit :=
  _ ← assertAdministrator actor;
  queueName ← lift (parse backgroundQueueNameSchema (JStr queueNameInput));
  found ← gets (λ s, queue_job queueName jobId (queues s));
  job ← lift (of_option (not_found "Background job was not found.") found);
  data ← lift (of_option (conflict "The job payload is invalid and cannot be retried.")
                 (backgroundJobDataSchema (qj_data job)));
  _ ← require (String.eqb (qj_state job) "failed" &&
               bool_decide (job_failureKind data = Some "TEMPORARY") &&
               bool_decide (job_manualRetryAllowed data = Some true))
        (conflict "Only failed jobs classified as temporarily retryable may be retried.");
  _ ← on_queues (queue_retry queueName jobId);
  io (auditRetry actor context "BACKGROUND_JOB_RETRIED" (job_outboxEventId data)
        (job_correlationId data)
        (JObj [("queueName", JStr (QueueName.to_string queueName)); ("jobId", JStr jobId);
               ("correlationId", JStr (job_correlationId data))])).
End administration.

(** ** Lemmas *)
(** How one event changes when a condition on it decides. *)
Definition changed_at (id : string) (p : OutboxEvent → bool)
    (f : OutboxEvent → OutboxEvent) (m : gmap string OutboxEvent)
    : gmap string OutboxEvent :=
  match m !! id with
  | Some e => if p e then <[id := f e]> m else m
  | None => m
  end.
Lemma update_outbox_if_run id p f w :
  ∃ n, update_outbox_if id p f w =
    (Ok n, w <| ticks := S (ticks w) |>
             <| db := db w <| outboxEvents :=
                  changed_at id p (λ e, f e <| out_updatedAt := clock w (ticks w) |>)
                    (outboxEvents (db w)) |> |>).
Proof.
  unfold update_outbox_if, new_date, read, write, gets, modify, mbind, M_bind, mret, M_ret,
    update_one, changed_at. simpl.
  destruct (outboxEvents (db w) !! id) as [e|]; [destruct (p e)|]; eauto.
Qed.
Lemma changed_at_lookup id p f m i :
  changed_at id p f m !! i =
  (λ e, if bool_decide (i = id) && p e then f e else e) <$> m !! i.
Proof.
  unfold changed_at. destruct (m !! id) as [e|] eqn:E.
  - destruct (p e) eqn:Hp.
    + destruct (decide (i = id)) as [->|Hne].
      * rewrite lookup_insert_eq, E. simpl. by rewrite bool_decide_eq_true_2, Hp.
      * rewrite lookup_insert_ne by done. rewrite bool_decide_eq_false_2 by done.
        by destruct (m !! i).
    + destruct (decide (i = id)) as [->|Hne].
      * rewrite E. simpl. by rewrite Hp, andb_false_r.
      * rewrite bool_decide_eq_false_2 by done. by destruct (m !! i).
  - destruct (decide (i = id)) as [->|Hne]; [by rewrite E|].
    rewrite bool_decide_eq_false_2 by done. by destruct (m !! i).
Qed.
