(* ===== verification/JobProperties.v ===== *)
(** * Jobs read back

    The data of a job survives the queue, and a job's identifier tells the event it
    is for. *)
From S2P Require Import Prelude JsString Json States Database Invoices BackgroundJobs Outbox.

Section data.
Context `{ZodFormats}.

Definition optional_ok {A} (p : A → bool) (o : option A) : bool :=
  match o with Some a => p a | None => true end.
Definition failure_kind (s : string) : bool :=
  existsb (String.eqb s) ["TEMPORARY"; "PERMANENT"; "INCONSISTENT"].
Definition valid_job_data (d : BackgroundJobData) : bool :=
  zod_uuid (job_outboxEventId d) && code_name 79 (job_aggregateType d) &&
  zod_uuid (job_aggregateId d) && code_name 119 (job_eventType d) &&
  zod_uuid (job_correlationId d) && optional_ok failure_kind (job_failureKind d) &&
  optional_ok (code_name 79) (job_failureCode d).

Lemma refine_string p s : p s = true → z_refine p z_string (JStr s) = Some s.
Proof. unfold z_refine. simpl. by intros ->. Qed.

Lemma job_data_exact d :
  backgroundJobDataSchema (job_json d) = if valid_job_data d then Some d else None.
Proof.
  destruct d as [i at_ ai et ci fk fc mr].
  unfold backgroundJobDataSchema, job_json, valid_job_data.
  destruct fk as [fk|], fc as [fc|], mr as [mr|]; cbn -[code_name failure_kind];
    unfold backgroundFailureKindSchema, z_refine, z_optional, z_string, z_bool;
    cbn -[code_name failure_kind];
    destruct (zod_uuid i), (code_name 79 at_), (zod_uuid ai), (code_name 119 et),
      (zod_uuid ci); cbn -[code_name failure_kind]; try reflexivity;
    repeat match goal with
    | |- context [failure_kind ?x] => change (failure_kind x) with
        (String.eqb x "TEMPORARY" || (String.eqb x "PERMANENT" ||
         (String.eqb x "INCONSISTENT" || false)))
    end;
    repeat match goal with
    | |- context [if ?b then _ else _] => destruct b; cbn -[code_name]; try reflexivity
    end.
Qed.
End data.

(** ** Identifiers *)
Definition is_hex (c : ascii) : bool := is_digit c || in_range "a" "f" c.
(** A UUID as PostgreSQL prints it. *)
Definition uuid_group (n : nat) (s : string) : Prop :=
  String.length s = n ∧ all_chars is_hex s = true.
Definition canonical_uuid (s : string) : Prop :=
  ∃ a b c d e, s = (a ++ "-" ++ b ++ "-" ++ c ++ "-" ++ d ++ "-" ++ e)%string ∧
    uuid_group 8 a ∧ uuid_group 4 b ∧ uuid_group 4 c ∧ uuid_group 4 d ∧ uuid_group 12 e.

Lemma hex_not_dash c : is_hex c = true → Ascii.eqb c "-" = false.
Proof.
  destruct (Ascii.eqb_spec c "-") as [->|]; [|done]. done.
Qed.
Lemma remove_dashes_hex s : all_chars is_hex s = true → remove_dashes s = s.
Proof.
  induction s as [|c s IH]; [done|]. simpl. intros Hs. apply andb_true_iff in Hs as [Hc Hs].
  rewrite (hex_not_dash c Hc). by rewrite IH.
Qed.
Lemma app_string_inj (a b s t : string) :
  String.length a = String.length b → (a ++ s)%string = (b ++ t)%string → a = b ∧ s = t.
Proof.
  revert b. induction a as [|c a IH]; intros [|d b] Hl Heq; simpl in *; try done.
  simplify_eq. destruct (IH b) as [-> ->]; auto.
Qed.
Lemma remove_dashes_uuid a b c d e :
  uuid_group 8 a → uuid_group 4 b → uuid_group 4 c → uuid_group 4 d → uuid_group 12 e →
  remove_dashes (a ++ "-" ++ b ++ "-" ++ c ++ "-" ++ d ++ "-" ++ e)%string =
  (a ++ b ++ c ++ d ++ e)%string.
Proof.
  intros [_ Ha] [_ Hb] [_ Hc] [_ Hd] [_ He].
  repeat (rewrite remove_dashes_app; simpl). by rewrite !remove_dashes_hex.
Qed.
Lemma remove_dashes_inj s t :
  canonical_uuid s → canonical_uuid t → remove_dashes s = remove_dashes t → s = t.
Proof.
  intros (a&b&c&d&e&->&Ha&Hb&Hc&Hd&He) (a'&b'&c'&d'&e'&->&Ha'&Hb'&Hc'&Hd'&He').
  rewrite !remove_dashes_uuid by done. intros Heq.
  apply app_string_inj in Heq as [-> Heq]; [|destruct Ha, Ha'; congruence].
  apply app_string_inj in Heq as [-> Heq]; [|destruct Hb, Hb'; congruence].
  apply app_string_inj in Heq as [-> Heq]; [|destruct Hc, Hc'; congruence].
  apply app_string_inj in Heq as [-> ->]; [done|destruct Hd, Hd'; congruence].
Qed.
Lemma is_hex_alnum c : is_hex c = true → is_alnum c = true.
Proof.
  unfold is_hex, is_alnum, is_lower, in_range. intros Hc.
  apply orb_true_iff in Hc as [->|Hc]; [done|]. split_bool.
  apply orb_true_iff. right. apply andb_true_iff.
  change (code "a") with 97 in *. change (code "f") with 102 in *.
  change (code "z") with 122 in *. split; apply Z.leb_le; lia.
Qed.

Lemma outbox_job_id_inj s t :
  canonical_uuid s → canonical_uuid t → outbox_job_id s = outbox_job_id t → s = t.
Proof.
  intros Hs Ht Heq. apply remove_dashes_inj; [done..|].
  by apply app_string_inj in Heq as [_ ?].
Qed.
Lemma outbox_job_id_valid s : canonical_uuid s → valid_job_id (outbox_job_id s) = true.
Proof.
  intros (a&b&c&d&e&->&Ha&Hb&Hc&Hd&He). unfold outbox_job_id. rewrite remove_dashes_uuid by done.
  destruct Ha as [La Ha], Hb as [Lb Hb], Hc as [Lc Hc], Hd as [Ld Hd], He as [Le He].
  unfold valid_job_id, text. rewrite !slen_app, !all_chars_app. unfold slen.
  rewrite La, Lb, Lc, Ld, Le. simpl.
  assert (Hx : ∀ x, all_chars is_hex x = true →
    all_chars (λ c, is_alnum c || Ascii.eqb c "_" || Ascii.eqb c "-") x = true).
  { intros x. apply all_chars_impl. intros k Hk. by rewrite (is_hex_alnum k Hk). }
  by rewrite !Hx.
Qed.

(** ** Jobs of the outbox *)
Section jobs.
Context `{ZodFormats} {Q : Type} `{JobQueueLaws Q}.

(** A job the catalogue adds reads back as the event it is for, under an
    identifier that is valid and that no other event has. *)
Theorem outbox_job_faithful route event s s'
    (Hid : canonical_uuid (out_id event))
    (Hrun : addOutboxJob route event s = (Ok tt, s')) :
  (queue_job (rt_queueName route) (outbox_job_id (out_id event)) (queues s) = None →
   ∃ j, queue_job (rt_queueName route) (outbox_job_id (out_id event)) (queues s') = Some j ∧
     qj_name j = rt_jobName route ∧
     backgroundJobDataSchema (qj_data j) = Some (outbox_job_data event)) ∧
  valid_job_id (outbox_job_id (out_id event)) = true ∧
  ∀ id, canonical_uuid id → outbox_job_id id = outbox_job_id (out_id event) →
    id = out_id event.
Proof using Type*.
  unfold addOutboxJob in Hrun. apply bind_Ok in Hrun as (data&s1&Hp&Hrun).
  apply lift_Ok in Hp as [Hp ->]. apply parse_Ok in Hp. rewrite job_data_exact in Hp.
  destruct (valid_job_data (outbox_job_data event)) eqn:Hv; simplify_eq.
  apply on_queues_Ok in Hrun as [Hadd _]. split_and!.
  - intros Hnone. destruct (add_stores _ _ _ _ _ _ Hadd) as (j&Hj&Hnew).
    destruct (Hnew Hnone) as [Hname Hdata]. exists j. split_and!; [exact Hj|done|].
    by rewrite Hdata, job_data_exact, Hv.
  - by apply outbox_job_id_valid.
  - intros id Hc Heq. by apply outbox_job_id_inj.
Qed.
End jobs.

(** ** A job *)
Definition sample_uuid : string := "00000000-0000-4000-8000-00000000000a".
Definition uuid_event : OutboxEvent :=
  pending_event sample_uuid "SERVICE" sample_uuid "HOSTING_SUSPENSION_REQUESTED" "k" JNull 0 0.
Definition empty_stack : Stack MemoryQueue :=
  MkStack (MkWorld empty_db (λ n, Nat.iter n (String "i") "d") 0 (λ n, Z.of_nat n) 0 [])
    (λ _ _, None).
Definition suspension_route : OutboxQueueRoute :=
  MkRoute QueueName.hosting_suspension "suspend-hosting".
Lemma sample_uuid_canonical : canonical_uuid sample_uuid.
Proof.
  exists "00000000", "0000", "4000", "8000", "00000000000a". by split_and!.
Qed.
Lemma outbox_job_faithful_witness :
  canonical_uuid sample_uuid ∧
  ∃ s' j, @addOutboxJob all_formats _ memory_queue suspension_route uuid_event empty_stack
            = (Ok tt, s') ∧
    queue_job QueueName.hosting_suspension (outbox_job_id sample_uuid) (queues s') = Some j ∧
    @backgroundJobDataSchema all_formats (qj_data j) = Some (outbox_job_data uuid_event).
Proof.
  split; [apply sample_uuid_canonical|].
  set (m := @addOutboxJob all_formats _ memory_queue suspension_route uuid_event).
  assert (Hrun : m empty_stack = (Ok tt, snd (m empty_stack))) by (apply run_outcome; reflexivity).
  destruct (@outbox_job_faithful all_formats _ _ memory_queue_laws suspension_route uuid_event
    empty_stack _ sample_uuid_canonical Hrun) as [Hj _].
  destruct (Hj eq_refl) as (j&Hj'&_&Hd). exists (snd (m empty_stack)), j.
  split_and!; [exact Hrun|exact Hj'|exact Hd].
Defined.
