(* ===== verification/Payments.v ===== *)
(** * The manual payment service

    apps/api/src/modules/payments/payment.service.ts,
    apps/api/src/modules/payments/partial-payment-policy.ts and
    packages/shared/src/contracts/payments.ts.  As in Invoices, a transaction
    that depends on a row read before it is a definition of its own. *)
From S2P Require Import Prelude JsString JsDate Json Money States Database InvoiceNumber InvoiceTotals Invoices.

(** [createHash('sha256').update(s).digest('hex')] of node:crypto. *)
Class Sha256 := sha256_hex : string → string.
(** A digest to evaluate examples with. *)
Definition plain_sha : Sha256 := λ s, s.

(** ** contracts/payments.ts *)
Inductive ManualPaymentMethod :=
| BANK_TRANSFER | MOBILE_FINANCIAL_SERVICE | CASH | OTHER.
Definition method_name (m : ManualPaymentMethod) : string :=
  match m with
  | BANK_TRANSFER => "BANK_TRANSFER"
  | MOBILE_FINANCIAL_SERVICE => "MOBILE_FINANCIAL_SERVICE"
  | CASH => "CASH" | OTHER => "OTHER"
  end.
Definition manualPaymentMethodSchema (s : option string) : option ManualPaymentMethod :=
  s ← s;
  List.find (λ m, String.eqb (method_name m) s)
    [BANK_TRANSFER; MOBILE_FINANCIAL_SERVICE; CASH; OTHER].
Inductive ManualPaymentState := PENDING | VERIFIED | REJECTED | REFUNDED | REVERSED.
#[export] Instance ManualPaymentState_eq_dec : EqDecision ManualPaymentState.
Proof. solve_decision. Defined.

Record ManualPaymentProof := MkProof
  { pf_method : ManualPaymentMethod; pf_reference : string; pf_payerName : option string;
    pf_note : option string; pf_paidAt : option Z }.
(** [SubmitManualPaymentRequest] and [RecordManualPaymentRequest]. *)
Record SubmitManualPaymentRequest := MkSubmit
  { sm_invoiceId : string; sm_payment : string; sm_submissionKey : string;
    sm_proof : ManualPaymentProof }.
Inductive ReviewManualPaymentRequest := VERIFY | REJECT (reason : string).
Inductive AdjustmentKind := REFUND | REVERSAL.
Definition of_adjustment (k : AdjustmentKind) : PaymentKind :=
  match k with REFUND => PaymentKind.REFUND | REVERSAL => PaymentKind.REVERSAL end.
Record CreatePaymentAdjustmentRequest := MkAdjustment
  { aj_kind : AdjustmentKind; aj_amount : string; aj_submissionKey : string;
    aj_reference : string; aj_note : option string }.

Definition paymentSettingsSchema : schema bool := λ v,
  o ← z_strict_object ["partialPaymentsEnabled"] v;
  z_bool (get "partialPaymentsEnabled" o).
Definition PARTIAL_PAYMENT_POLICY_CONFIRMATION : string := "CHANGE_PARTIAL_PAYMENT_POLICY".

(** [paymentInclude]: a payment with its invoice, the role of its author and
    its successful adjustments. *)
Record PaymentRecord := MkPaymentRecord
  { pr_payment : Payment; pr_invoice : Invoice; pr_createdByRole : option UserRole;
    pr_adjustments : list Payment }.
Definition adjustments_of (id : string) (d : Db) : list Payment :=
  rows (λ r, bool_decide (pay_originalPaymentId r = Some id) &&
             (pay_status r ==b PaymentStatus.SUCCEEDED)) (payments d).
(** The foreign key to the invoice makes the first lookup succeed. *)
Definition include_payment (d : Db) (r : Payment) : option PaymentRecord :=
  invoice ← invoices d !! pay_invoiceId r;
  Some (MkPaymentRecord r invoice (u ← pay_createdByUserId r; userRoles d !! u)
          (adjustments_of (pay_id r) d)).
Definition sum_amounts (l : list Payment) : Z := sum_of pay_amount l.

Record ManualPayment := MkManualPayment
  { mp_id : string; mp_invoiceId : string; mp_invoiceNumber : string;
    mp_customerId : string; mp_customerName : string;
    mp_originalPaymentId : option string; mp_kind : PaymentKind;
    mp_state : ManualPaymentState; mp_method : ManualPaymentMethod;
    mp_reference : string; mp_proof : option string * option string;
    mp_amount : SerializedMoney; mp_adjustedAmount : SerializedMoney;
    mp_refundableAmount : SerializedMoney; mp_submittedByRole : option UserRole;
    mp_failureReason : option string; mp_receivedAt : option string;
    mp_reviewedAt : option string; mp_verifiedAt : option string;
    mp_createdAt : string; mp_updatedAt : string }.
Record ManualPaymentCreationResult := MkPaymentResult
  { mr_payment : ManualPayment; mr_duplicate : bool }.

Definition payment_not_found : exn := not_found "Manual payment was not found.".
Definition concurrentReview : exn := conflict "The payment has already been reviewed.".
Definition PAYMENT_SETTINGS_KEY : string := "billing.manual-payments".
Definition normalizeReference (reference : string) : string := js_upper (js_trim reference).

(** The payer's name and the note of stored proof metadata. *)
Definition readProofMetadata (value : json) : option string * option string :=
  match value with
  | JObj record =>
      (match get "payerName" record with JStr s => Some s | _ => None end,
       match get "note" record with JStr s => Some s | _ => None end)
  | _ => (None, None)
  end.
Definition truthy_property (k : string) (v : option string) : list (string * json) :=
  match v with
  | Some s => if truthy s then [(k, JStr s)] else []
  | None => []
  end.
Definition proofMetadata (proof : ManualPaymentProof) : json :=
  JObj (truthy_property "payerName" (pf_payerName proof) ++
        truthy_property "note" (pf_note proof)).

Definition state (payment : Payment) : ManualPaymentState :=
  match pay_kind payment, pay_status payment with
  | PaymentKind.REFUND, _ => REFUNDED
  | PaymentKind.REVERSAL, _ => REVERSED
  | PaymentKind.CHARGE, PaymentStatus.PENDING => PENDING
  | PaymentKind.CHARGE, PaymentStatus.SUCCEEDED => VERIFIED
  | PaymentKind.CHARGE, _ => REJECTED
  end.
(** [stateWhere]: the rows a list filtered by state asks the database for. *)
Definition stateWhere (s : ManualPaymentState) (r : Payment) : bool :=
  match s with
  | PENDING => (pay_kind r ==b PaymentKind.CHARGE) && (pay_status r ==b PaymentStatus.PENDING)
  | VERIFIED =>
      (pay_kind r ==b PaymentKind.CHARGE) && (pay_status r ==b PaymentStatus.SUCCEEDED)
  | REJECTED =>
      (pay_kind r ==b PaymentKind.CHARGE) &&
      ((pay_status r ==b PaymentStatus.FAILED) || (pay_status r ==b PaymentStatus.CANCELLED))
  | REFUNDED =>
      (pay_kind r ==b PaymentKind.REFUND) && (pay_status r ==b PaymentStatus.SUCCEEDED)
  | REVERSED =>
      (pay_kind r ==b PaymentKind.REVERSAL) && (pay_status r ==b PaymentStatus.SUCCEEDED)
  end.

Section service.
Context `{ZodFormats} `{Sha256}.

Definition providerReference (method reference : string) : string :=
  sha256_hex (method ++ ":" ++ normalizeReference reference)%string.

(** ** Reading *)
(** [manualPaymentSchema] on a value built by [toPayment]. *)
Definition manual_payment_ok (v : ManualPayment) : bool :=
  zod_uuid (mp_id v) && zod_uuid (mp_invoiceId v) && text 1 32 (mp_invoiceNumber v) &&
  zod_uuid (mp_customerId v) && text 1 200 (mp_customerName v) &&
  match mp_originalPaymentId v with Some o => zod_uuid o | None => true end &&
  text 1 191 (mp_reference v) &&
  match (mp_proof v).1 with Some p => text 1 200 p | None => true end &&
  match (mp_proof v).2 with Some n => text 1 500 n | None => true end &&
  match mp_failureReason v with Some f => slen f <=? 500 | None => true end &&
  datetime_opt (mp_receivedAt v) && datetime_opt (mp_reviewedAt v) &&
  datetime_opt (mp_verifiedAt v) && zod_datetime (mp_createdAt v) &&
  zod_datetime (mp_updatedAt v).
Definition adjusted_amount (record : PaymentRecord) : Z :=
  if pay_kind (pr_payment record) ==b PaymentKind.CHARGE
  then sum_amounts (pr_adjustments record) else 0.
Definition refundable_amount (record : PaymentRecord) : Z :=
  let payment := pr_payment record in
  if (pay_kind payment ==b PaymentKind.CHARGE) &&
     (pay_status payment ==b PaymentStatus.SUCCEEDED)
  then pay_amount payment - adjusted_amount record else 0.
Definition toPayment (record : PaymentRecord) : result ManualPayment :=
  let payment := pr_payment record in
  let invoice := pr_invoice record in
  let metadata := readProofMetadata (pay_proofMetadata payment) in
  method ← of_option ZodError (manualPaymentMethodSchema (pay_manualMethod payment));
  amount ← serializeMoney (pay_amount payment) (pay_currency payment);
  adjusted ← serializeMoney (adjusted_amount record) (pay_currency payment);
  refundable ← serializeMoney (refundable_amount record) (pay_currency payment);
  reference ← of_option ZodError (pay_reference payment);
  let view := MkManualPayment (pay_id payment) (pay_invoiceId payment)
    (inv_invoiceNumber invoice) (inv_customerId invoice)
    (inv_customerNameSnapshot invoice) (pay_originalPaymentId payment)
    (pay_kind payment) (state payment) method reference metadata amount adjusted
    refundable (pr_createdByRole record) (pay_failureReason payment)
    (iso_opt (pay_receivedAt payment)) (iso_opt (pay_reviewedAt payment))
    (iso_opt (pay_verifiedAt payment)) (to_ISO_string (pay_createdAt payment))
    (to_ISO_string (pay_updatedAt payment)) in
  _ ← throw_unless (manual_payment_ok view) ZodError;
  Ok view.
Definition find_payment_by_key (key : string) : Io (option PaymentRecord) :=
  read (λ d, r ← find_unique (payments d) pay_idempotencyKey key; include_payment d r).
Definition get_payment_record (paymentId : string) : Io PaymentRecord :=
  found ← read (λ d, r ← payments d !! paymentId;
                     if String.eqb (pay_provider r) "manual" then include_payment d r
                     else None);
  lift (of_option payment_not_found found).
Definition get_payment_unchecked (paymentId : string) : Io ManualPayment :=
  record ← get_payment_record paymentId;
  lift (toPayment record).
Definition get_payment (paymentId : string) (actor : Identity)
    (customerId : option string) : Io ManualPayment :=
  payment ← get_payment_record paymentId;
  let owner := inv_customerId (pr_invoice payment) in
  _ ← require (match customerId with
               | Some c => negb (truthy c && negb (String.eqb (js_lower owner) (js_lower c)))
               | None => true
               end) payment_not_found;
  _ ← require (match actor with
               | CustomerIdentity _ c => String.eqb owner c
               | AdminIdentity _ => true
               end) (forbidden "You do not have access to this payment.");
  lift (toPayment payment).

Definition readSettings : Io bool :=
  setting ← find_setting PAYMENT_SETTINGS_KEY;
  mret (default false (v ← setting; paymentSettingsSchema v)).

(** ** Charges *)
Definition assertPayableAmount (invoice : Invoice) (amount : Z) : Io unit :=
  _ ← require ((inv_status invoice ==b InvoiceStatus.UNPAID) ||
               (inv_status invoice ==b InvoiceStatus.OVERDUE))
        (unprocessable "Only an unpaid or overdue invoice can be paid.");
  _ ← require ((0 <? amount) && (amount <=? inv_balanceDue invoice))
        (unprocessable "Payment amount exceeds the invoice balance.");
  partialPaymentsEnabled ← readSettings;
  require (partialPaymentsEnabled || (amount =? inv_balanceDue invoice))
    (unprocessable
      "Partial payments are disabled; the payment must equal the full balance.").

Definition validateReceivedAt (proof : ManualPaymentProof) : Io unit :=
  match pf_paidAt proof with
  | None => mret tt
  | Some paidAt =>
      now ← new_date;
      require (paidAt <=? now + 5 * 60 * 1000)
        (unprocessable "Payment date cannot be in the future.")
  end.
(** [chargeData], and the columns [recordManual] adds when verified. *)
Definition chargeData (input : SubmitManualPaymentRequest) (actorUserId : string)
    (verified : option Z) (currency : string) : Io Payment :=
  let proof := sm_proof input in
  receivedAt ← match pf_paidAt proof with Some t => mret t | None => new_date end;
  id ← random_uuid;
  now ← new_date;
  let is_verified := bool_decide (is_Some verified) in
  mret (MkPayment id (sm_invoiceId input) None (Some actorUserId)
    (if is_verified then Some actorUserId else None) PaymentKind.CHARGE
    (if is_verified then PaymentStatus.SUCCEEDED else PaymentStatus.PENDING) "manual"
    (if is_verified
     then Some (providerReference (method_name (pf_method proof)) (pf_reference proof))
     else None)
    (sm_submissionKey input) (string_to_Z (sm_payment input)) currency
    (Some (pf_reference proof)) None None (Some (method_name (pf_method proof)))
    (proofMetadata proof) None (Some receivedAt) verified verified now now).

Definition renewal_line (invoiceId : string) (r : InvoiceItem) : bool :=
  String.eqb (ii_invoiceId r) invoiceId && bool_decide (is_Some (ii_serviceId r)) &&
  bool_decide (is_Some (ii_servicePeriodStart r)) &&
  bool_decide (is_Some (ii_servicePeriodEnd r)).
Definition payment_event (eventType key paymentId invoiceId : string) : Io unit :=
  create_outbox "PAYMENT" paymentId eventType (key ++ paymentId)%string
    (JObj [("schemaVersion", JNum 1); ("paymentId", JStr paymentId);
           ("invoiceId", JStr invoiceId)]).
Definition mark_order_paid (orderId : option string) (fullyPaid : bool)
    (invoiceId paymentId : string) (actor : Identity)
    (context : SecurityRequestContext) : Io unit :=
  match orderId with
  | Some orderId =>
      when fullyPaid (
        paidOrder ← update_order_if orderId
          (λ o, ord_status o ==b OrderStatus.AWAITING_PAYMENT)
          (λ o, o <| ord_status := OrderStatus.PAID |>);
        when (paidOrder =? 1)
          (log_activity (admin_log actor context "ORDER_MARKED_PAID_BY_VERIFIED_PAYMENT"
             "ORDER" (Some orderId)
             (JObj [("invoiceId", JStr invoiceId); ("paymentId", JStr paymentId)]))))
  | None => mret tt
  end.
Definition settle_invoice (invoice : Invoice) (amount now : Z) (r : Invoice) : Invoice :=
  let balanceDue := inv_balanceDue invoice - amount in
  let r := r <| inv_amountPaid := inv_amountPaid invoice + amount |>
             <| inv_balanceDue := balanceDue |>
             <| inv_status := if balanceDue =? 0 then InvoiceStatus.PAID
                              else inv_status invoice |> in
  if balanceDue =? 0 then r <| inv_paidAt := Some now |> else r.
Definition applyVerifiedCharge (invoice : Invoice) (paymentId : string) (amount : Z)
    (actor : Identity) (context : SecurityRequestContext) (now : Z) (source : UserRole)
    : Io unit :=
  let balanceDue := inv_balanceDue invoice - amount in
  let fullyPaid := balanceDue =? 0 in
  _ ← update_invoice (inv_id invoice) (settle_invoice invoice amount now);
  _ ← mark_order_paid (inv_orderId invoice) fullyPaid (inv_id invoice) paymentId actor
        context;
  _ ← payment_event "EMAIL_PAYMENT_RECEIVED" "email:payment-received:" paymentId
        (inv_id invoice);
  lines ← read (λ d, count_rows (renewal_line (inv_id invoice)) (invoiceItems d));
  _ ← when (fullyPaid && (0 <? lines))
        (payment_event "RENEWAL_PAYMENT_COMPLETED" "renewal-payment:" paymentId
           (inv_id invoice));
  log_activity (admin_log actor context
    (match source with
     | UserRole.ADMIN => "MANUAL_PAYMENT_RECORDED_BY_ADMIN"
     | UserRole.CUSTOMER => "MANUAL_PAYMENT_VERIFIED_BY_ADMIN"
     end) "PAYMENT" (Some paymentId)
    (JObj [("invoiceId", JStr (inv_id invoice)); ("amount", JStr (Z_to_string amount));
           ("balanceDue", JStr (Z_to_string balanceDue))])).

(** ** Repeated submissions *)
Definition duplicateChargeResult (payment : PaymentRecord)
    (input : SubmitManualPaymentRequest) (submittedByRole : UserRole)
    (customerId : option string) : result ManualPaymentCreationResult :=
  let stored := pr_payment payment in
  let proof := sm_proof input in
  let metadata := readProofMetadata (pay_proofMetadata stored) in
  let same :=
    (pay_kind stored ==b PaymentKind.CHARGE) &&
    String.eqb (pay_invoiceId stored) (sm_invoiceId input) &&
    match customerId with
    | Some c => negb (truthy c) || String.eqb (inv_customerId (pr_invoice payment)) c
    | None => true
    end &&
    bool_decide (pr_createdByRole payment = Some submittedByRole) &&
    (pay_amount stored =? string_to_Z (sm_payment input)) &&
    bool_decide (pay_manualMethod stored = Some (method_name (pf_method proof))) &&
    bool_decide (pay_reference stored = Some (pf_reference proof)) &&
    bool_decide (metadata.1 = pf_payerName proof) &&
    bool_decide (metadata.2 = pf_note proof) &&
    match pf_paidAt proof with
    | Some t => bool_decide (pay_receivedAt stored = Some t)
    | None => true
    end in
  if same then
    view ← toPayment payment;
    Ok (MkPaymentResult view true)
  else Err (conflict "This submission key has already been used for another payment.").
Definition duplicateAdjustmentResult (payment : PaymentRecord)
    (originalPaymentId : string) (input : CreatePaymentAdjustmentRequest)
    : result ManualPaymentCreationResult :=
  let stored := pr_payment payment in
  let metadata := readProofMetadata (pay_proofMetadata stored) in
  if negb (bool_decide (pay_originalPaymentId stored = Some originalPaymentId)) ||
     negb (pay_kind stored ==b of_adjustment (aj_kind input)) ||
     negb (pay_amount stored =? string_to_Z (aj_amount input)) ||
     negb (bool_decide (pay_reference stored = Some (aj_reference input))) ||
     negb (bool_decide (metadata.2 = aj_note input))
  then Err (conflict "This submission key has already been used for another adjustment.")
  else
    view ← toPayment payment;
    Ok (MkPaymentResult view true).
Definition handleCreationError (error : exn) (input : SubmitManualPaymentRequest)
    (submittedByRole : UserRole) (customerId : option string)
    : Io ManualPaymentCreationResult :=
  if is_unique_violation error then
    raced ← find_payment_by_key (sm_submissionKey input);
    match raced with
    | Some raced => lift (duplicateChargeResult raced input submittedByRole customerId)
    | None => throw (conflict "This manual payment reference has already been recorded.")
    end
  else throw error.

(** ** Operations *)
Definition submitManual_tx (input : SubmitManualPaymentRequest)
    (actorUserId customerId : string) (context : SecurityRequestContext)
    : Io (string + ManualPaymentCreationResult) :=
  _ ← lock_row "invoices" (sm_invoiceId input);
  found ← read (λ d, invoices d !! sm_invoiceId input);
  invoice ← lift (of_option payment_not_found
    (r ← found; if String.eqb (inv_customerId r) customerId then Some r else None));
  raced ← find_payment_by_key (sm_submissionKey input);
  match raced with
  | Some raced =>
      view ← lift (duplicateChargeResult raced input UserRole.CUSTOMER (Some customerId));
      mret (inr view)
  | None =>
      _ ← assertPayableAmount invoice (string_to_Z (sm_payment input));
      pending ← read (λ d, rows (λ r,
        String.eqb (pay_invoiceId r) (inv_id invoice) &&
        String.eqb (pay_provider r) "manual" && (pay_kind r ==b PaymentKind.CHARGE) &&
        (pay_status r ==b PaymentStatus.PENDING) &&
        bool_decide (pay_manualMethod r =
                     Some (method_name (pf_method (sm_proof input))))) (payments d));
      let reference := normalizeReference (pf_reference (sm_proof input)) in
      _ ← require (negb (existsb (λ r,
            match pay_reference r with
            | Some s => String.eqb (normalizeReference s) reference
            | None => false
            end) pending)) (conflict
        "This payment reference is already awaiting verification for this invoice.");
      payment ← chargeData input actorUserId None (inv_currency invoice);
      _ ← create_payment payment;
      _ ← log_activity (MkActivityLog (Some actorUserId)
            "MANUAL_PAYMENT_SUBMITTED_BY_CUSTOMER" "PAYMENT" (Some (pay_id payment)) None
            (Some (ipAddressHash context))
            (JObj [("invoiceId", JStr (inv_id invoice));
                   ("amount", JStr (sm_payment input));
                   ("method", JStr (method_name (pf_method (sm_proof input))))]));
      mret (inl (pay_id payment))
  end.
Definition submitManual (input : SubmitManualPaymentRequest) (actor : Identity)
    (context : SecurityRequestContext) : Io ManualPaymentCreationResult :=
  match actor with
  | AdminIdentity _ => throw (JsError "Unreachable role")
  | CustomerIdentity actorUserId customerId =>
      duplicate ← find_payment_by_key (sm_submissionKey input);
      match duplicate with
      | Some duplicate =>
          lift (duplicateChargeResult duplicate input UserRole.CUSTOMER (Some customerId))
      | None =>
          _ ← validateReceivedAt (sm_proof input);
          catch
            (result ← transaction (submitManual_tx input actorUserId customerId context);
             match result with
             | inr view => mret view
             | inl id => view ← get_payment_unchecked id; mret (MkPaymentResult view false)
             end)
            (λ error, handleCreationError error input UserRole.CUSTOMER (Some customerId))
      end
  end.

Definition recordManual_tx (input : SubmitManualPaymentRequest) (actor : Identity)
    (context : SecurityRequestContext) : Io string :=
  _ ← lock_row "invoices" (sm_invoiceId input);
  found ← read (λ d, invoices d !! sm_invoiceId input);
  invoice ← lift (of_option invoice_not_found found);
  let amount := string_to_Z (sm_payment input) in
  _ ← assertPayableAmount invoice amount;
  now ← new_date;
  payment ← chargeData input (userId actor) (Some now) (inv_currency invoice);
  _ ← create_payment payment;
  _ ← applyVerifiedCharge invoice (pay_id payment) amount actor context now UserRole.ADMIN;
  mret (pay_id payment).
Definition recordManual (input : SubmitManualPaymentRequest) (actor : Identity)
    (context : SecurityRequestContext) : Io ManualPaymentCreationResult :=
  duplicate ← find_payment_by_key (sm_submissionKey input);
  match duplicate with
  | Some duplicate => lift (duplicateChargeResult duplicate input UserRole.ADMIN None)
  | None =>
      _ ← validateReceivedAt (sm_proof input);
      catch
        (paymentId ← transaction (recordManual_tx input actor context);
         view ← get_payment_unchecked paymentId;
         mret (MkPaymentResult view false))
        (λ error, handleCreationError error input UserRole.ADMIN None)
  end.

(** A manual charge awaiting review. *)
Definition reviewable (r : Payment) : bool :=
  (pay_kind r ==b PaymentKind.CHARGE) && (pay_status r ==b PaymentStatus.PENDING).
Definition reject_tx (paymentId invoiceId reason : string) (actor : Identity)
    (context : SecurityRequestContext) : Io unit :=
  now ← new_date;
  rejected ← update_payment_if paymentId
    (λ r, String.eqb (pay_provider r) "manual" && reviewable r)
    (λ r, r <| pay_status := PaymentStatus.FAILED |> <| pay_failureReason := Some reason |>
            <| pay_reviewedByUserId := Some (userId actor) |>
            <| pay_reviewedAt := Some now |>);
  _ ← require (rejected =? 1) concurrentReview;
  log_activity (admin_log actor context "MANUAL_PAYMENT_REJECTED_BY_ADMIN" "PAYMENT"
    (Some paymentId) (JObj [("invoiceId", JStr invoiceId); ("reason", JStr reason)])).
Definition verify_tx (paymentId invoiceId : string) (actor : Identity)
    (context : SecurityRequestContext) : Io unit :=
  _ ← lock_row "invoices" invoiceId;
  foundPayment ← read (λ d, payments d !! paymentId);
  foundInvoice ← read (λ d, invoices d !! invoiceId);
  payment ← lift (of_option concurrentReview
    (r ← foundPayment; if reviewable r then Some r else None));
  invoice ← lift (of_option invoice_not_found foundInvoice);
  _ ← assertPayableAmount invoice (pay_amount payment);
  now ← new_date;
  verified ← update_payment_if (pay_id payment)
    (λ r, pay_status r ==b PaymentStatus.PENDING)
    (λ r, r <| pay_status := PaymentStatus.SUCCEEDED |>
            <| pay_providerTransactionId := Some
                 (providerReference (default "OTHER" (pay_manualMethod payment))
                                    (default "" (pay_reference payment))) |>
            <| pay_reviewedByUserId := Some (userId actor) |>
            <| pay_reviewedAt := Some now |> <| pay_verifiedAt := Some now |>);
  _ ← require (verified =? 1) concurrentReview;
  applyVerifiedCharge invoice (pay_id payment) (pay_amount payment) actor context now
    UserRole.CUSTOMER.
Definition review (paymentId : string) (input : ReviewManualPaymentRequest)
    (actor : Identity) (context : SecurityRequestContext) : Io ManualPayment :=
  found ← read (λ d, payments d !! paymentId);
  initial ← lift (of_option payment_not_found
    (r ← found; if String.eqb (pay_provider r) "manual" then Some r else None));
  _ ← require (reviewable initial)
        (unprocessable "Only a pending manual payment can be reviewed.");
  match input with
  | REJECT reason =>
      _ ← transaction (reject_tx paymentId (pay_invoiceId initial) reason actor context);
      get_payment_unchecked paymentId
  | VERIFY =>
      _ ← catch (transaction (verify_tx paymentId (pay_invoiceId initial) actor context))
            (λ error,
              if is_unique_violation error
              then throw (conflict
                "This manual payment reference has already been verified.")
              else throw error);
      get_payment_unchecked paymentId
  end.

Definition adjusted_invoice (invoice : Invoice) (amount : Z) (r : Invoice) : Invoice :=
  let amountPaid := inv_amountPaid invoice - amount in
  r <| inv_amountPaid := amountPaid |>
    <| inv_balanceDue := inv_balanceDue invoice + amount |>
    <| inv_status := if amountPaid =? 0 then InvoiceStatus.REFUNDED
                     else InvoiceStatus.PARTIALLY_REFUNDED |>.
Definition adjust_tx (originalPaymentId invoiceId : string)
    (input : CreatePaymentAdjustmentRequest) (actor : Identity)
    (context : SecurityRequestContext) : Io string :=
  _ ← lock_row "invoices" invoiceId;
  foundOriginal ← read (λ d, payments d !! originalPaymentId);
  adjustments ← read (adjustments_of originalPaymentId);
  foundInvoice ← read (λ d, invoices d !! invoiceId);
  original ← lift (of_option
    (unprocessable "Only a verified original manual charge can be adjusted.")
    (r ← foundOriginal;
     if String.eqb (pay_provider r) "manual" && (pay_kind r ==b PaymentKind.CHARGE) &&
        (pay_status r ==b PaymentStatus.SUCCEEDED) then Some r else None));
  invoice ← lift (of_option invoice_not_found foundInvoice);
  let adjusted := sum_amounts adjustments in
  let remaining := pay_amount original - adjusted in
  let amount := string_to_Z (aj_amount input) in
  _ ← require (negb ((remaining <? amount) || (inv_amountPaid invoice <? amount)))
        (unprocessable "Adjustment exceeds the remaining verified payment amount.");
  now ← new_date;
  id ← random_uuid;
  created ← new_date;
  let method := default "OTHER" (pay_manualMethod original) in
  _ ← create_payment (MkPayment id (inv_id invoice) (Some (pay_id original))
        (Some (userId actor)) (Some (userId actor)) (of_adjustment (aj_kind input))
        PaymentStatus.SUCCEEDED "manual"
        (Some (providerReference method (aj_reference input)))
        (aj_submissionKey input) amount (inv_currency invoice)
        (Some (aj_reference input)) None None (Some method)
        (JObj (truthy_property "note" (aj_note input))) None (Some now) (Some now)
        (Some now) created created);
  _ ← update_invoice (inv_id invoice) (adjusted_invoice invoice amount);
  _ ← log_activity (admin_log actor context
        (match aj_kind input with
         | REFUND => "MANUAL_PAYMENT_REFUNDED_BY_ADMIN"
         | REVERSAL => "MANUAL_PAYMENT_REVERSED_BY_ADMIN"
         end) "PAYMENT" (Some id)
        (JObj [("invoiceId", JStr (inv_id invoice));
               ("originalPaymentId", JStr (pay_id original));
               ("amount", JStr (aj_amount input))]));
  mret id.
Definition adjust (originalPaymentId : string) (input : CreatePaymentAdjustmentRequest)
    (actor : Identity) (context : SecurityRequestContext)
    : Io ManualPaymentCreationResult :=
  duplicate ← find_payment_by_key (aj_submissionKey input);
  match duplicate with
  | Some duplicate => lift (duplicateAdjustmentResult duplicate originalPaymentId input)
  | None =>
      found ← read (λ d, payments d !! originalPaymentId);
      originalLocator ← lift (of_option payment_not_found found);
      catch
        (adjustmentId ← transaction (adjust_tx originalPaymentId
                          (pay_invoiceId originalLocator) input actor context);
         view ← get_payment_unchecked adjustmentId;
         mret (MkPaymentResult view false))
        (λ error,
          if is_unique_violation error then
            raced ← find_payment_by_key (aj_submissionKey input);
            match raced with
            | Some raced => lift (duplicateAdjustmentResult raced originalPaymentId input)
            | None => throw (conflict
                "This manual payment reference has already been recorded.")
            end
          else throw error)
  end.

(** partial-payment-policy.ts *)
Definition updatePartialPaymentPolicy (enabled : bool) (confirmation : option string)
    (actor : Identity) (context : SecurityRequestContext) : Io unit :=
  _ ← lock_row "settings" PAYMENT_SETTINGS_KEY;
  stored ← find_setting PAYMENT_SETTINGS_KEY;
  let previous := default false (v ← stored; paymentSettingsSchema v) in
  if Bool.eqb previous enabled then mret tt
  else
    _ ← require (bool_decide (confirmation = Some PARTIAL_PAYMENT_POLICY_CONFIRMATION))
          (unprocessable
            "Review and confirm the partial-payment policy change before saving.");
    let value := JObj [("partialPaymentsEnabled", JBool enabled)] in
    _ ← write (λ d, d <| settings := <[PAYMENT_SETTINGS_KEY :=
           MkSetting value "BILLING"
             match settings d !! PAYMENT_SETTINGS_KEY with
             | Some s => set_description s
             | None => Some "Manual payment policy."
             end (Some (userId actor))]> (settings d) |>);
    log_activity (admin_log actor context "MANUAL_PAYMENT_POLICY_CHANGED_BY_ADMIN"
      "SETTING" None (JObj [("previousPartialPaymentsEnabled", JBool previous);
                            ("partialPaymentsEnabled", JBool enabled)])).
Definition updateSettings (enabled : bool) (confirmation : option string)
    (actor : Identity) (context : SecurityRequestContext) : Io bool :=
  _ ← transaction (updatePartialPaymentPolicy enabled confirmation actor context);
  mret enabled.
End service.
