(* ===== verification/Gateways.v ===== *)
(** * Payment gateways

    apps/api/src/modules/payment-gateways/payment-gateway.service.ts with its
    registry and interface, and packages/shared/src/contracts/payment-gateways.ts.
    An adapter is a value of [PaymentGateway]: its methods wait for a provider,
    so other requests may commit while they run, and they are computations over
    the whole world.  GatewayAdapters models what the bKash and SSLCOMMERZ
    adapters make of an answer. *)
From S2P Require Import Prelude JsString JsDate Json Money States Database InvoiceNumber InvoiceTotals Invoices Payments.

(** [new Date(s).getTime()]: [None] is [NaN].  Formats other than ISO are
    left to the engine by ECMA-262. *)
Class DateParser := date_of : string → option Z.
(** [z.url()] of the Zod package. *)
Class ZodUrl := zod_url : string → bool.

(** ** contracts/payment-gateways.ts *)
Module EventStatus.
Inductive EventStatus := PENDING | SUCCEEDED | FAILED.
#[global] Instance EventStatus_eq_dec : EqDecision EventStatus.
Proof. solve_decision. Defined.
Definition to_string (s : EventStatus) : string :=
  match s with PENDING => "PENDING" | SUCCEEDED => "SUCCEEDED" | FAILED => "FAILED" end.
End EventStatus.
Module ProviderStatus.
Inductive ProviderStatus := PENDING | SUCCEEDED | FAILED | REFUNDED.
#[global] Instance ProviderStatus_eq_dec : EqDecision ProviderStatus.
Proof. solve_decision. Defined.
Definition to_string (s : ProviderStatus) : string :=
  match s with
  | PENDING => "PENDING" | SUCCEEDED => "SUCCEEDED" | FAILED => "FAILED"
  | REFUNDED => "REFUNDED"
  end.
End ProviderStatus.
Notation EventStatus := EventStatus.EventStatus.
Notation ProviderStatus := ProviderStatus.ProviderStatus.

Record NormalizedPaymentEvent := MkEvent
  { ev_providerEventId : string; ev_eventType : string; ev_status : EventStatus;
    ev_merchantId : string; ev_paymentId : string; ev_invoiceId : string;
    ev_amount : string; ev_currency : string; ev_providerTransactionId : option string;
    ev_occurredAt : string; ev_failureReason : option string }.
#[export] Instance Event_rebuild : Rebuild NormalizedPaymentEvent := λ r,
  MkEvent (ev_providerEventId r) (ev_eventType r) (ev_status r) (ev_merchantId r)
    (ev_paymentId r) (ev_invoiceId r) (ev_amount r) (ev_currency r)
    (ev_providerTransactionId r) (ev_occurredAt r) (ev_failureReason r).

(** [paymentGatewayProviderSchema], on a trimmed string. *)
Definition is_provider_key (s : string) : bool :=
  match s with
  | EmptyString => false
  | String c t =>
      is_lower c && (slen t <=? 63) &&
      all_chars (λ c, is_lower c || is_digit c || Ascii.eqb c "-") t
  end.

Record CreatePaymentSessionRequest := MkSessionRequest
  { sr_invoiceId : string; sr_submissionKey : string }.
Record PaymentSession := MkSession
  { ps_paymentId : string; ps_invoiceId : string; ps_provider : string;
    ps_providerSessionId : string; ps_checkoutUrl : string; ps_amount : SerializedMoney;
    ps_expiresAt : string; ps_duplicate : bool }.
Inductive WebhookStatus := WebhookProcessed | WebhookIgnored.
Record PaymentWebhookResult := MkWebhookResult
  { wr_duplicate : bool; wr_providerEventId : string; wr_status : WebhookStatus }.

Section schemas.
Context `{ZodFormats} `{ZodUrl}.

Definition opt_ok (p : string → bool) (s : option string) : bool :=
  match s with Some s => p s | None => true end.
Definition event_ok (e : NormalizedPaymentEvent) : bool :=
  text 1 191 (ev_providerEventId e) && text 1 100 (ev_eventType e) &&
  text 1 191 (ev_merchantId e) && zod_uuid (ev_paymentId e) &&
  zod_uuid (ev_invoiceId e) && canonical_decimal (ev_amount e) &&
  fitsPostgresBigint (ev_amount e) && negb (String.eqb (ev_amount e) "0") &&
  is_currency_code (ev_currency e) && opt_ok (text 1 191) (ev_providerTransactionId e) &&
  zod_datetime (ev_occurredAt e) && opt_ok (text 1 500) (ev_failureReason e).
(** [normalizedPaymentEventSchema.parse] on an object of the right shape. *)
Definition normalizedPaymentEvent (e : NormalizedPaymentEvent)
    : result NormalizedPaymentEvent :=
  let e := e <| ev_failureReason := js_trim <$> ev_failureReason e |> in
  _ ← throw_unless (event_ok e) ZodError;
  Ok e.
Definition session_ok (s : PaymentSession) : bool :=
  zod_uuid (ps_paymentId s) && zod_uuid (ps_invoiceId s) &&
  is_provider_key (ps_provider s) && text 1 191 (ps_providerSessionId s) &&
  zod_url (ps_checkoutUrl s) && zod_datetime (ps_expiresAt s).
(** [paymentSessionSchema.parse] and [paymentWebhookResultSchema.parse]. *)
Definition paymentSession (s : PaymentSession) : result PaymentSession :=
  let s := MkSession (ps_paymentId s) (ps_invoiceId s) (js_trim (ps_provider s))
    (ps_providerSessionId s) (ps_checkoutUrl s) (ps_amount s) (ps_expiresAt s)
    (ps_duplicate s) in
  _ ← throw_unless (session_ok s) ZodError;
  Ok s.
Definition paymentWebhookResult (r : PaymentWebhookResult) : result PaymentWebhookResult :=
  _ ← throw_unless (text 1 191 (wr_providerEventId r)) ZodError;
  Ok r.
End schemas.

(** ** payment-gateway.interface.ts *)
Record CustomerAddress := MkAddress
  { ad_line1 : string; ad_line2 : option string; ad_city : string;
    ad_region : option string; ad_postalCode : option string; ad_countryCode : string }.
Record CreateGatewaySessionInput := MkGatewaySessionInput
  { gs_paymentId : string; gs_invoiceId : string; gs_invoiceNumber : string;
    gs_amount : Z; gs_currency : string; gs_customerName : string;
    gs_customerEmail : string; gs_customerAddress : CustomerAddress;
    gs_idempotencyKey : string }.
Record GatewayPaymentSession := MkGatewaySession
  { gp_providerSessionId : string; gp_checkoutUrl : string; gp_expiresAt : Z }.
Record GatewayTransactionStatus := MkTransactionStatus
  { ts_providerTransactionId : option string; ts_status : ProviderStatus;
    ts_amount : Z; ts_currency : string; ts_occurredAt : Z;
    ts_failureReason : option string }.
Record CompleteGatewaySessionInput := MkCompleteInput
  { cg_providerSessionId : string; cg_paymentId : string; cg_invoiceId : string;
    cg_amount : Z; cg_currency : string }.
Record PaymentGateway := MkGateway
  { gw_key : string; gw_displayName : string; gw_merchantId : string;
    createPaymentSession : CreateGatewaySessionInput → Io GatewayPaymentSession;
    verifyWebhookSignature : string → string → Io bool;
    normalizeProviderEvent : string → Io NormalizedPaymentEvent;
    queryTransactionStatus : string → Io GatewayTransactionStatus;
    extractProviderTransactionId : NormalizedPaymentEvent → option string;
    completePaymentSession :
      option (CompleteGatewaySessionInput → Io NormalizedPaymentEvent) }.

(** ** payment-gateway.registry.ts *)
Definition ACTIVE_PROVIDERS_KEY : string := "integration.active-providers".
Definition activeProviderSettingsSchema : schema string := λ v,
  o ← z_strict_object ["activeGateway"; "activeHostingPanelAdapter"] v;
  _ ← z_refine (λ s, existsb (String.eqb s) ["cpanel-whm"; "fake-panel"]) z_string
        (get "activeHostingPanelAdapter" o);
  z_refine (λ s, existsb (String.eqb s) ["manual"; "bkash"; "sslcommerz"; "fake"]) z_string
    (get "activeGateway" o).
Definition activeGateway : Io string :=
  setting ← find_setting ACTIVE_PROVIDERS_KEY;
  mret (default "manual" (v ← setting; activeProviderSettingsSchema v)).

(** The adapters, which of them have stored credentials
    ([IntegrationCredentialService.isConfigured]), and [NODE_ENV]. *)
Record PaymentGatewayRegistry := MkRegistry
  { reg_fake : PaymentGateway; reg_bkash : PaymentGateway; reg_sslcommerz : PaymentGateway;
    isConfigured : string → Io bool; production : bool }.
Definition gateway_not_found : exn := not_found "Payment gateway was not found.".
(** [provider === gateway.key && await this.credentials.isConfigured(name)]. *)
Definition configured (registry : PaymentGatewayRegistry) (provider name : string)
    (gateway : PaymentGateway) : Io bool :=
  if String.eqb provider (gw_key gateway) then isConfigured registry name else mret false.
Definition get_gateway (registry : PaymentGatewayRegistry) (provider : string)
    (activeOnly : bool) : Io PaymentGateway :=
  _ ← when activeOnly
        (active ← activeGateway; require (String.eqb active provider) gateway_not_found);
  bkash ← configured registry provider "bkash" (reg_bkash registry);
  if bkash : bool then mret (reg_bkash registry)
  else
    sslcommerz ← configured registry provider "sslcommerz" (reg_sslcommerz registry);
    if sslcommerz : bool then mret (reg_sslcommerz registry)
    else if String.eqb provider (gw_key (reg_fake registry)) && negb (production registry)
    then mret (reg_fake registry)
    else throw gateway_not_found.

(** ** payment-gateway.service.ts *)
Definition MAX_WEBHOOK_BYTES : Z := 256 * 1024.
Definition SESSION_CREATION_IN_PROGRESS : string := "Checkout creation is in progress.".
Definition webhookRejected (message : string) (signatureFailure : bool) : exn :=
  AppException (if signatureFailure then 401 else 422) "PAYMENT_WEBHOOK_REJECTED" message.
Definition service_unavailable (message : string) : exn :=
  AppException 503 "SERVICE_UNAVAILABLE" message.

(** [JSON.stringify] of a flat object of strings and nulls. *)
Definition double_quote : ascii := ascii_of_N 34.
Definition hex_digit (n : N) : ascii := ascii_of_N (if (n <? 10)%N then 48 + n else 87 + n).
Definition json_escape (c : ascii) : string :=
  let n := N_of_ascii c in
  if (n =? 34)%N then String "\" (String double_quote "")
  else if (n =? 92)%N then "\\"
  else if (n =? 8)%N then "\b" else if (n =? 9)%N then "\t"
  else if (n =? 10)%N then "\n" else if (n =? 12)%N then "\f"
  else if (n =? 13)%N then "\r"
  else if (n <? 32)%N then
    ("\u00" ++ String (hex_digit (n / 16)) (String (hex_digit (n mod 16)) ""))%string
  else String c "".
Fixpoint json_chars (s : string) : string :=
  match s with EmptyString => "" | String c s => (json_escape c ++ json_chars s)%string end.
Definition json_string (s : string) : string :=
  (String double_quote (json_chars s) ++ String double_quote "")%string.
Definition json_property (p : string * option string) : string :=
  (json_string p.1 ++ ":" ++
   match p.2 with Some s => json_string s | None => "null" end)%string.
Fixpoint json_properties (l : list (string * option string)) : string :=
  match l with
  | [] => ""
  | [p] => json_property p
  | p :: l => (json_property p ++ "," ++ json_properties l)%string
  end.
Definition json_flat (l : list (string * option string)) : string :=
  ("{" ++ json_properties l ++ "}")%string.

(** [normalizedPayload]: the properties of an event in the order the code lists them. *)
Definition payload_properties (e : NormalizedPaymentEvent) : list (string * option string) :=
  [("providerEventId", Some (ev_providerEventId e)); ("eventType", Some (ev_eventType e));
   ("status", Some (EventStatus.to_string (ev_status e)));
   ("merchantId", Some (ev_merchantId e)); ("paymentId", Some (ev_paymentId e));
   ("invoiceId", Some (ev_invoiceId e)); ("amount", Some (ev_amount e));
   ("currency", Some (ev_currency e));
   ("providerTransactionId", ev_providerTransactionId e);
   ("occurredAt", Some (ev_occurredAt e)); ("failureReason", ev_failureReason e)].
Definition normalizedPayload (e : NormalizedPaymentEvent) : json :=
  JObj ((λ p, (p.1, match p.2 with Some s => JStr s | None => JNull end)) <$>
        payload_properties e).

(** [customerAddress] of an invoice's snapshot. *)
Definition invalid_address : exn := unprocessable "Invoice billing address is invalid.".
Definition stringValue (value : list (string * json)) (key : string) (required : bool)
    : result (option string) :=
  let fallback := match get key value with
                  | JNull | JUndefined => negb required
                  | JStr s => negb required && negb (truthy s)
                  | _ => false
                  end in
  match get key value with
  | JStr s => if truthy (js_trim s) then Ok (Some (js_trim s))
              else if fallback then Ok None else Err invalid_address
  | _ => if fallback then Ok None else Err invalid_address
  end.
Definition customerAddress (value : json) : result CustomerAddress :=
  match value with
  | JObj o =>
      line1 ← stringValue o "line1" true;
      line2 ← stringValue o "line2" false;
      city ← stringValue o "city" true;
      region ← stringValue o "region" false;
      postalCode ← stringValue o "postalCode" false;
      countryCode ← stringValue o "countryCode" true;
      Ok (MkAddress (default "" line1) line2 (default "" city) region postalCode
            (default "" countryCode))
  | _ => Err invalid_address
  end.

(** [SessionPaymentRecord]: a payment with its invoice. *)
Record SessionPayment := MkSessionPayment { sp_payment : Payment; sp_invoice : Invoice }.
Definition findSessionPayment (idempotencyKey : string) : Io (option SessionPayment) :=
  read (λ d, r ← find_unique (payments d) pay_idempotencyKey idempotencyKey;
             invoice ← invoices d !! pay_invoiceId r;
             Some (MkSessionPayment r invoice)).
Definition canAccessInvoice (customerId : string) (actor : Identity) : bool :=
  match actor with
  | AdminIdentity _ => true
  | CustomerIdentity _ c => String.eqb c customerId
  end.
Definition assertMatchingSession (p : SessionPayment) (gateway : PaymentGateway)
    (input : CreatePaymentSessionRequest) (actor : Identity) : result unit :=
  let payment := sp_payment p in
  _ ← throw_unless
        (String.eqb (pay_invoiceId payment) (sr_invoiceId input) &&
         String.eqb (pay_provider payment) (gw_key gateway) &&
         bool_decide (pay_createdByUserId payment = Some (userId actor)) &&
         canAccessInvoice (inv_customerId (sp_invoice p)) actor)
        (conflict "This submission key has already been used for another payment session.");
  throw_unless (pay_status payment ==b PaymentStatus.PENDING)
    (conflict "This payment session has already reached a final state.").

Section service.
Context `{ZodFormats} `{ZodUrl} `{Sha256} `{DateParser}.

(** *** Sessions *)
Definition createSession_tx (gateway : PaymentGateway) (idempotencyKey : string)
    (input : CreatePaymentSessionRequest) (actor : Identity) : Io SessionPayment :=
  _ ← lock_row "invoices" (sr_invoiceId input);
  found ← read (λ d, invoices d !! sr_invoiceId input);
  invoice ← lift (of_option (not_found "Invoice was not found.")
    (r ← found; if canAccessInvoice (inv_customerId r) actor then Some r else None));
  _ ← require ((inv_status invoice ==b InvoiceStatus.UNPAID) ||
               (inv_status invoice ==b InvoiceStatus.OVERDUE))
        (unprocessable "Only an unpaid or overdue invoice can start a payment session.");
  _ ← require (negb (inv_balanceDue invoice <=? 0))
        (unprocessable "The invoice does not have a payable balance.");
  id ← random_uuid;
  now ← new_date;
  _ ← create_payment (MkPayment id (inv_id invoice) None (Some (userId actor)) None
        PaymentKind.CHARGE PaymentStatus.PENDING (gw_key gateway) None idempotencyKey
        (inv_balanceDue invoice) (inv_currency invoice) None None None None JNull None None
        None None now now);
  _ ← log_activity (MkActivityLog (Some (userId actor)) "GATEWAY_PAYMENT_SESSION_CREATED"
        "PAYMENT" (Some id) None None
        (JObj [("invoiceId", JStr (inv_id invoice)); ("provider", JStr (gw_key gateway));
               ("amount", JStr (Z_to_string (inv_balanceDue invoice)));
               ("currency", JStr (inv_currency invoice))]));
  created ← findSessionPayment idempotencyKey;
  lift (of_option (JsError "Created payment could not be loaded.") created).

(** The payment of a request: the one its key already has, or a new one. *)
Definition sessionPayment (gateway : PaymentGateway) (idempotencyKey : string)
    (input : CreatePaymentSessionRequest) (actor : Identity)
    : Io (SessionPayment * bool) :=
  found ← findSessionPayment idempotencyKey;
  match found with
  | Some payment =>
      _ ← lift (assertMatchingSession payment gateway input actor);
      mret (payment, true)
  | None =>
      catch
        (payment ← transaction (createSession_tx gateway idempotencyKey input actor);
         mret (payment, false))
        (λ error,
          if is_unique_violation error then
            raced ← findSessionPayment idempotencyKey;
            payment ← lift (of_option error raced);
            _ ← lift (assertMatchingSession payment gateway input actor);
            mret (payment, true)
          else throw error)
  end.

Definition session_view (gateway : PaymentGateway) (payment : Payment)
    (providerSessionId checkoutUrl : string) (expiresAt : Z) (duplicate : bool)
    : result PaymentSession :=
  amount ← serializeMoney (pay_amount payment) (pay_currency payment);
  paymentSession (MkSession (pay_id payment) (pay_invoiceId payment) (gw_key gateway)
    providerSessionId checkoutUrl amount (to_ISO_string expiresAt) duplicate).
(** The session an earlier request stored. *)
Definition stored_session (payment : Payment) : option (string * string * Z) :=
  reference ← pay_reference payment;
  url ← pay_providerCheckoutUrl payment;
  expiresAt ← pay_providerSessionExpiresAt payment;
  if truthy reference && truthy url then Some (reference, url, expiresAt) else None.

(** What is stored when a provider fails: its outcome decides the status. *)
Definition recordProviderFailure (paymentId message outcome : string) : Io unit :=
  update_payment paymentId (λ r,
    r <| pay_status := if String.eqb outcome "FAILED" then PaymentStatus.FAILED
                       else PaymentStatus.PENDING |>
      <| pay_failureReason := Some message |>).
Definition sessionFailed (paymentId : string) (error : exn) : Io GatewayPaymentSession :=
  let '(message, outcome) :=
    match error with
    | PaymentProviderError message outcome => (message, outcome)
    | _ => ("The payment provider returned an unexpected response. Reconciliation is required before retrying.",
            "UNKNOWN")
    end in
  _ ← recordProviderFailure paymentId message outcome;
  throw (service_unavailable message).
(** One request claims the payment before the provider is called. *)
Definition claimSession (paymentId : string) : Io Z :=
  update_payment_if paymentId
    (λ r, bool_decide (pay_reference r = None) && bool_decide (pay_failureReason r = None))
    (λ r, r <| pay_failureReason := Some SESSION_CREATION_IN_PROGRESS |>).
Definition storeSession (paymentId : string) (session : GatewayPaymentSession) : Io Z :=
  update_payment_if paymentId (λ r, bool_decide (pay_reference r = None))
    (λ r, r <| pay_reference := Some (gp_providerSessionId session) |>
            <| pay_providerCheckoutUrl := Some (gp_checkoutUrl session) |>
            <| pay_providerSessionExpiresAt := Some (gp_expiresAt session) |>
            <| pay_failureReason := None |>).

Definition openSession (gateway : PaymentGateway) (idempotencyKey : string)
    (p : SessionPayment) (duplicate : bool) : Io PaymentSession :=
  let payment := sp_payment p in
  let invoice := sp_invoice p in
  match (if duplicate then stored_session payment else None) with
  | Some (reference, url, expiresAt) =>
      now ← new_date;
      _ ← require (negb (expiresAt <=? now))
            (conflict "This checkout session has expired. Start a new payment attempt.");
      lift (session_view gateway payment reference url expiresAt true)
  | None =>
      address ← lift (customerAddress (inv_customerAddressSnapshot invoice));
      claimed ← claimSession (pay_id payment);
      _ ← require (claimed =? 1) (conflict
            "This checkout is already being created or requires administrator reconciliation.");
      session ← catch
        (createPaymentSession gateway (MkGatewaySessionInput (pay_id payment)
           (pay_invoiceId payment) (inv_invoiceNumber invoice) (pay_amount payment)
           (pay_currency payment) (inv_customerNameSnapshot invoice)
           (inv_customerEmailSnapshot invoice) address idempotencyKey))
        (sessionFailed (pay_id payment));
      _ ← storeSession (pay_id payment) session;
      lift (session_view gateway payment (gp_providerSessionId session)
              (gp_checkoutUrl session) (gp_expiresAt session) duplicate)
  end.
Definition session_key (provider submissionKey : string) : string :=
  ("gateway-session:" ++ provider ++ ":" ++ submissionKey)%string.
(** [createSession] once the gateway is known. *)
Definition startSession (gateway : PaymentGateway) (provider : string)
    (input : CreatePaymentSessionRequest) (actor : Identity) : Io PaymentSession :=
  let idempotencyKey := session_key provider (sr_submissionKey input) in
  '(payment, duplicate) ← sessionPayment gateway idempotencyKey input actor;
  openSession gateway idempotencyKey payment duplicate.
Definition createSession (registry : PaymentGatewayRegistry) (provider : string)
    (input : CreatePaymentSessionRequest) (actor : Identity) : Io PaymentSession :=
  gateway ← get_gateway registry provider true;
  startSession gateway provider input actor.

(** *** Events *)
Inductive WebhookTransactionResult :=
| Processed | Ignored | Rejected (message : string).

Definition rejectStoredEvent (paymentEventId message : string)
    : Io WebhookTransactionResult :=
  now ← new_date;
  _ ← update_payment_event paymentEventId (λ r,
        r <| pe_status := PaymentEventStatus.FAILED |>
          <| pe_errorMessage := Some message |> <| pe_processedAt := Some now |>);
  mret (Rejected message).

(** The provider's transaction identifier, unless it is absent or empty. *)
Definition transactionId (gateway : PaymentGateway) (event : NormalizedPaymentEvent)
    : option string :=
  t ← extractProviderTransactionId gateway event;
  if truthy t then Some t else None.
Definition recorded_elsewhere (provider transaction paymentId : string) (d : Db) : bool :=
  existsb (λ r, String.eqb (pay_provider r) provider &&
                bool_decide (pay_providerTransactionId r = Some transaction) &&
                negb (String.eqb (pay_id r) paymentId)) (rows (λ _, true) (payments d)).
(** [validateEvent]: why an event is refused. *)
Definition validateEvent (d : Db) (gateway : PaymentGateway)
    (event : NormalizedPaymentEvent) (invoice : option Invoice) (payment : option Payment)
    : option string :=
  match invoice, payment with
  | Some invoice, Some payment =>
      if negb (String.eqb (pay_invoiceId payment) (ev_invoiceId event)) ||
         negb (String.eqb (pay_provider payment) (gw_key gateway)) ||
         negb (pay_kind payment ==b PaymentKind.CHARGE)
      then Some "Invoice or payment identity is invalid."
      else if negb (String.eqb (Z_to_string (pay_amount payment)) (ev_amount event))
      then Some "Payment amount does not match the expected amount."
      else if negb (String.eqb (pay_currency payment) (ev_currency event)) ||
              negb (String.eqb (inv_currency invoice) (ev_currency event))
      then Some "Payment currency does not match the invoice currency."
      else if match transactionId gateway event with
              | Some t => recorded_elsewhere (gw_key gateway) t (pay_id payment) d
              | None => false
              end
      then Some "Provider transaction has already been recorded."
      else if negb (pay_status payment ==b PaymentStatus.PENDING)
      then Some "Payment has already reached a final state."
      else if ev_status event ==b EventStatus.SUCCEEDED then
        if negb ((inv_status invoice ==b InvoiceStatus.UNPAID) ||
                 (inv_status invoice ==b InvoiceStatus.OVERDUE))
        then Some "Invoice is not payable."
        else if negb (inv_balanceDue invoice =? pay_amount payment)
        then Some "Invoice balance no longer matches the payment session."
        else None
      else None
  | _, _ => Some "Invoice or payment identity is invalid."
  end.

Definition gateway_settled (invoice : Invoice) (amount now : Z) (r : Invoice) : Invoice :=
  r <| inv_amountPaid := inv_amountPaid invoice + amount |>
    <| inv_balanceDue := inv_balanceDue invoice - amount |>
    <| inv_status := InvoiceStatus.PAID |> <| inv_paidAt := Some now |>.
Definition settleOrder (orderId : option string) (invoiceId paymentId : string) : Io unit :=
  match orderId with
  | Some orderId =>
      paidOrder ← update_order_if orderId
        (λ o, ord_status o ==b OrderStatus.AWAITING_PAYMENT)
        (λ o, o <| ord_status := OrderStatus.PAID |>);
      when (paidOrder =? 1)
        (log_activity (MkActivityLog None "ORDER_MARKED_PAID_BY_VERIFIED_PAYMENT" "ORDER"
           (Some orderId) None None
           (JObj [("invoiceId", JStr invoiceId); ("paymentId", JStr paymentId)])))
  | None => mret tt
  end.
Definition settleInvoice (invoice : Invoice) (paymentId : string) (amount now : Z)
    : Io unit :=
  _ ← update_invoice (inv_id invoice) (gateway_settled invoice amount now);
  settleOrder (inv_orderId invoice) (inv_id invoice) paymentId.

Definition completeEventAndOutbox (paymentEventId : string) (event : NormalizedPaymentEvent)
    (provider paymentId invoiceId : string) (succeeded : bool) : Io unit :=
  now ← new_date;
  _ ← update_payment_event paymentEventId (λ r,
        r <| pe_status := PaymentEventStatus.PROCESSED |> <| pe_processedAt := Some now |>);
  _ ← create_outbox "PAYMENT" paymentId
        (if succeeded then "GATEWAY_PAYMENT_SUCCEEDED" else "GATEWAY_PAYMENT_FAILED")
        ("payment-webhook:" ++ paymentEventId)%string
        (JObj [("paymentId", JStr paymentId); ("invoiceId", JStr invoiceId);
               ("provider", JStr provider);
               ("providerEventId", JStr (ev_providerEventId event));
               ("providerTransactionId",
                match ev_providerTransactionId event with Some t => JStr t | None => JNull end);
               ("amount", JStr (ev_amount event)); ("currency", JStr (ev_currency event))]);
  when succeeded
    (_ ← payment_event "EMAIL_PAYMENT_RECEIVED" "email:payment-received:" paymentId invoiceId;
     renewalItems ← read (λ d, count_rows (renewal_line invoiceId) (invoiceItems d));
     when (0 <? renewalItems)
       (payment_event "RENEWAL_PAYMENT_COMPLETED" "renewal-payment:" paymentId invoiceId)).

Definition gateway_log (action : string) (gateway : PaymentGateway)
    (event : NormalizedPaymentEvent) (paymentId invoiceId : string)
    (more : list (string * json)) : Io unit :=
  log_activity (MkActivityLog None action "PAYMENT" (Some paymentId) None None
    (JObj ([("invoiceId", JStr invoiceId); ("provider", JStr (gw_key gateway));
            ("providerEventId", JStr (ev_providerEventId event))] ++ more))).

(** The three outcomes of an event that is accepted. *)
Definition acceptPending (eventId : string) (event : NormalizedPaymentEvent)
    (payment : Payment) : Io WebhookTransactionResult :=
  _ ← match ev_failureReason event with
      | Some reason =>
          when (truthy reason) (update_payment (pay_id payment)
            (λ r, r <| pay_failureReason := Some reason |>))
      | None => mret tt
      end;
  now ← new_date;
  _ ← update_payment_event eventId (λ r,
        r <| pe_status := PaymentEventStatus.IGNORED |> <| pe_processedAt := Some now |>);
  mret Ignored.
Definition occurred (event : NormalizedPaymentEvent) : Io Z :=
  lift (of_option (JsError "Invalid Date") (date_of (ev_occurredAt event))).
Definition acceptFailed (gateway : PaymentGateway) (eventId : string)
    (event : NormalizedPaymentEvent) (invoice : Invoice) (payment : Payment)
    : Io WebhookTransactionResult :=
  receivedAt ← occurred event;
  _ ← update_payment (pay_id payment) (λ r,
        r <| pay_status := PaymentStatus.FAILED |>
          <| pay_failureReason := Some (default "Provider reported payment failure."
                                          (ev_failureReason event)) |>
          <| pay_receivedAt := Some receivedAt |>);
  _ ← completeEventAndOutbox eventId event (gw_key gateway) (pay_id payment)
        (inv_id invoice) false;
  _ ← gateway_log "GATEWAY_PAYMENT_FAILED" gateway event (pay_id payment) (inv_id invoice) [];
  mret Processed.
Definition acceptSucceeded (gateway : PaymentGateway) (eventId : string)
    (event : NormalizedPaymentEvent) (invoice : Invoice) (payment : Payment) (now : Z)
    : Io WebhookTransactionResult :=
  match transactionId gateway event with
  | None =>
      rejectStoredEvent eventId "Successful event does not contain a transaction identifier."
  | Some providerTransactionId =>
      receivedAt ← occurred event;
      _ ← update_payment (pay_id payment) (λ r,
            r <| pay_status := PaymentStatus.SUCCEEDED |>
              <| pay_providerTransactionId := Some providerTransactionId |>
              <| pay_receivedAt := Some receivedAt |> <| pay_verifiedAt := Some now |>
              <| pay_failureReason := None |>);
      _ ← settleInvoice invoice (pay_id payment) (pay_amount payment) now;
      _ ← completeEventAndOutbox eventId event (gw_key gateway) (pay_id payment)
            (inv_id invoice) true;
      _ ← gateway_log "GATEWAY_PAYMENT_VERIFIED" gateway event (pay_id payment)
            (inv_id invoice)
            [("amount", JStr (Z_to_string (pay_amount payment))); ("balanceDue", JStr "0")];
      mret Processed
  end.
Definition acceptEvent (gateway : PaymentGateway) (eventId : string)
    (event : NormalizedPaymentEvent) (invoice : Invoice) (payment : Payment)
    : Io WebhookTransactionResult :=
  _ ← update_payment_event eventId (λ r, r <| pe_paymentId := Some (pay_id payment) |>);
  match ev_status event with
  | EventStatus.PENDING => acceptPending eventId event payment
  | status =>
      now ← new_date;
      if status ==b EventStatus.FAILED
      then acceptFailed gateway eventId event invoice payment
      else acceptSucceeded gateway eventId event invoice payment now
  end.

Definition eventIdempotencyKey (provider providerEventId : string) : string :=
  ("gateway-event:" ++ sha256_hex (provider ++ ":" ++ providerEventId))%string.
Definition event_tx (gateway : PaymentGateway) (event : NormalizedPaymentEvent)
    (payloadHash : string) : Io WebhookTransactionResult :=
  id ← random_uuid;
  received ← new_date;
  _ ← create_payment_event (MkPaymentEvent id None (gw_key gateway)
        (ev_providerEventId event)
        (eventIdempotencyKey (gw_key gateway) (ev_providerEventId event))
        (ev_eventType event) PaymentEventStatus.RECEIVED payloadHash
        (normalizedPayload event) None received None);
  if negb (String.eqb (ev_merchantId event) (gw_merchantId gateway))
  then rejectStoredEvent id "Merchant identity does not match this gateway."
  else
    _ ← lock_row "invoices" (ev_invoiceId event);
    invoice ← read (λ d, invoices d !! ev_invoiceId event);
    payment ← read (λ d, payments d !! ev_paymentId event);
    error ← read (λ d, validateEvent d gateway event invoice payment);
    match error with
    | Some validationError =>
        _ ← match payment with
            | Some payment =>
                when (pay_status payment ==b PaymentStatus.PENDING)
                  (update_payment (pay_id payment)
                     (λ r, r <| pay_failureReason := Some validationError |>))
            | None => mret tt
            end;
        rejectStoredEvent id validationError
    | None =>
        match invoice, payment with
        | Some invoice, Some payment => acceptEvent gateway id event invoice payment
        | _, _ => throw (JsError "Validated financial records could not be loaded.")
        end
    end.

Definition replay (existing : PaymentEvent) (payloadHash : string)
    (event : NormalizedPaymentEvent) : result PaymentWebhookResult :=
  _ ← throw_unless (String.eqb (pe_payloadHash existing) payloadHash)
        (webhookRejected "Provider event identifier was reused with different content." false);
  _ ← throw_unless (negb (pe_status existing ==b PaymentEventStatus.FAILED))
        (webhookRejected (default "Provider event was previously rejected."
                            (pe_errorMessage existing)) false);
  paymentWebhookResult (MkWebhookResult true (ev_providerEventId event)
    (if pe_status existing ==b PaymentEventStatus.IGNORED
     then WebhookIgnored else WebhookProcessed)).
Definition find_event (provider providerEventId : string) : Io (option PaymentEvent) :=
  read (λ d, find_unique (paymentEvents d) event_key (provider, providerEventId)).
Definition webhook_result (event : NormalizedPaymentEvent) (r : WebhookTransactionResult)
    : result PaymentWebhookResult :=
  match r with
  | Rejected message => Err (webhookRejected message false)
  | Processed => paymentWebhookResult
      (MkWebhookResult false (ev_providerEventId event) WebhookProcessed)
  | Ignored => paymentWebhookResult
      (MkWebhookResult false (ev_providerEventId event) WebhookIgnored)
  end.
Definition processNormalizedEvent (gateway : PaymentGateway)
    (event : NormalizedPaymentEvent) (payloadHash : string) : Io PaymentWebhookResult :=
  existing ← find_event (gw_key gateway) (ev_providerEventId event);
  match existing with
  | Some existing => lift (replay existing payloadHash event)
  | None =>
      catch
        (r ← transaction (event_tx gateway event payloadHash);
         lift (webhook_result event r))
        (λ error,
          if is_unique_violation error then
            raced ← find_event (gw_key gateway) (ev_providerEventId event);
            match raced with
            | Some raced => lift (replay raced payloadHash event)
            | None => throw (webhookRejected
                        "Provider transaction has already been recorded." false)
            end
          else throw error)
  end.
Definition processWebhook (registry : PaymentGatewayRegistry)
    (provider rawBody signature : string) : Io PaymentWebhookResult :=
  gateway ← get_gateway registry provider false;
  _ ← require (negb ((slen rawBody =? 0) || (MAX_WEBHOOK_BYTES <? slen rawBody)))
        (webhookRejected "Webhook body is missing or too large." false);
  valid ← verifyWebhookSignature gateway rawBody signature;
  _ ← require valid (webhookRejected "Webhook signature is invalid." true);
  event ← catch (normalizeProviderEvent gateway rawBody)
            (λ _, throw (webhookRejected "Webhook payload is invalid." false));
  processNormalizedEvent gateway event (sha256_hex rawBody).

(** *** Callbacks and reconciliation *)
Definition eventPayloadHash (event : NormalizedPaymentEvent) : string :=
  sha256_hex (json_flat (payload_properties event)).
(** The event made of a provider's answer. *)
Definition status_event (gateway : PaymentGateway) (prefix : string) (payment : Payment)
    (status : GatewayTransactionStatus) : result NormalizedPaymentEvent :=
  normalizedPaymentEvent (MkEvent
    (prefix ++ ":" ++ default (ProviderStatus.to_string (ts_status status))
                        (ts_providerTransactionId status))%string
    ("payment." ++ js_lower (ProviderStatus.to_string (ts_status status)))%string
    (match ts_status status with
     | ProviderStatus.PENDING => EventStatus.PENDING
     | ProviderStatus.SUCCEEDED => EventStatus.SUCCEEDED
     | ProviderStatus.FAILED | ProviderStatus.REFUNDED => EventStatus.FAILED
     end)
    (gw_merchantId gateway) (pay_id payment) (pay_invoiceId payment)
    (Z_to_string (ts_amount status)) (ts_currency status)
    (ts_providerTransactionId status) (to_ISO_string (ts_occurredAt status))
    (ts_failureReason status)).

Definition find_session (provider reference : string) : Io (option Payment) :=
  read (λ d, find_unique (payments d) (λ r, (pay_provider r, pay_reference r))
               (provider, Some reference)).
Definition callback_event (gateway : PaymentGateway)
    (providerSessionId callbackStatus : string) (payment : Payment)
    : Io NormalizedPaymentEvent :=
  match completePaymentSession gateway with
  | Some complete =>
      if String.eqb callbackStatus "success" then
        complete (MkCompleteInput providerSessionId (pay_id payment) (pay_invoiceId payment)
                    (pay_amount payment) (pay_currency payment))
      else
        status ← queryTransactionStatus gateway providerSessionId;
        lift (status_event gateway ("bkash:" ++ providerSessionId) payment status)
  | None =>
      status ← queryTransactionStatus gateway providerSessionId;
      lift (status_event gateway ("bkash:" ++ providerSessionId) payment status)
  end.
Definition completeBkashCallback (registry : PaymentGatewayRegistry)
    (providerSessionId callbackStatus : string) : Io string :=
  gateway ← get_gateway registry "bkash" false;
  found ← find_session (gw_key gateway) providerSessionId;
  payment ← lift (of_option (not_found "Payment session was not found.") found);
  if negb (pay_status payment ==b PaymentStatus.PENDING) then mret (pay_invoiceId payment)
  else
    _ ← catch
          (event ← callback_event gateway providerSessionId callbackStatus payment;
           _ ← processNormalizedEvent gateway event (eventPayloadHash event);
           mret tt)
          (λ error,
            match error with
            | PaymentProviderError message outcome =>
                recordProviderFailure (pay_id payment) message outcome
            | _ => throw error
            end);
    mret (pay_invoiceId payment).

Definition reconcile_event (gateway : PaymentGateway) (payment : Payment)
    (status : GatewayTransactionStatus) : result NormalizedPaymentEvent :=
  status_event gateway ("reconciliation:" ++ gw_key gateway ++ ":" ++ pay_id payment)
    payment status.
Definition reconcileAttempt (gateway : PaymentGateway) (payment : Payment)
    (reference : string) (actor : Identity) : Io PaymentWebhookResult :=
  status ← queryTransactionStatus gateway reference;
  _ ← require (negb (ts_status status ==b ProviderStatus.REFUNDED))
        (unprocessable "Refund reconciliation is not part of this flow.");
  event ← lift (reconcile_event gateway payment status);
  r ← processNormalizedEvent gateway event (eventPayloadHash event);
  _ ← log_activity (MkActivityLog (Some (userId actor)) "GATEWAY_PAYMENT_RECONCILED"
        "PAYMENT" (Some (pay_id payment)) None None
        (JObj [("provider", JStr (gw_key gateway));
               ("status", JStr (EventStatus.to_string (ev_status event)))]));
  mret r.
Definition reconcilePayment (registry : PaymentGatewayRegistry)
    (provider paymentId : string) (actor : Identity) : Io PaymentWebhookResult :=
  gateway ← get_gateway registry provider false;
  found ← read (λ d, payments d !! paymentId);
  payment ← lift (of_option (not_found "Payment was not found.")
    (r ← found; if String.eqb (pay_provider r) (gw_key gateway) then Some r else None));
  reference ← lift (of_option
    (conflict "Only a pending gateway payment can be reconciled.")
    (r ← pay_reference payment;
     if (pay_status payment ==b PaymentStatus.PENDING) && truthy r then Some r else None));
  catch (reconcileAttempt gateway payment reference actor)
    (λ error,
      match error with
      | PaymentProviderError message _ =>
          _ ← update_payment (pay_id payment) (λ r, r <| pay_failureReason := Some message |>);
          throw (service_unavailable message)
      | _ => throw error
      end).
End service.
