(* ===== verification/GatewayAdapters.v ===== *)
(** * The gateway adapters

    apps/api/src/modules/payment-gateways/bkash-payment.gateway.ts,
    sslcommerz-payment.gateway.ts and payment-http.client.ts: what the adapters
    send, how they read an answer, and the retries of the HTTP client.  Access
    tokens and stored credentials are parameters; the SSLCOMMERZ adapter keeps a
    validated notification in memory between validation and normalization, here a
    value passed from one to the other. *)
From S2P Require Import Prelude JsString JsDate Json Money States Database InvoiceNumber InvoiceTotals Invoices Payments Gateways.

(** ** payment-http.client.ts *)
Record HttpResponse := MkResponse { rs_status : Z; rs_body : json }.
Record HttpRequest := MkRequest
  { hq_url : string; hq_method : string; hq_headers : list (string * string);
    hq_body : option string; hq_retries : nat }.
Definition unreachable : exn := PaymentProviderError
  "The payment provider could not be reached. Reconciliation is required before retrying."
  "UNKNOWN".
(** The loop of [FetchPaymentHttpClient.request]: [fetch] is one attempt, [None]
    when it throws, and [n] counts the retries left. *)
Fixpoint attempts (fetch : Io (option HttpResponse)) (n : nat) : Io HttpResponse :=
  response ← fetch;
  match response, n with
  | Some r, O => mret r
  | Some r, S n => if 500 <=? rs_status r then attempts fetch n else mret r
  | None, O => throw unreachable
  | None, S n => attempts fetch n
  end.
Definition http_request (fetch : HttpRequest → Io (option HttpResponse))
    (input : HttpRequest) : Io HttpResponse :=
  attempts (fetch input) (hq_retries input).

(** ** Shared pieces *)
(** The parts of [new URL(value)] the adapters look at. *)
Record Url := MkUrl
  { u_protocol : string; u_username : string; u_password : string; u_hostname : string;
    u_port : string; u_href : string }.
Class UrlParser := parse_url : string → option Url.

Definition z_object : schema (list (string * json)) := λ v,
  match v with JObj o => Some o | _ => None end.
Definition z_text (lo hi : Z) : schema string := z_refine (text lo hi) z_string.
(** [z.union([z.string(), z.number()]).transform(String)]. *)
Definition z_number_text : schema string := λ v,
  match v with
  | JStr s => Some s | JNum n => Some (Z_to_string n) | JFrac t => Some t | _ => None
  end.
Definition provider_unknown (message : string) : exn := PaymentProviderError message "UNKNOWN".
Definition provider_failure (message : string) : exn := PaymentProviderError message "FAILED".
Definition httpFailure (status : Z) (message : string) : exn :=
  if (status =? 408) || (status =? 429) || (500 <=? status)
  then provider_unknown (message ++ " Reconciliation is required before retrying.")%string
  else provider_failure message.
Definition is_success (r : HttpResponse) : bool :=
  negb ((rs_status r <? 200) || (300 <=? rs_status r)).
Definition safe_url (hosts : list string) (u : Url) : bool :=
  String.eqb (u_protocol u) "https:" && negb (truthy (u_username u)) &&
  negb (truthy (u_password u)) && existsb (String.eqb (u_hostname u)) hosts &&
  negb (truthy (u_port u)).
(** [new Date(value)], or now when there is no valid date. *)
Definition date_or_now `{DateParser} (value : option string) : Io Z :=
  match (v ← value; if truthy v then date_of v else None) with
  | Some t => mret t
  | None => new_date
  end.

(** ** bKash *)
Record BkashTransaction := MkBkash
  { bt_paymentID : string; bt_trxID : option string; bt_transactionStatus : string;
    bt_amount : string; bt_currency : string; bt_completedTime : option string;
    bt_createTime : option string }.
Definition ok_code : schema (option string) :=
  z_optional (z_refine (String.eqb "0000") z_string).
Definition transactionSchema : schema BkashTransaction := λ v,
  o ← z_object v;
  paymentID ← z_text 1 191 (get "paymentID" o);
  trxID ← z_optional (z_text 1 191) (get "trxID" o);
  status ← z_text 1 100 (get "transactionStatus" o);
  amount ← z_refine (λ s, (slen s <=? 32) && bool_decide (is_Some (match_major_amount s)))
             z_string (get "amount" o);
  currency ← z_text 3 3 (get "currency" o);
  _ ← ok_code (get "statusCode" o);
  completedTime ← z_optional z_string (get "completedTime" o);
  createTime ← z_optional z_string (get "createTime" o);
  _ ← z_optional (z_text 0 500) (get "statusMessage" o);
  _ ← z_optional (z_text 0 500) (get "errorMessage" o);
  Some (MkBkash paymentID trxID status amount currency completedTime createTime).
(** The payment and the checkout address of a creation. *)
Definition createSchema `{ZodUrl} : schema (string * string) := λ v,
  o ← z_object v;
  paymentID ← z_text 1 191 (get "paymentID" o);
  lower ← z_optional (z_refine zod_url z_string) (get "bkashURL" o);
  upper ← z_optional (z_refine zod_url z_string) (get "bKashURL" o);
  _ ← ok_code (get "statusCode" o);
  let url := match lower with Some u => u | None => default "" upper end in
  let agree := match lower, upper with
               | Some a, Some b => negb (truthy a) || negb (truthy b) || String.eqb a b
               | _, _ => true
               end in
  if truthy url && agree then Some (paymentID, url) else None.

Definition BKASH_SANDBOX_API : string := "https://tokenized.sandbox.bka.sh/v1.2.0-beta".
Definition BKASH_CHECKOUT_HOSTS : list string :=
  ["sandbox.payment.bkash.com"; "checkout.sandbox.bka.sh"].
(** A response parsed by its schema. *)
Definition parse_response {A} (schema_ : schema A) (message : string) (body : json)
    : result A := of_option (provider_unknown message) (schema_ body).
Definition bkash_invalid : string := "bKash returned an invalid response.".

(** The state of a provider: [None] is a state the adapter does not know. *)
Definition bkash_state (s : string) : option ProviderStatus :=
  if String.eqb s "completed" then Some ProviderStatus.SUCCEEDED
  else if String.eqb s "initiated" || String.eqb s "pending" then Some ProviderStatus.PENDING
  else if String.eqb s "refunded" then Some ProviderStatus.REFUNDED
  else if existsb (String.eqb s) ["failed"; "cancelled"; "canceled"; "expired"]
  then Some ProviderStatus.FAILED
  else None.

Section bkash.
Context `{ZodFormats} `{ZodUrl} `{DateParser} `{UrlParser}.
(** The HTTP client, the credentials and token of [authenticatedHeaders], and the
    environment. *)
Context (request : HttpRequest → Io HttpResponse).
Context (authenticatedHeaders : Io (list (string * string))).
Context (BKASH_SANDBOX_BASE_URL API_PUBLIC_ORIGIN : string).

Definition sandboxBaseUrl : result string :=
  if String.eqb BKASH_SANDBOX_BASE_URL BKASH_SANDBOX_API then Ok BKASH_SANDBOX_API
  else Err (provider_failure "bKash must use the pinned sandbox endpoint.").
Definition bkash_post (path : string) (body : result (list (string * option string)))
    (retries : nat) : Io HttpResponse :=
  base ← lift sandboxBaseUrl;
  headers ← authenticatedHeaders;
  body ← lift body;
  request (MkRequest (base ++ path) "POST" headers (Some (json_flat body)) retries).

Definition bkash_createPaymentSession (input : CreateGatewaySessionInput)
    : Io GatewayPaymentSession :=
  _ ← require (String.eqb (gs_currency input) "BDT")
        (provider_failure "bKash sandbox accepts BDT invoices only.");
  response ← bkash_post "/tokenized/checkout/create"
    (amount ← minorToMajor (gs_amount input);
     Ok [("mode", Some "0001"); ("payerReference", Some (gs_paymentId input));
     ("callbackURL", Some (API_PUBLIC_ORIGIN ++ "/payment-gateways/bkash/callback")%string);
     ("amount", Some amount); ("currency", Some "BDT"); ("intent", Some "sale");
     ("merchantInvoiceNumber", Some (gs_invoiceNumber input))]) 0;
  _ ← require (is_success response)
        (httpFailure (rs_status response) "bKash rejected the checkout request.");
  '(paymentID, url) ← lift (parse_response createSchema bkash_invalid (rs_body response));
  parsed ← lift (of_option (JsError "Invalid URL") (parse_url url));
  _ ← require (safe_url BKASH_CHECKOUT_HOSTS parsed)
        (provider_failure "bKash returned an unsafe checkout URL.");
  now ← new_date;
  mret (MkGatewaySession paymentID (u_href parsed) (now + 24 * 60 * 60 * 1000)).

(** [toStatus]. *)
Definition bkash_toStatus (transaction : BkashTransaction) (expectedPaymentId : string)
    : Io GatewayTransactionStatus :=
  _ ← require (String.eqb (bt_paymentID transaction) expectedPaymentId) (provider_unknown
        "bKash returned a different payment identity. Reconciliation is required.");
  status ← lift (of_option (provider_unknown
        "bKash returned an unrecognized payment state. Reconciliation is required.")
        (bkash_state (js_lower (bt_transactionStatus transaction))));
  occurredAt ← date_or_now (match bt_completedTime transaction with
                            | Some t => Some t | None => bt_createTime transaction end);
  amount ← lift (majorToMinor (bt_amount transaction));
  mret (MkTransactionStatus (bt_trxID transaction) status amount
          (js_upper (bt_currency transaction)) occurredAt
          (if status ==b ProviderStatus.FAILED
           then Some "bKash reported payment failure." else None)).
Definition bkash_queryTransactionStatus (paymentId : string) : Io GatewayTransactionStatus :=
  response ← bkash_post "/tokenized/checkout/payment/status"
               (Ok [("paymentID", Some paymentId)]) 2;
  _ ← require (is_success response)
        (provider_unknown "bKash could not confirm the payment status.");
  transaction ← lift (parse_response transactionSchema bkash_invalid (rs_body response));
  bkash_toStatus transaction paymentId.

Definition BKASH_MERCHANT : string := "bkash-sandbox".
(** [statusToEvent]. *)
Definition bkash_statusToEvent (status : GatewayTransactionStatus)
    (input : CompleteGatewaySessionInput) : result NormalizedPaymentEvent :=
  normalizedPaymentEvent (MkEvent
    ("bkash:" ++ cg_providerSessionId input ++ ":" ++
     default (ProviderStatus.to_string (ts_status status))
       (ts_providerTransactionId status))%string
    ("payment." ++ js_lower (ProviderStatus.to_string (ts_status status)))%string
    (match ts_status status with
     | ProviderStatus.PENDING => EventStatus.PENDING
     | ProviderStatus.SUCCEEDED => EventStatus.SUCCEEDED
     | ProviderStatus.FAILED | ProviderStatus.REFUNDED => EventStatus.FAILED
     end)
    BKASH_MERCHANT (cg_paymentId input) (cg_invoiceId input)
    (Z_to_string (ts_amount status)) (ts_currency status)
    (ts_providerTransactionId status) (to_ISO_string (ts_occurredAt status))
    (ts_failureReason status)).
Definition bkash_execute (input : CompleteGatewaySessionInput) : Io NormalizedPaymentEvent :=
  response ← bkash_post "/tokenized/checkout/execute"
               (Ok [("paymentID", Some (cg_providerSessionId input))]) 0;
  _ ← require (is_success response)
        (httpFailure (rs_status response) "bKash could not complete the payment.");
  transaction ← lift (parse_response transactionSchema bkash_invalid (rs_body response));
  status ← bkash_toStatus transaction (cg_providerSessionId input);
  lift (bkash_statusToEvent status input).
Definition bkash_completePaymentSession (input : CompleteGatewaySessionInput)
    : Io NormalizedPaymentEvent :=
  catch (bkash_execute input)
    (λ error,
      match error with
      | PaymentProviderError _ "UNKNOWN" =>
          status ← bkash_queryTransactionStatus (cg_providerSessionId input);
          lift (bkash_statusToEvent status input)
      | _ => throw error
      end).
Definition bkash_gateway : PaymentGateway :=
  MkGateway "bkash" "bKash" BKASH_MERCHANT bkash_createPaymentSession
    (λ _ _, mret false)
    (λ _, throw (provider_failure "bKash does not use this webhook endpoint."))
    bkash_queryTransactionStatus ev_providerTransactionId
    (Some bkash_completePaymentSession).
End bkash.

(** ** SSLCOMMERZ *)
Record Ipn := MkIpn
  { ipn_val_id : string; ipn_tran_id : string; ipn_amount : string; ipn_currency : string;
    ipn_store_id : string; ipn_status : string; ipn_value_a : string; ipn_value_b : string;
    ipn_risk_level : option string }.
Record Validation := MkValidation
  { va_val_id : string; va_tran_id : string; va_amount : string; va_currency : string;
    va_tran_date : option string; va_value_a : string; va_value_b : string;
    va_risk_level : option string }.
Record QueryEntry := MkQueryEntry
  { qe_status : string; qe_tran_id : string; qe_amount : string; qe_currency : string;
    qe_tran_date : option string; qe_error : option string; qe_risk_level : option string }.
Definition non_empty : schema string := z_refine (λ s, 1 <=? slen s) z_string.
Definition sessionSchema `{ZodUrl} : schema string := λ v,
  o ← z_object v;
  _ ← z_refine (String.eqb "SUCCESS") z_string (get "status" o);
  _ ← non_empty (get "sessionkey" o);
  z_refine zod_url z_string (get "GatewayPageURL" o).
Definition ipnSchema `{ZodFormats} : schema Ipn := λ v,
  o ← z_object v;
  val_id ← z_text 1 191 (get "val_id" o);
  tran_id ← z_text 1 191 (get "tran_id" o);
  amount ← non_empty (get "amount" o);
  currency ← z_text 3 3 (get "currency" o);
  store_id ← non_empty (get "store_id" o);
  status ← non_empty (get "status" o);
  value_a ← z_refine zod_uuid z_string (get "value_a" o);
  value_b ← z_refine zod_uuid z_string (get "value_b" o);
  risk_level ← z_optional z_string (get "risk_level" o);
  Some (MkIpn val_id tran_id amount currency store_id status value_a value_b risk_level).
Definition validationSchema `{ZodFormats} : schema Validation := λ v,
  o ← z_object v;
  _ ← z_refine (λ s, existsb (String.eqb s) ["VALID"; "VALIDATED"]) z_string (get "status" o);
  _ ← z_refine (String.eqb "DONE") z_string (get "APIConnect" o);
  val_id ← z_text 1 191 (get "val_id" o);
  tran_id ← z_text 1 191 (get "tran_id" o);
  amount ← z_number_text (get "amount" o);
  currency ← z_text 3 3 (get "currency" o);
  _ ← z_text 1 191 (get "bank_tran_id" o);
  tran_date ← z_optional z_string (get "tran_date" o);
  value_a ← z_refine zod_uuid z_string (get "value_a" o);
  value_b ← z_refine zod_uuid z_string (get "value_b" o);
  risk_level ← z_optional z_number_text (get "risk_level" o);
  Some (MkValidation val_id tran_id amount currency tran_date value_a value_b risk_level).
Definition queryEntrySchema : schema QueryEntry := λ v,
  o ← z_object v;
  status ← non_empty (get "status" o);
  tran_id ← z_text 1 191 (get "tran_id" o);
  amount ← z_number_text (get "amount" o);
  currency ← z_text 3 3 (get "currency" o);
  _ ← z_optional (z_text 0 191) (get "bank_tran_id" o);
  tran_date ← z_optional z_string (get "tran_date" o);
  error ← z_optional (z_text 0 500) (get "error" o);
  risk_level ← z_optional z_number_text (get "risk_level" o);
  Some (MkQueryEntry status tran_id amount currency tran_date error risk_level).
Definition querySchema : schema (list QueryEntry) := λ v,
  o ← z_object v;
  _ ← z_refine (String.eqb "DONE") z_string (get "APIConnect" o);
  z_array queryEntrySchema (get "element" o).

(** [value.replace(' ', 'T')]: the first blank only. *)
Fixpoint replace_blank (s : string) : string :=
  match s with
  | EmptyString => ""
  | String c s => if Ascii.eqb c " " then String "T" s else String c (replace_blank s)
  end.
Definition sslDate `{DateParser} (value : option string) : Io Z :=
  date_or_now (v ← value;
               if truthy v then Some (replace_blank v ++ "+06:00")%string else None).
Definition high_risk_message : string :=
  "SSLCOMMERZ marked this transaction as high risk; administrator review is required.".
Definition ssl_invalid : string := "SSLCOMMERZ returned an invalid response.".
Definition SSL_MERCHANT : string := "sslcommerz-sandbox".

Section sslcommerz.
Context `{ZodFormats} `{ZodUrl} `{DateParser} `{UrlParser} `{Sha256}.
(** The HTTP client, [URLSearchParams] both ways, the stored credentials (the
    store and its password) and the environment. *)
Context (request : HttpRequest → Io HttpResponse).
Context (form_encode : list (string * string) → string) (form_decode : string → json).
Context (providerCredentials : Io (string * string)) (API_PUBLIC_ORIGIN : string).

Definition ssl_transactionId (idempotencyKey : string) : string :=
  ("WHB" ++ String.substring 0 27 (sha256_hex idempotencyKey))%string.
Definition assertSupported (amount : Z) (currency : string) : result unit :=
  _ ← throw_unless (String.eqb currency "BDT")
        (provider_failure "SSLCOMMERZ sandbox accepts BDT invoices only.");
  throw_unless (negb ((amount <? 1000) || (50000000 <? amount)))
    (provider_failure "SSLCOMMERZ requires an amount from BDT 10.00 to BDT 500,000.00.").
Definition checkout_form (store password amount : string)
    (input : CreateGatewaySessionInput) : list (string * string) :=
  let callbacks := (API_PUBLIC_ORIGIN ++ "/payment-gateways/sslcommerz")%string in
  let address := gs_customerAddress input in
  [("store_id", store); ("store_passwd", password); ("total_amount", amount);
   ("currency", "BDT"); ("tran_id", ssl_transactionId (gs_idempotencyKey input));
   ("success_url", (callbacks ++ "/return/success")%string);
   ("fail_url", (callbacks ++ "/return/fail")%string);
   ("cancel_url", (callbacks ++ "/return/cancel")%string);
   ("ipn_url", (callbacks ++ "/webhooks")%string);
   ("cus_name", gs_customerName input); ("cus_email", gs_customerEmail input);
   ("cus_add1", ad_line1 address); ("cus_add2", default "" (ad_line2 address));
   ("cus_city", ad_city address); ("cus_state", default "" (ad_region address));
   ("cus_postcode", default "" (ad_postalCode address));
   ("cus_country", ad_countryCode address); ("cus_phone", "N/A"); ("shipping_method", "NO");
   ("product_name", ("Web hosting invoice " ++ gs_invoiceNumber input)%string);
   ("product_category", "Web Hosting"); ("product_profile", "general");
   ("value_a", gs_paymentId input); ("value_b", gs_invoiceId input);
   ("value_c", gs_invoiceNumber input)].
Definition ssl_createPaymentSession (input : CreateGatewaySessionInput)
    : Io GatewayPaymentSession :=
  _ ← lift (assertSupported (gs_amount input) (gs_currency input));
  '(store, password) ← providerCredentials;
  amount ← lift (minorToMajor (gs_amount input));
  response ← request (MkRequest "https://sandbox.sslcommerz.com/gwprocess/v4/api.php" "POST"
    [("accept", "application/json"); ("content-type", "application/x-www-form-urlencoded")]
    (Some (form_encode (checkout_form store password amount input))) 0);
  _ ← require (is_success response)
        (httpFailure (rs_status response) "SSLCOMMERZ rejected the checkout request.");
  page ← lift (parse_response sessionSchema ssl_invalid (rs_body response));
  url ← lift (of_option (JsError "Invalid URL") (parse_url page));
  _ ← require (safe_url ["sandbox.sslcommerz.com"] url)
        (provider_failure "SSLCOMMERZ returned an unsafe checkout URL.");
  now ← new_date;
  mret (MkGatewaySession (ssl_transactionId (gs_idempotencyKey input)) (u_href url)
          (now + 30 * 60 * 1000)).

(** The comparison of a notification with its validation; the amounts throw when
    they are malformed. *)
Definition ipn_agrees (ipn : Ipn) (validation : Validation) : result bool :=
  if negb (String.eqb (va_val_id validation) (ipn_val_id ipn)) ||
     negb (String.eqb (va_tran_id validation) (ipn_tran_id ipn)) ||
     negb (String.eqb (va_value_a validation) (ipn_value_a ipn)) ||
     negb (String.eqb (va_value_b validation) (ipn_value_b ipn)) ||
     negb (String.eqb (js_upper (va_currency validation)) (js_upper (ipn_currency ipn)))
  then Ok false
  else
    a ← majorToMinor (va_amount validation);
    b ← majorToMinor (ipn_amount ipn);
    Ok (a =? b).
(** [verifyWebhookSignature]: the validated notification, or [None] for false. *)
Definition ssl_validate (rawBody : string) : Io (option (Ipn * Validation)) :=
  '(store, password) ← providerCredentials;
  match ipnSchema (form_decode rawBody) with
  | None => mret None
  | Some ipn =>
      if negb (String.eqb (ipn_store_id ipn) store) ||
         negb (existsb (String.eqb (js_upper (ipn_status ipn))) ["VALID"; "VALIDATED"])
      then mret None
      else
        response ← request (MkRequest
          ("https://sandbox.sslcommerz.com/validator/api/validationserverAPI.php?" ++
           form_encode [("val_id", ipn_val_id ipn); ("store_id", store);
                        ("store_passwd", password); ("format", "json"); ("v", "1")])%string
          "GET" [("accept", "application/json")] None 2);
        if negb (is_success response) then
          _ ← require (negb ((rs_status response =? 408) || (rs_status response =? 429) ||
                             (500 <=? rs_status response)))
                (provider_unknown "SSLCOMMERZ validation is temporarily unavailable.");
          mret None
        else
          match validationSchema (rs_body response) with
          | None => mret None
          | Some validation =>
              agrees ← lift (ipn_agrees ipn validation);
              mret (if agrees : bool then Some (ipn, validation) else None)
          end
  end.
(** [normalizeProviderEvent] of a validated notification. *)
Definition ssl_event (ipn : Ipn) (validation : Validation) : Io NormalizedPaymentEvent :=
  let highRisk := bool_decide (va_risk_level validation = Some "1") ||
                  bool_decide (ipn_risk_level ipn = Some "1") in
  occurredAt ← sslDate (va_tran_date validation);
  amount ← lift (majorToMinor (va_amount validation));
  lift (normalizedPaymentEvent (MkEvent ("sslcommerz:" ++ va_val_id validation)%string
    (if highRisk then "payment.high_risk" else "payment.succeeded")
    (if highRisk then EventStatus.PENDING else EventStatus.SUCCEEDED)
    SSL_MERCHANT (va_value_a validation) (va_value_b validation) (Z_to_string amount)
    (js_upper (va_currency validation)) (Some (va_tran_id validation))
    (to_ISO_string occurredAt) (if highRisk then Some high_risk_message else None))).

(** What a queried transaction means. *)
Definition ssl_status (transaction : QueryEntry) : ProviderStatus :=
  let providerStatus := js_upper (qe_status transaction) in
  if bool_decide (qe_risk_level transaction = Some "1") then ProviderStatus.PENDING
  else if String.eqb providerStatus "VALID" || String.eqb providerStatus "VALIDATED"
  then ProviderStatus.SUCCEEDED
  else if String.eqb providerStatus "PENDING" then ProviderStatus.PENDING
  else if String.eqb providerStatus "REFUNDED" then ProviderStatus.REFUNDED
  else ProviderStatus.FAILED.
Definition ssl_toStatus (transaction : QueryEntry) : Io GatewayTransactionStatus :=
  let status := ssl_status transaction in
  amount ← lift (majorToMinor (qe_amount transaction));
  occurredAt ← sslDate (qe_tran_date transaction);
  mret (MkTransactionStatus (Some (qe_tran_id transaction)) status amount
    (js_upper (qe_currency transaction)) occurredAt
    (if bool_decide (qe_risk_level transaction = Some "1") then Some high_risk_message
     else if status ==b ProviderStatus.FAILED
     then Some (default "SSLCOMMERZ reported payment failure." (qe_error transaction))
     else None)).
Definition ssl_queryTransactionStatus (transactionId : string)
    : Io GatewayTransactionStatus :=
  '(store, password) ← providerCredentials;
  response ← request (MkRequest
    ("https://sandbox.sslcommerz.com/validator/api/merchantTransIDvalidationAPI.php?" ++
     form_encode [("tran_id", transactionId); ("store_id", store);
                  ("store_passwd", password); ("format", "json")])%string
    "GET" [("accept", "application/json")] None 2);
  _ ← require (is_success response)
        (provider_unknown "SSLCOMMERZ could not confirm the payment status.");
  query ← lift (parse_response querySchema ssl_invalid (rs_body response));
  transaction ← lift (of_option
    (provider_failure "SSLCOMMERZ did not return the requested transaction.")
    (List.find (λ entry, String.eqb (qe_tran_id entry) transactionId) query));
  ssl_toStatus transaction.
End sslcommerz.
