(* ===== verification/MapSum.v ===== *)
(** * Sums over finite maps

    [msum f m] adds [f] over the values of [m]: what a SQL [SUM] over a table
    computes. *)
From S2P Require Import Prelude Database InvoiceTotals.

Definition msum {A} (f : A → Z) (m : gmap string A) : Z :=
  map_fold (λ _ a z, f a + z) 0 m.

Section msum.
Context {A : Type}.
Implicit Types (f g : A → Z) (m : gmap string A).

Lemma msum_empty f : msum f ∅ = 0.
Proof. unfold msum. apply map_fold_empty. Qed.
Lemma msum_insert f m i a : m !! i = None → msum f (<[i := a]> m) = f a + msum f m.
Proof. intros. unfold msum. apply (map_fold_insert_L (λ _ a z, f a + z)); [|done]. intros. lia. Qed.
Lemma msum_delete f m i a : m !! i = Some a → msum f (delete i m) = msum f m - f a.
Proof.
  intros H. rewrite <- (insert_delete_id m i a H) at 2.
  rewrite msum_insert by apply lookup_delete_eq. lia.
Qed.
(** A row replaced by another. *)
Lemma msum_update f m i a b :
  m !! i = Some a → msum f (<[i := b]> m) = msum f m - f a + f b.
Proof.
  intros H. rewrite <- insert_delete_eq.
  rewrite msum_insert by apply lookup_delete_eq. rewrite (msum_delete f m i a H). lia.
Qed.
Lemma msum_ext f g m :
  (∀ i a, m !! i = Some a → f a = g a) → msum f m = msum g m.
Proof.
  induction m as [|i a m Hi IH] using map_ind; intros H; [by rewrite !msum_empty|].
  rewrite !msum_insert by done. rewrite (H i a) by apply lookup_insert_eq.
  rewrite IH; [done|]. intros j b Hj. apply (H j). rewrite lookup_insert_ne; congruence.
Qed.
Lemma msum_zero f m : (∀ i a, m !! i = Some a → f a = 0) → msum f m = 0.
Proof.
  induction m as [|i a m Hi IH] using map_ind; intros H; [by rewrite !msum_empty|].
  rewrite msum_insert by done. rewrite (H i a) by apply lookup_insert_eq.
  rewrite IH; [done|]. intros j b Hj. apply (H j). rewrite lookup_insert_ne; congruence.
Qed.
Lemma msum_nonneg f m : (∀ i a, m !! i = Some a → 0 <= f a) → 0 <= msum f m.
Proof.
  induction m as [|i a m Hi IH] using map_ind; intros H; [by rewrite msum_empty|].
  rewrite msum_insert by done. pose proof (H i a (lookup_insert_eq _ _ _)).
  assert (0 <= msum f m); [|lia]. apply IH. intros j b Hj. apply (H j).
  rewrite lookup_insert_ne; congruence.
Qed.
(** Two tables with the same keys, row by row. *)
Lemma msum_mono f m m' :
  (∀ i, match m !! i, m' !! i with
        | Some a, Some b => f b <= f a | None, None => True | _, _ => False end) →
  msum f m' <= msum f m.
Proof.
  revert m'. induction m as [|i a m Hi IH] using map_ind; intros m' H.
  - assert (m' = ∅) as ->; [|rewrite msum_empty; lia].
    apply map_empty. intros i. specialize (H i). rewrite lookup_empty in H.
    by destruct (m' !! i).
  - pose proof (H i) as Hii. rewrite lookup_insert_eq in Hii.
    destruct (m' !! i) as [b|] eqn:Hb; [|done].
    rewrite msum_insert by done. assert (msum f (delete i m') <= msum f m).
    + apply IH. intros j. specialize (H j). destruct (decide (i = j)) as [<-|Hne].
      * by rewrite Hi, lookup_delete_eq.
      * by rewrite lookup_insert_ne in H; [rewrite lookup_delete_ne|].
    + rewrite (msum_delete f m' i b Hb) in *. lia.
Qed.
Lemma msum_strict f m m' j a b :
  (∀ i, match m !! i, m' !! i with
        | Some a, Some b => f b <= f a | None, None => True | _, _ => False end) →
  m !! j = Some a → m' !! j = Some b → f b < f a → msum f m' < msum f m.
Proof.
  intros H Ha Hb Hlt.
  assert (msum f (<[j := a]> m') <= msum f m) as Hle.
  { apply msum_mono. intros i. specialize (H i). destruct (decide (j = i)) as [<-|Hne].
    - rewrite lookup_insert_eq, Ha. lia.
    - by rewrite lookup_insert_ne. }
  rewrite (msum_update f m' j b a Hb) in Hle. lia.
Qed.
(** The rows of a query, added up. *)
Lemma sum_rows (p : A → bool) f m :
  sum_of f (rows p m) = msum (λ a, if p a then f a else 0) m.
Proof.
  unfold rows, msum. rewrite map_fold_foldr.
  induction (map_to_list m) as [|[i a] l IH]; simpl; [done|].
  rewrite <- IH. fold (fmap (M := list) (@snd string A) l). destruct (p a); simpl; lia.
Qed.
End msum.

Lemma msum_fmap {A B} (h : B → A) f (m : gmap string B) :
  msum f (h <$> m) = msum (f ∘ h) m.
Proof.
  induction m as [|i a m Hi IH] using map_ind; [by rewrite fmap_empty, !msum_empty|].
  rewrite fmap_insert, !msum_insert, IH; [done|done|]. by rewrite lookup_fmap, Hi.
Qed.
