(* ===== verification/OutboxProperties.v ===== *)
(** * What a dispatch cycle does

    One cycle of the dispatcher, exactly, and that cycles deliver or give up every
    event, whatever the queues answer. *)
From stdpp Require Import sorting.
From S2P Require Import Prelude JsString Json States Database Invoices BackgroundJobs MapSum Outbox.

(** ** The two halves of a publication *)
Inductive outcome := Unroutable | Accepted | Refused.
#[export] Instance outcome_eq_dec : EqDecision outcome.
Proof. solve_decision. Defined.

(** A row after the update that follows an [outcome]: [event] is the event as it
    was read, [now] the instant of the update, [updated] its [updatedAt]. *)
Definition settled_row (o : outcome) (event : OutboxEvent) (now updated : Z)
    (r : OutboxEvent) : OutboxEvent :=
  let r := unlocked r <| out_updatedAt := updated |> in
  match o with
  | Unroutable => r <| out_status := OutboxStatus.FAILED |>
                    <| out_lastError := Some "OUTBOX_EVENT_UNROUTABLE" |>
  | Accepted => r <| out_status := OutboxStatus.PUBLISHED |>
                  <| out_publishedAt := Some now |> <| out_lastError := None |>
  | Refused =>
      if exhausted event
      then r <| out_status := OutboxStatus.FAILED |>
             <| out_availableAt := now + delayMilliseconds event |>
             <| out_lastError := Some "OUTBOX_PUBLICATION_ATTEMPTS_EXHAUSTED" |>
      else r <| out_status := OutboxStatus.PENDING |>
             <| out_availableAt := now + delayMilliseconds event |>
             <| out_lastError := Some "OUTBOX_PUBLICATION_TEMPORARILY_UNAVAILABLE" |>
  end.

(** Rows are keyed, and a claimed row says since when and by whom. *)
Definition outbox_ok (m : gmap string OutboxEvent) : Prop :=
  ∀ i e, m !! i = Some e → out_id e = i ∧
    (out_status e = OutboxStatus.PROCESSING →
     is_Some (out_lockedAt e) ∧ is_Some (out_lockedBy e)).

Section publication.
Context `{ZodFormats} {Q : Type} `{JobQueue Q}.
Context (workerId : string) (batch timeout : Z).

Definition offer (event : OutboxEvent) : StackIo Q outcome :=
  match routeOutboxEvent (out_eventType event) with
  | None => mret Unroutable
  | Some route =>
      catch (_ ← addOutboxJob route event; mret Accepted) (λ _, mret Refused)
  end.
Definition settle (o : outcome) (event : OutboxEvent) : Io unit :=
  match o with
  | Unroutable => failPermanently workerId (out_id event) "OUTBOX_EVENT_UNROUTABLE"
  | Accepted => mark_published workerId (out_id event)
  | Refused => publicationFailed workerId event
  end.

(** What an update of the outbox leaves alone. *)
Definition time_moves (w w' : World) : Prop :=
  clock w' = clock w ∧ (ticks w ≤ ticks w')%nat.
(** [t] is read from the clock at [w] or later. *)
Definition reading (w : World) (t : Z) : Prop :=
  ∃ k, (ticks w ≤ k)%nat ∧ t = clock w k.

Lemma settle_run o event w :
  ∃ now updated w', settle o event w = (Ok tt, w') ∧ time_moves w w' ∧
    reading w now ∧ outboxEvents (db w') = changed_at (out_id event) (held workerId)
      (settled_row o event now updated) (outboxEvents (db w)).
Proof.
  destruct o; simpl; unfold failPermanently, mark_published, publicationFailed, new_date.
  - unfold mbind, M_bind.
    match goal with |- context [update_outbox_if ?i ?p ?f w] =>
      destruct (update_outbox_if_run i p f w) as [n ->] end.
    exists (clock w (ticks w)), (clock w (ticks w)). eexists.
    split_and!; [done|split; simpl; [done|lia]|by exists (ticks w)|done].
  - unfold mbind, M_bind.
    match goal with |- context [update_outbox_if ?i ?p ?f ?w0] =>
      destruct (update_outbox_if_run i p f w0) as [n ->] end.
    exists (clock w (ticks w)). do 2 eexists.
    split_and!; [done|split; simpl; [done|lia]|by exists (ticks w)|done].
  - unfold mbind, M_bind.
    match goal with |- context [update_outbox_if ?i ?p ?f ?w0] =>
      destruct (update_outbox_if_run i p f w0) as [n ->] end.
    exists (clock w (ticks w)). do 2 eexists.
    split_and!; [done|split; simpl; [done|lia]|by exists (ticks w)|]. simpl. unfold settled_row.
    by destruct (exhausted event).
Qed.
Lemma publish_parts event s :
  publish workerId event s = (o ← offer event; io (settle o event)) s.
Proof.
  unfold publish, offer. destruct (routeOutboxEvent _) as [route|] eqn:Hr; [|done].
  unfold mbind, M_bind, catch. destruct (addOutboxJob route event s) as [[[]|e] s1]; [|done].
  simpl. unfold io.
  destruct (settle_run Accepted event (world s1)) as (?&?&w'&Hs&_). simpl in Hs.
  by rewrite Hs.
Qed.
End publication.

Section offering.
Context `{ZodFormats} {Q : Type} `{JobQueueLaws Q}.

(** The queues take every job, and the event makes a job that its schema accepts. *)
Definition accepting : Prop :=
  ∀ n name data o (q : Q), fst (queue_add n name data o q) = Ok tt.
Definition deliverable (event : OutboxEvent) : Prop :=
  is_Some (backgroundJobDataSchema (job_json (outbox_job_data event))).
(** The queue of the event's route has its job. *)
Definition queued (event : OutboxEvent) (q : Q) : Prop :=
  ∃ route j, routeOutboxEvent (out_eventType event) = Some route ∧
    queue_job (rt_queueName route) (outbox_job_id (out_id event)) q = Some j.

Lemma offer_run event s :
  ∃ o q', offer event s = (Ok o, MkStack (world s) q') ∧
    (o = Unroutable ↔ routeOutboxEvent (out_eventType event) = None) ∧
    (o = Accepted → queued event q') ∧
    (o = Refused → accepting → ¬ deliverable event) ∧
    (∀ n i j, queue_job n i (queues s) = Some j → queue_job n i q' = Some j).
Proof using Type*.
  unfold offer, queued. destruct (routeOutboxEvent _) as [route|] eqn:Hr.
  2:{ exists Unroutable, (queues s). destruct s. by split_and!. }
  unfold catch, addOutboxJob, mbind, M_bind, lift, on_queues.
  destruct (parse _ _) as [data|e] eqn:Hp.
  2:{ exists Refused, (queues s). destruct s. split_and!; [done..| |done].
      intros _ _ [data Hd]. unfold parse in Hp. by rewrite Hd in Hp. }
  destruct (queue_add _ _ _ _ _) as [[[]|e] q'] eqn:Ha.
  - exists Accepted, q'. split_and!; [done|done| |done|].
    + intros _. destruct (add_stores _ _ _ _ _ _ Ha) as (j&Hj&_). eauto.
    + intros n i j Hj. by eapply add_keeps.
  - exists Refused, q'. split_and!; [done|done|done| |].
    + intros _ Hacc. pose proof (f_equal fst Ha) as Hf. by rewrite Hacc in Hf.
    + intros n i j Hj. by eapply add_keeps.
Qed.
End offering.

(** ** Claiming *)
Lemma NoDup_ids (p : OutboxEvent → bool) m :
  outbox_ok m → NoDup (out_id <$> rows p m).
Proof.
  intros Hok. unfold rows.
  assert (Hsub : ∀ l : list (string * OutboxEvent),
    NoDup l.*1 → (∀ i e, (i, e) ∈ l → out_id e = i) →
    NoDup (out_id <$> List.filter p l.*2)).
  { induction l as [|[i e] l IH]; intros Hd Hid; simpl; [constructor|].
    apply list.NoDup_cons in Hd as [Hi Hd].
    assert (IH' : NoDup (out_id <$> List.filter p l.*2)).
    { apply IH; [done|]. intros. apply Hid. by right. }
    destruct (p e); [|done]. apply list.NoDup_cons. split; [|done].
    intros Hin. apply Hi. simpl in Hin. rewrite (Hid i e) in Hin by left.
    apply list_elem_of_fmap in Hin as (e'&He'&Hin).
    apply list_elem_of_In, List.filter_In in Hin as [Hin _].
    apply list_elem_of_In, list_elem_of_fmap in Hin as ([j e'']&->&Hin).
    simpl in He'. rewrite (Hid j e'') in He' by (by right).
    apply list_elem_of_fmap. by exists (j, e''). }
  apply Hsub; [apply NoDup_fst_map_to_list|].
  intros i e Hin. apply elem_of_map_to_list in Hin. by apply Hok.
Qed.
Lemma elem_outbox_rows (p : OutboxEvent → bool) m e :
  outbox_ok m → e ∈ rows p m ↔ p e = true ∧ m !! out_id e = Some e.
Proof.
  intros Hok. rewrite elem_rows. split.
  - intros (Hp&i&Hi). destruct (Hok i e Hi) as [-> _]. done.
  - naive_solver.
Qed.

Section claiming.
Context (workerId : string) (batch timeout : Z).

(** The two clock readings of a claim. *)
Definition claim_cutoff (w : World) : Z := clock w (ticks w) - timeout * 1000.
Definition claim_now (w : World) : Z := clock w (S (ticks w)).
Definition claimed_at (w : World) : list OutboxEvent :=
  candidates batch (claim_now w) (claim_cutoff w) (db w).
Definition claim_table (w : World) : gmap string OutboxEvent :=
  update_rows (λ e, bool_decide (out_id e ∈ out_id <$> claimed_at w))
    (claimed workerId (claim_now w)) (outboxEvents (db w)).

Lemma candidates_spec w e :
  outbox_ok (outboxEvents (db w)) → e ∈ claimed_at w →
  claimable (claim_now w) (claim_cutoff w) e = true ∧
  outboxEvents (db w) !! out_id e = Some e.
Proof.
  intros Hok He. apply elem_of_take in He as (k&Hk&_). apply list_elem_of_lookup_2 in Hk.
  unfold in_claim_order in Hk. rewrite merge_sort_Permutation in Hk.
  by apply elem_outbox_rows in Hk.
Qed.
Lemma candidates_nodup w :
  outbox_ok (outboxEvents (db w)) → NoDup (out_id <$> claimed_at w).
Proof.
  intros Hok. unfold claimed_at, candidates. rewrite fmap_take.
  eapply sublist_NoDup; [|apply sublist_take].
  unfold in_claim_order. rewrite merge_sort_Permutation. by apply NoDup_ids.
Qed.
(** An oldest batch: whatever is claimable and left is no older. *)
Lemma candidates_oldest w e e' :
  e ∈ claimed_at w → e' ∈ rows (claimable (claim_now w) (claim_cutoff w)) (outboxEvents (db w)) →
  e' ∉ claimed_at w → claim_order e e'.
Proof.
  unfold claimed_at, candidates. set (l := rows _ _). intros He Hl Hn.
  rewrite <- (merge_sort_Permutation claim_order l) in Hl. fold (in_claim_order l) in Hl.
  pose proof (StronglySorted_merge_sort claim_order l) as Hs. fold (in_claim_order l) in Hs.
  rewrite <- (take_drop (Z.to_nat batch) (in_claim_order l)) in Hs, Hl.
  apply elem_of_app in Hl as [|Hl]; [done|].
  by eapply StronglySorted_app_1_elem_of.
Qed.
Lemma candidates_length w :
  length (claimed_at w) = min (Z.to_nat batch)
    (length (rows (claimable (claim_now w) (claim_cutoff w)) (outboxEvents (db w)))).
Proof.
  unfold claimed_at, candidates, in_claim_order.
  by rewrite length_take, (Permutation_length (merge_sort_Permutation claim_order _)).
Qed.

Lemma elem_claimed w e :
  outbox_ok (outboxEvents (db w)) → outboxEvents (db w) !! out_id e = Some e →
  out_id e ∈ out_id <$> claimed_at w ↔ e ∈ claimed_at w.
Proof.
  intros Hok He. rewrite list_elem_of_fmap. split; [|by eauto].
  intros (e'&Hid&He'). destruct (candidates_spec w e' Hok He') as [_ Hl].
  rewrite <- Hid, He in Hl. by simplify_eq.
Qed.
Lemma claim_table_claimed w e :
  outbox_ok (outboxEvents (db w)) → e ∈ claimed_at w →
  claim_table w !! out_id e = Some (claimed workerId (claim_now w) e).
Proof.
  intros Hok He. destruct (candidates_spec w e Hok He) as [_ Hl].
  unfold claim_table. rewrite update_rows_lookup, Hl. simpl.
  rewrite bool_decide_eq_true_2; [done|]. by apply elem_claimed.
Qed.
Lemma claim_table_other w i :
  i ∉ out_id <$> claimed_at w → outbox_ok (outboxEvents (db w)) →
  claim_table w !! i = outboxEvents (db w) !! i.
Proof.
  intros Hi Hok. unfold claim_table. rewrite update_rows_lookup.
  destruct (outboxEvents (db w) !! i) as [e|] eqn:He; [|done]. simpl.
  destruct (Hok i e He) as [-> _]. by rewrite bool_decide_eq_false_2.
Qed.
Lemma claim_table_ok w : outbox_ok (outboxEvents (db w)) → outbox_ok (claim_table w).
Proof.
  intros Hok i e He. unfold claim_table in He. rewrite update_rows_lookup in He.
  apply fmap_Some in He as (e0&He0&->). destruct (Hok i e0 He0) as [Hi Hl].
  by case_bool_decide.
Qed.
Lemma claim_run w :
  outbox_ok (outboxEvents (db w)) →
  ∃ es w', claimBatch workerId batch timeout w = (Ok es, w') ∧
    es ≡ₚ claimed workerId (claim_now w) <$> claimed_at w ∧ Sorted claim_order es ∧
    outboxEvents (db w') = claim_table w ∧
    clock w' = clock w ∧ ticks w' = S (S (ticks w)).
Proof.
  intros Hok.
  assert (Hclaim : claim workerId batch timeout w =
    (Ok (out_id <$> claimed_at w),
     w <| ticks := S (S (ticks w)) |> <| db := db w <| outboxEvents := claim_table w |> |>))
    by done.
  unfold claimBatch. unfold mbind, M_bind. rewrite Hclaim. clear Hclaim.
  case_bool_decide as Hnil.
  - apply fmap_nil_inv in Hnil. eexists [], _. rewrite Hnil.
    split_and!; [done|done|constructor|done|done|done].
  - eexists _, _. split; [done|]. split_and!; [|apply Sorted_merge_sort, _|done|done|done].
    unfold in_claim_order. rewrite merge_sort_Permutation. simpl.
    pose proof (claim_table_ok w Hok) as Hok'. apply NoDup_Permutation.
    + eapply (NoDup_fmap_1 out_id), NoDup_ids, Hok'.
    + apply (NoDup_fmap_1 out_id). rewrite <- list_fmap_compose.
      rewrite (list_fmap_ext _ out_id) by done. by apply candidates_nodup.
    + intros e. rewrite elem_outbox_rows by done. rewrite bool_decide_eq_true.
      rewrite !list_elem_of_fmap. split.
      * intros ((e0&Hid&He0)&Hl). rewrite Hid, claim_table_claimed in Hl by done.
        apply (inj Some) in Hl as <-. eauto.
      * intros (e0&->&He0). split; [by exists e0|]. exact (claim_table_claimed w e0 Hok He0).
Qed.
End claiming.

Lemma settled_row_id o event now updated e : out_id (settled_row o event now updated e) = out_id e.
Proof. destruct o; simpl; [done|done|]. by destruct (exhausted event). Qed.
Lemma settled_row_status o event now updated e :
  out_status (settled_row o event now updated e) = OutboxStatus.PUBLISHED ∧ o = Accepted ∨
  out_status (settled_row o event now updated e) = OutboxStatus.FAILED ∧
    (o = Unroutable ∨ o = Refused ∧ exhausted event = true) ∨
  out_status (settled_row o event now updated e) = OutboxStatus.PENDING ∧
    o = Refused ∧ exhausted event = false.
Proof. destruct o; simpl; [naive_solver..|]. destruct (exhausted event); simpl; naive_solver. Qed.

(** ** One cycle *)
Section cycle.
Context `{ZodFormats} {Q : Type} `{JobQueueLaws Q}.
Context (workerId : string) (batch timeout : Z).

Notation table s := (outboxEvents (db (world s))).

(** A claimed [event] has been answered for: its row, and its job if accepted. *)
Definition answered (w : World) (event : OutboxEvent) (s : Stack Q) : Prop :=
  ∃ o now updated,
    table s !! out_id event = Some (settled_row o event now updated event) ∧
    reading w now ∧
    (o = Unroutable ↔ routeOutboxEvent (out_eventType event) = None) ∧
    (o = Accepted → queued event (queues s)) ∧
    (o = Refused → accepting (Q := Q) → ¬ deliverable event).

Lemma publish_run event s :
  ∃ o now updated s', publish workerId event s = (Ok tt, s') ∧
    time_moves (world s) (world s') ∧ reading (world s) now ∧
    table s' = changed_at (out_id event) (held workerId)
                 (settled_row o event now updated) (table s) ∧
    (o = Unroutable ↔ routeOutboxEvent (out_eventType event) = None) ∧
    (o = Accepted → queued event (queues s')) ∧
    (o = Refused → accepting (Q := Q) → ¬ deliverable event) ∧
    (∀ n i j, queue_job n i (queues s) = Some j → queue_job n i (queues s') = Some j).
Proof using Type*.
  rewrite publish_parts. unfold mbind, M_bind.
  destruct (offer_run event s) as (o&q'&->&Hu&Ha&Href&Hk). unfold io. cbn [world queues].
  destruct (settle_run workerId o event (world s)) as (now&upd&w'&->&Ht&Hr&Hm).
  exists o, now, upd. by eexists.
Qed.
Lemma publish_all es s :
  NoDup (out_id <$> es) →
  (∀ e, e ∈ es → table s !! out_id e = Some e ∧ held workerId e = true) →
  ∃ s', for_each es (publish workerId) s = (Ok tt, s') ∧
    time_moves (world s) (world s') ∧
    (∀ i, i ∉ out_id <$> es → table s' !! i = table s !! i) ∧
    (∀ e, e ∈ es → answered (world s) e s') ∧
    (∀ n i j, queue_job n i (queues s) = Some j → queue_job n i (queues s') = Some j).
Proof using Type*.
  revert s. induction es as [|e es IH]; intros s Hd Hes.
  { exists s. split_and!; [done|done|done| |done]. intros e He. by apply not_elem_of_nil in He. }
  rewrite fmap_cons in Hd. apply list.NoDup_cons in Hd as [Hn Hd].
  destruct (publish_run e s) as (o&now&upd&s1&Hp&Ht1&Hr&Hm&Hu&Ha&Href&Hk1).
  assert (Hother : ∀ i, i ≠ out_id e → table s1 !! i = table s !! i).
  { intros i Hi. rewrite Hm, changed_at_lookup, bool_decide_eq_false_2 by done.
    by destruct (table s !! i). }
  destruct (IH s1 Hd) as (s'&Hrun&Ht2&Hout&Hall&Hk2).
  { intros e' He'. rewrite Hother; [by apply Hes; right|].
    intros Heq. apply Hn. rewrite <- Heq. by apply list_elem_of_fmap_2. }
  destruct (Hes e) as [Hl Hh]; [by left|].
  exists s'. split.
  { simpl. unfold mbind, M_bind. by rewrite Hp. }
  destruct Ht1 as [Hc1 ?], Ht2 as [Hc2 ?]. split_and!.
  - split; [congruence|lia].
  - intros i Hi. rewrite fmap_cons, list.not_elem_of_cons in Hi. destruct Hi as [Hi Hi'].
    rewrite Hout, Hother by done. done.
  - intros e' He'. apply elem_of_cons in He' as [->|He'].
    + exists o, now, upd. rewrite Hout by done. rewrite Hm, changed_at_lookup, Hl. simpl.
      rewrite bool_decide_eq_true_2, Hh by done. split_and!; [done|done|done| |done].
      intros Ho. destruct (Ha Ho) as (route&j&?&?). exists route, j. auto.
    + destruct (Hall e' He') as (o'&now'&upd'&?&(k&?&?)&?&?&?). exists o', now', upd'.
      split_and!; [done| |assumption..]. exists k. split; [lia|congruence].
  - auto.
Qed.
Lemma dispatch_run s :
  outbox_ok (table s) →
  ∃ s', dispatchOnce workerId batch timeout s =
    (Ok (Z.of_nat (length (claimed_at batch timeout (world s)))), s') ∧
    clock (world s') = clock (world s) ∧
    (S (S (ticks (world s))) ≤ ticks (world s'))%nat ∧
    (∀ i, i ∉ out_id <$> claimed_at batch timeout (world s) →
       table s' !! i = table s !! i) ∧
    (∀ e, e ∈ claimed_at batch timeout (world s) →
       answered (world s) (claimed workerId (claim_now (world s)) e) s') ∧
    (∀ n i j, queue_job n i (queues s) = Some j → queue_job n i (queues s') = Some j).
Proof using Type*.
  intros Hok. destruct (claim_run workerId batch timeout (world s) Hok)
    as (es&w1&Hc&Hperm&_&Hm&Hcl&Htk).
  assert (Hids : out_id <$> es ≡ₚ out_id <$> claimed_at batch timeout (world s)).
  { rewrite Hperm, <- list_fmap_compose. by rewrite (list_fmap_ext _ out_id). }
  destruct (publish_all es (MkStack w1 (queues s))) as (s'&Hrun&[Hcl' Htk']&Hout&Hall&Hkeep).
  { rewrite Hids. by apply candidates_nodup. }
  { intros e He. rewrite Hperm in He. apply list_elem_of_fmap in He as (e0&->&He0).
    simpl. rewrite Hm. split; [by apply claim_table_claimed|].
    unfold held. simpl. by rewrite bool_decide_eq_true_2. }
  simpl in *. exists s'. split.
  { unfold dispatchOnce, io, mbind, M_bind. rewrite Hc. rewrite Hrun.
    by rewrite Hperm, length_fmap. }
  split_and!; [congruence|lia| | |exact Hkeep].
  - intros i Hi. rewrite Hout by (by rewrite Hids). rewrite Hm. by apply claim_table_other.
  - intros e He. destruct (Hall (claimed workerId (claim_now (world s)) e)) as
      (o&now&upd&?&(k&?&?)&?&?&?).
    { rewrite Hperm. by apply list_elem_of_fmap_2. }
    exists o, now, upd. split_and!; [done| |assumption..]. exists k. split; [lia|congruence].
Qed.

Lemma cycle_ok (s s' : Stack Q) :
  outbox_ok (table s) →
  (∀ i, i ∉ out_id <$> claimed_at batch timeout (world s) → table s' !! i = table s !! i) →
  (∀ e, e ∈ claimed_at batch timeout (world s) →
     answered (world s) (claimed workerId (claim_now (world s)) e) s') →
  outbox_ok (table s').
Proof.
  intros Hok Hout Hall i e He.
  destruct (decide (i ∈ out_id <$> claimed_at batch timeout (world s))) as [Hi|Hi].
  - apply list_elem_of_fmap in Hi as (e0&->&He0).
    destruct (Hall e0 He0) as (o&now&upd&Hl&_). simpl in Hl. rewrite He in Hl. simplify_eq.
    rewrite settled_row_id. split; [done|]. intros Hs.
    destruct (settled_row_status o (claimed workerId (claim_now (world s)) e0) now upd
      (claimed workerId (claim_now (world s)) e0)) as [[? _]|[[? _]|[? _]]]; congruence.
  - rewrite Hout in He by done. by apply Hok.
Qed.

(** a cycle never fails.  It takes an oldest batch of the due events, leaves
    every other row as it was, and settles each event it took: FAILED at once when
    no queue is for it, PUBLISHED only when its queue holds its job, and otherwise
    PENDING again after a growing delay or, at the fifth attempt, FAILED. *)
Theorem dispatch_cycle_exact s (Hok : outbox_ok (table s)) :
  let taken := claimed_at batch timeout (world s) in
  let due := rows (claimable (claim_now (world s)) (claim_cutoff timeout (world s))) (table s) in
  (∀ e, e ∈ taken → e ∈ due) ∧ length taken = min (Z.to_nat batch) (length due) ∧
  (∀ e e', e ∈ taken → e' ∈ due → e' ∉ taken → claim_order e e') ∧
  ∃ s', dispatchOnce workerId batch timeout s = (Ok (Z.of_nat (length taken)), s') ∧
    (∀ i, i ∉ out_id <$> taken → table s' !! i = table s !! i) ∧
    (∀ e, e ∈ taken → answered (world s) (claimed workerId (claim_now (world s)) e) s') ∧
    outbox_ok (table s').
Proof using Type*.
  intros taken due. destruct (dispatch_run s Hok) as (s'&Hrun&_&_&Hout&Hall&_).
  split_and!.
  - intros e He. destruct (candidates_spec batch timeout (world s) e Hok He) as [? ?].
    by apply elem_outbox_rows.
  - apply candidates_length.
  - intros e e' He Hd Hn. by eapply candidates_oldest.
  - exists s'. split_and!; [done|done|done|]. by eapply cycle_ok.
Qed.
End cycle.

(** ** Every event is settled in the end *)
Section liveness.
Context `{ZodFormats} {Q : Type} `{JobQueueLaws Q}.
Context (workerId : string) (batch timeout : Z).

Notation table s := (outboxEvents (db (world s))).

(** The timer: one cycle after another. *)
Fixpoint cycles (n : nat) : StackIo Q unit :=
  match n with
  | O => mret tt
  | S n => _ ← tick workerId batch timeout false; cycles n
  end.

(** How many claims an event may still need. *)
Definition open_status (s : OutboxStatus) : bool :=
  (s ==b OutboxStatus.PENDING) || (s ==b OutboxStatus.PROCESSING).
Definition potential (e : OutboxEvent) : Z :=
  if open_status (out_status e)
  then 1 + Z.max 0 (MAX_PUBLICATION_ATTEMPTS - out_attemptCount e) else 0.
(** When an open event becomes claimable at the latest. *)
Definition due_at (e : OutboxEvent) : Z :=
  match out_status e, out_lockedAt e with
  | OutboxStatus.PROCESSING, Some t => t + timeout * 1000 + 1
  | _, _ => out_availableAt e
  end.
Lemma potential_nonneg e : 0 <= potential e.
Proof. unfold potential. destruct (open_status _); lia. Qed.
Lemma claimable_open now cutoff e :
  claimable now cutoff e = true → open_status (out_status e) = true.
Proof.
  unfold claimable, open_status. intros Hc.
  apply orb_true_iff in Hc as [Hc|Hc]; apply andb_true_iff in Hc as [-> _]; [done|].
  apply orb_true_r.
Qed.
Lemma cycle_decreases (s s' : Stack Q) e :
  outbox_ok (table s) →
  (∀ i, i ∉ out_id <$> claimed_at batch timeout (world s) → table s' !! i = table s !! i) →
  (∀ e, e ∈ claimed_at batch timeout (world s) →
     answered (world s) (claimed workerId (claim_now (world s)) e) s') →
  e ∈ claimed_at batch timeout (world s) →
  msum potential (table s') < msum potential (table s).
Proof.
  intros Hok Hout Hall He.
  assert (Hstep : ∀ e, e ∈ claimed_at batch timeout (world s) →
    ∃ r, table s !! out_id e = Some e ∧ table s' !! out_id e = Some r ∧
      potential r < potential e).
  { intros e0 He0. destruct (Hall e0 He0) as (o&now&upd&Hl&_).
    destruct (candidates_spec batch timeout (world s) e0 Hok He0) as [Hc Hl0].
    eexists. split_and!; [done|exact Hl|].
    assert (Hopen : open_status (out_status e0) = true) by (by eapply claimable_open).
    unfold potential. rewrite Hopen. clear Hl Hall Hout.
    set (e1 := claimed workerId (claim_now (world s)) e0).
    destruct (settled_row_status o e1 now upd e1) as [[-> _]|[[-> _]|(->&->&Hex)]];
      [simpl; lia..|].
    simpl. rewrite Hex. unfold exhausted in Hex. split_bool.
    assert (out_attemptCount e1 = out_attemptCount e0 + 1) by done.
    unfold MAX_PUBLICATION_ATTEMPTS in *. simpl. lia. }
  destruct (Hstep e He) as (r&Hl&Hl'&Hlt). eapply msum_strict; eauto.
  intros i. destruct (decide (i ∈ out_id <$> claimed_at batch timeout (world s))) as [Hi|Hi].
  - apply list_elem_of_fmap in Hi as (e0&->&He0).
    destruct (Hstep e0 He0) as (r0&->&->&?). lia.
  - rewrite Hout by done. destruct (table s !! i); [lia|done].
Qed.

Lemma due_claimable (s : Stack Q) i e :
  outbox_ok (table s) → table s !! i = Some e → open_status (out_status e) = true →
  due_at e <= clock (world s) (ticks (world s)) →
  due_at e <= clock (world s) (S (ticks (world s))) →
  claimable (claim_now (world s)) (claim_cutoff timeout (world s)) e = true.
Proof.
  intros Hok He Hopen Ht Ht'. destruct (Hok i e He) as [_ Hl].
  unfold claimable, claim_now, claim_cutoff, due_at, open_status in *.
  destruct (out_status e) eqn:Hs; simpl in *; try done.
  - rewrite orb_false_r. apply Z.leb_le. lia.
  - destruct (Hl eq_refl) as [[t Hlock] _]. rewrite Hlock in *. apply Z.ltb_lt. lia.
Qed.

(** What is fixed of an event: all but the columns of its delivery. *)
Definition undelivered (e : OutboxEvent) : OutboxEvent :=
  e <| out_status := OutboxStatus.PENDING |> <| out_attemptCount := 0 |>
    <| out_availableAt := 0 |> <| out_lockedAt := None |> <| out_lockedBy := None |>
    <| out_publishedAt := None |> <| out_lastError := None |> <| out_updatedAt := 0 |>.
(** What becomes of an event that was [e]: if it was open it is open still, or its job
    is in the queue of its route, or it failed for the reason it gives; an event that
    was settled stays as it was. *)
Definition fate (e e' : OutboxEvent) (q : Q) : Prop :=
  if open_status (out_status e) then
    undelivered e' = undelivered e ∧
    match out_status e' with
    | OutboxStatus.PENDING | OutboxStatus.PROCESSING => True
    | OutboxStatus.PUBLISHED => queued e q
    | OutboxStatus.FAILED =>
        if bool_decide (routeOutboxEvent (out_eventType e) = None)
        then out_lastError e' = Some "OUTBOX_EVENT_UNROUTABLE"
        else out_lastError e' = Some "OUTBOX_PUBLICATION_ATTEMPTS_EXHAUSTED" ∧
             MAX_PUBLICATION_ATTEMPTS <= out_attemptCount e' ∧
             (accepting (Q := Q) → ¬ deliverable e)
    end
  else e' = e.
Definition kept_jobs (q q' : Q) : Prop :=
  ∀ n i j, queue_job n i q = Some j → queue_job n i q' = Some j.
Definition progress (s s' : Stack Q) : Prop :=
  map_Forall2 (λ _ e e', fate e e' (queues s')) (table s) (table s') ∧
  kept_jobs (queues s) (queues s').

Lemma undelivered_same e e' q :
  undelivered e' = undelivered e →
  out_eventType e' = out_eventType e ∧ (deliverable e' ↔ deliverable e) ∧
  (queued e' q ↔ queued e q).
Proof.
  intros Hu. pose proof (f_equal out_eventType Hu) as Ht.
  pose proof (f_equal out_id Hu) as Hi. pose proof (f_equal outbox_job_data Hu) as Hd.
  change (out_eventType e' = out_eventType e) in Ht. change (out_id e' = out_id e) in Hi.
  change (outbox_job_data e' = outbox_job_data e) in Hd.
  unfold deliverable, queued. by rewrite Ht, Hi, Hd.
Qed.
Lemma queued_kept e q q' : kept_jobs q q' → queued e q → queued e q'.
Proof. intros Hk (r&j&Hr&Hj). exists r, j. auto. Qed.
Lemma fate_refl e q : fate e e q.
Proof.
  unfold fate, open_status. destruct (out_status e) eqn:Hs; simpl; try done; by rewrite Hs.
Qed.
Lemma fate_trans e e1 e2 q1 q2 :
  kept_jobs q1 q2 → fate e e1 q1 → fate e1 e2 q2 → fate e e2 q2.
Proof.
  intros Hk F1 F2. unfold fate in *. destruct (open_status (out_status e)) eqn:Ho.
  2: { subst e1. by rewrite Ho in F2. }
  destruct F1 as [Hu1 F1]. destruct (undelivered_same e e1 q2 Hu1) as (Ht&Hd&Hq).
  destruct (open_status (out_status e1)) eqn:Ho1.
  - destruct F2 as [Hu2 F2]. split; [congruence|]. rewrite Ht in F2.
    destruct (out_status e2); [done|done|by apply Hq|]. destruct (bool_decide _); [done|].
    destruct F2 as (?&?&Hr). split_and!; [done..|]. intros Ha Hx. by apply (Hr Ha), Hd.
  - subst e2. split; [done|]. destruct (out_status e1); try done. by eapply queued_kept.
Qed.
Lemma progress_refl s : progress s s.
Proof.
  split; [|by intros n i j]. intros i.
  destruct (table s !! i) as [e|]; constructor. apply fate_refl.
Qed.
Lemma progress_trans s s1 s2 : progress s s1 → progress s1 s2 → progress s s2.
Proof.
  intros [P1 K1] [P2 K2]. split; [|intros n i j Hj; auto].
  intros i. specialize (P1 i). specialize (P2 i).
  destruct P1 as [e e1 F1|]; inversion P2 as [? e2 F2|]; subst; constructor.
  by eapply fate_trans.
Qed.
(** An event that a cycle answered for. *)
Lemma answered_fate w now (s' : Stack Q) e e' :
  open_status (out_status e) = true →
  answered w (claimed workerId now e) s' → table s' !! out_id e = Some e' →
  fate e e' (queues s').
Proof.
  intros Ho (o&t&upd&Hl&_&Hu&Ha&Href) He'. change (out_id (claimed _ _ e)) with (out_id e) in Hl.
  rewrite He' in Hl. injection Hl as ->. unfold fate. rewrite Ho.
  destruct o; simpl.
  - split; [done|]. by rewrite bool_decide_eq_true_2 by by apply Hu.
  - split; [done|]. by apply Ha.
  - destruct (exhausted (claimed workerId now e)) eqn:Hex; simpl; [|by split].
    split; [done|]. rewrite bool_decide_eq_false_2; [|by intros Hn; apply Hu in Hn].
    split_and!; [done|by apply Z.leb_le|by apply Href].
Qed.
Lemma cycle_progress (s s' : Stack Q) :
  outbox_ok (table s) →
  (∀ i, i ∉ out_id <$> claimed_at batch timeout (world s) → table s' !! i = table s !! i) →
  (∀ e, e ∈ claimed_at batch timeout (world s) →
     answered (world s) (claimed workerId (claim_now (world s)) e) s') →
  kept_jobs (queues s) (queues s') → progress s s'.
Proof.
  intros Hok Hout Hall Hk. split; [|exact Hk]. intros i.
  destruct (decide (i ∈ out_id <$> claimed_at batch timeout (world s))) as [Hi|Hi].
  - apply list_elem_of_fmap in Hi as (e&->&He).
    destruct (candidates_spec batch timeout (world s) e Hok He) as [Hc Hl].
    pose proof (Hall e He) as Ha. pose proof Ha as (?&?&?&Hl'&_).
    change (out_id (claimed _ _ e)) with (out_id e) in Hl'.
    rewrite Hl, Hl'. constructor.
    eapply answered_fate; [by eapply claimable_open|exact Ha|exact Hl'].
  - rewrite Hout by done. destruct (table s !! i); constructor. apply fate_refl.
Qed.

(** One cycle takes an event or leaves the table as it is, and time goes on. *)
Lemma tick_progress s :
  outbox_ok (table s) → 1 <= batch →
  ∃ s', tick workerId batch timeout false s = (Ok tt, s') ∧ outbox_ok (table s') ∧
    progress s s' ∧
    clock (world s') = clock (world s) ∧ (ticks (world s) < ticks (world s'))%nat ∧
    (msum potential (table s') < msum potential (table s) ∨
     table s' = table s ∧
     ∀ i e, table s !! i = Some e → open_status (out_status e) = true →
       ¬ (due_at e <= clock (world s) (ticks (world s)) ∧
          due_at e <= clock (world s) (S (ticks (world s))))).
Proof using Type*.
  intros Hok Hbatch.
  destruct (dispatch_run workerId batch timeout s Hok) as (s'&Hrun&Hc&Ht&Hout&Hall&Hkeep).
  exists s'. split_and!.
  - unfold tick, catch. unfold mbind at 1, M_bind at 1. by rewrite Hrun.
  - by eapply cycle_ok.
  - by apply cycle_progress.
  - done.
  - lia.
  - destruct (claimed_at batch timeout (world s)) as [|e l] eqn:Hcl.
    + right. split; [apply map_eq; intros i; apply Hout, not_elem_of_nil|].
      intros i e He Hopen [Ht1 Ht2].
      pose proof (due_claimable s i e Hok He Hopen Ht1 Ht2) as Hdue.
      pose proof (candidates_length batch timeout (world s)) as Hlen.
      rewrite Hcl in Hlen. simpl in Hlen.
      assert (Hin : e ∈ rows (claimable (claim_now (world s))
        (claim_cutoff timeout (world s))) (table s)).
      { apply elem_rows. eauto. }
      destruct (rows _ _); [by apply not_elem_of_nil in Hin|simpl in Hlen; lia].
    + left. eapply (cycle_decreases s s' e); rewrite ?Hcl; auto; by left.
Qed.

Lemma drain_run s :
  1 <= batch → outbox_ok (table s) →
  (∀ t, ∃ k, ∀ j, (k ≤ j)%nat → t <= clock (world s) j) →
  ∃ n s', cycles n s = (Ok tt, s') ∧ progress s s' ∧
    map_Forall (λ _ e, open_status (out_status e) = false) (table s').
Proof using Type*.
  intros Hbatch Hok Hclock.
  remember (Z.to_nat (msum potential (table s))) as N eqn:HN.
  revert s Hok Hclock HN. induction N as [N IH] using (well_founded_induction lt_wf).
  intros s Hok Hclock ->.
  destruct (decide (map_Forall (λ _ e, open_status (out_status e) = false) (table s)))
    as [Hall|Hsome].
  { exists O, s. split; [done|]. split; [apply progress_refl|done]. }
  apply map_not_Forall in Hsome; [|intros; apply _]. destruct Hsome as (i&e&He&Hopen).
  apply not_false_iff_true in Hopen.
  destruct (Hclock (due_at e)) as [k Hk].
  remember (k - ticks (world s))%nat as d eqn:Hd.
  revert s Hok Hclock Hk He Hd IH.
  induction d as [d IHd] using (well_founded_induction lt_wf).
  intros s Hok Hclock Hk He -> IH.
  destruct (tick_progress s Hok Hbatch) as (s1&Htick&Hok1&Hpr&Hc1&Ht1&[Hlt|[Heq Hno]]).
  - destruct (IH (Z.to_nat (msum potential (table s1)))) with (s := s1) as (n&s'&Hn&Hp&Hs); auto.
    { assert (0 <= msum potential (table s1)); [|lia].
      apply msum_nonneg. intros. apply potential_nonneg. }
    { by rewrite Hc1. }
    exists (S n), s'. split; [|split; [by eapply progress_trans|done]]. cbn [cycles]. unfold mbind, M_bind. by rewrite Htick.
  - destruct (IHd (k - ticks (world s1))%nat) with (s := s1) as (n&s'&Hn&Hp&Hs); auto.
    { destruct (le_lt_dec k (ticks (world s))) as [Hle|Hgt]; [|lia].
      exfalso. apply (Hno i e He Hopen). split; apply Hk; lia. }
    { by rewrite Hc1. } { by rewrite Hc1. } { by rewrite Heq. } { by rewrite Heq. }
    exists (S n), s'. split; [|split; [by eapply progress_trans|done]]. cbn [cycles]. unfold mbind, M_bind. by rewrite Htick.
Qed.

(** C30: while the clock in the end passes every date and a cycle takes at least one
    event, finitely many cycles settle the whole outbox, however the queues answer,
    and every event the right way.  No event appears, disappears or changes but in the
    columns of its delivery, and one that was settled before stays as it was.  An
    event without a route ends FAILED, and says so.  Any other ends PUBLISHED with its
    job in the queue of its route, or FAILED because its attempts are used up; and if
    the queues accept jobs, every event that makes a valid job ends PUBLISHED. *)
Theorem outbox_drains s
    (Hbatch : 1 <= batch) (Hok : outbox_ok (table s))
    (Hclock : ∀ t, ∃ k, ∀ j, (k ≤ j)%nat → t <= clock (world s) j) :
  ∃ n s', cycles n s = (Ok tt, s') ∧
    map_Forall2 (λ _ e e', fate e e' (queues s') ∧ open_status (out_status e') = false)
      (table s) (table s').
Proof using Type*.
  destruct (drain_run s Hbatch Hok Hclock) as (n&s'&Hn&[Hp _]&Hall).
  exists n, s'. split; [exact Hn|]. intros i. specialize (Hp i). specialize (Hall i).
  destruct Hp as [e e' Hf|]; constructor. split; [exact Hf|by apply Hall].
Qed.
End liveness.

(** ** An outbox of three events *)
Definition sample_outbox_event (id eventType : string) (attempts availableAt : Z)
    : OutboxEvent :=
  MkOutboxEvent id "INVOICE" "i" eventType id JNull OutboxStatus.PENDING attempts
    availableAt None None None None 0 0.
Definition outbox_stack : Stack MemoryQueue :=
  MkStack
    (MkWorld
       (empty_db <| outboxEvents :=
          {["a" := sample_outbox_event "a" "EMAIL_INVOICE_CREATED" 0 0;
            "b" := sample_outbox_event "b" "invoice.paid" 4 5;
            "c" := sample_outbox_event "c" "EMAIL_OVERDUE_NOTICE" 0 9000]} |>)
       (λ n, Nat.iter n (String "i") "d") 0 (λ n, Z.of_nat n * 1000) 0 [])
    (λ _ _, None).
Lemma outbox_stack_ok : outbox_ok (outboxEvents (db (world outbox_stack))).
Proof.
  intros i e He. cbn in He.
  apply lookup_insert_Some in He as [[<- <-]|[_ He]]; [done|].
  apply lookup_insert_Some in He as [[<- <-]|[_ He]]; [done|].
  apply lookup_singleton_Some in He as [<- <-]. done.
Qed.

Lemma dispatch_cycle_exact_witness :
  outbox_ok (outboxEvents (db (world outbox_stack))) ∧
  ∃ s', @dispatchOnce all_formats _ memory_queue "outbox-1" 25 120 outbox_stack = (Ok 2, s').
Proof.
  split; [apply outbox_stack_ok|].
  destruct (@dispatch_cycle_exact all_formats _ _ memory_queue_laws "outbox-1" 25 120
    outbox_stack outbox_stack_ok) as (_&_&_&s'&Hrun&_).
  exists s'. rewrite Hrun. do 2 f_equal.
Defined.
Lemma forall2_some {A B} (R : A → B → Prop) o o' :
  option_Forall2 R o o' → ∀ x, o = Some x → ∃ y, o' = Some y ∧ R x y.
Proof. intros [x y Hr|] ? [= ->]; eauto. Qed.
Lemma outbox_drains_witness :
  ∃ n s' a b, @cycles all_formats _ memory_queue "outbox-1" 25 120 n outbox_stack = (Ok tt, s') ∧
    outboxEvents (db (world s')) !! "a" = Some a ∧
    open_status (out_status a) = false ∧ out_eventType a = "EMAIL_INVOICE_CREATED" ∧
    outboxEvents (db (world s')) !! "b" = Some b ∧
    out_lastError b = Some "OUTBOX_EVENT_UNROUTABLE".
Proof.
  destruct (@outbox_drains all_formats _ _ memory_queue_laws "outbox-1" 25 120 outbox_stack)
    as (n&s'&Hn&Hall).
  - lia.
  - apply outbox_stack_ok.
  - intros t. exists (Z.to_nat t). intros j Hj. simpl. lia.
  - destruct (forall2_some _ _ _ (Hall "a") (sample_outbox_event "a" "EMAIL_INVOICE_CREATED" 0 0))
      as (a&Ha&Fa&Oa); [reflexivity|].
    destruct (forall2_some _ _ _ (Hall "b") (sample_outbox_event "b" "invoice.paid" 4 5))
      as (b&Hb&Fb&Ob); [reflexivity|].
    exists n, s', a, b. destruct Fa as [Ua _], Fb as [Ub Fb].
    split_and!; [exact Hn|done|exact Oa|exact (f_equal out_eventType Ua)|done|].
    change (match out_status b with
            | OutboxStatus.PENDING | OutboxStatus.PROCESSING => True
            | OutboxStatus.PUBLISHED => queued (sample_outbox_event "b" "invoice.paid" 4 5) (queues s')
            | OutboxStatus.FAILED => out_lastError b = Some "OUTBOX_EVENT_UNROUTABLE"
            end) in Fb.
    destruct (out_status b); try done. by destruct Fb as (r&?&[=]&_).
Defined.
