(* ===== verification/OutboxProtocol.v ===== *)
(** * Dispatchers side by side

    Several dispatchers, administrators, the services that write events and the
    queues run together; a dispatcher may stop at any await.  The model is a step
    relation whose steps are the program's transactions and calls.  It refines a
    specification of the delivery of one event: only its holder settles a claim, a
    claim is taken over only after the lock timeout, and an event that has been
    delivered stays so.  Dispatchers are told apart by their [workerId]. *)
From S2P Require Import Prelude JsString Json States Database Invoices BackgroundJobs Outbox OutboxProperties.

(** ** The specification: the delivery of one event *)
Inductive delivery :=
| Waiting (attempts due : Z)
| Claimed (attempts since : Z) (by_worker : string)
| Delivered
| Dead.
Inductive agent := Dispatcher (workerId : string) | Administrator | Elsewhere.

(** [routable]: some queue is for the event; [timeout] is in milliseconds. *)
Inductive deliver (timeout : Z) (routable : bool) : agent → delivery → delivery → Prop :=
| dl_claim w a due t : due <= t →
    deliver timeout routable (Dispatcher w) (Waiting a due) (Claimed (a + 1) t w)
| dl_take_over w v a since instant t : since < instant - timeout →
    deliver timeout routable (Dispatcher w) (Claimed a since v) (Claimed (a + 1) t w)
| dl_publish w a since : routable = true →
    deliver timeout routable (Dispatcher w) (Claimed a since w) Delivered
| dl_again w a since due : routable = true → a < MAX_PUBLICATION_ATTEMPTS →
    deliver timeout routable (Dispatcher w) (Claimed a since w) (Waiting a due)
| dl_give_up w a since : routable = false ∨ MAX_PUBLICATION_ATTEMPTS <= a →
    deliver timeout routable (Dispatcher w) (Claimed a since w) Dead
| dl_reopen due : routable = true →
    deliver timeout routable Administrator Dead (Waiting 0 due).

(** What a row says of its event's delivery. *)
Definition delivery_of (e : OutboxEvent) : delivery :=
  match out_status e, out_lockedAt e, out_lockedBy e with
  | OutboxStatus.PENDING, _, _ => Waiting (out_attemptCount e) (out_availableAt e)
  | OutboxStatus.PROCESSING, Some t, Some w => Claimed (out_attemptCount e) t w
  | OutboxStatus.PROCESSING, _, _ => Dead
  | OutboxStatus.PUBLISHED, _, _ => Delivered
  | OutboxStatus.FAILED, _, _ => Dead
  end.
Definition routable (e : OutboxEvent) : bool :=
  bool_decide (is_Some (routeOutboxEvent (out_eventType e))).
(** The columns no step writes. *)
Definition same_event (e e' : OutboxEvent) : Prop :=
  out_id e' = out_id e ∧ out_eventType e' = out_eventType e ∧
  out_aggregateType e' = out_aggregateType e ∧ out_aggregateId e' = out_aggregateId e ∧
  out_payload e' = out_payload e ∧ out_idempotencyKey e' = out_idempotencyKey e ∧
  out_createdAt e' = out_createdAt e.

(** ** The system *)
(** Where a dispatcher is: the events of its batch still to offer, or the answer
    to the one it has offered. *)
Inductive phase :=
| Between (rest : list OutboxEvent)
| Answered (o : outcome) (event : OutboxEvent) (rest : list OutboxEvent).
Definition batch_of (p : phase) : list OutboxEvent :=
  match p with Between rest => rest | Answered _ event rest => event :: rest end.

Record System (Q : Type) := MkSystem
  { sys_stack : Stack Q; sys_working : gmap string phase }.
Arguments MkSystem {Q}.
Arguments sys_stack {Q}.
Arguments sys_working {Q}.
Notation outbox y := (outboxEvents (db (world (sys_stack y)))).

(** A transaction of another component: it may write new events. *)
Definition events_added (m m' : gmap string OutboxEvent) : Prop :=
  (∀ i e, m !! i = Some e → m' !! i = Some e) ∧
  (∀ i e, m' !! i = Some e → m !! i = None →
     ∃ a b c k p at_ now, e = pending_event i a b c k p at_ now).

Section system.
Context `{ZodFormats} {Q : Type} `{JobQueueLaws Q}.
Context (batch timeout : Z).

Inductive sys_step : agent → System Q → System Q → Prop :=
| sy_claim w s W es s' :
    W !! w = None ∨ W !! w = Some (Between []) →
    io (claimBatch w batch timeout) s = (Ok es, s') →
    sys_step (Dispatcher w) (MkSystem s W) (MkSystem s' (<[w := Between es]> W))
| sy_offer w s W e rest o s' :
    W !! w = Some (Between (e :: rest)) →
    offer e s = (Ok o, s') →
    sys_step (Dispatcher w) (MkSystem s W) (MkSystem s' (<[w := Answered o e rest]> W))
| sy_settle w s W o e rest s' :
    W !! w = Some (Answered o e rest) →
    io (settle w o e) s = (Ok tt, s') →
    sys_step (Dispatcher w) (MkSystem s W) (MkSystem s' (<[w := Between rest]> W))
| sy_stop w s W :
    sys_step (Dispatcher w) (MkSystem s W) (MkSystem s (delete w W))
| sy_retry eventId actor context s W s' :
    io (retryOutboxEvent eventId actor context) s = (Ok tt, s') →
    sys_step Administrator (MkSystem s W) (MkSystem s' W)
| sy_other w' s W :
    events_added (outboxEvents (db (world s))) (outboxEvents (db w')) →
    sys_step Elsewhere (MkSystem s W) (MkSystem (MkStack w' (queues s)) W)
| sy_queues q' s W :
    sys_step Elsewhere (MkSystem s W) (MkSystem (MkStack (world s) q') W).

(** The systems so far, the current one first; the outbox starts empty. *)
Inductive run : list (System Q) → Prop :=
| run_start s : outboxEvents (db (world s)) = ∅ → run [MkSystem s ∅]
| run_step a y y' h : run (y :: h) → sys_step a y y' → run (y' :: y :: h).

Definition was_queued (h : list (System Q)) (e : OutboxEvent) : Prop :=
  ∃ z, z ∈ h ∧ queued e (queues (sys_stack z)).
Definition consistent (h : list (System Q)) (y : System Q) : Prop :=
  outbox_ok (outbox y) ∧
  (∀ w p, sys_working y !! w = Some p →
     NoDup (out_id <$> batch_of p) ∧
     ∀ e, e ∈ batch_of p → ∃ r, outbox y !! out_id e = Some r ∧ same_event e r ∧
       (held w r = true → r = e)) ∧
  (∀ w o e rest, sys_working y !! w = Some (Answered o e rest) →
     (o = Unroutable ↔ routeOutboxEvent (out_eventType e) = None) ∧
     (o = Accepted → was_queued h e)) ∧
  (∀ i r, outbox y !! i = Some r → out_status r = OutboxStatus.PUBLISHED → was_queued h r).
End system.

(** ** How rows change *)
Lemma same_event_refl e : same_event e e.
Proof. unfold same_event. naive_solver. Qed.
Lemma same_event_trans a b c : same_event a b → same_event b c → same_event a c.
Proof. unfold same_event. intuition congruence. Qed.
#[export] Hint Resolve same_event_refl : core.
Lemma same_event_settled o e now upd r : same_event r (settled_row o e now upd r).
Proof. unfold same_event. destruct o; simpl; [naive_solver..|]. by destruct (exhausted e). Qed.
Lemma settled_not_held w o e now upd r : held w (settled_row o e now upd r) = false.
Proof.
  unfold held. destruct o; simpl; [done..|]. destruct (exhausted e); done.
Qed.
Lemma held_Claimed w e :
  held w e = true → is_Some (out_lockedAt e) →
  ∃ t, delivery_of e = Claimed (out_attemptCount e) t w.
Proof.
  unfold held, delivery_of. intros Hh [t Ht]. split_bool. rewrite Ht.
  destruct (out_status e); try done. exists t. by match goal with H : out_lockedBy e = _ |- _ => rewrite H end.
Qed.

(** A claim of a due row is a step of its delivery. *)
Lemma claim_delivers timeout w instant now e :
  claimable now (instant - timeout * 1000) e = true →
  (out_status e = OutboxStatus.PROCESSING → is_Some (out_lockedAt e) ∧ is_Some (out_lockedBy e)) →
  deliver (timeout * 1000) (routable e) (Dispatcher w) (delivery_of e)
    (delivery_of (claimed w now e)).
Proof.
  intros Hc Hl. unfold claimable in Hc. unfold delivery_of at 2. simpl.
  apply orb_true_iff in Hc as [Hc|Hc]; split_bool; unfold delivery_of.
  - destruct (out_status e); try done. by apply dl_claim.
  - destruct (out_status e); try done. destruct (Hl eq_refl) as [[t Ht] [v Hv]].
    rewrite Ht, Hv in *. split_bool. by eapply dl_take_over.
Qed.
(** A settlement of a row as its holder read it is one too. *)
Lemma settle_delivers timeout w o e now upd :
  held w e = true → is_Some (out_lockedAt e) →
  (o = Unroutable ↔ routeOutboxEvent (out_eventType e) = None) →
  deliver timeout (routable e) (Dispatcher w) (delivery_of e)
    (delivery_of (settled_row o e now upd e)).
Proof.
  intros Hh Hl Ho. destruct (held_Claimed w e Hh Hl) as [t ->].
  assert (Hr : o ≠ Unroutable → routable e = true).
  { intros Hne. unfold routable. apply bool_decide_eq_true.
    destruct (routeOutboxEvent _) eqn:E; [done|]. naive_solver. }
  destruct o; simpl.
  - unfold delivery_of; simpl. apply dl_give_up. left. unfold routable.
    by rewrite (proj1 Ho eq_refl).
  - unfold delivery_of; simpl. apply dl_publish. auto.
  - destruct (exhausted e) eqn:Hex; unfold exhausted in Hex; split_bool;
      unfold delivery_of; simpl.
    + apply dl_give_up. by right.
    + apply dl_again; auto.
Qed.

(** ** Steps keep the system consistent *)
Section invariant.
Context `{ZodFormats} {Q : Type} `{JobQueueLaws Q}.
Context (batch timeout : Z).
Implicit Types (h : list (System Q)) (m : gmap string OutboxEvent).

Lemma was_queued_cons h y e : was_queued h e → was_queued (y :: h) e.
Proof. intros (z&?&?). exists z. split; [by right|done]. Qed.
Lemma was_queued_same h e e' : same_event e e' → was_queued h e → was_queued h e'.
Proof.
  intros (Hid&Ht&_) (z&Hz&route&j&Hr&Hj). exists z. split; [done|].
  exists route, j. by rewrite Hid, Ht.
Qed.

(** Every row stays the event it was, and [v] holds no row it did not hold. *)
Definition rows_kept (v : string) m m' : Prop :=
  ∀ i r, m !! i = Some r → ∃ r', m' !! i = Some r' ∧ same_event r r' ∧
    (held v r' = true → r' = r).
Definition batch_reads (w : string) m (l : list OutboxEvent) : Prop :=
  NoDup (out_id <$> l) ∧
  ∀ e, e ∈ l → ∃ r, m !! out_id e = Some r ∧ same_event e r ∧ (held w r = true → r = e).
Lemma batch_reads_kept w m m' l :
  rows_kept w m m' → batch_reads w m l → batch_reads w m' l.
Proof.
  intros Hk [Hd Hb]. split; [done|]. intros e He. destruct (Hb e He) as (r&Hr&Hs&Hh).
  destruct (Hk _ _ Hr) as (r'&Hr'&Hs'&Hh'). exists r'.
  split_and!; [done|by eapply same_event_trans|].
  intros Hhr. specialize (Hh' Hhr) as ->. auto.
Qed.
Lemma rows_kept_refl v m : rows_kept v m m.
Proof. intros i r Hr. eauto. Qed.

Lemma claim_rows_kept v w es s s' :
  outbox_ok (outboxEvents (db (world s))) → v ≠ w →
  io (claimBatch w batch timeout) s = (Ok es, s') →
  rows_kept v (outboxEvents (db (world s))) (outboxEvents (db (world (Q := Q) s'))).
Proof.
  intros Hok Hne Hrun. apply io_Ok in Hrun as [Hrun _].
  destruct (claim_run w batch timeout (world s) Hok) as (es'&w1&Hc&_&_&Hm&_).
  rewrite Hc in Hrun. simplify_eq. rewrite Hm. intros i r Hr.
  unfold claim_table. rewrite update_rows_lookup, Hr. simpl. eexists. split; [done|].
  case_bool_decide; [|done]. split; [unfold same_event; naive_solver|].
  unfold held. simpl. rewrite bool_decide_eq_false_2 by congruence. done.
Qed.
Lemma claim_batch_reads w es s s' :
  outbox_ok (outboxEvents (db (world s))) →
  io (claimBatch w batch timeout) s = (Ok es, s') →
  outbox_ok (outboxEvents (db (world (Q := Q) s'))) ∧
  batch_reads w (outboxEvents (db (world s'))) es.
Proof.
  intros Hok Hrun. apply io_Ok in Hrun as [Hrun _].
  destruct (claim_run w batch timeout (world s) Hok) as (es'&w1&Hc&Hperm&_&Hm&_).
  rewrite Hc in Hrun. simplify_eq. rewrite Hm. split; [by apply claim_table_ok|split].
  - rewrite Hperm, <- list_fmap_compose. rewrite (list_fmap_ext _ out_id) by done.
    by apply candidates_nodup.
  - intros e He. rewrite Hperm in He. apply list_elem_of_fmap in He as (e0&->&He0).
    exists (claimed w (claim_now (world s)) e0). split; [|done].
    exact (claim_table_claimed w batch timeout (world s) e0 Hok He0).
Qed.

Lemma settle_table w o e s s' :
  io (settle w o e) s = (Ok tt, s') →
  ∃ now upd, outboxEvents (db (world (Q := Q) s')) =
    changed_at (out_id e) (held w) (settled_row o e now upd) (outboxEvents (db (world s))).
Proof.
  intros Hrun. apply io_Ok in Hrun as [Hrun _].
  destruct (settle_run w o e (world s)) as (now&upd&w1&Hs&_&_&Hm).
  rewrite Hs in Hrun. simplify_eq. eauto.
Qed.
Lemma settle_rows_kept v w o e s s' :
  io (settle w o e) s = (Ok tt, s') →
  rows_kept v (outboxEvents (db (world s))) (outboxEvents (db (world (Q := Q) s'))).
Proof.
  intros Hrun. destruct (settle_table w o e s s' Hrun) as (now&upd&->). intros i r Hr.
  rewrite changed_at_lookup, Hr. simpl. eexists. split; [done|].
  destruct (_ && _); [|done]. split; [apply same_event_settled|].
  by rewrite settled_not_held.
Qed.

Lemma retry_table eventId actor context s s' :
  io (retryOutboxEvent eventId actor context) s = (Ok tt, s') →
  ∃ e now upd, outboxEvents (db (world s)) !! eventId = Some e ∧
    out_status e = OutboxStatus.FAILED ∧ routable e = true ∧
    outboxEvents (db (world (Q := Q) s')) =
      changed_at (out_id e) (λ _, true) (λ r, reopened now r <| out_updatedAt := upd |>)
        (outboxEvents (db (world s))).
Proof.
  intros Hrun. apply io_Ok in Hrun as [Hrun _]. unfold retryOutboxEvent in Hrun.
  apply bind_Ok in Hrun as ([]&w1&Ha&Hrun). destruct actor; [|done].
  apply ret_Ok in Ha as [_ ->]. rewrite transaction_Ok in Hrun.
  unfold retryOutboxEvent_tx in Hrun.
  apply bind_Ok in Hrun as (?&w1&Hl&Hrun). apply lock_row_Ok in Hl as ->.
  apply bind_Ok in Hrun as (found&w1&Hr&Hrun). apply read_Ok in Hr as [-> ->].
  apply bind_Ok in Hrun as (e&w1&He&Hrun). apply lift_Ok in He as [He ->].
  apply of_option_Ok in He.
  apply bind_Ok in Hrun as (?&w1&Hq&Hrun). apply require_Ok in Hq as [Hq ->].
  apply andb_true_iff in Hq as [Hst Hrt]. apply bool_decide_eq_true in Hst.
  apply bind_Ok in Hrun as (now&w1&Hn&Hrun). apply new_date_Ok in Hn as [-> ->].
  apply bind_Ok in Hrun as (?&w2&Hu&Hrun).
  apply (keeps_run outboxEvents) in Hrun; [|apply _].
  unfold update_outbox in Hu. apply bind_Ok in Hu as (n&w3&Hu&Hc).
  apply require_Ok in Hc as [_ ->].
  match type of Hu with update_outbox_if ?i ?p ?f ?w0 = _ =>
    destruct (update_outbox_if_run i p f w0) as [n' Hu'] end.
  rewrite Hu' in Hu. simplify_eq. exists e. do 2 eexists.
  split_and!; [exact He|done|exact Hrt|]. rewrite Hrun. simpl. reflexivity.
Qed.
Lemma retry_rows_kept v eventId actor context s s' :
  io (retryOutboxEvent eventId actor context) s = (Ok tt, s') →
  rows_kept v (outboxEvents (db (world s))) (outboxEvents (db (world (Q := Q) s'))).
Proof.
  intros Hrun. destruct (retry_table _ _ _ _ _ Hrun) as (e&now&upd&_&_&_&->). intros i r Hr.
  rewrite changed_at_lookup, Hr. simpl. eexists. split; [done|].
  destruct (_ && _); [|done]. split; [unfold same_event; naive_solver|done].
Qed.

(** No row becomes PUBLISHED but by the settlement of an accepted offer. *)
Definition publishes_only (P : OutboxEvent → Prop) m m' : Prop :=
  ∀ i r', m' !! i = Some r' → out_status r' = OutboxStatus.PUBLISHED →
    P r' ∨ m !! i = Some r'.

Notation step := (sys_step batch timeout).

(** Each event's delivery takes at most one step, by the agent. *)
Definition simulates (a : agent) m m' : Prop :=
  ∀ i e, m !! i = Some e → ∃ e', m' !! i = Some e' ∧ same_event e e' ∧
    (delivery_of e' = delivery_of e ∨
     deliver (timeout * 1000) (routable e) a (delivery_of e) (delivery_of e')).
Lemma simulates_refl a m : simulates a m m.
Proof. intros i e He. eauto. Qed.
Lemma claim_simulates w es s s' :
  outbox_ok (outboxEvents (db (world s))) →
  io (claimBatch w batch timeout) s = (Ok es, s') →
  simulates (Dispatcher w) (outboxEvents (db (world s)))
    (outboxEvents (db (world (Q := Q) s'))).
Proof.
  intros Hok Hrun. apply io_Ok in Hrun as [Hrun _].
  destruct (claim_run w batch timeout (world s) Hok) as (es'&w1&Hc&_&_&Hm&_).
  rewrite Hc in Hrun. simplify_eq. rewrite Hm. intros i e He.
  unfold claim_table. rewrite update_rows_lookup, He. simpl. eexists. split; [done|].
  case_bool_decide as Hin; [|by auto]. split; [unfold same_event; naive_solver|right].
  destruct (Hok i e He) as [Hid Hl]. rewrite elem_claimed in Hin by (done || by rewrite Hid).
  destruct (candidates_spec batch timeout (world s) e Hok Hin) as [Hcl _].
  by eapply claim_delivers.
Qed.
Lemma settle_simulates w o e s s' :
  outbox_ok (outboxEvents (db (world s))) →
  (∃ r, outboxEvents (db (world s)) !! out_id e = Some r ∧ (held w r = true → r = e)) →
  (o = Unroutable ↔ routeOutboxEvent (out_eventType e) = None) →
  io (settle w o e) s = (Ok tt, s') →
  simulates (Dispatcher w) (outboxEvents (db (world s)))
    (outboxEvents (db (world (Q := Q) s'))).
Proof.
  intros Hok (r&Hr&Hh) Ho Hrun. destruct (settle_table w o e s s' Hrun) as (now&upd&->).
  intros i r0 Hr0. rewrite changed_at_lookup, Hr0. simpl. eexists. split; [done|].
  destruct (bool_decide (i = out_id e) && held w r0) eqn:Hb; [|by auto].
  split; [apply same_event_settled|right]. split_bool. subst i.
  rewrite Hr in Hr0. apply (inj Some) in Hr0 as <-. rewrite Hh by done.
  destruct (Hok _ _ Hr) as [_ Hl]. rewrite Hh in * by done.
  apply settle_delivers; [done| |done]. apply Hl.
  match goal with H : held w e = true |- _ => unfold held in H end. by split_bool.
Qed.
Lemma retry_simulates eventId actor context s s' :
  outbox_ok (outboxEvents (db (world s))) →
  io (retryOutboxEvent eventId actor context) s = (Ok tt, s') →
  simulates Administrator (outboxEvents (db (world s)))
    (outboxEvents (db (world (Q := Q) s'))).
Proof.
  intros Hok Hrun. destruct (retry_table _ _ _ _ _ Hrun) as (e&now&upd&He&Hs&Hr&->).
  intros i r Hi. rewrite changed_at_lookup, Hi. simpl. eexists. split; [done|].
  rewrite andb_true_r. case_bool_decide as Hid; [|by auto].
  split; [unfold same_event; naive_solver|right].
  destruct (Hok _ _ He) as [Hide _]. rewrite Hide in Hid. subst i.
  rewrite He in Hi. apply (inj Some) in Hi as <-.
  unfold delivery_of. rewrite Hs. simpl. by apply dl_reopen.
Qed.

(** The parts of [consistent], one by one. *)
Lemma consistent_intro h y y' :
  consistent h y → outbox_ok (outbox y') →
  (∀ v p, sys_working y' !! v = Some p → batch_reads v (outbox y') (batch_of p)) →
  (∀ w o e rest, sys_working y' !! w = Some (Answered o e rest) →
     sys_working y !! w = Some (Answered o e rest) ∨
     (o = Unroutable ↔ routeOutboxEvent (out_eventType e) = None) ∧
     (o = Accepted → queued e (queues (sys_stack y')))) →
  publishes_only (was_queued h) (outbox y) (outbox y') →
  consistent (y' :: h) y'.
Proof.
  intros (_&_&Ha&Hp) Hok Hb Ha' Hp'. split_and!.
  - done.
  - apply Hb.
  - intros w o e rest Hw. destruct (Ha' _ _ _ _ Hw) as [Hw'|[Hu Hq]].
    + destruct (Ha _ _ _ _ Hw') as [Hu Hq]. split; [done|]. intros Ho.
      by apply was_queued_cons, Hq.
    + split; [done|]. intros Ho. exists y'. split; [by left|auto].
  - intros i r Hr Hs. apply was_queued_cons. destruct (Hp' i r Hr Hs) as [|Hr']; [done|].
    by eapply Hp.
Qed.
Lemma publishes_refl P m : publishes_only P m m.
Proof. intros i r Hr _. by right. Qed.

Lemma claim_publishes P w es s s' :
  outbox_ok (outboxEvents (db (world s))) →
  io (claimBatch w batch timeout) s = (Ok es, s') →
  publishes_only P (outboxEvents (db (world s))) (outboxEvents (db (world (Q := Q) s'))).
Proof.
  intros Hok Hrun. apply io_Ok in Hrun as [Hrun _].
  destruct (claim_run w batch timeout (world s) Hok) as (es'&w1&Hc&_&_&Hm&_).
  rewrite Hc in Hrun. simplify_eq. rewrite Hm. intros i r Hr Hs.
  unfold claim_table in Hr. rewrite update_rows_lookup in Hr.
  apply fmap_Some in Hr as (r0&Hr0&->). case_bool_decide; [done|by right].
Qed.
Lemma settle_publishes h w o e s s' :
  (∃ r, outboxEvents (db (world s)) !! out_id e = Some r ∧ same_event e r) →
  (o = Accepted → was_queued h e) →
  io (settle w o e) s = (Ok tt, s') →
  publishes_only (was_queued h) (outboxEvents (db (world s)))
    (outboxEvents (db (world (Q := Q) s'))).
Proof.
  intros (r0&Hr0&Hs0) Ha Hrun. destruct (settle_table w o e s s' Hrun) as (now&upd&->).
  intros i r' Hr' Hs. rewrite changed_at_lookup in Hr'.
  apply fmap_Some in Hr' as (r&Hr&->).
  destruct (bool_decide (i = out_id e) && held w r) eqn:Hb; [left|by right].
  split_bool. subst i. rewrite Hr in Hr0. apply (inj Some) in Hr0 as ->.
  destruct (settled_row_status o e now upd r0) as [[_ ->]|[[Hf _]|[Hf _]]]; [|congruence..].
  eapply was_queued_same; [|by apply Ha].
  eapply same_event_trans; [exact Hs0|apply same_event_settled].
Qed.
Lemma retry_publishes P eventId actor context s s' :
  io (retryOutboxEvent eventId actor context) s = (Ok tt, s') →
  publishes_only P (outboxEvents (db (world s))) (outboxEvents (db (world (Q := Q) s'))).
Proof.
  intros Hrun. destruct (retry_table _ _ _ _ _ Hrun) as (e&now&upd&_&_&_&->).
  intros i r' Hr' Hs. rewrite changed_at_lookup in Hr'.
  apply fmap_Some in Hr' as (r&Hr&->). destruct (_ && _); [done|by right].
Qed.
Lemma retry_ok eventId actor context s s' :
  outbox_ok (outboxEvents (db (world s))) →
  io (retryOutboxEvent eventId actor context) s = (Ok tt, s') →
  outbox_ok (outboxEvents (db (world (Q := Q) s'))).
Proof.
  intros Hok Hrun. destruct (retry_table _ _ _ _ _ Hrun) as (e&now&upd&_&_&_&->).
  intros i r' Hr'. rewrite changed_at_lookup in Hr'.
  apply fmap_Some in Hr' as (r&Hr&->). destruct (Hok _ _ Hr) as [Hid Hl].
  by destruct (_ && _).
Qed.
Lemma settle_ok w o e s s' :
  outbox_ok (outboxEvents (db (world s))) → io (settle w o e) s = (Ok tt, s') →
  outbox_ok (outboxEvents (db (world (Q := Q) s'))).
Proof.
  intros Hok Hrun. destruct (settle_table w o e s s' Hrun) as (now&upd&->).
  intros i r' Hr'. rewrite changed_at_lookup in Hr'.
  apply fmap_Some in Hr' as (r&Hr&->). destruct (Hok _ _ Hr) as [Hid Hl].
  destruct (_ && _); [|done]. rewrite settled_row_id. split; [done|].
  intros Hs. destruct (settled_row_status o e now upd r) as [[? _]|[[? _]|[? _]]]; congruence.
Qed.
Lemma added_sound m m' P v a :
  outbox_ok m → events_added m m' →
  outbox_ok m' ∧ rows_kept v m m' ∧ publishes_only P m m' ∧ simulates a m m'.
Proof.
  intros Hok [Hkeep Hnew]. split_and!.
  - intros i e He. destruct (m !! i) as [e0|] eqn:E.
    + rewrite (Hkeep i e0 E) in He. simplify_eq. by apply Hok.
    + destruct (Hnew i e He E) as (?&?&?&?&?&?&?&->). done.
  - intros i r Hr. eauto.
  - intros i r Hr Hs. destruct (m !! i) as [r0|] eqn:E.
    + rewrite (Hkeep i r0 E) in Hr. by right.
    + destruct (Hnew i r Hr E) as (?&?&?&?&?&?&?&->). done.
  - intros i e He. exists e. auto.
Qed.
Lemma batches_kept h y (W' : gmap string phase) m' :
  consistent h y → (∀ v, rows_kept v (outbox y) m') →
  (∀ v p, W' !! v = Some p → ∃ p', sys_working y !! v = Some p' ∧
     (batch_of p' = batch_of p ∨ ∃ e, batch_of p' = e :: batch_of p)) →
  ∀ v p, W' !! v = Some p → batch_reads v m' (batch_of p).
Proof.
  intros (_&Hb&_) Hk HW v p Hp. eapply batch_reads_kept; [apply Hk|].
  destruct (HW v p Hp) as (p'&Hp'&Hin). destruct (Hb v p' Hp') as [Hd Hr].
  destruct Hin as [<-|[e Hin]]; [done|]. rewrite Hin in *.
  rewrite fmap_cons in Hd. apply list.NoDup_cons in Hd as [_ Hd].
  split; [done|]. intros e' He'. apply Hr. by right.
Qed.

Lemma step_sound h a y y' :
  consistent (y :: h) y → sys_step batch timeout a y y' →
  consistent (y' :: y :: h) y' ∧ simulates a (outbox y) (outbox y').
Proof using Type*.
  intros Hy Hstep. pose proof Hy as (Hok&Hb&Ha&Hp).
  destruct Hstep as [w s W es s' HW Hrun|w s W e rest o s' HW Hrun|w s W o e rest s' HW Hrun
    |w s W|eventId actor context s W s' Hrun|w' s W Hadd|q' s W]; simpl in *.
  - split; [|by eapply claim_simulates].
    destruct (claim_batch_reads w es s s' Hok Hrun) as [Hok' Hes].
    eapply consistent_intro; simpl; [done|done| | |by eapply claim_publishes].
    + intros v p Hv. apply lookup_insert_Some in Hv as [[<- <-]|[Hne Hv]]; [done|].
      eapply batch_reads_kept; [|exact (Hb v p Hv)]. by eapply claim_rows_kept.
    + intros v o e rest Hv. apply lookup_insert_Some in Hv as [[<- [=]]|[Hne Hv]]. by left.
  - destruct (offer_run e s) as (o'&q'&Ho&Hu&Hq&_). rewrite Ho in Hrun. simplify_eq.
    split; [|apply simulates_refl]. eapply consistent_intro; simpl; [done|done| | |].
    + eapply batches_kept; [exact Hy|intros; apply rows_kept_refl|]. simpl.
      intros v p Hv. apply lookup_insert_Some in Hv as [[<- <-]|[Hne Hv]]; eauto.
    + intros v o0 e0 rest0 Hv.
      apply lookup_insert_Some in Hv as [[<- [= <- <- <-]]|[Hne Hv]]; [by right|by left].
    + apply publishes_refl.
  - destruct (Hb w _ HW) as [_ Hr]. destruct (Hr e) as (r&Hr1&Hr2&Hr3); [by left|].
    destruct (Ha _ _ _ _ HW) as [Hu Hq].
    split; [|by eapply settle_simulates; eauto].
    eapply consistent_intro; simpl; [done|by eapply settle_ok| | |].
    + eapply batches_kept; [exact Hy|intros v; by eapply settle_rows_kept|]. simpl.
      intros v p Hv. apply lookup_insert_Some in Hv as [[<- <-]|[Hne Hv]]; eauto.
    + intros v o0 e0 rest0 Hv. apply lookup_insert_Some in Hv as [[<- [=]]|[Hne Hv]]. by left.
    + eapply settle_publishes; eauto.
  - split; [|apply simulates_refl]. eapply consistent_intro; simpl; [done|done| | |].
    + eapply batches_kept; [exact Hy|intros; apply rows_kept_refl|]. simpl.
      intros v p Hv. apply lookup_delete_Some in Hv as [_ Hv]. eauto.
    + intros v o0 e0 rest0 Hv. apply lookup_delete_Some in Hv as [_ Hv]. by left.
    + apply publishes_refl.
  - split; [|by eapply retry_simulates].
    eapply consistent_intro; simpl; [done|by eapply retry_ok| |by left|].
    + eapply batches_kept; [exact Hy|intros v; by eapply retry_rows_kept|]. simpl. eauto.
    + by eapply retry_publishes.
  - split; [|by apply (added_sound _ _ (λ _, True) "" Elsewhere Hok Hadd)].
    eapply consistent_intro; simpl;
      [done|by apply (added_sound _ _ (λ _, True) "" Elsewhere Hok Hadd)| |by left|].
    + eapply batches_kept; [exact Hy| |simpl; eauto]. intros v.
      by apply (added_sound _ _ (λ _, True) v Elsewhere Hok Hadd).
    + by eapply (added_sound _ _ _ "" Elsewhere Hok Hadd).
  - split; [|apply simulates_refl]. eapply consistent_intro; simpl; [done|done| |by left|].
    + eapply batches_kept; [exact Hy|intros; apply rows_kept_refl|simpl; eauto].
    + apply publishes_refl.
Qed.

Lemma run_consistent h y : run batch timeout (y :: h) → consistent (y :: h) y.
Proof using Type*.
  intros Hrun. remember (y :: h) as l eqn:Hl. revert y h Hl.
  induction Hrun as [s Hs|a y0 y' h0 Hrun IH Hstep]; intros y h Hl; simplify_eq.
  - split_and!; simpl.
    + intros i e He. rewrite Hs in He. by rewrite lookup_empty in He.
    + intros w p Hw. by rewrite lookup_empty in Hw.
    + intros w o e rest Hw. by rewrite lookup_empty in Hw.
    + intros i e He. rewrite Hs in He. by rewrite lookup_empty in He.
  - by apply (step_sound h0 a y0 y (IH _ _ eq_refl) Hstep).
Qed.
(** A row that was not there waits for its first attempt. *)
Lemma step_births a y y' i e :
  outbox_ok (outbox y) → sys_step batch timeout a y y' → outbox y' !! i = Some e →
  outbox y !! i = None → ∃ due, delivery_of e = Waiting 0 due.
Proof using Type*.
  intros Hok Hstep He Hn.
  destruct Hstep as [w s W es s' HW Hrun|w s W e0 rest o s' HW Hrun|w s W o e0 rest s' HW Hrun
    |w s W|eventId actor context s W s' Hrun|w' s W Hadd|q' s W]; simpl in *;
    try congruence.
  - apply io_Ok in Hrun as [Hrun _].
    destruct (claim_run w batch timeout (world s) Hok) as (es'&w1&Hc&_&_&Hm&_).
    rewrite Hc in Hrun. simplify_eq. rewrite Hm in He. unfold claim_table in He.
    by rewrite update_rows_lookup, Hn in He.
  - destruct (offer_run e0 s) as (o'&q'&Ho&_). rewrite Ho in Hrun. simplify_eq. simpl in He.
    congruence.
  - destruct (settle_table w o e0 s s' Hrun) as (now&upd&Hm).
    by rewrite Hm, changed_at_lookup, Hn in He.
  - destruct (retry_table _ _ _ _ _ Hrun) as (e1&now&upd&_&_&_&Hm).
    by rewrite Hm, changed_at_lookup, Hn in He.
  - destruct Hadd as [_ Hnew]. destruct (Hnew i e He Hn) as (?&?&?&?&?&due&?&->). by exists due.
Qed.

(** C2: the dispatchers refine the specification.  Whatever step the system takes,
    the delivery of each event takes at most the one step the agent may take, the
    event stays the same, and a new event waits for its first attempt. *)
Theorem dispatchers_refine_delivery h y a y'
    (Hrun : run batch timeout (y :: h)) (Hstep : sys_step batch timeout a y y') :
  (∀ i e, outbox y !! i = Some e → ∃ e', outbox y' !! i = Some e' ∧ same_event e e' ∧
     (delivery_of e' = delivery_of e ∨
      deliver (timeout * 1000) (routable e) a (delivery_of e) (delivery_of e'))) ∧
  (∀ i e, outbox y' !! i = Some e → outbox y !! i = None →
     ∃ due, delivery_of e = Waiting 0 due).
Proof using Type*.
  pose proof (run_consistent h y Hrun) as Hy. split.
  - by apply (step_sound h a y y' Hy Hstep).
  - intros i e. eapply step_births; [apply Hy|done].
Qed.

(** An event that is PUBLISHED has had its job in its queue, and stays
    PUBLISHED whatever happens next. *)
Theorem published_was_queued h y i e
    (Hrun : run batch timeout (y :: h)) (He : outbox y !! i = Some e)
    (Hs : out_status e = OutboxStatus.PUBLISHED) :
  (∃ z, z ∈ y :: h ∧ queued e (queues (sys_stack z))) ∧
  ∀ a y', sys_step batch timeout a y y' →
    ∃ e', outbox y' !! i = Some e' ∧ out_status e' = OutboxStatus.PUBLISHED.
Proof using Type*.
  pose proof (run_consistent h y Hrun) as Hy. split.
  - destruct Hy as (_&_&_&Hp). by eapply Hp.
  - intros a y' Hstep. destruct (step_sound h a y y' Hy Hstep) as [[Hok' _] Hsim].
    destruct (Hsim i e He) as (e'&He'&_&Hd). exists e'. split; [done|].
    assert (Hde : delivery_of e = Delivered) by (unfold delivery_of; by rewrite Hs).
    rewrite Hde in Hd.
    assert (Hde' : delivery_of e' = Delivered) by (destruct Hd as [|Hd]; [done|inversion Hd]).
    destruct (Hok' i e' He') as [_ Hl]. unfold delivery_of in Hde'.
    destruct (out_status e'); try done.
    destruct (Hl eq_refl) as [[t Ht] [v Hv]]. by rewrite Ht, Hv in Hde'.
Qed.
End invariant.

(** ** A run: an event is written, claimed, offered and settled *)
Definition run_world : World :=
  MkWorld empty_db (λ n, Nat.iter n (String "i") "d") 0 (λ n, Z.of_nat n * 1000) 0 [].
Definition run_other : World :=
  run_world <| db := empty_db <| outboxEvents :=
    {["a" := pending_event "a" "INVOICE" "i" "EMAIL_INVOICE_CREATED" "k" JNull 0 0]} |> |>.
Definition no_jobs : MemoryQueue := λ _ _, None.
Definition system0 : System MemoryQueue := MkSystem (MkStack run_world no_jobs) ∅.
Definition system1 : System MemoryQueue := MkSystem (MkStack run_other no_jobs) ∅.
Definition claim1 := io (Q := MemoryQueue) (claimBatch "outbox-1" 25 120) (sys_stack system1).
Definition event1 : OutboxEvent :=
  claimed "outbox-1" 1000
    (pending_event "a" "INVOICE" "i" "EMAIL_INVOICE_CREATED" "k" JNull 0 0).
Definition system2 : System MemoryQueue :=
  MkSystem (snd claim1) (<["outbox-1" := Between [event1]]> ∅).
Definition offer2 := @offer all_formats _ memory_queue event1 (sys_stack system2).
Definition system3 : System MemoryQueue :=
  MkSystem (snd offer2) (<["outbox-1" := Answered Accepted event1 []]> (sys_working system2)).
Definition settle3 := io (Q := MemoryQueue) (settle "outbox-1" Accepted event1) (sys_stack system3).
Definition system4 : System MemoryQueue :=
  MkSystem (snd settle3) (<["outbox-1" := Between []]> (sys_working system3)).

Section sample_run.
#[local] Existing Instance all_formats.

Lemma system1_run : run 25 120 [system1; system0].
Proof.
  eapply run_step; [by apply run_start|].
  apply (sy_other 25 120 run_other (MkStack run_world no_jobs)). split.
  - intros i e He. by apply (lookup_empty_Some (M := gmap string) i e) in He.
  - intros i e He _. simpl in He. apply lookup_singleton_Some in He as [<- <-].
    by do 7 eexists.
Qed.
Lemma system2_step : sys_step 25 120 (Dispatcher "outbox-1") system1 system2.
Proof.
  apply (sy_claim 25 120 "outbox-1" (MkStack run_other no_jobs) ∅ [event1]); [by left|].
  apply run_outcome. vm_compute. reflexivity.
Qed.
Lemma system3_step : sys_step 25 120 (Dispatcher "outbox-1") system2 system3.
Proof.
  apply (sy_offer 25 120 "outbox-1" (snd claim1) _ event1 [] Accepted).
  - apply lookup_insert_eq.
  - apply run_outcome. vm_compute. reflexivity.
Qed.
Lemma system4_step : sys_step 25 120 (Dispatcher "outbox-1") system3 system4.
Proof.
  apply (sy_settle 25 120 "outbox-1" (snd offer2) _ Accepted event1 []).
  - apply lookup_insert_eq.
  - apply run_outcome. vm_compute. reflexivity.
Qed.
Lemma system4_run : run 25 120 [system4; system3; system2; system1; system0].
Proof.
  eapply run_step; [|exact system4_step]. eapply run_step; [|exact system3_step].
  eapply run_step; [|exact system2_step]. exact system1_run.
Qed.
Definition published1 : OutboxEvent := settled_row Accepted event1 2000 3000 event1.

Lemma dispatchers_refine_delivery_witness :
  sys_step 25 120 (Dispatcher "outbox-1") system1 system2 ∧
  ∃ e', outbox system2 !! "a" = Some e' ∧
    deliver 120000 true (Dispatcher "outbox-1") (Waiting 0 0) (delivery_of e').
Proof.
  split; [exact system2_step|].
  destruct (dispatchers_refine_delivery 25 120 _ _ _ _ system1_run system2_step) as [Hs _].
  destruct (Hs "a" (pending_event "a" "INVOICE" "i" "EMAIL_INVOICE_CREATED" "k" JNull 0 0))
    as (e'&He'&_&Hd); [reflexivity|].
  exists e'. split; [exact He'|].
  assert (Heq : e' = event1).
  { assert (Hev : outbox system2 !! "a" = Some event1) by (vm_compute; reflexivity).
    apply (inj Some). exact (eq_trans (eq_sym He') Hev). }
  subst e'. destruct Hd as [Hd|Hd]; [discriminate Hd|exact Hd].
Defined.
Lemma published_was_queued_witness :
  outbox system4 !! "a" = Some published1 ∧
  ∃ z, z ∈ [system4; system3; system2; system1; system0] ∧
    queued published1 (queues (sys_stack z)).
Proof.
  assert (He : outbox system4 !! "a" = Some published1) by (vm_compute; reflexivity).
  split; [exact He|].
  exact (proj1 (published_was_queued 25 120 _ _ "a" published1 system4_run He eq_refl)).
Defined.
End sample_run.
