(* ===== verification/Ledger.v ===== *)
(** * The ledger: an abstract specification

    What the invoices and the payments promise together, away from requests,
    rows and clocks: an account per invoice, an entry per payment, and the moves
    that post to them.  Settlement shows that the transactions of the services
    make only these moves. *)
From S2P Require Import Prelude Database InvoiceTotals States MapSum.

(** ** Accounts, entries and moves *)
Record Account := MkAccount
  { ac_total : Z; ac_credit : Z; ac_paid : Z; ac_balance : Z; ac_status : InvoiceStatus }.
Record Entry := MkEntry
  { en_invoice : string; en_original : option string; en_kind : PaymentKind;
    en_status : PaymentStatus; en_amount : Z }.
Record Ledger := MkLedger
  { accounts : gmap string Account; entries : gmap string Entry }.

Definition open_for_payment (s : InvoiceStatus) : Prop :=
  s = InvoiceStatus.UNPAID ∨ s = InvoiceStatus.OVERDUE.
(** An account nothing has been paid to, balanced, in a status [s]. *)
Definition fresh_account (a : Account) : Prop :=
  0 <= ac_credit a ∧ ac_paid a = 0 ∧ 0 <= ac_balance a ∧
  ac_total a = ac_credit a + ac_balance a.

(** Status changes that post nothing. *)
Definition status_move (a : Account) (s : InvoiceStatus) : Prop :=
  match s with
  | InvoiceStatus.UNPAID => ac_status a = InvoiceStatus.DRAFT ∧ ac_balance a ≠ 0
  | InvoiceStatus.PAID => ac_status a = InvoiceStatus.DRAFT ∧ ac_balance a = 0
  | InvoiceStatus.OVERDUE => ac_status a = InvoiceStatus.UNPAID ∧ ac_balance a ≠ 0
  | InvoiceStatus.CANCELLED =>
      ac_status a = InvoiceStatus.DRAFT ∨ open_for_payment (ac_status a)
  | _ => False
  end.
Definition with_status (s : InvoiceStatus) (a : Account) : Account :=
  MkAccount (ac_total a) (ac_credit a) (ac_paid a) (ac_balance a) s.
(** A payment of [z] received, and a payment of [z] given back. *)
Definition credit_account (z : Z) (a : Account) : Account :=
  MkAccount (ac_total a) (ac_credit a) (ac_paid a + z) (ac_balance a - z)
    (if ac_balance a - z =? 0 then InvoiceStatus.PAID else ac_status a).
Definition debit_account (z : Z) (a : Account) : Account :=
  MkAccount (ac_total a) (ac_credit a) (ac_paid a - z) (ac_balance a + z)
    (if ac_paid a - z =? 0 then InvoiceStatus.REFUNDED
     else InvoiceStatus.PARTIALLY_REFUNDED).
Definition with_entry_status (s : PaymentStatus) (e : Entry) : Entry :=
  MkEntry (en_invoice e) (en_original e) (en_kind e) s (en_amount e).

(** What was given back of the charge [o]. *)
Definition adjustment_of (o : string) (e : Entry) : Z :=
  if bool_decide (en_original e = Some o) && (en_status e ==b PaymentStatus.SUCCEEDED)
  then en_amount e else 0.
Definition adjusted (L : Ledger) (o : string) : Z := msum (adjustment_of o) (entries L).

Inductive ledger_step : Ledger → Ledger → Prop :=
| ls_open L i a :
    accounts L !! i = None → fresh_account a →
    ac_status a = InvoiceStatus.DRAFT ∨ ac_status a = InvoiceStatus.UNPAID ∨
      (ac_status a = InvoiceStatus.PAID ∧ ac_balance a = 0) →
    ledger_step L (MkLedger (<[i := a]> (accounts L)) (entries L))
| ls_redraft L i a a' :
    accounts L !! i = Some a → ac_status a = InvoiceStatus.DRAFT →
    fresh_account (MkAccount (ac_total a') (ac_credit a') 0 (ac_balance a') (ac_status a')) →
    ac_paid a' = ac_paid a → ac_status a' = InvoiceStatus.DRAFT →
    ledger_step L (MkLedger (<[i := a']> (accounts L)) (entries L))
| ls_status L i a s :
    accounts L !! i = Some a → status_move a s →
    ledger_step L (MkLedger (<[i := with_status s a]> (accounts L)) (entries L))
| ls_statuses L A :
    (∀ i, match accounts L !! i, A !! i with
          | Some a, Some a' => a' = a ∨ ∃ s, status_move a s ∧ a' = with_status s a
          | None, None => True
          | _, _ => False
          end) →
    ledger_step L (MkLedger A (entries L))
| ls_submit L i p a e :
    accounts L !! i = Some a → entries L !! p = None → en_invoice e = i →
    en_kind e = PaymentKind.CHARGE → en_original e = None →
    en_status e = PaymentStatus.PENDING → 0 < en_amount e →
    ledger_step L (MkLedger (accounts L) (<[p := e]> (entries L)))
| ls_reject L p e :
    entries L !! p = Some e → en_kind e = PaymentKind.CHARGE →
    en_status e = PaymentStatus.PENDING →
    ledger_step L (MkLedger (accounts L)
      (<[p := with_entry_status PaymentStatus.FAILED e]> (entries L)))
| ls_charge L i p a e z :
    en_amount e = z →
    accounts L !! i = Some a → entries L !! p = None → en_invoice e = i →
    en_kind e = PaymentKind.CHARGE → en_original e = None →
    en_status e = PaymentStatus.SUCCEEDED →
    open_for_payment (ac_status a) → 0 < z <= ac_balance a →
    ledger_step L (MkLedger (<[i := credit_account z a]> (accounts L))
                            (<[p := e]> (entries L)))
| ls_verify L i p a e z :
    en_amount e = z →
    accounts L !! i = Some a → entries L !! p = Some e → en_invoice e = i →
    en_kind e = PaymentKind.CHARGE → en_status e = PaymentStatus.PENDING →
    open_for_payment (ac_status a) → 0 < z <= ac_balance a →
    ledger_step L (MkLedger (<[i := credit_account z a]> (accounts L))
      (<[p := with_entry_status PaymentStatus.SUCCEEDED e]> (entries L)))
| ls_adjust L i p o a e original z :
    en_amount e = z →
    accounts L !! i = Some a → entries L !! p = None →
    entries L !! o = Some original → en_invoice original = i →
    en_kind original = PaymentKind.CHARGE →
    en_status original = PaymentStatus.SUCCEEDED →
    en_invoice e = i → en_original e = Some o → en_kind e ≠ PaymentKind.CHARGE →
    en_status e = PaymentStatus.SUCCEEDED →
    0 < z <= en_amount original - adjusted L o → z <= ac_paid a →
    ledger_step L (MkLedger (<[i := debit_account z a]> (accounts L))
                            (<[p := e]> (entries L))).

(** ** The invariant *)
(** What an entry contributes to the amount paid of the invoice [i]. *)
Definition contribution (i : string) (e : Entry) : Z :=
  if bool_decide (en_invoice e = i) && (en_status e ==b PaymentStatus.SUCCEEDED)
  then if en_kind e ==b PaymentKind.CHARGE then en_amount e else - en_amount e
  else 0.
Definition net_paid (L : Ledger) (i : string) : Z := msum (contribution i) (entries L).

Definition account_ok (L : Ledger) (i : string) (a : Account) : Prop :=
  0 <= ac_credit a ∧ 0 <= ac_paid a ∧ 0 <= ac_balance a ∧
  ac_total a = ac_credit a + ac_paid a + ac_balance a ∧
  ac_paid a = net_paid L i ∧
  match ac_status a with
  | InvoiceStatus.DRAFT | InvoiceStatus.REFUNDED => ac_paid a = 0
  | InvoiceStatus.PAID => ac_balance a = 0
  | InvoiceStatus.OVERDUE => 0 < ac_balance a
  | InvoiceStatus.UNPAID | InvoiceStatus.CANCELLED => True
  | InvoiceStatus.PARTIALLY_REFUNDED => 0 < ac_paid a
  end.
Definition entry_ok (L : Ledger) (p : string) (e : Entry) : Prop :=
  0 < en_amount e ∧ is_Some (accounts L !! en_invoice e) ∧
  match en_original e with
  | None => en_kind e = PaymentKind.CHARGE ∧
            0 <= adjusted L p <= (if en_status e ==b PaymentStatus.SUCCEEDED
                                  then en_amount e else 0)
  | Some o => en_kind e ≠ PaymentKind.CHARGE ∧ adjusted L p = 0 ∧ ∃ c, entries L !! o = Some c ∧
                en_kind c = PaymentKind.CHARGE ∧ en_invoice c = en_invoice e
  end.
Definition ledger_ok (L : Ledger) : Prop :=
  (∀ i a, accounts L !! i = Some a → account_ok L i a) ∧
  (∀ p e, entries L !! p = Some e → entry_ok L p e).

(** ** Lemmas *)
Section posting.
Context (L : Ledger).

Lemma contribution_elsewhere i e : en_invoice e ≠ i → contribution i e = 0.
Proof. unfold contribution. by case_bool_decide. Qed.
Lemma contribution_idle i e : en_status e ≠ PaymentStatus.SUCCEEDED → contribution i e = 0.
Proof.
  unfold contribution. intros. rewrite (bool_decide_eq_false_2 (_ = PaymentStatus.SUCCEEDED))
    by done. by rewrite andb_false_r.
Qed.
Lemma contribution_posted i e :
  en_invoice e = i → en_status e = PaymentStatus.SUCCEEDED →
  contribution i e = if en_kind e ==b PaymentKind.CHARGE then en_amount e
                     else - en_amount e.
Proof.
  intros <- Hs. unfold contribution. rewrite Hs.
  by rewrite (bool_decide_eq_true_2 (en_invoice e = en_invoice e)).
Qed.
Lemma adjustment_idle o e : en_original e ≠ Some o → adjustment_of o e = 0.
Proof. unfold adjustment_of. intros. by rewrite bool_decide_eq_false_2. Qed.
Lemma adjustment_posted o e :
  en_original e = Some o → en_status e = PaymentStatus.SUCCEEDED →
  adjustment_of o e = en_amount e.
Proof.
  intros Ho Hs. unfold adjustment_of. rewrite Ho, Hs.
  by rewrite (bool_decide_eq_true_2 (Some o = Some o)).
Qed.

(** An account changed, the entries kept. *)
Lemma accounts_ok i a :
  ledger_ok L → account_ok L i a →
  ledger_ok (MkLedger (<[i := a]> (accounts L)) (entries L)).
Proof.
  intros [Ha He] Hi. split; simpl.
  - intros j b. rewrite lookup_insert. case_decide; intros; simplify_eq; [done|].
    by apply Ha.
  - intros p e Hp. destruct (He p e Hp) as (?&Hx&?). split_and!; [done| |done].
    simpl. rewrite lookup_insert. destruct (decide _); [by eexists|done].
Qed.
End posting.

Section entry_changes.
Context (L : Ledger) (A' : gmap string Account) (p : string) (e' : Entry).
Let L' := MkLedger A' (<[p := e']> (entries L)).

Lemma net_paid_new i : entries L !! p = None →
  net_paid L' i = contribution i e' + net_paid L i.
Proof. intros. unfold net_paid, L'. simpl. by rewrite msum_insert. Qed.
Lemma net_paid_changed i e : entries L !! p = Some e →
  net_paid L' i = net_paid L i - contribution i e + contribution i e'.
Proof. intros. unfold net_paid, L'. simpl. by rewrite (msum_update _ _ _ e). Qed.
Lemma adjusted_new o : entries L !! p = None →
  adjusted L' o = adjustment_of o e' + adjusted L o.
Proof. intros. unfold adjusted, L'. simpl. by rewrite msum_insert. Qed.
Lemma adjusted_changed o e : entries L !! p = Some e →
  adjusted L' o = adjusted L o - adjustment_of o e + adjustment_of o e'.
Proof. intros. unfold adjusted, L'. simpl. by rewrite (msum_update _ _ _ e). Qed.
End entry_changes.

(** Nothing is given back of a payment that does not exist. *)
Lemma adjusted_absent L p : ledger_ok L → entries L !! p = None → adjusted L p = 0.
Proof.
  intros [_ He] Hp. apply msum_zero. intros q e Hq. apply adjustment_idle. intros Ho.
  destruct (He q e Hq) as (_&_&H). rewrite Ho in H.
  destruct H as (_&_&c&Hc&_). congruence.
Qed.

(** An entry posted to the account of its invoice. *)
Lemma post_ok L i p a a' e' :
  ledger_ok L → accounts L !! i = Some a → en_invoice e' = i →
  (∀ e, entries L !! p = Some e →
     en_kind e = en_kind e' ∧ en_invoice e = i ∧ en_original e = en_original e') →
  let L' := MkLedger (<[i := a']> (accounts L)) (<[p := e']> (entries L)) in
  account_ok L' i a' → entry_ok L' p e' →
  (∀ q e, q ≠ p → entries L !! q = Some e → adjusted L' q = adjusted L q ∨ entry_ok L' q e) →
  ledger_ok L'.
Proof.
  intros [Ha He] Hi Hinv Hsame L' Ha' He' Hq. split.
  - intros j b Hj. simpl in Hj. rewrite lookup_insert in Hj.
    destruct (decide (i = j)) as [<-|Hne]; [by simplify_eq|].
    destruct (Ha j b Hj) as (?&?&?&?&Hnet&?). split_and!; try done.
    rewrite Hnet. unfold L'. destruct (entries L !! p) as [e|] eqn:Hp.
    + destruct (Hsame e eq_refl) as (_&?&_).
      rewrite (net_paid_changed _ _ _ _ _ e Hp), !contribution_elsewhere by congruence. lia.
    + rewrite net_paid_new, contribution_elsewhere by congruence. lia.
  - intros q e Hlk. simpl in Hlk. rewrite lookup_insert in Hlk.
    destruct (decide (p = q)) as [<-|Hne]; [by simplify_eq|].
    destruct (Hq q e) as [Hadj|?]; [done..| |done].
    destruct (He q e Hlk) as (Hpos&Hx&Horig). split; [done|]. split.
    + simpl. rewrite lookup_insert. destruct (decide (i = en_invoice e)); [by eexists|done].
    + rewrite Hadj. destruct (en_original e) as [o|]; [|done].
      destruct Horig as (?&?&c&Hc&?&?). split_and!; [done..|]. simpl.
      rewrite lookup_insert. destruct (decide (p = o)) as [<-|].
      * exists e'. destruct (Hsame c Hc) as (?&?&_). split_and!; congruence.
      * by exists c.
Qed.
(** An entry that moves no money. *)
Lemma post_idle_ok L i p a e' :
  ledger_ok L → accounts L !! i = Some a → en_invoice e' = i →
  (∀ e, entries L !! p = Some e →
     en_kind e = en_kind e' ∧ en_invoice e = i ∧ en_original e = en_original e' ∧
     en_status e ≠ PaymentStatus.SUCCEEDED) →
  en_status e' ≠ PaymentStatus.SUCCEEDED → en_original e' = None →
  en_kind e' = PaymentKind.CHARGE → 0 < en_amount e' →
  ledger_ok (MkLedger (accounts L) (<[p := e']> (entries L))).
Proof.
  intros HL Hi Hinv Hsame Hs Ho Hk Hpos.
  set (L' := MkLedger (accounts L) (<[p := e']> (entries L))).
  assert (∀ o, adjusted L' o = adjusted L o) as Hadj.
  { intros o. unfold L'. destruct (entries L !! p) as [e|] eqn:Hp.
    - destruct (Hsame e eq_refl) as (_&_&?&_).
      rewrite (adjusted_changed _ _ _ _ _ e Hp), !adjustment_idle by congruence. lia.
    - rewrite adjusted_new, adjustment_idle by congruence. lia. }
  assert (∀ j, net_paid L' j = net_paid L j) as Hnet.
  { intros j. unfold L'. destruct (entries L !! p) as [e|] eqn:Hp.
    - destruct (Hsame e eq_refl) as (_&_&_&?).
      rewrite (net_paid_changed _ _ _ _ _ e Hp), !contribution_idle by done. lia.
    - rewrite net_paid_new, contribution_idle by done. lia. }
  assert (L' = MkLedger (<[i := a]> (accounts L)) (<[p := e']> (entries L))) as HL'.
  { unfold L'. by rewrite (insert_id (accounts L)). }
  rewrite HL'. apply (post_ok L i p a a e'); [done..| | | |]; rewrite <- ?HL'.
  - intros e He. by destruct (Hsame e He) as (?&?&?&?).
  - destruct (proj1 HL i a Hi) as (?&?&?&?&?&?). by split_and!; rewrite ?Hnet.
  - split; [done|]. split; [rewrite Hinv; by exists a|]. rewrite Ho, Hadj.
    split; [done|]. rewrite bool_decide_eq_false_2 by done.
    destruct (entries L !! p) as [e|] eqn:Hp; [|rewrite adjusted_absent by done; lia].
    destruct (Hsame e eq_refl) as (?&_&Hoe&?).
    destruct (proj2 HL p e Hp) as (_&_&Hb). rewrite Hoe, Ho in Hb.
    rewrite bool_decide_eq_false_2 in Hb by done. lia.
  - intros. left. apply Hadj.
Qed.

(** A successful charge posted: a new entry, or a pending one. *)
Lemma post_charge_ok L i p a e e' :
  ledger_ok L → accounts L !! i = Some a → open_for_payment (ac_status a) →
  en_invoice e' = i → en_kind e' = PaymentKind.CHARGE → en_original e' = None →
  en_status e' = PaymentStatus.SUCCEEDED → 0 < en_amount e' <= ac_balance a →
  entries L !! p = e →
  (∀ e0, e = Some e0 → en_kind e0 = en_kind e' ∧ en_invoice e0 = i ∧
     en_original e0 = en_original e' ∧ en_status e0 = PaymentStatus.PENDING) →
  ledger_ok (MkLedger (<[i := credit_account (en_amount e') a]> (accounts L))
                      (<[p := e']> (entries L))).
Proof.
  intros HL Hi Hopen Hinv Hk Ho Hs Hamt Hp Hsame.
  set (L' := MkLedger _ _).
  assert (adjusted L p = 0) as Hp0.
  { destruct e as [e0|]; [|by apply adjusted_absent].
    destruct (Hsame e0 eq_refl) as (_&_&Hoe&Hse).
    destruct (proj2 HL p e0 Hp) as (_&_&Hb). rewrite Hoe, Ho, Hse in Hb.
    rewrite bool_decide_eq_false_2 in Hb by done. lia. }
  assert (∀ o, adjusted L' o = adjusted L o) as Hadj.
  { intros o. unfold L'. destruct e as [e0|].
    - destruct (Hsame e0 eq_refl) as (_&_&?&_).
      rewrite (adjusted_changed _ _ _ _ _ e0 Hp), !adjustment_idle by congruence. lia.
    - rewrite adjusted_new, adjustment_idle by congruence. lia. }
  assert (net_paid L' i = net_paid L i + en_amount e') as Hnet.
  { unfold L'. destruct e as [e0|].
    - destruct (Hsame e0 eq_refl) as (_&_&_&Hse).
      rewrite (net_paid_changed _ _ _ _ _ e0 Hp), (contribution_idle _ e0),
        contribution_posted, bool_decide_eq_true_2 by congruence. lia.
    - rewrite net_paid_new, contribution_posted, bool_decide_eq_true_2 by done. lia. }
  apply (post_ok L i p a); [done..| | | |].
  - intros e1 He1. rewrite Hp in He1. by destruct (Hsame e1 He1) as (?&?&?&?).
  - destruct (proj1 HL i a Hi) as (?&?&?&?&?&?). unfold account_ok. fold L'.
    simpl. rewrite Hnet. split_and!; try lia.
    destruct (Z.eqb_spec (ac_balance a - en_amount e') 0); [done|].
    destruct Hopen as [-> | ->]; lia.
  - split; [lia|]. split; [simpl; rewrite Hinv, lookup_insert_eq; by eexists|].
    rewrite Ho. split; [done|]. fold L'. rewrite Hadj, Hp0, Hs. simpl. lia.
  - intros. left. apply Hadj.
Qed.

Lemma post_adjustment_ok L i p o a e original :
  ledger_ok L → accounts L !! i = Some a → entries L !! p = None →
  entries L !! o = Some original → en_invoice original = i →
  en_kind original = PaymentKind.CHARGE → en_status original = PaymentStatus.SUCCEEDED →
  en_invoice e = i → en_original e = Some o → en_kind e ≠ PaymentKind.CHARGE →
  en_status e = PaymentStatus.SUCCEEDED →
  0 < en_amount e <= en_amount original - adjusted L o → en_amount e <= ac_paid a →
  ledger_ok (MkLedger (<[i := debit_account (en_amount e) a]> (accounts L))
                      (<[p := e]> (entries L))).
Proof.
  intros HL Hi Hp Ho Hoi Hok Hos Hei Heo Hek Hes Hamt Hpaid. set (L' := MkLedger _ _).
  assert (o ≠ p) as Hop by congruence.
  assert (net_paid L' i = net_paid L i - en_amount e) as Hnet.
  { unfold L'. rewrite net_paid_new, contribution_posted, bool_decide_eq_false_2 by done.
    lia. }
  assert (adjusted L' o = adjusted L o + en_amount e) as Hadj.
  { unfold L'. rewrite adjusted_new, adjustment_posted by done. lia. }
  assert (∀ q, q ≠ o → adjusted L' q = adjusted L q) as Hother.
  { intros q Hq. unfold L'. rewrite adjusted_new, adjustment_idle by congruence. lia. }
  apply (post_ok L i p a); [done..|congruence| | |].
  - destruct (proj1 HL i a Hi) as (?&?&?&?&?&?). unfold account_ok. fold L'.
    simpl. rewrite Hnet. split_and!; try lia.
    destruct (Z.eqb_spec (ac_paid a - en_amount e) 0); lia.
  - split; [lia|]. split; [simpl; rewrite Hei, lookup_insert_eq; by eexists|].
    rewrite Heo. fold L'. rewrite Hother, adjusted_absent by done.
    split_and!; [done..|]. exists original. simpl. rewrite lookup_insert_ne by done.
    split_and!; congruence.
  - intros q e1 Hqp Hq. fold L'. destruct (decide (q = o)) as [->|]; [|left; by apply Hother].
    right. rewrite Ho in Hq. injection Hq as <-.
    destruct (proj2 HL o original Ho) as (?&Hx&Hb).
    split; [done|]. split.
    + simpl. rewrite Hoi, lookup_insert_eq. by eexists.
    + destruct (en_original original); [by destruct Hb|]. split; [done|].
      rewrite Hadj, Hos in *. simpl in *. lia.
Qed.

Lemma status_move_ok L i a s :
  account_ok L i a → status_move a s → account_ok L i (with_status s a).
Proof.
  intros (?&?&?&?&?&Hst) Hs. unfold account_ok, with_status; simpl.
  split_and!; try done. destruct s; simpl in Hs; try done; destruct Hs; lia.
Qed.
Lemma statuses_ok L A :
  ledger_ok L →
  (∀ i, match accounts L !! i, A !! i with
        | Some a, Some a' => a' = a ∨ ∃ s, status_move a s ∧ a' = with_status s a
        | None, None => True
        | _, _ => False
        end) → ledger_ok (MkLedger A (entries L)).
Proof.
  intros [Ha He] HA. split; simpl.
  - intros i a' Hi. specialize (HA i). rewrite Hi in HA.
    destruct (accounts L !! i) as [a|] eqn:Hl; [|done].
    destruct HA as [->|(s&Hs&->)]; [by apply Ha|]. apply status_move_ok; [by apply Ha|done].
  - intros p e Hp. destruct (He p e Hp) as (?&[a Hl]&?). split; [done|]. split; [|done].
    specialize (HA (en_invoice e)). rewrite Hl in HA. simpl.
    destruct (A !! en_invoice e); [by eexists|done].
Qed.

Lemma ledger_step_ok L L' : ledger_ok L → ledger_step L L' → ledger_ok L'.
Proof.
  intros HL Hstep. destruct Hstep.
  - apply accounts_ok; [done|]. destruct H0 as (?&?&?&?).
    unfold account_ok. split_and!; try lia.
    + symmetry. rewrite H2. apply msum_zero. intros p e Hp. apply contribution_elsewhere.
      intros <-. destruct (proj2 HL p e Hp) as (_&[b Hb]&_). congruence.
    + destruct H1 as [-> | [-> | [-> ?]]]; [lia|done|lia].
  - destruct (proj1 HL i a H) as (?&?&?&?&?&Hst). rewrite H0 in Hst.
    destruct H1 as (?&_&?&?). simpl in *.
    apply accounts_ok; [done|]. unfold account_ok. rewrite H3. split_and!; lia.
  - apply accounts_ok; [done|]. apply status_move_ok; [by apply HL|done].
  - by apply statuses_ok.
  - eapply post_idle_ok; try done; congruence.
  - destruct (proj2 HL p e H) as (?&[a Ha]&Ho).
    eapply (post_idle_ok L (en_invoice e)); try done.
    + intros e1 He1. rewrite H in He1. injection He1 as <-. rewrite H1. by split_and!.
    + simpl. destruct (en_original e) as [o|]; [by destruct Ho|done].
  - subst z. by eapply (post_charge_ok L i p a None).
  - destruct (proj2 HL p e H1) as (_&_&Ho). subst z.
    change (en_amount e) with (en_amount (with_entry_status PaymentStatus.SUCCEEDED e)).
    eapply (post_charge_ok L i p a (Some e)); try done.
    + simpl. destruct (en_original e) as [o|]; [by destruct Ho|done].
    + intros e0 [= <-]. by split_and!.
  - subst z. by eapply post_adjustment_ok.
Qed.

(** ** Properties *)
Inductive ledger_reachable : Ledger → Prop :=
| lr_start : ledger_reachable (MkLedger ∅ ∅)
| lr_step L L' : ledger_reachable L → ledger_step L L' → ledger_reachable L'.

Lemma ledger_reachable_ok L : ledger_reachable L → ledger_ok L.
Proof.
  induction 1; [|by eapply ledger_step_ok].
  split; intros ?? Hx; simpl in Hx; by rewrite lookup_empty in Hx.
Qed.
