(* ===== verification/Settlement.v ===== *)
(** * The services refine the ledger

    The invoices and payments of the database are a ledger; every transaction
    of the invoice and payment services that commits is a sequence of moves of
    that ledger (none, mostly one).  [Posts] is the interface: a service proves
    it of its transactions, and Conservation uses nothing else about them. *)
From S2P Require Import Prelude JsString Json Money Database InvoiceNumber InvoiceTotals States MapSum Ledger Invoices Payments.

(** ** The ledger of a database *)
Definition account_of (r : Invoice) : Account :=
  MkAccount (inv_total r) (inv_creditTotal r) (inv_amountPaid r) (inv_balanceDue r)
    (inv_status r).
Definition entry_of (r : Payment) : Entry :=
  MkEntry (pay_invoiceId r) (pay_originalPaymentId r) (pay_kind r) (pay_status r)
    (pay_amount r).
Definition of_tables (t : gmap string Invoice * gmap string Payment) : Ledger :=
  MkLedger (account_of <$> t.1) (entry_of <$> t.2).
Definition ledger_of (d : Db) : Ledger := of_tables (ledger_tables d).
(** Rows are stored under their primary keys. *)
Definition keyed_tables (t : gmap string Invoice * gmap string Payment) : Prop :=
  (∀ i r, t.1 !! i = Some r → inv_id r = i) ∧ (∀ i r, t.2 !! i = Some r → pay_id r = i).
Definition ledger_inv (d : Db) : Prop :=
  keyed_tables (ledger_tables d) ∧ ledger_ok (ledger_of d).

(** A committed run of [m], from a database where [P] holds, is a sequence of
    moves. *)
Class Posts {A} (P : Db → Prop) (m : Io A) : Prop :=
  posts : ∀ w a w', ledger_inv (db w) → P (db w) → m w = (Ok a, w') →
    keyed_tables (ledger_tables (db w')) ∧
    rtc ledger_step (ledger_of (db w)) (ledger_of (db w')).
Definition anywhere (d : Db) : Prop := True.

(** ** Lemmas *)
Lemma rtc_ledger_ok L L' : ledger_ok L → rtc ledger_step L L' → ledger_ok L'.
Proof. intros HL H. induction H; eauto using ledger_step_ok. Qed.
Lemma posts_inv {A} P (m : Io A) w a w' :
  Posts P m → ledger_inv (db w) → P (db w) → m w = (Ok a, w') → ledger_inv (db w').
Proof.
  intros Hm Hi HP H. destruct (Hm w a w' Hi HP H). split; [done|].
  eapply rtc_ledger_ok; [apply Hi|done].
Qed.
Lemma keeps_posts {A} P (m : Io A) : Keeps ledger_tables m → Posts P m.
Proof.
  intros Hm w a w' [Hk _] _ H. apply keeps_run with (proj := ledger_tables) in H; [|done].
  unfold ledger_of. rewrite H. split; [done|constructor].
Qed.
Lemma posts_bind {A B} (m : Io A) (k : A → Io B) :
  Posts anywhere m → (∀ a, Posts anywhere (k a)) → Posts anywhere (m ≫= k).
Proof.
  intros Hm Hk w b w' Hi HP H. apply bind_Ok in H as (a&w1&H1&H2).
  pose proof (posts_inv _ _ _ _ _ Hm Hi HP H1) as Hi1.
  destruct (Hm w a w1 Hi HP H1) as [_ Hs1]. destruct (Hk a w1 b w' Hi1 HP H2) as [? Hs2].
  split; [done|]. by etrans.
Qed.

(** What the writes do to the two tables. *)
Lemma create_invoice_tables r w u w' :
  create_invoice r w = (Ok u, w') →
  invoices (db w) !! inv_id r = None ∧
  ledger_tables (db w') = (<[inv_id r := r]> (invoices (db w)), payments (db w)).
Proof.
  unfold create_invoice, put_invoice. intros H.
  apply bind_Ok in H as (m&w1&Hr&H). apply read_Ok in Hr as [-> ->].
  apply bind_Ok in H as (?&w2&Hr&H). apply require_Ok in Hr as [Hb ->].
  apply write_Ok in H as ->. split_bool. done.
Qed.
Lemma create_payment_tables r w u w' :
  create_payment r w = (Ok u, w') →
  payments (db w) !! pay_id r = None ∧
  unique_in (payments (db w)) pay_idempotencyKey (pay_idempotencyKey r) = true ∧
  unique_opt (payments (db w)) transaction_key (transaction_key r) = true ∧
  ledger_tables (db w') = (invoices (db w), <[pay_id r := r]> (payments (db w))).
Proof.
  unfold create_payment, put_payment. intros H.
  apply bind_Ok in H as (m&w1&Hr&H). apply read_Ok in Hr as [-> ->].
  apply bind_Ok in H as (?&w2&Hr&H). apply require_Ok in Hr as [Hb ->].
  apply write_Ok in H as ->. split_bool. done.
Qed.
Lemma update_invoice_tables id f w u w' :
  update_invoice id f w = (Ok u, w') →
  ∃ r t, invoices (db w) !! id = Some r ∧
    ledger_tables (db w') =
      (<[id := f r <| inv_updatedAt := t |>]> (invoices (db w)), payments (db w)).
Proof.
  unfold update_invoice. intros H.
  apply bind_Ok in H as (t&w1&Ht&H). apply new_date_Ok in Ht as [-> ->].
  apply bind_Ok in H as (m&w1&Hr&H). apply read_Ok in Hr as [-> ->]. simpl in H.
  destruct (invoices (db w) !! id) as [r|]; [|by apply throw_Ok in H].
  apply write_Ok in H as ->. eauto.
Qed.
Lemma update_invoice_if_tables id p f w n w' :
  update_invoice_if id p f w = (Ok n, w') →
  (n = 0 ∧ ledger_tables (db w') = ledger_tables (db w)) ∨
  (n = 1 ∧ ∃ r t, invoices (db w) !! id = Some r ∧ p r = true ∧
    ledger_tables (db w') =
      (<[id := f r <| inv_updatedAt := t |>]> (invoices (db w)), payments (db w))).
Proof.
  unfold update_invoice_if, update_one. intros H.
  apply bind_Ok in H as (t&w1&Ht&H). apply new_date_Ok in Ht as [-> ->].
  apply bind_Ok in H as (m&w1&Hr&H). apply read_Ok in Hr as [-> ->]. simpl in H.
  destruct (invoices (db w) !! id) as [r|] eqn:Hr; [destruct (p r) eqn:Hp|].
  all: apply bind_Ok in H as (?&w1&Hw&H); apply write_Ok in Hw as ->;
    apply ret_Ok in H as [-> ->].
  - right. eauto 10.
  - by left.
  - by left.
Qed.
Lemma update_payment_if_tables id p f w n w' :
  update_payment_if id p f w = (Ok n, w') →
  (n = 0 ∧ ledger_tables (db w') = ledger_tables (db w)) ∨
  (n = 1 ∧ ∃ r t, payments (db w) !! id = Some r ∧ p r = true ∧
    ledger_tables (db w') =
      (invoices (db w), <[id := f r <| pay_updatedAt := t |>]> (payments (db w)))).
Proof.
  unfold update_payment_if. intros H.
  apply bind_Ok in H as (t&w1&Ht&H). apply new_date_Ok in Ht as [-> ->].
  apply bind_Ok in H as (m&w1&Hr&H). apply read_Ok in Hr as [-> ->]. simpl in H.
  destruct (payments (db w) !! id) as [r|] eqn:Hr;
    [|apply ret_Ok in H as [-> ->]; by left].
  destruct (p r) eqn:Hp; [|apply ret_Ok in H as [-> ->]; by left].
  apply bind_Ok in H as (?&w1&Hq&H). apply require_Ok in Hq as [_ ->].
  apply bind_Ok in H as (?&w1&Hw&H). apply write_Ok in Hw as ->.
  apply ret_Ok in H as [-> ->]. right. eauto 10.
Qed.

(** The parts of a transaction that leave both tables alone. *)
#[export] Instance find_setting_keeps {T} (proj : Db → T) k : Keeps proj (find_setting k).
Proof. apply keeps_read. Qed.
#[export] Instance allocate_keeps : Keeps ledger_tables allocateInvoiceNumber.
Proof. unfold allocateInvoiceNumber. apply _. Qed.
#[export] Instance create_items_keeps i c items lines :
  Keeps ledger_tables (create_items i c items lines).
Proof. unfold create_items. apply _. Qed.
#[export] Instance cancel_linked_order_keeps a o i n u c :
  Keeps ledger_tables (cancel_linked_order a o i n u c).
Proof. unfold cancel_linked_order. apply _. Qed.
#[export] Instance action_event_keeps a i : Keeps ledger_tables (action_event a i).
Proof. unfold action_event. apply _. Qed.
#[export] Instance payment_event_keeps e k p i : Keeps ledger_tables (payment_event e k p i).
Proof. unfold payment_event. apply _. Qed.
#[export] Instance mark_order_paid_keeps o f i p u c :
  Keeps ledger_tables (mark_order_paid o f i p u c).
Proof. unfold mark_order_paid. apply _. Qed.
#[export] Instance readSettings_keeps {T} (proj : Db → T) : Keeps proj readSettings.
Proof. unfold readSettings. apply _. Qed.
#[export] Instance assertPayableAmount_keeps {T} (proj : Db → T) i a :
  Keeps proj (assertPayableAmount i a).
Proof. unfold assertPayableAmount. apply _. Qed.

#[export] Instance find_payment_by_key_keeps {T} (proj : Db → T) k :
  Keeps proj (find_payment_by_key k).
Proof. apply keeps_read. Qed.
#[global] Typeclasses Opaque find_setting allocateInvoiceNumber create_items
  cancel_linked_order action_event payment_event mark_order_paid readSettings
  assertPayableAmount find_payment_by_key.
Lemma assertPayableAmount_Ok invoice amount w u w' :
  assertPayableAmount invoice amount w = (Ok u, w') →
  open_for_payment (inv_status invoice) ∧ 0 < amount <= inv_balanceDue invoice ∧ w' = w.
Proof.
  unfold assertPayableAmount, readSettings, find_setting. intros H.
  repeat (run_step || match goal with
    | H : read _ _ = _ |- _ => apply read_Ok in H as [? ?] end; simplify_eq).
  split_bool. split_and!; [|lia..|done].
  unfold open_for_payment. rewrite orb_true_iff, !bool_decide_eq_true in H. done.
Qed.

(** Reading a transaction: the control flow is inverted, every call that keeps
    the tables becomes an equation between them. *)
Ltac table_step :=
  match goal with
  | H : read _ _ = (Ok _, _) |- _ => apply read_Ok in H as [? ?]
  | H : lock_row _ _ _ = (Ok _, _) |- _ => apply lock_row_Ok in H
  | H : assertPayableAmount _ _ _ = (Ok _, _) |- _ =>
      apply assertPayableAmount_Ok in H as (?&?&?)
  | H : create_invoice _ _ = (Ok _, _) |- _ => apply create_invoice_tables in H as [? ?]
  | H : create_payment _ _ = (Ok _, _) |- _ =>
      apply create_payment_tables in H as (?&?&?&?)
  | H : update_invoice _ _ _ = (Ok _, _) |- _ =>
      apply update_invoice_tables in H as (?&?&?&?)
  | H : update_invoice_if _ _ _ _ = (Ok _, _) |- _ =>
      apply update_invoice_if_tables in H as [[? ?]|(?&?&?&?&?&?)]
  | H : update_payment_if _ _ _ _ = (Ok _, _) |- _ =>
      apply update_payment_if_tables in H as [[? ?]|(?&?&?&?&?&?)]
  | H : ?m ?w = (Ok _, ?w') |- _ =>
      apply (keeps_run ledger_tables) in H; [|apply _]
  | H : match ?x with _ => _ end _ = (Ok _, _) |- _ => destruct x
  end.
Ltac run_tables := repeat (run_step || table_step; simplify_eq).

(** The same for a long transaction: first the whole chain of binds, then each
    call. *)
Ltac walk H :=
  repeat (apply bind_Ok in H as (?&?&?&H); cbn beta in H);
  repeat match goal with
  | H : lift _ _ = (Ok _, _) |- _ => apply lift_Ok in H as [? ->]
  | H : mret _ _ = (Ok _, _) |- _ => apply ret_Ok in H as [? ->]
  | H : create_invoice _ _ = (Ok _, _) |- _ => apply create_invoice_tables in H as [? H]
  | H : _ ?w = (Ok _, _) |- _ => apply (keeps_run ledger_tables) in H; [|apply _]
  end.
(** Equations between tables, rewritten into the goal from the last one back. *)
Ltac chain_tables :=
  unfold ledger_of;
  repeat match goal with
  | H : ledger_tables (db ?v) = _ |- _ => rewrite H in *; clear H
  end.

Lemma tables_eq d d' : ledger_tables d = ledger_tables d' →
  invoices d = invoices d' ∧ payments d = payments d'.
Proof. by intros [=]. Qed.
Ltac split_tables :=
  unfold ledger_of, ledger_tables in *; simplify_eq/=;
  repeat match goal with
  | H : invoices (db ?v) = _ |- _ => progress (rewrite H in *); clear H
  | H : payments (db ?v) = _ |- _ => progress (rewrite H in *); clear H
  | H : Some _ = _ |- _ => symmetry in H
  end.

(** A row written to a table of accounts or entries. *)
Lemma of_tables_invoice i r (m : gmap string Invoice) p :
  of_tables (<[i := r]> m, p) =
  MkLedger (<[i := account_of r]> (accounts (of_tables (m, p)))) (entries (of_tables (m, p))).
Proof. unfold of_tables. simpl. by rewrite fmap_insert. Qed.
Lemma of_tables_payment i r m (p : gmap string Payment) :
  of_tables (m, <[i := r]> p) =
  MkLedger (accounts (of_tables (m, p))) (<[i := entry_of r]> (entries (of_tables (m, p)))).
Proof. unfold of_tables. simpl. by rewrite fmap_insert. Qed.
Section lookups.
Context (m : gmap string Invoice) (p : gmap string Payment).
Lemma account_lookup i r :
  m !! i = Some r → accounts (of_tables (m, p)) !! i = Some (account_of r).
Proof. intros H. unfold of_tables. simpl. by rewrite lookup_fmap, H. Qed.
Lemma account_absent i : m !! i = None → accounts (of_tables (m, p)) !! i = None.
Proof. intros H. unfold of_tables. simpl. by rewrite lookup_fmap, H. Qed.
Lemma entry_lookup i r :
  p !! i = Some r → entries (of_tables (m, p)) !! i = Some (entry_of r).
Proof. intros H. unfold of_tables. simpl. by rewrite lookup_fmap, H. Qed.
Lemma entry_absent i : p !! i = None → entries (of_tables (m, p)) !! i = None.
Proof. intros H. unfold of_tables. simpl. by rewrite lookup_fmap, H. Qed.
End lookups.
Lemma keyed_invoice i r m p :
  keyed_tables (m, p) → inv_id r = i → keyed_tables (<[i := r]> m, p).
Proof.
  intros [Hm Hp] <-. split; [|done]. simpl. intros j s. rewrite lookup_insert.
  destruct (decide _); intros; simplify_eq; auto.
Qed.
Lemma keyed_payment i r m p :
  keyed_tables (m, p) → pay_id r = i → keyed_tables (m, <[i := r]> p).
Proof.
  intros [Hm Hp] <-. split; [done|]. simpl. intros j s. rewrite lookup_insert.
  destruct (decide _); intros; simplify_eq; auto.
Qed.

(** One row of invoices written. *)
Lemma posts_invoice m p i r :
  keyed_tables (m, p) → inv_id r = i →
  ledger_step (of_tables (m, p))
    (MkLedger (<[i := account_of r]> (accounts (of_tables (m, p))))
              (entries (of_tables (m, p)))) →
  keyed_tables (<[i := r]> m, p) ∧
  rtc ledger_step (of_tables (m, p)) (of_tables (<[i := r]> m, p)).
Proof.
  intros Hk Hid Hs. split; [by apply keyed_invoice|].
  rewrite of_tables_invoice. by apply rtc_once.
Qed.

Lemma create_draft_fresh items credit amounts :
  parseAndCalculate items credit = Ok amounts →
  0 <= creditTotal amounts ∧ 0 <= balanceDue amounts ∧
  total amounts = creditTotal amounts + balanceDue amounts.
Proof.
  unfold parseAndCalculate. destruct (calculateInvoiceTotals _ _ _) eqn:E; simpl; [|done].
  intros; simplify_eq. apply calculate_totals_Ok in E as (_&_&_&_&_&?&_&?&->).
  unfold totals_of; simpl. lia.
Qed.

Section invoices.
Context `{ZodFormats}.

Lemma create_tx_posts input amounts actor context :
  parseAndCalculate (rq_items (rq_fields input)) (rq_creditTotal (rq_fields input))
    = Ok amounts →
  Posts anywhere (create_tx input amounts actor context).
Proof.
  intros Ha w a w' Hi _ Hrun. apply create_draft_fresh in Ha as (?&?&?).
  unfold create_tx in Hrun. run_tables. split_tables.
  apply posts_invoice; [apply Hi|done|]. apply ls_open.
  - by apply account_absent.
  - unfold fresh_account; simpl. lia.
  - by left.
Qed.

Lemma updateDraft_tx_posts invoiceId updatedAt input amounts actor context :
  parseAndCalculate (rq_items input) (rq_creditTotal input) = Ok amounts →
  Posts anywhere (updateDraft_tx invoiceId updatedAt input amounts actor context).
Proof.
  intros Ha w a w' Hi _ Hrun. apply create_draft_fresh in Ha as (?&?&?).
  unfold updateDraft_tx in Hrun. run_tables.
  split_tables.
  match goal with H : <[_ := _]> _ !! _ = Some _ |- _ => rewrite lookup_insert_eq in H end.
  simplify_eq. split_bool. rewrite insert_insert_eq. apply posts_invoice; [apply Hi| |].
  - simpl. by apply Hi.
  - eapply ls_redraft; [by apply account_lookup|done| |done|done].
    unfold fresh_account; simpl. lia.
Qed.

Lemma account_of_action action next now r :
  account_of (apply_action action next now r) = with_status next (account_of r).
Proof. destruct action; simpl; [by case_bool_decide|done|done]. Qed.
Lemma next_status_move action current now next :
  nextInvoiceStatus action (inv_status current) (inv_dueAt current)
    (inv_balanceDue current) (inv_amountPaid current) now = Ok next →
  status_move (account_of current) next.
Proof.
  intros [Ht Hg]%next_status_Ok. inversion Ht; subst; simpl in *;
    unfold open_for_payment; naive_solver.
Qed.

Lemma applyAction_tx_posts invoiceId action current next now actor context :
  nextInvoiceStatus action (inv_status current) (inv_dueAt current)
    (inv_balanceDue current) (inv_amountPaid current) now = Ok next →
  Posts anywhere (applyAction_tx invoiceId action current next now actor context).
Proof.
  intros Hn w a w' Hi _ Hrun. apply next_status_move in Hn.
  unfold applyAction_tx in Hrun. run_tables. split_tables. split_bool.
  apply posts_invoice; [apply Hi| |].
  - destruct action; simpl; try case_bool_decide; simpl; by apply Hi.
  - match goal with Hl : _ !! _ = Some ?r |- context [account_of ?r'] =>
      change (account_of r') with (account_of (apply_action action next now r)) end.
    rewrite account_of_action. apply ls_status; [by apply account_lookup|].
    destruct next; simpl in *; congruence.
Qed.
End invoices.

Definition same_account (r r' : Invoice) : Prop := account_of r = account_of r'.

Section payments.
Context `{ZodFormats} `{Sha256}.

Lemma chargeData_Ok input u verified currency w r w' :
  chargeData input u verified currency w = (Ok r, w') →
  entry_of r = MkEntry (sm_invoiceId input) None PaymentKind.CHARGE
    (if bool_decide (is_Some verified) then PaymentStatus.SUCCEEDED
     else PaymentStatus.PENDING) (string_to_Z (sm_payment input)) ∧
  ledger_tables (db w') = ledger_tables (db w).
Proof.
  unfold chargeData. intros Hrun. apply bind_Ok in Hrun as (t&w1&H1&Hrun).
  assert (ledger_tables (db w1) = ledger_tables (db w)) as <-
    by (destruct (pf_paidAt _); run_tables; unfold ledger_tables; congruence).
  run_tables. split; [done|]. unfold ledger_tables; congruence.
Qed.
Lemma applyVerifiedCharge_Ok invoice p amount actor context now source w u w' :
  applyVerifiedCharge invoice p amount actor context now source w = (Ok u, w') →
  ∃ r r', invoices (db w) !! inv_id invoice = Some r ∧ inv_id r' = inv_id r ∧
    same_account r' (settle_invoice invoice amount now r) ∧
    ledger_tables (db w') = (<[inv_id invoice := r']> (invoices (db w)), payments (db w)).
Proof.
  unfold applyVerifiedCharge. intros Hrun. run_tables. split_tables.
  do 2 eexists. split; [done|]. split; [|split]; [| |reflexivity]; simpl; [|done].
  unfold settle_invoice. by destruct (_ =? 0).
Qed.
Lemma account_of_settle invoice amount now :
  account_of (settle_invoice invoice amount now invoice) =
  credit_account amount (account_of invoice).
Proof. unfold settle_invoice, credit_account. simpl. by destruct (_ =? 0). Qed.
End payments.

(** A row of each table written. *)
Lemma posts_both m p i r k s :
  keyed_tables (m, p) → inv_id r = i → pay_id s = k →
  ledger_step (of_tables (m, p))
    (MkLedger (<[i := account_of r]> (accounts (of_tables (m, p))))
              (<[k := entry_of s]> (entries (of_tables (m, p))))) →
  keyed_tables (<[i := r]> m, <[k := s]> p) ∧
  rtc ledger_step (of_tables (m, p)) (of_tables (<[i := r]> m, <[k := s]> p)).
Proof.
  intros Hk Hi Hs Hstep. split; [by apply keyed_payment; [apply keyed_invoice|]|].
  rewrite of_tables_invoice, of_tables_payment. by apply rtc_once.
Qed.
Lemma posts_payment m p k s :
  keyed_tables (m, p) → pay_id s = k →
  ledger_step (of_tables (m, p))
    (MkLedger (accounts (of_tables (m, p))) (<[k := entry_of s]> (entries (of_tables (m, p))))) →
  keyed_tables (m, <[k := s]> p) ∧
  rtc ledger_step (of_tables (m, p)) (of_tables (m, <[k := s]> p)).
Proof.
  intros Hk Hs Hstep. split; [by apply keyed_payment|].
  rewrite of_tables_payment. by apply rtc_once.
Qed.

Ltac payment_step :=
  match goal with
  | H : chargeData _ _ _ _ _ = (Ok _, _) |- _ => apply chargeData_Ok in H as [? ?]
  | H : applyVerifiedCharge _ _ _ _ _ _ _ _ = (Ok _, _) |- _ =>
      apply applyVerifiedCharge_Ok in H as (?&?&?&?&?&?)
  end.
Ltac run_payment := repeat (run_step || payment_step || table_step; simplify_eq).

(** The sum of a charge's successful adjustments. *)
Lemma adjusted_rows d o :
  sum_amounts (adjustments_of o d) = adjusted (of_tables (invoices d, payments d)) o.
Proof.
  unfold sum_amounts, adjustments_of, adjusted, of_tables; simpl.
  by rewrite sum_rows, msum_fmap.
Qed.

(** Two lookups of one row. *)
Ltac same_rows Hk :=
  repeat match goal with
  | Hl : invoices _ !! ?i = Some ?r |- _ =>
      lazymatch goal with _ : inv_id r = _ |- _ => fail | _ => idtac end;
      let E := fresh "Hid" in
      pose proof (proj1 Hk _ _ Hl) as E; cbn [fst snd] in E; rewrite ?E in *
  | Hl : payments _ !! ?i = Some ?r |- _ =>
      lazymatch goal with _ : pay_id r = _ |- _ => fail | _ => idtac end;
      let E := fresh "Hid" in
      pose proof (proj2 Hk _ _ Hl) as E; cbn [fst snd] in E; rewrite ?E in *
  end; simplify_eq.

Section payment_transactions.
Context `{ZodFormats} `{Sha256}.

Lemma submitManual_tx_posts input u customerId context :
  Posts anywhere (submitManual_tx input u customerId context).
Proof.
  intros w a w' Hi _ Hrun. unfold submitManual_tx in Hrun. run_payment; split_tables.
  - split; [apply Hi|constructor].
  - apply posts_payment; [apply Hi|done|].
    match goal with H : _ ≫= _ = Some ?r |- _ => apply bind_Some in H as (r'&?&?) end.
    destruct (_ =? _)%string; [|done]. simplify_eq.
    match goal with H : entry_of ?r = _ |- _ => rewrite H end.
    eapply ls_submit; [by apply account_lookup|by apply entry_absent|done..|].
    simpl. lia.
Qed.

Lemma recordManual_tx_posts input actor context :
  Posts anywhere (recordManual_tx input actor context).
Proof.
  intros w a w' Hi _ Hrun. unfold recordManual_tx in Hrun. run_payment; split_tables.
  destruct Hi as [Hk _].
  match goal with Hl : invoices (db w) !! sm_invoiceId input = Some ?r |- _ =>
    pose proof (proj1 Hk _ _ Hl) as Hid; rewrite Hid in * end. simplify_eq.
  apply posts_both; [done|congruence|done|].
  match goal with Ha : same_account _ _, He : entry_of _ = _ |- _ =>
    rewrite Ha, He, account_of_settle end.
  eapply ls_charge; try done; [by apply account_lookup|by apply entry_absent].
Qed.

(** The payment [p] belongs to the invoice [i]: it never moves to another. *)
Definition payment_at (p i : string) (d : Db) : Prop :=
  ∃ r, payments d !! p = Some r ∧ pay_invoiceId r = i.

Lemma reject_tx_posts paymentId invoiceId reason actor context :
  Posts anywhere (reject_tx paymentId invoiceId reason actor context).
Proof.
  intros w a w' [Hk _] _ Hrun. unfold reject_tx in Hrun. run_payment; split_tables.
  match goal with Hb : _ && reviewable ?r = true |- _ =>
    apply andb_true_iff in Hb as [_ Hb]; apply andb_true_iff in Hb as [Hch Hpe] end.
  split_bool. apply posts_payment; [done|simpl; by apply Hk|].
  match goal with Hl : payments _ !! _ = Some ?r |- _ =>
    apply (ls_reject _ _ (entry_of r)); [by apply entry_lookup|done..] end.
Qed.

Lemma verify_tx_posts paymentId invoiceId actor context :
  Posts (payment_at paymentId invoiceId) (verify_tx paymentId invoiceId actor context).
Proof.
  intros w a w' [Hk _] (r0&Hr0&Hinv) Hrun. unfold verify_tx in Hrun.
  run_payment; split_tables.
  match goal with H : _ ≫= _ = Some ?r |- _ => apply bind_Some in H as (r'&?&Hrv) end.
  destruct (reviewable r') eqn:Hb; [|done]. apply andb_true_iff in Hb as [Hch Hpe].
  simplify_eq. same_rows Hk. split_bool.
  apply posts_both; [done|congruence|done|].
  match goal with Ha : same_account _ _ |- _ => rewrite Ha, account_of_settle end.
  match goal with Hl : payments _ !! _ = Some ?r |- _ =>
    apply (ls_verify _ _ _ _ (entry_of r)); try done; [|by apply entry_lookup] end.
  by apply account_lookup.
Qed.

Lemma adjust_tx_posts originalPaymentId invoiceId input actor context :
  0 < string_to_Z (aj_amount input) →
  Posts (payment_at originalPaymentId invoiceId)
    (adjust_tx originalPaymentId invoiceId input actor context).
Proof.
  intros Hpos w a w' [Hk _] (r0&Hr0&Hinv) Hrun. unfold adjust_tx in Hrun.
  run_payment; split_tables.
  match goal with H : _ ≫= _ = Some ?r |- _ => apply bind_Some in H as (r'&?&Hrv) end.
  match type of Hrv with (if ?b then _ else _) = _ => destruct b eqn:Hb; [|done] end.
  simplify_eq. same_rows Hk. split_bool.
  apply posts_both; [done..|].
  match goal with
  | Hc : pay_kind ?r = PaymentKind.CHARGE, Hx : invoices _ !! _ = Some ?i |- _ =>
    eapply (ls_adjust _ _ _ (pay_id r) (account_of i) _ (entry_of r)
              (string_to_Z (aj_amount input)))
  end; try done.
  - by apply account_lookup.
  - by apply entry_absent.
  - by apply entry_lookup.
  - simpl. by destruct (aj_kind input).
  - rewrite <- adjusted_rows. simpl. lia.
Qed.
End payment_transactions.
