(* ===== verification/Orders.v ===== *)
(** * The order service

    apps/api/src/modules/orders/order.service.ts, the checkout terms of
    apps/api/src/modules/settings/checkout-terms.ts and
    packages/database/src/fulfillment.ts.  The registrar side (quotes, the
    domain catalogue, the eligibility of an administrator) is an interface,
    [DomainServices]. *)
From stdpp Require Import sorting.
From S2P Require Import Prelude JsString JsDate Json Money States DomainTables Database InvoiceNumber InvoiceTotals Invoices Payments MapSum Ledger Settlement.

(** ** Status transitions *)
Definition allowedTransitions (s : OrderStatus) : list OrderStatus :=
  match s with
  | OrderStatus.PENDING =>
      [OrderStatus.AWAITING_PAYMENT; OrderStatus.REJECTED; OrderStatus.CANCELLED;
       OrderStatus.FAILED]
  | OrderStatus.AWAITING_PAYMENT =>
      [OrderStatus.PAID; OrderStatus.REJECTED; OrderStatus.CANCELLED; OrderStatus.FAILED]
  | OrderStatus.PAID => [OrderStatus.PROCESSING]
  | OrderStatus.PROCESSING => [OrderStatus.COMPLETED; OrderStatus.FAILED]
  | OrderStatus.COMPLETED => []
  | OrderStatus.REJECTED => []
  | OrderStatus.CANCELLED => []
  | OrderStatus.FAILED => [OrderStatus.PROCESSING; OrderStatus.CANCELLED]
  end.
Definition isOrderTransitionAllowed (current next : OrderStatus) : bool :=
  existsb (λ s, s ==b next) (allowedTransitions current).

(** ** Add-ons of a repeated submission *)
Definition is_kind (k : ProductKind) (i : OrderItem) : bool := oi_kind i ==b k.
Definition matchesAddOns (items : list OrderItem) (priceIds : list string) : bool :=
  let purchased := List.filter (is_kind ProductKind.ADD_ON) items in
  bool_decide (length purchased = length priceIds) &&
  forallb (λ i, existsb (String.eqb (oi_productPriceId i)) priceIds) purchased.

(** ** contracts/orders.ts *)
(** [readHostingProvisioningMode]: a null snapshot is read as an empty object. *)
Definition hostingProvisioningModes : list string := ["STANDARD"; "PRESERVE_EXISTING"].
Definition readHostingProvisioningMode (snapshot : json) : result string :=
  match snapshot with
  | JNull | JUndefined => Ok "STANDARD"
  | JObj o =>
      match get "hostingProvisioningMode" o with
      | JUndefined => Ok "STANDARD"
      | JStr s => if existsb (String.eqb s) hostingProvisioningModes then Ok s
                  else Err ZodError
      | _ => Err ZodError
      end
  | _ => Err ZodError
  end.
Inductive DomainOrder :=
| EXISTING (domainId priceId : string)
| REGISTRATION (quoteId : string).
Inductive DomainMode := ModeExisting | ModeRegistration.
#[export] Instance DomainMode_eq_dec : EqDecision DomainMode.
Proof. solve_decision. Defined.
Definition domain_mode (d : DomainOrder) : DomainMode :=
  match d with EXISTING _ _ => ModeExisting | REGISTRATION _ => ModeRegistration end.
Definition mode_name (m : DomainMode) : string :=
  match m with ModeExisting => "EXISTING" | ModeRegistration => "REGISTRATION" end.
Section snapshots.
Context `{ZodFormats}.
(** [adminDomainOrderSnapshotSchema]: the action and the domain record. *)
Definition adminDomainOrderSnapshotSchema : schema (DomainMode * string) := λ v,
  o ← z_strict_object ["adminDomainAction"; "domainRecordId"; "sendToRegistrar"] v;
  action ← z_string (get "adminDomainAction" o);
  id ← z_refine zod_uuid z_string (get "domainRecordId" o);
  send ← z_bool (get "sendToRegistrar" o);
  if String.eqb action "EXISTING" && negb send then Some (ModeExisting, id)
  else if String.eqb action "REGISTRATION" && send then Some (ModeRegistration, id)
  else None.
End snapshots.

Record CreateOrderInput := MkOrderInput
  { co_customerId : string; co_productId : string; co_priceId : string;
    co_requestedDomain : string; co_submissionKey : string;
    co_addOnPriceIds : option (list string); co_domainQuoteId : option string;
    co_acceptedTermsVersion : option string; co_hostingProvisioningMode : option string;
    co_domainOrder : option DomainOrder; co_notes : option string }.
Record GuestCheckoutRequest := MkGuest
  { gu_email : string; gu_productId : string; gu_priceId : string;
    gu_requestedDomain : string; gu_submissionKey : string;
    gu_addOnPriceIds : option (list string) }.
Inductive OrderSource := SourceAdmin | SourceCustomer.
#[export] Instance OrderSource_eq_dec : EqDecision OrderSource.
Proof. solve_decision. Defined.
Record OrderActor := MkOrderActor
  { oa_userId : string; oa_role : option string; oa_staffRole : option string;
    oa_twoFactorEnabled : bool }.

(** ** The registrar interface

    What [create] asks of [AdminOrderDomainService.lockActor],
    [DomainService.quoteForHostingOrder] and
    [AdminOrderDomainService.existingSelection]: they may refuse, and none of
    them writes. *)
Record OrderQuote := MkOrderQuote
  { dq_id : string; dq_accountId : string; dq_domainName : string;
    dq_sellingAmount : Z; dq_price : ProductPrice; dq_live : bool }.
Record ExistingSelection := MkSelection { ex_domainId : string; ex_price : ProductPrice }.
Class DomainServices :=
  { lockActor : string → Io unit;
    quoteForHostingOrder : string → string → string → bool → Io OrderQuote;
    existingSelection : string → string → string → string → Io ExistingSelection }.
Class DomainServicesLaws `{DomainServices} : Prop :=
  { lockActor_frame {T} (proj : Db → T) u :: Keeps proj (lockActor u);
    quoteForHostingOrder_frame {T} (proj : Db → T) q c d a ::
      Keeps proj (quoteForHostingOrder q c d a);
    existingSelection_frame {T} (proj : Db → T) d p c n ::
      Keeps proj (existingSelection d p c n);
    (* both refuse a price that is not positive *)
    quote_positive q c d a w r w' :
      quoteForHostingOrder q c d a w = (Ok r, w') → 0 < dq_sellingAmount r;
    existing_positive d p c n w r w' :
      existingSelection d p c n w = (Ok r, w') → 0 < pp_amount (ex_price r) }.

(** [AdminOrderDomainService.authorize]. *)
Definition authorize (actor : OrderActor) : Io unit :=
  require (bool_decide (oa_role actor = Some "ADMIN") &&
           bool_decide (oa_staffRole actor = Some "FULL_ADMINISTRATOR") &&
           oa_twoFactorEnabled actor)
    (forbidden
      "A full administrator with two-factor authentication is required for domain orders.").

(** ** settings/checkout-terms.ts *)
Record CheckoutTermsPolicy := MkTerms
  { ct_required : bool; ct_url : option string; ct_revision : option string;
    ct_version : option string }.
Definition CHECKOUT_TERMS_KEY : string := "business.checkout-terms".
Definition DEFAULT_CHECKOUT_TERMS : CheckoutTermsPolicy := MkTerms false None None None.

Section terms.
(** The URL check of contracts/checkout-terms.ts: [z.url] and [URL]. *)
Context `{ZodFormats} (https_url : string → bool).

Definition termsUrl : schema string := z_refine https_url (sized 0 2048).
Definition revision : schema string := trimmed 1 80.
Definition checkoutTermsPolicySchema : schema CheckoutTermsPolicy := λ v,
  o ← z_strict_object ["required"; "url"; "revision"; "version"] v;
  required ← z_bool (get "required" o);
  if (required : bool) then
    url ← termsUrl (get "url" o);
    rev ← revision (get "revision" o);
    version ← z_refine zod_uuid z_string (get "version" o);
    Some (MkTerms true (Some url) (Some rev) (Some version))
  else
    url ← z_nullable termsUrl (get "url" o);
    rev ← z_nullable revision (get "revision" o);
    version ← z_nullable (z_refine zod_uuid z_string) (get "version" o);
    Some (MkTerms false url rev version).
Definition readCheckoutTerms (value : option json) : result CheckoutTermsPolicy :=
  match value with
  | None => Ok DEFAULT_CHECKOUT_TERMS
  | Some v => of_option (AppException 503 "SERVICE_UNAVAILABLE"
                "Checkout terms are temporarily unavailable.")
                (checkoutTermsPolicySchema v)
  end.
(** The acceptance recorded on the order; [JNull] when none is needed. *)
Definition requireCheckoutTerms (acceptedVersion : option string) (now : Z) : Io json :=
  _ ← lock_row "advisory" CHECKOUT_TERMS_KEY;
  row ← find_setting CHECKOUT_TERMS_KEY;
  policy ← lift (readCheckoutTerms row);
  if negb (ct_required policy) then mret JNull
  else
    _ ← require (bool_decide (acceptedVersion = ct_version policy)) (unprocessable
      "Review and accept the current terms of service before placing your order.");
    mret (JObj [("url", nullable_json (ct_url policy));
                ("revision", nullable_json (ct_revision policy));
                ("version", nullable_json (ct_version policy));
                ("acceptedAt", JStr (to_ISO_string now))]).
End terms.

(** ** What an order is made of *)
Definition period_name (p : BillingPeriod) : string :=
  match p with
  | BillingPeriod.ONE_TIME => "ONE_TIME" | BillingPeriod.MONTHLY => "MONTHLY"
  | BillingPeriod.QUARTERLY => "QUARTERLY" | BillingPeriod.SEMIANNUAL => "SEMIANNUAL"
  | BillingPeriod.ANNUAL => "ANNUAL" | BillingPeriod.BIENNIAL => "BIENNIAL"
  | BillingPeriod.TRIENNIAL => "TRIENNIAL"
  end.
(** The validity window of a price. *)
Definition price_valid (now : Z) (p : ProductPrice) : bool :=
  match pp_validFrom p with Some t => t <=? now | None => true end &&
  match pp_validUntil p with Some t => now <? t | None => true end.
Definition on_sale (now : Z) (p : ProductPrice) : bool :=
  pp_isActive p && bool_decide (pp_deletedAt p = None) && price_valid now p.
Definition hosting_price (input : CreateOrderInput) (source : OrderSource) (now : Z)
    (p : ProductPrice) : bool :=
  String.eqb (pp_productId p) (co_productId input) && on_sale now p &&
  (pr_kind p ==b ProductKind.HOSTING) && bool_decide (pr_deletedAt p = None) &&
  (pr_status p ==b ACTIVE) &&
  match source with SourceCustomer => pr_publicVisible p | SourceAdmin => true end.
Definition add_on_price (input : CreateOrderInput) (ids : list string) (now : Z)
    (hosting : ProductPrice) (p : ProductPrice) : bool :=
  on_sale now p && String.eqb (pp_currency p) (pp_currency hosting) &&
  ((pp_billingPeriod p ==b BillingPeriod.ONE_TIME) ||
   (pp_billingPeriod p ==b pp_billingPeriod hosting)) &&
  existsb (String.eqb (pp_id p)) ids && (pr_kind p ==b ProductKind.ADD_ON) &&
  (pr_status p ==b ACTIVE) && bool_decide (pr_deletedAt p = None) &&
  existsb (String.eqb (co_productId input)) (pr_eligibleHostingPlans p).
Definition by_product (a b : ProductPrice) : Prop :=
  String.leb (pp_productId a) (pp_productId b) = true.
#[export] Instance by_product_dec : RelDecision by_product.
Proof. intros a b. unfold by_product. apply _. Defined.

Definition customer_eligible (verifiedEmail allowPending : bool) (c : Customer) : bool :=
  bool_decide (cus_deletedAt c = None) && (cus_status c ==b CustomerStatus.ACTIVE) &&
  (negb verifiedEmail || bool_decide (is_Some (usr_emailVerifiedAt c))) &&
  ((usr_status c ==b UserStatus.ACTIVE) ||
   (allowPending && (usr_status c ==b UserStatus.PENDING_VERIFICATION))) &&
  bool_decide (usr_deletedAt c = None).

(** The domain part: its record, price, amount and line description. *)
Record DomainPart := MkDomainPart
  { dp_recordId : string; dp_price : ProductPrice; dp_amount : Z; dp_description : string }.

Section rows.
Context (input : CreateOrderInput) (price : ProductPrice).

Definition hosting_item (package : string) (id orderId : string) (now : Z) : OrderItem :=
  MkOrderItem id orderId ProductKind.HOSTING (pp_productId price) (pp_id price)
    (pr_name price) (pr_description price) (pp_billingPeriod price) (pp_currency price)
    (pp_amount price) (pp_setupFee price) 1 (pp_amount price + pp_setupFee price)
    (Some (co_requestedDomain input))
    (JObj [("productSlug", JStr (pr_slug price));
           ("hostingProvisioningMode",
             JStr (default "STANDARD" (co_hostingProvisioningMode input)));
           ("hostingPackageIdentifier", JStr package)]) None None now.
Definition domain_item (part : DomainPart) (id orderId : string) (now : Z) : OrderItem :=
  let p := dp_price part in
  MkOrderItem id orderId ProductKind.DOMAIN (pp_productId p) (pp_id p) (pr_name p)
    (Some (dp_description part)) BillingPeriod.ANNUAL "BDT" (dp_amount part) 0 1
    (dp_amount part) (Some (co_requestedDomain input))
    (match co_domainOrder input with
     | Some d => JObj [("adminDomainAction", JStr (mode_name (domain_mode d)));
                       ("sendToRegistrar", JBool (domain_mode d ==b ModeRegistration));
                       ("domainRecordId", JStr (dp_recordId part))]
     | None => JNull
     end) None None now.
Definition add_on_item (p : ProductPrice) (id orderId : string) (now : Z) : OrderItem :=
  MkOrderItem id orderId ProductKind.ADD_ON (pp_productId p) (pp_id p) (pr_name p)
    (pr_description p) (pp_billingPeriod p) (pp_currency price) (pp_amount p) 0 1
    (pp_amount p) (Some (co_requestedDomain input)) JNull None None now.
(** The nested [items.create] of the order, in its order. *)
Definition item_makers (package : string) (part : option DomainPart)
    (addOns : list ProductPrice) : list (string → string → Z → OrderItem) :=
  [hosting_item package] ++
  match part with Some part => [domain_item part] | None => [] end ++
  (add_on_item <$> addOns).

(** The lines of the invoice. *)
Definition invoice_line (invoiceId id : string) (position : Z) (item : OrderItem)
    (description : string) (amount : Z) (currency : string) : InvoiceItem :=
  MkInvoiceItem id invoiceId position (Some (oi_id item)) None description currency 1
    amount 0 0 amount None None.
Definition add_on_line (item : OrderItem) : string :=
  (oi_productNameSnapshot item ++ " — " ++
   (if oi_billingPeriod item ==b BillingPeriod.ONE_TIME then "one-time"
    else js_lower (period_name (oi_billingPeriod item))) ++
   " add-on for " ++ co_requestedDomain input)%string.
Definition has_setup : bool := 0 <? pp_setupFee price.
Definition hosting_lines (invoiceId : string) (item : OrderItem)
    : list (string → InvoiceItem) :=
  [λ id, invoice_line invoiceId id 1 item
     (pr_name price ++ " — " ++ js_lower (period_name (pp_billingPeriod price)) ++
      " hosting for " ++ co_requestedDomain input)%string (pp_amount price)
     (pp_currency price)] ++
  (if has_setup
   then [λ id, invoice_line invoiceId id 2 item
           (pr_name price ++ " — one-time setup fee")%string (pp_setupFee price)
           (pp_currency price)]
   else []).
Definition domain_lines (invoiceId : string) (part : option DomainPart)
    (item : option OrderItem) : list (string → InvoiceItem) :=
  match part, item with
  | Some part, Some item =>
      [λ id, invoice_line invoiceId id (if has_setup then 3 else 2) item
         (match co_domainOrder input with
          | Some _ => dp_description part
          | None => ("Simulated registration of " ++ co_requestedDomain input ++
                     " for one year")%string
          end) (dp_amount part) "BDT"]
  | _, _ => []
  end.
Definition firstAddOnPosition (domainItem : option OrderItem) : Z :=
  2 + (if has_setup then 1 else 0) + (if domainItem then 1 else 0).
Definition invoice_lines (invoiceId : string) (part : option DomainPart)
    (orderItem : OrderItem) (domainItem : option OrderItem) (items : list OrderItem)
    : list (string → InvoiceItem) :=
  hosting_lines invoiceId orderItem ++ domain_lines invoiceId part domainItem ++
  imap (λ i item id, invoice_line invoiceId id
                       (firstAddOnPosition domainItem + Z.of_nat i) item
                       (add_on_line item) (oi_lineTotal item) (oi_currency item))
       (List.filter (is_kind ProductKind.ADD_ON) items).
End rows.

(** ** Reading orders *)
(** [orderInclude]: the customer, the items and the first invoice. *)
Record OrderRecord := MkOrderRecord
  { or_order : Order; or_customer : option Customer; or_items : list OrderItem;
    or_invoice : option Invoice }.
Definition kind_rank (k : ProductKind) : Z :=
  match k with ProductKind.HOSTING => 0 | ProductKind.DOMAIN => 1 | ProductKind.ADD_ON => 2 end.
Definition item_before (a b : OrderItem) : Prop :=
  kind_rank (oi_kind a) < kind_rank (oi_kind b) ∨
  kind_rank (oi_kind a) = kind_rank (oi_kind b) ∧
  (oi_createdAt a < oi_createdAt b ∨
   oi_createdAt a = oi_createdAt b ∧ String.leb (oi_id a) (oi_id b) = true).
#[export] Instance item_before_dec : RelDecision item_before.
Proof. intros a b. unfold item_before. apply _. Defined.
Definition invoice_before (a b : Invoice) : Prop := inv_createdAt a <= inv_createdAt b.
#[export] Instance invoice_before_dec : RelDecision invoice_before :=
  λ a b, decide (inv_createdAt a <= inv_createdAt b).

Definition order_items (orderId : string) (d : Db) : list OrderItem :=
  rows (λ r, String.eqb (oi_orderId r) orderId) (orderItems d).
Definition order_invoices (orderId : string) (d : Db) : list Invoice :=
  rows (λ r, bool_decide (inv_orderId r = Some orderId)) (invoices d).
Definition include_order (d : Db) (r : Order) : OrderRecord :=
  MkOrderRecord r (customers d !! ord_customerId r)
    (merge_sort item_before (order_items (ord_id r) d))
    (head (merge_sort invoice_before (order_invoices (ord_id r) d))).
Definition order_not_found : exn := not_found "Order was not found.".
Definition find_order_by_key (key : string) : Io (option OrderRecord) :=
  read (λ d, include_order d <$> find_unique (orders d) ord_submissionKey key).
Definition get_order_record (orderId : string) : Io OrderRecord :=
  found ← read (λ d, include_order d <$> orders d !! orderId);
  lift (of_option order_not_found found).

Record OrderItemView := MkOrderItemView
  { ov_id : string; ov_kind : ProductKind; ov_productId : string;
    ov_productPriceId : string; ov_productName : string;
    ov_domain : option (DomainMode * string); ov_preserveExisting : bool;
    ov_description : option string; ov_billingPeriod : BillingPeriod;
    ov_fulfilledAt : option (option string); ov_unitAmount : SerializedMoney;
    ov_setupFee : SerializedMoney; ov_lineTotal : SerializedMoney; ov_quantity : Z;
    ov_requestedDomain : option string }.
Record OrderInvoiceView := MkOrderInvoiceView
  { oiv_id : string; oiv_invoiceNumber : string; oiv_status : InvoiceStatus;
    oiv_total : SerializedMoney; oiv_balanceDue : SerializedMoney; oiv_dueAt : string }.
Record OrderView := MkOrderView
  { o_id : string; o_orderNumber : string; o_customerId : string;
    o_customerName : string; o_customerEmail : string; o_status : OrderStatus;
    o_subtotal : SerializedMoney; o_setupTotal : SerializedMoney;
    o_total : SerializedMoney; o_notes : option string; o_placedAt : string;
    o_termsAcceptance : json; o_completedAt : option string;
    o_cancelledAt : option string; o_items : list OrderItemView;
    o_invoice : OrderInvoiceView }.
Record OrderCreationResult := MkOrderResult { ores_order : OrderView; ores_duplicate : bool }.

Section reading.
(** [order_view_ok]: the format checks [orderSchema.parse] makes of a value
    built by [toOrder], the stored terms acceptance included. *)
Context `{ZodFormats} (order_view_ok : OrderView → bool).

Definition order_item_view (item : OrderItem) : result OrderItemView :=
  preserve ← (if oi_kind item ==b ProductKind.HOSTING then
                mode ← readHostingProvisioningMode (oi_provisioningSnapshot item);
                Ok (String.eqb mode "PRESERVE_EXISTING")
              else Ok false);
  unit_ ← serializeMoney (oi_unitAmount item) (oi_currency item);
  setup ← serializeMoney (oi_setupFee item) (oi_currency item);
  line ← serializeMoney (oi_lineTotal item) (oi_currency item);
  Ok (MkOrderItemView (oi_id item) (oi_kind item) (oi_productId item)
        (oi_productPriceId item) (oi_productNameSnapshot item)
        (if oi_kind item ==b ProductKind.DOMAIN
         then adminDomainOrderSnapshotSchema (oi_provisioningSnapshot item) else None)
        preserve (oi_descriptionSnapshot item) (oi_billingPeriod item)
        (if oi_kind item ==b ProductKind.ADD_ON
         then Some (iso_opt (oi_fulfilledAt item)) else None)
        unit_ setup line (oi_quantity item) (oi_requestedDomain item)).
Definition toOrder (record : OrderRecord) : result OrderView :=
  let order := or_order record in
  invoice ← of_option (JsError "Order is missing its invoice") (or_invoice record);
  customer ← of_option (JsError "Order is missing its customer") (or_customer record);
  subtotal_ ← serializeMoney (ord_subtotal order) (ord_currency order);
  setup ← serializeMoney (ord_setupTotal order) (ord_currency order);
  total_ ← serializeMoney (ord_total order) (ord_currency order);
  items ← traverse order_item_view (or_items record);
  inv_total_ ← serializeMoney (inv_total invoice) (inv_currency invoice);
  inv_balance ← serializeMoney (inv_balanceDue invoice) (inv_currency invoice);
  let view := MkOrderView (ord_id order) (ord_orderNumber order) (ord_customerId order)
    (customer_name customer) (ord_customerEmailSnapshot order) (ord_status order)
    subtotal_ setup total_ (ord_notes order) (to_ISO_string (ord_placedAt order))
    (ord_termsAcceptance order) (iso_opt (ord_completedAt order))
    (iso_opt (ord_cancelledAt order)) items
    (MkOrderInvoiceView (inv_id invoice) (inv_invoiceNumber invoice)
       (inv_status invoice) inv_total_ inv_balance (to_ISO_string (inv_dueAt invoice))) in
  _ ← throw_unless (order_view_ok view) ZodError;
  Ok view.
Definition get_order_unchecked (orderId : string) : Io OrderView :=
  record ← get_order_record orderId;
  lift (toOrder record).
Definition get_order (orderId : string) (actor : Identity) (customerId : option string)
    : Io OrderView :=
  order ← get_order_record orderId;
  let owner := ord_customerId (or_order order) in
  _ ← require (match customerId with
               | Some c => negb (truthy c && negb (String.eqb (js_lower owner) (js_lower c)))
               | None => true
               end) order_not_found;
  _ ← require (match actor with
               | CustomerIdentity _ c => String.eqb c owner
               | AdminIdentity _ => true
               end) (forbidden "You do not have access to this order.");
  lift (toOrder order).
End reading.

(** ** Repeated submissions *)
Definition first_of_kind (k : ProductKind) (items : list OrderItem) : option OrderItem :=
  List.find (is_kind k) items.
Definition key_conflict : exn :=
  conflict "This submission key has already been used for another order.".

(** common/identifiers/business-number.ts: the date, then eight random bytes in
    hexadecimal (drawn like the UUIDs). *)
Fixpoint remove_char (c : ascii) (s : string) : string :=
  match s with
  | EmptyString => ""
  | String c' s => if Ascii.eqb c c' then remove_char c s else String c' (remove_char c s)
  end.
Definition createHumanReadableNumber (prefix_ : string) (now : Z) (hex : string) : string :=
  (prefix_ ++ "-" ++ remove_char "-" (String.substring 0 10 (to_ISO_string now)) ++ "-" ++
   js_upper hex)%string.

Section service.
Context `{ZodFormats} `{DomainServices} (https_url : string → bool)
  (order_view_ok : OrderView → bool).

Definition guestDuplicate (input : GuestCheckoutRequest) : Io (option OrderCreationResult) :=
  existing ← find_order_by_key (gu_submissionKey input);
  match existing with
  | None => mret None
  | Some existing =>
      let items := or_items existing in
      let conflicting :=
        match first_of_kind ProductKind.HOSTING items with
        | None => Ok true
        | Some item =>
            if negb (String.eqb (ord_customerEmailSnapshot (or_order existing))
                                (gu_email input)) ||
               negb (String.eqb (oi_productId item) (gu_productId input)) ||
               negb (String.eqb (oi_productPriceId item) (gu_priceId input)) ||
               negb (bool_decide (oi_requestedDomain item = Some (gu_requestedDomain input)))
            then Ok true
            else
              mode ← readHostingProvisioningMode (oi_provisioningSnapshot item);
              Ok (negb (String.eqb mode "STANDARD") ||
                  existsb (is_kind ProductKind.DOMAIN) items ||
                  negb (matchesAddOns items (default [] (gu_addOnPriceIds input))))
        end in
      b ← lift conflicting;
      _ ← require (negb b) key_conflict;
      view ← lift (toOrder order_view_ok existing);
      mret (Some (MkOrderResult view true))
  end.

Definition duplicate_conflicts (existing : OrderRecord) (registration : option Domain)
    (input : CreateOrderInput) : result bool :=
  let items := or_items existing in
  let domainItem := first_of_kind ProductKind.DOMAIN items in
  let selection := co_domainOrder input in
  let requestedQuoteId :=
    match selection with Some (REGISTRATION q) => Some q | _ => co_domainQuoteId input end in
  let snapshot := i ← domainItem; adminDomainOrderSnapshotSchema (oi_provisioningSnapshot i) in
  match first_of_kind ProductKind.HOSTING items with
  | None => Ok true
  | Some item =>
      if negb (String.eqb (ord_customerId (or_order existing)) (co_customerId input)) ||
         negb (String.eqb (oi_productId item) (co_productId input)) ||
         negb (String.eqb (oi_productPriceId item) (co_priceId input)) ||
         negb (bool_decide (oi_requestedDomain item = Some (co_requestedDomain input)))
      then Ok true
      else
        mode ← readHostingProvisioningMode (oi_provisioningSnapshot item);
        Ok (negb (String.eqb mode (default "STANDARD" (co_hostingProvisioningMode input))) ||
            negb (bool_decide ((r ← registration; dom_quoteId r) = requestedQuoteId)) ||
            negb (bool_decide ((fst <$> snapshot) = (domain_mode <$> selection))) ||
            negb (matchesAddOns items (default [] (co_addOnPriceIds input))) ||
            match selection with
            | Some (EXISTING domainId priceId) =>
                negb (bool_decide ((snd <$> snapshot) = Some domainId)) ||
                negb (bool_decide ((oi_productPriceId <$> domainItem) = Some priceId))
            | _ => false
            end)
  end.
Definition order_duplicateResult (existing : OrderRecord) (input : CreateOrderInput)
    : Io OrderCreationResult :=
  registration ← match first_of_kind ProductKind.DOMAIN (or_items existing) with
                 | Some item =>
                     read (λ d, find_unique (domains d) dom_orderItemId (Some (oi_id item)))
                 | None => mret None
                 end;
  conflicting ← lift (duplicate_conflicts existing registration input);
  _ ← require (negb conflicting) key_conflict;
  view ← lift (toOrder order_view_ok existing);
  mret (MkOrderResult view true).

(** ** Creation *)
(** The domain to register or to bill, checked by the registrar side. *)
Definition select_domain (input : CreateOrderInput) (source : OrderSource)
    : Io (option OrderQuote * option ExistingSelection) :=
  let domainQuoteId :=
    match co_domainOrder input with
    | Some (REGISTRATION q) => Some q
    | _ => match source with SourceCustomer => co_domainQuoteId input
                           | SourceAdmin => None end
    end in
  domain ← match domainQuoteId with
           | Some q => if truthy q then
               quote ← quoteForHostingOrder q (co_customerId input)
                         (co_requestedDomain input)
                         (bool_decide (is_Some (co_domainOrder input)));
               mret (Some quote) else mret None
           | None => mret None
           end;
  existing ← match co_domainOrder input with
             | Some (EXISTING d p) =>
                 selection ← existingSelection d p (co_customerId input)
                               (co_requestedDomain input);
                 mret (Some selection)
             | _ => mret None
             end;
  mret (domain, existing).
Definition domain_part (input : CreateOrderInput) (domain : option OrderQuote)
    (existing : option ExistingSelection) (freshId : string) : option DomainPart :=
  match existing, domain with
  | Some e, _ => Some (MkDomainPart (ex_domainId e) (ex_price e) (pp_amount (ex_price e))
      ("Annual domain service for " ++ co_requestedDomain input ++
       "; existing registration, no registration or renewal submitted.")%string)
  | None, Some q => Some (MkDomainPart freshId (dq_price q) (dq_sellingAmount q)
      (if dq_live q then ("Registration of " ++ co_requestedDomain input ++
         " for one year; separate approval required.")%string
       else "Simulated one-year domain registration; no external calls or charges."))
  | None, None => None
  end.

(** The priced selection: the hosting price, the add-ons and the domain. *)
Definition select_hosting (input : CreateOrderInput) (source : OrderSource) (now : Z)
    : Io (ProductPrice * string) :=
  found ← read (λ d, productPrices d !! co_priceId input);
  price ← lift (of_option
    (unprocessable "The selected product price is not available for sale.")
    (p ← found; if hosting_price input source now p then Some p else None));
  package ← lift (of_option
    (unprocessable "The selected product is not ready for provisioning.")
    (p ← pr_hostingPackageIdentifier price; if truthy p then Some p else None));
  _ ← require (negb (POSTGRES_BIGINT_MAX - pp_setupFee price <? pp_amount price))
        (unprocessable "The selected price total exceeds the supported range.");
  mret (price, package).
Definition select_add_ons (input : CreateOrderInput) (price : ProductPrice) (now : Z)
    : Io (list ProductPrice) :=
  let ids := default [] (co_addOnPriceIds input) in
  addOns ← match ids with
           | [] => mret []
           | _ => read (λ d, merge_sort by_product
                     (rows (add_on_price input ids now price) (productPrices d)))
           end;
  _ ← require (bool_decide (length addOns = length ids) &&
               bool_decide (NoDup (pp_productId <$> addOns)))
        (unprocessable "A selected add-on is no longer available for this plan or price.");
  mret addOns.
Definition order_total (price : ProductPrice) (part : option DomainPart)
    (addOns : list ProductPrice) : Z :=
  pp_amount price + pp_setupFee price + default 0 (dp_amount <$> part) +
  sum_of pp_amount addOns.

(** The order with its items: the rows made. *)
Definition make_items (makers : list (string → string → Z → OrderItem)) (orderId : string)
    (now : Z) : Io (list OrderItem) :=
  fold_each (λ made make,
    id ← random_uuid;
    let item := make id orderId now in
    _ ← create_order_item item;
    mret (made ++ [item])) [] makers.
Definition make_lines (lines : list (string → InvoiceItem)) : Io unit :=
  for_each lines (λ line, id ← random_uuid; create_invoice_item (line id)).

(** The invoice of a new order: issued at once, nothing paid. *)
Definition order_invoice (input : CreateOrderInput) (price : ProductPrice) (total : Z)
    (customer : Customer) (identity : json) (orderId number id : string) (now created : Z)
    : Invoice :=
  MkInvoice id number ("invoice:" ++ co_submissionKey input)%string (co_customerId input)
    (Some orderId) InvoiceStatus.UNPAID (pp_currency price) total 0 0 total 0 0 total
    (customer_name customer) (usr_email customer) (address_json customer) identity
    (tax_identity customer) (Some now) now None None created created.

Definition link_domain (input : CreateOrderInput) (domain : option OrderQuote)
    (existing : option ExistingSelection) (recordId : string)
    (domainItem : option OrderItem) (orderId invoiceId actorId : string) : Io unit :=
  let metadata := JObj [("orderId", JStr orderId); ("invoiceId", JStr invoiceId)] in
  let log action id := log_activity
    (MkActivityLog (Some actorId) action "DOMAIN" (Some id) None None metadata) in
  _ ← match domain with
      | Some q =>
          item ← lift (of_option (JsError "Domain order item creation failed") domainItem);
          created ← new_date;
          _ ← create_domain (new_domain recordId (dq_id q) (co_customerId input)
                (dq_accountId q) (oi_id item) invoiceId (dq_domainName q)
                (co_submissionKey input) created);
          log (if dq_live q then "DOMAIN_ORDER_CREATED"
               else "SIMULATED_DOMAIN_ORDER_CREATED") recordId
      | None => mret tt
      end;
  match existing, domainItem with
  | Some e, Some item =>
      _ ← create_existing_domain_order
            (MkExistingDomainOrder (ex_domainId e) (oi_id item) invoiceId
               (co_customerId input));
      log "EXISTING_DOMAIN_ORDER_CREATED" (ex_domainId e)
  | _, _ => mret tt
  end.

(** The rows of a new order: from the priced selection to the last log entry. *)
Definition write_order (input : CreateOrderInput) (actor : OrderActor)
    (context : SecurityRequestContext) (source : OrderSource) (customer : Customer)
    (price : ProductPrice) (package : string) (addOns : list ProductPrice)
    (domain : option OrderQuote) (existing : option ExistingSelection)
    (part : option DomainPart) (recordId : string) (terms : json) (now : Z) : Io string :=
  let total := order_total price part addOns in
  orderId ← random_uuid;
  hex ← random_uuid;
  created ← new_date;
  _ ← create_order (MkOrder orderId (createHumanReadableNumber "ORD" now hex)
        (co_submissionKey input) (co_customerId input) OrderStatus.AWAITING_PAYMENT
        (pp_currency price)
        (pp_amount price + default 0 (dp_amount <$> part) + sum_of pp_amount addOns)
        (pp_setupFee price) 0 0 total (usr_email customer) (co_notes input) terms now
        None None created);
  items ← make_items (item_makers input price package part addOns) orderId created;
  orderItem ← lift (of_option (JsError "Order item creation failed")
                      (first_of_kind ProductKind.HOSTING items));
  let domainItem := first_of_kind ProductKind.DOMAIN items in
  identity ← find_setting "business.identity";
  number ← allocateInvoiceNumber;
  invoiceId ← random_uuid;
  invoiceCreated ← new_date;
  _ ← create_invoice (order_invoice input price total customer
        (default (JObj [("name", JStr PROJECT_NAME)]) identity) orderId number invoiceId
        now invoiceCreated);
  _ ← make_lines (invoice_lines input price invoiceId part orderItem domainItem items);
  _ ← link_domain input domain existing recordId domainItem orderId invoiceId
        (oa_userId actor);
  _ ← create_outbox "ORDER" orderId "EMAIL_ORDER_RECEIVED"
        ("email:order-received:" ++ orderId)%string
        (JObj [("schemaVersion", JNum 1); ("orderId", JStr orderId)]);
  _ ← create_outbox "INVOICE" invoiceId "EMAIL_INVOICE_CREATED"
        ("email:invoice-created:" ++ invoiceId)%string
        (JObj [("schemaVersion", JNum 1); ("invoiceId", JStr invoiceId)]);
  _ ← log_activity (MkActivityLog (Some (oa_userId actor))
        (match source with SourceAdmin => "ORDER_CREATED_BY_ADMIN"
                         | SourceCustomer => "ORDER_CREATED_BY_CUSTOMER" end)
        "ORDER" (Some orderId) None (Some (ipAddressHash context))
        (JObj [("customerId", JStr (co_customerId input));
               ("productId", JStr (pp_productId price));
               ("productPriceId", JStr (pp_id price));
               ("requestedDomain", JStr (co_requestedDomain input))]));
  mret orderId.

(** [persist]: the transaction of [create]. *)
Definition persist_selection (input : CreateOrderInput) (actor : OrderActor)
    (context : SecurityRequestContext) (source : OrderSource) (customer : Customer)
    : Io string :=
  now ← new_date;
  '(price, package) ← select_hosting input source now;
  addOns ← select_add_ons input price now;
  '(domain, existing) ← select_domain input source;
  freshId ← match existing with Some e => mret (ex_domainId e) | None => random_uuid end;
  let part := domain_part input domain existing freshId in
  _ ← require (negb (bool_decide (is_Some part) && negb (String.eqb (pp_currency price) "BDT")))
        (unprocessable "Combined hosting and domain orders require BDT pricing.");
  _ ← require (order_total price part addOns <=? POSTGRES_BIGINT_MAX)
        (unprocessable "The combined order total exceeds the supported range.");
  terms ← match source with
          | SourceCustomer =>
              requireCheckoutTerms https_url (co_acceptedTermsVersion input) now
          | SourceAdmin => mret JNull
          end;
  write_order input actor context source customer price package addOns domain existing
    part freshId terms now.
Definition persist (input : CreateOrderInput) (actor : OrderActor)
    (context : SecurityRequestContext) (source : OrderSource) (allowPending : bool)
    : Io (string + OrderCreationResult) :=
  let adminDomain := bool_decide (is_Some (co_domainOrder input)) in
  _ ← when adminDomain (lockActor (oa_userId actor));
  found ← read (λ d, customers d !! co_customerId input);
  customer ← lift (of_option
    (unprocessable "The selected customer account is not active.")
    (c ← found; if customer_eligible adminDomain allowPending c then Some c else None));
  persisted ← (if adminDomain then find_order_by_key (co_submissionKey input)
               else mret None);
  match persisted with
  | Some persisted =>
      replay ← order_duplicateResult persisted input;
      mret (inr replay)
  | None =>
      orderId ← persist_selection input actor context source customer;
      mret (inl orderId)
  end.
(** [nested]: the caller's transaction is used ([options.transaction]). *)
Definition create_order_for (input : CreateOrderInput) (actor : OrderActor)
    (context : SecurityRequestContext) (source : OrderSource)
    (nested allowPending : bool) : Io OrderCreationResult :=
  _ ← match co_domainOrder input with
      | Some _ =>
          _ ← require (source ==b SourceAdmin)
                (forbidden "Only administrators can choose domain order actions.");
          authorize actor
      | None => mret tt
      end;
  _ ← require (negb (bool_decide (is_Some (co_hostingProvisioningMode input)) &&
                     negb (source ==b SourceAdmin)))
        (forbidden "Only administrators can choose hosting preservation.");
  duplicate ← find_order_by_key (co_submissionKey input);
  match duplicate with
  | Some duplicate => order_duplicateResult duplicate input
  | None =>
      catch
        (created ← (let run := persist input actor context source allowPending in
                    if nested then run else transaction run);
         match created with
         | inr replay => mret replay
         | inl orderId =>
             view ← get_order_unchecked order_view_ok orderId;
             mret (MkOrderResult view false)
         end)
        (λ error,
          if is_unique_violation error then
            raced ← find_order_by_key (co_submissionKey input);
            match raced with
            | Some raced => order_duplicateResult raced input
            | None => throw (conflict
                "Could not allocate a unique order number. Try again.")
            end
          else throw error)
  end.

(** ** Status changes *)
(** packages/database/src/fulfillment.ts *)
Definition item_pending (d : Db) (i : OrderItem) : bool :=
  ((oi_kind i ==b ProductKind.HOSTING) &&
   negb (bool_decide ((svc_status <$> find_unique (services d) svc_orderItemId (Some (oi_id i)))
                      = Some ServiceStatus.ACTIVE))) ||
  ((oi_kind i ==b ProductKind.ADD_ON) && bool_decide (oi_fulfilledAt i = None)).
Definition bills_existing (i : OrderItem) : bool :=
  (oi_kind i ==b ProductKind.DOMAIN) &&
  match oi_provisioningSnapshot i with
  | JObj o => match get "adminDomainAction" o with
              | JStr a => String.eqb a "EXISTING"
              | _ => false
              end
  | _ => false
  end.
Definition fulfillment_complete (orderId : string) (d : Db) : bool :=
  let items := order_items orderId d in
  if bool_decide (items = []) then false
  else if existsb (item_pending d) items then false
  else
    let domainIds := oi_id <$> List.filter (is_kind ProductKind.DOMAIN) items in
    if bool_decide (domainIds = []) then true
    else
      let registered := count_rows (λ r,
        match dom_orderItemId r with
        | Some i => existsb (String.eqb i) domainIds
        | None => false
        end && String.eqb (dom_state r) "REGISTERED") (domains d) in
      let existingIds := oi_id <$> List.filter bills_existing items in
      let existing := edo_domainId <$>
        rows (λ r, existsb (String.eqb (edo_orderItemId r)) existingIds)
             (existingDomainOrders d) in
      let linked := count_rows (λ r,
        existsb (String.eqb (dom_id r)) existing && String.eqb (dom_origin r) "EXISTING" &&
        String.eqb (dom_state r) "REGISTERED") (domains d) in
      registered + linked =? Z.of_nat (length domainIds).
Definition orderFulfillmentComplete (orderId : string) : Io bool :=
  _ ← lock_row "orders" orderId;
  read (fulfillment_complete orderId).

(** The guards a linked domain registration adds to a status change. *)
Definition domain_guard (orderId : string) (next : OrderStatus) : Io unit :=
  domain ← read (λ d, head (rows (λ r,
    match dom_orderItemId r with
    | Some i => existsb (String.eqb i) (oi_id <$> order_items orderId d)
    | None => false
    end) (domains d)));
  match domain with
  | None => mret tt
  | Some domain =>
      operation ← read (λ d, find_unique (registrarOperations d) ro_domainId (dom_id domain));
      _ ← require (negb (next ==b OrderStatus.PROCESSING))
            (conflict "Use the domain registration review to approve this order.");
      require (negb ((next ==b OrderStatus.COMPLETED) ||
                     (bool_decide (is_Some (operation ≫= ro_claimedAt)) &&
                      ((next ==b OrderStatus.CANCELLED) || (next ==b OrderStatus.REJECTED) ||
                       (next ==b OrderStatus.FAILED)))))
        (conflict "Use the domain registration review; a claimed registration requires reconciliation.")
  end.
Definition withdrawn (s : OrderStatus) : bool :=
  (s ==b OrderStatus.CANCELLED) || (s ==b OrderStatus.REJECTED).
Definition order_status_set (next : OrderStatus) (now : Z) (r : Order) : Order :=
  let r := r <| ord_status := next |> in
  if next ==b OrderStatus.COMPLETED then r <| ord_completedAt := Some now |>
  else if withdrawn next then r <| ord_cancelledAt := Some now |> else r.
(** [invoice.updateMany({where: {orderId, status: {in: [DRAFT, UNPAID]}}})]. *)
Definition cancellable_with_order (orderId : string) (r : Invoice) : bool :=
  bool_decide (inv_orderId r = Some orderId) &&
  ((inv_status r ==b InvoiceStatus.DRAFT) || (inv_status r ==b InvoiceStatus.UNPAID)).
Definition cancel_order_invoices (orderId : string) (now : Z) : Io unit :=
  updated ← new_date;
  write (λ d, d <| invoices := update_rows (cancellable_with_order orderId)
    (λ r, r <| inv_status := InvoiceStatus.CANCELLED |> <| inv_cancelledAt := Some now |>
            <| inv_updatedAt := updated |>) (invoices d) |>).
Definition updateStatus_tx (orderId : string) (current : Order) (next : OrderStatus)
    (now : Z) (actor : Identity) (context : SecurityRequestContext) : Io unit :=
  _ ← domain_guard orderId next;
  addOns ← read (λ d, Z.of_nat (length
    (List.filter (is_kind ProductKind.ADD_ON) (order_items orderId d))));
  complete ← (if (next ==b OrderStatus.COMPLETED) && negb (addOns =? 0)
              then orderFulfillmentComplete orderId else mret true);
  _ ← require complete
        (conflict "Finish hosting and add-on fulfillment before completing this order.");
  _ ← update_order orderId (order_status_set next now);
  _ ← when (withdrawn next) (cancel_order_invoices orderId now);
  _ ← when (next ==b OrderStatus.PROCESSING)
        (create_outbox "ORDER" orderId "EMAIL_ORDER_APPROVED"
           ("email:order-approved:" ++ orderId ++ ":" ++
            to_ISO_string (ord_updatedAt current))%string
           (JObj [("schemaVersion", JNum 1); ("orderId", JStr orderId)]));
  log_activity (admin_log actor context "ORDER_STATUS_CHANGED_BY_ADMIN" "ORDER"
    (Some orderId)
    (JObj [("previousStatus", JStr (OrderStatus.to_string (ord_status current)));
           ("status", JStr (OrderStatus.to_string next))])).
Definition updateStatus_check (current : Order) (next : OrderStatus) : result unit :=
  _ ← throw_unless (negb (next ==b OrderStatus.PAID)) (unprocessable
    "An order can be marked paid only by a verified payment workflow.");
  throw_unless (isOrderTransitionAllowed (ord_status current) next)
    (unprocessable ("Order cannot move from " ++ OrderStatus.to_string (ord_status current) ++
      " to " ++ OrderStatus.to_string next ++ ".")%string).
Definition updateStatus (orderId : string) (next : OrderStatus) (actor : Identity)
    (context : SecurityRequestContext) : Io OrderView :=
  found ← read (λ d, orders d !! orderId);
  current ← lift (of_option order_not_found found);
  _ ← lift (updateStatus_check current next);
  now ← new_date;
  _ ← transaction (updateStatus_tx orderId current next now actor context);
  get_order_unchecked order_view_ok orderId.

(** The condition under which an add-on may be marked done. *)
Definition add_on_payable (order : OrderRecord) : bool :=
  match or_invoice order with
  | Some invoice => (inv_status invoice ==b InvoiceStatus.PAID) && (inv_balanceDue invoice =? 0)
  | None => false
  end &&
  ((ord_status (or_order order) ==b OrderStatus.PAID) ||
   (ord_status (or_order order) ==b OrderStatus.PROCESSING)).
Definition fulfillAddOn_tx (orderId itemId : string) (actor : Identity)
    (context : SecurityRequestContext) : Io OrderView :=
  order ← get_order_record orderId;
  item ← lift (of_option order_not_found
    (List.find (λ i, String.eqb (oi_id i) itemId && is_kind ProductKind.ADD_ON i)
       (or_items order)));
  match oi_fulfilledAt item with
  | Some _ => lift (toOrder order_view_ok order)
  | None =>
      _ ← require (add_on_payable order)
            (conflict "Verify full payment before completing this add-on.");
      now ← new_date;
      row ← read (λ d, orderItems d !! itemId);
      row ← lift (of_option RecordNotFound row);
      _ ← write (λ d, d <| orderItems :=
            <[itemId := row <| oi_fulfilledAt := Some now |>]> (orderItems d) |>);
      _ ← log_activity (admin_log actor context "HOSTING_ADD_ON_FULFILLED" "ORDER"
            (Some orderId) (JObj [("orderItemId", JStr itemId)]));
      complete ← (if ord_status (or_order order) ==b OrderStatus.PROCESSING
                  then orderFulfillmentComplete orderId else mret false);
      _ ← when complete (update_order orderId (order_status_set OrderStatus.COMPLETED now));
      get_order_unchecked order_view_ok orderId
  end.
Definition fulfillAddOn (orderId itemId : string) (actor : Identity)
    (context : SecurityRequestContext) : Io OrderView :=
  transaction (fulfillAddOn_tx orderId itemId actor context).
End service.

(** ** Lemmas *)

(** The CHECK constraint product_prices_amount_check. *)
Definition prices_nonneg (d : Db) : Prop :=
  ∀ i p, productPrices d !! i = Some p → 0 <= pp_amount p ∧ 0 <= pp_setupFee p.


Lemma sum_of_app {A} (f : A → Z) l k : sum_of f (l ++ k) = sum_of f l + sum_of f k.
Proof. induction l; simpl; lia. Qed.
Lemma order_total_nonneg price part addOns :
  0 <= pp_amount price → 0 <= pp_setupFee price →
  (∀ q, part = Some q → 0 <= dp_amount q) → Forall (λ p, 0 <= pp_amount p) addOns →
  0 <= order_total price part addOns.
Proof.
  intros ?? Hp Ha. unfold order_total. pose proof (sum_of_nonneg _ _ Ha).
  destruct part as [q|]; simpl; [specialize (Hp q eq_refl)|]; lia.
Qed.

#[export] Instance make_items_keeps makers o n : Keeps ledger_tables (make_items makers o n).
Proof.
  unfold make_items. apply _.
Qed.
#[export] Instance make_lines_keeps lines : Keeps ledger_tables (make_lines lines).
Proof. unfold make_lines. apply _. Qed.
#[export] Instance link_domain_keeps i d e r di o inv a :
  Keeps ledger_tables (link_domain i d e r di o inv a).
Proof. unfold link_domain. apply _. Qed.
#[export] Instance requireCheckoutTerms_keeps {T} (proj : Db → T) `{ZodFormats} u v n :
  Keeps proj (requireCheckoutTerms u v n).
Proof. unfold requireCheckoutTerms. apply _. Qed.
#[export] Instance find_order_by_key_keeps {T} (proj : Db → T) k :
  Keeps proj (find_order_by_key k).
Proof. unfold find_order_by_key. apply _. Qed.
#[export] Instance get_order_record_keeps {T} (proj : Db → T) k :
  Keeps proj (get_order_record k).
Proof. unfold get_order_record. apply _. Qed.
#[export] Instance domain_guard_keeps {T} (proj : Db → T) o n : Keeps proj (domain_guard o n).
Proof. unfold domain_guard. apply _. Qed.
#[export] Instance fulfillment_keeps {T} (proj : Db → T) o :
  Keeps proj (orderFulfillmentComplete o).
Proof. unfold orderFulfillmentComplete. apply _. Qed.

#[global] Typeclasses Opaque make_items make_lines link_domain requireCheckoutTerms
  find_order_by_key get_order_record domain_guard orderFulfillmentComplete.

Lemma select_hosting_Ok input source now w r w' :
  select_hosting input source now w = (Ok r, w') →
  w' = w ∧ ∃ i, productPrices (db w) !! i = Some r.1.
Proof.
  unfold select_hosting. intros Hrun. run_tables.
  match goal with H : productPrices _ !! _ ≫= _ = Some ?p |- _ =>
    apply bind_Some in H as (q&Hq&Hp) end.
  destruct (hosting_price _ _ _ q); simplify_eq. eauto.
Qed.
Lemma select_add_ons_Ok input price now w r w' :
  select_add_ons input price now w = (Ok r, w') →
  w' = w ∧ Forall (λ p, ∃ i, productPrices (db w) !! i = Some p) r.
Proof.
  unfold select_add_ons. intros Hrun. apply bind_Ok in Hrun as (l&w1&Hl&Hrun).
  apply bind_Ok in Hrun as (?&w2&Hr&Hrun). apply require_Ok in Hr as [_ ->].
  apply ret_Ok in Hrun as [-> ->].
  destruct (default [] (co_addOnPriceIds input)).
  { apply ret_Ok in Hl as [-> ->]. by split. }
  apply read_Ok in Hl as [-> ->]. split; [done|]. rewrite merge_sort_Permutation. apply List.Forall_forall.
  intros p Hp. apply list_elem_of_In, elem_rows in Hp as [_ ?]. done.
Qed.

Section posts.
Context `{DomainServicesLaws}.

Lemma select_domain_Ok input source w q e w' :
  select_domain input source w = (Ok (q, e), w') →
  ledger_tables (db w') = ledger_tables (db w) ∧
  ∀ id part, domain_part input q e id = Some part → 0 <= dp_amount part.
Proof using Type*.
  unfold select_domain. intros Hrun. split.
  { apply keeps_run with (proj := ledger_tables) in Hrun; [done|apply _]. }
  apply bind_Ok in Hrun as (q'&w1&Hq&Hrun). apply bind_Ok in Hrun as (e'&w2&He&Hrun).
  apply ret_Ok in Hrun as [[= <- <-] ->]. intros id part Hpart.
  destruct e as [s|].
  - injection Hpart as <-. simpl. destruct (co_domainOrder input) as [[d p|]|]; run_inv.
    match goal with Hx : existingSelection _ _ _ _ _ = _ |- _ =>
      apply existing_positive in Hx; lia end.
  - destruct q as [q|]; [|done]. injection Hpart as <-. simpl.
    destruct (match co_domainOrder input with Some (REGISTRATION _) => _ | _ => _ end)
      as [k|]; [destruct (truthy k)|]; run_inv.
    match goal with Hx : quoteForHostingOrder _ _ _ _ _ = _ |- _ =>
      apply quote_positive in Hx; lia end.
Qed.

Lemma write_order_posts input actor context source customer price package addOns q e
    part recordId terms now :
  0 <= order_total price part addOns →
  Posts anywhere (write_order input actor context source customer price package addOns
                    q e part recordId terms now).
Proof.
  intros Htot w a w' Hi _ Hrun. unfold write_order in Hrun. walk Hrun.
  chain_tables.
  match goal with H : ledger_tables (db ?v) = ledger_tables (db w) |- _ =>
    apply tables_eq in H as [Hinv Hpay]; rewrite Hinv, Hpay in * end.
  apply posts_invoice; [apply Hi|done|]. apply ls_open.
  - by apply account_absent.
  - unfold fresh_account; simpl. lia.
  - right. by left.
Qed.

Lemma persist_selection_posts `{ZodFormats} https_url input actor context source customer :
  Posts prices_nonneg (persist_selection https_url input actor context source customer).
Proof using Type*.
  intros w a w' Hi Hprices Hrun. unfold persist_selection in Hrun.
  apply bind_Ok in Hrun as (now&w1&Hn&Hrun). apply new_date_Ok in Hn as [-> ->].
  apply bind_Ok in Hrun as ([price package]&w1&Hp&Hrun).
  apply select_hosting_Ok in Hp as (->&i&Hp). simpl in Hp.
  apply bind_Ok in Hrun as (addOns&w1&Ha&Hrun). apply select_add_ons_Ok in Ha as [-> Ha].
  apply bind_Ok in Hrun as ([q e]&w1&Hd&Hrun). apply select_domain_Ok in Hd as [Ht Hpart].
  apply bind_Ok in Hrun as (fresh&w2&Hf&Hrun).
  assert (ledger_tables (db w2) = ledger_tables (db w1)) as Ht2
    by (eapply keeps_run; [|exact Hf]; apply _). clear Hf.
  apply bind_Ok in Hrun as (?&w3&Hr&Hrun). apply require_Ok in Hr as [_ ->].
  apply bind_Ok in Hrun as (?&w3&Hr&Hrun). apply require_Ok in Hr as [_ ->].
  apply bind_Ok in Hrun as (terms&w3&Hterms&Hrun).
  assert (ledger_tables (db w3) = ledger_tables (db w2)) as Ht3
    by (eapply keeps_run; [|exact Hterms]; apply _). clear Hterms.
  rewrite Ht2, Ht in Ht3. simpl in Ht3.
  replace (ledger_of (db w)) with (ledger_of (db w3)) by (unfold ledger_of; by rewrite Ht3).
  eapply write_order_posts; [| |done|exact Hrun].
  - destruct (Hprices _ _ Hp) as [??]. apply order_total_nonneg; [done..|eauto|].
    apply List.Forall_forall. intros p Hin%list_elem_of_In.
    destruct (Forall_elem _ _ _ Ha Hin) as (j&Hj). by apply (Hprices j).
  - unfold ledger_inv, ledger_of. rewrite Ht3. apply Hi.
Qed.

Lemma persist_posts `{ZodFormats} https_url view_ok input actor context source pending :
  Posts prices_nonneg (persist https_url view_ok input actor context source pending).
Proof using Type*.
  intros w a w' Hi Hprices Hrun. unfold persist in Hrun.
  apply bind_Ok in Hrun as (?&w1&Hl&Hrun).
  assert (ledger_tables (db w1) = ledger_tables (db w) ∧
          productPrices (db w1) = productPrices (db w)) as [Ht Hp].
  { split; eapply keeps_run; [|exact Hl| |exact Hl]; apply _. } clear Hl.
  assert (ledger_inv (db w1)) as Hi1 by (unfold ledger_inv, ledger_of; by rewrite Ht).
  assert (prices_nonneg (db w1)) as Hp1 by (unfold prices_nonneg; by rewrite Hp).
  replace (ledger_of (db w)) with (ledger_of (db w1)) by (unfold ledger_of; by rewrite Ht).
  clear Ht Hp Hi Hprices w. repeat (run_step || match goal with
    | H : read _ _ = (Ok _, _) |- _ => apply read_Ok in H as [? ?] end; simplify_eq).
  assert (x5 = w1) as ->.
  { destruct (bool_decide _); [|by apply ret_Ok in H4 as [_ ->]].
    unfold find_order_by_key in H4. by apply read_Ok in H4 as [_ ->]. }
  clear H4. destruct x4 as [persisted|].
  - eapply (keeps_posts anywhere); [|done|done|exact H5]. apply _.
  - apply bind_Ok in H5 as (orderId&w2&Hps&Hret). apply ret_Ok in Hret as [_ ->].
    by eapply persist_selection_posts.
Qed.
End posts.

(** Cancelling the open invoices of an order. *)
Lemma cancel_order_invoices_posts orderId now :
  Posts anywhere (cancel_order_invoices orderId now).
Proof.
  intros w a w' [Hk _] _ Hrun. unfold cancel_order_invoices in Hrun.
  apply bind_Ok in Hrun as (t&w1&Hn&Hrun). apply new_date_Ok in Hn as [-> ->].
  apply write_Ok in Hrun as ->. unfold ledger_of, ledger_tables; simpl. split.
  - split; [|apply Hk]. simpl. intros i r Hr. rewrite update_rows_lookup in Hr.
    apply fmap_Some in Hr as (r0&Hr0&->). apply Hk in Hr0.
    by destruct (cancellable_with_order orderId r0).
  - apply rtc_once. apply (ls_statuses (of_tables (invoices (db w), payments (db w)))).
    intros i. unfold of_tables; simpl. rewrite !lookup_fmap, update_rows_lookup.
    destruct (invoices (db w) !! i) as [r|]; simpl; [|done].
    destruct (cancellable_with_order orderId r) eqn:Hc; [right|by left].
    exists InvoiceStatus.CANCELLED. split; [|done]. simpl.
    apply andb_true_iff in Hc as [_ Hc]. apply orb_true_iff in Hc.
    rewrite !bool_decide_eq_true in Hc. unfold open_for_payment. naive_solver.
Qed.
Lemma updateStatus_tx_posts orderId current next now actor context :
  Posts anywhere (updateStatus_tx orderId current next now actor context).
Proof.
  unfold updateStatus_tx.
  repeat (apply posts_bind; [try (apply keeps_posts; apply _)|intros]).
  - destruct (withdrawn next); [apply cancel_order_invoices_posts|].
    apply keeps_posts, keeps_ret.
  - apply keeps_posts. apply _.
Qed.
Lemma fulfillAddOn_tx_keeps `{ZodFormats} view_ok orderId itemId actor context :
  Keeps ledger_tables (fulfillAddOn_tx view_ok orderId itemId actor context).
Proof. unfold fulfillAddOn_tx, get_order_unchecked. apply _. Qed.

(** A shop without domains: what is asked of them is refused. *)
Definition no_domains : DomainServices :=
  Build_DomainServices (λ _, throw (JsError "none")) (λ _ _ _ _, throw (JsError "none"))
    (λ _ _ _ _, throw (JsError "none")).
Lemma no_domains_laws : @DomainServicesLaws no_domains.
Proof. split; intros; try done; apply _. Qed.
