(* ===== verification/HostingServices.v ===== *)
(** * Hosting services

    apps/api/src/modules/services: service.service.ts (a service made from a paid
    order, and its changes of status), hosting-cancellation.service.ts (requests
    to cancel a service) and service-add-ons.service.ts (the end of an add-on's
    renewals). *)
From S2P Require Import Prelude JsString JsDate Json Money States Calendar Database InvoiceNumber InvoiceTotals Invoices Payments Gateways Orders.

(** ** service.service.ts *)
Definition service_transitions (s : ServiceStatus) : list ServiceStatus :=
  match s with
  | ServiceStatus.PENDING => [ServiceStatus.PROVISIONING; ServiceStatus.CANCELLED]
  | ServiceStatus.PROVISIONING =>
      [ServiceStatus.ACTIVE; ServiceStatus.PROVISION_FAILED; ServiceStatus.CANCELLED]
  | ServiceStatus.ACTIVE => [ServiceStatus.SUSPENDED; ServiceStatus.TERMINATED]
  | ServiceStatus.SUSPENDED => [ServiceStatus.ACTIVE; ServiceStatus.TERMINATED]
  | ServiceStatus.PROVISION_FAILED => [ServiceStatus.PROVISIONING; ServiceStatus.CANCELLED]
  | ServiceStatus.CANCELLED | ServiceStatus.TERMINATED => []
  end.
Definition isServiceTransitionAllowed (current next : ServiceStatus) : bool :=
  bool_decide (next ∈ service_transitions current).

Inductive TransitionServiceRequest :=
| ToProvisioning
| ToActive (externalAccountId controlPanelUsername : option string)
| ToSuspended (reason : string)
| ToProvisionFailed (reason : string)
| ToCancelled (reason : string)
| ToTerminated (reason : string).
Definition requested_status (i : TransitionServiceRequest) : ServiceStatus :=
  match i with
  | ToProvisioning => ServiceStatus.PROVISIONING | ToActive _ _ => ServiceStatus.ACTIVE
  | ToSuspended _ => ServiceStatus.SUSPENDED
  | ToProvisionFailed _ => ServiceStatus.PROVISION_FAILED
  | ToCancelled _ => ServiceStatus.CANCELLED | ToTerminated _ => ServiceStatus.TERMINATED
  end.
Definition requested_reason (i : TransitionServiceRequest) : option string :=
  match i with
  | ToSuspended r | ToProvisionFailed r | ToCancelled r | ToTerminated r => Some r
  | ToProvisioning | ToActive _ _ => None
  end.
(** [!value] of a nullable string. *)
Definition absent (s : option string) : bool :=
  match s with Some s => negb (truthy s) | None => true end.
Definition transitionData (current : Service) (input : TransitionServiceRequest)
    (actorId : string) (now : Z) : result (Service → Service) :=
  match input with
  | ToProvisioning =>
      Ok (λ s, s <| svc_status := ServiceStatus.PROVISIONING |>
                 <| svc_provisioningFailureReason := None |>)
  | ToActive account username =>
      let externalAccountId :=
        match account with Some a => Some a | None => svc_externalAccountId current end in
      let controlPanelUsername :=
        match username with Some u => Some u | None => svc_controlPanelUsername current end in
      _ ← throw_unless (negb (absent externalAccountId || absent controlPanelUsername))
            (unprocessable
               "Activation requires an external account ID and control-panel username.");
      Ok (λ s, s <| svc_status := ServiceStatus.ACTIVE |>
                 <| svc_externalAccountId := externalAccountId |>
                 <| svc_controlPanelUsername := controlPanelUsername |>
                 <| svc_activatedAt := match svc_activatedAt current with
                                       | Some t => Some t | None => Some now end |>
                 <| svc_provisioningFailureReason := None |>
                 <| svc_suspensionInvoiceId := None |>)
  | ToSuspended reason =>
      Ok (λ s, s <| svc_status := ServiceStatus.SUSPENDED |>
                 <| svc_suspendedAt := Some now |> <| svc_suspensionReason := Some reason |>
                 <| svc_suspensionInvoiceId := None |>)
  | ToProvisionFailed reason =>
      Ok (λ s, s <| svc_status := ServiceStatus.PROVISION_FAILED |>
                 <| svc_provisioningFailureReason := Some reason |>)
  | ToCancelled reason =>
      Ok (λ s, s <| svc_status := ServiceStatus.CANCELLED |>
                 <| svc_cancelledAt := Some now |>
                 <| svc_cancellationReason := Some reason |>)
  | ToTerminated reason =>
      Ok (λ s, s <| svc_status := ServiceStatus.TERMINATED |>
                 <| svc_terminatedAt := Some now |> <| svc_terminationReason := Some reason |>
                 <| svc_terminatedByUserId := Some actorId |>)
  end.

(** A service with its customer, order and server ([serviceInclude]). *)
Record ServiceRecord := MkServiceRecord
  { sr_service : Service; sr_customer : option Customer; sr_order : option Order;
    sr_server : option Server }.
Definition include_service (d : Db) (s : Service) : ServiceRecord :=
  MkServiceRecord s (customers d !! svc_customerId s)
    (i ← svc_orderItemId s; item ← orderItems d !! i; orders d !! oi_orderId item)
    (servers d !! svc_serverId s).
(** What [serviceSchema] adds to the row it presents. *)
Record ServiceView := MkServiceView
  { sv_row : Service; sv_customerName : string; sv_customerEmail : string;
    sv_orderId : option string; sv_orderNumber : option string; sv_preserve : bool;
    sv_server : Server; sv_recurringAmount : SerializedMoney }.
Record ServiceCreationResult := MkServiceCreation
  { sc_service : ServiceView; sc_duplicate : bool }.
Record CreateServiceRequest := MkCreateService
  { cs_orderItemId : string; cs_serverId : string }.
Definition service_not_found : exn := not_found "Service was not found.".
Definition create_service (s : Service) : Io unit :=
  m ← read services;
  _ ← require (bool_decide (m !! svc_id s = None) &&
               unique_opt m svc_orderItemId (svc_orderItemId s) &&
               unique_opt m account_key (account_key s)) UniqueViolation;
  write (λ d, d <| services := <[svc_id s := s]> m |>).

Section services.
(** [service_view_ok]: [serviceSchema] accepts the texts and dates of a row. *)
Context (service_view_ok : ServiceView → bool) (production : bool).

Definition toService (record : ServiceRecord) : result ServiceView :=
  let s := sr_service record in
  customer ← of_option (JsError "Inconsistent query result") (sr_customer record);
  server ← of_option (JsError "Inconsistent query result") (sr_server record);
  mode ← readHostingProvisioningMode (svc_provisioningSnapshot s);
  _ ← of_option ZodError (hostingBillingPeriodSchema (svc_billingPeriod s));
  amount ← serializeMoney (svc_recurringAmount s) (svc_currency s);
  let view := MkServiceView s (customer_name customer) (usr_email customer)
    (ord_id <$> sr_order record) (ord_orderNumber <$> sr_order record)
    (String.eqb mode "PRESERVE_EXISTING") server amount in
  _ ← throw_unless (service_view_ok view) ZodError;
  Ok view.
Definition service_record (serviceId : string) : Io ServiceRecord :=
  found ← read (λ d, include_service d <$> services d !! serviceId);
  lift (of_option service_not_found found).
Definition get_service (serviceId : string) (actor : Identity) (customerId : option string)
    : Io ServiceView :=
  record ← service_record serviceId;
  let owner := svc_customerId (sr_service record) in
  _ ← require
        (match actor with
         | CustomerIdentity _ c => String.eqb c owner | AdminIdentity _ => true end &&
         match customerId with
         | Some c => String.eqb (js_lower owner) (js_lower c) | None => true end)
        (forbidden "You do not have access to this service.");
  lift (toService record).

(** [settings.activeHostingPanelAdapter]. *)
Definition activePanelSchema : schema string := λ v,
  o ← z_strict_object ["activeGateway"; "activeHostingPanelAdapter"] v;
  _ ← activeProviderSettingsSchema v;
  z_string (get "activeHostingPanelAdapter" o).
Definition activeHostingPanelAdapter : Io string :=
  setting ← find_setting ACTIVE_PROVIDERS_KEY;
  mret (match setting with
        | None => if production then "cpanel-whm" else "fake-panel"
        | Some v => default "cpanel-whm" (activePanelSchema v)
        end).

Definition service_duplicateResult (existing : ServiceRecord) (input : CreateServiceRequest)
    : result ServiceCreationResult :=
  _ ← throw_unless (String.eqb (svc_serverId (sr_service existing)) (cs_serverId input))
        (conflict "This order item already has a service on another server.");
  view ← toService existing;
  Ok (MkServiceCreation view true).
Definition find_service_of (orderItemId : string) : Io (option ServiceRecord) :=
  read (λ d, include_service d <$>
             find_unique (services d) svc_orderItemId (Some orderItemId)).
(** The server of a new service: active, and below its account limit. *)
Definition server_open (adapter : string) (s : Server) : bool :=
  String.eqb (srv_adapterKey s) adapter && (srv_status s ==b ServerStatus.ACTIVE) &&
  bool_decide (srv_deletedAt s = None).
Definition assigned (serverId : string) (d : Db) : Z :=
  count_rows (λ s, String.eqb (svc_serverId s) serverId &&
                   negb (svc_status s ==b ServiceStatus.CANCELLED) &&
                   negb (svc_status s ==b ServiceStatus.TERMINATED)) (services d).
Definition select_server (serverId adapter : string) : Io Server :=
  _ ← lock_row "servers" serverId;
  found ← read (λ d, servers d !! serverId);
  server ← lift (of_option (unprocessable "The selected server is not active.")
    (s ← found; if server_open adapter s then Some s else None));
  count ← read (assigned (srv_id server));
  _ ← require (match srv_maxAccounts server with Some n => count <? n | None => true end)
        (unprocessable "The selected server has reached its account limit.");
  mret server.
Definition new_service (item : OrderItem) (order : Order) (server : Server) (id : string)
    (startedAt nextDueAt now : Z) : Service :=
  MkService id (ord_customerId order) (Some (oi_id item)) (oi_productId item)
    (oi_productPriceId item) (srv_id server) ServiceStatus.PENDING (oi_requestedDomain item)
    (oi_productNameSnapshot item) (oi_descriptionSnapshot item)
    (oi_provisioningSnapshot item) None None (oi_billingPeriod item) (oi_unitAmount item)
    (oi_currency item) startedAt nextDueAt None None None None None None None None None None
    now now.
Definition item_taken : exn :=
  conflict "This order item already has a service or is unavailable.".
Definition createService_tx (input : CreateServiceRequest) (adapter : string)
    (actor : Identity) (context : SecurityRequestContext) : Io string :=
  _ ← lock_row "order_items" (cs_orderItemId input);
  found ← read (λ d, orderItems d !! cs_orderItemId input);
  taken ← read (λ d, find_unique (services d) svc_orderItemId (Some (cs_orderItemId input)));
  item ← lift (of_option item_taken
    (i ← found; if (oi_kind i ==b ProductKind.HOSTING) && bool_decide (taken = None)
                then Some i else None));
  order ← read (λ d, orders d !! oi_orderId item);
  order ← lift (of_option (JsError "Inconsistent query result") order);
  _ ← require ((ord_status order ==b OrderStatus.PAID) ||
               (ord_status order ==b OrderStatus.PROCESSING))
        (unprocessable "A service can be created only from a paid order awaiting fulfilment.");
  _ ← require (negb (absent (oi_requestedDomain item)))
        (unprocessable "The order item does not have a hosting domain.");
  server ← select_server (cs_serverId input) adapter;
  period ← lift (of_option ZodError (hostingBillingPeriodSchema (oi_billingPeriod item)));
  startedAt ← new_date;
  nextDueAt ← lift (of_option (RangeError "Invalid time value")
                      (nextServiceDueAt startedAt period));
  id ← random_uuid;
  now ← new_date;
  _ ← create_service (new_service item order server id startedAt nextDueAt now);
  _ ← when (ord_status order ==b OrderStatus.PAID)
        (update_order (oi_orderId item) (λ o, o <| ord_status := OrderStatus.PROCESSING |>));
  _ ← log_activity (admin_log actor context "SERVICE_CREATED_FROM_PAID_ORDER" "SERVICE"
        (Some id)
        (JObj [("orderId", JStr (oi_orderId item)); ("orderItemId", JStr (oi_id item));
               ("customerId", JStr (ord_customerId order));
               ("productId", JStr (oi_productId item));
               ("productPriceId", JStr (oi_productPriceId item));
               ("serverId", JStr (srv_id server)); ("status", JStr "PENDING")]));
  mret id.
Definition createService (input : CreateServiceRequest) (actor : Identity)
    (context : SecurityRequestContext) : Io ServiceCreationResult :=
  adapter ← activeHostingPanelAdapter;
  duplicate ← find_service_of (cs_orderItemId input);
  match duplicate with
  | Some duplicate => lift (service_duplicateResult duplicate input)
  | None =>
      catch
        (id ← transaction (createService_tx input adapter actor context);
         record ← service_record id;
         view ← lift (toService record);
         mret (MkServiceCreation view false))
        (λ e,
         if is_unique_violation e then
           raced ← find_service_of (cs_orderItemId input);
           match raced with
           | Some raced => lift (service_duplicateResult raced input)
           | None => throw (conflict "The service could not be created safely.")
           end
         else throw e)
  end.

(** ** Changes of status *)
Definition service_email (previous next : ServiceStatus) : option string :=
  match next with
  | ServiceStatus.SUSPENDED => Some "EMAIL_SERVICE_SUSPENDED"
  | ServiceStatus.ACTIVE =>
      Some (if previous ==b ServiceStatus.SUSPENDED then "EMAIL_SERVICE_REACTIVATED"
            else "EMAIL_SERVICE_PROVISIONED")
  | _ => None
  end.
Definition cancellation_completed (serviceId : string) (d : Db) : bool :=
  negb (bool_decide (rows (λ r, String.eqb (hc_serviceId r) serviceId &&
    (hc_status r ==b CancellationStatus.COMPLETED)) (cancellations d) = [])).
(** The guards, in their order. *)
Definition transition_guards (current : Service) (server : Server) (cancelled : bool)
    (next : ServiceStatus) : result unit :=
  _ ← throw_unless (negb ((next ==b ServiceStatus.ACTIVE) &&
                          (svc_status current ==b ServiceStatus.SUSPENDED) && cancelled))
        (unprocessable "This service has a completed cancellation.");
  _ ← throw_unless (isServiceTransitionAllowed (svc_status current) next)
        (unprocessable ("Service cannot move from " ++
           ServiceStatus.to_string (svc_status current) ++ " to " ++
           ServiceStatus.to_string next ++ ".")%string);
  throw_unless (negb ((next ==b ServiceStatus.PROVISIONING) &&
                      (negb (srv_status server ==b ServerStatus.ACTIVE) ||
                       bool_decide (is_Some (srv_deletedAt server)))))
    (unprocessable "The assigned server is not active.").
Definition complete_order_of (current : Service) (now : Z) : Io unit :=
  item ← read (λ d, i ← svc_orderItemId current; orderItems d !! i);
  match item with
  | Some item =>
      complete ← orderFulfillmentComplete (oi_orderId item);
      when complete
        (_ ← update_order_if (oi_orderId item)
               (λ o, ord_status o ==b OrderStatus.PROCESSING)
               (λ o, o <| ord_status := OrderStatus.COMPLETED |>
                       <| ord_completedAt := Some now |>);
         mret tt)
  | None => mret tt
  end.
Definition transition_tx (serviceId : string) (input : TransitionServiceRequest)
    (actor : Identity) (context : SecurityRequestContext) : Io unit :=
  let next := requested_status input in
  _ ← lock_row "services" serviceId;
  found ← read (λ d, services d !! serviceId);
  current ← lift (of_option service_not_found found);
  server ← read (λ d, servers d !! svc_serverId current);
  server ← lift (of_option (JsError "Inconsistent query result") server);
  cancelled ← read (cancellation_completed serviceId);
  _ ← lift (transition_guards current server cancelled next);
  now ← new_date;
  data ← lift (transitionData current input (userId actor) now);
  _ ← update_service serviceId data;
  _ ← match service_email (svc_status current) next with
      | Some eventType =>
          create_outbox "SERVICE" serviceId eventType
            ("email:service-transition:" ++ serviceId ++ ":" ++
             to_ISO_string (svc_updatedAt current) ++ ":" ++ ServiceStatus.to_string next)%string
            (JObj [("schemaVersion", JNum 1); ("serviceId", JStr serviceId)])
      | None => mret tt
      end;
  _ ← when (next ==b ServiceStatus.ACTIVE) (complete_order_of current now);
  log_activity (admin_log actor context "SERVICE_STATUS_CHANGED_BY_ADMIN" "SERVICE"
    (Some serviceId)
    (JObj ([("previousStatus", JStr (ServiceStatus.to_string (svc_status current)));
            ("status", JStr (ServiceStatus.to_string next))] ++
           match requested_reason input with
           | Some r => [("reason", JStr r)] | None => [] end))).
Definition transition (serviceId : string) (input : TransitionServiceRequest)
    (actor : Identity) (context : SecurityRequestContext) : Io ServiceView :=
  _ ← transaction (transition_tx serviceId input actor context);
  record ← service_record serviceId;
  lift (toService record).
End services.

(** ** hosting-cancellation.service.ts *)
Record HostingCancellationInput := MkCancellationInput
  { ci_timing : CancellationTiming; ci_reason : option string;
    ci_expectedEffectiveAt : string }.
Record HostingCancellation := MkCancellationView
  { cv_id : string; cv_serviceId : string; cv_timing : CancellationTiming;
    cv_status : CancellationStatus; cv_reason : option string;
    cv_effectiveAt : option string; cv_approvedAt : option string; cv_createdAt : string;
    cv_resolvedAt : option string }.
Definition serialize_cancellation (r : HostingCancellationRequest) : HostingCancellation :=
  MkCancellationView (hc_id r) (hc_serviceId r) (hc_timing r) (hc_status r) (hc_reason r)
    (to_ISO_string <$> hc_effectiveAt r) (to_ISO_string <$> hc_approvedAt r)
    (to_ISO_string (hc_createdAt r)) (to_ISO_string <$> hc_resolvedAt r).
Definition service_forbidden : exn := forbidden "You do not have access to this service.".

Definition put_cancellation (r : HostingCancellationRequest) : Io unit :=
  write (λ d, d <| cancellations := <[hc_id r := r]> (cancellations d) |>).
(** [hostingCancellationRequest.create], with the index
    hosting_cancellation_requests_one_effective_idx. *)
Definition effective_service (r : HostingCancellationRequest) : option string :=
  if cancellation_effective r then Some (hc_serviceId r) else None.
Definition create_cancellation (r : HostingCancellationRequest) : Io unit :=
  m ← read cancellations;
  _ ← require (bool_decide (m !! hc_id r = None) &&
               unique_opt m effective_service (effective_service r)) UniqueViolation;
  put_cancellation r.
(** [hostingCancellationRequest.update({where: {id}})]: the new row. *)
Definition update_cancellation (id : string)
    (f : HostingCancellationRequest → HostingCancellationRequest)
    : Io HostingCancellationRequest :=
  m ← read cancellations;
  match m !! id with
  | None => throw RecordNotFound
  | Some r => _ ← write (λ d, d <| cancellations := <[id := f r]> m |>); mret (f r)
  end.
(** [outboxEvent.create] with its own [availableAt]. *)
Definition create_outbox_at (availableAt : Z)
    (aggregateType aggregateId eventType idempotencyKey : string) (payload : json) : Io unit :=
  id ← random_uuid;
  now ← new_date;
  m ← read outboxEvents;
  _ ← require (bool_decide (m !! id = None) &&
               unique_in m out_idempotencyKey idempotencyKey) UniqueViolation;
  put_outbox (pending_event id aggregateType aggregateId eventType idempotencyKey payload
                availableAt now).

Definition ownedService (serviceId : string) (actor : Identity) : Io Service :=
  found ← read (λ d, services d !! serviceId);
  lift (of_option service_forbidden
    (s ← found;
     match actor with
     | CustomerIdentity _ c => if String.eqb (svc_customerId s) c then Some s else None
     | AdminIdentity _ => None
     end)).
Definition findRequest (serviceId id : string) : Io HostingCancellationRequest :=
  found ← read (λ d, cancellations d !! id);
  lift (of_option (unprocessable "Cancellation request was not found.")
    (r ← found; if String.eqb (hc_serviceId r) serviceId then Some r else None)).
Definition cancellation_payload (r : HostingCancellationRequest) : json :=
  JObj [("schemaVersion", JNum 1); ("serviceId", JStr (hc_serviceId r));
        ("cancellationId", JStr (hc_id r))].
Definition queueSuspension (r : HostingCancellationRequest) (availableAt : Z) : Io unit :=
  create_outbox_at availableAt "SERVICE" (hc_serviceId r)
    "HOSTING_CANCELLATION_SUSPENSION_REQUESTED" ("hosting-cancellation:" ++ hc_id r)%string
    (cancellation_payload r).
Definition audit_cancellation (r : HostingCancellationRequest) (action : string)
    (actor : Identity) (context : SecurityRequestContext) : Io unit :=
  log_activity (MkActivityLog (Some (userId actor))
    ("HOSTING_CANCELLATION_" ++ action)%string "SERVICE" (Some (hc_serviceId r)) None
    (Some (ipAddressHash context))
    (JObj [("cancellationId", JStr (hc_id r));
           ("timing", JStr (CancellationTiming.to_string (hc_timing r)))])).
(** The same request sent again. *)
Definition same_request (existing : HostingCancellationRequest)
    (input : HostingCancellationInput) (reason : option string) : bool :=
  (hc_status existing ==b CancellationStatus.OPEN) &&
  (hc_timing existing ==b ci_timing input) && bool_decide (hc_reason existing = reason).

Section cancellation.
Context `{DateParser}.

Definition request_tx (serviceId : string) (input : HostingCancellationInput)
    (actor : Identity) (context : SecurityRequestContext) : Io HostingCancellation :=
  _ ← lock_row "services" serviceId;
  service ← ownedService serviceId actor;
  existing ← read (λ d, head (rows (λ r, String.eqb (hc_serviceId r) serviceId &&
                                       cancellation_effective r) (cancellations d)));
  let reason := if absent (ci_reason input) then None else ci_reason input in
  match existing with
  | Some existing =>
      _ ← require (same_request existing input reason)
            (unprocessable "This service already has a cancellation request.");
      mret (serialize_cancellation existing)
  | None =>
      _ ← require ((svc_status service ==b ServiceStatus.ACTIVE) ||
                   (svc_status service ==b ServiceStatus.SUSPENDED))
            (unprocessable "This service cannot be cancelled in its current state.");
      let at_end := ci_timing input ==b CancellationTiming.END_OF_PERIOD in
      let effectiveAt := if at_end then Some (svc_nextDueAt service) else None in
      _ ← require (negb at_end || bool_decide (date_of (ci_expectedEffectiveAt input) =
                                               Some (svc_nextDueAt service)))
            (unprocessable
               "The billing date changed. Reload the service and review the new date.");
      _ ← match effectiveAt with
          | Some t =>
              now ← new_date;
              require (now <? t)
                (unprocessable "This billing period has ended. Select immediate review.")
          | None => mret tt
          end;
      id ← random_uuid;
      created ← new_date;
      let request := MkCancellation id serviceId (ci_timing input) CancellationStatus.OPEN
                       reason effectiveAt None created None in
      _ ← create_cancellation request;
      _ ← create_outbox "SERVICE" serviceId "EMAIL_HOSTING_CANCELLATION_REQUESTED"
            ("email:hosting-cancellation:" ++ id)%string
            (JObj [("schemaVersion", JNum 1); ("cancellationId", JStr id)]);
      _ ← match effectiveAt with
          | Some t => queueSuspension request t | None => mret tt end;
      _ ← audit_cancellation request "REQUESTED" actor context;
      mret (serialize_cancellation request)
  end.
Definition request_cancellation (serviceId : string) (input : HostingCancellationInput)
    (actor : Identity) (context : SecurityRequestContext) : Io HostingCancellation :=
  transaction (request_tx serviceId input actor context).
End cancellation.

Definition withdraw_tx (serviceId cancellationId : string) (actor : Identity)
    (context : SecurityRequestContext) : Io HostingCancellation :=
  _ ← lock_row "services" serviceId;
  _ ← ownedService serviceId actor;
  request ← findRequest serviceId cancellationId;
  if hc_status request ==b CancellationStatus.WITHDRAWN
  then mret (serialize_cancellation request)
  else
    now ← new_date;
    _ ← require ((hc_status request ==b CancellationStatus.OPEN) &&
                 bool_decide (hc_approvedAt request = None) &&
                 match hc_effectiveAt request with Some t => now <? t | None => true end)
          (unprocessable "This cancellation can no longer be withdrawn.");
    withdrawn ← update_cancellation (hc_id request) (λ r,
      r <| hc_status := CancellationStatus.WITHDRAWN |> <| hc_resolvedAt := Some now |>);
    _ ← audit_cancellation withdrawn "WITHDRAWN" actor context;
    mret (serialize_cancellation withdrawn).
Definition withdraw (serviceId cancellationId : string) (actor : Identity)
    (context : SecurityRequestContext) : Io HostingCancellation :=
  transaction (withdraw_tx serviceId cancellationId actor context).
(** [staffRole] is the role of an administrator. *)
Definition approve_tx (serviceId cancellationId : string) (actor : Identity)
    (context : SecurityRequestContext) : Io HostingCancellation :=
  _ ← lock_row "services" serviceId;
  request ← findRequest serviceId cancellationId;
  match hc_approvedAt request with
  | Some _ => mret (serialize_cancellation request)
  | None =>
      _ ← require ((hc_status request ==b CancellationStatus.OPEN) &&
                   (hc_timing request ==b CancellationTiming.IMMEDIATE))
            (unprocessable "Only a pending immediate request can be approved.");
      now ← new_date;
      approved ← update_cancellation (hc_id request) (λ r, r <| hc_approvedAt := Some now |>);
      _ ← queueSuspension approved now;
      _ ← audit_cancellation approved "APPROVED" actor context;
      mret (serialize_cancellation approved)
  end.
Definition approve (serviceId cancellationId : string) (actor : Identity)
    (staffRole : string) (context : SecurityRequestContext) : Io HostingCancellation :=
  _ ← require (match actor with
               | AdminIdentity _ => String.eqb staffRole "FULL_ADMINISTRATOR"
               | CustomerIdentity _ _ => false
               end) service_forbidden;
  transaction (approve_tx serviceId cancellationId actor context).

(** ** service-add-ons.service.ts *)
Record ServiceAddOn := MkServiceAddOn
  { sa_id : string; sa_name : string; sa_recurringAmount : SerializedMoney;
    sa_renewalEndsAt : option string; sa_availableEndAt : option string }.
Definition add_on_forbidden : exn :=
  forbidden "You do not have access to this hosting add-on.".
Definition serialize_add_on (item : OrderItem) (availableEndAt : option Z)
    : result ServiceAddOn :=
  amount ← serializeMoney (oi_lineTotal item) (oi_currency item);
  Ok (MkServiceAddOn (oi_id item) (oi_productNameSnapshot item) amount
        (to_ISO_string <$> oi_renewalEndsAt item) (to_ISO_string <$> availableEndAt)).
(** The invoice is issued, not cancelled, and bills the service's current period. *)
Definition bills_current (s : Service) (d : Db) (invoiceId : string) : bool :=
  match invoices d !! invoiceId with
  | Some i =>
      bool_decide (is_Some (inv_issuedAt i)) &&
      negb (inv_status i ==b InvoiceStatus.CANCELLED) &&
      negb (bool_decide (rows (λ l, String.eqb (ii_invoiceId l) invoiceId &&
        bool_decide (ii_serviceId l = Some (svc_id s)) &&
        bool_decide (ii_servicePeriodStart l = Some (svc_nextDueAt s))) (invoiceItems d) = []))
  | None => false
  end.
(** The furthest end of the add-on's period on such an invoice. *)
Definition billed_until (s : Service) (itemId : string) (d : Db) : option Z :=
  fold_right (λ l acc,
    match ii_servicePeriodEnd l, acc with
    | Some t, Some u => Some (Z.max t u) | Some t, None => Some t | None, acc => acc
    end) None
    (rows (λ l, bool_decide (ii_orderItemId l = Some itemId) &&
                bool_decide (ii_servicePeriodStart l = Some (svc_nextDueAt s)) &&
                bool_decide (is_Some (ii_servicePeriodEnd l)) &&
                bills_current s d (ii_invoiceId l)) (invoiceItems d)).
Definition add_on_of (s : Service) (orderId : string) (i : OrderItem) : bool :=
  String.eqb (oi_orderId i) orderId && (oi_kind i ==b ProductKind.ADD_ON) &&
  (oi_billingPeriod i ==b svc_billingPeriod s) &&
  String.eqb (oi_currency i) (svc_currency s) && bool_decide (is_Some (oi_fulfilledAt i)).
(** [findAddOns] of one add-on, with the end of its billed period. *)
Definition find_add_on (s : Service) (addOnId : string) (d : Db)
    : option (OrderItem * option Z) :=
  hosting ← (i ← svc_orderItemId s; orderItems d !! i);
  item ← orderItems d !! addOnId;
  if add_on_of s (oi_orderId hosting) item then Some (item, billed_until s addOnId d) else None.
Definition availableEndAt (s : Service) (item : OrderItem) (billed : option Z) : option Z :=
  if bool_decide (is_Some (oi_renewalEndsAt item)) ||
     negb ((svc_status s ==b ServiceStatus.ACTIVE) || (svc_status s ==b ServiceStatus.SUSPENDED))
  then None
  else Some (default (svc_nextDueAt s) billed).
Definition update_order_item (id : string) (f : OrderItem → OrderItem) : Io OrderItem :=
  m ← read orderItems;
  match m !! id with
  | None => throw RecordNotFound
  | Some r => _ ← write (λ d, d <| orderItems := <[id := f r]> m |>); mret (f r)
  end.

Section add_ons.
Context `{DateParser}.

Definition cancelAddOn_tx (serviceId customerId addOnId expectedEndAt actorId : string)
    (context : SecurityRequestContext) : Io ServiceAddOn :=
  _ ← lock_row "services" serviceId;
  found ← read (λ d, services d !! serviceId);
  s ← lift (of_option add_on_forbidden
        (s ← found; if String.eqb (svc_customerId s) customerId then Some s else None));
  found ← read (find_add_on s addOnId);
  '(item, billed) ← lift (of_option add_on_forbidden found);
  match oi_renewalEndsAt item with
  | Some _ => lift (serialize_add_on item None)
  | None =>
      endAt ← lift (of_option
        (conflict
           "The billing period changed. Reload the service and review the cancellation date.")
        (t ← availableEndAt s item billed;
         if bool_decide (date_of expectedEndAt = Some t) then Some t else None));
      cancelled ← update_order_item (oi_id item) (λ i, i <| oi_renewalEndsAt := Some endAt |>);
      _ ← log_activity (MkActivityLog (Some actorId) "HOSTING_ADD_ON_RENEWAL_CANCELLED"
            "SERVICE" (Some serviceId) None (Some (ipAddressHash context))
            (JObj [("orderItemId", JStr (oi_id item));
                   ("renewalEndsAt", JStr (to_ISO_string endAt))]));
      lift (serialize_add_on cancelled None)
  end.
(** [support]: an administrator acts for the customer. *)
Definition cancelAddOn (serviceId addOnId expectedEndAt : string) (actor : Identity)
    (support : bool) (context : SecurityRequestContext) : Io ServiceAddOn :=
  _ ← require (negb support) add_on_forbidden;
  match actor with
  | AdminIdentity _ => throw add_on_forbidden
  | CustomerIdentity user customerId =>
      transaction (cancelAddOn_tx serviceId customerId addOnId expectedEndAt user context)
  end.
End add_ons.
