(* ===== verification/HostingAutomation.v ===== *)
(** * Hosting automation

    apps/worker/src/renewal/hosting-automation.service.ts: the jobs that suspend
    a service for an overdue renewal, lift the suspension after payment, and
    carry out a cancellation, through the panel of the service's server.  The
    panel answers over HTTP: [fetch] is one request, [decipher] the AES-256-GCM
    decryption of a stored token and [parse_json] is [JSON.parse]. *)
From S2P Require Import Prelude JsString JsDate Json Money States Database InvoiceNumber InvoiceTotals Invoices BackgroundJobs Payments Gateways Orders HostingServices.

(** ** Payloads *)
Inductive AutomationAction := SUSPEND | UNSUSPEND.
#[export] Instance AutomationAction_eq_dec : EqDecision AutomationAction.
Proof. solve_decision. Defined.
Inductive AutomationPayload :=
| ForInvoice (serviceId invoiceId automationRunId : string)
| ForCancellation (serviceId cancellationId : string).
Definition pl_serviceId (p : AutomationPayload) : string :=
  match p with ForInvoice s _ _ | ForCancellation s _ => s end.
Definition pl_sourceId (p : AutomationPayload) : string :=
  match p with ForInvoice _ i _ => i | ForCancellation _ c => c end.
Definition pl_automationRunId (p : AutomationPayload) : option string :=
  match p with ForInvoice _ _ r => Some r | ForCancellation _ _ => None end.
Definition pl_invoiceId (p : AutomationPayload) : option string :=
  match p with ForInvoice _ i _ => Some i | ForCancellation _ _ => None end.
Definition pl_cancellationId (p : AutomationPayload) : option string :=
  match p with ForInvoice _ _ _ => None | ForCancellation _ c => Some c end.
Definition sourceMetadata (p : AutomationPayload) : list (string * json) :=
  match p with
  | ForInvoice _ i _ => [("invoiceId", JStr i)]
  | ForCancellation _ c => [("cancellationId", JStr c)]
  end.
(** [JSON.stringify(payload)]; identifiers need no escapes. *)
Definition quoted (s : string) : string := (String "034" (s ++ String "034" ""))%string.
Definition payload_text (p : AutomationPayload) : string :=
  let field k v := ("," ++ quoted k ++ ":" ++ quoted v)%string in
  ("{" ++ quoted "schemaVersion" ++ ":1" ++ field "serviceId" (pl_serviceId p) ++
   match p with
   | ForInvoice _ i r => field "invoiceId" i ++ field "automationRunId" r
   | ForCancellation _ c => field "cancellationId" c
   end ++ "}")%string.
Definition payload_json (p : AutomationPayload) : json :=
  JObj ([("schemaVersion", JNum 1); ("serviceId", JStr (pl_serviceId p))] ++
        match p with
        | ForInvoice _ i r => [("invoiceId", JStr i); ("automationRunId", JStr r)]
        | ForCancellation _ c => [("cancellationId", JStr c)]
        end).

Section payloads.
Context `{ZodFormats}.

Definition version_one (v : json) : option unit :=
  _ ← z_refine (λ n, n =? 1) z_int v; Some tt.
Definition hostingAutomationPayloadSchema : schema AutomationPayload := λ v,
  o ← z_strict_object ["schemaVersion"; "serviceId"; "invoiceId"; "automationRunId"] v;
  _ ← version_one (get "schemaVersion" o);
  s ← z_refine zod_uuid z_string (get "serviceId" o);
  i ← z_refine zod_uuid z_string (get "invoiceId" o);
  r ← z_refine zod_uuid z_string (get "automationRunId" o);
  Some (ForInvoice s i r).
Definition hostingCancellationJobSchema : schema AutomationPayload := λ v,
  o ← z_strict_object ["schemaVersion"; "serviceId"; "cancellationId"] v;
  _ ← version_one (get "schemaVersion" o);
  s ← z_refine zod_uuid z_string (get "serviceId" o);
  c ← z_refine zod_uuid z_string (get "cancellationId" o);
  Some (ForCancellation s c).
End payloads.

(** ** Panel operations *)
Definition MAX_AUTOMATION_ATTEMPTS : Z := 3.
(** The CHECK constraints of hosting_panel_operations that an operation of the
    automation can meet: its evidence, its requester and its retry. *)
Definition status_evidence (r : HostingPanelOperation) : bool :=
  let clean := negb (op_retryable r) && bool_decide (op_errorKind r = None) &&
               bool_decide (op_errorCode r = None) && bool_decide (op_errorMessage r = None) in
  let told := bool_decide (is_Some (op_errorCode r)) &&
              bool_decide (is_Some (op_errorMessage r)) in
  let completed := bool_decide (is_Some (op_completedAt r)) in
  match op_status r with
  | OperationStatus.RUNNING => negb completed && clean
  | OperationStatus.SUCCEEDED => completed && clean
  | OperationStatus.FAILED =>
      completed && told &&
      match op_errorKind r with
      | Some ErrorKind.TEMPORARY => op_retryable r
      | Some ErrorKind.PERMANENT => negb (op_retryable r)
      | _ => false
      end
  | OperationStatus.INCONSISTENT =>
      completed && told && negb (op_retryable r) &&
      bool_decide (op_errorKind r = Some ErrorKind.INCONSISTENT)
  end.
Definition operation_check (r : HostingPanelOperation) : bool :=
  status_evidence r && (0 <? op_attemptNumber r) &&
  xorb (bool_decide (is_Some (op_requestedByUserId r)))
       (bool_decide (is_Some (op_automationRunId r))) &&
  xorb (bool_decide (op_type r = OperationType.TEST_CONNECTION))
       (bool_decide (is_Some (op_serviceId r))) &&
  negb (bool_decide (op_retryOfOperationId r = Some (op_id r))).
Definition operation_violation : exn := JsError "hosting_panel_operations check constraint".
Definition create_operation (r : HostingPanelOperation) : Io unit :=
  m ← read panelOperations;
  _ ← require (bool_decide (m !! op_id r = None) &&
               unique_in m op_idempotencyKey (op_idempotencyKey r) &&
               unique_opt m op_retryOfOperationId (op_retryOfOperationId r)) UniqueViolation;
  _ ← require (operation_check r) operation_violation;
  write (λ d, d <| panelOperations := <[op_id r := r]> m |>).
(** [hostingPanelOperation.updateMany({where: {id, ...}})]: the count. *)
Definition update_operation_if (id : string) (p : HostingPanelOperation → bool)
    (f : HostingPanelOperation → HostingPanelOperation) : Io Z :=
  now ← new_date;
  m ← read panelOperations;
  match m !! id with
  | Some r =>
      if p r then
        let r' := f r <| op_updatedAt := now |> in
        _ ← require (operation_check r') operation_violation;
        _ ← write (λ d, d <| panelOperations := <[id := r']> m |>);
        mret 1
      else mret 0
  | None => mret 0
  end.
Definition update_operation (id : string)
    (f : HostingPanelOperation → HostingPanelOperation) : Io unit :=
  count ← update_operation_if id (λ _, true) f;
  require (count =? 1) RecordNotFound.
Definition is_running (r : HostingPanelOperation) : bool :=
  op_status r ==b OperationStatus.RUNNING.

(** The last attempt under a key: its retries have longer keys. *)
Definition latest_operation (key : string) (d : Db) : option HostingPanelOperation :=
  fold_right (λ r best,
    match best with
    | Some b => if op_attemptNumber b <? op_attemptNumber r then Some r else Some b
    | None => Some r
    end) None (rows (λ r, String.prefix key (op_idempotencyKey r)) (panelOperations d)).
Definition other_running (serviceId : string) (existing : option HostingPanelOperation)
    (d : Db) : bool :=
  negb (bool_decide (rows (λ r,
    bool_decide (op_serviceId r = Some serviceId) && is_running r &&
    negb (bool_decide (Some (op_id r) = op_id <$> existing))) (panelOperations d) = [])).

(** ** Errors *)
Definition jobError (kind : ErrorKind) (code : string) : exn :=
  BackgroundJobError (ErrorKind.to_string kind) code
    "The automated hosting-panel operation did not complete.".
Definition cannot_process (code : string) : exn :=
  BackgroundJobError "PERMANENT" code "Hosting automation cannot be processed.".
Definition action_of (eventType : string) : result AutomationAction :=
  if String.eqb eventType "HOSTING_SUSPENSION_REQUESTED" ||
     String.eqb eventType "HOSTING_CANCELLATION_SUSPENSION_REQUESTED" then Ok SUSPEND
  else if String.eqb eventType "HOSTING_UNSUSPENSION_REQUESTED" then Ok UNSUSPEND
  else Err (cannot_process "HOSTING_AUTOMATION_EVENT_UNSUPPORTED").

(** ** The panel *)
Record PanelAccount := MkAccount
  { pa_externalAccountId : string; pa_username : string; pa_domain : string;
    pa_suspended : bool }.
Record WhmRequest := MkWhm
  { wh_hostname : string; wh_port : Z; wh_operation : string;
    wh_parameters : list (string * string); wh_authorization : string }.
(** The status, and the body unless reading it fails. *)
Record WhmResponse := MkWhmResponse { wr_status : Z; wr_text : option string }.
Definition hasControlCharacters (s : string) : bool :=
  negb (all_chars (λ c, negb ((code c <=? 31) || (code c =? 127))) s).
(** [^[A-Za-z][A-Za-z0-9_-]{0,127}$]. *)
Definition api_username_ok (s : string) : bool :=
  match s with
  | EmptyString => false
  | String c t =>
      (is_upper c || is_lower c) && (slen t <=? 127) &&
      all_chars (λ c, is_alnum c || Ascii.eqb c "_" || Ascii.eqb c "-") t
  end.
Definition property (k : string) (v : json) : json :=
  match v with JObj o => get k o | _ => JUndefined end.
Definition whmSucceeded (body : json) : bool :=
  match property "result" (property "metadata" body) with
  | JNum n => n =? 1
  | JStr s => String.eqb s "1"
  | _ => false
  end.
Definition scalar (v : json) : option string :=
  match v with
  | JStr s => Some s | JNum n => Some (Z_to_string n) | JFrac t => Some t | _ => None
  end.
(** The user, domain and state of [body.data.acct[0]]. *)
Definition accountFromSummary (body : json) : option (string * string * bool) :=
  match property "acct" (property "data" body) with
  | JArr ((JObj o) :: _) =>
      username ← scalar (get "user" o);
      domain ← scalar (get "domain" o);
      if truthy username && truthy domain
      then Some (username, js_lower domain,
                 match get "suspended" o with
                 | JBool b => b | JNum n => n =? 1 | JStr s => String.eqb s "1"
                 | _ => false end)
      else None
  | _ => None
  end.

Section automation.
Context `{ZodFormats} `{Sha256}.
Context (fetch : WhmRequest → Io (option WhmResponse)).
Context (decipher : string → string → string → string → option string).
Context (parse_json : string → option json).

Definition panel_error {A} (kind : ErrorKind) (code : string) : Io A :=
  throw (PanelAutomationError kind code).
Definition credential_unavailable : exn :=
  PanelAutomationError ErrorKind.PERMANENT "PANEL_CREDENTIAL_UNAVAILABLE".
Definition decryptToken (server : Server) : result string :=
  _ ← throw_unless (bool_decide (srv_credentialKeyVersion server = Some "cpanel-token-v1") &&
                    negb (absent (srv_credentialsCiphertext server))) credential_unavailable;
  match split_on "." (default "" (srv_credentialsCiphertext server)) with
  | version :: iv :: tag :: ciphertext :: _ =>
      _ ← throw_unless (String.eqb version "v1" && truthy iv && truthy tag &&
                        truthy ciphertext) credential_unavailable;
      of_option credential_unavailable (decipher (srv_id server) iv tag ciphertext)
  | _ => Err credential_unavailable
  end.
(** What the answer of a call that is a [mutation], or not, is taken for. *)
Definition read_answer (mutation : bool) (response : option WhmResponse) : result json :=
  let unsure := if mutation then ErrorKind.INCONSISTENT else ErrorKind.TEMPORARY in
  match response with
  | None => Err (PanelAutomationError unsure
      (if mutation then "CPANEL_RESULT_UNKNOWN" else "CPANEL_TEMPORARILY_UNAVAILABLE"))
  | Some r =>
      if (wr_status r =? 401) || (wr_status r =? 403)
      then Err (PanelAutomationError ErrorKind.PERMANENT "CPANEL_AUTHENTICATION_FAILED")
      else if (wr_status r <? 200) || (299 <? wr_status r)
      then Err (PanelAutomationError
        (if mutation then ErrorKind.INCONSISTENT
         else if 500 <=? wr_status r then ErrorKind.TEMPORARY else ErrorKind.PERMANENT)
        (if mutation then "CPANEL_RESULT_UNKNOWN" else "CPANEL_REQUEST_REJECTED"))
      else
        text ← of_option (JsError "terminated") (wr_text r);
        _ ← throw_unless (utf8_length text <=? 1048576)
              (PanelAutomationError unsure "CPANEL_RESPONSE_INVALID");
        body ← of_option (PanelAutomationError unsure "CPANEL_RESPONSE_INVALID")
                 (parse_json text);
        _ ← throw_unless (whmSucceeded body)
              (PanelAutomationError
                 (if mutation then ErrorKind.PERMANENT else ErrorKind.TEMPORARY)
                 "CPANEL_OPERATION_REJECTED");
        Ok body
  end.
Definition whmCall (server : Server) (token operation : string)
    (parameters : list (string * string)) (mutation : bool) : Io json :=
  let username := default "" (srv_apiUsername server) in
  _ ← require (srv_useTls server && ((srv_port server =? 443) || (srv_port server =? 2087)) &&
               api_username_ok username && negb (hasControlCharacters token))
        (PanelAutomationError ErrorKind.PERMANENT "CPANEL_CONFIGURATION_INVALID");
  response ← fetch (MkWhm (srv_hostname server) (srv_port server) operation parameters
                      ("whm " ++ username ++ ":" ++ token)%string);
  lift (read_answer mutation response).
Definition suspension_reason (cancellation : bool) : string :=
  if cancellation then "Customer requested hosting cancellation."
  else "Renewal invoice overdue after grace period.".
(** The account as the panel reports it after the change. *)
Definition verify_account (server : Server) (token username domain account : string)
    : Io PanelAccount :=
  catch
    (summary ← whmCall server token "accountsummary" [("user", username)] false;
     match accountFromSummary summary with
     | Some (u, d, suspended) =>
         _ ← require (String.eqb u username && String.eqb d (js_lower domain))
               (JsError "ACCOUNT_IDENTITY_MISMATCH");
         mret (MkAccount account u d suspended)
     | None => throw (JsError "ACCOUNT_IDENTITY_MISMATCH")
     end)
    (λ _, panel_error ErrorKind.INCONSISTENT "CPANEL_MUTATION_NOT_VERIFIED").
(** The identifiers of a service on its panel; none may be empty. *)
Definition panel_identity (s : Service) : option (string * string * string) :=
  username ← svc_controlPanelUsername s; account ← svc_externalAccountId s;
  domain ← svc_domain s;
  if truthy username && truthy account && truthy domain
  then Some (username, account, domain) else None.
Definition mutatePanel (action : AutomationAction) (serviceId : string)
    (cancellation : bool) : Io PanelAccount :=
  found ← read (λ d, s ← services d !! serviceId; server ← servers d !! svc_serverId s;
                     identity ← panel_identity s; Some (server, identity));
  '(server, (username, account, domain)) ← lift (of_option
    (PanelAutomationError ErrorKind.PERMANENT "HOSTING_ACCOUNT_IDENTITY_UNAVAILABLE") found);
  if String.eqb (srv_adapterKey server) "fake-panel"
  then mret (MkAccount account username (js_lower domain) (action ==b SUSPEND))
  else
    _ ← require (String.eqb (srv_adapterKey server) "cpanel-whm")
          (PanelAutomationError ErrorKind.PERMANENT "HOSTING_PANEL_ADAPTER_UNSUPPORTED");
    token ← lift (decryptToken server);
    _ ← (match action with
         | SUSPEND => whmCall server token "suspendacct"
             [("user", username); ("reason", suspension_reason cancellation);
              ("disallowun", "0")] true
         | UNSUSPEND => whmCall server token "unsuspendacct" [("user", username)] true
         end);
    verify_account server token username domain account.

(** ** Preparing an operation *)
Definition create_outbox_skip_at (availableAt : Z)
    (aggregateType aggregateId eventType idempotencyKey : string) (payload : json) : Io unit :=
  id ← random_uuid;
  now ← new_date;
  m ← read outboxEvents;
  when (bool_decide (m !! id = None) && unique_in m out_idempotencyKey idempotencyKey)
    (put_outbox (pending_event id aggregateType aggregateId eventType idempotencyKey payload
                   availableAt now)).
Definition deferCancellation (payload : AutomationPayload) (outboxEventId : string)
    (availableAt : Z) : Io unit :=
  create_outbox_skip_at availableAt "SERVICE" (pl_serviceId payload)
    "HOSTING_CANCELLATION_SUSPENSION_REQUESTED"
    ("hosting-cancellation-deferred:" ++ outboxEventId)%string (payload_json payload).
Definition finishCancellation (serviceId cancellationId : string) (now : Z) : Io unit :=
  m ← read cancellations;
  let '(count, m') := update_one m cancellationId
    (λ r, String.eqb (hc_serviceId r) serviceId && (hc_status r ==b CancellationStatus.OPEN))
    (λ r, r <| hc_status := CancellationStatus.COMPLETED |> <| hc_resolvedAt := Some now |>) in
  _ ← write (λ d, d <| cancellations := m' |>);
  _ ← require (count =? 1) (JsError "CANCELLATION_STATE_CHANGED");
  log_activity (MkActivityLog None "HOSTING_CANCELLATION_COMPLETED" "SERVICE" (Some serviceId)
    None None (JObj [("cancellationId", JStr cancellationId)])).
Definition operation_key (action : AutomationAction) (payload : AutomationPayload) : string :=
  ("automation:" ++ (match action with SUSPEND => "suspend" | UNSUSPEND => "unsuspend" end) ++
   ":" ++ pl_serviceId payload ++ ":" ++ pl_sourceId payload)%string.
(** The request of a cancellation job when it is to be carried out now or later. *)
Definition due_at_request (r : HostingCancellationRequest) : option Z :=
  match hc_effectiveAt r with Some t => Some t | None => hc_approvedAt r end.
Definition due_request (serviceId cancellationId : string) (now : Z) (d : Db)
    : option (HostingCancellationRequest * Z) :=
  r ← cancellations d !! cancellationId;
  if String.eqb (hc_serviceId r) serviceId && (hc_status r ==b CancellationStatus.OPEN)
  then due ← due_at_request r; if now <? due then None else Some (r, due)
  else None.
(** Whether a cancellation job goes on to the panel. *)
Definition prepare_cancellation (payload : AutomationPayload) (cancellationId outboxEventId : string)
    (service : Service) (running : bool) : Io bool :=
  now ← new_date;
  found ← read (due_request (svc_id service) cancellationId now);
  match found with
  | None => mret false
  | Some (request, due) =>
      if running : bool then
        _ ← require (now - due <? 5 * 60000)
              (jobError ErrorKind.TEMPORARY "HOSTING_OPERATION_IN_PROGRESS");
        _ ← deferCancellation payload outboxEventId (now + 60000);
        mret false
      else if match hc_effectiveAt request with
              | Some t => t <? svc_nextDueAt service | None => false end
      then
        _ ← update_cancellation (hc_id request) (λ r,
              r <| hc_effectiveAt := Some (svc_nextDueAt service) |>);
        _ ← deferCancellation payload outboxEventId (svc_nextDueAt service);
        _ ← log_activity (MkActivityLog None "HOSTING_CANCELLATION_RESCHEDULED" "SERVICE"
              (Some (svc_id service)) None None
              (JObj [("cancellationId", JStr (hc_id request));
                     ("effectiveAt", JStr (to_ISO_string (svc_nextDueAt service)))]));
        mret false
      else if (svc_status service ==b ServiceStatus.SUSPENDED) ||
              (svc_status service ==b ServiceStatus.TERMINATED)
      then
        _ ← when (negb (absent (svc_suspensionInvoiceId service)))
              (update_service (svc_id service) (λ s, s <| svc_suspensionInvoiceId := None |>));
        _ ← finishCancellation (svc_id service) cancellationId now;
        mret false
      else
        _ ← require (svc_status service ==b ServiceStatus.ACTIVE)
              (jobError ErrorKind.PERMANENT "HOSTING_CANCELLATION_SERVICE_STATE_INVALID");
        mret true
  end.
Definition retriable (r : HostingPanelOperation) : bool :=
  (op_status r ==b OperationStatus.FAILED) &&
  bool_decide (op_errorKind r = Some ErrorKind.TEMPORARY) && op_retryable r &&
  (op_attemptNumber r <? MAX_AUTOMATION_ATTEMPTS).
Definition retry_operation (r : HostingPanelOperation) (key : string)
    (payload : AutomationPayload) (id : string) (now : Z) : HostingPanelOperation :=
  MkOperation id (op_serviceId r) (op_serverId r) (op_requestedByUserId r)
    (pl_automationRunId payload) (Some (op_id r)) (op_type r) OperationStatus.RUNNING
    (op_adapterKey r) (key ++ ":retry:" ++ Z_to_string (op_attemptNumber r + 1))%string
    (op_requestFingerprint r) (op_attemptNumber r + 1) false None None None
    (JObj (sourceMetadata payload)) JNull now None now now.
Definition first_operation (action : AutomationAction) (payload : AutomationPayload)
    (key : string) (service : Service) (server : Server) (requester : option string)
    (id : string) (now : Z) : HostingPanelOperation :=
  MkOperation id (Some (svc_id service)) (svc_serverId service) requester
    (pl_automationRunId payload) None
    (match action with
     | SUSPEND => OperationType.SUSPEND_ACCOUNT | UNSUSPEND => OperationType.UNSUSPEND_ACCOUNT
     end)
    OperationStatus.RUNNING (srv_adapterKey server) key (sha256_hex (payload_text payload))
    1 false None None None (JObj (sourceMetadata payload)) JNull now None now now.
(** What follows when no operation under the key has settled the job. *)
Definition prepare_operation (action : AutomationAction) (payload : AutomationPayload)
    (outboxEventId key : string) (existing : option HostingPanelOperation)
    : Io (option (HostingPanelOperation * bool)) :=
  running ← read (other_running (pl_serviceId payload) existing);
  let cancellation := bool_decide (is_Some (pl_cancellationId payload)) in
  _ ← require (negb running || cancellation)
        (jobError ErrorKind.TEMPORARY "HOSTING_OPERATION_IN_PROGRESS");
  found ← read (λ d, s ← services d !! pl_serviceId payload;
                     server ← servers d !! svc_serverId s;
                     customer ← customers d !! svc_customerId s; Some (s, server, customer));
  '(service, server, customer) ← lift (of_option
    (jobError ErrorKind.PERMANENT "HOSTING_AUTOMATION_SERVICE_UNAVAILABLE") found);
  proceed ← match pl_cancellationId payload with
            | Some c => prepare_cancellation payload c outboxEventId service running
            | None => mret true
            end;
  if negb proceed then mret None
  else
    match existing with
    | Some r =>
        if retriable r then
          id ← random_uuid;
          now ← new_date;
          let op := retry_operation r key payload id now in
          _ ← create_operation op;
          mret (Some (op, true))
        else mret (Some (r, false))
    | None =>
        id ← random_uuid;
        now ← new_date;
        let op := first_operation action payload key service server
          (if cancellation then Some (usr_id customer) else None) id now in
        _ ← create_operation op;
        mret (Some (op, true))
    end.
(** The operation to work on and whether it was made now; [None]: nothing to do. *)
Definition prepare_tx (action : AutomationAction) (payload : AutomationPayload)
    (outboxEventId : string) : Io (option (HostingPanelOperation * bool)) :=
  let key := operation_key action payload in
  _ ← lock_row "services" (pl_serviceId payload);
  existing ← read (latest_operation key);
  match existing with
  | Some r =>
      if bool_decide (pl_cancellationId payload = None) &&
         (op_status r ==b OperationStatus.SUCCEEDED)
      then mret (Some (r, false))
      else prepare_operation action payload outboxEventId key existing
  | None => prepare_operation action payload outboxEventId key existing
  end.

(** ** Carrying it out *)
(** A request that keeps a service from being reactivated. *)
Definition cancellation_holds (serviceId : string) (now : Z) (d : Db) : bool :=
  negb (bool_decide (rows (λ r, String.eqb (hc_serviceId r) serviceId &&
    ((hc_status r ==b CancellationStatus.COMPLETED) ||
     (hc_status r ==b CancellationStatus.OPEN) &&
     (bool_decide (is_Some (hc_approvedAt r)) ||
      match hc_effectiveAt r with Some t => t <=? now | None => false end)))
    (cancellations d) = [])).
Definition bills_service (invoiceId serviceId : string) (d : Db) : bool :=
  negb (bool_decide (rows (λ l, String.eqb (ii_invoiceId l) invoiceId &&
    bool_decide (ii_serviceId l = Some serviceId)) (invoiceItems d) = [])).
Definition eligible (action : AutomationAction) (payload : AutomationPayload) : Io bool :=
  service ← read (λ d, services d !! pl_serviceId payload);
  match payload with
  | ForCancellation _ _ =>
      mret (bool_decide (svc_status <$> service = Some ServiceStatus.ACTIVE))
  | ForInvoice serviceId invoiceId _ =>
      invoice ← read (λ d, i ← invoices d !! invoiceId;
                           if bills_service invoiceId serviceId d then Some i else None);
      match service, invoice with
      | Some service, Some invoice =>
          held ← match action with
                 | UNSUSPEND => now ← new_date; read (cancellation_holds (svc_id service) now)
                 | SUSPEND => mret false
                 end;
          mret (negb held &&
            match action with
            | SUSPEND => (svc_status service ==b ServiceStatus.ACTIVE) &&
                (inv_status invoice ==b InvoiceStatus.OVERDUE) && (0 <? inv_balanceDue invoice)
            | UNSUSPEND => (svc_status service ==b ServiceStatus.SUSPENDED) &&
                bool_decide (svc_suspensionInvoiceId service = Some (inv_id invoice)) &&
                (inv_status invoice ==b InvoiceStatus.PAID) && (inv_balanceDue invoice =? 0)
            end)
      | _, _ => mret false
      end
  end.
Definition account_json (a : PanelAccount) : json :=
  JObj [("username", JStr (pa_username a)); ("domain", JStr (pa_domain a));
        ("state", JStr (if pa_suspended a then "SUSPENDED" else "ACTIVE"));
        ("externalAccountId", JStr (pa_externalAccountId a))].
Definition completes_from (action : AutomationAction) (payload : AutomationPayload)
    (s : Service) : bool :=
  match action with
  | SUSPEND => svc_status s ==b ServiceStatus.ACTIVE
  | UNSUSPEND => (svc_status s ==b ServiceStatus.SUSPENDED) &&
                 bool_decide (svc_suspensionInvoiceId s = pl_invoiceId payload)
  end.
Definition completed_service (action : AutomationAction) (payload : AutomationPayload)
    (now : Z) (s : Service) : Service :=
  match action with
  | SUSPEND =>
      s <| svc_status := ServiceStatus.SUSPENDED |> <| svc_suspendedAt := Some now |>
        <| svc_suspensionReason := Some (suspension_reason
             (bool_decide (is_Some (pl_cancellationId payload)))) |>
        <| svc_suspensionInvoiceId := pl_invoiceId payload |>
  | UNSUSPEND =>
      s <| svc_status := ServiceStatus.ACTIVE |> <| svc_suspensionInvoiceId := None |>
  end.
Definition optional_json (s : option string) : json :=
  match s with Some s => JStr s | None => JNull end.
Definition complete_tx (operationId : string) (action : AutomationAction)
    (payload : AutomationPayload) (account : PanelAccount) (now : Z) : Io unit :=
  let serviceId := pl_serviceId payload in
  count ← update_service_if serviceId (completes_from action payload)
            (completed_service action payload now);
  _ ← require (count =? 1) (JsError "SERVICE_STATE_CHANGED");
  _ ← match pl_cancellationId payload with
      | Some c => finishCancellation serviceId c now
      | None => mret tt
      end;
  _ ← update_operation operationId (λ r,
        r <| op_status := OperationStatus.SUCCEEDED |> <| op_completedAt := Some now |>
          <| op_resultMetadata := JObj [("account", account_json account)] |>);
  _ ← create_outbox "SERVICE" serviceId
        (match action with
         | SUSPEND => "EMAIL_SERVICE_SUSPENDED" | UNSUSPEND => "EMAIL_SERVICE_REACTIVATED" end)
        ("email:service:" ++ operationId)%string
        (JObj [("schemaVersion", JNum 1); ("serviceId", JStr serviceId)]);
  when (bool_decide (pl_cancellationId payload = None))
    (log_activity (MkActivityLog None
      (match action with
       | SUSPEND => "SERVICE_SUSPENDED_BY_RENEWAL_AUTOMATION"
       | UNSUSPEND => "SERVICE_UNSUSPENDED_AFTER_VERIFIED_PAYMENT" end)
      "SERVICE" (Some serviceId) (pl_automationRunId payload) None
      (JObj [("invoiceId", optional_json (pl_invoiceId payload));
             ("operationId", JStr operationId)]))).
Definition complete (operationId : string) (action : AutomationAction)
    (payload : AutomationPayload) (account : PanelAccount) : Io unit :=
  now ← new_date;
  transaction (complete_tx operationId action payload account now).
Definition completeSkipped (operationId : string) (action : AutomationAction)
    (payload : AutomationPayload) : Io unit :=
  now ← new_date;
  _ ← update_operation_if operationId is_running (λ r,
        r <| op_status := OperationStatus.SUCCEEDED |> <| op_completedAt := Some now |>
          <| op_resultMetadata := JObj ([("skipped", JStr "NO_LONGER_ELIGIBLE");
               ("action", JStr (match action with
                                | SUSPEND => "SUSPEND" | UNSUSPEND => "UNSUSPEND" end))] ++
               sourceMetadata payload) |>);
  mret tt.
Definition fail (operationId : string) (attemptNumber : Z) (kind : ErrorKind)
    (code : string) : Io unit :=
  now ← new_date;
  _ ← update_operation_if operationId is_running (λ r,
        r <| op_status := if kind ==b ErrorKind.INCONSISTENT
                          then OperationStatus.INCONSISTENT else OperationStatus.FAILED |>
          <| op_retryable := (kind ==b ErrorKind.TEMPORARY) &&
                             (attemptNumber <? MAX_AUTOMATION_ATTEMPTS) |>
          <| op_errorKind := Some kind |> <| op_errorCode := Some code |>
          <| op_errorMessage :=
               Some "The automated hosting-panel operation did not complete." |>
          <| op_completedAt := Some now |>);
  mret tt.
(** What an error of an attempt is taken for. *)
Definition normalized (panelMutationVerified : bool) (e : exn) : ErrorKind * string :=
  match e with
  | PanelAutomationError kind code => (kind, code)
  | _ => if panelMutationVerified
         then (ErrorKind.INCONSISTENT, "HOSTING_AUTOMATION_RESULT_UNKNOWN")
         else (ErrorKind.TEMPORARY, "HOSTING_AUTOMATION_TEMPORARILY_UNAVAILABLE")
  end.
Definition stop_attempt (operation : HostingPanelOperation) (verified : bool) (e : exn) : Io unit :=
  let '(kind, code) := normalized verified e in
  _ ← fail (op_id operation) (op_attemptNumber operation) kind code;
  throw (jobError kind code).
(** The panel's part of an attempt; [None] when it is no longer called for. *)
Definition change_panel (operationId : string) (action : AutomationAction)
    (payload : AutomationPayload) : Io (option PanelAccount) :=
  eligible_ ← eligible action payload;
  if negb eligible_ then _ ← completeSkipped operationId action payload; mret None
  else
    account ← mutatePanel action (pl_serviceId payload)
                (bool_decide (is_Some (pl_cancellationId payload)));
    _ ← require (Bool.eqb (pa_suspended account) (action ==b SUSPEND))
          (PanelAutomationError ErrorKind.INCONSISTENT "CPANEL_ACCOUNT_STATE_NOT_VERIFIED");
    mret (Some account).
Definition attempt_operation (operation : HostingPanelOperation) (action : AutomationAction)
    (payload : AutomationPayload) : Io unit :=
  changed ← reify (change_panel (op_id operation) action payload);
  match changed with
  | Err e => stop_attempt operation false e
  | Ok None => mret tt
  | Ok (Some account) =>
      done ← reify (complete (op_id operation) action payload account);
      match done with
      | Err e => stop_attempt operation true e
      | Ok _ => mret tt
      end
  end.

(** ** The job *)
Definition job_payload (data : BackgroundJobData) : Io AutomationPayload :=
  found ← read (λ d, outboxEvents d !! job_outboxEventId data);
  lift (of_option (cannot_process "HOSTING_AUTOMATION_OUTBOX_REFERENCE_INVALID")
    (event ← found;
     p ← (if String.eqb (job_eventType data) "HOSTING_CANCELLATION_SUSPENSION_REQUESTED"
          then hostingCancellationJobSchema else hostingAutomationPayloadSchema)
         (out_payload event);
     if (out_status event ==b OutboxStatus.PUBLISHED) &&
        String.eqb (out_eventType event) (job_eventType data) &&
        String.eqb (out_aggregateType event) "SERVICE" &&
        String.eqb (out_aggregateId event) (job_aggregateId data) &&
        String.eqb (pl_serviceId p) (job_aggregateId data)
     then Some p else None)).
(** An operation that is not RUNNING and not SUCCEEDED. *)
Definition previous_failure (operation : HostingPanelOperation) : exn :=
  if bool_decide (op_errorKind operation = Some ErrorKind.TEMPORARY) &&
     negb (op_retryable operation)
  then jobError ErrorKind.PERMANENT "HOSTING_AUTOMATION_RETRY_LIMIT"
  else jobError (default ErrorKind.PERMANENT (op_errorKind operation))
         (default "HOSTING_AUTOMATION_PREVIOUSLY_FAILED" (op_errorCode operation)).
Definition process_hosting (data : BackgroundJobData) : Io unit :=
  action ← lift (action_of (job_eventType data));
  payload ← job_payload data;
  prepared ← transaction (prepare_tx action payload (job_outboxEventId data));
  match prepared with
  | None => mret tt
  | Some (operation, fresh) =>
      match op_status operation with
      | OperationStatus.SUCCEEDED => mret tt
      | OperationStatus.RUNNING =>
          if fresh : bool then attempt_operation operation action payload
          else
            _ ← fail (op_id operation) (op_attemptNumber operation) ErrorKind.INCONSISTENT
                  "HOSTING_AUTOMATION_RESULT_UNKNOWN";
            throw (jobError ErrorKind.INCONSISTENT "HOSTING_AUTOMATION_RESULT_UNKNOWN")
      | OperationStatus.FAILED | OperationStatus.INCONSISTENT =>
          throw (previous_failure operation)
      end
  end.
End automation.
