(* ===== verification/HostingPanels.v ===== *)
(** * Hosting panels: the contract

    contracts/hosting-panels.ts, and of apps/api/src/modules/hosting-panels:
    hosting-panel.interface.ts, hosting-panel.error.ts, hosting-panel.registry.ts
    and cpanel-credential-cipher.ts.  A panel is a record of operations over a
    state [S]: the world of the database for the service that uses it, or a state
    of its own. *)
From S2P Require Import Prelude JsString JsDate Json Money States Database Invoices Payments Gateways GatewayAdapters Orders HostingServices HostingAutomation.

(** ** contracts *)
Module AccountState.
Inductive AccountState := ACTIVE | SUSPENDED | MISSING.
#[global] Instance AccountState_eq_dec : EqDecision AccountState.
Proof. solve_decision. Defined.
Definition to_string (s : AccountState) : string :=
  match s with ACTIVE => "ACTIVE" | SUSPENDED => "SUSPENDED" | MISSING => "MISSING" end.
Definition of_string (s : string) : option AccountState :=
  if String.eqb s "ACTIVE" then Some ACTIVE
  else if String.eqb s "SUSPENDED" then Some SUSPENDED
  else if String.eqb s "MISSING" then Some MISSING else None.
End AccountState.
Notation AccountState := AccountState.AccountState.

Record HostingAccount := MkHostingAccount
  { ha_externalAccountId : string; ha_username : string; ha_domain : string;
    ha_packageIdentifier : string; ha_state : AccountState }.
#[export] Instance HostingAccount_eq_dec : EqDecision HostingAccount.
Proof. solve_decision. Defined.
#[export] Instance HostingAccount_rebuild : Rebuild HostingAccount := λ a,
  MkHostingAccount (ha_externalAccountId a) (ha_username a) (ha_domain a)
    (ha_packageIdentifier a) (ha_state a).

Fixpoint last_char (s : string) : option ascii :=
  match s with
  | EmptyString => None
  | String c EmptyString => Some c
  | String _ t => last_char t
  end.
Definition label_char (c : ascii) : bool := is_digit c || is_lower c.
(** [[a-z0-9](?:[a-z0-9-]*[a-z0-9])?], of at most 63 characters. *)
Definition dns_label (s : string) : bool :=
  text 1 63 s && all_chars (λ c, label_char c || Ascii.eqb c "-") s &&
  match s with String c _ => label_char c | EmptyString => false end &&
  match last_char s with Some c => label_char c | None => false end.
Definition valid_domain (s : string) : bool :=
  (1 <? Z.of_nat (length (split_on "." s))) &&
  negb (bool_decide (last_char s = Some "."%char)) && forallb dns_label (split_on "." s).
Definition requestedDomainSchema : schema string :=
  z_refine valid_domain (z_refine (text 0 253) (z_map js_lower (z_map js_trim z_string))).
(** The pattern of cPanel hostnames. *)
Definition hostname_pattern (s : string) : bool :=
  text 1 253 s && (1 <? Z.of_nat (length (split_on "." s))) &&
  forallb dns_label (split_on "." s).

Definition hostingAccountSchema : schema HostingAccount := λ v,
  o ← z_strict_object ["externalAccountId"; "username"; "domain"; "packageIdentifier"; "state"] v;
  id ← z_text 1 191 (get "externalAccountId" o);
  username ← z_text 1 64 (get "username" o);
  domain ← requestedDomainSchema (get "domain" o);
  package ← z_text 1 191 (get "packageIdentifier" o);
  state ← z_string (get "state" o);
  state ← AccountState.of_string state;
  Some (MkHostingAccount id username domain package state).
Definition hosting_account_json (a : HostingAccount) : json :=
  JObj [("externalAccountId", JStr (ha_externalAccountId a));
        ("username", JStr (ha_username a)); ("domain", JStr (ha_domain a));
        ("packageIdentifier", JStr (ha_packageIdentifier a));
        ("state", JStr (AccountState.to_string (ha_state a)))].

Definition login_ports : list string := [""; "443"; "2083"].
Definition hostingPanelLoginUrlSchema `{ZodUrl} `{UrlParser} : schema string :=
  z_refine (λ s, zod_url s &&
    match parse_url s with
    | Some u => String.eqb (u_protocol u) "https:" && negb (truthy (u_username u)) &&
                negb (truthy (u_password u)) && existsb (String.eqb (u_port u)) login_ports
    | None => false
    end) z_string.

(** ** hosting-panel.interface.ts *)
Record HostingPanelConnection := MkConnection
  { pc_serverId : string; pc_hostname : string; pc_port : Z; pc_useTls : bool;
    pc_apiUsername : option string; pc_credential : option string }.
Record CreateHostingAccountInput := MkCreateAccount
  { ca_serviceReference : string; ca_domain : string; ca_packageIdentifier : string;
    ca_contactEmail : string; ca_idempotencyKey : string;
    ca_hostingProvisioningMode : option string }.
Record HostingAccountReference := MkReference
  { ar_externalAccountId : string; ar_username : string; ar_domain : string;
    ar_packageIdentifier : string }.
Record HostingPanelConnectionResult := MkConnectionResult
  { cr_providerVersion : string; cr_capabilities : list string }.
Record HostingAccountResult := MkAccountResult { hr_account : HostingAccount; hr_created : bool }.
Record HostingLoginResult := MkLogin { lr_url : string; lr_expiresAt : Z }.
Record HostingPanel (S : Type) := MkPanel
  { panel_key : string;
    testConnection : HostingPanelConnection → M S HostingPanelConnectionResult;
    createAccount : HostingPanelConnection → CreateHostingAccountInput →
                    M S HostingAccountResult;
    getAccount : HostingPanelConnection → HostingAccountReference → M S HostingAccount;
    suspendAccount : HostingPanelConnection → HostingAccountReference → string →
                     M S HostingAccount;
    unsuspendAccount : HostingPanelConnection → HostingAccountReference → M S HostingAccount;
    changePackage : HostingPanelConnection → HostingAccountReference → string →
                    M S HostingAccount;
    changePassword : HostingPanelConnection → HostingAccountReference → string →
                     M S HostingAccount;
    generateLoginUrl : HostingPanelConnection → HostingAccountReference →
                       M S HostingLoginResult;
    terminateAccount : HostingPanelConnection → HostingAccountReference → string → M S unit }.
Arguments panel_key {S} _.
Arguments testConnection {S} _ _.
Arguments createAccount {S} _ _ _.
Arguments getAccount {S} _ _ _.
Arguments suspendAccount {S} _ _ _ _.
Arguments unsuspendAccount {S} _ _ _.
Arguments changePackage {S} _ _ _ _.
Arguments changePassword {S} _ _ _ _.
Arguments generateLoginUrl {S} _ _ _.
Arguments terminateAccount {S} _ _ _ _.

(** ** hosting-panel.error.ts *)
Record PanelError := MkPanelError
  { perr_kind : ErrorKind; perr_code : string; perr_message : string }.
Definition panel_exn (e : PanelError) : exn :=
  HostingPanelProviderError (perr_kind e) (perr_code e) (perr_message e).
Definition normalizeHostingPanelError (e : exn) (mutationMayHaveSucceeded : bool)
    : PanelError :=
  match e with
  | HostingPanelProviderError kind code message => MkPanelError kind code message
  | _ =>
      if mutationMayHaveSucceeded
      then MkPanelError ErrorKind.INCONSISTENT "PANEL_RESULT_UNKNOWN"
             "The hosting panel result is unknown. Check the account before retrying."
      else MkPanelError ErrorKind.TEMPORARY "PANEL_TEMPORARILY_UNAVAILABLE"
             "The hosting panel is temporarily unavailable."
  end.
Definition panel_timeout (mutationMayHaveSucceeded : bool) : exn :=
  if mutationMayHaveSucceeded
  then HostingPanelProviderError ErrorKind.INCONSISTENT "PANEL_TIMEOUT"
    "The hosting panel timed out after accepting a mutation. Reconcile the account before retrying."
  else HostingPanelProviderError ErrorKind.TEMPORARY "PANEL_TIMEOUT"
    "The hosting panel timed out before returning a result.".
(** The race of a request against its timer, which fires first when the clock has
    passed the limit by the time the request settles. *)
Definition withHostingPanelTimeout {A} (task : Io A) (timeoutMilliseconds : Z)
    (mutationMayHaveSucceeded : bool) : Io A :=
  started ← new_date;
  outcome ← reify task;
  settled ← new_date;
  if timeoutMilliseconds <=? settled - started then throw (panel_timeout mutationMayHaveSucceeded)
  else match outcome with
       | Ok a => mret a
       | Err e => throw (panel_exn (normalizeHostingPanelError e mutationMayHaveSucceeded))
       end.

(** ** hosting-panel.registry.ts *)
Definition adapter_unavailable : exn :=
  HostingPanelProviderError ErrorKind.PERMANENT "PANEL_ADAPTER_UNAVAILABLE"
    "The server hosting-panel adapter is not available.".
Definition registry_get {S} (cpanelWhm fake : HostingPanel S) (production : bool)
    (adapterKey : string) : result (HostingPanel S) :=
  if String.eqb adapterKey (panel_key cpanelWhm) then Ok cpanelWhm
  else if String.eqb adapterKey (panel_key fake) && negb production then Ok fake
  else Err adapter_unavailable.

(** ** cpanel-credential-cipher.ts

    [encipher] and [decipher] are AES-256-GCM under the key of the environment
    with the server in the additional data; tags and ciphertexts in base64url. *)
Definition KEY_VERSION : string := "cpanel-token-v1".
Definition CIPHERTEXT_VERSION : string := "v1".
Definition stored_credential_unavailable : exn :=
  HostingPanelProviderError ErrorKind.PERMANENT "PANEL_CREDENTIAL_UNAVAILABLE"
    "The cPanel credential cannot be decrypted. Reconfigure the server token.".
Section cipher.
Context (random_iv : Io string) (encipher : string → string → string → string * string).
Context (decipher : string → string → string → string → option string).

Definition encrypt (serverId apiToken : string) : Io string :=
  iv ← random_iv;
  let '(tag, ciphertext) := encipher serverId iv apiToken in
  mret (CIPHERTEXT_VERSION ++ "." ++ iv ++ "." ++ tag ++ "." ++ ciphertext)%string.
Definition decrypt (serverId keyVersion encrypted : string) : result string :=
  _ ← throw_unless (String.eqb keyVersion KEY_VERSION) stored_credential_unavailable;
  match split_on "." encrypted with
  | [version; iv; tag; ciphertext] =>
      _ ← throw_unless (String.eqb version CIPHERTEXT_VERSION && truthy iv && truthy tag &&
                        truthy ciphertext) stored_credential_unavailable;
      of_option stored_credential_unavailable (decipher serverId iv tag ciphertext)
  | _ => Err stored_credential_unavailable
  end.
End cipher.
