(* ===== verification/CpanelAdapter.v ===== *)
(** * The cPanel/WHM adapter

    cpanel-whm-http.client.ts and cpanel-whm.hosting-panel.ts: requests to the WHM
    API and what their answers mean, over any state [S] on which requests act.
    [fetch] sends one request and [lookup] resolves a name, none when they fail;
    [ip_family] is node's [isIP], [parse_json] is [JSON.parse]; [number_ms] is
    [Number(s) * 1000] of a text as a time value, none when it is not finite. *)
From S2P Require Import Prelude JsString JsDate Json Money States Database Invoices Payments Gateways GatewayAdapters Orders HostingServices HostingAutomation HostingPanels.

(** ** Public addresses *)
Definition decimal_text (s : string) : bool := truthy s && all_chars is_digit s.
(** [Number] of a part of an address: none for NaN. *)
Definition octet (s : string) : option Z :=
  if decimal_text s then Some (string_to_Z s) else None.
Definition octet_is (p : Z → bool) (o : option Z) : bool :=
  match o with Some n => p n | None => false end.
Definition any_of (l : list Z) (n : Z) : bool := existsb (Z.eqb n) l.
Definition isPublicIpv4 (address : string) : bool :=
  match octet <$> split_on "." address with
  | [first; second; _; _] =>
      let eq n := octet_is (Z.eqb n) in
      negb (eq 0 first || eq 10 first || eq 127 first ||
            (eq 100 first && octet_is (λ n, (64 <=? n) && (n <=? 127)) second) ||
            (eq 169 first && eq 254 second) ||
            (eq 172 first && octet_is (λ n, (16 <=? n) && (n <=? 31)) second) ||
            (eq 192 first && octet_is (any_of [0; 88; 168]) second) ||
            (eq 198 first && octet_is (any_of [18; 19; 51]) second) ||
            (eq 203 first && eq 0 second) || octet_is (λ n, 224 <=? n) first)
  | _ => false
  end.
(** [^fe[89ab]]. *)
Definition link_local (s : string) : bool :=
  existsb (λ p, String.prefix p s) ["fe8"; "fe9"; "fea"; "feb"].
Definition isPublicAddress (ip_family : string → Z) (address : string) : bool :=
  let family := ip_family address in
  if family =? 4 then isPublicIpv4 address
  else if negb (family =? 6) then false
  else
    let normalized := js_lower address in
    if String.prefix "::ffff:" normalized
    then isPublicIpv4 (String.substring 7 (String.length normalized) normalized)
    else negb (String.eqb normalized "::" || String.eqb normalized "::1" ||
               String.prefix "fc" normalized || String.prefix "fd" normalized ||
               link_local normalized || String.prefix "ff" normalized ||
               String.prefix "2001:db8:" normalized).

(** An outside call on the state, as a computation that does not throw. *)
Definition ask {S A} (f : S → A * S) : M S A := λ s, let '(a, s') := f s in (Ok a, s').

(** ** Requests and answers *)
Record PanelRequest := MkPanelRequest
  { pq_hostname : string; pq_port : Z; pq_function : string; pq_version : bool;
    pq_parameters : list (string * string); pq_authorization : string }.
(** The status, the declared length when it is a number, and the body unless
    reading it fails. *)
Record PanelResponse := MkPanelResponse
  { ps_status : Z; ps_length : option Z; ps_text : option string }.
Record WhmApiEnvelope := MkEnvelope
  { we_success : bool; we_reason : option string; we_version : option string; we_data : json }.
Definition MAX_RESPONSE_BYTES : Z := 1048576.
(** [z.union([z.literal(0), z.literal(1), z.literal('0'), z.literal('1')])]:
    whether it is one of the ones. *)
Definition result_literal (v : json) : option bool :=
  match v with
  | JNum n => if n =? 0 then Some false else if n =? 1 then Some true else None
  | JStr s => if String.eqb s "0" then Some false
              else if String.eqb s "1" then Some true else None
  | _ => None
  end.
Definition whmEnvelopeSchema : schema WhmApiEnvelope := λ v,
  o ← z_object v;
  m ← z_object (get "metadata" o);
  _ ← z_optional z_string (get "command" m);
  reason ← z_optional z_string (get "reason" m);
  success ← result_literal (get "result" m);
  version ← z_optional z_number_text (get "version" m);
  Some (MkEnvelope success reason version (get "data" o)).
Definition literal (s : string) : schema string := z_refine (String.eqb s) z_string.
(** The answer of the one request that reads mail routing. *)
Definition mail_schema : schema WhmApiEnvelope := λ v,
  o ← z_object v;
  r ← z_object (get "cpanelresult" o);
  _ ← z_refine (Z.eqb 2) z_int (get "apiversion" r);
  _ ← literal "Email" (get "module" r);
  _ ← literal "getalwaysaccept" (get "func" r);
  event ← z_object (get "event" r);
  success ← match get "result" event with JNum n => result_literal (JNum n) | _ => None end;
  Some (MkEnvelope success None None (get "data" r)).

Definition transportFailure (mutation : bool) : exn :=
  if mutation
  then HostingPanelProviderError ErrorKind.INCONSISTENT "CPANEL_RESULT_UNKNOWN"
    "The cPanel/WHM mutation result is unknown. Reconcile the account before retrying."
  else HostingPanelProviderError ErrorKind.TEMPORARY "CPANEL_TEMPORARILY_UNAVAILABLE"
    "cPanel/WHM is temporarily unavailable.".
Definition invalidResponse (mutation : bool) : exn :=
  if mutation
  then HostingPanelProviderError ErrorKind.INCONSISTENT "CPANEL_RESPONSE_INVALID"
    "cPanel/WHM returned an invalid mutation response. Reconcile the account before retrying."
  else HostingPanelProviderError ErrorKind.TEMPORARY "CPANEL_RESPONSE_INVALID"
    "cPanel/WHM returned an invalid response.".
Definition permanent (code message : string) : exn :=
  HostingPanelProviderError ErrorKind.PERMANENT code message.
Definition account_inconsistent (message : string) : exn :=
  HostingPanelProviderError ErrorKind.INCONSISTENT "CPANEL_ACCOUNT_INCONSISTENT" message.
Definition parameter (k : string) (l : list (string * string)) : option string :=
  snd <$> List.find (λ kv, String.eqb k kv.1) l.
(** The parameters of the request that reads mail routing. *)
Definition exact_mail_read (mutation : bool) (parameters : list (string * string)) : bool :=
  negb mutation &&
  bool_decide (parameter "cpanel_jsonapi_apiversion" parameters = Some "2") &&
  bool_decide (parameter "cpanel_jsonapi_module" parameters = Some "Email") &&
  bool_decide (parameter "cpanel_jsonapi_func" parameters = Some "getalwaysaccept") &&
  negb (absent (parameter "cpanel_jsonapi_user" parameters)) &&
  negb (absent (parameter "domain" parameters)) &&
  bool_decide (length parameters = 5%nat).
Definition validateConnection (c : HostingPanelConnection) : bool :=
  pc_useTls c && ((pc_port c =? 2087) || (pc_port c =? 443)) &&
  hostname_pattern (js_lower (pc_hostname c)) &&
  negb (absent (pc_apiUsername c)) && api_username_ok (default "" (pc_apiUsername c)) &&
  negb (absent (pc_credential c)) && negb (hasControlCharacters (default "" (pc_credential c))).

Section client.
Context {S : Type} (fetch : PanelRequest → S → option PanelResponse * S).
Context (lookup : string → S → option (list string) * S) (ip_family : string → Z).
Context (parse_json : string → option json).

Definition validatePublicResolution (hostname : string) (mutation : bool) : M S unit :=
  found ← ask (lookup hostname);
  addresses ← lift (of_option (transportFailure mutation) found);
  require (negb (bool_decide (addresses = [])) && forallb (isPublicAddress ip_family) addresses)
    (permanent "CPANEL_CONFIGURATION_INVALID"
       "The cPanel/WHM hostname must resolve only to public network addresses.").
Definition read_response (mailRead mutation : bool) (response : option PanelResponse)
    : result WhmApiEnvelope :=
  r ← of_option (transportFailure mutation) response;
  if (ps_status r <? 200) || (299 <? ps_status r) then
    if (ps_status r =? 401) || (ps_status r =? 403)
    then Err (permanent "CPANEL_AUTHENTICATION_FAILED"
                "cPanel/WHM rejected the configured API token or privileges.")
    else if (ps_status r =? 429) || (500 <=? ps_status r) then Err (transportFailure mutation)
    else Err (permanent "CPANEL_REQUEST_REJECTED" "cPanel/WHM rejected the API request.")
  else
    _ ← throw_unless (match ps_length r with
                      | Some n => n <=? MAX_RESPONSE_BYTES | None => true end)
          (invalidResponse mutation);
    text ← of_option (transportFailure mutation) (ps_text r);
    _ ← throw_unless (utf8_length text <=? MAX_RESPONSE_BYTES) (invalidResponse mutation);
    of_option (invalidResponse mutation)
      (body ← parse_json text;
       if mailRead : bool then mail_schema body else whmEnvelopeSchema body).
Definition call (connection : HostingPanelConnection) (functionName : string)
    (parameters : list (string * string)) (mutation : bool) : M S WhmApiEnvelope :=
  let mailRead := String.eqb functionName "cpanel" in
  _ ← require (negb mailRead || exact_mail_read mutation parameters)
        (permanent "CPANEL_REQUEST_REJECTED" "Only the exact mail-routing read is supported.");
  _ ← require (validateConnection connection)
        (permanent "CPANEL_CONFIGURATION_INVALID"
           "The cPanel/WHM server requires HTTPS, an approved WHM port, and an API token.");
  _ ← validatePublicResolution (pc_hostname connection) mutation;
  response ← ask (fetch (MkPanelRequest (pc_hostname connection) (pc_port connection)
                           functionName (negb mailRead) parameters
                           ("whm " ++ default "" (pc_apiUsername connection) ++ ":" ++
                            default "" (pc_credential connection))%string));
  lift (read_response mailRead mutation response).
End client.

(** ** cpanel-whm.hosting-panel.ts *)
Record SummaryAccount := MkSummary
  { sa_user : string; sa_domain : string; sa_plan : string; sa_suspended : bool }.
(** [suspended]: a boolean, a text or a number; and [isSuspended] of it. *)
Definition suspended_flag (v : json) : option bool :=
  match v with
  | JUndefined => Some false
  | JBool b => Some b
  | JNum n => Some (n =? 1)
  | JFrac _ => Some false
  | JStr s => Some (String.eqb s "1")
  | _ => None
  end.
Definition summary_account : schema SummaryAccount := λ v,
  o ← z_object v;
  user ← z_number_text (get "user" o);
  domain ← z_number_text (get "domain" o);
  plan ← z_number_text (get "plan" o);
  suspended ← suspended_flag (get "suspended" o);
  Some (MkSummary user domain plan suspended).
Definition accountSummaryDataSchema : schema (list SummaryAccount) := λ v,
  o ← z_object v; z_array summary_account (get "acct" o).
Definition accountCountDataSchema : schema string := λ v,
  o ← z_object v; z_number_text (get "users" o).
(** The address of a session and its expiry, a number or a text. *)
Definition loginDataSchema `{ZodUrl} : schema (string * json) := λ v,
  o ← z_object v;
  _ ← z_number_text (get "expires" o);
  _ ← literal "cpaneld" (get "service" o);
  url ← z_refine zod_url z_string (get "url" o);
  Some (url, get "expires" o).
(** A row of the mail-routing answer that is routed elsewhere: its domain. *)
Definition remote_mail_row : schema string := λ v,
  o ← z_object v;
  domain ← z_string (get "domain" o);
  _ ← literal "remote" (get "mxcheck" o);
  _ ← match get "alwaysaccept" o with
      | JNum n => if n =? 0 then Some tt else None
      | JStr s => if String.eqb s "0" then Some tt else None
      | JBool b => if b then None else Some tt
      | _ => None
      end;
  Some domain.
Definition remote_mail_rows : schema string := λ v,
  match z_array remote_mail_row v with Some [domain] => Some domain | _ => None end.
Definition CAPABILITIES : list string :=
  ["accountsummary"; "createacct"; "suspendacct"; "unsuspendacct"; "changepackage"; "passwd";
   "create_user_session"; "removeacct"].
(** [/account.*(?:does not exist|not found)|no account/i]. *)
Fixpoint suffixes (s : string) : list string :=
  s :: match s with EmptyString => [] | String _ t => suffixes t end.
Definition occurs (p s : string) : bool := existsb (String.prefix p) (suffixes s).
Fixpoint first_line (s : string) : string :=
  match s with
  | EmptyString => ""
  | String c t =>
      if Ascii.eqb c "010" || Ascii.eqb c "013" then "" else String c (first_line t)
  end.
Definition no_such_account (reason : string) : bool :=
  let s := js_lower reason in
  existsb (λ t, String.prefix "account" t &&
             let rest := first_line (String.substring 7 (String.length t) t) in
             occurs "does not exist" rest || occurs "not found" rest) (suffixes s) ||
  occurs "no account" s.
Definition is_inconsistent (e : exn) : bool :=
  match e with
  | HostingPanelProviderError kind _ _ => bool_decide (kind = ErrorKind.INCONSISTENT)
  | _ => false
  end.
Definition not_remote : exn := account_inconsistent
  "The account mail routing could not be verified as remote. Reconcile it before retrying; no mail routing was changed by verification.".
Definition preserves (input : CreateHostingAccountInput) : bool :=
  bool_decide (ca_hostingProvisioningMode input = Some "PRESERVE_EXISTING").

Section panel.
Context `{ZodUrl} `{UrlParser} `{Sha256} {S : Type}.
Context (fetch : PanelRequest → S → option PanelResponse * S).
Context (lookup : string → S → option (list string) * S) (ip_family : string → Z).
Context (parse_json : string → option json) (number_ms : string → option Z).

Definition http_call : HostingPanelConnection → string → list (string * string) → bool →
    M S WhmApiEnvelope := call fetch lookup ip_family parse_json.
Definition assertSuccess (response : WhmApiEnvelope) (mutation : bool) : M S unit :=
  require (we_success response)
    (if mutation
     then permanent "CPANEL_OPERATION_REJECTED"
            "cPanel/WHM rejected the requested account mutation."
     else HostingPanelProviderError ErrorKind.TEMPORARY "CPANEL_OPERATION_REJECTED"
            "cPanel/WHM could not complete the requested query.").
Definition summary_to_account (a : SummaryAccount) : HostingAccount :=
  MkHostingAccount (sa_user a) (sa_user a) (js_lower (sa_domain a)) (sa_plan a)
    (if sa_suspended a then AccountState.SUSPENDED else AccountState.ACTIVE).
Definition lookupAccount (connection : HostingPanelConnection) (query : string * string)
    : M S (option HostingAccount) :=
  response ← http_call connection "accountsummary" [query] false;
  if negb (we_success response) && no_such_account (default "" (we_reason response))
  then mret None
  else
    _ ← assertSuccess response false;
    accounts ← lift (of_option (invalidResponse false)
                       (accountSummaryDataSchema (we_data response)));
    mret (summary_to_account <$> head accounts).
Definition cpanel_testConnection (connection : HostingPanelConnection)
    : M S HostingPanelConnectionResult :=
  response ← http_call connection "get_current_users_count" [] false;
  _ ← assertSuccess response false;
  _ ← lift (of_option (invalidResponse false) (accountCountDataSchema (we_data response)));
  mret (MkConnectionResult ("WHM API " ++ default "1" (we_version response))%string CAPABILITIES).
Definition usernameFor (serviceReference : string) : string :=
  ("w" ++ String.substring 0 15 (sha256_hex serviceReference))%string.
Definition assertExactAccount (account : HostingAccount)
    (username domain packageIdentifier : string) : M S unit :=
  require (String.eqb (ha_username account) username &&
           String.eqb (ha_externalAccountId account) username &&
           String.eqb (ha_domain account) (js_lower domain) &&
           String.eqb (ha_packageIdentifier account) packageIdentifier)
    (account_inconsistent "The existing cPanel account does not match the requested service.").
Definition verifyRemoteMail (connection : HostingPanelConnection) (account : HostingAccount)
    : M S unit :=
  catch
    (answer ← http_call connection "cpanel"
       [("cpanel_jsonapi_user", ha_username account); ("cpanel_jsonapi_apiversion", "2");
        ("cpanel_jsonapi_module", "Email"); ("cpanel_jsonapi_func", "getalwaysaccept");
        ("domain", ha_domain account)] false;
     _ ← assertSuccess answer false;
     domain ← lift (of_option ZodError (remote_mail_rows (we_data answer)));
     require (String.eqb domain (ha_domain account)) (JsError "Domain mismatch"))
    (λ _, throw not_remote).
Definition verifyMutation (connection : HostingPanelConnection) (username : string)
    : M S HostingAccount :=
  catch
    (account ← lookupAccount connection ("user", username);
     lift (of_option (account_inconsistent
             "The cPanel account was not found after a successful mutation.") account))
    (λ e, if is_inconsistent e then throw e
          else throw (account_inconsistent
                 "The cPanel/WHM mutation result could not be verified.")).
Definition cpanel_createAccount (connection : HostingPanelConnection)
    (input : CreateHostingAccountInput) : M S HostingAccountResult :=
  let username := usernameFor (ca_serviceReference input) in
  let exact account :=
    assertExactAccount account username (ca_domain input) (ca_packageIdentifier input) in
  existingByUsername ← lookupAccount connection ("user", username);
  match existingByUsername with
  | Some existing =>
      _ ← exact existing;
      _ ← when (preserves input) (verifyRemoteMail connection existing);
      mret (MkAccountResult existing false)
  | None =>
      existingByDomain ← lookupAccount connection ("domain", ca_domain input);
      _ ← require (bool_decide (existingByDomain = None))
            (account_inconsistent "The domain already belongs to a different cPanel account.");
      response ← http_call connection "createacct"
        ([("username", username); ("domain", ca_domain input);
          ("plan", ca_packageIdentifier input); ("contactemail", ca_contactEmail input);
          ("showpass", "n"); ("forcedns", "0")] ++
         (if preserves input then [("mxcheck", "remote")] else [])) true;
      _ ← assertSuccess response true;
      account ← verifyMutation connection username;
      _ ← exact account;
      _ ← when (preserves input) (verifyRemoteMail connection account);
      mret (MkAccountResult account true)
  end.
Definition cpanel_getAccount (connection : HostingPanelConnection)
    (reference : HostingAccountReference) : M S HostingAccount :=
  account ← lookupAccount connection ("user", ar_username reference);
  mret (default (MkHostingAccount (ar_externalAccountId reference) (ar_username reference)
                   (ar_domain reference) (ar_packageIdentifier reference)
                   AccountState.MISSING) account).
Definition mutate (connection : HostingPanelConnection) (functionName : string)
    (parameters : list (string * string)) : M S unit :=
  response ← http_call connection functionName parameters true;
  assertSuccess response true.
Definition cpanel_suspendAccount (connection : HostingPanelConnection)
    (reference : HostingAccountReference) (reason : string) : M S HostingAccount :=
  _ ← mutate connection "suspendacct"
        [("user", ar_username reference); ("reason", String.substring 0 255 reason);
         ("disallowun", "0"); ("leave-ftp-accts-enabled", "0")];
  verifyMutation connection (ar_username reference).
Definition cpanel_unsuspendAccount (connection : HostingPanelConnection)
    (reference : HostingAccountReference) : M S HostingAccount :=
  _ ← mutate connection "unsuspendacct"
        [("user", ar_username reference); ("retain-service-proxies", "0")];
  verifyMutation connection (ar_username reference).
Definition cpanel_changePackage (connection : HostingPanelConnection)
    (reference : HostingAccountReference) (packageIdentifier : string) : M S HostingAccount :=
  _ ← mutate connection "changepackage"
        [("user", ar_username reference); ("pkg", packageIdentifier)];
  verifyMutation connection (ar_username reference).
Definition cpanel_changePassword (connection : HostingPanelConnection)
    (reference : HostingAccountReference) (newPassword : string) : M S HostingAccount :=
  _ ← mutate connection "passwd"
        [("user", ar_username reference); ("password", newPassword); ("db_pass_update", "0")];
  verifyMutation connection (ar_username reference).
(** [new Date(Number(data.expires) * 1_000)]. *)
Definition expiry (v : json) : option Z :=
  match v with
  | JNum n => time_clip (n * 1000)
  | JFrac s | JStr s => t ← number_ms s; time_clip t
  | _ => None
  end.
Definition cpanel_generateLoginUrl (connection : HostingPanelConnection)
    (reference : HostingAccountReference) : M S HostingLoginResult :=
  response ← http_call connection "create_user_session"
    [("user", ar_username reference); ("service", "cpaneld");
     ("preferred_domain", pc_hostname connection)] false;
  _ ← assertSuccess response false;
  '(address, expires) ← lift (of_option (invalidResponse false)
                                (loginDataSchema (we_data response)));
  url ← lift (of_option (JsError "Invalid URL") (parse_url address));
  _ ← require (String.eqb (js_lower (u_hostname url)) (js_lower (pc_hostname connection)) &&
               String.eqb (u_protocol url) "https:" &&
               existsb (String.eqb (u_port url)) login_ports &&
               negb (truthy (u_username url)) && negb (truthy (u_password url)))
        (account_inconsistent "cPanel/WHM returned a login URL for an unexpected hostname.");
  expiresAt ← lift (of_option (account_inconsistent
                      "cPanel/WHM returned an invalid login-session expiry.") (expiry expires));
  mret (MkLogin address expiresAt).
Definition cpanel_terminateAccount (connection : HostingPanelConnection)
    (reference : HostingAccountReference) (reason : string) : M S unit :=
  _ ← mutate connection "removeacct" [("user", ar_username reference)];
  catch
    (remaining ← lookupAccount connection ("user", ar_username reference);
     require (bool_decide (remaining = None))
       (account_inconsistent "cPanel/WHM still returns the account after termination."))
    (λ e, if is_inconsistent e then throw e
          else throw (account_inconsistent
                 "The cPanel/WHM termination result could not be verified.")).
Definition CpanelWhmHostingPanel : HostingPanel S :=
  MkPanel S "cpanel-whm" cpanel_testConnection cpanel_createAccount cpanel_getAccount
    cpanel_suspendAccount cpanel_unsuspendAccount cpanel_changePackage cpanel_changePassword
    cpanel_generateLoginUrl cpanel_terminateAccount.
End panel.
