(* ===== verification/DomainContracts.v ===== *)
(** * The contracts of domains

    packages/shared/src/contracts: domains.ts, domain-administration.ts and
    domain-inventory.ts.  A schema that reads a value into a record is a [schema];
    one that only checks a view the API has built is a predicate on the view. *)
From S2P Require Import Prelude JsString JsDate Json Money States Database Invoices Payments Gateways GatewayAdapters Orders HostingServices HostingAutomation HostingPanels.

(** [z.iso.datetime()] of the Zod package: no offsets. *)
Class ZodIso := zod_iso : string → bool.

Definition isSome {A} (o : option A) : bool :=
  match o with Some _ => true | None => false end.

(** ** Schemas of single values *)
Definition z_enum (names : list string) : schema string :=
  z_refine (λ s, existsb (String.eqb s) names) z_string.
Definition z_literal (s : string) : schema string := z_enum [s].
Definition z_true : schema unit := λ v, match v with JBool true => Some tt | _ => None end.
Definition z_between (lo hi : Z) : schema Z := z_refine (λ n, (lo <=? n) && (n <=? hi)) z_int.
Definition z_positive : schema Z := z_refine (λ n, 0 <? n) z_int.
Definition z_sized_array {A} (lo hi : Z) (s : schema A) : schema (list A) :=
  z_refine (λ l, (lo <=? Z.of_nat (length l)) && (Z.of_nat (length l) <=? hi)) (z_array s).
(** [[1-9][0-9]{0,hi}] and [0|[1-9][0-9]{0,18}]. *)
Definition positive_digits (hi : Z) (s : string) : bool :=
  positive_decimal s && (slen s <=? hi + 1).
Definition z_identifier : schema string := z_refine (positive_digits 18) z_string.
Definition z_amount : schema string :=
  z_refine (λ s, canonical_decimal s && (slen s <=? 19)) z_string.
Definition is_hex (c : ascii) : bool := is_digit c || in_range "a" "f" c.
Definition hex64 (s : string) : bool := (slen s =? 64) && all_chars is_hex s.
Definition distinct (l : list string) : bool := bool_decide (NoDup l).

(** ** Domain names *)
Definition tld_label (s : string) : bool := text 2 63 s && all_chars is_lower s.
Definition domainExtensionSchema : schema string :=
  z_refine (λ s, forallb tld_label (split_on "." s))
    (z_refine (text 0 50) (z_map js_lower (z_map js_trim z_string))).
(** [name.slice(name.indexOf('.') + 1)]. *)
Definition after_dot (name : string) : string :=
  match split_at "." name with Some (_, rest) => rest | None => name end.
Definition before_dot (name : string) : string :=
  match split_at "." name with Some (label, _) => label | None => "" end.
Definition domain_pattern (s : string) : bool :=
  negb (String.prefix "xn--" s) &&
  match split_on "." s with
  | label :: (_ :: _) as extension => dns_label label && forallb tld_label (tail extension)
  | _ => false
  end.
Definition domainNameSchema : schema string :=
  z_refine (λ s, isSome (domainExtensionSchema (JStr (after_dot s))))
    (z_refine domain_pattern (z_refine (text 0 253) (z_map js_lower (z_map js_trim z_string)))).
Definition domainExtension (name : string) : result string :=
  canonical ← parse domainNameSchema (JStr name); Ok (after_dot canonical).

(** Host names of name servers; reserved names are refused. *)
Definition ends_with (suffix s : string) : bool :=
  String.prefix (string_of_list_ascii (rev (list_ascii_of_string suffix)))
    (string_of_list_ascii (rev (list_ascii_of_string s))).
Definition nameserver_pattern (s : string) : bool :=
  match rev (split_on "." s) with
  | tld :: (_ :: _) as labels => tld_label tld && forallb dns_label (tail labels)
  | _ => false
  end.
Definition reserved_name (s : string) : bool :=
  existsb (λ suffix, ends_with suffix s) [".test"; ".localhost"; ".invalid"; ".example"].
Definition nameserver : schema string :=
  z_refine (λ s, negb (reserved_name s))
    (z_refine nameserver_pattern
       (z_refine (text 0 253) (z_map js_lower (z_map js_trim z_string)))).
Definition registrarNameserversSchema : schema (list string) :=
  z_refine distinct (z_sized_array 2 5 nameserver).
Definition fictionalNameservers : list string := ["ns1.example.test"; "ns2.example.test"].
(** [z.union([fictionalNameservers, registrarNameserversSchema])]. *)
Definition z_nameservers : schema (list string) := λ v,
  match z_array z_string v with
  | Some l => if bool_decide (l = fictionalNameservers) then Some l
              else registrarNameserversSchema v
  | None => None
  end.
Definition names_json (l : list string) : json := JArr (JStr <$> l).

(** ** Contacts *)
Record DomainContact := MkContact
  { dc_name : string; dc_company : string; dc_address : string;
    dc_addressLine2 : option string; dc_city : string; dc_region : string;
    dc_postalCode : string; dc_country : string; dc_email : string;
    dc_phoneCountryCode : string; dc_phone : string; dc_publishOrganization : option bool }.
#[export] Instance DomainContact_eq_dec : EqDecision DomainContact.
Proof. solve_decision. Defined.
Definition opt_field (k : string) (v : option json) : list (string * json) :=
  match v with Some v => [(k, v)] | None => [] end.
(** The parsed object: its properties in the order of the schema. *)
Definition contact_json (c : DomainContact) : json :=
  JObj ([("name", JStr (dc_name c)); ("company", JStr (dc_company c));
         ("address", JStr (dc_address c))] ++
        opt_field "addressLine2" (JStr <$> dc_addressLine2 c) ++
        [("city", JStr (dc_city c)); ("region", JStr (dc_region c));
         ("postalCode", JStr (dc_postalCode c)); ("country", JStr (dc_country c));
         ("email", JStr (dc_email c)); ("phoneCountryCode", JStr (dc_phoneCountryCode c));
         ("phone", JStr (dc_phone c))] ++
        opt_field "publishOrganization" (JBool <$> dc_publishOrganization c)).
Definition contact_keys : list string :=
  ["name"; "company"; "address"; "addressLine2"; "city"; "region"; "postalCode"; "country";
   "email"; "phoneCountryCode"; "phone"; "publishOrganization"].
Definition contact_text : schema string := trimmed 1 160.

Section contracts.
Context `{ZodFormats} `{ZodUrl} `{UrlParser} `{ZodIso}.

(** The contact schemas differ in what they ask of six fields. *)
Record ContactLimits := MkContactLimits
  { cl_address : Z; cl_postalCode : Z; cl_countryCode : Z; cl_phoneMin : Z; cl_phoneMax : Z }.
Definition contact_schema (k : ContactLimits) : schema DomainContact := λ v,
  o ← z_strict_object contact_keys v;
  name ← contact_text (get "name" o);
  company ← contact_text (get "company" o);
  address ← trimmed 1 (cl_address k) (get "address" o);
  line2 ← z_optional (trimmed 0 64) (get "addressLine2" o);
  city ← trimmed 1 (cl_address k) (get "city" o);
  region ← trimmed 1 (cl_address k) (get "region" o);
  postal ← trimmed 1 (cl_postalCode k) (get "postalCode" o);
  country ← z_refine country_code z_string (get "country" o);
  email ← z_refine (λ s, zod_email s && (slen s <=? 320)) z_string (get "email" o);
  prefix_ ← z_refine (positive_digits (cl_countryCode k)) z_string (get "phoneCountryCode" o);
  phone ← z_refine (λ s, text (cl_phoneMin k) (cl_phoneMax k) s && all_chars is_digit s)
            z_string (get "phone" o);
  publish ← z_optional z_bool (get "publishOrganization" o);
  Some (MkContact name company address line2 city region postal country email prefix_ phone
          publish).
Definition domainContactSchema : schema DomainContact :=
  contact_schema (MkContactLimits 160 160 3 5 15).
(** Ordinary Contact constraints. *)
Definition resellbizContactSchema : schema DomainContact :=
  contact_schema (MkContactLimits 64 10 2 4 12).

(** ** Quotes and purchases *)
Definition z_uuid : schema string := z_refine zod_uuid z_string.
Definition agreements : list string := ["fictional-registration-v1"; "resellbiz-registration-v1"].
Record DomainQuoteRequest := MkQuoteRequest
  { qr_offerId : string; qr_domainName : string; qr_contact : DomainContact;
    qr_agreement : string; qr_customerPolicyConsent : bool;
    qr_selectionConsentRevision : option string }.
(** The fields the two quote requests share. *)
Definition quote_fields (o : list (string * json)) : option DomainQuoteRequest :=
  offer ← z_uuid (get "offerId" o);
  name ← domainNameSchema (get "domainName" o);
  contact ← domainContactSchema (get "contact" o);
  agreement ← z_enum agreements (get "agreement" o);
  policy ← z_optional z_true (get "customerPolicyConsent" o);
  revision ← z_optional (z_refine hex64 z_string) (get "selectionConsentRevision" o);
  Some (MkQuoteRequest offer name contact agreement (isSome policy) revision).
Definition quote_keys : list string :=
  ["offerId"; "domainName"; "contact"; "agreement"; "customerPolicyConsent";
   "selectionConsentRevision"].
Definition domainQuoteRequestSchema : schema DomainQuoteRequest := λ v,
  o ← z_strict_object ("consent" :: quote_keys) v;
  _ ← z_true (get "consent" o);
  quote_fields o.
Record OfflineConsent := MkOfflineConsent
  { oc_method : string; oc_reference : string; oc_consentedAt : string }.
Definition consent_methods : list string := ["PHONE"; "IN_PERSON"; "WRITTEN"].
Definition offline_consent : schema OfflineConsent := λ v,
  o ← z_strict_object ["method"; "reference"; "consentedAt"; "attestation"] v;
  method ← z_enum consent_methods (get "method" o);
  reference ← trimmed 3 160 (get "reference" o);
  at_ ← z_refine zod_iso z_string (get "consentedAt" o);
  _ ← z_true (get "attestation" o);
  Some (MkOfflineConsent method reference at_).
Record AdminDomainQuoteRequest := MkAdminQuoteRequest
  { aq_quote : DomainQuoteRequest; aq_customerId : string; aq_offlineConsent : OfflineConsent }.
Definition adminDomainQuoteRequestSchema : schema AdminDomainQuoteRequest := λ v,
  o ← z_strict_object ("customerId" :: "offlineConsent" :: quote_keys) v;
  q ← quote_fields o;
  customer ← z_uuid (get "customerId" o);
  consent ← offline_consent (get "offlineConsent" o);
  Some (MkAdminQuoteRequest q customer consent).
Record DomainPurchaseRequest := MkPurchaseRequest
  { pq_quoteId : string; pq_submissionKey : string; pq_acceptedTermsVersion : option string }.
Definition domainPurchaseRequestSchema : schema DomainPurchaseRequest := λ v,
  o ← z_strict_object ["quoteId"; "submissionKey"; "acceptedTermsVersion"] v;
  quote ← z_uuid (get "quoteId" o);
  key ← z_uuid (get "submissionKey" o);
  terms ← z_optional z_uuid (get "acceptedTermsVersion" o);
  Some (MkPurchaseRequest quote key terms).
Definition adminDomainPurchaseRequestSchema : schema (DomainPurchaseRequest * string) := λ v,
  o ← z_strict_object ["quoteId"; "submissionKey"; "customerId"] v;
  quote ← z_uuid (get "quoteId" o);
  key ← z_uuid (get "submissionKey" o);
  customer ← z_uuid (get "customerId" o);
  Some (MkPurchaseRequest quote key None, customer).
(** The evidence stored with a quote; its check when it is read. *)
Definition adminOfflineConsentEvidenceSchema : schema OfflineConsent := λ v,
  o ← z_strict_object ["method"; "reference"; "consentedAt"; "recordedAt"; "recordedBy"] v;
  method ← z_enum consent_methods (get "method" o);
  reference ← sized 3 160 (get "reference" o);
  at_ ← z_refine zod_iso z_string (get "consentedAt" o);
  _ ← z_refine zod_iso z_string (get "recordedAt" o);
  _ ← z_uuid (get "recordedBy" o);
  Some (MkOfflineConsent method reference at_).
Record DomainApprovalRequest := MkApprovalRequest
  { ap_confirmation : string; ap_costCeiling : Z; ap_acceptPriceChangeRisk : bool;
    ap_registrarAccountId : option string }.
Definition domainApprovalRequestSchema : schema DomainApprovalRequest := λ v,
  o ← z_strict_object ["confirmation"; "costCeiling"; "costCurrency";
                       "acceptPriceChangeRisk"; "registrarAccountId"] v;
  confirmation ← domainNameSchema (get "confirmation" o);
  ceiling ← z_refine (positive_digits 14) z_string (get "costCeiling" o);
  _ ← z_literal "USD" (get "costCurrency" o);
  risk ← z_optional z_true (get "acceptPriceChangeRisk" o);
  account ← z_optional z_uuid (get "registrarAccountId" o);
  Some (MkApprovalRequest confirmation (string_to_Z ceiling) (isSome risk) account).
Definition domainStates : list string :=
  ["AWAITING_PAYMENT"; "AWAITING_APPROVAL"; "PENDING"; "NEEDS_RECONCILIATION"; "FAILED";
   "REGISTERED"].

(** ** Registrar accounts *)
Definition policy_url (s : string) : bool :=
  zod_url s && (slen s <=? 1000) &&
  match parse_url s with
  | Some u => String.eqb (u_protocol u) "https:" && negb (truthy (u_username u)) &&
              negb (truthy (u_password u))
  | None => false
  end.
Definition z_policy_url : schema string := z_refine policy_url z_string.
Record ResellbizCredential := MkResellbizCredential { rz_resellerId : string; rz_apiKey : string }.
Definition api_key (s : string) : bool := text 16 512 s && all_chars is_alnum s.
Definition credential_fields (o : list (string * json)) : option ResellbizCredential :=
  id ← z_identifier (get "resellerId" o);
  key ← z_refine api_key z_string (get "apiKey" o);
  Some (MkResellbizCredential id key).
Definition resellbizCredentialSchema : schema ResellbizCredential := λ v,
  o ← z_strict_object ["resellerId"; "apiKey"] v; credential_fields o.
Definition credential_json (c : ResellbizCredential) : json :=
  JObj [("resellerId", JStr (rz_resellerId c)); ("apiKey", JStr (rz_apiKey c))].
Record DomainPolicies := MkPolicies
  { po_agreementUrl : string; po_customerTermsUrl : string; po_customerPrivacyUrl : string }.
#[export] Instance DomainPolicies_eq_dec : EqDecision DomainPolicies.
Proof. solve_decision. Defined.
Definition policy_fields (o : list (string * json)) : option DomainPolicies :=
  agreement ← z_policy_url (get "agreementUrl" o);
  terms ← z_policy_url (get "customerTermsUrl" o);
  privacy ← z_policy_url (get "customerPrivacyUrl" o);
  Some (MkPolicies agreement terms privacy).
Definition policy_keys : list string := ["agreementUrl"; "customerTermsUrl"; "customerPrivacyUrl"].
Record ResellbizConfiguration := MkResellbizConfiguration
  { cf_resellerId : string; cf_nameservers : list string; cf_policies : DomainPolicies }.
Definition resellbizConfigurationSchema : schema ResellbizConfiguration := λ v,
  o ← z_strict_object ("resellerId" :: "nameservers" :: "confirmNativeUsdCosts" :: policy_keys) v;
  id ← z_identifier (get "resellerId" o);
  names ← registrarNameserversSchema (get "nameservers" o);
  _ ← z_true (get "confirmNativeUsdCosts" o);
  policies ← policy_fields o;
  Some (MkResellbizConfiguration id names policies).
Definition configuration_json (c : ResellbizConfiguration) : json :=
  JObj [("resellerId", JStr (cf_resellerId c)); ("nameservers", names_json (cf_nameservers c));
        ("agreementUrl", JStr (po_agreementUrl (cf_policies c)));
        ("customerTermsUrl", JStr (po_customerTermsUrl (cf_policies c)));
        ("customerPrivacyUrl", JStr (po_customerPrivacyUrl (cf_policies c)));
        ("confirmNativeUsdCosts", JBool true)].
Record ResellbizSetup := MkResellbizSetup
  { rs_credential : ResellbizCredential; rs_sellingAmount : Z;
    rs_nameservers : list string; rs_policies : DomainPolicies }.
Definition positive_money : schema Z :=
  z_map string_to_Z (z_refine (positive_digits 14) z_string).
Definition resellbizSetupSchema : schema ResellbizSetup := λ v,
  o ← z_strict_object ("resellerId" :: "apiKey" :: "confirmation" :: "sellingAmount" ::
                       "nameservers" :: "confirmNativeUsdCosts" :: policy_keys) v;
  credential ← credential_fields o;
  _ ← z_literal "Configure live resell.biz" (get "confirmation" o);
  selling ← positive_money (get "sellingAmount" o);
  names ← registrarNameserversSchema (get "nameservers" o);
  _ ← z_true (get "confirmNativeUsdCosts" o);
  policies ← policy_fields o;
  Some (MkResellbizSetup credential selling names policies).
Definition resellbizMappingSchema : schema (string * string) := λ v,
  o ← z_strict_object ["remoteCustomerId"; "remoteContactId"] v;
  customer ← z_identifier (get "remoteCustomerId" o);
  contact ← z_identifier (get "remoteContactId" o);
  Some (customer, contact).
Definition fakeRegistrarSetupSchema : schema Z := λ v,
  o ← z_strict_object ["confirmation"; "sellingAmount"] v;
  _ ← z_literal "Enable simulated registrar" (get "confirmation" o);
  positive_money (get "sellingAmount" o).
Definition registrarToggleSchema : schema bool := λ v,
  o ← z_strict_object ["enabled"] v; z_bool (get "enabled" o).

(** ** domain-administration.ts *)
Definition domainPolicyInputSchema : schema DomainPolicies := λ v,
  o ← z_strict_object policy_keys v; policy_fields o.
Record DomainPolicy := MkDomainPolicy { dp_policies : DomainPolicies; dp_revision : string }.
Definition domainPolicySchema : schema DomainPolicy := λ v,
  o ← z_strict_object ("revision" :: policy_keys) v;
  policies ← policy_fields o;
  revision ← z_uuid (get "revision" o);
  Some (MkDomainPolicy policies revision).
Definition policy_json (p : DomainPolicy) : json :=
  JObj [("agreementUrl", JStr (po_agreementUrl (dp_policies p)));
        ("customerTermsUrl", JStr (po_customerTermsUrl (dp_policies p)));
        ("customerPrivacyUrl", JStr (po_customerPrivacyUrl (dp_policies p)));
        ("revision", JStr (dp_revision p))].
Definition domainDnsDefaultsSchema : schema (list string) := λ v,
  o ← z_strict_object ["nameservers"] v; registrarNameserversSchema (get "nameservers" o).
Definition registrarConnectionIdentitySchema : schema string := λ v,
  o ← z_strict_object ["schemaVersion"; "resellerId"] v;
  _ ← z_refine (Z.eqb 2) z_int (get "schemaVersion" o);
  z_identifier (get "resellerId" o).
Definition printable (c : ascii) : bool := (32 <=? code c) && negb (code c =? 127).
Record CreateRegistrarConnection := MkCreateConnection
  { cn_credential : ResellbizCredential; cn_name : string }.
Definition createRegistrarConnectionSchema : schema CreateRegistrarConnection := λ v,
  o ← z_strict_object ["resellerId"; "apiKey"; "name"; "module"; "confirmation"] v;
  credential ← credential_fields o;
  name ← z_refine (all_chars printable) (trimmed 1 100) (get "name" o);
  _ ← z_literal "logicboxes" (get "module" o);
  _ ← z_literal "Save registrar connection" (get "confirmation" o);
  Some (MkCreateConnection credential name).
Definition registrarConnectionToggleSchema : schema (bool * bool) := λ v,
  o ← z_strict_object ["enabled"; "confirmNativeUsdCosts"] v;
  enabled ← z_bool (get "enabled" o);
  confirmed ← z_optional z_true (get "confirmNativeUsdCosts" o);
  Some (enabled, isSome confirmed).
Record DomainTldRequest := MkTldRequest
  { tr_tld : string; tr_registrationAmount : option Z; tr_renewalAmount : option Z;
    tr_enabled : bool; tr_featured : bool; tr_displayOrder : Z;
    tr_preferredRegistrarId : option string; tr_revision : Z }.
Definition domainTldRequestSchema : schema DomainTldRequest :=
  z_refine (λ r, negb (tr_enabled r) || isSome (tr_registrationAmount r)) (λ v,
  o ← z_strict_object ["tld"; "registrationAmount"; "renewalAmount"; "enabled"; "featured";
                       "displayOrder"; "preferredRegistrarId"; "revision"] v;
  tld ← domainExtensionSchema (get "tld" o);
  registration ← z_nullable positive_money (get "registrationAmount" o);
  renewal ← z_nullable positive_money (get "renewalAmount" o);
  enabled ← z_bool (get "enabled" o);
  featured ← z_bool (get "featured" o);
  order ← z_between 0 10000 (get "displayOrder" o);
  registrar ← z_nullable z_uuid (get "preferredRegistrarId" o);
  revision ← z_refine (Z.leb 0) z_int (get "revision" o);
  Some (MkTldRequest tld registration renewal enabled featured order registrar revision)).
Record DomainTldBulk := MkTldBulk
  { tb_entries : list (string * Z); tb_enabled : option bool;
    tb_preferredRegistrarId : option (option string) }.
Definition bulk_entry : schema (string * Z) := λ v,
  o ← z_strict_object ["id"; "revision"] v;
  id ← z_uuid (get "id" o);
  revision ← z_positive (get "revision" o);
  Some (id, revision).
Definition domainTldBulkSchema : schema DomainTldBulk :=
  z_refine (λ r, isSome (tb_enabled r) || isSome (tb_preferredRegistrarId r)) (λ v,
  o ← z_strict_object ["entries"; "enabled"; "preferredRegistrarId"; "confirmation"] v;
  entries ← z_sized_array 1 100 bulk_entry (get "entries" o);
  enabled ← z_optional z_bool (get "enabled" o);
  registrar ← z_optional (z_nullable z_uuid) (get "preferredRegistrarId" o);
  _ ← z_literal "Apply TLD changes" (get "confirmation" o);
  Some (MkTldBulk entries enabled registrar)).
Record RegistrarChoice := MkChoice { rch_id : string; rch_name : string }.
#[export] Instance RegistrarChoice_eq_dec : EqDecision RegistrarChoice.
Proof. solve_decision. Defined.
Definition registrar_entry : schema RegistrarChoice := λ v,
  o ← z_strict_object ["id"; "name"] v;
  id ← z_uuid (get "id" o);
  name ← sized 1 100 (get "name" o);
  Some (MkChoice id name).
Record DomainSelectionSnapshot := MkSnapshot
  { ss_catalogueId : string; ss_catalogueRevision : Z; ss_priceId : string;
    ss_policies : DomainPolicy; ss_eligibleRegistrars : list RegistrarChoice }.
Definition domainSelectionSnapshotSchema : schema DomainSelectionSnapshot :=
  z_refine (λ s, distinct (rch_id <$> ss_eligibleRegistrars s)) (λ v,
  o ← z_strict_object ["schemaVersion"; "catalogueId"; "catalogueRevision"; "priceId";
                       "policies"; "eligibleRegistrars"] v;
  _ ← z_refine (Z.eqb 1) z_int (get "schemaVersion" o);
  catalogue ← z_uuid (get "catalogueId" o);
  revision ← z_positive (get "catalogueRevision" o);
  price ← z_uuid (get "priceId" o);
  policies ← domainPolicySchema (get "policies" o);
  registrars ← z_sized_array 1 32 registrar_entry (get "eligibleRegistrars" o);
  Some (MkSnapshot catalogue revision price policies registrars)).
Definition choice_json (c : RegistrarChoice) : json :=
  JObj [("id", JStr (rch_id c)); ("name", JStr (rch_name c))].
Definition snapshot_json (s : DomainSelectionSnapshot) : json :=
  JObj [("schemaVersion", JNum 1); ("catalogueId", JStr (ss_catalogueId s));
        ("catalogueRevision", JNum (ss_catalogueRevision s));
        ("priceId", JStr (ss_priceId s)); ("policies", policy_json (ss_policies s));
        ("eligibleRegistrars", JArr (choice_json <$> ss_eligibleRegistrars s))].
(** [bdtPriceToMinor]: none for an empty input. *)
Definition price_error : exn :=
  JsError "Enter a positive BDT amount with up to two decimal places.".
Definition bdtPriceToMinor (value : string) : result (option string) :=
  let s := js_trim value in
  if negb (truthy s) then Ok None
  else
    let '(whole, fraction) :=
      match split_at "." s with Some (w, f) => (w, Some f) | None => (s, None) end in
    _ ← throw_unless (text 1 13 whole && all_chars is_digit whole &&
                      match fraction with
                      | Some f => text 1 2 f && all_chars is_digit f | None => true end)
          price_error;
    let amount := string_to_Z whole * 100 +
                  string_to_Z (pad_end 2 "0" (default "" fraction)) in
    _ ← throw_unless (negb ((amount <=? 0) || (999999999999999 <? amount)))
          (JsError "Enter a positive supported BDT amount.");
    Ok (Some (Z_to_string amount)).

(** ** Existing domains *)
Record ExistingDomainLinkRequest := MkLinkRequest
  { lk_customerId : string; lk_registrarAccountId : string; lk_domainName : string;
    lk_submissionKey : string }.
Definition existingDomainLinkRequestSchema : schema ExistingDomainLinkRequest := λ v,
  o ← z_strict_object ["customerId"; "registrarAccountId"; "domainName"; "confirmation";
                       "submissionKey"] v;
  customer ← z_uuid (get "customerId" o);
  account ← z_uuid (get "registrarAccountId" o);
  name ← domainNameSchema (get "domainName" o);
  confirmation ← domainNameSchema (get "confirmation" o);
  key ← z_uuid (get "submissionKey" o);
  if String.eqb confirmation name then Some (MkLinkRequest customer account name key) else None.
Record LinkEvidence := MkLinkEvidence
  { le_remoteCustomerId : string; le_remoteContactId : string; le_contact : DomainContact;
    le_nameservers : list string }.
Definition existingDomainLinkEvidenceSchema : schema LinkEvidence := λ v,
  o ← z_strict_object ["remoteCustomerId"; "remoteContactId"; "contact"; "nameservers"] v;
  customer ← z_identifier (get "remoteCustomerId" o);
  contactId ← z_identifier (get "remoteContactId" o);
  contact ← resellbizContactSchema (get "contact" o);
  names ← registrarNameserversSchema (get "nameservers" o);
  Some (MkLinkEvidence customer contactId contact names).
Definition evidence_json (e : LinkEvidence) : json :=
  JObj [("remoteCustomerId", JStr (le_remoteCustomerId e));
        ("remoteContactId", JStr (le_remoteContactId e));
        ("contact", contact_json (le_contact e)); ("nameservers", names_json (le_nameservers e))].

(** ** Actions on a registered domain *)
Inductive DomainActionRequest :=
| NAMESERVERS (nameservers : list string)
| LOCK (locked : bool)
| CONTACT (contact : DomainContact)
| RENEW (sellingAmount : Z) (catalogueRevision : option Z) (costCeiling : Z).
Definition action_kind (r : DomainActionRequest) : string :=
  match r with
  | NAMESERVERS _ => "NAMESERVERS" | LOCK _ => "LOCK" | CONTACT _ => "CONTACT"
  | RENEW _ _ _ => "RENEW"
  end.
Definition positiveAmount : schema Z :=
  z_map string_to_Z (z_refine (positive_digits 18) z_string).
Definition domainActionRequestSchema : schema DomainActionRequest := λ v,
  o ← z_object v;
  kind ← z_string (get "kind" o);
  if String.eqb kind "NAMESERVERS" then
    _ ← z_strict_object ["kind"; "nameservers"] v;
    names ← registrarNameserversSchema (get "nameservers" o);
    Some (NAMESERVERS names)
  else if String.eqb kind "LOCK" then
    _ ← z_strict_object ["kind"; "locked"] v;
    locked ← z_bool (get "locked" o);
    Some (LOCK locked)
  else if String.eqb kind "CONTACT" then
    _ ← z_strict_object ["kind"; "contact"; "consent"; "acceptRegistrantChange"] v;
    contact ← resellbizContactSchema (get "contact" o);
    _ ← z_true (get "consent" o);
    _ ← z_true (get "acceptRegistrantChange" o);
    Some (CONTACT contact)
  else if String.eqb kind "RENEW" then
    _ ← z_strict_object ["kind"; "sellingAmount"; "catalogueRevision"; "costCeiling";
                         "acceptPriceChangeRisk"] v;
    selling ← positiveAmount (get "sellingAmount" o);
    revision ← z_optional z_positive (get "catalogueRevision" o);
    ceiling ← positiveAmount (get "costCeiling" o);
    _ ← z_true (get "acceptPriceChangeRisk" o);
    Some (RENEW selling revision ceiling)
  else None.
Definition action_request_json (r : DomainActionRequest) : json :=
  JObj (("kind", JStr (action_kind r)) ::
  match r with
  | NAMESERVERS names => [("nameservers", names_json names)]
  | LOCK locked => [("locked", JBool locked)]
  | CONTACT contact => [("contact", contact_json contact); ("consent", JBool true);
                        ("acceptRegistrantChange", JBool true)]
  | RENEW selling revision ceiling =>
      [("sellingAmount", JStr (Z_to_string selling))] ++
      opt_field "catalogueRevision" (JNum <$> revision) ++
      [("costCeiling", JStr (Z_to_string ceiling)); ("acceptPriceChangeRisk", JBool true)]
  end).
Record DomainManagement := MkManagement
  { mg_contact : option DomainContact; mg_nameservers : list string; mg_locked : bool;
    mg_observedAt : string; mg_expiresAt : string; mg_verification : string }.
Definition domainManagementSchema : schema DomainManagement := λ v,
  o ← z_strict_object ["contact"; "nameservers"; "locked"; "observedAt"; "expiresAt";
                       "verification"] v;
  contact ← z_optional resellbizContactSchema (get "contact" o);
  names ← registrarNameserversSchema (get "nameservers" o);
  locked ← z_bool (get "locked" o);
  observed ← z_refine zod_iso z_string (get "observedAt" o);
  expires ← z_refine zod_iso z_string (get "expiresAt" o);
  verification ← z_enum ["Pending"; "Verified"] (get "verification" o);
  Some (MkManagement contact names locked observed expires verification).
Definition management_json (m : DomainManagement) : json :=
  JObj (opt_field "contact" (contact_json <$> mg_contact m) ++
        [("nameservers", names_json (mg_nameservers m)); ("locked", JBool (mg_locked m));
         ("observedAt", JStr (mg_observedAt m)); ("expiresAt", JStr (mg_expiresAt m));
         ("verification", JStr (mg_verification m))]).
Definition action_states : list string :=
  ["REQUESTED"; "NEEDS_RECONCILIATION"; "SUCCEEDED"; "CANCELLED"; "FAILED"].
Record ActionView := MkActionView
  { av_id : string; av_kind : string; av_state : string; av_createdAt : string;
    av_claimed : bool; av_invoiceId : option string; av_financialAttention : bool }.
Definition domainActionSchema (v : ActionView) : bool :=
  zod_uuid (av_id v) && existsb (String.eqb (av_kind v)) ["NAMESERVERS"; "LOCK"; "CONTACT"; "RENEW"] &&
  existsb (String.eqb (av_state v)) action_states && zod_iso (av_createdAt v) &&
  match av_invoiceId v with Some i => zod_uuid i | None => true end.

(** ** The view of a domain *)
Record BillingOrder := MkBillingOrder
  { bo_orderId : string; bo_invoiceId : string; bo_invoiceStatus : InvoiceStatus;
    bo_sellingAmount : string; bo_balanceDue : string }.
(** The billing fields: all of them null, or none. *)
Record RegistrationBilling := MkRegistrationBilling
  { rb_invoiceId : string; rb_invoiceStatus : InvoiceStatus; rb_orderId : string;
    rb_balanceDue : string; rb_sellingAmount : string; rb_currency : string }.
Record AdminDetail := MkAdminDetail
  { ad_customerId : string; ad_accountId : string; ad_cost : option (string * string);
    ad_contact : option DomainContact; ad_offlineConsent : option OfflineConsent;
    ad_operationId : option string; ad_dispatchClaimed : bool;
    ad_renewal : option (option string * Z); ad_selectedRegistrarId : option string;
    ad_eligibleRegistrars : list (RegistrarChoice * bool);
    ad_contactMappingVerified : bool; ad_evidence : list (string * string) }.
Record DomainDetail := MkDomainDetail
  { dd_id : string; dd_domainName : string; dd_state : string; dd_verification : string;
    dd_expiresAt : option string; dd_simulated : bool; dd_registrar : string;
    dd_existing : bool; dd_ownershipVerifiedAt : option string;
    dd_billingOrder : option BillingOrder; dd_requestedAt : string;
    dd_financialAttention : bool; dd_billing : option RegistrationBilling;
    dd_nameservers : json; dd_agreement : string; dd_agreementUrl : option string;
    dd_admin : option AdminDetail }.
Definition opt_ok {A} (p : A → bool) (o : option A) : bool :=
  match o with Some a => p a | None => true end.
Definition amount_text (s : string) : bool := canonical_decimal s && (slen s <=? 19).
Definition evidence_code (s : string) : bool :=
  text 1 64 s && all_chars (λ c, is_upper c || Ascii.eqb c "_") s.
Definition admin_detail_ok (a : AdminDetail) : bool :=
  zod_uuid (ad_customerId a) && zod_uuid (ad_accountId a) &&
  opt_ok (λ c, amount_text c.1 && String.eqb c.2 "USD") (ad_cost a) &&
  opt_ok zod_uuid (ad_operationId a) &&
  opt_ok (λ r, opt_ok (positive_digits 18) r.1 && (0 <? r.2)) (ad_renewal a) &&
  opt_ok zod_uuid (ad_selectedRegistrarId a) &&
  forallb (λ c, zod_uuid (rch_id c.1) && text 1 100 (rch_name c.1)) (ad_eligibleRegistrars a) &&
  (Z.of_nat (length (ad_eligibleRegistrars a)) <=? 32) &&
  forallb (λ e, evidence_code e.1 && zod_iso e.2) (ad_evidence a) &&
  (Z.of_nat (length (ad_evidence a)) <=? 100).
Definition billing_ok (b : RegistrationBilling) : bool :=
  zod_uuid (rb_invoiceId b) && zod_uuid (rb_orderId b) && amount_text (rb_balanceDue b) &&
  amount_text (rb_sellingAmount b) && String.eqb (rb_currency b) "BDT".
(** The refinement: origin and billing evidence match. *)
Definition origin_ok (v : DomainDetail) : bool :=
  negb (isSome (dd_billingOrder v) && negb (dd_existing v)) &&
  if dd_existing v
  then negb (isSome (dd_billing v)) && isSome (dd_ownershipVerifiedAt v) &&
       negb (dd_simulated v) && isSome (registrarNameserversSchema (dd_nameservers v)) &&
       String.eqb (dd_agreement v) "existing-domain-link-v1" &&
       String.eqb (dd_state v) "REGISTERED"
  else isSome (dd_billing v) &&
       negb (String.eqb (dd_agreement v) "existing-domain-link-v1") &&
       negb (isSome (dd_ownershipVerifiedAt v)).
Definition domainDetailSchema (v : DomainDetail) : bool :=
  zod_uuid (dd_id v) && isSome (domainNameSchema (JStr (dd_domainName v))) &&
  existsb (String.eqb (dd_state v)) domainStates &&
  existsb (String.eqb (dd_verification v)) ["Unknown"; "Pending"; "Verified"] &&
  opt_ok zod_iso (dd_expiresAt v) && text 1 100 (dd_registrar v) &&
  opt_ok zod_iso (dd_ownershipVerifiedAt v) && zod_iso (dd_requestedAt v) &&
  opt_ok (λ b, zod_uuid (bo_orderId b) && zod_uuid (bo_invoiceId b) &&
               amount_text (bo_sellingAmount b) && amount_text (bo_balanceDue b))
    (dd_billingOrder v) &&
  opt_ok billing_ok (dd_billing v) && isSome (z_nameservers (dd_nameservers v)) &&
  existsb (String.eqb (dd_agreement v)) ("existing-domain-link-v1" :: agreements) &&
  opt_ok policy_url (dd_agreementUrl v) && opt_ok admin_detail_ok (dd_admin v) && origin_ok v.

(** ** Quotes shown to a customer *)
Record QuoteView := MkQuoteView
  { qv_id : string; qv_domainName : string; qv_sellingAmount : string;
    qv_cost : option (string * string); qv_expiresAt : string; qv_simulated : bool }.
Definition domainQuoteSchema (v : QuoteView) : bool :=
  zod_uuid (qv_id v) && isSome (domainNameSchema (JStr (qv_domainName v))) &&
  positive_digits 18 (qv_sellingAmount v) &&
  opt_ok (λ c, positive_digits 18 c.1 && String.eqb c.2 "USD") (qv_cost v) &&
  zod_iso (qv_expiresAt v) && (negb (qv_simulated v) || isSome (qv_cost v)).

(** ** Offers *)
Record OfferSelection := MkOfferSelection
  { os_eligibleRegistrars : list RegistrarChoice; os_consentRevision : string;
    os_featured : bool }.
Record OfferView := MkOfferView
  { ofv_id : string; ofv_tld : string; ofv_sellingAmount : string; ofv_nameservers : json;
    ofv_simulated : bool; ofv_policies : option DomainPolicies;
    ofv_cost : option (string * string); ofv_selection : option OfferSelection }.
Definition policies_ok (p : DomainPolicies) : bool :=
  policy_url (po_agreementUrl p) && policy_url (po_customerTermsUrl p) &&
  policy_url (po_customerPrivacyUrl p).
Definition selection_ok (s : OfferSelection) : bool :=
  forallb (λ c, zod_uuid (rch_id c) && text 1 100 (rch_name c)) (os_eligibleRegistrars s) &&
  (Z.of_nat (length (os_eligibleRegistrars s)) <=? 32) && hex64 (os_consentRevision s).
(** The observed cost is in US dollars, with the time it was read at. *)
Definition domainOfferSchema (v : OfferView) : bool :=
  zod_uuid (ofv_id v) && isSome (domainExtensionSchema (JStr (ofv_tld v))) &&
  positive_digits 18 (ofv_sellingAmount v) && isSome (z_nameservers (ofv_nameservers v)) &&
  opt_ok policies_ok (ofv_policies v) &&
  opt_ok (λ c, positive_digits 18 c.1 && zod_iso c.2) (ofv_cost v) &&
  opt_ok selection_ok (ofv_selection v).

(** ** domain-inventory.ts *)
Definition maxOffset : Z := 2147483647.
(** [canonicalInteger]: what page and page size are read from. *)
Definition canonicalInteger (v : json) : option json :=
  match v with
  | JUndefined => Some JUndefined
  | JNum n => Some (JNum n)
  | JFrac t => Some (JFrac t)
  | JStr s => if positive_digits 9 s then Some (JNum (string_to_Z s)) else None
  | _ => None
  end.
Record DomainInventoryQuery := MkInventoryQuery
  { iq_page : Z; iq_pageSize : Z; iq_search : option string; iq_state : option string;
    iq_origin : option string; iq_customerId : option string }.
(** The fields of [paginationQuerySchema]: coerced integers with defaults. *)
Definition page_field (default_ hi : Z) (v : json) : option Z :=
  c ← canonicalInteger v;
  match c with
  | JUndefined => Some default_
  | c => z_between 1 hi c
  end.
Definition domainInventoryQuerySchema : schema DomainInventoryQuery :=
  z_refine (λ q, (iq_page q <=? maxOffset) && ((iq_page q - 1) * iq_pageSize q <=? maxOffset))
  (λ v,
  o ← z_strict_object ["page"; "pageSize"; "search"; "state"; "origin"; "customerId"] v;
  page ← page_field 1 max_safe_integer (get "page" o);
  size ← page_field 20 100 (get "pageSize" o);
  search ← z_optional (trimmed 0 200) (get "search" o);
  state ← z_optional (z_enum domainStates) (get "state" o);
  origin ← z_optional (z_enum ["REGISTRATION"; "EXISTING"]) (get "origin" o);
  customer ← z_optional z_uuid (get "customerId" o);
  Some (MkInventoryQuery page size search state origin customer)).
End contracts.
