(* ===== verification/PanelOperations.v ===== *)
(** * Panel operations

    hosting-panel.service.ts: the operations administrators and customers run on
    the panel of a service, the tests of a server's connection, and retries.  An
    operation is prepared in one transaction, carried out on the panel, and
    completed in a second transaction. *)
From S2P Require Import Prelude JsString JsDate Json Money States Database Invoices Payments Gateways GatewayAdapters Orders HostingServices HostingAutomation HostingPanels.

(** ** Requests *)
Definition type_name (t : OperationType) : string :=
  match t with
  | OperationType.TEST_CONNECTION => "TEST_CONNECTION"
  | OperationType.CREATE_ACCOUNT => "CREATE_ACCOUNT"
  | OperationType.GET_ACCOUNT => "GET_ACCOUNT"
  | OperationType.SUSPEND_ACCOUNT => "SUSPEND_ACCOUNT"
  | OperationType.UNSUSPEND_ACCOUNT => "UNSUSPEND_ACCOUNT"
  | OperationType.CHANGE_PACKAGE => "CHANGE_PACKAGE"
  | OperationType.CHANGE_PASSWORD => "CHANGE_PASSWORD"
  | OperationType.GENERATE_LOGIN_URL => "GENERATE_LOGIN_URL"
  | OperationType.TERMINATE_ACCOUNT => "TERMINATE_ACCOUNT"
  end.
(** [ExecuteHostingOperationRequest] but for its submission key. *)
Inductive PanelAction :=
| CreateAccount
| GetAccount
| SuspendAccount (reason : string)
| UnsuspendAccount
| ChangePackage (packageIdentifier : string)
| ChangePassword (newPassword : string)
| GenerateLoginUrl
| TerminateAccount (reason : string).
Record ExecuteHostingOperationRequest := MkExecute
  { eh_submissionKey : string; eh_action : PanelAction }.
Definition action_type (a : PanelAction) : OperationType :=
  match a with
  | CreateAccount => OperationType.CREATE_ACCOUNT
  | GetAccount => OperationType.GET_ACCOUNT
  | SuspendAccount _ => OperationType.SUSPEND_ACCOUNT
  | UnsuspendAccount => OperationType.UNSUSPEND_ACCOUNT
  | ChangePackage _ => OperationType.CHANGE_PACKAGE
  | ChangePassword _ => OperationType.CHANGE_PASSWORD
  | GenerateLoginUrl => OperationType.GENERATE_LOGIN_URL
  | TerminateAccount _ => OperationType.TERMINATE_ACCOUNT
  end.
Record RetryHostingOperationRequest := MkRetry
  { rh_submissionKey : string; rh_newPassword : option string; rh_confirmed : bool }.
Record ExecutionOptions := MkOptions
  { eo_retryOfOperationId : option string; eo_attemptNumber : option Z }.
Definition no_options : ExecutionOptions := MkOptions None None.
Definition MAX_MANUAL_ATTEMPTS : Z := 5.
Definition isMutation (a : PanelAction) : bool :=
  match a with GetAccount | GenerateLoginUrl => false | _ => true end.
Definition safeRequestMetadata (a : PanelAction) : json :=
  match a with
  | SuspendAccount reason | TerminateAccount reason => JObj [("reason", JStr reason)]
  | ChangePackage package => JObj [("packageIdentifier", JStr package)]
  | ChangePassword _ => JObj [("secretInput", JStr "REDACTED")]
  | _ => JObj []
  end.

(** [JSON.stringify] of an object of texts. *)
Definition hex_digit (n : Z) : ascii :=
  if n <? 10 then ascii_of_N (Z.to_N (48 + n)) else ascii_of_N (Z.to_N (87 + n)).
Definition json_char (c : ascii) : string :=
  let n := code c in
  if n =? 34 then String "092" (String "034" "")
  else if n =? 92 then String "092" (String "092" "")
  else if n =? 8 then String "092" "b" else if n =? 9 then String "092" "t"
  else if n =? 10 then String "092" "n" else if n =? 12 then String "092" "f"
  else if n =? 13 then String "092" "r"
  else if n <? 32 then String "092" ("u00" ++ String (hex_digit (n / 16))
                                              (String (hex_digit (n mod 16)) ""))%string
  else String c "".
Fixpoint json_chars (s : string) : string :=
  match s with EmptyString => "" | String c t => (json_char c ++ json_chars t)%string end.
Definition json_text (s : string) : string := quoted (json_chars s).
Definition json_field (kv : string * string) : string :=
  (json_text kv.1 ++ ":" ++ json_text kv.2)%string.
Definition stringify (fields : list (string * string)) : string :=
  ("{" ++ String.concat "," (json_field <$> fields) ++ "}")%string.
Definition request_fields (input : ExecuteHostingOperationRequest) : list (string * string) :=
  [("type", type_name (action_type (eh_action input)));
   ("submissionKey", eh_submissionKey input)] ++
  match eh_action input with
  | SuspendAccount reason => [("reason", reason)]
  | ChangePackage package => [("packageIdentifier", package)]
  | ChangePassword password => [("newPassword", password)]
  | TerminateAccount reason => [("reason", reason); ("confirmation", "TERMINATE")]
  | _ => []
  end.

(** ** Records *)
Definition OperationRecord : Type := HostingPanelOperation * Server.
Definition include_server (d : Db) (r : HostingPanelOperation) : option OperationRecord :=
  server ← servers d !! op_serverId r; Some (r, server).
Definition inconsistent_query : exn := JsError "Inconsistent query result".
Definition find_operation (key : string) : Io (option OperationRecord) :=
  found ← read (λ d, find_unique (panelOperations d) op_idempotencyKey key);
  match found with
  | None => mret None
  | Some r =>
      record ← read (λ d, include_server d r);
      record ← lift (of_option inconsistent_query record);
      mret (Some record)
  end.
Definition operation_record (operationId : string) : Io OperationRecord :=
  record ← read (λ d, r ← panelOperations d !! operationId; include_server d r);
  lift (of_option RecordNotFound record).
(** A service with its server and the address of its customer. *)
Record PanelService := MkPanelService
  { pv_service : Service; pv_server : Server; pv_email : string }.
Definition panel_service (s : Service) (d : Db) : option PanelService :=
  server ← servers d !! svc_serverId s;
  customer ← customers d !! svc_customerId s;
  Some (MkPanelService s server (usr_email customer)).
Definition key_used : exn :=
  conflict "The submission key was already used for another request.".
Definition findDuplicate (idempotencyKey fingerprint : string) : Io (option OperationRecord) :=
  found ← find_operation idempotencyKey;
  match found with
  | None => mret None
  | Some record =>
      _ ← require (String.eqb (op_requestFingerprint record.1) fingerprint) key_used;
      mret (Some record)
  end.
Definition metadataObject (v : json) : list (string * json) :=
  match v with JObj o => o | _ => [] end.
Definition metadataString (metadata : list (string * json)) (key : string) : result string :=
  match get key metadata with
  | JStr s => Ok s
  | _ => Err (unprocessable "The retry metadata is incomplete.")
  end.
(** What [hostingPanelOperationResultSchema] presents. *)
Record HostingPanelOperationResult := MkOperationResult
  { por_operation : HostingPanelOperation; por_server : Server;
    por_account : option HostingAccount; por_duplicate : bool; por_loginUrl : option string }.

(** ** Guards *)
Definition packageIdentifier (snapshot : json) : result string :=
  of_option (unprocessable "The service has no hosting package identifier.")
    (o ← z_object snapshot;
     a ← z_optional (z_text 1 191) (get "hostingPackageIdentifier" o);
     b ← z_optional (z_text 1 191) (get "packageName" o);
     match a with Some a => Some a | None => b end).
Definition reference (s : Service) : result HostingAccountReference :=
  '(username, account, domain) ← of_option
     (unprocessable "The service has no external panel account identity.") (panel_identity s);
  package ← packageIdentifier (svc_provisioningSnapshot s);
  Ok (MkReference account username domain package).
Definition isActiveOrSuspended (s : ServiceStatus) : bool :=
  (s ==b ServiceStatus.ACTIVE) || (s ==b ServiceStatus.SUSPENDED).
(** The status each action but CREATE_ACCOUNT asks of its service. *)
Definition status_guard (a : PanelAction) (s : ServiceStatus) : result unit :=
  match a with
  | CreateAccount => Ok tt
  | SuspendAccount _ =>
      throw_unless (s ==b ServiceStatus.ACTIVE)
        (unprocessable "Only an active service can be suspended.")
  | UnsuspendAccount =>
      throw_unless (s ==b ServiceStatus.SUSPENDED)
        (unprocessable "Only a suspended service can be unsuspended.")
  | GetAccount | ChangePackage _ | ChangePassword _ =>
      throw_unless (isActiveOrSuspended s)
        (unprocessable "The service does not have a manageable panel account.")
  | GenerateLoginUrl =>
      throw_unless (s ==b ServiceStatus.ACTIVE)
        (unprocessable "Panel login is available only for active services.")
  | TerminateAccount _ =>
      throw_unless (isActiveOrSuspended s)
        (unprocessable "Only an active or suspended service can be terminated.")
  end.
Definition validateAction (service : PanelService) (a : PanelAction) : result unit :=
  let s := pv_service service in
  let server := pv_server service in
  _ ← throw_unless (bool_decide (srv_deletedAt server = None) &&
                    negb (srv_status server ==b ServerStatus.DISABLED))
        (unprocessable "The assigned server is disabled.");
  match a with
  | CreateAccount =>
      _ ← throw_unless (srv_status server ==b ServerStatus.ACTIVE)
            (unprocessable "The assigned server is not active for new accounts.");
      _ ← readHostingProvisioningMode (svc_provisioningSnapshot s);
      _ ← throw_unless ((svc_status s ==b ServiceStatus.PENDING) ||
                        (svc_status s ==b ServiceStatus.PROVISION_FAILED))
            (unprocessable "Only a pending or failed service can be provisioned.");
      _ ← throw_unless (negb (absent (svc_domain s)))
            (unprocessable "The service has no domain.");
      _ ← packageIdentifier (svc_provisioningSnapshot s);
      Ok tt
  | _ => _ ← reference s; status_guard a (svc_status s)
  end.
Definition panel_inconsistent (code : string) : exn :=
  HostingPanelProviderError ErrorKind.INCONSISTENT code
    "The hosting panel account does not match the service record. Reconciliation is required.".
(** The state the account must have after the action, when it matters. *)
Definition expectedState (a : PanelAction) (s : ServiceStatus) : option AccountState :=
  match a with
  | SuspendAccount _ => Some AccountState.SUSPENDED
  | UnsuspendAccount | CreateAccount => Some AccountState.ACTIVE
  | _ =>
      match s with
      | ServiceStatus.ACTIVE => Some AccountState.ACTIVE
      | ServiceStatus.SUSPENDED => Some AccountState.SUSPENDED
      | _ => None
      end
  end.
Definition is_create (a : PanelAction) : bool :=
  match a with CreateAccount => true | _ => false end.
Definition validateProviderResult (s : Service) (a : PanelAction)
    (account : option HostingAccount) : result unit :=
  match a with
  | GenerateLoginUrl | TerminateAccount _ => Ok tt
  | _ =>
      account ← of_option (panel_inconsistent "PANEL_ACCOUNT_RESULT_MISSING") account;
      _ ← parse hostingAccountSchema (hosting_account_json account);
      _ ← throw_unless (bool_decide (Some (ha_domain account) = svc_domain s))
            (panel_inconsistent "PANEL_ACCOUNT_DOMAIN_MISMATCH");
      _ ← throw_unless (is_create a ||
             bool_decide (Some (ha_externalAccountId account) = svc_externalAccountId s) &&
             bool_decide (Some (ha_username account) = svc_controlPanelUsername s))
            (panel_inconsistent "PANEL_ACCOUNT_IDENTITY_MISMATCH");
      throw_unless (match expectedState a (svc_status s) with
                    | Some expected => bool_decide (ha_state account = expected)
                    | None => true end)
        (panel_inconsistent "PANEL_ACCOUNT_STATE_MISMATCH")
  end.
(** [assertAccountCreationAttempt]. *)
Definition creation_of (serviceId : string) (r : HostingPanelOperation) : bool :=
  bool_decide (op_serviceId r = Some serviceId) &&
  bool_decide (op_type r = OperationType.CREATE_ACCOUNT).
Definition some_row {R} (p : R → bool) (m : gmap string R) : bool :=
  negb (bool_decide (rows p m = [])).
Definition retry_taken : exn :=
  conflict "This hosting operation already has a manual retry.".
Definition creation_retriable (serviceId : string) (options : ExecutionOptions)
    (r : HostingPanelOperation) : bool :=
  creation_of serviceId r && bool_decide (op_status r = OperationStatus.FAILED) &&
  op_retryable r && (op_attemptNumber r <? MAX_MANUAL_ATTEMPTS) &&
  bool_decide (eo_attemptNumber options = Some (op_attemptNumber r + 1)).
Definition assertAccountCreationAttempt (serviceId : string) (options : ExecutionOptions)
    : Io unit :=
  match eo_retryOfOperationId options with
  | None =>
      previous ← read (λ d, some_row (creation_of serviceId) (panelOperations d));
      require (negb previous)
        (unprocessable "Account creation was already attempted. Use its safe retry action or reconcile the existing account.")
  | Some originalId =>
      original ← read (λ d, panelOperations d !! originalId);
      _ ← require (match original with
                   | Some r => creation_retriable serviceId options r | None => false end)
            (unprocessable "Only a safely retryable failed account creation can be retried.");
      child ← read (λ d, some_row (λ r, bool_decide (op_retryOfOperationId r = Some originalId))
                                  (panelOperations d));
      _ ← require (negb child) retry_taken;
      uncertain ← read (λ d, some_row (λ r, creation_of serviceId r &&
                      bool_decide (op_status r = OperationStatus.INCONSISTENT))
                      (panelOperations d));
      require (negb uncertain)
        (unprocessable "Reconcile the uncertain account creation before retrying.")
  end.
(** [assertNotAlreadyRetried]. *)
Definition assertNotAlreadyRetried (operationId : string) : Io unit :=
  child ← read (λ d, some_row (λ r, bool_decide (op_retryOfOperationId r = Some operationId))
                              (panelOperations d));
  require (negb child) retry_taken.
Definition reconstruct (original : HostingPanelOperation) (input : RetryHostingOperationRequest)
    : result ExecuteHostingOperationRequest :=
  let metadata := metadataObject (op_requestMetadata original) in
  let again a := Ok (MkExecute (rh_submissionKey input) a) in
  match op_type original with
  | OperationType.CREATE_ACCOUNT => again CreateAccount
  | OperationType.GET_ACCOUNT => again GetAccount
  | OperationType.UNSUSPEND_ACCOUNT => again UnsuspendAccount
  | OperationType.GENERATE_LOGIN_URL => again GenerateLoginUrl
  | OperationType.SUSPEND_ACCOUNT =>
      reason ← metadataString metadata "reason"; again (SuspendAccount reason)
  | OperationType.CHANGE_PACKAGE =>
      package ← metadataString metadata "packageIdentifier"; again (ChangePackage package)
  | OperationType.CHANGE_PASSWORD =>
      password ← of_option
        (unprocessable "A new password is required to retry this operation.")
        (p ← rh_newPassword input; if truthy p then Some p else None);
      again (ChangePassword password)
  | OperationType.TERMINATE_ACCOUNT =>
      _ ← throw_unless (rh_confirmed input)
            (unprocessable "Termination confirmation is required again.");
      reason ← metadataString metadata "reason"; again (TerminateAccount reason)
  | OperationType.TEST_CONNECTION =>
      Err (unprocessable "This operation cannot be retried.")
  end.

(** ** Carrying out an operation *)
Record ProviderSuccess := MkProviderSuccess
  { pv_account : option HostingAccount; pv_loginUrl : option string; pv_metadata : json }.
Definition account_metadata (a : HostingAccount) : json :=
  JObj [("account", hosting_account_json a)].
Definition email_event (a : option PanelAction) (account : option HostingAccount)
    : option string :=
  match a with
  | Some CreateAccount => _ ← account; Some "EMAIL_SERVICE_PROVISIONED"
  | Some (SuspendAccount _) => Some "EMAIL_SERVICE_SUSPENDED"
  | Some UnsuspendAccount => Some "EMAIL_SERVICE_REACTIVATED"
  | _ => None
  end.
(** What a success writes to the service. *)
Definition service_after (a : PanelAction) (account : option HostingAccount)
    (actorUserId : string) (now : Z) : option (Service → Service) :=
  match a with
  | CreateAccount =>
      account ← account;
      Some (λ s, s <| svc_status := ServiceStatus.ACTIVE |>
                   <| svc_externalAccountId := Some (ha_externalAccountId account) |>
                   <| svc_controlPanelUsername := Some (ha_username account) |>
                   <| svc_activatedAt := Some now |>
                   <| svc_provisioningFailureReason := None |>)
  | SuspendAccount reason =>
      Some (λ s, s <| svc_status := ServiceStatus.SUSPENDED |>
                   <| svc_suspendedAt := Some now |> <| svc_suspensionReason := Some reason |>
                   <| svc_suspensionInvoiceId := None |>)
  | UnsuspendAccount =>
      Some (λ s, s <| svc_status := ServiceStatus.ACTIVE |>
                   <| svc_suspensionInvoiceId := None |>)
  | TerminateAccount reason =>
      Some (λ s, s <| svc_status := ServiceStatus.TERMINATED |>
                   <| svc_terminatedAt := Some now |>
                   <| svc_terminationReason := Some reason |>
                   <| svc_terminatedByUserId := Some actorUserId |>)
  | _ => None
  end.
Definition applyServiceSuccess (serviceId : string) (a : option PanelAction)
    (account : option HostingAccount) (actorUserId operationId : string) (now : Z) : Io unit :=
  _ ← match a ← a; service_after a account actorUserId now with
      | Some f => update_service serviceId f
      | None => mret tt
      end;
  _ ← match a, account with
      | Some CreateAccount, Some _ =>
          found ← read (λ d, services d !! serviceId);
          match found with
          | Some s => complete_order_of s now
          | None => mret tt
          end
      | _, _ => mret tt
      end;
  match email_event a account with
  | Some eventType =>
      create_outbox "SERVICE" serviceId eventType ("email:service:" ++ operationId)%string
        (JObj [("schemaVersion", JNum 1); ("serviceId", JStr serviceId)])
  | None => mret tt
  end.
Definition operation_log (actor : Identity) (context : SecurityRequestContext)
    (action : string) (r : HostingPanelOperation) (metadata : list (string * json))
    : ActivityLog :=
  let '(entityType, entityId) :=
    match op_serviceId r with
    | Some s => ("SERVICE", s) | None => ("SERVER", op_serverId r) end in
  MkActivityLog (Some (userId actor)) action entityType (Some entityId) (Some (op_id r))
    (Some (ipAddressHash context))
    (JObj ([("operationType", JStr (type_name (op_type r)));
            ("adapterKey", JStr (op_adapterKey r))] ++ metadata ++
           [("attemptNumber", JNum (op_attemptNumber r))])).
Definition find_operation_or_throw (operationId : string) : Io HostingPanelOperation :=
  found ← read (λ d, panelOperations d !! operationId);
  lift (of_option RecordNotFound found).
Definition completeSuccess_tx (operationId : string) (actor : Identity)
    (context : SecurityRequestContext) (success : ProviderSuccess) (a : option PanelAction)
    : Io OperationRecord :=
  now ← new_date;
  current ← find_operation_or_throw operationId;
  _ ← match op_serviceId current with
      | Some serviceId =>
          _ ← lock_row "services" serviceId;
          applyServiceSuccess serviceId a (pv_account success) (userId actor) operationId now
      | None => mret tt
      end;
  _ ← update_operation operationId (λ r,
        r <| op_status := OperationStatus.SUCCEEDED |> <| op_completedAt := Some now |>
          <| op_resultMetadata := pv_metadata success |>);
  record ← operation_record operationId;
  _ ← log_activity (operation_log actor context "HOSTING_PANEL_OPERATION_SUCCEEDED" current []);
  mret record.
Definition completeFailure_tx (operationId : string) (error : PanelError) (actor : Identity)
    (context : SecurityRequestContext) : Io OperationRecord :=
  current ← find_operation_or_throw operationId;
  now ← new_date;
  _ ← match op_serviceId current with
      | Some serviceId =>
          when (bool_decide (op_type current = OperationType.CREATE_ACCOUNT))
            (update_service serviceId (λ s,
               s <| svc_status := ServiceStatus.PROVISION_FAILED |>
                 <| svc_provisioningFailureReason := Some (perr_message error) |>))
      | None => mret tt
      end;
  let retryable := bool_decide (perr_kind error = ErrorKind.TEMPORARY) in
  _ ← update_operation operationId (λ r,
        r <| op_status := if bool_decide (perr_kind error = ErrorKind.INCONSISTENT)
                          then OperationStatus.INCONSISTENT else OperationStatus.FAILED |>
          <| op_retryable := retryable |> <| op_errorKind := Some (perr_kind error) |>
          <| op_errorCode := Some (perr_code error) |>
          <| op_errorMessage := Some (perr_message error) |>
          <| op_completedAt := Some now |>);
  record ← operation_record operationId;
  _ ← log_activity (operation_log actor context "HOSTING_PANEL_OPERATION_FAILED" current
        [("errorKind", JStr (ErrorKind.to_string (perr_kind error)));
         ("errorCode", JStr (perr_code error)); ("retryable", JBool retryable)]);
  mret record.
Definition new_operation (serviceId : option string) (serverId requester : string)
    (type : OperationType) (adapterKey idempotencyKey fingerprint : string)
    (options : ExecutionOptions) (metadata : json) (id : string) (now : Z)
    : HostingPanelOperation :=
  MkOperation id serviceId serverId (Some requester) None (eo_retryOfOperationId options) type
    OperationStatus.RUNNING adapterKey idempotencyKey fingerprint
    (default 1 (eo_attemptNumber options)) false None None None metadata JNull now None now now.

Section operations.
Context `{ZodUrl} `{UrlParser}.
(** [operation_view_ok]: [hostingPanelOperationSchema] accepts a row and its server.
    [hmac_hex] is HMAC-SHA256 in hexadecimal, under [fingerprintKey]. *)
Context (operation_view_ok : HostingPanelOperation → Server → bool).
Context (hmac_hex : string → string → string) (fingerprintKey : string).
Context (decipher : string → string → string → string → option string).
Context (cpanelWhm fake : HostingPanel World).
Context (virtualizor : HostingPanelConnection → Io HostingPanelConnectionResult).
Context (production : bool) (panelTimeoutMilliseconds : Z).

Definition fingerprint (fields : list (string * string)) : string :=
  hmac_hex fingerprintKey (stringify fields).
Definition service_fingerprint (serviceId : string) (input : ExecuteHostingOperationRequest)
    : string := fingerprint (("serviceId", serviceId) :: request_fields input).
Definition test_fingerprint (serverId : string) : string :=
  fingerprint [("serverId", serverId); ("type", "TEST_CONNECTION")].
Definition operation_key_of (submissionKey : string) : string :=
  ("hosting-operation:" ++ submissionKey)%string.
Definition operation_result (record : OperationRecord) (duplicate : bool)
    (loginUrl : option string) : Io HostingPanelOperationResult :=
  let '(operation, server) := record in
  let account := match get "account" (metadataObject (op_resultMetadata operation)) with
                 | JUndefined => None | v => hostingAccountSchema v end in
  _ ← require (operation_view_ok operation server &&
               match loginUrl with
               | Some u => bool_decide (is_Some (hostingPanelLoginUrlSchema (JStr u)))
               | None => true end) ZodError;
  mret (MkOperationResult operation server account duplicate loginUrl).
Definition connection (server : Server) : result HostingPanelConnection :=
  credential ←
    (match srv_credentialsCiphertext server, srv_credentialKeyVersion server with
     | Some text, Some version =>
         if truthy text && truthy version
         then Some <$> decrypt decipher (srv_id server) version text else Ok None
     | _, _ => Ok None
     end);
  Ok (MkConnection (srv_id server) (srv_hostname server) (srv_port server) (srv_useTls server)
        (srv_apiUsername server) credential).
Definition timed {A} (mutation : bool) (task : Io A) : Io A :=
  withHostingPanelTimeout task panelTimeoutMilliseconds mutation.
Definition with_account (task : Io HostingAccount) : Io ProviderSuccess :=
  account ← task; mret (MkProviderSuccess (Some account) None (account_metadata account)).
Definition callProvider (panel : HostingPanel World) (service : PanelService)
    (a : PanelAction) (idempotencyKey : string) : Io ProviderSuccess :=
  let s := pv_service service in
  conn ← lift (connection (pv_server service));
  match a with
  | CreateAccount =>
      mode ← lift (readHostingProvisioningMode (svc_provisioningSnapshot s));
      package ← lift (packageIdentifier (svc_provisioningSnapshot s));
      created ← timed true (createAccount panel conn
        (MkCreateAccount (svc_id s) (default "" (svc_domain s)) package (pv_email service)
           idempotencyKey (Some mode)));
      mret (MkProviderSuccess (Some (hr_account created)) None
              (JObj [("account", hosting_account_json (hr_account created));
                     ("created", JBool (hr_created created))]))
  | _ =>
      ref ← lift (reference s);
      match a with
      | SuspendAccount reason =>
          with_account (timed true (suspendAccount panel conn ref reason))
      | UnsuspendAccount => with_account (timed true (unsuspendAccount panel conn ref))
      | ChangePackage package =>
          with_account (timed true (changePackage panel conn ref package))
      | ChangePassword password =>
          with_account (timed true (changePassword panel conn ref password))
      | GenerateLoginUrl =>
          login ← timed false (generateLoginUrl panel conn ref);
          url ← lift (parse hostingPanelLoginUrlSchema (JStr (lr_url login)));
          mret (MkProviderSuccess None (Some url)
                  (JObj [("loginExpiresAt", JStr (to_ISO_string (lr_expiresAt login)))]))
      | TerminateAccount reason =>
          _ ← timed true (terminateAccount panel conn ref reason);
          mret (MkProviderSuccess None None (JObj [("terminated", JBool true)]))
      | GetAccount | CreateAccount => with_account (timed false (getAccount panel conn ref))
      end
  end.
Definition completeSuccess (operationId : string) (actor : Identity)
    (context : SecurityRequestContext) (success : ProviderSuccess) (a : option PanelAction)
    : Io OperationRecord :=
  transaction (completeSuccess_tx operationId actor context success a).
Definition completeFailure (operationId : string) (error : PanelError) (actor : Identity)
    (context : SecurityRequestContext) : Io OperationRecord :=
  transaction (completeFailure_tx operationId error actor context).

(** The operation to carry out, or the one the submission key already has. *)
Definition prepare_panel_tx (serviceId : string) (input : ExecuteHostingOperationRequest)
    (actor : Identity) (context : SecurityRequestContext) (options : ExecutionOptions)
    : Io (OperationRecord + HostingPanelOperation * PanelService) :=
  let a := eh_action input in
  let key := operation_key_of (eh_submissionKey input) in
  let print := service_fingerprint serviceId input in
  _ ← lock_row "services" serviceId;
  concurrent ← find_operation key;
  match concurrent with
  | Some record =>
      _ ← require (String.eqb (op_requestFingerprint record.1) print) key_used;
      mret (inl record)
  | None =>
      found ← read (λ d, services d !! serviceId);
      s ← lift (of_option service_not_found found);
      service ← read (panel_service s);
      service ← lift (of_option inconsistent_query service);
      cancelled ← read (cancellation_completed serviceId);
      _ ← require (match a with UnsuspendAccount => negb cancelled | _ => true end)
            (unprocessable "This service has a completed cancellation.");
      _ ← lift (validateAction service a);
      running ← read (λ d, some_row (λ r, bool_decide (op_serviceId r = Some serviceId) &&
                                          is_running r) (panelOperations d));
      _ ← require (negb running) (conflict "Another hosting operation is already running.");
      _ ← when (is_create a) (assertAccountCreationAttempt serviceId options);
      id ← random_uuid;
      now ← new_date;
      let r := new_operation (Some serviceId) (svc_serverId s) (userId actor) (action_type a)
                 (srv_adapterKey (pv_server service)) key print options
                 (safeRequestMetadata a) id now in
      _ ← create_operation r;
      _ ← when (is_create a) (update_service serviceId (λ s,
            s <| svc_status := ServiceStatus.PROVISIONING |>
              <| svc_provisioningFailureReason := None |>));
      _ ← log_activity (operation_log actor context "HOSTING_PANEL_OPERATION_STARTED" r []);
      mret (inr (r, service))
  end.
Definition prepared_or_raced (serviceId : string) (input : ExecuteHostingOperationRequest)
    (actor : Identity) (context : SecurityRequestContext) (options : ExecutionOptions)
    : Io (OperationRecord + HostingPanelOperation * PanelService) :=
  catch (transaction (prepare_panel_tx serviceId input actor context options))
    (λ e, if is_unique_violation e then
            raced ← findDuplicate (operation_key_of (eh_submissionKey input))
                      (service_fingerprint serviceId input);
            match raced with
            | Some record => mret (inl record)
            | None => throw (conflict "The hosting operation could not be created safely.")
            end
          else throw e).
(** What the panel answers to a prepared operation. *)
Definition panel_answer (service : PanelService) (input : ExecuteHostingOperationRequest)
    : Io ProviderSuccess :=
  panel ← lift (registry_get cpanelWhm fake production (srv_adapterKey (pv_server service)));
  success ← callProvider panel service (eh_action input)
              (operation_key_of (eh_submissionKey input));
  _ ← lift (validateProviderResult (pv_service service) (eh_action input) (pv_account success));
  mret success.
Definition carry_out (operation : HostingPanelOperation) (service : PanelService)
    (input : ExecuteHostingOperationRequest) (actor : Identity)
    (context : SecurityRequestContext) : Io HostingPanelOperationResult :=
  answer ← reify (panel_answer service input);
  match answer with
  | Err e =>
      completed ← completeFailure (op_id operation)
        (normalizeHostingPanelError e (isMutation (eh_action input))) actor context;
      operation_result completed false None
  | Ok success =>
      completed ← completeSuccess (op_id operation) actor context success
                    (Some (eh_action input));
      operation_result completed false (pv_loginUrl success)
  end.
Definition executeServiceOperation (serviceId : string)
    (input : ExecuteHostingOperationRequest) (actor : Identity)
    (context : SecurityRequestContext) (options : ExecutionOptions)
    : Io HostingPanelOperationResult :=
  duplicate ← findDuplicate (operation_key_of (eh_submissionKey input))
                (service_fingerprint serviceId input);
  match duplicate with
  | Some record => operation_result record true None
  | None =>
      prepared ← prepared_or_raced serviceId input actor context options;
      match prepared with
      | inl record => operation_result record true None
      | inr (operation, service) => carry_out operation service input actor context
      end
  end.
Definition is_admin (actor : Identity) : bool :=
  match actor with AdminIdentity _ => true | CustomerIdentity _ _ => false end.
Definition execute (serviceId : string) (input : ExecuteHostingOperationRequest)
    (actor : Identity) (context : SecurityRequestContext) : Io HostingPanelOperationResult :=
  _ ← require (is_admin actor)
        (forbidden "Only administrators can run hosting operations.");
  executeServiceOperation serviceId input actor context no_options.
Definition generateCustomerLogin (serviceId submissionKey : string) (actor : Identity)
    (context : SecurityRequestContext) : Io HostingPanelOperationResult :=
  owner ← read (λ d, svc_customerId <$> services d !! serviceId);
  _ ← require (match actor with
               | CustomerIdentity _ c => bool_decide (owner = Some c)
               | AdminIdentity _ => false end) service_forbidden;
  executeServiceOperation serviceId (MkExecute submissionKey GenerateLoginUrl) actor context
    no_options.

(** ** Tests of a connection *)
Definition server_not_found : exn := not_found "Server was not found.".
Definition live_server (serverId : string) (d : Db) : option Server :=
  s ← servers d !! serverId; if bool_decide (srv_deletedAt s = None) then Some s else None.
Definition createOperation_tx (server : Server) (idempotencyKey print : string)
    (actor : Identity) (context : SecurityRequestContext) (options : ExecutionOptions)
    : Io HostingPanelOperation :=
  id ← random_uuid;
  now ← new_date;
  let r := new_operation None (srv_id server) (userId actor) OperationType.TEST_CONNECTION
             (srv_adapterKey server) idempotencyKey print options (JObj []) id now in
  _ ← create_operation r;
  _ ← log_activity (operation_log actor context "HOSTING_PANEL_OPERATION_STARTED" r []);
  mret r.
Definition same_connection (server latest : Server) : bool :=
  bool_decide (srv_updatedAt latest = srv_updatedAt server) &&
  bool_decide (srv_hostname latest = srv_hostname server) &&
  bool_decide (srv_port latest = srv_port server) &&
  bool_decide (srv_apiUsername latest = srv_apiUsername server) &&
  bool_decide (srv_credentialsCiphertext latest = srv_credentialsCiphertext server).
Definition test_answer (server : Server) : Io HostingPanelConnectionResult :=
  latest ← read (live_server (srv_id server));
  _ ← require (match latest with Some l => same_connection server l | None => false end)
        (HostingPanelProviderError ErrorKind.PERMANENT "PANEL_CONNECTION_CHANGED"
           "The server configuration changed. Run a new connection test.");
  if String.eqb (srv_adapterKey server) "virtualizor" then
    conn ← lift (connection server); timed false (virtualizor conn)
  else
    panel ← lift (registry_get cpanelWhm fake production (srv_adapterKey server));
    conn ← lift (connection server);
    timed false (testConnection panel conn).
Definition executeConnectionTest (serverId submissionKey : string) (actor : Identity)
    (context : SecurityRequestContext) (options : ExecutionOptions)
    : Io HostingPanelOperationResult :=
  _ ← require (is_admin actor)
        (forbidden "Only administrators can test panel connections.");
  found ← read (live_server serverId);
  server ← lift (of_option server_not_found found);
  let key := operation_key_of submissionKey in
  let print := test_fingerprint serverId in
  duplicate ← findDuplicate key print;
  match duplicate with
  | Some record => operation_result record true None
  | None =>
      created ← catch
        (r ← transaction (createOperation_tx server key print actor context options);
         mret (inr r))
        (λ e, if is_unique_violation e then
                raced ← findDuplicate key print;
                match raced with
                | Some record => mret (inl record)
                | None => throw (conflict "The connection test could not be created safely.")
                end
              else throw e);
      match created with
      | inl record => operation_result record true None
      | inr operation =>
          answer ← reify (test_answer server);
          completed ←
            (match answer with
             | Err e => completeFailure (op_id operation)
                          (normalizeHostingPanelError e false) actor context
             | Ok r => completeSuccess (op_id operation) actor context
                 (MkProviderSuccess None None
                    (JObj [("providerVersion", JStr (cr_providerVersion r));
                           ("capabilities", JArr (JStr <$> cr_capabilities r))])) None
             end);
          operation_result completed false None
      end
  end.

(** ** Retries *)
Definition retry_options (original : HostingPanelOperation) : ExecutionOptions :=
  MkOptions (Some (op_id original)) (Some (op_attemptNumber original + 1)).
Definition retry_guards (original : HostingPanelOperation) : result unit :=
  _ ← throw_unless (bool_decide (op_status original = OperationStatus.FAILED) &&
                    op_retryable original)
        (unprocessable "Only a safely retryable failed hosting operation can be retried.");
  throw_unless (negb (MAX_MANUAL_ATTEMPTS <=? op_attemptNumber original))
    (unprocessable "The manual retry limit has been reached.").
Definition retry (operationId : string) (input : RetryHostingOperationRequest)
    (actor : Identity) (context : SecurityRequestContext) : Io HostingPanelOperationResult :=
  _ ← require (is_admin actor)
        (forbidden "Only administrators can retry hosting operations.");
  found ← read (λ d, panelOperations d !! operationId);
  original ← lift (of_option (not_found "Hosting operation was not found.") found);
  _ ← lift (retry_guards original);
  match op_serviceId original with
  | None =>
      duplicate ← findDuplicate (operation_key_of (rh_submissionKey input))
                    (test_fingerprint (op_serverId original));
      match duplicate with
      | Some record => operation_result record true None
      | None =>
          _ ← assertNotAlreadyRetried (op_id original);
          executeConnectionTest (op_serverId original) (rh_submissionKey input) actor context
            (retry_options original)
      end
  | Some serviceId =>
      again ← lift (reconstruct original input);
      duplicate ← findDuplicate (operation_key_of (eh_submissionKey again))
                    (service_fingerprint serviceId again);
      match duplicate with
      | Some record => operation_result record true None
      | None =>
          _ ← assertNotAlreadyRetried (op_id original);
          executeServiceOperation serviceId again actor context (retry_options original)
      end
  end.
End operations.
