(* ===== verification/JsonText.v ===== *)
(** * JSON texts

    [JSON.stringify] and [JSON.parse] of untyped values, and
    [losslessRegistrarJson] of packages/database/src/registrar/logicboxes-sandbox.ts,
    which quotes the numbers of a text before it is parsed.  Characters above U+00FF,
    which strings of this model do not hold, are refused where they are escaped; a
    number that is not a safe integer keeps its text, as [JSON.stringify] writes it. *)
From S2P Require Import Prelude JsString Json Money States Database Invoices HostingPanels PanelOperations.

(** ** JSON.stringify *)
Definition is_undefined (v : json) : bool := match v with JUndefined => true | _ => false end.
Fixpoint json_print (v : json) : string :=
  match v with
  | JUndefined | JNull => "null"
  | JBool b => if b then "true" else "false"
  | JNum n => Z_to_string n
  | JFrac t => t
  | JStr s => json_text s
  | JArr l => ("[" ++ String.concat "," (List.map json_print l) ++ "]")%string
  | JObj o =>
      ("{" ++ String.concat ","
         (List.flat_map (λ kv, if is_undefined kv.2 then []
                               else [(json_text kv.1 ++ ":" ++ json_print kv.2)%string]) o) ++
       "}")%string
  end.

(** ** Tokens *)
Definition is_json_space (c : ascii) : bool :=
  (code c =? 9) || (code c =? 10) || (code c =? 13) || (code c =? 32).
Fixpoint skip_space (s : string) : string :=
  match s with
  | String c t => if is_json_space c then skip_space t else s
  | EmptyString => s
  end.
(** The longest prefix of digits. *)
Fixpoint take_digits (s : string) : string * string :=
  match s with
  | String c t => if is_digit c then let '(d, r) := take_digits t in (String c d, r)
                  else ("", s)
  | EmptyString => ("", s)
  end.
Definition take_sign (signs : list ascii) (s : string) : string * string :=
  match s with
  | String c t => if existsb (Ascii.eqb c) signs then (String c "", t) else ("", s)
  | EmptyString => ("", s)
  end.
(** [0|[1-9][0-9]*]. *)
Definition take_integer (s : string) : option (string * string) :=
  match s with
  | String c t =>
      if Ascii.eqb c "0" then Some ("0", t)
      else if is_nonzero_digit c then let '(d, r) := take_digits t in Some (String c d, r)
      else None
  | EmptyString => None
  end.
(** The optional fraction and exponent: nothing when a digit is missing. *)
Definition take_fraction (s : string) : string * string :=
  match s with
  | String c t =>
      if Ascii.eqb c "." then
        let '(d, r) := take_digits t in
        if truthy d then (String c d, r) else ("", s)
      else ("", s)
  | EmptyString => ("", s)
  end.
Definition take_exponent (s : string) : string * string :=
  match s with
  | String c t =>
      if Ascii.eqb c "e" || Ascii.eqb c "E" then
        let '(sign, t) := take_sign ["+"%char; "-"%char] t in
        let '(d, r) := take_digits t in
        if truthy d then (String c (sign ++ d)%string, r) else ("", s)
      else ("", s)
  | EmptyString => ("", s)
  end.
Definition take_number (s : string) : option (string * string) :=
  let '(sign, s) := take_sign ["-"%char] s in
  '(i, s) ← take_integer s;
  let '(f, s) := take_fraction s in
  let '(e, s) := take_exponent s in
  Some ((sign ++ i ++ f ++ e)%string, s).
Fixpoint take_word (w s : string) : option string :=
  match w, s with
  | EmptyString, _ => Some s
  | String a w, String b s => if Ascii.eqb a b then take_word w s else None
  | _, EmptyString => None
  end.
(** A literal name or a number: its text, and whether it is a number. *)
Definition take_primitive (s : string) : option (string * bool * string) :=
  match take_word "true" s, take_word "false" s, take_word "null" s with
  | Some r, _, _ => Some ("true", false, r)
  | _, Some r, _ => Some ("false", false, r)
  | _, _, Some r => Some ("null", false, r)
  | _, _, _ => '(t, r) ← take_number s; Some (t, true, r)
  end.

(** ** JSON.parse *)
Definition hex_value (c : ascii) : option Z :=
  if is_digit c then Some (code c - 48)
  else if in_range "a" "f" c then Some (code c - 87)
  else if in_range "A" "F" c then Some (code c - 55)
  else None.
Definition unescape (c : ascii) : option ascii :=
  if Ascii.eqb c "034" || Ascii.eqb c "092" || Ascii.eqb c "/" then Some c
  else if Ascii.eqb c "b" then Some "008"%char
  else if Ascii.eqb c "t" then Some "009"%char
  else if Ascii.eqb c "n" then Some "010"%char
  else if Ascii.eqb c "f" then Some "012"%char
  else if Ascii.eqb c "r" then Some "013"%char
  else None.
(** The characters of a string after its opening quote, and what follows it. *)
Fixpoint parse_chars (s : string) : option (string * string) :=
  match s with
  | EmptyString => None
  | String c t =>
      if Ascii.eqb c "034" then Some ("", t)
      else if Ascii.eqb c "092" then
        match t with
        | String "u" (String a (String b (String c2 (String d r)))) =>
            a ← hex_value a; b ← hex_value b; c2 ← hex_value c2; d ← hex_value d;
            if (a =? 0) && (b =? 0) then
              '(v, rest) ← parse_chars r;
              Some (String (ascii_of_N (Z.to_N (16 * c2 + d))) v, rest)
            else None
        | String e r => e ← unescape e; '(v, rest) ← parse_chars r; Some (String e v, rest)
        | EmptyString => None
        end
      else if code c <? 32 then None
      else '(v, rest) ← parse_chars t; Some (String c v, rest)
  end.
(** [CreateDataProperty]: a repeated name keeps its place and takes the new value. *)
Fixpoint put (k : string) (v : json) (o : list (string * json)) : list (string * json) :=
  match o with
  | [] => [(k, v)]
  | (k', v') :: o => if String.eqb k k' then (k', v) :: o else (k', v') :: put k v o
  end.
Definition integer_text (t : string) : bool :=
  match t with
  | String "-" r => truthy r && all_chars is_digit r
  | r => truthy r && all_chars is_digit r
  end.
Definition text_to_Z (t : string) : Z :=
  match t with String "-" r => - string_to_Z r | r => string_to_Z r end.
Definition number_value (t : string) : json :=
  if integer_text t && (Z.abs (text_to_Z t) <=? max_safe_integer)
  then JNum (text_to_Z t) else JFrac t.
Definition primitive_value (t : string) (number : bool) : json :=
  if number then number_value t
  else if String.eqb t "null" then JNull else JBool (String.eqb t "true").
(** Values, the rest of an array after its first bracket or comma, the rest of an
    object: the fuel bounds the nesting of calls. *)
Fixpoint parse_value (n : nat) (s : string) : option (json * string) :=
  match n with
  | O => None
  | S n =>
      match skip_space s with
      | EmptyString => None
      | String c t as s =>
          if Ascii.eqb c "034" then '(v, r) ← parse_chars t; Some (JStr v, r)
          else if Ascii.eqb c "[" then
            match skip_space t with
            | String "]" r => Some (JArr [], r)
            | t => parse_items n t []
            end
          else if Ascii.eqb c "{" then
            match skip_space t with
            | String "}" r => Some (JObj [], r)
            | t => parse_fields n t []
            end
          else '(t, number, r) ← take_primitive s; Some (primitive_value t number, r)
      end
  end
with parse_items (n : nat) (s : string) (acc : list json) : option (json * string) :=
  match n with
  | O => None
  | S n =>
      '(v, r) ← parse_value n s;
      match skip_space r with
      | String "," t => parse_items n t (acc ++ [v])
      | String "]" t => Some (JArr (acc ++ [v]), t)
      | _ => None
      end
  end
with parse_fields (n : nat) (s : string) (acc : list (string * json))
    : option (json * string) :=
  match n with
  | O => None
  | S n =>
      match skip_space s with
      | String c t =>
          if Ascii.eqb c "034" then
            '(k, r) ← parse_chars t;
            match skip_space r with
            | String ":" t =>
                '(v, r) ← parse_value n t;
                match skip_space r with
                | String "," t => parse_fields n t (put k v acc)
                | String "}" t => Some (JObj (put k v acc), t)
                | _ => None
                end
            | _ => None
            end
          else None
      | EmptyString => None
      end
  end.
Definition parse_fuel (s : string) : nat := S (S (String.length s + String.length s)).
Definition json_parse (s : string) : option json :=
  '(v, r) ← parse_value (parse_fuel s) s;
  if truthy (skip_space r) then None else Some v.

(** ** losslessRegistrarJson *)
Record JsonLimits := MkJsonLimits { jl_bytes : Z; jl_nodes : Z }.
Definition default_limits : JsonLimits := MkJsonLimits 65536 4096.
Definition cost_limits : JsonLimits := MkJsonLimits 262144 32768.
Definition invalid_response : exn := JsError "Invalid registrar response.".
(** [string()]: to the closing quote, skipping what a backslash escapes. *)
Fixpoint scan_string (s : string) : option (string * string) :=
  match s with
  | EmptyString => None
  | String c t =>
      if Ascii.eqb c "092" then
        match t with
        | String e r => '(v, rest) ← scan_string r; Some (String c (String e v), rest)
        | EmptyString => None
        end
      else if Ascii.eqb c "034" then Some (String c "", t)
      else '(v, rest) ← scan_string t; Some (String c v, rest)
  end.
(** The text of a string token, the string it stands for, and the rest. *)
Definition scan_token (s : string) : option (string * string * string) :=
  '(body, rest) ← scan_string s;
  v ← json_parse (String "034" body);
  match v with JStr k => Some (String "034" body, k, rest) | _ => None end.
Definition spaces (s : string) : string :=
  String.substring 0 (String.length s - String.length (skip_space s)) s.
Definition quote_number (number : bool) (t : string) : string :=
  if number then json_text t else t.
Definition refused_keys : list string := ["__proto__"; "constructor"; "prototype"].
Definition max_depth : Z := 16.
(** [value(depth)] and its loop over the members of an array or object ([object],
    with the keys seen): the text with its numbers quoted, the nodes counted and the
    text that follows. *)
Fixpoint scan_value (limit : Z) (n : nat) (depth nodes : Z) (s : string)
    : option (string * Z * string) :=
  match n with
  | O => None
  | S n =>
      if (max_depth <? depth) || (limit <? nodes + 1) then None
      else
        let nodes := nodes + 1 in
        let sp := spaces s in
        match skip_space s with
        | EmptyString => None
        | String c t as s =>
            if Ascii.eqb c "034" then
              '(tok, _, r) ← scan_token t; Some ((sp ++ tok)%string, nodes, r)
            else if Ascii.eqb c "{" || Ascii.eqb c "[" then
              let object := Ascii.eqb c "{" in
              let close := if object then "}"%char else "]"%char in
              let sp2 := spaces t in
              match skip_space t with
              | EmptyString => None
              | String c2 r as t =>
                  if Ascii.eqb c2 close
                  then Some ((sp ++ String c (sp2 ++ String c2 ""))%string, nodes, r)
                  else
                    '(out, nodes, r) ← scan_members limit n depth nodes object close [] t;
                    Some ((sp ++ String c (sp2 ++ out))%string, nodes, r)
              end
            else
              '(t, number, r) ← take_primitive s;
              Some ((sp ++ quote_number number t)%string, nodes, r)
        end
  end
with scan_members (limit : Z) (n : nat) (depth nodes : Z) (object : bool) (close : ascii)
    (keys : list string) (s : string) : option (string * Z * string) :=
  match n with
  | O => None
  | S n =>
      '(head_, keys, s) ←
        (if object then
           match s with
           | String "034" t =>
               '(tok, k, r) ← scan_token t;
               if existsb (String.eqb k) keys || existsb (String.eqb k) refused_keys
               then None
               else
                 match skip_space r with
                 | String ":" r2 =>
                     Some ((tok ++ spaces r ++ ":")%string, k :: keys, r2)
                 | _ => None
                 end
           | _ => None
           end
         else Some ("", keys, s));
      '(out, nodes, r) ← scan_value limit n (depth + 1) nodes s;
      match skip_space r with
      | EmptyString => None
      | String c t =>
          let upto := (head_ ++ out ++ spaces r ++ String c "")%string in
          if Ascii.eqb c close then Some (upto, nodes, t)
          else if Ascii.eqb c "," then
            '(more, nodes, r) ←
              scan_members limit n depth nodes object close keys (skip_space t);
            Some ((upto ++ spaces t ++ more)%string, nodes, r)
          else None
      end
  end.
Definition lossless_text (limits : JsonLimits) (body : string) : option string :=
  '(out, _, r) ← scan_value (jl_nodes limits) (parse_fuel body) 0 0 body;
  if truthy (skip_space r) then None else Some (out ++ r)%string.
Definition losslessRegistrarJson (limits : JsonLimits) (body : string) : result json :=
  _ ← throw_unless (utf8_length body <=? jl_bytes limits)
        (JsError "Registrar response exceeds the limit.");
  of_option invalid_response (quoted ← lossless_text limits body; json_parse quoted).
