(* ===== verification/ServerAdministration.v ===== *)
(** * Administration of servers

    The servers of hosting-panel.service.ts (createServer, updateServer,
    removeServer, configureCpanelServer) and server-administration.service.ts,
    and the Virtualizor client that tests a connection. *)
From S2P Require Import Prelude JsString JsDate Json Money States Database Invoices Payments Gateways GatewayAdapters Orders HostingServices HostingAutomation HostingPanels CpanelAdapter PanelOperations.

(** ** contracts *)
Record CreateCpanelServerRequest := MkCreateServer
  { csr_name : string; csr_hostname : string; csr_port : Z; csr_apiUsername : string;
    csr_apiToken : string; csr_maxAccounts : option Z }.
Record UpdateCpanelServerRequest := MkUpdateServer
  { us_name : option string; us_hostname : option string; us_port : option Z;
    us_apiUsername : option string; us_apiToken : option string;
    us_maxAccounts : option (option Z); us_status : option ServerStatus }.
Record ConfigureCpanelServerRequest := MkConfigure
  { cfg_hostname : string; cfg_port : Z; cfg_apiUsername : string; cfg_apiToken : string }.
Inductive ServerType := CPANEL | VIRTUALIZOR | VULTR | SHOUTCAST.
#[export] Instance ServerType_eq_dec : EqDecision ServerType.
Proof. solve_decision. Defined.
Definition serverAdapterKeys (t : ServerType) : string :=
  match t with
  | CPANEL => "cpanel-whm" | VIRTUALIZOR => "virtualizor" | VULTR => "vultr"
  | SHOUTCAST => "shoutcast"
  end.
(** A server without a cPanel: its credentials are the texts of an object. *)
Record OtherServer := MkOtherServer
  { os_type : ServerType; os_name : string; os_hostname : string; os_port : Z;
    os_maxAccounts : option Z; os_credentials : list (string * string) }.
Record OtherServerUpdate := MkOtherUpdate
  { ou_type : ServerType; ou_name : option string; ou_hostname : option string;
    ou_port : option Z; ou_maxAccounts : option (option Z); ou_disable : bool;
    ou_credentials : option (list (string * string)) }.
Inductive CreateServerRequest :=
| NewCpanel (input : CreateCpanelServerRequest)
| NewOther (input : OtherServer).
Inductive UpdateServerRequest :=
| EditCpanel (input : UpdateCpanelServerRequest)
| EditOther (input : OtherServerUpdate).
Definition otherAdapters : list string := ["virtualizor"; "vultr"; "shoutcast"].

(** ** Rows *)
(** [server.create] and [server.update]: names and host names are unique. *)
Definition put_server (r : Server) : Io unit :=
  write (λ d, d <| servers := <[srv_id r := r]> (servers d) |>).
Definition create_server (r : Server) : Io unit :=
  m ← read servers;
  _ ← require (bool_decide (m !! srv_id r = None) && unique_in m srv_name (srv_name r) &&
               unique_in m srv_hostname (srv_hostname r)) UniqueViolation;
  put_server r.
Definition update_server (id : string) (f : Server → Server) : Io Server :=
  now ← new_date;
  m ← read servers;
  match m !! id with
  | None => throw RecordNotFound
  | Some s =>
      let s' := f s <| srv_updatedAt := now |> in
      _ ← require (unique_in (delete id m) srv_name (srv_name s') &&
                   unique_in (delete id m) srv_hostname (srv_hostname s')) UniqueViolation;
      _ ← write (λ d, d <| servers := <[id := s']> m |>);
      mret s'
  end.
Definition services_of (serverId : string) (d : Db) : Z :=
  count_rows (λ s, String.eqb (svc_serverId s) serverId) (services d).
(** Operations whose outcome is not known. *)
Definition uncertain (r : HostingPanelOperation) : bool :=
  (op_status r ==b OperationStatus.RUNNING) || (op_status r ==b OperationStatus.INCONSISTENT).
Definition unresolved (serverId : string) (d : Db) : Z :=
  count_rows (λ r, String.eqb (op_serverId r) serverId && uncertain r) (panelOperations d).
Definition is_live (s : Service) : bool :=
  negb (svc_status s ==b ServiceStatus.TERMINATED) &&
  negb (svc_status s ==b ServiceStatus.CANCELLED).
Definition live_services (serverId : string) (d : Db) : Z :=
  count_rows (λ s, String.eqb (svc_serverId s) serverId && is_live s) (services d).
Definition tested_since (serverId : string) (since : Z) (d : Db) : bool :=
  some_row (λ r, String.eqb (op_serverId r) serverId &&
                 bool_decide (op_type r = OperationType.TEST_CONNECTION) &&
                 bool_decide (op_status r = OperationStatus.SUCCEEDED) &&
                 (since <? op_startedAt r)) (panelOperations d).
Definition cpanel_server (serverId : string) (d : Db) : option Server :=
  s ← live_server serverId d; if String.eqb (srv_adapterKey s) "cpanel-whm" then Some s else None.
Definition other_server (serverId : string) (d : Db) : option Server :=
  s ← live_server serverId d;
  if existsb (String.eqb (srv_adapterKey s)) otherAdapters then Some s else None.
Record CpanelServerConfiguration := MkConfiguration
  { cc_server : Server; cc_credentialConfigured : bool }.
Record ManagedServer := MkManaged
  { ms_server : Server; ms_credentialConfigured : bool; ms_assignedServiceCount : Z }.
Definition changed {A} `{EqDecision A} (input : option A) (current : A) : bool :=
  match input with Some a => negb (bool_decide (a = current)) | None => false end.
Definition set_opt {A R} (proj : R → A) `{!Setter proj} (input : option A) (r : R) : R :=
  match input with Some a => set_field proj (λ _, a) r | None => r end.
Definition field_name {A} (k : string) (input : option A) : list json :=
  match input with Some _ => [JStr k] | None => [] end.
Definition status_text (s : ServerStatus) : string :=
  match s with
  | ServerStatus.ACTIVE => "ACTIVE" | ServerStatus.MAINTENANCE => "MAINTENANCE"
  | ServerStatus.DISABLED => "DISABLED"
  end.
Definition server_audit (actor : Identity) (context : SecurityRequestContext)
    (action serverId : string) (metadata : list (string * json)) : Io unit :=
  log_activity (admin_log actor context action "SERVER" (Some serverId) (JObj metadata)).
Definition name_taken : exn :=
  conflict "A server with this name or hostname already exists.".
(** [catch (error) { if (isUniqueConstraintError(error)) throw conflict }]. *)
Definition or_taken {A} (m : Io A) : Io A :=
  catch m (λ e, if is_unique_violation e then throw name_taken else throw e).
(** A removed server keeps its history and loses its credentials. *)
Definition removed (now : Z) (s : Server) : Server :=
  s <| srv_status := ServerStatus.DISABLED |> <| srv_deletedAt := Some now |>
    <| srv_credentialsCiphertext := None |> <| srv_credentialKeyVersion := None |>
    <| srv_apiUsername := None |>.

Section servers.
(** [cpanelServerConfigurationSchema], [managedCpanelServerSchema] and
    [managedServerSchema] accept a row. *)
Context (configuration_view_ok cpanel_view_ok managed_view_ok : Server → bool).
Context (random_iv : Io string) (encipher : string → string → string → string * string).

Definition managed (ok : Server → bool) (s : Server) (count : Z) : result ManagedServer :=
  _ ← throw_unless (ok s) ZodError;
  Ok (MkManaged s (negb (absent (srv_credentialsCiphertext s))) count).

(** ** hosting-panel.service.ts *)
Definition createServer_tx (input : CreateCpanelServerRequest) (actor : Identity)
    (context : SecurityRequestContext) : Io Server :=
  id ← random_uuid;
  ciphertext ← encrypt random_iv encipher id (csr_apiToken input);
  now ← new_date;
  let r := MkServer id (csr_name input) (csr_hostname input) ServerStatus.DISABLED "cpanel-whm"
             (Some (csr_apiUsername input)) (Some ciphertext) (Some KEY_VERSION)
             (csr_port input) true (csr_maxAccounts input) None now in
  _ ← create_server r;
  _ ← server_audit actor context "CPANEL_SERVER_CREATED" id
        [("adapterKey", JStr "cpanel-whm"); ("status", JStr "DISABLED")];
  mret r.
Definition createServer (input : CreateCpanelServerRequest) (actor : Identity)
    (context : SecurityRequestContext) : Io ManagedServer :=
  _ ← require (is_admin actor) (forbidden "Only administrators can add panel servers.");
  or_taken (server ← transaction (createServer_tx input actor context);
            lift (managed cpanel_view_ok server 0)).

Definition identityChanged (input : UpdateCpanelServerRequest) (current : Server) : bool :=
  changed (us_hostname input) (srv_hostname current) ||
  changed (us_port input) (srv_port current) ||
  match us_apiUsername input with
  | Some u => negb (bool_decide (Some u = srv_apiUsername current)) | None => false end.
Definition asks_active (input : UpdateCpanelServerRequest) (current : Server) : bool :=
  bool_decide (us_status input = Some ServerStatus.ACTIVE) &&
  (negb (srv_status current ==b ServerStatus.ACTIVE) || negb (absent (us_apiToken input))).
(** The guards of updateServer, in their order. *)
Definition update_guards (input : UpdateCpanelServerRequest) (current : Server)
    (unresolved assigned : Z) (tested : bool) : result unit :=
  let identity := identityChanged input current in
  let token := bool_decide (is_Some (us_apiToken input)) in
  _ ← throw_unless (negb ((identity || token) && negb (unresolved =? 0)))
        (conflict "Resolve outstanding panel operations before changing the WHM connection.");
  _ ← throw_unless (negb (identity && (0 <? assigned)))
        (conflict "A server assigned to services cannot change its WHM address or username. Rotate its token or add another server.");
  _ ← throw_unless (negb (identity && negb (srv_status current ==b ServerStatus.DISABLED)))
        (conflict "Disable the unassigned server before changing its WHM connection.");
  _ ← throw_unless (negb (identity && absent (us_apiToken input)))
        (unprocessable "Enter a new API token when changing the WHM connection.");
  _ ← throw_unless (negb (asks_active input current &&
                          (identity || negb (absent (us_apiToken input)))))
        (unprocessable "Save the WHM connection, test it, then activate the server.");
  throw_unless (negb (asks_active input current && negb tested))
    (unprocessable "Test the current WHM connection before activating this server.").
Definition updated_status (input : UpdateCpanelServerRequest) (current : Server)
    : option ServerStatus :=
  match us_apiToken input, us_status input with
  | Some _, None => if srv_status current ==b ServerStatus.ACTIVE
                    then Some ServerStatus.MAINTENANCE else None
  | _, status => status
  end.
Definition updated_server (input : UpdateCpanelServerRequest) (current : Server)
    (ciphertext : option string) (s : Server) : Server :=
  let s := set_opt srv_name (us_name input) s in
  let s := set_opt srv_hostname (us_hostname input) s in
  let s := set_opt srv_port (us_port input) s in
  let s := set_opt srv_apiUsername (Some <$> us_apiUsername input) s in
  let s := set_opt srv_maxAccounts (us_maxAccounts input) s in
  let s := set_opt srv_status (updated_status input current) s in
  let s := set_opt srv_credentialsCiphertext (Some <$> ciphertext) s in
  set_opt srv_credentialKeyVersion ((λ _, Some KEY_VERSION) <$> ciphertext) s.
Definition changed_fields (input : UpdateCpanelServerRequest) : list json :=
  field_name "name" (us_name input) ++ field_name "hostname" (us_hostname input) ++
  field_name "port" (us_port input) ++ field_name "apiUsername" (us_apiUsername input) ++
  field_name "maxAccounts" (us_maxAccounts input) ++ field_name "status" (us_status input).
Definition encrypt_opt (serverId : string) (secret : option string) : Io (option string) :=
  match secret with
  | None => mret None
  | Some t => c ← encrypt random_iv encipher serverId t; mret (Some c)
  end.
Definition updateServer_tx (serverId : string) (input : UpdateCpanelServerRequest)
    (actor : Identity) (context : SecurityRequestContext) : Io (Server * Z) :=
  _ ← lock_row "servers" serverId;
  found ← read (cpanel_server serverId);
  current ← lift (of_option server_not_found found);
  assigned ← read (services_of serverId);
  open ← read (unresolved serverId);
  tested ← read (tested_since serverId (srv_updatedAt current));
  _ ← lift (update_guards input current open assigned tested);
  ciphertext ← encrypt_opt serverId (us_apiToken input);
  updated ← update_server serverId (updated_server input current ciphertext);
  _ ← server_audit actor context "CPANEL_SERVER_UPDATED" serverId
        [("changedFields", JArr (changed_fields input));
         ("tokenRotated", JBool (bool_decide (is_Some (us_apiToken input))));
         ("status", JStr (status_text (srv_status updated)))];
  mret (updated, assigned).
Definition updateServer (serverId : string) (input : UpdateCpanelServerRequest)
    (actor : Identity) (context : SecurityRequestContext) : Io ManagedServer :=
  _ ← require (is_admin actor) (forbidden "Only administrators can edit panel servers.");
  or_taken ('(server, assigned) ← transaction (updateServer_tx serverId input actor context);
            lift (managed cpanel_view_ok server assigned)).

(** Both services remove a server alike. *)
Definition remove_tx (find : string → Db → option Server) (uncertain_open : exn)
    (action serverId : string) (actor : Identity) (context : SecurityRequestContext)
    : Io unit :=
  _ ← lock_row "servers" serverId;
  found ← read (find serverId);
  current ← lift (of_option server_not_found found);
  assigned ← read (services_of serverId);
  open ← read (unresolved serverId);
  live ← read (live_services serverId);
  _ ← require ((live =? 0) && (open =? 0)) uncertain_open;
  now ← new_date;
  _ ← update_server serverId (removed now);
  server_audit actor context action serverId [("historicalServiceCount", JNum assigned)].
Definition removeServer_tx (serverId : string) (actor : Identity)
    (context : SecurityRequestContext) : Io unit :=
  remove_tx cpanel_server
    (conflict "Resolve assigned services and uncertain panel operations before removing this server.")
    "CPANEL_SERVER_REMOVED" serverId actor context.
Definition removeServer (serverId : string) (actor : Identity)
    (context : SecurityRequestContext) : Io unit :=
  _ ← require (is_admin actor) (forbidden "Only administrators can remove panel servers.");
  transaction (removeServer_tx serverId actor context).

Definition moves (input : ConfigureCpanelServerRequest) (current : Server) : bool :=
  negb (String.eqb (cfg_hostname input) (srv_hostname current)) ||
  negb (cfg_port input =? srv_port current) ||
  negb (bool_decide (Some (cfg_apiUsername input) = srv_apiUsername current)).
Definition configure_guards (input : ConfigureCpanelServerRequest) (current : Server)
    (assigned : Z) : result unit :=
  let cpanel := String.eqb (srv_adapterKey current) "cpanel-whm" in
  _ ← throw_unless (cpanel || String.eqb (srv_adapterKey current) "fake-panel")
        (unprocessable "This server cannot use the cPanel/WHM adapter.");
  _ ← throw_unless (negb ((0 <? assigned) && negb cpanel))
        (conflict "A server assigned to services cannot change its hosting panel adapter.");
  _ ← throw_unless (negb ((0 <? assigned) && moves input current))
        (conflict "A server assigned to services cannot change its WHM address or username.");
  throw_unless (negb (negb (srv_status current ==b ServerStatus.DISABLED) &&
                      moves input current))
    (conflict "Disable the unassigned server before changing its WHM connection.").
Definition configured_server (input : ConfigureCpanelServerRequest) (current : Server)
    (ciphertext : string) (s : Server) : Server :=
  s <| srv_hostname := cfg_hostname input |> <| srv_port := cfg_port input |>
    <| srv_useTls := true |> <| srv_adapterKey := "cpanel-whm" |>
    <| srv_apiUsername := Some (cfg_apiUsername input) |>
    <| srv_credentialsCiphertext := Some ciphertext |>
    <| srv_credentialKeyVersion := Some KEY_VERSION |>
    <| srv_status := if srv_status current ==b ServerStatus.ACTIVE
                     then ServerStatus.MAINTENANCE else srv_status current |>.
Definition configure_tx (serverId : string) (input : ConfigureCpanelServerRequest)
    (actor : Identity) (context : SecurityRequestContext) : Io Server :=
  _ ← lock_row "servers" serverId;
  found ← read (live_server serverId);
  current ← lift (of_option server_not_found found);
  assigned ← read (services_of serverId);
  _ ← lift (configure_guards input current assigned);
  ciphertext ← encrypt random_iv encipher (srv_id current) (cfg_apiToken input);
  server ← update_server (srv_id current) (configured_server input current ciphertext);
  _ ← server_audit actor context "CPANEL_SERVER_CONFIGURED" (srv_id server)
        [("previousAdapterKey", JStr (srv_adapterKey current));
         ("adapterKey", JStr (srv_adapterKey server));
         ("credentialKeyVersion", optional_json (srv_credentialKeyVersion server));
         ("tokenRotated", JBool true)];
  mret server.
Definition configureCpanelServer (serverId : string) (input : ConfigureCpanelServerRequest)
    (actor : Identity) (context : SecurityRequestContext) : Io CpanelServerConfiguration :=
  _ ← require (is_admin actor)
        (forbidden "Only administrators can configure panel servers.");
  server ← transaction (configure_tx serverId input actor context);
  _ ← require (configuration_view_ok server) ZodError;
  mret (MkConfiguration server (negb (absent (srv_credentialsCiphertext server)))).

(** ** server-administration.service.ts *)
Definition server_fail (message : string) : exn :=
  AppException 422 "VALIDATION_ERROR" message.
Definition authorize_servers (actor : Identity) : Io unit :=
  require (is_admin actor) (forbidden "Only administrators can manage servers.").
Definition create_other_tx (input : OtherServer) (actor : Identity)
    (context : SecurityRequestContext) : Io ManagedServer :=
  id ← random_uuid;
  ciphertext ← encrypt random_iv encipher id (stringify (os_credentials input));
  now ← new_date;
  let adapterKey := serverAdapterKeys (os_type input) in
  let r := MkServer id (os_name input) (os_hostname input) ServerStatus.DISABLED adapterKey
             None (Some ciphertext) (Some KEY_VERSION) (os_port input) true
             (os_maxAccounts input) None now in
  _ ← create_server r;
  _ ← server_audit actor context "SERVER_CREATED" id
        [("adapterKey", JStr adapterKey); ("status", JStr "DISABLED")];
  lift (managed managed_view_ok r 0).
Definition server_create (input : CreateServerRequest) (actor : Identity)
    (context : SecurityRequestContext) : Io ManagedServer :=
  _ ← authorize_servers actor;
  match input with
  | NewCpanel input => createServer input actor context
  | NewOther input => or_taken (transaction (create_other_tx input actor context))
  end.
Definition type_fixed : exn :=
  conflict "Server type cannot be changed. Add a separate server.".
Definition other_guards (input : OtherServerUpdate) (current : Server)
    (unresolved assigned : Z) : result unit :=
  _ ← throw_unless ((unresolved =? 0) && negb (0 <? assigned))
        (conflict "Resolve assigned services and outstanding operations before editing this connection.");
  throw_unless (negb ((changed (ou_hostname input) (srv_hostname current) ||
                       changed (ou_port input) (srv_port current)) &&
                      bool_decide (ou_credentials input = None)))
    (server_fail "Enter new credentials when changing the server connection.").
Definition other_updated (input : OtherServerUpdate) (ciphertext : option string) (s : Server)
    : Server :=
  let s := set_opt srv_name (ou_name input) s in
  let s := set_opt srv_hostname (ou_hostname input) s in
  let s := set_opt srv_port (ou_port input) s in
  let s := set_opt srv_maxAccounts (ou_maxAccounts input) s in
  let s := s <| srv_status := ServerStatus.DISABLED |> in
  let s := set_opt srv_credentialsCiphertext (Some <$> ciphertext) s in
  set_opt srv_credentialKeyVersion ((λ _, Some KEY_VERSION) <$> ciphertext) s.
Definition update_other_tx (id : string) (input : OtherServerUpdate) (actor : Identity)
    (context : SecurityRequestContext) : Io ManagedServer :=
  _ ← lock_row "servers" id;
  found ← read (live_server id);
  current ← lift (of_option type_fixed
    (s ← found; if String.eqb (srv_adapterKey s) (serverAdapterKeys (ou_type input))
                then Some s else None));
  open ← read (unresolved id);
  assigned ← read (services_of id);
  _ ← lift (other_guards input current open assigned);
  ciphertext ← encrypt_opt id (stringify <$> ou_credentials input);
  record ← update_server id (other_updated input ciphertext);
  _ ← server_audit actor context "SERVER_UPDATED" id
        [("adapterKey", JStr (srv_adapterKey current));
         ("credentialsRotated", JBool (bool_decide (is_Some (ou_credentials input))));
         ("changedFields", JArr (field_name "name" (ou_name input) ++
            field_name "hostname" (ou_hostname input) ++
            field_name "maxAccounts" (ou_maxAccounts input) ++
            (if ou_disable input then [JStr "status"] else []) ++ [JStr "serverType"] ++
            field_name "port" (ou_port input)))];
  lift (managed managed_view_ok record assigned).
Definition server_update (id : string) (input : UpdateServerRequest) (actor : Identity)
    (context : SecurityRequestContext) : Io ManagedServer :=
  _ ← authorize_servers actor;
  match input with
  | EditCpanel input => updateServer id input actor context
  | EditOther input => or_taken (transaction (update_other_tx id input actor context))
  end.
Definition remove_other_tx (serverId : string) (actor : Identity)
    (context : SecurityRequestContext) : Io unit :=
  remove_tx other_server
    (conflict "Resolve assigned services and uncertain operations before removing this server.")
    "SERVER_REMOVED" serverId actor context.
Definition server_remove (id : string) (actor : Identity)
    (context : SecurityRequestContext) : Io unit :=
  _ ← authorize_servers actor;
  server ← read (live_server id);
  if bool_decide (srv_adapterKey <$> server = Some "cpanel-whm")
  then removeServer id actor context
  else transaction (remove_other_tx id actor context).
End servers.

(** ** virtualizor.client.ts *)
Definition no_control (s : string) : bool := text 1 512 s && negb (hasControlCharacters s).
Definition virtualizorCredentialsSchema : schema (string * string) := λ v,
  o ← z_strict_object ["apiKey"; "apiPassword"] v;
  key ← z_refine no_control z_string (get "apiKey" o);
  password ← z_refine no_control z_string (get "apiPassword" o);
  Some (key, password).
Record VirtualizorRequest := MkVirtualizorRequest
  { vq_hostname : string; vq_port : Z; vq_apiKey : string; vq_apiPassword : string;
    vq_address : string }.
(** The status, the declared length when it is a number, and the body: whether
    there is one, and its text unless reading it fails. *)
Record VirtualizorResponse := MkVirtualizorResponse
  { vr_status : Z; vr_length : option Z; vr_body : bool; vr_text : option string }.
Definition virtualizor_error (code message : string) : exn := permanent code message.
Definition virtualizor_invalid : exn := virtualizor_error "VIRTUALIZOR_RESPONSE_INVALID"
  "Virtualizor returned an invalid connection response.".
Definition unverified : exn := virtualizor_error "VIRTUALIZOR_CONNECTION_UNVERIFIED"
  "The Virtualizor connection could not be verified. Check the endpoint, certificate and API permissions.".
Definition virtualizor_server : schema unit := λ v,
  o ← z_object v;
  match get "serid" o with
  | JStr s => if decimal_text s then Some tt else None
  | JNum n => if 0 <=? n then Some tt else None
  | _ => None
  end.
Definition virtualizor_answer : schema json := λ v,
  o ← z_object v;
  _ ← z_optional (literal "servers") (get "act" o);
  _ ← match get "servers" o with
      | JArr l => z_all virtualizor_server l
      | JObj l => z_all virtualizor_server (l.*2)
      | _ => None
      end;
  Some (get "error" o).
Definition no_error (v : json) : bool :=
  match v with
  | JUndefined | JNull | JArr [] => true
  | JBool b => negb b
  | JStr s => negb (truthy s)
  | _ => false
  end.
Section virtualizor.
(** [lookup] and [request] give nothing when they fail or the timer stops them. *)
Context {S : Type} (lookup : string → S → option (list string) * S) (ip_family : string → Z).
Context (request : VirtualizorRequest → S → option VirtualizorResponse * S).
Context (parse_json : string → option json) (VIRTUALIZOR_API_ENABLED : bool).

Definition virtualizor_credentials (c : HostingPanelConnection) : option (string * string) :=
  body ← parse_json (default "" (pc_credential c));
  credentials ← virtualizorCredentialsSchema body;
  if hostname_pattern (js_lower (js_trim (pc_hostname c))) &&
     ((pc_port c =? 443) || (pc_port c =? 4085)) && pc_useTls c
  then Some credentials else None.
Definition read_virtualizor (r : VirtualizorResponse) : result HostingPanelConnectionResult :=
  _ ← throw_unless ((200 <=? vr_status r) && (vr_status r <=? 299))
        (virtualizor_error "VIRTUALIZOR_REQUEST_REJECTED"
           "Virtualizor rejected the connection request. Check API permissions and connection settings.");
  _ ← throw_unless (vr_body r && match vr_length r with
                                 | Some n => n <=? MAX_RESPONSE_BYTES | None => true end)
        virtualizor_invalid;
  text ← of_option unverified (vr_text r);
  _ ← throw_unless (utf8_length text <=? MAX_RESPONSE_BYTES) virtualizor_invalid;
  error ← of_option unverified (body ← parse_json text; virtualizor_answer body);
  _ ← throw_unless (no_error error)
        (virtualizor_error "VIRTUALIZOR_REQUEST_REJECTED"
           "Virtualizor could not verify the configured API credentials.");
  Ok (MkConnectionResult "Virtualizor Admin API" ["connection-test"]).
Definition virtualizor_testConnection (c : HostingPanelConnection)
    : M S HostingPanelConnectionResult :=
  _ ← require VIRTUALIZOR_API_ENABLED
        (virtualizor_error "VIRTUALIZOR_DISABLED"
           "Virtualizor networking is disabled. Save the configuration and arrange connection acceptance separately.");
  '(key, password) ← lift (of_option
    (virtualizor_error "VIRTUALIZOR_CONFIGURATION_INVALID"
       "Virtualizor requires an HTTPS hostname, an approved port and an API key/password pair.")
    (virtualizor_credentials c));
  found ← ask (lookup (pc_hostname c));
  addresses ← lift (of_option unverified found);
  _ ← require (forallb (isPublicAddress ip_family) addresses)
        (virtualizor_error "VIRTUALIZOR_CONFIGURATION_INVALID"
           "The Virtualizor hostname must resolve only to public network addresses.");
  address ← lift (of_option
    (virtualizor_error "VIRTUALIZOR_CONFIGURATION_INVALID"
       "The Virtualizor hostname must resolve only to public network addresses.")
    (head addresses));
  response ← ask (request (MkVirtualizorRequest (pc_hostname c) (pc_port c) key password
                             address));
  response ← lift (of_option unverified response);
  lift (read_virtualizor response).
End virtualizor.
