(* ===== verification/CpanelProperties.v ===== *)
(** * What the cPanel adapter guarantees

    A failure that may be retried has sent nothing but queries, an account is
    created only where there was none, and requests go to public addresses. *)
From S2P Require Import Prelude JsString JsDate Json Money States Database Payments Gateways GatewayAdapters Orders HostingServices HostingAutomation HostingPanels CpanelAdapter.

(** ** Requests that change nothing *)
Definition mutating_functions : list string :=
  ["createacct"; "suspendacct"; "unsuspendacct"; "changepackage"; "passwd"; "removeacct"].
Definition is_query (r : PanelRequest) : bool :=
  negb (existsb (String.eqb (pq_function r)) mutating_functions).
(** What the service will store as retryable, after a change was attempted. *)
Definition retryable_error (e : exn) : bool :=
  bool_decide (perr_kind (normalizeHostingPanelError e true) = ErrorKind.TEMPORARY).

Section logic.
Context {S : Type} (P : S → Prop).

(** Whatever [m] does, [P] stays true. *)
Class Quiet {A} (m : M S A) : Prop := quiet : ∀ s, P s → P (snd (m s)).
(** No failure of [m] is retryable. *)
Class Settles {A} (m : M S A) : Prop :=
  settles : ∀ s e s', m s = (Err e, s') → retryable_error e = false.
(** A retryable failure of [m] leaves [P] true. *)
Class Careful {A} (m : M S A) : Prop :=
  careful : ∀ s e s', P s → m s = (Err e, s') → retryable_error e = true → P s'.

#[export] Instance quiet_ret {A} (a : A) : Quiet (mret a).
Proof. by intros s. Qed.
#[export] Instance quiet_throw {A} e : Quiet (throw e : M S A).
Proof. by intros s. Qed.
#[export] Instance quiet_lift {A} (r : result A) : Quiet (lift r).
Proof. by intros s. Qed.
#[export] Instance quiet_require b e : Quiet (require b e).
Proof. by intros s. Qed.
#[export] Instance quiet_bind {A B} (m : M S A) (k : A → M S B) :
  Quiet m → (∀ a, Quiet (k a)) → Quiet (m ≫= k).
Proof.
  intros Hm Hk s Hs. specialize (Hm s Hs). unfold mbind, M_bind.
  destruct (m s) as [[a|e] s1]; [by apply Hk|done].
Qed.
#[export] Instance quiet_catch {A} (m : M S A) h :
  Quiet m → (∀ e, Quiet (h e)) → Quiet (catch m h).
Proof.
  intros Hm Hh s Hs. specialize (Hm s Hs). unfold catch.
  destruct (m s) as [[a|e] s1]; [done|by apply Hh].
Qed.
#[export] Instance quiet_when b (m : M S unit) : Quiet m → Quiet (when b m).
Proof. destruct b; [done|]. intros _. apply quiet_ret. Qed.

#[export] Instance settles_ret {A} (a : A) : Settles (mret a).
Proof. by intros s e s'. Qed.
#[export] Instance settles_bind {A B} (m : M S A) (k : A → M S B) :
  Settles m → (∀ a, Settles (k a)) → Settles (m ≫= k).
Proof.
  intros Hm Hk s e s' H. unfold mbind, M_bind in H.
  destruct (m s) as [[a|e1] s1] eqn:E; [by eapply Hk|]. injection H as <- <-. by eapply Hm.
Qed.
#[export] Instance settles_catch {A} (m : M S A) h :
  (∀ e, Settles (h e)) → Settles (catch m h).
Proof.
  intros Hh s e s' H. unfold catch in H.
  destruct (m s) as [[a|e1] s1] eqn:E; [done|by eapply Hh].
Qed.
#[export] Instance settles_when b (m : M S unit) : Settles m → Settles (when b m).
Proof. destruct b; [done|]. intros _. apply settles_ret. Qed.
Lemma settles_throw {A} e : retryable_error e = false → Settles (throw e : M S A).
Proof. intros He s e' s' H. injection H as <- <-. done. Qed.
Lemma settles_lift {A} (r : result A) :
  (∀ e, r = Err e → retryable_error e = false) → Settles (lift r).
Proof. intros Hr s e s' H. injection H as H <-. by apply Hr. Qed.
Lemma settles_require b e : retryable_error e = false → Settles (require b e).
Proof. intros He s e' s' H. destruct b; [done|]. injection H as <- <-. done. Qed.
Lemma settles_of_option {A} e (o : option A) :
  retryable_error e = false → Settles (lift (of_option e o)).
Proof. intros He. apply settles_lift. intros e'. destruct o; [done|]. by intros [= <-]. Qed.

Lemma careful_quiet {A} (m : M S A) : Quiet m → Careful m.
Proof. intros Hm s e s' Hs E _. specialize (Hm s Hs). by rewrite E in Hm. Qed.
Lemma careful_settles {A} (m : M S A) : Settles m → Careful m.
Proof. intros Hm s e s' _ E He. rewrite (Hm _ _ _ E) in He. done. Qed.
Lemma careful_bind {A B} (m : M S A) (k : A → M S B) :
  Quiet m → (∀ a, Careful (k a)) → Careful (m ≫= k).
Proof.
  intros Hm Hk s e s' Hs H He. specialize (Hm s Hs). unfold mbind, M_bind in H.
  destruct (m s) as [[a|e1] s1] eqn:E; [exact (Hk a s1 e s' Hm H He)|]. by injection H as <- <-.
Qed.
Lemma careful_then {A B} (m : M S A) (k : A → M S B) :
  Careful m → (∀ a, Settles (k a)) → Careful (m ≫= k).
Proof.
  intros Hm Hk s e s' Hs H He. unfold mbind, M_bind in H.
  destruct (m s) as [[a|e1] s1] eqn:E.
  - rewrite (Hk a _ _ _ H) in He. done.
  - injection H as <- <-. exact (Hm _ _ _ Hs E He).
Qed.
End logic.
#[export] Hint Extern 2 (Settles (throw _)) => apply settles_throw; done : typeclass_instances.
#[export] Hint Extern 2 (Settles (require _ _)) => apply settles_require; done : typeclass_instances.
#[export] Hint Extern 2 (Settles (lift (of_option _ _))) =>
  apply settles_of_option; done : typeclass_instances.
#[export] Hint Extern 4 (Quiet _ (match ?x with _ => _ end)) => destruct x : typeclass_instances.
#[export] Hint Extern 4 (Settles (match ?x with _ => _ end)) => destruct x : typeclass_instances.

(** ** The adapter *)
(** A change of an account, with what it takes besides the connection. *)
Inductive PanelCommand :=
| RunCreate (input : CreateHostingAccountInput)
| RunSuspend (ref : HostingAccountReference) (reason : string)
| RunUnsuspend (ref : HostingAccountReference)
| RunChangePackage (ref : HostingAccountReference) (package : string)
| RunChangePassword (ref : HostingAccountReference) (password : string)
| RunTerminate (ref : HostingAccountReference) (reason : string).
Definition run_command {S} (panel : HostingPanel S) (c : HostingPanelConnection)
    (command : PanelCommand) : M S unit :=
  match command with
  | RunCreate input => _ ← createAccount panel c input; mret tt
  | RunSuspend ref reason => _ ← suspendAccount panel c ref reason; mret tt
  | RunUnsuspend ref => _ ← unsuspendAccount panel c ref; mret tt
  | RunChangePackage ref package => _ ← changePackage panel c ref package; mret tt
  | RunChangePassword ref password => _ ← changePassword panel c ref password; mret tt
  | RunTerminate ref reason => terminateAccount panel c ref reason
  end.

Section adapter.
Context `{ZodUrl} `{UrlParser} `{Sha256} {S : Type}.
Context (fetch : PanelRequest → S → option PanelResponse * S).
Context (lookup : string → S → option (list string) * S) (ip_family : string → Z).
Context (parse_json : string → option json) (number_ms : string → option Z).
Context (P : S → Prop).
Notation http := (http_call fetch lookup ip_family parse_json).

Lemma response_settles mailRead response e :
  read_response parse_json mailRead true response = Err e → retryable_error e = false.
Proof.
  unfold read_response. destruct response as [r|]; simpl; [|by intros [= <-]].
  destruct (_ || _).
  - destruct (_ || _); [by intros [= <-]|]. destruct (_ || _); by intros [= <-].
  - destruct (throw_unless _ _) as [[]|] eqn:E1; simpl.
    2:{ intros [= <-]. destruct (ps_length r) as [n|]; [|done]. unfold throw_unless in E1.
        destruct (n <=? _); [done|]. by injection E1 as <-. }
    destruct (ps_text r); simpl; [|by intros [= <-]].
    destruct (utf8_length s <=? MAX_RESPONSE_BYTES); simpl; [|by intros [= <-]].
    destruct (parse_json s); simpl; [|by intros [= <-]].
    destruct mailRead; [destruct (mail_schema j)|destruct (whmEnvelopeSchema j)]; simpl;
      try done; by intros [= <-].
Qed.
#[local] Instance ask_settles {A} (f : S → A * S) : Settles (ask f).
Proof. intros s e s'. unfold ask. by destruct (f s). Qed.
#[local] Instance call_settles c f ps : Settles (http c f ps true).
Proof.
  unfold http_call, call, validatePublicResolution.
  repeat (apply settles_bind; [apply _|intros]). apply settles_lift, response_settles.
Qed.
#[local] Instance success_settles r : Settles (S := S) (assertSuccess r true).
Proof. unfold assertSuccess. apply _. Qed.
Lemma verified_settles {A} e message :
  Settles (S := S) (A := A)
    (if is_inconsistent e then throw e else throw (account_inconsistent message)).
Proof.
  destruct (is_inconsistent e) eqn:He; [|apply _].
  apply settles_throw. destruct e; try done. simpl in He. unfold retryable_error. simpl.
  apply bool_decide_eq_true in He as ->. done.
Qed.
#[local] Instance verify_settles c u :
  Settles (verifyMutation fetch lookup ip_family parse_json c u).
Proof. unfold verifyMutation. apply settles_catch. intros e. apply verified_settles. Qed.
#[local] Instance exact_settles a u d p : Settles (S := S) (assertExactAccount a u d p).
Proof. unfold assertExactAccount. apply _. Qed.
#[local] Instance mail_settles c a :
  Settles (verifyRemoteMail fetch lookup ip_family parse_json c a).
Proof. unfold verifyRemoteMail. apply _. Qed.
#[local] Instance mutate_settles c f ps :
  Settles (mutate fetch lookup ip_family parse_json c f ps).
Proof. unfold mutate. apply _. Qed.

Context (Hlookup : ∀ h s, P s → P (snd (lookup h s))).
Context (Hquery : ∀ r s, is_query r = true → P s → P (snd (fetch r s))).
Lemma call_quiet c f ps :
  existsb (String.eqb f) mutating_functions = false → Quiet P (http c f ps false).
Proof using Hlookup Hquery.
  intros Hf. unfold http_call, call, validatePublicResolution.
  apply quiet_bind; [apply _|]. intros _. apply quiet_bind; [apply _|]. intros _.
  apply quiet_bind; [apply quiet_bind; [|intros; apply _]|]; intros.
  - intros s Hs. specialize (Hlookup (pc_hostname c) s Hs). unfold ask.
    by destruct (lookup (pc_hostname c) s).
  - apply quiet_bind; [|intros; apply _]. intros s Hs. unfold ask.
    match goal with |- context [fetch ?r s] =>
      assert (P (snd (fetch r s))) as Hp by (apply Hquery; [|done];
        change (negb (existsb (String.eqb f) mutating_functions) = true); by rewrite Hf);
        destruct (fetch r s) end. done.
Qed.
#[local] Instance lookup_quiet c q :
  Quiet P (lookupAccount fetch lookup ip_family parse_json c q).
Proof using Hlookup Hquery.
  unfold lookupAccount, assertSuccess. apply quiet_bind; [by apply call_quiet|]. apply _.
Qed.

(** C19: when a change of an account fails in a way the service stores as
    retryable, every request the panel has received is a query: whatever holds of
    the panel and is kept by queries still holds.  A retry therefore never repeats
    a change that may have been made. *)
Theorem temporary_failure_changed_nothing c command s e s' (Hs : P s)
    (Hrun : run_command (CpanelWhmHostingPanel fetch lookup ip_family parse_json number_ms)
              c command s = (Err e, s')) (Hretry : retryable_error e = true) : P s'.
Proof using Hlookup Hquery.
  revert s e s' Hs Hrun Hretry. fold (Careful P (run_command
    (CpanelWhmHostingPanel fetch lookup ip_family parse_json number_ms) c command)).
  destruct command; simpl; try (apply careful_settles;
    unfold cpanel_suspendAccount, cpanel_unsuspendAccount, cpanel_changePackage,
      cpanel_changePassword, cpanel_terminateAccount; apply _).
  - apply careful_then; [|apply _]. unfold cpanel_createAccount.
    apply careful_bind; [apply _|]. intros [existing|]; [apply careful_settles, _|].
    apply careful_bind; [apply _|]. intros found. apply careful_settles, _.
  - apply careful_settles. unfold cpanel_terminateAccount. apply settles_bind; [apply _|].
    intros _. apply settles_catch. intros e. apply verified_settles.
Qed.

Notation find c q := (lookupAccount fetch lookup ip_family parse_json c q).
Notation create := (cpanel_createAccount fetch lookup ip_family parse_json).
#[local] Instance mail_quiet c a :
  Quiet P (verifyRemoteMail fetch lookup ip_family parse_json c a).
Proof using Hlookup Hquery.
  unfold verifyRemoteMail, assertSuccess.
  apply quiet_catch; [apply quiet_bind; [by apply call_quiet|]|]; apply _.
Qed.
(** The account is the one asked for. *)
Definition exact_account (input : CreateHostingAccountInput) (a : HostingAccount) : Prop :=
  ha_username a = usernameFor (ca_serviceReference input) ∧
  ha_externalAccountId a = usernameFor (ca_serviceReference input) ∧
  ha_domain a = js_lower (ca_domain input) ∧ ha_packageIdentifier a = ca_packageIdentifier input.
Lemma assertExact_Ok input a w u w' :
  assertExactAccount (S := S) a (usernameFor (ca_serviceReference input)) (ca_domain input)
    (ca_packageIdentifier input) w = (Ok u, w') → exact_account input a ∧ w' = w.
Proof.
  unfold assertExactAccount. intros Hx. apply require_Ok in Hx as [Hx ->].
  rewrite !andb_true_iff, !String.eqb_eq in Hx. destruct Hx as [[[??]?]?]. done.
Qed.

(** an account is created only where the panel, asked by user name and by
    domain, knew none: in every other case the panel receives queries only.  What a
    creation returns is exactly the account of the service, under the user name
    derived from the service, and an existing one is returned as it is, so that a
    repeated creation changes nothing. *)
Theorem creation_only_where_absent c input s r s' (Hs : P s)
    (Hrun : create c input s = (r, s')) :
  (P s' ∨ ∃ s1 s2,
     find c ("user", usernameFor (ca_serviceReference input)) s = (Ok None, s1) ∧
     find c ("domain", ca_domain input) s1 = (Ok None, s2)) ∧
  (∀ res, r = Ok res → exact_account input (hr_account res) ∧
     (hr_created res = false → P s' ∧ ∃ s1,
        find c ("user", usernameFor (ca_serviceReference input)) s =
          (Ok (Some (hr_account res)), s1))).
Proof using Hlookup Hquery.
  unfold cpanel_createAccount in Hrun. unfold mbind at 1, M_bind at 1 in Hrun.
  pose proof (lookup_quiet c ("user", usernameFor (ca_serviceReference input)) s Hs) as Hq.
  destruct (find _ _ s) as [[[existing|]|e] s1] eqn:E1; simpl in Hq.
  - match type of Hrun with ?m s1 = _ => assert (Quiet P m) as Hm end.
    { unfold assertExactAccount. apply _. }
    specialize (Hm s1 Hq). rewrite Hrun in Hm. split; [by left|]. intros res ->.
    apply bind_Ok in Hrun as (u&s2&Hx&Hrun). apply assertExact_Ok in Hx as [Hx ->].
    apply bind_Ok in Hrun as (?&s2&_&Hrun). apply ret_Ok in Hrun as [-> ->].
    split; [done|]. intros _. split; [done|]. by exists s1.
  - unfold mbind at 1, M_bind at 1 in Hrun.
    pose proof (lookup_quiet c ("domain", ca_domain input) s1 Hq) as Hq2.
    destruct (find _ _ s1) as [[[other|]|e] s2] eqn:E2; simpl in Hq2.
    + injection Hrun as <- <-. split; [by left|done].
    + split; [right; eauto|]. intros res ->.
      apply bind_Ok in Hrun as (?&s3&_&Hrun).
      apply bind_Ok in Hrun as (?&s4&_&Hrun). apply bind_Ok in Hrun as (?&s5&_&Hrun).
      apply bind_Ok in Hrun as (a&s6&_&Hrun). apply bind_Ok in Hrun as (?&s7&Hx&Hrun).
      apply assertExact_Ok in Hx as [Hx ->]. apply bind_Ok in Hrun as (?&s8&_&Hrun).
      apply ret_Ok in Hrun as [-> ->]. split; [done|]. simpl. discriminate.
    + injection Hrun as <- <-. split; [by left|done].
  - injection Hrun as <- <-. split; [by left|done].
Qed.
End adapter.

(** ** Public addresses

    The reserved blocks of IPv4 that the code refuses: a base, of which the first
    two parts count, and the length of the prefix. *)
Definition reserved_blocks : list (Z * Z * Z) :=
  [(0, 0, 8); (10, 0, 8); (127, 0, 8); (100, 64, 10); (169, 254, 16); (172, 16, 12);
   (192, 0, 16); (192, 88, 16); (192, 168, 16); (198, 18, 15); (198, 51, 16); (203, 0, 16);
   (224, 0, 3)].
Definition address_number (a b c d : Z) : Z := ((a * 256 + b) * 256 + c) * 256 + d.
(** Whether the first [len] bits of an address are those of the block. *)
Definition in_block (n : Z) (block : Z * Z * Z) : bool :=
  let '(a, b, len) := block in
  Z.shiftr n (32 - len) =? Z.shiftr (address_number a b 0 0) (32 - len).
Definition dotted (a b c d : Z) : string :=
  (Z_to_string a ++ "." ++ Z_to_string b ++ "." ++ Z_to_string c ++ "." ++ Z_to_string d)%string.

Lemma all_chars_split c s t :
  all_chars (λ d, negb (Ascii.eqb d c)) s = true →
  split_on c (s ++ String c t) = s :: split_on c t.
Proof.
  induction s as [|d s IH]; simpl; intros H.
  - by rewrite Ascii.eqb_refl.
  - apply andb_true_iff in H as [H1 H2]. apply negb_true_iff in H1. rewrite H1, IH; done.
Qed.
Lemma split_on_last c s :
  all_chars (λ d, negb (Ascii.eqb d c)) s = true → split_on c s = [s].
Proof.
  induction s as [|d s IH]; simpl; intros H; [done|].
  apply andb_true_iff in H as [H1 H2]. apply negb_true_iff in H1. by rewrite H1, IH.
Qed.

Lemma byte_text n :
  0 <= n < 256 → octet (Z_to_string n) = Some n ∧
  all_chars (λ d, negb (Ascii.eqb d ".")) (Z_to_string n) = true.
Proof.
  intros Hn.
  assert (∀ k, (k < 256)%nat → octet (Z_to_string (Z.of_nat k)) = Some (Z.of_nat k) ∧
            all_chars (λ d, negb (Ascii.eqb d ".")) (Z_to_string (Z.of_nat k)) = true) as Hall.
  { intros k Hk.
    assert (forallb (λ k, bool_decide (octet (Z_to_string (Z.of_nat k)) = Some (Z.of_nat k)) &&
              all_chars (λ d, negb (Ascii.eqb d ".")) (Z_to_string (Z.of_nat k)))
              (seq 0 256) = true) as Hb by (vm_compute; reflexivity).
    rewrite forallb_forall in Hb. specialize (Hb k). rewrite List.in_seq in Hb.
    specialize (Hb ltac:(lia)). apply andb_true_iff in Hb as [Hb ?]. split; [|done].
    by apply bool_decide_eq_true in Hb. }
  specialize (Hall (Z.to_nat n)). rewrite Z2Nat.id in Hall by lia. apply Hall. lia.
Qed.
Lemma octets_dotted a b c d :
  0 <= a < 256 → 0 <= b < 256 → 0 <= c < 256 → 0 <= d < 256 →
  octet <$> split_on "." (dotted a b c d) = [Some a; Some b; Some c; Some d].
Proof.
  intros Ha Hb Hc Hd. unfold dotted.
  apply byte_text in Ha as [Ea Pa]. apply byte_text in Hb as [Eb Pb].
  apply byte_text in Hc as [Ec Pc]. apply byte_text in Hd as [Ed Pd].
  repeat change ("." ++ ?x)%string with (String "." x).
  rewrite !all_chars_split, split_on_last by done. simpl. by rewrite Ea, Eb, Ec, Ed.
Qed.
(** Only the first two parts of an address matter: no block is longer than 16
    bits, so that a block is an interval of their number. *)
Definition low_end (x y len : Z) : Z := Z.shiftl (Z.shiftr (x * 256 + y) (16 - len)) (16 - len).
Lemma in_block_parts a b c d x y len lo size :
  0 <= c < 256 → 0 <= d < 256 → 0 <= len <= 16 →
  low_end x y len = lo → 2 ^ (16 - len) = size →
  in_block (address_number a b c d) (x, y, len) =
  (lo <=? a * 256 + b) && (a * 256 + b - lo <? size).
Proof.
  intros Hc Hd Hl <- <-. unfold in_block, address_number, low_end.
  replace (32 - len) with (16 + (16 - len)) by lia.
  rewrite <- !Z.shiftr_shiftr by lia.
  assert (∀ u c d, 0 <= c < 256 → 0 <= d < 256 →
            Z.shiftr ((u * 256 + c) * 256 + d) 16 = u) as Hs.
  { intros u c' d' ??. rewrite Z.shiftr_div_pow2 by lia. change (2 ^ 16) with 65536.
    symmetry. apply (Z.div_unique _ _ _ (c' * 256 + d')); lia. }
  rewrite !Hs by lia. rewrite !Z.shiftr_div_pow2, Z.shiftl_mul_pow2 by lia.
  generalize (Z.pow_pos_nonneg 2 (16 - len) eq_refl ltac:(lia)).
  generalize (2 ^ (16 - len)) (x * 256 + y) (a * 256 + b). intros p m n Hp.
  apply eq_true_iff_eq. rewrite andb_true_iff, Z.eqb_eq, Z.leb_le, Z.ltb_lt.
  pose proof (Z.div_mod n p ltac:(lia)). pose proof (Z.mod_pos_bound n p Hp). split.
  - intros <-. nia.
  - intros [??]. assert (n / p < m / p + 1) by nia. nia.
Qed.
Lemma all_bytes (f : Z → Z → bool) a b :
  forallb (λ i, forallb (f i) (Z.of_nat <$> seq 0 256)) (Z.of_nat <$> seq 0 256) = true →
  0 <= a < 256 → 0 <= b < 256 → f a b = true.
Proof.
  assert (∀ x, 0 <= x < 256 → In x (Z.of_nat <$> seq 0 256)) as Hin.
  { intros x Hx. apply list_elem_of_In, list_elem_of_fmap. exists (Z.to_nat x).
    rewrite Z2Nat.id by lia. split; [done|]. apply elem_of_seq. lia. }
  intros H Ha Hb. rewrite forallb_forall in H. specialize (H a (Hin a Ha)).
  rewrite forallb_forall in H. exact (H b (Hin b Hb)).
Qed.

(** C34: an IPv4 address in decimal parts is refused exactly when its number lies in
    one of the thirteen reserved blocks; the chain of comparisons of the code is
    the test of the prefixes of those blocks. *)
Theorem public_address_exact a b c d
    (Ha : 0 <= a < 256) (Hb : 0 <= b < 256) (Hc : 0 <= c < 256) (Hd : 0 <= d < 256) :
  isPublicIpv4 (dotted a b c d) =
  negb (existsb (in_block (address_number a b c d)) reserved_blocks).
Proof.
  unfold isPublicIpv4. rewrite octets_dotted by done.
  cbn [reserved_blocks existsb].
  repeat match goal with |- context [in_block _ (?x, ?y, ?l)] =>
    let lo := eval vm_compute in (low_end x y l) in
    let size := eval vm_compute in (2 ^ (16 - l)) in
    rewrite (in_block_parts a b c d x y l lo size) by (lia || reflexivity) end.
  apply eqb_prop.
  match goal with |- ?g = true =>
    match eval pattern (a * 256 + b) in g with ?h _ =>
      match eval pattern a, b in (h (a * 256 + b)) with ?f _ _ =>
        apply (all_bytes f); [|lia..] end end end.
  vm_compute. reflexivity.
Qed.
Lemma public_address_exact_witness :
  (0 <= 10 < 256 ∧ 0 <= 1 < 256 ∧ 0 <= 2 < 256 ∧ 0 <= 3 < 256) ∧
  isPublicIpv4 (dotted 10 1 2 3) =
  negb (existsb (in_block (address_number 10 1 2 3)) reserved_blocks).
Proof. split; [lia|]. apply (public_address_exact 10 1 2 3); lia. Defined.

(** ** A sample panel: it counts its accounts and keeps the requests it received *)
Definition panel_url : ZodUrl := λ _, true.
Definition no_urls : UrlParser := λ _, None.
Definition panel_log := list PanelRequest.
Definition queries_only (l : panel_log) : Prop := forallb is_query l = true.
Definition resolved (hostname : string) (l : panel_log) : option (list string) * panel_log :=
  (Some ["8.8.8.8"], l).
Definition unavailable (r : PanelRequest) (l : panel_log) : option PanelResponse * panel_log :=
  (Some (MkPanelResponse 503 None None), l ++ [r]).
Definition no_account (r : PanelRequest) (l : panel_log) : option PanelResponse * panel_log :=
  (Some (MkPanelResponse 200 None (Some "")), l ++ [r]).
Definition ipv4_only (s : string) : Z := 4.
Definition absent_body (s : string) : option json :=
  Some (JObj [("metadata", JObj [("result", JNum 1)]); ("data", JObj [("acct", JArr [])])]).
Definition sample_connection : HostingPanelConnection :=
  MkConnection "v" "panel.example.test" 2087 true (Some "root") (Some "token").
Definition sample_creation : CreateHostingAccountInput :=
  MkCreateAccount "s" "a.test" "starter" "ada@example.test" "key" None.
Lemma resolved_quiet h l : queries_only l → queries_only (snd (resolved h l)).
Proof. done. Qed.
Lemma log_queries fetch (Hf : ∀ r l, snd (fetch r l) = l ++ [r]) (r : PanelRequest) (l : panel_log) :
  is_query r = true → queries_only l → queries_only (snd (fetch r l : option PanelResponse * _)).
Proof.
  intros Hr Hl. rewrite Hf. unfold queries_only. rewrite forallb_app, Hl. simpl. by rewrite Hr.
Qed.

Definition unavailable_run : result unit * panel_log :=
  run_command (@CpanelWhmHostingPanel panel_url no_urls plain_sha _ unavailable resolved ipv4_only
                 (λ _, None) (λ _, None)) sample_connection (RunCreate sample_creation) [].
Lemma temporary_failure_changed_nothing_witness :
  unavailable_run = (Err (transportFailure false), snd unavailable_run) ∧
  length (snd unavailable_run) = 1%nat ∧ queries_only (snd unavailable_run).
Proof.
  assert (unavailable_run = (Err (transportFailure false), snd unavailable_run)) as Hrun
    by (vm_compute; reflexivity).
  split; [exact Hrun|]. split; [vm_compute; reflexivity|].
  refine (@temporary_failure_changed_nothing panel_url no_urls plain_sha _ unavailable resolved
    ipv4_only (λ _, None) (λ _, None) queries_only resolved_quiet
    (log_queries unavailable (λ _ _, eq_refl)) sample_connection (RunCreate sample_creation) [] _ _ _
    Hrun _).
  - vm_compute. reflexivity.
  - vm_compute. reflexivity.
Defined.
Definition absent_run : result HostingAccountResult * panel_log :=
  @cpanel_createAccount plain_sha _ no_account resolved ipv4_only absent_body
    sample_connection sample_creation [].
Lemma creation_only_where_absent_witness :
  queries_only [] ∧ pq_function <$> snd absent_run =
    ["accountsummary"; "accountsummary"; "createacct"; "accountsummary"] ∧
  (queries_only (snd absent_run) ∨ ∃ s1 s2,
     @lookupAccount _ no_account resolved ipv4_only absent_body sample_connection
       ("user", @usernameFor plain_sha "s") [] = (Ok None, s1) ∧
     @lookupAccount _ no_account resolved ipv4_only absent_body sample_connection
       ("domain", "a.test") s1 = (Ok None, s2)).
Proof.
  split; [done|]. split; [vm_compute; reflexivity|].
  refine (proj1 (@creation_only_where_absent plain_sha _ no_account resolved ipv4_only absent_body
    queries_only resolved_quiet (log_queries no_account (λ _ _, eq_refl)) sample_connection
    sample_creation [] (fst absent_run) (snd absent_run) _ _)).
  - done.
  - apply surjective_pairing.
Defined.
