(* ===== verification/ServiceLifecycle.v ===== *)
(** * The life of a service

    What every transaction of HostingServices, HostingAutomation and PanelOperations
    does to the services: their statuses follow the table of service.service.ts, the CHECK
    constraints of the services table stay true and what was sold is not changed. *)
From S2P Require Import Prelude JsString JsDate Json Money States Calendar Database Invoices Payments Gateways Orders BackgroundJobs HostingServices HostingAutomation GatewayAdapters HostingPanels PanelOperations.

(** ** Specification *)
(** The CHECK constraints of the services table. *)
Definition service_checks (s : Service) : bool :=
  let given (o : option string) := bool_decide (is_Some o) in
  let dated (o : option Z) := bool_decide (is_Some o) in
  (svc_startedAt s <? svc_nextDueAt s) &&
  match svc_status s with
  | ServiceStatus.PENDING | ServiceStatus.PROVISIONING => true
  | ServiceStatus.ACTIVE =>
      given (svc_externalAccountId s) && given (svc_controlPanelUsername s)
  | ServiceStatus.SUSPENDED =>
      given (svc_externalAccountId s) && given (svc_controlPanelUsername s) &&
      dated (svc_suspendedAt s) && given (svc_suspensionReason s)
  | ServiceStatus.PROVISION_FAILED => given (svc_provisioningFailureReason s)
  | ServiceStatus.CANCELLED =>
      dated (svc_cancelledAt s) && given (svc_cancellationReason s)
  | ServiceStatus.TERMINATED =>
      given (svc_externalAccountId s) && given (svc_controlPanelUsername s) &&
      dated (svc_terminatedAt s) && given (svc_terminationReason s) &&
      given (svc_terminatedByUserId s)
  end.
(** What was sold: the customer, the order line, the server, the price, the dates. *)
Definition sold (s : Service) :=
  (svc_id s, svc_customerId s, svc_orderItemId s, svc_serverId s, svc_billingPeriod s,
   svc_recurringAmount s, svc_currency s, svc_startedAt s, svc_nextDueAt s).
Definition advances (a b : Service) : Prop :=
  (svc_status b = svc_status a ∨
   isServiceTransitionAllowed (svc_status a) (svc_status b) = true) ∧
  (service_checks a = true → service_checks b = true) ∧ sold b = sold a.
Definition services_follow (d d' : Db) : Prop :=
  ∀ i, match services d !! i, services d' !! i with
       | Some a, Some b => advances a b
       | None, Some b => svc_status b = ServiceStatus.PENDING ∧ service_checks b = true
       | None, None => True
       | Some _, None => False
       end.

(** ** Lemmas *)
Lemma advances_refl s : advances s s.
Proof. split_and!; auto. Qed.
Lemma advances_updated a b t : advances a b → advances a (b <| svc_updatedAt := t |>).
Proof. done. Qed.
Lemma follow_same d d' : services d' = services d → services_follow d d'.
Proof. intros H i. rewrite H. destruct (services d !! i); [apply advances_refl|done]. Qed.
Lemma follow_insert d d' i s s' :
  services d !! i = Some s → advances s s' → services d' = <[i := s']> (services d) →
  services_follow d d'.
Proof.
  intros Hs Ha Hd j. rewrite Hd, lookup_insert. destruct (decide (i = j)) as [<-|].
  - by rewrite Hs.
  - destruct (services d !! j); [apply advances_refl|done].
Qed.
Lemma follow_new d d' i s :
  services d !! i = None → svc_status s = ServiceStatus.PENDING → service_checks s = true →
  services d' = <[i := s]> (services d) → services_follow d d'.
Proof.
  intros Hi Hs Hc Hd j. rewrite Hd, lookup_insert. destruct (decide (i = j)) as [<-|].
  - by rewrite Hi.
  - destruct (services d !! j); [apply advances_refl|done].
Qed.
Lemma follow_then d d1 d2 :
  services_follow d d1 → services d2 = services d1 → services_follow d d2.
Proof. intros H E i. rewrite E. apply H. Qed.
Lemma follow_from d d0 d1 :
  services d0 = services d → services_follow d0 d1 → services_follow d d1.
Proof. intros E H i. rewrite <- E. apply H. Qed.
Lemma follow_update_if id p f w n w' :
  (∀ s, p s = true → advances s (f s)) →
  update_service_if id p f w = (Ok n, w') → services_follow (db w) (db w').
Proof.
  intros Hf Hrun. apply update_service_if_Ok in Hrun as [(_&->&_)|(_&s&now&Hs&Hp&->)].
  - by apply follow_same.
  - eapply follow_insert; [exact Hs|by apply advances_updated, Hf|done].
Qed.
Lemma follow_update id f w u w' :
  (∀ s, services (db w) !! id = Some s → advances s (f s)) →
  update_service id f w = (Ok u, w') → services_follow (db w) (db w').
Proof.
  intros Hf Hrun. unfold update_service in Hrun. apply bind_Ok in Hrun as (n&w1&Hu&Hrun).
  apply require_Ok in Hrun as [_ ->].
  apply update_service_if_Ok in Hu as [(_&->&_)|(_&s&now&Hs&Hp&->)].
  - by apply follow_same.
  - eapply follow_insert; [exact Hs|by apply advances_updated, Hf|done].
Qed.

(** [m] leaves the services as they are until it changes them once. *)
Class Follows {A} (m : Io A) : Prop :=
  follows : ∀ w a w', m w = (Ok a, w') → services_follow (db w) (db w').
#[export] Instance follows_keeps {A} (m : Io A) : Keeps services m → Follows m | 5.
Proof. intros Hk w a w' H. apply follow_same. by eapply keeps_run. Qed.
Lemma follows_before {A B} (m : Io A) (k : A → Io B) :
  Keeps services m → (∀ a, Follows (k a)) → Follows (m ≫= k).
Proof.
  intros Hm Hk w b w' H. apply bind_Ok in H as (a&w1&H1&H2).
  eapply follow_from; [by eapply keeps_run|]. exact (Hk _ _ _ _ H2).
Qed.
Lemma follows_after {A B} (m : Io A) (k : A → Io B) :
  Follows m → (∀ a, Keeps services (k a)) → Follows (m ≫= k).
Proof.
  intros Hm Hk w b w' H. apply bind_Ok in H as (a&w1&H1&H2).
  eapply follow_then; [exact (Hm _ _ _ H1)|]. by eapply keeps_run.
Qed.
Lemma follows_transaction {A} (m : Io A) r w w' :
  Follows m → transaction m w = (r, w') → services_follow (db w) (db w').
Proof.
  intros Hm H. destruct r as [a|e].
  - rewrite transaction_Ok in H. exact (Hm _ _ _ H).
  - apply transaction_Err_db in H. by apply follow_same, (f_equal services H).
Qed.

Ltac unfold_table m :=
  match m with
  | finishCancellation _ _ _ => unfold finishCancellation
  | deferCancellation _ _ _ => unfold deferCancellation
  | create_outbox_skip_at _ _ _ _ _ _ => unfold create_outbox_skip_at, put_outbox
  | update_cancellation _ _ => unfold update_cancellation
  | create_operation _ => unfold create_operation
  | update_operation _ _ => unfold update_operation
  | update_operation_if _ _ _ => unfold update_operation_if
  | complete_order_of _ _ => unfold complete_order_of, orderFulfillmentComplete
  | select_server _ _ => unfold select_server
  end.
#[export] Hint Extern 6 (Keeps services ?m) => unfold_table m : typeclass_instances.

(** ** The transactions *)
Lemma new_service_checks item order server id t t' now :
  t < t' → service_checks (new_service item order server id t t' now) = true.
Proof. intros H. unfold service_checks. simpl. rewrite andb_true_r. by apply Z.ltb_lt. Qed.

Lemma absent_given o : absent o = false → is_Some o.
Proof. destruct o; [eauto|done]. Qed.
(** What a permitted change of status records is what the constraints ask for. *)
Lemma transition_advances s server cancelled input actor now f :
  transition_guards s server cancelled (requested_status input) = Ok tt →
  transitionData s input actor now = Ok f → advances s (f s).
Proof.
  intros Hg Hf. unfold transition_guards in Hg. run_inv.
  unfold advances, service_checks, isServiceTransitionAllowed in *.
  destruct input; simpl in *; run_inv;
    match goal with H : Ok _ = Ok _ |- _ => injection H as <- | _ => idtac end;
    simpl in *; (split_and!; [by right| |done]);
    intros Hc; destruct (svc_status s); simpl in *; try done; split_bool;
    rewrite ?andb_true_iff; split_and!; simpl; try done; try (by apply Z.ltb_lt);
    apply bool_decide_eq_true; eauto using absent_given.
Qed.

Lemma completion_advances action payload now s :
  completes_from action payload s = true →
  advances s (completed_service action payload now s).
Proof.
  intros Hp. unfold advances, service_checks, isServiceTransitionAllowed, completes_from in *.
  destruct action; simpl in *; split_bool;
    match goal with H : svc_status s = _ |- _ => rewrite H; simpl end;
    (split_and!; [by right| |done]); rewrite !andb_true_iff; tauto.
Qed.

Lemma transition_follows serviceId input actor context :
  Follows (transition_tx serviceId input actor context).
Proof.
  intros w a w' Hrun. unfold transition_tx in Hrun.
  apply bind_Ok in Hrun as (?&w1&Hl&Hrun). apply lock_row_Ok in Hl as ->.
  apply bind_Ok in Hrun as (?&w1&Hr&Hrun). apply read_Ok in Hr as [-> ->].
  apply bind_Ok in Hrun as (current&w1&Hr&Hrun). apply lift_Ok in Hr as [Hs ->].
  apply of_option_Ok in Hs.
  apply bind_Ok in Hrun as (?&w1&Hr&Hrun). apply read_Ok in Hr as [-> ->].
  apply bind_Ok in Hrun as (server&w1&Hr&Hrun). apply lift_Ok in Hr as [_ ->].
  apply bind_Ok in Hrun as (cancelled&w1&Hr&Hrun). apply read_Ok in Hr as [-> ->].
  apply bind_Ok in Hrun as ([]&w1&Hr&Hrun). apply lift_Ok in Hr as [Hg ->].
  apply bind_Ok in Hrun as (now&w1&Hr&Hrun). apply new_date_Ok in Hr as [-> ->].
  apply bind_Ok in Hrun as (data&w1&Hr&Hrun). apply lift_Ok in Hr as [Hd ->].
  apply bind_Ok in Hrun as (?&w1&Hu&Hrun).
  apply (follow_then _ (db w1)); [|eapply (keeps_run services); [|exact Hrun]; apply _].
  eapply (follow_from _ (db (w <| ticks := S (ticks w) |>))); [done|].
  eapply follow_update; [|exact Hu]. simpl. intros s Hs'. rewrite Hs in Hs'.
  apply (inj Some) in Hs' as <-. by eapply transition_advances.
Qed.
Lemma complete_follows operationId action payload account now :
  Follows (complete_tx operationId action payload account now).
Proof.
  unfold complete_tx. apply follows_after; [|apply _].
  intros w n w'. apply follow_update_if, completion_advances.
Qed.
Lemma cleared_follows id :
  Follows (update_service id (λ s, s <| svc_suspensionInvoiceId := None |>)).
Proof. intros w u w'. apply follow_update. intros s _. split_and!; auto. Qed.
(** Look for the one change, past reads and guards. *)
Ltac follow :=
  repeat first
    [ apply follows_keeps; apply _
    | apply cleared_follows
    | match goal with
      | |- Follows (_ ≫= _) =>
          first [ apply follows_before; [apply _|intros]
                | apply follows_after; [|intros; apply _] ]
      | |- Follows (match ?x with _ => _ end) => destruct x
      end ].
Lemma prepare_follows `{Sha256} action payload event :
  Follows (prepare_tx action payload event).
Proof.
  unfold prepare_tx, prepare_operation, prepare_cancellation, when. follow.
Qed.
Lemma create_service_follows s :
  svc_status s = ServiceStatus.PENDING → service_checks s = true → Follows (create_service s).
Proof.
  intros Hs Hc w u w' Hrun. unfold create_service in Hrun.
  apply bind_Ok in Hrun as (?&w1&Hr&Hrun). apply read_Ok in Hr as [-> ->].
  apply bind_Ok in Hrun as (?&w1&Hr&Hrun). apply require_Ok in Hr as [Hb ->].
  apply write_Ok in Hrun as ->. split_bool. by eapply follow_new.
Qed.
Lemma select_server_world serverId adapter w server w' :
  select_server serverId adapter w = (Ok server, w') → w' = w.
Proof.
  unfold select_server. intros Hrun.
  apply bind_Ok in Hrun as (?&w1&Hl&Hrun). apply lock_row_Ok in Hl as ->.
  apply bind_Ok in Hrun as (?&w1&Hr&Hrun). apply read_Ok in Hr as [-> ->].
  apply bind_Ok in Hrun as (?&w1&Hr&Hrun). apply lift_Ok in Hr as [_ ->].
  apply bind_Ok in Hrun as (?&w1&Hr&Hrun). apply read_Ok in Hr as [-> ->].
  by run_inv.
Qed.
Lemma created_follows input adapter actor context w id w' :
  (∀ n, 100 <= utc_year (clock w n)) →
  createService_tx input adapter actor context w = (Ok id, w') →
  services_follow (db w) (db w').
Proof.
  intros Hy Hrun. unfold createService_tx in Hrun.
  apply bind_Ok in Hrun as (?&w1&Hl&Hrun). apply lock_row_Ok in Hl as ->.
  do 2 (apply bind_Ok in Hrun as (?&w1&Hr&Hrun); apply read_Ok in Hr as [-> ->]).
  apply bind_Ok in Hrun as (item&w1&Hr&Hrun). apply lift_Ok in Hr as [_ ->].
  apply bind_Ok in Hrun as (?&w1&Hr&Hrun). apply read_Ok in Hr as [-> ->].
  apply bind_Ok in Hrun as (order&w1&Hr&Hrun). apply lift_Ok in Hr as [_ ->].
  do 2 (apply bind_Ok in Hrun as (?&w1&Hr&Hrun); apply require_Ok in Hr as [_ ->]).
  apply bind_Ok in Hrun as (server&w1&Hr&Hrun). apply select_server_world in Hr as ->.
  apply bind_Ok in Hrun as (period&w1&Hr&Hrun). apply lift_Ok in Hr as [_ ->].
  apply bind_Ok in Hrun as (t&w1&Hr&Hrun). apply new_date_Ok in Hr as [Ht ->].
  apply bind_Ok in Hrun as (t'&w1&Hr&Hrun). apply lift_Ok in Hr as [Hd ->].
  apply bind_Ok in Hrun as (i&w1&Hr&Hrun). apply random_uuid_Ok in Hr as [_ ->].
  apply bind_Ok in Hrun as (now&w1&Hr&Hrun). apply new_date_Ok in Hr as [_ ->].
  apply bind_Ok in Hrun as (?&w1&Hc&Hrun).
  apply (follow_then _ (db w1)); [|eapply (keeps_run services); [|exact Hrun]; apply _].
  match type of Hc with _ ?w0 = _ => apply (follow_from _ (db w0)); [done|] end.
  eapply create_service_follows; [| |exact Hc]; [done|].
  apply new_service_checks. apply of_option_Ok in Hd. rewrite service_period_agrees in Hd.
  apply add_billing_exact in Hd as (_&_&_&Hlt); [exact Hlt|]. rewrite Ht. apply Hy.
Qed.

(** ** The operations of panels *)
#[export] Hint Extern 6 (Keeps _ (complete_order_of _ _)) =>
  unfold complete_order_of, orderFulfillmentComplete : typeclass_instances.
#[export] Instance find_operation_services key : Keeps services (find_operation key).
Proof. unfold find_operation. apply _. Qed.
#[export] Instance creation_attempt_services id options :
  Keeps services (assertAccountCreationAttempt id options).
Proof. unfold assertAccountCreationAttempt. apply _. Qed.
(** The service is still in the status its operation was prepared in: a panel that
    takes its time may answer about a service that has ended meanwhile. *)
Definition still_due (a : PanelAction) (s : ServiceStatus) : Prop :=
  match a with
  | CreateAccount => s = ServiceStatus.PROVISIONING
  | a => status_guard a s = Ok tt
  end.
Lemma service_after_advances a account actor now s f :
  still_due a (svc_status s) → service_after a account actor now = Some f → advances s (f s).
Proof.
  unfold advances, service_checks, isServiceTransitionAllowed, isActiveOrSuspended.
  destruct a; simpl; try done.
  - destruct account as [x|]; [|done]. intros E [= <-]. simpl. rewrite E. simpl.
    split_and!; [by right| |done]. by rewrite !andb_true_iff.
  - intros E%throw_unless_Ok%bool_decide_eq_true [= <-]. simpl. rewrite E. simpl.
    split_and!; [by right| |done]. rewrite !andb_true_iff. tauto.
  - intros E%throw_unless_Ok%bool_decide_eq_true [= <-]. simpl. rewrite E. simpl.
    split_and!; [by right| |done]. rewrite !andb_true_iff. tauto.
  - intros E%throw_unless_Ok [= <-]. simpl. apply orb_true_iff in E.
    rewrite !bool_decide_eq_true in E.
    destruct E as [E|E]; rewrite E; simpl;
      (split_and!; [by right| |done]); rewrite !andb_true_iff; tauto.
Qed.
Lemma apply_success_follows id a account actor op now w u w' :
  (∀ s f, services (db w) !! id = Some s → (a ← a; service_after a account actor now) = Some f →
          advances s (f s)) →
  applyServiceSuccess id a account actor op now w = (Ok u, w') →
  services_follow (db w) (db w').
Proof.
  unfold applyServiceSuccess. intros Ha H. apply bind_Ok in H as (?&w1&Hs&H).
  apply (follow_then _ (db w1)); [|eapply (keeps_run services); [|exact H]; apply _].
  destruct (a ← a; service_after a account actor now) as [f|];
    [|apply ret_Ok in Hs as [_ ->]; by apply follow_same].
  eapply follow_update; [|exact Hs]. intros s Hx. by apply Ha.
Qed.
(** A creation is prepared for a pending service, or for one that failed. *)
Lemma prepared_advances service :
  validateAction service CreateAccount = Ok tt →
  advances (pv_service service) (pv_service service
    <| svc_status := ServiceStatus.PROVISIONING |> <| svc_provisioningFailureReason := None |>).
Proof.
  unfold validateAction. intros H. do 3 (apply result_bind_Ok in H as (?&_&H)).
  apply result_bind_Ok in H as (?&E%throw_unless_Ok&_). apply orb_true_iff in E.
  rewrite !bool_decide_eq_true in E.
  unfold advances, service_checks, isServiceTransitionAllowed. simpl.
  destruct E as [E|E]; rewrite E; (split_and!; [by right| |done]); rewrite !andb_true_iff; tauto.
Qed.
Lemma panel_prepare_follows hmac key serviceId input actor context options :
  Follows (prepare_panel_tx hmac key serviceId input actor context options).
Proof.
  intros w r w' Hrun. unfold prepare_panel_tx in Hrun.
  apply bind_Ok in Hrun as (?&w1&G&Hrun). apply lock_row_Ok in G as ->.
  apply bind_Ok in Hrun as (concurrent&w1&G&Hrun).
  eapply (follow_from _ (db w1)); [eapply (keeps_run services); [|exact G]; apply _|]. clear G w.
  destruct concurrent as [record|]; [apply follow_same; eapply (keeps_run services); [|exact Hrun]; apply _|].
  apply bind_Ok in Hrun as (found&w2&G&Hrun). apply read_Ok in G as [-> ->].
  apply bind_Ok in Hrun as (s&w2&G&Hrun). apply lift_Ok in G as [Hs ->]. apply of_option_Ok in Hs.
  apply bind_Ok in Hrun as (found&w2&G&Hrun). apply read_Ok in G as [-> ->].
  apply bind_Ok in Hrun as (service&w2&G&Hrun). apply lift_Ok in G as [Hsv ->].
  apply of_option_Ok in Hsv.
  assert (pv_service service = s) as Es.
  { unfold panel_service in Hsv. destruct (servers _ !! _); [|done].
    cbn [mbind option_bind] in Hsv. destruct (customers _ !! _); [|done]. by injection Hsv as <-. }
  clear Hsv. do 2 (apply bind_Ok in Hrun as (?&w2&G&Hrun); first [apply read_Ok in G as [-> ->]|apply require_Ok in G as [_ ->]]).
  apply bind_Ok in Hrun as ([]&w2&G&Hrun). apply lift_Ok in G as [Hv ->].
  apply bind_Ok in Hrun as (?&w2&G&Hrun). apply read_Ok in G as [-> ->].
  apply bind_Ok in Hrun as (?&w2&G&Hrun). apply require_Ok in G as [_ ->].
  do 4 (apply bind_Ok in Hrun as (?&w2&G&Hrun);
    eapply (follow_from _ (db w2)); [eapply (keeps_run services); [|exact G]; apply _|];
    rewrite <- (keeps_run services _ _ _ _ _ G) in Hs by apply _; clear G w1; rename w2 into w1).
  apply bind_Ok in Hrun as (?&w2&G&Hrun).
  apply (follow_then _ (db w2)); [|eapply (keeps_run services); [|exact Hrun]; apply _].
  destruct (is_create (eh_action input)) eqn:Hc; cbn [when] in G;
    [|apply ret_Ok in G as [_ ->]; by apply follow_same].
  eapply follow_update; [|exact G]. intros y Hy. rewrite Hs in Hy. apply (inj Some) in Hy as <-.
  destruct (eh_action input); try discriminate. subst s. by eapply prepared_advances.
Qed.
Lemma panel_success_follows op actor context success a w r w' :
  (∀ o id s, panelOperations (db w) !! op = Some o → op_serviceId o = Some id →
     services (db w) !! id = Some s → ∀ a', a = Some a' → still_due a' (svc_status s)) →
  completeSuccess_tx op actor context success a w = (Ok r, w') →
  services_follow (db w) (db w').
Proof.
  intros Hdue Hrun. unfold completeSuccess_tx, find_operation_or_throw in Hrun.
  apply bind_Ok in Hrun as (now&w1&G&Hrun). apply new_date_Ok in G as [_ ->].
  apply bind_Ok in Hrun as (o&w1&G&Hrun). apply bind_Ok in G as (found&w2&G1&G).
  apply read_Ok in G1 as [-> ->]. apply lift_Ok in G as [Ho%of_option_Ok ->].
  apply bind_Ok in Hrun as (?&w1&G&Hrun).
  apply (follow_then _ (db w1)); [|eapply (keeps_run services); [|exact Hrun]; unfold operation_record; apply _].
  destruct (op_serviceId o) as [id|] eqn:Hid; [|apply ret_Ok in G as [_ ->]; by apply follow_same].
  apply bind_Ok in G as (?&w2&G1&G). apply lock_row_Ok in G1 as ->.
  apply apply_success_follows in G; [exact G|]. intros s f Hs Hf.
  destruct a as [a|]; [|done]. by eapply service_after_advances; [eapply Hdue|].
Qed.
Lemma panel_failure_follows op error actor context w r w' :
  (∀ o id s, panelOperations (db w) !! op = Some o → op_serviceId o = Some id →
     services (db w) !! id = Some s → op_type o = OperationType.CREATE_ACCOUNT →
     svc_status s = ServiceStatus.PROVISIONING) →
  completeFailure_tx op error actor context w = (Ok r, w') →
  services_follow (db w) (db w').
Proof.
  intros Hdue Hrun. unfold completeFailure_tx, find_operation_or_throw in Hrun.
  apply bind_Ok in Hrun as (o&w1&G&Hrun). apply bind_Ok in G as (found&w2&G1&G).
  apply read_Ok in G1 as [-> ->]. apply lift_Ok in G as [Ho%of_option_Ok ->].
  apply bind_Ok in Hrun as (now&w1&G&Hrun). apply new_date_Ok in G as [_ ->].
  apply bind_Ok in Hrun as (?&w1&G&Hrun).
  apply (follow_then _ (db w1)); [|eapply (keeps_run services); [|exact Hrun]; unfold operation_record; apply _].
  destruct (op_serviceId o) as [id|] eqn:Hid; [|apply ret_Ok in G as [_ ->]; by apply follow_same].
  apply when_Ok in G as [[Hc%bool_decide_eq_true G]|[_ ->]]; [|by apply follow_same].
  eapply (follow_update id) in G; [exact G|]. intros s Hs.
  assert (svc_status s = ServiceStatus.PROVISIONING) as E by (by eapply Hdue).
  unfold advances, service_checks, isServiceTransitionAllowed. simpl. rewrite E. simpl.
  split_and!; [by right| |done]. by rewrite !andb_true_iff.
Qed.
(** ** The theorem *)
Inductive ServiceTx :=
| Create (input : CreateServiceRequest) (adapter : string) (actor : Identity)
    (context : SecurityRequestContext)
| Transition (serviceId : string) (input : TransitionServiceRequest) (actor : Identity)
    (context : SecurityRequestContext)
| Prepare (action : AutomationAction) (payload : AutomationPayload) (outboxEventId : string)
| Complete (operationId : string) (action : AutomationAction) (payload : AutomationPayload)
    (account : PanelAccount) (now : Z)
| PreparePanel (serviceId : string) (input : ExecuteHostingOperationRequest) (actor : Identity)
    (context : SecurityRequestContext) (options : ExecutionOptions)
| SucceedPanel (operationId : string) (actor : Identity) (context : SecurityRequestContext)
    (success : ProviderSuccess) (action : option PanelAction)
| FailPanel (operationId : string) (error : PanelError) (actor : Identity)
    (context : SecurityRequestContext).
Definition service_tx `{Sha256} (hmac : string → string → string) (key : string)
    (t : ServiceTx) : Io unit :=
  match t with
  | Create i a u c => _ ← transaction (createService_tx i a u c); mret tt
  | Transition s i u c => transaction (transition_tx s i u c)
  | Prepare a p e => _ ← transaction (prepare_tx a p e); mret tt
  | Complete o a p r t => transaction (complete_tx o a p r t)
  | PreparePanel s i u c o => _ ← transaction (prepare_panel_tx hmac key s i u c o); mret tt
  | SucceedPanel o u c s a => _ ← transaction (completeSuccess_tx o u c s a); mret tt
  | FailPanel o e u c => _ ← transaction (completeFailure_tx o e u c); mret tt
  end.
(** The panel's answer is about a service that is still what the operation was prepared
    for; hosting-panel.service.ts does not check it when it records the answer. *)
Definition in_time (t : ServiceTx) (d : Db) : Prop :=
  ∀ o id s, services d !! id = Some s → op_serviceId o = Some id →
  match t with
  | SucceedPanel op _ _ _ a =>
      panelOperations d !! op = Some o → ∀ a', a = Some a' → still_due a' (svc_status s)
  | FailPanel op _ _ _ =>
      panelOperations d !! op = Some o → op_type o = OperationType.CREATE_ACCOUNT →
      svc_status s = ServiceStatus.PROVISIONING
  | _ => True
  end.

(** C7: every transaction that makes a service or changes its status, by an administrator,
    by the automation of the worker or by an operation on the panel, moves each service
    along the transition table or leaves its status alone, keeps the CHECK constraints of
    the services table true, changes nothing of what was sold, deletes no service and adds
    only pending ones whose due date lies after their start; provided a panel operation's
    answer comes while its service is still in the status the operation was prepared in
    ([in_time]: the code does not make sure, see [late_answer_revives] of PanelProperties). *)
Theorem service_lifecycle `{Sha256} hmac key t w r w'
    (Hclock : ∀ n, 100 <= utc_year (clock w n)) (Htime : in_time t (db w))
    (Hrun : service_tx hmac key t w = (r, w')) :
  services_follow (db w) (db w').
Proof.
  assert (∀ A (m : Io A), (∀ a w', m w = (Ok a, w') → services_follow (db w) (db w')) →
            ∀ r w', transaction m w = (r, w') → services_follow (db w) (db w')) as Htx.
  { intros A m Hm [a|e] w1 Hr.
    - rewrite transaction_Ok in Hr. by apply (Hm a).
    - apply transaction_Err_db in Hr. by apply follow_same, (f_equal services Hr). }
  assert (∀ A (m : Io A) r, (∀ a w', m w = (Ok a, w') → services_follow (db w) (db w')) →
            (_ ← transaction m; mret tt) w = (r, w') → services_follow (db w) (db w')) as Htx'.
  { intros A m r0 Hm Hr. unfold mbind, M_bind in Hr.
    destruct (transaction m w) as [[a|e] w1] eqn:Ht; injection Hr as _ <-; by eapply Htx. }
  destruct t; simpl in Hrun; first [eapply Htx; [|exact Hrun]|eapply Htx'; [|exact Hrun]];
    intros a w1.
  - by apply created_follows.
  - apply transition_follows.
  - apply prepare_follows.
  - apply complete_follows.
  - apply panel_prepare_follows.
  - apply panel_success_follows. intros o i s Ho Hi Hs. by apply (Htime o i s).
  - apply panel_failure_follows. intros o i s Ho Hi Hs. by apply (Htime o i s).
Qed.

(** ** A sample: one hosting service with its customer, server and invoice *)
Definition hosted_service (status : ServiceStatus) : Service :=
  MkService "s" "c" (Some "hosting") "p" "pp" "v" status (Some "A.test") "Starter" None
    JNull (Some "ada") (Some "a-1") BillingPeriod.MONTHLY 1000 "BDT" 0 1772323200000 (Some 0)
    None None None None None None None None None 0 0.
Definition hosting_server : Server :=
  MkServer "v" "Server" "panel.example.test" ServerStatus.ACTIVE "cpanel-whm" (Some "root")
    (Some "v1.iv.tag.text") (Some "cpanel-token-v1") 2087 true None None 0.
Definition hosting_customer : Customer :=
  MkCustomer "CUS-1" None CustomerStatus.ACTIVE None "Ada" "Byron" None "1 Road" None "Dhaka" None None
    "BD" None "u" "ada@example.test" UserStatus.ACTIVE None (Some 0).
Definition hosting_world (s : Service) : World :=
  MkWorld (empty_db <| customers := {["c" := hosting_customer]} |>
             <| services := {["s" := s]} |> <| servers := {["v" := hosting_server]} |>)
    (λ n, Nat.iter n (String "i") "d") 0 (λ _, 1772323200000) 0 [].
Definition admin_context : SecurityRequestContext := MkRequestContext "" None.

Definition no_hmac (key text : string) : string := text.
Definition termination : ServiceTx :=
  Transition "s" (ToTerminated "left") (AdminIdentity "u") admin_context.
Lemma service_lifecycle_witness :
  let w := hosting_world (hosted_service ServiceStatus.ACTIVE) in
  ∃ w', @service_tx plain_sha no_hmac "" termination w = (Ok tt, w') ∧ services_follow (db w) (db w') ∧
        svc_status <$> services (db w') !! "s" = Some ServiceStatus.TERMINATED.
Proof.
  intros w. exists (snd (@service_tx plain_sha no_hmac "" termination w)).
  assert (@service_tx plain_sha no_hmac "" termination w =
          (Ok tt, snd (@service_tx plain_sha no_hmac "" termination w))) as Hrun.
  { apply run_outcome. vm_compute. reflexivity. }
  split; [exact Hrun|]. split; [|vm_compute; reflexivity].
  refine (@service_lifecycle plain_sha no_hmac "" termination w (Ok tt) _ _ _ Hrun).
  - intros n. vm_compute. discriminate.
  - by intros o i s Hs Ho.
Defined.
