(* ===== verification/OrderProperties.v ===== *)
(** * Properties of orders

    What an order and its invoice are made of, what a repeated submission is
    compared by, which way an order's status moves, and what the status
    endpoint does not check. *)
From S2P Require Import Prelude JsString JsDate Json Money States DomainTables Database InvoiceNumber InvoiceTotals Invoices Payments MapSum Ledger Settlement Orders.

(** ** Lines and totals *)
(** The items the nested create makes, for the ids it draws. *)
Definition items_made (input : CreateOrderInput) (price : ProductPrice) (package : string)
    (part : option DomainPart) (addOns : list ProductPrice) (ids : list string)
    (orderId : string) (now : Z) : list OrderItem :=
  zip_with (λ make id, make id orderId now) (item_makers input price package part addOns) ids.

Section lines.
Context (input : CreateOrderInput) (price : ProductPrice) (package : string)
  (part : option DomainPart) (addOns : list ProductPrice) (orderId : string) (now : Z).

Lemma add_on_items_filter ids :
  length ids = length addOns →
  List.filter (is_kind ProductKind.ADD_ON)
    (zip_with (λ make id, make id orderId now) (add_on_item input price <$> addOns) ids)
  = zip_with (λ p id, add_on_item input price p id orderId now) addOns ids.
Proof.
  revert ids. induction addOns as [|p l IH]; intros [|id ids] H; simpl in *; try done.
  f_equal. apply IH. congruence.
Qed.
Lemma no_domain_in_add_ons ids :
  first_of_kind ProductKind.DOMAIN
    (zip_with (λ make id, make id orderId now) (add_on_item input price <$> addOns) ids)
  = None.
Proof.
  revert ids. induction addOns as [|p l IH]; intros [|id ids]; simpl; done || apply IH.
Qed.

Lemma sum_imap_lines (l : list ProductPrice) (f : nat → OrderItem → InvoiceItem) ids :
  length ids = length l →
  (∀ i item, ii_lineTotal (f i item) = oi_lineTotal item) →
  sum_of ii_lineTotal
    (imap f (zip_with (λ p id, add_on_item input price p id orderId now) l ids))
  = sum_of pp_amount l.
Proof.
  intros Hlen Hf. revert f ids Hf Hlen.
  induction l as [|p l IH]; intros f [|id ids] Hf Hlen; simpl in *; try done.
  rewrite Hf. simpl. f_equal. apply IH; [|congruence]. intros. apply Hf.
Qed.
End lines.

(** The lines of the invoice, with ids [ids'] drawn for them. *)
Definition lines_made (input : CreateOrderInput) (price : ProductPrice)
    (part : option DomainPart) (items : list OrderItem) (invoiceId lineId : string)
    : list InvoiceItem :=
  match first_of_kind ProductKind.HOSTING items with
  | Some orderItem =>
      (λ line, line lineId) <$> invoice_lines input price invoiceId part orderItem
        (first_of_kind ProductKind.DOMAIN items) items
  | None => []
  end.
Definition line_sound (i : InvoiceItem) : Prop :=
  ii_quantity i = 1 ∧ ii_discountAmount i = 0 ∧ ii_taxAmount i = 0 ∧
  ii_lineTotal i = ii_unitAmount i * ii_quantity i - ii_discountAmount i + ii_taxAmount i.

Lemma imap_fmap_app {A B C} (f : nat → A → B) (g : B → C) l :
  g <$> imap f l = imap (λ i a, g (f i a)) l.
Proof. apply fmap_imap. Qed.

Lemma imap_positions (f : nat → OrderItem → InvoiceItem) l (k : Z) :
  (∀ i item, ii_linePosition (f i item) = k + Z.of_nat i) →
  ii_linePosition <$> imap f l = seqZ k (Z.of_nat (length l)).
Proof.
  revert f k. induction l as [|a l IH]; intros f k Hf; simpl; [done|].
  rewrite Hf, Z.add_0_r. rewrite seqZ_cons by lia. f_equal.
  replace (Z.pred (Z.of_nat (S (length l)))) with (Z.of_nat (length l)) by lia.
  apply IH. intros. simpl. rewrite Hf. lia.
Qed.

Lemma items_made_split input price package part addOns ids orderId now :
  length ids = length (item_makers input price package part addOns) →
  ∃ id0 dom rest, length rest = length addOns ∧
    items_made input price package part addOns ids orderId now =
      hosting_item input price package id0 orderId now ::
      option_list dom ++
      zip_with (λ make id, make id orderId now) (add_on_item input price <$> addOns) rest ∧
    match part, dom with
    | Some part, Some item => ∃ id, item = domain_item input part id orderId now
    | None, None => True
    | _, _ => False
    end.
Proof.
  unfold items_made, item_makers. intros Hlen.
  destruct ids as [|id0 ids]; [done|]. destruct part as [part|]; simpl in Hlen.
  - destruct ids as [|id1 rest]; [done|]. simpl in *.
    exists id0, (Some (domain_item input part id1 orderId now)), rest.
    rewrite length_fmap in Hlen. split_and!; [lia|done|eauto].
  - exists id0, None, ids. rewrite length_fmap in Hlen. split_and!; [lia|done|done].
Qed.

Lemma lines_made_split input price package part addOns ids orderId now invoiceId lineId :
  length ids = length (item_makers input price package part addOns) →
  ∃ id0 dom rest, length rest = length addOns ∧
    match part, dom with
    | Some part, Some item => ∃ id, item = domain_item input part id orderId now
    | None, None => True
    | _, _ => False
    end ∧
    let orderItem := hosting_item input price package id0 orderId now in
    let addOnItems := zip_with (λ p id, add_on_item input price p id orderId now) addOns rest in
    items_made input price package part addOns ids orderId now =
      orderItem :: option_list dom ++
      zip_with (λ make id, make id orderId now) (add_on_item input price <$> addOns) rest ∧
    lines_made input price part
      (items_made input price package part addOns ids orderId now) invoiceId lineId =
    ((λ line, line lineId) <$> hosting_lines input price invoiceId orderItem) ++
    ((λ line, line lineId) <$> domain_lines input price invoiceId part dom) ++
    imap (λ i item, invoice_line invoiceId lineId (firstAddOnPosition price dom + Z.of_nat i)
                      item (add_on_line input item) (oi_lineTotal item) (oi_currency item))
      addOnItems.
Proof.
  intros Hlen. destruct (items_made_split _ _ _ _ _ _ orderId now Hlen)
    as (id0&dom&rest&Hrest&Heq&Hdom).
  exists id0, dom, rest. split; [done|]. split; [done|]. cbn zeta. split; [done|].
  rewrite Heq. unfold lines_made.
  set (addOnRows := zip_with _ (add_on_item input price <$> addOns) rest).
  set (orderItem := hosting_item input price package id0 orderId now).
  assert (first_of_kind ProductKind.HOSTING (orderItem :: option_list dom ++ addOnRows)
          = Some orderItem) as -> by done.
  assert (first_of_kind ProductKind.DOMAIN (orderItem :: option_list dom ++ addOnRows)
          = dom) as ->.
  { destruct part, dom; try done; [by destruct Hdom as [? ->]|].
    apply no_domain_in_add_ons. }
  assert (List.filter (is_kind ProductKind.ADD_ON)
            (orderItem :: option_list dom ++ addOnRows)
          = zip_with (λ p id, add_on_item input price p id orderId now) addOns rest) as Hf.
  { rewrite <- add_on_items_filter by done.
    destruct part, dom; try done. by destruct Hdom as [? ->]. }
  unfold invoice_lines. rewrite !fmap_app, fmap_imap, Hf. done.
Qed.

Lemma sum_of_cons {A} (f : A → Z) a l : sum_of f (a :: l) = f a + sum_of f l.
Proof. done. Qed.
Lemma sum_add_on_items input price addOns rest orderId now :
  length rest = length addOns →
  sum_of oi_lineTotal
    (zip_with (λ make id, make id orderId now) (add_on_item input price <$> addOns) rest)
  = sum_of pp_amount addOns.
Proof.
  revert rest. induction addOns as [|p l IH]; intros [|id rest] H; simpl in *; try done.
  f_equal. apply IH. congruence.
Qed.

Lemma lines_sum input price package part addOns ids orderId now invoiceId lineId :
  0 <= pp_setupFee price →
  length ids = length (item_makers input price package part addOns) →
  let items := items_made input price package part addOns ids orderId now in
  sum_of oi_lineTotal items = order_total price part addOns ∧
  sum_of ii_lineTotal (lines_made input price part items invoiceId lineId)
    = order_total price part addOns.
Proof.
  intros Hs Hlen items. destruct (lines_made_split input price package part addOns ids
    orderId now invoiceId lineId Hlen) as (id0&dom&rest&Hrest&Hdom&Hitems&Hlines).
  unfold items. rewrite Hlines, Hitems. rewrite sum_of_cons, !sum_of_app.
  rewrite sum_add_on_items, sum_imap_lines by done.
  unfold order_total. split.
  - destruct part, dom; try done; [destruct Hdom as [? ->]|]; simpl; lia.
  - unfold hosting_lines, has_setup.
    destruct (Z.ltb_spec 0 (pp_setupFee price)); destruct part, dom; try done; simpl; lia.
Qed.

Ltac cons_positions :=
  repeat (match goal with |- _ = seqZ ?m ?n => rewrite (seqZ_cons m n) by lia end; f_equal);
  f_equal; lia.
Lemma Forall_imap {A B} (P : B → Prop) (f : nat → A → B) l :
  (∀ i a, P (f i a)) → Forall P (imap f l).
Proof.
  revert f. induction l as [|a l IH]; intros f Hf; simpl; constructor; [done|].
  apply IH. intros. apply Hf.
Qed.
Lemma invoice_line_sound invoiceId id pos item d amount c :
  let l := invoice_line invoiceId id pos item d amount c in
  line_sound l ∧ ii_invoiceId l = invoiceId.
Proof. unfold line_sound; simpl. split_and!; try done. lia. Qed.

Lemma lines_shape input price package part addOns ids orderId now invoiceId lineId :
  length ids = length (item_makers input price package part addOns) →
  let items := items_made input price package part addOns ids orderId now in
  let lines := lines_made input price part items invoiceId lineId in
  ii_linePosition <$> lines = seqZ 1 (Z.of_nat (length lines)) ∧
  Forall line_sound lines ∧ Forall (λ l, ii_invoiceId l = invoiceId) lines.
Proof.
  intros Hlen items lines. destruct (lines_made_split input price package part addOns ids
    orderId now invoiceId lineId Hlen) as (id0&dom&rest&Hrest&Hdom&_&Hlines).
  unfold lines, items. rewrite Hlines. split.
  - rewrite !fmap_app, !length_app, length_imap.
    rewrite (imap_positions _ _ (firstAddOnPosition price dom)) by done.
    unfold hosting_lines, firstAddOnPosition.
    destruct (has_setup price) eqn:Hsetup; destruct part, dom; try done; simpl;
      rewrite ?Hsetup; cbn [length app fmap list_fmap]; cons_positions.
  - unfold hosting_lines, domain_lines.
    split; rewrite !Forall_app; split_and!;
      try (apply Forall_imap; intros; apply invoice_line_sound);
      destruct (has_setup price), part, dom; cbn [app fmap list_fmap];
      repeat (apply Forall_cons_2 || apply Forall_nil_2); apply invoice_line_sound.
Qed.

(** ** Properties *)

(** an order and its invoice add up.  Whatever ids are drawn, the lines of the
    items and the lines of the invoice each sum to the total written on both the
    order and the invoice; the invoice's lines are numbered 1, 2, 3 ... without
    gap (as the unique index on the position needs), each is one unit whose total
    is its price, and all belong to that invoice. *)
Theorem order_lines_exact input price package part addOns ids orderId now invoiceId lineId
    (Hsetup : 0 <= pp_setupFee price)
    (Hids : length ids = length (item_makers input price package part addOns)) :
  let items := items_made input price package part addOns ids orderId now in
  let lines := lines_made input price part items invoiceId lineId in
  sum_of oi_lineTotal items = order_total price part addOns ∧
  sum_of ii_lineTotal lines = order_total price part addOns ∧
  ii_linePosition <$> lines = seqZ 1 (Z.of_nat (length lines)) ∧
  Forall line_sound lines ∧ Forall (λ l, ii_invoiceId l = invoiceId) lines.
Proof.
  intros items lines. destruct (lines_sum input price package part addOns ids orderId now
    invoiceId lineId Hsetup Hids). split_and!; try done; by apply lines_shape.
Qed.

Definition sample_input : CreateOrderInput :=
  MkOrderInput "cus" "prod" "price" "example.com" "key" (Some ["addon"]) None None None
    None None.
Definition sample_price : ProductPrice :=
  MkProductPrice "price" "prod" BillingPeriod.MONTHLY "BDT" 50000 1000 true None None None
    ProductKind.HOSTING ACTIVE true None "Starter" None "starter" (Some "pkg") [].
Definition sample_add_on : ProductPrice :=
  MkProductPrice "addon" "addprod" BillingPeriod.ONE_TIME "BDT" 2500 0 true None None None
    ProductKind.ADD_ON ACTIVE true None "Backup" None "backup" None ["prod"].
Lemma order_lines_exact_witness :
  let items := items_made sample_input sample_price "pkg" None [sample_add_on] ["a"; "b"]
                 "o" 0 in
  let lines := lines_made sample_input sample_price None items "i" "l" in
  length lines = 3%nat ∧ sum_of ii_lineTotal lines = 53500.
Proof.
  split; [by vm_compute|].
  etrans; [|].
  - apply (order_lines_exact sample_input sample_price "pkg" None [sample_add_on] ["a"; "b"]
             "o" 0 "i" "l").
    + vm_compute. discriminate.
    + vm_compute. reflexivity.
  - vm_compute. reflexivity.
Defined.

(** ** Add-ons of a repeated submission *)

(** A repeated submission names the same add-ons exactly when its price ids
    are a reordering of the purchased ones; the code's length-and-inclusion test
    decides this because neither list repeats an id (the request schema and the
    one-price-per-product check see to that). *)
Theorem matches_add_ons_exact items priceIds
    (Hitems : NoDup (oi_productPriceId <$> List.filter (is_kind ProductKind.ADD_ON) items))
    (Hids : NoDup priceIds) :
  matchesAddOns items priceIds = true ↔
  oi_productPriceId <$> List.filter (is_kind ProductKind.ADD_ON) items ≡ₚ priceIds.
Proof.
  unfold matchesAddOns. set (l := List.filter _ items) in *.
  rewrite andb_true_iff, bool_decide_eq_true, List.forallb_forall. split.
  - intros [Hlen Hall]. apply submseteq_length_Permutation;
      [|rewrite length_fmap; lia].
    apply NoDup_submseteq; [done|]. intros x Hx. apply list_elem_of_fmap in Hx as (i&->&Hi).
    apply list_elem_of_In, Hall, List.existsb_exists in Hi as (y&Hy&Heq).
    apply String.eqb_eq in Heq as ->. by apply list_elem_of_In.
  - intros Hp. split; [by rewrite <- Hp, length_fmap|].
    intros i Hi. apply List.existsb_exists. exists (oi_productPriceId i).
    split; [|apply String.eqb_refl]. apply list_elem_of_In. rewrite <- Hp.
    apply list_elem_of_fmap_2. by apply list_elem_of_In.
Qed.
Lemma matches_add_ons_exact_witness :
  let item id kind := MkOrderItem id "o" kind "p" id "n" None BillingPeriod.MONTHLY "BDT"
                        1 0 1 1 None JNull None None 0 in
  let items := [item "h" ProductKind.HOSTING; item "a" ProductKind.ADD_ON;
                item "b" ProductKind.ADD_ON] in
  matchesAddOns items ["b"; "a"] = true.
Proof.
  intros item items. apply (matches_add_ons_exact items ["b"; "a"]).
  - compute_done.
  - compute_done.
  - vm_compute. apply perm_swap.
Defined.

(** ** The status of an order *)
Definition status_step (a b : OrderStatus) : Prop := isOrderTransitionAllowed a b = true.
(** Every order keeps to the transition table; a new one awaits its payment. *)
Definition order_moves (d d' : Db) : Prop :=
  ∀ i, match orders d !! i, orders d' !! i with
       | Some a, Some b => rtc status_step (ord_status a) (ord_status b)
       | None, Some b => rtc status_step OrderStatus.AWAITING_PAYMENT (ord_status b)
       | None, None => True
       | Some _, None => False
       end.
Class OrderSafe {A} (m : Io A) : Prop :=
  order_safe : ∀ w, order_moves (db w) (db (snd (m w))).

Lemma order_moves_refl d d' : orders d' = orders d → order_moves d d'.
Proof. intros H i. rewrite H. destruct (orders d !! i); [constructor|done]. Qed.
Lemma order_moves_trans d1 d2 d3 : order_moves d1 d2 → order_moves d2 d3 → order_moves d1 d3.
Proof.
  intros H1 H2 i. specialize (H1 i). specialize (H2 i).
  destruct (orders d1 !! i), (orders d2 !! i), (orders d3 !! i); try done; by etrans.
Qed.
Lemma order_moves_insert d i a b :
  orders d !! i = Some a → rtc status_step (ord_status a) (ord_status b) →
  order_moves d (d <| orders := <[i := b]> (orders d) |>).
Proof.
  intros Ha Hs j. simpl. rewrite lookup_insert. destruct (decide (i = j)) as [<-|].
  - by rewrite Ha.
  - destruct (orders d !! j); [constructor|done].
Qed.

#[export] Instance safe_keeps {A} (m : Io A) : Keeps orders m → OrderSafe m | 10.
Proof. intros Hk w. apply order_moves_refl, Hk. Qed.
#[export] Instance safe_bind {A B} (m : Io A) (k : A → Io B) :
  OrderSafe m → (∀ a, OrderSafe (k a)) → OrderSafe (m ≫= k).
Proof.
  intros Hm Hk w. unfold mbind, M_bind. specialize (Hm w).
  destruct (m w) as [[a|e] w1]; [|done]. eapply order_moves_trans; [exact Hm|apply Hk].
Qed.
#[export] Instance safe_catch {A} (m : Io A) h :
  OrderSafe m → (∀ e, OrderSafe (h e)) → OrderSafe (catch m h).
Proof.
  intros Hm Hk w. unfold catch. specialize (Hm w).
  destruct (m w) as [[a|e] w1]; [done|]. eapply order_moves_trans; [exact Hm|apply Hk].
Qed.
#[export] Instance safe_when b (m : Io unit) : OrderSafe m → OrderSafe (when b m).
Proof. destruct b; [done|]. intros _. apply safe_keeps, keeps_ret. Qed.

Lemma safe_update_order_if id p f :
  (∀ r, p r = true → rtc status_step (ord_status r) (ord_status (f r))) →
  OrderSafe (update_order_if id p f).
Proof.
  intros Hf w. unfold update_order_if, update_one, write, read, new_date.
  unfold mbind, M_bind, mret, M_ret, gets, modify. simpl.
  destruct (orders (db w) !! id) as [r|] eqn:Hr; [destruct (p r) eqn:Hp|]; simpl.
  - apply (order_moves_insert _ _ r); [done|]. apply (Hf r Hp).
  - by apply order_moves_refl.
  - by apply order_moves_refl.
Qed.

#[export] Instance create_payment_orders r : Keeps orders (create_payment r).
Proof. unfold create_payment, put_payment. apply _. Qed.
#[export] Instance update_payment_if_orders i p f : Keeps orders (update_payment_if i p f).
Proof. unfold update_payment_if. apply _. Qed.
#[export] Instance update_invoice_orders i f : Keeps orders (update_invoice i f).
Proof. unfold update_invoice. apply _. Qed.
#[export] Instance update_invoice_if_orders i p f : Keeps orders (update_invoice_if i p f).
Proof. unfold update_invoice_if, update_one. apply _. Qed.
#[export] Instance payment_event_orders e k p i : Keeps orders (payment_event e k p i).
Proof. unfold payment_event. apply _. Qed.
#[export] Instance action_event_orders a i : Keeps orders (action_event a i).
Proof. unfold action_event. apply _. Qed.

#[export] Instance cancel_linked_order_safe a o i n u c :
  OrderSafe (cancel_linked_order a o i n u c).
Proof.
  unfold cancel_linked_order. destruct a, o; try (apply safe_keeps, keeps_ret).
  apply safe_bind; [|intros; apply _]. apply safe_update_order_if.
  intros r Hr. apply rtc_once. unfold status_step. simpl.
  rewrite orb_true_iff, !bool_decide_eq_true in Hr. by destruct Hr as [-> | ->].
Qed.
#[export] Instance mark_order_paid_safe o f i p u c : OrderSafe (mark_order_paid o f i p u c).
Proof.
  unfold mark_order_paid. destruct o; [|apply safe_keeps, keeps_ret].
  apply safe_when, safe_bind; [|intros; apply _]. apply safe_update_order_if.
  intros r Hr. apply bool_decide_eq_true in Hr. apply rtc_once. unfold status_step.
  by rewrite Hr.
Qed.

(** A new order awaits its payment. *)
Lemma safe_create_order r :
  ord_status r = OrderStatus.AWAITING_PAYMENT → OrderSafe (create_order r).
Proof.
  intros Hs w. destruct (create_order r w) as [[u|e] w'] eqn:Hrun.
  - unfold create_order, put_order in Hrun.
    apply bind_Ok in Hrun as (m&w1&G&Hrun). apply read_Ok in G as [-> ->].
    apply bind_Ok in Hrun as (?&w1&G&Hrun). apply require_Ok in G as [G ->].
    apply write_Ok in Hrun as ->. split_bool. intros j. simpl.
    rewrite lookup_insert. destruct (decide (ord_id r = j)) as [<-|].
    + match goal with Hn : orders (db w) !! ord_id r = None |- _ => rewrite Hn end.
      rewrite Hs. constructor.
    + destruct (orders (db w) !! j); [constructor|done].
  - apply order_moves_refl. simpl. unfold create_order, mbind, M_bind, read, gets, require in Hrun.
    by destruct (_ && _); simplify_eq/=.
Qed.

Section safety.
Context `{ZodFormats} `{Sha256} (view_ok : OrderView → bool).

#[export] Instance getUnchecked_keeps {T} (proj : Db → T) i : Keeps proj (getUnchecked i).
Proof. unfold getUnchecked, getRecord, readManualPaymentInstructions. apply _. Qed.
#[export] Instance get_payment_unchecked_keeps {T} (proj : Db → T) i :
  Keeps proj (get_payment_unchecked i).
Proof. unfold get_payment_unchecked, get_payment_record. apply _. Qed.
#[export] Instance get_order_unchecked_keeps {T} (proj : Db → T) i :
  Keeps proj (get_order_unchecked view_ok i).
Proof. unfold get_order_unchecked. apply _. Qed.
#[export] Instance handleCreationError_keeps {T} (proj : Db → T) e i r c :
  Keeps proj (handleCreationError e i r c).
Proof. unfold handleCreationError. apply _. Qed.
#[export] Instance validateReceivedAt_keeps {T} (proj : Db → T) p :
  Keeps proj (validateReceivedAt p).
Proof. unfold validateReceivedAt. apply _. Qed.
#[export] Instance chargeData_keeps {T} (proj : Db → T) i u v c :
  Keeps proj (chargeData i u v c).
Proof. unfold chargeData. apply _. Qed.
#[export] Instance applyVerifiedCharge_safe i p a u c n s :
  OrderSafe (applyVerifiedCharge i p a u c n s).
Proof. unfold applyVerifiedCharge. apply _. Qed.




#[export] Instance cancel_order_invoices_orders o n :
  Keeps orders (cancel_order_invoices o n).
Proof. unfold cancel_order_invoices. apply _. Qed.





(** ** Creation *)
Context `{DomainServicesLaws} (https_url : string → bool).
#[export] Instance order_duplicateResult_keeps {T} (proj : Db → T) e i :
  Keeps proj (order_duplicateResult view_ok e i).
Proof. unfold order_duplicateResult. apply _. Qed.
#[export] Instance select_domain_keeps {T} (proj : Db → T) i s : Keeps proj (select_domain i s).
Proof using Type*. unfold select_domain. apply _. Qed.
#[export] Instance link_domain_orders i d e r item o n a :
  Keeps orders (link_domain i d e r item o n a).
Proof. unfold link_domain. apply _. Qed.
#[export] Instance allocate_orders : Keeps orders allocateInvoiceNumber.
Proof. unfold allocateInvoiceNumber. apply _. Qed.
#[export] Instance create_invoice_orders r : Keeps orders (create_invoice r).
Proof. unfold create_invoice, put_invoice. apply _. Qed.
#[export] Instance make_items_orders l o n : Keeps orders (make_items l o n).
Proof. unfold make_items. apply _. Qed.
#[export] Instance make_lines_orders l : Keeps orders (make_lines l).
Proof. unfold make_lines. apply _. Qed.
#[local] Hint Extern 4 (OrderSafe (match ?x with _ => _ end)) =>
  destruct x : typeclass_instances.
#[local] Hint Extern 3 (OrderSafe (create_order _)) =>
  by apply safe_create_order : typeclass_instances.

End safety.

(** ** What the status endpoint does not check *)

Lemma update_order_run id f w r :
  orders (db w) !! id = Some r →
  update_order id f w =
    (Ok tt, w <| ticks := S (ticks w) |>
              <| db := (db w) <| orders := <[id := f r <| ord_updatedAt := clock w (ticks w) |>]>
                                             (orders (db w)) |> |>).
Proof.
  intros Hr. unfold update_order, update_order_if, update_one, write, read, new_date.
  unfold mbind, M_bind, mret, M_ret, gets, modify. simpl. by rewrite Hr.
Qed.
Lemma domain_guard_none orderId next w :
  (∀ i d, domains (db w) !! i = Some d → dom_orderItemId d = None) →
  domain_guard orderId next w = (Ok tt, w).
Proof.
  intros Hd. unfold domain_guard, read, mbind, M_bind, gets. simpl.
  destruct (rows _ (domains (db w))) as [|d l] eqn:Hrows; [done|].
  assert (d ∈ rows (λ r, match dom_orderItemId r with
    | Some i => existsb (String.eqb i) (oi_id <$> order_items orderId (db w))
    | None => false end) (domains (db w))) as Hin by (rewrite Hrows; left).
  apply elem_rows in Hin as (Hp&i&Hi). by rewrite (Hd i d Hi) in Hp.
Qed.

(** Cancelling an order, as the code writes it. *)
Lemma cancel_run orderId current now u c w r :
  (∀ i d, domains (db w) !! i = Some d → dom_orderItemId d = None) →
  orders (db w) !! orderId = Some r →
  ∃ w', updateStatus_tx orderId current OrderStatus.CANCELLED now u c w = (Ok tt, w') ∧
    (ord_status <$> orders (db w') !! orderId = Some OrderStatus.CANCELLED) ∧
    ∀ i v, invoices (db w) !! i = Some v → cancellable_with_order orderId v = true →
      ∃ v', invoices (db w') !! i = Some v' ∧ inv_status v' = InvoiceStatus.CANCELLED ∧
            inv_amountPaid v' = inv_amountPaid v.
Proof.
  intros Hd Hr. unfold updateStatus_tx.
  eexists. split.
  { unfold mbind, M_bind. rewrite domain_guard_none by done.
    unfold read, gets, require, lift, throw_unless. cbn [negb andb].
    change (OrderStatus.CANCELLED ==b OrderStatus.COMPLETED) with false. cbn [andb].
    unfold mret at 1, M_ret at 1. rewrite (update_order_run _ _ _ r Hr).
    change (withdrawn OrderStatus.CANCELLED) with true.
    change (OrderStatus.CANCELLED ==b OrderStatus.PROCESSING) with false.
    unfold when, cancel_order_invoices, write, modify, new_date, log_activity, mret, M_ret.
    unfold mbind, M_bind. reflexivity. }
  simpl. split.
  - rewrite lookup_insert_eq. done.
  - intros i v Hv Hc. rewrite update_rows_lookup, Hv. simpl. rewrite Hc.
    eexists. split; [done|]. done.
Qed.

(** the status endpoint decides on the status it read before its transaction
    and then updates by id alone: a cancellation is applied to an order whatever
    its status has become, so an order paid in between is still cancelled, a move
    the transition table does not have (when no domain registration is linked). *)
Theorem stale_cancellation_applied orderId current now actor context w r
    (Hdomains : ∀ i d, domains (db w) !! i = Some d → dom_orderItemId d = None)
    (Horder : orders (db w) !! orderId = Some r) :
  ∃ w', updateStatus_tx orderId current OrderStatus.CANCELLED now actor context w = (Ok tt, w') ∧
        ord_status <$> orders (db w') !! orderId = Some OrderStatus.CANCELLED.
Proof.
  destruct (cancel_run orderId current now actor context w r Hdomains Horder)
    as (w'&?&?&_). eauto.
Qed.

Definition sample_order (s : OrderStatus) : Order :=
  MkOrder "o" "ORD-1" "key" "cus" s "BDT" 100 0 0 0 100 "a@b.co" None JNull 0 None None 0.
Definition sample_invoice (s : InvoiceStatus) (paid : Z) : Invoice :=
  MkInvoice "i" "INV-001001" "k" "cus" (Some "o") s "BDT" 100 0 0 100 0 paid (100 - paid)
    "A B" "a@b.co" JNull JNull JNull (Some 0) 0 None None 0 0.
Definition sample_world (o : OrderStatus) (i : InvoiceStatus) (paid : Z) : World :=
  fresh_world <| db := empty_db <| orders := {["o" := sample_order o]} |>
                                <| invoices := {["i" := sample_invoice i paid]} |> |>.
Lemma stale_cancellation_applied_witness :
  isOrderTransitionAllowed OrderStatus.PAID OrderStatus.CANCELLED = false ∧
  ∃ w', updateStatus_tx "o" (sample_order OrderStatus.AWAITING_PAYMENT) OrderStatus.CANCELLED
          0 (AdminIdentity "u") (MkRequestContext "" None)
          (sample_world OrderStatus.PAID InvoiceStatus.PAID 100) = (Ok tt, w') ∧
        ord_status <$> orders (db w') !! "o" = Some OrderStatus.CANCELLED.
Proof.
  split; [reflexivity|].
  apply (stale_cancellation_applied "o" (sample_order OrderStatus.AWAITING_PAYMENT) 0
           (AdminIdentity "u") (MkRequestContext "" None)
           (sample_world OrderStatus.PAID InvoiceStatus.PAID 100)
           (sample_order OrderStatus.PAID)).
  - intros i d H. change (domains _) with (∅ : gmap string Domain) in H.
    by rewrite lookup_empty in H.
  - reflexivity.
Defined.

(** An order's cancellation cancels its open invoice together with whatever
    was paid on it, which the invoice service refuses: for an unpaid invoice with
    a partial payment, the action CANCEL is rejected, but cancelling the order
    leaves the invoice cancelled with the payment still on it. *)
Theorem order_cancellation_ignores_payments orderId current now actor context w r i v
    (Hdomains : ∀ i d, domains (db w) !! i = Some d → dom_orderItemId d = None)
    (Horder : orders (db w) !! orderId = Some r)
    (Hinvoice : invoices (db w) !! i = Some v)
    (Hlink : inv_orderId v = Some orderId) (Hstatus : inv_status v = InvoiceStatus.UNPAID)
    (Hpaid : 0 < inv_amountPaid v) :
  is_ok (nextInvoiceStatus CANCEL (inv_status v) (inv_dueAt v) (inv_balanceDue v)
           (inv_amountPaid v) now) = false ∧
  ∃ w' v', updateStatus_tx orderId current OrderStatus.CANCELLED now actor context w
             = (Ok tt, w') ∧
    invoices (db w') !! i = Some v' ∧ inv_status v' = InvoiceStatus.CANCELLED ∧
    inv_amountPaid v' = inv_amountPaid v.
Proof.
  split.
  - unfold nextInvoiceStatus. rewrite Hstatus. simpl.
    apply Z.ltb_lt in Hpaid. by rewrite Hpaid.
  - destruct (cancel_run orderId current now actor context w r Hdomains Horder)
      as (w'&?&_&Hc). destruct (Hc i v Hinvoice) as (v'&?&?&?); [|by eauto 10].
    unfold cancellable_with_order. rewrite Hlink, Hstatus. by rewrite bool_decide_eq_true_2.
Qed.
Lemma order_cancellation_ignores_payments_witness :
  ∃ w' v', updateStatus_tx "o" (sample_order OrderStatus.AWAITING_PAYMENT)
             OrderStatus.CANCELLED 0 (AdminIdentity "u") (MkRequestContext "" None)
             (sample_world OrderStatus.AWAITING_PAYMENT InvoiceStatus.UNPAID 40) = (Ok tt, w') ∧
    invoices (db w') !! "i" = Some v' ∧ inv_status v' = InvoiceStatus.CANCELLED ∧
    inv_amountPaid v' = 40.
Proof.
  apply (order_cancellation_ignores_payments "o" (sample_order OrderStatus.AWAITING_PAYMENT) 0
           (AdminIdentity "u") (MkRequestContext "" None)
           (sample_world OrderStatus.AWAITING_PAYMENT InvoiceStatus.UNPAID 40)
           (sample_order OrderStatus.AWAITING_PAYMENT) "i"
           (sample_invoice InvoiceStatus.UNPAID 40)).
  - intros i d H. change (domains _) with (∅ : gmap string Domain) in H.
    by rewrite lookup_empty in H.
  - reflexivity.
  - reflexivity.
  - reflexivity.
  - reflexivity.
  - reflexivity.
Defined.
