(* ===== verification/PaymentProperties.v ===== *)
(** * What the payments guarantee

    Lists filtered by state, the effect of verifying a payment, and requests
    that are sent again under the submission key they already used. *)
From S2P Require Import Prelude JsString Json Money States AuthTables Database InvoiceNumber InvoiceTotals Invoices Payments MapSum Ledger Settlement Orders OrderProperties.

(** ** States *)

(** Filtering a list of payments by state returns the payments shown in that
    state: every row the filter selects shows it, and every row shown in it is
    selected, an adjustment when it has succeeded, as all adjustments do. *)
Theorem state_filter_exact s r :
  stateWhere s r = true ↔
  state r = s ∧ (pay_kind r ≠ PaymentKind.CHARGE → pay_status r = PaymentStatus.SUCCEEDED).
Proof.
  unfold stateWhere, state. destruct s, (pay_kind r), (pay_status r); simpl; naive_solver.
Qed.

(** ** Used submission keys *)
Lemma find_none_unique {R K} `{EqDecision K} (m : gmap string R) (key : R → K) k :
  find_unique m key k = None → unique_in m key k = true.
Proof.
  intros Hf. apply unique_in_spec. intros i r Hr Hk. subst k. unfold find_unique in Hf.
  apply fmap_None in Hf. pose proof (List.find_none _ _ Hf (i, r)) as Hn.
  apply elem_of_map_to_list, list_elem_of_In in Hr. specialize (Hn Hr). simpl in Hn.
  by rewrite bool_decide_eq_true_2 in Hn.
Qed.
(** The one row with a key. *)
Lemma find_unique_new {R K} `{EqDecision K} (m : gmap string R) (key : R → K) i r :
  unique_in m key (key r) = true → find_unique (<[i := r]> m) key (key r) = Some r.
Proof.
  intros Hu. destruct (find_unique _ _ _) as [r'|] eqn:Hf.
  - apply find_unique_Some in Hf as (j&Hj&Hk). rewrite lookup_insert in Hj.
    destruct (decide (i = j)) as [<-|]; [by simplify_eq|]. exfalso.
    by eapply (proj1 (unique_in_spec _ _ _) Hu).
  - apply find_none_unique in Hf. exfalso.
    by apply (proj1 (unique_in_spec _ _ _) Hf i r); [apply lookup_insert_eq|].
Qed.

Section used_keys.
Context `{ZodFormats} `{Sha256} `{DomainServices}.
Context (https_url : string → bool) (view_ok : OrderView → bool).

(** A payment stored under a key, with the invoice it belongs to. *)
Definition payment_with_key (key : string) (d : Db) : Prop :=
  ∃ r, find_unique (payments d) pay_idempotencyKey key = Some r ∧
       is_Some (invoices d !! pay_invoiceId r).
Lemma payment_found key d :
  payment_with_key key d →
  ∃ p, (r ← find_unique (payments d) pay_idempotencyKey key; include_payment d r) = Some p.
Proof.
  intros (r&Hr&v&Hv). rewrite Hr. simpl. unfold include_payment. rewrite Hv. by eexists.
Qed.

(** The guards before an order's key is looked up change nothing. *)
Lemma keeps_then {A B} (m : Io A) (k : A → Io B) w :
  Keeps (λ d, d) m → (∀ a w1, db w1 = db w → db (snd (k a w1)) = db w) →
  db (snd ((m ≫= k) w)) = db w.
Proof.
  intros Hm Hk. unfold mbind, M_bind. specialize (Hm w).
  destruct (m w) as [[a|e] w1]; [by apply Hk|done].
Qed.
Lemma order_replay_keeps input actor context source nested pending w :
  is_Some (find_unique (orders (db w)) ord_submissionKey (co_submissionKey input)) →
  db (snd (create_order_for https_url view_ok input actor context source nested pending w)) = db w.
Proof.
  intros [r Hr]. unfold create_order_for.
  apply keeps_then; [unfold authorize; apply _|intros _ w1 E1].
  rewrite <- E1 in *. apply keeps_then; [apply _|intros _ w2 E2]. rewrite <- E2 in *.
  unfold mbind at 1, M_bind at 1. unfold find_order_by_key, read, gets. rewrite Hr.
  simpl. pose proof (keeps_run (λ d, d) (order_duplicateResult view_ok (include_order (db w2) r) input)
    w2 _ _ ltac:(unfold order_duplicateResult; apply _) (surjective_pairing _)) as Hk.
  exact Hk.
Qed.

(** A submission key acts once: a request to create an invoice, submit, record
    or adjust a payment under a key some row already has writes nothing at all,
    whether it is answered with the stored row or refused; so does an order. *)
Theorem used_key_writes_nothing w :
  (∀ input actor context,
     is_Some (find_unique (invoices (db w)) inv_submissionKey (rq_submissionKey input)) →
     db (snd (create input actor context w)) = db w) ∧
  (∀ input actor context, payment_with_key (sm_submissionKey input) (db w) →
     db (snd (submitManual input actor context w)) = db w) ∧
  (∀ input actor context, payment_with_key (sm_submissionKey input) (db w) →
     db (snd (recordManual input actor context w)) = db w) ∧
  (∀ original input actor context, payment_with_key (aj_submissionKey input) (db w) →
     db (snd (adjust original input actor context w)) = db w) ∧
  (∀ input actor context source nested pending,
     is_Some (find_unique (orders (db w)) ord_submissionKey (co_submissionKey input)) →
     db (snd (create_order_for https_url view_ok input actor context source nested pending w)) = db w).
Proof.
  split_and!.
  - intros input actor context [r Hr]. unfold create, findBySubmissionKey, read, gets, mbind, M_bind.
    by rewrite Hr.
  - intros input [u|u c] context Hk; [done|]. destruct (payment_found _ _ Hk) as [p Hp].
    unfold submitManual, find_payment_by_key, read, gets, mbind, M_bind. simpl.
    unfold mbind in Hp. by rewrite Hp.
  - intros input actor context Hk. destruct (payment_found _ _ Hk) as [p Hp].
    unfold recordManual, find_payment_by_key, read, gets, mbind, M_bind.
    unfold mbind in Hp. by rewrite Hp.
  - intros original input actor context Hk. destruct (payment_found _ _ Hk) as [p Hp].
    unfold adjust, find_payment_by_key, read, gets, mbind, M_bind.
    unfold mbind in Hp. by rewrite Hp.
  - intros input actor context source nested pending [r Hr].
    apply order_replay_keeps. by exists r.
Qed.
End used_keys.

(** ** Sending a payment again *)
Section retries.
Context `{ZodFormats} `{Sha256}.

(** [manualPaymentProofSchema]: the optional texts are not empty. *)
Definition proof_texts (proof : ManualPaymentProof) : Prop :=
  pf_payerName proof ≠ Some "" ∧ pf_note proof ≠ Some "".
Lemma proof_metadata_roundtrip proof : proof_texts proof →
  readProofMetadata (proofMetadata proof) = (pf_payerName proof, pf_note proof).
Proof.
  intros [Hp Hn]. unfold proofMetadata, truthy_property, truthy.
  destruct (pf_payerName proof) as [p|], (pf_note proof) as [n|]; simpl;
    repeat match goal with |- context [String.eqb ?s ""] =>
      destruct (String.eqb_spec s ""); [by subst|] end; done.
Qed.

(** What a recorded payment stores of its request. *)
Definition stores (input : SubmitManualPaymentRequest) (u : string) (r : Payment) : Prop :=
  pay_kind r = PaymentKind.CHARGE ∧ pay_provider r = "manual" ∧
  pay_invoiceId r = sm_invoiceId input ∧ pay_createdByUserId r = Some u ∧
  pay_amount r = string_to_Z (sm_payment input) ∧
  pay_manualMethod r = Some (method_name (pf_method (sm_proof input))) ∧
  pay_reference r = Some (pf_reference (sm_proof input)) ∧
  pay_proofMetadata r = proofMetadata (sm_proof input) ∧
  pay_idempotencyKey r = sm_submissionKey input ∧
  (∀ t, pf_paidAt (sm_proof input) = Some t → pay_receivedAt r = Some t).
Lemma chargeData_stores input u verified currency w r w' :
  chargeData input u verified currency w = (Ok r, w') → stores input u r.
Proof.
  unfold chargeData. intros Hrun. apply bind_Ok in Hrun as (t&w1&Ht&Hrun).
  apply bind_Ok in Hrun as (i&w2&_&Hrun). apply bind_Ok in Hrun as (now&w3&_&Hrun).
  apply ret_Ok in Hrun as [-> ->]. split_and!; try done. simpl. intros t' Ht'.
  rewrite Ht' in Ht. by apply ret_Ok in Ht as [-> _].
Qed.
#[local] Instance chargeData_roles input u v c : Keeps userRoles (chargeData input u v c).
Proof. unfold chargeData. apply _. Qed.
#[local] Instance event_roles e k p i : Keeps userRoles (payment_event e k p i).
Proof. unfold payment_event. apply _. Qed.
#[local] Instance order_roles o f i p a c : Keeps userRoles (mark_order_paid o f i p a c).
Proof. unfold mark_order_paid. apply _. Qed.
Lemma charge_roles v p a actor c now s w u w' :
  applyVerifiedCharge v p a actor c now s w = (Ok u, w') → userRoles (db w') = userRoles (db w).
Proof.
  apply keeps_run. unfold applyVerifiedCharge, update_invoice. apply _.
Qed.

(** Recording a payment creates one row, under a key nothing had. *)
Lemma recordManual_tx_creates input actor context w i w' :
  recordManual_tx input actor context w = (Ok i, w') →
  ∃ r, payments (db w') = <[i := r]> (payments (db w)) ∧ pay_id r = i ∧
    stores input (userId actor) r ∧
    unique_in (payments (db w)) pay_idempotencyKey (sm_submissionKey input) = true ∧
    userRoles (db w') = userRoles (db w).
Proof.
  unfold recordManual_tx. intros Hrun.
  apply bind_Ok in Hrun as (?&w1&Hl&Hrun). apply lock_row_Ok in Hl as ->.
  apply bind_Ok in Hrun as (?&w1&Hr&Hrun). apply read_Ok in Hr as [-> ->].
  apply bind_Ok in Hrun as (invoice&w1&Hr&Hrun). apply lift_Ok in Hr as [_ ->].
  apply bind_Ok in Hrun as ([]&w1&Ha&Hrun). apply assertPayableAmount_Ok in Ha as (_&_&->).
  apply bind_Ok in Hrun as (now&w1&Hn&Hrun). apply new_date_Ok in Hn as [_ ->].
  apply bind_Ok in Hrun as (r&w1&Hc&Hrun).
  pose proof (chargeData_stores _ _ _ _ _ _ _ Hc) as Hst.
  pose proof (keeps_run userRoles _ _ _ _ _ Hc) as Hroles.
  apply chargeData_Ok in Hc as [_ Ht].
  apply bind_Ok in Hrun as ([]&w2&Hp&Hrun).
  assert (userRoles (db w2) = userRoles (db w1)) as Hroles2
    by (eapply keeps_run; [|exact Hp]; unfold create_payment, put_payment; apply _).
  apply create_payment_tables in Hp as (_&Hu&_&Ht2).
  apply bind_Ok in Hrun as ([]&w3&Hv&Hrun). apply ret_Ok in Hrun as [-> ->].
  pose proof (charge_roles _ _ _ _ _ _ _ _ _ _ Hv) as Hroles3.
  apply applyVerifiedCharge_Ok in Hv as (?&?&_&_&_&Ht3).
  apply tables_eq in Ht as [_ Hpay]. injection Ht2 as _ Hpay2. injection Ht3 as _ Hpay3.
  exists r. rewrite Hpay in *. split_and!; [by rewrite Hpay3, Hpay2|done..| |by rewrite Hroles3, Hroles2, Hroles].
  destruct Hst as (_&_&_&_&_&_&_&_&<-&_). done.
Qed.

(** A stored payment answers the request that made it. *)
Lemma duplicate_matches record input u role :
  stores input u (pr_payment record) → proof_texts (sm_proof input) →
  pr_createdByRole record = Some role →
  duplicateChargeResult record input role None =
  (view ← toPayment record; Ok (MkPaymentResult view true)).
Proof.
  intros (Hk&_&Hi&_&Ha&Hm&Hr&Hp&_&Ht) Htexts Hrole. unfold duplicateChargeResult.
  rewrite Hk, Hi, Ha, Hm, Hr, Hp, Hrole, proof_metadata_roundtrip by done.
  rewrite String.eqb_refl, Z.eqb_refl, !bool_decide_eq_true_2 by done. simpl.
  destruct (pf_paidAt _) as [t|]; [|done]. rewrite (Ht t) by done.
  by rewrite bool_decide_eq_true_2.
Qed.
Lemma recordManual_first input actor context w res w' :
  recordManual input actor context w = (Ok res, w') → mr_duplicate res = false →
  ∃ r record, stores input (userId actor) r ∧
    userRoles (db w') = userRoles (db w) ∧
    find_unique (payments (db w')) pay_idempotencyKey (sm_submissionKey input) = Some r ∧
    include_payment (db w') r = Some record ∧ toPayment record = Ok (mr_payment res).
Proof.
  unfold recordManual. intros Hrun Hdup.
  apply bind_Ok in Hrun as (found&w1&Hf&Hrun). apply read_Ok in Hf as [-> ->].
  destruct (_ ≫= _) as [record|].
  { apply lift_Ok in Hrun as [Hrun _]. unfold duplicateChargeResult in Hrun.
    destruct (_ && _); [|done]. apply result_bind_Ok in Hrun as (v&_&[= <-]). done. }
  apply bind_Ok in Hrun as ([]&w1&Hv&Hrun).
  assert (userRoles (db w1) = userRoles (db w)) as Hroles.
  { eapply keeps_run; [|exact Hv]. unfold validateReceivedAt. apply _. }
  unfold catch in Hrun.
  match type of Hrun with match ?t with _ => _ end = _ =>
    destruct t as [[res1|e] w2] eqn:Htry end.
  2: { unfold handleCreationError in Hrun. destruct (is_unique_violation e); [|done].
       apply bind_Ok in Hrun as (found&w3&_&Hrun). destruct found as [record|]; [|done].
       apply lift_Ok in Hrun as [Hrun _]. unfold duplicateChargeResult in Hrun.
       destruct (_ && _); [|done]. apply result_bind_Ok in Hrun as (v&_&[= <-]). done. }
  injection Hrun as -> ->. apply bind_Ok in Htry as (i&w3&Htx&Htry).
  apply transaction_Ok, recordManual_tx_creates in Htx as (r&Hpay&Hid&Hst&Hu&Hr3).
  apply bind_Ok in Htry as (view&w4&Hg&Htry). apply ret_Ok in Htry as [-> ->].
  unfold get_payment_unchecked in Hg. apply bind_Ok in Hg as (record&w5&Hg&Hview).
  apply lift_Ok in Hview as [Hview ->].
  unfold get_payment_record in Hg. apply bind_Ok in Hg as (found&w4&Hg&Hrec).
  apply read_Ok in Hg as [-> ->]. apply lift_Ok in Hrec as [Hrec%of_option_Ok ->].
  rewrite Hpay, lookup_insert_eq in Hrec. simpl in Hrec.
  destruct Hst as (?&Hprov&?) eqn:E. rewrite Hprov in Hrec. simpl in Hrec.
  exists r, record. rewrite Hr3, Hroles, Hpay. split_and!; try done.
  assert (sm_submissionKey input = pay_idempotencyKey r) as -> by (symmetry; apply Hst).
  apply find_unique_new. rewrite <- Hu. f_equal. apply Hst.
Qed.

(** Recording a payment is safe to retry: after it succeeded, the same request
    by the same administrator, sent again, is answered with the same payment as a
    duplicate, and neither the invoice nor anything else changes. *)
Theorem payment_retry_safe input actor context w res w' again w2
    (Hrun : recordManual input actor context w = (Ok res, w'))
    (Hnew : mr_duplicate res = false)
    (Hrole : userRoles (db w) !! userId actor = Some UserRole.ADMIN)
    (Htexts : proof_texts (sm_proof input))
    (Hdb : db w2 = db w') :
  recordManual input actor again w2 = (Ok (MkPaymentResult (mr_payment res) true), w2).
Proof.
  apply recordManual_first in Hrun as (r&record&Hst&Hroles&Hf&Hinc&Hview); [|done].
  unfold recordManual, find_payment_by_key, read, gets. unfold mbind at 1, M_bind at 1.
  rewrite Hdb, Hf. simpl. rewrite Hinc. unfold lift.
  assert (pr_payment record = r ∧ pr_createdByRole record = Some UserRole.ADMIN) as [Hr Hrec].
  { unfold include_payment in Hinc. apply bind_Some in Hinc as (v&_&[= <-]). simpl.
    destruct Hst as (_&_&_&->&_). simpl. by rewrite Hroles. }
  rewrite (duplicate_matches _ _ (userId actor)); [|by rewrite Hr|done|done].
  by rewrite Hview.
Qed.
End retries.

(** ** Verifying a payment *)
(** A fully paid order awaiting its payment becomes PAID; others stay. *)
Definition order_after (orderId : option string) (fullyPaid : bool) (o : Order) : OrderStatus :=
  if fullyPaid && bool_decide (orderId = Some (ord_id o)) &&
     (ord_status o ==b OrderStatus.AWAITING_PAYMENT)
  then OrderStatus.PAID else ord_status o.
Definition orders_keyed (d : Db) : Prop := ∀ i o, orders d !! i = Some o → ord_id o = i.

Lemma update_order_if_statuses id p f w n w' s :
  (∀ o, p o = true → ord_status (f o) = s) →
  update_order_if id p f w = (Ok n, w') →
  ∀ i, ord_status <$> orders (db w') !! i =
       (λ o, if bool_decide (i = id) && p o then s else ord_status o) <$> orders (db w) !! i.
Proof.
  unfold update_order_if, update_one. intros Hf Hrun i.
  apply bind_Ok in Hrun as (t&w1&Ht&Hrun). apply new_date_Ok in Ht as [-> ->].
  apply bind_Ok in Hrun as (m&w1&Hr&Hrun). apply read_Ok in Hr as [-> ->]. simpl in Hrun.
  destruct (orders (db w) !! id) as [r|] eqn:Hr; [destruct (p r) eqn:Hp|].
  all: apply bind_Ok in Hrun as (?&w1&Hw&Hrun); apply write_Ok in Hw as ->;
    apply ret_Ok in Hrun as [-> ->]; simpl.
  - rewrite lookup_insert. destruct (decide (id = i)) as [<-|].
    + rewrite Hr, bool_decide_eq_true_2 by done. simpl. rewrite Hp. simpl. by rewrite Hf.
    + rewrite bool_decide_eq_false_2 by done. done.
  - case_bool_decide as Hi; [|done]. subst i. rewrite Hr. simpl. by rewrite Hp.
  - case_bool_decide as Hi; [|done]. subst i. by rewrite Hr.
Qed.
Lemma mark_order_paid_statuses orderId fullyPaid i p actor context w u w' :
  orders_keyed (db w) →
  mark_order_paid orderId fullyPaid i p actor context w = (Ok u, w') →
  ∀ j, ord_status <$> orders (db w') !! j = order_after orderId fullyPaid <$> orders (db w) !! j.
Proof.
  unfold mark_order_paid. intros Hk Hrun j.
  assert (∀ o, orders (db w) !! j = Some o → bool_decide (orderId = Some (ord_id o)) =
            bool_decide (orderId = Some j)) as Hid by (intros o Ho; by rewrite (Hk _ _ Ho)).
  destruct orderId as [id|]; [|apply ret_Ok in Hrun as [_ ->]].
  - destruct fullyPaid; simpl in Hrun; [|by apply ret_Ok in Hrun as [_ ->]].
    apply bind_Ok in Hrun as (n&w1&Hu&Hrun).
    apply (update_order_if_statuses _ _ _ _ _ _ OrderStatus.PAID) with (i := j) in Hu; [|done].
    apply (keeps_run orders) in Hrun; [|apply _]. rewrite Hrun, Hu.
    destruct (orders (db w) !! j) as [o|] eqn:Ho; [|done]. simpl. unfold order_after.
    rewrite (Hid o) by done. simpl. f_equal. rewrite (bool_decide_ext (Some id = Some j) (j = id));
      [done|naive_solver].
  - destruct (orders (db w) !! j); [|done]. simpl. unfold order_after. by rewrite andb_false_r.
Qed.

#[local] Instance update_invoice_lines i f : Keeps invoiceItems (update_invoice i f).
Proof. unfold update_invoice. apply _. Qed.
#[local] Instance mark_paid_lines o f i p a c : Keeps invoiceItems (mark_order_paid o f i p a c).
Proof. unfold mark_order_paid. apply _. Qed.
#[local] Instance event_lines e k p i : Keeps invoiceItems (payment_event e k p i).
Proof. unfold payment_event. apply _. Qed.

Definition renewal_event (paymentId : string) (d : Db) : Prop :=
  ∃ i e, outboxEvents d !! i = Some e ∧ out_eventType e = "RENEWAL_PAYMENT_COMPLETED" ∧
    out_aggregateId e = paymentId ∧ out_status e = OutboxStatus.PENDING.
Lemma applyVerifiedCharge_effects invoice p amount actor context now source w u w' :
  orders_keyed (db w) →
  applyVerifiedCharge invoice p amount actor context now source w = (Ok u, w') →
  let fullyPaid := inv_balanceDue invoice - amount =? 0 in
  (∀ j, ord_status <$> orders (db w') !! j =
        order_after (inv_orderId invoice) fullyPaid <$> orders (db w) !! j) ∧
  (fullyPaid = true → 0 < count_rows (renewal_line (inv_id invoice)) (invoiceItems (db w)) →
   renewal_event p (db w')).
Proof.
  intros Hk Hrun fullyPaid. unfold applyVerifiedCharge in Hrun.
  apply bind_Ok in Hrun as ([]&w1&Hu&Hrun).
  pose proof (keeps_run orders _ _ _ _ _ Hu) as Ho1.
  pose proof (keeps_run invoiceItems _ _ _ _ _ Hu) as Hl1.
  apply bind_Ok in Hrun as ([]&w2&Hm&Hrun).
  pose proof (keeps_run invoiceItems _ _ _ _ _ Hm) as Hl2.
  pose proof (mark_order_paid_statuses _ _ _ _ _ _ _ _ _
    ltac:(unfold orders_keyed; by rewrite Ho1) Hm) as Hst. clear Hm.
  apply bind_Ok in Hrun as ([]&w3&He&Hrun).
  pose proof (keeps_run orders _ _ _ _ _ He) as Ho3.
  pose proof (keeps_run invoiceItems _ _ _ _ _ He) as Hl3.
  apply bind_Ok in Hrun as (n&w4&Hr&Hrun). apply read_Ok in Hr as [-> ->].
  apply bind_Ok in Hrun as ([]&w4&Hev&Hrun).
  pose proof (keeps_run orders _ _ _ _ _ Hev) as Ho4.
  pose proof (keeps_run orders _ _ _ _ _ Hrun) as Ho5.
  pose proof (keeps_run outboxEvents _ _ _ _ _ Hrun) as Hx5. split.
  - intros j. by rewrite Ho5, Ho4, Ho3, Hst, Ho1.
  - intros Hfull Hlines. unfold renewal_event. rewrite Hx5. clear Hx5.
    rewrite Hl3, Hl2, Hl1 in Hev. fold fullyPaid in Hev. rewrite Hfull in Hev.
    apply Z.ltb_lt in Hlines. rewrite Hlines in Hev.
    apply when_Ok in Hev as [[_ Hev]|[? _]]; [|done].
    unfold payment_event in Hev. apply create_outbox_Ok in Hev as (i&now'&_&->). exists i. eexists.
    split; [apply lookup_insert_eq|done].
Qed.

Section verification.
Context `{ZodFormats} `{Sha256}.

#[local] Instance update_payment_if_lines i p f : Keeps invoiceItems (update_payment_if i p f).
Proof. unfold update_payment_if. apply _. Qed.

(** The guards of a verification, and the charge it then applies. *)
Lemma verify_tx_cases p i actor context w u w' :
  keyed_tables (ledger_tables (db w)) →
  verify_tx p i actor context w = (Ok u, w') →
  ∃ r v t now w1, payments (db w) !! p = Some r ∧ reviewable r = true ∧
    invoices (db w) !! i = Some v ∧ open_for_payment (inv_status v) ∧
    0 < pay_amount r <= inv_balanceDue v ∧
    ledger_tables (db w1) = (invoices (db w), <[p := r <| pay_status := PaymentStatus.SUCCEEDED |>
      <| pay_providerTransactionId := Some (providerReference
           (default "OTHER" (pay_manualMethod r)) (default "" (pay_reference r))) |>
      <| pay_reviewedByUserId := Some (userId actor) |> <| pay_reviewedAt := Some now |>
      <| pay_verifiedAt := Some now |> <| pay_updatedAt := t |>]> (payments (db w))) ∧
    orders (db w1) = orders (db w) ∧ invoiceItems (db w1) = invoiceItems (db w) ∧
    applyVerifiedCharge v p (pay_amount r) actor context now UserRole.CUSTOMER w1 = (Ok u, w').
Proof.
  intros [Hki Hkp] Hrun. unfold verify_tx in Hrun.
  apply bind_Ok in Hrun as (?&w1&Hl&Hrun). apply lock_row_Ok in Hl as ->.
  apply bind_Ok in Hrun as (?&w1&Hr&Hrun). apply read_Ok in Hr as [-> ->].
  apply bind_Ok in Hrun as (?&w1&Hr&Hrun). apply read_Ok in Hr as [-> ->].
  apply bind_Ok in Hrun as (r&w1&Hr&Hrun). apply lift_Ok in Hr as [Hr%of_option_Ok ->].
  apply bind_Some in Hr as (r0&Hr0&Hr). destruct (reviewable r0) eqn:Hrev; [|done]. simplify_eq.
  apply bind_Ok in Hrun as (v&w1&Hv&Hrun). apply lift_Ok in Hv as [Hv%of_option_Ok ->].
  apply bind_Ok in Hrun as ([]&w1&Ha&Hrun). apply assertPayableAmount_Ok in Ha as (Hopen&Hamt&->).
  apply bind_Ok in Hrun as (now&w1&Hn&Hrun). apply new_date_Ok in Hn as [_ ->].
  pose proof (Hkp _ _ Hr0) as Hid. simpl in Hid. rewrite Hid in Hrun.
  apply bind_Ok in Hrun as (n&w1&Hu&Hrun).
  pose proof (keeps_run orders _ _ _ _ _ Hu) as Ho.
  pose proof (keeps_run invoiceItems _ _ _ _ _ Hu) as Hi.
  apply bind_Ok in Hrun as ([]&w2&Hq&Hrun). apply require_Ok in Hq as [Hq ->].
  apply update_payment_if_tables in Hu as [[-> _]|(_&r1&t&Hr1&_&Ht)]; [done|].
  simpl in Hr1, Ht. rewrite Hr0 in Hr1. injection Hr1 as <-.
  exists r, v, t, now, w1. split_and!; try done; lia.
Qed.

(** C24: verifying a payment does all of it or nothing: the pending charge becomes
    SUCCEEDED and its amount, within the balance of an open invoice, moves from
    the balance to the amount paid; the invoice is PAID exactly when nothing is
    left; then, and only then, its order, if it awaits payment, is PAID, every
    other order keeps its status, and an invoice that renews services announces
    the payment to the renewal automation. *)
Theorem verified_payment_exact p i actor context w u w'
    (Hkeys : keyed_tables (ledger_tables (db w))) (Horders : orders_keyed (db w))
    (Hrun : verify_tx p i actor context w = (Ok u, w')) :
  ∃ r r' v v', payments (db w) !! p = Some r ∧ reviewable r = true ∧
    payments (db w') = <[p := r']> (payments (db w)) ∧
    entry_of r' = with_entry_status PaymentStatus.SUCCEEDED (entry_of r) ∧
    invoices (db w) !! i = Some v ∧ open_for_payment (inv_status v) ∧
    0 < pay_amount r <= inv_balanceDue v ∧
    invoices (db w') = <[i := v']> (invoices (db w)) ∧
    account_of v' = credit_account (pay_amount r) (account_of v) ∧
    let fullyPaid := inv_balanceDue v - pay_amount r =? 0 in
    (∀ j, ord_status <$> orders (db w') !! j =
          order_after (inv_orderId v) fullyPaid <$> orders (db w) !! j) ∧
    (fullyPaid = true → 0 < count_rows (renewal_line i) (invoiceItems (db w)) →
     renewal_event p (db w')).
Proof.
  destruct (verify_tx_cases _ _ _ _ _ _ _ Hkeys Hrun)
    as (r&v&t&now&w1&Hr&Hrev&Hv&Hopen&Hamt&Ht&Ho&Hi&Hc).
  pose proof (proj1 Hkeys _ _ Hv) as Hid. simpl in Hid.
  pose proof (applyVerifiedCharge_effects _ _ _ _ _ _ _ _ _ _
    ltac:(unfold orders_keyed; by rewrite Ho) Hc) as [Hst Hev].
  rewrite Ho in Hst. rewrite Hi, Hid in Hev. injection Ht as Hinv Hpay.
  apply applyVerifiedCharge_Ok in Hc as (v1&v'&Hv1&_&Hacc&[= Hinv' Hpay']).
  rewrite Hid, Hinv, Hv in Hv1. injection Hv1 as <-.
  rewrite Hid, Hinv in Hinv'. rewrite Hpay in Hpay'.
  exists r. eexists. exists v, v'. cbv zeta. split_and!; try done; try lia.
  rewrite Hacc. apply account_of_settle.
Qed.
End verification.

(** ** Witnesses *)
(** An order's invoice of 100, and a pending payment of it by mobile money. *)
Definition payment_world : World :=
  MkWorld (empty_db <| orders := {["o" := sample_order OrderStatus.AWAITING_PAYMENT]} |>
             <| invoices := {["i" := sample_invoice InvoiceStatus.UNPAID 0]} |>
             <| authTables := no_accounts <| users :=
             {["u" := MkUser "u" "admin@example.com" None UserRole.ADMIN UserStatus.ACTIVE
                        (Some 0) None 0 0 None]} |> |>
             <| payments := {["p" := MkPayment "p" "i" None (Some "c") None PaymentKind.CHARGE
                  PaymentStatus.PENDING "manual" None "k" 100 "BDT" (Some "trx") None None
                  (Some "MOBILE_FINANCIAL_SERVICE") (JObj []) None (Some 0) None None 0 0]} |>)
    (λ n, Nat.iter n (String "i") "d") 0 (λ n, Z.of_nat n) 0 [].
Definition cash_payment : SubmitManualPaymentRequest :=
  MkSubmit "i" "100" "key" (MkProof CASH "receipt 7" (Some "Ada") None None).
Definition recorded : result ManualPaymentCreationResult * World :=
  @recordManual all_formats plain_sha cash_payment (AdminIdentity "u") (MkRequestContext "" None)
    payment_world.

Lemma payment_retry_safe_witness :
  ∃ res, fst recorded = Ok res ∧ mr_duplicate res = false ∧
    @recordManual all_formats plain_sha cash_payment (AdminIdentity "u")
      (MkRequestContext "elsewhere" None) (snd recorded) =
    (Ok (MkPaymentResult (mr_payment res) true), snd recorded).
Proof.
  destruct (fst recorded) as [res|e] eqn:Hr; [|exfalso].
  2: { assert (is_ok (fst recorded) = true) as Hok by (vm_compute; reflexivity).
       rewrite Hr in Hok. discriminate. }
  exists res. split; [done|].
  assert (mr_duplicate res = false) as Hd.
  { assert (match fst recorded with Ok r => mr_duplicate r | Err _ => true end = false) as Hdup
      by (vm_compute; reflexivity). by rewrite Hr in Hdup. }
  split; [exact Hd|].
  apply (@payment_retry_safe all_formats plain_sha cash_payment (AdminIdentity "u")
           (MkRequestContext "" None) payment_world res (snd recorded)).
  - rewrite <- Hr. apply surjective_pairing.
  - exact Hd.
  - reflexivity.
  - split; discriminate.
  - reflexivity.
Defined.

Definition verified : result unit * World :=
  @verify_tx plain_sha "p" "i" (AdminIdentity "u") (MkRequestContext "" None) payment_world.
Lemma verified_payment_exact_witness :
  ord_status <$> orders (db (snd verified)) !! "o" = Some OrderStatus.PAID.
Proof.
  destruct (@verified_payment_exact plain_sha "p" "i" (AdminIdentity "u") (MkRequestContext "" None)
              payment_world tt (snd verified))
    as (r&r'&v&v'&Hr&_&_&_&Hv&_&_&_&_&Hst&_).
  - split; intros i x; simpl; by intros [<- <-]%lookup_singleton_Some.
  - intros i x. simpl. by intros [<- <-]%lookup_singleton_Some.
  - assert (fst verified = Ok tt) as Hok by (vm_compute; reflexivity). rewrite <- Hok.
    apply surjective_pairing.
  - rewrite (Hst "o").
    assert (payments (db payment_world) !! "p" = Some r) as Hr0 by exact Hr.
    assert (pay_amount <$> payments (db payment_world) !! "p" = Some 100) as Ha by reflexivity.
    rewrite Hr in Ha. injection Ha as Ha. rewrite Ha.
    assert ((λ v, (inv_balanceDue v, inv_orderId v)) <$> invoices (db payment_world) !! "i" =
            Some (100, Some "o")) as Hb by reflexivity.
    rewrite Hv in Hb. injection Hb as Hb1 Hb2. rewrite Hb1, Hb2. reflexivity.
Defined.
