(* ===== verification/GatewayProperties.v ===== *)
(** * What the payment gateways guarantee

    The moves of the ledger the gateway service makes, when an event of a
    provider is accepted and what it then does, repeated events and repeated
    requests for a session, and what can overtake them. *)
From S2P Require Import Prelude JsString JsDate Json Money States Database InvoiceNumber InvoiceTotals Invoices Payments Gateways MapSum Ledger Settlement Orders OrderProperties PaymentProperties.

(** ** Frames *)
#[export] Instance create_payment_event_keeps r : Keeps ledger_tables (create_payment_event r).
Proof. apply _. Qed.
#[export] Instance update_payment_event_keeps i f :
  Keeps ledger_tables (update_payment_event i f).
Proof. apply _. Qed.
#[export] Instance rejectStoredEvent_keeps i m : Keeps ledger_tables (rejectStoredEvent i m).
Proof. unfold rejectStoredEvent. apply _. Qed.
#[export] Instance settleOrder_keeps o i p : Keeps ledger_tables (settleOrder o i p).
Proof. unfold settleOrder. apply _. Qed.
#[export] Instance completeEventAndOutbox_keeps i e g p v b :
  Keeps ledger_tables (completeEventAndOutbox i e g p v b).
Proof. unfold completeEventAndOutbox. apply _. Qed.
#[export] Instance gateway_log_keeps a g e p i m :
  Keeps ledger_tables (gateway_log a g e p i m).
Proof. unfold gateway_log. apply _. Qed.
#[export] Instance findSessionPayment_keeps {T} (proj : Db → T) k :
  Keeps proj (findSessionPayment k).
Proof. apply keeps_read. Qed.
#[export] Instance occurred_keeps `{DateParser} {T} (proj : Db → T) e :
  Keeps proj (occurred e).
Proof. apply keeps_lift. Qed.
#[global] Typeclasses Opaque rejectStoredEvent settleOrder completeEventAndOutbox gateway_log
  findSessionPayment occurred.

Lemma update_payment_tables id f w u w' :
  update_payment id f w = (Ok u, w') →
  ∃ r t, payments (db w) !! id = Some r ∧
    ledger_tables (db w') =
      (invoices (db w), <[id := f r <| pay_updatedAt := t |>]> (payments (db w))).
Proof.
  unfold update_payment. intros Hrun. apply bind_Ok in Hrun as (n&w1&Hu&Hrun).
  apply require_Ok in Hrun as [Hn ->].
  apply update_payment_if_tables in Hu as [[-> _]|(_&r&t&?&_&?)]; [done|eauto].
Qed.

(** ** Moves *)
(** A payment rewritten with the entry it had. *)
Lemma posts_same_entry m p k r s :
  keyed_tables (m, p) → p !! k = Some r → pay_id s = pay_id r → entry_of s = entry_of r →
  keyed_tables (m, <[k := s]> p) ∧
  rtc ledger_step (of_tables (m, p)) (of_tables (m, <[k := s]> p)).
Proof.
  intros Hk Hr Hid He. split.
  - apply keyed_payment; [done|]. rewrite Hid. by apply (proj2 Hk).
  - rewrite of_tables_payment, He.
    replace (MkLedger _ _) with (of_tables (m, p)); [constructor|].
    unfold of_tables. simpl. f_equal. symmetry. apply insert_id. by rewrite lookup_fmap, Hr.
Qed.
Lemma update_payment_posts id f :
  (∀ r, entry_of (f r) = entry_of r ∧ pay_id (f r) = pay_id r) →
  Posts anywhere (update_payment id f).
Proof.
  intros Hf w u w' [Hk _] _ Hrun. apply update_payment_tables in Hrun as (r&t&Hr&Ht).
  unfold ledger_of. rewrite Ht. destruct (Hf r). by apply (posts_same_entry _ _ _ r).
Qed.
Lemma update_payment_if_posts id p f :
  (∀ r, entry_of (f r) = entry_of r ∧ pay_id (f r) = pay_id r) →
  Posts anywhere (update_payment_if id p f).
Proof.
  intros Hf w u w' [Hk _] _ Hrun.
  apply update_payment_if_tables in Hrun as [[_ Ht]|(_&r&t&Hr&_&Ht)];
    unfold ledger_of; rewrite Ht; [by split|].
  destruct (Hf r). by apply (posts_same_entry _ _ _ r).
Qed.
#[export] Instance claimSession_posts id : Posts anywhere (claimSession id).
Proof. by apply update_payment_if_posts. Qed.
#[export] Instance storeSession_posts id s : Posts anywhere (storeSession id s).
Proof. by apply update_payment_if_posts. Qed.

(** A charge nobody has decided. *)
Definition awaiting (paymentId : string) (d : Db) : Prop :=
  ∃ r, payments d !! paymentId = Some r ∧ pay_kind r = PaymentKind.CHARGE ∧
       pay_status r = PaymentStatus.PENDING.
Lemma recordProviderFailure_posts id message outcome :
  Posts (awaiting id) (recordProviderFailure id message outcome).
Proof.
  intros w u w' [Hk _] (r0&Hr0&Hch&Hp) Hrun.
  apply update_payment_tables in Hrun as (r&t&Hr&Ht). rewrite Hr0 in Hr. injection Hr as <-.
  unfold ledger_of. rewrite Ht. destruct (String.eqb outcome "FAILED").
  - apply posts_payment; [done|simpl; by apply (proj2 Hk)|].
    apply (ls_reject _ _ (entry_of r0)); [by apply entry_lookup|done..].
  - apply (posts_same_entry _ _ _ r0); [done..|].
    unfold entry_of. simpl. by rewrite Hp.
Qed.

Section sessions.
Context `{ZodFormats} `{ZodUrl} `{Sha256} `{DateParser}.

Lemma createSession_tx_posts gateway key input actor :
  Posts anywhere (createSession_tx gateway key input actor).
Proof.
  intros w a w' Hi _ Hrun. unfold createSession_tx in Hrun. run_tables. split_tables.
  split_bool.
  match goal with H : _ ≫= _ = Some ?r |- _ => apply bind_Some in H as (r'&?&?) end.
  destruct (canAccessInvoice _ _); [|done]. simplify_eq.
  apply posts_payment; [apply Hi|done|].
  eapply ls_submit; [by apply account_lookup|by apply entry_absent|simpl..]; try done.
  by apply (proj1 (proj1 Hi)).
Qed.
End sessions.

(** ** Which events are accepted *)
(** The rows of an event agree with it; a success also needs an open invoice
    whose balance is the amount of the payment. *)
Definition event_matches (d : Db) (gateway : PaymentGateway) (event : NormalizedPaymentEvent)
    (invoice : Invoice) (payment : Payment) : Prop :=
  pay_invoiceId payment = ev_invoiceId event ∧ pay_provider payment = gw_key gateway ∧
  pay_kind payment = PaymentKind.CHARGE ∧ pay_status payment = PaymentStatus.PENDING ∧
  Z_to_string (pay_amount payment) = ev_amount event ∧
  pay_currency payment = ev_currency event ∧ inv_currency invoice = ev_currency event ∧
  (∀ t k r, transactionId gateway event = Some t → payments d !! k = Some r →
     pay_provider r = gw_key gateway → pay_providerTransactionId r = Some t →
     pay_id r = pay_id payment) ∧
  (ev_status event = EventStatus.SUCCEEDED →
     open_for_payment (inv_status invoice) ∧ inv_balanceDue invoice = pay_amount payment).

Lemma recorded_elsewhere_false provider t p d :
  recorded_elsewhere provider t p d = false ↔
  ∀ k r, payments d !! k = Some r → pay_provider r = provider →
    pay_providerTransactionId r = Some t → pay_id r = p.
Proof.
  unfold recorded_elsewhere. rewrite <- not_true_iff_false, existsb_exists. split.
  - intros Hno k r Hr Hp Ht. destruct (decide (pay_id r = p)) as [|Hne]; [done|].
    exfalso. apply Hno. exists r. split.
    + apply list_elem_of_In, elem_rows. eauto.
    + rewrite Hp, String.eqb_refl, bool_decide_eq_true_2 by done. simpl.
      by apply String.eqb_neq in Hne as ->.
  - intros Hall (r&Hr&Hb). apply list_elem_of_In, elem_rows in Hr as (_&k&Hr). split_bool.
    apply String.eqb_eq in H. apply String.eqb_neq in H0. by apply H0, (Hall k r).
Qed.
Lemma opened_spec s :
  (s ==b InvoiceStatus.UNPAID) || (s ==b InvoiceStatus.OVERDUE) = true ↔ open_for_payment s.
Proof. unfold open_for_payment. by rewrite orb_true_iff, !bool_decide_eq_true. Qed.

(** The guards of [validateEvent], one after the other. *)
Lemma guard_None (b : bool) (m : string) (rest : option string) :
  (if b then Some m else rest) = None ↔ b = false ∧ rest = None.
Proof. destruct b; naive_solver. Qed.
Lemma validateEvent_None d g e i p :
  validateEvent d g e i p = None ↔
  ∃ invoice payment, i = Some invoice ∧ p = Some payment ∧
    event_matches d g e invoice payment.
Proof.
  unfold validateEvent, event_matches. destruct i as [v|]; [|naive_solver].
  destruct p as [r|]; [|naive_solver].
  rewrite !guard_None, !orb_false_iff, !negb_false_iff, !String.eqb_eq, !bool_decide_eq_true.
  assert ((match transactionId g e with Some t => recorded_elsewhere (gw_key g) t (pay_id r) d
           | None => false end) = false ↔
          ∀ t k s, transactionId g e = Some t → payments d !! k = Some s →
            pay_provider s = gw_key g → pay_providerTransactionId s = Some t →
            pay_id s = pay_id r) as ->.
  { destruct (transactionId g e) as [t|]; [rewrite recorded_elsewhere_false|]; naive_solver. }
  assert ((if ev_status e ==b EventStatus.SUCCEEDED then
             if negb ((inv_status v ==b InvoiceStatus.UNPAID) ||
                      (inv_status v ==b InvoiceStatus.OVERDUE))
             then Some "Invoice is not payable."
             else if negb (inv_balanceDue v =? pay_amount r)
             then Some "Invoice balance no longer matches the payment session." else None
           else None) = None ↔
          (ev_status e = EventStatus.SUCCEEDED → open_for_payment (inv_status v) ∧
             inv_balanceDue v = pay_amount r)) as ->.
  { case_bool_decide; [|naive_solver].
    rewrite !guard_None, !negb_false_iff, opened_spec, Z.eqb_eq. naive_solver. }
  naive_solver.
Qed.

(** ** The effects of an event *)
#[local] Hint Extern 6 (Keeps _ (update_payment _ _)) =>
  unfold update_payment, update_payment_if : typeclass_instances.
#[local] Hint Extern 6 (Keeps _ (update_invoice _ _)) => unfold update_invoice : typeclass_instances.
#[local] Hint Extern 6 (Keeps _ (settleOrder _ _ _)) => unfold settleOrder : typeclass_instances.
#[local] Hint Extern 6 (Keeps _ (payment_event _ _ _ _)) => unfold payment_event : typeclass_instances.
#[local] Hint Extern 6 (Keeps _ (gateway_log _ _ _ _ _ _)) => unfold gateway_log : typeclass_instances.
#[local] Hint Extern 6 (Keeps _ (completeEventAndOutbox _ _ _ _ _ _)) =>
  unfold completeEventAndOutbox : typeclass_instances.
#[local] Hint Extern 6 (Keeps _ (rejectStoredEvent _ _)) =>
  unfold rejectStoredEvent : typeclass_instances.

Lemma settleOrder_statuses orderId i p w u w' :
  orders_keyed (db w) → settleOrder orderId i p w = (Ok u, w') →
  ∀ j, ord_status <$> orders (db w') !! j = order_after orderId true <$> orders (db w) !! j.
Proof.
  unfold settleOrder. intros Hk Hrun j.
  destruct orderId as [id|]; [|apply ret_Ok in Hrun as [_ ->]].
  - apply bind_Ok in Hrun as (n&w1&Hu&Hrun).
    apply (update_order_if_statuses _ _ _ _ _ _ OrderStatus.PAID) with (i := j) in Hu; [|done].
    apply (keeps_run orders) in Hrun; [|apply _]. rewrite Hrun, Hu.
    destruct (orders (db w) !! j) as [o|] eqn:Ho; [|done]. simpl. unfold order_after.
    rewrite (Hk _ _ Ho). simpl. f_equal.
    rewrite (bool_decide_ext (Some id = Some j) (j = id)); [done|naive_solver].
  - destruct (orders (db w) !! j); [|done]. done.
Qed.
Lemma completeEventAndOutbox_renewal id e g p i w u w' :
  completeEventAndOutbox id e g p i true w = (Ok u, w') →
  0 < count_rows (renewal_line i) (invoiceItems (db w)) → renewal_event p (db w').
Proof.
  unfold completeEventAndOutbox. intros Hrun Hlines.
  apply bind_Ok in Hrun as (now&w1&Hn&Hrun).
  apply bind_Ok in Hrun as ([]&w2&Hu&Hrun). apply bind_Ok in Hrun as ([]&w3&Ho&Hrun).
  simpl in Hrun. apply bind_Ok in Hrun as ([]&w4&He&Hrun).
  apply bind_Ok in Hrun as (n&w5&Hr&Hrun). apply read_Ok in Hr as [-> ->].
  apply (keeps_run invoiceItems) in Hn, Hu, Ho, He; try apply _.
  rewrite He, Ho, Hu, Hn in Hrun. apply Z.ltb_lt in Hlines. rewrite Hlines in Hrun.
  simpl in Hrun. unfold payment_event in Hrun.
  apply create_outbox_Ok in Hrun as (k&now'&_&Hk). unfold renewal_event.
  rewrite Hk. exists k. eexists. split; [apply lookup_insert_eq|done].
Qed.

(** The money of a success: the payment succeeds, the invoice is paid in full,
    its order with it, and a renewal is announced. *)
Definition settles (payment : Payment) (invoice : Invoice) (transaction : string)
    (d d' : Db) : Prop :=
  ∃ r v, payments d' = <[pay_id payment := r]> (payments d) ∧
    pay_id r = pay_id payment ∧
    entry_of r = with_entry_status PaymentStatus.SUCCEEDED (entry_of payment) ∧
    pay_providerTransactionId r = Some transaction ∧
    invoices d' = <[inv_id invoice := v]> (invoices d) ∧ inv_id v = inv_id invoice ∧
    account_of v = credit_account (pay_amount payment) (account_of invoice) ∧
    inv_status v = InvoiceStatus.PAID ∧ inv_balanceDue v = 0 ∧
    (orders_keyed d → ∀ j, ord_status <$> orders d' !! j =
          order_after (inv_orderId invoice) true <$> orders d !! j) ∧
    (0 < count_rows (renewal_line (inv_id invoice)) (invoiceItems d) →
     renewal_event (pay_id payment) d').

(** A failure: the payment fails, nothing else of the ledger moves. *)
Definition declines (payment : Payment) (d d' : Db) : Prop :=
  invoices d' = invoices d ∧
  ∃ r, payments d' = <[pay_id payment := r]> (payments d) ∧ pay_id r = pay_id payment ∧
       entry_of r = with_entry_status PaymentStatus.FAILED (entry_of payment).
(** Nothing of the ledger moves: at most the reason noted on a payment. *)
Definition same_ledger (d d' : Db) : Prop :=
  invoices d' = invoices d ∧ ledger_of d' = ledger_of d ∧
  keyed_tables (ledger_tables d').
Lemma same_ledger_tables d d' :
  keyed_tables (ledger_tables d) → ledger_tables d' = ledger_tables d → same_ledger d d'.
Proof. unfold same_ledger, ledger_of. intros Hk Ht. rewrite Ht. by injection Ht. Qed.
Lemma same_ledger_trans d1 d2 d3 :
  same_ledger d1 d2 → same_ledger d2 d3 → same_ledger d1 d3.
Proof. intros (?&?&?) (?&?&?). split_and!; [congruence..|done]. Qed.
Lemma noted_same_ledger id f w u w' :
  (∀ r, entry_of (f r) = entry_of r ∧ pay_id (f r) = pay_id r) →
  keyed_tables (ledger_tables (db w)) → update_payment id f w = (Ok u, w') →
  same_ledger (db w) (db w').
Proof.
  intros Hf Hk Hrun. apply update_payment_tables in Hrun as (r&t&Hr&Ht).
  unfold same_ledger, ledger_of. rewrite Ht. injection Ht as Hi _. split; [done|].
  destruct (Hf r) as [He Hid]. split.
  - rewrite of_tables_payment. unfold of_tables, ledger_tables; simpl. f_equal.
    apply insert_id. rewrite lookup_fmap, Hr. simpl. f_equal. symmetry. apply He.
  - apply keyed_payment; [done|]. simpl. rewrite Hid. by apply (proj2 Hk).
Qed.

Section effects.
Context `{DateParser}.

Lemma rejectStoredEvent_Ok i m w r w' :
  rejectStoredEvent i m w = (Ok r, w') →
  r = Rejected m ∧ ledger_tables (db w') = ledger_tables (db w).
Proof.
  intros Hrun. split; [|by apply (keeps_run ledger_tables) in Hrun; [|apply _]].
  unfold rejectStoredEvent in Hrun. run_inv. done.
Qed.
Lemma acceptSucceeded_Ok g id e v p now w r w' :
  invoices (db w) !! inv_id v = Some v →
  payments (db w) !! pay_id p = Some p → inv_balanceDue v = pay_amount p →
  acceptSucceeded g id e v p now w = (Ok r, w') →
  match transactionId g e with
  | None => (∃ m, r = Rejected m) ∧ ledger_tables (db w') = ledger_tables (db w)
  | Some t => r = Processed ∧ settles p v t (db w) (db w')
  end.
Proof.
  intros Hv Hp Hb Hrun. unfold acceptSucceeded in Hrun.
  destruct (transactionId g e) as [t|].
  2: { apply rejectStoredEvent_Ok in Hrun as [-> ?]. by eauto. }
  apply bind_Ok in Hrun as (at_&w1&Ho&Hrun). apply lift_Ok in Ho as [_ ->].
  apply bind_Ok in Hrun as ([]&w1&Hu&Hrun).
  pose proof (keeps_run orders _ _ _ _ _ Hu) as Ho1.
  pose proof (keeps_run invoiceItems _ _ _ _ _ Hu) as Hl1.
  apply update_payment_tables in Hu as (r0&t0&Hr0&[= Hi1 Hp1]).
  rewrite Hp in Hr0. injection Hr0 as <-.
  apply bind_Ok in Hrun as ([]&w2&Hs&Hrun). unfold settleInvoice in Hs.
  apply bind_Ok in Hs as ([]&w3&Hs&Hm).
  pose proof (keeps_run orders _ _ _ _ _ Hs) as Ho3.
  pose proof (keeps_run invoiceItems _ _ _ _ _ Hs) as Hl3.
  apply update_invoice_tables in Hs as (v0&t1&Hv0&[= Hi3 Hp3]).
  rewrite Hi1, Hv in Hv0. injection Hv0 as <-.
  pose proof (keeps_run invoiceItems _ _ _ _ _ Hm) as Hl2.
  pose proof (keeps_run ledger_tables _ _ _ _ _ Hm) as [= Hi2 Hp2].
  pose proof (λ Hk, settleOrder_statuses _ _ _ _ _ _ Hk Hm) as Hst. clear Hm.
  apply bind_Ok in Hrun as ([]&w4&Hc&Hrun).
  pose proof (keeps_run orders _ _ _ _ _ Hc) as Ho4.
  pose proof (keeps_run ledger_tables _ _ _ _ _ Hc) as [= Hi4 Hp4].
  pose proof (completeEventAndOutbox_renewal _ _ _ _ _ _ _ _ Hc) as Hren. clear Hc.
  apply bind_Ok in Hrun as ([]&w5&Hg&Hrun). apply ret_Ok in Hrun as [-> ->].
  pose proof (keeps_run orders _ _ _ _ _ Hg) as Ho5.
  pose proof (keeps_run outboxEvents _ _ _ _ _ Hg) as Hx5.
  apply (keeps_run ledger_tables) in Hg as [= Hi5 Hp5]; [|apply _].
  split; [done|]. do 2 eexists.
  split; [by rewrite Hp5, Hp4, Hp2, Hp3, Hp1|]. split; [done|]. split; [done|].
  split; [done|]. split; [by rewrite Hi5, Hi4, Hi2, Hi3, Hi1|]. split; [done|].
  split; [|split; [done|split; [simpl; lia|split]]].
  - unfold account_of, credit_account. simpl. by rewrite Hb, Z.sub_diag.
  - intros Hk j. rewrite Ho5, Ho4, Hst; [by rewrite Ho3, Ho1|].
    unfold orders_keyed. by rewrite Ho3, Ho1.
  - intros Hlines. unfold renewal_event. rewrite Hx5. apply Hren. by rewrite Hl2, Hl3, Hl1.
Qed.
Lemma acceptPending_Ok id e p w r w' :
  keyed_tables (ledger_tables (db w)) → acceptPending id e p w = (Ok r, w') →
  r = Ignored ∧ same_ledger (db w) (db w').
Proof.
  unfold acceptPending. intros Hk Hrun. apply bind_Ok in Hrun as ([]&w1&Hn&Hrun).
  assert (same_ledger (db w) (db w1)) as Hs.
  { destruct (ev_failureReason e) as [m|].
    - apply when_Ok in Hn as [[_ Hn]|[_ ->]]; [|by apply same_ledger_tables].
      eapply noted_same_ledger; [|exact Hk|exact Hn]. done.
    - apply ret_Ok in Hn as [_ ->]. by apply same_ledger_tables. }
  apply bind_Ok in Hrun as (now&w2&Ht&Hrun). apply new_date_Ok in Ht as [_ ->].
  apply bind_Ok in Hrun as ([]&w3&Hu&Hrun). apply ret_Ok in Hrun as [-> ->].
  apply (keeps_run ledger_tables) in Hu; [|apply _]. split; [done|].
  eapply same_ledger_trans; [done|]. apply same_ledger_tables; [apply Hs|done].
Qed.
Lemma acceptFailed_Ok g id e v p w r w' :
  payments (db w) !! pay_id p = Some p → acceptFailed g id e v p w = (Ok r, w') →
  r = Processed ∧ declines p (db w) (db w').
Proof.
  unfold acceptFailed. intros Hp Hrun.
  apply bind_Ok in Hrun as (at_&w1&Ho&Hrun). apply lift_Ok in Ho as [_ ->].
  apply bind_Ok in Hrun as ([]&w1&Hu&Hrun).
  apply update_payment_tables in Hu as (r0&t0&Hr0&[= Hi1 Hp1]).
  rewrite Hp in Hr0. injection Hr0 as <-.
  apply bind_Ok in Hrun as ([]&w2&Hc&Hrun). apply (keeps_run ledger_tables) in Hc; [|apply _].
  apply bind_Ok in Hrun as ([]&w3&Hg&Hrun). apply (keeps_run ledger_tables) in Hg; [|apply _].
  apply ret_Ok in Hrun as [-> ->]. injection Hc as Hi2 Hp2. injection Hg as Hi3 Hp3.
  split; [done|]. split; [congruence|]. eexists.
  split; [by rewrite Hp3, Hp2, Hp1|]. done.
Qed.

(** What an accepted event leads to. *)
Definition outcome (g : PaymentGateway) (e : NormalizedPaymentEvent) (v : Invoice)
    (p : Payment) (r : WebhookTransactionResult) (d d' : Db) : Prop :=
  match ev_status e with
  | EventStatus.PENDING => r = Ignored ∧ same_ledger d d'
  | EventStatus.FAILED => r = Processed ∧ declines p d d'
  | EventStatus.SUCCEEDED =>
      match transactionId g e with
      | None => (∃ m, r = Rejected m) ∧ ledger_tables d' = ledger_tables d
      | Some t => r = Processed ∧ settles p v t d d'
      end
  end.
Lemma settles_start p v t d0 d d' :
  ledger_tables d = ledger_tables d0 → orders d = orders d0 → invoiceItems d = invoiceItems d0 →
  settles p v t d d' → settles p v t d0 d'.
Proof. unfold settles, orders_keyed. by intros [= -> ->] -> ->. Qed.
Lemma acceptEvent_Ok g id e v p w r w' :
  keyed_tables (ledger_tables (db w)) →
  invoices (db w) !! inv_id v = Some v → payments (db w) !! pay_id p = Some p →
  (ev_status e = EventStatus.SUCCEEDED → inv_balanceDue v = pay_amount p) →
  acceptEvent g id e v p w = (Ok r, w') → outcome g e v p r (db w) (db w').
Proof.
  unfold acceptEvent, outcome. intros Hk Hv Hp Hb Hrun.
  apply bind_Ok in Hrun as ([]&w1&Hu&Hrun).
  pose proof (keeps_run orders _ _ _ _ _ Hu) as Ho1.
  pose proof (keeps_run invoiceItems _ _ _ _ _ Hu) as Hl1.
  apply (keeps_run ledger_tables) in Hu as Ht; [|apply _].
  pose proof Ht as [= Hi1 Hp1].
  destruct (ev_status e) eqn:Hst.
  - apply acceptPending_Ok in Hrun as [-> Hs]; [|by rewrite Ht]. split; [done|].
    eapply same_ledger_trans; [|done]. by apply same_ledger_tables.
  - apply bind_Ok in Hrun as (now&w2&Hn&Hrun). apply new_date_Ok in Hn as [_ ->].
    simpl in Hrun. apply acceptSucceeded_Ok in Hrun; simpl;
      [|by rewrite Hi1|by rewrite Hp1|by apply Hb].
    simpl in Hrun. destruct (transactionId g e) as [t|].
    + destruct Hrun as [-> Hs]. split; [done|]. by eapply settles_start.
    + destruct Hrun as [? Hs]. split; [done|congruence].
  - apply bind_Ok in Hrun as (now&w2&Hn&Hrun). apply new_date_Ok in Hn as [_ ->].
    simpl in Hrun. apply acceptFailed_Ok in Hrun as [-> (Hi&r0&Hr&?&?)];
      [|simpl; by rewrite Hp1].
    split; [done|]. simpl in Hi, Hr. split; [congruence|]. exists r0. by rewrite Hr, Hp1.
Qed.
End effects.

(** ** The stored event *)
Definition status_of (r : WebhookTransactionResult) : PaymentEventStatus :=
  match r with
  | Processed => PaymentEventStatus.PROCESSED
  | Ignored => PaymentEventStatus.IGNORED
  | Rejected _ => PaymentEventStatus.FAILED
  end.
(** The event [id], stored as [x], ends with the outcome [r]. *)
Definition concludes (id : string) (x : PaymentEvent) (r : WebhookTransactionResult)
    (d d' : Db) : Prop :=
  ∃ x', paymentEvents d' = <[id := x']> (paymentEvents d) ∧ event_key x' = event_key x ∧
    pe_payloadHash x' = pe_payloadHash x ∧ pe_status x' = status_of r ∧
    ∀ m, r = Rejected m → pe_errorMessage x' = Some m.

Lemma update_payment_event_Ok id f x w u w' :
  paymentEvents (db w) !! id = Some x → update_payment_event id f w = (Ok u, w') →
  paymentEvents (db w') = <[id := f x]> (paymentEvents (db w)).
Proof.
  unfold update_payment_event. intros Hx Hrun.
  apply bind_Ok in Hrun as (m&w1&Hr&Hrun). apply read_Ok in Hr as [-> ->].
  rewrite Hx in Hrun. by apply write_Ok in Hrun as ->.
Qed.
Lemma rejectStoredEvent_concludes id m x w r w' :
  paymentEvents (db w) !! id = Some x → rejectStoredEvent id m w = (Ok r, w') →
  concludes id x r (db w) (db w').
Proof.
  unfold rejectStoredEvent. intros Hx Hrun.
  apply bind_Ok in Hrun as (now&w1&Hn&Hrun). apply new_date_Ok in Hn as [_ ->].
  apply bind_Ok in Hrun as ([]&w1&Hu&Hrun). apply ret_Ok in Hrun as [-> ->].
  eapply update_payment_event_Ok in Hu; [|done]. eexists. split; [done|].
  do 3 (split; [done|]). by intros ? [= ->].
Qed.
Lemma completeEventAndOutbox_concludes id e g p i b x w u w' :
  paymentEvents (db w) !! id = Some x →
  completeEventAndOutbox id e g p i b w = (Ok u, w') →
  concludes id x Processed (db w) (db w').
Proof.
  unfold completeEventAndOutbox. intros Hx Hrun.
  apply bind_Ok in Hrun as (now&w1&Hn&Hrun). apply new_date_Ok in Hn as [_ ->].
  apply bind_Ok in Hrun as ([]&w1&Hu&Hrun).
  apply (keeps_run paymentEvents) in Hrun; [|apply _].
  eapply update_payment_event_Ok in Hu; [|done]. eexists. split; [by rewrite Hrun, Hu|].
  do 3 (split; [done|]). done.
Qed.

Section stored.
Context `{DateParser}.

(** Steps before and after the conclusion that leave the events alone. *)
Lemma concludes_from id x r d0 d d' :
  paymentEvents d = paymentEvents d0 → concludes id x r d d' → concludes id x r d0 d'.
Proof. unfold concludes. by intros ->. Qed.
Lemma concludes_to id x r d d' d1 :
  paymentEvents d1 = paymentEvents d' → concludes id x r d d' → concludes id x r d d1.
Proof. unfold concludes. by intros ->. Qed.

Lemma acceptSucceeded_concludes g id e v p now x w r w' :
  paymentEvents (db w) !! id = Some x →
  acceptSucceeded g id e v p now w = (Ok r, w') → concludes id x r (db w) (db w').
Proof.
  unfold acceptSucceeded. intros Hx Hrun. destruct (transactionId g e);
    [|by eapply rejectStoredEvent_concludes].
  apply bind_Ok in Hrun as (at_&w1&Ho&Hrun). apply lift_Ok in Ho as [_ ->].
  apply bind_Ok in Hrun as ([]&w1&Hu&Hrun). apply bind_Ok in Hrun as ([]&w2&Hs&Hrun).
  unfold settleInvoice in Hs. apply bind_Ok in Hs as ([]&w3&Hs&Hm).
  apply bind_Ok in Hrun as ([]&w4&Hc&Hrun). apply bind_Ok in Hrun as ([]&w5&Hg&Hrun).
  apply ret_Ok in Hrun as [-> ->].
  apply (keeps_run paymentEvents) in Hu, Hs, Hm, Hg; try apply _.
  assert (paymentEvents (db w2) = paymentEvents (db w)) as E by congruence.
  eapply completeEventAndOutbox_concludes in Hc; [|by rewrite E].
  eapply concludes_to; [done|]. by eapply concludes_from.
Qed.
Lemma acceptEvent_concludes g id e v p x w r w' :
  paymentEvents (db w) !! id = Some x →
  acceptEvent g id e v p w = (Ok r, w') → concludes id x r (db w) (db w').
Proof.
  unfold acceptEvent. intros Hx Hrun. apply bind_Ok in Hrun as ([]&w1&Hu&Hrun).
  eapply update_payment_event_Ok in Hu; [|done].
  set (x1 := x <| pe_paymentId := Some (pay_id p) |>) in *.
  assert (concludes id x1 r (db w1) (db w')) as (x'&Hx'&?).
  { assert (paymentEvents (db w1) !! id = Some x1) as Hx1 by (rewrite Hu; apply lookup_insert_eq).
    destruct (ev_status e).
    - unfold acceptPending in Hrun. apply bind_Ok in Hrun as ([]&w2&Hn&Hrun).
      assert (paymentEvents (db w2) = paymentEvents (db w1)) as E.
      { destruct (ev_failureReason e); apply (keeps_run paymentEvents) in Hn; done || apply _. }
      apply bind_Ok in Hrun as (now&w3&Ht&Hrun). apply new_date_Ok in Ht as [_ ->].
      apply bind_Ok in Hrun as ([]&w3&Hp&Hrun). apply ret_Ok in Hrun as [-> ->].
      eapply update_payment_event_Ok in Hp; [|simpl; by rewrite E].
      eapply concludes_from; [exact E|]. eexists. split; [done|]. do 3 (split; [done|]). done.
    - apply bind_Ok in Hrun as (now&w2&Hn&Hrun). apply new_date_Ok in Hn as [_ ->].
      by eapply acceptSucceeded_concludes in Hrun.
    - apply bind_Ok in Hrun as (now&w2&Hn&Hrun). apply new_date_Ok in Hn as [_ ->].
      simpl in Hrun. unfold acceptFailed in Hrun.
      apply bind_Ok in Hrun as (at_&w2&Ho&Hrun). apply lift_Ok in Ho as [_ ->].
      apply bind_Ok in Hrun as ([]&w3&Hp&Hrun). apply bind_Ok in Hrun as ([]&w4&Hc&Hrun).
      apply bind_Ok in Hrun as ([]&w5&Hg&Hrun). apply ret_Ok in Hrun as [-> ->].
      apply (keeps_run paymentEvents) in Hp, Hg; try apply _. simpl in Hp.
      eapply completeEventAndOutbox_concludes in Hc; [|by rewrite Hp].
      eapply concludes_to; [done|]. by eapply concludes_from. }
  exists x'. split; [|done]. by rewrite Hx', Hu, insert_insert_eq.
Qed.
End stored.

(** ** Events *)
Definition acceptable (g : PaymentGateway) (e : NormalizedPaymentEvent) (d : Db) : Prop :=
  ev_merchantId e = gw_merchantId g ∧
  ∃ v p, invoices d !! ev_invoiceId e = Some v ∧ payments d !! ev_paymentId e = Some p ∧
    event_matches d g e v p ∧
    (ev_status e = EventStatus.SUCCEEDED → is_Some (transactionId g e)).
Definition accepted (r : WebhookTransactionResult) : bool :=
  match r with Rejected _ => false | _ => true end.

Section events.
Context `{ZodFormats} `{ZodUrl} `{Sha256} `{DateParser}.

(** Storing the event is the first thing a transaction does. *)
Lemma event_tx_start g e h w r w' :
  event_tx g e h w = (Ok r, w') →
  ∃ id x w1, pe_payloadHash x = h ∧ event_key x = (gw_key g, ev_providerEventId e) ∧
    unique_in (paymentEvents (db w)) event_key (event_key x) = true ∧
    paymentEvents (db w1) = <[id := x]> (paymentEvents (db w)) ∧
    ledger_tables (db w1) = ledger_tables (db w) ∧ orders (db w1) = orders (db w) ∧
    invoiceItems (db w1) = invoiceItems (db w) ∧
    (if negb (String.eqb (ev_merchantId e) (gw_merchantId g))
     then rejectStoredEvent id "Merchant identity does not match this gateway." w1 = (Ok r, w')
     else
       let invoice := invoices (db w1) !! ev_invoiceId e in
       let payment := payments (db w1) !! ev_paymentId e in
       match validateEvent (db w1) g e invoice payment with
       | Some m =>
           (_ ← match payment with
                | Some payment =>
                    when (pay_status payment ==b PaymentStatus.PENDING)
                      (update_payment (pay_id payment)
                         (λ r, r <| pay_failureReason := Some m |>))
                | None => mret tt
                end;
            rejectStoredEvent id m) w1 = (Ok r, w')
       | None => ∃ v p, invoice = Some v ∧ payment = Some p ∧
                   acceptEvent g id e v p w1 = (Ok r, w')
       end).
Proof.
  unfold event_tx. intros Hrun.
  apply bind_Ok in Hrun as (id&w0&Hi&Hrun). apply random_uuid_Ok in Hi as [_ ->].
  apply bind_Ok in Hrun as (at_&w0&Hn&Hrun). apply new_date_Ok in Hn as [_ ->].
  apply bind_Ok in Hrun as ([]&w1&Hc&Hrun).
  pose proof (keeps_run orders _ _ _ _ _ Hc) as Ho.
  pose proof (keeps_run invoiceItems _ _ _ _ _ Hc) as Hl.
  apply (keeps_run ledger_tables) in Hc as Ht; [|apply _].
  unfold create_payment_event, put_payment_event in Hc.
  apply bind_Ok in Hc as (m&w2&Hr&Hc). apply read_Ok in Hr as [-> ->].
  apply bind_Ok in Hc as (?&w2&Hq&Hc). apply require_Ok in Hq as [Hq ->].
  apply write_Ok in Hc as Hw. apply andb_true_iff in Hq as [_ Hq].
  match type of Hq with unique_in _ event_key (event_key ?x) = _ => exists id, x, w1 end.
  do 2 (split; [reflexivity|]). split; [exact Hq|]. split; [by rewrite Hw|].
  do 3 (split; [done|]).
  destruct (negb _); [done|].
  apply bind_Ok in Hrun as (?&w2&Hk&Hrun). apply lock_row_Ok in Hk as ->.
  apply bind_Ok in Hrun as (?&w2&Hk&Hrun). apply read_Ok in Hk as [-> ->].
  apply bind_Ok in Hrun as (?&w2&Hk&Hrun). apply read_Ok in Hk as [-> ->].
  apply bind_Ok in Hrun as (?&w2&Hk&Hrun). apply read_Ok in Hk as [-> ->].
  destruct (validateEvent _ _ _ _ _); [done|].
  destruct (invoices (db w1) !! _); [|by apply throw_Ok in Hrun].
  destruct (payments (db w1) !! _); [|by apply throw_Ok in Hrun]. eauto.
Qed.

Lemma event_matches_tables d d' g e v p :
  payments d = payments d' → event_matches d g e v p → event_matches d' g e v p.
Proof. unfold event_matches. by intros ->. Qed.

(** An event either leaves the ledger alone and is rejected because it is not
    acceptable, or has its outcome. *)
Lemma event_tx_cases g e h w r w' :
  keyed_tables (ledger_tables (db w)) →
  event_tx g e h w = (Ok r, w') →
  ¬ acceptable g e (db w) ∧ accepted r = false ∧ same_ledger (db w) (db w') ∨
  acceptable g e (db w) ∧ ∃ v p, invoices (db w) !! ev_invoiceId e = Some v ∧
    payments (db w) !! ev_paymentId e = Some p ∧ event_matches (db w) g e v p ∧
    outcome g e v p r (db w) (db w').
Proof.
  intros Hk Hrun.
  apply event_tx_start in Hrun as (id&x&w1&_&_&_&_&Ht&Ho&Hl&Hrun).
  pose proof Ht as [= Hi Hp]. unfold acceptable.
  destruct (String.eqb_spec (ev_merchantId e) (gw_merchantId g)) as [Hm|Hm]; simpl in Hrun.
  2: { left. apply rejectStoredEvent_Ok in Hrun as [-> Hr]. split_and!; [naive_solver|done|].
       apply same_ledger_tables; [done|congruence]. }
  destruct (validateEvent _ _ _ _ _) as [m|] eqn:Hval.
  - left. apply bind_Ok in Hrun as ([]&w2&Hu&Hrun).
    apply rejectStoredEvent_Ok in Hrun as [-> Hr]. split_and!; [|done|].
    { intros (_&v&p&Hv&Hpp&Hmt&_). rewrite Hi, Hp, Hv, Hpp in Hval.
      assert (validateEvent (db w1) g e (Some v) (Some p) = None) as Hn; [|congruence].
      apply validateEvent_None. exists v, p. split_and!; [done..|].
      by eapply event_matches_tables. }
    assert (same_ledger (db w) (db w1)) as Hs1 by (by apply same_ledger_tables).
    eapply same_ledger_trans; [exact Hs1|].
    assert (same_ledger (db w1) (db w2)) as Hs2.
    { destruct (payments (db w1) !! _).
      - apply when_Ok in Hu as [[_ Hu]|[_ ->]]; [|apply same_ledger_tables; [apply Hs1|done]].
        eapply noted_same_ledger; [|apply Hs1|exact Hu]. done.
      - apply ret_Ok in Hu as [_ ->]. apply same_ledger_tables; [apply Hs1|done]. }
    eapply same_ledger_trans; [exact Hs2|]. apply same_ledger_tables; [apply Hs2|done].
  - destruct Hrun as (v&p&Hv&Hpp&Hrun). apply validateEvent_None in Hval as (v'&p'&Hv'&Hp'&Hmt).
    rewrite Hv in Hv'. rewrite Hpp in Hp'. injection Hv' as <-. injection Hp' as <-.
    rewrite Hi in Hv. rewrite Hp in Hpp.
    pose proof (proj1 Hk _ _ Hv) as Hvid. pose proof (proj2 Hk _ _ Hpp) as Hpid.
    simpl in Hvid, Hpid. eapply event_matches_tables in Hmt; [|exact Hp].
    apply acceptEvent_Ok in Hrun.
    + assert (outcome g e v p r (db w) (db w')) as Hout.
      { unfold outcome in *. destruct (ev_status e).
        - destruct Hrun as [-> Hs]. split; [done|].
          eapply same_ledger_trans; [by apply same_ledger_tables|done].
        - destruct (transactionId g e).
          + destruct Hrun as [-> Hs]. split; [done|]. by eapply settles_start.
          + destruct Hrun as [? Hs]. split; [done|congruence].
        - destruct Hrun as [-> (Hi'&q&Hq&?&?)]. split; [done|]. split; [congruence|].
          exists q. by rewrite Hq, Hp. }
      destruct (decide (ev_status e = EventStatus.SUCCEEDED ∧ transactionId g e = None))
        as [[Hs Hn]|Hno].
      * left. unfold outcome in Hout. rewrite Hs, Hn in Hout. destruct Hout as [[m ->] Hsame].
        split_and!; [|done|by apply same_ledger_tables].
        intros (_&?&?&_&_&_&Htx). destruct (Htx Hs) as [t Htt]. congruence.
      * right. split; [|by exists v, p]. split; [done|]. exists v, p. split_and!; [done..|].
        intros Hs. destruct (transactionId g e); [by eexists|naive_solver].
    + by rewrite Ht.
    + rewrite Hi. by rewrite Hvid.
    + rewrite Hp. by rewrite Hpid.
    + intros Hs. apply Hmt, Hs.
Qed.

Lemma event_tx_posts g e h : Posts anywhere (event_tx g e h).
Proof.
  intros w r w' [Hk Hok] _ Hrun.
  destruct (event_tx_cases _ _ _ _ _ _ Hk Hrun)
    as [(_&_&(_&Hl&?))|(_&v&p&Hv&Hp&Hm&Hout)].
  { split; [done|]. rewrite Hl. constructor. }
  destruct Hm as (Hinv&_&Hch&Hpe&_&_&_&_&Hopen).
  pose proof (proj1 Hk _ _ Hv) as Hvid. pose proof (proj2 Hk _ _ Hp) as Hpid.
  simpl in Hvid, Hpid. unfold outcome in Hout. destruct (ev_status e).
  - destruct Hout as (_&_&Hl&?). split; [done|]. rewrite Hl. constructor.
  - destruct (Hopen eq_refl) as [Hop Hb]. destruct (transactionId g e).
    + destruct Hout as (_&r'&v'&Hp'&Hr'&He&_&Hv'&Hid'&Hacc&_).
      unfold ledger_of, ledger_tables. rewrite Hp', Hv'.
      apply posts_both; [done|congruence|congruence|]. rewrite Hacc, He.
      rewrite Hvid, Hpid.
      apply (ls_verify _ _ _ _ (entry_of p)); try done.
      * by apply account_lookup.
      * by apply entry_lookup.
      * simpl. rewrite Hb. pose proof (proj2 Hok (ev_paymentId e) (entry_of p)) as [? _];
          [by apply entry_lookup|simpl in *; lia].
    + destruct Hout as [_ Ht]. unfold ledger_of. rewrite Ht. split; [done|constructor].
  - destruct Hout as (_&Hi&r'&Hp'&Hr'&He). unfold ledger_of, ledger_tables.
    rewrite Hi, Hp'. apply posts_payment; [done|done|]. rewrite He, Hpid.
    apply (ls_reject _ _ (entry_of p)); [by apply entry_lookup|done..].
Qed.

(** The event a transaction stores, with its outcome. *)
Lemma event_tx_stored g e h w r w' :
  event_tx g e h w = (Ok r, w') →
  ∃ id x, paymentEvents (db w') = <[id := x]> (paymentEvents (db w)) ∧
    event_key x = (gw_key g, ev_providerEventId e) ∧ pe_payloadHash x = h ∧
    pe_status x = status_of r ∧ (∀ m, r = Rejected m → pe_errorMessage x = Some m) ∧
    unique_in (paymentEvents (db w)) event_key (event_key x) = true.
Proof.
  intros Hrun.
  apply event_tx_start in Hrun as (id&x&w1&Hh&Hkey&Hun&Hev&_&_&_&Hrun).
  assert (paymentEvents (db w1) !! id = Some x) as Hx by (rewrite Hev; apply lookup_insert_eq).
  assert (concludes id x r (db w1) (db w')) as (x'&Hx'&Hk'&Hh'&?&?).
  { destruct (negb _); [by eapply rejectStoredEvent_concludes|].
    cbv zeta in Hrun. destruct (validateEvent _ _ _ _ _) as [m|].
    - apply bind_Ok in Hrun as ([]&w2&Hu&Hrun).
      assert (paymentEvents (db w2) = paymentEvents (db w1)) as E
        by (destruct (payments (db w1) !! _); apply (keeps_run paymentEvents) in Hu; done || apply _).
      eapply concludes_from; [exact E|].
      eapply rejectStoredEvent_concludes; [by rewrite E|done].
    - destruct Hrun as (v&p&_&_&Hrun). by eapply acceptEvent_concludes. }
  exists id, x'. rewrite Hx', Hev, insert_insert_eq, Hk', Hh'. by rewrite Hkey in *.
Qed.

(** C25: an event of a provider is accepted exactly when the merchant, the invoice,
    the payment, the amount, the currency and the transaction agree and the
    payment still waits; a success also needs an open invoice whose whole balance
    it pays.  A success then marks the payment SUCCEEDED under the provider's
    transaction, the invoice PAID with nothing left, its awaiting order PAID, and
    announces a renewal; a failure fails the payment alone; a rejected or pending
    event moves no money.  The event is stored with its outcome in each case. *)
Theorem gateway_event_exact g e h w r w'
    (Hkeys : keyed_tables (ledger_tables (db w))) (Horders : orders_keyed (db w))
    (Hrun : event_tx g e h w = (Ok r, w')) :
  (accepted r = true ↔ acceptable g e (db w)) ∧
  (∃ id x, paymentEvents (db w') = <[id := x]> (paymentEvents (db w)) ∧
     event_key x = (gw_key g, ev_providerEventId e) ∧ pe_status x = status_of r) ∧
  match accepted r, ev_status e with
  | true, EventStatus.SUCCEEDED => ∃ v p t,
      invoices (db w) !! ev_invoiceId e = Some v ∧ payments (db w) !! ev_paymentId e = Some p ∧
      transactionId g e = Some t ∧ open_for_payment (inv_status v) ∧
      inv_balanceDue v = pay_amount p ∧ settles p v t (db w) (db w')
  | true, EventStatus.FAILED => ∃ p,
      payments (db w) !! ev_paymentId e = Some p ∧ declines p (db w) (db w')
  | _, _ => same_ledger (db w) (db w')
  end.
Proof.
  destruct (event_tx_stored _ _ _ _ _ _ Hrun) as (id&x&Hx&Hkey&_&Hst&_).
  destruct (event_tx_cases _ _ _ _ _ _ Hkeys Hrun) as [(Hno&Ha&Hs)|(Hok&v&p&Hv&Hp&Hm&Hout)].
  - rewrite Ha. split_and!; [naive_solver|by exists id, x|done].
  - unfold outcome in Hout. destruct Hm as (_&_&_&_&_&_&_&_&Hopen).
    destruct Hok as (Hmer&v0&p0&Hv0&Hp0&Hm0&Htx).
    assert (acceptable g e (db w)) as Hok by (split; [done|]; by exists v0, p0).
    destruct (ev_status e).
    + destruct Hout as [-> ?]. split_and!; [done|by exists id, x|done].
    + destruct (Htx eq_refl) as [t Ht]. rewrite Ht in Hout. destruct Hout as [-> ?].
      destruct (Hopen eq_refl). split_and!; [done|by exists id, x|]. by exists v, p, t.
    + destruct Hout as [-> ?]. split_and!; [done|by exists id, x|]. by exists p.
Qed.

Lemma paymentWebhookResult_Ok v u :
  paymentWebhookResult v = Ok u → u = v ∧ text 1 191 (wr_providerEventId v) = true.
Proof. unfold paymentWebhookResult. intros. by run_inv. Qed.
Lemma find_event_Ok k i w o w' :
  find_event k i w = (Ok o, w') ↔ o = find_unique (paymentEvents (db w)) event_key (k, i) ∧ w' = w.
Proof. apply read_Ok. Qed.
(** What has been answered is what the stored event replays. *)
Lemma processed_replays g e h w r w1 :
  processNormalizedEvent g e h w = (Ok r, w1) →
  ∃ x, find_unique (paymentEvents (db w1)) event_key (gw_key g, ev_providerEventId e) = Some x ∧
    pe_payloadHash x = h ∧ pe_status x ≠ PaymentEventStatus.FAILED ∧
    wr_providerEventId r = ev_providerEventId e ∧
    text 1 191 (ev_providerEventId e) = true ∧
    wr_status r = (if pe_status x ==b PaymentEventStatus.IGNORED
                   then WebhookIgnored else WebhookProcessed).
Proof.
  unfold processNormalizedEvent. intros Hrun.
  assert (∀ x u w0, find_unique (paymentEvents (db w0)) event_key
            (gw_key g, ev_providerEventId e) = Some x →
    replay x h e = Ok u → ∃ x, find_unique (paymentEvents (db w0)) event_key
            (gw_key g, ev_providerEventId e) = Some x ∧
    pe_payloadHash x = h ∧ pe_status x ≠ PaymentEventStatus.FAILED ∧
    wr_providerEventId u = ev_providerEventId e ∧
    text 1 191 (ev_providerEventId e) = true ∧
    wr_status u = (if pe_status x ==b PaymentEventStatus.IGNORED
                   then WebhookIgnored else WebhookProcessed)) as Hrep.
  { intros x u w0 Hf Hr. exists x. unfold replay in Hr.
    apply result_bind_Ok in Hr as (?&Hh%throw_unless_Ok&Hr).
    apply result_bind_Ok in Hr as (?&Hs%throw_unless_Ok&Hr).
    apply paymentWebhookResult_Ok in Hr as [-> ?]. apply String.eqb_eq in Hh.
    apply negb_true_iff, bool_decide_eq_false in Hs. done. }
  apply bind_Ok in Hrun as (o&w0&Hf&Hrun). apply find_event_Ok in Hf as [-> ->].
  destruct (find_unique (paymentEvents (db w)) _ _) as [x|] eqn:Hx.
  { apply lift_Ok in Hrun as [Hr ->]. by eapply Hrep. }
  unfold catch in Hrun.
  destruct ((transaction (event_tx g e h) ≫= _) w) as [[u|err] w2] eqn:Htry.
  - injection Hrun as -> ->. apply bind_Ok in Htry as (res&w3&Htx&Hres).
    rewrite transaction_Ok in Htx. apply lift_Ok in Hres as [Hres ->].
    apply event_tx_stored in Htx as (id&x&Hev&Hkey&Hh&Hst&_&Hun). rewrite Hkey in Hun.
    exists x. rewrite Hev. split_and!.
    + rewrite <- Hkey. apply find_unique_new. by rewrite Hkey.
    + done.
    + rewrite Hst. by destruct res; [| |discriminate].
    + destruct res; simpl in Hres; [..|done]; by apply paymentWebhookResult_Ok in Hres as [-> ?].
    + destruct res; simpl in Hres; [..|done]; by apply paymentWebhookResult_Ok in Hres as [-> ?].
    + rewrite Hst. destruct res; simpl in Hres; [..|done];
        by apply paymentWebhookResult_Ok in Hres as [-> ?].
  - destruct (is_unique_violation err); [|by apply throw_Ok in Hrun].
    apply bind_Ok in Hrun as (o&w3&Hf&Hrun). apply find_event_Ok in Hf as [-> ->].
    destruct (find_unique (paymentEvents (db w2)) _ _) as [x|] eqn:Hx2;
      [|by apply throw_Ok in Hrun].
    apply lift_Ok in Hrun as [Hr ->]. by eapply Hrep.
Qed.

(** What a stored event answers from then on. *)
Lemma stored_event_answers g e' h' w x :
  find_unique (paymentEvents (db w)) event_key (gw_key g, ev_providerEventId e') = Some x →
  pe_status x ≠ PaymentEventStatus.FAILED → text 1 191 (ev_providerEventId e') = true →
  processNormalizedEvent g e' h' w =
  ((if String.eqb (pe_payloadHash x) h'
    then Ok (MkWebhookResult true (ev_providerEventId e')
               (if pe_status x ==b PaymentEventStatus.IGNORED
                then WebhookIgnored else WebhookProcessed))
    else Err (webhookRejected "Provider event identifier was reused with different content."
                false)), w).
Proof.
  intros Hf Hs Htext. unfold processNormalizedEvent. unfold mbind at 1, M_bind at 1.
  unfold find_event, read, gets. rewrite Hf. unfold lift, replay.
  destruct (String.eqb _ h'); [|done]. simpl.
  rewrite (bool_decide_eq_false_2 (pe_status x = PaymentEventStatus.FAILED)) by done.
  unfold paymentWebhookResult. simpl. by rewrite Htext.
Qed.

(** an event is processed once: after it has been answered, and whatever else
    has changed since, the same event is answered as a duplicate with the same
    status, and an event with other content under its identifier is refused;
    neither changes anything. *)
Theorem gateway_event_once g e h w r w1 e' h' w2
    (Hrun : processNormalizedEvent g e h w = (Ok r, w1))
    (Hstored : paymentEvents (db w2) = paymentEvents (db w1))
    (Hid : ev_providerEventId e' = ev_providerEventId e) :
  processNormalizedEvent g e' h' w2 =
  ((if String.eqb h h' then Ok (MkWebhookResult true (wr_providerEventId r) (wr_status r))
    else Err (webhookRejected "Provider event identifier was reused with different content."
                false)), w2).
Proof.
  apply processed_replays in Hrun as (x&Hf&<-&Hs&->&Htext&->).
  rewrite <- Hid in *. apply stored_event_answers; [by rewrite Hstored|done..].
Qed.
End events.

(** ** Sessions asked for again *)
(** The unique index on the submission keys of payments. *)
Definition keys_unique (m : gmap string Payment) : Prop :=
  ∀ i j r s, m !! i = Some r → m !! j = Some s →
    pay_idempotencyKey r = pay_idempotencyKey s → i = j.
Lemma keys_unique_insert m i r s :
  keys_unique m → m !! i = Some r → pay_idempotencyKey s = pay_idempotencyKey r →
  keys_unique (<[i := s]> m).
Proof.
  intros Hu Hr Hk j k x y. rewrite !lookup_insert.
  do 2 destruct (decide _) as [<-|]; intros; simplify_eq; [done|..];
    (eapply Hu; [eassumption..|congruence]).
Qed.
Lemma keys_unique_new m i s :
  keys_unique m → unique_in m pay_idempotencyKey (pay_idempotencyKey s) = true →
  m !! i = None → keys_unique (<[i := s]> m).
Proof.
  intros Hu Hn Hi j k x y. pose proof (proj1 (unique_in_spec _ _ _) Hn) as Hn'.
  rewrite !lookup_insert. do 2 destruct (decide _) as [<-|]; intros; simplify_eq; [done|..].
  - exfalso. by eapply Hn'.
  - exfalso. by eapply Hn'.
  - by eapply Hu.
Qed.
(** The row found under a key is any row that has it. *)
Lemma find_by_key m i r :
  keys_unique m → m !! i = Some r →
  find_unique m pay_idempotencyKey (pay_idempotencyKey r) = Some r.
Proof.
  intros Hu Hr. destruct (find_unique _ _ _) as [s|] eqn:Hf.
  - apply find_unique_Some in Hf as (j&Hj&Hk). assert (j = i) as -> by (by eapply Hu). congruence.
  - apply find_none_unique in Hf. exfalso. by eapply (proj1 (unique_in_spec _ _ _) Hf).
Qed.

(** The payment a request goes on with: found under its key, with its invoice,
    and matching the request. *)
Definition session_ready (g : PaymentGateway) (key : string)
    (input : CreatePaymentSessionRequest) (actor : Identity) (p : SessionPayment) (d : Db)
    : Prop :=
  payments d !! pay_id (sp_payment p) = Some (sp_payment p) ∧
  pay_idempotencyKey (sp_payment p) = key ∧
  invoices d !! pay_invoiceId (sp_payment p) = Some (sp_invoice p) ∧
  keys_unique (payments d) ∧ keyed_tables (ledger_tables d) ∧
  assertMatchingSession p g input actor = Ok tt.
Lemma session_found g key input actor p d w :
  session_ready g key input actor p d → ledger_tables (db w) = ledger_tables d →
  findSessionPayment key w = (Ok (Some p), w).
Proof.
  intros (Hp&<-&Hv&Hu&_) [= Hi Hpay]. unfold findSessionPayment, read, gets.
  rewrite Hpay, Hi, (find_by_key _ _ _ Hu Hp). simpl. rewrite Hv. by destruct p.
Qed.
Lemma findSessionPayment_Some key w p w' :
  keyed_tables (ledger_tables (db w)) →
  findSessionPayment key w = (Ok (Some p), w') →
  w' = w ∧ payments (db w) !! pay_id (sp_payment p) = Some (sp_payment p) ∧
  pay_idempotencyKey (sp_payment p) = key ∧
  invoices (db w) !! pay_invoiceId (sp_payment p) = Some (sp_invoice p).
Proof.
  intros [_ Hk] Hf. apply read_Ok in Hf as [Hf ->]. symmetry in Hf.
  apply bind_Some in Hf as (r&Hr&Hf). apply bind_Some in Hf as (v&Hv&Hf).
  injection Hf as <-. simpl. apply find_unique_Some in Hr as (i&Hi&<-).
  by rewrite (Hk _ _ Hi : pay_id r = i).
Qed.

Section retries.
Context `{ZodFormats} `{ZodUrl} `{Sha256} `{DateParser}.

Lemma createSession_tx_ready g key input actor w p w' :
  keyed_tables (ledger_tables (db w)) → keys_unique (payments (db w)) →
  createSession_tx g key input actor w = (Ok p, w') →
  session_ready g key input actor p (db w').
Proof.
  intros Hk Hu Hrun. unfold createSession_tx in Hrun.
  apply bind_Ok in Hrun as (?&w1&Hr&Hrun). apply lock_row_Ok in Hr as ->.
  apply bind_Ok in Hrun as (?&w1&Hr&Hrun). apply read_Ok in Hr as [-> ->].
  apply bind_Ok in Hrun as (v&w1&Hr&Hrun). apply lift_Ok in Hr as [Hv%of_option_Ok ->].
  apply bind_Some in Hv as (v0&Hv&Hacc). destruct (canAccessInvoice _ _) eqn:Hcan; [|done].
  injection Hacc as ->.
  apply bind_Ok in Hrun as (?&w1&Hr&Hrun). apply require_Ok in Hr as [_ ->].
  apply bind_Ok in Hrun as (?&w1&Hr&Hrun). apply require_Ok in Hr as [_ ->].
  apply bind_Ok in Hrun as (id&w1&Hr&Hrun). apply random_uuid_Ok in Hr as [_ ->].
  apply bind_Ok in Hrun as (now&w1&Hr&Hrun). apply new_date_Ok in Hr as [_ ->].
  apply bind_Ok in Hrun as ([]&w1&Hc&Hrun).
  match type of Hc with create_payment ?x _ = _ => set (row := x) in * end.
  apply create_payment_tables in Hc as (Hnone&Hun&_&Ht). simpl in Hnone, Hun, Ht.
  apply bind_Ok in Hrun as ([]&w2&Hl&Hrun). apply (keeps_run ledger_tables) in Hl; [|apply _].
  rewrite Ht in Hl. apply bind_Ok in Hrun as (o&w3&Hf&Hrun).
  apply lift_Ok in Hrun as [Ho%of_option_Ok ->]. subst o.
  assert (keyed_tables (ledger_tables (db w2))) as Hk2
    by (rewrite Hl; by apply keyed_payment).
  apply findSessionPayment_Some in Hf as (->&Hp&Hkey&Hinv); [|done].
  injection Hl as Hi2 Hp2. rewrite Hp2 in Hp. rewrite Hi2 in Hinv.
  assert (keys_unique (payments (db w2))) as Hu2
    by (rewrite Hp2; by apply (keys_unique_new _ _ row)).
  assert (sp_payment p = row) as Hrow.
  { rewrite Hp2 in Hu2. assert (pay_id (sp_payment p) = id) as Hid.
    { eapply (Hu2 _ _ (sp_payment p) row); [done|apply lookup_insert_eq|by rewrite Hkey]. }
    rewrite Hid, lookup_insert_eq in Hp. by injection Hp. }
  pose proof (proj1 Hk _ _ Hv) as Hvid. simpl in Hvid.
  unfold session_ready. rewrite Hp2, Hi2. split_and!; try done; [by rewrite <- Hp2|].
  unfold assertMatchingSession. rewrite Hrow in *. simpl in Hinv. simpl.
  rewrite Hvid in *. rewrite Hv in Hinv. injection Hinv as <-.
  by rewrite Hcan, !String.eqb_refl, bool_decide_eq_true_2.
Qed.

Lemma sessionPayment_ready g key input actor w p dup w' :
  keyed_tables (ledger_tables (db w)) → keys_unique (payments (db w)) →
  sessionPayment g key input actor w = (Ok (p, dup), w') →
  session_ready g key input actor p (db w').
Proof.
  intros Hk Hu Hrun. unfold sessionPayment in Hrun.
  assert (∀ w0 q, keyed_tables (ledger_tables (db w0)) → keys_unique (payments (db w0)) →
    findSessionPayment key w0 = (Ok (Some q), w0) → assertMatchingSession q g input actor = Ok tt →
    session_ready g key input actor q (db w0)) as Hfound.
  { intros w0 q Hk0 Hu0 Hf Ha. apply findSessionPayment_Some in Hf as (_&?&?&?); [|done].
    done. }
  apply bind_Ok in Hrun as (o&w0&Hf&Hrun).
  assert (w0 = w) as -> by (by apply read_Ok in Hf as [_ ->]).
  destruct o as [q|].
  - apply bind_Ok in Hrun as ([]&w1&Ha&Hrun). apply lift_Ok in Ha as [Ha ->].
    apply ret_Ok in Hrun as [[= -> ->] ->]. by apply Hfound.
  - unfold catch in Hrun.
    destruct ((transaction _ ≫= _) w) as [[u|err] w2] eqn:Htry.
    + injection Hrun as -> ->. apply bind_Ok in Htry as (q&w3&Htx&Hret).
      rewrite transaction_Ok in Htx. apply ret_Ok in Hret as [[= -> ->] ->].
      by eapply createSession_tx_ready.
    + assert (db w2 = db w) as Hdb.
      { unfold mbind, M_bind in Htry. destruct (transaction _ w) as [[]] eqn:Et; [done|].
        injection Htry as -> ->. by eapply transaction_Err_db. }
      destruct (is_unique_violation err); [|by apply throw_Ok in Hrun].
      apply bind_Ok in Hrun as (o&w3&Hf2&Hrun).
      assert (w3 = w2) as -> by (by apply read_Ok in Hf2 as [_ ->]).
      apply bind_Ok in Hrun as (q&w3&Ho&Hrun). apply lift_Ok in Ho as [->%of_option_Ok ->].
      apply bind_Ok in Hrun as ([]&w3&Ha&Hrun). apply lift_Ok in Ha as [Ha ->].
      apply ret_Ok in Hrun as [[= -> ->] ->]. apply Hfound; try done; by rewrite Hdb.
Qed.

(** Rewriting the row of a session in a way its requests do not see. *)
Lemma session_ready_update g key input actor p d d' r :
  session_ready g key input actor p d →
  ledger_tables d' = (invoices d, <[pay_id (sp_payment p) := r]> (payments d)) →
  pay_id r = pay_id (sp_payment p) → pay_idempotencyKey r = key →
  pay_invoiceId r = pay_invoiceId (sp_payment p) →
  pay_provider r = pay_provider (sp_payment p) →
  pay_createdByUserId r = pay_createdByUserId (sp_payment p) →
  pay_status r = pay_status (sp_payment p) →
  session_ready g key input actor (MkSessionPayment r (sp_invoice p)) d'.
Proof.
  intros (Hp&Hkey&Hv&Hu&Hk&Ha) Ht Hid Hrk Hri Hrp Hrc Hrs.
  unfold session_ready. simpl. rewrite Ht. injection Ht as -> ->.
  rewrite Hid, Hri. split_and!.
  - apply lookup_insert_eq.
  - done.
  - done.
  - eapply keys_unique_insert; [done|done|congruence].
  - by apply keyed_payment.
  - revert Ha. unfold assertMatchingSession. simpl. by rewrite Hri, Hrp, Hrc, Hrs.
Qed.
Lemma ready_again g key input actor p d d' :
  session_ready g key input actor p d → ledger_tables d' = ledger_tables d →
  session_ready g key input actor p d'.
Proof. unfold session_ready. intros H3 Ht. rewrite Ht. injection Ht as -> ->. done. Qed.

Lemma session_view_Ok g r ref url at_ dup s :
  session_view g r ref url at_ dup = Ok s →
  text 1 191 ref = true ∧ zod_url url = true ∧ ps_duplicate s = dup ∧
  ps_expiresAt s = to_ISO_string at_ ∧
  ∀ g' dup', gw_key g' = gw_key g → session_view g' r ref url at_ dup' =
    Ok (MkSession (ps_paymentId s) (ps_invoiceId s) (ps_provider s) (ps_providerSessionId s)
          (ps_checkoutUrl s) (ps_amount s) (ps_expiresAt s) dup').
Proof.
  unfold session_view, paymentSession. intros Hs.
  apply result_bind_Ok in Hs as (amount&Ha&Hs).
  apply result_bind_Ok in Hs as (?&Hok%throw_unless_Ok&[= <-]). simpl in *.
  unfold session_ok in Hok. simpl in Hok.
  repeat (apply andb_true_iff in Hok as [Hok ?]). split_and!; try done.
  intros g' dup' Hg. rewrite Ha. simpl. unfold session_ok. simpl. rewrite Hg.
  repeat match goal with E : _ = true |- _ => rewrite E; clear E end. done.
Qed.

Lemma update_payment_if_hit id p f r w n w' :
  payments (db w) !! id = Some r → p r = true →
  update_payment_if id p f w = (Ok n, w') →
  ∃ t, ledger_tables (db w') =
       (invoices (db w), <[id := f r <| pay_updatedAt := t |>]> (payments (db w))).
Proof.
  intros Hr Hp Hrun. unfold update_payment_if in Hrun.
  apply bind_Ok in Hrun as (t&w1&Ht&Hrun). apply new_date_Ok in Ht as [-> ->].
  apply bind_Ok in Hrun as (m&w1&Hm&Hrun). apply read_Ok in Hm as [-> ->]. simpl in Hrun.
  rewrite Hr, Hp in Hrun.
  apply bind_Ok in Hrun as (?&w1&Hq&Hrun). apply require_Ok in Hq as [_ ->].
  apply bind_Ok in Hrun as (?&w1&Hw&Hrun). apply write_Ok in Hw as ->.
  apply ret_Ok in Hrun as [-> ->]. eauto.
Qed.
Lemma openSession_Ok g key input actor p dup w s w' :
  (∀ i, Keeps ledger_tables (createPaymentSession g i)) → zod_url "" = false →
  session_ready g key input actor p (db w) → openSession g key p dup w = (Ok s, w') →
  ∃ q ref url at_, session_ready g key input actor q (db w') ∧
    stored_session (sp_payment q) = Some (ref, url, at_) ∧
    session_view g (sp_payment q) ref url at_ (ps_duplicate s) = Ok s.
Proof.
  intros Hg Hurl Hready Hrun. unfold openSession in Hrun.
  destruct (if dup then stored_session (sp_payment p) else None) as [[[ref url] at_]|] eqn:Hst.
  { destruct dup; [|done]. apply bind_Ok in Hrun as (now&w1&Hn&Hrun).
    apply new_date_Ok in Hn as [_ ->].
    apply bind_Ok in Hrun as (?&w1&Hq&Hrun). apply require_Ok in Hq as [_ ->].
    apply lift_Ok in Hrun as [Hs ->]. exists p, ref, url, at_. split; [done|].
    split; [done|]. by rewrite (proj1 (proj2 (proj2 (session_view_Ok _ _ _ _ _ _ _ Hs)))). }
  clear Hst. apply bind_Ok in Hrun as (address&w1&Ha&Hrun). apply lift_Ok in Ha as [_ ->].
  apply bind_Ok in Hrun as (n&w1&Hc&Hrun). apply bind_Ok in Hrun as (?&w2&Hq&Hrun).
  apply require_Ok in Hq as [Hn ->]. unfold claimSession in Hc.
  apply update_payment_if_tables in Hc as [[-> _]|(->&r&t&Hr&Hcl&Ht)]; [done|].
  rewrite (proj1 Hready) in Hr. injection Hr as <-.
  apply andb_true_iff in Hcl as [Href%bool_decide_eq_true _].
  match type of Ht with _ = (_, <[_ := ?x]> _) => set (r1 := x) in * end.
  assert (session_ready g key input actor (MkSessionPayment r1 (sp_invoice p)) (db w1)) as Hr1.
  { eapply session_ready_update; [exact Hready|exact Ht|try done..]. by apply Hready. }
  apply bind_Ok in Hrun as (session&w3&Hp&Hrun). unfold catch in Hp.
  destruct (createPaymentSession g _ w1) as [[gs|err] w4] eqn:Hcreate.
  2: { unfold sessionFailed in Hp. destruct err;
         (apply bind_Ok in Hp as (?&?&_&Hp); by apply throw_Ok in Hp). }
  injection Hp as <- <-. apply (keeps_run ledger_tables) in Hcreate; [|apply Hg].
  pose proof (ready_again _ _ _ _ _ _ _ Hr1 Hcreate) as Hr4. clear Hr1.
  apply bind_Ok in Hrun as (m&w5&Hstore&Hrun). apply lift_Ok in Hrun as [Hs ->].
  unfold storeSession in Hstore.
  change (pay_id (sp_payment p)) with (pay_id r1) in Hstore.
  assert (payments (db w4) !! pay_id r1 = Some r1) as Hlook by apply Hr4.
  eapply update_payment_if_hit in Hstore as (t2&Ht2);
    [|exact Hlook|by apply bool_decide_eq_true].
  match type of Ht2 with _ = (_, <[_ := ?x]> _) => set (r2 := x) in * end.
  apply session_view_Ok in Hs as (Htext&Hzod&Hdup&Hexp&Hview).
  exists (MkSessionPayment r2 (sp_invoice p)), (gp_providerSessionId gs), (gp_checkoutUrl gs),
    (gp_expiresAt gs). split_and!.
  - eapply (session_ready_update _ _ _ _ (MkSessionPayment r1 (sp_invoice p)));
      [exact Hr4|exact Ht2|try done..]. by apply Hr4.
  - unfold stored_session. simpl.
    assert (truthy (gp_providerSessionId gs) = true) as ->.
    { unfold truthy. destruct (gp_providerSessionId gs); [done|done]. }
    assert (truthy (gp_checkoutUrl gs) = true) as ->; [|done].
    unfold truthy. destruct (String.eqb_spec (gp_checkoutUrl gs) "") as [E|]; [|done].
    rewrite E in Hzod. congruence.
  - simpl. specialize (Hview g (ps_duplicate s) eq_refl). simpl in Hview.
    transitivity (session_view g (sp_payment p) (gp_providerSessionId gs) (gp_checkoutUrl gs)
                    (gp_expiresAt gs) (ps_duplicate s)); [done|].
    rewrite Hview. by destruct s.
Qed.

(** a checkout is opened with the provider once: when a request for a session
    has been answered, the same request sent again, for any gateway of that name,
    answers the same session as a duplicate, or that it has expired, without
    asking the provider and without writing. *)
Theorem session_retry_safe g provider input actor w s w1
    (Hprovider : ∀ i, Keeps ledger_tables (createPaymentSession g i))
    (Hurl : zod_url "" = false)
    (Hkeys : keyed_tables (ledger_tables (db w))) (Hunique : keys_unique (payments (db w)))
    (Hrun : startSession g provider input actor w = (Ok s, w1)) :
  ∃ expiresAt, ps_expiresAt s = to_ISO_string expiresAt ∧
    ∀ g' w2, gw_key g' = gw_key g → ledger_tables (db w2) = ledger_tables (db w1) →
      startSession g' provider input actor w2 =
      (if expiresAt <=? clock w2 (ticks w2)
       then Err (conflict "This checkout session has expired. Start a new payment attempt.")
       else Ok (MkSession (ps_paymentId s) (ps_invoiceId s) (ps_provider s)
                  (ps_providerSessionId s) (ps_checkoutUrl s) (ps_amount s) (ps_expiresAt s)
                  true), w2 <| ticks := S (ticks w2) |>).
Proof.
  unfold startSession in Hrun. apply bind_Ok in Hrun as ([p dup]&w0&Hp&Hrun).
  eapply sessionPayment_ready in Hp; [|done..].
  eapply openSession_Ok in Hrun as (q&ref&url&at_&Hready&Hst&Hview); [|done..].
  apply session_view_Ok in Hview as (_&_&_&Hexp&Hview). exists at_. split; [done|].
  intros g' w2 Hg Ht. pose proof (session_found _ _ _ _ _ _ _ Hready Ht) as Hf.
  assert (assertMatchingSession q g' input actor = Ok tt) as Ha.
  { rewrite <- (proj2 (proj2 (proj2 (proj2 (proj2 Hready))))).
    unfold assertMatchingSession. by rewrite Hg. }
  unfold startSession, sessionPayment, mbind, M_bind. rewrite Hf. unfold lift. rewrite Ha.
  unfold mret, M_ret, openSession. rewrite Hst. unfold mbind, M_bind, new_date, require, lift.
  simpl. destruct (at_ <=? clock w2 (ticks w2)); [done|]. simpl. by rewrite (Hview g' true Hg).
Qed.
End retries.

(** ** Witnesses *)
Definition any_url : ZodUrl := λ s, negb (String.eqb s "").
Definition any_date : DateParser := λ _, Some 0.
Definition provider_failed (m : string) : exn := PaymentProviderError m "UNKNOWN".
(** A gateway whose checkouts are all alike, and whose completion is given. *)
Definition sample_gateway
    (complete : CompleteGatewaySessionInput → Io NormalizedPaymentEvent) : PaymentGateway :=
  MkGateway "bkash" "bKash" "merchant" (λ _, mret (MkGatewaySession "session" "url" 1000))
    (λ _ _, mret true) (λ _, throw (JsError "no webhook"))
    (λ _, throw (provider_failed "no status")) ev_providerTransactionId (Some complete).
Definition no_completion : PaymentGateway := sample_gateway (λ _, throw (provider_failed "down")).
Definition gateway_payment (i : string) : Payment :=
  MkPayment "p" i None (Some "c") None PaymentKind.CHARGE PaymentStatus.PENDING "bkash" None
    "k" 100 "BDT" (Some "session") None None None JNull None None None None 0 0.
Definition gateway_world : World :=
  payment_world <| db := db payment_world <| payments := {["p" := gateway_payment "i"]} |> |>.
Definition paid_event : NormalizedPaymentEvent :=
  MkEvent "event" "payment.succeeded" EventStatus.SUCCEEDED "merchant" "p" "i" "100" "BDT"
    (Some "trx") "2026-01-01T00:00:00.000Z" None.
Definition settled_run : result WebhookTransactionResult * World :=
  @event_tx plain_sha any_date no_completion paid_event "hash" gateway_world.
Lemma settled_run_eq :
  @event_tx plain_sha any_date no_completion paid_event "hash" gateway_world =
  (Ok Processed, snd settled_run).
Proof. unfold settled_run. apply run_outcome. vm_compute. reflexivity. Qed.

Lemma gateway_event_exact_witness :
  acceptable no_completion paid_event (db gateway_world) ∧
  ord_status <$> orders (db (snd settled_run)) !! "o" = Some OrderStatus.PAID.
Proof.
  assert (keyed_tables (ledger_tables (db gateway_world))) as Hk.
  { split; intros i x; simpl; by intros [<- <-]%lookup_singleton_Some. }
  assert (orders_keyed (db gateway_world)) as Ho.
  { intros i x. simpl. by intros [<- <-]%lookup_singleton_Some. }
  destruct (@gateway_event_exact plain_sha any_date no_completion paid_event "hash"
              gateway_world Processed (snd settled_run) Hk Ho settled_run_eq)
    as (Hacc&_&v&p&t&Hv&_&_&_&_&r&v'&_&_&_&_&_&_&_&_&_&Hst&_).
  split; [by apply Hacc|]. rewrite (Hst Ho "o").
  assert ((λ v, inv_orderId v) <$> invoices (db gateway_world) !! "i" = Some (Some "o")) as Hb
    by reflexivity.
  change (ev_invoiceId paid_event) with "i" in Hv. rewrite Hv in Hb. injection Hb as Hb.
  rewrite Hb. reflexivity.
Defined.

Definition answered : result PaymentWebhookResult * World :=
  @processNormalizedEvent plain_sha any_date no_completion paid_event "hash" gateway_world.
Lemma gateway_event_once_witness :
  fst answered = Ok (MkWebhookResult false "event" WebhookProcessed) ∧
  @processNormalizedEvent plain_sha any_date no_completion paid_event "hash" (snd answered) =
  (Ok (MkWebhookResult true "event" WebhookProcessed), snd answered).
Proof.
  assert (fst answered = Ok (MkWebhookResult false "event" WebhookProcessed)) as Hok
    by (vm_compute; reflexivity).
  split; [exact Hok|].
  apply (@gateway_event_once plain_sha any_date no_completion paid_event "hash" gateway_world
           (MkWebhookResult false "event" WebhookProcessed) (snd answered) paid_event "hash").
  - rewrite <- Hok. apply surjective_pairing.
  - reflexivity.
  - reflexivity.
Defined.

(** An invoice with a postal address, and a gateway that was never asked. *)
Definition addressed_world : World :=
  gateway_world <| db := db gateway_world <| payments := ∅ |> <| invoices :=
    {["i" := sample_invoice InvoiceStatus.UNPAID 0
        <| inv_customerAddressSnapshot :=
             JObj [("line1", JStr "1 Road"); ("city", JStr "Dhaka"); ("countryCode", JStr "BD")]
        |>]} |> |>.
Definition session_request : CreatePaymentSessionRequest := MkSessionRequest "i" "key".
Definition started : result PaymentSession * World :=
  @startSession all_formats any_url no_completion "bkash" session_request (AdminIdentity "u")
    addressed_world.
Lemma session_retry_safe_witness :
  ∃ s expiresAt, fst started = Ok s ∧ ps_duplicate s = false ∧
    @startSession all_formats any_url no_completion "bkash" session_request
      (AdminIdentity "u") (snd started) =
    (if expiresAt <=? clock (snd started) (ticks (snd started))
     then Err (conflict "This checkout session has expired. Start a new payment attempt.")
     else Ok (MkSession (ps_paymentId s) (ps_invoiceId s) (ps_provider s)
                (ps_providerSessionId s) (ps_checkoutUrl s) (ps_amount s) (ps_expiresAt s) true),
     snd started <| ticks := S (ticks (snd started)) |>).
Proof.
  destruct (fst started) as [s|e] eqn:Hs.
  2: { exfalso. assert (is_ok (fst started) = true) as Hok by (vm_compute; reflexivity).
       rewrite Hs in Hok. discriminate. }
  assert (match fst started with Ok s => ps_duplicate s | Err _ => false end = false) as Hd
    by (vm_compute; reflexivity).
  rewrite Hs in Hd.
  destruct (@session_retry_safe all_formats any_url no_completion "bkash"
    session_request (AdminIdentity "u") addressed_world s (snd started)) as (at_&_&Hagain).
  - intros i. unfold no_completion, sample_gateway. simpl. apply _.
  - reflexivity.
  - split; intros i x; simpl; [|done]. by intros [<- <-]%lookup_singleton_Some.
  - intros i j x y. done.
  - rewrite <- Hs. apply surjective_pairing.
  - exists s, at_. split; [done|]. split; [exact Hd|]. by apply Hagain.
Defined.
