(* ===== verification/GatewayFaults.v ===== *)
(** * Where the gateway service can be overtaken

    A provider's failure recorded over a settlement that happened meanwhile, and
    a reconciliation that can no longer succeed. *)
From S2P Require Import Prelude JsString JsDate Json Money States Database InvoiceNumber InvoiceTotals Invoices Payments Gateways GatewayAdapters MapSum Ledger Settlement Orders OrderProperties PaymentProperties GatewayProperties.

(** ** A failure over a settlement *)
(** A successful charge that loses its status leaves its invoice paid by nothing. *)
Lemma lost_charge_breaks d d' p r s :
  ledger_inv d → payments d !! p = Some r → pay_status r = PaymentStatus.SUCCEEDED →
  pay_kind r = PaymentKind.CHARGE → pay_invoiceId s = pay_invoiceId r →
  pay_status s ≠ PaymentStatus.SUCCEEDED →
  ledger_tables d' = (invoices d, <[p := s]> (payments d)) → ¬ ledger_inv d'.
Proof.
  intros [_ Hok] Hr Hs Hc Hi Hs' Ht [_ [Ha' _]]. unfold ledger_of in Ha'. rewrite Ht in Ha'.
  assert (entries (ledger_of d) !! p = Some (entry_of r)) as He by (by apply entry_lookup).
  destruct (proj2 Hok _ _ He) as (Hpos&[a Ha]&_). simpl in Hpos, Ha.
  destruct (proj1 Hok _ _ Ha) as (_&_&_&_&Hnet&_).
  destruct (Ha' _ _ Ha) as (_&_&_&_&Hnet'&_).
  rewrite of_tables_payment in Hnet'.
  change (of_tables (invoices d, payments d)) with (ledger_of d) in Hnet'.
  rewrite (net_paid_changed _ _ _ _ _ (entry_of r)) in Hnet' by done.
  rewrite (contribution_posted _ (entry_of r)) in Hnet' by done.
  rewrite (contribution_idle _ (entry_of s)) in Hnet' by done. simpl in Hnet'.
  rewrite Hc in Hnet'. simpl in Hnet'. lia.
Qed.

Section overtaken.
Context `{ZodFormats} `{ZodUrl} `{Sha256} `{DateParser}.

(** a bKash callback that read a pending payment and whose provider then
    reports an error writes FAILED or PENDING over a payment that another request
    has settled while it waited: the invoice stays paid, its charge is gone, and
    the ledger is no longer consistent. *)
Theorem callback_overwrites_settlement registry sid status g w w0 p w1 m o r
    (Hgateway : get_gateway registry "bkash" false w = (Ok g, w0))
    (Hfound : find_session (gw_key g) sid w0 = (Ok (Some p), w0))
    (Hpending : pay_status p = PaymentStatus.PENDING)
    (Hfailed : callback_event g sid status p w0 = (Err (PaymentProviderError m o), w1))
    (Hinv : ledger_inv (db w1)) (Hrow : payments (db w1) !! pay_id p = Some r)
    (Hsettled : pay_status r = PaymentStatus.SUCCEEDED) (Hkind : pay_kind r = PaymentKind.CHARGE)
    (Hindex : unique_opt (delete (pay_id p) (payments (db w1))) transaction_key
                (transaction_key r) = true) :
  ∃ w2 r', completeBkashCallback registry sid status w = (Ok (pay_invoiceId p), w2) ∧
    payments (db w2) = <[pay_id p := r']> (payments (db w1)) ∧
    pay_status r' ≠ PaymentStatus.SUCCEEDED ∧ invoices (db w2) = invoices (db w1) ∧
    ¬ ledger_inv (db w2).
Proof.
  set (s := (r <| pay_status := if String.eqb o "FAILED" then PaymentStatus.FAILED
                                else PaymentStatus.PENDING |>
               <| pay_failureReason := Some m |>
               <| pay_updatedAt := clock w1 (ticks w1) |>)).
  assert (pay_status s ≠ PaymentStatus.SUCCEEDED) as Hs
    by (unfold s; simpl; by destruct (String.eqb o "FAILED")).
  exists (w1 <| ticks := S (ticks w1) |>
             <| db := db w1 <| payments := <[pay_id p := s]> (payments (db w1)) |> |>), s.
  split; [|split; [done|split; [done|split; [done|]]]].
  - unfold completeBkashCallback, mbind, M_bind. rewrite Hgateway, Hfound. unfold lift. simpl.
    rewrite Hpending. simpl. unfold catch, mbind, M_bind. rewrite Hfailed.
    unfold recordProviderFailure, update_payment, update_payment_if, mbind, M_bind, new_date.
    simpl. unfold read, gets. simpl. rewrite Hrow. fold s.
    unfold require, lift.
    unfold transaction_key in Hindex |- *. simpl in *. rewrite Hindex. reflexivity.
  - by eapply (lost_charge_breaks _ _ (pay_id p) r s).
Qed.
End overtaken.

(** ** A reconciliation that can no longer succeed *)
Section reconciliation.
Context `{ZodFormats} `{ZodUrl} `{Sha256} `{DateParser}.
Context (request : HttpRequest → Io HttpResponse).
Context (form_encode : list (string * string) → string).
Context (providerCredentials : Io (string * string)).
Let query := ssl_queryTransactionStatus request form_encode providerCredentials.

(** SSLCOMMERZ reports the transaction it was asked for, whatever its state. *)
Lemma ssl_query_transaction t w st w' :
  query t w = (Ok st, w') → ts_providerTransactionId st = Some t.
Proof.
  unfold query, ssl_queryTransactionStatus. intros Hrun.
  apply bind_Ok in Hrun as ([store password]&w1&_&Hrun).
  apply bind_Ok in Hrun as (response&w2&_&Hrun).
  apply bind_Ok in Hrun as (?&w3&_&Hrun). apply bind_Ok in Hrun as (l&w4&_&Hrun).
  apply bind_Ok in Hrun as (e&w5&He&Hrun). apply lift_Ok in He as [He%of_option_Ok _].
  apply List.find_some in He as [_ He%String.eqb_eq].
  unfold ssl_toStatus in Hrun. apply bind_Ok in Hrun as (a&w6&_&Hrun).
  apply bind_Ok in Hrun as (b&w7&_&Hrun). apply ret_Ok in Hrun as [-> _]. simpl. by rewrite He.
Qed.
Lemma status_event_id g prefix p st e :
  status_event g prefix p st = Ok e →
  ev_providerEventId e = (prefix ++ ":" ++ default (ProviderStatus.to_string (ts_status st))
                            (ts_providerTransactionId st))%string.
Proof. unfold status_event, normalizedPaymentEvent. intros. by run_inv. Qed.

(** The event a reconciliation processes, and where. *)
Lemma reconcile_inv g payment reference actor w r w' :
  reconcileAttempt g payment reference actor w = (Ok r, w') →
  ∃ st e w1 w2, queryTransactionStatus g reference w = (Ok st, w1) ∧
    reconcile_event g payment st = Ok e ∧
    processNormalizedEvent g e (eventPayloadHash e) w1 = (Ok r, w2) ∧
    paymentEvents (db w') = paymentEvents (db w2) ∧
    ledger_tables (db w') = ledger_tables (db w2).
Proof.
  unfold reconcileAttempt. intros Hrun. apply bind_Ok in Hrun as (st&w1&Hq&Hrun).
  apply bind_Ok in Hrun as (?&w2&Hr&Hrun). apply require_Ok in Hr as [_ ->].
  apply bind_Ok in Hrun as (e&w2&He&Hrun). apply lift_Ok in He as [He ->].
  apply bind_Ok in Hrun as (r'&w2&Hp&Hrun). apply bind_Ok in Hrun as ([]&w3&Hl&Hrun).
  apply ret_Ok in Hrun as [-> ->]. exists st, e, w1, w2. split_and!; try done.
  - by apply (keeps_run paymentEvents) in Hl; [|apply _].
  - by apply (keeps_run ledger_tables) in Hl; [|apply _].
Qed.

(** an SSLCOMMERZ payment that was once reconciled while the provider held it
    as pending can never be reconciled again: the event of every later answer has
    the same identifier, so an answer that the payment succeeded is refused as
    other content, and no later reconciliation changes a payment or an invoice. *)
Theorem ssl_reconciled_pending_forever g payment reference actor w r w1 w2 res w3
    (Hquery : queryTransactionStatus g = query)
    (Hframe : Keeps (λ d, d) (queryTransactionStatus g reference))
    (Hrun : reconcileAttempt g payment reference actor w = (Ok r, w1))
    (Hpending : wr_status r = WebhookIgnored)
    (Hlater : paymentEvents (db w2) = paymentEvents (db w1))
    (Hagain : reconcileAttempt g payment reference actor w2 = (res, w3)) :
  ledger_tables (db w3) = ledger_tables (db w2) ∧
  ∀ r', res = Ok r' → wr_status r' = WebhookIgnored ∧ wr_duplicate r' = true.
Proof.
  apply reconcile_inv in Hrun as (st&e&w4&w5&Hq&He&Hp&Hev&_).
  apply status_event_id in He. rewrite Hquery in Hq. apply ssl_query_transaction in Hq.
  rewrite Hq in He. simpl in He.
  unfold reconcileAttempt, mbind, M_bind in Hagain.
  destruct (queryTransactionStatus g reference w2) as [[st'|err] w6] eqn:Hq';
    pose proof (keeps_run (λ d, d) _ _ _ _ Hframe Hq') as Hdb;
    [|injection Hagain as <- <-; by rewrite Hdb].
  rewrite Hquery in Hq'. apply ssl_query_transaction in Hq'. unfold require, lift in Hagain.
  destruct (throw_unless _ _); [|injection Hagain as <- <-; by rewrite Hdb].
  destruct (reconcile_event g payment st') as [e'|err] eqn:He';
    [|injection Hagain as <- <-; by rewrite Hdb].
  apply status_event_id in He'. rewrite Hq' in He'. simpl in He'.
  apply processed_replays in Hp as (x&Hf&_&Hs&_&Htext&Hst).
  assert (ev_providerEventId e' = ev_providerEventId e) as Hid by (by rewrite He, He').
  rewrite Hpending in Hst. rewrite <- Hid in *.
  rewrite (stored_event_answers _ _ _ _ x) in Hagain; [|congruence|done|done].
  destruct (String.eqb _ _); [|injection Hagain as <- <-; by rewrite Hdb].
  injection Hagain as <- <-. simpl. split; [by rewrite <- Hdb|].
  intros r' [= <-]. by rewrite <- Hst.
Qed.
End reconciliation.

(** ** Witnesses *)
(** The first callback settles the payment while the second one waits for bKash,
    which answers it with an error. *)
Definition overtaken_gateway : PaymentGateway :=
  sample_gateway (λ _, _ ← @event_tx plain_sha any_date no_completion paid_event "hash";
                       throw (provider_failed "bKash could not complete the payment.")).
Definition overtaken_registry : PaymentGatewayRegistry :=
  MkRegistry overtaken_gateway overtaken_gateway overtaken_gateway (λ _, mret true) false.
Lemma gateway_world_inv : ledger_inv (db gateway_world).
Proof.
  split; [|split].
  - split; intros i x; simpl; by intros [<- <-]%lookup_singleton_Some.
  - intros i a Ha. unfold ledger_of, of_tables in Ha. simpl in Ha.
    rewrite map_fmap_singleton in Ha. apply lookup_singleton_Some in Ha as [<- <-].
    split_and!; try (vm_compute; congruence); exact I.
  - intros i e He. unfold ledger_of, of_tables in He. simpl in He.
    rewrite map_fmap_singleton in He. apply lookup_singleton_Some in He as [<- <-].
    split; [done|]. split; [by eexists|]. split; [done|]. split; vm_compute; congruence.
Qed.
Lemma callback_overwrites_settlement_witness :
  ∃ w2 r', @completeBkashCallback all_formats plain_sha any_date overtaken_registry "session" "success"
      gateway_world = (Ok "i", w2) ∧
    payments (db w2) = <["p" := r']> (payments (db (snd settled_run))) ∧
    pay_status r' ≠ PaymentStatus.SUCCEEDED ∧
    invoices (db w2) = invoices (db (snd settled_run)) ∧ ¬ ledger_inv (db w2).
Proof.
  assert (∃ r, payments (db (snd settled_run)) !! "p" = Some r ∧
    pay_status r = PaymentStatus.SUCCEEDED ∧ pay_kind r = PaymentKind.CHARGE) as (r&Hr&Hs&Hc).
  { eexists. split; [vm_compute; reflexivity|]. split; reflexivity. }
  apply (@callback_overwrites_settlement all_formats plain_sha any_date overtaken_registry
    "session" "success" overtaken_gateway gateway_world gateway_world (gateway_payment "i")
    (snd settled_run) "bKash could not complete the payment." "UNKNOWN" r).
  - reflexivity.
  - reflexivity.
  - reflexivity.
  - unfold callback_event, overtaken_gateway, sample_gateway. simpl.
    unfold mbind, M_bind. by rewrite settled_run_eq.
  - exact (posts_inv anywhere _ _ _ _ (@event_tx_posts plain_sha any_date _ _ _)
             gateway_world_inv I settled_run_eq).
  - exact Hr.
  - exact Hs.
  - exact Hc.
  - apply unique_opt_spec. right. intros i x Hx. exfalso.
    assert (delete "p" (payments (db (snd settled_run))) = ∅) as He by (vm_compute; reflexivity).
    change (pay_id (gateway_payment "i")) with "p" in Hx.
    apply (f_equal (λ m, m !! i)) in He. cbv beta in He. rewrite lookup_empty in He.
    discriminate (eq_trans (eq_sym He) Hx).
Defined.

(** SSLCOMMERZ holds the payment at first and then reports it as valid. *)
Definition ssl_answer (status : string) : json :=
  JObj [("APIConnect", JStr "DONE");
        ("element", JArr [JObj [("status", JStr status); ("tran_id", JStr "session");
                                ("amount", JStr "1.00"); ("currency", JStr "BDT")]])].
Definition ssl_request (r : HttpRequest) : Io HttpResponse :=
  t ← new_date;
  mret (MkResponse 200 (ssl_answer (if t =? 0 then "PENDING" else "VALID"))).
Definition ssl_credentials : Io (string * string) := mret ("store", "password").
Definition plain_form (l : list (string * string)) : string := "".
Definition ssl_gateway : PaymentGateway :=
  MkGateway "sslcommerz" "SSLCOMMERZ" "merchant" (λ _, throw (provider_failed "unused"))
    (λ _ _, mret false) (λ _, throw (provider_failed "unused"))
    (@ssl_queryTransactionStatus any_date ssl_request plain_form ssl_credentials)
    ev_providerTransactionId None.
Definition ssl_payment : Payment := gateway_payment "i" <| pay_provider := "sslcommerz" |>.
Definition ssl_world : World :=
  gateway_world <| db := db gateway_world <| payments := {["p" := ssl_payment]} |> |>.
Definition reconcile_at (w : World) : result PaymentWebhookResult * World :=
  @reconcileAttempt all_formats plain_sha any_date ssl_gateway ssl_payment "session"
    (AdminIdentity "u") w.
Lemma ssl_reconciled_pending_forever_witness :
  fst (reconcile_at (snd (reconcile_at ssl_world))) =
    Err (webhookRejected "Provider event identifier was reused with different content." false) ∧
  ledger_tables (db (snd (reconcile_at (snd (reconcile_at ssl_world))))) =
    ledger_tables (db (snd (reconcile_at ssl_world))).
Proof.
  split; [vm_compute; reflexivity|].
  assert (fst (reconcile_at ssl_world) = Ok (MkWebhookResult false
            "reconciliation:sslcommerz:p:session" WebhookIgnored)) as Hok
    by (vm_compute; reflexivity).
  refine (proj1 (@ssl_reconciled_pending_forever all_formats plain_sha any_date ssl_request
    plain_form ssl_credentials ssl_gateway ssl_payment "session" (AdminIdentity "u") ssl_world
    (MkWebhookResult false "reconciliation:sslcommerz:p:session" WebhookIgnored)
    (snd (reconcile_at ssl_world)) (snd (reconcile_at ssl_world)) _ _ eq_refl _ _ eq_refl
    eq_refl (surjective_pairing _))).
  - unfold ssl_gateway. simpl. unfold ssl_queryTransactionStatus, ssl_credentials, ssl_request,
      ssl_toStatus, sslDate, date_or_now. apply _.
  - rewrite <- Hok. apply surjective_pairing.
Defined.
