(* ===== verification/Renewal.v ===== *)
(** * Renewals

    The scheduler and the processor of renewals:
    apps/worker/src/renewal/renewal-scheduler.service.ts,
    apps/worker/src/renewal/renewal-processor.service.ts,
    apps/worker/src/renewal/renewal-policy.ts and
    packages/shared/src/contracts/renewal-automation.ts.  The worker's clock is
    the world's. *)
From stdpp Require Import sorting.
From S2P Require Import Prelude JsString JsDate Json Money States Calendar Database InvoiceNumber InvoiceTotals Invoices BackgroundJobs Payments MapSum Ledger Settlement.

(** ** contracts/renewal-automation.ts *)
Record RenewalAutomationPolicy := MkPolicy
  { po_enabled : bool; po_invoiceLeadDays : Z; po_reminderDaysBeforeDue : list Z;
    po_gracePeriodDays : Z; po_timeZone : string }.
Definition DEFAULT_RENEWAL_AUTOMATION_POLICY : RenewalAutomationPolicy :=
  MkPolicy true 14 [7; 3; 1] 3 "Asia/Dhaka".
Definition int_range (lo hi : Z) : schema Z :=
  z_refine (λ n, (lo <=? n) && (n <=? hi)) z_int.

Record RenewalCyclePayload := MkCyclePayload
  { cy_automationRunId : string; cy_businessDate : string; cy_scheduledFor : string;
    cy_policy : RenewalAutomationPolicy }.
Record RenewalPaymentPayload := MkPaymentPayload
  { rp_paymentId : string; rp_invoiceId : string }.

Definition policy_json (p : RenewalAutomationPolicy) : json :=
  JObj [("enabled", JBool (po_enabled p)); ("invoiceLeadDays", JNum (po_invoiceLeadDays p));
        ("reminderDaysBeforeDue", JArr (JNum <$> po_reminderDaysBeforeDue p));
        ("gracePeriodDays", JNum (po_gracePeriodDays p)); ("timeZone", JStr (po_timeZone p))].

Section schemas.
(** [valid_time_zone]: [Intl.DateTimeFormat] accepts the zone. *)
Context `{ZodFormats} (valid_time_zone : string → bool).

Definition renewalAutomationPolicySchema : schema RenewalAutomationPolicy := λ v,
  o ← z_strict_object ["enabled"; "invoiceLeadDays"; "reminderDaysBeforeDue";
                       "gracePeriodDays"; "timeZone"] v;
  enabled ← z_bool (get "enabled" o);
  lead ← int_range 1 90 (get "invoiceLeadDays" o);
  reminders ← z_refine (λ l, Z.of_nat (length l) <=? 10)
                (z_array (int_range 0 90)) (get "reminderDaysBeforeDue" o);
  grace ← int_range 0 60 (get "gracePeriodDays" o);
  zone ← z_refine valid_time_zone (sized 1 64) (get "timeZone" o);
  if bool_decide (NoDup reminders) && forallb (λ days, days <? lead) reminders
  then Some (MkPolicy enabled lead reminders grace zone) else None.
Definition version_1 (v : json) : option unit :=
  match v with JNum 1 => Some tt | _ => None end.
Definition renewalCyclePayloadSchema : schema RenewalCyclePayload := λ v,
  o ← z_strict_object ["schemaVersion"; "automationRunId"; "businessDate";
                       "scheduledFor"; "policy"] v;
  _ ← version_1 (get "schemaVersion" o);
  run ← z_refine zod_uuid z_string (get "automationRunId" o);
  date ← z_refine zod_date z_string (get "businessDate" o);
  scheduled ← z_refine zod_datetime z_string (get "scheduledFor" o);
  policy ← renewalAutomationPolicySchema (get "policy" o);
  Some (MkCyclePayload run date scheduled policy).
Definition renewalPaymentPayloadSchema : schema RenewalPaymentPayload := λ v,
  o ← z_strict_object ["schemaVersion"; "paymentId"; "invoiceId"] v;
  _ ← version_1 (get "schemaVersion" o);
  payment ← z_refine zod_uuid z_string (get "paymentId" o);
  invoice ← z_refine zod_uuid z_string (get "invoiceId" o);
  Some (MkPaymentPayload payment invoice).
(** [hostingAutomationPayloadSchema.parse] of the three ids. *)
Definition hosting_payload (serviceId invoiceId automationRunId : string) : result json :=
  _ ← throw_unless (zod_uuid serviceId && zod_uuid invoiceId && zod_uuid automationRunId)
        ZodError;
  Ok (JObj [("schemaVersion", JNum 1); ("serviceId", JStr serviceId);
            ("invoiceId", JStr invoiceId); ("automationRunId", JStr automationRunId)]).
End schemas.

Definition permanent (code : string) : exn :=
  BackgroundJobError "PERMANENT" code "Renewal work cannot be processed.".
Definition temporary (code : string) : exn :=
  BackgroundJobError "TEMPORARY" code "Renewal work is temporarily unavailable.".

(** The worker's [normalizeBusinessIdentity]: it never throws. *)
Definition worker_identity `{ZodFormats} (value : json) : json :=
  match businessIdentitySchema value with
  | Some data => identity_json data
  | None =>
      match value with
      | JObj o =>
          match get "name" o with
          | JStr name => if non_blank name then JObj [("name", JStr (js_trim name))]
                         else JObj [("name", JStr PROJECT_NAME)]
          | _ => JObj [("name", JStr PROJECT_NAME)]
          end
      | _ => JObj [("name", JStr PROJECT_NAME)]
      end
  end.

(** ** Automation runs *)
Definition create_run (r : AutomationRun) : Io unit :=
  m ← read automationRuns;
  _ ← require (bool_decide (m !! run_id r = None) &&
               unique_in m run_idempotencyKey (run_idempotencyKey r)) UniqueViolation;
  put_run r.
(** The CHECK constraint automation_runs_counts_check. *)
Definition counts_check (r : AutomationRun) : bool :=
  (0 <=? run_processedCount r) && (0 <=? run_succeededCount r) &&
  (0 <=? run_failedCount r) &&
  (run_succeededCount r + run_failedCount r <=? run_processedCount r).
Definition check_violation : exn := JsError "automation_runs_counts_check".
(** [automationRun.updateMany({where: {id}})]. *)
Definition update_runs (id : string) (f : AutomationRun → AutomationRun) : Io unit :=
  m ← read automationRuns;
  match m !! id with
  | None => mret tt
  | Some r =>
      _ ← require (counts_check (f r)) check_violation;
      write (λ d, d <| automationRuns := <[id := f r]> m |>)
  end.
(** [automationRun.update({where: {id}})]. *)
Definition update_run (id : string) (f : AutomationRun → AutomationRun) : Io unit :=
  m ← read automationRuns;
  _ ← require (bool_decide (is_Some (m !! id))) RecordNotFound;
  update_runs id f.
(** ** renewal-policy.ts and renewal-scheduler.service.ts *)
Definition RENEWAL_POLICY_SETTING_KEY : string := "automation.renewal-policy".
Inductive ScheduleOutcome := CREATED | EXISTS | LOCKED.
Definition cycle_key (date : string) : string := ("renewal-cycle:" ++ date)%string.

Section scheduler.
Context (valid_time_zone : string → bool) `{TimeZones}.

Definition loadRenewalPolicy : Io RenewalAutomationPolicy :=
  setting ← find_setting RENEWAL_POLICY_SETTING_KEY;
  mret (default DEFAULT_RENEWAL_AUTOMATION_POLICY
          (v ← setting; renewalAutomationPolicySchema valid_time_zone v)).

(** [acquired]: what [pg_try_advisory_xact_lock] answers. *)
Definition schedule_tx (acquired : bool) (now : Z) (policy : RenewalAutomationPolicy)
    (date : string) : Io ScheduleOutcome :=
  if negb acquired then mret LOCKED
  else
    existing ← read (λ d, find_unique (automationRuns d) run_idempotencyKey
                            (cycle_key date));
    match existing with
    | Some _ => mret EXISTS
    | None =>
        id ← random_uuid;
        _ ← create_run (MkAutomationRun id "renewal-cycle" (cycle_key date)
              (if po_enabled policy then AutomationStatus.RUNNING
               else AutomationStatus.SKIPPED) now
              (if po_enabled policy then None else Some now) 0 0 0 None
              (JObj [("businessDate", JStr date); ("policy", policy_json policy)]));
        _ ← when (po_enabled policy)
              (create_outbox "AUTOMATION_RUN" id "RENEWAL_INVOICE_GENERATION_REQUESTED"
                ("renewal-cycle-request:" ++ date)%string
                (JObj [("schemaVersion", JNum 1); ("automationRunId", JStr id);
                       ("businessDate", JStr date);
                       ("scheduledFor", JStr (to_ISO_string now));
                       ("policy", policy_json policy)]));
        mret CREATED
    end.
Definition scheduleCurrentCycle (acquired : bool) : Io ScheduleOutcome :=
  now ← new_date;
  policy ← loadRenewalPolicy;
  transaction (schedule_tx acquired now policy (businessDate now (po_timeZone policy))).
End scheduler.

(** ** Counters

    The counters of a cycle outlive the exceptions of its steps. *)
Record Counters := MkCounters { processed : Z; succeeded : Z; failed : Z }.
#[export] Instance Counters_rebuild : Rebuild Counters := λ r,
  MkCounters (processed r) (succeeded r) (failed r).
Notation Counted := (M (World * Counters)).
Definition on_world {A} (m : Io A) : Counted A := λ s,
  let '(r, w) := m s.1 in (r, (w, s.2)).
Definition count (f : Counters → Counters) : Counted unit := modify (λ s, (s.1, f s.2)).
(** [counters.processed += 1; try { if (await act()) counters.succeeded += 1 }
    catch { counters.failed += 1 }]. *)
Definition attempt (act : Io bool) : Counted unit :=
  _ ← count (λ c, c <| processed := processed c + 1 |>);
  catch (done ← on_world act;
         when done (count (λ c, c <| succeeded := succeeded c + 1 |>)))
        (λ _, count (λ c, c <| failed := failed c + 1 |>)).
(** Run with fresh counters; the caller sees them whatever happened. *)
Definition run_counted (m : Counted unit) : Io (result unit * Counters) := λ w,
  let '(r, (w', c)) := m (w, MkCounters 0 0 0) in (Ok (r, c), w').

(** ** Renewal invoices *)
Definition earlier_due (a b : Service) : Prop :=
  svc_nextDueAt a < svc_nextDueAt b ∨
  svc_nextDueAt a = svc_nextDueAt b ∧ String.leb (svc_id a) (svc_id b) = true.
#[export] Instance earlier_due_dec : RelDecision earlier_due.
Proof. intros a b. unfold earlier_due. apply _. Defined.
Definition hosting_period (p : BillingPeriod) : bool :=
  bool_decide (is_Some (hostingBillingPeriodSchema p)).
Definition live (s : ServiceStatus) : bool :=
  (s ==b ServiceStatus.ACTIVE) || (s ==b ServiceStatus.SUSPENDED).
Definition renewable (d : Db) (cutoff : Z) (s : Service) : bool :=
  live (svc_status s) && hosting_period (svc_billingPeriod s) &&
  (svc_nextDueAt s <=? cutoff) && negb (cancellation_pending (svc_id s) d).
Definition due_services (cutoff : Z) (d : Db) : list Service :=
  take 1000 (merge_sort earlier_due (rows (renewable d cutoff) (services d))).

Definition by_item_id (a b : OrderItem) : Prop := String.leb (oi_id a) (oi_id b) = true.
#[export] Instance by_item_id_dec : RelDecision by_item_id.
Proof. intros a b. unfold by_item_id. apply _. Defined.
Definition add_on_renews (orderId : string) (period : BillingPeriod) (currency : string)
    (periodStart : Z) (i : OrderItem) : bool :=
  String.eqb (oi_orderId i) orderId && (oi_kind i ==b ProductKind.ADD_ON) &&
  (oi_billingPeriod i ==b period) && String.eqb (oi_currency i) currency &&
  bool_decide (is_Some (oi_fulfilledAt i)) &&
  match oi_renewalEndsAt i with None => true | Some t => periodStart <? t end.
(** The add-ons of the service's order that are billed with it. *)
Definition renewal_add_ons (s : Service) (period : HostingBillingPeriod) (d : Db)
    : list OrderItem :=
  match i ← svc_orderItemId s; orderItems d !! i with
  | Some item => merge_sort by_item_id
      (rows (add_on_renews (oi_orderId item) (of_hosting_period period) (svc_currency s)
               (svc_nextDueAt s)) (orderItems d))
  | None => []
  end.
Definition renewal_total (s : Service) (addOns : list OrderItem) : Z :=
  fold_left (λ sum i, sum + oi_lineTotal i) addOns (svc_recurringAmount s).
Definition renewal_description (s : Service) : string :=
  ("Renewal: " ++ svc_productNameSnapshot s ++
   match svc_domain s with
   | Some d => if truthy d then " (" ++ d ++ ")" else ""
   | None => ""
   end)%string.
Definition hosting_line (s : Service) (from to : Z) (invoiceId id : string) : InvoiceItem :=
  MkInvoiceItem id invoiceId 1 None (Some (svc_id s)) (renewal_description s)
    (svc_currency s) 1 (svc_recurringAmount s) 0 0 (svc_recurringAmount s)
    (Some from) (Some to).
Definition add_on_line (from to : Z) (index : nat) (i : OrderItem) (invoiceId id : string)
    : InvoiceItem :=
  MkInvoiceItem id invoiceId (Z.of_nat index + 2) (Some (oi_id i)) None
    ("Renewal: " ++ oi_productNameSnapshot i)%string (oi_currency i) (oi_quantity i)
    (oi_unitAmount i) 0 0 (oi_lineTotal i) (Some from) (Some to).
Definition renewal_lines (s : Service) (addOns : list OrderItem) (from to : Z)
    : list (string → string → InvoiceItem) :=
  hosting_line s from to :: imap (add_on_line from to) addOns.
Definition renewal_key (serviceId : string) (from : Z) : string :=
  ("renewal:" ++ serviceId ++ ":" ++ to_ISO_string from)%string.
(** A line of the service for exactly the period. *)
Definition bills_period (serviceId : string) (from to : Z) (r : InvoiceItem) : bool :=
  bool_decide (service_period r = Some (serviceId, from, to)).
Definition customer_gone (c : Customer) : bool :=
  bool_decide (is_Some (cus_deletedAt c)) || bool_decide (is_Some (usr_deletedAt c)).

Section processor.
Context `{ZodFormats} (valid_time_zone : string → bool) `{TimeZones}.

Definition renewal_row (s : Service) (customer : Customer) (identity : json)
    (invoiceNumber id : string) (from dueAt now created total : Z) : Invoice :=
  let paid := total =? 0 in
  MkInvoice id invoiceNumber (renewal_key (svc_id s) from)
    (svc_customerId s) None
    (if paid then InvoiceStatus.PAID else InvoiceStatus.UNPAID) (svc_currency s)
    total 0 0 total 0 0 total (customer_name customer) (usr_email customer)
    (address_json customer) identity (tax_identity customer) (Some now) dueAt
    (if paid then Some now else None) None created created.
Definition create_lines (id : string) (lines : list (string → string → InvoiceItem)) : Io unit :=
  for_each lines (λ line, itemId ← random_uuid; create_invoice_item (line id itemId)).
Definition write_renewal (s : Service) (customer : Customer) (addOns : list OrderItem)
    (from to dueAt now : Z) (identity : json) (automationRunId : string) : Io unit :=
  let total := renewal_total s addOns in
  invoiceNumber ← allocateInvoiceNumber;
  id ← random_uuid;
  created ← new_date;
  _ ← create_invoice (renewal_row s customer identity invoiceNumber id from dueAt now
                        created total);
  _ ← create_lines id (renewal_lines s addOns from to);
  _ ← when (total =? 0) (update_service (svc_id s) (λ s, s <| svc_nextDueAt := to |>));
  _ ← create_outbox "INVOICE" id "EMAIL_INVOICE_CREATED"
        ("email:invoice-created:" ++ id)%string
        (JObj [("schemaVersion", JNum 1); ("invoiceId", JStr id)]);
  log_activity (MkActivityLog None "RENEWAL_INVOICE_CREATED_BY_AUTOMATION" "INVOICE"
    (Some id) (Some automationRunId) None
    (JObj [("serviceId", JStr (svc_id s)); ("periodStart", JStr (to_ISO_string from));
           ("periodEnd", JStr (to_ISO_string to))])).
(** A service whose customer row is missing is an error of the query (the
    relation is required); an invalid period end is refused by the next query. *)
Definition createRenewalInvoice_tx (serviceId automationRunId : string) (now : Z)
    : Io bool :=
  _ ← lock_row "services" serviceId;
  found ← read (λ d, services d !! serviceId);
  match found with
  | None => mret false
  | Some s =>
      customer ← read (λ d, customers d !! svc_customerId s);
      customer ← lift (of_option (JsError "Inconsistent query result") customer);
      cancelled ← read (cancellation_pending (svc_id s));
      if negb (live (svc_status s)) || customer_gone customer || cancelled then mret false
      else
        period ← lift (of_option ZodError
                        (hostingBillingPeriodSchema (svc_billingPeriod s)));
        let periodStart := svc_nextDueAt s in
        periodEnd ← lift (of_option (RangeError "Invalid time value")
                            (addBillingPeriod periodStart period));
        let dueAt := if periodStart <? now then now else periodStart in
        existing ← read (λ d, rows (bills_period serviceId periodStart periodEnd)
                                (invoiceItems d));
        if negb (bool_decide (existing = [])) then mret false
        else
          addOns ← read (renewal_add_ons s period);
          setting ← find_setting "business.identity";
          _ ← require (renewal_total s addOns <=? POSTGRES_BIGINT_MAX)
                (JsError "Renewal invoice total exceeds the supported range.");
          _ ← write_renewal s customer addOns periodStart periodEnd dueAt now
                (worker_identity (default JUndefined setting)) automationRunId;
          mret true
  end.
Definition createRenewalInvoice (serviceId automationRunId : string) (now : Z) : Io bool :=
  catch (transaction (createRenewalInvoice_tx serviceId automationRunId now))
    (λ error, if is_unique_violation error then mret false else throw error).

Definition createDueInvoices (automationRunId : string)
    (policy : RenewalAutomationPolicy) : Counted unit :=
  now ← on_world new_date;
  let currentDate := businessDate now (po_timeZone policy) in
  let broadCutoff := now + (po_invoiceLeadDays policy + 2) * 86400000 in
  due ← on_world (read (due_services broadCutoff));
  for_each due (λ service,
    invoiceDate ← lift (addBusinessDays
                    (businessDate (svc_nextDueAt service) (po_timeZone policy))
                    (- po_invoiceLeadDays policy));
    if isOnOrAfter currentDate invoiceDate
    then attempt (createRenewalInvoice (svc_id service) automationRunId now)
    else mret tt).

(** ** Reminders, overdue notices and suspensions *)
Definition createReminders (invoiceId : string) (dueAt : Z)
    (policy : RenewalAutomationPolicy) : Counted unit :=
  now ← on_world new_date;
  let currentDate := businessDate now (po_timeZone policy) in
  let dueDate := businessDate dueAt (po_timeZone policy) in
  if negb (String.leb currentDate dueDate) then mret tt
  else
    let reminders := merge_sort Z.ge (po_reminderDaysBeforeDue policy) in
    for_each (imap pair reminders) (λ '(index, days),
      from ← lift (addBusinessDays dueDate (- days));
      if isOnOrAfter currentDate from then
        attempt (
          created ← create_outbox_skip "INVOICE" invoiceId "EMAIL_RENEWAL_REMINDER"
            ("email:renewal-reminder:" ++ invoiceId ++ ":" ++ Z_to_string days)%string
            (JObj [("schemaVersion", JNum 1); ("invoiceId", JStr invoiceId);
                   ("reminderNumber", JNum (Z.of_nat index + 1))]);
          mret (created =? 1))
      else mret tt).

Definition overdue_at (now : Z) (r : Invoice) : bool :=
  (inv_status r ==b InvoiceStatus.UNPAID) && (0 <? inv_balanceDue r) &&
  (inv_dueAt r <=? now).
Definition markOverdue_tx (invoiceId automationRunId : string) (now : Z) : Io bool :=
  changed ← update_invoice_if invoiceId (overdue_at now)
              (λ r, r <| inv_status := InvoiceStatus.OVERDUE |>);
  if changed =? 0 then mret false
  else
    _ ← create_outbox "INVOICE" invoiceId "EMAIL_OVERDUE_NOTICE"
          ("email:overdue-notice:" ++ invoiceId)%string
          (JObj [("schemaVersion", JNum 1); ("invoiceId", JStr invoiceId)]);
    _ ← log_activity (MkActivityLog None "INVOICE_MARKED_OVERDUE_BY_AUTOMATION" "INVOICE"
          (Some invoiceId) (Some automationRunId) None JNull);
    mret true.
Definition markOverdue (invoiceId automationRunId : string) (now : Z) : Io bool :=
  transaction (markOverdue_tx invoiceId automationRunId now).
Definition requestSuspension (serviceId invoiceId automationRunId : string) : Io bool :=
  payload ← lift (hosting_payload serviceId invoiceId automationRunId);
  created ← create_outbox_skip "SERVICE" serviceId "HOSTING_SUSPENSION_REQUESTED"
    ("automation:suspend:" ++ serviceId ++ ":" ++ invoiceId)%string payload;
  mret (created =? 1).

(** The query's joined rows are a snapshot; the lines come in the table's
    order, which the query leaves open. *)
Definition service_lines (invoiceId : string) (d : Db) : list (InvoiceItem * option Service) :=
  (λ item, (item, i ← ii_serviceId item; services d !! i)) <$>
  rows (λ r, String.eqb (ii_invoiceId r) invoiceId &&
             bool_decide (is_Some (ii_serviceId r))) (invoiceItems d).
Definition due_before (a b : Invoice) : Prop :=
  inv_dueAt a < inv_dueAt b ∨
  inv_dueAt a = inv_dueAt b ∧ String.leb (inv_id a) (inv_id b) = true.
#[export] Instance due_before_dec : RelDecision due_before.
Proof. intros a b. unfold due_before. apply _. Defined.
Definition open_renewal (d : Db) (r : Invoice) : bool :=
  ((inv_status r ==b InvoiceStatus.UNPAID) || (inv_status r ==b InvoiceStatus.OVERDUE)) &&
  (0 <? inv_balanceDue r) && negb (bool_decide (service_lines (inv_id r) d = [])).
Definition open_renewals (d : Db) : list (Invoice * list (InvoiceItem * option Service)) :=
  (λ r, (r, service_lines (inv_id r) d)) <$>
  take 1000 (merge_sort due_before (rows (open_renewal d) (invoices d))).

Definition suspend_line (invoiceId automationRunId : string)
    (line : InvoiceItem * option Service) : Counted unit :=
  match line.2 with
  | Some service =>
      if svc_status service ==b ServiceStatus.ACTIVE
      then attempt (requestSuspension (svc_id service) invoiceId automationRunId)
      else mret tt
  | None => mret tt
  end.
Definition processOpenRenewals (automationRunId : string)
    (policy : RenewalAutomationPolicy) : Counted unit :=
  now ← on_world new_date;
  found ← on_world (read open_renewals);
  for_each found (λ '(invoice, items),
    _ ← when (inv_status invoice ==b InvoiceStatus.UNPAID)
          (createReminders (inv_id invoice) (inv_dueAt invoice) policy);
    let currentDate := businessDate now (po_timeZone policy) in
    let dueDate := businessDate (inv_dueAt invoice) (po_timeZone policy) in
    _ ← when (negb (String.leb currentDate dueDate))
          (attempt (markOverdue (inv_id invoice) automationRunId now));
    suspensionDate ← lift (addBusinessDays dueDate (po_gracePeriodDays policy + 1));
    if isOnOrAfter currentDate suspensionDate
    then for_each items (suspend_line (inv_id invoice) automationRunId)
    else mret tt).

(** ** The cycle *)
Definition publishedEvent (data : BackgroundJobData) : Io OutboxEvent :=
  found ← read (λ d, outboxEvents d !! job_outboxEventId data);
  event ← lift (of_option (permanent "RENEWAL_OUTBOX_REFERENCE_INVALID")
    (e ← found;
     if (out_status e ==b OutboxStatus.FAILED) ||
        negb (String.eqb (out_eventType e) (job_eventType data)) ||
        negb (String.eqb (out_aggregateType e) (job_aggregateType data)) ||
        negb (String.eqb (out_aggregateId e) (job_aggregateId data))
     then None else Some e));
  _ ← require (out_status event ==b OutboxStatus.PUBLISHED)
        (temporary "RENEWAL_OUTBOX_PUBLICATION_PENDING");
  mret event.
Definition run_finished (counters : Counters) (now : Z) (r : AutomationRun)
    : AutomationRun :=
  r <| run_status := if failed counters =? 0 then AutomationStatus.SUCCEEDED
                     else if 0 <? succeeded counters
                          then AutomationStatus.PARTIALLY_SUCCEEDED
                          else AutomationStatus.FAILED |>
    <| run_completedAt := Some now |> <| run_processedCount := processed counters |>
    <| run_succeededCount := succeeded counters |>
    <| run_failedCount := failed counters |>
    <| run_errorSummary := if 0 <? failed counters then Some "RENEWAL_ACTIONS_FAILED"
                           else None |>.
Definition finishRun (runId : string) (counters : Counters) : Io unit :=
  now ← new_date;
  update_run runId (run_finished counters now).
Definition run_failed_with (counters : Counters) (now : Z) (r : AutomationRun)
    : AutomationRun :=
  r <| run_status := AutomationStatus.FAILED |> <| run_completedAt := Some now |>
    <| run_processedCount := processed counters |>
    <| run_succeededCount := succeeded counters |>
    <| run_failedCount := Z.max 1 (failed counters) |>
    <| run_errorSummary := Some "RENEWAL_CYCLE_TEMPORARILY_UNAVAILABLE" |>.
Definition cycle_actions (runId : string) (policy : RenewalAutomationPolicy)
    : Counted unit :=
  _ ← createDueInvoices runId policy; processOpenRenewals runId policy.
Definition run_settled (s : AutomationStatus) : bool :=
  (s ==b AutomationStatus.SUCCEEDED) || (s ==b AutomationStatus.SKIPPED).
Definition processCycle (data : BackgroundJobData) : Io unit :=
  event ← publishedEvent data;
  payload ← lift (of_option (permanent "RENEWAL_CYCLE_PAYLOAD_INVALID")
    (p ← renewalCyclePayloadSchema valid_time_zone (out_payload event);
     if String.eqb (cy_automationRunId p) (job_aggregateId data) then Some p else None));
  let runId := cy_automationRunId payload in
  found ← read (λ d, automationRuns d !! runId);
  run ← lift (of_option (permanent "RENEWAL_RUN_UNAVAILABLE") found);
  if run_settled (run_status run) then mret tt
  else
    outcome ← run_counted (cycle_actions runId (cy_policy payload));
    match outcome with
    | (Err _, counters) =>
        now ← new_date;
        _ ← update_runs runId (run_failed_with counters now);
        throw (temporary "RENEWAL_CYCLE_TEMPORARILY_UNAVAILABLE")
    | (Ok _, counters) =>
        _ ← finishRun runId counters;
        require (negb (0 <? failed counters)) (temporary "RENEWAL_ACTIONS_FAILED")
    end.

(** ** Payments of renewal invoices *)
Definition paid_lines (invoiceId : string) (d : Db) : list InvoiceItem :=
  rows (λ r, String.eqb (ii_invoiceId r) invoiceId &&
             bool_decide (is_Some (ii_serviceId r))) (invoiceItems d).
(** The lines of a payment's invoice, when both are settled. *)
Definition settled_lines (paymentId invoiceId : string) (d : Db)
    : option (list InvoiceItem) :=
  payment ← payments d !! paymentId;
  if String.eqb (pay_invoiceId payment) invoiceId &&
     (pay_status payment ==b PaymentStatus.SUCCEEDED)
  then
    invoice ← invoices d !! pay_invoiceId payment;
    if (inv_status invoice ==b InvoiceStatus.PAID) && (inv_balanceDue invoice =? 0)
    then Some (paid_lines (inv_id invoice) d) else None
  else None.
(** One line: the number of actions it took. *)
Definition apply_line (paymentId invoiceId automationRunId serviceId : string)
    (periodEnd : Z) : Io Z :=
  _ ← lock_row "services" serviceId;
  found ← read (λ d, services d !! serviceId);
  match found with
  | None => mret 0
  | Some service =>
      let advance := svc_nextDueAt service <? periodEnd in
      _ ← when advance (update_service (svc_id service)
                          (λ s, s <| svc_nextDueAt := periodEnd |>));
      requested ←
        (if (svc_status service ==b ServiceStatus.SUSPENDED) &&
            bool_decide (svc_suspensionInvoiceId service = Some invoiceId)
         then payload ← lift (hosting_payload (svc_id service) invoiceId automationRunId);
              create_outbox_skip "SERVICE" (svc_id service) "HOSTING_UNSUSPENSION_REQUESTED"
                ("automation:unsuspend:" ++ svc_id service ++ ":" ++ invoiceId)%string
                payload
         else mret 0);
      _ ← when (advance || (requested =? 1))
            (log_activity (MkActivityLog None "SERVICE_RENEWAL_APPLIED_AFTER_PAYMENT"
              "SERVICE" (Some (svc_id service)) (Some automationRunId) None
              (JObj [("invoiceId", JStr invoiceId); ("paymentId", JStr paymentId)])));
      mret ((if advance then 1 else 0) + requested)
  end.
Definition applyRenewalPayment_tx (paymentId invoiceId automationRunId : string) : Io Z :=
  lines ← read (settled_lines paymentId invoiceId);
  match lines with
  | None => mret 0
  | Some items =>
      fold_each (λ processed item,
        match ii_serviceId item, ii_servicePeriodEnd item with
        | Some serviceId, Some periodEnd =>
            done ← apply_line paymentId invoiceId automationRunId serviceId periodEnd;
            mret (processed + done)
        | _, _ => mret processed
        end) 0 items
  end.
Definition applyRenewalPayment (paymentId invoiceId automationRunId : string) : Io Z :=
  transaction (applyRenewalPayment_tx paymentId invoiceId automationRunId).

Definition payment_run_key (paymentId : string) : string :=
  ("renewal-payment:" ++ paymentId)%string.
(** [automationRun.upsert] with an empty update. *)
Definition upsert_payment_run (paymentId invoiceId : string) : Io AutomationRun :=
  found ← read (λ d, find_unique (automationRuns d) run_idempotencyKey
                       (payment_run_key paymentId));
  match found with
  | Some run => mret run
  | None =>
      id ← random_uuid;
      now ← new_date;
      let run := MkAutomationRun id "renewal-payment" (payment_run_key paymentId)
        AutomationStatus.RUNNING now None 0 0 0 None
        (JObj [("invoiceId", JStr invoiceId)]) in
      _ ← create_run run;
      mret run
  end.
Definition processPayment (data : BackgroundJobData) : Io unit :=
  event ← publishedEvent data;
  payload ← lift (of_option (permanent "RENEWAL_PAYMENT_PAYLOAD_INVALID")
    (p ← renewalPaymentPayloadSchema (out_payload event);
     if String.eqb (rp_paymentId p) (job_aggregateId data) then Some p else None));
  run ← upsert_payment_run (rp_paymentId payload) (rp_invoiceId payload);
  if run_status run ==b AutomationStatus.SUCCEEDED then mret tt
  else
    catch
      (processed ← applyRenewalPayment (rp_paymentId payload) (rp_invoiceId payload)
                     (run_id run);
       now ← new_date;
       update_run (run_id run) (λ r, r
         <| run_status := AutomationStatus.SUCCEEDED |> <| run_completedAt := Some now |>
         <| run_processedCount := processed |> <| run_succeededCount := processed |>
         <| run_failedCount := 0 |> <| run_errorSummary := None |>))
      (λ _,
       now ← new_date;
       _ ← update_runs (run_id run) (λ r, r
         <| run_status := AutomationStatus.FAILED |> <| run_completedAt := Some now |>
         <| run_processedCount := 1 |> <| run_failedCount := 1 |>
         <| run_errorSummary := Some "RENEWAL_PAYMENT_TEMPORARILY_UNAVAILABLE" |>);
       throw (temporary "RENEWAL_PAYMENT_TEMPORARILY_UNAVAILABLE")).

Definition process (data : BackgroundJobData) : Io unit :=
  if String.eqb (job_eventType data) "RENEWAL_INVOICE_GENERATION_REQUESTED"
  then processCycle data
  else if String.eqb (job_eventType data) "RENEWAL_PAYMENT_COMPLETED"
  then processPayment data
  else throw (permanent "RENEWAL_EVENT_UNSUPPORTED").
End processor.
