(* ===== verification/RenewalProperties.v ===== *)
(** * What the renewals guarantee

    The counters of a cycle, invoicing a period once, applying a payment, the
    scheduler, and the moves of the ledger the automation makes. *)
From stdpp Require Import sorting.
From S2P Require Import Prelude JsString JsDate Json Money States Calendar Database InvoiceNumber InvoiceTotals Invoices BackgroundJobs Payments MapSum Ledger Settlement Orders Renewal.

(** ** Counters *)
Definition counters_ok (c : Counters) : Prop :=
  0 <= succeeded c ∧ 0 <= failed c ∧ succeeded c + failed c <= processed c.
(** [Counts m]: whether or not [m] fails, its counters stay in order. *)
Class Counts {A} (m : Counted A) : Prop :=
  counts : ∀ s, counters_ok s.2 → counters_ok (snd (m s)).2.

#[export] Instance counts_ret {A} (a : A) : Counts (mret a).
Proof. by intros s. Qed.
#[export] Instance counts_lift {A} (r : result A) : Counts (lift r).
Proof. by intros s. Qed.
#[export] Instance counts_world {A} (m : Io A) : Counts (on_world m).
Proof. intros s. unfold on_world. by destruct (m s.1). Qed.
#[export] Instance counts_bind {A B} (m : Counted A) (k : A → Counted B) :
  Counts m → (∀ a, Counts (k a)) → Counts (m ≫= k).
Proof.
  intros Hm Hk s Hs. unfold mbind, M_bind. specialize (Hm s Hs).
  destruct (m s) as [[a|e] s']; [by apply Hk|done].
Qed.
#[export] Instance counts_when b (m : Counted unit) : Counts m → Counts (when b m).
Proof. intros. destruct b; [done|]. by intros s. Qed.
#[export] Instance counts_for_each {A} (l : list A) (f : A → Counted unit) :
  (∀ a, Counts (f a)) → Counts (for_each l f).
Proof. intros. induction l; simpl; apply _. Qed.
#[export] Instance counts_attempt act : Counts (attempt act).
Proof.
  intros [w c] Hc. unfold attempt, count, catch, on_world, modify, mbind, M_bind; simpl in *.
  destruct (act w) as [[[]|e] w']; unfold counters_ok in *; simpl; lia.
Qed.
#[export] Instance counts_if {A} (b : bool) (m k : Counted A) :
  Counts m → Counts k → Counts (if b then m else k).
Proof. by destruct b. Qed.
#[global] Typeclasses Opaque for_each when lift on_world attempt.

Section cycle.
Context `{ZodFormats} `{TimeZones}.

#[export] Instance createDueInvoices_counts run policy :
  Counts (createDueInvoices run policy).
Proof. unfold createDueInvoices. apply _. Qed.
#[export] Instance createReminders_counts i due policy :
  Counts (createReminders i due policy).
Proof.
  unfold createReminders. apply counts_bind; [apply _|]. intros now. apply counts_if; [apply _|].
  apply counts_for_each. intros [index days]. apply _.
Qed.
#[export] Instance suspend_line_counts i run line : Counts (suspend_line i run line).
Proof. unfold suspend_line. destruct line as [item [service|]]; simpl; apply _. Qed.
#[export] Instance processOpenRenewals_counts run policy :
  Counts (processOpenRenewals run policy).
Proof.
  unfold processOpenRenewals. apply counts_bind; [apply _|]. intros now.
  apply counts_bind; [apply _|]. intros found.
  apply counts_for_each. intros [invoice items]. apply _.
Qed.
Lemma cycle_counters run policy w r c w' :
  run_counted (cycle_actions run policy) w = (Ok (r, c), w') → counters_ok c.
Proof.
  unfold run_counted. intros Hrun.
  assert (Counts (cycle_actions run policy)) as Hc by (unfold cycle_actions; apply _).
  specialize (Hc (w, MkCounters 0 0 0)). destruct (cycle_actions run policy _) as [r' [w1 c1]].
  simplify_eq. apply Hc. unfold counters_ok; simpl. lia.
Qed.

(** A cycle that runs to its end always records its run: its counters pass
    the CHECK constraint, whatever failed on the way, and the run ends
    SUCCEEDED exactly when nothing failed. *)
Theorem finished_cycle_recorded run policy w u c w1 r
    (Hrun : run_counted (cycle_actions run policy) w = (Ok (Ok u, c), w1))
    (Hr : automationRuns (db w1) !! run = Some r) :
  ∃ w2, finishRun run c w1 = (Ok tt, w2) ∧
    automationRuns (db w2) !! run = Some (run_finished c (clock w1 (ticks w1)) r) ∧
    (run_status (run_finished c (clock w1 (ticks w1)) r) = AutomationStatus.SUCCEEDED ↔
     failed c = 0).
Proof.
  apply cycle_counters in Hrun as (?&?&?).
  assert (counts_check (run_finished c (clock w1 (ticks w1)) r) = true) as Hc.
  { unfold counts_check; simpl. rewrite !andb_true_iff, !Z.leb_le. lia. }
  eexists. split; [|split].
  - unfold finishRun, update_run, update_runs, new_date, read, write, require, lift, gets,
      modify, mbind, M_bind. simpl. rewrite Hr. simpl. by rewrite Hc.
  - simpl. by rewrite lookup_insert_eq.
  - simpl. destruct (Z.eqb_spec (failed c) 0); [done|].
    by destruct (0 <? succeeded c).
Qed.

(** A cycle whose actions throw before any of them has failed cannot record
    its failure: the update counts one failure more than it processed, the CHECK
    constraint automation_runs_counts_check refuses it, the run keeps its status
    and the error that leaves [processCycle] is the constraint's, not the
    temporary error meant for the queue. *)
Theorem early_failure_unrecorded valid_time_zone data event payload run w w1 e c
    (Hevent : publishedEvent data w = (Ok event, w))
    (Hpayload : renewalCyclePayloadSchema valid_time_zone (out_payload event) = Some payload)
    (Hid : cy_automationRunId payload = job_aggregateId data)
    (Hrun : automationRuns (db w) !! cy_automationRunId payload = Some run)
    (Hopen : run_settled (run_status run) = false)
    (Hactions : run_counted (cycle_actions (cy_automationRunId payload) (cy_policy payload)) w
                = (Ok (Err e, c), w1))
    (Hfailed : failed c = 0) (Hall : processed c = succeeded c)
    (Hkept : automationRuns (db w1) !! cy_automationRunId payload = Some run) :
  fst (processCycle valid_time_zone data w) = Err check_violation ∧
  db (snd (processCycle valid_time_zone data w)) = db w1.
Proof.
  rewrite Hid in *. unfold processCycle, mbind, M_bind. rewrite Hevent.
  unfold mbind, option_bind. rewrite Hpayload, Hid, String.eqb_refl. simpl.
  unfold read, gets. rewrite Hid, Hrun.
  simpl. rewrite Hopen. unfold mbind, M_bind. rewrite Hactions.
  unfold new_date, update_runs, read, gets, mbind, M_bind. simpl. rewrite Hkept.
  assert (counts_check (run_failed_with c (clock w1 (ticks w1)) run) = false) as Hcheck.
  { unfold counts_check; simpl. apply andb_false_iff. right. apply Z.leb_gt. lia. }
  unfold require, lift. simpl in *. by rewrite Hcheck.
Qed.
End cycle.

(** ** A sample: one hosting service with an add-on, on a monthly bill *)
Definition sample_zones : TimeZones := λ _ _, 0.
Definition sample_customer : Customer :=
  MkCustomer "CUS-1" None CustomerStatus.ACTIVE None "Ada" "Byron" None "1 Road" None "Dhaka" None None
    "BD" None "u" "ada@example.test" UserStatus.ACTIVE None (Some 0).
Definition sample_service (status : ServiceStatus) (nextDueAt : Z) (amount : Z) : Service :=
  MkService "s" "c" (Some "hosting") "p" "pp" "server" status (Some "a.test") "Starter" None
    JNull (Some "ada") (Some "a-1") BillingPeriod.MONTHLY amount "BDT" 0 nextDueAt (Some 0)
    None None (Some "i") None None None None None None 0 0.
Definition sample_item (id : string) (kind : ProductKind) (amount : Z) : OrderItem :=
  MkOrderItem id "o" kind "p" "pp" id None BillingPeriod.MONTHLY "BDT" amount 0 1 amount None
    JNull (Some 0) None 0.
(** 1 March 2026, 00:00 UTC, and the clock one day before. *)
Definition sample_due : Z := 1772323200000.
Definition sample_run (status : AutomationStatus) : AutomationRun :=
  MkAutomationRun "r" "renewal-cycle" (cycle_key "2026-02-28") status 0 None 0 0 0 None JNull.
Definition sample_event : OutboxEvent :=
  MkOutboxEvent "e" "AUTOMATION_RUN" "r" "RENEWAL_INVOICE_GENERATION_REQUESTED" "k"
    (JObj [("schemaVersion", JNum 1); ("automationRunId", JStr "r");
           ("businessDate", JStr "2026-02-28"); ("scheduledFor", JStr "2026-02-28T00:00:00.000Z");
           ("policy", policy_json DEFAULT_RENEWAL_AUTOMATION_POLICY)])
    OutboxStatus.PUBLISHED 1 0 None None (Some 0) None 0 0.
Definition sample_job : BackgroundJobData :=
  MkJob "e" "AUTOMATION_RUN" "r" "RENEWAL_INVOICE_GENERATION_REQUESTED" "e" None None None.
Definition renewal_world (s : Service) : World :=
  MkWorld (empty_db <| customers := {["c" := sample_customer]} |>
             <| services := {["s" := s]} |>
             <| orderItems := {["hosting" := sample_item "hosting" ProductKind.HOSTING 1000;
                                "backup" := sample_item "backup" ProductKind.ADD_ON 200]} |>
             <| automationRuns := {["r" := sample_run AutomationStatus.RUNNING]} |>
             <| outboxEvents := {["e" := sample_event]} |>)
    (λ n, Nat.iter n (String "i") "d") 0
    (λ n, sample_due - 86400000 + Z.of_nat n) 0 [].

Lemma finished_cycle_recorded_witness :
  let w := renewal_world (sample_service ServiceStatus.ACTIVE sample_due 1000) in
  let cycle := run_counted (@cycle_actions all_formats sample_zones "r"
                 DEFAULT_RENEWAL_AUTOMATION_POLICY) w in
  ∃ w2, finishRun "r" (MkCounters 4 4 0) (snd cycle) = (Ok tt, w2) ∧
    run_status <$> automationRuns (db w2) !! "r" = Some AutomationStatus.SUCCEEDED.
Proof.
  intros w cycle.
  destruct (@finished_cycle_recorded all_formats sample_zones "r"
              DEFAULT_RENEWAL_AUTOMATION_POLICY w tt (MkCounters 4 4 0) (snd cycle)
              (sample_run AutomationStatus.RUNNING)) as (w2&H1&H2&_).
  - apply run_outcome. vm_compute. reflexivity.
  - vm_compute. reflexivity.
  - exists w2. split; [exact H1|]. rewrite H2. reflexivity.
Defined.

(** A due date of the year 999 has no four-digit business date: the cycle throws
    at its first service. *)
Lemma early_failure_unrecorded_witness :
  let w := renewal_world (sample_service ServiceStatus.ACTIVE (-30641760000000) 1000) in
  let out := @processCycle all_formats (λ _, true) sample_zones sample_job w in
  fst out = Err check_violation ∧
  run_status <$> automationRuns (db (snd out)) !! "r" = Some AutomationStatus.RUNNING.
Proof.
  intros w out.
  set (payload := MkCyclePayload "r" "2026-02-28" "2026-02-28T00:00:00.000Z"
                    DEFAULT_RENEWAL_AUTOMATION_POLICY).
  set (cycle := run_counted (@cycle_actions all_formats sample_zones "r"
                  DEFAULT_RENEWAL_AUTOMATION_POLICY) w).
  destruct (@early_failure_unrecorded all_formats sample_zones (λ _, true) sample_job
              sample_event payload (sample_run AutomationStatus.RUNNING) w (snd cycle)
              (JsError "Business date invalid") (MkCounters 0 0 0)) as [H1 H2].
  - reflexivity.
  - reflexivity.
  - reflexivity.
  - reflexivity.
  - reflexivity.
  - apply run_outcome. vm_compute. reflexivity.
  - reflexivity.
  - reflexivity.
  - reflexivity.
  - split; [exact H1|]. unfold out. rewrite H2. vm_compute. reflexivity.
Defined.

(** ** Invoicing a period *)
(** What the lines of an invoice add up to. *)
Definition invoice_line_total (invoiceId : string) (r : InvoiceItem) : Z :=
  if String.eqb (ii_invoiceId r) invoiceId then ii_lineTotal r else 0.
Definition lines_sum (invoiceId : string) (d : Db) : Z :=
  msum (invoice_line_total invoiceId) (invoiceItems d).
(** The tables a renewal writes, apart from numbering, events and logs. *)
Definition billing_tables (d : Db) :=
  (ledger_tables d, invoiceItems d, services d, customers d, orderItems d).

#[export] Instance allocate_billing : Keeps billing_tables allocateInvoiceNumber.
Proof. unfold allocateInvoiceNumber. apply _. Qed.
#[export] Instance log_billing l : Keeps billing_tables (log_activity l).
Proof. apply _. Qed.
#[export] Instance outbox_billing a b c k p : Keeps billing_tables (create_outbox a b c k p).
Proof. apply _. Qed.

Lemma create_invoice_item_Ok r w u w' :
  create_invoice_item r w = (Ok u, w') →
  invoiceItems (db w) !! ii_id r = None ∧
  w' = w <| db := db w <| invoiceItems := <[ii_id r := r]> (invoiceItems (db w)) |> |>.
Proof.
  unfold create_invoice_item, put_invoice_item. intros H.
  apply bind_Ok in H as (m&w1&Hr&H). apply read_Ok in Hr as [-> ->].
  apply bind_Ok in H as (?&w2&Hr&H). apply require_Ok in Hr as [Hb ->].
  apply write_Ok in H as ->. split_bool. done.
Qed.
Lemma create_lines_Ok id lines w u w' :
  create_lines id lines w = (Ok u, w') →
  (∃ m, db w' = db w <| invoiceItems := m |>) ∧
  invoiceItems (db w) ⊆ invoiceItems (db w') ∧
  (∀ f, Forall (λ line, ∀ i j, f (line id i) = f (line id j)) lines →
     msum f (invoiceItems (db w')) =
       msum f (invoiceItems (db w)) + sum_of (λ line, f (line id "")) lines) ∧
  Forall (λ line, ∃ i, invoiceItems (db w') !! ii_id (line id i) = Some (line id i)) lines.
Proof.
  unfold create_lines. revert w. induction lines as [|line lines IH]; intros w Hrun.
  - simpl in Hrun. apply ret_Ok in Hrun as [_ ->]. split_and!; [|done|simpl; lia|done].
    exists (invoiceItems (db w)). by destruct w as [[] ? ? ? ? ?].
  - simpl in Hrun. apply bind_Ok in Hrun as ([]&w1&Hl&Hrun).
    apply bind_Ok in Hl as (i&w2&Hi&Hl). apply random_uuid_Ok in Hi as [_ ->].
    apply create_invoice_item_Ok in Hl as [Hnew ->].
    destruct (IH _ Hrun) as ([m Hm]&Hsub&Hsum&Hall). simpl in *.
    assert (invoiceItems (db w) ⊆ invoiceItems (db w')) as Hsub'.
    { etrans; [by apply insert_subseteq|exact Hsub]. }
    split_and!; [by exists m|done| |constructor; [|done]].
    + intros f [Hf Hfs]%Forall_cons_1. rewrite Hsum, msum_insert, (Hf i "") by done. lia.
    + exists i. refine (lookup_weaken _ _ _ _ _ Hsub). apply lookup_insert_eq.
Qed.

(** The rows of a table that gains one. *)
Lemma filter_perm {R} (p : R → bool) (l k : list R) :
  l ≡ₚ k → List.filter p l ≡ₚ List.filter p k.
Proof.
  induction 1 as [|x l k _ IH|x y l|l k m _ IH1 _ IH2]; simpl; [done| | |by etrans].
  - destruct (p x); by rewrite ?IH.
  - destruct (p x), (p y); [constructor|done..].
Qed.
Lemma rows_insert {R} (p : R → bool) (m : gmap string R) i r :
  m !! i = None → p r = true → rows p (<[i := r]> m) ≡ₚ r :: rows p m.
Proof.
  intros Hi Hp. unfold rows.
  rewrite (filter_perm p _ ((i, r) :: map_to_list m).*2) by (by rewrite map_to_list_insert).
  simpl. by rewrite Hp.
Qed.
Lemma create_lines_rows p id lines w u w' :
  Forall (λ line, ∀ i, p (line id i) = true ∧ ii_id (line id i) = i) lines →
  create_lines id lines w = (Ok u, w') →
  ∃ ids, length ids = length lines ∧
    rows p (invoiceItems (db w')) ≡ₚ
      zip_with (λ line i, line id i) lines ids ++ rows p (invoiceItems (db w)) ∧
    invoiceItems (db w) ⊆ invoiceItems (db w') ∧
    ∀ k l, invoiceItems (db w') !! k = Some l → invoiceItems (db w) !! k = Some l ∨ p l = true.
Proof.
  unfold create_lines. revert w. induction lines as [|line lines IH]; intros w Hp Hrun.
  - simpl in Hrun. apply ret_Ok in Hrun as [_ ->]. exists []. split_and!; [done..|eauto].
  - apply Forall_cons_1 in Hp as [Hline Hp].
    simpl in Hrun. apply bind_Ok in Hrun as ([]&w1&Hl&Hrun).
    apply bind_Ok in Hl as (i&w2&Hi&Hl). apply random_uuid_Ok in Hi as [_ ->].
    apply create_invoice_item_Ok in Hl as [Hnew ->]. destruct (Hline i) as [Hpi Hii].
    rewrite Hii in *.
    destruct (IH _ Hp Hrun) as (ids&Hlen&Hperm&Hsub&Hall). simpl in *.
    exists (i :: ids). simpl. split_and!; [by rewrite Hlen| | |].
    + rewrite Hperm, rows_insert by done. by rewrite Permutation_middle.
    + etrans; [by apply insert_subseteq|exact Hsub].
    + intros k l Hk. destruct (Hall k l Hk) as [Hins|]; [|by right].
      apply lookup_insert_Some in Hins as [[_ <-]|[_ Hold]]; [by right|by left].
Qed.

Lemma renewal_add_ons_elem s period d i :
  i ∈ renewal_add_ons s period d ↔
  ∃ h hosting, svc_orderItemId s = Some h ∧ orderItems d !! h = Some hosting ∧
    add_on_renews (oi_orderId hosting) (of_hosting_period period) (svc_currency s)
      (svc_nextDueAt s) i = true ∧
    ∃ k, orderItems d !! k = Some i.
Proof.
  unfold renewal_add_ons. split.
  - intros Hi. destruct (_ ≫= _) as [hosting|] eqn:Hh; [|by apply not_elem_of_nil in Hi].
    apply bind_Some in Hh as (h&Hs&Hh). rewrite merge_sort_Permutation in Hi.
    apply elem_rows in Hi as [Hb Hk]. by exists h, hosting.
  - intros (h&hosting&Hs&Hh&Hb&Hk). rewrite Hs. simpl. rewrite Hh, merge_sort_Permutation.
    by apply elem_rows.
Qed.
Lemma renewal_total_sum s addOns :
  renewal_total s addOns = svc_recurringAmount s + sum_of oi_lineTotal addOns.
Proof.
  unfold renewal_total. generalize (svc_recurringAmount s).
  induction addOns as [|i l IH]; intros z; simpl; [lia|]. rewrite IH. lia.
Qed.
Lemma renewal_lines_sum s addOns from to id :
  sum_of (λ line : string → string → InvoiceItem, invoice_line_total id (line id ""))
    (renewal_lines s addOns from to) = renewal_total s addOns.
Proof.
  rewrite renewal_total_sum. simpl. unfold invoice_line_total at 1. simpl.
  rewrite String.eqb_refl. f_equal.
  assert (∀ k, sum_of (λ line : string → string → InvoiceItem,
      invoice_line_total id (line id "")) (imap (λ n, add_on_line from to (k + n)) addOns) =
      sum_of oi_lineTotal addOns) as Hk; [|apply (Hk 0%nat)].
  induction addOns as [|i l IH]; intros k; simpl; [done|].
  unfold invoice_line_total at 1. simpl. rewrite String.eqb_refl. f_equal.
  rewrite <- (IH (S k)). f_equal. apply imap_ext. intros j x _. simpl. f_equal. lia.
Qed.
Lemma renewal_lines_stable s addOns from to id inv :
  Forall (λ line, ∀ i j, invoice_line_total inv (line id i) = invoice_line_total inv (line id j))
    (renewal_lines s addOns from to).
Proof.
  constructor; [done|]. apply Forall_lookup. intros n line Hl.
  rewrite list_lookup_imap in Hl. apply fmap_Some in Hl as (i&_&->). done.
Qed.

(** The invoice of a renewal. *)
Definition renewal_invoice (s : Service) (from dueAt now total : Z) (r : Invoice) : Prop :=
  inv_submissionKey r = renewal_key (svc_id s) from ∧ inv_customerId r = svc_customerId s ∧
  inv_currency r = svc_currency s ∧ inv_dueAt r = dueAt ∧ inv_issuedAt r = Some now ∧
  account_of r = MkAccount total 0 0 total
    (if total =? 0 then InvoiceStatus.PAID else InvoiceStatus.UNPAID).

(** A line of the invoice for one period. *)
Definition period_line (r : Invoice) (position : Z) (item service : option string)
    (description currency : string) (quantity unitAmount total from to : Z)
    (l : InvoiceItem) : Prop :=
  ii_invoiceId l = inv_id r ∧ ii_linePosition l = position ∧ ii_orderItemId l = item ∧
  ii_serviceId l = service ∧ ii_descriptionSnapshot l = description ∧
  ii_currency l = currency ∧ ii_quantity l = quantity ∧ ii_unitAmount l = unitAmount ∧
  ii_discountAmount l = 0 ∧ ii_taxAmount l = 0 ∧ ii_lineTotal l = total ∧
  ii_servicePeriodStart l = Some from ∧ ii_servicePeriodEnd l = Some to.
(** The add-ons that still renew with the service: of its order, its billing period and
    currency, delivered, and not ended by the due date. *)
Definition renews_with (s : Service) (d : Db) (i : OrderItem) : Prop :=
  ∃ h hosting k, svc_orderItemId s = Some h ∧ orderItems d !! h = Some hosting ∧
    orderItems d !! k = Some i ∧ oi_orderId i = oi_orderId hosting ∧
    oi_kind i = ProductKind.ADD_ON ∧ oi_billingPeriod i = svc_billingPeriod s ∧
    oi_currency i = svc_currency s ∧ is_Some (oi_fulfilledAt i) ∧
    ∀ t, oi_renewalEndsAt i = Some t → svc_nextDueAt s < t.
Definition shown_domain (domain : option string) : string :=
  match domain with
  | None | Some EmptyString => ""
  | Some d => " (" ++ d ++ ")"
  end%string.
(** The lines of a renewal: the service's, then one for each of its add-ons. *)
Definition renewal_billing (s : Service) (addOns : list OrderItem) (from to : Z)
    (r : Invoice) (d d' : Db) : Prop :=
  (∃ hosting others,
     rows (λ l, String.eqb (ii_invoiceId l) (inv_id r)) (invoiceItems d') ≡ₚ hosting :: others ∧
     period_line r 1 None (Some (svc_id s))
       ("Renewal: " ++ svc_productNameSnapshot s ++ shown_domain (svc_domain s))%string
       (svc_currency s) 1 (svc_recurringAmount s) (svc_recurringAmount s) from to hosting ∧
     length others = length addOns ∧
     ∀ n i, addOns !! n = Some i → ∃ l, others !! n = Some l ∧
       period_line r (Z.of_nat n + 2) (Some (oi_id i)) None
         ("Renewal: " ++ oi_productNameSnapshot i)%string (oi_currency i) (oi_quantity i)
         (oi_unitAmount i) (oi_lineTotal i) from to l) ∧
  invoiceItems d ⊆ invoiceItems d' ∧
  ∀ k l, invoiceItems d' !! k = Some l → invoiceItems d !! k = Some l ∨ ii_invoiceId l = inv_id r.
Lemma renews_with_elem s period d i :
  hostingBillingPeriodSchema (svc_billingPeriod s) = Some period →
  i ∈ renewal_add_ons s period d ↔ renews_with s d i.
Proof.
  intros Hp. rewrite renewal_add_ons_elem. unfold renews_with, add_on_renews.
  assert (of_hosting_period period = svc_billingPeriod s) as ->
    by (by destruct (svc_billingPeriod s); simpl in Hp; simplify_eq).
  split.
  - intros (h&hosting&Hs&Hh&Hb&k&Hk). split_bool. exists h, hosting, k.
    split_and!; try done; [by apply String.eqb_eq..|].
    intros t Ht. rewrite Ht in *. by apply Z.ltb_lt.
  - intros (h&hosting&k&Hs&Hh&Hk&Ho&Hkind&Hbp&Hc&Hf&Hends). exists h, hosting.
    split_and!; [done|done| |by exists k].
    rewrite !andb_true_iff, !bool_decide_eq_true, !String.eqb_eq. split_and!; try done.
    destruct (oi_renewalEndsAt i) as [t|]; [|done]. by apply Z.ltb_lt, Hends.
Qed.

Section invoicing.
Context `{ZodFormats}.

Lemma create_invoice_Ok r w u w' :
  create_invoice r w = (Ok u, w') →
  invoices (db w) !! inv_id r = None ∧
  w' = w <| db := db w <| invoices := <[inv_id r := r]> (invoices (db w)) |> |>.
Proof.
  unfold create_invoice, put_invoice. intros H'.
  apply bind_Ok in H' as (m&w1&Hr&H'). apply read_Ok in Hr as [-> ->].
  apply bind_Ok in H' as (?&w2&Hr&H'). apply require_Ok in Hr as [Hb ->].
  apply write_Ok in H' as ->. split_bool. done.
Qed.
Lemma alter_known {A} (f : A → A) i (m : gmap string A) a :
  m !! i = Some a → alter f i m = <[i := f a]> m.
Proof.
  intros Ha. apply map_eq. intros j. rewrite lookup_alter, lookup_insert.
  destruct (decide _) as [<-|]; [by rewrite Ha|done].
Qed.
Lemma renewal_row_invoice s customer identity n i from dueAt now t total :
  renewal_invoice s from dueAt now total
    (renewal_row s customer identity n i from dueAt now t total).
Proof. by split_and!. Qed.

(** What the writes of a renewal leave in the tables. *)
Lemma write_renewal_Ok s customer addOns from to dueAt now identity run w u w' :
  services (db w) !! svc_id s = Some s →
  write_renewal s customer addOns from to dueAt now identity run w = (Ok u, w') →
  let total := renewal_total s addOns in
  ∃ r m t, renewal_invoice s from dueAt now total r ∧ invoices (db w) !! inv_id r = None ∧
    (∃ v v', create_lines (inv_id r) (renewal_lines s addOns from to) v = (Ok tt, v') ∧
       invoiceItems (db v) = invoiceItems (db w) ∧ invoiceItems (db v') = m) ∧
    billing_tables (db w') =
      (<[inv_id r := r]> (invoices (db w)), payments (db w), m,
       (if total =? 0 then <[svc_id s := s <| svc_nextDueAt := to |> <| svc_updatedAt := t |>]>
        else λ x, x) (services (db w)), customers (db w), orderItems (db w)).
Proof.
  intros Hs Hrun total. unfold write_renewal in Hrun.
  apply bind_Ok in Hrun as (n&w1&Hn&Hrun). apply (keeps_run billing_tables) in Hn; [|apply _].
  apply bind_Ok in Hrun as (iid&w2&Hi&Hrun). apply random_uuid_Ok in Hi as [_ ->].
  apply bind_Ok in Hrun as (t&w2&Ht&Hrun). apply new_date_Ok in Ht as [_ ->].
  apply bind_Ok in Hrun as ([]&w3&Hc&Hrun). apply create_invoice_Ok in Hc as [Hnew ->].
  set (r := renewal_row _ _ _ _ _ _ _ _ _ _) in *.
  apply bind_Ok in Hrun as ([]&w4&Hl&Hrun).
  destruct (create_lines_Ok _ _ _ _ _ Hl) as ([m Hm]&_).
  apply bind_Ok in Hrun as ([]&w5&Hu&Hrun).
  apply bind_Ok in Hrun as ([]&w6&Ho&Hrun). apply (keeps_run billing_tables) in Ho; [|apply _].
  apply (keeps_run billing_tables) in Hrun; [|apply _].
  unfold billing_tables, ledger_tables in *. simpl in *. injection Hn as Hn1 Hn2 Hn3 Hn4 Hn5 Hn6.
  assert (Hlines : ∃ v v', create_lines (inv_id r) (renewal_lines s addOns from to) v = (Ok tt, v') ∧
    invoiceItems (db v) = invoiceItems (db w) ∧ invoiceItems (db v') = m).
  { do 2 eexists. split; [exact Hl|]. split; [exact Hn3|]. by rewrite Hm. }
  rewrite Hn1 in *. rewrite Hrun, Ho. fold total in Hu. destruct (total =? 0); simpl in Hu.
  - apply (update_service_Ok _ _ s) in Hu as [t' Hu]; [|rewrite Hm; simpl; congruence].
    exists r, m, t'. split; [apply renewal_row_invoice|]. split; [done|]. split; [exact Hlines|].
    rewrite Hu. simpl. rewrite Hm. simpl. by rewrite ?Hn1, ?Hn2, ?Hn4, ?Hn5, ?Hn6.
  - apply ret_Ok in Hu as [_ ->].
    exists r, m, 0. split; [apply renewal_row_invoice|]. split; [done|]. split; [exact Hlines|].
    rewrite Hm. simpl. by rewrite ?Hn1, ?Hn2, ?Hn4, ?Hn5, ?Hn6.
Qed.

(** The reads and guards before a renewal is written. *)
Lemma create_renewal_cases sid run now w made w' :
  createRenewalInvoice_tx sid run now w = (Ok made, w') →
  if negb made then w' = w else ∃ s customer period to identity u,
    services (db w) !! sid = Some s ∧
    live (svc_status s) = true ∧ cancellation_pending (svc_id s) (db w) = false ∧
    hostingBillingPeriodSchema (svc_billingPeriod s) = Some period ∧
    addBillingPeriod (svc_nextDueAt s) period = Some to ∧
    rows (bills_period sid (svc_nextDueAt s) to) (invoiceItems (db w)) = [] ∧
    write_renewal s customer (renewal_add_ons s period (db w)) (svc_nextDueAt s) to
      (Z.max now (svc_nextDueAt s)) now identity run w = (Ok u, w').
Proof.
  unfold createRenewalInvoice_tx. intros Hrun.
  apply bind_Ok in Hrun as (?&w1&Hl&Hrun). apply lock_row_Ok in Hl as ->.
  apply bind_Ok in Hrun as (found&w1&Hr&Hrun). apply read_Ok in Hr as [-> ->].
  destruct (services (db w) !! sid) as [s|] eqn:Hs; [|by apply ret_Ok in Hrun as [-> ->]].
  apply bind_Ok in Hrun as (?&w1&Hr&Hrun). apply read_Ok in Hr as [-> ->].
  apply bind_Ok in Hrun as (customer&w1&Hr&Hrun). apply lift_Ok in Hr as [_ ->].
  apply bind_Ok in Hrun as (?&w1&Hr&Hrun). apply read_Ok in Hr as [-> ->].
  destruct (negb (live _) || _ || _) eqn:Hg; [by apply ret_Ok in Hrun as [-> ->]|].
  apply bind_Ok in Hrun as (period&w1&Hr&Hrun). apply lift_Ok in Hr as [Hp%of_option_Ok ->].
  apply bind_Ok in Hrun as (to&w1&Hr&Hrun). apply lift_Ok in Hr as [Ht%of_option_Ok ->].
  apply bind_Ok in Hrun as (found&w1&Hr&Hrun). apply read_Ok in Hr as [-> ->].
  destruct (negb (bool_decide _)) eqn:He; [by apply ret_Ok in Hrun as [-> ->]|].
  apply bind_Ok in Hrun as (?&w1&Hr&Hrun). apply read_Ok in Hr as [-> ->].
  apply bind_Ok in Hrun as (?&w1&Hr&Hrun). apply read_Ok in Hr as [-> ->].
  apply bind_Ok in Hrun as (?&w1&Hr&Hrun). apply require_Ok in Hr as [_ ->].
  apply bind_Ok in Hrun as (u&w1&Hw&Hrun). apply ret_Ok in Hrun as [-> ->].
  split_bool. exists s, customer, period, to. do 2 eexists. split_and!; try done.
  replace (Z.max now (svc_nextDueAt s)) with
    (if svc_nextDueAt s <? now then now else svc_nextDueAt s); [exact Hw|].
  destruct (Z.ltb_spec (svc_nextDueAt s) now); lia.
Qed.

(** A renewal that is not made leaves no trace. *)
Lemma renewal_not_made sid run now w :
  createRenewalInvoice_tx sid run now w ≠
    (Ok true, snd (createRenewalInvoice_tx sid run now w)) →
  fst (createRenewalInvoice sid run now w) ≠ Ok true ∧
  db (snd (createRenewalInvoice sid run now w)) = db w.
Proof.
  intros Hnot. unfold createRenewalInvoice, catch, transaction.
  destruct (createRenewalInvoice_tx sid run now w) as [[made|e] w1] eqn:Htx.
  - apply create_renewal_cases in Htx. destruct made; simpl in *; [done|]. by subst.
  - destruct (is_unique_violation e); by split.
Qed.

(** The rows that creating the lines of a renewal adds. *)
Lemma lines_billed s addOns from to r v u v' :
  (∀ k l, invoiceItems (db v) !! k = Some l → ii_invoiceId l ≠ inv_id r) →
  create_lines (inv_id r) (renewal_lines s addOns from to) v = (Ok u, v') →
  renewal_billing s addOns from to r (db v) (db v').
Proof.
  intros Hnone Hl.
  apply (create_lines_rows (λ l, String.eqb (ii_invoiceId l) (inv_id r))) in Hl
    as (ids&Hlen&Hrows&Hsub&Hall).
  2: { constructor; [intros i; by rewrite String.eqb_refl|].
       apply Forall_lookup. intros n line Hline.
       rewrite list_lookup_imap in Hline. apply fmap_Some in Hline as (i&_&->).
       intros j. by rewrite String.eqb_refl. }
  split; [|split; [exact Hsub|intros k l Hk; destruct (Hall k l Hk) as [|He];
    [by left|right; by apply String.eqb_eq]]].
  destruct (rows _ (invoiceItems (db v))) as [|x xs] eqn:Hv.
  2: { assert (x ∈ rows (λ l, String.eqb (ii_invoiceId l) (inv_id r)) (invoiceItems (db v)))
         as Hin by (rewrite Hv; left).
       apply elem_rows in Hin as [He [k Hk]]. apply String.eqb_eq in He. by destruct (Hnone k x). }
  rewrite app_nil_r in Hrows. destruct ids as [|i ids]; [done|]. simpl in Hrows, Hlen.
  do 2 eexists. split; [exact Hrows|].
  split; [split_and!; try done; simpl; unfold renewal_description; by destruct (svc_domain s) as [[]|]|].
  rewrite length_imap in Hlen. injection Hlen as Hlen.
  split; [rewrite length_zip_with, length_imap; lia|].
  intros n item Hn. destruct (lookup_lt_is_Some_2 ids n) as [j Hj].
  { rewrite Hlen. by eapply lookup_lt_Some. }
  exists (add_on_line from to n item (inv_id r) j). split; [|by split_and!].
  apply lookup_zip_with_Some. exists (add_on_line from to n item), j.
  split_and!; [done|by rewrite list_lookup_imap, Hn|done].
Qed.

(** C31: a renewal that is made bills the service for exactly the period from its
    due date to the next: one new invoice, for the recurring amount and the
    add-ons of the order that still renew, due on the due date or, late, on the
    day it is issued.  Its lines are the service's and one for each of those add-ons,
    each for that period and with its own amount, and no other line is written; they
    add up to the total.  An invoice of zero is paid at once and moves the due date,
    any other leaves it. *)
Theorem renewal_invoice_exact sid run now w w'
    (Hkeys : ∀ i s, services (db w) !! i = Some s → svc_id s = i)
    (Hlines : ∀ i l, invoiceItems (db w) !! i = Some l →
                is_Some (invoices (db w) !! ii_invoiceId l))
    (Hrun : createRenewalInvoice_tx sid run now w = (Ok true, w')) :
  ∃ s period to r t addOns, services (db w) !! sid = Some s ∧
    hostingBillingPeriodSchema (svc_billingPeriod s) = Some period ∧
    addBillingPeriod (svc_nextDueAt s) period = Some to ∧
    (∀ i, i ∈ addOns ↔ renews_with s (db w) i) ∧
    let total := svc_recurringAmount s + sum_of oi_lineTotal addOns in
    renewal_invoice s (svc_nextDueAt s) (Z.max now (svc_nextDueAt s)) now total r ∧
    invoices (db w) !! inv_id r = None ∧
    invoices (db w') = <[inv_id r := r]> (invoices (db w)) ∧
    renewal_billing s addOns (svc_nextDueAt s) to r (db w) (db w') ∧
    lines_sum (inv_id r) (db w') = total ∧
    services (db w') =
      (if total =? 0 then <[sid := s <| svc_nextDueAt := to |> <| svc_updatedAt := t |>]>
       else λ x, x) (services (db w)).
Proof.
  apply create_renewal_cases in Hrun as (s&customer&period&to&identity&u&Hs&_&_&Hp&Ht&_&Hw).
  pose proof (Hkeys _ _ Hs) as Hid. exists s, period, to.
  apply write_renewal_Ok in Hw as (r&m&t&Hr&Hnew&(v&v'&Hl&Hv&Hv')&Htables); [|by rewrite Hid].
  rewrite renewal_total_sum, Hid in *. injection Htables as Hi _ Hm Hsv _ _.
  exists r, t, (renewal_add_ons s period (db w)). cbv zeta.
  assert (∀ l, is_Some (invoiceItems (db w) !! l) → ∀ x, invoiceItems (db w) !! l = Some x →
            ii_invoiceId x ≠ inv_id r) as Hother.
  { intros l _ x Hx Heq. destruct (Hlines _ _ Hx) as [? ?]. congruence. }
  split_and!; [done|done|done|intros i; by apply renews_with_elem|done|done|done| | |exact Hsv].
  - apply (lines_billed s) in Hl; [|intros k l Hk; rewrite Hv in Hk; by apply (Hother k)].
    unfold renewal_billing in *. by rewrite Hm, <- Hv', <- Hv.
  - apply create_lines_Ok in Hl as (_&_&Hsum&_).
    unfold lines_sum. rewrite Hm, <- Hv', Hsum by apply renewal_lines_stable.
    rewrite renewal_lines_sum, renewal_total_sum, Hv, msum_zero; [lia|].
    intros i l Hl. unfold invoice_line_total.
    destruct (String.eqb_spec (ii_invoiceId l) (inv_id r)); [|done].
    by destruct (Hother i ltac:(eauto) l Hl).
Qed.

(** a period is billed once: after a renewal is made, as long as its line is
    there and the service has the same due date and period, another attempt makes
    no invoice and changes nothing. *)
Theorem renewal_billed_once sid run now w w' run' now' w2
    (Hkeys : ∀ i s, services (db w) !! i = Some s → svc_id s = i)
    (Hrun : createRenewalInvoice_tx sid run now w = (Ok true, w'))
    (Hlines : invoiceItems (db w') ⊆ invoiceItems (db w2))
    (Hsame : (λ s, (svc_nextDueAt s, svc_billingPeriod s)) <$> services (db w2) !! sid =
             (λ s, (svc_nextDueAt s, svc_billingPeriod s)) <$> services (db w) !! sid) :
  fst (createRenewalInvoice sid run' now' w2) ≠ Ok true ∧
  db (snd (createRenewalInvoice sid run' now' w2)) = db w2.
Proof.
  apply create_renewal_cases in Hrun as (s&customer&period&to&identity&u&Hs&_&_&Hp&Ht&_&Hw).
  pose proof (Hkeys _ _ Hs) as Hid.
  apply write_renewal_Ok in Hw as (r&m&t&_&_&(v&v'&Hl&_&Hv')&[= _ _ Hm _ _ _]);
    [|by rewrite Hid].
  apply create_lines_Ok in Hl as (_&_&_&Hall). apply Forall_inv in Hall as [i Hi].
  assert (createRenewalInvoice_tx sid run' now' w2 ≠
          (Ok true, snd (createRenewalInvoice_tx sid run' now' w2))) as Hnot.
  { intros Htrue. apply create_renewal_cases in Htrue
      as (s2&?&period2&to2&?&?&Hs2&_&_&Hp2&Ht2&Hnone&_).
    rewrite Hs, Hs2 in Hsame. simpl in Hsame. injection Hsame as Hd Hb.
    rewrite Hb, Hp in Hp2. injection Hp2 as <-. rewrite Hd, Ht in Ht2. injection Ht2 as <-.
    apply (not_elem_of_nil (hosting_line s (svc_nextDueAt s) to (inv_id r) i)).
    rewrite <- Hnone, Hd. apply elem_rows. split.
    - apply bool_decide_eq_true. unfold service_period. simpl. by rewrite Hid.
    - exists i. eapply lookup_weaken; [|exact Hlines]. by rewrite Hm, <- Hv'. }
  by apply renewal_not_made.
Qed.
End invoicing.

(** The CHECK constraints of the amounts a renewal adds up. *)
Definition amounts_nonneg (d : Db) : Prop :=
  (∀ i s, services d !! i = Some s → svc_id s = i ∧ 0 <= svc_recurringAmount s) ∧
  (∀ i o, orderItems d !! i = Some o → 0 <= oi_lineTotal o).

Lemma renewal_total_nonneg s period d :
  amounts_nonneg d → (∃ i, services d !! i = Some s) →
  0 <= renewal_total s (renewal_add_ons s period d).
Proof.
  intros [Hs Ho] [i Hi]. destruct (Hs _ _ Hi) as [_ ?]. rewrite renewal_total_sum.
  assert (0 <= sum_of oi_lineTotal (renewal_add_ons s period d)); [|lia].
  apply sum_of_nonneg. unfold renewal_add_ons. destruct (_ ≫= _); [|constructor].
  rewrite merge_sort_Permutation. apply List.Forall_forall.
  intros x Hx%list_elem_of_In. apply elem_rows in Hx as [_ [j Hj]]. eauto.
Qed.
Lemma createRenewalInvoice_tx_posts `{ZodFormats} sid run now :
  Posts amounts_nonneg (createRenewalInvoice_tx sid run now).
Proof.
  intros w made w' Hi Hnn Hrun. apply create_renewal_cases in Hrun.
  destruct made; simpl in Hrun; [|subst; split; [apply Hi|constructor]].
  destruct Hrun as (s&customer&period&to&identity&u&Hs&_&_&Hp&Ht&_&Hw).
  destruct (proj1 Hnn _ _ Hs) as [Hid _].
  apply write_renewal_Ok in Hw as (r&m&?&(_&_&_&_&_&Hacc)&Hnew&_&[= Hinv Hpay _ _ _ _]);
    [|by rewrite Hid].
  assert (0 <= renewal_total s (renewal_add_ons s period (db w)))
    by (apply renewal_total_nonneg; eauto).
  unfold ledger_of, ledger_tables. rewrite Hinv, Hpay.
  apply posts_invoice; [apply Hi|done|]. rewrite Hacc. apply ls_open.
  - by apply account_absent.
  - unfold fresh_account; simpl. lia.
  - simpl. destruct (Z.eqb_spec (renewal_total s (renewal_add_ons s period (db w))) 0); auto.
Qed.
Lemma markOverdue_tx_posts invoiceId run now :
  Posts anywhere (markOverdue_tx invoiceId run now).
Proof.
  intros w a w' [Hk _] _ Hrun. unfold markOverdue_tx in Hrun.
  apply bind_Ok in Hrun as (n&w1&Hu&Hrun).
  assert (ledger_tables (db w') = ledger_tables (db w1)) as Ht
    by (destruct (n =? 0); eapply keeps_run; [|exact Hrun| |exact Hrun]; apply _).
  unfold ledger_of. rewrite Ht. clear Ht Hrun.
  apply update_invoice_if_tables in Hu as [[_ Ht]|(_&r&t&Hr&Hp&Ht)]; rewrite Ht.
  - split; [done|constructor].
  - unfold overdue_at in Hp. split_bool. apply posts_invoice; [done|simpl; by apply Hk|].
    match goal with |- context [account_of ?r'] =>
      change (account_of r') with (with_status InvoiceStatus.OVERDUE (account_of r)) end.
    apply ls_status; [by apply account_lookup|]. simpl. split; [done|lia].
Qed.

(** ** Applying a payment *)
Definition advance (serviceId : string) (to : Z) : gmap string Service → gmap string Service :=
  alter (λ s, s <| svc_nextDueAt := Z.max (svc_nextDueAt s) to |>) serviceId.
Definition covered (items : list InvoiceItem) : list (string * Z) :=
  omap (λ item, s ← ii_serviceId item; to ← ii_servicePeriodEnd item; Some (s, to)) items.
Definition paid_through (lines : list (string * Z)) (m : gmap string Service)
    : gmap string Service :=
  foldl (λ m line, advance line.1 line.2 m) m lines.

Definition services_keyed (m : gmap string Service) : Prop :=
  ∀ i s, m !! i = Some s → svc_id s = i.
(** What a service becomes: the furthest period end of its lines. *)
Lemma paid_through_lookup lines m i :
  paid_through lines m !! i =
    (λ s, s <| svc_nextDueAt := foldl (λ t line, if bool_decide (line.1 = i)
                                                 then Z.max t line.2 else t)
                                      (svc_nextDueAt s) lines |>) <$> m !! i.
Proof.
  revert m. induction lines as [|[j to] lines IH]; intros m; simpl.
  - by destruct (m !! i) as [[]|].
  - rewrite IH. unfold advance. rewrite lookup_alter.
    destruct (decide (j = i)) as [->|].
    + rewrite bool_decide_eq_true_2 by done. by destruct (m !! i).
    + rewrite bool_decide_eq_false_2 by done. done.
Qed.
Lemma furthest_spec (lines : list (string * Z)) i t :
  let u := foldl (λ t (line : string * Z), if bool_decide (line.1 = i) then Z.max t line.2
                                           else t) t lines in
  t <= u ∧ Forall (λ line : string * Z, line.1 = i → line.2 <= u) lines ∧
  (∀ v, t <= v → Forall (λ line : string * Z, line.1 = i → line.2 <= v) lines → u <= v).
Proof.
  revert t. induction lines as [|[j to] lines IH]; intros t; simpl; [by split_and!|].
  destruct (IH (if bool_decide (j = i) then Z.max t to else t)) as (H1&H2&H3).
  split_and!.
  - case_bool_decide; lia.
  - constructor; [|done]. simpl. intros ->. rewrite bool_decide_eq_true_2 in * by done. lia.
  - intros v Hv [Hj Hall]%Forall_cons_1. apply H3; [|done]. case_bool_decide; [|done].
    specialize (Hj ltac:(done)). simpl in Hj. lia.
Qed.

Section paying.
Context `{ZodFormats}.

#[local] Instance outbox_skip_keeps {T} (proj : Db → T) a b c k p :
  (∀ d m, proj (d <| outboxEvents := m |>) = proj d) → Keeps proj (create_outbox_skip a b c k p).
Proof.
  intros Hp. unfold create_outbox_skip, put_outbox.
  apply keeps_bind; [apply _|intros i]. apply keeps_bind; [apply _|intros now]. apply keeps_bind; [apply _|intros m].
  destruct (_ && _); [|apply keeps_ret].
  apply keeps_bind; [apply keeps_write; intros; apply Hp|intros; apply keeps_ret].
Qed.
Lemma apply_line_step paymentId invoiceId run sid to w n w' :
  services_keyed (services (db w)) →
  apply_line paymentId invoiceId run sid to w = (Ok n, w') →
  (∃ s t, services (db w) !! sid = Some s ∧ svc_nextDueAt s < to ∧
     services (db w') = <[sid := s <| svc_nextDueAt := to |> <| svc_updatedAt := t |>]>
                          (services (db w))) ∨
  (∀ s, services (db w) !! sid = Some s → to <= svc_nextDueAt s) ∧
    services (db w') = services (db w).
Proof.
  intros Hk Hrun. unfold apply_line in Hrun.
  apply bind_Ok in Hrun as (?&w1&Hl&Hrun). apply lock_row_Ok in Hl as ->.
  apply bind_Ok in Hrun as (found&w1&Hr&Hrun). apply read_Ok in Hr as [-> ->].
  destruct (services (db w) !! sid) as [s|] eqn:Hs.
  2: { apply ret_Ok in Hrun as [_ ->]. by right. }
  apply bind_Ok in Hrun as ([]&w1&Ha&Hrun).
  assert (services (db w') = services (db w1)) as ->.
  { eapply (keeps_run services); [|exact Hrun]. apply keeps_bind; intros.
    - destruct (_ && _); [|apply _].
      apply keeps_bind; [apply _|intros; by apply outbox_skip_keeps].
    - apply _. }
  rewrite (Hk _ _ Hs) in *. destruct (Z.ltb_spec (svc_nextDueAt s) to) as [Hlt|Hge]; simpl in Ha.
  - left. apply (update_service_Ok _ _ s) in Ha as [t ->]; [|done]. by exists s, t.
  - right. apply ret_Ok in Ha as [_ ->]. split; [|done]. intros ? [= <-]. done.
Qed.

(** Services without the time of their last update. *)
Definition timeless (m : gmap string Service) : gmap string Service :=
  (λ s, s <| svc_updatedAt := 0 |>) <$> m.
Lemma timeless_lookup m i s :
  timeless m !! i = Some s ↔ ∃ s', m !! i = Some s' ∧ s = s' <| svc_updatedAt := 0 |>.
Proof. unfold timeless. rewrite lookup_fmap, fmap_Some. naive_solver. Qed.
Lemma apply_line_Ok paymentId invoiceId run sid to w n w' :
  services_keyed (services (db w)) →
  apply_line paymentId invoiceId run sid to w = (Ok n, w') →
  services_keyed (services (db w')) ∧
  timeless (services (db w')) = advance sid to (timeless (services (db w))).
Proof.
  intros Hk Hrun. apply apply_line_step in Hrun as [(s&t&Hs&Hlt&->)|[Hge ->]]; [|..|done].
  - split.
    + intros i s' Hi. apply lookup_insert_Some in Hi as [[<- <-]|[_ Hi]]; [|by apply Hk].
      simpl. by apply Hk.
    + unfold timeless. rewrite fmap_insert. unfold advance.
      rewrite (alter_known _ _ _ (s <| svc_updatedAt := 0 |>)).
      * f_equal. destruct s; simpl in *. f_equal. lia.
      * by rewrite lookup_fmap, Hs.
  - split; [done|]. apply map_eq. intros i. unfold advance. rewrite lookup_alter.
    destruct (decide (sid = i)) as [<-|]; [|done].
    unfold timeless. rewrite lookup_fmap. destruct (services (db w) !! sid) as [s|]; [|done].
    simpl. f_equal. specialize (Hge s eq_refl). destruct s; simpl in *. f_equal. lia.
Qed.

Lemma apply_payment_services paymentId invoiceId run w n w' :
  services_keyed (services (db w)) →
  applyRenewalPayment_tx paymentId invoiceId run w = (Ok n, w') →
  let lines := covered (default [] (settled_lines paymentId invoiceId (db w))) in
  timeless (services (db w')) = paid_through lines (timeless (services (db w))) ∧
  ((∀ i s, services (db w) !! i = Some s →
      Forall (λ line : string * Z, line.1 = i → line.2 <= svc_nextDueAt s) lines) →
   services (db w') = services (db w)).
Proof.
  intros Hk Hrun. unfold applyRenewalPayment_tx in Hrun.
  apply bind_Ok in Hrun as (lines&w1&Hr&Hrun). apply read_Ok in Hr as [-> ->].
  destruct (settled_lines _ _ _) as [items|]; simpl; [|by apply ret_Ok in Hrun as [_ ->]].
  revert Hrun Hk. generalize 0, w. clear w. induction items as [|item items IH]; intros k w Hrun Hk.
  - by apply ret_Ok in Hrun as [_ ->].
  - simpl in Hrun. apply bind_Ok in Hrun as (k'&w1&Hl&Hrun).
    destruct (ii_serviceId item) as [sid|] eqn:Hsid, (ii_servicePeriodEnd item) as [to|] eqn:Hto.
    1: { apply bind_Ok in Hl as (done&w2&Hl&Hret). apply ret_Ok in Hret as [-> ->].
         pose proof (apply_line_step _ _ _ _ _ _ _ _ Hk Hl) as Hstep.
         apply apply_line_Ok in Hl as [Hk2 Hl]; [|done].
         destruct (IH _ _ Hrun Hk2) as [IH1 IH2].
         unfold covered. simpl. rewrite Hsid, Hto. simpl. split; [by rewrite IH1, Hl|].
         intros Hall. destruct Hstep as [(s&t&Hs&Hlt&_)|[_ Heq]].
         - specialize (Hall sid s Hs) as [Hall _]%Forall_cons_1. simpl in Hall. lia.
         - rewrite Heq in *. apply IH2. intros i s Hs.
           by specialize (Hall i s Hs) as [_ Hall]%Forall_cons_1. }
    all: apply ret_Ok in Hl as [-> ->]; unfold covered; simpl; rewrite Hsid, ?Hto; simpl;
      by apply (IH _ _ Hrun).
Qed.

(** C32: a payment that settles a renewal invoice takes every service it bills to
    the furthest period end of its lines, never back: the due date is the maximum
    of the old one and those ends, nothing else of the service changes (but the
    time of its update) and other services keep theirs; delivered again, it
    changes no service. *)
Theorem renewal_payment_exact paymentId invoiceId run w n w'
    (Hkeys : services_keyed (services (db w)))
    (Hrun : applyRenewalPayment_tx paymentId invoiceId run w = (Ok n, w')) :
  let lines := covered (default [] (settled_lines paymentId invoiceId (db w))) in
  (∀ i s, services (db w) !! i = Some s →
     ∃ t u, services (db w') !! i =
              Some (s <| svc_nextDueAt := t |> <| svc_updatedAt := u |>) ∧
       svc_nextDueAt s <= t ∧
       Forall (λ line : string * Z, line.1 = i → line.2 <= t) lines ∧
       (∀ v, svc_nextDueAt s <= v →
          Forall (λ line : string * Z, line.1 = i → line.2 <= v) lines → t <= v)) ∧
  (∀ run2 w2 n2 w3, services (db w2) = services (db w') →
     settled_lines paymentId invoiceId (db w2) = settled_lines paymentId invoiceId (db w) →
     applyRenewalPayment_tx paymentId invoiceId run2 w2 = (Ok n2, w3) →
     services (db w3) = services (db w2)).
Proof.
  intros lines. destruct (apply_payment_services _ _ _ _ _ _ Hkeys Hrun) as [Hs _].
  fold lines in Hs.
  assert (Hrow : ∀ i s', services (db w') !! i = Some s' → ∃ s,
    services (db w) !! i = Some s ∧
    s' <| svc_updatedAt := 0 |> = s <| svc_updatedAt := 0 |> <| svc_nextDueAt :=
      foldl (λ t line, if bool_decide (line.1 = i) then Z.max t line.2 else t)
            (svc_nextDueAt s) lines |>).
  { intros i s' Hi. assert (Ht : timeless (services (db w')) !! i =
      Some (s' <| svc_updatedAt := 0 |>)) by (apply timeless_lookup; eauto).
    rewrite Hs, paid_through_lookup in Ht. apply fmap_Some in Ht as (s0&H0&->).
    apply timeless_lookup in H0 as (s&H0&->). eauto. }
  split.
  - intros i s Hi.
    assert (is_Some (timeless (services (db w')) !! i)) as [s1 H1].
    { rewrite Hs, paid_through_lookup. unfold timeless. by rewrite lookup_fmap, Hi. }
    apply timeless_lookup in H1 as (s'&Hi'&_). destruct (Hrow i s' Hi') as (s0&Hi0&Heq).
    rewrite Hi in Hi0. apply (inj Some) in Hi0 as <-.
    do 2 eexists. split; [|apply (furthest_spec lines i)].
    rewrite Hi'. f_equal. instantiate (1 := svc_updatedAt s').
    destruct s', s; simpl in *. by injection Heq as -> -> -> -> -> -> -> -> -> -> -> -> -> ->
      -> -> -> -> -> -> -> -> -> -> -> -> -> -> ->.
  - intros run2 w2 n2 w3 Hs2 Hl2 Hrun2.
    assert (Hk2 : services_keyed (services (db w2))).
    { intros i s' Hi. rewrite Hs2 in Hi. destruct (Hrow i s' Hi) as (s&H0&Heq).
      apply (f_equal svc_id) in Heq. simpl in Heq. rewrite Heq. by apply Hkeys. }
    apply (apply_payment_services _ _ _ _ _ _ Hk2 Hrun2). rewrite Hl2. fold lines.
    intros i s' Hi. rewrite Hs2 in Hi. destruct (Hrow i s' Hi) as (s&_&Heq).
    apply (f_equal svc_nextDueAt) in Heq. simpl in Heq. rewrite Heq.
    by apply (furthest_spec lines i).
Qed.
End paying.

(** ** The scheduler *)
Lemma find_unique_is_Some {R K} `{EqDecision K} (m : gmap string R) (key : R → K) i r :
  m !! i = Some r → is_Some (find_unique m key (key r)).
Proof.
  intros Hr. unfold find_unique. rewrite fmap_is_Some.
  destruct (List.find _ _) as [kv|] eqn:Hf; [by eexists|exfalso].
  pose proof (List.find_none _ _ Hf (i, r)) as Hn. simpl in Hn.
  rewrite bool_decide_eq_true_2 in Hn by done. apply elem_of_map_to_list, list_elem_of_In in Hr.
  by specialize (Hn Hr).
Qed.

Section scheduling.
Context (valid_time_zone : string → bool) `{TimeZones}.

Definition policy_in_force (d : Db) : RenewalAutomationPolicy :=
  default DEFAULT_RENEWAL_AUTOMATION_POLICY
    (v ← set_value <$> settings d !! RENEWAL_POLICY_SETTING_KEY;
     renewalAutomationPolicySchema valid_time_zone v).
Definition current_date (w : World) : string :=
  businessDate (clock w (ticks w)) (po_timeZone (policy_in_force (db w))).
Definition has_run (key : string) (d : Db) : Prop :=
  ∃ i r, automationRuns d !! i = Some r ∧ run_idempotencyKey r = key.

Lemma schedule_unfold acquired w :
  scheduleCurrentCycle valid_time_zone acquired w =
  transaction (schedule_tx acquired (clock w (ticks w)) (policy_in_force (db w)) (current_date w))
    (w <| ticks := S (ticks w) |>).
Proof. reflexivity. Qed.
Lemma schedule_tx_repeated acquired now policy date w :
  has_run (cycle_key date) (db w) →
  schedule_tx acquired now policy date w = (Ok (if acquired then EXISTS else LOCKED), w).
Proof.
  intros (i&r&Hr&Hk). unfold schedule_tx. destruct acquired; [|done]. simpl.
  unfold read, gets, mbind, M_bind. simpl. rewrite <- Hk.
  by destruct (find_unique_is_Some _ run_idempotencyKey _ _ Hr) as [? ->].
Qed.
Lemma schedule_tx_created acquired now policy date w w' :
  schedule_tx acquired now policy date w = (Ok CREATED, w') →
  acquired = true ∧ ¬ has_run (cycle_key date) (db w) ∧
  ∃ r, automationRuns (db w') = <[run_id r := r]> (automationRuns (db w)) ∧
    run_idempotencyKey r = cycle_key date ∧
    run_status r = (if po_enabled policy then AutomationStatus.RUNNING
                    else AutomationStatus.SKIPPED).
Proof.
  unfold schedule_tx. destruct acquired; simpl; [|intros Hr; by apply ret_Ok in Hr as [? _]].
  intros Hrun. apply bind_Ok in Hrun as (found&w1&Hr&Hrun). apply read_Ok in Hr as [-> ->].
  destruct (find_unique _ _ _) as [|] eqn:Hf; [by apply ret_Ok in Hrun as [? _]|].
  split; [done|]. split.
  { intros (i&r&Hr&Hk). apply (find_unique_is_Some _ run_idempotencyKey) in Hr as [x Hx].
    rewrite Hk in Hx. congruence. }
  apply bind_Ok in Hrun as (i&w1&Hi&Hrun). apply random_uuid_Ok in Hi as [_ ->].
  apply bind_Ok in Hrun as ([]&w1&Hc&Hrun).
  apply bind_Ok in Hrun as ([]&w2&Ho&Hrun). apply ret_Ok in Hrun as [_ ->].
  apply (keeps_run automationRuns) in Ho; [|apply _]. rewrite Ho. clear Ho.
  unfold create_run, put_run in Hc. run_inv.
  repeat match goal with H : read _ _ = _ |- _ => apply read_Ok in H as [? ->] end.
  match goal with H : write _ _ = _ |- _ => apply write_Ok in H as -> end.
  eexists. split; [reflexivity|]. done.
Qed.

(** The scheduler starts one cycle a business day: it creates a run only when
    it holds the lock and the day has none, RUNNING or, with the automation off,
    SKIPPED; from then on, whatever became of that run, every poll of the same
    day answers EXISTS or LOCKED and changes nothing. *)
Theorem scheduler_once_a_day acquired w w'
    (Hrun : scheduleCurrentCycle valid_time_zone acquired w = (Ok CREATED, w')) :
  let key := cycle_key (current_date w) in
  acquired = true ∧ ¬ has_run key (db w) ∧
  (∃ r, automationRuns (db w') = <[run_id r := r]> (automationRuns (db w)) ∧
     run_idempotencyKey r = key ∧
     run_status r = if po_enabled (policy_in_force (db w)) then AutomationStatus.RUNNING
                    else AutomationStatus.SKIPPED) ∧
  has_run key (db w') ∧
  (∀ again w2, has_run key (db w2) → current_date w2 = current_date w →
     fst (scheduleCurrentCycle valid_time_zone again w2) =
       Ok (if again then EXISTS else LOCKED) ∧
     db (snd (scheduleCurrentCycle valid_time_zone again w2)) = db w2).
Proof.
  intros key. rewrite schedule_unfold, transaction_Ok in Hrun.
  apply schedule_tx_created in Hrun as (Ha&Hnone&r&Hr&Hk&Hs). split_and!; [done|done| | |].
  - by exists r.
  - exists (run_id r), r. split; [|done]. rewrite Hr. apply lookup_insert_eq.
  - intros again w2 Hold Hdate. rewrite schedule_unfold, Hdate. unfold transaction.
    by rewrite schedule_tx_repeated.
Qed.
End scheduling.

(** ** Witnesses *)
Definition due_world (amount : Z) : World :=
  renewal_world (sample_service ServiceStatus.ACTIVE sample_due amount).
Lemma due_world_keyed amount i s : services (db (due_world amount)) !! i = Some s → svc_id s = i.
Proof. unfold due_world, renewal_world. simpl. by intros [<- <-]%lookup_singleton_Some. Qed.
Definition renewed (amount : Z) : result bool * World :=
  @createRenewalInvoice_tx all_formats "s" "r" (sample_due - 86400000) (due_world amount).

Lemma renewed_runs :
  @createRenewalInvoice_tx all_formats "s" "r" (sample_due - 86400000) (due_world 1000) =
  (Ok true, snd (renewed 1000)).
Proof. unfold renewed. apply run_outcome. vm_compute. reflexivity. Qed.
Lemma renewal_invoice_exact_witness :
  ∃ r k l, invoiceItems (db (snd (renewed 1000))) !! k = Some l ∧ ii_invoiceId l = inv_id r ∧
    ii_servicePeriodStart l = Some sample_due ∧
    ii_servicePeriodEnd l = Some (sample_due + 31 * 86400000) ∧ inv_dueAt r = sample_due.
Proof.
  assert (services (db (due_world 1000)) !! "s" =
          Some (sample_service ServiceStatus.ACTIVE sample_due 1000)) as Hs0 by reflexivity.
  destruct (@renewal_invoice_exact all_formats "s" "r" (sample_due - 86400000)
              (due_world 1000) (snd (renewed 1000)))
    as (s&period&to&r&t&addOns&Hs&Hp&Hto&_&(_&_&_&Hdue&_)&_&_&
        ((hosting&others&Hrows&Hline&_)&_)&_).
  - exact (due_world_keyed 1000).
  - intros i l Hl. change (invoiceItems _) with (∅ : gmap string InvoiceItem) in Hl.
    by rewrite lookup_empty in Hl.
  - exact renewed_runs.
  - rewrite Hs0 in Hs. apply Some_inj in Hs. subst s. cbn in Hp. apply Some_inj in Hp. subst period.
    assert (hosting ∈ hosting :: others) as Hin by left. rewrite <- Hrows in Hin.
    apply elem_rows in Hin as [He [k Hk]]. exists r, k, hosting.
    destruct Hline as (_&_&_&_&_&_&_&_&_&_&_&Hfrom&Hend).
    split; [exact Hk|]. split; [by apply String.eqb_eq|]. split; [exact Hfrom|]. split.
    + rewrite Hend. vm_compute in Hto. apply Some_inj in Hto. by rewrite <- Hto.
    + rewrite Hdue. vm_compute. reflexivity.
Defined.

Lemma renewal_billed_once_witness :
  let again := @createRenewalInvoice all_formats "s" "r2" sample_due (snd (renewed 1000)) in
  fst again ≠ Ok true ∧ db (snd again) = db (snd (renewed 1000)).
Proof.
  apply (@renewal_billed_once all_formats "s" "r" (sample_due - 86400000)
           (due_world 1000) (snd (renewed 1000))).
  - exact (due_world_keyed 1000).
  - exact renewed_runs.
  - reflexivity.
  - vm_compute. reflexivity.
Defined.

(** The invoice "i" of the service, paid, and the service suspended for it. *)
Definition paid_world : World :=
  renewal_world (sample_service ServiceStatus.SUSPENDED sample_due 1000)
  <| db := db (renewal_world (sample_service ServiceStatus.SUSPENDED sample_due 1000))
     <| invoices := {["i" := MkInvoice "i" "INV-1" "k" "c" None InvoiceStatus.PAID "BDT" 1000 0 0
                        1000 0 1000 0 "n" "e" JNull JNull JNull None sample_due (Some 0) None 0 0]} |>
     <| invoiceItems := {["l" := hosting_line
          (sample_service ServiceStatus.SUSPENDED sample_due 1000) sample_due
          (sample_due + 2678400000) "i" "l"]} |>
     <| payments := {["p" := MkPayment "p" "i" None None None PaymentKind.CHARGE
          PaymentStatus.SUCCEEDED "manual" None "k" 1000 "BDT" None None None None JNull None None None None
          0 0]} |> |>.
Lemma renewal_payment_exact_witness :
  let s := sample_service ServiceStatus.SUSPENDED sample_due 1000 in
  let w' := snd (@applyRenewalPayment_tx all_formats "p" "i" "r" paid_world) in
  fst (@applyRenewalPayment_tx all_formats "p" "i" "r" paid_world) = Ok 2 ∧
  ∃ t u, services (db w') !! "s" =
           Some (s <| svc_nextDueAt := t |> <| svc_updatedAt := u |>) ∧ svc_nextDueAt s <= t.
Proof.
  intros s w'. split; [vm_compute; reflexivity|].
  destruct (@renewal_payment_exact all_formats "p" "i" "r" paid_world 2 w') as [Hs _].
  - unfold paid_world, renewal_world, services_keyed. simpl.
    by intros i x [<- <-]%lookup_singleton_Some.
  - unfold w'. apply run_outcome. vm_compute. reflexivity.
  - destruct (Hs "s" s) as (t&u&Ht&Hle&_); [reflexivity|]. exists t, u. split; [exact Ht|exact Hle].
Defined.

Lemma scheduler_once_a_day_witness :
  let first := scheduleCurrentCycle (H := sample_zones) (λ _, true) true fresh_world in
  fst first = Ok CREATED ∧
  fst (scheduleCurrentCycle (H := sample_zones) (λ _, true) true (snd first)) = Ok EXISTS.
Proof.
  intros first. split; [vm_compute; reflexivity|].
  destruct (@scheduler_once_a_day (λ _, true) sample_zones true fresh_world (snd first))
    as (_&_&_&Hrun&Hagain).
  - apply run_outcome. vm_compute. reflexivity.
  - apply Hagain; [exact Hrun|]. vm_compute. reflexivity.
Defined.
