(* ===== verification/HostingProperties.v ===== *)
(** * Properties of hosting automation and cancellation

    What a job of the automation does to a service, its operations and the panel,
    and when: [HostingAutomation], with the jobs that [Renewal] and
    [HostingServices] put into the outbox. *)
From S2P Require Import Prelude JsString JsDate Json Money States Calendar Database Invoices Payments Gateways Orders BackgroundJobs Outbox HostingServices HostingAutomation ServiceLifecycle Renewal.

(** ** Operations *)
Lemma create_operation_Ok r w u w' :
  create_operation r w = (Ok u, w') →
  panelOperations (db w) !! op_id r = None ∧ operation_check r = true ∧
  w' = w <| db := db w <| panelOperations := <[op_id r := r]> (panelOperations (db w)) |> |>.
Proof.
  unfold create_operation. intros Hrun.
  apply bind_Ok in Hrun as (?&w1&Hr&Hrun). apply read_Ok in Hr as [-> ->].
  apply bind_Ok in Hrun as (?&w1&Hr&Hrun). apply require_Ok in Hr as [Hb ->].
  apply bind_Ok in Hrun as (?&w1&Hr&Hrun). apply require_Ok in Hr as [Hc ->].
  apply write_Ok in Hrun as ->. split_bool. done.
Qed.
(** A row that would violate a CHECK constraint is not stored. *)
Lemma update_operation_refused id p f w r :
  panelOperations (db w) !! id = Some r → p r = true →
  operation_check (f r <| op_updatedAt := clock w (ticks w) |>) = false →
  ∃ w', update_operation_if id p f w = (Err operation_violation, w') ∧ db w' = db w.
Proof.
  intros Hr Hp Hc. exists (w <| ticks := S (ticks w) |>). split; [|done].
  unfold update_operation_if, mbind, M_bind, new_date, read, gets. simpl. rewrite Hr, Hp.
  unfold require, throw_unless, lift. simpl in *. by rewrite Hc.
Qed.
(** Neither preparing nor answering an old operation makes a new one of it. *)
Lemma prepare_not_fresh `{Sha256} action payload event w op op' fresh w' :
  latest_operation (operation_key action payload) (db w) = Some op → retriable op = false →
  prepare_tx action payload event w = (Ok (Some (op', fresh)), w') →
  op' = op ∧ fresh = false.
Proof.
  intros Hop Hret Hrun. unfold prepare_tx in Hrun.
  apply bind_Ok in Hrun as (?&w1&Hl&Hrun). apply lock_row_Ok in Hl as ->.
  apply bind_Ok in Hrun as (?&w1&Hr&Hrun). apply read_Ok in Hr as [-> ->].
  rewrite Hop in Hrun. destruct (_ && _); [by apply ret_Ok in Hrun as [[= -> ->] _]|].
  unfold prepare_operation in Hrun.
  apply bind_Ok in Hrun as (running&w1&Hr&Hrun). apply read_Ok in Hr as [_ ->].
  apply bind_Ok in Hrun as (?&w1&Hr&Hrun). apply require_Ok in Hr as [_ ->].
  apply bind_Ok in Hrun as (?&w1&Hr&Hrun). apply read_Ok in Hr as [_ ->].
  apply bind_Ok in Hrun as ([[service server] customer]&w1&Hr&Hrun).
  apply lift_Ok in Hr as [_ ->].
  apply bind_Ok in Hrun as (proceed&w1&_&Hrun).
  destruct proceed; simpl in Hrun; [|by apply ret_Ok in Hrun as [[=] _]].
  rewrite Hret in Hrun. by apply ret_Ok in Hrun as [[= -> ->] _].
Qed.


(** ** The status of services *)
Definition service_statuses (d : Db) : gmap string ServiceStatus :=
  svc_status <$> services d.
Lemma same_statuses_update id f :
  (∀ s, svc_status (f s) = svc_status s) → Keeps service_statuses (update_service id f).
Proof.
  intros Hf w. unfold service_statuses, update_service, update_service_if.
  unfold mbind, M_bind, new_date, read, gets. simpl.
  destruct (services (db w) !! id) as [s|] eqn:Hs; [|done].
  unfold require, throw_unless, lift. simpl. destruct (unique_opt _ _ _); [|done]. simpl.
  rewrite fmap_insert. apply insert_id. rewrite lookup_fmap, Hs. simpl. by rewrite Hf.
Qed.
#[export] Hint Extern 5 (Keeps service_statuses (update_service _ _)) =>
  apply same_statuses_update; intros; reflexivity : typeclass_instances.
#[export] Hint Extern 6 (Keeps service_statuses ?m) => unfold_table m : typeclass_instances.
Lemma prepare_statuses `{Sha256} action payload event :
  Keeps service_statuses (prepare_tx action payload event).
Proof. unfold prepare_tx, prepare_operation, prepare_cancellation. apply _. Qed.
#[export] Existing Instance prepare_statuses.
#[export] Instance fail_statuses id n kind code : Keeps service_statuses (fail id n kind code).
Proof. unfold fail, update_operation_if. apply _. Qed.

(** A job that is not for a cancellation always has an operation to work on. *)
Lemma prepare_some `{Sha256} action payload event w r w' :
  pl_cancellationId payload = None →
  prepare_tx action payload event w = (Ok r, w') → is_Some r.
Proof.
  intros Hc Hrun. unfold prepare_tx in Hrun. rewrite Hc in Hrun.
  apply bind_Ok in Hrun as (?&w1&Hl&Hrun). apply lock_row_Ok in Hl as ->.
  apply bind_Ok in Hrun as (existing&w1&Hr&Hrun). apply read_Ok in Hr as [_ ->].
  assert (∀ existing, prepare_operation action payload event (operation_key action payload)
            existing w = (Ok r, w') → is_Some r) as Hop.
  { intros o Ho. unfold prepare_operation in Ho. rewrite Hc in Ho.
    apply bind_Ok in Ho as (running&w1&Hr&Ho). apply read_Ok in Hr as [_ ->].
    apply bind_Ok in Ho as (?&w1&Hr&Ho). apply require_Ok in Hr as [_ ->].
    apply bind_Ok in Ho as (?&w1&Hr&Ho). apply read_Ok in Hr as [_ ->].
    apply bind_Ok in Ho as ([[service server] customer]&w1&Hr&Ho).
    apply lift_Ok in Hr as [_ ->].
    apply bind_Ok in Ho as (proceed&w1&Hr&Ho). apply ret_Ok in Hr as [-> ->]. simpl in Ho.
    destruct o as [o|]; [destruct (retriable o)|]; run_inv; eauto. }
  destruct existing as [o|]; [|by eapply Hop].
  destruct (_ && _); [|by eapply Hop]. apply ret_Ok in Hrun as [-> _]. eauto.
Qed.
(** The answer of a job whose operation is an old one. *)
Definition old_answer (operation : HostingPanelOperation) : Io unit :=
  match op_status operation with
  | OperationStatus.SUCCEEDED => mret tt
  | OperationStatus.RUNNING =>
      _ ← fail (op_id operation) (op_attemptNumber operation) ErrorKind.INCONSISTENT
            "HOSTING_AUTOMATION_RESULT_UNKNOWN";
      throw (jobError ErrorKind.INCONSISTENT "HOSTING_AUTOMATION_RESULT_UNKNOWN")
  | OperationStatus.FAILED | OperationStatus.INCONSISTENT =>
      throw (previous_failure operation)
  end.
Lemma old_answer_statuses op : Keeps service_statuses (old_answer op).
Proof. unfold old_answer. apply _. Qed.
Lemma old_answer_error op w :
  op_status op ≠ OperationStatus.SUCCEEDED → ∃ e, fst (old_answer op w) = Err e.
Proof.
  unfold old_answer. intros Hs. destruct (op_status op); try done; simpl; eauto.
  unfold mbind, M_bind. destruct (fail _ _ _ _ w) as [[]]; simpl; eauto.
Qed.

(** a job whose last operation is not a temporary failure with attempts left,
    because it succeeded, failed for good, has an unknown result or was cut off
    while running, never reaches the panel: the outcome is the same whatever the
    panel would answer, no service changes its status, and an operation that was
    cut off leaves an error, never a success. *)
Theorem unknown_result_never_retried `{ZodFormats} `{Sha256} data action payload op w
    (Haction : action_of (job_eventType data) = Ok action)
    (Hpayload : job_payload data w = (Ok payload, w))
    (Hop : latest_operation (operation_key action payload) (db w) = Some op)
    (Hretry : retriable op = false) :
  ∃ r w', (∀ fetch decipher parse_json,
             process_hosting fetch decipher parse_json data w = (r, w')) ∧
    service_statuses (db w') = service_statuses (db w) ∧
    (op_status op ≠ OperationStatus.SUCCEEDED → pl_cancellationId payload = None →
     ∃ e, r = Err e).
Proof.
  destruct (transaction (prepare_tx action payload (job_outboxEventId data)) w)
    as [p w1] eqn:Hp.
  assert (service_statuses (db w1) = service_statuses (db w)) as Hs1.
  { eapply (keeps_run service_statuses); [|exact Hp]. apply _. }
  assert (∀ fetch decipher parse_json, process_hosting fetch decipher parse_json data w =
    match p with
    | Ok (Some (o, f)) => old_answer op w1 | Ok None => (Ok tt, w1) | Err e => (Err e, w1)
    end) as Hall.
  { intros. unfold process_hosting. rewrite Haction. unfold mbind at 1, M_bind, lift.
    unfold mbind at 1, M_bind. rewrite Hpayload. unfold mbind at 1, M_bind. rewrite Hp.
    destruct p as [[[o f]|]|e]; [|done..].
    rewrite transaction_Ok in Hp. apply (prepare_not_fresh _ _ _ _ op) in Hp as [-> ->]; done. }
  destruct p as [[[o f]|]|e].
  - destruct (old_answer op w1) as [r w2] eqn:Ho. exists r, w2. split_and!; [done| |].
    + rewrite <- Hs1. eapply (keeps_run service_statuses); [|exact Ho].
      apply old_answer_statuses.
    + intros Hs _. destruct (old_answer_error op w1 Hs) as [e He]. exists e. by rewrite Ho in He.
  - exists (Ok tt), w1. split_and!; [done..|]. intros _ Hc.
    rewrite transaction_Ok in Hp. by apply prepare_some in Hp as [? [=]].
  - exists (Err e), w1. split_and!; [done..|]. eauto.
Qed.

(** ** Failures *)
Lemma bind_Err {S A B} (m : M S A) (k : A → M S B) w e w' :
  m w = (Err e, w') → (m ≫= k) w = (Err e, w').
Proof. unfold mbind, M_bind. by intros ->. Qed.
Lemma third_unrecorded id code w r :
  panelOperations (db w) !! id = Some r → is_running r = true →
  ∃ w', fail id 3 ErrorKind.TEMPORARY code w = (Err operation_violation, w') ∧ db w' = db w.
Proof.
  intros Hr Hrun. unfold fail. unfold mbind at 1, M_bind at 1, new_date at 1.
  match goal with |- context [(update_operation_if ?i ?p ?f ≫= _) ?w1] =>
    destruct (update_operation_refused i p f w1 r Hr Hrun) as (w'&Hw'&Hdb) end.
  { unfold operation_check, status_evidence. simpl. by rewrite ?andb_false_r. }
  exists w'. split; [|done]. apply bind_Err, Hw'.
Qed.
(** A stored failure that is temporary can be retried. *)
Lemma temporary_is_retryable r :
  operation_check r = true → op_errorKind r = Some ErrorKind.TEMPORARY → op_retryable r = true.
Proof.
  unfold operation_check, status_evidence. intros Hc Hk. rewrite Hk in Hc.
  destruct (op_status r), (op_retryable r); simpl in *; try done;
    rewrite ?andb_false_r in Hc; simpl in Hc; rewrite ?andb_false_r in Hc; done.
Qed.

(** the third temporary failure of an operation cannot be recorded.  It is
    written as temporary and not retryable, which the CHECK constraint on the
    evidence of an operation refuses; the job fails with the database's error,
    which the worker takes for a temporary one, and the operation stays RUNNING
    (so that the next delivery finds it cut off).  No stored operation is ever
    answered with the code [HOSTING_AUTOMATION_RETRY_LIMIT]. *)
Theorem third_temporary_failure_unrecorded fetch decipher parse_json
    op action payload w e w1 code r
    (Hthird : op_attemptNumber op = MAX_AUTOMATION_ATTEMPTS)
    (Hpanel : change_panel fetch decipher parse_json (op_id op) action payload w = (Err e, w1))
    (Hkind : normalized false e = (ErrorKind.TEMPORARY, code))
    (Hrow : panelOperations (db w1) !! op_id op = Some r) (Hrunning : is_running r = true) :
  (∃ w2, attempt_operation fetch decipher parse_json op action payload w =
           (Err operation_violation, w2) ∧ panelOperations (db w2) !! op_id op = Some r) ∧
  classify operation_violation = ("TEMPORARY", "BACKGROUND_JOB_UNEXPECTED") ∧
  ∀ stored, operation_check stored = true →
    previous_failure stored = jobError (default ErrorKind.PERMANENT (op_errorKind stored))
      (default "HOSTING_AUTOMATION_PREVIOUSLY_FAILED" (op_errorCode stored)).
Proof.
  split_and!; [|done|].
  - destruct (third_unrecorded (op_id op) code w1 r Hrow Hrunning) as (w2&Hf&Hdb).
    exists w2. split; [|by rewrite Hdb].
    unfold attempt_operation, mbind, M_bind, reify. rewrite Hpanel.
    unfold stop_attempt. rewrite Hkind, Hthird. unfold mbind, M_bind.
    unfold MAX_AUTOMATION_ATTEMPTS. by rewrite Hf.
  - intros stored Hc. unfold previous_failure. case_bool_decide as Hk; [|done].
    by rewrite (temporary_is_retryable _ Hc Hk).
Qed.

(** after the panel was asked to change an account, an answer that leaves the
    result open is never taken for a temporary failure, after which the change
    would be sent again, with one exception: an answer of success whose body cannot
    be read to its end, which is the case where the panel most likely did it. *)
Theorem mutation_answer_kinds parse_json response e
    (Hanswer : read_answer parse_json true response = Err e) :
  fst (normalized false e) = ErrorKind.TEMPORARY ↔
  ∃ r, response = Some r ∧ 200 <= wr_status r <= 299 ∧ wr_text r = None.
Proof.
  unfold read_answer in Hanswer. destruct response as [r|].
  2: { injection Hanswer as <-. simpl. naive_solver. }
  destruct (_ || _) eqn:Hauth.
  { injection Hanswer as <-. apply orb_true_iff in Hauth. rewrite !Z.eqb_eq in Hauth. simpl.
    split; [done|]. intros (r'&[= <-]&Hr&_). lia. }
  destruct ((_ <? 200) || _) eqn:Hok.
  { injection Hanswer as <-. apply orb_true_iff in Hok. rewrite !Z.ltb_lt in Hok. simpl.
    split; [done|]. intros (r'&[= <-]&Hr&_). lia. }
  apply orb_false_iff in Hok as [Hlo Hhi]. apply Z.ltb_ge in Hlo, Hhi.
  destruct (wr_text r) as [text|] eqn:Ht; simpl in Hanswer.
  2: { injection Hanswer as <-. simpl. split; [|done]. intros _. by exists r. }
  assert (∀ kind code, e = PanelAutomationError kind code → kind ≠ ErrorKind.TEMPORARY →
    (fst (normalized false e) = ErrorKind.TEMPORARY ↔
     ∃ r', Some r = Some r' ∧ 200 <= wr_status r' <= 299 ∧ wr_text r' = None)) as Hno.
  { intros kind code -> Hk. simpl. split; [done|]. intros (r'&[= <-]&_&Hr). congruence. }
  unfold throw_unless in Hanswer. destruct (_ <=? 1048576); simpl in Hanswer.
  2: { injection Hanswer as <-. by eapply Hno. }
  destruct (parse_json text) as [body|]; simpl in Hanswer.
  2: { injection Hanswer as <-. by eapply Hno. }
  destruct (whmSucceeded body); simpl in Hanswer; [done|].
  injection Hanswer as <-. by eapply Hno.
Qed.
Lemma mutation_answer_kinds_witness :
  fst (normalized false (JsError "terminated")) = ErrorKind.TEMPORARY.
Proof.
  apply (mutation_answer_kinds (λ _, None) (Some (MkWhmResponse 200 None))); [reflexivity|].
  exists (MkWhmResponse 200 None). repeat split; simpl; lia.
Defined.

Lemma unpublished_job `{ZodFormats} data e w :
  outboxEvents (db w) !! job_outboxEventId data = Some e →
  out_status e ≠ OutboxStatus.PUBLISHED →
  job_payload data w =
    (Err (cannot_process "HOSTING_AUTOMATION_OUTBOX_REFERENCE_INVALID"), w).
Proof.
  intros He Hs. unfold job_payload. unfold mbind at 1, M_bind, read, gets, lift. f_equal.
  match goal with |- of_option _ ?o = _ => destruct o as [p|] eqn:Ho end; [|done].
  rewrite He in Ho. apply bind_Some in Ho as (?&[= <-]&Ho).
  apply bind_Some in Ho as (p'&_&Ho). case_match; [|done]. by split_bool.
Qed.

(** A job that reaches its processor before the dispatcher has marked its event
    as published is lost.  The processor throws a permanent error, which ends the
    job whatever attempts it has left, although the event becomes PUBLISHED right
    after and is then never claimed again.  The renewal processor takes the same
    situation for a temporary one. *)
Theorem early_job_is_lost `{ZodFormats} `{Sha256} fetch decipher parse_json data raw e action w
    (Hevent : outboxEvents (db w) !! job_outboxEventId data = Some e)
    (Hstatus : out_status e = OutboxStatus.PROCESSING)
    (Htype : String.eqb (out_eventType e) (job_eventType data) = true)
    (Haggregate : String.eqb (out_aggregateType e) (job_aggregateType data) = true)
    (Hid : String.eqb (out_aggregateId e) (job_aggregateId data) = true)
    (Haction : action_of (job_eventType data) = Ok action)
    (Hraw : backgroundJobDataSchema raw = Some data) :
  let code := "HOSTING_AUTOMATION_OUTBOX_REFERENCE_INVALID" in
  (∀ updateData w',
     updateData (job_json (failed_job_data data "PERMANENT" code)) w = (Ok tt, w') →
     process_job (process_hosting fetch decipher parse_json) updateData raw w =
       (Err (UnrecoverableError code), w')) ∧
  (∀ now cutoff, claimable now cutoff (e <| out_status := OutboxStatus.PUBLISHED |>) = false) ∧
  publishedEvent data w = (Err (temporary "RENEWAL_OUTBOX_PUBLICATION_PENDING"), w).
Proof.
  intros code. split_and!.
  - intros updateData w' Hu. unfold process_job. rewrite Hraw. unfold catch.
    assert (process_hosting fetch decipher parse_json data w = (Err (cannot_process code), w))
      as ->.
    { unfold process_hosting. rewrite Haction. unfold mbind at 1, M_bind, lift.
      apply bind_Err, (unpublished_job _ e); [done|by rewrite Hstatus]. }
    simpl. unfold mbind, M_bind. by rewrite Hu.
  - intros now cutoff. unfold claimable. done.
  - unfold publishedEvent, mbind, M_bind, read, gets, lift. simpl. rewrite Hevent. simpl.
    rewrite Hstatus, ?Htype, ?Haggregate, ?Hid. simpl. unfold require, throw_unless, lift.
    by rewrite Hstatus.
Qed.

(** ** The jobs the other services ask for *)
(** Once the event is published, its queue's processor takes its job for [action]
    on [payload]. *)
Definition ready_for (action : AutomationAction) (payload : AutomationPayload)
    `{ZodFormats} (e : OutboxEvent) : Prop :=
  rt_queueName <$> routeOutboxEvent (out_eventType e) =
    Some (match action with SUSPEND => QueueName.hosting_suspension
                          | UNSUSPEND => QueueName.hosting_unsuspension end) ∧
  action_of (out_eventType e) = Ok action ∧
  ∀ w published, outboxEvents (db w) !! out_id e = Some published →
    out_status published = OutboxStatus.PUBLISHED →
    (out_eventType published, out_aggregateType published, out_aggregateId published,
     out_payload published) =
    (out_eventType e, out_aggregateType e, out_aggregateId e, out_payload e) →
    job_payload (outbox_job_data e) w = (Ok payload, w).
Lemma ready_event `{ZodFormats} action payload id type key t now :
  rt_queueName <$> routeOutboxEvent type =
    Some (match action with SUSPEND => QueueName.hosting_suspension
                          | UNSUSPEND => QueueName.hosting_unsuspension end) →
  action_of type = Ok action →
  (if String.eqb type "HOSTING_CANCELLATION_SUSPENSION_REQUESTED"
   then hostingCancellationJobSchema else hostingAutomationPayloadSchema)
    (payload_json payload) = Some payload →
  ready_for action payload
    (pending_event id "SERVICE" (pl_serviceId payload) type key (payload_json payload) t now).
Proof.
  intros Hroute Haction Hschema. split_and!; [done..|].
  intros w e He Hs [= Ht Ha Hi Hp]. unfold job_payload, outbox_job_data.
  unfold mbind at 1, M_bind, read, gets, lift. cbn [out_id pending_event] in He. f_equal.
  match goal with |- of_option _ ?o = _ => assert (o = Some payload) as Ho end; [|by rewrite Ho].
  apply bind_Some. exists e. split; [exact He|]. apply bind_Some. exists payload.
  split; [rewrite Hp; exact Hschema|].
  rewrite Hs, Ht, Ha, Hi. cbn [job_eventType job_aggregateId out_eventType out_aggregateType
    out_aggregateId pending_event]. by rewrite !String.eqb_refl.
Qed.
Lemma create_outbox_skip_Ok a b c k p w n w' :
  create_outbox_skip a b c k p w = (Ok n, w') →
  (n = 0 ∧ outboxEvents (db w') = outboxEvents (db w)) ∨
  (n = 1 ∧ ∃ i now, outboxEvents (db w) !! i = None ∧ outboxEvents (db w') =
    <[i := pending_event i a b c k p now now]> (outboxEvents (db w))).
Proof.
  unfold create_outbox_skip, put_outbox. intros Hrun.
  apply bind_Ok in Hrun as (i&w1&Hi&Hrun). apply random_uuid_Ok in Hi as [_ ->].
  apply bind_Ok in Hrun as (now&w1&Hi&Hrun). apply new_date_Ok in Hi as [_ ->].
  apply bind_Ok in Hrun as (m&w1&Hr&Hrun). apply read_Ok in Hr as [-> ->].
  destruct (_ && _) eqn:Hb; [|by apply ret_Ok in Hrun as [-> ->]; left].
  apply bind_Ok in Hrun as (?&w1&Hr&Hrun). apply write_Ok in Hr as ->.
  apply ret_Ok in Hrun as [-> ->]. right. split_bool. split; [done|]. by exists i, now.
Qed.

Lemma create_outbox_at_Ok t a b c k p w u w' :
  create_outbox_at t a b c k p w = (Ok u, w') →
  ∃ i now, outboxEvents (db w) !! i = None ∧ outboxEvents (db w') =
    <[i := pending_event i a b c k p t now]> (outboxEvents (db w)).
Proof.
  unfold create_outbox_at, put_outbox. intros Hrun.
  apply bind_Ok in Hrun as (i&w1&Hi&Hrun). apply random_uuid_Ok in Hi as [_ ->].
  apply bind_Ok in Hrun as (now&w1&Hi&Hrun). apply new_date_Ok in Hi as [_ ->].
  apply bind_Ok in Hrun as (m&w1&Hr&Hrun). apply read_Ok in Hr as [-> ->].
  apply bind_Ok in Hrun as (?&w1&Hr&Hrun). apply require_Ok in Hr as [Hb ->].
  apply write_Ok in Hrun as ->. split_bool. by exists i, now.
Qed.
Lemma invoice_schema `{ZodFormats} s i r :
  zod_uuid s && zod_uuid i && zod_uuid r = true →
  hostingAutomationPayloadSchema (payload_json (ForInvoice s i r)) = Some (ForInvoice s i r).
Proof.
  intros Hu. split_bool. unfold hostingAutomationPayloadSchema, z_refine. simpl.
  repeat match goal with H : zod_uuid _ = true |- _ => rewrite H; clear H end. done.
Qed.
Lemma cancellation_schema `{ZodFormats} s c :
  zod_uuid s && zod_uuid c = true →
  hostingCancellationJobSchema (payload_json (ForCancellation s c)) = Some (ForCancellation s c).
Proof.
  intros Hu. split_bool. unfold hostingCancellationJobSchema, z_refine. simpl.
  repeat match goal with H : zod_uuid _ = true |- _ => rewrite H; clear H end. done.
Qed.
Lemma hosting_payload_Ok `{ZodFormats} s i r v :
  hosting_payload s i r = Ok v →
  zod_uuid s && zod_uuid i && zod_uuid r = true ∧ v = payload_json (ForInvoice s i r).
Proof. unfold hosting_payload. intros Hp. by run_inv. Qed.
(** An event that the run added and that is ready for the automation. *)
Definition requests `{ZodFormats} (action : AutomationAction) (payload : AutomationPayload)
    (availableAt : option Z) (d d' : Db) : Prop :=
  ∃ e, outboxEvents d !! out_id e = None ∧ outboxEvents d' = <[out_id e := e]> (outboxEvents d) ∧
       out_status e = OutboxStatus.PENDING ∧ ready_for action payload e ∧
       match availableAt with Some t => out_availableAt e = t | None => True end.

Lemma skip_requests `{ZodFormats} action payload type key n w w' d :
  create_outbox_skip "SERVICE" (pl_serviceId payload) type key (payload_json payload) w =
    (Ok n, w') → outboxEvents d = outboxEvents (db w) →
  rt_queueName <$> routeOutboxEvent type =
    Some (match action with SUSPEND => QueueName.hosting_suspension
                          | UNSUSPEND => QueueName.hosting_unsuspension end) →
  action_of type = Ok action →
  (if String.eqb type "HOSTING_CANCELLATION_SUSPENSION_REQUESTED"
   then hostingCancellationJobSchema else hostingAutomationPayloadSchema)
    (payload_json payload) = Some payload →
  (n = 0 ∧ outboxEvents (db w') = outboxEvents d) ∨
  (n = 1 ∧ requests action payload None d (db w')).
Proof.
  intros Hrun Hd H1 H2 H3. rewrite Hd.
  apply create_outbox_skip_Ok in Hrun as [[-> Hrun]|(->&i&now&Hi&Hrun)]; [by left|right].
  split; [done|].
  exists (pending_event i "SERVICE" (pl_serviceId payload) type key (payload_json payload) now now).
  rewrite Hd. split_and!; [exact Hi|exact Hrun|done| |done]. by apply ready_event.
Qed.

(** What asks for a suspension or its end is understood by what carries it out.
    The events that the renewal cycle (an overdue invoice), a settled renewal
    payment and a cancellation request put into the outbox are routed to the queue
    of their action, and once published their jobs are read back as exactly the
    service, invoice, run or request they were written for. *)
Theorem hosting_requests_understood `{ZodFormats} :
  (∀ serviceId invoiceId run w w',
     requestSuspension serviceId invoiceId run w = (Ok true, w') →
     requests SUSPEND (ForInvoice serviceId invoiceId run) None (db w) (db w')) ∧
  (∀ payment invoiceId run serviceId to n s w w',
     services (db w) !! serviceId = Some s → svc_status s = ServiceStatus.SUSPENDED →
     svc_suspensionInvoiceId s = Some invoiceId →
     apply_line payment invoiceId run serviceId to w = (Ok n, w') →
     outboxEvents (db w') = outboxEvents (db w) ∨
     requests UNSUSPEND (ForInvoice (svc_id s) invoiceId run) None (db w) (db w')) ∧
  (∀ r t w w',
     zod_uuid (hc_serviceId r) && zod_uuid (hc_id r) = true →
     queueSuspension r t w = (Ok tt, w') →
     requests SUSPEND (ForCancellation (hc_serviceId r) (hc_id r)) (Some t) (db w) (db w')).
Proof.
  split_and!.
  - intros s i r w w' Hrun. unfold requestSuspension in Hrun.
    apply bind_Ok in Hrun as (v&w1&Hr&Hrun). apply lift_Ok in Hr as [Hp ->].
    apply hosting_payload_Ok in Hp as [Hu ->].
    apply bind_Ok in Hrun as (n&w1&Hc&Hrun). apply ret_Ok in Hrun as [Hn ->].
    apply (skip_requests SUSPEND (ForInvoice s i r) _ _ _ _ _ (db w)) in Hc
      as [[-> _]|[_ Hc]]; [done|done|done..|by apply invoice_schema].
  - intros payment i run sid to n s w w' Hs Hst Hinv Hrun. unfold apply_line in Hrun.
    apply bind_Ok in Hrun as (?&w1&Hl&Hrun). apply lock_row_Ok in Hl as ->.
    apply bind_Ok in Hrun as (?&w1&Hr&Hrun). apply read_Ok in Hr as [-> ->]. rewrite Hs in Hrun.
    apply bind_Ok in Hrun as (?&w1&Hu&Hrun).
    apply (keeps_run outboxEvents) in Hu; [|apply _].
    apply bind_Ok in Hrun as (k&w2&Hr&Hrun). rewrite Hst, Hinv in Hr.
    rewrite bool_decide_eq_true_2, bool_decide_eq_true_2 in Hr by done. simpl in Hr.
    apply bind_Ok in Hr as (v&w3&Hv&Hr). apply lift_Ok in Hv as [Hp ->].
    apply hosting_payload_Ok in Hp as [Huuid ->].
    apply (keeps_run outboxEvents) in Hrun; [|apply _].
    apply (skip_requests UNSUSPEND (ForInvoice (svc_id s) i run) _ _ _ _ _ (db w)) in Hr
      as [[_ Hr]|[_ (e&H1&H2&H3)]]; [left; congruence| |congruence|done..|by apply invoice_schema].
    right. exists e. split_and!; [done|congruence|apply H3..|done].
  - intros r t w w' Hu Hrun. unfold queueSuspension in Hrun.
    apply create_outbox_at_Ok in Hrun as (i&now&Hi&Hrun).
    exists (pending_event i "SERVICE" (hc_serviceId r) "HOSTING_CANCELLATION_SUSPENSION_REQUESTED"
      ("hosting-cancellation:" ++ hc_id r)%string (cancellation_payload r) t now).
    split_and!; [exact Hi|exact Hrun|done| |done].
    apply (ready_event SUSPEND (ForCancellation (hc_serviceId r) (hc_id r))); [done..|].
    by apply cancellation_schema.
Qed.

(** ** What a job for an invoice does *)
(** The rows that call for the action, at the instant [now]. *)
Definition called_for (action : AutomationAction) (serviceId invoiceId : string) (now : Z)
    (d : Db) : Prop :=
  ∃ s i, services d !! serviceId = Some s ∧ invoices d !! invoiceId = Some i ∧
    (∃ j l, invoiceItems d !! j = Some l ∧ ii_invoiceId l = invoiceId ∧
            ii_serviceId l = Some serviceId) ∧
    match action with
    | SUSPEND => svc_status s = ServiceStatus.ACTIVE ∧ inv_status i = InvoiceStatus.OVERDUE ∧
                 0 < inv_balanceDue i
    | UNSUSPEND => svc_status s = ServiceStatus.SUSPENDED ∧
        svc_suspensionInvoiceId s = Some (inv_id i) ∧ inv_status i = InvoiceStatus.PAID ∧
        inv_balanceDue i = 0 ∧
        ∀ j r, cancellations d !! j = Some r → hc_serviceId r = svc_id s →
          hc_status r = CancellationStatus.WITHDRAWN ∨
          hc_status r = CancellationStatus.OPEN ∧ hc_approvedAt r = None ∧
          match hc_effectiveAt r with Some t => now < t | None => True end
    end.
Lemma rows_nil {R} (p : R → bool) (m : gmap string R) :
  rows p m = [] ↔ ∀ i r, m !! i = Some r → p r = false.
Proof.
  split.
  - intros H i r Hr. destruct (p r) eqn:Hp; [|done].
    assert (r ∈ rows p m) as Hin by (apply elem_rows; eauto). rewrite H in Hin.
    by apply not_elem_of_nil in Hin.
  - intros H. destruct (rows p m) as [|r l] eqn:Hr; [done|].
    assert (r ∈ rows p m) as Hin by (rewrite Hr; left).
    apply elem_rows in Hin as [Hp [i Hi]]. rewrite (H i r Hi) in Hp. done.
Qed.
Lemma rows_some {R} (p : R → bool) (m : gmap string R) :
  rows p m ≠ [] ↔ ∃ i r, m !! i = Some r ∧ p r = true.
Proof.
  split.
  - intros H. destruct (rows p m) as [|r l] eqn:Hr; [done|].
    assert (r ∈ rows p m) as Hin by (rewrite Hr; left).
    apply elem_rows in Hin as [Hp [i Hi]]. eauto.
  - intros (i&r&Hr&Hp) H. rewrite rows_nil in H. rewrite (H i r Hr) in Hp. done.
Qed.
Lemma bills_service_spec i s d :
  bills_service i s d = true ↔
  ∃ j l, invoiceItems d !! j = Some l ∧ ii_invoiceId l = i ∧ ii_serviceId l = Some s.
Proof.
  unfold bills_service. rewrite negb_true_iff, bool_decide_eq_false, rows_some.
  apply exist_proper; intros j; apply exist_proper; intros l.
  by rewrite andb_true_iff, bool_decide_eq_true, String.eqb_eq.
Qed.
Lemma cancellation_holds_spec s now d :
  cancellation_holds s now d = false ↔
  ∀ j r, cancellations d !! j = Some r → hc_serviceId r = s →
    hc_status r = CancellationStatus.WITHDRAWN ∨
    hc_status r = CancellationStatus.OPEN ∧ hc_approvedAt r = None ∧
    match hc_effectiveAt r with Some t => now < t | None => True end.
Proof.
  unfold cancellation_holds. rewrite negb_false_iff, bool_decide_eq_true, rows_nil.
  apply forall_proper; intros j; apply forall_proper; intros r.
  destruct (String.eqb_spec (hc_serviceId r) s); [|split; [done|intros; by simpl]].
  split; intros H Hr; specialize (H Hr); [intros _|specialize (H e)];
    destruct (hc_status r), (hc_approvedAt r), (hc_effectiveAt r); simpl in *; try done;
    try (by naive_solver lia); try (apply Z.leb_gt in H); naive_solver lia.
Qed.
Lemma eligible_spec action s i r w b w' :
  eligible action (ForInvoice s i r) w = (Ok b, w') →
  db w' = db w ∧ (b = true ↔ called_for action s i (clock w (ticks w)) (db w)).
Proof.
  unfold eligible. intros Hrun.
  apply bind_Ok in Hrun as (service&w1&Hr&Hrun). apply read_Ok in Hr as [-> ->].
  cbn [pl_serviceId] in Hrun.
  apply bind_Ok in Hrun as (invoice&w1&Hr&Hrun). apply read_Ok in Hr as [Hi ->].
  destruct (services (db w) !! s) as [service|] eqn:Hs.
  2: { apply ret_Ok in Hrun as [-> ->]. split; [done|]. split; [done|].
       intros (?&?&?&_). congruence. }
  destruct invoice as [invoice|].
  2: { apply ret_Ok in Hrun as [-> ->]. split; [done|]. split; [done|].
       intros (?&i'&_&Hi'&Hb&_). apply bills_service_spec in Hb.
       rewrite Hi' in Hi. simpl in Hi. by rewrite Hb in Hi. }
  symmetry in Hi. apply bind_Some in Hi as (i'&Hi'&Hi). destruct (bills_service i s (db w)) eqn:Hb; [|done].
  injection Hi as ->. apply bills_service_spec in Hb.
  apply bind_Ok in Hrun as (held&w1&Hr&Hrun). apply ret_Ok in Hrun as [-> ->].
  destruct action; simpl.
  - apply ret_Ok in Hr as [-> ->]. split; [done|]. unfold called_for. rewrite Hs, Hi'.
    simpl. rewrite !andb_true_iff, !bool_decide_eq_true, Z.ltb_lt. naive_solver.
  - apply bind_Ok in Hr as (now&w2&Hr&Hh). apply new_date_Ok in Hr as [-> ->].
    apply read_Ok in Hh as [-> ->]. split; [done|].
    unfold called_for. rewrite Hs, Hi'. simpl.
    rewrite !andb_true_iff, !bool_decide_eq_true, Z.eqb_eq, negb_true_iff,
      cancellation_holds_spec. naive_solver.
Qed.
(** What a job works on: an old operation, or a new row of its key and nothing else. *)
Definition worked_on (key : string) (op : HostingPanelOperation) (fresh : bool)
    (existing : option HostingPanelOperation) (d d' : Db) : Prop :=
  (fresh = false ∧ existing = Some op ∧ d' = d) ∨
  (fresh = true ∧ op_status op = OperationStatus.RUNNING ∧
   String.prefix key (op_idempotencyKey op) = true ∧
   panelOperations d !! op_id op = None ∧
   d' = d <| panelOperations := <[op_id op := op]> (panelOperations d) |>).
(** The clock was read once if the operation is new. *)
Definition read_once (fresh : bool) (w w' : World) : Prop :=
  fresh = true → clock w' = clock w ∧ ticks w' = S (ticks w).
Lemma prefix_app k s : String.prefix k (k ++ s) = true.
Proof. induction k as [|a k IH]; simpl; [by destruct s|]. by destruct (Ascii.ascii_dec a a). Qed.
Lemma prefix_refl k : String.prefix k k = true.
Proof. induction k as [|a k IH]; simpl; [done|]. by destruct (Ascii.ascii_dec a a). Qed.
Lemma new_operation_Ok (mk : string → Z → HostingPanelOperation) key existing w res w' :
  (∀ id now, op_status (mk id now) = OperationStatus.RUNNING ∧
             String.prefix key (op_idempotencyKey (mk id now)) = true) →
  (id ← random_uuid; now ← new_date; _ ← create_operation (mk id now);
   mret (Some (mk id now, true))) w = (Ok res, w') →
  ∃ op fresh, res = Some (op, fresh) ∧ worked_on key op fresh existing (db w) (db w') ∧
              read_once fresh w w'.
Proof.
  intros Hmk Hm. apply bind_Ok in Hm as (id&w1&Hr&Hm). apply random_uuid_Ok in Hr as [_ ->].
  apply bind_Ok in Hm as (now&w1&Hr&Hm). apply new_date_Ok in Hr as [_ ->].
  apply bind_Ok in Hm as (?&w1&Hr&Hm). apply create_operation_Ok in Hr as (Hnew&_&->).
  apply ret_Ok in Hm as [-> ->]. exists (mk id now), true.
  split_and!; [done| |done]. right. split_and!; [done|apply Hmk|apply Hmk|exact Hnew|done].
Qed.
Lemma chosen_operation `{Sha256} action payload key existing service server requester w res w' :
  match existing with
  | Some r =>
      if retriable r then
        id ← random_uuid; now ← new_date;
        _ ← create_operation (retry_operation r key payload id now);
        mret (Some (retry_operation r key payload id now, true))
      else mret (Some (r, false))
  | None =>
      id ← random_uuid; now ← new_date;
      _ ← create_operation (first_operation action payload key service server requester id now);
      mret (Some (first_operation action payload key service server requester id now, true))
  end w = (Ok res, w') →
  ∃ op fresh, res = Some (op, fresh) ∧ worked_on key op fresh existing (db w) (db w') ∧
              read_once fresh w w'.
Proof.
  intros Ho. destruct existing as [o|]; [destruct (retriable o)|].
  - apply (new_operation_Ok (retry_operation o key payload) key (Some o)) in Ho; [done|].
    intros id now. split; [done|apply prefix_app].
  - apply ret_Ok in Ho as [-> ->]. exists o, false. split_and!; [done|by left|done].
  - apply (new_operation_Ok (first_operation action payload key service server requester)
      key None) in Ho; [done|]. intros id now. split; [done|apply prefix_refl].
Qed.
Lemma prepare_operation_exact `{Sha256} action payload event key existing w op fresh w' :
  pl_cancellationId payload = None →
  prepare_operation action payload event key existing w = (Ok (Some (op, fresh)), w') →
  worked_on key op fresh existing (db w) (db w') ∧ read_once fresh w w'.
Proof.
  intros Hc Ho. unfold prepare_operation in Ho. rewrite Hc in Ho.
  apply bind_Ok in Ho as (running&w1&Hr&Ho). apply read_Ok in Hr as [_ ->].
  apply bind_Ok in Ho as (?&w1&Hr&Ho). apply require_Ok in Hr as [_ ->].
  apply bind_Ok in Ho as (?&w1&Hr&Ho). apply read_Ok in Hr as [_ ->].
  apply bind_Ok in Ho as ([[service server] customer]&w1&Hr&Ho).
  apply lift_Ok in Hr as [_ ->].
  apply bind_Ok in Ho as (proceed&w1&Hr&Ho). apply ret_Ok in Hr as [-> ->].
  apply chosen_operation in Ho as (?&?&[= -> ->]&Ho). exact Ho.
Qed.
Lemma prepare_invoice_exact `{Sha256} action payload event w op fresh w' :
  pl_cancellationId payload = None →
  prepare_tx action payload event w = (Ok (Some (op, fresh)), w') →
  let key := operation_key action payload in
  worked_on key op fresh (latest_operation key (db w)) (db w) (db w') ∧ read_once fresh w w'.
Proof.
  intros Hc Hrun key. unfold prepare_tx in Hrun.
  apply bind_Ok in Hrun as (?&w1&Hl&Hrun). apply lock_row_Ok in Hl as ->.
  apply bind_Ok in Hrun as (existing&w1&Hr&Hrun). apply read_Ok in Hr as [He ->].
  unfold key. rewrite <- He.
  destruct existing as [o|]; [|by eapply prepare_operation_exact].
  destruct (_ && _); [|by eapply prepare_operation_exact].
  apply ret_Ok in Hrun as [[= -> ->] ->]. split; [by left|done].
Qed.

Lemma update_operation_if_Ok id p f w n w' :
  update_operation_if id p f w = (Ok n, w') →
  (n = 0 ∧ db w' = db w) ∨
  (n = 1 ∧ ∃ r now, panelOperations (db w) !! id = Some r ∧ p r = true ∧
     db w' = db w <| panelOperations :=
                      <[id := f r <| op_updatedAt := now |>]> (panelOperations (db w)) |>).
Proof.
  unfold update_operation_if. intros Hrun.
  apply bind_Ok in Hrun as (now&w1&Hn&Hrun). apply new_date_Ok in Hn as [_ ->].
  apply bind_Ok in Hrun as (m&w1&Hr&Hrun). apply read_Ok in Hr as [-> ->]. simpl in Hrun.
  destruct (panelOperations (db w) !! id) as [r|] eqn:Hr;
    [|by apply ret_Ok in Hrun as [-> ->]; left].
  destruct (p r) eqn:Hp; [|by apply ret_Ok in Hrun as [-> ->]; left].
  apply bind_Ok in Hrun as (?&w1&Hq&Hrun). apply require_Ok in Hq as [_ ->].
  apply bind_Ok in Hrun as (?&w1&Hw&Hrun). apply write_Ok in Hw as ->.
  apply ret_Ok in Hrun as [-> ->]. right. split; [done|]. by exists r, now.
Qed.
(** All that a job for an invoice does not touch. *)
Definition beyond_job (d : Db) : Db :=
  d <| services := ∅ |> <| panelOperations := ∅ |> <| outboxEvents := ∅ |>
    <| activityLogs := [] |>.
(** The operation [op] is closed as succeeded with this evidence, and no other
    operation changes. *)
Definition closed_with (op : string) (evidence : json) (d d' : Db) : Prop :=
  ∃ r, panelOperations d' = <[op := r]> (panelOperations d) ∧
       op_status r = OperationStatus.SUCCEEDED ∧ op_resultMetadata r = evidence.
Definition skipped_evidence (action : AutomationAction) (payload : AutomationPayload) : json :=
  JObj ([("skipped", JStr "NO_LONGER_ELIGIBLE");
         ("action", JStr (match action with
                          | SUSPEND => "SUSPEND" | UNSUSPEND => "UNSUSPEND" end))] ++
        sourceMetadata payload).
Lemma completeSkipped_Ok id action payload w u w' r :
  panelOperations (db w) !! id = Some r → is_running r = true →
  completeSkipped id action payload w = (Ok u, w') →
  services (db w') = services (db w) ∧ outboxEvents (db w') = outboxEvents (db w) ∧
  activityLogs (db w') = activityLogs (db w) ∧ beyond_job (db w') = beyond_job (db w) ∧
  closed_with id (skipped_evidence action payload) (db w) (db w').
Proof.
  intros Hr Hrunning Hrun. unfold completeSkipped in Hrun.
  apply bind_Ok in Hrun as (now&w1&Hn&Hrun). apply new_date_Ok in Hn as [_ ->].
  apply bind_Ok in Hrun as (n&w1&Hu&Hrun). apply ret_Ok in Hrun as [_ ->].
  unfold update_operation_if in Hu.
  apply bind_Ok in Hu as (now'&w2&Hn&Hu). apply new_date_Ok in Hn as [_ ->].
  apply bind_Ok in Hu as (m&w2&Hm&Hu). apply read_Ok in Hm as [-> ->]. simpl in Hu.
  rewrite Hr, Hrunning in Hu.
  apply bind_Ok in Hu as (?&w2&Hq&Hu). apply require_Ok in Hq as [_ ->].
  apply bind_Ok in Hu as (?&w2&Hw&Hu). apply write_Ok in Hw as ->.
  apply ret_Ok in Hu as [_ ->]. split_and!; [done..|].
  eexists. split_and!; [reflexivity|done|done].
Qed.
(** The e-mail that tells the customer. *)
Definition status_email (action : AutomationAction) (operationId serviceId id : string)
    (now : Z) : OutboxEvent :=
  pending_event id "SERVICE" serviceId
    (match action with SUSPEND => "EMAIL_SERVICE_SUSPENDED"
                     | UNSUSPEND => "EMAIL_SERVICE_REACTIVATED" end)
    ("email:service:" ++ operationId)%string
    (JObj [("schemaVersion", JNum 1); ("serviceId", JStr serviceId)]) now now.
(** The work is done: the service had a status the change starts from. *)
Definition job_done (action : AutomationAction) (payload : AutomationPayload) (op : string)
    (account : PanelAccount) (d d' : Db) : Prop :=
  let s := pl_serviceId payload in
  (∃ sv t v, services d !! s = Some sv ∧ completes_from action payload sv = true ∧
     services d' = <[s := completed_service action payload t sv <| svc_updatedAt := v |>]>
                     (services d)) ∧
  (∃ i n, outboxEvents d !! i = None ∧
     outboxEvents d' = <[i := status_email action op s i n]> (outboxEvents d)) ∧
  beyond_job d' = beyond_job d ∧
  closed_with op (JObj [("account", account_json account)]) d d'.
Lemma complete_Ok op action payload account w u w' :
  pl_cancellationId payload = None →
  complete op action payload account w = (Ok u, w') →
  job_done action payload op account (db w) (db w').
Proof.
  intros Hc Hrun. unfold complete in Hrun.
  apply bind_Ok in Hrun as (t&w1&Hn&Hrun). apply new_date_Ok in Hn as [_ ->].
  rewrite transaction_Ok in Hrun. unfold complete_tx in Hrun. rewrite Hc in Hrun.
  apply bind_Ok in Hrun as (count&w1&Hu&Hrun).
  apply bind_Ok in Hrun as (?&w2&Hr&Hrun). apply require_Ok in Hr as [Hone ->].
  apply Z.eqb_eq in Hone as ->.
  apply update_service_if_Ok in Hu as [[? _]|(_&s&v&Hs&Hfrom&Hdb)]; [done|]. simpl in Hs.
  apply bind_Ok in Hrun as (?&w2&Hr&Hrun). apply ret_Ok in Hr as [_ ->].
  apply bind_Ok in Hrun as (?&w2&Ho&Hrun).
  unfold update_operation in Ho. apply bind_Ok in Ho as (n&w3&Ho&Hr).
  apply require_Ok in Hr as [Hone ->]. apply Z.eqb_eq in Hone as ->.
  apply update_operation_if_Ok in Ho as [[? _]|(_&r&now&Hr&_&Ho)]; [done|].
  apply bind_Ok in Hrun as (?&w4&He&Hrun).
  pose proof (keeps_run panelOperations _ _ _ _ _ He) as Hp4.
  pose proof (keeps_run services _ _ _ _ _ He) as Hs4.
  pose proof (keeps_run beyond_job _ _ _ _ _ He) as Hb4.
  apply create_outbox_Ok in He as (i&n&Hi&He).
  pose proof (keeps_run panelOperations _ _ _ _ _ Hrun) as Hp5.
  pose proof (keeps_run services _ _ _ _ _ Hrun) as Hs5.
  pose proof (keeps_run outboxEvents _ _ _ _ _ Hrun) as He5.
  pose proof (keeps_run beyond_job _ _ _ _ _ Hrun) as Hb5.
  split_and!.
  - exists s, t, v. split_and!; [exact Hs|exact Hfrom|]. by rewrite Hs5, Hs4, Ho, Hdb.
  - exists i, n. rewrite He5, He. rewrite Ho, Hdb in *. by split.
  - by rewrite Hb5, Hb4, Ho, Hdb.
  - eexists. split; [by rewrite Hp5, Hp4, Ho, Hdb|]. by split_and!.
Qed.

Section panel.
Context `{ZodFormats} (fetch : WhmRequest → Io (option WhmResponse)).
Context (decipher : string → string → string → string → option string).
Context (parse_json : string → option json).

(** What the attempt of a new operation ends in: it is closed at once when the rows do
    not call for the action, else after the panel's answer, on the rows as they are
    by then. *)
Definition job_outcome (action : AutomationAction) (s i run op : string) (now : Z)
    (d d' : Db) : Prop :=
  let payload := ForInvoice s i run in
  (¬ called_for action s i now d ∧ services d' = services d ∧
   outboxEvents d' = outboxEvents d ∧ activityLogs d' = activityLogs d ∧
   beyond_job d' = beyond_job d ∧ closed_with op (skipped_evidence action payload) d d') ∨
  (called_for action s i now d ∧
   ∃ account w1 w2, db w1 = d ∧
     mutatePanel fetch decipher parse_json action s false w1 = (Ok account, w2) ∧
     pa_suspended account = (action ==b SUSPEND) ∧
     job_done action payload op account (db w2) d').
Lemma attempt_Ok op action s i run w u w' :
  panelOperations (db w) !! op_id op = Some op → op_status op = OperationStatus.RUNNING →
  attempt_operation fetch decipher parse_json op action (ForInvoice s i run) w = (Ok u, w') →
  job_outcome action s i run (op_id op) (clock w (ticks w)) (db w) (db w').
Proof.
  intros Hop Hst Hrun. unfold attempt_operation in Hrun.
  apply bind_Ok in Hrun as (changed&w1&Hr&Hrun).
  assert (change_panel fetch decipher parse_json (op_id op) action (ForInvoice s i run) w =
          (changed, w1)) as Hch.
  { unfold reify in Hr. destruct (change_panel _ _ _ _ _ _ _). by simplify_eq. }
  clear Hr. destruct changed as [[account|]|e].
  - unfold change_panel in Hch. apply bind_Ok in Hch as (b&w2&He&Hch).
    apply eligible_spec in He as (Hdb2&Hcalled). destruct b; simpl in Hch.
    2: { apply bind_Ok in Hch as (?&?&_&Hch). by apply ret_Ok in Hch as [[=] _]. }
    apply bind_Ok in Hch as (a&w3&Hm&Hch).
    apply bind_Ok in Hch as (?&w4&Hq&Hch). apply require_Ok in Hq as [Hsus ->].
    apply ret_Ok in Hch as [[= ->] ->].
    apply bind_Ok in Hrun as (done&w5&Hr&Hrun).
    destruct (complete (op_id op) action (ForInvoice s i run) a w3) as [[u'|e] w6] eqn:Hc;
      unfold reify in Hr; rewrite Hc in Hr; simplify_eq.
    + apply ret_Ok in Hrun as [_ ->]. apply complete_Ok in Hc; [|done].
      right. split; [by apply Hcalled|]. exists a, w2, w3.
      split_and!; [exact Hdb2|exact Hm|by apply eqb_prop|exact Hc].
    + unfold stop_attempt in Hrun. destruct (normalized _ _).
      apply bind_Ok in Hrun as (?&?&_&Hrun). by apply throw_Ok in Hrun.
  - apply ret_Ok in Hrun as [_ ->]. unfold change_panel in Hch.
    apply bind_Ok in Hch as (b&w2&He&Hch). apply eligible_spec in He as (Hdb2&Hcalled).
    destruct b; simpl in Hch.
    { apply bind_Ok in Hch as (?&?&_&Hch). apply bind_Ok in Hch as (?&?&_&Hch).
      by apply ret_Ok in Hch as [[=] _]. }
    apply bind_Ok in Hch as (?&w3&Hsk&Hch). apply ret_Ok in Hch as [_ ->].
    apply (completeSkipped_Ok _ _ _ _ _ _ op) in Hsk as (Hs&Ho&Hl&Hb&Hok);
      [|by rewrite Hdb2|by unfold is_running; apply bool_decide_eq_true].
    rewrite Hdb2 in *. left. split_and!; [|done..].
    intros Hc. by apply Hcalled in Hc.
  - unfold stop_attempt in Hrun. destruct (normalized _ _).
    apply bind_Ok in Hrun as (?&?&_&Hrun). by apply throw_Ok in Hrun.
Qed.

(** C26: a job of the automation for an invoice that ends well did exactly one of
    three things.  It found its work done by an earlier operation of its key and
    changed nothing.  Or it made a new operation and nothing else, and then either
    found that the rows do not call for the action at the instant it looked (the
    job's second reading of the clock) and only closed its operation, with that
    evidence; or the rows called for it at that instant (to suspend, an ACTIVE
    service billed by an OVERDUE invoice with money due; to lift a suspension, a
    service that is SUSPENDED for this invoice, the invoice PAID with nothing due,
    and no cancellation that holds), the account the panel then reported is in the
    state asked for, and on the rows as they were after that answer (the service
    still in a status the change starts from) it changed that one service's status
    with its evidence, closed its operation with the account, and told the customer
    once: no other service or operation, and no table but those of the services, the
    operations, the events and the log, changes. *)
Theorem automation_job_exact `{Sha256} data action s i run w w'
    (Haction : action_of (job_eventType data) = Ok action)
    (Hpayload : job_payload data w = (Ok (ForInvoice s i run), w))
    (Hrun : process_hosting fetch decipher parse_json data w = (Ok tt, w')) :
  let key := operation_key action (ForInvoice s i run) in
  (∃ op, latest_operation key (db w) = Some op ∧
         op_status op = OperationStatus.SUCCEEDED ∧ db w' = db w) ∨
  (∃ op, worked_on key op true (latest_operation key (db w)) (db w)
           (db w <| panelOperations := <[op_id op := op]> (panelOperations (db w)) |>) ∧
     job_outcome action s i run (op_id op) (clock w (S (ticks w)))
       (db w <| panelOperations := <[op_id op := op]> (panelOperations (db w)) |>) (db w')).
Proof.
  intros key.
  unfold process_hosting in Hrun. apply bind_Ok in Hrun as (a&w1&Hr&Hrun).
  apply lift_Ok in Hr as [Ha ->]. rewrite Haction in Ha. injection Ha as <-.
  apply bind_Ok in Hrun as (p&w1&Hr&Hrun). rewrite Hpayload in Hr. injection Hr as <- <-.
  apply bind_Ok in Hrun as (prepared&w1&Hr&Hrun). rewrite transaction_Ok in Hr.
  destruct prepared as [[op fresh]|]; [|by apply prepare_some in Hr as [? [=]]].
  apply prepare_invoice_exact in Hr as [Hw Hread]; [|done].
  pose proof Hw as [(->&Hop&Hdb)|(->&Hst&Hkey&Hnew&Hdb)].
  - left. exists op. destruct (op_status op) eqn:Hst; simpl in Hrun.
    + apply bind_Ok in Hrun as (?&?&_&Hrun). by apply throw_Ok in Hrun.
    + apply ret_Ok in Hrun as [_ ->]. done.
    + by apply throw_Ok in Hrun.
    + by apply throw_Ok in Hrun.
  - right. rewrite Hst in Hrun. destruct (Hread eq_refl) as [Hc Ht].
    exists op. rewrite <- Hdb, <- Hc, <- Ht. split; [exact Hw|].
    apply attempt_Ok in Hrun; [done| |done].
    rewrite Hdb. simpl. by rewrite lookup_insert_eq.
Qed.
End panel.

(** ** Examples *)
Definition suspension_event (status : OutboxStatus) : OutboxEvent :=
  MkOutboxEvent "e" "SERVICE" "s" "HOSTING_SUSPENSION_REQUESTED" "k"
    (payload_json (ForInvoice "s" "i" "r")) status 1 0 None None (Some 0) None 0 0.
Definition suspension_job : BackgroundJobData :=
  outbox_job_data (suspension_event OutboxStatus.PUBLISHED).
Definition overdue_invoice : Invoice :=
  MkInvoice "i" "INV-1" "k" "c" None InvoiceStatus.OVERDUE "BDT" 1000 0 0 1000 0 0 1000 "n" "e"
    JNull JNull JNull (Some 0) 0 None None 0 0.
Definition overdue_line : InvoiceItem :=
  MkInvoiceItem "l" "i" 1 None (Some "s") "Renewal" "BDT" 1 1000 0 0 1000 (Some 0) (Some 1).
(** A service to be suspended for an overdue invoice. *)
Definition overdue_world (event : OutboxStatus) (operations : list HostingPanelOperation)
    : World :=
  let w := hosting_world (hosted_service ServiceStatus.ACTIVE) in
  w <| db := db w <| invoices := {["i" := overdue_invoice]} |>
                  <| invoiceItems := {["l" := overdue_line]} |>
                  <| outboxEvents := {["e" := suspension_event event]} |>
                  <| panelOperations :=
                       list_to_map ((λ o, (op_id o, o)) <$> operations) |> |>.
(** An attempt that was cut off. *)
Definition cut_off (attempt : Z) : HostingPanelOperation :=
  @first_operation plain_sha SUSPEND (ForInvoice "s" "i" "r") "automation:suspend:s:i"
    (hosted_service ServiceStatus.ACTIVE) hosting_server None "op" 0
  <| op_attemptNumber := attempt |>.
(** A panel that does what it is asked, and one whose answers break off. *)
Definition good_panel (request : WhmRequest) : Io (option WhmResponse) :=
  mret (Some (MkWhmResponse 200 (Some (wh_operation request)))).
Definition broken_panel (request : WhmRequest) : Io (option WhmResponse) :=
  mret (Some (MkWhmResponse 200 None)).
Definition known_token (_ _ _ _ : string) : option string := Some "token".
Definition panel_json (_ : string) : option json :=
  Some (JObj [("metadata", JObj [("result", JNum 1)]);
              ("data", JObj [("acct", JArr [JObj [("user", JStr "ada");
                 ("domain", JStr "a.test"); ("suspended", JNum 1)]])])]).

Lemma unknown_result_never_retried_witness :
  let w := overdue_world OutboxStatus.PUBLISHED [cut_off 1] in
  ∃ r w', (∀ fetch decipher parse_json,
    @process_hosting all_formats plain_sha fetch decipher parse_json suspension_job w = (r, w')) ∧
    ∃ e, r = Err e.
Proof.
  intros w.
  destruct (@unknown_result_never_retried all_formats plain_sha suspension_job SUSPEND
    (ForInvoice "s" "i" "r") (cut_off 1) w) as (r&w'&Hr&_&He);
    [vm_compute; reflexivity..|].
  exists r, w'. split; [exact Hr|]. apply He; [vm_compute; discriminate|reflexivity].
Defined.

Definition third_attempt : result (option PanelAccount) * World :=
  @change_panel broken_panel known_token panel_json "op" SUSPEND (ForInvoice "s" "i" "r")
    (overdue_world OutboxStatus.PUBLISHED [cut_off 3]).
Lemma third_temporary_failure_unrecorded_witness :
  ∃ w2, @attempt_operation broken_panel known_token panel_json (cut_off 3) SUSPEND
          (ForInvoice "s" "i" "r") (overdue_world OutboxStatus.PUBLISHED [cut_off 3]) =
          (Err operation_violation, w2) ∧ panelOperations (db w2) !! "op" = Some (cut_off 3).
Proof.
  refine (proj1 (@third_temporary_failure_unrecorded broken_panel known_token
    panel_json (cut_off 3) SUSPEND (ForInvoice "s" "i" "r")
    (overdue_world OutboxStatus.PUBLISHED [cut_off 3]) (JsError "terminated") (snd third_attempt)
    "HOSTING_AUTOMATION_TEMPORARILY_UNAVAILABLE" (cut_off 3) _ _ _ _ _));
    [reflexivity| |reflexivity|vm_compute; reflexivity|reflexivity].
  apply run_outcome. vm_compute. reflexivity.
Defined.

Lemma early_job_is_lost_witness :
  let w := overdue_world OutboxStatus.PROCESSING [] in
  @process_job all_formats World (@process_hosting all_formats plain_sha good_panel known_token
    panel_json) (λ _, mret tt) (job_json suspension_job) w =
  (Err (UnrecoverableError "HOSTING_AUTOMATION_OUTBOX_REFERENCE_INVALID"), w).
Proof.
  intros w.
  apply (proj1 (@early_job_is_lost all_formats plain_sha good_panel known_token panel_json
    suspension_job (job_json suspension_job) (suspension_event OutboxStatus.PROCESSING) SUSPEND w
    ltac:(vm_compute; reflexivity) eq_refl eq_refl eq_refl eq_refl eq_refl eq_refl)).
  reflexivity.
Defined.

Lemma hosting_requests_understood_witness :
  let w := overdue_world OutboxStatus.PUBLISHED [] in
  let w' := snd (@requestSuspension all_formats "s" "i" "r" w) in
  @requests all_formats SUSPEND (ForInvoice "s" "i" "r") None (db w) (db w').
Proof.
  intros w. cbv zeta. apply (proj1 (@hosting_requests_understood all_formats)).
  apply run_outcome. vm_compute. reflexivity.
Defined.

Definition suspended : result unit * World :=
  @process_hosting all_formats plain_sha good_panel known_token panel_json suspension_job
    (overdue_world OutboxStatus.PUBLISHED []).
Lemma automation_job_exact_witness :
  fst suspended = Ok tt ∧
  svc_status <$> services (db (snd suspended)) !! "s" = Some ServiceStatus.SUSPENDED ∧
  ∃ op, op_status <$> panelOperations (db (snd suspended)) !! op = Some OperationStatus.SUCCEEDED.
Proof.
  split; [vm_compute; reflexivity|]. split; [vm_compute; reflexivity|].
  destruct (@automation_job_exact all_formats good_panel known_token panel_json
    plain_sha suspension_job SUSPEND "s" "i" "r" (overdue_world OutboxStatus.PUBLISHED [])
    (snd suspended)) as [(op&Hop&_)|(op&_&Hout)].
  - reflexivity.
  - vm_compute. reflexivity.
  - apply run_outcome. vm_compute. reflexivity.
  - vm_compute in Hop. discriminate.
  - destruct Hout as [(Hno&_)|(_&?&?&?&_&_&_&_&_&_&r&Hr&Hs&_)].
    + exfalso. apply Hno. exists (hosted_service ServiceStatus.ACTIVE), overdue_invoice.
      split_and!; [reflexivity..| |reflexivity|reflexivity|reflexivity].
      exists "l", overdue_line. by split_and!.
    + exists (op_id op). by rewrite Hr, lookup_insert_eq, <- Hs.
Defined.
