(* ===== verification/PanelProtocol.v ===== *)
(** * The protocol of panel operations

    The API and the worker write one table of panel operations.  Here: the three
    moves every transaction of both makes on it, the invariant the moves keep, and
    that every transaction is such a move. *)
From S2P Require Import Prelude JsString JsDate Json Money States Calendar Database Invoices Payments Gateways GatewayAdapters Orders BackgroundJobs HostingServices HostingAutomation HostingPanels PanelOperations ServiceLifecycle HostingProperties.

Notation operations := (gmap string HostingPanelOperation).

(** ** Specification *)
(** What of an operation never changes. *)
Definition operation_identity (r : HostingPanelOperation) :=
  (op_id r, op_serviceId r, op_serverId r, op_retryOfOperationId r, op_type r,
   op_idempotencyKey r, op_attemptNumber r, op_requestMetadata r).
Definition runs_for (serviceId : string) (r : HostingPanelOperation) : Prop :=
  op_serviceId r = Some serviceId ∧ op_status r = OperationStatus.RUNNING.
Definition creates (serviceId : string) (r : HostingPanelOperation) : Prop :=
  op_serviceId r = Some serviceId ∧ op_type r = OperationType.CREATE_ACCOUNT.
Definition no_colon (s : string) : bool := all_chars (λ c, negb (Ascii.eqb c ":")) s.
(** The keys of the worker begin with what they are for. *)
Definition automation_key_ok (r : HostingPanelOperation) : Prop :=
  String.prefix "automation:" (op_idempotencyKey r) = true →
  ∃ action payload rest, no_colon (pl_serviceId payload) = true ∧
    op_idempotencyKey r = (operation_key action payload ++ rest)%string ∧
    op_serviceId r = Some (pl_serviceId payload).
(** When a new operation may start beside those of [m]. *)
Record startable (m : operations) (r : HostingPanelOperation) : Prop :=
  { start_running : op_status r = OperationStatus.RUNNING;
    start_alone : ∀ s i q, op_serviceId r = Some s → m !! i = Some q → ¬ runs_for s q;
    start_only_retry : ∀ p i q, op_retryOfOperationId r = Some p → m !! i = Some q →
                       op_retryOfOperationId q ≠ Some p;
    start_key : automation_key_ok r;
    start_creation : ∀ s, creates s r →
      String.prefix "hosting-operation:" (op_idempotencyKey r) = true ∧
      match op_retryOfOperationId r with
      | None => op_attemptNumber r = 1 ∧ ∀ i q, m !! i = Some q → ¬ creates s q
      | Some p => ∃ q, m !! p = Some q ∧ creates s q ∧
                       op_attemptNumber r = op_attemptNumber q + 1 ∧
                       op_attemptNumber q < MAX_MANUAL_ATTEMPTS
      end }.
(** The moves: nothing, the outcome of an operation, a new operation. *)
Inductive ops_move (m : operations) : operations → Prop :=
| ops_same : ops_move m m
| ops_settled i r r' :
    m !! i = Some r → operation_identity r' = operation_identity r →
    op_status r' ≠ OperationStatus.RUNNING → ops_move m (<[i := r']> m)
| ops_started r :
    m !! op_id r = None → startable m r → ops_move m (<[op_id r := r]> m).

(** ** The invariant *)
Record operations_ok (m : operations) : Prop :=
  { ok_keyed : ∀ i r, m !! i = Some r → op_id r = i;
    ok_alone : ∀ s i j r q, m !! i = Some r → m !! j = Some q → runs_for s r →
               runs_for s q → i = j;
    ok_retries : ∀ p i j r q, m !! i = Some r → m !! j = Some q →
                 op_retryOfOperationId r = Some p → op_retryOfOperationId q = Some p → i = j;
    ok_keys : ∀ i r, m !! i = Some r → automation_key_ok r;
    ok_creations : ∀ s i r, m !! i = Some r → creates s r →
      String.prefix "hosting-operation:" (op_idempotencyKey r) = true ∧
      1 <= op_attemptNumber r <= MAX_MANUAL_ATTEMPTS ∧
      match op_retryOfOperationId r with
      | None => op_attemptNumber r = 1
      | Some p => ∃ q, m !! p = Some q ∧ creates s q ∧
                       op_attemptNumber r = op_attemptNumber q + 1
      end;
    ok_roots : ∀ s i j r q, m !! i = Some r → m !! j = Some q → creates s r → creates s q →
               op_retryOfOperationId r = None → op_retryOfOperationId q = None → i = j }.

Lemma empty_ok : operations_ok ∅.
Proof. split; intros *; rewrite ?lookup_empty; done. Qed.

(** A table read through its identities. *)
Lemma same_identity r r' :
  operation_identity r' = operation_identity r →
  op_id r' = op_id r ∧ op_serviceId r' = op_serviceId r ∧
  op_retryOfOperationId r' = op_retryOfOperationId r ∧ op_type r' = op_type r ∧
  op_idempotencyKey r' = op_idempotencyKey r ∧ op_attemptNumber r' = op_attemptNumber r.
Proof. unfold operation_identity. intros [= ]. by split_and!. Qed.
Section settled.
Context (m : operations) (k : string) (old new : HostingPanelOperation).
Context (Hold : m !! k = Some old) (Hid : operation_identity new = operation_identity old).
Context (Hst : op_status new ≠ OperationStatus.RUNNING).

(** Every row was there before, under the same identity, and did not start. *)
Lemma settled_lookup i r :
  <[k := new]> m !! i = Some r →
  ∃ r0, m !! i = Some r0 ∧ operation_identity r = operation_identity r0 ∧
        (op_status r = OperationStatus.RUNNING → r = r0).
Proof using Hold Hid Hst.
  intros Hr. apply lookup_insert_Some in Hr as [[<- <-]|[_ Hr]].
  - exists old. by split_and!.
  - by exists r.
Qed.
Lemma settled_keeps p q :
  m !! p = Some q →
  ∃ q', <[k := new]> m !! p = Some q' ∧ operation_identity q' = operation_identity q.
Proof using Hold Hid.
  intros Hq. destruct (decide (k = p)) as [<-|].
  - exists new. rewrite lookup_insert_eq. split; [done|]. rewrite Hold in Hq. by injection Hq as <-.
  - exists q. by rewrite lookup_insert_ne.
Qed.
Lemma settled_ok : operations_ok m → operations_ok (<[k := new]> m).
Proof using Hold Hid Hst.
  intros Hm. split.
  - intros i r Hr. apply settled_lookup in Hr as (r0&Hr&(->&_)%same_identity&_).
    by apply (ok_keyed m Hm).
  - intros s i j r q Hr Hq [Hs1 Hr1] [Hs2 Hr2].
    apply settled_lookup in Hr as (r0&Hr&_&Er). rewrite <- (Er Hr1) in Hr.
    apply settled_lookup in Hq as (q0&Hq&_&Eq). rewrite <- (Eq Hr2) in Hq.
    eapply (ok_alone m Hm s); [exact Hr|exact Hq|by split..].
  - intros p i j r q Hr Hq Hp1 Hp2.
    apply settled_lookup in Hr as (r0&Hr&(_&_&E1&_)%same_identity&_).
    apply settled_lookup in Hq as (q0&Hq&(_&_&E2&_)%same_identity&_).
    eapply (ok_retries m Hm p); [exact Hr|exact Hq|congruence..].
  - intros i r Hr. apply settled_lookup in Hr as (r0&Hr&(_&E1&_&_&E2&_)%same_identity&_).
    pose proof (ok_keys m Hm i r0 Hr) as Hk. unfold automation_key_ok. by rewrite E1, E2.
  - intros s i r Hr [Hs Ht].
    apply settled_lookup in Hr as (r0&Hr&(_&E1&E2&E3&E4&E5)%same_identity&_).
    rewrite E4, E5, E2. rewrite E1 in Hs. rewrite E3 in Ht.
    destruct (ok_creations m Hm s i r0 Hr (conj Hs Ht)) as (Hk&Ha&Hp). split_and!; try done.
    1,2: lia. destruct (op_retryOfOperationId r0) as [p|]; [|done].
    destruct Hp as (q&Hq&[Hqs Hqt]&Hqa). apply settled_keeps in Hq as (q'&Hq'&Hi).
    apply same_identity in Hi as (_&F1&_&F3&_&F5). exists q'. unfold creates.
    rewrite F1, F3, F5. by split_and!.
  - intros s i j r q Hr Hq [Hs1 Ht1] [Hs2 Ht2] Hp1 Hp2.
    apply settled_lookup in Hr as (r0&Hr&(_&E1&E2&E3&_)%same_identity&_).
    apply settled_lookup in Hq as (q0&Hq&(_&F1&F2&F3&_)%same_identity&_).
    eapply (ok_roots m Hm s); [exact Hr|exact Hq| | | |]; unfold creates; split_and?; congruence.
Qed.
End settled.
Lemma started_ok m r :
  operations_ok m → m !! op_id r = None → startable m r → operations_ok (<[op_id r := r]> m).
Proof.
  intros Hm Hnew Hr. split.
  - intros i q Hq. apply lookup_insert_Some in Hq as [[<- <-]|[_ Hq]]; [done|].
    by apply (ok_keyed m Hm).
  - intros s i j a b Ha Hb H1 H2.
    apply lookup_insert_Some in Ha as [[<- <-]|[_ Ha]];
      apply lookup_insert_Some in Hb as [[<- <-]|[_ Hb]]; [done| | |].
    + by destruct (start_alone m r Hr s j b (proj1 H1) Hb).
    + by destruct (start_alone m r Hr s i a (proj1 H2) Ha).
    + by eapply (ok_alone m Hm s).
  - intros p i j a b Ha Hb H1 H2.
    apply lookup_insert_Some in Ha as [[<- <-]|[_ Ha]];
      apply lookup_insert_Some in Hb as [[<- <-]|[_ Hb]]; [done| | |].
    + by destruct (start_only_retry m r Hr p j b H1 Hb).
    + by destruct (start_only_retry m r Hr p i a H2 Ha).
    + by eapply (ok_retries m Hm p).
  - intros i q Hq. apply lookup_insert_Some in Hq as [[<- <-]|[_ Hq]].
    + apply (start_key m r Hr).
    + by apply (ok_keys m Hm i).
  - intros s i q Hq Hc. apply lookup_insert_Some in Hq as [[<- <-]|[_ Hq]].
    + destruct (start_creation m r Hr s Hc) as [Hk Hp]. split; [done|].
      destruct (op_retryOfOperationId r) as [p|].
      * destruct Hp as (q&Hq&Hqc&Ha&Hlt).
        pose proof (ok_creations m Hm s p q Hq Hqc) as (_&?&_). split; [lia|].
        exists q. rewrite lookup_insert_ne by congruence. done.
      * destruct Hp as [-> _]. by split.
    + destruct (ok_creations m Hm s i q Hq Hc) as (Hk&Ha&Hp). split_and!; try done; try lia.
      destruct (op_retryOfOperationId q) as [p|]; [|done]. destruct Hp as (q'&Hq'&?).
      exists q'. rewrite lookup_insert_ne by congruence. done.
  - intros s i j a b Ha Hb H1 H2 P1 P2.
    assert (∀ k q, m !! k = Some q → creates s q → creates s r →
              op_retryOfOperationId r = None → False) as Hroot.
    { intros k q Hq Hc Hc' Hp. pose proof (start_creation m r Hr s Hc') as [_ Hs].
      rewrite Hp in Hs. by apply (proj2 Hs k q). }
    apply lookup_insert_Some in Ha as [[<- <-]|[_ Ha]];
      apply lookup_insert_Some in Hb as [[<- <-]|[_ Hb]]; [done| | |].
    + by destruct (Hroot j b Hb H2 H1 P1).
    + by destruct (Hroot i a Ha H1 H2 P2).
    + by eapply (ok_roots m Hm s).
Qed.
(** Every move keeps the invariant. *)
Lemma move_ok m m' : ops_move m m' → operations_ok m → operations_ok m'.
Proof.
  intros [|i r r' Hr Hi Hs|r Hn Hr] Hm; [done| |].
  - by eapply settled_ok.
  - by apply started_ok.
Qed.

(** ** Bounds *)
(** One creation of a service has a given attempt number. *)
Lemma creation_by_attempt m s : operations_ok m → ∀ n i j r q,
  m !! i = Some r → m !! j = Some q → creates s r → creates s q →
  op_attemptNumber r = Z.of_nat n → op_attemptNumber q = Z.of_nat n → i = j.
Proof.
  intros Hm. induction n as [|n IH]; intros i j r q Hr Hq Cr Cq An Bn;
    destruct (ok_creations m Hm s i r Hr Cr) as (_&Ha&Hp);
    destruct (ok_creations m Hm s j q Hq Cq) as (_&Hb&Hp'); [lia|].
  assert (∀ k t, m !! k = Some t → creates s t → 1 <= op_attemptNumber t) as Hpos.
  { intros k t Ht Ct. destruct (ok_creations m Hm s k t Ht Ct) as (_&?&_). lia. }
  destruct (op_retryOfOperationId r) as [p|] eqn:P1;
    destruct (op_retryOfOperationId q) as [p'|] eqn:P2.
  - destruct Hp as (t&Ht&Ct&E1), Hp' as (t'&Ht'&Ct'&E2).
    assert (p = p') as <- by (eapply (IH p p' t t'); [done..|lia|lia]).
    by eapply (ok_retries m Hm p).
  - destruct Hp as (t&Ht&Ct&E1). specialize (Hpos p t Ht Ct). lia.
  - destruct Hp' as (t&Ht&Ct&E1). specialize (Hpos p' t Ht Ct). lia.
  - by eapply (ok_roots m Hm s).
Qed.
Definition creations (s : string) (m : operations) : list HostingPanelOperation :=
  rows (creation_of s) m.
Definition running (s : string) (m : operations) : list HostingPanelOperation :=
  rows (λ r, bool_decide (op_serviceId r = Some s) && is_running r) m.
Lemma creation_of_spec s r : creation_of s r = true ↔ creates s r.
Proof. unfold creation_of, creates. by rewrite andb_true_iff, !bool_decide_eq_true. Qed.
(** Rows whose images under [f] determine them have distinct images. *)
Lemma rows_images {R A} (p : R → bool) (f : R → A) (m : gmap string R) :
  (∀ i j r q, m !! i = Some r → m !! j = Some q → p r = true → p q = true →
              f r = f q → i = j) → NoDup (f <$> rows p m).
Proof.
  intros Hf. unfold rows. pose proof (NoDup_fst_map_to_list m) as Hnd.
  assert (∀ i r, (i, r) ∈ map_to_list m → m !! i = Some r) as Hin
    by (intros; by apply elem_of_map_to_list).
  induction (map_to_list m) as [|[i r] l IH]; simpl in *; [constructor|].
  inversion Hnd as [|?? Hni Hnd']; subst. clear Hnd; rename Hnd' into Hnd.
  assert (NoDup (f <$> List.filter p (snd <$> l))) as Hl.
  { apply IH; [done|]. intros j q Hj. apply Hin. by right. }
  destruct (p r) eqn:Hp; [|done]. simpl. constructor; [|done].
  intros Hx. apply list_elem_of_fmap in Hx as (q&Hfq&Hq).
  apply list_elem_of_In, List.filter_In in Hq as [Hq Hpq]. apply list_elem_of_In in Hq.
  apply list_elem_of_fmap in Hq as ([j q']&->&Hq). simpl in *. apply Hni.
  apply list_elem_of_fmap. exists (j, q'). split; [|done]. simpl.
  eapply Hf; [apply Hin; by left|apply Hin; by right|done..].
Qed.
Lemma creations_bound m s : operations_ok m → (length (creations s m) <= 5)%nat.
Proof.
  intros Hm. unfold creations.
  assert (NoDup (op_attemptNumber <$> rows (creation_of s) m)) as Hnd.
  { apply rows_images. intros i j r q Hr Hq Cr Cq E.
    apply creation_of_spec in Cr, Cq.
    pose proof (ok_creations m Hm s i r Hr Cr) as (_&?&_).
    apply (creation_by_attempt m s Hm (Z.to_nat (op_attemptNumber r)) i j r q); try done; lia. }
  assert (op_attemptNumber <$> rows (creation_of s) m ⊆ [1; 2; 3; 4; 5]) as Hsub.
  { intros n Hn. apply list_elem_of_fmap in Hn as (r&->&Hr). apply elem_rows in Hr as (Cr&i&Hi).
    apply creation_of_spec in Cr. destruct (ok_creations m Hm s i r Hi Cr) as (_&Ha&_).
    unfold MAX_MANUAL_ATTEMPTS in Ha. apply list_elem_of_In. simpl. lia. }
  apply NoDup_submseteq in Hsub; [|done]. apply submseteq_length in Hsub.
  rewrite length_fmap in Hsub. exact Hsub.
Qed.
Lemma running_bound m s : operations_ok m → (length (running s m) <= 1)%nat.
Proof.
  intros Hm. unfold running.
  assert (NoDup ((λ _, tt) <$> rows (λ r, bool_decide (op_serviceId r = Some s) && is_running r) m))
    as Hnd.
  { apply rows_images. intros i j r q Hr Hq Cr Cq _. unfold is_running in *.
    apply andb_true_iff in Cr as [?%bool_decide_eq_true ?%bool_decide_eq_true].
    apply andb_true_iff in Cq as [?%bool_decide_eq_true ?%bool_decide_eq_true].
    by eapply (ok_alone m Hm s). }
  assert ((λ _, tt) <$> rows (λ r, bool_decide (op_serviceId r = Some s) && is_running r) m
          ⊆ [tt]) as Hsub by (intros [] _; by left).
  apply NoDup_submseteq in Hsub; [|done]. apply submseteq_length in Hsub.
  rewrite length_fmap in Hsub. exact Hsub.
Qed.

(** ** The transactions make these moves *)
Class MovesOps {A} (m : Io A) : Prop :=
  moves_ops : ∀ w a w', operations_ok (panelOperations (db w)) → m w = (Ok a, w') →
    ops_move (panelOperations (db w)) (panelOperations (db w')).
#[export] Instance moves_keeps {A} (m : Io A) : Keeps panelOperations m → MovesOps m | 5.
Proof. intros Hk w a w' _ H. rewrite (keeps_run _ _ _ _ _ Hk H). constructor. Qed.
Lemma moves_before {A B} (m : Io A) (k : A → Io B) :
  Keeps panelOperations m → (∀ a, MovesOps (k a)) → MovesOps (m ≫= k).
Proof.
  intros Hm Hk w b w' Hw H. apply bind_Ok in H as (a&w1&H1&H2).
  apply (keeps_run _ _ _ _ _ Hm) in H1. rewrite <- H1 in Hw |- *. exact (Hk _ _ _ _ Hw H2).
Qed.
Lemma moves_after {A B} (m : Io A) (k : A → Io B) :
  MovesOps m → (∀ a, Keeps panelOperations (k a)) → MovesOps (m ≫= k).
Proof.
  intros Hm Hk w b w' Hw H. apply bind_Ok in H as (a&w1&H1&H2).
  apply (keeps_run _ _ _ _ _ (Hk a)) in H2. rewrite H2. exact (Hm _ _ _ Hw H1).
Qed.
Lemma moves_settled id p f :
  (∀ r, operation_identity (f r) = operation_identity r ∧
        op_status (f r) ≠ OperationStatus.RUNNING) → MovesOps (update_operation_if id p f).
Proof.
  intros Hf w n w' _ H. apply update_operation_if_Ok in H as [[_ ->]|(_&r&now&Hr&_&->)].
  - constructor.
  - destruct (Hf r) as [Hi Hs]. by apply (ops_settled _ id r).
Qed.
Lemma moves_updated id f :
  (∀ r, operation_identity (f r) = operation_identity r ∧
        op_status (f r) ≠ OperationStatus.RUNNING) → MovesOps (update_operation id f).
Proof.
  intros Hf. unfold update_operation. apply moves_after; [by apply moves_settled|apply _].
Qed.
Lemma moves_transaction {A} (m : Io A) w r w' :
  MovesOps m → operations_ok (panelOperations (db w)) → transaction m w = (r, w') →
  ops_move (panelOperations (db w)) (panelOperations (db w')).
Proof.
  intros Hm Hw H. destruct r as [a|e].
  - rewrite transaction_Ok in H. exact (Hm _ _ _ Hw H).
  - apply transaction_Err_db in H as ->. constructor.
Qed.

Ltac unfold_panel m :=
  match m with
  | applyServiceSuccess _ _ _ _ _ _ => unfold applyServiceSuccess
  | find_operation_or_throw _ => unfold find_operation_or_throw
  | operation_record _ => unfold operation_record
  | find_operation _ => unfold find_operation
  | assertAccountCreationAttempt _ _ => unfold assertAccountCreationAttempt
  | prepare_cancellation _ _ _ _ _ => unfold prepare_cancellation
  end.
#[export] Hint Extern 6 (Keeps panelOperations ?m) => first [unfold_panel m|unfold_table m]
  : typeclass_instances.

#[export] Instance success_moves id actor context success a :
  MovesOps (completeSuccess_tx id actor context success a).
Proof.
  unfold completeSuccess_tx. do 3 (apply moves_before; [apply _|intros]).
  apply moves_after; [|apply _]. by apply moves_updated.
Qed.
#[export] Instance failure_moves id error actor context :
  MovesOps (completeFailure_tx id error actor context).
Proof.
  unfold completeFailure_tx. do 3 (apply moves_before; [apply _|intros]).
  apply moves_after; [|apply _]. apply moves_updated. intros r. split; [done|]. simpl.
  by destruct (bool_decide _).
Qed.
#[export] Instance worker_fail_moves id n kind code : MovesOps (fail id n kind code).
Proof.
  unfold fail. apply moves_before; [apply _|intros now]. apply moves_after; [|apply _].
  apply moves_settled. intros r. split; [done|]. simpl. by destruct (kind ==b _).
Qed.
#[export] Instance worker_skip_moves id action payload :
  MovesOps (completeSkipped id action payload).
Proof.
  unfold completeSkipped. apply moves_before; [apply _|intros now].
  apply moves_after; [|apply _]. by apply moves_settled.
Qed.
#[export] Instance worker_complete_moves id action payload account now :
  MovesOps (complete_tx id action payload account now).
Proof.
  unfold complete_tx. do 3 (apply moves_before; [apply _|intros]).
  apply moves_after; [by apply moves_updated|apply _].
Qed.

Lemma create_operation_spec r w u w' :
  create_operation r w = (Ok u, w') →
  panelOperations (db w) !! op_id r = None ∧
  (∀ p i q, op_retryOfOperationId r = Some p → panelOperations (db w) !! i = Some q →
            op_retryOfOperationId q ≠ Some p) ∧
  (∀ i q, panelOperations (db w) !! i = Some q → op_idempotencyKey q ≠ op_idempotencyKey r) ∧
  panelOperations (db w') = <[op_id r := r]> (panelOperations (db w)).
Proof.
  unfold create_operation. intros Hrun.
  apply bind_Ok in Hrun as (?&w1&Hr&Hrun). apply read_Ok in Hr as [-> ->].
  apply bind_Ok in Hrun as (?&w1&Hr&Hrun). apply require_Ok in Hr as [Hb ->].
  apply bind_Ok in Hrun as (?&w1&Hr&Hrun). apply require_Ok in Hr as [_ ->].
  apply write_Ok in Hrun as ->. rewrite !andb_true_iff, bool_decide_eq_true in Hb.
  destruct Hb as [[Hn Hk] Hu]. split_and!; [done| | |done].
  - intros p i q Hp Hq. apply unique_opt_spec in Hu as [Hu|Hu]; [congruence|].
    rewrite <- Hp. exact (Hu i q Hq).
  - exact (proj1 (unique_in_spec _ _ _) Hk).
Qed.
Lemma some_row_false {R} (p : R → bool) (m : gmap string R) :
  some_row p m = false ↔ ∀ i r, m !! i = Some r → p r = false.
Proof.
  unfold some_row. rewrite negb_false_iff, bool_decide_eq_true. apply rows_nil.
Qed.
(** Keys of the API are not keys of the worker. *)
Lemma api_key_ok r k : op_idempotencyKey r = operation_key_of k → automation_key_ok r.
Proof. intros E H. rewrite E in H. done. Qed.
Lemma api_key_prefix k : String.prefix "hosting-operation:" (operation_key_of k) = true.
Proof. apply prefix_app. Qed.

#[export] Instance test_moves server key print actor context options :
  (∃ k, key = operation_key_of k) →
  MovesOps (createOperation_tx server key print actor context options).
Proof.
  intros [k ->]. unfold createOperation_tx. do 2 (apply moves_before; [apply _|intros]).
  apply moves_after; [|apply _]. intros w u w' _ H.
  apply create_operation_spec in H as (Hn&Hp&_&->). apply ops_started; [exact Hn|].
  split; [done|done|exact Hp|by eapply api_key_ok|]. intros s [Hs _]. done.
Qed.
Section prepare.
Context (hmac_hex : string → string → string) (fingerprintKey : string).

(** The options of a request: an attempt number comes with what it retries. *)
Definition options_ok (o : ExecutionOptions) : Prop :=
  eo_retryOfOperationId o = None → eo_attemptNumber o = None.
Lemma assert_creation_Ok s options w u w' :
  assertAccountCreationAttempt s options w = (Ok u, w') → w' = w ∧
  match eo_retryOfOperationId options with
  | None => ∀ i q, panelOperations (db w) !! i = Some q → ¬ creates s q
  | Some p => ∃ q, panelOperations (db w) !! p = Some q ∧ creates s q ∧
      eo_attemptNumber options = Some (op_attemptNumber q + 1) ∧
      op_attemptNumber q < MAX_MANUAL_ATTEMPTS
  end.
Proof.
  unfold assertAccountCreationAttempt. intros H. destruct (eo_retryOfOperationId options) as [p|].
  - apply bind_Ok in H as (?&w1&Hr&H). apply read_Ok in Hr as [-> ->].
    apply bind_Ok in H as (?&w1&Hr&H). apply require_Ok in Hr as [Hb ->].
    apply bind_Ok in H as (?&w1&Hr&H). apply read_Ok in Hr as [-> ->].
    apply bind_Ok in H as (?&w1&Hr&H). apply require_Ok in Hr as [_ ->].
    apply bind_Ok in H as (?&w1&Hr&H). apply read_Ok in Hr as [-> ->].
    apply require_Ok in H as [_ ->]. split; [done|].
    destruct (panelOperations (db w) !! p) as [q|]; [|done]. exists q. split; [done|].
    unfold creation_retriable in Hb. rewrite !andb_true_iff in Hb.
    destruct Hb as [[[[Hc _] _] Ha%Z.ltb_lt] He%bool_decide_eq_true].
    apply creation_of_spec in Hc. by split_and!.
  - apply bind_Ok in H as (?&w1&Hr&H). apply read_Ok in Hr as [-> ->].
    apply require_Ok in H as [Hb ->]. split; [done|]. intros i q Hq Hc.
    apply negb_true_iff in Hb. rewrite some_row_false in Hb.
    apply creation_of_spec in Hc. by rewrite (Hb i q Hq) in Hc.
Qed.
Lemma prepare_panel_moves s input actor context options :
  options_ok options →
  MovesOps (prepare_panel_tx hmac_hex fingerprintKey s input actor context options).
Proof.
  unfold options_ok. intros Hopt w r w' Hw H. unfold prepare_panel_tx in H.
  apply bind_Ok in H as (?&w1&Hl&H). apply lock_row_Ok in Hl as ->.
  apply bind_Ok in H as (concurrent&w1&Hf&H). apply (keeps_run panelOperations) in Hf; [|apply _].
  rewrite <- Hf in Hw |- *. clear Hf w.
  destruct concurrent as [record|]; [by run_inv; constructor|].
  do 2 (apply bind_Ok in H as (?&w2&Hr&H); first [apply read_Ok in Hr as [_ ->]
                                                 |apply lift_Ok in Hr as [_ ->]]).
  do 3 (apply bind_Ok in H as (?&w2&Hr&H); first [apply read_Ok in Hr as [_ ->]
                                                 |apply lift_Ok in Hr as [_ ->]]).
  apply bind_Ok in H as (?&w2&Hr&H). apply require_Ok in Hr as [_ ->].
  apply bind_Ok in H as (?&w2&Hr&H). apply lift_Ok in Hr as [_ ->].
  apply bind_Ok in H as (?&w2&Hr&H). apply read_Ok in Hr as [-> ->].
  apply bind_Ok in H as (?&w2&Hr&H). apply require_Ok in Hr as [Hrun ->].
  apply bind_Ok in H as (?&w2&Hc&H).
  assert (w2 = w1 ∧ (is_create (eh_action input) = true →
            match eo_retryOfOperationId options with
            | None => ∀ i q, panelOperations (db w1) !! i = Some q → ¬ creates s q
            | Some p => ∃ q, panelOperations (db w1) !! p = Some q ∧ creates s q ∧
                eo_attemptNumber options = Some (op_attemptNumber q + 1) ∧
                op_attemptNumber q < MAX_MANUAL_ATTEMPTS
            end)) as [-> Hcreate].
  { apply when_Ok in Hc as [[_ Hc]|[Hn ->]]; [|split; [done|congruence]].
    apply assert_creation_Ok in Hc as [-> Hc]. by split. }
  apply bind_Ok in H as (id&w2&Hr&H). apply random_uuid_Ok in Hr as [_ ->].
  apply bind_Ok in H as (now&w2&Hr&H). apply new_date_Ok in Hr as [_ ->].
  apply bind_Ok in H as (?&w2&Ho&H). apply create_operation_spec in Ho as (Hn&Hp&_&Ho).
  apply (keeps_run panelOperations) in H; [|apply _]. rewrite H, Ho.
  apply ops_started; [exact Hn|]. split; [done| |exact Hp|by eapply api_key_ok|].
  - intros t i q [= <-] Hq [Hs Hq']. apply negb_true_iff in Hrun.
    rewrite some_row_false in Hrun. specialize (Hrun i q Hq). simpl in Hrun.
    unfold is_running in Hrun. rewrite Hs, Hq' in Hrun. by rewrite !bool_decide_eq_true_2 in Hrun.
  - intros t [[= <-] Ht]. split; [apply api_key_prefix|]. simpl in *.
    assert (is_create (eh_action input) = true) as Hc' by (by destruct (eh_action input)).
    specialize (Hcreate Hc'). destruct (eo_retryOfOperationId options) as [p|].
    + destruct Hcreate as (q&Hq&Cq&->&Ha). by exists q.
    + split; [|done]. simpl. by rewrite Hopt.
Qed.
End prepare.

(** ** The worker's part *)
Lemma prefix_spec p s : String.prefix p s = true → ∃ t, s = (p ++ t)%string.
Proof.
  revert s. induction p as [|c p IH]; intros s H; simpl in H; [by exists s|].
  destruct s as [|d s]; [done|]. simpl in H. destruct (ascii_dec c d) as [->|]; [|done].
  destruct (IH s H) as [t ->]. by exists t.
Qed.
Lemma latest_in key d r :
  latest_operation key d = Some r →
  String.prefix key (op_idempotencyKey r) = true ∧ ∃ i, panelOperations d !! i = Some r.
Proof.
  unfold latest_operation. intros H.
  assert (∀ l, fold_right (λ r best, match best with
      | Some b => if op_attemptNumber b <? op_attemptNumber r then Some r else Some b
      | None => Some r end) None l = Some r → r ∈ l) as Hin.
  { induction l as [|a l IH]; simpl; intros Hl; [done|].
    destruct (fold_right _ _ l) as [b|].
    - destruct (_ <? _); injection Hl as <-; [by left|right; by apply IH].
    - injection Hl as <-. by left. }
  apply Hin, elem_rows in H. exact H.
Qed.
(** What comes before the first colon is determined. *)
Lemma before_colon a b s t :
  no_colon a = true → no_colon b = true →
  (a ++ String ":" s = b ++ String ":" t)%string → a = b.
Proof.
  revert b. induction a as [|c a IH]; intros [|d b] Ha Hb E; simpl in *.
  - done.
  - injection E as E _. subst d. done.
  - injection E as E _. subst c. done.
  - injection E as <- E. apply andb_true_iff in Ha as [_ Ha], Hb as [_ Hb]. f_equal.
    by apply IH.
Qed.
Lemma key_service action action' p p' rest rest' :
  no_colon (pl_serviceId p) = true → no_colon (pl_serviceId p') = true →
  (operation_key action p ++ rest = operation_key action' p' ++ rest')%string →
  pl_serviceId p = pl_serviceId p'.
Proof.
  intros Hp Hp' E. unfold operation_key in E. rewrite <- !app_string_assoc in E.
  destruct action, action'; simpl in E; injection E as E; try done;
    by apply before_colon in E.
Qed.
Lemma operation_key_automation action p :
  String.prefix "automation:" (operation_key action p) = true.
Proof. apply prefix_app. Qed.
(** Rows of services stand under their primary keys. *)
Definition services_keyed (d : Db) : Prop := ∀ i s, services d !! i = Some s → svc_id s = i.

Section worker.
Context `{Sha256} (action : AutomationAction) (payload : AutomationPayload).
Context (no_colon_id : no_colon (pl_serviceId payload) = true).

Lemma prepare_cancellation_idle c event service is_busy w w' :
  prepare_cancellation payload c event service is_busy w = (Ok true, w') → is_busy = false.
Proof.
  intros Hp. unfold prepare_cancellation in Hp.
  apply bind_Ok in Hp as (now&w1&_&Hp). apply bind_Ok in Hp as (found&w2&_&Hp).
  destruct found as [[request due]|]; [|by apply ret_Ok in Hp as [[=] _]].
  destruct is_busy; [|done]. apply bind_Ok in Hp as (?&w3&_&Hp).
  apply bind_Ok in Hp as (?&w4&_&Hp). by apply ret_Ok in Hp as [[=] _].
Qed.
(** The operation a job finds under its key is one of its service. *)
Lemma existing_service d r :
  operations_ok (panelOperations d) → latest_operation (operation_key action payload) d = Some r →
  panelOperations d !! op_id r = Some r ∧ op_serviceId r = Some (pl_serviceId payload) ∧
  op_type r ≠ OperationType.CREATE_ACCOUNT.
Proof using no_colon_id.
  intros Hd Hr. apply latest_in in Hr as [Hk [i Hi]].
  assert (op_id r = i) as <- by (by eapply ok_keyed).
  apply prefix_spec in Hk as [t Ht].
  assert (String.prefix "automation:" (op_idempotencyKey r) = true) as Ha.
  { rewrite Ht. unfold operation_key. rewrite <- !app_string_assoc. apply prefix_app. }
  split; [done|].
  destruct (ok_keys _ Hd _ _ Hi Ha) as (a&p&rest&Hp&Hk&Hs). rewrite Ht in Hk.
  apply key_service in Hk; [|done..]. rewrite Hk. split; [done|]. intros Hc.
  destruct (ok_creations _ Hd (pl_serviceId p) _ _ Hi (conj Hs Hc)) as [Hh _].
  apply prefix_spec in Ha as [u Hu]. by rewrite Hu in Hh.
Qed.
Lemma idle_alone d existing t i q :
  operations_ok (panelOperations d) →
  match existing with Some r => panelOperations d !! op_id r = Some r ∧ retriable r = true
                    | None => True end →
  other_running (pl_serviceId payload) existing d = false → t = pl_serviceId payload →
  panelOperations d !! i = Some q → ¬ runs_for t q.
Proof.
  intros Hd He Ho -> Hq [Hs Hr]. unfold other_running in Ho.
  apply negb_false_iff, bool_decide_eq_true in Ho. rewrite rows_nil in Ho.
  specialize (Ho i q Hq). simpl in Ho. unfold is_running in Ho.
  rewrite Hs, Hr, !bool_decide_eq_true_2 in Ho by done. simpl in Ho.
  apply negb_false_iff, bool_decide_eq_true in Ho. destruct existing as [r|]; [|done].
  simpl in Ho. injection Ho as Ho. destruct He as [He Hret].
  rewrite (ok_keyed _ Hd i q Hq) in Ho. subst i. rewrite He in Hq. injection Hq as ->.
  unfold retriable in Hret. rewrite !andb_true_iff, bool_decide_eq_true in Hret.
  destruct Hret as [[[Hf _] _] _]. congruence.
Qed.
Lemma own_key_ok r rest :
  op_idempotencyKey r = (operation_key action payload ++ rest)%string →
  op_serviceId r = Some (pl_serviceId payload) → automation_key_ok r.
Proof using no_colon_id. intros Hk Hs _. by exists action, payload, rest. Qed.
Lemma worker_started mk w res w' :
  operations_ok (panelOperations (db w)) →
  (∀ id now, let r := mk id now in op_status r = OperationStatus.RUNNING ∧
     op_serviceId r = Some (pl_serviceId payload) ∧ op_type r ≠ OperationType.CREATE_ACCOUNT ∧
     ∃ rest, op_idempotencyKey r = (operation_key action payload ++ rest)%string) →
  (∀ i q, panelOperations (db w) !! i = Some q → ¬ runs_for (pl_serviceId payload) q) →
  (id ← random_uuid; now ← new_date; _ ← create_operation (mk id now);
   mret (Some (mk id now, true))) w = (Ok res, w') →
  ops_move (panelOperations (db w)) (panelOperations (db w')).
Proof using no_colon_id.
  intros Hw Hmk Halone Hm.
  apply bind_Ok in Hm as (id&w1&Hr&Hm). apply random_uuid_Ok in Hr as [_ ->].
  apply bind_Ok in Hm as (now&w1&Hr&Hm). apply new_date_Ok in Hr as [_ ->].
  apply bind_Ok in Hm as (?&w1&Hr&Hm). apply create_operation_spec in Hr as (Hn&Hp&_&Ho).
  apply ret_Ok in Hm as [_ ->]. rewrite Ho. destruct (Hmk id now) as (Hs&Hsv&Ht&rest&Hk).
  apply ops_started; [exact Hn|]. split; [done| |exact Hp|by eapply own_key_ok|].
  - intros s i q Hs' Hq. rewrite Hsv in Hs'. injection Hs' as <-. by eapply Halone.
  - intros s [_ Hc]. done.
Qed.
Lemma worker_prepare_moves event w a w' :
  services_keyed (db w) → operations_ok (panelOperations (db w)) →
  prepare_tx action payload event w = (Ok a, w') →
  ops_move (panelOperations (db w)) (panelOperations (db w')).
Proof using no_colon_id.
  intros Hkey Hw Hrun. unfold prepare_tx in Hrun.
  apply bind_Ok in Hrun as (?&w1&Hl&Hrun). apply lock_row_Ok in Hl as ->.
  apply bind_Ok in Hrun as (existing&w1&Hr&Hrun). apply read_Ok in Hr as [He ->].
  assert (prepare_operation action payload event (operation_key action payload) existing w
            = (Ok a, w') → ops_move (panelOperations (db w)) (panelOperations (db w'))) as Hprep.
  2:{ destruct existing as [r|]; [|by apply Hprep].
      destruct (_ && _); [|by apply Hprep]. apply ret_Ok in Hrun as [_ ->]. constructor. }
  clear Hrun. intros Ho. unfold prepare_operation in Ho.
  apply bind_Ok in Ho as (busy&w1&Hr&Ho). apply read_Ok in Hr as [Hbusy ->].
  apply bind_Ok in Ho as (?&w1&Hr&Ho). apply require_Ok in Hr as [Hb ->].
  apply bind_Ok in Ho as (found&w1&Hr&Ho). apply read_Ok in Hr as [Hf ->].
  apply bind_Ok in Ho as ([[service server] customer]&w1&Hr&Ho).
  apply lift_Ok in Hr as [Hfound ->]. apply of_option_Ok in Hfound. rewrite Hf in Hfound. clear Hf.
  apply bind_Ok in Ho as (proceed&w1&Hp&Ho).
  assert (panelOperations (db w1) = panelOperations (db w)) as Ek.
  { eapply keeps_run; [|exact Hp]. destruct (pl_cancellationId payload); apply _. }
  rewrite <- Ek in Hw |- *.
  destruct proceed; simpl in Ho; [|by run_inv; constructor].
  assert (busy = false) as Hidle.
  { destruct (pl_cancellationId payload) as [c|] eqn:Hc.
    - by apply prepare_cancellation_idle in Hp.
    - rewrite bool_decide_eq_false_2 in Hb by (intros [? [=]]).
      rewrite orb_false_r in Hb. by apply negb_true_iff in Hb. }
  rewrite Hidle in Hbusy. symmetry in Hbusy, He.
  assert (svc_id service = pl_serviceId payload) as Hsv.
  { destruct (services (db w) !! pl_serviceId payload) as [s|] eqn:Hs; [|done]. simpl in Hfound.
    destruct (servers (db w) !! svc_serverId s); [|done]. simpl in Hfound.
    destruct (customers (db w) !! svc_customerId s); [|done]. simpl in Hfound.
    injection Hfound as <- _ _. by apply Hkey. }
  rewrite Ek in Hw.
  destruct existing as [r|].
  - destruct (retriable r) eqn:Hret; [|by run_inv; constructor].
    destruct (existing_service (db w) r Hw He) as (Hin&Hs&Ht).
    eapply (worker_started (retry_operation r (operation_key action payload) payload));
      [by rewrite Ek| | |exact Ho].
    + intros id now. split_and!; [done|exact Hs|exact Ht|].
      by exists (":retry:" ++ Z_to_string (op_attemptNumber r + 1))%string.
    + rewrite Ek. intros i q Hq. eapply (idle_alone _ (Some r)); [exact Hw|by split|..]; done.
  - eapply (worker_started (first_operation action payload (operation_key action payload)
              service server _)); [by rewrite Ek| | |exact Ho].
    + intros id now. split_and!; [done|simpl; by rewrite Hsv|by destruct action|].
      exists "". simpl. by rewrite app_string_nil_r.
    + rewrite Ek. intros i q Hq. eapply (idle_alone _ None); [exact Hw|done|..]; done.
Qed.
End worker.

(** ** Histories *)
(** The transactions that write operations; a statement outside a transaction is
    one of its own. *)
Inductive OpsTx :=
| TxPrepare (serviceId : string) (input : ExecuteHostingOperationRequest) (actor : Identity)
    (context : SecurityRequestContext) (options : ExecutionOptions)
| TxTest (server : Server) (submissionKey print : string) (actor : Identity)
    (context : SecurityRequestContext) (options : ExecutionOptions)
| TxSucceed (operationId : string) (actor : Identity) (context : SecurityRequestContext)
    (success : ProviderSuccess) (a : option PanelAction)
| TxFail (operationId : string) (error : PanelError) (actor : Identity)
    (context : SecurityRequestContext)
| TxWorkerPrepare (action : AutomationAction) (payload : AutomationPayload) (event : string)
| TxWorkerComplete (operationId : string) (action : AutomationAction)
    (payload : AutomationPayload) (account : PanelAccount) (now : Z)
| TxWorkerFail (operationId : string) (attempt : Z) (kind : ErrorKind) (code : string)
| TxWorkerSkip (operationId : string) (action : AutomationAction) (payload : AutomationPayload).
Section histories.
Context `{Sha256} (hmac_hex : string → string → string) (fingerprintKey : string).

Definition ops_tx (t : OpsTx) : Io unit :=
  match t with
  | TxPrepare s i u c o =>
      _ ← transaction (prepare_panel_tx hmac_hex fingerprintKey s i u c o); mret tt
  | TxTest v k p u c o => _ ← transaction (createOperation_tx v (operation_key_of k) p u c o); mret tt
  | TxSucceed i u c s a => _ ← transaction (completeSuccess_tx i u c s a); mret tt
  | TxFail i e u c => _ ← transaction (completeFailure_tx i e u c); mret tt
  | TxWorkerPrepare a p e => _ ← transaction (prepare_tx a p e); mret tt
  | TxWorkerComplete i a p r t => transaction (complete_tx i a p r t)
  | TxWorkerFail i n k c => transaction (fail i n k c)
  | TxWorkerSkip i a p => transaction (completeSkipped i a p)
  end.
(** Identifiers of services are UUIDs, without a colon. *)
Definition tx_ok (t : OpsTx) : Prop :=
  match t with
  | TxPrepare _ _ _ _ o => options_ok o
  | TxWorkerPrepare _ p _ => no_colon (pl_serviceId p) = true
  | _ => True
  end.
(** A step of the system as the operations see it: one of these transactions, in
    any database, or anything that leaves the table alone. *)
Inductive ops_step (d d' : Db) : Prop :=
| step_tx t w r w' :
    db w = d → db w' = d' → services_keyed d → tx_ok t → ops_tx t w = (r, w') → ops_step d d'
| step_other : panelOperations d' = panelOperations d → ops_step d d'.

Lemma dropped {A} (m : Io A) w r w' :
  (_ ← m; mret tt) w = (r, w') → ∃ r', m w = (r', w').
Proof.
  unfold mbind, M_bind. destruct (m w) as [[a|e] w1]; intros H'.
  - injection H' as _ <-. eauto.
  - injection H' as _ <-. eauto.
Qed.
Lemma tx_moves t w r w' :
  services_keyed (db w) → tx_ok t → operations_ok (panelOperations (db w)) →
  ops_tx t w = (r, w') → ops_move (panelOperations (db w)) (panelOperations (db w')).
Proof.
  intros Hkey Ht Hw Hrun.
  destruct t; cbn [ops_tx tx_ok] in *.
  - apply dropped in Hrun as [r' Hrun]. eapply moves_transaction; [|exact Hw|exact Hrun].
    by apply prepare_panel_moves.
  - apply dropped in Hrun as [r' Hrun]. eapply moves_transaction; [|exact Hw|exact Hrun].
    apply test_moves. eauto.
  - apply dropped in Hrun as [r' Hrun]. eapply moves_transaction; [|exact Hw|exact Hrun].
    apply success_moves.
  - apply dropped in Hrun as [r' Hrun]. eapply moves_transaction; [|exact Hw|exact Hrun].
    apply failure_moves.
  - apply dropped in Hrun as [[x|e] Hrun].
    + rewrite transaction_Ok in Hrun. by eapply worker_prepare_moves.
    + apply transaction_Err_db in Hrun as ->. constructor.
  - eapply moves_transaction; [|exact Hw|exact Hrun]. apply worker_complete_moves.
  - eapply moves_transaction; [|exact Hw|exact Hrun]. apply worker_fail_moves.
  - eapply moves_transaction; [|exact Hw|exact Hrun]. apply worker_skip_moves.
Qed.
Lemma history_ok d d' :
  operations_ok (panelOperations d) → rtc ops_step d d' → operations_ok (panelOperations d').
Proof.
  intros Hd Hrtc. revert Hd. induction Hrtc as [|d d1 d' Hstep _ IH]; [done|].
  intros Hd. apply IH. destruct Hstep as [t w r w' <- <- Hk Ht Hrun|E].
  - eapply move_ok; [by eapply tx_moves|done].
  - by rewrite E.
Qed.

(** C8: in every state that the API and the worker can reach together, a service
    has at most one operation running, and at most five creations of its account
    were ever started: a fresh submission key does not reset the count, a failed
    attempt is retried once, and the worker's jobs obey the same rule as the
    administrators' requests. *)
Theorem operations_exclusive d d' (Hempty : panelOperations d = ∅)
    (Hhistory : rtc ops_step d d') s :
  (length (running s (panelOperations d')) <= 1)%nat ∧
  (length (creations s (panelOperations d')) <= 5)%nat.
Proof.
  apply history_ok in Hhistory; [|rewrite Hempty; apply empty_ok].
  split; [by apply running_bound|by apply creations_bound].
Qed.
End histories.

(** ** A sample *)
Definition packaged (status : ServiceStatus) : Service :=
  hosted_service status <| svc_provisioningSnapshot := JObj [("packageName", JStr "starter")] |>.
Definition creation_request (key : string) : ExecuteHostingOperationRequest :=
  MkExecute key CreateAccount.
Definition plain_hmac (key text : string) : string := text.
Definition admin : Identity := AdminIdentity "u".
Definition creation_tx : OpsTx :=
  TxPrepare "s" (creation_request "k") admin admin_context no_options.
Definition panel_world : World := hosting_world (packaged ServiceStatus.PENDING).
Definition created_world : World := snd (@ops_tx plain_sha plain_hmac "" creation_tx panel_world).
Lemma operations_exclusive_witness :
  let d' := db created_world in
  panelOperations (db panel_world) = ∅ ∧
  rtc (@ops_step plain_sha plain_hmac "") (db panel_world) d' ∧
  length (running "s" (panelOperations d')) = 1%nat ∧
  ((length (running "s" (panelOperations d')) <= 1)%nat ∧
   (length (creations "s" (panelOperations d')) <= 5)%nat).
Proof.
  intros d'.
  assert (rtc (@ops_step plain_sha plain_hmac "") (db panel_world) d') as Hrtc.
  { apply rtc_once. apply (step_tx _ _ _ _ creation_tx panel_world (Ok tt) created_world).
    - reflexivity.
    - reflexivity.
    - intros i s Hs. change (({["s" := packaged ServiceStatus.PENDING]} : gmap _ _) !! i = Some s) in Hs.
      apply lookup_singleton_Some in Hs as [<- <-]. reflexivity.
    - intros _. reflexivity.
    - apply (run_outcome (@ops_tx plain_sha plain_hmac "" creation_tx) panel_world (Ok tt)).
      vm_compute. reflexivity. }
  split; [reflexivity|]. split; [exact Hrtc|]. split; [vm_compute; reflexivity|].
  apply (@operations_exclusive plain_sha plain_hmac "" (db panel_world) d'); [reflexivity|exact Hrtc].
Defined.
