(* ===== verification/PanelProperties.v ===== *)
(** * Properties of panel operations

    What a repeated submission does, what an operation writes when the panel has
    answered, how services move, and what happens when rows change meanwhile:
    [PanelOperations]. *)
From S2P Require Import Prelude JsString JsDate Json Money States Calendar Database Invoices Payments Gateways GatewayAdapters Orders BackgroundJobs HostingServices HostingAutomation HostingPanels CpanelAdapter PanelOperations ServiceLifecycle HostingProperties PanelProtocol.

(** ** JSON texts are unambiguous *)
(** The character a text begins with, and what follows it. *)
Definition unhex (c : ascii) : Z := if code c <? 58 then code c - 48 else code c - 87.
Definition read_char (s : string) : option (ascii * string) :=
  match s with
  | String "092" (String e rest) =>
      if Ascii.eqb e "b" then Some ("008"%char, rest)
      else if Ascii.eqb e "t" then Some ("009"%char, rest)
      else if Ascii.eqb e "n" then Some ("010"%char, rest)
      else if Ascii.eqb e "f" then Some ("012"%char, rest)
      else if Ascii.eqb e "r" then Some ("013"%char, rest)
      else if Ascii.eqb e "u" then
        match rest with
        | String _ (String _ (String h (String l rest))) =>
            Some (ascii_of_N (Z.to_N (unhex h * 16 + unhex l)), rest)
        | _ => None
        end
      else Some (e, rest)
  | String c rest => Some (c, rest)
  | EmptyString => None
  end.
Lemma read_json_char c rest : read_char (json_char c ++ rest) = Some (c, rest).
Proof. destruct c as [[] [] [] [] [] [] [] []]; reflexivity. Qed.
(** The end of a text is its first quote. *)
Definition closes (s : string) : bool :=
  match s with String "034" _ => true | _ => false end.
Lemma json_char_closes c rest : closes (json_char c ++ rest) = false.
Proof. destruct c as [[] [] [] [] [] [] [] []]; reflexivity. Qed.
Lemma json_chars_inj a b s t :
  (json_chars a ++ String "034" s)%string = (json_chars b ++ String "034" t)%string →
  a = b ∧ s = t.
Proof.
  revert b. induction a as [|c a IH]; intros [|d b] E; cbn [json_chars] in E.
  - by injection E.
  - rewrite <- app_string_assoc in E. pose proof (json_char_closes d (json_chars b ++ String "034" t)) as Hc.
    rewrite <- E in Hc. done.
  - rewrite <- app_string_assoc in E. pose proof (json_char_closes c (json_chars a ++ String "034" s)) as Hc.
    rewrite E in Hc. done.
  - rewrite <- !app_string_assoc in E. apply (f_equal read_char) in E.
    rewrite !read_json_char in E. injection E as <- E. destruct (IH b E) as [<- <-]. done.
Qed.
Lemma json_text_inj a b s t :
  (json_text a ++ s)%string = (json_text b ++ t)%string → a = b ∧ s = t.
Proof.
  unfold json_text, quoted. cbn [String.append]. rewrite <- !app_string_assoc.
  intros [= E]. by apply json_chars_inj.
Qed.
Lemma after_char c s t : (String c "" ++ s)%string = (String c "" ++ t)%string → s = t.
Proof. by intros [= E]. Qed.
Lemma json_field_inj f g s t :
  (json_field f ++ s)%string = (json_field g ++ t)%string → f = g ∧ s = t.
Proof.
  destruct f as [k v], g as [k' v']. unfold json_field. cbn [fst snd].
  rewrite <- !app_string_assoc. intros E. apply json_text_inj in E as [<- E].
  apply after_char in E. by apply json_text_inj in E as [<- <-].
Qed.
Lemma concat_cons2 x y l :
  String.concat "," (x :: y :: l) = (x ++ "," ++ String.concat "," (y :: l))%string.
Proof. reflexivity. Qed.
Lemma fields_inj l l' s t :
  (String.concat "," (json_field <$> l) ++ String "125" s)%string =
  (String.concat "," (json_field <$> l') ++ String "125" t)%string → l = l' ∧ s = t.
Proof.
  revert l'. induction l as [|f l IH]; intros [|g l'] E.
  - by injection E.
  - exfalso. destruct g as [k v]. destruct l'; cbn in E; discriminate.
  - exfalso. destruct f as [k v]. destruct l; cbn in E; discriminate.
  - destruct l as [|f2 l], l' as [|g2 l']; cbn [fmap list_fmap] in *.
    + apply json_field_inj in E as [<- E]. by injection E as <-.
    + rewrite concat_cons2, <- !app_string_assoc in E. cbn [String.concat] in E.
      apply json_field_inj in E as [_ E]. discriminate.
    + rewrite concat_cons2, <- !app_string_assoc in E. cbn [String.concat] in E.
      apply json_field_inj in E as [_ E]. discriminate.
    + rewrite !concat_cons2, <- !app_string_assoc in E. apply json_field_inj in E as [<- E].
      apply after_char in E. destruct (IH (g2 :: l') E) as [<- <-]. done.
Qed.
Lemma stringify_inj l l' : stringify l = stringify l' → l = l'.
Proof.
  unfold stringify. cbn [String.append]. intros [= E]. by apply fields_inj in E as [<- _].
Qed.
(** The fields of a request determine it. *)
Lemma request_fields_inj i j : request_fields i = request_fields j → i = j.
Proof.
  destruct i as [k a], j as [k' b]. unfold request_fields. cbn [eh_submissionKey eh_action].
  intros E. destruct a, b; cbn in E; try discriminate E; by injection E; intros; subst.
Qed.

(** ** Submission keys *)
(** A submission that makes an operation. *)
Inductive Submission :=
| OnService (serviceId : string) (input : ExecuteHostingOperationRequest)
| OnServer (serverId submissionKey : string).
#[export] Instance PanelAction_eq_dec : EqDecision PanelAction.
Proof. solve_decision. Defined.
#[export] Instance Execute_eq_dec : EqDecision ExecuteHostingOperationRequest.
Proof. solve_decision. Defined.
#[export] Instance Submission_eq_dec : EqDecision Submission.
Proof. solve_decision. Defined.
Definition submission_key (q : Submission) : string :=
  match q with OnService _ input => eh_submissionKey input | OnServer _ key => key end.
(** What its fingerprint covers; a test's leaves its key out. *)
Definition submission_fields (q : Submission) : list (string * string) :=
  match q with
  | OnService s input => ("serviceId", s) :: request_fields input
  | OnServer s _ => [("serverId", s); ("type", "TEST_CONNECTION")]
  end.
Lemma submission_fields_inj q q' :
  submission_key q = submission_key q' → submission_fields q = submission_fields q' → q = q'.
Proof.
  destruct q as [s i|s k], q' as [s' i'|s' k']; cbn [submission_key submission_fields].
  - intros _ E. pose proof (f_equal (@List.tl _) E) as E'.
    apply (request_fields_inj i i') in E' as <-. apply (f_equal head) in E. by injection E as ->.
  - intros _ [= ].
  - intros _ [= ].
  - intros -> [= ->]. done.
Qed.

Section submissions.
Context `{ZodUrl} `{UrlParser} (view_ok : HostingPanelOperation → Server → bool).
Context (hmac_hex : string → string → string) (fingerprintKey : string).
Context (decipher : string → string → string → string → option string).
Context (cpanelWhm fake : HostingPanel World).
Context (virtualizor : HostingPanelConnection → Io HostingPanelConnectionResult).
Context (production : bool) (limit : Z).

Notation present := (operation_result view_ok).
Definition submission_text (q : Submission) : string := stringify (submission_fields q).
Definition submission_print (q : Submission) : string :=
  hmac_hex fingerprintKey (submission_text q).
Definition submit (q : Submission) (actor : Identity) (context : SecurityRequestContext)
    (options : ExecutionOptions) : Io HostingPanelOperationResult :=
  match q with
  | OnService s input => executeServiceOperation view_ok hmac_hex fingerprintKey decipher
      cpanelWhm fake production limit s input actor context options
  | OnServer s key => executeConnectionTest view_ok hmac_hex fingerprintKey decipher
      cpanelWhm fake virtualizor production limit s key actor context options
  end.
(** What is checked before the key is looked up. *)
Definition admitted_to (q : Submission) (actor : Identity) (d : Db) : Prop :=
  match q with
  | OnService _ _ => True
  | OnServer s _ => is_admin actor = true ∧ is_Some (live_server s d)
  end.

Lemma found_operation key d r v w :
  db w = d → find_unique (panelOperations d) op_idempotencyKey key = Some r →
  servers d !! op_serverId r = Some v → find_operation key w = (Ok (Some (r, v)), w).
Proof.
  intros <- Hr Hv. unfold find_operation, read, mbind, M_bind, gets. rewrite Hr.
  unfold include_server. by rewrite Hv.
Qed.
Lemma found_duplicate key print r v w :
  find_unique (panelOperations (db w)) op_idempotencyKey key = Some r →
  servers (db w) !! op_serverId r = Some v →
  findDuplicate key print w =
    (if String.eqb (op_requestFingerprint r) print then Ok (Some (r, v)) else Err key_used, w).
Proof.
  intros Hr Hv. unfold findDuplicate, mbind, M_bind.
  rewrite (found_operation key (db w) r v w) by done.
  unfold require, lift. cbn [fst]. by destruct (String.eqb _ _).
Qed.

(** a submission key acts once.  While an operation has the key, the same request
    under it is answered with that operation as a duplicate, and any other request,
    of another kind, for another service or server or with other contents, is
    refused; neither asks the panel, draws an identifier or writes.  The fingerprint
    tells requests apart because the text it is computed from determines them. *)
Theorem operation_key_once first q actor context options w r v
    (Hused : find_unique (panelOperations (db w)) op_idempotencyKey
               (operation_key_of (submission_key q)) = Some r)
    (Hserver : servers (db w) !! op_serverId r = Some v)
    (Hkey : submission_key first = submission_key q)
    (Hfirst : op_requestFingerprint r = submission_print first)
    (Hcollision : submission_print first = submission_print q →
                  submission_text first = submission_text q)
    (Hadmitted : admitted_to q actor (db w)) :
  submit q actor context options w =
    if bool_decide (first = q) then present (r, v) true None w else (Err key_used, w).
Proof.
  assert (String.eqb (op_requestFingerprint r) (submission_print q) = bool_decide (first = q))
    as Hsame.
  { rewrite Hfirst. destruct (bool_decide_reflect (first = q)) as [<-|Hne];
      [apply String.eqb_refl|]. apply String.eqb_neq. intros E.
    apply Hcollision, stringify_inj in E. by apply Hne, submission_fields_inj. }
  destruct q as [s input|s key]; cbn [submit submission_key admitted_to] in *.
  - unfold executeServiceOperation, mbind, M_bind. rewrite (found_duplicate _ _ r v w Hused Hserver).
    change (service_fingerprint _ _ s input) with (submission_print (OnService s input)).
    rewrite Hsame. by destruct (bool_decide _).
  - destruct Hadmitted as [Ha [srv Hsrv]].
    unfold executeConnectionTest, mbind, M_bind, require, lift, read, gets. rewrite Ha, Hsrv.
    cbn [throw_unless of_option]. rewrite (found_duplicate _ _ r v w Hused Hserver).
    change (test_fingerprint _ _ s) with (submission_print (OnServer s key)).
    rewrite Hsame. by destruct (bool_decide _).
Qed.
End submissions.

(** ** What an operation does *)
Lemma update_operation_Ok id f r w u w' :
  panelOperations (db w) !! id = Some r → update_operation id f w = (Ok u, w') →
  ∃ now, db w' = db w <| panelOperations := <[id := f r <| op_updatedAt := now |>]>
                           (panelOperations (db w)) |>.
Proof.
  intros Hr H. unfold update_operation in H. apply bind_Ok in H as (n&w1&Hu&H).
  apply require_Ok in H as [Hn ->]. apply Z.eqb_eq in Hn as ->.
  apply update_operation_if_Ok in Hu as [[? _]|(_&q&now&Hq&_&E)]; [done|].
  rewrite Hr in Hq. apply (inj Some) in Hq as <-. by exists now.
Qed.
Lemma operation_record_Ok id r record w w' :
  panelOperations (db w) !! id = Some r → operation_record id w = (Ok record, w') →
  record.1 = r ∧ w' = w.
Proof.
  intros Hr H. unfold operation_record in H. apply bind_Ok in H as (o&w1&Hd&H).
  apply read_Ok in Hd as [-> ->]. apply lift_Ok in H as [H ->]. split; [|done].
  apply of_option_Ok in H. rewrite Hr in H. cbn [mbind option_bind] in H.
  unfold include_server in H. destruct (servers (db w) !! op_serverId r); [|done].
  cbn [mbind option_bind] in H. by injection H as <-.
Qed.
Lemma find_or_throw_Ok id r w w' :
  find_operation_or_throw id w = (Ok r, w') → panelOperations (db w) !! id = Some r ∧ w' = w.
Proof.
  unfold find_operation_or_throw. intros H. apply bind_Ok in H as (o&w1&Hd&H).
  apply read_Ok in Hd as [-> ->]. by apply lift_Ok in H as [H%of_option_Ok ->].
Qed.
(** The service while an account is made for it, and when that failed. *)
Definition provisioning (s : Service) : Service :=
  s <| svc_status := ServiceStatus.PROVISIONING |> <| svc_provisioningFailureReason := None |>.
Definition provision_failed (message : string) (s : Service) : Service :=
  s <| svc_status := ServiceStatus.PROVISION_FAILED |>
    <| svc_provisioningFailureReason := Some message |>.
(** Where one service has changed, and at most its last write. *)
Definition service_written (id : string) (f : option (Service → Service)) (d d' : Db) : Prop :=
  match f with
  | None => services d' = services d
  | Some f => ∃ s now, services d !! id = Some s ∧
                services d' = <[id := f s <| svc_updatedAt := now |>]> (services d)
  end.
Lemma service_written_update id f w u w' :
  update_service id f w = (Ok u, w') → service_written id (Some f) (db w) (db w').
Proof.
  unfold update_service. intros H. apply bind_Ok in H as (n&w1&Hu&H).
  apply require_Ok in H as [Hn ->]. apply Z.eqb_eq in Hn as ->.
  apply update_service_if_Ok in Hu as [[? _]|(_&s&now&Hs&_&->)]; [done|]. by exists s, now.
Qed.
(** The e-mail about a service, if there is one. *)
Definition told (id : string) (key : string) (eventType : option string) (d d' : Db) : Prop :=
  match eventType with
  | None => outboxEvents d' = outboxEvents d
  | Some e => ∃ i now, outboxEvents d !! i = None ∧ outboxEvents d' =
      <[i := pending_event i "SERVICE" id e key
               (JObj [("schemaVersion", JNum 1); ("serviceId", JStr id)]) now now]>
        (outboxEvents d)
  end.
#[export] Hint Extern 6 (Keeps _ (complete_order_of _ _)) =>
  unfold complete_order_of, orderFulfillmentComplete : typeclass_instances.

Lemma apply_success_spec id a account actor op now w u w' :
  applyServiceSuccess id a account actor op now w = (Ok u, w') →
  service_written id (a ← a; service_after a account actor now) (db w) (db w') ∧
  told id ("email:service:" ++ op)%string (email_event a account) (db w) (db w') ∧
  panelOperations (db w') = panelOperations (db w).
Proof.
  unfold applyServiceSuccess. intros H. apply bind_Ok in H as (?&w1&Hs&H).
  apply bind_Ok in H as (?&w2&Hc&H).
  assert (services (db w2) = services (db w1)) as S2
    by (eapply keeps_run; [|exact Hc]; destruct a as [[]|], account; apply _).
  assert (panelOperations (db w2) = panelOperations (db w1)) as P2
    by (eapply keeps_run; [|exact Hc]; destruct a as [[]|], account; apply _).
  assert (outboxEvents (db w2) = outboxEvents (db w1)) as O2
    by (eapply keeps_run; [|exact Hc]; destruct a as [[]|], account; apply _).
  destruct (a ← a; service_after a account actor now) as [f|]; [|apply ret_Ok in Hs as [_ ->]].
  - assert (panelOperations (db w1) = panelOperations (db w)) as P1
      by (eapply keeps_run; [|exact Hs]; apply _).
    assert (outboxEvents (db w1) = outboxEvents (db w)) as O1
      by (eapply keeps_run; [|exact Hs]; apply _).
    apply service_written_update in Hs. destruct (email_event a account) as [e|].
    + pose proof (keeps_run services _ _ _ _ _ H) as S3.
      pose proof (keeps_run panelOperations _ _ _ _ _ H) as P3. apply create_outbox_Ok in H.
      split_and!; [|unfold told; by rewrite <- O1, <- O2|congruence].
      destruct Hs as (s&n&Hs&E). exists s, n. split; [done|]. congruence.
    + apply ret_Ok in H as [_ ->]. split_and!; [|unfold told; congruence|congruence].
      destruct Hs as (s&n&Hs&E). exists s, n. split; [done|]. congruence.
  - destruct (email_event a account) as [e|].
    + pose proof (keeps_run services _ _ _ _ _ H) as S3.
      pose proof (keeps_run panelOperations _ _ _ _ _ H) as P3. apply create_outbox_Ok in H.
      split_and!; [unfold service_written; congruence|unfold told; by rewrite <- O2|congruence].
    + apply ret_Ok in H as [_ ->].
      split_and!; [unfold service_written; congruence|unfold told; congruence|congruence].
Qed.
Lemma complete_success_spec op actor context success a r0 id w record w' :
  panelOperations (db w) !! op = Some r0 → op_serviceId r0 = Some id →
  completeSuccess_tx op actor context success a w = (Ok record, w') →
  ∃ now t,
    let r := r0 <| op_status := OperationStatus.SUCCEEDED |> <| op_completedAt := Some now |>
                <| op_resultMetadata := pv_metadata success |> <| op_updatedAt := t |> in
    record.1 = r ∧ panelOperations (db w') = <[op := r]> (panelOperations (db w)) ∧
    service_written id (a ← a; service_after a (pv_account success) (userId actor) now)
      (db w) (db w') ∧
    told id ("email:service:" ++ op)%string (email_event a (pv_account success)) (db w) (db w').
Proof.
  intros Hr Hid H. unfold completeSuccess_tx in H.
  apply bind_Ok in H as (now&w1&Hn&H). apply new_date_Ok in Hn as [_ ->].
  apply bind_Ok in H as (r1&w1&Hf&H). apply find_or_throw_Ok in Hf as [Hf ->].
  cbn in Hf. rewrite Hr in Hf. apply (inj Some) in Hf as <-. rewrite Hid in H.
  apply bind_Ok in H as (?&w1&Ha&H). apply bind_Ok in Ha as (?&w2&Hl&Ha).
  apply lock_row_Ok in Hl as ->. apply apply_success_spec in Ha as (Hs&Ht&Hp).
  apply bind_Ok in H as (?&w2&Hu&H). apply (update_operation_Ok _ _ r0) in Hu as [t Hu];
    [|by rewrite Hp]. apply bind_Ok in H as (rec&w3&Hrec&H).
  eapply operation_record_Ok in Hrec as [Hrec ->]; [|rewrite Hu; apply lookup_insert_eq].
  apply bind_Ok in H as (?&w3&Hlog&H). apply ret_Ok in H as [-> ->].
  exists now, t. rewrite Hrec.
  pose proof (keeps_run panelOperations _ _ _ _ _ Hlog) as L1.
  pose proof (keeps_run services _ _ _ _ _ Hlog) as L2.
  pose proof (keeps_run outboxEvents _ _ _ _ _ Hlog) as L3.
  rewrite Hu in L1, L2, L3. cbn in L1, L2, L3. split_and!; [done|by rewrite L1, Hp| |].
  - unfold service_written in *. cbn [db] in Hs. destruct (a ← a; service_after a _ _ _).
    + destruct Hs as (sv1&n&Hs&E). exists sv1, n. split; [exact Hs|]. by rewrite L2, E.
    + by rewrite L2, Hs.
  - unfold told in *. destruct (email_event _ _); rewrite L3; exact Ht.
Qed.
Definition failed_operation (error : PanelError) (now t : Z) (r : HostingPanelOperation)
    : HostingPanelOperation :=
  r <| op_status := if bool_decide (perr_kind error = ErrorKind.INCONSISTENT)
                    then OperationStatus.INCONSISTENT else OperationStatus.FAILED |>
    <| op_retryable := bool_decide (perr_kind error = ErrorKind.TEMPORARY) |>
    <| op_errorKind := Some (perr_kind error) |> <| op_errorCode := Some (perr_code error) |>
    <| op_errorMessage := Some (perr_message error) |> <| op_completedAt := Some now |>
    <| op_updatedAt := t |>.
Definition is_creation (r : HostingPanelOperation) : bool :=
  bool_decide (op_type r = OperationType.CREATE_ACCOUNT).
Lemma complete_failure_spec op error actor context r0 id w record w' :
  panelOperations (db w) !! op = Some r0 → op_serviceId r0 = Some id →
  completeFailure_tx op error actor context w = (Ok record, w') →
  ∃ now t, record.1 = failed_operation error now t r0 ∧
    panelOperations (db w') = <[op := failed_operation error now t r0]> (panelOperations (db w)) ∧
    service_written id (if is_creation r0 then Some (provision_failed (perr_message error)) else None)
      (db w) (db w') ∧ outboxEvents (db w') = outboxEvents (db w).
Proof.
  intros Hr Hid H. unfold completeFailure_tx in H.
  apply bind_Ok in H as (r1&w1&Hf&H). apply find_or_throw_Ok in Hf as [Hf ->].
  rewrite Hr in Hf. apply (inj Some) in Hf as <-. rewrite Hid in H.
  apply bind_Ok in H as (now&w1&Hn&H). apply new_date_Ok in Hn as [_ ->].
  apply bind_Ok in H as (?&w1&Ha&H).
  pose proof (keeps_run panelOperations _ _ _ _ _ Ha) as P1.
  pose proof (keeps_run outboxEvents _ _ _ _ _ Ha) as O1. cbn in P1, O1.
  assert (service_written id (if is_creation r0 then Some (provision_failed (perr_message error))
            else None) (db w) (db w1)) as Hs.
  { unfold is_creation. destruct (bool_decide _); [|by apply ret_Ok in Ha as [_ ->]].
    by apply service_written_update in Ha. }
  apply bind_Ok in H as (?&w2&Hu&H). apply (update_operation_Ok _ _ r0) in Hu as [t Hu];
    [|by rewrite P1]. apply bind_Ok in H as (rec&w3&Hrec&H).
  eapply operation_record_Ok in Hrec as [Hrec ->]; [|rewrite Hu; apply lookup_insert_eq].
  apply bind_Ok in H as (?&w3&Hlog&H). apply ret_Ok in H as [-> ->].
  exists now, t. rewrite Hrec.
  pose proof (keeps_run panelOperations _ _ _ _ _ Hlog) as L1.
  pose proof (keeps_run services _ _ _ _ _ Hlog) as L2.
  pose proof (keeps_run outboxEvents _ _ _ _ _ Hlog) as L3.
  rewrite Hu in L1, L2, L3. cbn in L1, L2, L3.
  split_and!; [done|by rewrite L1, P1| |by rewrite L3, O1].
  unfold service_written in *. destruct (is_creation r0).
  - destruct Hs as (sv1&n&Hs&E). exists sv1, n. split; [exact Hs|]. by rewrite L2, E.
  - by rewrite L2, Hs.
Qed.
Section preparation.
Context (hmac_hex : string → string → string) (fingerprintKey : string).

(** What a prepared operation is. *)
Record prepared_for (id : string) (input : ExecuteHostingOperationRequest)
    (options : ExecutionOptions) (r : HostingPanelOperation) (service : PanelService) (d d' : Db) : Prop :=
  { pre_service : services d !! id = Some (pv_service service);
    pre_valid : validateAction service (eh_action input) = Ok tt;
    pre_new : panelOperations d !! op_id r = None;
    pre_fields : op_serviceId r = Some id ∧ op_type r = action_type (eh_action input) ∧
                 op_idempotencyKey r = operation_key_of (eh_submissionKey input) ∧
                 op_status r = OperationStatus.RUNNING;
    pre_retry : op_retryOfOperationId r = eo_retryOfOperationId options ∧
      op_attemptNumber r = default 1 (eo_attemptNumber options) ∧
      op_requestMetadata r = safeRequestMetadata (eh_action input);
    pre_operations : panelOperations d' = <[op_id r := r]> (panelOperations d);
    pre_services : service_written id
      (if is_create (eh_action input) then Some provisioning else None) d d';
    pre_outbox : outboxEvents d' = outboxEvents d }.
Lemma find_operation_keeps key w r w' : find_operation key w = (r, w') → w' = w.
Proof.
  unfold find_operation, mbind, M_bind, read, gets. intros H.
  destruct (find_unique _ _ _) as [q|]; [|by injection H].
  unfold lift in H. by destruct (include_server (db w) q); injection H.
Qed.
Lemma prepare_panel_spec id input actor context options w r service w' :
  prepare_panel_tx hmac_hex fingerprintKey id input actor context options w =
    (Ok (inr (r, service)), w') → prepared_for id input options r service (db w) (db w').
Proof.
  intros H. unfold prepare_panel_tx in H.
  apply bind_Ok in H as (?&w1&Hl&H). apply lock_row_Ok in Hl as ->.
  apply bind_Ok in H as (concurrent&w1&Hf&H). apply find_operation_keeps in Hf as ->.
  destruct concurrent as [record|]; [by run_inv|].
  apply bind_Ok in H as (?&w2&Hr&H). apply read_Ok in Hr as [-> ->].
  apply bind_Ok in H as (sv0&w2&Hr&H). apply lift_Ok in Hr as [Hs%of_option_Ok ->].
  apply bind_Ok in H as (?&w2&Hr&H). apply read_Ok in Hr as [-> ->].
  apply bind_Ok in H as (sv&w2&Hr&H). apply lift_Ok in Hr as [Hsv%of_option_Ok ->].
  assert (pv_service sv = sv0) as Es.
  { unfold panel_service in Hsv. destruct (servers _ !! _); [|done].
    cbn [mbind option_bind] in Hsv. destruct (customers _ !! _); [|done]. by injection Hsv as <-. }
  apply bind_Ok in H as (?&w2&Hr&H). apply read_Ok in Hr as [_ ->].
  apply bind_Ok in H as (?&w2&Hr&H). apply require_Ok in Hr as [_ ->].
  apply bind_Ok in H as ([]&w2&Hr&H). apply lift_Ok in Hr as [Hv ->].
  apply bind_Ok in H as (?&w2&Hr&H). apply read_Ok in Hr as [_ ->].
  apply bind_Ok in H as (?&w2&Hr&H). apply require_Ok in Hr as [_ ->].
  apply bind_Ok in H as (?&w2&Hc&H).
  assert (w2 = w) as ->.
  { apply when_Ok in Hc as [[_ Hc]|[_ ->]]; [|done]. by apply assert_creation_Ok in Hc as [-> _]. }
  apply bind_Ok in H as (i&w2&Hr&H). apply random_uuid_Ok in Hr as [_ ->].
  apply bind_Ok in H as (now&w2&Hr&H). apply new_date_Ok in Hr as [_ ->].
  apply bind_Ok in H as (?&w2&Ho&H).
  apply create_operation_Ok in Ho as (Hn&_&->).
  apply bind_Ok in H as (?&w3&Hu&H). apply bind_Ok in H as (?&w4&Hlog&H).
  apply ret_Ok in H as [[= -> ->] ->].
  pose proof (keeps_run panelOperations _ _ _ _ _ Hlog) as L1.
  pose proof (keeps_run services _ _ _ _ _ Hlog) as L2.
  pose proof (keeps_run outboxEvents _ _ _ _ _ Hlog) as L3.
  pose proof (keeps_run panelOperations _ _ _ _ _ Hu) as U1.
  pose proof (keeps_run outboxEvents _ _ _ _ _ Hu) as U3.
  split; [by rewrite Es|done|exact Hn|done|done|by rewrite L1, U1| |by rewrite L3, U3].
  unfold service_written. destruct (is_create (eh_action input)); cbn [when] in Hu.
  - apply service_written_update in Hu as (sv1&n&Hs'&E). exists sv1, n. split; [exact Hs'|].
    by rewrite L2, E.
  - apply ret_Ok in Hu as [_ ->]. by rewrite L2.
Qed.
End preparation.

(** The record of a service and the account the panel reports agree. *)
Definition matches_panel (s : Service) (account : HostingAccount) : Prop :=
  svc_domain s = Some (ha_domain account) ∧
  svc_externalAccountId s = Some (ha_externalAccountId account) ∧
  svc_controlPanelUsername s = Some (ha_username account) ∧
  match svc_status s with
  | ServiceStatus.ACTIVE => ha_state account = AccountState.ACTIVE
  | ServiceStatus.SUSPENDED => ha_state account = AccountState.SUSPENDED
  | _ => False
  end.
Definition status_after (a : PanelAction) (s : ServiceStatus) : ServiceStatus :=
  match a with
  | CreateAccount | UnsuspendAccount => ServiceStatus.ACTIVE
  | SuspendAccount _ => ServiceStatus.SUSPENDED
  | TerminateAccount _ => ServiceStatus.TERMINATED
  | _ => s
  end.
(** The actions whose answer is the account. *)
Definition reports (a : PanelAction) : bool :=
  match a with GenerateLoginUrl | TerminateAccount _ => false | _ => true end.
Definition email_about (a : PanelAction) : option string :=
  match a with
  | CreateAccount => Some "EMAIL_SERVICE_PROVISIONED"
  | SuspendAccount _ => Some "EMAIL_SERVICE_SUSPENDED"
  | UnsuspendAccount => Some "EMAIL_SERVICE_REACTIVATED"
  | _ => None
  end.
Lemma valid_status service a :
  validateAction service a = Ok tt → reports a = true → is_create a = false →
  isActiveOrSuspended (svc_status (pv_service service)) = true.
Proof.
  unfold validateAction. intros H Hr Hc. apply result_bind_Ok in H as (?&_&H).
  destruct a; try discriminate;
    apply result_bind_Ok in H as (?&_&H); cbn [status_guard] in H; apply throw_unless_Ok in H;
    first [exact H|unfold isActiveOrSuspended; rewrite H; first [done|apply orb_true_r]].
Qed.
Lemma provider_account s a account :
  validateProviderResult s a account = Ok tt → reports a = true →
  ∃ acc, account = Some acc ∧ svc_domain s = Some (ha_domain acc) ∧
    (is_create a = false → svc_externalAccountId s = Some (ha_externalAccountId acc) ∧
                           svc_controlPanelUsername s = Some (ha_username acc)) ∧
    (∀ st, expectedState a (svc_status s) = Some st → ha_state acc = st).
Proof.
  intros H Hr. unfold validateProviderResult in H. destruct a; try discriminate Hr;
    apply result_bind_Ok in H as (acc&Ha%of_option_Ok&H);
    apply result_bind_Ok in H as (?&_&H);
    apply result_bind_Ok in H as (?&Hd%throw_unless_Ok%bool_decide_eq_true&H);
    apply result_bind_Ok in H as (?&Hi%throw_unless_Ok&H); apply throw_unless_Ok in H;
    exists acc; (split_and!; [done|done| |]).
  all: try (intros _; cbn [is_create orb] in Hi; apply andb_true_iff in Hi;
            rewrite !bool_decide_eq_true in Hi; naive_solver).
  all: try (intros st Hst; rewrite Hst in H; by apply bool_decide_eq_true in H).
  intros [=].
Qed.
(** The account a panel reports is the account of the service, in the state the action
    leaves it in. *)
Definition agrees (a : PanelAction) (s : Service) (account : option HostingAccount) : Prop :=
  reports a = true →
  ∃ x, account = Some x ∧ is_Some (hostingAccountSchema (hosting_account_json x)) ∧
    svc_domain s = Some (ha_domain x) ∧
    (is_create a = true ∨ svc_externalAccountId s = Some (ha_externalAccountId x) ∧
                          svc_controlPanelUsername s = Some (ha_username x)) ∧
    ∀ st, expectedState a (svc_status s) = Some st → ha_state x = st.
Lemma provider_result_agrees s a account :
  validateProviderResult s a account = Ok tt ↔ agrees a s account.
Proof.
  assert (validateProviderResult s a account = Ok tt ↔
    (reports a = true → ∃ x, account = Some x ∧
       validateProviderResult s a (Some x) = Ok tt)) as ->.
  { destruct a; cbn; (split; [|try done]); intros H; try done;
      try (destruct account as [x|]; [by exists x|done]); by destruct (H eq_refl) as (x&->&?). }
  unfold agrees. split; intros H Hr; destruct (H Hr) as (x&->&Hx); exists x; (split; [done|]).
  - split; [|destruct (provider_account _ _ _ Hx Hr) as (y&[= <-]&Hd&Hi&Hst)].
    + unfold validateProviderResult in Hx. destruct a; try discriminate Hr;
        apply result_bind_Ok in Hx as (y&[= <-]&Hx);
        apply result_bind_Ok in Hx as (v&Hv&_); unfold parse in Hv;
        by destruct (hostingAccountSchema _); eauto.
    + split_and!; [done| |done]. destruct (is_create a); auto.
  - destruct Hx as ([v Hv]&Hd&Hi&Hst).
    assert (∀ b, (is_create a = true ∨ svc_externalAccountId s = Some (ha_externalAccountId x) ∧
      svc_controlPanelUsername s = Some (ha_username x)) →
      b = is_create a || bool_decide (Some (ha_externalAccountId x) = svc_externalAccountId s) &&
          bool_decide (Some (ha_username x) = svc_controlPanelUsername s) → b = true) as Hid.
    { intros b [E|[E1 E2]] ->; [by rewrite E|]. rewrite E1, E2, !bool_decide_eq_true_2 by done.
      apply orb_true_r. }
    unfold validateProviderResult. destruct a; try discriminate Hr; cbn [of_option];
      unfold parse; cbn [mbind result_bind]; rewrite Hv; cbn [of_option mbind result_bind];
      rewrite (bool_decide_eq_true_2 (Some (ha_domain x) = svc_domain s)) by done;
      cbn [throw_unless mbind result_bind]; rewrite (Hid _ Hi eq_refl);
      cbn [throw_unless mbind result_bind];
      (destruct (expectedState _ _) as [st|] eqn:E; [|done]);
      by rewrite bool_decide_eq_true_2 by (by apply Hst).
Qed.
(** A row after a write that may not happen. *)
Definition touched (f : option (Service → Service)) (t : Z) (s : Service) : Service :=
  match f with Some f => f s <| svc_updatedAt := t |> | None => s end.
Lemma written_row id f s d d' :
  services d !! id = Some s → service_written id f d d' →
  ∃ t, services d' = <[id := touched f t s]> (services d).
Proof.
  intros Hs Hw. destruct f as [f|]; cbn in Hw.
  - destruct Hw as (s1&t&Hs1&E). rewrite Hs in Hs1. apply (inj Some) in Hs1 as <-. by exists t.
  - exists 0. cbn. by rewrite Hw, insert_id.
Qed.
(** The service of an operation that has been prepared. *)
Definition begun (a : PanelAction) (s s1 : Service) : Prop :=
  sold s1 = sold s ∧ svc_domain s1 = svc_domain s ∧ (is_create a = false → s1 = s).
Lemma begun_prepared a t s :
  begun a s (touched (if is_create a then Some provisioning else None) t s).
Proof. unfold begun. by destruct (is_create a). Qed.
Section success.
Context (service : PanelService) (a : PanelAction) (account : option HostingAccount).
Context (Hvalid : validateAction service a = Ok tt).
Context (Hanswer : validateProviderResult (pv_service service) a account = Ok tt).

Lemma answered : reports a = true → is_Some account.
Proof using Hanswer.
  intros Hr. destruct (provider_account _ _ _ Hanswer Hr) as (acc&->&_). done.
Qed.
Lemma success_email : email_event (Some a) account = email_about a.
Proof using Hanswer.
  clear Hvalid. pose proof answered as Ha. destruct a; try done. by destruct (Ha eq_refl) as [? ->].
Qed.
Context (actor : string) (now t : Z) (s1 : Service) (Hs1 : begun a (pv_service service) s1).

Let s' := touched (service_after a account actor now) t s1.
Lemma success_status : svc_status s' = status_after a (svc_status (pv_service service)).
Proof using Type*.
  pose proof answered as Ha. destruct Hs1 as (_&_&Hs). unfold s'. clear s'. destruct a; cbn in *;
    try (by rewrite Hs); try done. by destruct (Ha eq_refl) as [? ->].
Qed.
Lemma success_sold : sold s' = sold (pv_service service).
Proof using Type*. destruct Hs1 as (<-&_). unfold s'. by destruct a, account. Qed.
(** What a success writes agrees with what the panel reported. *)
Lemma success_matches :
  reports a = true → ∃ acc, account = Some acc ∧ matches_panel s' acc.
Proof using Type*.
  intros Hr. destruct (provider_account _ _ _ Hanswer Hr) as (acc&Hacc&Hd&Hi&Hst).
  exists acc. split; [done|]. unfold matches_panel, s'. destruct Hs1 as (_&Hdom&Hsame). rewrite Hacc.
  destruct (is_create a) eqn:Hc.
  - destruct a; try discriminate Hc. cbn. split_and!; [congruence|done|done|by apply Hst].
  - rewrite (Hsame eq_refl). destruct (Hi eq_refl) as [Hid Hu].
    pose proof (valid_status service a Hvalid Hr Hc) as Hact.
    destruct a; try discriminate; cbn; (split_and!; [done..|]); try (by apply Hst).
    all: destruct (svc_status (pv_service service)); try discriminate; by apply Hst.
Qed.
End success.

(** A panel that does not write the database. *)
Class PanelKeeps (p : HostingPanel World) : Prop :=
  { keeps_create c i : Keeps (λ d, d) (createAccount p c i);
    keeps_get c r : Keeps (λ d, d) (getAccount p c r);
    keeps_suspend c r t : Keeps (λ d, d) (suspendAccount p c r t);
    keeps_unsuspend c r : Keeps (λ d, d) (unsuspendAccount p c r);
    keeps_package c r t : Keeps (λ d, d) (changePackage p c r t);
    keeps_password c r t : Keeps (λ d, d) (changePassword p c r t);
    keeps_login c r : Keeps (λ d, d) (generateLoginUrl p c r);
    keeps_terminate c r t : Keeps (λ d, d) (terminateAccount p c r t) }.
#[export] Existing Instances keeps_create keeps_get keeps_suspend keeps_unsuspend keeps_package
  keeps_password keeps_login keeps_terminate.
#[export] Instance keeps_reify {T A} (proj : Db → T) (m : Io A) :
  Keeps proj m → Keeps proj (reify m).
Proof.
  intros Hm w. unfold reify. specialize (Hm w). by destruct (m w).
Qed.
#[export] Instance keeps_timeout {T A} (proj : Db → T) (m : Io A) n b :
  Keeps proj m → Keeps proj (withHostingPanelTimeout m n b).
Proof. intros. unfold withHostingPanelTimeout. apply _. Qed.

Lemma keeps_lift_bind {T A B} (proj : Db → T) (r : result A) (k : A → Io B) :
  (∀ a, r = Ok a → Keeps proj (k a)) → Keeps proj (lift r ≫= k).
Proof. intros Hk w. unfold mbind, M_bind, lift. destruct r as [a|e]; [by apply Hk|done]. Qed.

Section outcome.
Context `{ZodUrl} `{UrlParser} (view_ok : HostingPanelOperation → Server → bool).
Context (hmac_hex : string → string → string) (fingerprintKey : string).
Context (decipher : string → string → string → string → option string).
Context (cpanelWhm fake : HostingPanel World) `{PanelKeeps cpanelWhm} `{PanelKeeps fake}.
Context (production : bool) (limit : Z).

Notation run_operation := (executeServiceOperation view_ok hmac_hex fingerprintKey decipher
  cpanelWhm fake production limit).
Lemma call_keeps panel service a key `{!PanelKeeps panel} :
  Keeps (λ d, d) (callProvider decipher limit panel service a key).
Proof. unfold callProvider, timed, with_account. destruct a; apply _. Qed.
Lemma answer_keeps service input :
  Keeps (λ d, d) (panel_answer decipher cpanelWhm fake production limit service input).
Proof using Type*.
  unfold panel_answer. apply keeps_lift_bind. unfold registry_get. intros panel Hp.
  assert (PanelKeeps panel) by (repeat case_match; by simplify_eq).
  apply keeps_bind; [by apply call_keeps|apply _].
Qed.
Lemma operation_result_Ok record duplicate url res w w' :
  operation_result view_ok record duplicate url w = (Ok res, w') →
  w' = w ∧ por_operation res = record.1 ∧ por_duplicate res = duplicate.
Proof.
  destruct record as [r v]. unfold operation_result. intros E.
  apply bind_Ok in E as (?&w1&Hr&E). apply require_Ok in Hr as [_ ->].
  by apply ret_Ok in E as [-> ->].
Qed.
Lemma duplicate_db key print w o w' : findDuplicate key print w = (Ok o, w') → w' = w.
Proof.
  unfold findDuplicate. intros Hd. apply bind_Ok in Hd as (f&w2&Hf&Hd).
  apply find_operation_keeps in Hf as ->. destruct f; [|by apply ret_Ok in Hd as [_ ->]].
  apply bind_Ok in Hd as (?&w2&Hr&Hd). apply require_Ok in Hr as [_ ->].
  by apply ret_Ok in Hd as [_ ->].
Qed.
(** A run that is not a repetition prepared an operation and carried it out. *)
Lemma run_prepared id input actor context options w res w' :
  run_operation id input actor context options w = (Ok res, w') → por_duplicate res = false →
  ∃ r service w1, prepared_for id input options r service (db w) (db w1) ∧
    carry_out view_ok decipher cpanelWhm fake production limit r service input actor context w1 =
      (Ok res, w').
Proof.
  unfold executeServiceOperation. intros E Hdup.
  apply bind_Ok in E as (dup&w1&Hd&E).
  apply duplicate_db in Hd as ->.
  destruct dup as [record|].
  { apply operation_result_Ok in E as (_&_&E). congruence. }
  apply bind_Ok in E as (p&w1&Hp&E). destruct p as [record|[r service]].
  { apply operation_result_Ok in E as (_&_&E). congruence. }
  exists r, service, w1. split; [|exact E].
  unfold prepared_or_raced, catch in Hp.
  destruct (transaction _ w) as [[p|e] w2] eqn:Ht.
  - injection Hp as -> ->. rewrite transaction_Ok in Ht. by apply prepare_panel_spec in Ht.
  - destruct (is_unique_violation e); [|by apply throw_Ok in Hp].
    apply bind_Ok in Hp as (raced&w3&_&Hp). destruct raced; [by apply ret_Ok in Hp as [[=] _]|].
    by apply throw_Ok in Hp.
Qed.
(** What the panel of the service answers to the call of the action. *)
Definition panel_call (service : PanelService) (input : ExecuteHostingOperationRequest)
    : Io ProviderSuccess :=
  panel ← lift (registry_get cpanelWhm fake production (srv_adapterKey (pv_server service)));
  callProvider decipher limit panel service (eh_action input)
    (operation_key_of (eh_submissionKey input)).
(** How that answer shows in the rows: a success that agrees with the service, or an error
    or a success that does not. *)
Definition outcome_recorded (a : PanelAction) (answer : result ProviderSuccess)
    (r : HostingPanelOperation) (s s' : Service) (d d' : Db) : Prop :=
  (∃ success, answer = Ok success ∧ agrees a s (pv_account success) ∧
     op_status r = OperationStatus.SUCCEEDED ∧ op_resultMetadata r = pv_metadata success ∧
     svc_status s' = status_after a (svc_status s) ∧
     (reports a = true → ∃ account, pv_account success = Some account ∧ matches_panel s' account) ∧
     told (default "" (op_serviceId r)) ("email:service:" ++ op_id r)%string (email_about a) d d')
  ∨
  (∃ e, (answer = Err e ∨ ∃ success, answer = Ok success ∧ ¬ agrees a s (pv_account success)) ∧
     let error := normalizeHostingPanelError e (isMutation a) in
     op_status r = (if bool_decide (perr_kind error = ErrorKind.INCONSISTENT)
                    then OperationStatus.INCONSISTENT else OperationStatus.FAILED) ∧
     op_retryable r = bool_decide (perr_kind error = ErrorKind.TEMPORARY) ∧
     op_errorKind r = Some (perr_kind error) ∧ op_errorCode r = Some (perr_code error) ∧
     op_errorMessage r = Some (perr_message error) ∧
     (if is_create a
      then svc_status s' = ServiceStatus.PROVISION_FAILED ∧
           svc_provisioningFailureReason s' = Some (perr_message error)
      else s' = s) ∧ outboxEvents d' = outboxEvents d).
(** An operation and its service after the panel has answered. *)
Definition settled_as (a : PanelAction) (answer : result ProviderSuccess) (id : string)
    (r0 r : HostingPanelOperation) (s s' : Service) (d d' : Db) : Prop :=
  operation_identity r = operation_identity r0 ∧ sold s' = sold s ∧
  services d' = <[id := s']> (services d) ∧
  panelOperations d' = <[op_id r0 := r]> (panelOperations d) ∧
  outcome_recorded a answer r s s' d d'.
Section settling.
Context (id : string) (a : PanelAction) (r0 : HostingPanelOperation) (service : PanelService).
Context (s1 : Service) (w : World) (actor : Identity) (context : SecurityRequestContext).
Context (Hid : op_serviceId r0 = Some id) (Htype : op_type r0 = action_type a).
Context (Hop : panelOperations (db w) !! op_id r0 = Some r0).
Context (Hat : services (db w) !! id = Some s1) (Hbegun : begun a (pv_service service) s1).

Lemma settled_success success record w' :
  validateAction service a = Ok tt →
  validateProviderResult (pv_service service) a (pv_account success) = Ok tt →
  completeSuccess_tx (op_id r0) actor context success (Some a) w = (Ok record, w') →
  ∃ s', settled_as a (Ok success) id r0 record.1 (pv_service service) s' (db w) (db w').
Proof using Hat Hbegun Hid Hop.
  intros Hv Hvp Hc.
  eapply complete_success_spec in Hc as (now&t&->&Hops&Hsv&Htold); [|exact Hop|exact Hid].
  destruct (written_row _ _ _ _ _ Hat Hsv) as [t2 Hs2]. eexists. split_and!; [done| |exact Hs2|done|].
  - by apply (success_sold service).
  - rewrite (success_email service a (pv_account success) Hvp) in Htold. left. exists success.
    cbn. rewrite Hid. split_and!; [done|by apply provider_result_agrees|done|done
      |by apply success_status|by apply (success_matches service)|exact Htold].
Qed.
Lemma settled_failure answer e record w' :
  (answer = Err e ∨ ∃ success, answer = Ok success ∧
     ¬ agrees a (pv_service service) (pv_account success)) →
  completeFailure_tx (op_id r0) (normalizeHostingPanelError e (isMutation a)) actor context w =
    (Ok record, w') →
  ∃ s', settled_as a answer id r0 record.1 (pv_service service) s' (db w) (db w').
Proof using Hat Hbegun Hid Hop Htype.
  intros He Hc.
  eapply complete_failure_spec in Hc as (now&t&->&Hops&Hsv&Hout); [|exact Hop|exact Hid].
  assert (is_creation r0 = is_create a) as Ec by (unfold is_creation; rewrite Htype; by destruct a).
  rewrite Ec in Hsv. destruct (written_row _ _ _ _ _ Hat Hsv) as [t2 Hs2].
  destruct Hbegun as (Hsold&_&Hsame). eexists. split_and!; [done| |exact Hs2|done|].
  - rewrite <- Hsold. by destruct (is_create a).
  - right. exists e. split; [exact He|]. cbn. rewrite Hout. split_and!; try done.
    destruct (is_create a); [done|by apply Hsame].
Qed.
End settling.
(** The answer is checked against the service. *)
Lemma panel_answer_run service input w :
  panel_answer decipher cpanelWhm fake production limit service input w =
  let '(answer, w') := panel_call service input w in
  (success ← answer;
   _ ← validateProviderResult (pv_service service) (eh_action input) (pv_account success);
   Ok success, w').
Proof.
  unfold panel_answer, panel_call, mbind, M_bind, lift. destruct (registry_get _ _ _ _); [|done].
  destruct (callProvider _ _ _ _ _ _ _) as [[success|e] w1]; [|done]. cbn.
  by destruct (validateProviderResult _ _ _).
Qed.
Lemma carried_out id input r0 service s1 actor context w res w' :
  op_serviceId r0 = Some id → op_type r0 = action_type (eh_action input) →
  panelOperations (db w) !! op_id r0 = Some r0 → services (db w) !! id = Some s1 →
  begun (eh_action input) (pv_service service) s1 →
  validateAction service (eh_action input) = Ok tt →
  carry_out view_ok decipher cpanelWhm fake production limit r0 service input actor context w =
    (Ok res, w') →
  ∃ s', settled_as (eh_action input) (fst (panel_call service input w)) id r0
          (por_operation res) (pv_service service) s' (db w) (db w').
Proof using Type*.
  intros Hid Hty Hop Hat Hb Hv Hcarry. unfold carry_out in Hcarry.
  apply bind_Ok in Hcarry as (ans&w2&Ha&Hcarry).
  unfold reify in Ha. destruct (panel_answer _ _ _ _ _ _ _ _) as [ans' w3] eqn:Hans.
  injection Ha as -> ->. pose proof (keeps_run (λ d, d) _ _ _ _ (answer_keeps _ _) Hans) as Ek.
  rewrite panel_answer_run in Hans. destruct (panel_call service input w) as [answer w4].
  injection Hans as Hans <-.
  cbn in Ek |- *. rewrite <- Ek in Hat, Hop |- *. clear Ek. destruct ans as [success|e].
  - apply bind_Ok in Hcarry as (record&w5&Hc&Hcarry). unfold completeSuccess in Hc.
    apply operation_result_Ok in Hcarry as (->&->&_). rewrite transaction_Ok in Hc.
    apply result_bind_Ok in Hans as (success'&->&Hans).
    apply result_bind_Ok in Hans as ([]&Hvp&[= ->]).
    by eapply settled_success.
  - apply bind_Ok in Hcarry as (record&w5&Hc&Hcarry). unfold completeFailure in Hc.
    apply operation_result_Ok in Hcarry as (->&->&_). rewrite transaction_Ok in Hc.
    eapply settled_failure; [done..| |exact Hc]. destruct answer as [success|e'].
    + right. exists success. split; [done|]. rewrite <- provider_result_agrees. intros E.
      cbn in Hans. by rewrite E in Hans.
    + left. cbn in Hans. congruence.
Qed.

(** C21: what one operation does, when nothing else runs meanwhile and the panel does
    not write the database.  It adds exactly one operation, RUNNING while the panel is
    asked, of its action and for its service, and changes no other service.  If the panel
    answers with a success whose account, where the action reports one, has the domain,
    the identifiers and the expected state of the service, the operation SUCCEEDED with
    what the panel returned, the service has the status of the action and agrees with
    that account, and the customer is told once of what concerns him.  If it fails or
    its account does not agree, the operation has the error's kind, code and message, is
    retryable exactly when the failure was temporary, INCONSISTENT exactly when the
    result is unknown, nobody is told, and the service is as it was, except that a failed
    creation leaves it PROVISION_FAILED with the failure's message. *)
Theorem operation_outcome_exact id input actor context options w res w'
    (Hrun : run_operation id input actor context options w = (Ok res, w'))
    (Hnew : por_duplicate res = false) :
  let r := por_operation res in
  ∃ r0 service s' w1,
    prepared_for id input options r0 service (db w) (db w1) ∧
    operation_identity r = operation_identity r0 ∧
    let s := pv_service service in
    services (db w) !! id = Some s ∧ sold s' = sold s ∧
    services (db w') = <[id := s']> (services (db w)) ∧
    panelOperations (db w) !! op_id r = None ∧
    panelOperations (db w') = <[op_id r := r]> (panelOperations (db w)) ∧
    op_serviceId r = Some id ∧ op_type r = action_type (eh_action input) ∧
    outcome_recorded (eh_action input) (fst (panel_call service input w1)) r s s'
      (db w) (db w').
Proof using Type*.
  destruct (run_prepared _ _ _ _ _ _ _ _ Hrun Hnew) as (r0&service&w1&Hpre&Hcarry).
  pose proof Hpre as [Hs Hv Hn (Hid&Hty&_&_) _ Hops Hsv Hout].
  destruct (written_row _ _ _ _ _ Hs Hsv) as [t1 Hs1].
  eapply carried_out in Hcarry as (s'&Hident&Hsold&Hsv'&Hops'&Hrec);
    [|exact Hid|exact Hty|rewrite Hops; apply lookup_insert_eq|rewrite Hs1; apply lookup_insert_eq
     |apply begun_prepared|exact Hv].
  pose proof Hident as (E1&E2&_&E4&_)%same_identity.
  intros r. fold r in E1, E2, E4, Hident, Hops', Hrec.
  exists r0, service, s', w1. cbn zeta. rewrite <- E1 in Hn, Hops, Hops'.
  split_and!; [exact Hpre|done|done|done| |done| |congruence|congruence|].
  - by rewrite Hsv', Hs1, insert_insert_eq.
  - by rewrite Hops', Hops, insert_insert_eq.
  - unfold outcome_recorded, told in *. by rewrite Hout in Hrec.
Qed.
(** ** Retries *)
Lemma run_fields id input actor context options w res w' :
  run_operation id input actor context options w = (Ok res, w') → por_duplicate res = false →
  let r := por_operation res in
  op_serviceId r = Some id ∧ op_type r = action_type (eh_action input) ∧
  op_retryOfOperationId r = eo_retryOfOperationId options ∧
  op_attemptNumber r = default 1 (eo_attemptNumber options) ∧
  op_requestMetadata r = safeRequestMetadata (eh_action input).
Proof using Type*.
  intros Hrun Hnew. destruct (run_prepared _ _ _ _ _ _ _ _ Hrun Hnew) as (r0&service&w1&Hpre&Hc).
  destruct Hpre as [Hs Hv Hn (Hid&Hty&_&_) (Hp&Ha&Hm) Hops Hsv _].
  destruct (written_row _ _ _ _ _ Hs Hsv) as [t1 Hs1].
  eapply carried_out in Hc as (s'&Hi&_);
    [|exact Hid|exact Hty|rewrite Hops; apply lookup_insert_eq|rewrite Hs1; apply lookup_insert_eq
     |apply begun_prepared|exact Hv].
  intros r. unfold operation_identity in Hi. fold r in Hi. injection Hi as _ E1 _ E2 E3 _ E4 E5.
  split_and!; congruence.
Qed.
(** The same request, but for a password, which is not kept. *)
Definition same_request (a b : PanelAction) : Prop :=
  match a, b with ChangePassword _, ChangePassword _ => True | _, _ => a = b end.
Definition made_for (a : PanelAction) (r : HostingPanelOperation) : Prop :=
  op_type r = action_type a ∧ op_requestMetadata r = safeRequestMetadata a.
Lemma reconstruct_request a r input again :
  made_for a r → reconstruct r input = Ok again →
  eh_submissionKey again = rh_submissionKey input ∧ same_request a (eh_action again).
Proof.
  intros [Ht Hm] E. unfold reconstruct in E. rewrite Ht, Hm in E.
  destruct a; cbn in E; repeat (apply result_bind_Ok in E as (?&?&E)); by injection E as <-.
Qed.
Context (virtualizor : HostingPanelConnection → Io HostingPanelConnectionResult).
Notation run_retry := (retry view_ok hmac_hex fingerprintKey decipher cpanelWhm fake virtualizor
  production limit).

(** a retry of an operation on a service repeats the stored request.  It happens
    only for an administrator and an operation that FAILED, is retryable, has
    attempts left and has no retry yet; it makes one operation of the same type on
    the same service, with the next attempt number and the same stored request,
    linked to the operation it retries; only a password has to be given again,
    because the stored request does not have it. *)
Theorem retry_repeats_request a operationId original id input actor context w res w'
    (Horiginal : panelOperations (db w) !! operationId = Some original)
    (Hid : op_id original = operationId) (Hservice : op_serviceId original = Some id)
    (Hmade : made_for a original)
    (Hrun : run_retry operationId input actor context w = (Ok res, w'))
    (Hnew : por_duplicate res = false) :
  (is_admin actor = true ∧ op_status original = OperationStatus.FAILED ∧
   op_retryable original = true ∧ op_attemptNumber original < MAX_MANUAL_ATTEMPTS ∧
   ∀ i q, panelOperations (db w) !! i = Some q → op_retryOfOperationId q ≠ Some operationId) ∧
  let r := por_operation res in
  op_serviceId r = Some id ∧ op_type r = op_type original ∧
  op_requestMetadata r = op_requestMetadata original ∧
  op_retryOfOperationId r = Some operationId ∧
  op_attemptNumber r = op_attemptNumber original + 1 ∧
  ∃ a', same_request a a' ∧
    run_operation id (MkExecute (rh_submissionKey input) a') actor context
      (MkOptions (Some operationId) (Some (op_attemptNumber original + 1))) w = (Ok res, w').
Proof using Type*.
  unfold retry in Hrun. apply bind_Ok in Hrun as (?&w1&Hr&Hrun).
  apply require_Ok in Hr as [Hadmin ->].
  apply bind_Ok in Hrun as (?&w1&Hr&Hrun). apply read_Ok in Hr as [-> ->].
  rewrite Horiginal in Hrun. apply bind_Ok in Hrun as (?&w1&Hr&Hrun).
  apply lift_Ok in Hr as [[= <-] ->].
  apply bind_Ok in Hrun as (?&w1&Hr&Hrun). apply lift_Ok in Hr as [Hg ->].
  apply result_bind_Ok in Hg as (?&Hg1%throw_unless_Ok&Hg2%throw_unless_Ok).
  apply andb_true_iff in Hg1 as [Hg1%bool_decide_eq_true Hg3].
  apply negb_true_iff, Z.leb_gt in Hg2. rewrite Hservice in Hrun.
  apply bind_Ok in Hrun as (again&w1&Hr&Hrun). apply lift_Ok in Hr as [Hagain ->].
  destruct (reconstruct_request _ _ _ _ Hmade Hagain) as [Hkey Hsame].
  apply bind_Ok in Hrun as (dup&w1&Hd&Hrun). apply duplicate_db in Hd as ->.
  destruct dup as [record|]; [apply operation_result_Ok in Hrun as (_&_&E); congruence|].
  apply bind_Ok in Hrun as (?&w1&Hr&Hrun). unfold assertNotAlreadyRetried in Hr.
  apply bind_Ok in Hr as (?&w2&Hc&Hr). apply read_Ok in Hc as [-> ->].
  apply require_Ok in Hr as [Hc ->]. apply negb_true_iff in Hc. rewrite some_row_false in Hc.
  split; [split_and!; try done|].
  { intros i q Hq. specialize (Hc i q Hq). rewrite <- Hid. by apply bool_decide_eq_false in Hc. }
  destruct (run_fields _ _ _ _ _ _ _ _ Hrun Hnew) as (E1&E2&E3&E4&E5). cbn in E3, E4.
  destruct Hmade as [Ht Hm]. rewrite Hid in E3. split_and!; [done| | |done|done|].
  - rewrite E2, Ht. destruct a, (eh_action again); cbn in Hsame; by simplify_eq.
  - rewrite E5, Hm. destruct a, (eh_action again); cbn in Hsame; by simplify_eq.
  - exists (eh_action again). split; [done|]. rewrite <- Hkey, <- Hid. by destruct again.
Qed.
End outcome.

(** ** What runs meanwhile *)
(** A service that has ended, where no transition leads on. *)
Definition ended (s : Service) : Prop :=
  svc_status s = ServiceStatus.CANCELLED ∨ svc_status s = ServiceStatus.TERMINATED.
Lemma revived d d' id s s' :
  services d !! id = Some s → ended s → services d' !! id = Some s' →
  svc_status s' ≠ svc_status s → ¬ services_follow d d'.
Proof.
  intros Hs He Hs' Hne Hf. specialize (Hf id). rewrite Hs, Hs' in Hf.
  destruct Hf as [[Hf|Hf] _]; [done|]. unfold isServiceTransitionAllowed in Hf.
  apply bool_decide_eq_true in Hf. destruct He as [E|E]; rewrite E in Hf; by apply elem_of_nil in Hf.
Qed.
(** the answer of a panel is applied to whatever the service has become while the
    panel worked.  The completion of an operation does not look at the status of its
    service: a service that was cancelled or terminated after the operation was
    prepared becomes ACTIVE or SUSPENDED when the panel reports success, and
    PROVISION_FAILED when a creation fails, against the transition table. *)
Theorem late_answer_revives op actor context r0 id s w
    (Hop : panelOperations (db w) !! op = Some r0) (Hid : op_serviceId r0 = Some id)
    (Hs : services (db w) !! id = Some s) (Hended : ended s) :
  (∀ success a record w', reports a = true → email_about a ≠ None →
     is_Some (pv_account success) →
     completeSuccess_tx op actor context success (Some a) w = (Ok record, w') →
     svc_status <$> services (db w') !! id = Some (status_after a (svc_status s)) ∧
     ¬ services_follow (db w) (db w')) ∧
  (∀ error record w', is_creation r0 = true →
     completeFailure_tx op error actor context w = (Ok record, w') →
     svc_status <$> services (db w') !! id = Some ServiceStatus.PROVISION_FAILED ∧
     ¬ services_follow (db w) (db w')).
Proof.
  split.
  - intros success a record w' Hr He [acc Hacc] H.
    eapply complete_success_spec in H as (now&t&_&_&Hw&_); [|exact Hop|exact Hid].
    destruct (written_row _ _ _ _ _ Hs Hw) as [t2 E].
    cbn [mbind option_bind] in E. rewrite Hacc in E.
    assert (services (db w') !! id = Some (touched (service_after a (Some acc) (userId actor) now)
              t2 s)) as Hs' by (rewrite E; apply lookup_insert_eq).
    rewrite Hs'. split; [by destruct a|]. eapply (revived _ _ id s); [done|done|exact Hs'|].
    destruct Hended as [Hst|Hst], a; try done; cbn; by rewrite Hst.
  - intros error record w' Hc H.
    eapply complete_failure_spec in H as (now&t&_&_&Hw&_); [|exact Hop|exact Hid].
    rewrite Hc in Hw. destruct (written_row _ _ _ _ _ Hs Hw) as [t2 E].
    assert (services (db w') !! id = Some (touched (Some (provision_failed (perr_message error)))
              t2 s)) as Hs' by (rewrite E; apply lookup_insert_eq).
    rewrite Hs'. split; [done|]. eapply (revived _ _ id s); [done|done|exact Hs'|].
    destruct Hended as [Hst|Hst]; cbn; by rewrite Hst.
Qed.

(** ** The adapter as a panel *)
(** The cPanel adapter does not write the database when its requests do not. *)
Section adapter.
Context `{ZodUrl} `{UrlParser} `{Sha256}.
Context (fetch : PanelRequest → World → option PanelResponse * World).
Context (lookup : string → World → option (list string) * World) (ip_family : string → Z).
Context (parse_json : string → option json) (number_ms : string → option Z).
Context (fetch_keeps : ∀ r w, db (snd (fetch r w)) = db w).
Context (lookup_keeps : ∀ h w, db (snd (lookup h w)) = db w).

#[local] Instance ask_fetch_keeps r : Keeps (λ d, d) (ask (fetch r)).
Proof using fetch_keeps.
  intros w. unfold ask. specialize (fetch_keeps r w). by destruct (fetch r w).
Qed.
#[local] Instance ask_lookup_keeps h : Keeps (λ d, d) (ask (lookup h)).
Proof using lookup_keeps.
  intros w. unfold ask. specialize (lookup_keeps h w). by destruct (lookup h w).
Qed.
#[local] Instance call_db c f ps m :
  Keeps (λ d, d) (http_call fetch lookup ip_family parse_json c f ps m).
Proof using fetch_keeps lookup_keeps.
  unfold http_call, call, validatePublicResolution. apply _.
Qed.
#[local] Instance lookup_db c q :
  Keeps (λ d, d) (lookupAccount fetch lookup ip_family parse_json c q).
Proof using fetch_keeps lookup_keeps. unfold lookupAccount, assertSuccess. apply _. Qed.
#[local] Instance verify_db c u :
  Keeps (λ d, d) (verifyMutation fetch lookup ip_family parse_json c u).
Proof using fetch_keeps lookup_keeps. unfold verifyMutation. apply _. Qed.
#[local] Instance mutate_db c f ps :
  Keeps (λ d, d) (mutate fetch lookup ip_family parse_json c f ps).
Proof using fetch_keeps lookup_keeps. unfold mutate, assertSuccess. apply _. Qed.
#[local] Instance mail_db c a :
  Keeps (λ d, d) (verifyRemoteMail fetch lookup ip_family parse_json c a).
Proof using fetch_keeps lookup_keeps. unfold verifyRemoteMail, assertSuccess. apply _. Qed.
Lemma adapter_keeps :
  PanelKeeps (CpanelWhmHostingPanel fetch lookup ip_family parse_json number_ms).
Proof using fetch_keeps lookup_keeps.
  split; intros; cbn [createAccount getAccount suspendAccount unsuspendAccount changePackage
    changePassword generateLoginUrl terminateAccount CpanelWhmHostingPanel].
  - unfold cpanel_createAccount, assertSuccess, assertExactAccount. apply _.
  - unfold cpanel_getAccount. apply _.
  - unfold cpanel_suspendAccount. apply _.
  - unfold cpanel_unsuspendAccount. apply _.
  - unfold cpanel_changePackage. apply _.
  - unfold cpanel_changePassword. apply _.
  - unfold cpanel_generateLoginUrl, assertSuccess. apply _.
  - unfold cpanel_terminateAccount. apply _.
Qed.
End adapter.

(** ** Samples: a panel on which the account exists *)
Definition any_url : ZodUrl := λ _, true.
Definition no_url : UrlParser := λ _, None.
Definition panel_user : string := @usernameFor plain_sha "s".
Definition account_body (suspended : bool) (text : string) : option json :=
  Some (JObj [("metadata", JObj [("result", JNum 1)]);
              ("data", JObj [("acct", JArr [JObj
                 [("user", JStr panel_user); ("domain", JStr "a.test");
                  ("plan", JStr "starter"); ("suspended", JBool suspended)]])])]).
Definition answering (r : PanelRequest) (w : World) : option PanelResponse * World :=
  (Some (MkPanelResponse 200 None (Some "")), w).
Definition failing (r : PanelRequest) (w : World) : option PanelResponse * World :=
  (Some (MkPanelResponse 503 None None), w).
Definition public_host (hostname : string) (w : World) : option (list string) * World :=
  (Some ["8.8.8.8"], w).
Definition sample_panel (fetch : PanelRequest → World → option PanelResponse * World)
    (suspended : bool) : HostingPanel World :=
  @CpanelWhmHostingPanel any_url no_url plain_sha World fetch public_host (λ _, 4)
    (account_body suspended) (λ _, None).
Definition keep_secret (server iv tag text : string) : option string := Some text.
Definition every_view (r : HostingPanelOperation) (v : Server) : bool := true.
Definition sample_service (status : ServiceStatus) : Service :=
  packaged status <| svc_domain := Some "a.test" |>
                  <| svc_externalAccountId := Some panel_user |>
                  <| svc_controlPanelUsername := Some panel_user |>.
Definition sample_world (status : ServiceStatus) : World := hosting_world (sample_service status).
Definition sample_run fetch suspended (input : ExecuteHostingOperationRequest) (w : World) :
    result HostingPanelOperationResult * World :=
  @executeServiceOperation any_url no_url every_view plain_hmac "" keep_secret
    (sample_panel fetch suspended) (sample_panel fetch suspended) true 1000 "s" input admin
    admin_context no_options w.
Definition suspension : ExecuteHostingOperationRequest :=
  MkExecute "k1" (SuspendAccount "unpaid").
Definition suspended_run := sample_run answering true suspension (sample_world ServiceStatus.ACTIVE).
Definition checking : ExecuteHostingOperationRequest := MkExecute "k2" GetAccount.
Definition failed_run := sample_run failing false checking (sample_world ServiceStatus.ACTIVE).
Definition sample_retry : RetryHostingOperationRequest := MkRetry "k3" None false.
Definition no_virtualizor (c : HostingPanelConnection) : Io HostingPanelConnectionResult :=
  throw (JsError "No Virtualizor").
Definition retried_run : result HostingPanelOperationResult * World :=
  @retry any_url no_url every_view plain_hmac "" keep_secret (sample_panel answering false)
    (sample_panel answering false) no_virtualizor true 1000 "d" sample_retry admin admin_context
    (snd failed_run).
Definition done_result (r : result HostingPanelOperationResult) : HostingPanelOperationResult :=
  match r with
  | Ok res => res
  | Err _ => MkOperationResult (new_operation None "" "" OperationType.GET_ACCOUNT "" "" ""
                                  no_options JNull "" 0) hosting_server None true None
  end.
Lemma run_done (run : result HostingPanelOperationResult * World) :
  is_ok (fst run) = true → run = (Ok (done_result (fst run)), snd run).
Proof. by destruct run as [[res|e] w]. Qed.
Lemma sample_keeps fetch suspended :
  (∀ r w, db (snd (fetch r w)) = db w) → PanelKeeps (sample_panel fetch suspended).
Proof. intros Hf. by apply adapter_keeps. Qed.

Lemma operation_outcome_exact_witness :
  let w := sample_world ServiceStatus.ACTIVE in
  let res := done_result (fst suspended_run) in
  let w' := snd suspended_run in
  op_status (por_operation res) = OperationStatus.SUCCEEDED ∧
  ∃ answer s s', services (db w) !! "s" = Some s ∧ sold s' = sold s ∧
    services (db w') = <["s" := s']> (services (db w)) ∧
    outcome_recorded (SuspendAccount "unpaid") answer (por_operation res) s s' (db w) (db w').
Proof.
  intros w res w'. split; [vm_compute; reflexivity|].
  pose proof (sample_keeps answering true (λ _ _, eq_refl)) as Hk.
  assert (suspended_run = (Ok res, w')) as Hrun by (apply run_done; vm_compute; reflexivity).
  destruct (@operation_outcome_exact any_url no_url every_view plain_hmac "" keep_secret
    (sample_panel answering true) (sample_panel answering true) Hk Hk true 1000 "s" suspension
    admin admin_context no_options w res w' Hrun) as (r0&service&s'&w1&_&_&H1&H2&H3&_&_&_&_&H4).
  - vm_compute. reflexivity.
  - eexists _, (pv_service service), s'. exact (conj H1 (conj H2 (conj H3 H4))).
Defined.
Lemma operation_key_once_witness :
  let w := snd suspended_run in
  let r := por_operation (done_result (fst suspended_run)) in
  let again input := sample_run answering true input w in
  is_ok (fst (again suspension)) = true ∧
  again suspension = @operation_result any_url no_url every_view (r, hosting_server) true None w ∧
  again (MkExecute "k1" UnsuspendAccount) = (Err key_used, w).
Proof.
  intros w r again. split; [vm_compute; reflexivity|].
  split.
  - apply (@operation_key_once any_url no_url every_view plain_hmac "" keep_secret
      (sample_panel answering true) (sample_panel answering true) no_virtualizor true 1000
      (OnService "s" suspension) (OnService "s" suspension) admin admin_context no_options w r
      hosting_server); try (vm_compute; reflexivity); done.
  - apply (@operation_key_once any_url no_url every_view plain_hmac "" keep_secret
      (sample_panel answering true) (sample_panel answering true) no_virtualizor true 1000
      (OnService "s" suspension) (OnService "s" (MkExecute "k1" UnsuspendAccount)) admin
      admin_context no_options w r hosting_server); try (vm_compute; reflexivity); done.
Defined.
Lemma retry_repeats_request_witness :
  let w := snd failed_run in
  let original := por_operation (done_result (fst failed_run)) in
  let r := por_operation (done_result (fst retried_run)) in
  op_status original = OperationStatus.FAILED ∧ op_status r = OperationStatus.SUCCEEDED ∧
  op_type r = op_type original ∧ op_retryOfOperationId r = Some "d" ∧
  op_attemptNumber r = op_attemptNumber original + 1.
Proof.
  intros w original r. split; [vm_compute; reflexivity|]. split; [vm_compute; reflexivity|].
  pose proof (sample_keeps answering false (λ _ _, eq_refl)) as Hk.
  assert (retried_run = (Ok (done_result (fst retried_run)), snd retried_run)) as Hrun
    by (apply run_done; vm_compute; reflexivity).
  destruct (@retry_repeats_request any_url no_url every_view plain_hmac "" keep_secret
    (sample_panel answering false) (sample_panel answering false) Hk Hk true 1000 no_virtualizor
    GetAccount "d" original "s" sample_retry admin admin_context w
    (done_result (fst retried_run)) (snd retried_run)) with (5 := Hrun)
    as (_&_&H2&_&H4&H5&_).
  - vm_compute. reflexivity.
  - vm_compute. reflexivity.
  - vm_compute. reflexivity.
  - split; vm_compute; reflexivity.
  - vm_compute. reflexivity.
  - exact (conj H2 (conj H4 H5)).
Defined.

(** A creation is prepared, the administrator cancels the service, and the panel
    answers. *)
Definition cancelled_world : World :=
  snd (@transition_tx "s" (ToCancelled "left") admin admin_context created_world).
Definition late_success : ProviderSuccess :=
  MkProviderSuccess (Some (MkHostingAccount "ws" "ws" "a.test" "starter" AccountState.ACTIVE)) None
    JNull.
Definition late_run : result OperationRecord * World :=
  completeSuccess_tx "d" admin admin_context late_success (Some CreateAccount) cancelled_world.
Lemma run_ok {A} (run : result A * World) :
  is_ok (fst run) = true → ∃ a, run = (Ok a, snd run).
Proof. destruct run as [[a|e] w]; [by exists a|done]. Qed.
Lemma late_answer_revives_witness :
  svc_status <$> services (db cancelled_world) !! "s" = Some ServiceStatus.CANCELLED ∧
  is_ok (fst late_run) = true ∧
  svc_status <$> services (db (snd late_run)) !! "s" = Some ServiceStatus.ACTIVE ∧
  ¬ services_follow (db cancelled_world) (db (snd late_run)).
Proof.
  split; [vm_compute; reflexivity|]. split; [vm_compute; reflexivity|].
  set (s := default (sample_service ServiceStatus.CANCELLED) (services (db cancelled_world) !! "s")).
  set (r0 := default (new_operation None "" "" OperationType.GET_ACCOUNT "" "" "" no_options JNull "" 0)
               (panelOperations (db cancelled_world) !! "d")).
  assert (is_ok (fst late_run) = true) as Hok by (vm_compute; reflexivity).
  destruct (run_ok late_run Hok) as [record Hrun].
  assert (panelOperations (db cancelled_world) !! "d" = Some r0) as Hop by (vm_compute; reflexivity).
  assert (op_serviceId r0 = Some "s") as Hid by (vm_compute; reflexivity).
  assert (services (db cancelled_world) !! "s" = Some s) as Hs by (vm_compute; reflexivity).
  assert (svc_status s = ServiceStatus.CANCELLED) as Hst by (vm_compute; reflexivity).
  assert (status_after CreateAccount (svc_status s) = ServiceStatus.ACTIVE) as Hafter by reflexivity.
  rewrite <- Hafter.
  refine (proj1 (@late_answer_revives "d" admin admin_context r0 "s" s cancelled_world Hop Hid
    Hs (or_introl Hst)) late_success CreateAccount record (snd late_run) _ _ _ Hrun).
  - reflexivity.
  - discriminate.
  - eexists. reflexivity.
Defined.
