(* ===== verification/ServerProtocol.v ===== *)
(** * The protocol of servers

    A server takes new accounts when it is ACTIVE.  Here: every transaction that
    writes a server, the tests of connections and when they count, in any order,
    and that an ACTIVE server was tested with exactly its present connection. *)
From S2P Require Import Prelude JsString JsDate Json Money States Calendar Database Invoices Payments Gateways GatewayAdapters Orders BackgroundJobs HostingServices HostingAutomation HostingPanels PanelOperations ServerAdministration ServiceLifecycle HostingProperties PanelProtocol PanelProperties.

(** ** Rows of servers *)
(** What a connection is made with. *)
Definition connection_of (s : Server) : string * Z * option string * option string :=
  (srv_hostname s, srv_port s, srv_apiUsername s, srv_credentialsCiphertext s).
Definition is_active (s : Server) : bool := srv_status s ==b ServerStatus.ACTIVE.

Lemma create_server_Ok r w u w' :
  create_server r w = (Ok u, w') →
  servers (db w) !! srv_id r = None ∧
  db w' = db w <| servers := <[srv_id r := r]> (servers (db w)) |>.
Proof.
  unfold create_server, put_server. intros H. apply bind_Ok in H as (?&w1&Hr&H).
  apply read_Ok in Hr as [-> ->]. apply bind_Ok in H as (?&w1&Hr&H).
  apply require_Ok in Hr as [Hb ->]. apply write_Ok in H as ->. split_bool. done.
Qed.
Lemma update_server_Ok id f w s' w' :
  update_server id f w = (Ok s', w') →
  ∃ s, servers (db w) !! id = Some s ∧ s' = f s <| srv_updatedAt := clock w (ticks w) |> ∧
       db w' = db w <| servers := <[id := s']> (servers (db w)) |>.
Proof.
  unfold update_server. intros H. apply bind_Ok in H as (now&w1&Hn&H).
  apply new_date_Ok in Hn as [-> ->]. apply bind_Ok in H as (m&w1&Hr&H).
  apply read_Ok in Hr as [-> ->]. cbn in H. destruct (servers (db w) !! id) as [s|]; [|done].
  apply bind_Ok in H as (?&w1&Hr&H). apply require_Ok in Hr as [_ ->].
  apply bind_Ok in H as (?&w1&Hr&H). apply write_Ok in Hr as ->. apply ret_Ok in H as [-> ->].
  by exists s.
Qed.
Lemma live_server_Some id d s :
  live_server id d = Some s → servers d !! id = Some s ∧ srv_deletedAt s = None.
Proof.
  unfold live_server. intros H. destruct (servers d !! id) as [x|]; [|done]. cbn in H.
  destruct (bool_decide _) eqn:E; [|done]. injection H as ->. by apply bool_decide_eq_true in E.
Qed.
Lemma cpanel_server_Some id d s :
  cpanel_server id d = Some s → live_server id d = Some s.
Proof.
  unfold cpanel_server. intros H. destruct (live_server id d); [|done]. cbn in H.
  destruct (String.eqb _ _); [|done]. by injection H as ->.
Qed.
Lemma other_server_Some id d s :
  other_server id d = Some s → live_server id d = Some s.
Proof.
  unfold other_server. intros H. destruct (live_server id d); [|done].
  cbn [mbind option_bind] in H. destruct (existsb _ _); [|done]. by injection H as ->.
Qed.

(** ** What the transactions write *)
Definition identity_of (s : Server) : string * Z * option string :=
  (srv_hostname s, srv_port s, srv_apiUsername s).
(** How a server may change, in a database. *)
Record server_change (d : Db) (id : string) (s s' : Server) : Prop :=
  { sc_alive : srv_deletedAt s = None;
    sc_id : srv_id s' = srv_id s;
    sc_active : is_active s' = true →
      connection_of s' = connection_of s ∧
      (is_active s = true ∨ tested_since id (srv_updatedAt s) d = true);
    sc_identity : identity_of s' ≠ identity_of s → srv_deletedAt s' = None →
      services_of id d = 0;
    sc_removed : srv_deletedAt s' ≠ None →
      live_services id d = 0 ∧ unresolved id d = 0 ∧ is_active s' = false ∧
      srv_credentialsCiphertext s' = None ∧ srv_apiUsername s' = None }.
(** A transaction makes one server, which is DISABLED, or writes one, at a time. *)
Definition servers_change (now : Z) (d d' : Db) : Prop :=
  panelOperations d' = panelOperations d ∧
  ((∃ s, servers d !! srv_id s = None ∧ srv_status s = ServerStatus.DISABLED ∧
         servers d' = <[srv_id s := s]> (servers d)) ∨
   (∃ id s s', servers d !! id = Some s ∧ server_change d id s s' ∧ srv_updatedAt s' = now ∧
         servers d' = <[id := s']> (servers d))).
(** A request that passed its schema: a token is not empty. *)
Definition valid_update (input : UpdateCpanelServerRequest) : Prop :=
  us_apiToken input ≠ Some "".

Lemma change_updated d id s s' t :
  server_change d id s s' → server_change d id s (s' <| srv_updatedAt := t |>).
Proof. by intros [H1 H2 H3 H4 H5]. Qed.
Lemma inactive_change d id s s' :
  srv_deletedAt s = None → srv_id s' = srv_id s → srv_deletedAt s' = None →
  is_active s' = false → (identity_of s' ≠ identity_of s → services_of id d = 0) →
  server_change d id s s'.
Proof. intros H1 H2 H3 H4 H5. split; [done|done|by rewrite H4|intros; by apply H5|intros Hn; by destruct Hn]. Qed.
Lemma services_of_none id d : negb (0 <? services_of id d) = true → services_of id d = 0.
Proof.
  intros H. apply negb_true_iff, Z.ltb_ge in H. unfold services_of, count_rows in *. lia.
Qed.
Lemma changed_false {A} `{EqDecision A} (i : option A) c : changed i c = false → default c i = c.
Proof.
  unfold changed. destruct i as [a|]; [|done]. intros H.
  by apply negb_false_iff, bool_decide_eq_true in H.
Qed.

(** *** hosting-panel.service.ts *)
Lemma updated_fields input current c :
  let s' := updated_server input current c current in
  srv_id s' = srv_id current ∧ srv_deletedAt s' = srv_deletedAt current ∧
  srv_hostname s' = default (srv_hostname current) (us_hostname input) ∧
  srv_port s' = default (srv_port current) (us_port input) ∧
  srv_apiUsername s' = default (srv_apiUsername current) (Some <$> us_apiUsername input) ∧
  srv_credentialsCiphertext s' = default (srv_credentialsCiphertext current) (Some <$> c) ∧
  srv_status s' = default (srv_status current) (updated_status input current).
Proof.
  unfold updated_server. destruct (us_name input), (us_hostname input), (us_port input),
    (us_apiUsername input), (us_maxAccounts input), (updated_status input current), c;
    by split_and!.
Qed.
Lemma same_identity_fields input current :
  identityChanged input current = false →
  default (srv_hostname current) (us_hostname input) = srv_hostname current ∧
  default (srv_port current) (us_port input) = srv_port current ∧
  default (srv_apiUsername current) (Some <$> us_apiUsername input) = srv_apiUsername current.
Proof.
  unfold identityChanged. intros [[H1 H2]%orb_false_iff H3]%orb_false_iff.
  split_and!; [by apply changed_false..|]. destruct (us_apiUsername input); [|done].
  by apply negb_false_iff, bool_decide_eq_true in H3.
Qed.
(** A server that is ACTIVE afterwards keeps its connection: it was ACTIVE, or the
    request asked to activate it. *)
Lemma activation_asked input current :
  valid_update input → default (srv_status current) (updated_status input current) = ServerStatus.ACTIVE →
  identityChanged input current && negb (srv_status current ==b ServerStatus.DISABLED) = false →
  asks_active input current &&
    (identityChanged input current || negb (absent (us_apiToken input))) = false →
  us_apiToken input = None ∧ identityChanged input current = false ∧
  (is_active current = true ∨ asks_active input current = true).
Proof.
  intros Hvalid Ha G3 G5. unfold updated_status, asks_active, is_active in *.
  destruct (us_apiToken input) as [t|] eqn:Et.
  - destruct (us_status input) as [st|]; cbn in Ha; [subst st|].
    + assert (absent (Some t) = false) as Hat by (destruct t; [by destruct Hvalid|done]).
      rewrite Hat in G5. cbn in G5. by rewrite !orb_true_r in G5.
    + destruct (srv_status current ==b ServerStatus.ACTIVE) eqn:E; cbn in Ha; [done|].
      by apply bool_decide_eq_false in E.
  - split; [done|]. destruct (us_status input) as [st|]; cbn in Ha.
    + subst st. cbn in G5 |- *. rewrite orb_false_r in G5 |- *.
      destruct (srv_status current ==b ServerStatus.ACTIVE) eqn:E; cbn in *.
      * split; [|by left]. destruct (identityChanged input current); [|done].
        apply bool_decide_eq_true in E. by rewrite E in G3.
      * rewrite orb_false_r in G5. split; [done|by right].
    + rewrite Ha in G3 |- *. split; [|by left]. by destruct (identityChanged input current).
Qed.
Lemma update_change input current c d id :
  valid_update input → srv_deletedAt current = None →
  update_guards input current (unresolved id d) (services_of id d)
    (tested_since id (srv_updatedAt current) d) = Ok tt →
  (us_apiToken input = None → c = None) →
  server_change d id current (updated_server input current c current).
Proof.
  intros Hvalid Hlive Hg Hc. destruct (updated_fields input current c) as (F1&F2&F3&F4&F5&F6&F7).
  unfold update_guards in Hg.
  apply result_bind_Ok in Hg as (?&_&Hg).
  apply result_bind_Ok in Hg as (?&G2%throw_unless_Ok%negb_true_iff&Hg).
  apply result_bind_Ok in Hg as (?&G3%throw_unless_Ok%negb_true_iff&Hg).
  apply result_bind_Ok in Hg as (?&_&Hg).
  apply result_bind_Ok in Hg as (?&G5%throw_unless_Ok%negb_true_iff&G6%throw_unless_Ok%negb_true_iff).
  assert (identityChanged input current = false →
          identity_of (updated_server input current c current) = identity_of current) as Hsame.
  { intros Hi. apply same_identity_fields in Hi as (E1&E2&E3). unfold identity_of. congruence. }
  split; [done|done| | |by rewrite F2].
  - unfold is_active at 1. rewrite F7. intros Ha. apply bool_decide_eq_true in Ha.
    destruct (activation_asked input current Hvalid Ha G3 G5) as (Ht&Hi&Hor).
    split.
    + pose proof (Hsame Hi) as E. unfold identity_of in E. injection E as E1 E2 E3.
      unfold connection_of. rewrite E1, E2, E3, F6, Hc by done. done.
    + destruct Hor as [Hor|Hor]; [by left|right]. rewrite Hor in G6. by apply negb_false_iff in G6.
  - intros Hne _. apply services_of_none. destruct (identityChanged input current); [|by destruct Hne; apply Hsame].
    cbn in G2. by rewrite G2.
Qed.
Lemma configure_change input current c d id :
  srv_deletedAt current = None → configure_guards input current (services_of id d) = Ok tt →
  server_change d id current (configured_server input current c current).
Proof.
  intros Hlive Hg. unfold configure_guards in Hg.
  apply result_bind_Ok in Hg as (?&_&Hg). apply result_bind_Ok in Hg as (?&_&Hg).
  apply result_bind_Ok in Hg as (?&G3%throw_unless_Ok&_).
  apply inactive_change; [done..| |].
  - unfold is_active. cbn. destruct (srv_status current ==b ServerStatus.ACTIVE) eqn:E; [done|exact E].
  - unfold identity_of. cbn. intros Hne. apply services_of_none.
    destruct (moves input current) eqn:E; [by rewrite andb_true_r in G3|].
    destruct Hne. unfold moves in E. rewrite !orb_false_iff, !negb_false_iff in E.
    destruct E as [[E1%String.eqb_eq E2%Z.eqb_eq] E3%bool_decide_eq_true]. congruence.
Qed.
Lemma removed_change now s d id :
  srv_deletedAt s = None → live_services id d = 0 → unresolved id d = 0 →
  server_change d id s (removed now s).
Proof. intros. by split. Qed.
(** *** server-administration.service.ts *)
Lemma other_fields input c s :
  let s' := other_updated input c s in
  srv_id s' = srv_id s ∧ srv_deletedAt s' = srv_deletedAt s ∧
  srv_status s' = ServerStatus.DISABLED.
Proof.
  unfold other_updated.
  destruct (ou_name input), (ou_hostname input), (ou_port input), (ou_maxAccounts input), c;
    by split_and!.
Qed.
Lemma other_change input current c d id :
  srv_deletedAt current = None →
  other_guards input current (unresolved id d) (services_of id d) = Ok tt →
  server_change d id current (other_updated input c current).
Proof.
  intros Hlive Hg. destruct (other_fields input c current) as (F1&F2&F3).
  unfold other_guards in Hg. apply result_bind_Ok in Hg as (?&G1%throw_unless_Ok&_).
  apply andb_true_iff in G1 as [_ G1]. apply inactive_change; [done|done|by rewrite F2| |].
  - unfold is_active. by rewrite F3.
  - intros _. by apply services_of_none.
Qed.

(** ** Every transaction that writes a server *)
Inductive ServerTx :=
| TxCreate (input : CreateCpanelServerRequest)
| TxUpdate (serverId : string) (input : UpdateCpanelServerRequest)
| TxRemove (serverId : string)
| TxConfigure (serverId : string) (input : ConfigureCpanelServerRequest)
| TxCreateOther (input : OtherServer)
| TxUpdateOther (serverId : string) (input : OtherServerUpdate)
| TxRemoveOther (serverId : string).
Definition server_request_ok (t : ServerTx) : Prop :=
  match t with TxUpdate _ input => valid_update input | _ => True end.
Section transactions.
Context (managed_view_ok : Server → bool) (random_iv : Io string).
Context (encipher : string → string → string → string * string).
Context (iv_keeps : ∀ w, db (snd (random_iv w)) = db w ∧ clock (snd (random_iv w)) = clock w).

Definition server_tx (actor : Identity) (context : SecurityRequestContext) (t : ServerTx) : Io unit :=
  match t with
  | TxCreate input => _ ← createServer_tx random_iv encipher input actor context; mret tt
  | TxUpdate id input => _ ← updateServer_tx random_iv encipher id input actor context; mret tt
  | TxRemove id => removeServer_tx id actor context
  | TxConfigure id input => _ ← configure_tx random_iv encipher id input actor context; mret tt
  | TxCreateOther input =>
      _ ← create_other_tx managed_view_ok random_iv encipher input actor context; mret tt
  | TxUpdateOther id input =>
      _ ← update_other_tx managed_view_ok random_iv encipher id input actor context; mret tt
  | TxRemoveOther id => remove_other_tx id actor context
  end.
Lemma encrypt_Ok id text c w w' :
  encrypt random_iv encipher id text w = (Ok c, w') → db w' = db w ∧ clock w' = clock w.
Proof using iv_keeps.
  unfold encrypt. intros H. apply bind_Ok in H as (iv&w1&Hi&H).
  destruct (encipher _ _ _). apply ret_Ok in H as [_ ->].
  pose proof (iv_keeps w) as Hk. by rewrite Hi in Hk.
Qed.
Lemma encrypt_opt_Ok id text c w w' :
  encrypt_opt random_iv encipher id text w = (Ok c, w') →
  db w' = db w ∧ clock w' = clock w ∧ (text = None → c = None).
Proof using iv_keeps.
  unfold encrypt_opt. destruct text as [t|].
  - intros H. apply bind_Ok in H as (x&w1&He&H). apply ret_Ok in H as [-> ->].
    apply encrypt_Ok in He as [-> ->]. done.
  - intros H. by apply ret_Ok in H as [-> ->].
Qed.
Lemma audit_same actor context action id m w u w' :
  server_audit actor context action id m w = (Ok u, w') →
  servers (db w') = servers (db w) ∧ panelOperations (db w') = panelOperations (db w).
Proof.
  unfold server_audit. intros H. split.
  - by apply (keeps_run servers _ _ _ _ _ H).
  - by apply (keeps_run panelOperations _ _ _ _ _ H).
Qed.
(** A written row, and the audit. *)
Lemma written_change id id' s f n w w1 w2 s' u w' actor context action m :
  db w1 = db w → clock w1 = clock w → servers (db w) !! id = Some s →
  (∀ s0, servers (db w) !! id = Some s0 → server_change (db w) id s0 (f s0)) →
  update_server id f w1 = (Ok s', w2) → n = ticks w1 →
  server_audit actor context action id' m w2 = (Ok u, w') →
  servers_change (clock w n) (db w) (db w').
Proof.
  intros Ed Ec Hs Hf Hu -> Ha. apply update_server_Ok in Hu as (s0&Hs0&->&Hu).
  apply audit_same in Ha as [Ha1 Ha2]. rewrite Ed, Ec in *. split; [by rewrite Ha2, Hu|]. right.
  exists id, s0, (f s0 <| srv_updatedAt := clock w (ticks w1) |>).
  split_and!; [done|by apply change_updated, Hf|done|by rewrite Ha1, Hu].
Qed.
Lemma made_change r w w1 w2 n u u' w' actor context action m :
  db w1 = db w → srv_status r = ServerStatus.DISABLED → create_server r w1 = (Ok u, w2) →
  server_audit actor context action (srv_id r) m w2 = (Ok u', w') →
  servers_change n (db w) (db w').
Proof.
  intros Ed Hst Hc Ha. apply create_server_Ok in Hc as [Hn Hc]. apply audit_same in Ha as [Ha1 Ha2].
  rewrite Ed in *. split; [by rewrite Ha2, Hc|]. left. exists r.
  split_and!; [done|done|by rewrite Ha1, Hc].
Qed.
Lemma update_tx_change actor context id input w r w' :
  valid_update input → updateServer_tx random_iv encipher id input actor context w = (Ok r, w') →
  ∃ n, servers_change (clock w n) (db w) (db w').
Proof using iv_keeps.
  intros Hvalid H. unfold updateServer_tx in H.
  apply bind_Ok in H as (?&w1&Hr&H). apply lock_row_Ok in Hr as ->.
  apply bind_Ok in H as (?&w1&Hr&H). apply read_Ok in Hr as [-> ->].
  apply bind_Ok in H as (current&w1&Hr&H). apply lift_Ok in Hr as [Hcur%of_option_Ok ->].
  apply cpanel_server_Some, live_server_Some in Hcur as [Hcur Hlive].
  do 3 (apply bind_Ok in H as (?&w1&Hr&H); apply read_Ok in Hr as [-> ->]).
  apply bind_Ok in H as ([]&w1&Hr&H). apply lift_Ok in Hr as [Hg ->].
  apply bind_Ok in H as (c&w1&He&H). apply encrypt_opt_Ok in He as (Ed&Ec&Hc).
  apply bind_Ok in H as (s'&w2&Hu&H). apply bind_Ok in H as (?&w3&Ha&H).
  apply ret_Ok in H as [_ ->]. exists (ticks w1). eapply written_change; [done|done|exact Hcur| |
    exact Hu|done|exact Ha].
  intros s0 Hs0. rewrite Hcur in Hs0. apply (inj Some) in Hs0 as <-. by apply update_change.
Qed.
Lemma remove_tx_change find e action actor context id w u w' :
  (∀ d s, find id d = Some s → live_server id d = Some s) →
  remove_tx find e action id actor context w = (Ok u, w') →
  ∃ n, servers_change (clock w n) (db w) (db w').
Proof.
  intros Hfind H. unfold remove_tx in H.
  apply bind_Ok in H as (?&w1&Hr&H). apply lock_row_Ok in Hr as ->.
  apply bind_Ok in H as (?&w1&Hr&H). apply read_Ok in Hr as [-> ->].
  apply bind_Ok in H as (current&w1&Hr&H). apply lift_Ok in Hr as [Hcur%of_option_Ok ->].
  apply Hfind, live_server_Some in Hcur as [Hcur Hlive].
  do 3 (apply bind_Ok in H as (?&w1&Hr&H); apply read_Ok in Hr as [-> ->]).
  apply bind_Ok in H as (?&w1&Hr&H). apply require_Ok in Hr as [Hb ->].
  apply andb_true_iff in Hb as [H1%Z.eqb_eq H2%Z.eqb_eq].
  apply bind_Ok in H as (now&w1&Hr&H). apply new_date_Ok in Hr as [-> ->].
  apply bind_Ok in H as (s'&w2&Hu&H). exists (S (ticks w)).
  eapply written_change; [| |exact Hcur| |exact Hu|done|exact H]; [done|done|].
  intros s0 Hs0. rewrite Hcur in Hs0. apply (inj Some) in Hs0 as <-. by apply removed_change.
Qed.
Lemma configure_tx_change actor context id input w r w' :
  (∀ s, servers (db w) !! id = Some s → srv_id s = id) →
  configure_tx random_iv encipher id input actor context w = (Ok r, w') →
  ∃ n, servers_change (clock w n) (db w) (db w').
Proof using iv_keeps.
  intros Hkey H. unfold configure_tx in H.
  apply bind_Ok in H as (?&w1&Hr&H). apply lock_row_Ok in Hr as ->.
  apply bind_Ok in H as (?&w1&Hr&H). apply read_Ok in Hr as [-> ->].
  apply bind_Ok in H as (current&w1&Hr&H). apply lift_Ok in Hr as [Hcur%of_option_Ok ->].
  apply live_server_Some in Hcur as [Hcur Hlive]. rewrite (Hkey _ Hcur) in H.
  apply bind_Ok in H as (?&w1&Hr&H). apply read_Ok in Hr as [-> ->].
  apply bind_Ok in H as ([]&w1&Hr&H). apply lift_Ok in Hr as [Hg ->].
  apply bind_Ok in H as (c&w1&He&H). apply encrypt_Ok in He as [Ed Ec].
  apply bind_Ok in H as (s'&w2&Hu&H). apply bind_Ok in H as (?&w3&Ha&H).
  apply ret_Ok in H as [_ ->]. exists (ticks w1). eapply written_change; [done|done|exact Hcur| |
    exact Hu|done|exact Ha].
  intros s0 Hs0. rewrite Hcur in Hs0. apply (inj Some) in Hs0 as <-. by apply configure_change.
Qed.
Lemma update_other_change actor context id input w r w' :
  update_other_tx managed_view_ok random_iv encipher id input actor context w = (Ok r, w') →
  ∃ n, servers_change (clock w n) (db w) (db w').
Proof using iv_keeps.
  intros H. unfold update_other_tx in H.
  apply bind_Ok in H as (?&w1&Hr&H). apply lock_row_Ok in Hr as ->.
  apply bind_Ok in H as (?&w1&Hr&H). apply read_Ok in Hr as [-> ->].
  apply bind_Ok in H as (current&w1&Hr&H). apply lift_Ok in Hr as [Hcur%of_option_Ok ->].
  destruct (live_server id (db w)) as [s|] eqn:Hs; [|done]. cbn [mbind option_bind] in Hcur.
  destruct (String.eqb _ _); [|done]. injection Hcur as ->.
  apply live_server_Some in Hs as [Hcur Hlive].
  do 2 (apply bind_Ok in H as (?&w1&Hr&H); apply read_Ok in Hr as [-> ->]).
  apply bind_Ok in H as ([]&w1&Hr&H). apply lift_Ok in Hr as [Hg ->].
  apply bind_Ok in H as (c&w1&He&H). apply encrypt_opt_Ok in He as (Ed&Ec&Hc).
  apply bind_Ok in H as (s'&w2&Hu&H). apply bind_Ok in H as (?&w3&Ha&H).
  apply lift_Ok in H as [_ ->]. exists (ticks w1). eapply written_change; [done|done|exact Hcur| |
    exact Hu|done|exact Ha].
  intros s0 Hs0. rewrite Hcur in Hs0. apply (inj Some) in Hs0 as <-. by apply other_change.
Qed.
(** Rows of servers stand under their primary keys. *)
Definition servers_keyed (d : Db) : Prop := ∀ i s, servers d !! i = Some s → srv_id s = i.
Lemma server_tx_change actor context t w u w' :
  server_request_ok t → servers_keyed (db w) → server_tx actor context t w = (Ok u, w') →
  ∃ n, servers_change (clock w n) (db w) (db w').
Proof using iv_keeps.
  intros Ht Hkey H. destruct t; cbn [server_tx server_request_ok] in *.
  - apply bind_Ok in H as (r&w1&H&Hr). apply ret_Ok in Hr as [_ ->]. unfold createServer_tx in H.
    apply bind_Ok in H as (id&w1'&Hr&H). apply random_uuid_Ok in Hr as [_ ->].
    apply bind_Ok in H as (c&w2&He&H). apply encrypt_Ok in He as [Ed _].
    apply bind_Ok in H as (now&w3&Hr&H). apply new_date_Ok in Hr as [_ ->].
    apply bind_Ok in H as (?&w3&Hc&H). apply bind_Ok in H as (?&w4&Ha&H).
    apply ret_Ok in H as [_ ->]. exists 0%nat. eapply made_change; [| |exact Hc|exact Ha]; [|done].
    by cbn; rewrite Ed.
  - apply bind_Ok in H as (r&w1&H&Hr). apply ret_Ok in Hr as [_ ->]. by eapply update_tx_change.
  - eapply remove_tx_change; [|exact H]. intros d s. apply cpanel_server_Some.
  - apply bind_Ok in H as (r&w1&H&Hr). apply ret_Ok in Hr as [_ ->].
    eapply configure_tx_change; [|exact H]. intros s. apply Hkey.
  - apply bind_Ok in H as (r&w1&H&Hr). apply ret_Ok in Hr as [_ ->]. unfold create_other_tx in H.
    apply bind_Ok in H as (id&w1'&Hr&H). apply random_uuid_Ok in Hr as [_ ->].
    apply bind_Ok in H as (c&w2&He&H). apply encrypt_Ok in He as [Ed _].
    apply bind_Ok in H as (now&w3&Hr&H). apply new_date_Ok in Hr as [_ ->].
    apply bind_Ok in H as (?&w3&Hc&H). apply bind_Ok in H as (?&w4&Ha&H).
    apply lift_Ok in H as [_ ->]. exists 0%nat. eapply made_change; [| |exact Hc|exact Ha]; [|done].
    by cbn; rewrite Ed.
  - apply bind_Ok in H as (r&w1&H&Hr). apply ret_Ok in Hr as [_ ->]. by eapply update_other_change.
  - eapply remove_tx_change; [|exact H]. intros d s. apply other_server_Some.
Qed.
End transactions.

(** ** Tests and activations *)
Definition is_test (r : HostingPanelOperation) : bool :=
  bool_decide (op_type r = OperationType.TEST_CONNECTION).
Definition passed (r : HostingPanelOperation) : bool :=
  is_test r && bool_decide (op_status r = OperationStatus.SUCCEEDED).
(** The rows of tests. *)
Definition same_tests (d d' : Db) : Prop :=
  ∀ i, match panelOperations d !! i, panelOperations d' !! i with
       | Some r, Some r' => is_test r' = is_test r ∧ (is_test r = true → r' = r)
       | None, Some r' => is_test r' = false
       | Some r, None => False
       | None, None => True
       end.
(** The database, the latest time that has been read, and for each test the row of
    the server whose connection was checked to be the present one. *)
Record Tested := MkTested { t_db : Db; t_now : Z; t_seen : gmap string Server }.
Definition between (a b : Z) (w : World) : Prop := ∀ n, a <= clock w n <= b.

Record tests_ok (p : Tested) : Prop :=
  { to_keyed : servers_keyed (t_db p);
    to_started : ∀ op r, panelOperations (t_db p) !! op = Some r → is_test r = true →
      op_startedAt r <= t_now p;
    to_seen : ∀ op v, t_seen p !! op = Some v →
      ∃ r s, panelOperations (t_db p) !! op = Some r ∧ is_test r = true ∧
             op_serverId r = srv_id v ∧ servers (t_db p) !! srv_id v = Some s ∧
             (srv_updatedAt s < op_startedAt r → connection_of s = connection_of v);
    to_passed : ∀ op r, panelOperations (t_db p) !! op = Some r → passed r = true →
      is_Some (t_seen p !! op);
    to_active : ∀ i s, servers (t_db p) !! i = Some s → is_active s = true →
      ∃ op r v, panelOperations (t_db p) !! op = Some r ∧ passed r = true ∧
                t_seen p !! op = Some v ∧ srv_id v = i ∧ connection_of v = connection_of s }.
Lemma tested_since_spec id since d :
  tested_since id since d = true →
  ∃ op r, panelOperations d !! op = Some r ∧ op_serverId r = id ∧ passed r = true ∧
          since < op_startedAt r.
Proof.
  unfold tested_since, some_row. intros H. apply negb_true_iff, bool_decide_eq_false in H.
  destruct (rows _ (panelOperations d)) as [|r l] eqn:E; [done|].
  assert (r ∈ r :: l) as Hr by by left. rewrite <- E in Hr. apply elem_rows in Hr as [Hr [i Hi]].
  rewrite !andb_true_iff, String.eqb_eq in Hr. destruct Hr as [[[? Ht] Hs] ?%Z.ltb_lt].
  exists i, r. unfold passed, is_test. by rewrite Ht, Hs.
Qed.
(** A server changes: operations stay, times go on. *)
Lemma ok_server p p' now' :
  tests_ok p → t_seen p' = t_seen p → t_now p <= now' <= t_now p' →
  servers_change now' (t_db p) (t_db p') → tests_ok p'.
Proof.
  intros Hp Hseen Hnow [Hops [(s&Hn&Hst&Hs)|(id&s&s'&Hid&Hch&Hup&Hs)]].
  - split; rewrite ?Hops, ?Hseen, ?Hs.
    + intros i x Hx. rewrite Hs in Hx. apply lookup_insert_Some in Hx as [[<- <-]|[_ Hx]]; [done|].
      by apply (to_keyed p Hp).
    + intros op r Hr Ht. pose proof (to_started p Hp op r Hr Ht). lia.
    + intros op v Hv. destruct (to_seen p Hp op v Hv) as (r&x&H1&H2&H3&H4&H5).
      exists r, x. rewrite lookup_insert_ne by congruence. done.
    + apply (to_passed p Hp).
    + intros i x Hx Ha. apply lookup_insert_Some in Hx as [[<- <-]|[_ Hx]];
        [unfold is_active in Ha; by rewrite Hst in Ha|by apply (to_active p Hp)].
  - split; rewrite ?Hops, ?Hseen, ?Hs.
    + intros i x Hx. rewrite Hs in Hx. apply lookup_insert_Some in Hx as [[<- <-]|[_ Hx]];
        [|by apply (to_keyed p Hp)]. rewrite (sc_id _ _ _ _ Hch). by apply (to_keyed p Hp).
    + intros op r Hr Ht. pose proof (to_started p Hp op r Hr Ht). lia.
    + intros op v Hv. destruct (to_seen p Hp op v Hv) as (r&x&H1&H2&H3&H4&H5).
      destruct (decide (id = srv_id v)) as [->|].
      * exists r, s'. rewrite lookup_insert_eq. split_and!; try done. rewrite Hup.
        pose proof (to_started p Hp op r H1 H2). lia.
      * exists r, x. by rewrite lookup_insert_ne.
    + apply (to_passed p Hp).
    + intros i x Hx Ha. apply lookup_insert_Some in Hx as [[<- <-]|[_ Hx]];
        [|by apply (to_active p Hp)].
      destruct (sc_active _ _ _ _ Hch Ha) as [Hconn [Hact|Htest]].
      * destruct (to_active p Hp id s Hid Hact) as (op&r&v&H1&H2&H3&H4&H5).
        exists op, r, v. by rewrite Hconn.
      * apply tested_since_spec in Htest as (op&r&H1&H2&H3&H4).
        destruct (to_passed p Hp op r H1 H3) as [v Hv].
        destruct (to_seen p Hp op v Hv) as (r'&x&G1&_&G3&G4&G5).
        rewrite H1 in G1. apply (inj Some) in G1 as <-. rewrite <- G3, H2 in G4.
        rewrite Hid in G4. apply (inj Some) in G4 as <-.
        exists op, r, v. split_and!; [done..|congruence|]. by rewrite Hconn, (G5 H4).
Qed.
(** Something else happens. *)
Lemma ok_rest p p' :
  tests_ok p → servers (t_db p') = servers (t_db p) → same_tests (t_db p) (t_db p') →
  t_now p <= t_now p' → t_seen p' = t_seen p → tests_ok p'.
Proof.
  intros Hp Hs Ht Hnow Hseen.
  assert (∀ i r, panelOperations (t_db p') !! i = Some r → is_test r = true →
            panelOperations (t_db p) !! i = Some r) as Hback.
  { intros i r Hr Hx. specialize (Ht i). rewrite Hr in Ht.
    destruct (panelOperations (t_db p) !! i) as [r0|]; [|congruence].
    destruct Ht as [E1 E2]. rewrite E2 by congruence. done. }
  assert (∀ i r, panelOperations (t_db p) !! i = Some r → is_test r = true →
            panelOperations (t_db p') !! i = Some r) as Hforth.
  { intros i r Hr Hx. specialize (Ht i). rewrite Hr in Ht.
    destruct (panelOperations (t_db p') !! i) as [r0|]; [|done].
    destruct Ht as [E1 E2]. by rewrite E2. }
  assert (∀ r, passed r = true → is_test r = true) as Hpt
    by (intros r [? _]%andb_true_iff; done).
  split; rewrite ?Hs, ?Hseen.
  - intros i x Hx. rewrite Hs in Hx. by apply (to_keyed p Hp).
  - intros op r Hr Hx. pose proof (to_started p Hp op r (Hback op r Hr Hx) Hx). lia.
  - intros op v Hv. destruct (to_seen p Hp op v Hv) as (r&x&H1&H2&?). exists r, x. auto.
  - intros op r Hr Hx. eapply (to_passed p Hp); [|done]. auto.
  - intros i x Hx Ha. destruct (to_active p Hp i x Hx Ha) as (op&r&v&H1&H2&?).
    exists op, r, v. auto.
Qed.
(** A test is stored, or ends. *)
Lemma ok_written p p' op r' :
  tests_ok p → servers (t_db p') = servers (t_db p) →
  panelOperations (t_db p') = <[op := r']> (panelOperations (t_db p)) →
  match panelOperations (t_db p) !! op with
  | Some r => is_test r = true ∧ passed r = false ∧ op_serverId r' = op_serverId r ∧
              op_startedAt r' = op_startedAt r
  | None => op_startedAt r' <= t_now p'
  end → is_test r' = true → (passed r' = true → is_Some (t_seen p !! op)) →
  t_now p <= t_now p' → t_seen p' = t_seen p → tests_ok p'.
Proof.
  intros Hp Hs Hops Hold Htest Hpass Hnow Hseen. split; rewrite ?Hs, ?Hseen, ?Hops.
  - intros i x Hx. rewrite Hs in Hx. by apply (to_keyed p Hp).
  - intros i r Hr Hx. apply lookup_insert_Some in Hr as [[<- <-]|[_ Hr]].
    + destruct (panelOperations (t_db p) !! op) as [r0|] eqn:E; [|done].
      destruct Hold as (H1&_&_&->). pose proof (to_started p Hp op r0 E H1). lia.
    + pose proof (to_started p Hp i r Hr Hx). lia.
  - intros i v Hv. destruct (to_seen p Hp i v Hv) as (r&x&H1&H2&H3&H4&H5).
    destruct (decide (op = i)) as [<-|].
    + rewrite H1 in Hold. destruct Hold as (_&_&E1&E2). exists r', x.
      rewrite lookup_insert_eq, E1, E2. done.
    + exists r, x. by rewrite lookup_insert_ne.
  - intros i r Hr Hx. apply lookup_insert_Some in Hr as [[<- <-]|[_ Hr]]; [auto|].
    by eapply (to_passed p Hp).
  - intros i x Hx Ha. destruct (to_active p Hp i x Hx Ha) as (o&r&v&H1&H2&?).
    exists o, r, v. split; [|done]. rewrite lookup_insert_ne; [done|]. intros ->.
    rewrite H1 in Hold. destruct Hold as (_&?&_). congruence.
Qed.
(** A test compares the rows. *)
Lemma same_connection_spec v l :
  same_connection v l = true → connection_of l = connection_of v.
Proof.
  unfold same_connection, connection_of. rewrite !andb_true_iff, !bool_decide_eq_true.
  by intros [[[[_ ->] ->] ->] ->].
Qed.
Lemma ok_check p p' op r v :
  tests_ok p → panelOperations (t_db p) !! op = Some r → is_test r = true →
  op_serverId r = srv_id v → op_status r = OperationStatus.RUNNING →
  match live_server (srv_id v) (t_db p) with Some l => same_connection v l | None => false end
    = true →
  t_db p' = t_db p → t_now p' = t_now p → t_seen p' = <[op := v]> (t_seen p) → tests_ok p'.
Proof.
  intros Hp Hr Ht Hv Hst Hc Hdb Hnow Hseen. split; rewrite ?Hdb, ?Hnow, ?Hseen.
  - apply (to_keyed p Hp).
  - apply (to_started p Hp).
  - intros o x Hx. apply lookup_insert_Some in Hx as [[<- <-]|[_ Hx]];
      [|by apply (to_seen p Hp)].
    destruct (live_server (srv_id v) (t_db p)) as [l|] eqn:El; [|done].
    apply live_server_Some in El as [El _]. exists r, l. split_and!; try done.
    intros _. by apply same_connection_spec.
  - intros o q Hq Hx. destruct (decide (op = o)) as [<-|];
      [rewrite lookup_insert_eq; by eexists|rewrite lookup_insert_ne by done].
    by eapply (to_passed p Hp).
  - intros i x Hx Ha. destruct (to_active p Hp i x Hx Ha) as (o&q&y&H1&H2&?).
    exists o, q, y. rewrite lookup_insert_ne; [done|]. intros <-. rewrite Hr in H1.
    apply (inj Some) in H1 as <-. unfold passed in H2. rewrite Hst in H2.
    by rewrite andb_false_r in H2.
Qed.
(** How a test ends. *)
Lemma test_success op actor context success r0 w record w' :
  panelOperations (db w) !! op = Some r0 → op_serviceId r0 = None →
  completeSuccess_tx op actor context success None w = (Ok record, w') →
  ∃ now t, servers (db w') = servers (db w) ∧
    panelOperations (db w') = <[op := r0 <| op_status := OperationStatus.SUCCEEDED |>
      <| op_completedAt := Some now |> <| op_resultMetadata := pv_metadata success |>
      <| op_updatedAt := t |>]> (panelOperations (db w)).
Proof.
  intros Hr Hid H. pose proof (keeps_run servers _ _ _ _ _ H) as Hs.
  unfold completeSuccess_tx in H. apply bind_Ok in H as (now&w1&Hn&H).
  apply new_date_Ok in Hn as [_ ->]. apply bind_Ok in H as (r1&w1&Hf&H).
  apply find_or_throw_Ok in Hf as [Hf ->]. cbn in Hf. rewrite Hr in Hf.
  apply (inj Some) in Hf as <-. rewrite Hid in H.
  apply bind_Ok in H as (?&w1&Ha&H). apply ret_Ok in Ha as [_ ->].
  apply bind_Ok in H as (?&w2&Hu&H). apply (update_operation_Ok _ _ r0) in Hu as [t Hu]; [|done].
  pose proof (keeps_run panelOperations _ _ _ _ _ H) as L.
  exists now, t. split; [done|]. by rewrite L, Hu.
Qed.
Lemma test_failure op error actor context r0 w record w' :
  panelOperations (db w) !! op = Some r0 → op_serviceId r0 = None →
  completeFailure_tx op error actor context w = (Ok record, w') →
  ∃ now t, servers (db w') = servers (db w) ∧
    panelOperations (db w') = <[op := failed_operation error now t r0]> (panelOperations (db w)).
Proof.
  intros Hr Hid H. pose proof (keeps_run servers _ _ _ _ _ H) as Hs.
  unfold completeFailure_tx in H. apply bind_Ok in H as (r1&w1&Hf&H).
  apply find_or_throw_Ok in Hf as [Hf ->]. rewrite Hr in Hf. apply (inj Some) in Hf as <-.
  rewrite Hid in H. apply bind_Ok in H as (now&w1&Hn&H). apply new_date_Ok in Hn as [_ ->].
  apply bind_Ok in H as (?&w1&Ha&H). apply ret_Ok in Ha as [_ ->].
  apply bind_Ok in H as (?&w2&Hu&H). apply (update_operation_Ok _ _ r0) in Hu as [t Hu]; [|done].
  pose proof (keeps_run panelOperations _ _ _ _ _ H) as L.
  exists now, t. split; [done|]. by rewrite L, Hu.
Qed.
Lemma test_started v key print actor context options w r w' :
  createOperation_tx v key print actor context options w = (Ok r, w') →
  ∃ n, servers (db w') = servers (db w) ∧ panelOperations (db w) !! op_id r = None ∧
    panelOperations (db w') = <[op_id r := r]> (panelOperations (db w)) ∧
    is_test r = true ∧ passed r = false ∧ op_startedAt r = clock w n.
Proof.
  intros H. pose proof (keeps_run servers _ _ _ _ _ H) as Hs. unfold createOperation_tx in H.
  apply bind_Ok in H as (id&w1&Hr&H). apply random_uuid_Ok in Hr as [_ ->].
  apply bind_Ok in H as (now&w1&Hr&H). apply new_date_Ok in Hr as [-> ->].
  apply bind_Ok in H as (?&w1&Hc&H). apply create_operation_spec in Hc as (Hn&_&_&Hc).
  apply bind_Ok in H as (?&w2&Hl&H). apply ret_Ok in H as [-> ->].
  pose proof (keeps_run panelOperations _ _ _ _ _ Hl) as L. eexists. rewrite L, Hc.
  split_and!; reflexivity || exact Hs || exact Hn.
Qed.
Lemma same_tests_refl d d' : panelOperations d' = panelOperations d → same_tests d d'.
Proof. intros E i. rewrite E. by destruct (panelOperations d !! i). Qed.
Lemma between_mono a b w (n : nat) : between a b w → a <= b.
Proof. intros H. specialize (H n). lia. Qed.

Section tests.
Context (managed_view_ok : Server → bool) (random_iv : Io string).
Context (encipher : string → string → string → string * string).
Context (iv_keeps : ∀ w, db (snd (random_iv w)) = db w ∧ clock (snd (random_iv w)) = clock w).

(** The steps: a transaction on servers; a test is stored, compares the row it was
    asked for with the present one, and ends; anything that writes neither servers
    nor tests. *)
Inductive test_step (p p' : Tested) : Prop :=
| step_server t actor context w r w' :
    db w = t_db p → between (t_now p) (t_now p') w → server_request_ok t →
    transaction (server_tx managed_view_ok random_iv encipher actor context t) w = (r, w') →
    t_db p' = db w' → t_seen p' = t_seen p → test_step p p'
| step_test v key print actor context options w r w' :
    db w = t_db p → between (t_now p) (t_now p') w →
    transaction (createOperation_tx v key print actor context options) w = (r, w') →
    t_db p' = db w' → t_seen p' = t_seen p → test_step p p'
| step_check op r v :
    panelOperations (t_db p) !! op = Some r → is_test r = true → op_serverId r = srv_id v →
    op_status r = OperationStatus.RUNNING →
    match live_server (srv_id v) (t_db p) with Some l => same_connection v l | None => false end
      = true →
    t_db p' = t_db p → t_now p' = t_now p → t_seen p' = <[op := v]> (t_seen p) → test_step p p'
| step_pass op r0 actor context success w r w' :
    db w = t_db p → panelOperations (t_db p) !! op = Some r0 → is_test r0 = true →
    op_serviceId r0 = None → op_status r0 = OperationStatus.RUNNING → is_Some (t_seen p !! op) →
    completeSuccess op actor context success None w = (r, w') →
    t_db p' = db w' → t_now p <= t_now p' → t_seen p' = t_seen p → test_step p p'
| step_fail op r0 error actor context w r w' :
    db w = t_db p → panelOperations (t_db p) !! op = Some r0 → is_test r0 = true →
    op_serviceId r0 = None → op_status r0 = OperationStatus.RUNNING →
    completeFailure op error actor context w = (r, w') →
    t_db p' = db w' → t_now p <= t_now p' → t_seen p' = t_seen p → test_step p p'
| step_rest :
    servers (t_db p') = servers (t_db p) → same_tests (t_db p) (t_db p') →
    t_now p <= t_now p' → t_seen p' = t_seen p → test_step p p'.


Lemma step_ok p p' : test_step p p' → tests_ok p → tests_ok p'.
Proof using iv_keeps.
  assert (∀ w, db w = t_db p → t_db p' = db w → t_now p <= t_now p' → t_seen p' = t_seen p →
            tests_ok p → tests_ok p') as Hsame.
  { intros w E1 E2 Hnow Hseen Hp. rewrite E1 in E2.
    apply (ok_rest p p'); [done|by rewrite E2|by apply same_tests_refl; rewrite E2|done..]. }
  intros [t actor context w r w' Hw Hb Ht Hrun Hdb Hseen
         |v key print actor context options w r w' Hw Hb Hrun Hdb Hseen
         |op r v Hr Ht Hv Hst Hc Hdb Hnow Hseen
         |op r0 actor context success w r w' Hw Hr Ht Hid Hst Hg Hrun Hdb Hnow Hseen
         |op r0 error actor context w r w' Hw Hr Ht Hid Hst Hrun Hdb Hnow Hseen
         |Hs Ht Hnow Hseen] Hp.
  - pose proof (between_mono _ _ _ 0%nat Hb) as Hnow. destruct r as [u|e].
    + rewrite transaction_Ok in Hrun.
      apply server_tx_change in Hrun as [n Hch]; [|done|done|rewrite Hw; by apply (to_keyed p Hp)].
      rewrite Hw, <- Hdb in Hch. eapply ok_server; [done..|apply (Hb n)|exact Hch].
    + apply transaction_Err_db in Hrun. rewrite <- Hrun in Hw. by apply (Hsame w').
  - pose proof (between_mono _ _ _ 0%nat Hb) as Hnow. destruct r as [r|e].
    + rewrite transaction_Ok in Hrun. apply test_started in Hrun as (n&H1&H2&H3&H4&H5&H6).
      rewrite Hw in *. eapply (ok_written p p' (op_id r) r); try done; rewrite ?Hdb; try done.
      * rewrite H2, H6. apply (Hb n).
      * by rewrite H5.
    + apply transaction_Err_db in Hrun. rewrite <- Hrun in Hw. by apply (Hsame w').
  - by eapply ok_check.
  - unfold completeSuccess in Hrun. destruct r as [record|e].
    + rewrite transaction_Ok in Hrun. rewrite <- Hw in Hr.
      eapply test_success in Hrun as (now&t&H1&H2); [|exact Hr|done]. rewrite Hw in *.
      eapply (ok_written p p' op); [done|by rewrite Hdb|rewrite Hdb; exact H2| |done|done|done..].
      rewrite Hr. split_and!; [done| |done|done]. unfold passed. rewrite Hst. apply andb_false_r.
    + apply transaction_Err_db in Hrun. rewrite <- Hrun in Hw. by apply (Hsame w').
  - unfold completeFailure in Hrun. destruct r as [record|e].
    + rewrite transaction_Ok in Hrun. rewrite <- Hw in Hr.
      eapply test_failure in Hrun as (now&t&H1&H2); [|exact Hr|done]. rewrite Hw in *.
      eapply (ok_written p p' op); [done|by rewrite Hdb|rewrite Hdb; exact H2| |done| |done..].
      * rewrite Hr. split_and!; [done| |done|done]. unfold passed. rewrite Hst. apply andb_false_r.
      * unfold passed. cbn. intros [_ Hx]%andb_true_iff. by destruct (perr_kind error).
    + apply transaction_Err_db in Hrun. rewrite <- Hrun in Hw. by apply (Hsame w').
  - by apply (ok_rest p p').
Qed.
(** A database in which no server is ACTIVE and nothing has been tested. *)
Record untested (p : Tested) : Prop :=
  { un_keyed : servers_keyed (t_db p);
    un_inactive : ∀ i s, servers (t_db p) !! i = Some s → is_active s = false;
    un_tests : ∀ i r, panelOperations (t_db p) !! i = Some r → is_test r = false;
    un_seen : t_seen p = ∅ }.
Lemma untested_ok p : untested p → tests_ok p.
Proof.
  intros [H1 H2 H3 H4]. split; [done| | | |].
  - intros op r Hr Ht. rewrite (H3 op r Hr) in Ht. done.
  - intros op v Hv. by rewrite H4, lookup_empty in Hv.
  - intros op r Hr Hx. unfold passed in Hx. by rewrite (H3 op r Hr) in Hx.
  - intros i s Hs Ha. by rewrite (H2 i s Hs) in Ha.
Qed.
Lemma steps_ok p p' : rtc test_step p p' → tests_ok p → tests_ok p'.
Proof using iv_keeps.
  intros H. induction H as [|p p1 p' Hstep _ IH]; [done|]. intros Hp.
  apply IH. by eapply step_ok.
Qed.

(** C20: an ACTIVE server has been tested as it is.  While each step reads the clock no
    earlier than the one before ([between]), whatever administrators do to servers, in
    whatever order tests are stored, compared with the rows, answered and
    completed, and whatever else happens, a server that is ACTIVE has an operation
    that tested its connection, succeeded, and had compared exactly the host name,
    port, user name and credentials the server has now: no edit, rotated token or
    late answer of an old test makes a connection active that was not tested. *)
Theorem active_server_was_tested p p' (Hstart : untested p) (Hsteps : rtc test_step p p') i s
    (Hs : servers (t_db p') !! i = Some s) (Hactive : is_active s = true) :
  ∃ op r v, panelOperations (t_db p') !! op = Some r ∧ passed r = true ∧
    op_serverId r = i ∧ t_seen p' !! op = Some v ∧ connection_of v = connection_of s.
Proof using iv_keeps.
  apply steps_ok in Hsteps as Hp; [|by apply untested_ok].
  destruct (to_active p' Hp i s Hs Hactive) as (op&r&v&H1&H2&H3&H4&H5).
  exists op, r, v. split_and!; try done. destruct (to_seen p' Hp op v H3) as (q&_&Hq&_&E&_).
  rewrite H1 in Hq. apply (inj Some) in Hq as <-. congruence.
Qed.

(** what a transaction on servers can do.  It makes a server DISABLED, or changes
    one that has not been removed: the host name, port or user name of a server that
    stays change only while no service is assigned to it; it becomes ACTIVE only with
    its connection as it was and a successful test since its last change; and it is
    removed only when no service lives on it and no operation on it is running or
    uncertain, and then loses its credentials. *)
Theorem server_changes_guarded actor context t w r w'
    (Hrequest : server_request_ok t) (Hkeyed : servers_keyed (db w))
    (Hrun : transaction (server_tx managed_view_ok random_iv encipher actor context t) w = (r, w'))
    id :
  match servers (db w) !! id, servers (db w') !! id with
  | None, None => True
  | None, Some s' => srv_status s' = ServerStatus.DISABLED
  | Some s, Some s' => s' = s ∨ server_change (db w) id s s'
  | Some _, None => False
  end.
Proof using iv_keeps.
  assert (servers (db w') = servers (db w) ∨ ∃ n, servers_change n (db w) (db w')) as Hch.
  { destruct r as [u|e].
    - rewrite transaction_Ok in Hrun. apply server_tx_change in Hrun as [n Hch]; eauto.
    - apply transaction_Err_db in Hrun as ->. by left. }
  destruct Hch as [->|(n&_&[(x&Hn&Hx&->)|(i&x&x'&Hi&Hx&_&->)])].
  - destruct (servers (db w) !! id); [by left|done].
  - destruct (decide (srv_id x = id)) as [<-|].
    + by rewrite Hn, lookup_insert_eq.
    + rewrite lookup_insert_ne by done. destruct (servers (db w) !! id); [by left|done].
  - destruct (decide (i = id)) as [<-|].
    + rewrite Hi, lookup_insert_eq. by right.
    + rewrite lookup_insert_ne by done. destruct (servers (db w) !! id); [by left|done].
Qed.
End tests.

(** ** Credentials *)
Definition no_dot (s : string) : bool := all_chars (λ c, negb (Ascii.eqb c ".")) s.
Lemma split_dot a s : no_dot a = true → split_on "." (a ++ "." ++ s)%string = a :: split_on "." s.
Proof.
  induction a as [|c a IH]; cbn [no_dot all_chars]; [done|].
  intros [Hc Ha]%andb_true_iff. apply negb_true_iff in Hc.
  change ((String c a ++ "." ++ s)%string) with (String c (a ++ "." ++ s)%string).
  cbn [split_on]. by rewrite Hc, (IH Ha).
Qed.
Lemma split_dotless a : no_dot a = true → split_on "." a = [a].
Proof.
  induction a as [|c a IH]; cbn [no_dot all_chars]; [done|].
  intros [Hc Ha]%andb_true_iff. apply negb_true_iff in Hc. cbn [split_on]. by rewrite Hc, (IH Ha).
Qed.
(** AES-GCM undoes itself under the same server, and base64url texts have no dot. *)
Class CipherLaws (encipher : string → string → string → string * string)
    (decipher : string → string → string → string → option string) : Prop :=
  { cipher_inverse s iv text tag c : encipher s iv text = (tag, c) → decipher s iv tag c = Some text;
    cipher_texts s iv text tag c : encipher s iv text = (tag, c) →
      no_dot tag = true ∧ truthy tag = true ∧ no_dot c = true ∧
      (truthy text = true → truthy c = true) }.
(** What both readers of a stored credential find. *)
Definition reads_as (decipher : string → string → string → string → option string)
    (s : Server) (token : string) : Prop :=
  connection decipher s = Ok (MkConnection (srv_id s) (srv_hostname s) (srv_port s) (srv_useTls s)
                                (srv_apiUsername s) (Some token)) ∧
  decryptToken decipher s = Ok token.
Section credentials.
Context (managed_view_ok : Server → bool) (random_iv : Io string).
Context (encipher : string → string → string → string * string).
Context (decipher : string → string → string → string → option string).
Context `{!CipherLaws encipher decipher}.
Context (iv_keeps : ∀ w, db (snd (random_iv w)) = db w ∧ clock (snd (random_iv w)) = clock w).
Context (iv_ok : ∀ w iv w', random_iv w = (Ok iv, w') → no_dot iv = true ∧ truthy iv = true).

Lemma encrypted_reads s token w c w' :
  encrypt random_iv encipher (srv_id s) token w = (Ok c, w') → truthy token = true →
  srv_credentialsCiphertext s = Some c → srv_credentialKeyVersion s = Some KEY_VERSION →
  reads_as decipher s token.
Proof using Type*.
  unfold encrypt. intros H Ht Hc Hv. apply bind_Ok in H as (iv&w1&Hiv&H).
  destruct (encipher (srv_id s) iv token) as [tag text] eqn:E. apply ret_Ok in H as [-> _].
  destruct (iv_ok _ _ _ Hiv) as [I1 I2]. pose proof (cipher_inverse _ _ _ _ _ E) as Hinv.
  destruct (cipher_texts _ _ _ _ _ E) as (T1&T2&T3&T4).
  assert (split_on "." (CIPHERTEXT_VERSION ++ "." ++ iv ++ "." ++ tag ++ "." ++ text)%string =
          [CIPHERTEXT_VERSION; iv; tag; text]) as Hsplit
    by (rewrite !split_dot by done; by rewrite split_dotless).
  split.
  - unfold connection. rewrite Hc, Hv. change (truthy KEY_VERSION) with true.
    unfold decrypt. change (String.eqb KEY_VERSION KEY_VERSION) with true.
    rewrite Hsplit, I2, T2, T4, Hinv by done. reflexivity.
  - unfold decryptToken. rewrite Hc, Hv. change (Some KEY_VERSION) with (Some "cpanel-token-v1").
    rewrite bool_decide_eq_true_2 by done. unfold default, id.
    rewrite Hsplit, I2, T2, T4, Hinv by done. reflexivity.
Qed.
(** A row written with a new credential. *)
Lemma written_reads id token w c w1 f s w2 :
  servers_keyed (db w) → encrypt random_iv encipher id token w = (Ok c, w1) → truthy token = true →
  update_server id f w1 = (Ok s, w2) →
  (∀ s0, servers (db w) !! id = Some s0 →
     srv_id (f s0) = srv_id s0 ∧ srv_credentialsCiphertext (f s0) = Some c ∧
     srv_credentialKeyVersion (f s0) = Some KEY_VERSION) → reads_as decipher s token.
Proof using Type*.
  intros Hkey He Ht Hu Hf. destruct (encrypt_Ok _ _ iv_keeps _ _ _ _ _ He) as [Ed _].
  apply update_server_Ok in Hu as (s0&Hs0&->&_). rewrite Ed in Hs0.
  destruct (Hf _ Hs0) as (F1&F2&F3). apply encrypted_reads with w c w1; try done.
  cbn. rewrite F1. rewrite (Hkey _ _ Hs0). done.
Qed.

(** C22: a stored credential is read back.  After a cPanel server is added, its token
    rotated, or its connection configured, the connection the API opens to the
    server and the worker's own reader of credentials both find the token that was
    given, for the address the row names. *)
Theorem stored_token_read_back actor context w s w' (Hkey : servers_keyed (db w)) :
  (∀ input, truthy (csr_apiToken input) = true →
     createServer_tx random_iv encipher input actor context w = (Ok s, w') →
     reads_as decipher s (csr_apiToken input)) ∧
  (∀ id input token n, us_apiToken input = Some token → truthy token = true →
     updateServer_tx random_iv encipher id input actor context w = (Ok (s, n), w') →
     reads_as decipher s token) ∧
  (∀ id input, truthy (cfg_apiToken input) = true →
     configure_tx random_iv encipher id input actor context w = (Ok s, w') →
     reads_as decipher s (cfg_apiToken input)).
Proof using Type*.
  split_and!.
  - intros input Ht H. unfold createServer_tx in H.
    apply bind_Ok in H as (id&w1&_&H). apply bind_Ok in H as (c&w2&He&H).
    apply bind_Ok in H as (now&w3&_&H). apply bind_Ok in H as (?&w4&_&H).
    apply bind_Ok in H as (?&w5&_&H). apply ret_Ok in H as [-> _].
    by eapply encrypted_reads.
  - intros id input token n Htok Ht H. unfold updateServer_tx in H.
    apply bind_Ok in H as (?&w1&Hr&H). apply lock_row_Ok in Hr as ->.
    apply bind_Ok in H as (?&w1&Hr&H). apply read_Ok in Hr as [-> ->].
    apply bind_Ok in H as (current&w1&Hr&H). apply lift_Ok in Hr as [_ ->].
    do 3 (apply bind_Ok in H as (?&w1&Hr&H); apply read_Ok in Hr as [-> ->]).
    apply bind_Ok in H as (?&w1&Hr&H). apply lift_Ok in Hr as [_ ->].
    apply bind_Ok in H as (c&w1&He&H). rewrite Htok in He. cbn [encrypt_opt] in He.
    apply bind_Ok in He as (text&w2&He&Hx). apply ret_Ok in Hx as [-> ->].
    apply bind_Ok in H as (s'&w3&Hu&H). apply bind_Ok in H as (?&w4&_&H).
    apply ret_Ok in H as [[= -> ->] _]. eapply written_reads; [exact Hkey|exact He|exact Ht|exact Hu|].
    intros s0 _. unfold updated_server.
    destruct (us_name input), (us_hostname input), (us_port input), (us_apiUsername input),
      (us_maxAccounts input), (updated_status input current); by split_and!.
  - intros id input Ht H. unfold configure_tx in H.
    apply bind_Ok in H as (?&w1&Hr&H). apply lock_row_Ok in Hr as ->.
    apply bind_Ok in H as (?&w1&Hr&H). apply read_Ok in Hr as [-> ->].
    apply bind_Ok in H as (current&w1&Hr&H). apply lift_Ok in Hr as [_ ->].
    apply bind_Ok in H as (?&w1&Hr&H). apply read_Ok in Hr as [-> ->].
    apply bind_Ok in H as (?&w1&Hr&H). apply lift_Ok in Hr as [_ ->].
    apply bind_Ok in H as (c&w1&He&H). apply bind_Ok in H as (s'&w3&Hu&H).
    apply bind_Ok in H as (?&w4&_&H). apply ret_Ok in H as [-> _].
    eapply written_reads; [exact Hkey|exact He|exact Ht|exact Hu|done].
Qed.
End credentials.

(** ** A sample: a server is added, tested and activated *)
Definition plain_iv : Io string := mret "iv".
(** A cipher for the samples: it spells every character in bits. *)
Definition bit_char (b : bool) : ascii := if b then "1" else "0".
Definition char_bit (c : ascii) : bool := Ascii.eqb c "1".
Fixpoint spell (s : string) : string :=
  match s with
  | EmptyString => ""
  | String (Ascii a b c d e f g h) t =>
      String (bit_char a) (String (bit_char b) (String (bit_char c) (String (bit_char d)
        (String (bit_char e) (String (bit_char f) (String (bit_char g) (String (bit_char h)
          (spell t))))))))
  end.
Fixpoint unspell (s : string) : option string :=
  match s with
  | EmptyString => Some ""
  | String a (String b (String c (String d (String e (String f (String g (String h t))))))) =>
      t ← unspell t;
      Some (String (Ascii (char_bit a) (char_bit b) (char_bit c) (char_bit d) (char_bit e)
                      (char_bit f) (char_bit g) (char_bit h)) t)
  | _ => None
  end.
Definition plain_cipher (server iv text : string) : string * string := ("tag", spell text).
Definition plain_decipher (server iv tag text : string) : option string := unspell text.
#[export] Instance plain_laws : CipherLaws plain_cipher plain_decipher.
Proof.
  assert (∀ b, char_bit (bit_char b) = b) as Hbit by (by intros []).
  split; unfold plain_cipher, plain_decipher; intros s iv text tag c [= <- <-].
  - induction text as [|[] t IH]; [done|]. cbn [spell unspell]. rewrite IH.
    cbn [mbind option_bind]. by rewrite !Hbit.
  - split_and!; [done|done| |by destruct text as [|[]]].
    induction text as [|[a b c d e f g h] t IH]; [done|]. cbn [spell no_dot all_chars].
    unfold no_dot in IH. rewrite IH. by destruct a, b, c, d, e, f, g, h.
Qed.
Lemma plain_iv_keeps w : db (snd (plain_iv w)) = db w ∧ clock (snd (plain_iv w)) = clock w.
Proof. done. Qed.
Lemma plain_iv_ok w iv w' : plain_iv w = (Ok iv, w') → no_dot iv = true ∧ truthy iv = true.
Proof. by intros [= <- _]. Qed.
Definition at_time (d : Db) (t : Z) : World :=
  MkWorld d (λ n, Nat.iter n (String "i") "d") 0 (λ _, t) 0 [].
Definition every_server (s : Server) : bool := true.
Definition new_server : CreateCpanelServerRequest :=
  MkCreateServer "Server" "panel.example.test" 2087 "root" "token" None.
Definition activation : UpdateCpanelServerRequest :=
  MkUpdateServer None None None None None None (Some ServerStatus.ACTIVE).
Definition server_run (t : ServerTx) (w : World) : result unit * World :=
  transaction (server_tx every_server plain_iv plain_cipher admin admin_context t) w.
Definition added : Db := db (snd (server_run (TxCreate new_server) (at_time empty_db 1))).
Definition added_server : Server := default hosting_server (servers added !! "d").
Definition test_run : result HostingPanelOperation * World :=
  transaction (createOperation_tx added_server "key" "print" admin admin_context no_options)
    (at_time added 2).
Definition testing : Db := db (snd test_run).
Definition pass_run : result OperationRecord * World :=
  completeSuccess "d" admin admin_context (MkProviderSuccess None None JNull) None
    (at_time testing 3).
Definition tested : Db := db (snd pass_run).
Definition activation_run : result unit * World :=
  server_run (TxUpdate "d" activation) (at_time tested 4).
Definition activated : Db := db (snd activation_run).
Definition seen_rows : gmap string Server := {["d" := added_server]}.
Lemma constant_between d a b : a <= b → between a b (at_time d b).
Proof. intros ? n. simpl. lia. Qed.
Lemma empty_untested : untested (MkTested empty_db 0 ∅).
Proof. split; intros *; cbn; rewrite ?lookup_empty; done. Qed.
Lemma pair_of {A B} (p : A * B) : p = (fst p, snd p).
Proof. by destruct p. Qed.

Notation one_step := (test_step every_server plain_iv plain_cipher).
Lemma active_server_was_tested_witness :
  is_active <$> servers activated !! "d" = Some true ∧
  rtc one_step (MkTested empty_db 0 ∅) (MkTested activated 4 seen_rows) ∧
  ∃ op r v, panelOperations activated !! op = Some r ∧ passed r = true ∧ op_serverId r = "d" ∧
    seen_rows !! op = Some v ∧
    connection_of v = connection_of (default hosting_server (servers activated !! "d")).
Proof.
  split; [vm_compute; reflexivity|].
  assert (rtc one_step (MkTested empty_db 0 ∅) (MkTested activated 4 seen_rows)) as Hsteps.
  { eapply (rtc_l _ _ (MkTested added 1 ∅)).
    { eapply (step_server _ _ _ _ _ (TxCreate new_server) admin admin_context (at_time empty_db 1));
        [done|by apply constant_between|done|apply pair_of|done|done]. }
    eapply (rtc_l _ _ (MkTested testing 2 ∅)).
    { eapply (step_test _ _ _ _ _ added_server "key" "print" admin admin_context no_options
        (at_time added 2)); [done|by apply constant_between|apply pair_of|done|done]. }
    eapply (rtc_l _ _ (MkTested testing 2 seen_rows)).
    { eapply (step_check _ _ _ _ _ "d" (default (new_operation None "" "" OperationType.GET_ACCOUNT
        "" "" "" no_options JNull "" 0) (panelOperations testing !! "d")) added_server);
        try (vm_compute; reflexivity). }
    eapply (rtc_l _ _ (MkTested tested 3 seen_rows)).
    { eapply (step_pass _ _ _ _ _ "d" (default (new_operation None "" "" OperationType.GET_ACCOUNT
        "" "" "" no_options JNull "" 0) (panelOperations testing !! "d")) admin admin_context
        (MkProviderSuccess None None JNull) (at_time testing 3));
        [done|vm_compute; reflexivity|vm_compute; reflexivity|vm_compute; reflexivity
        |vm_compute; reflexivity|vm_compute; by eexists|apply pair_of|done|done|done]. }
    apply rtc_once.
    eapply (step_server _ _ _ _ _ (TxUpdate "d" activation) admin admin_context (at_time tested 4));
      [done|by apply constant_between|done|apply pair_of|done|done]. }
  split; [exact Hsteps|].
  refine (@active_server_was_tested every_server plain_iv plain_cipher plain_iv_keeps
    (MkTested empty_db 0 ∅) (MkTested activated 4 seen_rows) empty_untested Hsteps "d"
    (default hosting_server (servers activated !! "d")) _ _); vm_compute; reflexivity.
Defined.
Lemma server_changes_guarded_witness :
  let w := at_time tested 4 in
  let w' := snd activation_run in
  is_ok (fst activation_run) = true ∧
  srv_status <$> servers (db w) !! "d" = Some ServerStatus.DISABLED ∧
  match servers (db w) !! "d", servers (db w') !! "d" with
  | None, None => True
  | None, Some s' => srv_status s' = ServerStatus.DISABLED
  | Some s, Some s' => s' = s ∨ server_change (db w) "d" s s'
  | Some _, None => False
  end.
Proof.
  intros w w'. split; [vm_compute; reflexivity|]. split; [vm_compute; reflexivity|].
  assert (servers_keyed (db w)) as Hkeyed.
  { intros i s Hs. revert Hs.
    assert (servers (db w) = {["d" := added_server]}) as -> by (vm_compute; reflexivity).
    intros [<- <-]%lookup_singleton_Some. vm_compute. reflexivity. }
  assert (server_request_ok (TxUpdate "d" activation)) as Hrequest by (intros E; discriminate E).
  exact (@server_changes_guarded every_server plain_iv plain_cipher plain_iv_keeps admin
    admin_context (TxUpdate "d" activation) w (fst activation_run) w' Hrequest Hkeyed
    (pair_of activation_run) "d").
Defined.
Definition rotated : UpdateCpanelServerRequest :=
  MkUpdateServer None None None None (Some "token.2") None None.
Definition rotation_run : result (Server * Z) * World :=
  updateServer_tx plain_iv plain_cipher "d" rotated admin admin_context (at_time activated 5).
Definition rotated_server : Server :=
  match fst rotation_run with Ok (s, _) => s | Err _ => hosting_server end.
Lemma stored_token_read_back_witness :
  srv_status rotated_server = ServerStatus.MAINTENANCE ∧
  reads_as plain_decipher rotated_server "token.2".
Proof.
  split; [vm_compute; reflexivity|].
  assert (servers_keyed (db (at_time activated 5))) as Hkey.
  { intros i s Hs. revert Hs.
    assert (servers (db (at_time activated 5)) =
            {["d" := default hosting_server (servers activated !! "d")]}) as ->
      by (vm_compute; reflexivity).
    intros [<- <-]%lookup_singleton_Some. vm_compute. reflexivity. }
  assert (rotation_run = (Ok (rotated_server, 0), snd rotation_run)) as Hrun
    by (apply run_outcome; vm_compute; reflexivity).
  destruct (@stored_token_read_back plain_iv plain_cipher plain_decipher plain_laws plain_iv_keeps
    plain_iv_ok admin admin_context (at_time activated 5) rotated_server (snd rotation_run) Hkey)
    as (_&H&_).
  apply (H "d" rotated "token.2" 0); [done|done|exact Hrun].
Defined.
