(* ===== verification/Totp.v ===== *)
(** * Time-based one-time passwords

    apps/api/src/modules/auth/services/totp.service.ts.  A [Buffer] is a list of
    bytes in [Z]; the bit operations are JavaScript's, on signed 32-bit integers.
    Random bytes, HMAC and AES-GCM are parameters. *)
From S2P Require Import Prelude JsString States Database Invoices.

(** ** JavaScript's bit operations *)
Definition int32 (x : Z) : Z := (x + 2 ^ 31) mod 2 ^ 32 - 2 ^ 31.
Definition shl32 (x k : Z) : Z := int32 (Z.shiftl x k).
(** [x >>> k]. *)
Definition ushr32 (x k : Z) : Z := Z.shiftr (x mod 2 ^ 32) k.

(** ** Base32 *)
Definition ALPHABET : string := "ABCDEFGHIJKLMNOPQRSTUVWXYZ234567".
Definition PERIOD_SECONDS : Z := 30.
(** [ALPHABET[i]], as text. *)
Definition alphabet_at (i : Z) : string :=
  match String.get (Z.to_nat i) ALPHABET with
  | Some c => String c "" | None => "undefined"
  end.
(** The inner loop of [encodeBase32]; every turn takes five bits. *)
Fixpoint emit (fuel : nat) (bits value : Z) (output : string) : Z * string :=
  match fuel with
  | O => (bits, output)
  | S fuel =>
      if 5 <=? bits
      then emit fuel (bits - 5) value
             (output ++ alphabet_at (Z.land (ushr32 value (bits - 5)) 31))%string
      else (bits, output)
  end.
Fixpoint encode_bytes (input : list Z) (bits value : Z) (output : string)
    : Z * Z * string :=
  match input with
  | [] => (bits, value, output)
  | byte :: rest =>
      let value := Z.lor (shl32 value 8) byte in
      let '(bits, output) := emit (Z.to_nat (bits + 8)) (bits + 8) value output in
      encode_bytes rest bits value output
  end.
Definition encodeBase32 (input : list Z) : string :=
  let '(bits, value, output) := encode_bytes input 0 0 "" in
  if 0 <? bits then (output ++ alphabet_at (Z.land (shl32 value (5 - bits)) 31))%string
  else output.

(** [ALPHABET.indexOf(c)]. *)
Fixpoint index_from (i : Z) (c : ascii) (s : string) : Z :=
  match s with
  | EmptyString => -1
  | String d t => if Ascii.eqb c d then i else index_from (i + 1) c t
  end.
Definition alphabet_index (c : ascii) : Z := index_from 0 c ALPHABET.
(** [s.replaceAll(c, '')]. *)
Fixpoint remove_char (c : ascii) (s : string) : string :=
  match s with
  | EmptyString => ""
  | String d t => if Ascii.eqb d c then remove_char c t else String d (remove_char c t)
  end.
Fixpoint decode_chars (input : string) (bits value : Z) (output : list Z)
    : result (list Z) :=
  match input with
  | EmptyString => Ok output
  | String c rest =>
      let index := alphabet_index c in
      if index <? 0 then Err (JsError "Invalid base32 secret")
      else
        let value := Z.lor (shl32 value 5) index in
        let bits := bits + 5 in
        if 8 <=? bits
        then decode_chars rest (bits - 8) value
               (output ++ [Z.land (ushr32 value (bits - 8)) 255])
        else decode_chars rest bits value output
  end.
Definition decodeBase32 (input : string) : result (list Z) :=
  decode_chars (js_upper (remove_char "=" input)) 0 0 [].

(** ** One-time passwords *)
(** [counter.writeBigUInt64BE(timeStep)]. *)
Definition counter_bytes (timeStep : Z) : result (list Z) :=
  _ ← throw_unless ((0 <=? timeStep) && (timeStep <? 2 ^ 64))
        (RangeError "The value of value is out of range.");
  Ok ((λ k, Z.land (Z.shiftr timeStep (8 * k)) 255) <$> [7; 6; 5; 4; 3; 2; 1; 0]).
(** [digest[i]] as an operand of a bit operation: a missing byte counts as zero. *)
Definition digest_at (digest : list Z) (i : Z) : Z := default 0 (digest !! Z.to_nat i).
(** [Buffer]s compared by [timingSafeEqual], which wants equal lengths. *)
Definition timing_safe_equal (a b : string) : result bool :=
  _ ← throw_unless (slen a =? slen b)
        (RangeError "Input buffers must have the same byte length");
  Ok (String.eqb a b).
Definition six_digits (s : string) : bool := (slen s =? 6) && all_chars is_digit s.
(** [encoded.match(/.{4}/g)!.join('-')]. *)
Fixpoint groups_of_4 (s : string) : list string :=
  match s with
  | String a (String b (String c (String d t))) =>
      String a (String b (String c (String d ""))) :: groups_of_4 t
  | _ => []
  end.
Definition recovery_format (encoded : string) : string :=
  String.concat "-" (groups_of_4 encoded).
Definition keyVersion : string := "mfa-v1".
Definition normalized_recovery_code (code : string) : string :=
  js_upper (remove_char "-" code).

(** ** The address an authenticator reads *)
Definition hex_upper (n : Z) : ascii :=
  if n <? 10 then ascii_of_N (Z.to_N (48 + n)) else ascii_of_N (Z.to_N (55 + n)).
Definition percent (byte : Z) : string :=
  String "%" (String (hex_upper (byte / 16)) (String (hex_upper (byte mod 16)) "")).
(** The UTF-8 bytes of a code unit below 256, escaped. *)
Definition escaped (c : ascii) : string :=
  if code c <? 128 then percent (code c)
  else (percent (192 + code c / 64) ++ percent (128 + code c mod 64))%string.
Fixpoint encode_with (f : ascii → string) (s : string) : string :=
  match s with EmptyString => "" | String c t => (f c ++ encode_with f t)%string end.
Definition encodeURIComponent : string → string :=
  encode_with (λ c, if is_alnum c || existsb (Ascii.eqb c)
                         ["-"; "_"; "."; "!"; "~"; "*"; "'"; "("; ")"]%char
                    then String c "" else escaped c).
(** A value of [URLSearchParams]. *)
Definition form_encode : string → string :=
  encode_with (λ c, if is_alnum c || existsb (Ascii.eqb c) ["*"; "-"; "."; "_"]%char
                    then String c "" else if Ascii.eqb c " " then "+" else escaped c).
Definition buildUri (email secret : string) : string :=
  let issuer := "Webhost Billing" in
  let query := String.concat "&"
    ((λ kv, kv.1 ++ "=" ++ form_encode kv.2)%string <$>
       [("secret", secret); ("issuer", issuer); ("algorithm", "SHA1"); ("digits", "6");
        ("period", Z_to_string PERIOD_SECONDS)]) in
  ("otpauth://totp/" ++ encodeURIComponent (issuer ++ ":" ++ email) ++ "?" ++ query)%string.

(** [BigInt(Math.floor(at.getTime() / 1_000 / PERIOD_SECONDS))]. *)
Definition time_step (at_ : Z) : Z := at_ / 1000 / PERIOD_SECONDS.

Section totp.
Context (hmac_sha1 : list Z → list Z → list Z).

Definition hotp (secret : string) (timeStep : Z) : result string :=
  counter ← counter_bytes timeStep;
  key ← decodeBase32 secret;
  let digest := hmac_sha1 key counter in
  let offset := Z.land (digest_at digest (Z.of_nat (length digest) - 1)) 15 in
  let number :=
    Z.lor (Z.lor (Z.lor (shl32 (Z.land (digest_at digest offset) 127) 24)
                        (shl32 (digest_at digest (offset + 1)) 16))
                 (shl32 (digest_at digest (offset + 2)) 8))
          (digest_at digest (offset + 3)) in
  Ok (pad_start 6 "0" (Z_to_string (Z.rem number 1000000))).
Fixpoint verify_offsets (secret code : string) (current : Z) (offsets : list Z)
    : result (option Z) :=
  match offsets with
  | [] => Ok None
  | offset :: rest =>
      let step := current + offset in
      expected ← hotp secret step;
      equal ← timing_safe_equal expected code;
      if equal : bool then Ok (Some step) else verify_offsets secret code current rest
  end.
Definition verify (secret code : string) (at_ : Z) : result (option Z) :=
  if negb (six_digits code) then Ok None
  else verify_offsets secret code (time_step at_) [0; -1; 1].
Definition codeAt (secret : string) (at_ : Z) : result string :=
  hotp secret (time_step at_).
End totp.

Section secrets.
Context (random_bytes : nat → Io (list Z)).

Definition generateSecret : Io string :=
  bytes ← random_bytes 20; mret (encodeBase32 bytes).
Fixpoint createRecoveryCodes (count : nat) : Io (list string) :=
  match count with
  | O => mret []
  | S count =>
      bytes ← random_bytes 10;
      rest ← createRecoveryCodes count;
      mret (recovery_format (encodeBase32 bytes) :: rest)
  end.
End secrets.

(** ** Sealed texts

    TotpService.encryptSecret and token-cipher.service.ts: a version, an
    initialization vector, a tag and a ciphertext, separated by dots.  [encipher]
    and [decipher] are AES-256-GCM under the service's key, [random_iv] a fresh
    vector in base64url. *)
Section sealed.
Context (random_iv : Io string) (encipher : string → string → string → string * string).
Context (decipher : string → string → string → string → option string).

Definition seal (version aad text : string) : Io string :=
  iv ← random_iv;
  let '(tag, ciphertext) := encipher aad iv text in
  mret (version ++ "." ++ iv ++ "." ++ tag ++ "." ++ ciphertext)%string.
Definition unseal (version aad failure value : string) : result string :=
  match split_on "." value with
  | [v; iv; tag; ciphertext] =>
      _ ← throw_unless (String.eqb v version && truthy iv && truthy tag && truthy ciphertext)
            (JsError failure);
      of_option (JsError "Unsupported state or unable to authenticate data")
        (decipher aad iv tag ciphertext)
  | _ => Err (JsError failure)
  end.
Definition encryptSecret (secret : string) : Io string := seal keyVersion keyVersion secret.
Definition decryptSecret (value : string) : result string :=
  unseal keyVersion keyVersion "Unsupported MFA secret format" value.
(** TokenCipherService. *)
Definition encrypt_token (token : string) : Io string := seal "v1" "" token.
Definition decrypt_token (value : string) : result string :=
  unseal "v1" "" "Unsupported encrypted token format" value.
End sealed.
Section recovery.
Context (hmac_recovery : string → string).

Definition hashRecoveryCode (code : string) : string :=
  hmac_recovery (normalized_recovery_code code).
End recovery.
