(* ===== verification/TotpProperties.v ===== *)
(** * Properties of one-time passwords

    Base32 is undone by its decoder, a recovery code is recognized as the text it
    was made from, and a password has six digits and is accepted for a period next
    to the current one only. *)
From S2P Require Import Prelude JsString Money States Database Invoices Totp.

(** ** Numerals of a base *)
Definition numeral (b : Z) (l : list Z) : Z := fold_left (λ a d, a * b + d) l 0.
Definition digit_of (b d : Z) : Prop := 0 <= d < b.

Section numerals.
Context (b : Z) (Hb : 1 < b).

Lemma numeral_snoc l d : numeral b (l ++ [d]) = numeral b l * b + d.
Proof using Type. unfold numeral. by rewrite fold_left_app. Qed.
Lemma numeral_inj l m :
  Forall (digit_of b) l → Forall (digit_of b) m → length l = length m →
  numeral b l = numeral b m → l = m.
Proof using Hb.
  revert m. induction l as [|d l IH] using rev_ind; intros m Hl Hm Hlen Heq.
  - by destruct m.
  - destruct m as [|e m _] using rev_ind; [rewrite length_app in Hlen; simpl in Hlen; lia|].
    rewrite !length_app in Hlen. simpl in Hlen.
    apply Forall_app in Hl as [Hl Hd]. apply Forall_app in Hm as [Hm He].
    inversion_clear Hd as [|? ? Hd' _]. inversion_clear He as [|? ? He' _].
    rewrite !numeral_snoc in Heq. unfold digit_of in *.
    destruct (Z.div_mod_unique b (numeral b l) (numeral b m) d e) as [? ->]; [lia|lia|lia|].
    f_equal. apply IH; auto. lia.
Qed.
End numerals.

(** ** Bits *)
Lemma int32_mod x k : 0 <= k <= 32 → int32 x mod 2 ^ k = x mod 2 ^ k.
Proof.
  intros Hk. unfold int32.
  assert (2 ^ 32 = 2 ^ (32 - k) * 2 ^ k) as E by (rewrite <- Z.pow_add_r by lia; f_equal; lia).
  assert ((x + 2 ^ 31) mod 2 ^ 32 =
          x + 2 ^ 31 - ((x + 2 ^ 31) / 2 ^ 32) * 2 ^ (32 - k) * 2 ^ k) as ->
    by (rewrite Z.mod_eq by lia; rewrite <- (Z.mul_assoc _ _ (2 ^ k)), <- E; ring).
  replace (_ - _ - 2 ^ 31) with (x + - ((x + 2 ^ 31) / 2 ^ 32 * 2 ^ (32 - k)) * 2 ^ k) by ring.
  apply Z_mod_plus_full.
Qed.
Lemma lor_low a d k : 0 <= k → a mod 2 ^ k = 0 → 0 <= d < 2 ^ k → Z.lor a d = a + d.
Proof.
  intros Hk Ha Hd. symmetry. apply Z.add_nocarry_lor. apply Z.bits_inj'. intros n Hn.
  rewrite Z.land_spec, Z.bits_0. destruct (Z.lt_ge_cases n k).
  - rewrite <- (Z.mod_pow2_bits_low a k n) by lia. by rewrite Ha, Z.bits_0.
  - rewrite <- (Z.mod_small d (2 ^ k)) by lia. rewrite Z.mod_pow2_bits_high by lia.
    apply andb_false_r.
Qed.
(** A digit shifted into a register that keeps the low [n] bits exact. *)
Lemma push_low v d k n :
  0 <= k → 0 <= n → n + k <= 32 → 0 <= d < 2 ^ k →
  Z.lor (shl32 v k) d mod 2 ^ (n + k) = (v mod 2 ^ n) * 2 ^ k + d.
Proof.
  intros Hk Hn Hnk Hd. unfold shl32.
  assert (int32 (Z.shiftl v k) mod 2 ^ k = 0) as H0.
  { rewrite int32_mod by lia. rewrite Z.shiftl_mul_pow2 by lia. apply Z_mod_mult. }
  rewrite (lor_low _ d k) by done.
  rewrite <- Zplus_mod_idemp_l, int32_mod by lia. rewrite Z.shiftl_mul_pow2 by lia.
  rewrite Z.pow_add_r by lia. rewrite Zmult_mod_distr_r.
  apply Z.mod_small. pose proof (Z.mod_pos_bound v (2 ^ n) ltac:(lia)). nia.
Qed.
(** [(value >>> k) & (2^n - 1)]: bits [k] to [k + n - 1]. *)
Lemma take_bits v k n :
  0 <= k → 0 <= n → n + k <= 32 →
  Z.land (ushr32 v k) (2 ^ n - 1) = v mod 2 ^ (n + k) / 2 ^ k.
Proof.
  intros Hk Hn Hnk. unfold ushr32.
  replace (2 ^ n - 1) with (Z.ones n) by (rewrite Z.ones_equiv; lia).
  rewrite Z.land_ones, Z.shiftr_div_pow2 by lia.
  rewrite Z.add_comm, Z.pow_add_r by lia. 
  rewrite (Z.rem_mul_r v) by lia.
  assert (2 ^ 32 = 2 ^ k * 2 ^ (32 - k)) as -> by (rewrite <- Z.pow_add_r by lia; f_equal; lia).
  rewrite (Z.rem_mul_r v) by lia.
  rewrite !(Z.mul_comm (2 ^ k)), !Z.div_add, !Z.div_small, !Z.add_0_l
    by (try apply Z.mod_pos_bound; lia).
  assert (2 ^ (32 - k) = 2 ^ n * 2 ^ (32 - k - n)) as ->
    by (rewrite <- Z.pow_add_r by lia; f_equal; lia).
  rewrite (Z.rem_mul_r _ (2 ^ n)) by lia.
  rewrite (Z.mul_comm (2 ^ n)), Z_mod_plus_full. apply Zmod_mod.
Qed.

(** ** Base32 *)
(** A letter of the alphabet: [decodeBase32] reads it as it is. *)
Definition letter (c : ascii) : bool :=
  (0 <=? alphabet_index c) && (alphabet_index c <? 32) && Ascii.eqb (upper_char c) c &&
  negb (Ascii.eqb c "=") && negb (Ascii.eqb c "-").
Fixpoint values (s : string) : list Z :=
  match s with EmptyString => [] | String c t => alphabet_index c :: values t end.

Lemma alphabet_at_letter i :
  0 <= i < 32 → ∃ c, alphabet_at i = String c "" ∧ alphabet_index c = i ∧ letter c = true.
Proof.
  intros Hi.
  assert (forallb (λ i, match alphabet_at i with
    | String c EmptyString => (alphabet_index c =? i) && letter c | _ => false end)
    (Z.of_nat <$> seq 0 32) = true) as H by (vm_compute; reflexivity).
  rewrite forallb_forall in H. specialize (H i).
  rewrite <- list_elem_of_In, list_elem_of_fmap in H.
  destruct (alphabet_at i) as [|c [|]] eqn:E;
    try (exfalso; discriminate H; exists (Z.to_nat i); split; [lia|apply elem_of_seq; lia]).
  exists c. destruct (andb_true_iff (alphabet_index c =? i) (letter c)) as [[? ?] _].
  - apply H. exists (Z.to_nat i). split; [lia|]. apply elem_of_seq. lia.
  - split_and!; [done|lia|done].
Qed.
Lemma values_app s t : values (s ++ t)%string = values s ++ values t.
Proof. induction s as [|c s IH]; [done|]. cbn. by rewrite IH. Qed.
Lemma values_length s : Z.of_nat (length (values s)) = slen s.
Proof. induction s as [|c s IH]; [done|]. rewrite slen_cons, <- IH. cbn [values length]. lia. Qed.
Lemma letter_value c : letter c = true → 0 <= alphabet_index c < 32.
Proof. unfold letter. intros H. split_bool. lia. Qed.

(** What an encoder or decoder has taken in equals what it has put out and the
    bits it still holds. *)
Definition encoded_so_far (n : Z) (bits value : Z) (output : string) : Prop :=
  all_chars letter output = true ∧
  numeral 32 (values output) * 2 ^ bits + value mod 2 ^ bits = n.

Lemma split_low v n k : 0 <= k <= n →
  v mod 2 ^ n = v mod 2 ^ n / 2 ^ k * 2 ^ k + v mod 2 ^ k.
Proof.
  intros H. pose proof (Z.div_mod (v mod 2 ^ n) (2 ^ k) ltac:(lia)) as Hd.
  rewrite (Z.mod_mod_divide v (2 ^ n) (2 ^ k)) in Hd; [lia|].
  exists (2 ^ (n - k)). rewrite <- Z.pow_add_r by lia. f_equal. lia.
Qed.
Lemma emit_spec fuel n bits value output :
  0 <= bits <= 12 → (Z.to_nat bits <= fuel)%nat → encoded_so_far n bits value output →
  ∃ bits' output', emit fuel bits value output = (bits', output') ∧
    0 <= bits' < 5 ∧ 5 * slen output' + bits' = 5 * slen output + bits ∧
    encoded_so_far n bits' value output'.
Proof.
  revert bits output. induction fuel as [|fuel IH]; intros bits output Hb Hf [Hl Hn]; cbn [emit].
  - exists bits, output. unfold encoded_so_far. split_and!; auto; lia.
  - destruct (Z.leb_spec 5 bits) as [H5|H5];
      [|exists bits, output; unfold encoded_so_far; split_and!; auto; lia].
    change 31 with (2 ^ 5 - 1). rewrite take_bits by lia.
    replace (5 + (bits - 5)) with bits by lia.
    pose proof (split_low value bits (bits - 5) ltac:(lia)) as Hs.
    set (d := value mod 2 ^ bits / 2 ^ (bits - 5)) in *.
    assert (2 ^ bits = 32 * 2 ^ (bits - 5)) as Hpow
      by (change 32 with (2 ^ 5); rewrite <- Z.pow_add_r by lia; f_equal; lia).
    assert (0 <= d < 32) as Hd.
    { pose proof (Z.mod_pos_bound value (2 ^ bits) ltac:(lia)).
      split; [apply Z.div_pos; lia|apply Z.div_lt_upper_bound; lia]. }
    destruct (alphabet_at_letter d Hd) as (c&->&Hi&Hc).
    destruct (IH (bits - 5) (output ++ String c "")%string) as (b'&o'&->&Hb'&Hlen&He); [lia|lia| |].
    + split; [rewrite all_chars_app, Hl; cbn [all_chars]; by rewrite Hc|].
      rewrite values_app. cbn [values]. rewrite numeral_snoc, Hi. nia.
    + exists b', o'. split_and!; [done|lia|lia| |done].
      rewrite slen_app, slen_cons in Hlen. change (slen "") with 0 in Hlen. lia.
Qed.
Lemma encode_bytes_spec input l bits value output :
  Forall (digit_of 256) input → 0 <= bits < 5 →
  8 * Z.of_nat (length l) = 5 * slen output + bits →
  encoded_so_far (numeral 256 l) bits value output →
  ∃ bits' value' output', encode_bytes input bits value output = (bits', value', output') ∧
    0 <= bits' < 5 ∧ 8 * Z.of_nat (length (l ++ input)) = 5 * slen output' + bits' ∧
    encoded_so_far (numeral 256 (l ++ input)) bits' value' output'.
Proof.
  revert l bits value output.
  induction input as [|byte input IH]; intros l bits value output Hin Hb Hlen He.
  - rewrite app_nil_r. by exists bits, value, output.
  - inversion_clear Hin as [|? ? Hbyte Hin']. cbn [encode_bytes].
    set (value1 := Z.lor (shl32 value 8) byte).
    destruct (emit_spec (Z.to_nat (bits + 8)) (numeral 256 (l ++ [byte])) (bits + 8) value1 output)
      as (b'&o'&->&Hb'&Hlen'&He'); [lia|lia| |].
    + destruct He as [Hl Hn]. split; [done|]. rewrite numeral_snoc, <- Hn.
      unfold value1. rewrite push_low by (unfold digit_of in *; lia).
      rewrite Z.pow_add_r by lia. change (2 ^ 8) with 256. ring.
    + destruct (IH (l ++ [byte]) b' value1 o') as (b2&v2&o2&E&?&Hlen2&He2); auto.
      * rewrite length_app. cbn [length]. lia.
      * rewrite <- app_assoc in Hlen2, He2. cbn [app] in *. by exists b2, v2, o2.
Qed.
(** The text of [encodeBase32]: its letters spell the bytes, padded with zero bits. *)
Lemma encodeBase32_spec input :
  Forall (digit_of 256) input →
  all_chars letter (encodeBase32 input) = true ∧
  ∃ p, 0 <= p < 5 ∧ 5 * slen (encodeBase32 input) = 8 * Z.of_nat (length input) + p ∧
    numeral 32 (values (encodeBase32 input)) = numeral 256 input * 2 ^ p.
Proof.
  intros Hin. unfold encodeBase32.
  destruct (encode_bytes_spec input [] 0 0 "" Hin) as (b&v&o&->&Hb&Hlen&Hl&Hn);
    [lia|reflexivity|by split|]. cbn [app] in *.
  destruct (Z.ltb_spec 0 b) as [H0|H0].
  - assert (Z.land (shl32 v (5 - b)) 31 = (v mod 2 ^ b) * 2 ^ (5 - b)) as ->.
    { change 31 with (Z.ones 5). rewrite Z.land_ones by lia. unfold shl32.
      rewrite int32_mod by lia. rewrite Z.shiftl_mul_pow2 by lia.
      assert (2 ^ 5 = 2 ^ b * 2 ^ (5 - b)) as -> by (rewrite <- Z.pow_add_r by lia; f_equal; lia).
      apply Zmult_mod_distr_r. }
    assert (2 ^ b * 2 ^ (5 - b) = 32) as Hpow
      by (rewrite <- Z.pow_add_r by lia; replace (b + (5 - b)) with 5 by lia; reflexivity).
    pose proof (Z.mod_pos_bound v (2 ^ b) ltac:(lia)) as Hv.
    destruct (alphabet_at_letter (v mod 2 ^ b * 2 ^ (5 - b))) as (c&->&Hi&Hc); [nia|].
    split; [rewrite all_chars_app, Hl; cbn [all_chars]; by rewrite Hc|].
    exists (5 - b). rewrite slen_app, slen_cons. change (slen "") with 0.
    split_and!; [lia..|]. rewrite values_app. cbn [values].
    rewrite numeral_snoc, Hi, <- Hn, <- Hpow. ring.
  - assert (b = 0) as -> by lia. split; [done|]. exists 0.
    change (2 ^ 0) with 1 in *. rewrite Z.mod_1_r in Hn. split_and!; lia.
Qed.

(** [decodeBase32] undoes it. *)
Lemma decode_chars_spec s t bits value output :
  all_chars letter s = true → Forall (digit_of 256) output → 0 <= bits < 8 →
  5 * slen t = 8 * Z.of_nat (length output) + bits →
  numeral 256 output * 2 ^ bits + value mod 2 ^ bits = numeral 32 (values t) →
  ∃ bytes b r, decode_chars s bits value output = Ok bytes ∧ Forall (digit_of 256) bytes ∧
    0 <= b < 8 ∧ 5 * slen (t ++ s) = 8 * Z.of_nat (length bytes) + b ∧ 0 <= r < 2 ^ b ∧
    numeral 256 bytes * 2 ^ b + r = numeral 32 (values (t ++ s)).
Proof.
  revert t bits value output. induction s as [|c s IH]; intros t bits value output Hs Ho Hb Hlen Hn.
  - rewrite app_string_nil_r. exists output, bits, (value mod 2 ^ bits).
    split_and!; auto; try lia; apply Z.mod_pos_bound; lia.
  - cbn [all_chars] in Hs. apply andb_true_iff in Hs as [Hc Hs]. cbn [decode_chars].
    pose proof (letter_value c Hc) as Hi.
    destruct (Z.ltb_spec (alphabet_index c) 0) as [H0|_]; [lia|].
    set (value1 := Z.lor (shl32 value 5) (alphabet_index c)).
    assert (numeral 256 output * 2 ^ (bits + 5) + value1 mod 2 ^ (bits + 5) =
            numeral 32 (values (t ++ String c ""))) as Hn1.
    { unfold value1. rewrite push_low by lia. rewrite Z.pow_add_r by lia.
      rewrite values_app. cbn [values]. rewrite numeral_snoc, <- Hn.
      change (2 ^ 5) with 32. ring. }
    assert (5 * slen (t ++ String c "") = 8 * Z.of_nat (length output) + (bits + 5)) as Hlen1.
    { rewrite slen_app, slen_cons. change (slen "") with 0. lia. }
    replace (t ++ String c s)%string with ((t ++ String c "") ++ s)%string
      by (by rewrite <- app_string_assoc).
    destruct (Z.leb_spec 8 (bits + 5)) as [H8|H8]; [|apply (IH _ (bits + 5) value1); auto; lia].
    change 255 with (2 ^ 8 - 1). rewrite take_bits by lia.
    replace (8 + (bits + 5 - 8)) with (bits + 5) by lia.
    pose proof (split_low value1 (bits + 5) (bits + 5 - 8) ltac:(lia)) as Hlow.
    assert (2 ^ (bits + 5) = 256 * 2 ^ (bits + 5 - 8)) as Hpow
      by (change 256 with (2 ^ 8); rewrite <- Z.pow_add_r by lia; f_equal; lia).
    set (d := value1 mod 2 ^ (bits + 5) / 2 ^ (bits + 5 - 8)) in *.
    assert (digit_of 256 d) as Hd.
    { pose proof (Z.mod_pos_bound value1 (2 ^ (bits + 5)) ltac:(lia)).
      split; [apply Z.div_pos; lia|apply Z.div_lt_upper_bound; lia]. }
    apply (IH _ (bits + 5 - 8) value1); auto; try lia.
    + apply Forall_app. split; [done|]. by constructor.
    + rewrite length_app. cbn [length]. lia.
    + rewrite numeral_snoc, <- Hn1, Hlow, Hpow. ring.
Qed.
Lemma letters_kept s :
  all_chars letter s = true → js_upper (remove_char "=" s) = s ∧ js_upper s = s.
Proof.
  intros H. unfold js_upper. induction s as [|c s IH]; [done|]. cbn [all_chars] in H.
  apply andb_true_iff in H as [Hc Hs]. destruct (IH Hs) as [IH1 IH2].
  unfold letter in Hc. split_bool.
  repeat match goal with H : Ascii.eqb _ _ = true |- _ => apply Ascii.eqb_eq in H end.
  cbn [remove_char]. replace (Ascii.eqb c "=") with false.
  cbn [map_chars]. rewrite IH1, IH2. by split; f_equal.
Qed.

Lemma base32_reads bytes :
  Forall (digit_of 256) bytes → decodeBase32 (encodeBase32 bytes) = Ok bytes.
Proof.
  intros Hbytes.
  destruct (encodeBase32_spec bytes Hbytes) as (Hl&p&Hp&Hlen&Hn). unfold decodeBase32.
  destruct (letters_kept _ Hl) as [-> _].
  destruct (decode_chars_spec (encodeBase32 bytes) "" 0 0 [] Hl) as (out&b&r&->&Ho&Hb&Hlen'&Hr&Hn');
    [by constructor|lia|done|done|]. cbn [String.append] in *.
  assert (b = p ∧ length out = length bytes) as [-> Hout] by lia.
  f_equal. apply (numeral_inj 256); auto; [lia|].
  rewrite Hn in Hn'. nia.
Qed.
(** A secret is read back as it was drawn: [decodeBase32] undoes [encodeBase32]
    on every sequence of bytes, whatever the 32-bit register overflows by. *)
Theorem base32_round_trip bytes (Hbytes : Forall (digit_of 256) bytes) :
  decodeBase32 (encodeBase32 bytes) = Ok bytes.
Proof. exact (base32_reads bytes Hbytes). Qed.
Lemma base32_round_trip_witness :
  Forall (digit_of 256) [255; 0; 129; 64; 7; 200] ∧
  decodeBase32 (encodeBase32 [255; 0; 129; 64; 7; 200]) = Ok [255; 0; 129; 64; 7; 200].
Proof.
  assert (Forall (digit_of 256) [255; 0; 129; 64; 7; 200]) as H
    by (repeat constructor; vm_compute; congruence).
  split; [exact H|]. apply (base32_round_trip _ H).
Defined.

(** ** Passwords *)
Section passwords.
Context (hmac_sha1 : list Z → list Z → list Z).
(** A digest is a sequence of bytes. *)
Context (digest_bytes : ∀ key counter, Forall (digit_of 256) (hmac_sha1 key counter)).

Lemma digest_at_byte key counter i : 0 <= digest_at (hmac_sha1 key counter) i < 256.
Proof using digest_bytes.
  unfold digest_at. destruct (_ !! _) as [d|] eqn:E; [|simpl; lia].
  apply (Forall_lookup_1 _ _ _ _ (digest_bytes key counter) E).
Qed.
Lemma shl32_small x k n : 0 <= k → 0 <= x < 2 ^ n → 0 <= n → n + k <= 31 → 0 <= shl32 x k.
Proof using Type.
  intros Hk Hx Hn Hnk. unfold shl32, int32. rewrite Z.shiftl_mul_pow2 by lia.
  assert (0 <= x * 2 ^ k < 2 ^ 31).
  { assert (2 ^ n * 2 ^ k <= 2 ^ 31)
      by (rewrite <- Z.pow_add_r by lia; apply Z.pow_le_mono_r; lia). nia. }
  rewrite Z.mod_small by (change (2 ^ 32) with (2 ^ 31 + 2 ^ 31); lia). lia.
Qed.
(** A password is six digits, of every secret that can be read and every counter. *)
Lemma hotp_six_digits secret key step :
  decodeBase32 secret = Ok key → 0 <= step < 2 ^ 64 →
  ∃ code, hotp hmac_sha1 secret step = Ok code ∧ six_digits code = true.
Proof using digest_bytes.
  intros Hkey Hstep. unfold hotp, counter_bytes.
  replace ((0 <=? step) && (step <? 2 ^ 64)) with true
    by (symmetry; apply andb_true_iff; split; lia). cbn [throw_unless mbind result_bind].
  rewrite Hkey. cbn [mbind result_bind]. eexists. split; [reflexivity|].
  match goal with |- context [Z.rem ?x _] => set (number := x) end.
  assert (0 <= number).
  { unfold number. rewrite !Z.lor_nonneg. 
    repeat match goal with
    | |- context [digest_at (hmac_sha1 key ?c) ?i] =>
        pose proof (digest_at_byte key c i);
        generalize dependent (digest_at (hmac_sha1 key c) i); intros
    end.
    split_and!; try lia.
    - apply (shl32_small _ _ 7); [lia| |lia|lia]. change 127 with (Z.ones 7).
      rewrite Z.land_ones by lia. apply Z.mod_pos_bound. lia.
    - apply (shl32_small _ _ 8); lia.
    - apply (shl32_small _ _ 8); lia. }
  unfold six_digits.
  destruct (pad_start_spec 6 (Z.rem number 1000000)) as (Hd&Hl&_); [lia| |].
  - rewrite Z.rem_mod_nonneg by lia. change (10 ^ Z.of_nat 6) with 1000000.
    apply Z.mod_pos_bound. lia.
  - rewrite Hd, Hl. reflexivity.
Qed.
Lemma verify_offsets_exact secret key code current offsets :
  decodeBase32 secret = Ok key → six_digits code = true →
  Forall (λ o, 0 <= current + o < 2 ^ 64) offsets →
  ∃ r, verify_offsets hmac_sha1 secret code current offsets = Ok r ∧
    match r with
    | Some step => hotp hmac_sha1 secret step = Ok code ∧ ∃ o, o ∈ offsets ∧ step = current + o
    | None => ∀ o, o ∈ offsets → hotp hmac_sha1 secret (current + o) ≠ Ok code
    end.
Proof using digest_bytes.
  intros Hkey Hcode. induction offsets as [|o offsets IH]; intros Ho; cbn [verify_offsets].
  - exists None. split; [done|]. intros o H. by apply elem_of_nil in H.
  - inversion_clear Ho as [|? ? Ho1 Ho2].
    destruct (hotp_six_digits secret key (current + o) Hkey Ho1) as (expected&He&H6).
    rewrite He. cbn [mbind result_bind]. unfold timing_safe_equal.
    unfold six_digits in *. apply andb_true_iff in H6 as [H6 _].
    pose proof Hcode as [H6' _]%andb_true_iff. apply Z.eqb_eq in H6, H6'.
    rewrite H6, H6', Z.eqb_refl. cbn [throw_unless mbind result_bind].
    destruct (String.eqb_spec expected code) as [->|Hne].
    + exists (Some (current + o)). split; [done|]. split; [done|]. exists o.
      split; [apply list_elem_of_here|done].
    + destruct (IH Ho2) as ([step|]&->&H); eexists; (split; [reflexivity|]).
      * destruct H as (?&o'&?&?). split; [done|]. exists o'. split; [by apply list_elem_of_further|done].
      * intros o' [->|Hin]%elem_of_cons; [rewrite He; congruence|by apply H].
Qed.

(** A code is accepted exactly when it is the password of the current period, the
    one before or the one after; the answer names the period it belongs to.  For a
    secret that was generated the check never fails to give an answer. *)
Theorem totp_window_exact bytes code now
    (Hbytes : Forall (digit_of 256) bytes) (Hnow : 1 <= time_step now < 2 ^ 64 - 1) :
  ∃ answer, verify hmac_sha1 (encodeBase32 bytes) code now = Ok answer ∧
    match answer with
    | Some step => hotp hmac_sha1 (encodeBase32 bytes) step = Ok code ∧
        Z.abs (step - time_step now) <= 1
    | None => ∀ step, Z.abs (step - time_step now) <= 1 →
        hotp hmac_sha1 (encodeBase32 bytes) step ≠ Ok code
    end.
Proof using digest_bytes.
  pose proof (base32_reads bytes Hbytes) as Hkey. unfold verify.
  destruct (six_digits code) eqn:H6; cbn [negb].
  - destruct (verify_offsets_exact (encodeBase32 bytes) bytes code (time_step now) [0; -1; 1])
      as (r&->&Hr); auto; [repeat constructor; lia|]. exists r. split; [done|].
    destruct r as [step|].
    + destruct Hr as (?&o&Ho&->). split; [done|]. rewrite !elem_of_cons, elem_of_nil in Ho. lia.
    + intros step Hs. replace step with (time_step now + (step - time_step now)) by lia.
      apply Hr. rewrite !elem_of_cons. lia.
  - exists None. split; [done|]. intros step Hs He.
    destruct (hotp_six_digits (encodeBase32 bytes) bytes step Hkey) as (c&Hc&H); [lia|].
    congruence.
Qed.
End passwords.

(** ** Recovery codes *)
Lemma groups_of_4_text n : ∀ s, String.length s = (4 * n)%nat → all_chars letter s = true →
  remove_char "-" (recovery_format s) = s ∧ length (groups_of_4 s) = n.
Proof.
  unfold recovery_format. induction n as [|n IH]; intros s Hlen Hs.
  - by destruct s.
  - destruct s as [|a [|b [|c [|d t]]]]; try (simpl in Hlen; lia).
    cbn [all_chars] in Hs. repeat (apply andb_true_iff in Hs as [? Hs]).
    destruct (IH t) as [IH1 IH2]; [simpl in Hlen; lia|done|].
    assert (∀ x, letter x = true → Ascii.eqb x "-" = false) as Hd
      by (intros x Hx; unfold letter in Hx; by split_bool).
    cbn [groups_of_4 length]. split; [|lia].
    destruct (groups_of_4 t) as [|g gs] eqn:Hg.
    + cbn. rewrite !Hd by done. destruct t; [done|]. by rewrite <- IH1.
    + change (String.concat "-" (?x :: g :: gs)) with
        (x ++ "-" ++ String.concat "-" (g :: gs))%string.
      cbn [String.append remove_char]. rewrite !Hd by done. cbn [Ascii.eqb].
      change (Ascii.eqb "-" "-") with true. cbn iota. by rewrite IH1.
Qed.
(** A recovery code is recognized in the shape it is shown in: without its hyphens
    it is the sixteen letters that encode its ten random bytes, so that its keyed hash
    is the hash of those letters. *)
Theorem recovery_code_recognized hmac_recovery bytes
    (Hbytes : Forall (digit_of 256) bytes) (Hlen : length bytes = 10%nat) :
  hashRecoveryCode hmac_recovery (recovery_format (encodeBase32 bytes)) =
    hmac_recovery (encodeBase32 bytes) ∧
  slen (encodeBase32 bytes) = 16 ∧ length (groups_of_4 (encodeBase32 bytes)) = 4%nat.
Proof.
  destruct (encodeBase32_spec bytes Hbytes) as (Hl&p&Hp&Hs&_). rewrite Hlen in Hs.
  assert (slen (encodeBase32 bytes) = 16) as H16 by lia.
  destruct (groups_of_4_text 4 (encodeBase32 bytes)) as [Hr Hg]; [unfold slen in H16; lia|done|].
  unfold hashRecoveryCode, normalized_recovery_code. rewrite Hr.
  destruct (letters_kept _ Hl) as [_ ->]. by split_and!.
Qed.

(** ** Samples *)
(** A digest that spells the low byte of the counter. *)
Definition sample_hmac (key counter : list Z) : list Z :=
  [0; 0; 0; Z.land (List.last counter 0) 255] ++ repeat 0 16.
Lemma sample_hmac_bytes key counter : Forall (digit_of 256) (sample_hmac key counter).
Proof.
  unfold sample_hmac. apply Forall_app. split.
  - repeat constructor; try lia. all: change 255 with (Z.ones 8); rewrite Z.land_ones by lia;
      apply Z.mod_pos_bound; lia.
  - repeat constructor; lia.
Qed.
Definition ten_bytes : list Z := [1; 2; 3; 4; 5; 6; 7; 8; 9; 250].
Lemma ten_bytes_ok : Forall (digit_of 256) ten_bytes.
Proof. repeat constructor; vm_compute; congruence. Qed.

Lemma totp_window_exact_witness :
  verify sample_hmac (encodeBase32 ten_bytes) "000100" 3030000 = Ok (Some 100) ∧
  ∃ answer, verify sample_hmac (encodeBase32 ten_bytes) "000100" 3030000 = Ok answer ∧
    match answer with
    | Some step => hotp sample_hmac (encodeBase32 ten_bytes) step = Ok "000100" ∧
        Z.abs (step - time_step 3030000) <= 1
    | None => ∀ step, Z.abs (step - time_step 3030000) <= 1 →
        hotp sample_hmac (encodeBase32 ten_bytes) step ≠ Ok "000100"
    end.
Proof.
  split; [vm_compute; reflexivity|]. apply (totp_window_exact sample_hmac sample_hmac_bytes ten_bytes "000100" 3030000
                  ten_bytes_ok). vm_compute. split; congruence.
Defined.
Lemma recovery_code_recognized_witness :
  recovery_format (encodeBase32 ten_bytes) = "AEBA-GBAF-AYDQ-QCP2" ∧
  hashRecoveryCode (λ s, s) (recovery_format (encodeBase32 ten_bytes)) =
    encodeBase32 ten_bytes ∧
  slen (encodeBase32 ten_bytes) = 16 ∧ length (groups_of_4 (encodeBase32 ten_bytes)) = 4%nat.
Proof.
  split; [vm_compute; reflexivity|].
  apply (recovery_code_recognized (λ s, s) ten_bytes ten_bytes_ok). reflexivity.
Defined.
