(* ===== verification/Authentication.v ===== *)
(** * Authentication

    apps/api/src/modules/auth/services: auth.service.ts but for the administrators'
    second factor (SecondFactor), admin-session-policy.ts, auth-audit.service.ts,
    auth-token.service.ts and password-hasher.service.ts.  Where a method reads
    rows before its transaction, the transaction is a definition of its own that
    takes what was read as an argument. *)
From stdpp Require Import sorting.
From S2P Require Import Prelude JsString JsDate Json Money States AuthTables Database Invoices Payments HostingServices PanelOperations Totp.

(** ** Interfaces

    Code outside the repository: random values, Argon2 and AES-GCM under the keys
    of the environment; [generate] is the token factory the services are given. *)
Class AuthCrypto :=
  { generate : Io string;
    random_int : Z → Io Z;
    random_bytes : nat → Io (list Z);
    random_iv : Io string;
    encipher_token : string → string → string → string * string;
    decipher_token : string → string → string → string → option string;
    encipher_mfa : string → string → string → string * string;
    decipher_mfa : string → string → string → string → option string;
    hmac_sha1 : list Z → list Z → list Z;
    hmac_recovery : string → string;
    argon2_hash : string → Io string;
    argon2_verify : string → string → option bool }.
Record AuthTtl := MkAuthTtl
  { sessionTtlMilliseconds : Z; passwordResetTtlMilliseconds : Z;
    emailVerificationTtlMilliseconds : Z }.
(** [Math.min(this.sessionTtlMilliseconds, 60 * 60 * 1_000)]. *)
Definition sessionIdleTtlMilliseconds (ttl : AuthTtl) : Z :=
  Z.min (sessionTtlMilliseconds ttl) 3600000.

(** ** Identities *)
Inductive AuthenticatedIdentity :=
| Administrator (userId email adminProfileId : string) (displayName : option string)
    (staffRole : StaffRole) (twoFactorEnabled : bool)
| CustomerAccount (userId email customerId : string) (supportExpiresAt : option string).
Definition identity_userId (i : AuthenticatedIdentity) : string :=
  match i with Administrator u _ _ _ _ _ | CustomerAccount u _ _ _ => u end.
Definition identity_role (i : AuthenticatedIdentity) : UserRole :=
  match i with Administrator _ _ _ _ _ _ => UserRole.ADMIN | _ => UserRole.CUSTOMER end.
Definition identity_staffRole (i : AuthenticatedIdentity) : option StaffRole :=
  match i with Administrator _ _ _ _ r _ => Some r | _ => None end.
Record AuthRequestContext := MkAuthContext
  { auth_identity : AuthenticatedIdentity; auth_sessionId : string;
    auth_sessionExpiresAt : option string; auth_supportAdministratorId : option string }.
Definition auth_userId (auth : AuthRequestContext) : string :=
  identity_userId (auth_identity auth).
Record AuthenticationSession := MkAuthenticationSession
  { as_id : string; as_createdAt : string; as_lastSeenAt : string; as_expiresAt : string;
    as_current : bool }.
Record LoginResult := MkLoginResult
  { lr_token : string; lr_identity : AuthenticatedIdentity; lr_session : AuthenticationSession }.
Record TwoFactorChallengeResult := MkChallengeResult
  { cr_method : option string; cr_challengeToken : string; cr_expiresAt : string }.
Inductive LoginOutcome :=
| LoggedIn (r : LoginResult)
| ChallengeIssued (r : TwoFactorChallengeResult).

(** ** Exceptions *)
Definition invalidTokenException : exn :=
  AppException 400 "INVALID_OR_EXPIRED_TOKEN" "Token is invalid or has expired.".
Definition invalidCredentialsException : exn :=
  AppException 401 "INVALID_CREDENTIALS" "Email or password is incorrect.".
Definition invalidTwoFactorException : exn :=
  AppException 401 "INVALID_TWO_FACTOR_CODE"
    "The two-factor challenge or code is invalid or expired.".
Definition authenticationRequired : exn :=
  AppException 401 "AUTHENTICATION_REQUIRED" "Authentication is required.".
Definition emailVerificationRequired : exn :=
  AppException 403 "EMAIL_VERIFICATION_REQUIRED" "Email verification is required.".

(** ** admin-session-policy.ts *)
Inductive SessionMode := Browser | Remembered | Legacy.
#[export] Instance SessionMode_eq_dec : EqDecision SessionMode.
Proof. solve_decision. Defined.
Definition ADMIN_SESSION_TTL_MILLISECONDS : Z := 365 * 24 * 60 * 60 * 1000.
Definition REMEMBERED_ADMIN_SESSION_TTL_MILLISECONDS : Z := 30 * 24 * 60 * 60 * 1000.
Definition BROWSER_ADMIN_SESSION_TTL_MILLISECONDS : Z := 24 * 60 * 60 * 1000.
Definition BROWSER_PREFIX : string := "admin-browser.".
Definition REMEMBERED_PREFIX : string := "admin-remembered.".
Definition administratorSessionMode (token : string) : SessionMode :=
  if String.prefix BROWSER_PREFIX token then Browser
  else if String.prefix REMEMBERED_PREFIX token then Remembered else Legacy.
Definition administratorSessionToken (token : string) (rememberDevice : bool) : string :=
  ((if rememberDevice then REMEMBERED_PREFIX else BROWSER_PREFIX) ++ token)%string.
Definition administratorSessionTtl (token : string) (configuredTtl : Z) : Z :=
  match administratorSessionMode token with
  | Browser => Z.min configuredTtl BROWSER_ADMIN_SESSION_TTL_MILLISECONDS
  | Remembered => REMEMBERED_ADMIN_SESSION_TTL_MILLISECONDS
  | Legacy => ADMIN_SESSION_TTL_MILLISECONDS
  end.

(** ** Rows *)
Definition read_auth {A} (f : AuthTables → A) : Io A := read (λ d, f (authTables d)).
Definition write_auth (f : AuthTables → AuthTables) : Io unit :=
  write (λ d, d <| authTables := f (authTables d) |>).
Section rows.
Context {R : Type} (table : AuthTables → gmap string R) `{!Setter table}.

(** [create]: the primary key and a unique column. *)
Definition insert_row {K} `{EqDecision K} (key : R → K) (id : string) (r : R) : Io unit :=
  m ← read_auth table;
  _ ← require (bool_decide (m !! id = None) && unique_in m key (key r)) UniqueViolation;
  write_auth (λ a, a <| table := <[id := r]> (table a) |>).
(** [updateMany({where: {id, ...}})]: the count. *)
Definition update_row_if (id : string) (p : R → bool) (f : R → R) : Io Z :=
  m ← read_auth table;
  let '(count, m') := update_one m id p f in
  _ ← write_auth (λ a, a <| table := m' |>);
  mret count.
(** [update({where: {id}})]. *)
Definition update_row (id : string) (f : R → R) : Io unit :=
  count ← update_row_if id (λ _, true) f;
  require (count =? 1) RecordNotFound.
(** [updateMany] of the rows a condition selects. *)
Definition update_all (p : R → bool) (f : R → R) : Io unit :=
  write_auth (λ a, a <| table := update_rows p f (table a) |>).
Definition delete_all (p : R → bool) : Io unit :=
  write_auth (λ a, a <| table := delete_rows p (table a) |>).
End rows.

(** A customer row shows the columns of its user. *)
Definition rejoin (userId : string) (u : User) (c : Customer) : Customer :=
  if String.eqb (usr_id c) userId
  then c <| usr_email := user_email u |> <| usr_status := user_status u |>
         <| usr_deletedAt := user_deletedAt u |>
         <| usr_emailVerifiedAt := user_emailVerifiedAt u |>
  else c.
Definition put_user (userId : string) (u : User) : Io unit :=
  write (λ d, d <| authTables := (authTables d) <| users := <[userId := u]>
                                                 (users (authTables d)) |> |>
                <| customers := rejoin userId u <$> customers d |>).
Definition create_user (u : User) : Io unit :=
  m ← read_auth users;
  _ ← require (bool_decide (m !! user_id u = None) && unique_in m user_email (user_email u))
        UniqueViolation;
  put_user (user_id u) u.
(** [user.update({where: {id}})] and [user.updateMany({where: {id, ...}})]. *)
Definition update_user_if (id : string) (p : User → bool) (f : User → User) : Io Z :=
  now ← new_date;
  m ← read_auth users;
  match m !! id with
  | Some u => if p u then _ ← put_user id (f u <| user_updatedAt := now |>); mret 1 else mret 0
  | None => mret 0
  end.
Definition update_user (id : string) (f : User → User) : Io unit :=
  count ← update_user_if id (λ _, true) f;
  require (count =? 1) RecordNotFound.
(** [customer.create]: number and user are unique. *)
Definition create_customer (id : string) (c : Customer) : Io unit :=
  m ← read customers;
  _ ← require (bool_decide (m !! id = None) &&
               unique_in m cus_customerNumber (cus_customerNumber c) &&
               unique_in m usr_id (usr_id c)) UniqueViolation;
  write (λ d, d <| customers := <[id := c]> (customers d) |>).

(** The rows a query includes with a user. *)
Record UserWithProfiles := MkUserWithProfiles
  { up_user : User; up_customerId : option string; up_profile : option AdminProfile;
    up_credential : option AdminTotpCredential }.
Definition customer_of (userId : string) (d : Db) : option string :=
  fst <$> List.find (λ kv, String.eqb (usr_id kv.2) userId) (map_to_list (customers d)).
Definition profile_of (userId : string) (a : AuthTables) : option AdminProfile :=
  find_unique (adminProfiles a) ap_userId userId.
Definition credential_of (userId : string) (a : AuthTables) : option AdminTotpCredential :=
  find_unique (totpCredentials a) totp_userId userId.
Definition with_profiles (d : Db) (u : User) : UserWithProfiles :=
  MkUserWithProfiles u (customer_of (user_id u) d) (profile_of (user_id u) (authTables d))
    (credential_of (user_id u) (authTables d)).
Definition user_by_id (userId : string) (d : Db) : option UserWithProfiles :=
  with_profiles d <$> users (authTables d) !! userId.
Definition user_by_email (email : string) (d : Db) : option UserWithProfiles :=
  with_profiles d <$> find_unique (users (authTables d)) user_email email.
Definition totp_enabled (c : option AdminTotpCredential) : bool :=
  match c with Some c => bool_decide (is_Some (totp_enabledAt c)) | None => false end.
Definition is_set (t : option Z) : bool := bool_decide (is_Some t).
Definition deleted (u : User) : bool := is_set (user_deletedAt u).
Definition active (u : User) : bool := user_status u ==b UserStatus.ACTIVE.
Definition administrator (u : User) : bool := user_role u ==b UserRole.ADMIN.

(** [Buffer.from(s, 'hex')]: it stops at the first pair that is not hexadecimal. *)
Definition hex_value (c : ascii) : option Z :=
  if is_digit c then Some (code c - 48)
  else if in_range "a" "f" c then Some (code c - 87)
  else if in_range "A" "F" c then Some (code c - 55) else None.
Fixpoint from_hex (s : string) : list Z :=
  match s with
  | String a (String b t) =>
      match hex_value a, hex_value b with
      | Some x, Some y => (16 * x + y) :: from_hex t
      | _, _ => []
      end
  | _ => []
  end.
Definition equalHexDigest (left right : string) : bool :=
  bool_decide (from_hex left = from_hex right).
Definition hashOpaqueToken `{Sha256} (token : string) : string := sha256_hex token.
Definition padded_code (n : Z) : string := pad_start 6 "0" (Z_to_string n).
(** [JSON.stringify([email, passwordHash])]. *)
Definition credentials_text (email passwordHash : string) : string :=
  ("[" ++ json_text email ++ "," ++ json_text passwordHash ++ "]")%string.
(** [value ? { field: value } : {}] of an optional text. *)
Definition present (s : option string) : option string := if absent s then None else s.

(** auth-audit.service.ts *)
Definition auth_log (actor : option string) (action entityType : string)
    (entityId : option string) (context : SecurityRequestContext) (metadata : json)
    : ActivityLog :=
  MkActivityLog actor action entityType entityId None (Some (ipAddressHash context)) metadata.
Definition audit_record := λ actor action entityType entityId context metadata,
  log_activity (auth_log (present actor) action entityType (present entityId) context metadata).

Section auth.
Context `{ZodFormats} `{Sha256} `{AuthCrypto} (ttl : AuthTtl).

(** password-hasher.service.ts *)
Definition verify_password (passwordHash password : string) : bool :=
  default false (argon2_verify passwordHash password).
Definition encrypt_for_delivery (token : string) : Io string :=
  encrypt_token random_iv encipher_token token.

(** ** Identities and sessions *)
(** [authenticatedIdentitySchema.parse]. *)
Definition toIdentity (u : UserWithProfiles) : result AuthenticatedIdentity :=
  let user := up_user u in
  match user_role user, up_profile u, up_customerId u with
  | UserRole.ADMIN, Some p, _ =>
      let name := present (Some (js_trim (ap_displayName p))) in
      _ ← throw_unless (zod_uuid (user_id user) && zod_email (user_email user) &&
                        zod_uuid (ap_id p) &&
                        match name with Some n => slen n <=? 150 | None => true end) ZodError;
      Ok (Administrator (user_id user) (user_email user) (ap_id p) name (ap_staffRole p)
            (totp_enabled (up_credential u)))
  | UserRole.CUSTOMER, _, Some c =>
      _ ← throw_unless (zod_uuid (user_id user) && zod_email (user_email user) && zod_uuid c)
            ZodError;
      Ok (CustomerAccount (user_id user) (user_email user) c None)
  | _, _, _ => Err (JsError "Authenticated user profile is unavailable")
  end.
Definition session_ttl (user : User) (rawToken : string) : Z :=
  if administrator user then administratorSessionTtl rawToken (sessionTtlMilliseconds ttl)
  else sessionTtlMilliseconds ttl.
Definition session_token (user : User) (generated : string) (remember : bool) : string :=
  if administrator user then administratorSessionToken generated remember else generated.
Definition session_view (s : AuthSession) (current : bool) : AuthenticationSession :=
  MkAuthenticationSession (ses_id s) (to_ISO_string (ses_createdAt s))
    (to_ISO_string (ses_lastSeenAt s)) (to_ISO_string (ses_expiresAt s)) current.
(** The rows a new session writes: itself, the login of its user, the audit record. *)
Definition write_session (user : User) (s : AuthSession) (context : SecurityRequestContext)
    (metadata : json) : Io unit :=
  _ ← insert_row authSessions ses_tokenHash (ses_id s) s;
  _ ← update_user (user_id user) (λ u, u <| user_lastLoginAt := Some (ses_createdAt s) |>);
  log_activity (auth_log (Some (user_id user)) "AUTH_LOGIN_SUCCEEDED" "AUTH_SESSION"
                  (Some (ses_id s)) context metadata).
Definition new_session (user : User) (sessionId rawToken : string) (createdAt : Z)
    (context : SecurityRequestContext) (twoFactorVerified : bool) : AuthSession :=
  MkAuthSession sessionId (user_id user) (hashOpaqueToken rawToken)
    (createdAt + session_ttl user rawToken) createdAt None None
    (Some (ipAddressHash context)) (present (userAgent context))
    (if twoFactorVerified then Some createdAt else None) createdAt.
Definition createSession (u : UserWithProfiles) (context : SecurityRequestContext)
    (createdAt : Z) (twoFactorVerified : bool) (method : option string)
    (rememberDevice : bool) : Io LoginResult :=
  generated ← generate;
  let rawToken := session_token (up_user u) generated rememberDevice in
  sessionId ← random_uuid;
  let s := new_session (up_user u) sessionId rawToken createdAt context twoFactorVerified in
  _ ← write_session (up_user u) s context
        (match present method with
         | Some m => JObj [("secondFactor", JStr m)] | None => JNull end);
  identity ← lift (toIdentity u);
  mret (MkLoginResult rawToken identity (session_view s true)).

(** ** Registration and verification *)
Record RegistrationRequest := MkRegistration
  { reg_email : string; reg_password : string; reg_firstName : string;
    reg_lastName : string; reg_companyName : option string; reg_phone : option string;
    reg_addressLine1 : string; reg_addressLine2 : option string; reg_city : string;
    reg_region : option string; reg_postalCode : option string; reg_countryCode : string;
    reg_taxIdentifier : option string }.
Definition createCustomerNumber (customerId : string) : string :=
  ("CUS-" ++ js_upper (String.substring 0 12 (remove_char "-" customerId)))%string.
Definition delivery_payload (email tokenRecordId purpose : string) : json :=
  JObj [("schemaVersion", JNum 1); ("recipientEmail", JStr email);
        ("tokenRecordId", JStr tokenRecordId); ("purpose", JStr purpose)].
(** A token and the event that has it delivered. *)
Definition create_token (table : AuthTables → gmap string ActionToken) `{!Setter table}
    (id userId token : string) (expiresAt : Z) : Io unit :=
  ciphertext ← encrypt_for_delivery token;
  createdAt ← new_date;
  insert_row table tok_tokenHash id
    (MkActionToken id userId (hashOpaqueToken token) ciphertext expiresAt None createdAt).
Definition register_persist (input : RegistrationRequest) (passwordHash userId customerId
    tokenId token : string) (expiresAt : Z) (context : SecurityRequestContext)
    (administratorActor : option string) : Io unit :=
  now ← new_date;
  _ ← create_user (MkUser userId (reg_email input) (Some passwordHash) UserRole.CUSTOMER
                     UserStatus.PENDING_VERIFICATION None None now now None);
  _ ← create_customer customerId
        (MkCustomer (createCustomerNumber customerId) (present (reg_phone input))
           CustomerStatus.ACTIVE None (reg_firstName input) (reg_lastName input)
           (present (reg_companyName input)) (reg_addressLine1 input)
           (present (reg_addressLine2 input)) (reg_city input) (present (reg_region input))
           (present (reg_postalCode input)) (reg_countryCode input)
           (present (reg_taxIdentifier input)) userId (reg_email input)
           UserStatus.PENDING_VERIFICATION None None);
  _ ← create_token verificationTokens tokenId userId token expiresAt;
  _ ← create_outbox "USER" userId "AUTH_EMAIL_VERIFICATION_REQUESTED"
        ("auth-email-verification:" ++ tokenId)%string
        (delivery_payload (reg_email input) tokenId "EMAIL_VERIFICATION");
  _ ← log_activity (auth_log (Some userId) "AUTH_REGISTERED" "USER" (Some userId) context JNull);
  match administratorActor with
  | Some actor =>
      log_activity (auth_log (Some actor) "CUSTOMER_CREATED_BY_ADMIN" "CUSTOMER"
        (Some customerId) context (JObj [("accountStatus", JStr "PENDING_VERIFICATION")]))
  | None => mret tt
  end.
(** [nested]: the caller's own transaction is used. *)
Definition register (input : RegistrationRequest) (context : SecurityRequestContext)
    (administratorActor : option string) (nested : bool) : Io (string * string) :=
  passwordHash ← argon2_hash (reg_password input);
  userId ← random_uuid;
  customerId ← random_uuid;
  tokenId ← random_uuid;
  token ← generate;
  now ← new_date;
  let expiresAt := now + emailVerificationTtlMilliseconds ttl in
  let persist := register_persist input passwordHash userId customerId tokenId token
                   expiresAt context administratorActor in
  catch (_ ← (if nested then persist else transaction persist); mret (userId, customerId))
    (λ e, if is_unique_violation e
          then throw (conflict "An account with this email already exists.") else throw e).

Definition is_full_administrator (auth : AuthRequestContext) : bool :=
  bool_decide (identity_staffRole (auth_identity auth) = Some StaffRole.FULL_ADMINISTRATOR).
Definition awaiting_verification (customer : Customer) (u : User) : bool :=
  (cus_status customer ==b CustomerStatus.ACTIVE) && negb (deleted u) &&
  (user_role u ==b UserRole.CUSTOMER) &&
  (user_status u ==b UserStatus.PENDING_VERIFICATION) && negb (is_set (user_emailVerifiedAt u)).
Definition not_awaiting : exn := conflict
  "Only an active customer awaiting email verification can receive this email.".
Definition resend_tx (customerId requestId : string) (auth : AuthRequestContext)
    (context : SecurityRequestContext) : Io unit :=
  _ ← lock_row "customers" customerId;
  found ← read (λ d, c ← customers d !! customerId;
                     if is_set (cus_deletedAt c) then None else Some c);
  customer ← lift (of_option (not_found "Customer was not found.") found);
  _ ← lock_row "users" (usr_id customer);
  account ← read_auth (λ a, users a !! usr_id customer);
  user ← lift (of_option not_awaiting account);
  _ ← require (awaiting_verification customer user) not_awaiting;
  let key := ("customer-verification-resend:" ++ customerId ++ ":" ++ requestId)%string in
  sent ← read (λ d, find_unique (outboxEvents d) out_idempotencyKey key);
  match sent with
  | Some _ => mret tt
  | None =>
      now ← new_date;
      recent ← read_auth (λ a, some_row (λ t, String.eqb (tok_userId t) (user_id user) &&
                                   (now - 60000 <? tok_createdAt t)) (verificationTokens a));
      _ ← require (negb recent) (AppException 429 "RATE_LIMITED"
            "A verification email was requested recently. Wait one minute before resending.");
      tokenId ← random_uuid;
      token ← generate;
      _ ← create_token verificationTokens tokenId (user_id user) token
            (now + emailVerificationTtlMilliseconds ttl);
      _ ← create_outbox "USER" (user_id user) "AUTH_EMAIL_VERIFICATION_REQUESTED" key
            (delivery_payload (user_email user) tokenId "EMAIL_VERIFICATION");
      log_activity (auth_log (Some (auth_userId auth))
        "CUSTOMER_VERIFICATION_EMAIL_RESENT_BY_ADMIN" "CUSTOMER" (Some customerId) context
        (JObj [("requestId", JStr requestId); ("tokenRecordId", JStr tokenId)]))
  end.
Definition resendCustomerVerification (customerId requestId : string)
    (auth : AuthRequestContext) (context : SecurityRequestContext) : Io unit :=
  _ ← require (is_full_administrator auth)
        (forbidden "Only a full administrator can resend verification emails.");
  transaction (resend_tx customerId requestId auth context).

(** A token that may still be used. *)
Definition usable (now : Z) (t : ActionToken) : bool :=
  negb (is_set (tok_usedAt t)) && (now <? tok_expiresAt t).
Definition spent (now : Z) (word : string) (t : ActionToken) : ActionToken :=
  t <| tok_usedAt := Some now |> <| tok_deliveryCiphertext := word |>.
Definition consume_token (table : AuthTables → gmap string ActionToken) `{!Setter table}
    (id : string) (now : Z) : Io unit :=
  count ← update_row_if table id (usable now) (spent now "consumed");
  require (count =? 1) invalidTokenException.
Definition verifyEmail_tx (tokenHash : string) (now : Z) (context : SecurityRequestContext)
    : Io unit :=
  found ← read_auth (λ a, find_unique (verificationTokens a) tok_tokenHash tokenHash);
  t ← lift (of_option invalidTokenException found);
  _ ← require (usable now t) invalidTokenException;
  _ ← consume_token verificationTokens (tok_id t) now;
  activated ← update_user_if (tok_userId t)
    (λ u, (user_status u ==b UserStatus.PENDING_VERIFICATION) && negb (deleted u))
    (λ u, u <| user_emailVerifiedAt := Some now |> <| user_status := UserStatus.ACTIVE |>);
  _ ← require (activated =? 1) invalidTokenException;
  log_activity (auth_log (Some (tok_userId t)) "AUTH_EMAIL_VERIFIED" "USER"
                  (Some (tok_userId t)) context JNull).
Definition verifyEmail (token : string) (context : SecurityRequestContext) : Io unit :=
  now ← new_date;
  transaction (verifyEmail_tx (hashOpaqueToken token) now context).

(** ** Login *)
Record LoginRequest := MkLogin
  { log_email : string; log_password : string; log_rememberDevice : option bool }.
Definition remembers (r : option bool) : bool := default false r.
(** What [lockCustomer] finds. *)
Record LockedCustomer := MkLocked
  { lc_user : User; lc_passwordHash : string; lc_customerId : string;
    lc_preference : option CustomerSecurityPreference }.
Definition locked_customer (userId : string) (d : Db) : option LockedCustomer :=
  u ← users (authTables d) !! userId;
  c ← customer_of userId d;
  hash ← user_passwordHash u;
  if (user_role u ==b UserRole.CUSTOMER) && active u && negb (deleted u) &&
     is_set (user_emailVerifiedAt u) && truthy hash
  then Some (MkLocked u hash c (securityPreferences (authTables d) !! userId)) else None.
Definition lockCustomer (userId : string) : Io (option LockedCustomer) :=
  _ ← lock_row "users" userId;
  read (locked_customer userId).
Definition locked_profiles (c : LockedCustomer) : UserWithProfiles :=
  MkUserWithProfiles (lc_user c) (Some (lc_customerId c)) None None.
Definition emailTwoStep (c : LockedCustomer) : bool :=
  match lc_preference c with Some p => csp_emailTwoStep p | None => false end.
Definition marketingConsent (c : LockedCustomer) : bool :=
  match lc_preference c with Some p => csp_marketingConsent p | None => false end.
Definition binding_of (c : LockedCustomer) : string :=
  hashOpaqueToken (credentials_text (user_email (lc_user c)) (lc_passwordHash c)).
Definition FIVE_MINUTES : Z := 300000.
Definition challenge_open (userId : string) (c : CustomerEmailChallenge) : bool :=
  String.eqb (ech_userId c) userId && negb (is_set (ech_usedAt c)).
Definition challenge_closed (now : Z) (word : string) (c : CustomerEmailChallenge)
    : CustomerEmailChallenge :=
  c <| ech_usedAt := Some now |> <| ech_deliveryCiphertext := word |>.
Definition issue_email_challenge (current : LockedCustomer) (now : Z)
    (context : SecurityRequestContext) : Io LoginOutcome :=
  let userId := user_id (lc_user current) in
  challengeToken ← generate;
  n ← random_int 1000000;
  let expiresAt := now + FIVE_MINUTES in
  _ ← update_all emailChallenges (challenge_open userId) (challenge_closed now "superseded");
  ciphertext ← encrypt_for_delivery (padded_code n);
  id ← random_uuid;
  _ ← insert_row emailChallenges ech_tokenHash id
        (MkEmailChallenge id userId (hashOpaqueToken challengeToken) (binding_of current)
           ciphertext (ipAddressHash context) expiresAt None 0);
  _ ← create_outbox "USER" userId "AUTH_CUSTOMER_EMAIL_CODE_REQUESTED"
        ("auth-customer-email-code:" ++ id)%string
        (JObj [("schemaVersion", JNum 1); ("challengeId", JStr id);
               ("recipientEmail", JStr (user_email (lc_user current)))]);
  mret (ChallengeIssued (MkChallengeResult (Some "email") challengeToken
                           (to_ISO_string expiresAt))).
Definition login_customer_tx (userId passwordHash : string)
    (context : SecurityRequestContext) : Io LoginOutcome :=
  found ← lockCustomer userId;
  current ← lift (of_option invalidCredentialsException found);
  _ ← require (String.eqb (lc_passwordHash current) passwordHash) invalidCredentialsException;
  now ← new_date;
  if negb (emailTwoStep current)
  then r ← createSession (locked_profiles current) context now false None false;
       mret (LoggedIn r)
  else issue_email_challenge current now context.
(** The challenge of an administrator with a second factor. *)
Definition login_challenge_tx (userId challengeToken : string) (createdAt : Z)
    (context : SecurityRequestContext) : Io unit :=
  _ ← update_all loginChallenges
        (λ c, String.eqb (lch_userId c) userId && negb (is_set (lch_usedAt c)))
        (λ c, c <| lch_usedAt := Some createdAt |>);
  id ← random_uuid;
  _ ← insert_row loginChallenges lch_tokenHash id
        (MkLoginChallenge id userId (hashOpaqueToken challengeToken) (createdAt + FIVE_MINUTES)
           None 0 (ipAddressHash context) (present (userAgent context)));
  log_activity (auth_log (Some userId) "AUTH_TWO_FACTOR_CHALLENGE_CREATED" "USER"
                  (Some userId) context JNull).
Definition invalid_login (entityId : option string) (context : SecurityRequestContext)
    : Io unit :=
  audit_record None "AUTH_LOGIN_FAILED" "USER" entityId context
    (JObj [("reason", JStr "INVALID_CREDENTIALS")]).
(** The login of an administrator whose password was right. *)
Definition login_administrator (u : UserWithProfiles) (identity : AuthenticatedIdentity)
    (input : LoginRequest) (context : SecurityRequestContext) : Io LoginOutcome :=
  if administrator (up_user u) && totp_enabled (up_credential u) then
    challengeToken ← generate;
    createdAt ← new_date;
    _ ← transaction (login_challenge_tx (user_id (up_user u)) challengeToken createdAt context);
    mret (ChallengeIssued (MkChallengeResult None challengeToken
                             (to_ISO_string (createdAt + FIVE_MINUTES))))
  else
    generated ← generate;
    let rawToken := session_token (up_user u) generated (remembers (log_rememberDevice input)) in
    createdAt ← new_date;
    sessionId ← random_uuid;
    let s := new_session (up_user u) sessionId rawToken createdAt context
               (administrator (up_user u)) in
    _ ← transaction (write_session (up_user u) s context JNull);
    mret (LoggedIn (MkLoginResult rawToken identity (session_view s true))).
Definition login (input : LoginRequest) (context : SecurityRequestContext)
    : Io LoginOutcome :=
  found ← read (user_by_email (log_email input));
  match (u ← found; h ← present (user_passwordHash (up_user u)); Some (u, h)) with
  | None =>
      _ ← argon2_hash (log_password input);
      _ ← invalid_login None context;
      throw invalidCredentialsException
  | Some (u, passwordHash) =>
      let user := up_user u in
      if negb (verify_password passwordHash (log_password input)) || deleted user then
        _ ← invalid_login (Some (user_id user)) context;
        throw invalidCredentialsException
      else
        _ ← require (negb ((user_status user ==b UserStatus.PENDING_VERIFICATION) ||
                           negb (is_set (user_emailVerifiedAt user)))) emailVerificationRequired;
        _ ← require (active user) invalidCredentialsException;
        if user_role user ==b UserRole.CUSTOMER
        then transaction (login_customer_tx (user_id user) passwordHash context)
        else
          identity ← lift (toIdentity u);
          login_administrator u identity input context
  end.
End auth.
