(* ===== verification/Sessions.v ===== *)
(** * Sessions

    auth.service.ts: the customer's security preferences and e-mailed codes, support
    sessions, the authentication of a request, password resets, and the sessions a
    user sees and ends. *)
From stdpp Require Import sorting.
From S2P Require Import Prelude JsString JsDate Json Money States AuthTables Database Invoices Payments HostingServices PanelOperations Totp Authentication.

Section sessions.
Context `{ZodFormats} `{Sha256} `{AuthCrypto} (ttl : AuthTtl).

(** ** Security preferences of customers *)
Inductive CustomerSecurityPreferenceUpdate :=
| SetEmailTwoStep (value : bool) (password : string)
| SetMarketingConsent (value : bool).
Definition customerSecurityUserId (auth : AuthRequestContext) : result string :=
  _ ← throw_unless (bool_decide (identity_role (auth_identity auth) = UserRole.CUSTOMER))
        (forbidden "Customer access is required.");
  Ok (auth_userId auth).
Definition default_preference : CustomerSecurityPreference := MkPreference false false.
Definition getCustomerSecurityPreferences (auth : AuthRequestContext)
    : Io CustomerSecurityPreference :=
  userId ← lift (customerSecurityUserId auth);
  found ← read_auth (λ a, securityPreferences a !! userId);
  mret (default default_preference found).
(** [changes], as the audit record shows it, and its effect on the row. *)
Definition preference_changes (input : CustomerSecurityPreferenceUpdate) : json :=
  match input with
  | SetEmailTwoStep v _ => JObj [("emailTwoStep", JBool v)]
  | SetMarketingConsent v => JObj [("marketingConsent", JBool v)]
  end.
Definition apply_preference (input : CustomerSecurityPreferenceUpdate)
    (p : CustomerSecurityPreference) : CustomerSecurityPreference :=
  match input with
  | SetEmailTwoStep v _ => p <| csp_emailTwoStep := v |>
  | SetMarketingConsent v => p <| csp_marketingConsent := v |>
  end.
Definition preference_differs (input : CustomerSecurityPreferenceUpdate) (c : LockedCustomer)
    : bool :=
  match input with
  | SetEmailTwoStep v _ => negb (Bool.eqb v (emailTwoStep c))
  | SetMarketingConsent v => negb (Bool.eqb v (marketingConsent c))
  end.
(** [authSession.findFirst] of the session that makes the request. *)
Definition own_session (sessionId userId : string) (now : Z) (a : AuthTables) : bool :=
  match authSessions a !! sessionId with
  | Some s => String.eqb (ses_userId s) userId && negb (is_set (ses_revokedAt s)) &&
              (now <? ses_expiresAt s)
  | None => false
  end.
Definition revoked (now : Z) (reason : string) (s : AuthSession) : AuthSession :=
  s <| ses_revokedAt := Some now |> <| ses_revokedReason := Some reason |>.
Definition live_session_of (userId : string) (s : AuthSession) : bool :=
  String.eqb (ses_userId s) userId && negb (is_set (ses_revokedAt s)).
(** Every other session of the user. *)
Definition other_session_of (userId sessionId : string) (s : AuthSession) : bool :=
  live_session_of userId s && negb (String.eqb (ses_id s) sessionId).
Definition updatePreferences_tx (auth : AuthRequestContext) (userId : string)
    (input : CustomerSecurityPreferenceUpdate) : Io CustomerSecurityPreference :=
  found ← lockCustomer userId;
  now ← new_date;
  own ← read_auth (own_session (auth_sessionId auth) userId now);
  current ← lift (of_option invalidCredentialsException found);
  _ ← require own invalidCredentialsException;
  _ ← match input with
      | SetEmailTwoStep v password =>
          _ ← require (verify_password (lc_passwordHash current) password)
                invalidCredentialsException;
          when (preference_differs input current)
            (_ ← update_all emailChallenges (challenge_open userId)
                   (challenge_closed now "superseded");
             update_all authSessions (other_session_of userId (auth_sessionId auth))
               (revoked now "CUSTOMER_EMAIL_TWO_STEP_CHANGED"))
      | SetMarketingConsent _ => mret tt
      end;
  _ ← when (preference_differs input current)
        (log_activity (MkActivityLog (Some userId) "CUSTOMER_SECURITY_PREFERENCE_CHANGED"
           "USER" (Some userId) None None (preference_changes input)));
  let saved := apply_preference input (default default_preference (lc_preference current)) in
  _ ← write_auth (λ a, a <| securityPreferences := <[userId := saved]>
                                                     (securityPreferences a) |>);
  mret saved.
Definition updateCustomerSecurityPreferences (auth : AuthRequestContext)
    (input : CustomerSecurityPreferenceUpdate) : Io CustomerSecurityPreference :=
  userId ← lift (customerSecurityUserId auth);
  transaction (updatePreferences_tx auth userId input).

(** ** The code in the customer's mail *)
Definition email_challenge_valid (user : LockedCustomer) (c : CustomerEmailChallenge)
    (now : Z) (context : SecurityRequestContext) : bool :=
  emailTwoStep user && negb (is_set (ech_usedAt c)) && (now <? ech_expiresAt c) &&
  (ech_failedAttempts c <? 5) && String.eqb (ech_ipAddressHash c) (ipAddressHash context) &&
  String.eqb (ech_credentialBinding c) (binding_of user).
(** A wrong code is counted; the fifth closes the challenge. *)
Definition wrong_code (now : Z) (attempts : Z) (c : CustomerEmailChallenge)
    : CustomerEmailChallenge :=
  let c' := c <| ech_failedAttempts := ech_failedAttempts c + 1 |> in
  if attempts =? 4 then challenge_closed now "exhausted" c' else c'.
Definition emailLogin_tx (userId tokenHash code : string) (context : SecurityRequestContext)
    : Io (option LoginResult) :=
  found ← lockCustomer userId;
  row ← read_auth (λ a, find_unique (emailChallenges a) ech_tokenHash tokenHash);
  now ← new_date;
  match found, row with
  | Some user, Some challenge =>
      if negb (email_challenge_valid user challenge now context) then mret None
      else
        expected ← lift (decrypt_token decipher_token (ech_deliveryCiphertext challenge));
        if negb (equalHexDigest (hashOpaqueToken code) (hashOpaqueToken expected))
        then
          _ ← update_row emailChallenges (ech_id challenge)
                (wrong_code now (ech_failedAttempts challenge));
          mret None
        else
          _ ← update_row emailChallenges (ech_id challenge) (challenge_closed now "consumed");
          r ← createSession ttl (locked_profiles user) context now true (Some "email") false;
          mret (Some r)
  | _, _ => mret None
  end.
Definition completeCustomerEmailLogin (challengeToken code : string)
    (context : SecurityRequestContext) : Io LoginResult :=
  let tokenHash := hashOpaqueToken challengeToken in
  row ← read_auth (λ a, find_unique (emailChallenges a) ech_tokenHash tokenHash);
  lookup ← lift (of_option invalidTwoFactorException row);
  result ← transaction (emailLogin_tx (ech_userId lookup) tokenHash code context);
  lift (of_option invalidTwoFactorException result).

(** ** The authentication of a request *)
Definition idle_expired (rawToken : string) (user : User) (s : AuthSession) (now : Z) : bool :=
  (negb (administrator user) || bool_decide (administratorSessionMode rawToken = Browser)) &&
  (sessionIdleTtlMilliseconds ttl <? now - ses_lastSeenAt s).
Definition missing_second_factor (u : UserWithProfiles) (s : AuthSession) : bool :=
  administrator (up_user u) && totp_enabled (up_credential u) &&
  negb (is_set (ses_twoFactorVerifiedAt s)).
(** What a session that is shown must be. *)
Definition session_accepted (rawToken : string) (u : UserWithProfiles) (s : AuthSession)
    (now : Z) : bool :=
  negb (is_set (ses_revokedAt s)) && (now <? ses_expiresAt s) &&
  negb (idle_expired rawToken (up_user u) s now) && negb (deleted (up_user u)) &&
  active (up_user u) && negb (missing_second_factor u s).
Definition revoke_session_tx (s : AuthSession) (now : Z) (reason : string) : Io unit :=
  _ ← update_row_if authSessions (ses_id s) (λ s, negb (is_set (ses_revokedAt s)))
        (revoked now reason);
  log_activity (MkActivityLog (Some (ses_userId s)) "AUTH_SESSION_REVOKED_AUTOMATICALLY"
    "AUTH_SESSION" (Some (ses_id s)) None None (JObj [("reason", JStr reason)])).
(** A session that was seen is marked; the session of an administrator that came
    before the policy is renewed. *)
Definition seen (rawToken : string) (user : User) (now : Z) (s : AuthSession) : AuthSession :=
  let s' := s <| ses_lastSeenAt := now |> in
  if administrator user && bool_decide (administratorSessionMode rawToken = Legacy)
  then s' <| ses_expiresAt := now + ADMIN_SESSION_TTL_MILLISECONDS |> else s'.
Definition touch_session (rawToken : string) (user : User) (s : AuthSession) (now : Z) : Io unit :=
  when (300000 <=? now - ses_lastSeenAt s)
    (_ ← update_row_if authSessions (ses_id s) (λ s, negb (is_set (ses_revokedAt s)))
           (seen rawToken user now);
     mret tt).
Definition session_with_user (tokenHash : string) (d : Db)
    : option (AuthSession * option UserWithProfiles) :=
  s ← find_unique (authSessions (authTables d)) ses_tokenHash tokenHash;
  Some (s, user_by_id (ses_userId s) d).
Definition authenticateSession (rawToken : string) : Io AuthRequestContext :=
  now ← new_date;
  found ← read (session_with_user (hashOpaqueToken rawToken));
  match found with
  | None => throw authenticationRequired
  | Some (s, joined) =>
      u ← lift (of_option inconsistent_query joined);
      let idle := idle_expired rawToken (up_user u) s now in
      _ ← when (negb (is_set (ses_revokedAt s)) && (idle || missing_second_factor u s))
            (transaction (revoke_session_tx s now
               (if idle then "IDLE_TIMEOUT" else "MFA_REQUIRED")));
      _ ← require (session_accepted rawToken u s now) authenticationRequired;
      _ ← touch_session rawToken (up_user u) s now;
      identity ← lift (toIdentity u);
      mret (MkAuthContext identity (ses_id s) (Some (to_ISO_string (ses_expiresAt s))) None)
  end.

(** ** Support sessions *)
Definition requireFullAdministrator (auth : AuthRequestContext) : result unit :=
  throw_unless (is_full_administrator auth) (forbidden "Full administrator access is required.").
(** [eligibleSupportCustomer]. *)
Definition eligibleSupportCustomer (d : Db) (c : Customer) : bool :=
  (cus_status c ==b CustomerStatus.ACTIVE) && negb (is_set (cus_deletedAt c)) &&
  match users (authTables d) !! usr_id c with
  | Some u => (user_role u ==b UserRole.CUSTOMER) && active u && negb (deleted u) &&
              is_set (user_emailVerifiedAt u)
  | None => false
  end.
Definition eligible_customer (customerId : string) (d : Db) : option Customer :=
  c ← customers d !! customerId; if eligibleSupportCustomer d c then Some c else None.
Definition startSupport_tx (auth : AuthRequestContext) (customerId reason token : string)
    (expiresAt : Z) (context : SecurityRequestContext) : Io unit :=
  found ← read (eligible_customer customerId);
  _ ← lift (of_option (not_found "An active, verified customer account is required.") found);
  id ← random_uuid;
  _ ← insert_row supportSessions sup_tokenHash id
        (MkSupportSession id (hashOpaqueToken token) (auth_sessionId auth) customerId
           expiresAt None);
  log_activity (auth_log (Some (auth_userId auth)) "CUSTOMER_SUPPORT_SESSION_STARTED"
    "CUSTOMER" (Some customerId) context
    (JObj [("supportSessionId", JStr id); ("reason", JStr reason);
           ("expiresAt", JStr (to_ISO_string expiresAt))])).
Definition SUPPORT_MILLISECONDS : Z := 900000.
Definition startCustomerSupportSession (auth : AuthRequestContext) (customerId reason : string)
    (context : SecurityRequestContext) : Io string :=
  _ ← lift (requireFullAdministrator auth);
  token ← generate;
  now ← new_date;
  _ ← transaction (startSupport_tx auth customerId reason token (now + SUPPORT_MILLISECONDS)
                     context);
  mret token.
Definition support_session (supportToken adminSessionId : string) (now : Z) (d : Db)
    : option (CustomerSupportSession * Customer) :=
  s ← find_unique (supportSessions (authTables d)) sup_tokenHash (hashOpaqueToken supportToken);
  c ← eligible_customer (sup_customerId s) d;
  if String.eqb (sup_adminSessionId s) adminSessionId && negb (is_set (sup_endedAt s)) &&
     (now <? sup_expiresAt s)
  then Some (s, c) else None.
Definition authenticateCustomerSupportSession (adminToken supportToken : string)
    : Io AuthRequestContext :=
  admin ← authenticateSession adminToken;
  _ ← lift (requireFullAdministrator admin);
  now ← new_date;
  found ← read (support_session supportToken (auth_sessionId admin) now);
  '(s, c) ← lift (of_option invalidCredentialsException found);
  email ← read_auth (λ a, user_email <$> users a !! usr_id c);
  email ← lift (of_option inconsistent_query email);
  mret (MkAuthContext
          (CustomerAccount (usr_id c) email (sup_customerId s)
             (Some (to_ISO_string (sup_expiresAt s))))
          (sup_id s) None (Some (auth_userId admin))).
(** The support session of two tokens, with the administrator's session. *)
Definition support_pair (adminToken supportToken : string) (d : Db)
    : option (CustomerSupportSession * AuthSession) :=
  s ← find_unique (supportSessions (authTables d)) sup_tokenHash (hashOpaqueToken supportToken);
  a ← authSessions (authTables d) !! sup_adminSessionId s;
  if String.eqb (ses_tokenHash a) (hashOpaqueToken adminToken) then Some (s, a) else None.
Definition endSupport_tx (adminToken supportToken : string) (context : SecurityRequestContext)
    : Io (option string) :=
  found ← read (support_pair adminToken supportToken);
  match found with
  | None => mret None
  | Some (s, a) =>
      now ← new_date;
      ended ← update_row_if supportSessions (sup_id s) (λ s, negb (is_set (sup_endedAt s)))
                (λ s, s <| sup_endedAt := Some now |>);
      _ ← when (ended =? 1)
            (log_activity (auth_log (Some (ses_userId a)) "CUSTOMER_SUPPORT_SESSION_ENDED"
               "CUSTOMER" (Some (sup_customerId s)) context
               (JObj [("supportSessionId", JStr (sup_id s))])));
      mret (Some (sup_customerId s))
  end.
Definition endCustomerSupportSession (adminToken supportToken : option string)
    (context : SecurityRequestContext) : Io (option string) :=
  match present adminToken, present supportToken with
  | Some a, Some s => transaction (endSupport_tx a s context)
  | _, _ => mret None
  end.

(** ** Password resets *)
Definition reset_request_tx (user : User) (tokenId token : string) (now : Z)
    (context : SecurityRequestContext) : Io unit :=
  _ ← update_all resetTokens
        (λ t, String.eqb (tok_userId t) (user_id user) && negb (is_set (tok_usedAt t)))
        (spent now "superseded");
  _ ← create_token resetTokens tokenId (user_id user) token
        (now + passwordResetTtlMilliseconds ttl);
  _ ← create_outbox "USER" (user_id user) "AUTH_PASSWORD_RESET_REQUESTED"
        ("auth-password-reset:" ++ tokenId)%string
        (delivery_payload (user_email user) tokenId "PASSWORD_RESET");
  log_activity (auth_log (Some (user_id user)) "AUTH_PASSWORD_RESET_REQUESTED" "USER"
                  (Some (user_id user)) context JNull).
Definition requestPasswordReset (email : string) (context : SecurityRequestContext) : Io unit :=
  found ← read_auth (λ a, find_unique (users a) user_email email);
  token ← generate;
  match found with
  | Some user =>
      if absent (user_passwordHash user) || deleted user
      then _ ← encrypt_for_delivery token; mret tt
      else
        now ← new_date;
        tokenId ← random_uuid;
        transaction (reset_request_tx user tokenId token now context)
  | None => _ ← encrypt_for_delivery token; mret tt
  end.
Definition reset_confirm_tx (t : ActionToken) (passwordHash : string) (now : Z)
    (context : SecurityRequestContext) : Io unit :=
  _ ← consume_token resetTokens (tok_id t) now;
  _ ← update_user (tok_userId t) (λ u, u <| user_passwordHash := Some passwordHash |>);
  _ ← update_all authSessions (live_session_of (tok_userId t)) (revoked now "PASSWORD_RESET");
  log_activity (auth_log (Some (tok_userId t)) "AUTH_PASSWORD_RESET_COMPLETED" "USER"
                  (Some (tok_userId t)) context JNull).
Definition confirmPasswordReset (token password : string) (context : SecurityRequestContext)
    : Io unit :=
  now ← new_date;
  found ← read_auth (λ a, find_unique (resetTokens a) tok_tokenHash (hashOpaqueToken token));
  t ← lift (of_option invalidTokenException found);
  _ ← require (usable now t) invalidTokenException;
  passwordHash ← argon2_hash password;
  transaction (reset_confirm_tx t passwordHash now context).

(** ** Ending sessions *)
Definition logout (auth : AuthRequestContext) (context : SecurityRequestContext) : Io unit :=
  now ← new_date;
  transaction
    (_ ← update_row_if authSessions (auth_sessionId auth) (live_session_of (auth_userId auth))
           (revoked now "LOGOUT");
     log_activity (auth_log (Some (auth_userId auth)) "AUTH_LOGOUT" "AUTH_SESSION"
                     (Some (auth_sessionId auth)) context JNull)).
Definition logoutAll (auth : AuthRequestContext) (context : SecurityRequestContext) : Io unit :=
  now ← new_date;
  transaction
    (_ ← update_all authSessions (live_session_of (auth_userId auth)) (revoked now "LOGOUT_ALL");
     log_activity (auth_log (Some (auth_userId auth)) "AUTH_LOGOUT_ALL" "USER"
                     (Some (auth_userId auth)) context JNull)).
Definition newest_first : relation AuthSession := λ a b, ses_createdAt b <= ses_createdAt a.
#[export] Instance newest_first_dec a b : Decision (newest_first a b).
Proof. unfold newest_first. apply _. Defined.
Definition listSessions (auth : AuthRequestContext) : Io (list AuthenticationSession) :=
  now ← new_date;
  found ← read_auth (λ a, rows (λ s, live_session_of (auth_userId auth) s &&
                                     (now <? ses_expiresAt s)) (authSessions a));
  mret ((λ s, session_view s (String.eqb (ses_id s) (auth_sessionId auth))) <$>
          merge_sort newest_first found).
Definition revoke_by_user_tx (auth : AuthRequestContext) (sessionId : string) (now : Z)
    (context : SecurityRequestContext) : Io unit :=
  _ ← update_row_if authSessions sessionId (λ s, negb (is_set (ses_revokedAt s)))
        (revoked now "USER_REVOKED");
  log_activity (auth_log (Some (auth_userId auth)) "AUTH_SESSION_REVOKED" "AUTH_SESSION"
                  (Some sessionId) context JNull).
Definition revokeSession (auth : AuthRequestContext) (sessionId : string)
    (context : SecurityRequestContext) : Io bool :=
  own ← read_auth (λ a, match authSessions a !! sessionId with
                        | Some s => String.eqb (ses_userId s) (auth_userId auth)
                        | None => false end);
  _ ← require own (not_found "Session was not found.");
  now ← new_date;
  _ ← transaction (revoke_by_user_tx auth sessionId now context);
  mret (String.eqb sessionId (auth_sessionId auth)).

(** [customerProfileSummarySchema.parse]. *)
Record CustomerProfileSummary := MkProfileSummary
  { ps_id : string; ps_customerNumber : string; ps_firstName : string;
    ps_lastName : string; ps_companyName : option string }.
Definition profile_summary (id : string) (c : Customer) : result CustomerProfileSummary :=
  _ ← throw_unless (zod_uuid id && text 1 32 (cus_customerNumber c) &&
                    text 1 100 (cus_firstName c) && text 1 100 (cus_lastName c) &&
                    match cus_companyName c with Some n => slen n <=? 200 | None => true end)
        ZodError;
  Ok (MkProfileSummary id (cus_customerNumber c) (cus_firstName c) (cus_lastName c)
        (cus_companyName c)).
Definition getCustomerProfile (customerId : string) : Io CustomerProfileSummary :=
  found ← read (λ d, c ← customers d !! customerId;
                     if is_set (cus_deletedAt c) then None else Some c);
  c ← lift (of_option (not_found "Customer was not found.") found);
  lift (profile_summary customerId c).
End sessions.
