(* ===== verification/SecondFactor.v ===== *)
(** * The second factor of administrators

    auth.service.ts: completeTwoFactorLogin, getTwoFactorStatus, beginTwoFactorSetup,
    enableTwoFactor, disableTwoFactor and regenerateRecoveryCodes, and the helpers
    they share. *)
From S2P Require Import Prelude JsString JsDate Json Money States AuthTables Database Invoices Payments HostingServices PanelOperations Totp Authentication Sessions.

(** An administrator's credential and its unused recovery codes. *)
Record EnabledCredential := MkEnabled
  { en_credential : AdminTotpCredential; en_recoveryCodes : list AdminRecoveryCode }.
Definition unused_codes (credentialId : string) (a : AuthTables) : list AdminRecoveryCode :=
  rows (λ r, String.eqb (rec_credentialId r) credentialId && negb (is_set (rec_usedAt r)))
    (recoveryCodes a).
Definition with_codes (a : AuthTables) (c : AdminTotpCredential) : EnabledCredential :=
  MkEnabled c (unused_codes (totp_id c) a).

Section second_factor.
Context `{ZodFormats} `{Sha256} `{AuthCrypto} (ttl : AuthTtl).

Definition requireAdministrator (auth : AuthRequestContext) : result unit :=
  throw_unless (bool_decide (identity_role (auth_identity auth) = UserRole.ADMIN))
    (forbidden "Administrator access is required.").
Definition verifyCurrentPassword (userId password : string) : Io unit :=
  found ← read_auth (λ a, u ← users a !! userId; present (user_passwordHash u));
  hash ← lift (of_option invalidCredentialsException found);
  require (verify_password hash password) invalidCredentialsException.
Definition getEnabledCredential (userId : string) : Io EnabledCredential :=
  found ← read_auth (λ a, c ← credential_of userId a;
                          if is_set (totp_enabledAt c) then Some (with_codes a c) else None);
  lift (of_option invalidTwoFactorException found).
(** [this.totp.verify(this.totp.decryptSecret(...), code, now)]. *)
Definition verify_code (c : AdminTotpCredential) (code : string) (now : Z) : result (option Z) :=
  secret ← decryptSecret decipher_mfa (totp_secretCiphertext c);
  verify hmac_sha1 secret code now.
Definition matching_recovery (codes : list AdminRecoveryCode) (code : string)
    : option AdminRecoveryCode :=
  List.find (λ r, equalHexDigest (rec_codeHash r) (hashRecoveryCode hmac_recovery code)) codes.
(** The update that uses up a time step, or a recovery code: whether it found its row. *)
Definition step_unused (step : Z) (c : AdminTotpCredential) : bool :=
  match totp_lastUsedTimeStep c with Some used => used <? step | None => true end.
Definition consume_step (credentialId : string) (step : Z) : Io bool :=
  count ← update_row_if totpCredentials credentialId (step_unused step)
            (λ c, c <| totp_lastUsedTimeStep := Some step |>);
  mret (count =? 1).
Definition consume_recovery (recoveryId : string) (now : Z) : Io bool :=
  count ← update_row_if recoveryCodes recoveryId (λ r, negb (is_set (rec_usedAt r)))
            (λ r, r <| rec_usedAt := Some now |>);
  mret (count =? 1).
Definition consume_factor (credentialId : string) (step : option Z)
    (recovery : option AdminRecoveryCode) (now : Z) : Io bool :=
  match step, recovery with
  | Some step, _ => consume_step credentialId step
  | None, Some r => consume_recovery (rec_id r) now
  | None, None => mret false
  end.
Definition consumeEnabledFactor (e : EnabledCredential) (code : string) (now : Z) : Io unit :=
  step ← lift (verify_code (en_credential e) code now);
  consumed ← consume_factor (totp_id (en_credential e)) step
               (matching_recovery (en_recoveryCodes e) code) now;
  require consumed invalidTwoFactorException.

(** ** The second step of a login *)
(** A challenge with the rows its query includes. *)
Record ChallengeRecord := MkChallengeRecord
  { ch_challenge : AdminLoginChallenge; ch_user : UserWithProfiles;
    ch_codes : list AdminRecoveryCode }.
Definition challenge_record (tokenHash : string) (d : Db) : option ChallengeRecord :=
  let a := authTables d in
  c ← find_unique (loginChallenges a) lch_tokenHash tokenHash;
  u ← user_by_id (lch_userId c) d;
  Some (MkChallengeRecord c u
          (match up_credential u with Some t => unused_codes (totp_id t) a | None => [] end)).
Definition challenge_valid (r : ChallengeRecord) (now : Z) (context : SecurityRequestContext)
    : bool :=
  let c := ch_challenge r in let user := up_user (ch_user r) in
  negb (is_set (lch_usedAt c)) && (now <? lch_expiresAt c) && (lch_failedAttempts c <? 5) &&
  String.eqb (lch_ipAddressHash c) (ipAddressHash context) && administrator user &&
  active user && negb (deleted user) && totp_enabled (up_credential (ch_user r)).
Definition factor_method (recovery : option AdminRecoveryCode) : option string :=
  match recovery with Some _ => Some "RECOVERY_CODE" | None => Some "TOTP" end.
(** The transaction: the factor and the challenge are used up together. *)
Definition twoFactor_tx (r : ChallengeRecord) (credentialId : string) (step : option Z)
    (recovery : option AdminRecoveryCode) (rememberDevice : bool) (now : Z)
    (context : SecurityRequestContext) : Io LoginResult :=
  factorConsumed ← consume_factor credentialId step recovery now;
  challengeConsumed ←
    (if factorConsumed : bool
     then update_row_if loginChallenges (lch_id (ch_challenge r))
            (λ c, negb (is_set (lch_usedAt c)) && (now <? lch_expiresAt c))
            (λ c, c <| lch_usedAt := Some now |>)
     else mret 0);
  _ ← require (factorConsumed && (challengeConsumed =? 1)) invalidTwoFactorException;
  createSession ttl (ch_user r) context now true (factor_method recovery) rememberDevice.
Definition count_failure_tx (r : ChallengeRecord) (context : SecurityRequestContext)
    : Io unit :=
  let c := ch_challenge r in
  _ ← update_row_if loginChallenges (lch_id c)
        (λ c, negb (is_set (lch_usedAt c)) && (lch_failedAttempts c <? 5))
        (λ c, c <| lch_failedAttempts := lch_failedAttempts c + 1 |>);
  log_activity (auth_log (Some (lch_userId c)) "AUTH_TWO_FACTOR_LOGIN_FAILED" "USER"
                  (Some (lch_userId c)) context JNull).
Definition is_application_exception (e : exn) : bool :=
  match e with AppException _ _ _ => true | _ => false end.
(** From the challenge that was read on. *)
Definition twoFactor_attempt (r : ChallengeRecord) (code : string) (rememberDevice : bool)
    (now : Z) (context : SecurityRequestContext) : Io LoginResult :=
  _ ← require (challenge_valid r now context) invalidTwoFactorException;
  match up_credential (ch_user r) with
  | None => throw invalidTwoFactorException
  | Some credential =>
      step ← lift (verify_code credential code now);
      let recovery := matching_recovery (ch_codes r) code in
      catch (transaction (twoFactor_tx r (totp_id credential) step recovery rememberDevice
                            now context))
        (λ e, _ ← when (is_application_exception e)
                    (transaction (count_failure_tx r context));
              throw e)
  end.
Definition completeTwoFactorLogin (challengeToken code : string) (rememberDevice : option bool)
    (context : SecurityRequestContext) : Io LoginResult :=
  now ← new_date;
  found ← read (challenge_record (hashOpaqueToken challengeToken));
  r ← lift (of_option invalidTwoFactorException found);
  twoFactor_attempt r code (remembers rememberDevice) now context.

(** ** Enrollment *)
Record TwoFactorStatus := MkTwoFactorStatus
  { tf_enabled : bool; tf_pendingSetup : bool; tf_recoveryCodesRemaining : Z }.
Definition status_of (found : option EnabledCredential) : TwoFactorStatus :=
  let enabled := match found with
                 | Some e => is_set (totp_enabledAt (en_credential e)) | None => false end in
  MkTwoFactorStatus enabled (bool_decide (is_Some found) && negb enabled)
    (match found with
     | Some e => if enabled then Z.of_nat (length (en_recoveryCodes e)) else 0 | None => 0 end).
Definition getTwoFactorStatus (auth : AuthRequestContext) : Io TwoFactorStatus :=
  _ ← lift (requireAdministrator auth);
  found ← read_auth (λ a, with_codes a <$> credential_of (auth_userId auth) a);
  mret (status_of found).
Definition already_enabled : exn := conflict "Two-factor authentication is already enabled.".
(** [adminTotpCredential.upsert]: the primary key of the row. *)
Definition upsert_credential (userId encrypted : string) (existing : option AdminTotpCredential)
    : Io string :=
  match existing with
  | Some c =>
      _ ← update_row totpCredentials (totp_id c)
            (λ c, c <| totp_secretCiphertext := encrypted |>
                    <| totp_keyVersion := keyVersion |> <| totp_lastUsedTimeStep := None |>);
      mret (totp_id c)
  | None =>
      id ← random_uuid;
      _ ← insert_row totpCredentials totp_userId id
            (MkTotpCredential id userId encrypted keyVersion None None);
      mret id
  end.
Definition beginSetup_tx (userId encrypted : string) (context : SecurityRequestContext)
    : Io unit :=
  existing ← read_auth (credential_of userId);
  _ ← require (negb (totp_enabled existing)) already_enabled;
  credentialId ← upsert_credential userId encrypted existing;
  _ ← delete_all recoveryCodes (λ r, String.eqb (rec_credentialId r) credentialId);
  log_activity (auth_log (Some userId) "AUTH_TWO_FACTOR_SETUP_STARTED" "USER" (Some userId)
                  context JNull).
Record TwoFactorSetupResponse := MkSetup { su_secret : string; su_otpauthUri : string }.
Definition identity_email (i : AuthenticatedIdentity) : string :=
  match i with Administrator _ e _ _ _ _ | CustomerAccount _ e _ _ => e end.
Definition beginTwoFactorSetup (auth : AuthRequestContext) (password : string)
    (context : SecurityRequestContext) : Io TwoFactorSetupResponse :=
  _ ← lift (requireAdministrator auth);
  _ ← verifyCurrentPassword (auth_userId auth) password;
  secret ← generateSecret random_bytes;
  encrypted ← encryptSecret random_iv encipher_mfa secret;
  _ ← transaction (beginSetup_tx (auth_userId auth) encrypted context);
  mret (MkSetup secret (buildUri (identity_email (auth_identity auth)) secret)).

(** [adminRecoveryCode.createMany]. *)
Definition create_codes (credentialId : string) (codes : list string) : Io unit :=
  for_each codes (λ code,
    id ← random_uuid;
    insert_row recoveryCodes rec_codeHash id
      (MkRecoveryCode id credentialId (hashRecoveryCode hmac_recovery code) None)).
Definition enable_tx (auth : AuthRequestContext) (credentialId : string) (step : Z)
    (codes : list string) (now : Z) (context : SecurityRequestContext) : Io unit :=
  let userId := auth_userId auth in
  enabled ← update_row_if totpCredentials credentialId
              (λ c, negb (is_set (totp_enabledAt c)))
              (λ c, c <| totp_enabledAt := Some now |> <| totp_lastUsedTimeStep := Some step |>);
  _ ← require (enabled =? 1) invalidTwoFactorException;
  _ ← create_codes credentialId codes;
  _ ← update_all authSessions (other_session_of userId (auth_sessionId auth))
        (revoked now "MFA_ENABLED");
  _ ← update_row authSessions (auth_sessionId auth)
        (λ s, s <| ses_twoFactorVerifiedAt := Some now |>);
  log_activity (auth_log (Some userId) "AUTH_TWO_FACTOR_ENABLED" "USER" (Some userId)
                  context JNull).
Definition RECOVERY_CODES : nat := 10.
Definition enableTwoFactor (auth : AuthRequestContext) (code : string)
    (context : SecurityRequestContext) : Io (list string) :=
  _ ← lift (requireAdministrator auth);
  found ← read_auth (credential_of (auth_userId auth));
  credential ← lift (of_option invalidTwoFactorException found);
  _ ← require (negb (is_set (totp_enabledAt credential))) invalidTwoFactorException;
  now ← new_date;
  step ← lift (verify_code credential code now);
  step ← lift (of_option invalidTwoFactorException step);
  codes ← createRecoveryCodes random_bytes RECOVERY_CODES;
  _ ← transaction (enable_tx auth (totp_id credential) step codes now context);
  mret codes.
(** The deletion of a credential takes its recovery codes along. *)
Definition delete_credential (credentialId : string) : Io unit :=
  m ← read_auth totpCredentials;
  _ ← require (bool_decide (is_Some (m !! credentialId))) RecordNotFound;
  write_auth (λ a, a <| totpCredentials := delete credentialId m |>
    <| recoveryCodes := delete_rows (λ r, String.eqb (rec_credentialId r) credentialId)
                          (recoveryCodes a) |>).
Definition disable_tx (userId credentialId : string) (now : Z)
    (context : SecurityRequestContext) : Io unit :=
  _ ← delete_credential credentialId;
  _ ← update_all authSessions (live_session_of userId) (revoked now "MFA_DISABLED");
  log_activity (auth_log (Some userId) "AUTH_TWO_FACTOR_DISABLED" "USER" (Some userId)
                  context JNull).
(** The password and a factor, checked again before the factor is changed. *)
Definition confirm_factor (auth : AuthRequestContext) (password code : string)
    : Io (EnabledCredential * Z) :=
  _ ← lift (requireAdministrator auth);
  _ ← verifyCurrentPassword (auth_userId auth) password;
  e ← getEnabledCredential (auth_userId auth);
  now ← new_date;
  _ ← consumeEnabledFactor e code now;
  mret (e, now).
Definition disableTwoFactor (auth : AuthRequestContext) (password code : string)
    (context : SecurityRequestContext) : Io unit :=
  '(e, now) ← confirm_factor auth password code;
  transaction (disable_tx (auth_userId auth) (totp_id (en_credential e)) now context).
Definition regenerate_tx (userId credentialId : string) (codes : list string)
    (context : SecurityRequestContext) : Io unit :=
  _ ← delete_all recoveryCodes (λ r, String.eqb (rec_credentialId r) credentialId);
  _ ← create_codes credentialId codes;
  log_activity (auth_log (Some userId) "AUTH_TWO_FACTOR_RECOVERY_CODES_REGENERATED" "USER"
                  (Some userId) context JNull).
Definition regenerateRecoveryCodes (auth : AuthRequestContext) (password code : string)
    (context : SecurityRequestContext) : Io (list string) :=
  '(e, _) ← confirm_factor auth password code;
  codes ← createRecoveryCodes random_bytes RECOVERY_CODES;
  _ ← transaction (regenerate_tx (auth_userId auth) (totp_id (en_credential e)) codes context);
  mret codes.
End second_factor.
