(* ===== verification/Staff.v ===== *)
(** * Staff

    apps/api/src/modules/staff/staff.service.ts and
    packages/shared/src/contracts/staff.ts: the administrators a full administrator
    invites, changes and disables. *)
From stdpp Require Import sorting.
From S2P Require Import Prelude JsString JsDate Json Money States AuthTables Database Invoices Payments HostingServices PanelOperations Totp Authentication Sessions.

(** ** Permissions *)
Inductive StaffPermission :=
| StaffManage | AccountSelf | CustomersRead | InvoicesRead | InvoicesManage | PaymentsRead
| PaymentsManage | TicketsManage | BusinessPresentation.
#[export] Instance StaffPermission_eq_dec : EqDecision StaffPermission.
Proof. solve_decision. Defined.
Definition staffPermissions : list StaffPermission :=
  [StaffManage; AccountSelf; CustomersRead; InvoicesRead; InvoicesManage; PaymentsRead;
   PaymentsManage; TicketsManage; BusinessPresentation].
Definition grants (r : StaffRole) : list StaffPermission :=
  match r with
  | StaffRole.FULL_ADMINISTRATOR => staffPermissions
  | StaffRole.BILLING_OPERATOR =>
      [AccountSelf; CustomersRead; InvoicesRead; InvoicesManage; PaymentsRead;
       PaymentsManage; BusinessPresentation]
  | StaffRole.SUPPORT_OPERATOR => [AccountSelf; TicketsManage]
  end.
(** [hasStaffPermission] of a value that may be missing or unknown. *)
Definition staffRoleSchema : schema StaffRole := λ v,
  match v with
  | JStr s =>
      if String.eqb s "FULL_ADMINISTRATOR" then Some StaffRole.FULL_ADMINISTRATOR
      else if String.eqb s "BILLING_OPERATOR" then Some StaffRole.BILLING_OPERATOR
      else if String.eqb s "SUPPORT_OPERATOR" then Some StaffRole.SUPPORT_OPERATOR
      else None
  | _ => None
  end.
Definition hasStaffPermission (role : json) (permission : StaffPermission) : bool :=
  match staffRoleSchema role with
  | Some r => bool_decide (permission ∈ grants r)
  | None => false
  end.
Definition staffHome (r : StaffRole) : string :=
  match r with
  | StaffRole.BILLING_OPERATOR => "/admin/invoices"
  | StaffRole.SUPPORT_OPERATOR => "/admin/support"
  | StaffRole.FULL_ADMINISTRATOR => "/admin"
  end.

(** ** Requests and answers *)
Record StaffAccount := MkStaffAccount
  { sf_id : string; sf_email : string; sf_displayName : string; sf_staffRole : StaffRole;
    sf_status : UserStatus; sf_twoFactorEnabled : bool }.
Record CreateStaffRequest := MkCreateStaff
  { cs_email : string; cs_displayName : string; cs_staffRole : StaffRole }.
Record UpdateStaffRequest := MkUpdateStaff
  { st_displayName : string; st_staffRole : StaffRole; st_enabled : bool }.
(** [fail]; NOT_FOUND answers carry the code CONFLICT. *)
Definition staff_fail (status : Z) (message : string) : exn :=
  AppException status (if status =? 403 then "FORBIDDEN" else "CONFLICT") message.
Definition status_name (s : UserStatus) : string :=
  match s with
  | UserStatus.PENDING_VERIFICATION => "PENDING_VERIFICATION" | UserStatus.ACTIVE => "ACTIVE"
  | UserStatus.SUSPENDED => "SUSPENDED" | UserStatus.DISABLED => "DISABLED"
  end.
Definition has_password (u : User) : bool := negb (absent (user_passwordHash u)).
(** [user.adminProfile?.staffRole === 'FULL_ADMINISTRATOR']. *)
Definition full_profile (u : UserWithProfiles) : bool :=
  match up_profile u with
  | Some p => bool_decide (ap_staffRole p = StaffRole.FULL_ADMINISTRATOR) | None => false
  end.
Definition staff_member (found : option UserWithProfiles)
    : option (UserWithProfiles * AdminProfile) :=
  u ← found; p ← up_profile u;
  if administrator (up_user u) && negb (deleted (up_user u)) then Some (u, p) else None.
Definition put_profile (p : AdminProfile) : Io unit :=
  write_auth (λ a, a <| adminProfiles := <[ap_id p := p]> (adminProfiles a) |>).

Section staff.
Context `{ZodFormats} `{Sha256} `{AuthCrypto} (ttl : AuthTtl).

(** [staffAccountSchema.parse] of a user: an ACTIVE account without a password is
    shown as pending. *)
Definition serialize (u : UserWithProfiles) : result StaffAccount :=
  let user := up_user u in
  match up_profile u with
  | None => Err ZodError
  | Some p =>
      _ ← throw_unless (zod_uuid (user_id user) && zod_email (user_email user) &&
                        text 1 150 (ap_displayName p)) ZodError;
      Ok (MkStaffAccount (user_id user) (user_email user) (ap_displayName p) (ap_staffRole p)
            (if active user && negb (has_password user)
             then UserStatus.PENDING_VERIFICATION else user_status user)
            (totp_enabled (up_credential u)))
  end.
Fixpoint serialize_all (l : list UserWithProfiles) : result (list StaffAccount) :=
  match l with
  | [] => Ok []
  | u :: l => a ← serialize u; rest ← serialize_all l; Ok (a :: rest)
  end.
(** [orderBy: [{ createdAt: 'asc' }, { id: 'asc' }]]. *)
Definition staff_before : relation UserWithProfiles := λ a b,
  user_createdAt (up_user a) < user_createdAt (up_user b) ∨
  (user_createdAt (up_user a) = user_createdAt (up_user b) ∧
   String.leb (user_id (up_user a)) (user_id (up_user b)) = true).
#[export] Instance staff_before_dec a b : Decision (staff_before a b).
Proof. unfold staff_before. apply _. Defined.
Definition list_staff : Io (list StaffAccount) :=
  found ← read (λ d, List.filter (λ u, bool_decide (is_Some (up_profile u)))
                       (with_profiles d <$> rows (λ u, administrator u && negb (deleted u))
                                              (users (authTables d))));
  lift (serialize_all (merge_sort staff_before found)).

(** An administrator who may change staff. *)
Definition staff_authorized (found : option UserWithProfiles) : bool :=
  match found with
  | Some u =>
      let user := up_user u in
      administrator user && active user && negb (deleted user) &&
      is_set (user_emailVerifiedAt user) && has_password user && full_profile u &&
      totp_enabled (up_credential u)
  | None => false
  end.
Definition lockAndAuthorize (actor : AuthRequestContext) : Io unit :=
  _ ← lock_row "staff" "920006";
  found ← read (user_by_id (auth_userId actor));
  require (staff_authorized found) (staff_fail 403
    "Staff changes require an active full administrator with two-factor authentication.").
Definition unused_of (userId : string) (t : ActionToken) : bool :=
  String.eqb (tok_userId t) userId && negb (is_set (tok_usedAt t)).
Definition invalidateInvitation (userId : string) (now : Z) : Io unit :=
  _ ← update_all verificationTokens (unused_of userId) (spent now "superseded");
  update_all resetTokens (unused_of userId) (spent now "superseded").
(** One of the two messages of an invitation. *)
Definition queue_message (table : AuthTables → gmap string ActionToken) `{!Setter table}
    (user : User) (purpose eventType : string) (expiresAt : Z) : Io unit :=
  id ← random_uuid;
  token ← generate;
  _ ← create_token table id (user_id user) token expiresAt;
  create_outbox "USER" (user_id user) eventType
    ("staff-invitation:" ++ purpose ++ ":" ++ id)%string
    (delivery_payload (user_email user) id purpose).
Definition queueInvitation (user : User) : Io unit :=
  now ← new_date;
  _ ← when (negb (is_set (user_emailVerifiedAt user)))
        (queue_message verificationTokens user "EMAIL_VERIFICATION"
           "AUTH_EMAIL_VERIFICATION_REQUESTED" (now + emailVerificationTtlMilliseconds ttl));
  queue_message resetTokens user "PASSWORD_RESET" "AUTH_PASSWORD_RESET_REQUESTED"
    (now + passwordResetTtlMilliseconds ttl).
Definition staff_audit (actor : AuthRequestContext) (context : SecurityRequestContext)
    (entityId action : string) (metadata : json) : Io unit :=
  log_activity (auth_log (Some (auth_userId actor)) action "USER" (Some entityId) context metadata).

Definition create_profile (p : AdminProfile) : Io unit :=
  insert_row adminProfiles ap_userId (ap_id p) p.
(** [include]: the user as it is stored now. *)
Definition staff_user (userId : string) : Io UserWithProfiles :=
  found ← read (user_by_id userId);
  lift (of_option RecordNotFound found).
Definition createStaff_tx (input : CreateStaffRequest) (actor : AuthRequestContext)
    (context : SecurityRequestContext) : Io StaffAccount :=
  _ ← lockAndAuthorize actor;
  userId ← random_uuid;
  profileId ← random_uuid;
  now ← new_date;
  _ ← create_user (MkUser userId (cs_email input) None UserRole.ADMIN
                     UserStatus.PENDING_VERIFICATION None None now now None);
  _ ← create_profile (MkAdminProfile profileId userId (cs_displayName input)
                        (cs_staffRole input));
  u ← staff_user userId;
  _ ← queueInvitation (up_user u);
  _ ← staff_audit actor context userId "STAFF_INVITED"
        (JObj [("staffRole", JStr (StaffRole.to_string (cs_staffRole input)))]);
  lift (serialize u).
Definition createStaff (input : CreateStaffRequest) (actor : AuthRequestContext)
    (context : SecurityRequestContext) : Io StaffAccount :=
  catch (transaction (createStaff_tx input actor context))
    (λ e, if is_unique_violation e
          then throw (staff_fail 409 "An account with this email already exists.") else throw e).

Definition demotes (input : UpdateStaffRequest) : bool :=
  negb (st_enabled input) ||
  negb (bool_decide (st_staffRole input = StaffRole.FULL_ADMINISTRATOR)).
Definition removes_active_full (u : UserWithProfiles) (input : UpdateStaffRequest) : bool :=
  active (up_user u) && full_profile u && demotes input.
(** An administrator who could still act. *)
Definition usable_full (a : AuthTables) (u : User) : bool :=
  administrator u && active u && negb (deleted u) && is_set (user_emailVerifiedAt u) &&
  bool_decide (is_Some (user_passwordHash u)) &&
  match profile_of (user_id u) a with
  | Some p => bool_decide (ap_staffRole p = StaffRole.FULL_ADMINISTRATOR) | None => false
  end.
Definition other_full (userId : string) (a : AuthTables) : Z :=
  count_rows (λ u, negb (String.eqb (user_id u) userId) && usable_full a u) (users a).
Definition staff_status (user : User) (input : UpdateStaffRequest) : UserStatus :=
  if negb (st_enabled input) then UserStatus.DISABLED
  else if is_set (user_emailVerifiedAt user) && has_password user then UserStatus.ACTIVE
  else UserStatus.PENDING_VERIFICATION.
Definition own_account : exn :=
  staff_fail 409 "You cannot disable or demote your own administrator account.".
Definition last_full : exn :=
  staff_fail 409 "At least one active full administrator must remain.".
Definition updateStaff_tx (userId : string) (input : UpdateStaffRequest)
    (actor : AuthRequestContext) (context : SecurityRequestContext) : Io StaffAccount :=
  _ ← lockAndAuthorize actor;
  found ← read (user_by_id userId);
  '(u, p) ← lift (of_option (staff_fail 404 "Administrator account was not found.")
                    (staff_member found));
  _ ← require (negb (String.eqb userId (auth_userId actor) && demotes input)) own_account;
  remaining ← read_auth (other_full userId);
  _ ← require (negb (removes_active_full u input && (remaining =? 0))) last_full;
  now ← new_date;
  let status := staff_status (up_user u) input in
  _ ← update_user userId (λ u, u <| user_status := status |>);
  _ ← put_profile (p <| ap_displayName := st_displayName input |>
                     <| ap_staffRole := st_staffRole input |>);
  _ ← update_all authSessions (live_session_of userId) (revoked now "STAFF_ACCESS_CHANGED");
  _ ← update_all loginChallenges
        (λ c, String.eqb (lch_userId c) userId && negb (is_set (lch_usedAt c)))
        (λ c, c <| lch_usedAt := Some now |>);
  _ ← when (negb (st_enabled input)) (invalidateInvitation userId now);
  _ ← staff_audit actor context userId "STAFF_ACCESS_CHANGED"
        (JObj [("previousRole", JStr (StaffRole.to_string (ap_staffRole p)));
               ("staffRole", JStr (StaffRole.to_string (st_staffRole input)));
               ("previousStatus", JStr (status_name (user_status (up_user u))));
               ("status", JStr (status_name status))]);
  result ← staff_user userId;
  lift (serialize result).
Definition updateStaff (userId : string) (input : UpdateStaffRequest)
    (actor : AuthRequestContext) (context : SecurityRequestContext) : Io StaffAccount :=
  transaction (updateStaff_tx userId input actor context).

Definition invitable (u : User) : bool :=
  (user_status u ==b UserStatus.PENDING_VERIFICATION) ||
  (active u && negb (has_password u)).
Definition resendInvitation_tx (userId : string) (actor : AuthRequestContext)
    (context : SecurityRequestContext) : Io unit :=
  _ ← lockAndAuthorize actor;
  found ← read (user_by_id userId);
  let refused := staff_fail 409
    "Only a pending administrator can receive another invitation." in
  '(u, _) ← lift (of_option refused (staff_member found));
  _ ← require (invitable (up_user u)) refused;
  now ← new_date;
  _ ← invalidateInvitation userId now;
  _ ← queueInvitation (up_user u);
  staff_audit actor context userId "STAFF_INVITATION_RESENT" (JObj []).
Definition resendInvitation (userId : string) (actor : AuthRequestContext)
    (context : SecurityRequestContext) : Io unit :=
  transaction (resendInvitation_tx userId actor context).
End staff.
