(* ===== verification/Guards.v ===== *)
(** * Guards

    apps/api/src/modules/auth: guards/ (sessions, roles, ownership, CSRF, rate
    limits), csrf.service.ts, auth-rate-limit.service.ts, auth-token.service.ts and
    auth-cookie.service.ts.  The cookies of a request are what the cookie package
    reads from its header; HMAC and Redis are parameters. *)
From S2P Require Import Prelude JsString JsDate Json Money States AuthTables Database Invoices Payments HostingServices PanelOperations Totp Authentication Sessions Staff.

(** ** [Buffer.toString('base64url')] *)
Definition URL_ALPHABET : string :=
  "ABCDEFGHIJKLMNOPQRSTUVWXYZabcdefghijklmnopqrstuvwxyz0123456789-_".
Definition url_char (i : Z) : ascii := default "A"%char (String.get (Z.to_nat i) URL_ALPHABET).
Fixpoint base64url (bytes : list Z) : string :=
  match bytes with
  | a :: b :: c :: rest =>
      String (url_char (a / 4))
        (String (url_char (a mod 4 * 16 + b / 16))
          (String (url_char (b mod 16 * 4 + c / 64))
            (String (url_char (c mod 64)) (base64url rest))))
  | [a; b] =>
      String (url_char (a / 4))
        (String (url_char (a mod 4 * 16 + b / 16)) (String (url_char (b mod 16 * 4)) ""))
  | [a] => String (url_char (a / 4)) (String (url_char (a mod 4 * 16)) "")
  | [] => ""
  end.
Definition is_url_char (c : ascii) : bool :=
  is_alnum c || Ascii.eqb c "-" || Ascii.eqb c "_".
(** [CryptoAuthTokenFactory.generate]. *)
Definition random_token (random_bytes : nat → Io (list Z)) : Io string :=
  bytes ← random_bytes 32%nat; mret (base64url bytes).

(** ** csrf.service.ts *)
Definition is_hex (c : ascii) : bool := is_digit c || in_range "a" "f" c.
(** [/^[A-Za-z0-9_-]{43}$/] and [/^[0-9a-f]{64}$/]. *)
Definition nonce_shape (s : string) : bool := (slen s =? 43) && all_chars is_url_char s.
Definition signature_shape (s : string) : bool := (slen s =? 64) && all_chars is_hex s.
Section csrf.
Context (hmac_csrf : string → string) (random_bytes : nat → Io (list Z)).

Definition sign (nonce : string) : string :=
  hmac_csrf ("webhost-billing-csrf:v1:" ++ nonce)%string.
Definition generate_csrf : Io string :=
  nonce ← random_token random_bytes; mret (nonce ++ "." ++ sign nonce)%string.
(** [timingSafeEqual] of two [Buffer]s wants equal lengths. *)
Definition equal_digests (a b : list Z) : result bool :=
  _ ← throw_unless (Nat.eqb (length a) (length b))
        (RangeError "Input buffers must have the same byte length");
  Ok (bool_decide (a = b)).
Definition validate_csrf (token : string) : result bool :=
  match split_on "." token with
  | [nonce; signature] =>
      if truthy nonce && truthy signature && nonce_shape nonce && signature_shape signature
      then equal_digests (from_hex signature) (from_hex (sign nonce))
      else Ok false
  | _ => Ok false
  end.

(** ** Requests *)
Record HttpRequest := MkHttpRequest
  { rq_method : string; rq_sessionCookie : option string; rq_supportCookie : option string;
    rq_csrfCookie : option string; rq_csrfHeader : option string;
    rq_origin : option string; rq_fetchSite : option string;
    rq_params : list (string * json); rq_address : string; rq_email : json }.
(** The decorators of a handler. *)
Inductive SupportAccess := SupportRead | SupportEnd.
#[export] Instance SupportAccess_eq_dec : EqDecision SupportAccess.
Proof. solve_decision. Defined.
Record RouteMetadata := MkRoute
  { rt_public : bool; rt_skipCsrf : bool; rt_supportAccess : option SupportAccess;
    rt_roles : list UserRole; rt_permission : option StaffPermission;
    rt_ownerParameter : option string }.

(** ** csrf.guard.ts *)
Definition csrf_failed : exn :=
  AppException 403 "CSRF_VALIDATION_FAILED" "CSRF validation failed.".
Definition safe_method (m : string) : bool :=
  existsb (String.eqb m) ["GET"; "HEAD"; "OPTIONS"].
Definition foreign_origin (webOrigin : string) (r : HttpRequest) : bool :=
  match present (rq_origin r) with Some o => negb (String.eqb o webOrigin) | None => false end.
Definition csrf_guard (webOrigin : string) (route : RouteMetadata) (r : HttpRequest)
    : result unit :=
  if rt_skipCsrf route || safe_method (rq_method r) then Ok tt
  else
    match present (rq_csrfCookie r), present (rq_csrfHeader r) with
    | Some cookie, Some header =>
        _ ← throw_unless (negb (bool_decide (rq_fetchSite r = Some "cross-site") ||
                                foreign_origin webOrigin r) && String.eqb cookie header)
              csrf_failed;
        valid ← validate_csrf header;
        throw_unless valid csrf_failed
    | _, _ => Err csrf_failed
    end.
End csrf.

(** ** session-auth.guard.ts *)
Definition support_read_only : exn :=
  forbidden "End the read-only support session before performing this action.".
Section guards.
Context `{ZodFormats} `{Sha256} `{AuthCrypto} (ttl : AuthTtl).

Definition session_guard (route : RouteMetadata) (r : HttpRequest)
    : Io (option AuthRequestContext) :=
  let read := String.eqb (rq_method r) "GET" || String.eqb (rq_method r) "HEAD" in
  let token := present (rq_sessionCookie r) in
  match rq_supportCookie r with
  | Some supportToken =>
      let access := rt_supportAccess route in
      if rt_public route && ((read && bool_decide (access = Some SupportRead)) ||
                             bool_decide (access = Some SupportEnd))
      then mret None
      else
        _ ← require (read && bool_decide (access = Some SupportRead)) support_read_only;
        match token with
        | Some t => auth ← authenticateCustomerSupportSession ttl t supportToken; mret (Some auth)
        | None => throw authenticationRequired
        end
  | None =>
      if rt_public route then mret None
      else match token with
           | Some t => auth ← authenticateSession ttl t; mret (Some auth)
           | None => throw authenticationRequired
           end
  end.

(** ** roles.guard.ts *)
Definition role_allowed (route : RouteMetadata) (auth : option AuthRequestContext) : bool :=
  match rt_roles route with
  | [] => true
  | roles => match auth with
             | Some a => bool_decide (identity_role (auth_identity a) ∈ roles) | None => false
             end
  end.
Definition staff_allowed (route : RouteMetadata) (auth : option AuthRequestContext) : bool :=
  match auth_identity <$> auth with
  | Some (Administrator _ _ _ _ role twoFactorEnabled) =>
      let full := bool_decide (role = StaffRole.FULL_ADMINISTRATOR) in
      match rt_permission route with
      | Some p => hasStaffPermission (JStr (StaffRole.to_string role)) p &&
                  ((full && negb (bool_decide (p = StaffManage))) || twoFactorEnabled ||
                   bool_decide (p = AccountSelf))
      | None => full && (full || twoFactorEnabled)
      end
  | _ => true
  end.
Definition permission_name (p : StaffPermission) : string :=
  match p with
  | StaffManage => "staff.manage" | AccountSelf => "account.self"
  | CustomersRead => "customers.read" | InvoicesRead => "invoices.read"
  | InvoicesManage => "invoices.manage" | PaymentsRead => "payments.read"
  | PaymentsManage => "payments.manage" | TicketsManage => "tickets.manage"
  | BusinessPresentation => "business.presentation"
  end.
Definition role_name (r : UserRole) : string :=
  match r with UserRole.ADMIN => "ADMIN" | UserRole.CUSTOMER => "CUSTOMER" end.
(** Whom an audit record names: the administrator behind a support session. *)
Definition acting_user (a : AuthRequestContext) : string :=
  default (auth_userId a) (auth_supportAdministratorId a).
Definition support_field (a : AuthRequestContext) : list (string * json) :=
  match present (auth_supportAdministratorId a) with
  | Some _ => [("supportSessionId", JStr (auth_sessionId a))] | None => []
  end.
Definition roles_guard (route : RouteMetadata) (auth : option AuthRequestContext)
    (context : SecurityRequestContext) : Io unit :=
  if role_allowed route auth && staff_allowed route auth then mret tt
  else
    _ ← match auth with
        | Some a =>
            audit_record (Some (acting_user a)) "AUTH_ROLE_ACCESS_DENIED" "USER"
              (Some (auth_userId a)) context
              (JObj ([("requiredRoles", JArr ((λ r, JStr (role_name r)) <$> rt_roles route));
                      ("permission", JStr (match rt_permission route with
                                           | Some p => permission_name p
                                           | None => "full-administrator" end))] ++
                     support_field a))
        | None => mret tt
        end;
    throw (forbidden "You do not have permission to perform this action.").

(** ** customer-ownership.guard.ts *)
Definition requested_customer (parameter : string) (r : HttpRequest) : option string :=
  match get parameter (rq_params r) with JStr s => Some s | _ => None end.
Definition owns (auth : option AuthRequestContext) (requested : option string) : bool :=
  match auth_identity <$> auth with
  | Some (Administrator _ _ _ _ _ _) => true
  | Some (CustomerAccount _ _ customerId _) => bool_decide (Some customerId = requested)
  | None => false
  end.
Definition ownership_guard (route : RouteMetadata) (auth : option AuthRequestContext)
    (r : HttpRequest) (context : SecurityRequestContext) : Io unit :=
  match present (rt_ownerParameter route) with
  | None => mret tt
  | Some parameter =>
      let requested := requested_customer parameter r in
      if owns auth requested then mret tt
      else
        _ ← match auth with
            | Some a =>
                audit_record (Some (acting_user a)) "AUTH_CUSTOMER_OWNERSHIP_DENIED"
                  "CUSTOMER" requested context
                  (match support_field a with [] => JNull | fields => JObj fields end)
            | None => mret tt
            end;
        throw (forbidden "You do not have access to this customer resource.")
  end.
End guards.

(** ** Rate limits

    auth-rate-limit.service.ts and auth-rate-limit.guard.ts, over the commands of
    Redis: [INCR], whose reply is the new count, and [PEXPIRE]. *)
Record RateLimit := MkRateLimit
  { rl_scope : string; rl_limit : Z; rl_windowMs : Z; rl_includeEmail : bool }.
Definition unavailable : exn :=
  AppException 503 "SERVICE_UNAVAILABLE" "Service is temporarily unavailable.".
Definition rate_limited : exn :=
  AppException 429 "RATE_LIMITED" "Too many requests. Please try again later.".
Definition emailFromBody (email : json) : string :=
  match email with
  | JStr s => String.substring 0 320 (js_lower (js_trim s))
  | _ => "no-email"
  end.
Definition fingerprint (d : RateLimit) (r : HttpRequest) : string :=
  (rq_address r ++ if rl_includeEmail d then ":" ++ emailFromBody (rq_email r) else "")%string.
Section limits.
Context {S : Type} (incr : string → S → option Z * S) (pexpire : string → Z → S → option unit * S).
Context (hmac_hex : string → string) (namespace : string).

(** [CONSUME_SCRIPT], run as one command; [None] is an error of Redis. *)
Definition consume_script (key : string) (windowMs : Z) (s : S) : option Z * S :=
  match incr key s with
  | (Some current, s') =>
      if current =? 1 then
        match pexpire key windowMs s' with
        | (Some _, s'') => (Some current, s'')
        | (None, s'') => (None, s'')
        end
      else (Some current, s')
  | (None, s') => (None, s')
  end.
Definition limit_key (scope print : string) : string :=
  ("webhost-billing:auth-rate-limit:v1:" ++ namespace ++ ":" ++ scope ++ ":" ++
   hmac_hex (scope ++ ":" ++ print))%string.
Definition consume_limit (scope print : string) (limit windowMs : Z) : M S unit := λ s,
  match consume_script (limit_key scope print) windowMs s with
  | (None, s') => (Err unavailable, s')
  | (Some count, s') => (throw_unless (negb (limit <? count)) rate_limited, s')
  end.
Definition rate_limit_guard (definition : option RateLimit) (r : HttpRequest) : M S unit :=
  match definition with
  | None => mret tt
  | Some d => consume_limit (rl_scope d) (fingerprint d r) (rl_limit d) (rl_windowMs d)
  end.
End limits.

(** ** auth-cookie.service.ts *)
Definition cookie_name (production : bool) (base : string) : string :=
  ((if production then "__Host-" else "") ++ base)%string.
(** [maxAge] of the session cookie; [expiresAt] is what [Date.parse] reads from the
    answer, [None] when the answer has none.  A browser session has no [maxAge]. *)
Definition session_cookie_maxAge (configuredTtl : Z) (token : string) (administrator : bool)
    (expiresAt : option Z) (now : Z) : option Z :=
  let mode := administratorSessionMode token in
  let lifetime := if administrator then administratorSessionTtl token configuredTtl
                  else configuredTtl in
  if administrator && bool_decide (mode = Browser) then None
  else Some (match expiresAt with
             | Some e => if bool_decide (mode = Remembered)
                         then Z.max 0 (Z.min lifetime (e - now)) else lifetime
             | None => lifetime
             end).
