(* ===== verification/AuthProtocol.v ===== *)
(** * The protocol of accounts

    What every operation of AuthService and StaffService keeps of the account
    tables, whatever was read before its transaction: rows that are used, revoked or
    counted stay so, and identifiers of deleted rows do not come back. *)
From stdpp Require Import relations.
From S2P Require Import Prelude JsString Json Money States AuthTables Database Invoices Payments HostingServices PanelOperations Totp Authentication Sessions SecondFactor Staff.

(** ** Tables whose rows only go forward *)
Class Tracked (R : Type) :=
  { row_id : R → string;
    row_hash : R → string;
    later : relation R;
    row_ok : R → Prop;
    later_preorder :: PreOrder later;
    later_same r r' : later r r' → row_id r' = row_id r ∧ row_hash r' = row_hash r }.

Definition sticky {A} (old new : option A) : Prop := old ≠ None → new = old.
#[export] Instance sticky_preorder {A} : PreOrder (@sticky A).
Proof. unfold sticky. split; [done|]. intros x y z H1 H2 Hx. specialize (H1 Hx). rewrite <- H1. apply H2. congruence. Qed.
Definition tok_later (t t' : ActionToken) : Prop :=
  tok_id t' = tok_id t ∧ tok_userId t' = tok_userId t ∧ tok_tokenHash t' = tok_tokenHash t ∧
  sticky (tok_usedAt t) (tok_usedAt t').
Definition ses_later (s s' : AuthSession) : Prop :=
  ses_id s' = ses_id s ∧ ses_userId s' = ses_userId s ∧ ses_tokenHash s' = ses_tokenHash s ∧
  sticky (ses_revokedAt s) (ses_revokedAt s').
Definition lch_later (c c' : AdminLoginChallenge) : Prop :=
  lch_id c' = lch_id c ∧ lch_userId c' = lch_userId c ∧ lch_tokenHash c' = lch_tokenHash c ∧
  sticky (lch_usedAt c) (lch_usedAt c').
Definition ech_later (c c' : CustomerEmailChallenge) : Prop :=
  ech_id c' = ech_id c ∧ ech_userId c' = ech_userId c ∧ ech_tokenHash c' = ech_tokenHash c ∧
  sticky (ech_usedAt c) (ech_usedAt c') ∧ ech_failedAttempts c <= ech_failedAttempts c'.
(** Five wrong codes close a challenge. *)
Definition ech_ok (c : CustomerEmailChallenge) : Prop :=
  0 <= ech_failedAttempts c <= 5 ∧ (ech_failedAttempts c = 5 → ech_usedAt c ≠ None).

Ltac solve_later :=
  unfold tok_later, ses_later, lch_later, ech_later; split;
  [intros ?; split_and!; done || lia
  |intros ? ? ? ? ?; destruct_and?; split_and!; congruence || lia || (etrans; eassumption)].
#[export] Instance tok_preorder : PreOrder tok_later.
Proof. solve_later. Qed.
#[export] Instance ses_preorder : PreOrder ses_later.
Proof. solve_later. Qed.
#[export] Instance lch_preorder : PreOrder lch_later.
Proof. solve_later. Qed.
#[export] Instance ech_preorder : PreOrder ech_later.
Proof. solve_later. Qed.
#[export] Program Instance tok_tracked : Tracked ActionToken :=
  {| row_id := tok_id; row_hash := tok_tokenHash; later := tok_later; row_ok := λ _, True |}.
Next Obligation. by intros ?? (?&?&?&?). Qed.
#[export] Program Instance ses_tracked : Tracked AuthSession :=
  {| row_id := ses_id; row_hash := ses_tokenHash; later := ses_later; row_ok := λ _, True |}.
Next Obligation. by intros ?? (?&?&?&?). Qed.
#[export] Program Instance lch_tracked : Tracked AdminLoginChallenge :=
  {| row_id := lch_id; row_hash := lch_tokenHash; later := lch_later; row_ok := λ _, True |}.
Next Obligation. by intros ?? (?&?&?&?). Qed.
#[export] Program Instance ech_tracked : Tracked CustomerEmailChallenge :=
  {| row_id := ech_id; row_hash := ech_tokenHash; later := ech_later; row_ok := ech_ok |}.
Next Obligation. by intros ?? (?&?&?&?). Qed.

Section tracked.
Context {R : Type} `{Tracked R}.
Implicit Types m : gmap string R.

(** Rows are stored under their identifier and no two share a token. *)
Definition table_ok m : Prop :=
  (∀ i r, m !! i = Some r → row_id r = i ∧ row_ok r) ∧
  (∀ i j r r', m !! i = Some r → m !! j = Some r' → row_hash r = row_hash r' → i = j).
Definition carried m m' : Prop :=
  ∀ i r, m !! i = Some r → ∃ r', m' !! i = Some r' ∧ later r r'.
#[export] Instance carried_preorder : PreOrder carried.
Proof.
  split; [intros m i r Hr; by exists r|]. intros m1 m2 m3 H1 H2 i r Hr.
  destruct (H1 i r Hr) as (r2&Hr2&?). destruct (H2 i r2 Hr2) as (r3&?&?).
  exists r3. split; [done|]. by trans r2.
Qed.
(** A table whose rows change only in ways [later] allows. *)
Definition moves m m' : Prop := table_ok m → table_ok m' ∧ carried m m'.
#[export] Instance moves_refl : Reflexive moves.
Proof. by intros m Hm. Qed.

Lemma insert_moves id r m :
  m !! id = None → unique_in m row_hash (row_hash r) = true → row_id r = id → row_ok r →
  moves m (<[id := r]> m).
Proof.
  intros Hid Hu Hr Hok [Hk Hd]. rewrite unique_in_spec in Hu. split; [split|].
  - intros i s. rewrite lookup_insert_Some. intros [[<- <-]|[_ Hs]]; eauto.
  - intros i j s s'. rewrite !lookup_insert_Some.
    intros [[<- <-]|[? Hs]] [[<- <-]|[? Hs']] Heq; [done| | |by eapply Hd].
    + destruct (Hu _ _ Hs'); done.
    + destruct (Hu _ _ Hs); done.
  - intros i s Hs. exists s. split; [|done]. rewrite lookup_insert_ne; [done|congruence].
Qed.
Lemma map_moves (g : string → R → R) m m' :
  (∀ i, m' !! i = g i <$> m !! i) →
  (∀ i r, m !! i = Some r → row_ok r → later r (g i r) ∧ row_ok (g i r)) → moves m m'.
Proof.
  intros Hm Hg [Hk Hd]. split; [split|].
  - intros i r'. rewrite Hm. intros (r&Hr&->)%fmap_Some. destruct (Hk _ _ Hr) as [Hi Ho].
    destruct (Hg _ _ Hr Ho) as [Hl ?]. destruct (later_same _ _ Hl) as [-> _]. done.
  - intros i j r1 r2. rewrite !Hm. intros (s1&Hs1&->)%fmap_Some (s2&Hs2&->)%fmap_Some.
    destruct (Hg _ _ Hs1) as [Hl1 _]; [by eapply Hk|].
    destruct (Hg _ _ Hs2) as [Hl2 _]; [by eapply Hk|].
    destruct (later_same _ _ Hl1) as [_ ->], (later_same _ _ Hl2) as [_ ->]. by eapply Hd.
  - intros i r Hr. exists (g i r). rewrite Hm, Hr. split; [done|].
    eapply Hg; [done|]. by eapply Hk.
Qed.
Lemma update_one_moves m id p f :
  (∀ r, p r = true → row_ok r → later r (f r) ∧ row_ok (f r)) →
  moves m (snd (update_one m id p f)).
Proof.
  intros Hf. unfold update_one. destruct (m !! id) as [r|] eqn:Hr; [|done].
  destruct (p r) eqn:Hp; [|done]. simpl.
  apply (map_moves (λ i s, if decide (i = id) then f s else s)).
  - intros i. destruct (decide (i = id)) as [->|Hi].
    + by rewrite lookup_insert_eq, Hr.
    + rewrite lookup_insert_ne by done. by destruct (m !! i).
  - intros i s Hs Ho. destruct (decide (i = id)) as [->|Hi]; [|done].
    rewrite Hr in Hs. apply (inj Some) in Hs as ->. by apply Hf.
Qed.
Lemma update_rows_moves m p f :
  (∀ r, p r = true → row_ok r → later r (f r) ∧ row_ok (f r)) → moves m (update_rows p f m).
Proof.
  intros Hf. apply (map_moves (λ _ r, if p r then f r else r)).
  - intros i. apply update_rows_lookup.
  - intros i r _ Ho. destruct (p r) eqn:Hp; [by apply Hf|done].
Qed.
Lemma find_hash m h r i r' :
  table_ok m → find_unique m row_hash h = Some r → m !! i = Some r' → row_hash r' = h →
  r = r' ∧ row_id r = i.
Proof.
  intros [Hk Hd] Hf Hi Hh. apply find_unique_Some in Hf as (j&Hj&Hjh).
  rewrite <- Hh in Hjh. pose proof (Hd _ _ _ _ Hj Hi Hjh) as ->.
  rewrite Hj in Hi. apply (inj Some) in Hi as <-. split; [done|]. by apply Hk.
Qed.
End tracked.
#[global] Typeclasses Opaque moves.

(** ** Tables whose rows may be deleted

    Their identifiers are drawn from the stream, so that none is used twice. *)
Definition drawn_before (w : World) (i : string) : Prop :=
  ∃ k, (k < drawn w)%nat ∧ uuids w k = i.
Definition totp_later (c c' : AdminTotpCredential) : Prop :=
  totp_id c' = totp_id c ∧ (totp_enabledAt c ≠ None →
  totp_enabledAt c' = totp_enabledAt c ∧
  totp_secretCiphertext c' = totp_secretCiphertext c ∧
  match totp_lastUsedTimeStep c, totp_lastUsedTimeStep c' with
  | Some s, Some s' => s <= s' | Some _, None => False | None, _ => True end).
Definition rec_later (r r' : AdminRecoveryCode) : Prop :=
  rec_id r' = rec_id r ∧ sticky (rec_usedAt r) (rec_usedAt r').
#[export] Instance totp_preorder : PreOrder totp_later.
Proof.
  unfold totp_later. split.
  - intros c. split; [done|]. intros _. split_and!; auto.
    destruct (totp_lastUsedTimeStep c); [lia|done].
  - intros c1 c2 c3 [I1 H1] [I2 H2]. split; [congruence|]. intros He. destruct (H1 He) as (E1&S1&L1). destruct H2 as (E2&S2&L2);
      [congruence|]. split_and!; [congruence|congruence|].
    destruct (totp_lastUsedTimeStep c1), (totp_lastUsedTimeStep c2),
      (totp_lastUsedTimeStep c3); try done. lia.
Qed.
#[export] Instance rec_preorder : PreOrder rec_later.
Proof.
  unfold rec_later. split; [by intros ?|]. intros ??? [??] [??].
  split; [congruence|by etrans].
Qed.

Section mortal.
Context {R : Type} (P : relation R) `{!PreOrder P} (rid : R → string).
Context (m : World → gmap string R).

Definition dead (w : World) (i : string) : Prop := m w !! i = None ∧ drawn_before w i.
Definition mortal_ok (w : World) : Prop :=
  ∀ i r, m w !! i = Some r → rid r = i ∧ drawn_before w i.
Definition mortal_later (w w' : World) : Prop :=
  (∀ i, dead w i → dead w' i) ∧
  (∀ i r, m w !! i = Some r → dead w' i ∨ ∃ r', m w' !! i = Some r' ∧ P r r').
Lemma mortal_later_refl w : mortal_later w w.
Proof using PreOrder0. split; [done|]. intros i r Hr. right. by exists r. Qed.
Lemma mortal_later_trans w1 w2 w3 :
  mortal_later w1 w2 → mortal_later w2 w3 → mortal_later w1 w3.
Proof using PreOrder0.
  intros [D1 L1] [D2 L2]. split; [by auto|]. intros i r Hr.
  destruct (L1 i r Hr) as [Hd|(r2&Hr2&?)]; [by left; auto|].
  destruct (L2 i r2 Hr2) as [Hd|(r3&Hr3&?)]; [by left|]. right. exists r3. split; [done|].
  by trans r2.
Qed.
End mortal.

Definition totp_of (w : World) : gmap string AdminTotpCredential :=
  totpCredentials (authTables (db w)).
Definition codes_of (w : World) : gmap string AdminRecoveryCode :=
  recoveryCodes (authTables (db w)).

(** ** The state *)
Definition tables_ok (a : AuthTables) : Prop :=
  table_ok (authSessions a) ∧ table_ok (resetTokens a) ∧ table_ok (verificationTokens a) ∧
  table_ok (loginChallenges a) ∧ table_ok (emailChallenges a).
Definition tables_later (a b : AuthTables) : Prop :=
  carried (authSessions a) (authSessions b) ∧ carried (resetTokens a) (resetTokens b) ∧
  carried (verificationTokens a) (verificationTokens b) ∧
  carried (loginChallenges a) (loginChallenges b) ∧
  carried (emailChallenges a) (emailChallenges b).
#[export] Instance tables_later_preorder : PreOrder tables_later.
Proof.
  split.
  - intros a. split_and!; reflexivity.
  - intros a b c (?&?&?&?&?) (?&?&?&?&?). split_and!; etrans; eassumption.
Qed.
Definition auth_ok (w : World) : Prop :=
  (∀ j k, uuids w j = uuids w k → j = k) ∧ tables_ok (authTables (db w)) ∧
  mortal_ok totp_id totp_of w ∧ mortal_ok rec_id codes_of w.
Definition advance (w w' : World) : Prop :=
  uuids w' = uuids w ∧ (drawn w <= drawn w')%nat ∧
  tables_later (authTables (db w)) (authTables (db w')) ∧
  mortal_later totp_later totp_of w w' ∧ mortal_later rec_later codes_of w w'.
#[export] Instance advance_preorder : PreOrder advance.
Proof.
  split.
  - intros w. split_and!; [done|lia|reflexivity| |]; apply mortal_later_refl; apply _.
  - intros w1 w2 w3 (?&?&?&?&?) (?&?&?&?&?). split_and!; [congruence|lia|by etrans| |];
      eapply mortal_later_trans; eauto; apply _.
Qed.

(** ** Operations *)
Class Advances {A} (m : Io A) : Prop :=
  advances : ∀ w, auth_ok w → auth_ok (snd (m w)) ∧ advance w (snd (m w)).
(** The tables that are followed. *)
Definition followed (a : AuthTables) :=
  (authSessions a, resetTokens a, verificationTokens a, loginChallenges a, emailChallenges a,
   totpCredentials a, recoveryCodes a).
Definition undisturbed (w w' : World) : Prop :=
  followed (authTables (db w')) = followed (authTables (db w)) ∧ uuids w' = uuids w ∧
  (drawn w <= drawn w')%nat.
Class Quiet {A} (m : Io A) : Prop := quiet : ∀ w, undisturbed w (snd (m w)).

Lemma drawn_before_mono w w' i :
  uuids w' = uuids w → (drawn w <= drawn w')%nat → drawn_before w i → drawn_before w' i.
Proof. intros Hu Hd (k&?&?). exists k. rewrite Hu. split; [lia|done]. Qed.
Lemma undisturbed_advances w w' :
  undisturbed w w' → auth_ok w → auth_ok w' ∧ advance w w'.
Proof.
  intros (Hf&Hu&Hd) (Hi&Ht&Hm1&Hm2). unfold followed in Hf.
  injection Hf as Es Er Ev El Ee Et Ec.
  assert (∀ i, drawn_before w i → drawn_before w' i) as Hdr
    by (intros i; by apply drawn_before_mono).
  unfold auth_ok, advance, tables_ok, tables_later, mortal_ok, mortal_later, dead, totp_of, codes_of in *.
  rewrite Hu, Es, Er, Ev, El, Ee, Et, Ec. split_and!; try done; try apply Ht; try lia.
  - intros i c Hc. destruct (Hm1 i c Hc). auto.
  - intros i c Hc. destruct (Hm2 i c Hc). auto.
  - intros i [? ?]. auto.
  - intros i r Hr. right. by exists r.
  - intros i [? ?]. auto.
  - intros i r Hr. right. by exists r.
Qed.
#[export] Instance quiet_advances {A} (m : Io A) : Quiet m → Advances m | 20.
Proof. intros Hq w Hw. by apply undisturbed_advances. Qed.

Section structure.
#[export] Instance quiet_ret {A} (a : A) : Quiet (mret a).
Proof. by intros w. Qed.
#[export] Instance quiet_throw {A} e : Quiet (throw e : Io A).
Proof. by intros w. Qed.
#[export] Instance quiet_read {A} (f : Db → A) : Quiet (read f).
Proof. by intros w. Qed.
#[export] Instance quiet_read_auth {A} (f : AuthTables → A) : Quiet (read_auth f).
Proof. by intros w. Qed.
#[export] Instance quiet_lift {A} (r : result A) : Quiet (lift r).
Proof. by intros w. Qed.
#[export] Instance quiet_require b e : Quiet (require b e).
Proof. by intros w. Qed.
#[export] Instance quiet_new_date : Quiet new_date.
Proof. by intros w. Qed.
#[export] Instance quiet_lock_row t i : Quiet (lock_row t i).
Proof. by intros w. Qed.
#[export] Instance quiet_random_uuid : Quiet random_uuid.
Proof. intros w. split_and!; simpl; [done..|lia]. Qed.
Lemma quiet_write f :
  (∀ d, followed (authTables (f d)) = followed (authTables d)) → Quiet (write f).
Proof. intros Hf w. split_and!; [apply Hf|done|done]. Qed.
#[export] Instance quiet_log l : Quiet (log_activity l).
Proof. by apply quiet_write. Qed.

#[export] Instance advances_bind {A B} (m : Io A) (k : A → Io B) :
  Advances m → (∀ a, Advances (k a)) → Advances (m ≫= k).
Proof.
  intros Hm Hk w Hw. unfold mbind, M_bind. destruct (Hm w Hw) as [Hok Hadv].
  destruct (m w) as [[a|e] w1]; [|done]. destruct (Hk a w1 Hok) as [Hok' Hadv'].
  split; [done|]. by etrans.
Qed.
#[export] Instance advances_when b (m : Io unit) : Advances m → Advances (when b m).
Proof. destruct b; [done|]. intros _. apply (quiet_advances (mret tt)), _. Qed.
#[export] Instance advances_catch {A} (m : Io A) (h : exn → Io A) :
  Advances m → (∀ e, Advances (h e)) → Advances (catch m h).
Proof.
  intros Hm Hh w Hw. unfold catch. destruct (Hm w Hw) as [Hok Hadv].
  destruct (m w) as [[a|e] w1]; [done|]. destruct (Hh e w1 Hok) as [Hok' Hadv'].
  split; [done|]. by etrans.
Qed.
#[export] Instance advances_for_each {A} (l : list A) (f : A → Io unit) :
  (∀ a, Advances (f a)) → Advances (for_each l f).
Proof. intros Hf. induction l; cbn [for_each]; apply _. Qed.
(** A failed transaction has only let time pass. *)
#[export] Instance advances_transaction {A} (m : Io A) : Advances m → Advances (transaction m).
Proof.
  intros Hm w Hw. unfold transaction. destruct (Hm w Hw) as [Hok Hadv].
  destruct (m w) as [[a|e] w1]; [done|]. destruct Hadv as (Hu&Hd&_).
  apply undisturbed_advances; [|done]. by split_and!.
Qed.
End structure.
#[global] Hint Extern 4 (Advances (match ?x with _ => _ end)) => destruct x : typeclass_instances.

(** *** Writes of one table *)
Definition tables_step (a b : AuthTables) : Prop :=
  tables_ok a → tables_ok b ∧ tables_later a b ∧ totpCredentials b = totpCredentials a ∧
  recoveryCodes b = recoveryCodes a.
Class Slot {R} `{Tracked R} (table : AuthTables → gmap string R) `{!Setter table} : Prop :=
  slot : ∀ a m, moves (table a) m → tables_step a (a <| table := m |>).
Ltac solve_slot :=
  intros a m Hm (H1&H2&H3&H4&H5);
  destruct (Hm ltac:(assumption)) as [Ho Hc];
  unfold tables_ok, tables_later; simpl; split_and!; done || reflexivity.
#[export] Instance sessions_slot : Slot authSessions.
Proof. solve_slot. Qed.
#[export] Instance reset_slot : Slot resetTokens.
Proof. solve_slot. Qed.
#[export] Instance verification_slot : Slot verificationTokens.
Proof. solve_slot. Qed.
#[export] Instance login_slot : Slot loginChallenges.
Proof. solve_slot. Qed.
#[export] Instance email_slot : Slot emailChallenges.
Proof. solve_slot. Qed.

Lemma tables_step_advances w a :
  tables_step (authTables (db w)) a → auth_ok w →
  let w' := w <| db := db w <| authTables := a |> |> in auth_ok w' ∧ advance w w'.
Proof.
  intros Hs (Hi&Ht&Hm1&Hm2) w'. destruct (Hs Ht) as (Ht'&Hl&Et&Ec).
  assert (totp_of w' = totp_of w) as E1 by (unfold totp_of; simpl; exact Et).
  assert (codes_of w' = codes_of w) as E2 by (unfold codes_of; simpl; exact Ec).
  unfold auth_ok, advance, mortal_ok, mortal_later, dead. rewrite E1, E2.
  split_and!; try done; try lia; intros i r Hr; right; by exists r.
Qed.

(** The updates [later] allows. *)
Class Forwards {R} `{Tracked R} (p : R → bool) (f : R → R) : Prop :=
  forwards : ∀ r, p r = true → row_ok r → later r (f r) ∧ row_ok (f r).
Section slots.
Context {R : Type} `{Tracked R} (table : AuthTables → gmap string R) `{!Setter table, !Slot table}.

Lemma update_row_if_run id p f w :
  let u := update_one (table (authTables (db w))) id p f in
  update_row_if table id p f w =
    (Ok (fst u), w <| db := db w <| authTables := authTables (db w) <| table := snd u |> |> |>).
Proof using Type.
  unfold update_row_if, read_auth, write_auth, read, write, gets, modify, mbind, M_bind, mret, M_ret.
  cbn beta iota. by destruct (update_one _ _ _ _).
Qed.
Lemma update_row_if_advances id p f :
  Forwards p f → Advances (update_row_if table id p f).
Proof using Type*.
  intros Hf w Hw. rewrite update_row_if_run. simpl. apply tables_step_advances; [|done].
  apply slot, update_one_moves, Hf.
Qed.
Lemma update_row_advances id f :
  Forwards (λ _, true) f → Advances (update_row table id f).
Proof using Type*.
  intros Hf. unfold update_row. apply advances_bind; [|intros ?; apply _].
  by apply update_row_if_advances.
Qed.
Lemma update_all_advances p f : Forwards p f → Advances (update_all table p f).
Proof using Type*.
  intros Hf w Hw. apply tables_step_advances; [|done]. apply slot, update_rows_moves, Hf.
Qed.
Lemma insert_row_advances id r :
  row_id r = id → row_ok r → Advances (insert_row table row_hash id r).
Proof using Type*.
  intros Hid Hok w Hw. unfold insert_row, read_auth, read, gets, mbind, M_bind.
  destruct (bool_decide _ && _) eqn:E; [|by split].
  unfold require, lift, throw_unless. split_bool.
  apply tables_step_advances; [|done]. apply slot. by apply insert_moves.
Qed.
End slots.
(** The setter of a table is a term, not an instance: these are found by pattern. *)
#[global] Hint Extern 3 (Advances (update_row_if _ _ _ _)) =>
  eapply update_row_if_advances : typeclass_instances.
#[global] Hint Extern 3 (Advances (update_row _ _ _)) =>
  eapply update_row_advances : typeclass_instances.
#[global] Hint Extern 3 (Advances (update_all _ _ _)) =>
  eapply update_all_advances : typeclass_instances.

(** *** The updates of the services *)
Lemma sticky_unset {A} (o : option A) (x : option A) : o = None → sticky o x.
Proof. intros -> Hn. by destruct Hn. Qed.
Lemma is_set_false o : is_set o = false ↔ o = None.
Proof.
  unfold is_set. rewrite bool_decide_eq_false. destruct o; [|naive_solver].
  split; [|done]. intros Hn. destruct Hn. by eexists.
Qed.
Lemma is_set_true o : is_set o = true ↔ o ≠ None.
Proof.
  unfold is_set. rewrite bool_decide_eq_true. destruct o; [by split|].
  split; [by intros [? ?]|done].
Qed.
Ltac solve_forwards :=
  intros r Hp Hok; cbn in Hok |- *;
  unfold usable, other_session_of, live_session_of, challenge_open, unused_of in Hp; split_bool;
  repeat match goal with H : is_set _ = false |- _ => apply is_set_false in H end;
  unfold tok_later, ses_later, lch_later, ech_later, ech_ok in *; destruct_and?;
  split_and!; try done; try lia; try (by apply sticky_unset).
#[export] Instance consume_token_forwards now word : Forwards (usable now) (spent now word).
Proof. solve_forwards. Qed.
#[export] Instance supersede_forwards u now word : Forwards (unused_of u) (spent now word).
Proof. solve_forwards. Qed.
#[export] Instance supersede_own_forwards u now word :
  Forwards (λ t, String.eqb (tok_userId t) u && negb (is_set (tok_usedAt t))) (spent now word).
Proof. solve_forwards. Qed.
#[export] Instance close_forwards u now word :
  Forwards (challenge_open u) (challenge_closed now word).
Proof. solve_forwards. Qed.
#[export] Instance revoke_own_forwards u now reason :
  Forwards (live_session_of u) (revoked now reason).
Proof. solve_forwards. Qed.
#[export] Instance revoke_others_forwards u s now reason :
  Forwards (other_session_of u s) (revoked now reason).
Proof. solve_forwards. Qed.
#[export] Instance revoke_forwards now reason :
  Forwards (λ s, negb (is_set (ses_revokedAt s))) (revoked now reason).
Proof. solve_forwards. Qed.
#[export] Instance seen_forwards token u now p : Forwards p (seen token u now).
Proof. intros s _ _. unfold seen. destruct (_ && _); split; try done; by split_and!. Qed.
#[export] Instance verified_forwards now :
  Forwards (λ _, true) (λ s, s <| ses_twoFactorVerifiedAt := Some now |>).
Proof. solve_forwards. Qed.
#[export] Instance use_challenge_forwards now :
  Forwards (λ c, negb (is_set (lch_usedAt c)) && (now <? lch_expiresAt c))
           (λ c, c <| lch_usedAt := Some now |>).
Proof. solve_forwards. Qed.
#[export] Instance use_challenges_forwards u now :
  Forwards (λ c, String.eqb (lch_userId c) u && negb (is_set (lch_usedAt c)))
           (λ c, c <| lch_usedAt := Some now |>).
Proof. solve_forwards. Qed.
#[export] Instance count_failure_forwards :
  Forwards (λ c, negb (is_set (lch_usedAt c)) && (lch_failedAttempts c <? 5))
           (λ c, c <| lch_failedAttempts := lch_failedAttempts c + 1 |>).
Proof. solve_forwards. Qed.

(** *** Deleted rows *)
Section mortal_updates.
Context {R : Type} (P : relation R) `{!PreOrder P} (rid : R → string).
Context (P_rid : ∀ r r', P r r' → rid r' = rid r) (m : World → gmap string R).

Lemma mortal_map w w' (g : string → R → R) :
  uuids w' = uuids w → (drawn w <= drawn w')%nat →
  (∀ i, m w' !! i = g i <$> m w !! i) → (∀ i r, m w !! i = Some r → P r (g i r)) →
  mortal_ok rid m w → mortal_ok rid m w' ∧ mortal_later P m w w'.
Proof using P_rid.
  intros Hu Hd Hm Hg Hok.
  assert (∀ i, drawn_before w i → drawn_before w' i) as Hdr
    by (intros i; apply drawn_before_mono; [done|lia]).
  split; [|split].
  - intros i r'. rewrite Hm. intros (r&Hr&->)%fmap_Some. destruct (Hok _ _ Hr) as [Hr1 ?].
    split; [|auto]. by rewrite (P_rid _ _ (Hg _ _ Hr)).
  - intros i [Hi ?]. split; [by rewrite Hm, Hi|auto].
  - intros i r Hr. right. exists (g i r). rewrite Hm, Hr. eauto.
Qed.
Lemma mortal_delete w w' :
  uuids w' = uuids w → (drawn w <= drawn w')%nat →
  (∀ i, m w' !! i = None ∨ m w' !! i = m w !! i) →
  mortal_ok rid m w → mortal_ok rid m w' ∧ mortal_later P m w w'.
Proof using PreOrder0.
  intros Hu Hd Hm Hok.
  assert (∀ i, drawn_before w i → drawn_before w' i) as Hdr
    by (intros i; apply drawn_before_mono; [done|lia]).
  split; [|split].
  - intros i r Hr. destruct (Hm i) as [E|E]; [congruence|]. rewrite E in Hr.
    destruct (Hok _ _ Hr). auto.
  - intros i [Hi ?]. split; [|auto]. by destruct (Hm i) as [-> | ->].
  - intros i r Hr. destruct (Hm i) as [E|E].
    + left. split; [done|]. destruct (Hok _ _ Hr). auto.
    + right. exists r. by rewrite E.
Qed.
Lemma mortal_insert w w' id r :
  (∀ j k, uuids w j = uuids w k → j = k) →
  uuids w' = uuids w → drawn w' = S (drawn w) → id = uuids w (drawn w) →
  m w' = <[id := r]> (m w) → m w !! id = None → rid r = id →
  mortal_ok rid m w → mortal_ok rid m w' ∧ mortal_later P m w w'.
Proof using PreOrder0.
  intros Hi Hu Hd Hid Hm Hnone Hrid Hok.
  assert (∀ i, drawn_before w i → drawn_before w' i) as Hdr
    by (intros i; apply drawn_before_mono; [done|lia]).
  split; [|split].
  - intros i s. rewrite Hm, lookup_insert_Some. 
    intros [[<- <-]|[_ Hs]]; [split; [done|]|destruct (Hok _ _ Hs); auto].
    exists (drawn w). rewrite Hu, Hd. split; [lia|done].
  - intros i [Hn Hb]. split; [|auto]. rewrite Hm, lookup_insert_ne; [done|].
    intros ->. destruct Hb as (k&Hk&E). rewrite Hid in E. apply Hi in E. lia.
  - intros i s Hs. right. exists s. rewrite Hm, lookup_insert_ne; [done|congruence].
Qed.
End mortal_updates.

Lemma totp_rid c c' : totp_later c c' → totp_id c' = totp_id c.
Proof. by intros []. Qed.
Lemma rec_rid c c' : rec_later c c' → rec_id c' = rec_id c.
Proof. by intros []. Qed.
(** A write of the credentials, or of the recovery codes, alone. *)
Lemma mortal_advances w w' :
  auth_ok w → tables_ok (authTables (db w')) → tables_later (authTables (db w)) (authTables (db w')) →
  uuids w' = uuids w → (drawn w <= drawn w')%nat →
  mortal_ok totp_id totp_of w' ∧ mortal_later totp_later totp_of w w' →
  mortal_ok rec_id codes_of w' ∧ mortal_later rec_later codes_of w w' →
  auth_ok w' ∧ advance w w'.
Proof.
  intros (Hi&_&_&_) Ht Hl Hu Hd [? ?] [? ?]. split; split_and!; auto. by rewrite Hu.
Qed.
Lemma mortal_same {R} (P : relation R) `{!PreOrder P} (rid : R → string)
    (m : World → gmap string R) w w' :
  uuids w' = uuids w → (drawn w <= drawn w')%nat → m w' = m w → mortal_ok rid m w →
  mortal_ok rid m w' ∧ mortal_later P m w w'.
Proof. intros Hu Hd Hm. apply (mortal_delete P rid m); auto. intros i. right. by rewrite Hm. Qed.
Lemma update_one_lookup {R} (m : gmap string R) id p f i :
  snd (update_one m id p f) !! i =
    (λ r, if bool_decide (i = id) && p r then f r else r) <$> m !! i.
Proof.
  unfold update_one. destruct (m !! id) as [r|] eqn:Hr.
  - destruct (p r) eqn:Hp; simpl.
    + destruct (decide (i = id)) as [->|Hi].
      * rewrite lookup_insert_eq, Hr. simpl. by rewrite bool_decide_true, Hp.
      * rewrite lookup_insert_ne, bool_decide_false by done. by destruct (m !! i).
    + destruct (decide (i = id)) as [->|Hi].
      * rewrite Hr. simpl. by rewrite Hp, andb_false_r.
      * rewrite bool_decide_false by done. by destruct (m !! i).
  - simpl. destruct (decide (i = id)) as [->|Hi]; [by rewrite Hr|].
    rewrite bool_decide_false by done. by destruct (m !! i).
Qed.
Ltac split_tables := match goal with H : tables_ok _ |- _ => destruct H as (?&?&?&?&?) end.
Ltac same_tables := unfold tables_later; simpl; split_and!; reflexivity.
Lemma update_totp_advances id p f :
  (∀ c, p c = true → totp_later c (f c)) → Advances (update_row_if totpCredentials id p f).
Proof.
  intros Hf w Hw. rewrite update_row_if_run. simpl. pose proof Hw as (_&Ht&H1&H2).
  apply mortal_advances; auto; [same_tables| |].
  - eapply (mortal_map totp_later totp_id totp_rid totp_of _ _
      (λ i c, if bool_decide (i = id) && p c then f c else c)); auto.
    + intros i. apply update_one_lookup.
    + intros i c _. destruct (bool_decide _); [|done]. cbn [andb]. destruct (p c) eqn:?; auto.
      done.
  - by apply mortal_same; try apply _.
Qed.
Lemma update_code_advances id p f :
  (∀ c, p c = true → rec_later c (f c)) → Advances (update_row_if recoveryCodes id p f).
Proof.
  intros Hf w Hw. rewrite update_row_if_run. simpl. pose proof Hw as (_&Ht&H1&H2).
  apply mortal_advances; auto; [same_tables| |].
  - by apply mortal_same; try apply _.
  - eapply (mortal_map rec_later rec_id rec_rid codes_of _ _
      (λ i c, if bool_decide (i = id) && p c then f c else c)); auto.
    + intros i. apply update_one_lookup.
    + intros i c _. destruct (bool_decide _); [|done]. cbn [andb]. destruct (p c) eqn:?; auto.
      done.
Qed.
Lemma delete_rows_lookup {R} p (m : gmap string R) i :
  delete_rows p m !! i = None ∨ delete_rows p m !! i = m !! i.
Proof.
  unfold delete_rows. rewrite map_lookup_filter. destruct (m !! i) as [r|]; [|by left].
  simpl. case_guard; [by right|by left].
Qed.
#[export] Instance delete_codes_advances p : Advances (delete_all recoveryCodes p).
Proof.
  intros w Hw. pose proof Hw as (_&Ht&H1&H2).
  apply mortal_advances; auto; [same_tables| |].
  - by apply mortal_same; try apply _.
  - apply mortal_delete; auto; [apply _|]. intros i. apply delete_rows_lookup.
Qed.
#[export] Instance delete_credential_advances id : Advances (delete_credential id).
Proof.
  intros w Hw. pose proof Hw as (_&Ht&H1&H2).
  unfold delete_credential, read_auth, read, gets, mbind, M_bind.
  unfold require, lift, throw_unless. destruct (bool_decide _); [|by split]. simpl.
  apply mortal_advances; auto; [same_tables| |].
  - apply mortal_delete; auto; [apply _|]. intros i. unfold totp_of. simpl.
    rewrite lookup_delete. case_decide; auto.
  - apply mortal_delete; auto; [apply _|]. intros i. apply delete_rows_lookup.
Qed.
(** A row inserted under an identifier that was just drawn. *)
Lemma fresh_code_advances c h : Advances (id ← random_uuid;
  insert_row recoveryCodes rec_codeHash id (MkRecoveryCode id c h None)).
Proof.
  intros w Hw. pose proof Hw as (Hi&Ht&H1&H2).
  unfold random_uuid, insert_row, read_auth, read, gets, mbind, M_bind.
  destruct (bool_decide _ && _) eqn:E; unfold require, lift, throw_unless; simpl.
  - split_bool. apply mortal_advances; auto; [same_tables|simpl; lia| |].
    + apply mortal_same; auto; [apply _|simpl; lia].
    + by eapply mortal_insert; eauto; try apply _.
  - apply undisturbed_advances; [|done]. split_and!; simpl; auto.
Qed.
Lemma fresh_credential_advances u s v : Advances (id ← random_uuid;
  _ ← insert_row totpCredentials totp_userId id (MkTotpCredential id u s v None None); mret id).
Proof.
  intros w Hw. pose proof Hw as (Hi&Ht&H1&H2).
  unfold random_uuid, insert_row, read_auth, read, gets, mbind, M_bind.
  destruct (bool_decide _ && _) eqn:E; unfold require, lift, throw_unless; simpl.
  - split_bool. apply mortal_advances; auto; [same_tables|simpl; lia| |].
    + by eapply mortal_insert; eauto; try apply _.
    + apply mortal_same; auto; [apply _|simpl; lia].
  - apply undisturbed_advances; [|done]. split_and!; simpl; auto.
Qed.

(** ** The transactions of the services *)
#[global] Typeclasses Opaque insert_row update_row_if update_row update_all delete_all
  write_auth read_auth put_user create_user update_user_if update_user create_customer
  delete_credential put_profile create_profile create_codes consume_step consume_recovery
  consume_factor encrypt_for_delivery create_token createSession write_session
  register_persist resend_tx consume_token verifyEmail_tx lockCustomer login_customer_tx
  login_challenge_tx updatePreferences_tx revoke_session_tx touch_session startSupport_tx
  endSupport_tx reset_request_tx reset_confirm_tx revoke_by_user_tx twoFactor_tx
  count_failure_tx disable_tx regenerate_tx enable_tx invalidateInvitation queue_message
  queueInvitation createStaff_tx updateStaff_tx resendInvitation_tx upsert_credential
  beginSetup_tx emailLogin_tx.
(** Random values and hashes write no table. *)
Class AuthCryptoLaws `{AuthCrypto} : Prop :=
  { generate_quiet :: Quiet generate;
    random_int_quiet n :: Quiet (random_int n);
    random_bytes_quiet n :: Quiet (random_bytes n);
    random_iv_quiet :: Quiet random_iv;
    argon2_quiet password :: Quiet (argon2_hash password) }.

#[export] Instance create_outbox_advances a b c k p : Advances (create_outbox a b c k p).
Proof.
  unfold create_outbox, put_outbox. repeat (apply advances_bind; [apply _|intros ?]).
  by apply quiet_advances, quiet_write.
Qed.
#[export] Instance put_user_quiet i u : Quiet (put_user i u).
Proof. by apply quiet_write. Qed.
#[export] Instance create_user_advances u : Advances (create_user u).
Proof. unfold create_user. apply _. Qed.
#[export] Instance update_user_if_advances id p f : Advances (update_user_if id p f).
Proof. unfold update_user_if. apply _. Qed.
#[export] Instance update_user_advances id f : Advances (update_user id f).
Proof. unfold update_user. apply _. Qed.
#[export] Instance create_customer_advances id c : Advances (create_customer id c).
Proof.
  unfold create_customer. repeat (apply advances_bind; [apply _|intros ?]).
  by apply quiet_advances, quiet_write.
Qed.
Lemma quiet_write_auth f : (∀ a, followed (f a) = followed a) → Quiet (write_auth f).
Proof. intros Hf. apply quiet_write. intros d. apply Hf. Qed.
#[export] Instance put_profile_quiet p : Quiet (put_profile p).
Proof. by apply quiet_write_auth. Qed.
#[export] Instance create_profile_advances p : Advances (create_profile p).
Proof.
  unfold create_profile, insert_row. repeat (apply advances_bind; [apply _|intros ?]).
  by apply quiet_advances, quiet_write_auth.
Qed.
#[export] Instance insert_support_advances id s :
  Advances (insert_row supportSessions sup_tokenHash id s).
Proof.
  unfold insert_row. repeat (apply advances_bind; [apply _|intros ?]).
  by apply quiet_advances, quiet_write_auth.
Qed.
#[export] Instance update_support_advances id p f :
  Advances (update_row_if supportSessions id p f).
Proof.
  intros w Hw. rewrite update_row_if_run. apply undisturbed_advances; [|done]. by split_and!.
Qed.
#[export] Instance insert_session_advances s :
  Advances (insert_row authSessions ses_tokenHash (ses_id s) s).
Proof. exact (insert_row_advances authSessions (ses_id s) s eq_refl I). Qed.
#[export] Instance insert_login_challenge_advances id u h e ip ua :
  Advances (insert_row loginChallenges lch_tokenHash id (MkLoginChallenge id u h e None 0 ip ua)).
Proof.
  exact (insert_row_advances loginChallenges id (MkLoginChallenge id u h e None 0 ip ua) eq_refl I).
Qed.
#[export] Instance insert_email_challenge_advances id u h b c ip e :
  Advances (insert_row emailChallenges ech_tokenHash id (MkEmailChallenge id u h b c ip e None 0)).
Proof.
  refine (insert_row_advances emailChallenges id
            (MkEmailChallenge id u h b c ip e None 0) eq_refl _). by split.
Qed.
#[export] Instance create_codes_advances `{AuthCrypto} c codes : Advances (create_codes c codes).
Proof. unfold create_codes. apply advances_for_each. intros code. apply fresh_code_advances. Qed.
#[export] Instance consume_step_advances c s : Advances (consume_step c s).
Proof.
  unfold consume_step. apply advances_bind; [|intros ?; apply _].
  apply update_totp_advances. intros t Hs. split; [done|]. intros _. simpl. split_and!; auto.
  unfold step_unused in Hs. destruct (totp_lastUsedTimeStep t); [lia|done].
Qed.
#[export] Instance consume_recovery_advances r now : Advances (consume_recovery r now).
Proof.
  unfold consume_recovery. apply advances_bind; [|intros ?; apply _].
  apply update_code_advances. intros t Hs. split; [done|]. split_bool.
  apply is_set_false in Hs. by apply sticky_unset.
Qed.
#[export] Instance consume_factor_advances c s r now : Advances (consume_factor c s r now).
Proof. unfold consume_factor. apply _. Qed.

Section transactions.
Context `{ZodFormats} `{Sha256} `{AuthCryptoLaws} (ttl : AuthTtl).

#[export] Instance encrypt_advances t : Advances (encrypt_for_delivery t).
Proof using Type*. unfold encrypt_for_delivery, encrypt_token, seal. apply _. Qed.
Lemma create_token_advances (table : AuthTables → gmap string ActionToken) `{!Setter table, !Slot table} id u t e :
  Advances (create_token table id u t e).
Proof using Type*.
  unfold create_token. apply advances_bind; [apply _|intros c].
  apply advances_bind; [apply _|intros now].
  exact (insert_row_advances table id (MkActionToken id u (hashOpaqueToken t) c e None now)
           eq_refl I).
Qed.
#[local] Hint Extern 3 (Advances (create_token _ _ _ _ _)) =>
  eapply create_token_advances : typeclass_instances.
#[export] Instance createSession_advances u ctx now tf m r :
  Advances (createSession ttl u ctx now tf m r).
Proof using Type*. unfold createSession, write_session. apply _. Qed.
#[export] Instance write_session_advances u s ctx m : Advances (write_session u s ctx m).
Proof using Type*. unfold write_session. apply _. Qed.
#[export] Instance register_persist_advances i h u c t tok e ctx a :
  Advances (register_persist i h u c t tok e ctx a).
Proof using Type*. unfold register_persist. apply _. Qed.
#[export] Instance resend_tx_advances c r a ctx : Advances (resend_tx ttl c r a ctx).
Proof using Type*. unfold resend_tx. apply _. Qed.
Lemma consume_token_advances (table : AuthTables → gmap string ActionToken) `{!Setter table, !Slot table} id now :
  Advances (consume_token table id now).
Proof using Type*. unfold consume_token. apply _. Qed.
#[local] Hint Extern 3 (Advances (consume_token _ _ _)) =>
  eapply consume_token_advances : typeclass_instances.
#[export] Instance verifyEmail_tx_advances h now ctx : Advances (verifyEmail_tx h now ctx).
Proof using Type*. unfold verifyEmail_tx. apply _. Qed.
#[export] Instance lockCustomer_advances u : Advances (lockCustomer u).
Proof using Type*. unfold lockCustomer. apply _. Qed.
#[export] Instance login_customer_advances u h ctx : Advances (login_customer_tx ttl u h ctx).
Proof using Type*. unfold login_customer_tx, issue_email_challenge. apply _. Qed.
#[export] Instance login_challenge_advances u t now ctx :
  Advances (login_challenge_tx u t now ctx).
Proof using Type*. unfold login_challenge_tx. apply _. Qed.
#[export] Instance preferences_advances a u i : Advances (updatePreferences_tx a u i).
Proof using Type*.
  unfold updatePreferences_tx. repeat (apply advances_bind; [apply _|intros ?]).
  apply advances_bind; [|intros ?; apply _]. apply quiet_advances. by apply quiet_write_auth.
Qed.
#[export] Instance revoke_session_advances s now r : Advances (revoke_session_tx s now r).
Proof using Type*. unfold revoke_session_tx. apply _. Qed.
#[export] Instance touch_advances t u s now : Advances (touch_session t u s now).
Proof using Type*. unfold touch_session. apply _. Qed.
#[export] Instance startSupport_advances a c r t e ctx :
  Advances (startSupport_tx a c r t e ctx).
Proof using Type*. unfold startSupport_tx. apply _. Qed.
#[export] Instance endSupport_advances a s ctx : Advances (endSupport_tx a s ctx).
Proof using Type*. unfold endSupport_tx. apply _. Qed.
#[export] Instance reset_request_advances u i t now ctx :
  Advances (reset_request_tx ttl u i t now ctx).
Proof using Type*. unfold reset_request_tx. apply _. Qed.
#[export] Instance reset_confirm_advances t h now ctx : Advances (reset_confirm_tx t h now ctx).
Proof using Type*. unfold reset_confirm_tx. apply _. Qed.
#[export] Instance revoke_by_user_advances a s now ctx :
  Advances (revoke_by_user_tx a s now ctx).
Proof using Type*. unfold revoke_by_user_tx. apply _. Qed.
#[export] Instance twoFactor_advances r c s re rem now ctx :
  Advances (twoFactor_tx ttl r c s re rem now ctx).
Proof using Type*. unfold twoFactor_tx. apply _. Qed.
#[export] Instance count_failure_advances r ctx : Advances (count_failure_tx r ctx).
Proof using Type*. unfold count_failure_tx. apply _. Qed.
#[export] Instance disable_advances u c now ctx : Advances (disable_tx u c now ctx).
Proof using Type*. unfold disable_tx. apply _. Qed.
#[export] Instance regenerate_advances u c l ctx : Advances (regenerate_tx u c l ctx).
Proof using Type*. unfold regenerate_tx. apply _. Qed.
#[export] Instance enable_advances a c s l now ctx : Advances (enable_tx a c s l now ctx).
Proof using Type*.
  unfold enable_tx. apply advances_bind; [|intros ?; apply _].
  apply update_totp_advances. intros t Hs. split_bool. apply is_set_false in Hs.
  split; [done|]. by rewrite Hs.
Qed.
#[export] Instance invalidate_advances u now : Advances (invalidateInvitation u now).
Proof using Type*. unfold invalidateInvitation. apply _. Qed.
Lemma queue_message_advances (table : AuthTables → gmap string ActionToken) `{!Setter table, !Slot table} u p e x :
  Advances (queue_message table u p e x).
Proof using Type*. unfold queue_message. apply _. Qed.
#[local] Hint Extern 3 (Advances (queue_message _ _ _ _ _)) =>
  eapply queue_message_advances : typeclass_instances.
#[export] Instance queueInvitation_advances u : Advances (queueInvitation ttl u).
Proof using Type*. unfold queueInvitation. apply _. Qed.
#[export] Instance createStaff_advances i a ctx : Advances (createStaff_tx ttl i a ctx).
Proof using Type*. unfold createStaff_tx, lockAndAuthorize, staff_user, staff_audit. apply _. Qed.
#[export] Instance updateStaff_advances u i a ctx : Advances (updateStaff_tx u i a ctx).
Proof using Type*. unfold updateStaff_tx, lockAndAuthorize, staff_user, staff_audit. apply _. Qed.
#[export] Instance resendInvitation_advances u a ctx :
  Advances (resendInvitation_tx ttl u a ctx).
Proof using Type*. unfold resendInvitation_tx, lockAndAuthorize, staff_audit. apply _. Qed.
End transactions.

(** *** Transactions that depend on what they read *)
(** [m] keeps the protocol when it is run in [w]. *)
Definition keeps_protocol {A} (m : Io A) (w : World) : Prop :=
  auth_ok (snd (m w)) ∧ advance w (snd (m w)).
Lemma protocol_bind {A B} (m : Io A) (k : A → Io B) w :
  Advances m → auth_ok w →
  (∀ a w', m w = (Ok a, w') → auth_ok w' → keeps_protocol (k a) w') →
  keeps_protocol (m ≫= k) w.
Proof.
  intros Hm Hw Hk. unfold keeps_protocol, mbind, M_bind. destruct (Hm w Hw) as [Hok Hadv].
  destruct (m w) as [[a|e] w1] eqn:E; [|done]. destruct (Hk a w1 eq_refl Hok) as [Hok' Hadv'].
  split; [done|]. by etrans.
Qed.
(** ... and what follows keeps it wherever it is run. *)
Lemma protocol_bind_kept {A B} (m : Io A) (k : A → Io B) w :
  keeps_protocol m w → (∀ a, Advances (k a)) → keeps_protocol (m ≫= k) w.
Proof.
  intros [Hok Hadv] Hk. unfold keeps_protocol, mbind, M_bind.
  destruct (m w) as [[a|e] w1]; [|done]. destruct (Hk a w1 Hok) as [Hok' Hadv'].
  split; [done|]. by etrans.
Qed.
Lemma update_row_run {R} (table : AuthTables → gmap string R) `{!Setter table} id f r w :
  table (authTables (db w)) !! id = Some r →
  update_row table id f w =
    (Ok tt, w <| db := db w <| authTables := authTables (db w)
                   <| table := <[id := f r]> (table (authTables (db w))) |> |> |>).
Proof.
  intros Hr. unfold update_row, mbind, M_bind. rewrite update_row_if_run.
  unfold update_one. by rewrite Hr.
Qed.
Lemma override_moves {R} `{Tracked R} (m : gmap string R) id f r :
  m !! id = Some r → later r (f r) → (row_ok r → row_ok (f r)) → moves m (<[id := f r]> m).
Proof.
  intros Hr Hl Ho. apply (map_moves (λ i s, if decide (i = id) then f s else s)).
  - intros i. destruct (decide (i = id)) as [->|Hi].
    + by rewrite lookup_insert_eq, Hr.
    + rewrite lookup_insert_ne by done. by destruct (m !! i).
  - intros i s Hs Hok. destruct (decide (i = id)) as [->|Hi]; [|done].
    rewrite Hr in Hs. apply (inj Some) in Hs as ->. auto.
Qed.
Lemma row_protocol {R} `{Tracked R} (table : AuthTables → gmap string R)
    `{!Setter table, !Slot table} id f r w :
  auth_ok w → table (authTables (db w)) !! id = Some r → later r (f r) →
  (row_ok r → row_ok (f r)) → keeps_protocol (update_row table id f) w.
Proof.
  intros Hw Hr Hl Ho. unfold keeps_protocol. rewrite (update_row_run _ _ _ _ _ Hr).
  apply tables_step_advances; [|done]. apply slot. by apply override_moves.
Qed.
Lemma challenge_row h w c :
  auth_ok w → find_unique (emailChallenges (authTables (db w))) ech_tokenHash h = Some c →
  emailChallenges (authTables (db w)) !! ech_id c = Some c.
Proof.
  intros (_&(_&_&_&_&[Hk _])&_) Hf. apply find_unique_Some in Hf as (i&Hi&_).
  destruct (Hk _ _ Hi) as [E _]. cbn in E. by rewrite E.
Qed.
Lemma wrong_code_later c now :
  ech_usedAt c = None → ech_failedAttempts c < 5 →
  ech_later c (wrong_code now (ech_failedAttempts c) c) ∧
  (ech_ok c → ech_ok (wrong_code now (ech_failedAttempts c) c)).
Proof.
  intros Hu H5. unfold wrong_code, ech_later, ech_ok.
  destruct (Z.eqb_spec (ech_failedAttempts c) 4); cbn; split; try intros []; split_and!;
    done || lia || by apply sticky_unset.
Qed.
Lemma closed_later c now word :
  ech_usedAt c = None →
  ech_later c (challenge_closed now word c) ∧ (ech_ok c → ech_ok (challenge_closed now word c)).
Proof.
  intros Hu. unfold ech_later, ech_ok. cbn. split; try intros []; split_and!;
    done || lia || by apply sticky_unset.
Qed.
Lemma challenge_unused `{Sha256} u c now ctx :
  email_challenge_valid u c now ctx = true → ech_usedAt c = None ∧ ech_failedAttempts c < 5.
Proof.
  unfold email_challenge_valid. intros Hv. split_bool.
  match goal with H : is_set _ = false |- _ => apply is_set_false in H end. by split.
Qed.

Section reading.
Context `{ZodFormats} `{Sha256} `{AuthCryptoLaws} (ttl : AuthTtl).

Lemma lockCustomer_run u w : lockCustomer u w = (Ok (locked_customer u (db w)), w).
Proof using Type. done. Qed.
#[export] Instance emailLogin_advances u h code ctx : Advances (emailLogin_tx ttl u h code ctx).
Proof using Type*.
  intros w Hw. fold (keeps_protocol (emailLogin_tx ttl u h code ctx) w). unfold emailLogin_tx.
  apply protocol_bind; [apply _|done|]. intros found w1 E _.
  rewrite lockCustomer_run in E. injection E as <- <-.
  apply protocol_bind; [apply _|done|]. intros row w1 E _.
  apply read_Ok in E as [-> ->]. apply protocol_bind; [apply _|done|].
  intros now w1 E Hw1. apply new_date_Ok in E as [-> ->].
  destruct (locked_customer u (db w)) as [user|]; [|by split].
  destruct (find_unique _ _ _) as [c|] eqn:Hc; [|by split].
  pose proof (challenge_row h w c Hw Hc) as Hrow.
  destruct (email_challenge_valid user c _ ctx) eqn:Hv; cbn [negb]; [|by split].
  apply challenge_unused in Hv as [Hu H5].
  apply protocol_bind; [apply _|done|]. intros expected w1 E _. apply lift_Ok in E as [_ ->].
  destruct (negb _).
  - apply protocol_bind_kept; [|intros; apply _].
    destruct (wrong_code_later c (clock w (ticks w)) Hu H5).
    by eapply (row_protocol emailChallenges).
  - apply protocol_bind_kept; [|intros; apply _].
    destruct (closed_later c (clock w (ticks w)) "consumed" Hu).
    by eapply (row_protocol emailChallenges).
Qed.

Lemma credential_row u w c :
  auth_ok w → credential_of u (authTables (db w)) = Some c →
  totpCredentials (authTables (db w)) !! totp_id c = Some c.
Proof using Type.
  intros (_&_&Hk&_) Hf. apply find_unique_Some in Hf as (i&Hi&_).
  destruct (Hk _ _ Hi) as [E _]. by rewrite E.
Qed.
Lemma upsert_protocol u e w existing :
  auth_ok w → credential_of u (authTables (db w)) = existing → totp_enabled existing = false →
  keeps_protocol (upsert_credential u e existing) w.
Proof using Type.
  intros Hw He Hn. unfold upsert_credential. destruct existing as [c|].
  - pose proof (credential_row u w c Hw He) as Hrow.
    apply protocol_bind_kept; [|intros; apply _].
    unfold keeps_protocol. assert (∀ f, update_row totpCredentials (totp_id c) f w =
      (count ← update_row_if totpCredentials (totp_id c) (λ t, negb (is_set (totp_enabledAt t))) f;
       require (count =? 1) RecordNotFound) w) as ->.
    { intros f. unfold update_row, mbind, M_bind. rewrite !update_row_if_run.
      unfold update_one. rewrite Hrow. unfold totp_enabled, is_set in *. by rewrite Hn. }
    apply protocol_bind_kept; [|intros; apply _].
    apply (update_totp_advances (totp_id c)); [|done]. intros t Ht. split_bool.
    apply is_set_false in Ht. split; [done|]. by rewrite Ht.
  - by apply (fresh_credential_advances u e keyVersion).
Qed.
#[export] Instance beginSetup_advances u e ctx : Advances (beginSetup_tx u e ctx).
Proof using Type*.
  intros w Hw. fold (keeps_protocol (beginSetup_tx u e ctx) w). unfold beginSetup_tx.
  apply protocol_bind; [apply _|done|]. intros existing w1 E _. apply read_Ok in E as [-> ->].
  apply protocol_bind; [apply _|done|]. intros ? w1 E _. apply require_Ok in E as [Hn ->].
  apply negb_true_iff in Hn.
  apply protocol_bind_kept; [by apply (upsert_protocol u)|intros; apply _].
Qed.
End reading.

(** ** Histories

    The atomic steps of the services: their transactions, run with whatever was read
    before, and the updates they run on their own. *)
Section histories.
Context `{ZodFormats} `{Sha256} `{AuthCrypto} (ttl : AuthTtl).

Inductive atomic : ∀ {A : Type}, Io A → Prop :=
| at_register i h u c t tok e ctx a : atomic (transaction (register_persist i h u c t tok e ctx a))
| at_register_nested i h u c t tok e ctx a : atomic (register_persist i h u c t tok e ctx a)
| at_resend c r a ctx : atomic (transaction (resend_tx ttl c r a ctx))
| at_verify h now ctx : atomic (transaction (verifyEmail_tx h now ctx))
| at_login_customer u h ctx : atomic (transaction (login_customer_tx ttl u h ctx))
| at_login_challenge u t now ctx : atomic (transaction (login_challenge_tx u t now ctx))
| at_login_session u s ctx m : atomic (transaction (write_session u s ctx m))
| at_preferences a u i : atomic (transaction (updatePreferences_tx a u i))
| at_email_login u h code ctx : atomic (transaction (emailLogin_tx ttl u h code ctx))
| at_revoke s now r : atomic (transaction (revoke_session_tx s now r))
| at_touch t u s now : atomic (touch_session t u s now)
| at_support a c r t e ctx : atomic (transaction (startSupport_tx a c r t e ctx))
| at_end_support a s ctx : atomic (transaction (endSupport_tx a s ctx))
| at_reset_request u i t now ctx : atomic (transaction (reset_request_tx ttl u i t now ctx))
| at_reset_confirm t h now ctx : atomic (transaction (reset_confirm_tx t h now ctx))
| at_logout auth now ctx : atomic (transaction
    (_ ← update_row_if authSessions (auth_sessionId auth) (live_session_of (auth_userId auth))
           (revoked now "LOGOUT");
     log_activity (auth_log (Some (auth_userId auth)) "AUTH_LOGOUT" "AUTH_SESSION"
                     (Some (auth_sessionId auth)) ctx JNull)))
| at_logout_all auth now ctx : atomic (transaction
    (_ ← update_all authSessions (live_session_of (auth_userId auth)) (revoked now "LOGOUT_ALL");
     log_activity (auth_log (Some (auth_userId auth)) "AUTH_LOGOUT_ALL" "USER"
                     (Some (auth_userId auth)) ctx JNull)))
| at_user_revoke a s now ctx : atomic (transaction (revoke_by_user_tx a s now ctx))
| at_two_factor r c s re rem now ctx :
    atomic (transaction (twoFactor_tx ttl r c s re rem now ctx))
| at_failure r ctx : atomic (transaction (count_failure_tx r ctx))
| at_setup u e ctx : atomic (transaction (beginSetup_tx u e ctx))
| at_enable a c s l now ctx : atomic (transaction (enable_tx a c s l now ctx))
| at_consume_step c s : atomic (consume_step c s)
| at_consume_recovery r now : atomic (consume_recovery r now)
| at_disable u c now ctx : atomic (transaction (disable_tx u c now ctx))
| at_regenerate u c l ctx : atomic (transaction (regenerate_tx u c l ctx))
| at_create_staff i a ctx : atomic (transaction (createStaff_tx ttl i a ctx))
| at_update_staff u i a ctx : atomic (transaction (updateStaff_tx u i a ctx))
| at_resend_staff u a ctx : atomic (transaction (resendInvitation_tx ttl u a ctx)).
(** Everything else in the program leaves the followed tables alone. *)
Inductive auth_step (w : World) : World → Prop :=
| step_atomic A (m : Io A) : atomic m → auth_step w (snd (m w))
| step_other w' : undisturbed w w' → auth_step w w'.
Definition history : relation World := rtc auth_step.

Lemma atomic_advances {A} (m : Io A) `{!AuthCryptoLaws} : atomic m → Advances m.
Proof using Type. intros []; apply _. Qed.
Lemma history_advances `{!AuthCryptoLaws} w w' :
  history w w' → auth_ok w → auth_ok w' ∧ advance w w'.
Proof using Type.
  induction 1 as [w|w w1 w2 Hs _ IH]; intros Hw; [by split|].
  assert (auth_ok w1 ∧ advance w w1) as [Hw1 Ha].
  { destruct Hs as [A m Hm|w1 Hq].
    - by apply (atomic_advances m Hm).
    - by apply undisturbed_advances. }
  destruct (IH Hw1). split; [done|]. by etrans.
Qed.

(** *** The methods of the services are histories *)
Class Runs {A} (m : Io A) : Prop := runs : ∀ w, history w (snd (m w)).
Lemma atomic_runs {A} (m : Io A) : atomic m → Runs m.
Proof using Type. intros Hm w. apply rtc_once. by constructor. Qed.
#[export] Instance quiet_runs {A} (m : Io A) : Quiet m → Runs m | 10.
Proof using Type. intros Hm w. apply rtc_once. by constructor. Qed.
#[export] Instance runs_bind {A B} (m : Io A) (k : A → Io B) :
  Runs m → (∀ a, Runs (k a)) → Runs (m ≫= k).
Proof using Type.
  intros Hm Hk w. unfold mbind, M_bind. specialize (Hm w).
  destruct (m w) as [[a|e] w1]; [|done]. unfold history. etrans; [done|apply Hk].
Qed.
#[export] Instance runs_catch {A} (m : Io A) (h : exn → Io A) :
  Runs m → (∀ e, Runs (h e)) → Runs (catch m h).
Proof using Type.
  intros Hm Hh w. unfold catch. specialize (Hm w).
  destruct (m w) as [[a|e] w1]; [done|]. unfold history. etrans; [done|apply Hh].
Qed.
#[export] Instance runs_when b (m : Io unit) : Runs m → Runs (when b m).
Proof using Type. destruct b; [done|]. intros _. apply (quiet_runs (mret tt)), _. Qed.
End histories.
#[global] Typeclasses Opaque transaction.
#[global] Hint Extern 2 (Runs _ (transaction _)) =>
  apply atomic_runs; constructor : typeclass_instances.
#[global] Hint Extern 2 (Runs _ (touch_session _ _ _ _)) =>
  apply atomic_runs; constructor : typeclass_instances.
#[global] Hint Extern 2 (Runs _ (consume_step _ _)) =>
  apply atomic_runs; constructor : typeclass_instances.
#[global] Hint Extern 2 (Runs _ (consume_recovery _ _)) =>
  apply atomic_runs; constructor : typeclass_instances.
#[global] Hint Extern 2 (Runs _ (register_persist _ _ _ _ _ _ _ _ _)) =>
  apply atomic_runs; constructor : typeclass_instances.
#[global] Hint Extern 4 (Runs _ (match ?x with _ => _ end)) => destruct x : typeclass_instances.

Section methods.
Context `{ZodFormats} `{Sha256} `{AuthCrypto} (ttl : AuthTtl).

(** The methods of AuthService and StaffService that write. *)
Inductive method : ∀ {A : Type}, Io A → Prop :=
| m_register i ctx a n : method (register ttl i ctx a n)
| m_resend c r a ctx : method (resendCustomerVerification ttl c r a ctx)
| m_verify t ctx : method (verifyEmail t ctx)
| m_login i ctx : method (login ttl i ctx)
| m_preferences a i : method (updateCustomerSecurityPreferences a i)
| m_email_login t c ctx : method (completeCustomerEmailLogin ttl t c ctx)
| m_authenticate t : method (authenticateSession ttl t)
| m_start_support a c r ctx : method (startCustomerSupportSession a c r ctx)
| m_support a s : method (authenticateCustomerSupportSession ttl a s)
| m_end_support a s ctx : method (endCustomerSupportSession a s ctx)
| m_two_factor t c r ctx : method (completeTwoFactorLogin ttl t c r ctx)
| m_reset_request e ctx : method (requestPasswordReset ttl e ctx)
| m_reset_confirm t p ctx : method (confirmPasswordReset t p ctx)
| m_logout a ctx : method (logout a ctx)
| m_logout_all a ctx : method (logoutAll a ctx)
| m_revoke a s ctx : method (revokeSession a s ctx)
| m_setup a p ctx : method (beginTwoFactorSetup a p ctx)
| m_enable a c ctx : method (enableTwoFactor a c ctx)
| m_disable a p c ctx : method (disableTwoFactor a p c ctx)
| m_regenerate a p c ctx : method (regenerateRecoveryCodes a p c ctx)
| m_create_staff i a ctx : method (createStaff ttl i a ctx)
| m_update_staff u i a ctx : method (updateStaff u i a ctx)
| m_resend_staff u a ctx : method (resendInvitation ttl u a ctx).

#[local] Instance create_recovery_runs `{!AuthCryptoLaws} n :
  Runs ttl (createRecoveryCodes random_bytes n).
Proof using Type. induction n; cbn [createRecoveryCodes]; apply _. Qed.
#[local] Instance audit_quiet a b c d e f : Quiet (audit_record a b c d e f).
Proof using Type. unfold audit_record. apply _. Qed.
#[local] Instance encrypt_runs `{!AuthCryptoLaws} t : Runs ttl (encrypt_for_delivery t).
Proof using Type. unfold encrypt_for_delivery, encrypt_token, seal. apply _. Qed.
#[local] Instance authenticate_runs `{!AuthCryptoLaws} t : Runs ttl (authenticateSession ttl t).
Proof using Type. unfold authenticateSession. apply _. Qed.
#[local] Instance confirm_factor_runs `{!AuthCryptoLaws} a p c : Runs ttl (confirm_factor a p c).
Proof using Type.
  unfold confirm_factor, verifyCurrentPassword, getEnabledCredential, consumeEnabledFactor,
    consume_factor. apply _.
Qed.
(** Every method is a sequence of atomic steps. *)
Lemma method_runs `{!AuthCryptoLaws} {A} (m : Io A) (Hm : method m) w :
  history ttl w (snd (m w)).
Proof using Type.
  revert w. change (Runs ttl m). destruct Hm;
    unfold register, resendCustomerVerification, verifyEmail, login, login_administrator,
      invalid_login, updateCustomerSecurityPreferences, completeCustomerEmailLogin,
      startCustomerSupportSession, authenticateCustomerSupportSession,
      endCustomerSupportSession, completeTwoFactorLogin, twoFactor_attempt,
      requestPasswordReset, confirmPasswordReset, logout, logoutAll, revokeSession,
      beginTwoFactorSetup, verifyCurrentPassword, generateSecret, encryptSecret, seal,
      enableTwoFactor, disableTwoFactor, regenerateRecoveryCodes, createStaff, updateStaff,
      resendInvitation; apply _.
Qed.
End methods.
