(* ===== verification/AuthSamples.v ===== *)
(** * Sample accounts

    Stand-ins for the cryptography of authentication, and the accounts on which the
    theorems are tried: an administrator who enrolls a second factor and logs in,
    and a customer. *)
From S2P Require Import Prelude JsString JsDate Json Money States AuthTables Database Invoices Payments HostingServices PanelOperations ServerProtocol Totp TotpProperties Authentication Sessions SecondFactor Staff AuthProtocol.

#[export] Existing Instance all_formats.
(** A digest that spells its text in binary digits. *)
#[export] Instance spelled_sha : Sha256 := spell.
(** Random values count what was drawn before; a password's hash shows it. *)
Definition next_bytes (n : nat) : Io (list Z) := λ w,
  (Ok (repeat (Z.of_nat (drawn w)) n), w <| drawn := S (drawn w) |>).
#[export] Instance sample_crypto : AuthCrypto :=
  {| generate := random_uuid;
     random_int n := mret (n - 1);
     random_bytes := next_bytes;
     random_iv := plain_iv;
     encipher_token := plain_cipher;
     decipher_token := plain_decipher;
     encipher_mfa := plain_cipher;
     decipher_mfa := plain_decipher;
     hmac_sha1 := sample_hmac;
     hmac_recovery := spell;
     argon2_hash password := mret ("argon2:" ++ password)%string;
     argon2_verify hash password := Some (String.eqb hash ("argon2:" ++ password)) |}.
#[export] Instance sample_laws : AuthCryptoLaws.
Proof.
  split; try (intros; apply _).
  intros n w. split_and!; simpl; [done..|lia].
Qed.
Definition sample_ttl : AuthTtl := MkAuthTtl 86400000 1800000 86400000.

(** ** Accounts *)
Definition sample_admin : User :=
  MkUser "admin" "admin@example.test" (Some "argon2:secret") UserRole.ADMIN UserStatus.ACTIVE
    (Some 1) None 1 1 None.
Definition second_admin : User :=
  MkUser "operator" "operator@example.test" None UserRole.ADMIN
    UserStatus.PENDING_VERIFICATION None None 1 1 None.
Definition sample_person : User :=
  MkUser "person" "person@example.test" (Some "argon2:word") UserRole.CUSTOMER
    UserStatus.ACTIVE (Some 1) None 1 1 None.
Definition sample_customer : Customer :=
  MkCustomer "CUS-1" None CustomerStatus.ACTIVE None "First" "Last" None "Street 1" None "City"
    None None "BD" None "person" "person@example.test" UserStatus.ACTIVE None (Some 1).
Definition sample_accounts : AuthTables :=
  no_accounts <| users := {["admin" := sample_admin; "operator" := second_admin;
                            "person" := sample_person]} |>
              <| adminProfiles := {["p1" := MkAdminProfile "p1" "admin" "Admin"
                                     StaffRole.FULL_ADMINISTRATOR;
                                    "p2" := MkAdminProfile "p2" "operator" "Operator"
                                     StaffRole.BILLING_OPERATOR]} |>.
Definition sample_db : Db :=
  empty_db <| authTables := sample_accounts |> <| customers := {["c" := sample_customer]} |>.
(** The clock stands still. *)
Definition sample_start : World := at_time sample_db 3030000.
Definition sample_context : SecurityRequestContext := MkRequestContext "00" None.
Definition moved_to (t : Z) (w : World) : World := w <| clock := λ _, t |>.

Lemma uuid_injective j k :
  Nat.iter j (String "i") "d" = Nat.iter k (String "i") "d" → j = k.
Proof.
  revert k. induction j as [|j IH]; intros [|k]; simpl; try discriminate; [done|].
  intros [= E]. f_equal. by apply IH.
Qed.
Lemma start_ok : auth_ok sample_start.
Proof.
  split; [exact uuid_injective|]. unfold tables_ok, table_ok, mortal_ok, totp_of, codes_of.
  split_and!; intros *; cbn; rewrite ?lookup_empty; done.
Qed.
Lemma moved_history t w : history sample_ttl w (moved_to t w).
Proof. apply rtc_once, step_other. by split_and!. Qed.

(** ** An administrator enrolls *)
Definition admin_login (remember : option bool) : Io LoginOutcome :=
  login sample_ttl (MkLogin "admin@example.test" "secret" remember) sample_context.
(** A login is a sequence of steps. *)
Lemma login_history email password remember w :
  history sample_ttl w (snd (login sample_ttl (MkLogin email password remember) sample_context w)).
Proof.
  exact (method_runs sample_ttl _ (m_login sample_ttl (MkLogin email password remember)
           sample_context) w).
Qed.
Definition nobody : AuthRequestContext :=
  MkAuthContext (CustomerAccount "" "" "" None) "" None None.
Definition token_of (r : result LoginOutcome) : string :=
  match r with
  | Ok (LoggedIn l) => lr_token l | Ok (ChallengeIssued c) => cr_challengeToken c | Err _ => ""
  end.
Definition first_login : result LoginOutcome * World := admin_login None sample_start.
Definition first_token : string := token_of (fst first_login).
Definition first_request : result AuthRequestContext * World :=
  authenticateSession sample_ttl first_token (snd first_login).
Definition admin_auth : AuthRequestContext :=
  match fst first_request with Ok a => a | Err _ => nobody end.
Definition setup_run : result TwoFactorSetupResponse * World :=
  beginTwoFactorSetup admin_auth "secret" sample_context (snd first_request).
Definition enable_run : result (list string) * World :=
  enableTwoFactor admin_auth "000101" sample_context (snd setup_run).
(** The second factor is enabled, an hour later. *)
Definition sample_world : World := moved_to 6630000 (snd enable_run).
Lemma sample_history : history sample_ttl sample_start sample_world.
Proof.
  unfold history. transitivity (snd first_login); [exact (login_history _ _ _ sample_start)|].
  transitivity (snd first_request); [apply (method_runs sample_ttl _ (m_authenticate _ _))|].
  transitivity (snd setup_run); [apply (method_runs sample_ttl _ (m_setup _ _ _ _))|].
  transitivity (snd enable_run); [apply (method_runs sample_ttl _ (m_enable _ _ _ _))|].
  apply moved_history.
Qed.
Lemma sample_ok : auth_ok sample_world.
Proof. exact (proj1 (history_advances sample_ttl _ _ sample_history start_ok)). Qed.

(** ** An administrator logs in *)
Definition challenged : World := snd (admin_login None sample_world).
Definition issued : TwoFactorChallengeResult :=
  match fst (admin_login None sample_world) with
  | Ok (ChallengeIssued c) => c | _ => MkChallengeResult None "" ""
  end.
Lemma challenged_history : history sample_ttl sample_world challenged.
Proof. exact (login_history _ _ None sample_world). Qed.
Lemma challenged_ok : auth_ok challenged.
Proof. exact (proj1 (history_advances sample_ttl _ _ challenged_history sample_ok)). Qed.
(** The rows a second step reads. *)
Definition no_record : ChallengeRecord :=
  MkChallengeRecord (MkLoginChallenge "" "" "" 0 None 0 "" None)
    (MkUserWithProfiles sample_admin None None None) [].
Definition record_of (token : string) (w : World) : ChallengeRecord :=
  default no_record (challenge_record (hashOpaqueToken token) (db w)).
Definition attempt (code : string) (now : Z) (r : ChallengeRecord) (w : World)
    : result LoginResult * World :=
  twoFactor_attempt sample_ttl r code false now sample_context w.
Definition first_record : ChallengeRecord := record_of (cr_challengeToken issued) challenged.
Definition first_attempt : result LoginResult * World :=
  attempt "000221" 6630000 first_record challenged.
(** A minute later, once more. *)
Definition again : result LoginOutcome * World :=
  admin_login None (moved_to 6690000 (snd first_attempt)).
Definition second_record : ChallengeRecord := record_of (token_of (fst again)) (snd again).
Definition second_attempt : result LoginResult * World :=
  attempt "000223" 6690000 second_record (snd again).
Lemma again_history : history sample_ttl (snd first_attempt) (snd again).
Proof.
  unfold history. transitivity (moved_to 6690000 (snd first_attempt)); [apply moved_history|].
  exact (login_history _ _ None (moved_to 6690000 (snd first_attempt))).
Qed.
(** The result of a run that succeeded. *)
Definition no_login : LoginResult :=
  MkLoginResult "" (CustomerAccount "" "" "" None) (MkAuthenticationSession "" "" "" "" false).
Definition login_of (r : result LoginResult) : LoginResult :=
  match r with Ok l => l | Err _ => no_login end.

(** ** A password is reset *)
Definition reset_requested : World :=
  snd (requestPasswordReset sample_ttl "admin@example.test" sample_context sample_world).
Definition no_token : ActionToken := MkActionToken "" "" "" "" 0 None 0.
Definition reset_row : ActionToken :=
  default no_token (List.hd_error (rows (λ _, true) (resetTokens (authTables (db reset_requested))))).
Definition reset_run : result unit * World :=
  reset_confirm_tx reset_row "argon2:changed" 6630000 sample_context reset_requested.
Definition after_reset : World :=
  snd (login sample_ttl (MkLogin "admin@example.test" "changed" None) sample_context
         (snd reset_run)).
Lemma reset_requested_ok : auth_ok reset_requested.
Proof.
  refine (proj1 (history_advances sample_ttl sample_world _ _ sample_ok)).
  apply (method_runs sample_ttl _ (m_reset_request _ _ _)).
Qed.
Lemma after_reset_history : history sample_ttl (snd reset_run) after_reset.
Proof. exact (login_history _ _ None (snd reset_run)). Qed.

(** ** A customer whose login asks for a mailed code *)
Definition two_step_start : World :=
  at_time (sample_db <| authTables := sample_accounts
             <| securityPreferences := {["person" := MkPreference true false]} |> |>) 3030000.
Lemma two_step_ok : auth_ok two_step_start.
Proof.
  split; [exact uuid_injective|]. unfold tables_ok, table_ok, mortal_ok, totp_of, codes_of.
  split_and!; intros *; cbn; rewrite ?lookup_empty; done.
Qed.
Definition mailed : result LoginOutcome * World :=
  login sample_ttl (MkLogin "person@example.test" "word" None) sample_context two_step_start.
Lemma mailed_history : history sample_ttl two_step_start (snd mailed).
Proof. exact (login_history _ _ None two_step_start). Qed.
Definition mailed_hash : string := hashOpaqueToken (token_of (fst mailed)).
(** Wrong codes, one after the other. *)
Definition guess (w : World) : World :=
  snd (transaction (emailLogin_tx sample_ttl "person" mailed_hash "000000" sample_context) w).
Definition after_guesses (n : nat) : World := Nat.iter n guess (snd mailed).
