(* ===== verification/AuthProperties.v ===== *)
(** * Properties of authentication

    Sessions, one-time tokens, challenges and second factors over the histories of
    AuthProtocol. *)
From S2P Require Import Prelude JsString JsDate Json Money States AuthTables Database Invoices Payments HostingServices PanelOperations ServerProtocol Totp TotpProperties Authentication Sessions SecondFactor Staff Guards AuthProtocol AuthSamples.

(** ** What single updates do *)
Section runs.
Context {R : Type} (table : AuthTables → gmap string R) `{!Setter table}.

(** A conditional update that found its row. *)
Lemma update_row_if_one id p f w w' :
  update_row_if table id p f w = (Ok 1, w') →
  ∃ r, table (authTables (db w)) !! id = Some r ∧ p r = true ∧
    w' = w <| db := db w <| authTables := authTables (db w)
              <| table := <[id := f r]> (table (authTables (db w))) |> |> |>.
Proof using Type.
  rewrite update_row_if_run. unfold update_one. intros Hr.
  destruct (table (authTables (db w)) !! id) as [r|]; [|discriminate].
  destruct (p r) eqn:Hp; [|discriminate]. exists r. split_and!; [done..|]. by simplify_eq.
Qed.
Lemma update_row_if_zero id p f w r :
  table (authTables (db w)) !! id = Some r → p r = false →
  fst (update_row_if table id p f w) = Ok 0.
Proof using Type.
  intros Hr Hp. rewrite update_row_if_run. unfold update_one. by rewrite Hr, Hp.
Qed.
End runs.

Section second_factor.
Context `{ZodFormats} `{Sha256} `{AuthCryptoLaws} (ttl : AuthTtl).

(** The parts of an attempt that opened a session. *)
Lemma attempt_parts r code rem now ctx w res w' :
  twoFactor_attempt ttl r code rem now ctx w = (Ok res, w') →
  ∃ credential step wa wb,
    challenge_valid r now ctx = true ∧ up_credential (ch_user r) = Some credential ∧
    verify_code credential code now = Ok step ∧
    consume_factor (totp_id credential) step (matching_recovery (ch_codes r) code) now w =
      (Ok true, wa) ∧
    update_row_if loginChallenges (lch_id (ch_challenge r))
      (λ c, negb (is_set (lch_usedAt c)) && (now <? lch_expiresAt c))
      (λ c, c <| lch_usedAt := Some now |>) wa = (Ok 1, wb) ∧
    createSession ttl (ch_user r) ctx now true
      (factor_method (matching_recovery (ch_codes r) code)) rem wb = (Ok res, w').
Proof using Type.
  unfold twoFactor_attempt. intros Hrun. apply bind_Ok in Hrun as (?&w1&Hv&Hrun).
  apply require_Ok in Hv as [Hv ->].
  destruct (up_credential (ch_user r)) as [credential|]; [|discriminate].
  apply bind_Ok in Hrun as (step&w1&Hs&Hrun). apply lift_Ok in Hs as [Hs ->].
  unfold catch in Hrun. destruct (transaction _ w) as [[a|e] w1] eqn:Ht.
  - injection Hrun as -> ->. rewrite transaction_Ok in Ht. unfold twoFactor_tx in Ht.
    apply bind_Ok in Ht as (consumed&wa&Hc&Ht). apply bind_Ok in Ht as (n&wb&Hu&Ht).
    apply bind_Ok in Ht as (?&w2&Hq&Ht). apply require_Ok in Hq as [Hq ->]. split_bool.
    subst consumed n. cbn in Hu. eauto 10.
  - exfalso. revert Hrun. unfold when. destruct (is_application_exception e);
      unfold mbind, M_bind, throw, mret, M_ret; [|done]. by destruct (transaction _ w1) as [[] ?].
Qed.

(** A row that was used is used, or gone, ever after. *)
Lemma used_challenge_stays i c w w' :
  auth_ok w → history ttl w w' → loginChallenges (authTables (db w)) !! i = Some c →
  ∃ c', loginChallenges (authTables (db w')) !! i = Some c' ∧ lch_later c c'.
Proof using H2.
  intros Hw Hh Hc. destruct (history_advances ttl w w' Hh Hw) as [_ (_&_&(_&_&_&Hl&_)&_)].
  by apply Hl.
Qed.
Lemma advance_challenges w w' i c :
  advance w w' → loginChallenges (authTables (db w)) !! i = Some c →
  ∃ c', loginChallenges (authTables (db w')) !! i = Some c' ∧ lch_later c c'.
Proof using Type. intros (_&_&(_&_&_&Hl&_)&_) Hc. by apply Hl. Qed.
Lemma advance_totp w w' i c :
  advance w w' → totp_of w !! i = Some c →
  totp_of w' !! i = None ∨ ∃ c', totp_of w' !! i = Some c' ∧ totp_later c c'.
Proof using Type.
  intros (_&_&_&(_&Hl)&_) Hc. destruct (Hl i c Hc) as [[? _]|?]; [by left|by right].
Qed.
Lemma advance_codes w w' i c :
  advance w w' → codes_of w !! i = Some c →
  codes_of w' !! i = None ∨ ∃ c', codes_of w' !! i = Some c' ∧ rec_later c c'.
Proof using Type.
  intros (_&_&_&_&(_&Hl)) Hc. destruct (Hl i c Hc) as [[? _]|?]; [by left|by right].
Qed.

Lemma advances_run {A} (m : Io A) w r w' :
  Advances m → auth_ok w → m w = (r, w') → auth_ok w' ∧ advance w w'.
Proof using Type. intros Hm Hw E. specialize (Hm w Hw). by rewrite E in Hm. Qed.
Lemma attempt_ok r code rem now ctx w res w' :
  auth_ok w → twoFactor_attempt ttl r code rem now ctx w = (Ok res, w') →
  auth_ok w' ∧ advance w w'.
Proof using H2.
  intros Hw Hrun. apply attempt_parts in Hrun as (cr&step&wa&wb&_&_&_&Hc&Hu&Hs).
  destruct (advances_run _ _ _ _ (consume_factor_advances _ _ _ _) Hw Hc) as [Hwa Ha].
  assert (auth_ok wb ∧ advance wa wb) as [Hwb Hb]
    by (eapply advances_run; [|exact Hwa|exact Hu]; apply _).
  assert (auth_ok w' ∧ advance wb w') as [? ?]
    by (eapply advances_run; [|exact Hwb|exact Hs]; apply _).
  split; [done|]. etrans; [exact Ha|]. by etrans.
Qed.
(** The steps a credential has used stay used while it exists. *)
Lemma step_stays w w' i t s :
  advance w w' → drawn_before w i →
  (∀ t', totp_of w !! i = Some t' → totp_enabledAt t' ≠ None ∧ step_unused s t' = false) →
  totp_of w' !! i = Some t →
  ∃ used, totp_lastUsedTimeStep t = Some used ∧ s <= used.
Proof using Type.
  intros (_&_&_&(Hd&Hl)&_) Hdr Hs Ht. destruct (totp_of w !! i) as [t'|] eqn:E.
  - destruct (Hs t' eq_refl) as [He Hu]. destruct (Hl i t' E) as [[Hn _]|(t2&Ht2&_&Hlater)];
      [congruence|]. rewrite Ht in Ht2. injection Ht2 as <-. destruct (Hlater He) as (_&_&L).
    unfold step_unused in Hu. destruct (totp_lastUsedTimeStep t') as [used|]; [|discriminate].
    apply Z.ltb_ge in Hu. destruct (totp_lastUsedTimeStep t) as [used'|]; [|done].
    exists used'. split; [done|lia].
  - destruct (Hd i (conj E Hdr)) as [Hn _]. congruence.
Qed.
Lemma consume_step_true c s w w' :
  consume_step c s w = (Ok true, w') →
  ∃ t, totp_of w !! c = Some t ∧ step_unused s t = true ∧
    totp_of w' !! c = Some (t <| totp_lastUsedTimeStep := Some s |>).
Proof using Type.
  unfold consume_step. intros Hrun. apply bind_Ok in Hrun as (n&w1&Hu&Hrun).
  apply ret_Ok in Hrun as [Hn ->]. symmetry in Hn. apply Z.eqb_eq in Hn as ->.
  apply update_row_if_one in Hu as (t&Ht&Hs&->). exists t. split_and!; [done..|].
  unfold totp_of. simpl. apply lookup_insert_eq.
Qed.
Lemma consume_recovery_true c now w w' :
  consume_recovery c now w = (Ok true, w') →
  ∃ t, codes_of w !! c = Some t ∧ rec_usedAt t = None ∧
    codes_of w' !! c = Some (t <| rec_usedAt := Some now |>).
Proof using Type.
  unfold consume_recovery. intros Hrun. apply bind_Ok in Hrun as (n&w1&Hu&Hrun).
  apply ret_Ok in Hrun as [Hn ->]. symmetry in Hn. apply Z.eqb_eq in Hn as ->.
  apply update_row_if_one in Hu as (t&Ht&Hs&->). exists t. split_bool.
  apply is_set_false in Hs. split_and!; [done..|].
  unfold codes_of. simpl. apply lookup_insert_eq.
Qed.

(** An accepted attempt found its challenge unused and leaves it used. *)
Lemma attempt_uses_challenge r code rem now ctx w res w' :
  auth_ok w → twoFactor_attempt ttl r code rem now ctx w = (Ok res, w') →
  (∀ c, loginChallenges (authTables (db w)) !! lch_id (ch_challenge r) = Some c →
        lch_usedAt c = None) ∧
  ∃ c, loginChallenges (authTables (db w')) !! lch_id (ch_challenge r) = Some c ∧
       lch_usedAt c ≠ None.
Proof using H2.
  intros Hw Hrun. apply attempt_parts in Hrun as (cr&step&wa&wb&_&_&_&Hc&Hu&Hs).
  assert (auth_ok wa ∧ advance w wa) as [Hwa Ha] by (eapply advances_run; [|done|exact Hc]; apply _).
  assert (auth_ok wb ∧ advance wa wb) as [Hwb _].
  { eapply advances_run; [|exact Hwa|exact Hu]. apply _. }
  assert (advance wb w') as Hb by (eapply advances_run; [|exact Hwb|exact Hs]; apply _).
  apply update_row_if_one in Hu as (c&Hc1&Hp&->). split_bool.
  match goal with H : is_set _ = false |- _ => apply is_set_false in H as Hnone end.
  split.
  - intros c0 Hc0. destruct (advance_challenges _ _ _ _ Ha Hc0) as (c1&Hc1'&(_&_&_&Hst)).
    rewrite Hc1 in Hc1'. apply (inj Some) in Hc1' as <-. destruct (lch_usedAt c0); [|done].
    exfalso. rewrite Hst in Hnone; done.
  - eapply advance_challenges in Hb as (c'&Hc'&(_&_&_&Hst)).
    2: { simpl. apply lookup_insert_eq. }
    exists c'. split; [exact Hc'|]. simpl in Hst. by rewrite Hst.
Qed.
(** It finds its time step unused, and leaves no earlier one usable. *)
Lemma attempt_uses_step r code rem now ctx w res w' credential s :
  auth_ok w → twoFactor_attempt ttl r code rem now ctx w = (Ok res, w') →
  up_credential (ch_user r) = Some credential → verify_code credential code now = Ok (Some s) →
  ∃ t, totp_of w !! totp_id credential = Some t ∧ step_unused s t = true ∧
    (totp_enabledAt t ≠ None →
     ∀ t', totp_of w' !! totp_id credential = Some t' →
       totp_enabledAt t' ≠ None ∧ step_unused s t' = false).
Proof using H2.
  intros Hw Hrun Hcr Hv. apply attempt_parts in Hrun as (cr&step&wa&wb&_&Hcr'&Hv'&Hc&Hu&Hs).
  rewrite Hcr in Hcr'. injection Hcr' as <-. rewrite Hv in Hv'. injection Hv' as <-.
  cbn [consume_factor] in Hc.
  assert (auth_ok wa) as Hwa by (eapply advances_run; [|exact Hw|exact Hc]; apply _).
  assert (auth_ok wb ∧ advance wa wb) as [Hwb Ha].
  { eapply advances_run; [|exact Hwa|exact Hu]. apply _. }
  assert (advance wb w') as Hb by (eapply advances_run; [|exact Hwb|exact Hs]; apply _).
  assert (advance wa w') as Hall by (by etrans).
  apply consume_step_true in Hc as (t&Ht&Hunused&Ht1). exists t. split_and!; [done..|].
  intros He t' Ht'. destruct (advance_totp _ _ _ _ Hall Ht1) as [Hn|(t2&Ht2&Hl)]; [congruence|].
  rewrite Ht' in Ht2. injection Ht2 as <-. destruct Hl as [_ Hl]. cbn in Hl.
  destruct (Hl He) as (E&_&L). split; [congruence|]. unfold step_unused.
  destruct (totp_lastUsedTimeStep t'); [lia|done].
Qed.
(** A credential that was read as enabled is enabled as long as it exists. *)
Lemma read_credential_enabled h w0 w r credential t :
  auth_ok w0 → challenge_record h (db w0) = Some r →
  up_credential (ch_user r) = Some credential → totp_enabled (Some credential) = true →
  history ttl w0 w → totp_of w !! totp_id credential = Some t → totp_enabledAt t ≠ None.
Proof using H2.
  intros Hw Hr Hcr He Hh Ht. unfold challenge_record in Hr.
  destruct (find_unique _ _ _) as [c|]; [|discriminate]. cbn in Hr.
  destruct (user_by_id _ _) as [u|] eqn:Hu; [|discriminate]. cbn in Hr. injection Hr as <-.
  cbn in Hcr. unfold user_by_id in Hu. destruct (users _ !! _) as [user|]; [|discriminate].
  cbn in Hu. injection Hu as <-. cbn in Hcr.
  pose proof (credential_row _ _ _ Hw Hcr) as Hrow. fold (totp_of w0) in Hrow.
  destruct (history_advances ttl w0 w Hh Hw) as [_ Ha].
  destruct (advance_totp _ _ _ _ Ha Hrow) as [Hn|(t'&Ht'&_&Hl)]; [congruence|].
  rewrite Ht in Ht'. injection Ht' as <-. unfold totp_enabled in He.
  apply is_set_true in He. destruct (Hl He) as [-> _]. done.
Qed.

(** C11: No second factor is accepted twice.  Take two attempts that opened a session,
    the second at any time after the first and with any challenge record, read however
    early; the first acted on a record that was read in the protocol.  They used
    different challenges, and if both gave a password of the same credential, the
    second one's time step is later: a password that was seen cannot be replayed. *)
Theorem second_factor_not_replayed h w0 r1 code1 rem1 now1 ctx1 w1 res1 w1' r2 code2 rem2 now2
    ctx2 w2 res2 w2'
    (Hw0 : auth_ok w0) (Hread : challenge_record h (db w0) = Some r1)
    (Hbefore : history ttl w0 w1)
    (Hfirst : twoFactor_attempt ttl r1 code1 rem1 now1 ctx1 w1 = (Ok res1, w1'))
    (Hbetween : history ttl w1' w2)
    (Hsecond : twoFactor_attempt ttl r2 code2 rem2 now2 ctx2 w2 = (Ok res2, w2')) :
  lch_id (ch_challenge r1) ≠ lch_id (ch_challenge r2) ∧
  ∀ c1 c2 s1 s2, up_credential (ch_user r1) = Some c1 → up_credential (ch_user r2) = Some c2 →
    totp_id c1 = totp_id c2 → verify_code c1 code1 now1 = Ok (Some s1) →
    verify_code c2 code2 now2 = Ok (Some s2) → s1 < s2.
Proof using H2.
  destruct (history_advances ttl w0 w1 Hbefore Hw0) as [Hw1 _].
  destruct (attempt_ok _ _ _ _ _ _ _ _ Hw1 Hfirst) as [Hw1' (Hu1&Hd1&_)].
  destruct (history_advances ttl w1' w2 Hbetween Hw1') as [Hw2 Ha].
  pose proof (attempt_uses_challenge _ _ _ _ _ _ _ _ Hw1 Hfirst) as [_ (c&Hc&Hused)].
  pose proof (attempt_uses_challenge _ _ _ _ _ _ _ _ Hw2 Hsecond) as [Hfree _].
  split.
  - intros E. rewrite E in Hc. destruct (advance_challenges _ _ _ _ Ha Hc) as (c'&Hc'&(_&_&_&Hst)).
    pose proof (Hfree c' Hc') as Hn. rewrite Hst in Hn; congruence.
  - intros c1 c2 s1 s2 Hc1 Hc2 E Hs1 Hs2.
    destruct (attempt_uses_step _ _ _ _ _ _ _ _ _ _ Hw1 Hfirst Hc1 Hs1) as (t1&Ht1&_&Hafter).
    destruct (attempt_uses_step _ _ _ _ _ _ _ _ _ _ Hw2 Hsecond Hc2 Hs2) as (t2&Ht2&Hun&_).
    rewrite <- E in Ht2.
    assert (totp_enabledAt t1 ≠ None) as He1.
    { eapply (read_credential_enabled h w0 w1 r1 c1); [done..| |done|exact Ht1].
      apply attempt_parts in Hfirst as (?&?&?&?&Hv&_). unfold challenge_valid in Hv.
      split_bool. by rewrite <- Hc1. }
    assert (drawn_before w1' (totp_id c1)) as Hdr.
    { destruct Hw1 as (_&_&Hm&_). destruct (Hm _ _ Ht1) as [_ Hd].
      by eapply drawn_before_mono; [..|exact Hd]. }
    destruct (step_stays _ _ _ _ s1 Ha Hdr (Hafter He1) Ht2) as (used&Hused'&Hlt).
    unfold step_unused in Hun. rewrite Hused' in Hun. lia.
Qed.
End second_factor.
Lemma second_factor_not_replayed_witness :
  is_ok (fst first_attempt) = true ∧ is_ok (fst second_attempt) = true ∧
  lch_id (ch_challenge first_record) ≠ lch_id (ch_challenge second_record) ∧ 221 < 223.
Proof.
  assert (challenge_record (hashOpaqueToken (cr_challengeToken issued)) (db challenged) =
    Some first_record) as Hread by (vm_compute; reflexivity).
  assert (twoFactor_attempt sample_ttl first_record "000221" false 6630000 sample_context challenged
    = (Ok (login_of (fst first_attempt)), snd first_attempt)) as Hfirst
    by (apply (run_outcome (twoFactor_attempt sample_ttl first_record "000221" false 6630000
      sample_context) challenged); vm_compute; reflexivity).
  assert (twoFactor_attempt sample_ttl second_record "000223" false 6690000 sample_context (snd again)
    = (Ok (login_of (fst second_attempt)), snd second_attempt)) as Hsecond
    by (apply (run_outcome (twoFactor_attempt sample_ttl second_record "000223" false 6690000
      sample_context) (snd again)); vm_compute; reflexivity).
  split; [vm_compute; reflexivity|]. split; [vm_compute; reflexivity|].
  destruct (second_factor_not_replayed sample_ttl _ challenged first_record "000221" false 6630000
    sample_context challenged (login_of (fst first_attempt)) (snd first_attempt) second_record
    "000223" false 6690000 sample_context (snd again) (login_of (fst second_attempt))
    (snd second_attempt) challenged_ok Hread (rtc_refl _ _) Hfirst again_history Hsecond) as [Hdiff Hsteps].
  split; [exact Hdiff|].
  destruct (up_credential (ch_user first_record)) as [c1|] eqn:E1; [|vm_compute in E1; discriminate].
  destruct (up_credential (ch_user second_record)) as [c2|] eqn:E2; [|vm_compute in E2; discriminate].
  apply (Hsteps c1 c2 221 223 eq_refl eq_refl); vm_compute in E1, E2;
    injection E1 as <-; injection E2 as <-; vm_compute; reflexivity.
Defined.

(** ** Sessions *)
Section sessions.
Context `{ZodFormats} `{Sha256} `{AuthCryptoLaws} (ttl : AuthTtl).

Lemma touch_ok token u s now w : ∃ w', touch_session token u s now w = (Ok tt, w').
Proof using Type.
  unfold touch_session, when. destruct (_ <=? _); [|by eexists].
  unfold mbind, M_bind. rewrite update_row_if_run. by eexists.
Qed.
(** [session_accepted], in words. *)
Lemma session_accepted_spec token u s now :
  session_accepted ttl token u s now = true ↔
  ses_revokedAt s = None ∧ now < ses_expiresAt s ∧ user_status (up_user u) = UserStatus.ACTIVE ∧
  user_deletedAt (up_user u) = None ∧
  ((user_role (up_user u) = UserRole.ADMIN ∧ administratorSessionMode token ≠ Browser) ∨
   now - ses_lastSeenAt s <= sessionIdleTtlMilliseconds ttl) ∧
  (user_role (up_user u) = UserRole.ADMIN → totp_enabled (up_credential u) = true →
   ses_twoFactorVerifiedAt s ≠ None).
Proof using Type.
  unfold session_accepted, idle_expired, missing_second_factor, deleted, active, administrator.
  rewrite !andb_true_iff, !negb_true_iff, !andb_false_iff, orb_false_iff, !negb_false_iff.
  rewrite !is_set_false, is_set_true, !bool_decide_eq_true, !bool_decide_eq_false.
  rewrite Z.ltb_lt, Z.ltb_ge.
  destruct (totp_enabled (up_credential u)), (user_role (up_user u));
    intuition (try congruence; eauto).
Qed.

Lemma authenticated_iff token w auth :
  (∃ w', authenticateSession ttl token w = (Ok auth, w')) ↔
  ∃ s u i, session_with_user (hashOpaqueToken token) (db w) = Some (s, Some u) ∧
    ses_revokedAt s = None ∧ clock w (ticks w) < ses_expiresAt s ∧
    user_status (up_user u) = UserStatus.ACTIVE ∧ user_deletedAt (up_user u) = None ∧
    ((user_role (up_user u) = UserRole.ADMIN ∧ administratorSessionMode token ≠ Browser) ∨
     clock w (ticks w) - ses_lastSeenAt s <= sessionIdleTtlMilliseconds ttl) ∧
    (user_role (up_user u) = UserRole.ADMIN → totp_enabled (up_credential u) = true →
     ses_twoFactorVerifiedAt s ≠ None) ∧
    toIdentity u = Ok i ∧
    auth = MkAuthContext i (ses_id s) (Some (to_ISO_string (ses_expiresAt s))) None.
Proof using Type.
  split.
  - intros [w' Hrun]. unfold authenticateSession in Hrun.
    apply bind_Ok in Hrun as (now&w1&Hn&Hrun). apply new_date_Ok in Hn as [-> ->].
    apply bind_Ok in Hrun as (found&w1&Hf&Hrun). apply read_Ok in Hf as [-> ->].
    cbn [db set_field] in Hrun.
    destruct (session_with_user _ _) as [[s joined]|] eqn:Hs; [|discriminate].
    apply bind_Ok in Hrun as (u&w1&Hu&Hrun). apply lift_Ok in Hu as [Hu ->].
    destruct joined as [u'|]; [|discriminate]. injection Hu as ->.
    apply bind_Ok in Hrun as (?&w2&_&Hrun). apply bind_Ok in Hrun as (?&w3&Ha&Hrun).
    apply require_Ok in Ha as [Ha ->]. apply bind_Ok in Hrun as (?&w4&_&Hrun).
    apply bind_Ok in Hrun as (i&w5&Hi&Hrun). apply lift_Ok in Hi as [Hi ->].
    apply ret_Ok in Hrun as [-> ->]. apply session_accepted_spec in Ha.
    destruct_and?. exists s, u, i. by split_and!.
  - intros (s&u&i&Hs&A1&A2&A3&A4&A5&A6&Hi&->).
    assert (session_accepted ttl token u s (clock w (ticks w)) = true) as Ha
      by (apply session_accepted_spec; by split_and!).
    unfold authenticateSession. set (now := clock w (ticks w)) in *.
    unfold mbind at 1, M_bind at 1. unfold new_date. fold now.
    unfold mbind at 1, M_bind at 1. unfold read, gets. cbn [db set_field].
    change (db (w <| ticks := S (ticks w) |>)) with (db w). rewrite Hs.
    unfold mbind at 1, M_bind at 1. cbn [lift of_option].
    assert (idle_expired ttl token (up_user u) s now || missing_second_factor u s = false) as ->.
    { unfold session_accepted in Ha. split_bool. apply orb_false_iff. by split. }
    rewrite andb_false_r. cbn [when].
    unfold mbind at 1, M_bind at 1. cbn [mret M_ret].
    unfold mbind at 1, M_bind at 1. rewrite Ha. cbn [require lift throw_unless].
    match goal with |- context [(_ ≫= _) ?x] =>
      destruct (touch_ok token (up_user u) s now x) as [w4 Ht] end.
    unfold mbind at 1, M_bind at 1. rewrite Ht.
    unfold mbind at 1, M_bind at 1. rewrite Hi. cbn. by eexists.
Qed.
(** C14: A token other than that of an administrator's browser session, whose idle limit
    the code and its description disagree on (AuthFaults.browser_administrator_idles), is
    authenticated exactly when its session is not revoked and not expired, its user is
    active and not deleted, a customer has used it within the idle limit, and an
    administrator with a second factor has shown it in this session; the identity is the
    one the database has now. *)
Theorem authenticated_exactly token w auth
    (Hmode : administratorSessionMode token ≠ Browser) :
  (∃ w', authenticateSession ttl token w = (Ok auth, w')) ↔
  ∃ s u i, session_with_user (hashOpaqueToken token) (db w) = Some (s, Some u) ∧
    ses_revokedAt s = None ∧ clock w (ticks w) < ses_expiresAt s ∧
    user_status (up_user u) = UserStatus.ACTIVE ∧ user_deletedAt (up_user u) = None ∧
    (user_role (up_user u) = UserRole.CUSTOMER →
     clock w (ticks w) - ses_lastSeenAt s <= sessionIdleTtlMilliseconds ttl) ∧
    (user_role (up_user u) = UserRole.ADMIN → totp_enabled (up_credential u) = true →
     ses_twoFactorVerifiedAt s ≠ None) ∧
    toIdentity u = Ok i ∧
    auth = MkAuthContext i (ses_id s) (Some (to_ISO_string (ses_expiresAt s))) None.
Proof using Type.
  rewrite authenticated_iff.
  split; intros (s&u&i&?&?&?&?&?&Hidle&?&?&?); exists s, u, i; split_and!; try done;
    try (intros Hr; destruct Hidle as [[Ha _]|]; [congruence|done]).
  destruct (user_role (up_user u)) eqn:Hr; [by left|right; by apply Hidle].
Qed.

(** A revoked session is refused. *)
Lemma revoked_refused token w id s auth w' :
  auth_ok w → authSessions (authTables (db w)) !! id = Some s → ses_revokedAt s ≠ None →
  hashOpaqueToken token = ses_tokenHash s → authenticateSession ttl token w ≠ (Ok auth, w').
Proof using Type.
  intros (_&(Hses&_)&_) Hs Hr Hh Hrun.
  assert (∃ w', authenticateSession ttl token w = (Ok auth, w')) as Hex by eauto.
  apply authenticated_iff in Hex as (s'&u&i&Hf&Hn&_).
  unfold session_with_user in Hf. destruct (find_unique _ _ _) as [s2|] eqn:Hs2; [|discriminate].
  cbn in Hf. injection Hf as <- _.
  destruct (find_hash _ _ s2 id s Hses Hs2 Hs) as [-> _]; [by symmetry|]. done.
Qed.
(** ... and so it is at any later time. *)
Lemma revoked_refused_later token w w2 id s auth w' :
  auth_ok w → history ttl w w2 → authSessions (authTables (db w)) !! id = Some s →
  ses_revokedAt s ≠ None → hashOpaqueToken token = ses_tokenHash s →
  authenticateSession ttl token w2 ≠ (Ok auth, w').
Proof using H2.
  intros Hw Hh Hs Hr Ht. destruct (history_advances ttl w w2 Hh Hw) as [Hw2 (_&_&(Hl&_)&_)].
  destruct (Hl _ _ Hs) as (s'&Hs'&_&_&Ehash&Hst). cbn in Hst.
  eapply (revoked_refused _ _ id s'); eauto; [|congruence]. rewrite Hst; done.
Qed.

#[local] Instance logoutAll_advances auth ctx : Advances (logoutAll auth ctx).
Proof using Type. unfold logoutAll. apply _. Qed.
#[local] Instance logout_advances auth ctx : Advances (logout auth ctx).
Proof using Type. unfold logout. apply _. Qed.
#[local] Instance revokeSession_advances auth id ctx : Advances (revokeSession auth id ctx).
Proof using Type. unfold revokeSession. apply _. Qed.
Definition ended (s s' : AuthSession) : Prop :=
  ses_revokedAt s' ≠ None ∧ ses_tokenHash s' = ses_tokenHash s.
Lemma revoke_ends (p : AuthSession → bool) now reason s :
  (ses_revokedAt s = None → p s = true) → ended s (if p s then revoked now reason s else s).
Proof using Type.
  intros Hp. destruct (p s) eqn:E; [by split|]. split; [|done]. intros Hn. discriminate (Hp Hn).
Qed.
Lemma live_unrevoked userId s :
  ses_userId s = userId → ses_revokedAt s = None → live_session_of userId s = true.
Proof using Type.
  intros <- Hn. unfold live_session_of. rewrite String.eqb_refl. unfold is_set. by rewrite Hn.
Qed.
Lemma logoutAll_revokes auth ctx w w1 id s :
  authSessions (authTables (db w)) !! id = Some s → ses_userId s = auth_userId auth →
  logoutAll auth ctx w = (Ok tt, w1) →
  ∃ s', authSessions (authTables (db w1)) !! id = Some s' ∧ ended s s'.
Proof using Type.
  intros Hs Hown Hrun. unfold logoutAll in Hrun. apply bind_Ok in Hrun as (now&wa&Hn&Hrun).
  apply new_date_Ok in Hn as [_ ->]. rewrite transaction_Ok in Hrun.
  apply bind_Ok in Hrun as (?&wb&Hu&Hl). apply write_Ok in Hu as ->. apply write_Ok in Hl as ->.
  cbn -[revoked]. rewrite update_rows_lookup, Hs. eexists. split; [reflexivity|].
  apply revoke_ends. by apply live_unrevoked.
Qed.
Lemma update_session_ends id p now reason w r w' s :
  authSessions (authTables (db w)) !! id = Some s → (ses_revokedAt s = None → p s = true) →
  update_row_if authSessions id p (revoked now reason) w = (r, w') →
  ∃ s', authSessions (authTables (db w')) !! id = Some s' ∧ ended s s'.
Proof using Type.
  intros Hs Hp. rewrite update_row_if_run. intros Hr. injection Hr as _ <-. cbn -[revoked].
  rewrite update_one_lookup, Hs. rewrite bool_decide_true by done. cbn [andb].
  eexists. split; [reflexivity|]. by apply revoke_ends.
Qed.
Lemma logout_revokes auth ctx w w1 s :
  authSessions (authTables (db w)) !! auth_sessionId auth = Some s →
  ses_userId s = auth_userId auth → logout auth ctx w = (Ok tt, w1) →
  ∃ s', authSessions (authTables (db w1)) !! auth_sessionId auth = Some s' ∧ ended s s'.
Proof using Type.
  intros Hs Hown Hrun. unfold logout in Hrun. apply bind_Ok in Hrun as (now&wa&Hn&Hrun).
  apply new_date_Ok in Hn as [_ ->]. rewrite transaction_Ok in Hrun.
  apply bind_Ok in Hrun as (n&wb&Hu&Hl). apply write_Ok in Hl as ->.
  eapply (update_session_ends _ _ _ _ _ _ _ s) in Hu; [exact Hu|exact Hs|].
  by apply live_unrevoked.
Qed.
Lemma revokeSession_revokes auth ctx w b w1 id s :
  authSessions (authTables (db w)) !! id = Some s → revokeSession auth id ctx w = (Ok b, w1) →
  ∃ s', authSessions (authTables (db w1)) !! id = Some s' ∧ ended s s'.
Proof using Type.
  intros Hs Hrun. unfold revokeSession in Hrun. apply bind_Ok in Hrun as (own&wa&Hr&Hrun).
  apply read_Ok in Hr as [_ ->]. apply bind_Ok in Hrun as (?&wa&Hr&Hrun).
  apply require_Ok in Hr as [_ ->]. apply bind_Ok in Hrun as (now&wa&Hn&Hrun).
  apply new_date_Ok in Hn as [_ ->]. apply bind_Ok in Hrun as (?&wb&Ht&Hrun).
  apply ret_Ok in Hrun as [_ ->]. rewrite transaction_Ok in Ht.
  apply bind_Ok in Ht as (n&wc&Hu&Hl). apply write_Ok in Hl as ->.
  eapply (update_session_ends _ _ _ _ _ _ _ s) in Hu; [exact Hu|exact Hs|].
  intros Hn. unfold is_set. by rewrite Hn.
Qed.

(** Signing out is final: after [logout], [logoutAll] or the revocation of a
    session, whatever happens next, no token of an ended session is authenticated. *)
Theorem ended_sessions_stay_ended auth ctx w w1 w2 id s token answer w'
    (Hw : auth_ok w) (Hs : authSessions (authTables (db w)) !! id = Some s)
    (Hown : ses_userId s = auth_userId auth) (Htoken : hashOpaqueToken token = ses_tokenHash s)
    (Hend : logoutAll auth ctx w = (Ok tt, w1) ∨
            (logout auth ctx w = (Ok tt, w1) ∧ auth_sessionId auth = id) ∨
            (∃ b, revokeSession auth id ctx w = (Ok b, w1)))
    (Hlater : history ttl w1 w2) :
  authenticateSession ttl token w2 ≠ (Ok answer, w').
Proof using H2.
  assert (auth_ok w1 ∧ ∃ s', authSessions (authTables (db w1)) !! id = Some s' ∧
    ses_revokedAt s' ≠ None ∧ ses_tokenHash s' = ses_tokenHash s) as (Hw1&s'&Hs'&Hr&Eh).
  { destruct Hend as [Hend|[[Hend Hid]|[b Hend]]].
    - split; [by eapply advances_run; [apply logoutAll_advances|..]|].
      by eapply logoutAll_revokes.
    - split; [by eapply advances_run; [apply logout_advances|..]|].
      subst id. by eapply logout_revokes.
    - split; [by eapply advances_run; [apply revokeSession_advances|..]|].
      by eapply revokeSession_revokes. }
  eapply (revoked_refused_later token w1 w2 id s'); eauto. congruence.
Qed.

(** ** Password resets *)
(** A token that was used is refused. *)
Lemma used_token_refused (table : AuthTables → gmap string ActionToken) `{!Setter table} id now w t :
  table (authTables (db w)) !! id = Some t → tok_usedAt t ≠ None →
  fst (consume_token table id now w) = Err invalidTokenException.
Proof using Type.
  intros Ht Hu. unfold consume_token, mbind, M_bind.
  assert (usable now t = false) as Hp.
  { unfold usable. apply is_set_true in Hu. by rewrite Hu. }
  pose proof (update_row_if_zero table id (usable now) (spent now "consumed") w t Ht Hp) as Hz.
  destruct (update_row_if _ _ _ _ w) as [r w1]. cbn in Hz. by subst r.
Qed.
(** A consumed token is used, and nothing else changed. *)
Lemma consume_token_row id now w u w' :
  consume_token resetTokens id now w = (Ok u, w') →
  ∃ t, resetTokens (authTables (db w')) !! id = Some t ∧ tok_usedAt t = Some now ∧
    authSessions (authTables (db w')) = authSessions (authTables (db w)).
Proof using Type.
  unfold consume_token. intros Hc. apply bind_Ok in Hc as (n&wd&Hu&Hc).
  apply require_Ok in Hc as [Hn ->]. apply Z.eqb_eq in Hn as ->.
  apply update_row_if_one in Hu as (t0&_&_&->). exists (spent now "consumed" t0).
  split_and!; [apply lookup_insert_eq|done..].
Qed.
#[local] Instance update_user_sessions id f :
  Keeps (λ d, authSessions (authTables d)) (update_user id f).
Proof using Type. unfold update_user, update_user_if, put_user, read_auth. apply _. Qed.
Lemma update_user_password id h w u w' :
  update_user id (λ u, u <| user_passwordHash := Some h |>) w = (Ok u, w') →
  ∃ u, users (authTables (db w')) !! id = Some u ∧ user_passwordHash u = Some h.
Proof using Type.
  unfold update_user. intros Hrun. apply bind_Ok in Hrun as (n&w1&Hu&Hrun).
  apply require_Ok in Hrun as [Hn ->]. apply Z.eqb_eq in Hn as ->.
  unfold update_user_if in Hu. apply bind_Ok in Hu as (now&w2&_&Hu).
  apply bind_Ok in Hu as (m&w3&Hm&Hu). apply read_Ok in Hm as [-> ->].
  destruct (users (authTables (db w2)) !! id) as [u0|]; [|discriminate].
  apply bind_Ok in Hu as (?&w3&Hw&Hu). apply ret_Ok in Hu as [_ ->].
  unfold put_user in Hw. apply write_Ok in Hw as ->. eexists. split; [apply lookup_insert_eq|done].
Qed.
#[local] Instance log_sessions l : Keeps (λ d, authSessions (authTables d)) (log_activity l).
Proof using Type. apply _. Qed.

(** C12: A password reset is final.  Confirming it makes the password the new one; and
    whatever happens afterwards, no token of a session the user had then is
    authenticated, and the reset token is refused. *)
Theorem password_reset_is_final t hash now ctx w w1 w2
    (Hw : auth_ok w) (Hreset : reset_confirm_tx t hash now ctx w = (Ok tt, w1))
    (Hlater : history ttl w1 w2) :
  (∀ id s token answer w', authSessions (authTables (db w)) !! id = Some s →
     ses_userId s = tok_userId t → hashOpaqueToken token = ses_tokenHash s →
     authenticateSession ttl token w2 ≠ (Ok answer, w')) ∧
  (∀ hash' now' ctx', fst (reset_confirm_tx t hash' now' ctx' w2) = Err invalidTokenException) ∧
  ∃ u, users (authTables (db w1)) !! tok_userId t = Some u ∧ user_passwordHash u = Some hash.
Proof using H2.
  assert (auth_ok w1) as Hw1 by (eapply advances_run; [|exact Hw|exact Hreset]; apply _).
  unfold reset_confirm_tx in Hreset. apply bind_Ok in Hreset as (?&wa&Hc&Hreset).
  apply bind_Ok in Hreset as (?&wb&Hp&Hreset). apply bind_Ok in Hreset as (?&wc&Hs&Hl).
  assert (auth_ok wa) as Hwa.
  { eapply advances_run; [|exact Hw|exact Hc]. eapply consume_token_advances; apply _. }
  assert (auth_ok wb ∧ advance wa wb) as [Hwb Hab]
    by (eapply advances_run; [|exact Hwa|exact Hp]; apply _).
  assert (auth_ok wc ∧ advance wb wc) as [Hwc Hbc]
    by (eapply advances_run; [|exact Hwb|exact Hs]; apply _).
  assert (advance wc w1) as Hc1 by (eapply advances_run; [|exact Hwc|exact Hl]; apply _).
  destruct (history_advances ttl w1 w2 Hlater Hw1) as [_ H12].
  assert (advance wa w2) as Haw by (etrans; [exact Hab|]; etrans; [exact Hbc|]; by etrans).
  split_and!.
  - intros id s token answer w' Hid Hown Htok.
    assert (authSessions (authTables (db wb)) = authSessions (authTables (db w))) as Esame.
    { rewrite (keeps_run _ _ _ _ _ (update_user_sessions _ _) Hp).
      by apply consume_token_row in Hc as (_&_&_&->). }
    unfold update_all in Hs. apply write_Ok in Hs as ->.
    assert (authSessions (authTables (db w1)) !! id =
      Some (if live_session_of (tok_userId t) s then revoked now "PASSWORD_RESET" s else s)) as E1.
    { rewrite (keeps_run _ _ _ _ _ (log_sessions _) Hl). simpl.
      by rewrite update_rows_lookup, Esame, Hid. }
    eapply (revoked_refused_later token w1 w2 id); [done..|exact E1| |].
    + unfold live_session_of. rewrite Hown, String.eqb_refl. cbn [andb].
      destruct (is_set (ses_revokedAt s)) eqn:Er; [by apply is_set_true in Er|done].
    + by destruct (live_session_of _ _).
  - intros hash' now' ctx'. apply consume_token_row in Hc as (t0&Ht0&Hused&_).
    destruct Haw as (_&_&(_&Ht&_)&_). destruct (Ht (tok_id t) t0 Ht0) as (t2&Ht2&_&_&_&Hst).
    unfold reset_confirm_tx, mbind at 1, M_bind at 1.
    pose proof (used_token_refused resetTokens (tok_id t) now' w2 t2 Ht2) as Hbad.
    destruct (consume_token _ _ _ w2) as [r w3]. cbn in Hbad, Hst |- *.
    rewrite Hbad; [done|]. rewrite Hst; congruence.
  - apply update_user_password in Hp as (u&Hu&Hh). exists u. split; [|done].
    unfold update_all in Hs. apply write_Ok in Hs as ->. unfold log_activity in Hl.
    apply write_Ok in Hl as ->. exact Hu.
Qed.
End sessions.
Lemma ended_sessions_stay_ended_witness :
  is_ok (fst (authenticateSession sample_ttl first_token sample_world)) = true ∧
  ∀ answer w', authenticateSession sample_ttl first_token
    (moved_to 6640000 (snd (logout admin_auth sample_context sample_world))) ≠ (Ok answer, w').
Proof.
  split; [vm_compute; reflexivity|]. intros answer w'.
  assert (∃ s, authSessions (authTables (db sample_world)) !! "id" = Some s ∧
    ses_userId s = auth_userId admin_auth ∧ hashOpaqueToken first_token = ses_tokenHash s)
    as (s&Hs&Hown&Htoken) by (vm_compute; eexists; split_and!; reflexivity).
  assert (logout admin_auth sample_context sample_world =
    (Ok tt, snd (logout admin_auth sample_context sample_world))) as Hout
    by (apply run_outcome; vm_compute; reflexivity).
  assert (auth_sessionId admin_auth = "id") as Hid by (vm_compute; reflexivity).
  exact (ended_sessions_stay_ended sample_ttl admin_auth sample_context sample_world
    (snd (logout admin_auth sample_context sample_world)) _ "id" s first_token answer w' sample_ok Hs
    Hown Htoken (or_intror (or_introl (conj Hout Hid))) (moved_history _ _)).
Defined.
(** An administrator who asked to be remembered. *)
Definition remembered_login : result LoginOutcome * World :=
  admin_login (Some true) sample_start.
Definition remembered_token : string := token_of (fst remembered_login).
Definition remembered_request : result AuthRequestContext * World :=
  authenticateSession sample_ttl remembered_token (snd remembered_login).
Lemma authenticated_exactly_witness :
  ∃ auth s u, fst remembered_request = Ok auth ∧
    session_with_user (hashOpaqueToken remembered_token) (db (snd remembered_login))
      = Some (s, Some u) ∧ ses_revokedAt s = None.
Proof.
  destruct remembered_request as [[auth|e] w'] eqn:E; [|exfalso].
  2: { assert (is_ok (fst remembered_request) = true) as Hx by (vm_compute; reflexivity).
       by rewrite E in Hx. }
  assert (administratorSessionMode remembered_token ≠ Browser) as Hmode
    by (vm_compute; discriminate).
  destruct (proj1 (authenticated_exactly sample_ttl remembered_token (snd remembered_login) auth
    Hmode) (ex_intro _ w' E)) as (s&u&_&Hs&Hr&_).
  exists auth, s, u. split; [reflexivity|]. split; [exact Hs|exact Hr].
Defined.
Lemma password_reset_is_final_witness :
  is_ok (fst (authenticateSession sample_ttl first_token reset_requested)) = true ∧
  fst reset_run = Ok tt ∧
  (∀ hash' now' ctx', fst (reset_confirm_tx reset_row hash' now' ctx' after_reset) =
     Err invalidTokenException) ∧
  ∃ u, users (authTables (db (snd reset_run))) !! "admin" = Some u ∧
    user_passwordHash u = Some "argon2:changed".
Proof.
  assert (reset_run = (Ok tt, snd reset_run)) as Hreset
    by (apply run_outcome; vm_compute; reflexivity).
  split; [vm_compute; reflexivity|]. split; [exact (f_equal fst Hreset)|].
  destruct (password_reset_is_final sample_ttl reset_row "argon2:changed" 6630000 sample_context
    reset_requested (snd reset_run) after_reset reset_requested_ok Hreset after_reset_history)
    as (_&Hrefused&u&Hu&Hh).
  split; [exact Hrefused|]. exists u. split; [|exact Hh].
  assert (tok_userId reset_row = "admin") as E by (vm_compute; reflexivity).
  rewrite <- E. exact Hu.
Defined.

(** ** The code in the customer's mail *)
Section email_codes.
Context `{ZodFormats} `{Sha256} `{AuthCryptoLaws} (ttl : AuthTtl).

(** An attempt in which a code was compared with the challenge's and differed. *)
Definition compared_wrong (u h code : string) (ctx : SecurityRequestContext) (w : World) : Prop :=
  ∃ user c expected, locked_customer u (db w) = Some user ∧
    find_unique (emailChallenges (authTables (db w))) ech_tokenHash h = Some c ∧
    email_challenge_valid user c (clock w (ticks w)) ctx = true ∧
    decrypt_token decipher_token (ech_deliveryCiphertext c) = Ok expected ∧
    equalHexDigest (hashOpaqueToken code) (hashOpaqueToken expected) = false.
(** [n] such attempts on the challenge of one token, anything between them. *)
Inductive wrong_guesses (h : string) : nat → World → World → Prop :=
| no_guess w w' : history ttl w w' → wrong_guesses h 0 w w'
| one_more n w w1 w2 u code ctx : wrong_guesses h n w w1 → compared_wrong u h code ctx w1 →
    history ttl (snd (transaction (emailLogin_tx ttl u h code ctx) w1)) w2 →
    wrong_guesses h (S n) w w2.

Lemma wrong_guess_counted u h code ctx w :
  auth_ok w → compared_wrong u h code ctx w →
  ∃ i c c', emailChallenges (authTables (db w)) !! i = Some c ∧ ech_tokenHash c = h ∧
    ech_failedAttempts c < 5 ∧
    emailChallenges (authTables (db (snd (transaction (emailLogin_tx ttl u h code ctx) w)))) !! i
      = Some c' ∧ ech_tokenHash c' = h ∧ ech_failedAttempts c' = ech_failedAttempts c + 1.
Proof using Type.
  intros Hw (user&c&expected&Hu&Hc&Hv&Hd&He). exists (ech_id c), c.
  pose proof (challenge_row h w c Hw Hc) as Hrow.
  apply find_unique_Some in Hc as Hc'. destruct Hc' as (i&Hi&Hh).
  apply challenge_unused in Hv as Hn. destruct Hn as [Hnone H5].
  exists (wrong_code (clock w (ticks w)) (ech_failedAttempts c) c). split_and!; [done..| | |].
  - unfold transaction, emailLogin_tx. unfold mbind at 1, M_bind at 1.
    rewrite lockCustomer_run, Hu. unfold mbind at 1, M_bind at 1. cbn [read_auth read gets].
    rewrite Hc. unfold mbind at 1, M_bind at 1. cbn [new_date]. rewrite Hv. cbn [negb].
    unfold mbind at 1, M_bind at 1. rewrite Hd. cbn [lift]. rewrite He. cbn [negb].
    unfold mbind at 1, M_bind at 1. erewrite update_row_run by exact Hrow.
    cbn -[wrong_code]. apply lookup_insert_eq.
  - unfold wrong_code. by destruct (_ =? 4).
  - unfold wrong_code. by destruct (_ =? 4).
Qed.
Lemma counted_guesses h n w w' :
  wrong_guesses h n w w' → auth_ok w →
  auth_ok w' ∧ (n = O ∨ ∃ i c, emailChallenges (authTables (db w')) !! i = Some c ∧
    ech_tokenHash c = h ∧ Z.of_nat n <= ech_failedAttempts c).
Proof using H2.
  induction 1 as [w w' Hh|n w w1 w2 u code ctx _ IH Hg Hh]; intros Hw.
  - split; [|by left]. by apply (history_advances ttl w w').
  - destruct (IH Hw) as [Hw1 Hcount].
    destruct (wrong_guess_counted u h code ctx w1 Hw1 Hg) as (i&c&c'&Hi&Hc&H5&Hi'&Hc'&Hf).
    destruct (advances_transaction _ (emailLogin_advances ttl u h code ctx) w1 Hw1) as [Hok _].
    destruct (history_advances ttl _ w2 Hh Hok) as [Hw2 (_&_&(_&_&_&_&Hl)&_)].
    split; [done|]. right. destruct (Hl _ _ Hi') as (c2&Hc2&_&_&Ehash&_&Hmore).
    exists i, c2. split_and!; [done|congruence|].
    destruct Hcount as [->|(j&cj&Hj&Hjh&Hn)].
    + destruct Hw1 as (_&(_&_&_&_&[Hk _])&_). destruct (Hk _ _ Hi) as [_ [? _]]. lia.
    + destruct Hw1 as (_&(_&_&_&_&[_ Hd])&_).
      assert (j = i) as -> by (apply (Hd j i cj c); [done..|]; cbn; congruence).
      rewrite Hi in Hj. injection Hj as <-. lia.
Qed.
(** C13: At most five wrong codes are ever compared with the one that was mailed for a
    challenge, however the attempts are spread over time and connections; after the
    fifth no code is accepted, not even the right one, and no session is opened. *)
Theorem email_code_guesses_bounded h n w w'
    (Hw : auth_ok w) (Hguesses : wrong_guesses h n w w') :
  (n <= 5)%nat ∧
  (n = 5%nat → ∀ u code ctx, ∃ w'', emailLogin_tx ttl u h code ctx w' = (Ok None, w'') ∧
     db w'' = db w').
Proof using H2.
  destruct (counted_guesses h n w w' Hguesses Hw) as [Hw' Hcount]. split.
  - destruct Hcount as [->|(i&c&Hi&_&Hn)]; [lia|].
    destruct Hw' as (_&(_&_&_&_&[Hk _])&_). destruct (Hk _ _ Hi) as [_ [? _]]. lia.
  - intros -> u code ctx. destruct Hcount as [?|(i&c&Hi&Hh&Hn)]; [done|].
    pose proof Hw' as (_&(_&_&_&_&Hok)&_). destruct Hok as [Hk Hd] eqn:E.
    unfold emailLogin_tx. unfold mbind at 1, M_bind at 1. rewrite lockCustomer_run.
    unfold mbind at 1, M_bind at 1. cbn [read_auth read gets].
    unfold mbind at 1, M_bind at 1. cbn [new_date].
    destruct (locked_customer u (db w')) as [user|]; [|by eexists].
    destruct (find_unique _ _ _) as [c'|] eqn:Hf; [|by eexists].
    destruct (find_hash _ _ c' i c Hok Hf Hi) as [-> _]; [done|].
    destruct (email_challenge_valid user c _ ctx) eqn:Hv; [|by eexists].
    apply challenge_unused in Hv as [_ H5]. lia.
Qed.
End email_codes.

Lemma compared_wrong_check u h code ctx w :
  match locked_customer u (db w),
        find_unique (emailChallenges (authTables (db w))) ech_tokenHash h with
  | Some user, Some c =>
      email_challenge_valid user c (clock w (ticks w)) ctx &&
      match decrypt_token decipher_token (ech_deliveryCiphertext c) with
      | Ok e => negb (equalHexDigest (hashOpaqueToken code) (hashOpaqueToken e)) | Err _ => false
      end
  | _, _ => false
  end = true → compared_wrong u h code ctx w.
Proof.
  intros Hc. destruct (locked_customer u _) as [user|] eqn:Hu; [|discriminate].
  destruct (find_unique _ _ _) as [c|] eqn:Hf; [|discriminate].
  apply andb_true_iff in Hc as [Hv Hd]. destruct (decrypt_token _ _) as [e|] eqn:He; [|discriminate].
  apply negb_true_iff in Hd. by exists user, c, e.
Qed.
Lemma sample_guesses n : compared_wrong "person" mailed_hash "000000" sample_context (after_guesses n) →
  wrong_guesses sample_ttl mailed_hash n two_step_start (after_guesses n) →
  wrong_guesses sample_ttl mailed_hash (S n) two_step_start (after_guesses (S n)).
Proof. intros Hc Hg. by eapply one_more; [exact Hg|exact Hc|apply rtc_refl]. Qed.
Lemma email_code_guesses_bounded_witness :
  is_ok (fst (emailLogin_tx sample_ttl "person" mailed_hash "999999" sample_context
                (after_guesses 4))) = true ∧
  ∃ w'', emailLogin_tx sample_ttl "person" mailed_hash "999999" sample_context (after_guesses 5) =
    (Ok None, w'') ∧ db w'' = db (after_guesses 5).
Proof.
  split; [vm_compute; reflexivity|].
  assert (wrong_guesses sample_ttl mailed_hash 5 two_step_start (after_guesses 5)) as Hguesses.
  { do 5 (apply sample_guesses; [apply compared_wrong_check; vm_compute; reflexivity|]).
    apply no_guess, mailed_history. }
  exact (proj2 (email_code_guesses_bounded sample_ttl mailed_hash 5 two_step_start _ two_step_ok
    Hguesses) eq_refl "person" "999999" sample_context).
Defined.
