(* ===== verification/AuthFaults.v ===== *)
(** * Where authentication departs from its description

    Histories of the sample accounts that docs/AUTHENTICATION.md rules out: each is a
    run of the modelled methods. *)
From S2P Require Import Prelude JsString JsDate Json Money States AuthTables Database Invoices Payments HostingServices PanelOperations ServerProtocol Totp TotpProperties Authentication Sessions SecondFactor Staff AuthProtocol AuthSamples.

(** ** Five failures do not close a challenge that was read before

    completeTwoFactorLogin checks failedAttempts on the row it read, and neither the
    update that uses up the challenge nor the verification looks at the count again. *)
Definition wrong_attempt (w : World) : World :=
  snd (attempt "000000" 6630000 first_record w).
Definition five_failures : World := Nat.iter 5 wrong_attempt challenged.
(** Five wrong codes are counted on the challenge; a request that reads it now is
    refused with the right code, one that had read it before opens a session. *)
Theorem challenge_limit_is_advisory :
  lch_failedAttempts <$> loginChallenges (authTables (db five_failures)) !!
    lch_id (ch_challenge first_record) = Some 5 ∧
  fst (completeTwoFactorLogin sample_ttl (cr_challengeToken issued) "000221" None sample_context
         five_failures) = Err invalidTwoFactorException ∧
  is_ok (fst (attempt "000221" 6630000 first_record five_failures)) = true.
Proof. vm_compute. done. Qed.

(** ** A login that began before a password reset

    The administrator's branch of login verifies the password it read and writes the
    session in a transaction of its own, which does not read the user again. *)
Definition stale_admin : UserWithProfiles :=
  default (MkUserWithProfiles sample_admin None None None)
    (user_by_email "admin@example.test" (db sample_start)).
Definition early_reset : World :=
  snd (requestPasswordReset sample_ttl "admin@example.test" sample_context sample_start).
Definition early_row : ActionToken :=
  default no_token (List.hd_error (rows (λ _, true) (resetTokens (authTables (db early_reset))))).
Definition changed : result unit * World :=
  transaction (reset_confirm_tx early_row "argon2:changed" 3030000 sample_context) early_reset.
Definition admin_identity : AuthenticatedIdentity :=
  match toIdentity stale_admin with Ok i => i | Err _ => auth_identity nobody end.
(** What is left of the login once the old password was found right. *)
Definition late_login : result LoginOutcome * World :=
  login_administrator sample_ttl stale_admin admin_identity
    (MkLogin "admin@example.test" "secret" None) sample_context (snd changed).
(** The password that was checked is no longer the user's, and the session it opens
    after the reset is authenticated. *)
Theorem stale_login_survives_reset :
  verify_password (default "" (user_passwordHash (up_user stale_admin))) "secret" = true ∧
  fst changed = Ok tt ∧
  user_passwordHash <$> users (authTables (db (snd changed))) !! "admin" =
    Some (Some "argon2:changed") ∧
  is_ok (fst late_login) = true ∧
  is_ok (fst (authenticateSession sample_ttl (token_of (fst late_login)) (snd late_login))) = true.
Proof. vm_compute. done. Qed.

(** ** An edit between the two steps of an invitation

    updateStaff sets an enabled account without a password to PENDING_VERIFICATION,
    also when its address was verified; setting the password does not make it active. *)
Definition newcomer : User :=
  second_admin <| user_status := UserStatus.ACTIVE |> <| user_emailVerifiedAt := Some 1 |>.
Definition verified_world : World :=
  sample_world <| db := db sample_world <| authTables := authTables (db sample_world)
    <| users := <["operator" := newcomer]> (users (authTables (db sample_world))) |>
    <| resetTokens := {["t" := MkActionToken "t" "operator" (hashOpaqueToken "setup") "" 9000000
                                None 1]} |> |> |>.
Definition renamed : result StaffAccount * World :=
  updateStaff "operator" (MkUpdateStaff "New name" StaffRole.BILLING_OPERATOR true) admin_auth
    sample_context verified_world.
Definition operator_login : Io LoginOutcome :=
  login sample_ttl (MkLogin "operator@example.test" "mine" None) sample_context.
Definition password_set (w : World) : result unit * World :=
  confirmPasswordReset "setup" "mine" sample_context w.
(** Without the edit the operator can log in after setting the password; after it the
    login asks for the verification of an address that is verified. *)
Theorem edited_invitation_is_stuck :
  is_ok (fst (operator_login (snd (password_set verified_world)))) = true ∧
  is_ok (fst renamed) = true ∧ fst (password_set (snd renamed)) = Ok tt ∧
  fst (operator_login (snd (password_set (snd renamed)))) = Err emailVerificationRequired ∧
  (u ← users (authTables (db (snd (password_set (snd renamed))))) !! "operator";
   user_emailVerifiedAt u) = Some 1.
Proof. vm_compute. done. Qed.

(** ** Administrators have an idle limit

    An hour after its last use the session of an administrator who did not ask to be
    remembered is refused and revoked. *)
Theorem browser_administrator_idles :
  administratorSessionMode first_token = Browser ∧
  is_ok (fst (authenticateSession sample_ttl first_token sample_world)) = true ∧
  fst (authenticateSession sample_ttl first_token (moved_to 6640000 sample_world)) =
    Err authenticationRequired ∧
  (s ← authSessions (authTables (db (snd (authenticateSession sample_ttl first_token
          (moved_to 6640000 sample_world))))) !! "id"; ses_revokedReason s) = Some "IDLE_TIMEOUT".
Proof. vm_compute. done. Qed.
