(* ===== verification/AccessProperties.v ===== *)
(** * Properties of the guards and of staff

    CSRF tokens, the permissions of staff, what a support session may do, and the
    administrators that remain. *)
From S2P Require Import Prelude JsString JsDate Json Money States AuthTables Database Invoices Payments HostingServices PanelOperations ServerProtocol Totp TotpProperties Authentication Sessions SecondFactor Staff Guards AuthProtocol AuthSamples.

(** ** Texts *)
Lemma split_on_cons c s : split_on c s ≠ [].
Proof. destruct s as [|d s]; cbn; [done|]. destruct (Ascii.eqb d c); [done|]. by case_match. Qed.
Lemma split_on_one s a : split_on "." s = [a] → s = a.
Proof.
  revert a. induction s as [|c s IH]; intros a Hs; cbn [split_on] in Hs; [by simplify_eq|].
  destruct (Ascii.eqb c ".").
  { injection Hs as _ Hs. by apply split_on_cons in Hs. }
  destruct (split_on "." s) as [|p rest] eqn:E; [by apply split_on_cons in E|].
  injection Hs as <- ->. by rewrite (IH p).
Qed.
Lemma split_on_join s a b : split_on "." s = [a; b] → s = (a ++ "." ++ b)%string.
Proof.
  revert a b. induction s as [|c s IH]; intros a b Hs; cbn [split_on] in Hs; [discriminate|].
  destruct (Ascii.eqb_spec c ".") as [->|Hc].
  - injection Hs as <- Hs. by rewrite (split_on_one s b).
  - destruct (split_on "." s) as [|p rest] eqn:E; [by apply split_on_cons in E|].
    injection Hs as <- ->. by rewrite (IH p b).
Qed.
Lemma hex_value_inj a b :
  is_hex a = true → is_hex b = true → hex_value a = hex_value b → a = b.
Proof.
  intros Ha Hb He. apply code_inj. unfold is_hex, hex_value in *.
  unfold is_digit, in_range in *.
  repeat match goal with |- context [code ?x] => generalize dependent (code x); intros end.
  change (code "0") with 48 in *. change (code "9") with 57 in *.
  change (code "a") with 97 in *. change (code "f") with 102 in *.
  repeat case_match; split_bool; simplify_eq; lia.
Qed.
Lemma hex_value_some a : is_hex a = true → ∃ x, hex_value a = Some x ∧ 0 <= x < 16.
Proof.
  unfold is_hex, hex_value, is_digit, in_range. change (code "0") with 48.
  change (code "9") with 57. change (code "a") with 97. change (code "f") with 102.
  intros Ha. apply orb_true_iff in Ha as [Ha|Ha]; split_bool.
  - replace ((48 <=? code a) && (code a <=? 57)) with true
      by (symmetry; apply andb_true_iff; split; lia).
    eexists. split; [reflexivity|lia].
  - replace ((48 <=? code a) && (code a <=? 57)) with false
      by (symmetry; apply andb_false_iff; right; lia).
    replace ((97 <=? code a) && (code a <=? 102)) with true
      by (symmetry; apply andb_true_iff; split; lia).
    eexists. split; [reflexivity|lia].
Qed.
Lemma from_hex_inj n : ∀ a b, String.length a = (2 * n)%nat → String.length b = (2 * n)%nat →
  all_chars is_hex a = true → all_chars is_hex b = true → from_hex a = from_hex b → a = b.
Proof.
  induction n as [|n IH]; intros a b Ha Hb Hxa Hxb He; [by destruct a, b|].
  destruct a as [|a1 [|a2 a]]; [simpl in Ha; lia..|].
  destruct b as [|b1 [|b2 b]]; [simpl in Hb; lia..|].
  cbn [all_chars] in Hxa, Hxb. split_bool.
  destruct (hex_value_some a1) as (x1&E1&?), (hex_value_some a2) as (x2&E2&?),
    (hex_value_some b1) as (y1&F1&?), (hex_value_some b2) as (y2&F2&?); auto.
  cbn [from_hex] in He. rewrite E1, E2, F1, F2 in He. injection He as Hd He.
  assert (x1 = y1 ∧ x2 = y2) as [-> ->] by lia.
  rewrite (hex_value_inj a1 b1), (hex_value_inj a2 b2) by congruence.
  rewrite (IH a b); simpl in Ha, Hb; auto; lia.
Qed.
Lemma from_hex_length n : ∀ a, String.length a = (2 * n)%nat → all_chars is_hex a = true →
  length (from_hex a) = n.
Proof.
  induction n as [|n IH]; intros a Ha Hx; [by destruct a|].
  destruct a as [|a1 [|a2 a]]; [simpl in Ha; lia..|]. cbn [all_chars] in Hx. split_bool.
  destruct (hex_value_some a1) as (x1&E1&?), (hex_value_some a2) as (x2&E2&?); auto.
  cbn [from_hex]. rewrite E1, E2. cbn [length]. f_equal. apply IH; [simpl in Ha; lia|done].
Qed.
Lemma url_char_ok i : 0 <= i < 64 → is_url_char (url_char i) = true.
Proof.
  intros Hi. assert (forallb (λ i, is_url_char (url_char i)) (Z.of_nat <$> seq 0 64) = true) as Hall
    by (vm_compute; reflexivity).
  rewrite forallb_forall in Hall. apply Hall. rewrite <- list_elem_of_In, list_elem_of_fmap.
  exists (Z.to_nat i). split; [lia|]. apply elem_of_seq. lia.
Qed.
Lemma base64url_shape n : ∀ l, (length l <= n)%nat → Forall (digit_of 256) l →
  all_chars is_url_char (base64url l) = true ∧
  slen (base64url l) = (4 * Z.of_nat (length l) + 2) / 3.
Proof.
  induction n as [n IH] using lt_wf_ind. intros l Hn Hl. unfold digit_of in Hl.
  destruct l as [|a [|b [|c l]]]; [done|..];
    rewrite ?Forall_cons_iff in Hl; destruct_and? Hl; cbn [base64url all_chars].
  - rewrite !slen_cons. change (slen "") with 0.
    rewrite !url_char_ok; [done| |]; Z.to_euclidean_division_equations; lia.
  - rewrite !slen_cons. change (slen "") with 0.
    rewrite !url_char_ok; [done|..]; Z.to_euclidean_division_equations; lia.
  - cbn [length] in Hn. destruct (IH (n - 3)%nat ltac:(lia) l ltac:(lia)) as [IH1 IH2]; [done|].
    rewrite !slen_cons, IH1, IH2. rewrite !url_char_ok;
      [|Z.to_euclidean_division_equations; lia..].
    split; [done|]. cbn [length]. rewrite !Nat2Z.inj_succ.
    Z.to_euclidean_division_equations; lia.
Qed.

(** ** CSRF tokens *)
Lemma url_char_no_dot c : is_url_char c = true → Ascii.eqb c "." = false.
Proof. intros Hc. by destruct (Ascii.eqb_spec c ".") as [->|]. Qed.
Lemma hex_char_no_dot c : is_hex c = true → Ascii.eqb c "." = false.
Proof. intros Hc. by destruct (Ascii.eqb_spec c ".") as [->|]. Qed.
Lemma nonce_no_dot s : nonce_shape s = true → no_dot s = true ∧ truthy s = true.
Proof.
  intros [Hl Hs]%andb_true_iff. split; [|by destruct s].
  eapply all_chars_impl; [|exact Hs]. intros c Hc. by rewrite url_char_no_dot.
Qed.
Lemma signature_no_dot s : signature_shape s = true → no_dot s = true ∧ truthy s = true.
Proof.
  intros [Hl Hs]%andb_true_iff. split; [|by destruct s].
  eapply all_chars_impl; [|exact Hs]. intros c Hc. by rewrite hex_char_no_dot.
Qed.
Lemma signature_digest s : signature_shape s = true →
  String.length s = (2 * 32)%nat ∧ all_chars is_hex s = true ∧ length (from_hex s) = 32%nat.
Proof.
  intros [Hl Hs]%andb_true_iff. unfold slen in Hl. apply Z.eqb_eq in Hl.
  assert (String.length s = (2 * 32)%nat) as E by lia.
  split_and!; [done..|]. by apply from_hex_length.
Qed.

Section csrf.
Context (hmac_csrf : string → string).
Context (hmac_shape : ∀ m, signature_shape (hmac_csrf m) = true).

Lemma validate_shaped nonce signature :
  nonce_shape nonce = true → signature_shape signature = true →
  validate_csrf hmac_csrf (nonce ++ "." ++ signature) =
    Ok (bool_decide (signature = sign hmac_csrf nonce)).
Proof using hmac_shape.
  intros Hn Hs. destruct (nonce_no_dot _ Hn) as [Hd Ht], (signature_no_dot _ Hs) as [Hd' Ht'].
  unfold validate_csrf. rewrite split_dot, split_dotless, Hn, Hs, Ht, Ht' by done. cbn [andb].
  destruct (signature_digest _ Hs) as (L1&A1&D1).
  destruct (signature_digest _ (hmac_shape ("webhost-billing-csrf:v1:" ++ nonce))) as (L2&A2&D2).
  unfold equal_digests. fold (sign hmac_csrf nonce) in *. rewrite D1, D2. cbn. f_equal.
  apply bool_decide_ext. split; [|by intros ->]. intros He.
  by apply (from_hex_inj 32).
Qed.
Lemma validate_answers token :
  ∃ b, validate_csrf hmac_csrf token = Ok b ∧
    (b = true ↔ ∃ nonce, nonce_shape nonce = true ∧
                  token = (nonce ++ "." ++ sign hmac_csrf nonce)%string).
Proof using hmac_shape.
  assert (∀ nonce signature, token = (nonce ++ "." ++ signature)%string →
    nonce_shape nonce = true → signature_shape signature = true →
    split_on "." token = [nonce; signature]) as Hsplit.
  { intros nonce signature -> Hn Hs. apply nonce_no_dot in Hn as [Hn _].
    apply signature_no_dot in Hs as [Hs _]. by rewrite split_dot, split_dotless. }
  assert ((∃ nonce signature, token = (nonce ++ "." ++ signature)%string ∧
           nonce_shape nonce = true ∧ signature_shape signature = true) ∨
          (validate_csrf hmac_csrf token = Ok false ∧ ∀ nonce signature,
             split_on "." token = [nonce; signature] → nonce_shape nonce = true →
             signature_shape signature = true → False)) as [(n&g&E0&Hn&Hg)|[Hv Hno]].
  { unfold validate_csrf. destruct (split_on "." token) as [|n [|g [|? ?]]] eqn:E;
      try (right; split; [done|intros ?? [=]]; fail).
    apply split_on_join in E as ->.
    destruct (nonce_shape n) eqn:Hn, (signature_shape g) eqn:Hg; [left; eauto|..];
      right; rewrite ?andb_false_r; (split; [done|intros ?? [= <- <-]]; congruence). }
  - pose proof (Hsplit n g E0 Hn Hg) as E1. subst token. rewrite validate_shaped by done.
    eexists. split; [reflexivity|]. rewrite bool_decide_eq_true. split; [intros ->; by exists n|].
    intros (n'&Hn'&E).
    rewrite (Hsplit n' (sign hmac_csrf n') E Hn' (hmac_shape _)) in E1. by injection E1 as -> ->.
  - exists false. split; [done|]. split; [done|]. intros (n&Hn&E). exfalso.
    apply (Hno n (sign hmac_csrf n)); [|done|apply hmac_shape].
    apply Hsplit; [done..|apply hmac_shape].
Qed.
(** The token a request must show, as the cookie and as the header. *)
Definition shows_token (webOrigin : string) (r : HttpRequest) : Prop :=
  ∃ nonce token, nonce_shape nonce = true ∧
    token = (nonce ++ "." ++ sign hmac_csrf nonce)%string ∧
    rq_csrfCookie r = Some token ∧ rq_csrfHeader r = Some token ∧
    rq_fetchSite r ≠ Some "cross-site" ∧
    (∀ o, rq_origin r = Some o → o = "" ∨ o = webOrigin).
Lemma present_none s t : present s = None → t ≠ "" → s ≠ Some t.
Proof. intros Hs Ht ->. destruct t; [done|discriminate]. Qed.
Lemma present_some s t : present s = Some t → s = Some t ∧ t ≠ "".
Proof. unfold present. destruct s as [[|]|]; cbn; [discriminate| |discriminate]. by intros [= <-]. Qed.
Lemma foreign_spec webOrigin r :
  foreign_origin webOrigin r = false ↔ ∀ o, rq_origin r = Some o → o = "" ∨ o = webOrigin.
Proof.
  unfold foreign_origin. destruct (rq_origin r) as [[|c o]|]; [|change (present _) with (Some (String c o)); cbn beta iota|].
  - split; [|done]. intros _ o [= <-]. by left.
  - rewrite negb_false_iff, String.eqb_eq. split.
    + intros E ? [= <-]. by right.
    + intros Ho. by destruct (Ho _ eq_refl).
  - by split.
Qed.
Lemma unsafe_request webOrigin r cookie header :
  rq_csrfCookie r = Some cookie → rq_csrfHeader r = Some header →
  negb (bool_decide (rq_fetchSite r = Some "cross-site") || foreign_origin webOrigin r) &&
    String.eqb cookie header = true →
  validate_csrf hmac_csrf header = Ok true ↔ shows_token webOrigin r.
Proof using hmac_shape.
  intros Hc Hh Hok. split_bool. rewrite String.eqb_eq in *. subst header.
  destruct (validate_answers cookie) as (b&->&Hb). split.
  - intros [= ->]. destruct Hb as [Hb _]. destruct Hb as (n&Hn&E); [done|].
    exists n, cookie. split_and!; try done. by apply foreign_spec.
  - intros (n&t&Hn&->&Hc'&_). f_equal. apply Hb. exists n. split; [done|congruence].
Qed.
(** A request passes the CSRF guard exactly when its handler asks for no token,
    its method is safe, or its cookie and its header show the same token, which this
    server signed, from no other site or origin; every other request is refused with
    the same answer, and no comparison fails. *)
Theorem csrf_guard_exact webOrigin route r :
  csrf_guard hmac_csrf webOrigin route r ∈ [Ok tt; Err csrf_failed] ∧
  (csrf_guard hmac_csrf webOrigin route r = Ok tt ↔
   rt_skipCsrf route = true ∨ safe_method (rq_method r) = true ∨ shows_token webOrigin r).
Proof using hmac_shape.
  unfold csrf_guard. destruct (rt_skipCsrf route); [by split; [left|intuition]|].
  destruct (safe_method (rq_method r)); [by split; [left|intuition]|]. cbn [orb].
  assert ((Err csrf_failed : result unit) ∈ [Ok tt; Err csrf_failed]) as Hin by (right; left).
  assert (∀ n, (n ++ "." ++ sign hmac_csrf n)%string ≠ "") as Hne by (by intros []).
  destruct (present (rq_csrfCookie r)) as [cookie|] eqn:Hc;
    [destruct (present (rq_csrfHeader r)) as [header|] eqn:Hh|].
  - apply present_some in Hc as [Hc _], Hh as [Hh _].
    destruct (negb _ && _) eqn:Hok; cbn.
    + pose proof (unsafe_request _ _ _ _ Hc Hh Hok) as Hiff.
      destruct (validate_answers header) as (b&Hv&_). rewrite Hv in Hiff |- *. cbn.
      destruct b; cbn; (split; [done || by left|]).
      * split; [intros _; right; right; by apply Hiff|done].
      * split; [done|]. intros [?|[?|Hs]]; [done..|]. apply Hiff in Hs. discriminate.
    + split; [done|]. split; [done|]. intros [?|[?|Hs]]; [done..|].
      destruct Hs as (n&t&_&_&Hc'&Hh'&Hsite&Ho). apply foreign_spec in Ho.
      rewrite Hc in Hc'. rewrite Hh in Hh'. rewrite Ho, bool_decide_false in Hok by done.
      injection Hc' as ->. injection Hh' as ->. by rewrite String.eqb_refl in Hok.
  - split; [done|]. split; [done|]. intros [?|[?|(n&t&_&->&_&E&_)]]; [done..|].
    by apply (present_none _ _ Hh (Hne n)) in E.
  - split; [done|]. split; [done|]. intros [?|[?|(n&t&_&->&E&_)]]; [done..|].
    by apply (present_none _ _ Hc (Hne n)) in E.
Qed.
(** A generated token passes. *)
Lemma generated_csrf_valid (random_bytes : nat → Io (list Z)) w token w'
    (Hbytes : ∀ n w bytes w', random_bytes n w = (Ok bytes, w') →
                length bytes = n ∧ Forall (digit_of 256) bytes) :
  generate_csrf hmac_csrf random_bytes w = (Ok token, w') →
  validate_csrf hmac_csrf token = Ok true.
Proof using hmac_shape.
  unfold generate_csrf, random_token. intros Hrun. apply bind_Ok in Hrun as (n&w1&Hr&Hrun).
  apply ret_Ok in Hrun as [-> ->]. apply bind_Ok in Hr as (bytes&w2&Hb&Hr).
  apply ret_Ok in Hr as [-> ->]. destruct (Hbytes _ _ _ _ Hb) as [Hl Hd].
  destruct (base64url_shape _ bytes (le_n _) Hd) as [Hs Hn].
  rewrite validate_shaped; [|by unfold nonce_shape; rewrite Hs, Hn, Hl|apply hmac_shape].
  by rewrite bool_decide_true.
Qed.
End csrf.
(** A signature that shows the parity of what was signed. *)
Definition sample_signature (m : string) : string :=
  Nat.iter 64 (String (if Z.even (slen m) then "a" else "b")) "".
Lemma sample_signature_shape m : signature_shape (sample_signature m) = true.
Proof. unfold sample_signature. by destruct (Z.even (slen m)). Qed.
Definition sample_nonce : string := Nat.iter 43 (String "A") "".
Definition signed_token : string := (sample_nonce ++ "." ++ sign sample_signature sample_nonce)%string.
Definition forged_token : string := (sample_nonce ++ "." ++ Nat.iter 64 (String "c") "")%string.
Definition posted (cookie header : option string) : HttpRequest :=
  MkHttpRequest "POST" None None cookie header (Some "https://web.example.test") None [] "" JNull.
Definition plain_route : RouteMetadata := MkRoute false false None [] None None.
Lemma csrf_guard_exact_witness :
  csrf_guard sample_signature "https://web.example.test" plain_route
    (posted (Some signed_token) (Some signed_token)) = Ok tt ∧
  csrf_guard sample_signature "https://web.example.test" plain_route
    (posted (Some forged_token) (Some forged_token)) = Err csrf_failed ∧
  shows_token sample_signature "https://web.example.test"
    (posted (Some signed_token) (Some signed_token)).
Proof.
  split; [vm_compute; reflexivity|]. split; [vm_compute; reflexivity|].
  destruct (csrf_guard_exact sample_signature sample_signature_shape "https://web.example.test"
    plain_route (posted (Some signed_token) (Some signed_token))) as [_ Hiff].
  destruct (proj1 Hiff) as [Hno|[Hno|Hshows]]; [vm_compute; reflexivity|discriminate Hno| |exact Hshows].
  vm_compute in Hno. discriminate Hno.
Defined.

(** ** Support sessions *)
Section support.
Context `{ZodFormats} `{Sha256} `{AuthCrypto} (ttl : AuthTtl).

(** What the authentication of a request leaves alone. *)
Definition bystanders (d : Db) :=
  (supportSessions (authTables d), users (authTables d), customers d).
#[local] Instance authenticate_bystanders token :
  Keeps bystanders (authenticateSession ttl token).
Proof using Type.
  unfold authenticateSession, revoke_session_tx, touch_session, update_row_if, read_auth, write_auth.
  apply _.
Qed.
Lemma bystanders_support_session d d' t a now :
  bystanders d' = bystanders d → support_session t a now d' = support_session t a now d.
Proof using Type.
  unfold bystanders. intros [=E1 E2 E3]. unfold support_session, eligible_customer, eligibleSupportCustomer.
  rewrite E1, E3. destruct (find_unique _ _ _) as [s|]; [cbn|done].
  destruct (customers d !! _) as [c|]; [cbn|done]. by rewrite E2.
Qed.
Definition reads (r : HttpRequest) : Prop := rq_method r = "GET" ∨ rq_method r = "HEAD".
Lemma reads_spec r :
  String.eqb (rq_method r) "GET" || String.eqb (rq_method r) "HEAD" = true ↔ reads r.
Proof using Type. unfold reads. by rewrite orb_true_iff, !String.eqb_eq. Qed.
(** The live support session of a full administrator that a request shows. *)
Definition support_of (r : HttpRequest) (supportToken : string) (w : World)
    (auth : AuthRequestContext) : Prop :=
  ∃ token admin w1 s c u, rq_sessionCookie r = Some token ∧
    authenticateSession ttl token w = (Ok admin, w1) ∧
    identity_staffRole (auth_identity admin) = Some StaffRole.FULL_ADMINISTRATOR ∧
    find_unique (supportSessions (authTables (db w))) sup_tokenHash
      (hashOpaqueToken supportToken) = Some s ∧
    sup_adminSessionId s = auth_sessionId admin ∧ sup_endedAt s = None ∧
    clock w1 (ticks w1) < sup_expiresAt s ∧
    customers (db w) !! sup_customerId s = Some c ∧ eligibleSupportCustomer (db w) c = true ∧
    users (authTables (db w)) !! usr_id c = Some u ∧
    auth = MkAuthContext (CustomerAccount (usr_id c) (user_email u) (sup_customerId s)
                            (Some (to_ISO_string (sup_expiresAt s))))
             (sup_id s) None (Some (auth_userId admin)).

Lemma support_authenticated r token supportToken w auth w' :
  rq_sessionCookie r = Some token →
  authenticateCustomerSupportSession ttl token supportToken w = (Ok auth, w') →
  support_of r supportToken w auth.
Proof using Type.
  intros Htok Hrun. unfold authenticateCustomerSupportSession in Hrun.
  apply bind_Ok in Hrun as (admin&w1&Ha&Hrun). apply bind_Ok in Hrun as (?&w2&Hf&Hrun).
  apply lift_Ok in Hf as [Hf ->]. unfold requireFullAdministrator, is_full_administrator in Hf.
  apply throw_unless_Ok in Hf. apply bool_decide_eq_true in Hf.
  pose proof (keeps_run _ _ _ _ _ (authenticate_bystanders token) Ha) as Hby.
  apply bind_Ok in Hrun as (now&w2&Hn&Hrun). apply new_date_Ok in Hn as [-> ->].
  apply bind_Ok in Hrun as (found&w2&Hr&Hrun). apply read_Ok in Hr as [-> ->].
  change (db (w1 <| ticks := S (ticks w1) |>)) with (db w1) in Hrun.
  rewrite (bystanders_support_session _ _ _ _ _ Hby) in Hrun.
  apply bind_Ok in Hrun as ([s c]&w2&Hs&Hrun). apply lift_Ok in Hs as [Hs ->].
  apply of_option_Ok in Hs. unfold support_session, eligible_customer in Hs.
  destruct (find_unique _ _ _) as [s'|] eqn:Ef; [cbn in Hs|discriminate].
  destruct (customers _ !! _) as [c'|] eqn:Ec; [cbn in Hs|discriminate].
  destruct (eligibleSupportCustomer _ _) eqn:Ee; [cbn in Hs|discriminate].
  destruct (_ && _) eqn:Hlive; [|discriminate]. injection Hs as -> ->.
  apply bind_Ok in Hrun as (e&w2&Hr&Hrun). apply read_Ok in Hr as [-> ->].
  apply bind_Ok in Hrun as (e'&w2&He&Hrun). apply lift_Ok in He as [He ->].
  apply of_option_Ok in He. apply ret_Ok in Hrun as [-> ->].
  unfold bystanders in Hby. injection Hby as _ Hu _.
  change (db (w1 <| ticks := S (ticks w1) |>)) with (db w1) in He.
  rewrite Hu in He. apply fmap_Some in He as (u & Hus & ->).
  split_bool. match goal with H : is_set _ = false |- _ => apply is_set_false in H end.
  rewrite String.eqb_eq in *.
  exists token, admin, w1, s, c, u. by split_and!.
Qed.

(** C23: A support session only reads.  A request that shows the cookie of a support
    session is given an identity only for GET and HEAD on a handler opened to support,
    and then that of the customer of a support session that has not ended or expired,
    of the full administrator whose own session the request shows as well, while the
    customer may still be supported; a public handler is let through without an
    identity to read, or to end the session; any other request, with whatever method
    and session cookie, is refused before anything is read. *)
Theorem support_session_reads_only route r supportToken w
    (Hcookie : rq_supportCookie r = Some supportToken) :
  (∀ auth w', session_guard ttl route r w = (Ok (Some auth), w') →
     reads r ∧ rt_supportAccess route = Some SupportRead ∧ support_of r supportToken w auth) ∧
  (∀ w', session_guard ttl route r w = (Ok None, w') → w' = w ∧ rt_public route = true ∧
     (reads r ∧ rt_supportAccess route = Some SupportRead ∨
      rt_supportAccess route = Some SupportEnd)) ∧
  (¬ (reads r ∧ rt_supportAccess route = Some SupportRead) →
   ¬ (rt_public route = true ∧ rt_supportAccess route = Some SupportEnd) →
   session_guard ttl route r w = (Err support_read_only, w)).
Proof using Type.
  unfold session_guard. rewrite Hcookie.
  destruct (_ && _) eqn:Hpub.
  { split; [|split].
    - intros auth w' Hrun. apply ret_Ok in Hrun as [? _]. discriminate.
    - intros w' Hrun. apply ret_Ok in Hrun as [_ ->]. apply andb_true_iff in Hpub as [Hp Ho].
      split_and!; [done..|]. apply orb_true_iff in Ho as [Ho|Ho].
      + apply andb_true_iff in Ho as [Hr Ha]. apply reads_spec in Hr.
        apply bool_decide_eq_true in Ha. by left.
      + apply bool_decide_eq_true in Ho. by right.
    - intros Hr He. exfalso. apply andb_true_iff in Hpub as [Hp Ho].
      apply orb_true_iff in Ho as [Ho|Ho].
      + apply andb_true_iff in Ho as [Hr' Ha]. apply reads_spec in Hr'.
        apply bool_decide_eq_true in Ha. by apply Hr.
      + apply bool_decide_eq_true in Ho. by apply He. }
  destruct (_ && bool_decide _) eqn:Hread; cbn [require].
  - apply andb_true_iff in Hread as [Hr Ha]. apply reads_spec in Hr.
    apply bool_decide_eq_true in Ha. split; [|split].
    + intros auth w' Hrun. split_and!; [done..|]. apply bind_Ok in Hrun as (?&w1&Hq&Hrun).
      apply require_Ok in Hq as [_ ->].
      destruct (present (rq_sessionCookie r)) as [t|] eqn:Ht; [|discriminate].
      apply present_some in Ht as [Ht _]. apply bind_Ok in Hrun as (a&w1&Hs&Hrun).
      apply ret_Ok in Hrun as [[= ->] ->]. by apply (support_authenticated r t) in Hs.
    + intros w' Hrun. apply bind_Ok in Hrun as (?&w1&Hq&Hrun). apply require_Ok in Hq as [_ ->].
      destruct (present (rq_sessionCookie r)) as [t|]; [|discriminate].
      apply bind_Ok in Hrun as (a&w1&Hs&Hrun). apply ret_Ok in Hrun as [? _]. discriminate.
    + intros Hno. exfalso. by apply Hno.
  - split; [|split]; [by intros ?? ?|by intros ? ?|]. done.
Qed.
End support.

(** The administrator of the samples supports the sample customer. *)
Definition support_run : result string * World :=
  startCustomerSupportSession admin_auth "c" "asked by telephone" sample_context sample_world.
Definition support_token : string := match fst support_run with Ok t => t | Err _ => "" end.
Definition customer_page : RouteMetadata :=
  MkRoute false false (Some SupportRead) [UserRole.CUSTOMER] None None.
Definition supported (method : string) : HttpRequest :=
  MkHttpRequest method (Some first_token) (Some support_token) None None None None [] "" JNull.
Definition support_get : result (option AuthRequestContext) * World :=
  session_guard sample_ttl customer_page (supported "GET") (snd support_run).
Lemma support_session_reads_only_witness :
  is_ok (fst support_get) = true ∧
  session_guard sample_ttl customer_page (supported "DELETE") (snd support_run) =
    (Err support_read_only, snd support_run) ∧
  ∃ auth, fst support_get = Ok (Some auth) ∧
    support_of sample_ttl (supported "GET") support_token (snd support_run) auth.
Proof.
  split; [vm_compute; reflexivity|].
  pose proof (support_session_reads_only sample_ttl customer_page (supported "DELETE") support_token
    (snd support_run) eq_refl) as (_&_&Hdelete).
  pose proof (support_session_reads_only sample_ttl customer_page (supported "GET") support_token
    (snd support_run) eq_refl) as (Hget&_&_).
  split.
  - apply Hdelete; [intros [[Hno|Hno] _]; discriminate|intros [Hno _]; discriminate].
  - assert (∃ auth, fst support_get = Ok (Some auth)) as [auth Hauth]
      by (vm_compute; eexists; reflexivity).
    exists auth. split; [exact Hauth|].
    unfold support_get in Hauth. apply (Hget auth (snd support_get)). unfold support_get.
    rewrite <- Hauth. apply surjective_pairing.
Defined.

(** ** Roles *)
(** Who may reach a handler. *)
Definition staff_may (permission : option StaffPermission) (role : StaffRole)
    (twoFactor : bool) : Prop :=
  match permission with
  | None => role = StaffRole.FULL_ADMINISTRATOR
  | Some StaffManage => role = StaffRole.FULL_ADMINISTRATOR ∧ twoFactor = true
  | Some AccountSelf => True
  | Some TicketsManage => role = StaffRole.FULL_ADMINISTRATOR ∨
      (role = StaffRole.SUPPORT_OPERATOR ∧ twoFactor = true)
  | Some (CustomersRead | InvoicesRead | InvoicesManage | PaymentsRead | PaymentsManage
         | BusinessPresentation) => role = StaffRole.FULL_ADMINISTRATOR ∨
      (role = StaffRole.BILLING_OPERATOR ∧ twoFactor = true)
  end.
Definition may_reach (route : RouteMetadata) (auth : option AuthRequestContext) : Prop :=
  (rt_roles route = [] ∨
   ∃ a, auth = Some a ∧ identity_role (auth_identity a) ∈ rt_roles route) ∧
  ∀ a i e p n role twoFactor, auth = Some a →
    auth_identity a = Administrator i e p n role twoFactor →
    staff_may (rt_permission route) role twoFactor.
Lemma role_allowed_spec route auth :
  role_allowed route auth = true ↔
  rt_roles route = [] ∨ ∃ a, auth = Some a ∧ identity_role (auth_identity a) ∈ rt_roles route.
Proof.
  unfold role_allowed. destruct (rt_roles route) as [|r l]; [by split; [left|]|].
  destruct auth as [a|].
  - rewrite bool_decide_eq_true. split.
    + intros Hin. right. by exists a.
    + intros [?|(?&[= <-]&?)]; [discriminate|done].
  - split; [discriminate|]. by intros [?|(?&?&_)].
Qed.
Lemma staff_allowed_spec route auth :
  staff_allowed route auth = true ↔
  ∀ a i e p n role twoFactor, auth = Some a →
    auth_identity a = Administrator i e p n role twoFactor →
    staff_may (rt_permission route) role twoFactor.
Proof.
  assert (∀ permission role twoFactor,
    staff_allowed (MkRoute false false None [] permission None)
      (Some (MkAuthContext (Administrator "" "" "" None role twoFactor) "" None None)) = true ↔
    staff_may permission role twoFactor) as Htable.
  { intros [[]|] [] []; vm_compute; intuition congruence. }
  assert (∀ a i e p n role twoFactor, auth_identity a = Administrator i e p n role twoFactor →
    staff_allowed route (Some a) = staff_allowed (MkRoute false false None [] (rt_permission route) None)
      (Some (MkAuthContext (Administrator "" "" "" None role twoFactor) "" None None))) as Hsame.
  { intros a i e p n role twoFactor E. unfold staff_allowed. cbn [fmap option_fmap option_map].
    by rewrite E. }
  destruct auth as [a|]; [|by split].
  destruct (auth_identity a) as [i e p n role twoFactor|i e c x] eqn:E.
  - rewrite (Hsame a i e p n role twoFactor E), Htable. split; [|eauto].
    intros Hmay b *. intros [= <-] E'. rewrite E in E'. by injection E' as <- <- <- <- <- <-.
  - unfold staff_allowed. cbn [fmap option_fmap option_map]. rewrite E. split; [|done].
    intros _ b *. intros [= <-]. by rewrite E.
Qed.
(** The roles guard lets a request through exactly when its account has one of the
    roles of the handler, if it names any, and an administrator's staff role and second
    factor suffice for the handler's permission: full administrators for all but staff
    changes without a second factor, the others with one for what they are granted, and
    anyone for their own account; a handler without a permission is for full
    administrators.  A refused request changes nothing but the audit log. *)
Theorem roles_guard_decides route auth context w :
  (roles_guard route auth context w = (Ok tt, w) ∧ may_reach route auth) ∨
  (¬ may_reach route auth ∧ ∃ logs,
     roles_guard route auth context w =
       (Err (forbidden "You do not have permission to perform this action."),
        w <| db := db w <| activityLogs := logs |> |>)).
Proof.
  assert (role_allowed route auth && staff_allowed route auth = true ↔ may_reach route auth) as Hiff
    by (unfold may_reach; by rewrite andb_true_iff, role_allowed_spec, staff_allowed_spec).
  unfold roles_guard. destruct (_ && _); [left; split; [done|by apply Hiff]|].
  right. split; [intros Hm; by apply Hiff in Hm|].
  destruct auth as [a|]; [by eexists|]. exists (activityLogs (db w)). by destruct w as [[]].
Qed.
