(* ===== verification/StaffProperties.v ===== *)
(** * Properties of staff

    A full administrator who changes staff stays one, so that the accounts can
    always be administered. *)
From S2P Require Import Prelude JsString JsDate Json Money States AuthTables Database Invoices Payments HostingServices PanelOperations Totp Authentication Sessions SecondFactor Staff AuthProtocol AuthSamples.

(** ** The rows of accounts

    Users and profiles under their identifiers, and a user's profile is unique. *)
Definition accounts_ok (a : AuthTables) : Prop :=
  (∀ i u, users a !! i = Some u → user_id u = i) ∧
  (∀ i p, adminProfiles a !! i = Some p → ap_id p = i) ∧
  (∀ i j p q, adminProfiles a !! i = Some p → adminProfiles a !! j = Some q →
     ap_userId p = ap_userId q → i = j).
Definition staff_rows (d : Db) :=
  (users (authTables d), adminProfiles (authTables d), totpCredentials (authTables d)).

Lemma find_profile a i p userId :
  accounts_ok a → adminProfiles a !! i = Some p → ap_userId p = userId →
  profile_of userId a = Some p.
Proof.
  intros (_&_&Hu) Hp Hid. unfold profile_of.
  destruct (find_unique _ _ _) as [q|] eqn:Hq.
  - apply find_unique_Some in Hq as (j&Hj&Hjd). f_equal.
    assert (i = j) as <- by (apply (Hu i j p q); congruence). congruence.
  - exfalso. unfold find_unique in Hq. apply fmap_None in Hq.
    pose proof (find_none _ _ Hq (i, p)) as Hn. cbn in Hn.
    rewrite bool_decide_true in Hn by done. discriminate Hn.
    apply list_elem_of_In, elem_of_map_to_list, Hp.
Qed.
Lemma profile_row a userId p :
  accounts_ok a → profile_of userId a = Some p →
  adminProfiles a !! ap_id p = Some p ∧ ap_userId p = userId.
Proof.
  intros (_&Hk&_) Hp. apply find_unique_Some in Hp as (i&Hi&Hid).
  rewrite (Hk i p Hi). done.
Qed.
Lemma count_rows_pos {R} (p : R → bool) (m : gmap string R) i r :
  m !! i = Some r → p r = true → 0 < count_rows p m.
Proof.
  intros Hr Hp. unfold count_rows. assert (r ∈ rows p m) as Hin by (apply elem_rows; eauto).
  destruct (rows p m); [by apply not_elem_of_nil in Hin|]. cbn. lia.
Qed.

Section staff.
Context `{ZodFormats} `{Sha256} `{AuthCrypto}.

Lemma authorized_parts userId d :
  staff_authorized (user_by_id userId d) = true →
  ∃ u p, users (authTables d) !! userId = Some u ∧
    profile_of (user_id u) (authTables d) = Some p ∧ administrator u = true ∧
    active u = true ∧ deleted u = false ∧ is_set (user_emailVerifiedAt u) = true ∧
    has_password u = true ∧ ap_staffRole p = StaffRole.FULL_ADMINISTRATOR ∧
    totp_enabled (credential_of (user_id u) (authTables d)) = true.
Proof using Type.
  unfold staff_authorized, user_by_id. destruct (users _ !! userId) as [u|]; [|done].
  cbn. unfold full_profile. cbn. intros Ha. destruct (profile_of _ _) as [p|] eqn:Hp; [|by rewrite andb_false_r in Ha].
  split_bool. exists u, p. by split_and!.
Qed.
Lemma authorized_of userId d u p :
  users (authTables d) !! userId = Some u →
  profile_of (user_id u) (authTables d) = Some p → administrator u = true →
  active u = true → deleted u = false → is_set (user_emailVerifiedAt u) = true →
  has_password u = true → ap_staffRole p = StaffRole.FULL_ADMINISTRATOR →
  totp_enabled (credential_of (user_id u) (authTables d)) = true →
  staff_authorized (user_by_id userId d) = true.
Proof using Type.
  intros Hu Hp H1' H2' H3' H4' H5' H6' H7'. unfold staff_authorized, user_by_id. rewrite Hu. cbn.
  unfold full_profile. cbn. by rewrite Hp, H1', H2', H3', H4', H5', H6', H7'.
Qed.
Lemma has_password_some u : has_password u = true → is_Some (user_passwordHash u).
Proof using Type. unfold has_password. by destruct (user_passwordHash u). Qed.
(** An authorized administrator other than the one being changed is counted. *)
Lemma authorized_counted actor userId d :
  accounts_ok (authTables d) → actor ≠ userId →
  staff_authorized (user_by_id actor d) = true → 0 < other_full userId (authTables d).
Proof using Type.
  intros Hok Hne Ha. apply authorized_parts in Ha as (u&p&Hu&Hp&Ad&Ac&De&Em&Pw&Ro&_).
  apply (count_rows_pos _ _ actor u Hu). destruct Hok as (Hk&_). rewrite (Hk _ _ Hu) in *.
  unfold usable_full. rewrite (Hk _ _ Hu), Hp, Ad, Ac, De, Em.
  rewrite bool_decide_true by by apply has_password_some.
  rewrite bool_decide_true by done. by destruct (String.eqb_spec actor userId).
Qed.
Lemma update_user_rows id f w r w' :
  update_user id f w = (Ok r, w') →
  ∃ u now, users (authTables (db w)) !! id = Some u ∧
    staff_rows (db w') = (<[id := f u <| user_updatedAt := now |>]> (users (authTables (db w))),
                          adminProfiles (authTables (db w)), totpCredentials (authTables (db w))).
Proof using Type.
  unfold update_user. intros Hrun. apply bind_Ok in Hrun as (n&w1&Hu&Hrun).
  apply require_Ok in Hrun as [Hn ->]. apply Z.eqb_eq in Hn as ->.
  unfold update_user_if in Hu. apply bind_Ok in Hu as (now&w2&Hn&Hu).
  apply new_date_Ok in Hn as [_ ->].
  apply bind_Ok in Hu as (m&w3&Hm&Hu). apply read_Ok in Hm as [-> ->].
  cbn [db set_field] in Hu. destruct (users _ !! id) as [u|] eqn:E; [|discriminate].
  apply bind_Ok in Hu as (?&w3&Hw&Hu). apply ret_Ok in Hu as [_ ->].
  unfold put_user in Hw. apply write_Ok in Hw as ->. exists u, now. by split.
Qed.
Lemma put_profile_rows p w r w' :
  put_profile p w = (Ok r, w') →
  staff_rows (db w') = (users (authTables (db w)), <[ap_id p := p]> (adminProfiles (authTables (db w))),
                        totpCredentials (authTables (db w))).
Proof using Type. intros Hw. unfold put_profile, write_auth in Hw. by apply write_Ok in Hw as ->. Qed.

(** Both rows of one account replaced. *)
Lemma accounts_ok_replace a a' userId u u' p p' :
  accounts_ok a → users a !! userId = Some u → adminProfiles a !! ap_id p = Some p →
  user_id u' = user_id u → ap_id p' = ap_id p → ap_userId p' = ap_userId p →
  users a' = <[userId := u']> (users a) →
  adminProfiles a' = <[ap_id p' := p']> (adminProfiles a) → accounts_ok a'.
Proof using Type.
  intros (Hk&Hkp&Hu) Hrow Hp Eu Ep Epu Ea Ea'. unfold accounts_ok. rewrite Ea, Ea', Ep.
  split_and!.
  - intros i v. rewrite lookup_insert_Some. intros [[<- <-]|[_ Hv]]; [|eauto].
    rewrite Eu. eauto.
  - intros i q. rewrite lookup_insert_Some. intros [[<- <-]|[_ Hq]]; eauto.
  - intros i j q q'. rewrite !lookup_insert_Some.
    intros [[<- <-]|[? Hq]] [[<- <-]|[? Hq']] E; [done|..].
    + eapply Hu; [exact Hp|exact Hq'|congruence].
    + eapply Hu; [exact Hq|exact Hp|congruence].
    + by eapply Hu.
Qed.
Lemma lockAndAuthorize_Ok actor w r w' :
  lockAndAuthorize actor w = (Ok r, w') →
  w' = w ∧ staff_authorized (user_by_id (auth_userId actor) (db w)) = true.
Proof using Type.
  unfold lockAndAuthorize. intros Hrun. apply bind_Ok in Hrun as (?&w1&Hl&Hrun).
  apply lock_row_Ok in Hl as ->. apply bind_Ok in Hrun as (found&w1&Hr&Hrun).
  apply read_Ok in Hr as [-> ->]. by apply require_Ok in Hrun as [? ->].
Qed.
Lemma staff_member_Some found u p :
  staff_member found = Some (u, p) →
  found = Some u ∧ up_profile u = Some p ∧ administrator (up_user u) = true ∧
  deleted (up_user u) = false.
Proof using Type.
  unfold staff_member. destruct found as [v|]; [cbn|done].
  destruct (up_profile v) as [q|] eqn:Hq; [cbn|done].
  destruct (_ && _) eqn:Hb; [|done]. intros [= -> ->]. by split_bool.
Qed.
(** What a change of staff writes: the two rows of the account. *)
Definition changed_user (u : User) (input : UpdateStaffRequest) (now : Z) : User :=
  u <| user_status := staff_status u input |> <| user_updatedAt := now |>.
Definition changed_profile (p : AdminProfile) (input : UpdateStaffRequest) : AdminProfile :=
  p <| ap_displayName := st_displayName input |> <| ap_staffRole := st_staffRole input |>.
Lemma updateStaff_rows userId input actor ctx w account w' :
  updateStaff_tx userId input actor ctx w = (Ok account, w') →
  staff_authorized (user_by_id (auth_userId actor) (db w)) = true ∧
  ∃ u p now, users (authTables (db w)) !! userId = Some u ∧
    profile_of (user_id u) (authTables (db w)) = Some p ∧
    (userId = auth_userId actor → demotes input = false) ∧
    staff_rows (db w') = (<[userId := changed_user u input now]> (users (authTables (db w))),
                          <[ap_id p := changed_profile p input]> (adminProfiles (authTables (db w))),
                          totpCredentials (authTables (db w))).
Proof using Type.
  unfold updateStaff_tx. intros Hrun. apply bind_Ok in Hrun as (?&w1&Ha&Hrun).
  apply lockAndAuthorize_Ok in Ha as [-> Ha]. split; [done|].
  apply bind_Ok in Hrun as (found&w1&Hr&Hrun). apply read_Ok in Hr as [-> ->].
  apply bind_Ok in Hrun as ([v p]&w1&Hm&Hrun). apply lift_Ok in Hm as [Hm ->].
  apply of_option_Ok in Hm. apply staff_member_Some in Hm as (Hv&Hp&_&_).
  unfold user_by_id in Hv. apply fmap_Some in Hv as (u & Hu & ->). cbn in Hp.
  apply bind_Ok in Hrun as (?&w1&Hq&Hrun). apply require_Ok in Hq as [Hown ->].
  apply bind_Ok in Hrun as (n&w1&Hr&Hrun). apply read_Ok in Hr as [-> ->].
  apply bind_Ok in Hrun as (?&w1&Hq&Hrun). apply require_Ok in Hq as [_ ->].
  apply bind_Ok in Hrun as (now&w1&Hn&Hrun). apply new_date_Ok in Hn as [_ ->].
  cbn zeta in Hrun. apply bind_Ok in Hrun as (?&w2&Hw2&Hrun).
  apply update_user_rows in Hw2 as (u'&now'&Hu'&E2).
  change (db (w <| ticks := S (ticks w) |>)) with (db w) in *.
  rewrite Hu in Hu'. apply (inj Some) in Hu' as <-.
  apply bind_Ok in Hrun as (?&w3&Hw3&Hrun). apply put_profile_rows in Hw3.
  assert (staff_rows (db w') = staff_rows (db w3)) as E.
  { eapply keeps_run; [|exact Hrun]. unfold invalidateInvitation, update_all, write_auth, staff_user, staff_audit. apply _. }
  exists u, p, now'. split_and!; [done..| |].
  - intros ->. rewrite String.eqb_refl in Hown. by destruct (demotes input).
  - rewrite E, Hw3. unfold staff_rows in E2. injection E2 as -> -> ->. done.
Qed.
End staff.

(** ** Errors that are not raised *)
Lemma throw_unless_Err b e e' : throw_unless b e = Err e' → e' = e.
Proof. destruct b; cbn; congruence. Qed.
Section spares.
Context (e : exn).
(** [m] never fails with [e]. *)
Class Spares {A} (m : Io A) : Prop := spares : ∀ w, fst (m w) ≠ Err e.
#[export] Instance spares_bind {A B} (m : Io A) (k : A → Io B) :
  Spares m → (∀ a, Spares (k a)) → Spares (m ≫= k).
Proof.
  intros Hm Hk w. unfold mbind, M_bind. specialize (Hm w). destruct (m w) as [[a|e'] w1].
  - apply Hk.
  - cbn in *. congruence.
Qed.
Lemma spares_lift {A} (r : result A) : r ≠ Err e → Spares (lift r).
Proof. by intros Hr w. Qed.
#[export] Instance spares_ret {A} (a : A) : Spares (mret a).
Proof. by intros w. Qed.
#[export] Instance spares_read {A} (f : Db → A) : Spares (read f).
Proof. by intros w. Qed.
#[export] Instance spares_write f : Spares (write f).
Proof. by intros w. Qed.
#[export] Instance spares_new_date : Spares new_date.
Proof. by intros w. Qed.
#[export] Instance spares_when b (m : Io unit) : Spares m → Spares (when b m).
Proof. destruct b; [done|]. intros _. apply spares_ret. Qed.
Lemma spares_require b e' : e' ≠ e → Spares (require b e').
Proof. intros He. apply spares_lift. destruct b; cbn; congruence. Qed.
Lemma spares_of_option {A} e' (o : option A) : e' ≠ e → Spares (lift (of_option e' o)).
Proof. intros He. apply spares_lift. destruct o; cbn; congruence. Qed.
End spares.
#[global] Hint Extern 2 (Spares _ (require _ _)) =>
  apply spares_require; discriminate : typeclass_instances.
#[global] Hint Extern 2 (Spares _ (lift (of_option _ _))) =>
  apply spares_of_option; discriminate : typeclass_instances.
#[global] Hint Extern 4 (Spares _ (match ?x with _ => _ end)) => destruct x : typeclass_instances.

Section administrators.
Context `{ZodFormats} `{Sha256} `{AuthCrypto}.

#[local] Instance serialize_spares u : Spares last_full (lift (serialize u)).
Proof using Type.
  apply spares_lift. unfold serialize. destruct (up_profile u); [|discriminate].
  destruct (throw_unless _ _) as [?|e] eqn:He; [by cbn|]. cbn.
  apply throw_unless_Err in He as ->. discriminate.
Qed.
#[local] Instance lock_spares actor : Spares last_full (lockAndAuthorize actor).
Proof using Type. unfold lockAndAuthorize, lock_row. apply _. Qed.
Lemma never_last userId input actor ctx w :
  accounts_ok (authTables (db w)) →
  fst (updateStaff_tx userId input actor ctx w) ≠ Err last_full.
Proof using Type.
  intros Hok. unfold updateStaff_tx. unfold mbind at 1, M_bind at 1.
  destruct (lockAndAuthorize actor w) as [[[]|e] w1] eqn:Ha.
  2: { pose proof (lock_spares actor w) as Hs. rewrite Ha in Hs. cbn in *. congruence. }
  apply lockAndAuthorize_Ok in Ha as [-> Ha].
  unfold mbind at 1, M_bind at 1. cbn [read gets].
  unfold mbind at 1, M_bind at 1. unfold lift at 1.
  destruct (staff_member _) as [[u p]|]; cbn [of_option]; [|discriminate].
  unfold mbind at 1, M_bind at 1.
  destruct (negb (String.eqb userId (auth_userId actor) && demotes input)) eqn:Hown;
    cbn [require lift throw_unless]; [|discriminate].
  unfold mbind at 1, M_bind at 1. cbn [read_auth read gets].
  unfold mbind at 1, M_bind at 1.
  assert (negb (removes_active_full u input && (other_full userId (authTables (db w)) =? 0)) = true)
    as ->.
  { unfold removes_active_full. destruct (demotes input) eqn:Hd; [|by rewrite andb_false_r].
    destruct (String.eqb_spec userId (auth_userId actor)) as [|Hne]; [discriminate|].
    pose proof (authorized_counted _ userId _ Hok (not_eq_sym Hne) Ha).
    destruct (Z.eqb_spec (other_full userId (authTables (db w))) 0); [lia|].
    by rewrite andb_false_r. }
  cbn [require lift throw_unless].
  cbn zeta. unfold invalidateInvitation, staff_audit, log_activity, staff_user, update_user,
    update_user_if, put_user, put_profile, update_all, write_auth, read_auth.
  match goal with |- fst (?k w) ≠ _ => change (fst (k w) ≠ Err last_full);
    apply (_ : Spares last_full k) end.
Qed.
(** The administrator who makes a change, and the account that is changed. *)
Lemma actor_authorized d d' actor userId u p input now :
  accounts_ok (authTables d) → accounts_ok (authTables d') →
  staff_authorized (user_by_id actor d) = true →
  users (authTables d) !! userId = Some u → profile_of (user_id u) (authTables d) = Some p →
  (userId = actor → demotes input = false) →
  staff_rows d' = (<[userId := changed_user u input now]> (users (authTables d)),
                   <[ap_id p := changed_profile p input]> (adminProfiles (authTables d)),
                   totpCredentials (authTables d)) →
  staff_authorized (user_by_id actor d') = true.
Proof using Type.
  intros Hok Hok' Ha Hu Hp Hown Hrows. unfold staff_rows in Hrows. injection Hrows as Eu Ep Et.
  apply authorized_parts in Ha as (v&q&Hv&Hq&Ad&Ac&De&Em&Pw&Ro&To).
  assert (∀ x, credential_of x (authTables d') = credential_of x (authTables d)) as Ec
    by (intros x; unfold credential_of; by rewrite Et).
  pose proof (profile_row _ _ _ Hok Hp) as [Hpi Hpu].
  pose proof (profile_row _ _ _ Hok Hq) as [Hqi Hqu].
  pose proof Hok as (Hk&_&Huniq).
  destruct (decide (userId = actor)) as [->|Hne].
  - rewrite Hu in Hv. injection Hv as ->. rewrite Hp in Hq. injection Hq as ->.
    specialize (Hown eq_refl). unfold demotes in Hown. split_bool.
    apply (authorized_of _ _ (changed_user v input now) (changed_profile q input)); try done.
    + rewrite Eu. apply lookup_insert_eq.
    + apply (find_profile _ (ap_id q)); [done| |done]. rewrite Ep. apply lookup_insert_eq.
    + unfold active. cbn. unfold staff_status.
      match goal with H : st_enabled input = true |- _ => rewrite H end. by rewrite Em, Pw.
    + cbn. by rewrite Ec.
  - apply (authorized_of _ _ v q); try done.
    + rewrite Eu. by rewrite lookup_insert_ne.
    + apply (find_profile _ (ap_id q)); [done| |done]. rewrite Ep, lookup_insert_ne; [done|].
      intros E. rewrite E in Hpi. rewrite Hpi in Hqi. injection Hqi as ->.
      apply Hne. rewrite <- (Hk _ _ Hu), <- (Hk _ _ Hv). congruence.
    + by rewrite Ec.
Qed.
(** C15: The accounts can always be administered.  A change of staff that is answered
    leaves the full administrator who made it active, verified, with a password, a
    second factor and the full role, and the account rows well-formed; one that fails
    changes nothing; and the refusal of the last administrator is never reached: the
    one who asks is always counted. *)
Theorem administrators_remain userId input actor ctx w r w'
    (Hok : accounts_ok (authTables (db w)))
    (Hrun : updateStaff userId input actor ctx w = (r, w')) :
  r ≠ Err last_full ∧
  match r with
  | Ok _ => accounts_ok (authTables (db w')) ∧
      staff_authorized (user_by_id (auth_userId actor) (db w')) = true ∧
      0 < count_rows (usable_full (authTables (db w'))) (users (authTables (db w')))
  | Err _ => db w' = db w
  end.
Proof using Type.
  pose proof (never_last userId input actor ctx w Hok) as Hnever. unfold updateStaff, transaction in Hrun.
  destruct (updateStaff_tx _ _ _ _ w) as [[account|e] w1] eqn:E; cbn in Hnever;
    injection Hrun as <- <-; [|done].
  split; [done|]. apply updateStaff_rows in E as (Ha&u&p&now&Hu&Hp&Hown&Hrows).
  assert (accounts_ok (authTables (db w1))) as Hok1.
  { pose proof (profile_row _ _ _ Hok Hp) as [Hpi _]. unfold staff_rows in Hrows.
    injection Hrows as Eu Ep _.
    by apply (accounts_ok_replace (authTables (db w)) _ userId u (changed_user u input now) p
                (changed_profile p input)). }
  pose proof (actor_authorized _ _ _ _ _ _ _ _ Hok Hok1 Ha Hu Hp Hown Hrows) as Ha1.
  split_and!; [done..|].
  apply authorized_parts in Ha1 as (v&q&Hv&Hq&Ad&Ac&De&Em&Pw&Ro&_).
  apply (count_rows_pos _ _ _ v Hv). unfold usable_full. rewrite Hq, Ad, Ac, De, Em.
  rewrite bool_decide_true by by apply has_password_some. by rewrite bool_decide_true.
Qed.
End administrators.

(** [accounts_ok] of a concrete database. *)
Lemma accounts_check a :
  bool_decide (map_Forall (λ i u, user_id u = i) (users a) ∧
               map_Forall (λ i p, ap_id p = i) (adminProfiles a) ∧
               map_Forall (λ i p, map_Forall (λ j q, ap_userId p = ap_userId q → i = j)
                                    (adminProfiles a)) (adminProfiles a)) = true →
  accounts_ok a.
Proof.
  intros (Hu&Hp&Hq)%bool_decide_eq_true. split_and!; [exact Hu|exact Hp|].
  intros i j p q Hi Hj. exact (Hq i p Hi j q Hj).
Qed.
Definition promotion : UpdateStaffRequest :=
  MkUpdateStaff "Operator" StaffRole.FULL_ADMINISTRATOR true.
Definition resignation : UpdateStaffRequest :=
  MkUpdateStaff "Admin" StaffRole.BILLING_OPERATOR true.
Definition promoted : result StaffAccount * World :=
  updateStaff "operator" promotion admin_auth sample_context sample_world.
Lemma administrators_remain_witness :
  is_ok (fst promoted) = true ∧
  fst (updateStaff "admin" resignation admin_auth sample_context sample_world) = Err own_account ∧
  staff_authorized (user_by_id (auth_userId admin_auth) (db (snd promoted))) = true.
Proof.
  split; [vm_compute; reflexivity|]. split; [vm_compute; reflexivity|].
  assert (accounts_ok (authTables (db sample_world))) as Hok
    by (apply accounts_check; vm_compute; reflexivity).
  assert (is_ok (fst promoted) = true) as Hsome by (vm_compute; reflexivity).
  pose proof (administrators_remain "operator" promotion admin_auth sample_context sample_world
    (fst promoted) (snd promoted) Hok (surjective_pairing _)) as [_ Hafter].
  destruct (fst promoted) as [account|e]; [|discriminate Hsome].
  exact (proj1 (proj2 Hafter)).
Defined.
