(* ===== verification/Registrar.v ===== *)
(** * The registrar

    packages/database/src/registrar: provider.ts with the simulated registrar,
    cipher.ts, preparation.ts, registry-requirements.ts, and of processor.ts
    lockDomainInvoice and verifiedDomainInvoice; registrarIdentity and
    registrarFingerprint of domain-administration.service.ts.  A registrar is a record
    of operations on the world. *)
From S2P Require Import Prelude JsString JsDate Json Money States DomainTables Database Invoices Payments Gateways GatewayAdapters HostingPanels DomainContracts PanelOperations JsonText.

(** ** cipher.ts

    AES-256-GCM under the key derived from the environment's secret, the binding in
    the additional data; the initial value, tag and ciphertext are base64url texts. *)
Class RegistrarCrypto :=
  { registrar_iv : Io string;
    registrar_encipher : string → string → string → string * string;
    registrar_decipher : string → string → string → string → option string }.
(** Deciphering undoes enciphering; the texts have no separator. *)
Class RegistrarCryptoLaws `{RegistrarCrypto} : Prop :=
  { registrar_inverse b iv text tag c :
      registrar_encipher b iv text = (tag, c) → registrar_decipher b iv tag c = Some text;
    registrar_texts b iv text tag c :
      registrar_encipher b iv text = (tag, c) → split_on "." tag = [tag] ∧ split_on "." c = [c];
    registrar_iv_text w iv w' :
      registrar_iv w = (Ok iv, w') → split_on "." iv = [iv];
    registrar_iv_keeps :: Keeps (λ d, d) registrar_iv }.
Definition protected_unavailable : exn :=
  JsError "Registrar protected configuration is unavailable.".
Section cipher.
Context `{RegistrarCrypto}.

Definition registrar_encrypt (binding : string) (value : json) : Io string :=
  iv ← registrar_iv;
  let '(tag, body) := registrar_encipher binding iv (json_print value) in
  mret (iv ++ "." ++ tag ++ "." ++ body)%string.
Definition registrar_decrypt (binding ciphertext : string) : result json :=
  match split_on "." ciphertext with
  | [iv; tag; body] =>
      of_option protected_unavailable
        (clear ← registrar_decipher binding iv tag body; json_parse clear)
  | _ => Err protected_unavailable
  end.
End cipher.
Definition credentialBinding (accountId : string) (version : Z) (mode : string) : string :=
  ("stargate:" ++ accountId ++ ":" ++ mode ++ ":credential:" ++ Z_to_string version)%string.
Definition contactBinding (accountId customerId mode : string) : string :=
  ("stargate:" ++ accountId ++ ":" ++ mode ++ ":contact:" ++ customerId)%string.

(** ** registry-requirements.ts *)
Definition additionalDetails : list string :=
  ["aero"; "asia"; "au"; "ca"; "cn"; "coop"; "de"; "es"; "eu"; "fr"; "hu"; "it"; "jobs"; "nl";
   "nyc"; "pro"; "quebec"; "ru"; "tel"; "travel"; "uk"; "us"; "xxx"; "attorney"; "dentist";
   "lawyer"; "ltda"; "srl"; "law"].
Definition standardRegistryContactSupported (tld : string) : bool :=
  negb (existsb (String.eqb (List.last (split_on "." tld) "")) additionalDetails).
Definition requireStandardRegistryContact (tld : string) : result unit :=
  throw_unless (standardRegistryContactSupported tld)
    (JsError ("." ++ tld ++ " pricing can be configured, but registration requires " ++
              "registry-specific contact or eligibility details that this form does not collect.")%string).

(** ** provider.ts *)
Record RegistrarQuote := MkRegistrarQuote
  { rq_available : bool; rq_costAmount : Z; rq_costCurrency : string; rq_observedAt : Z;
    rq_simulated : bool }.
Record RegistrarIntent := MkIntent
  { ri_operationId : string; ri_accountId : string; ri_customerId : string;
    ri_domainName : string; ri_nameservers : list string; ri_contact : DomainContact;
    ri_costCeiling : Z }.
#[export] Instance RegistrarIntent_rebuild : Rebuild RegistrarIntent := λ i,
  MkIntent (ri_operationId i) (ri_accountId i) (ri_customerId i) (ri_domainName i)
    (ri_nameservers i) (ri_contact i) (ri_costCeiling i).
Record RegistrarObservation := MkObservation
  { rob_orderId : string; rob_accountId : string; rob_customerId : string;
    rob_operationId : string; rob_domainName : string; rob_state : string;
    rob_expiresAt : Z; rob_verification : string }.
(** What a registrar object remembers of the remote customer and contact it was given
    or has created; its methods run on the world and on this binding. *)
Record ResellbizBinding := MkBinding
  { bd_accountId : string; bd_localCustomerId : string; bd_remoteCustomerId : string;
    bd_remoteContactId : string }.
Notation Sio := (M (World * option ResellbizBinding)).
Definition outside {A} (m : Io A) : Sio A := λ '(w, b), let '(r, w') := m w in (r, (w', b)).
(** The methods called on a fresh object. *)
Definition session {A} (b : option ResellbizBinding) (m : Sio A) : Io A := λ w,
  let '(r, (w', _)) := m (w, b) in (r, w').
Record DomainRegistrar := MkRegistrar
  { dr_quote : string → Sio RegistrarQuote;
    dr_ensureContacts : RegistrarIntent → string → Sio unit;
    dr_registerOnce : RegistrarIntent → Sio unit;
    dr_lookup : RegistrarIntent → Sio (option RegistrarObservation) }.

(** Rows found by the unique key of account, customer and contact fingerprint. *)
Definition contact_key : Type := string * string * string.
Definition mapping_key (r : RegistrarMapping) : contact_key :=
  (rm_accountId r, rm_customerId r, rm_fingerprint r).
Definition remote_key (r : RegistrarMapping) : string * string * string :=
  (rm_accountId r, rm_remoteCustomerId r, rm_remoteContactId r).
Definition mapping_of (key : contact_key) (d : Db) : option RegistrarMapping :=
  find_unique (registrarMappings d) mapping_key key.
(** [registrarMapping.create]. *)
Definition create_mapping (key : contact_key) (remoteCustomerId remoteContactId : string)
    : Io unit :=
  id ← random_uuid;
  let r := MkRegistrarMapping id key.1.1 key.1.2 key.2 remoteCustomerId remoteContactId in
  create_row registrarMappings id
    (λ m, unique_in m mapping_key (mapping_key r) && unique_in m remote_key (remote_key r)) r.
(** [registrarEvidence.create]. *)
Definition add_evidence (operationId code_ : string) : Io unit :=
  now ← new_date;
  write (λ d, d <| registrarEvidence :=
                   registrarEvidence d ++ [MkRegistrarEvidence operationId code_ now] |>).

(** [d.setUTCFullYear(d.getUTCFullYear() + 1)]. *)
Definition next_year (t : Z) : Z :=
  make_date (make_day (utc_year t + 1) (utc_month t) (utc_date t)) (time_within_day t).
Definition fake_quote (domainName : string) : Io RegistrarQuote :=
  _ ← lift (parse domainNameSchema (JStr domainName));
  now ← new_date;
  mret (MkRegistrarQuote (negb (String.prefix "taken-" domainName))
          (if String.prefix "price-" domainName then 1500 else 1000) "USD" now true).
Definition fake_ensureContacts (intent : RegistrarIntent) (fingerprint : string) : Io unit :=
  _ ← require (hex64 fingerprint) (JsError "Contact snapshot unavailable.");
  let key := (ri_accountId intent, ri_customerId intent, fingerprint) in
  found ← read (mapping_of key);
  _ ← match found with
      | Some _ => mret tt
      | None => create_mapping key ("fake-" ++ ri_customerId intent)%string fingerprint
      end;
  require (negb (String.prefix "contact-lost-" (ri_domainName intent)))
    (JsError "Simulated ambiguous contact creation.").
Definition fake_state (domainName : string) : string :=
  if String.prefix "pending-" domainName then "InActive"
  else if String.prefix "reject-" domainName then "Rejected" else "Active".
Definition registered_name (r : FakeRegistrarRegistration) : string * string :=
  (fr_accountId r, fr_domainName r).
Definition fake_registerOnce (intent : RegistrarIntent) : Io unit :=
  quote ← fake_quote (ri_domainName intent);
  _ ← require (rq_available quote && negb (ri_costCeiling intent <? rq_costAmount quote))
        (JsError "Registrar preflight denied.");
  now ← new_date;
  id ← random_uuid;
  let r := MkFakeRegistration id (ri_accountId intent) (ri_customerId intent)
             (ri_domainName intent) (ri_operationId intent)
             (fake_state (ri_domainName intent)) (next_year now) in
  _ ← create_row fakeRegistrations id
        (λ m, unique_in m fr_operationId (fr_operationId r) &&
              unique_in m registered_name (registered_name r)) r;
  require (negb (String.prefix "lost-" (ri_domainName intent)))
    (JsError "Simulated lost response.").
Definition fake_observation (r : FakeRegistrarRegistration) : RegistrarObservation :=
  MkObservation (fr_id r) (fr_accountId r) (fr_customerId r) (fr_operationId r)
    (fr_domainName r)
    (if String.eqb (fr_state r) "Active" then "Active"
     else if String.eqb (fr_state r) "Rejected" then "Rejected" else "InActive")
    (fr_expiresAt r) "Pending".
Definition fake_lookup (intent : RegistrarIntent) : Io (option RegistrarObservation) :=
  found ← read (λ d, find_unique (fakeRegistrations d) registered_name
                       (ri_accountId intent, ri_domainName intent));
  mret (fake_observation <$> found).
Definition FakeDomainRegistrar : DomainRegistrar :=
  MkRegistrar (λ name, outside (fake_quote name))
    (λ intent fingerprint, outside (fake_ensureContacts intent fingerprint))
    (λ intent, outside (fake_registerOnce intent)) (λ intent, outside (fake_lookup intent)).

(** ** preparation.ts *)
Inductive PreparationStep := CustomerStep | ContactStep.
Definition preparation_key_of (intent : RegistrarIntent) (fingerprint : string) : contact_key :=
  (ri_accountId intent, ri_customerId intent, fingerprint).
Definition preparation_key (r : RegistrarPreparation) : contact_key :=
  (rp_accountId r, rp_customerId r, rp_fingerprint r).
Definition preparation_of (key : contact_key) (d : Db) : option RegistrarPreparation :=
  find_unique (registrarPreparations d) preparation_key key.
Definition new_preparation (id operationId : string) (key : contact_key)
    (remote : option string) : RegistrarPreparation :=
  MkRegistrarPreparation id key.1.1 key.1.2 key.2 operationId None remote None None.
Definition create_preparation (operationId : string) (key : contact_key)
    (remote : option string) : Io RegistrarPreparation :=
  id ← random_uuid;
  let r := new_preparation id operationId key remote in
  _ ← create_row registrarPreparations id
        (λ m, unique_in m preparation_key (preparation_key r)) r;
  mret r.
Definition preparation_load (intent : RegistrarIntent) (fingerprint : string)
    : Io (option ResellbizBinding) :=
  found ← read (mapping_of (preparation_key_of intent fingerprint));
  mret ((λ m, MkBinding (ri_accountId intent) (ri_customerId intent) (rm_remoteCustomerId m)
                (rm_remoteContactId m)) <$> found).
Definition previously_claimed : exn :=
  JsError "Registrar creation was previously claimed. Reconcile without retrying.".
(** An earlier customer creation whose outcome is unknown. *)
Definition unsettled_customer (r p : RegistrarPreparation) : bool :=
  String.eqb (rp_accountId p) (rp_accountId r) &&
  String.eqb (rp_customerId p) (rp_customerId r) && negb (String.eqb (rp_id p) (rp_id r)) &&
  isSome (rp_customerClaimedAt p) && negb (isSome (rp_remoteCustomerId p)).
Definition claim_tx (intent : RegistrarIntent) (fingerprint : string) (step : PreparationStep)
    : Io unit :=
  _ ← lock_row "registrar_accounts" (ri_accountId intent);
  let key := preparation_key_of intent fingerprint in
  found ← read (preparation_of key);
  row ← match found with
        | Some r => mret r
        | None => create_preparation (ri_operationId intent) key None
        end;
  _ ← require (String.eqb (rp_operationId row) (ri_operationId intent) &&
               negb (isSome match step with
                            | CustomerStep => rp_customerClaimedAt row
                            | ContactStep => rp_contactClaimedAt row
                            end)) previously_claimed;
  _ ← match step with
      | CustomerStep =>
          prior ← read (λ d, rows (unsettled_customer row) (registrarPreparations d));
          require (bool_decide (prior = []))
            (JsError "An earlier registrar customer creation needs reconciliation.")
      | ContactStep =>
          require (match rp_remoteCustomerId row with Some s => truthy s | None => false end)
            (JsError "Registrar customer is not verified.")
      end;
  now ← new_date;
  change_row registrarPreparations (rp_id row)
    (λ r, match step with
          | CustomerStep => r <| rp_customerClaimedAt := Some now |>
          | ContactStep => r <| rp_contactClaimedAt := Some now |>
          end).
Definition preparation_claim (intent : RegistrarIntent) (fingerprint : string)
    (step : PreparationStep) : Io unit :=
  transaction (claim_tx intent fingerprint step).
Definition preparation_customer (intent : RegistrarIntent) (fingerprint remoteId : string)
    : Io unit :=
  let key := preparation_key_of intent fingerprint in
  found ← read (preparation_of key);
  match found with
  | Some r => change_row registrarPreparations (rp_id r)
                (λ r, r <| rp_remoteCustomerId := Some remoteId |>)
  | None => _ ← create_preparation (ri_operationId intent) key (Some remoteId); mret tt
  end.
Definition complete_tx (intent : RegistrarIntent) (fingerprint customerId contactId : string)
    : Io unit :=
  let key := preparation_key_of intent fingerprint in
  found ← read (preparation_of key);
  row ← lift (of_option RecordNotFound found);
  _ ← change_row registrarPreparations (rp_id row)
        (λ r, r <| rp_remoteContactId := Some contactId |>);
  create_mapping key customerId contactId.
Definition preparation_complete (intent : RegistrarIntent)
    (fingerprint customerId contactId : string) : Io unit :=
  transaction (complete_tx intent fingerprint customerId contactId).

(** ** The invoice of a registration *)
Definition lockDomainInvoice (invoiceId : string) : Io unit := lock_row "invoices" invoiceId.
Definition succeeded (p : Payment) : bool := pay_status p ==b PaymentStatus.SUCCEEDED.
Definition irregular (i : Invoice) (p : Payment) : bool :=
  succeeded p && (negb (pay_kind p ==b PaymentKind.CHARGE) ||
                  negb (String.eqb (pay_currency p) (inv_currency i)) ||
                  negb (isSome (pay_verifiedAt p))).
Definition verified_charge (p : Payment) : bool :=
  succeeded p && (pay_kind p ==b PaymentKind.CHARGE) && isSome (pay_verifiedAt p).
Definition verified_invoice (invoiceId customerId : string) (d : Db) : bool :=
  match invoices d !! invoiceId with
  | None => false
  | Some i =>
      let its := rows (λ p, String.eqb (pay_invoiceId p) invoiceId) (payments d) in
      String.eqb (inv_customerId i) customerId && (inv_status i ==b InvoiceStatus.PAID) &&
      String.eqb (inv_currency i) "BDT" && (0 <? inv_total i) && (inv_balanceDue i =? 0) &&
      (inv_amountPaid i =? inv_total i) && negb (existsb (irregular i) its) &&
      (foldr (λ p sum, sum + pay_amount p) 0 (List.filter verified_charge its) =? inv_total i)
  end.
Definition verifiedDomainInvoice (invoiceId customerId : string) : Io bool :=
  read (verified_invoice invoiceId customerId).

(** ** domain-administration.service.ts *)
Section identity.
Context `{ZodFormats} `{ZodUrl} `{UrlParser} `{Sha256}.

(** The reseller of an account: new and old configurations have it. *)
Definition registrarIdentity (configuration : json) : result string :=
  match registrarConnectionIdentitySchema configuration with
  | Some id => Ok id
  | None => cf_resellerId <$> parse resellbizConfigurationSchema configuration
  end.
Definition registrarFingerprint (accountId mode customerId : string) (contact : json) : string :=
  sha256_hex ("stargate:" ++ mode ++ ":Contact:" ++ accountId ++ ":" ++ customerId ++ ":" ++
              json_print contact)%string.
End identity.
(** The credential of an account with the highest version, or the pinned one. *)
Definition newer_credential (best : option RegistrarCredential) (c : RegistrarCredential)
    : option RegistrarCredential :=
  match best with
  | Some b => if rc_version b <? rc_version c then Some c else best
  | None => Some c
  end.
Definition latest_credential (accountId : string) (pinned : option string) (d : Db)
    : option RegistrarCredential :=
  fold_left newer_credential
    (rows (λ c, String.eqb (rc_accountId c) accountId &&
                match pinned with Some id => String.eqb (rc_id c) id | None => true end)
       (registrarCredentials d)) None.
