(* ===== verification/Resellbiz.v ===== *)
(** * The LogicBoxes adapters

    packages/database/src/registrar: resellbiz-live.ts, and the prices of
    logicboxes-sandbox.ts (losslessRegistrarJson is in JsonText, the sandbox registrar in
    LogicBoxesSandbox).  [rz_request] sends one request and answers its text; node's HTTPS
    client and the form encoding are parameters.  A field that should be an identifier and
    is none is refused with the message of the comparison it is part of. *)
From S2P Require Import Prelude JsString JsDate Json Money States DomainTables Database Invoices Payments Gateways GatewayAdapters HostingPanels DomainContracts PanelOperations JsonText Registrar.

Definition RzParameters : Type := list (string * list string).
Class ResellbizTransport := rz_request : string → RzParameters → Io string.
(** [randomInt(n)] and [Number(s)] when it is an integer. *)
Class RegistrarRandom := registrar_random : Z → Io Z.
Class JsNumber := js_number : string → option Z.

(** ** Untyped values *)
(** [String(v)]. *)
Fixpoint js_text (v : json) : string :=
  match v with
  | JUndefined => "undefined" | JNull => "null"
  | JBool b => if b then "true" else "false"
  | JNum n => Z_to_string n | JFrac t => t | JStr s => s
  | JArr l => String.concat "," (List.map (λ v, match v with JUndefined | JNull => ""
                                                 | _ => js_text v end) l)
  | JObj _ => "[object Object]"
  end.
(** [===] of values read from one text: two objects are never the same. *)
Definition js_same (a b : json) : bool :=
  match a, b with
  | JUndefined, JUndefined | JNull, JNull => true
  | JBool x, JBool y => Bool.eqb x y
  | JStr x, JStr y => String.eqb x y
  | JNum x, JNum y => x =? y
  | JFrac x, JFrac y => String.eqb x y
  | _, _ => false
  end.
Definition is_text (s : string) (v : json) : bool := js_same v (JStr s).
Definition evidence_unavailable : exn := JsError "Registrar evidence is unavailable.".
Definition record_of (v : json) : result (list (string * json)) :=
  match v with JObj o => Ok o | _ => Err evidence_unavailable end.
Definition identifier (v : json) : result string :=
  of_option (JsError "Registrar identity is unavailable.") (z_identifier v).
(** A flag the provider sends as a boolean or a text. *)
Definition flag (b : bool) (v : json) : bool :=
  js_same v (JBool b) || is_text (if b then "true" else "false") v.

(** ** Prices *)
Definition legacy_classes : list (string * string) :=
  [("com", "domcno"); ("net", "dotnet"); ("org", "domorg"); ("biz", "dombiz");
   ("info", "dominfo")].
Definition class_pattern (s : string) : bool :=
  text 2 64 s && match s with String c _ => is_lower c | EmptyString => false end &&
  all_chars (λ c, is_lower c || is_digit c) s.
Definition registrarProductKey (tld : string) (classkey : json) : result string :=
  let known := snd <$> List.find (λ kv, String.eqb kv.1 tld) legacy_classes in
  let key := match classkey with
             | JUndefined => known | JStr s => Some s | _ => None end in
  of_option (JsError "Registrar pricing class is not established for this extension.")
    (k ← key;
     if class_pattern k && match known with Some n => String.eqb k n | None => true end
     then Some k else None).
Definition cost_pattern (s : string) : bool :=
  let '(whole, fraction) :=
    match split_at "." s with Some (w, f) => (w, Some f) | None => (s, None) end in
  canonical_decimal whole && (slen whole <=? 13) &&
  match fraction with Some f => text 1 2 f && all_chars is_digit f | None => true end.
Definition registrarDecimalMinor (value : json) : result Z :=
  let failure := JsError "Registrar cost is unavailable." in
  s ← of_option failure (z_refine cost_pattern z_string value);
  let '(whole, fraction) :=
    match split_at "." s with Some (w, f) => (w, f) | None => (s, "") end in
  let amount := string_to_Z whole * 100 + string_to_Z (pad_end 2 "0" fraction) in
  _ ← throw_unless (0 <? amount) failure;
  Ok amount.

(** ** The HTTPS transport *)
Definition paths : list (string * (string * string)) :=
  [("/api/domains/available.json", ("domaincheck.httpapi.com", "GET"));
   ("/api/products/reseller-cost-price.json", ("httpapi.com", "GET"));
   ("/api/customers/details-by-id.json", ("httpapi.com", "GET"));
   ("/api/customers/search.json", ("httpapi.com", "GET"));
   ("/api/customers/v2/signup.json", ("httpapi.com", "POST"));
   ("/api/contacts/add.json", ("httpapi.com", "POST"));
   ("/api/contacts/details.json", ("httpapi.com", "GET"));
   ("/api/domains/orderid.json", ("httpapi.com", "GET"));
   ("/api/domains/details.json", ("httpapi.com", "GET"));
   ("/api/domains/register.json", ("httpapi.com", "POST"));
   ("/api/domains/modify-ns.json", ("httpapi.com", "POST"));
   ("/api/domains/modify-contact.json", ("httpapi.com", "POST"));
   ("/api/domains/enable-theft-protection.json", ("httpapi.com", "POST"));
   ("/api/domains/disable-theft-protection.json", ("httpapi.com", "POST"));
   ("/api/domains/locks.json", ("httpapi.com", "GET"));
   ("/api/domains/renew.json", ("httpapi.com", "POST"))].
Record HttpsRequest := MkHttpsRequest
  { hr_hostname : string; hr_method : string; hr_target : string; hr_body : option string }.
Definition response_unavailable : exn :=
  JsError "Registrar response unavailable. Do not repeat a registration; reconcile its outcome.".
Section transport.
Context (https_send : HttpsRequest → Io (option (Z * string))).
Context (form_encode : list (string * string) → string).

(** One request: [https_send] answers the status and the body, none when the
    connection fails, is cut or takes ten seconds. *)
Definition ResellbizHttpsTransport : ResellbizTransport := λ path parameters,
  '(_, (hostname, method)) ← lift (of_option (JsError "Registrar endpoint is not supported.")
    (List.find (λ kv, String.eqb kv.1 path) paths));
  let encoded := form_encode
    (List.flat_map (λ kv, (λ v, (kv.1, v)) <$> kv.2) parameters) in
  answer ← https_send
    (if String.eqb method "GET"
     then MkHttpsRequest hostname method (path ++ "?" ++ encoded)%string None
     else MkHttpsRequest hostname method path (Some encoded));
  match answer with
  | Some (status, body) =>
      if (status =? 200) && (utf8_length body <=? 262144) then mret body
      else throw response_unavailable
  | None => throw response_unavailable
  end.
End transport.

Section live.
Context `{ZodFormats} `{ZodUrl} `{UrlParser} `{ZodIso} `{ResellbizTransport}
  `{RegistrarRandom} `{JsNumber}.
Context (credentials : ResellbizCredential).

Definition one (k v : string) : string * list string := (k, [v]).
Definition reconcile_evidence : exn :=
  JsError "Registrar evidence is unavailable. Reconcile without repeating a registration.".
Definition cost_path : string := "/api/products/reseller-cost-price.json".
Definition rz_call (path : string) (parameters : RzParameters) : Sio json :=
  outside (catch
    (body ← rz_request path
       (parameters ++ [one "auth-userid" (rz_resellerId credentials);
                       one "api-key" (rz_apiKey credentials)]);
     lift (losslessRegistrarJson
             (if String.eqb path cost_path then cost_limits else default_limits) body))
    (λ _, throw reconcile_evidence)).
Definition rz_record (path : string) (parameters : RzParameters)
    : Sio (list (string * json)) :=
  v ← rz_call path parameters; lift (record_of v).
Definition rz_domain (name : string) : result string := parse domainNameSchema (JStr name).

(** ** Availability and prices *)
Record Availability := MkAvailability { al_available : bool; al_productKey : string }.
Definition ordinary_eligibility (result_ : list (string * json)) : bool :=
  forallb (λ kv, existsb (String.eqb kv.1) ["status"; "isPremium"; "classkey"]) result_ &&
  match get "isPremium" result_ with JUndefined => true | v => flag false v end.
Definition availability_of (tld : string) (result_ : list (string * json))
    : result Availability :=
  _ ← throw_unless (ordinary_eligibility result_)
        (JsError "Ordinary domain eligibility is not established.");
  _ ← throw_unless (existsb (String.eqb (js_text (get "status" result_)))
                      ["available"; "regthroughus"; "regthroughothers"])
        (JsError "Domain availability is unknown.");
  key ← registrarProductKey tld (get "classkey" result_);
  Ok (MkAvailability (is_text "available" (get "status" result_)) key).
Definition availability (name : string) : Sio Availability :=
  name ← lift (rz_domain name);
  tld ← lift (domainExtension name);
  answer ← rz_record "/api/domains/available.json"
             [one "domain-name" (before_dot name); one "tlds" tld];
  result_ ← lift (record_of (get name answer));
  lift (availability_of tld result_).
Definition price_of (productKey kind : string) (prices : list (string * json)) : result Z :=
  product ← record_of (get productKey prices);
  years ← record_of (get kind product);
  registrarDecimalMinor (get "1" years).
Definition live_quote (name : string) : Sio RegistrarQuote :=
  name ← lift (rz_domain name);
  tld ← lift (domainExtension name);
  _ ← lift (requireStandardRegistryContact tld);
  a ← availability name;
  prices ← rz_record cost_path [];
  cost ← lift (price_of (al_productKey a) "addnewdomain" prices);
  now ← outside new_date;
  mret (MkRegistrarQuote (al_available a) cost "USD" now false).
Definition renewalCost (name : string) : Sio Z :=
  a ← availability name;
  prices ← rz_record cost_path [];
  cost ← lift (price_of (al_productKey a) "renewdomain" prices);
  _ ← require (0 <? cost) (JsError "Renewal price is not established.");
  mret cost.

(** ** Ownership *)
Record RegistrarManagedIntent := MkManagedIntent
  { mi_accountId : string; mi_customerId : string; mi_domainName : string;
    mi_nameservers : list string; mi_costCeiling : option Z }.
Definition managed (i : RegistrarIntent) : RegistrarManagedIntent :=
  MkManagedIntent (ri_accountId i) (ri_customerId i) (ri_domainName i) (ri_nameservers i)
    (Some (ri_costCeiling i)).
Definition the_binding : Sio (option ResellbizBinding) := gets snd.
Definition set_binding (b : option ResellbizBinding) : Sio unit := modify (λ s, (s.1, b)).
Definition bound_to (intent : RegistrarManagedIntent) (b : ResellbizBinding) : bool :=
  String.eqb (mi_accountId intent) (bd_accountId b) &&
  String.eqb (mi_customerId intent) (bd_localCustomerId b) &&
  negb (default 0 (mi_costCeiling intent) <? 0).
Definition rz_bind (intent : RegistrarManagedIntent) : Sio ResellbizBinding :=
  _ ← lift (rz_domain (mi_domainName intent));
  _ ← lift (parse registrarNameserversSchema (names_json (mi_nameservers intent)));
  found ← the_binding;
  b ← lift (of_option (JsError "Registrar ownership is unavailable.")
              (b ← found; if bound_to intent b then Some b else None));
  _ ← lift (identifier (JStr (bd_remoteCustomerId b)));
  _ ← lift (identifier (JStr (bd_remoteContactId b)));
  mret b.

(** ** Contacts *)
Definition optional_line (k : string) (line : option string) : list (string * string) :=
  match line with Some l => if truthy l then [(k, l)] else [] | None => [] end.
Definition contactParameters (intent : RegistrarIntent) : result RzParameters :=
  c ← parse resellbizContactSchema (contact_json (ri_contact intent));
  Ok ((λ kv, one kv.1 kv.2) <$>
      ([("name", dc_name c); ("company", dc_company c); ("address-line-1", dc_address c)] ++
       optional_line "address-line-2" (dc_addressLine2 c) ++
       [("city", dc_city c); ("state", dc_region c); ("country", dc_country c);
        ("zipcode", dc_postalCode c); ("phone-cc", dc_phoneCountryCode c);
        ("phone", dc_phone c)])).
Definition contactEvidence (intent : RegistrarIntent) : list (string * string) :=
  let c := ri_contact intent in
  [("name", dc_name c); ("company", dc_company c); ("address1", dc_address c)] ++
  optional_line "address2" (dc_addressLine2 c) ++
  [("city", dc_city c); ("state", dc_region c); ("zip", dc_postalCode c);
   ("country", dc_country c); ("emailaddr", dc_email c);
   ("telnocc", dc_phoneCountryCode c); ("telno", dc_phone c)].
Definition active_customer (remoteId : string) (o : list (string * json)) : result bool :=
  id ← identifier (get "customerid" o);
  if negb (String.eqb id remoteId) then Ok false
  else reseller ← identifier (get "resellerid" o);
       Ok (String.eqb reseller (rz_resellerId credentials) &&
           is_text "Active" (get "customerstatus" o)).
Definition active_contact (remoteId customerId : string) (o : list (string * json))
    : result bool :=
  id ← identifier (get "entityid" o);
  if negb (String.eqb id remoteId) then Ok false
  else customer ← identifier (get "customerid" o);
       Ok (String.eqb customer customerId && is_text "Contact" (get "type" o) &&
           is_text "Active" (get "currentstatus" o)).
Definition verifyContacts (intent : RegistrarIntent) : Sio unit :=
  let failure :=
    JsError "Registrar customer/contact ownership or snapshot does not match." in
  b ← rz_bind (managed intent);
  customer ← rz_record "/api/customers/details-by-id.json"
               [one "customer-id" (bd_remoteCustomerId b)];
  contact ← rz_record "/api/contacts/details.json"
              [one "contact-id" (bd_remoteContactId b)];
  c ← lift (active_customer (bd_remoteCustomerId b) customer);
  _ ← require c failure;
  k ← lift (active_contact (bd_remoteContactId b) (bd_remoteCustomerId b) contact);
  require (k && forallb (λ kv, is_text kv.2 (get kv.1 contact)) (contactEvidence intent))
    failure.

(** ** Preparation of the customer and the contact *)
Definition password_alphabet : string :=
  "abcdefghijklmnopqrstuvwxyzABCDEFGHIJKLMNOPQRSTUVWXYZ0123456789~*!@$#%_+.?:,{}".
Definition password_symbol (c : ascii) : bool :=
  negb (is_alnum c) && existsb (Ascii.eqb c) (list_ascii_of_string password_alphabet).
Definition some_char (p : ascii → bool) (s : string) : bool :=
  negb (all_chars (λ c, negb (p c)) s).
Definition strong_password (s : string) : bool :=
  some_char is_lower s && some_char is_upper s && some_char is_digit s &&
  some_char password_symbol s.
Fixpoint draw_password (n : nat) : Io string :=
  match n with
  | O => mret ""
  | S n =>
      i ← registrar_random (slen password_alphabet);
      rest ← draw_password n;
      mret (String (default "000"%char (String.get (Z.to_nat i) password_alphabet)) rest)
  end.
Fixpoint password_attempts (n : nat) : Io string :=
  match n with
  | O => throw (JsError "A registrar customer credential could not be prepared.")
  | S n =>
      value ← draw_password 16;
      if strong_password value then mret value else password_attempts n
  end.
Definition independentCustomerPassword : Io string := password_attempts 64.

(** The rows of a customer search, when it is complete. *)
Definition is_row_key (k : string) : bool := truthy k && all_chars is_digit k.
Definition search_rows (search : list (string * json)) : result (list json) :=
  let rows := snd <$> List.filter (λ kv, is_row_key kv.1) search in
  let count := get "recsonpage" search in
  if forallb (λ kv, existsb (String.eqb kv.1) ["recsonpage"; "recsindb"] || is_row_key kv.1)
       search &&
     existsb (String.eqb (js_text count)) ["0"; "1"] &&
     js_same count (get "recsindb" search) &&
     (Z.of_nat (length rows) =? string_to_Z (js_text count))
  then Ok rows
  else Err (JsError "Registrar customer search is incomplete or ambiguous.").
(** The customer the search found, or a new one after its claim. *)
Definition remote_customer (intent : RegistrarIntent) (contact : DomainContact)
    (fingerprint : string) (rows : list json) : Sio string :=
  match rows with
  | [row] =>
      found ← lift (record_of row);
      _ ← require (is_text (dc_email contact) (get "customer.username" found) &&
                   is_text (rz_resellerId credentials) (get "customer.resellerid" found) &&
                   is_text "Active" (get "customer.customerstatus" found))
            (JsError "Registrar customer identity does not match.");
      lift (identifier (get "customer.customerid" found))
  | _ =>
      _ ← outside (preparation_claim intent fingerprint CustomerStep);
      parameters ← lift (contactParameters intent);
      password ← outside independentCustomerPassword;
      created ← rz_call "/api/customers/v2/signup.json"
        (parameters ++
         [one "username" (dc_email contact); one "passwd" password; one "lang-pref" "en";
          one "accept-policy" "true"; one "marketing-email-consent" "false";
          one "sms-consent" "false"]);
      lift (identifier created)
  end.
Definition customer_field (k : string) : string :=
  if String.eqb k "emailaddr" then "useremail" else k.
Definition customer_matches (intent : RegistrarIntent) (contact : DomainContact)
    (remoteCustomerId : string) (customer : list (string * json)) : result bool :=
  c ← active_customer remoteCustomerId customer;
  Ok (c && is_text (dc_email contact) (get "username" customer) &&
      forallb (λ kv, is_text kv.2 (get (customer_field kv.1) customer))
        (contactEvidence intent)).
(** [contacts/add.json]. *)
Definition add_contact (intent : RegistrarIntent) (remoteCustomerId : string) : Sio string :=
  parameters ← lift (contactParameters intent);
  created ← rz_call "/api/contacts/add.json"
    (parameters ++ [one "email" (dc_email (ri_contact intent));
                    one "customer-id" remoteCustomerId; one "type" "Contact"]);
  lift (identifier created).
Definition prepare_contacts (intent : RegistrarIntent) (contact : DomainContact)
    (fingerprint : string) : Sio unit :=
  search ← rz_record "/api/customers/search.json"
             [one "username" (dc_email contact); one "no-of-records" "10";
              one "page-no" "1"];
  rows ← lift (search_rows search);
  remoteCustomerId ← remote_customer intent contact fingerprint rows;
  customer ← rz_record "/api/customers/details-by-id.json"
               [one "customer-id" remoteCustomerId];
  matches ← lift (customer_matches intent contact remoteCustomerId customer);
  _ ← require matches (JsError "Registrar customer ownership or identity does not match.");
  _ ← outside (preparation_customer intent fingerprint remoteCustomerId);
  _ ← outside (preparation_claim intent fingerprint ContactStep);
  remoteContactId ← add_contact intent remoteCustomerId;
  _ ← set_binding (Some (MkBinding (ri_accountId intent) (ri_customerId intent)
                           remoteCustomerId remoteContactId));
  _ ← verifyContacts intent;
  outside (preparation_complete intent fingerprint remoteCustomerId remoteContactId).
Definition cost_approval (message : string) (intent : RegistrarIntent) : result unit :=
  throw_unless (0 <? ri_costCeiling intent) (JsError message).
(** [prepared]: the object was given a preparation store. *)
Definition live_ensureContacts (prepared : bool) (intent : RegistrarIntent)
    (fingerprint : string) : Sio unit :=
  _ ← lift (cost_approval "Registration cost approval is required." intent);
  contact ← lift (parse resellbizContactSchema (contact_json (ri_contact intent)));
  _ ← require (hex64 fingerprint) (JsError "Registrar contact evidence is unavailable.");
  bound ← the_binding;
  loaded ← match bound with
           | Some b => mret (Some b)
           | None => if prepared : bool then outside (preparation_load intent fingerprint)
                     else mret None
           end;
  _ ← set_binding loaded;
  match loaded with
  | Some _ => verifyContacts intent
  | None =>
      _ ← require prepared (JsError "Registrar preparation is unavailable.");
      prepare_contacts intent contact fingerprint
  end.

(** ** Registration *)
Definition consent_text (intent : RegistrarIntent) : string :=
  if bool_decide (dc_publishOrganization (ri_contact intent) = Some true)
  then "true" else "false".
Definition registration_parameters (intent : RegistrarIntent) (b : ResellbizBinding)
    : RzParameters :=
  let contact := bd_remoteContactId b in
  [one "domain-name" (ri_domainName intent); one "years" "1"; ("ns", ri_nameservers intent);
   one "customer-id" (bd_remoteCustomerId b); one "reg-contact-id" contact;
   one "admin-contact-id" contact; one "tech-contact-id" contact;
   one "billing-contact-id" contact; one "invoice-option" "NoInvoice";
   one "auto-renew" "false"; one "purchase-privacy" "false"; one "protect-privacy" "false";
   one "attr-name1" "tnc"; one "attr-value1" "Y";
   one "attr-name2" "registrant-org-consent"; one "attr-value2" (consent_text intent)].
Definition live_registerOnce (intent : RegistrarIntent) : Sio unit :=
  _ ← lift (cost_approval "Registration cost approval is required." intent);
  b ← rz_bind (managed intent);
  quote ← live_quote (ri_domainName intent);
  _ ← require (rq_available quote && negb (ri_costCeiling intent <? rq_costAmount quote))
        (JsError "Fresh registrar price or availability exceeds approval.");
  response ← rz_record "/api/domains/register.json" (registration_parameters intent b);
  _ ← lift (identifier (get "entityid" response));
  mret tt.

(** ** Orders *)
Definition order_details (orderId : string) : Sio (list (string * json)) :=
  id ← lift (identifier (JStr orderId));
  rz_record "/api/domains/details.json" [one "order-id" id; one "options" "All"].
(** The end of a registration: seconds, at most the last time value. *)
Definition end_time (message : string) (v : json) : result Z :=
  seconds ← identifier v;
  let ms := string_to_Z seconds * 1000 in
  _ ← throw_unless (ms <=? 8640000000000000) (JsError message);
  Ok ms.
Definition contact_roles : list string :=
  ["registrantcontactid"; "admincontactid"; "techcontactid"; "billingcontactid"].
Definition verification_of (o : list (string * json)) : string :=
  if is_text "Verified" (get "raaVerificationStatus" o) then "Verified" else "Pending".
Definition lookup_matches (intent : RegistrarIntent) (b : ResellbizBinding)
    (o : list (string * json)) : bool :=
  is_text (ri_domainName intent) (get "domainname" o) &&
  is_text (bd_remoteCustomerId b) (get "customerid" o) &&
  flag true (get "isImmediateReseller" o) &&
  forallb (λ k, is_text (bd_remoteContactId b) (get k o)) contact_roles &&
  existsb (String.eqb (js_text (get "currentstatus" o))) ["Active"; "InActive"].
Definition live_lookup (intent : RegistrarIntent) : Sio (option RegistrarObservation) :=
  a ← availability (ri_domainName intent);
  if al_available a then mret None
  else
    b ← rz_bind (managed intent);
    found ← rz_call "/api/domains/orderid.json" [one "domain-name" (ri_domainName intent)];
    orderId ← lift (identifier found);
    o ← order_details orderId;
    _ ← require (lookup_matches intent b o)
          (JsError "Registrar order ownership is unavailable.");
    ms ← lift (end_time "Registrar expiry is invalid." (get "endtime" o));
    mret (Some (MkObservation orderId (ri_accountId intent) (ri_customerId intent)
      (ri_operationId intent) (ri_domainName intent)
      (if is_text "Active" (get "currentstatus" o) then "Active" else "InActive") ms
      (verification_of o))).
Definition ResellbizLiveRegistrar (prepared : bool) : DomainRegistrar :=
  MkRegistrar live_quote (live_ensureContacts prepared) live_registerOnce live_lookup.

(** ** Management of a registered domain *)
Record ResellbizManagedState := MkManagedState
  { mst_management : DomainManagement; mst_orderId : string; mst_contactIds : list string }.
Definition manageable (intent : RegistrarManagedIntent) (orderId : string)
    (b : ResellbizBinding) (o : list (string * json)) : bool :=
  is_text orderId (get "entityid" o) && is_text (mi_domainName intent) (get "domainname" o) &&
  is_text (bd_remoteCustomerId b) (get "customerid" o) &&
  flag true (get "isImmediateReseller" o) && is_text "Active" (get "currentstatus" o).
(** [Number(v)] of the count of name servers. *)
Definition nameserver_values (message : string) (o : list (string * json)) : result (list json) :=
  let failure := JsError message in
  count ← of_option failure (js_number (js_text (get "noOfNameServers" o)));
  _ ← throw_unless ((2 <=? count) && (count <=? 5)) failure;
  Ok ((λ i, get ("ns" ++ Z_to_string (Z.of_nat i))%string o) <$> seq 1 (Z.to_nat count)).
Definition lock_state (locks : list (string * json)) : result bool :=
  let v := get "transferlock" locks in
  _ ← throw_unless (js_same (get "status" locks) JUndefined &&
                    (js_same v JUndefined || flag true v || flag false v))
        (JsError "Registrar lock evidence is unavailable.");
  Ok (flag true v).
(** The contact of the registrar, as the schema of contacts reads it. *)
Definition contact_fields (o : list (string * json)) : json :=
  JObj ([("name", get "name" o); ("company", get "company" o); ("email", get "emailaddr" o);
         ("address", get "address1" o)] ++
        match get "address2" o with JStr s => [("addressLine2", JStr s)] | _ => [] end ++
        [("city", get "city" o); ("region", get "state" o); ("postalCode", get "zip" o);
         ("country", get "country" o); ("phoneCountryCode", get "telnocc" o);
         ("phone", get "telno" o)]).
Definition management (intent : RegistrarManagedIntent) (orderId : string)
    : Sio ResellbizManagedState :=
  b ← rz_bind intent;
  customer ← rz_record "/api/customers/details-by-id.json"
               [one "customer-id" (bd_remoteCustomerId b)];
  c ← lift (active_customer (bd_remoteCustomerId b) customer);
  _ ← require c (JsError "Registrar account ownership is not confirmed.");
  o ← order_details orderId;
  _ ← require (manageable intent orderId b o)
        (JsError "Registrar ownership or manageable state is not confirmed.");
  ns ← lift (nameserver_values "Registrar nameserver evidence is unavailable." o);
  locks ← rz_record "/api/domains/locks.json" [one "order-id" orderId];
  locked ← lift (lock_state locks);
  ms ← lift (end_time "Registrar expiry is unavailable." (get "endtime" o));
  now ← outside new_date;
  projected ← lift (parse domainManagementSchema
    (JObj [("nameservers", JArr ns); ("locked", JBool locked);
           ("observedAt", JStr (to_ISO_string now)); ("expiresAt", JStr (to_ISO_string ms));
           ("verification", JStr (verification_of o))]));
  ids ← lift (of_option (JsError "Registrar identity is unavailable.")
                (z_all z_identifier ((λ k, get k o) <$> contact_roles)));
  let registrant := hd "" ids in
  current ← rz_record "/api/contacts/details.json" [one "contact-id" registrant];
  k ← lift (active_contact registrant (bd_remoteCustomerId b) current);
  _ ← require k (JsError "Current registrar contact ownership is unavailable.");
  contact ← lift (parse resellbizContactSchema (contact_fields current));
  mret (MkManagedState
    (MkManagement (Some contact) (mg_nameservers projected) (mg_locked projected)
       (mg_observedAt projected) (mg_expiresAt projected) (mg_verification projected))
    orderId ids).
(** [new Date(text)]. *)
Context `{DateParser}.
Record ExistingInspection := MkInspection
  { xi_remoteCustomerId : string; xi_remoteContactId : string;
    xi_observed : ResellbizManagedState }.
Definition direct_order (orderId domainName : string) (o : list (string * json)) : bool :=
  is_text orderId (get "entityid" o) && is_text domainName (get "domainname" o) &&
  flag true (get "isImmediateReseller" o) && is_text "Active" (get "currentstatus" o).
Definition date_le (text : string) (now : Z) : bool :=
  match date_of text with Some t => t <=? now | None => false end.
Definition inspectExisting (accountId customerId name : string) : Sio ExistingInspection :=
  domainName ← lift (rz_domain name);
  found ← rz_call "/api/domains/orderid.json" [one "domain-name" domainName];
  orderId ← lift (identifier found);
  o ← order_details orderId;
  _ ← require (direct_order orderId domainName o)
        (JsError "Existing domain ownership is not confirmed.");
  remoteCustomerId ← lift (identifier (get "customerid" o));
  remoteContactId ← lift (identifier (get "registrantcontactid" o));
  ns ← lift (nameserver_values "Existing nameserver evidence is unavailable." o);
  nameservers ← lift (parse registrarNameserversSchema (JArr ns));
  observed ← outside (session
    (Some (MkBinding accountId customerId remoteCustomerId remoteContactId))
    (management (MkManagedIntent accountId customerId domainName nameservers None) orderId));
  now ← outside new_date;
  _ ← require (isSome (mg_contact (mst_management observed)) &&
               negb (date_le (mg_expiresAt (mst_management observed)) now))
        (JsError "An active unexpired domain is required.");
  mret (MkInspection remoteCustomerId remoteContactId observed).
Definition live_authorizationCode (intent : RegistrarIntent) (orderId : string) : Sio string :=
  b ← rz_bind (managed intent);
  o ← order_details orderId;
  lift (of_option (JsError "Registrar authorization code is unavailable.")
    (if manageable (managed intent) orderId b o
     then z_refine (text 1 256) z_string (get "domsecret" o) else None)).

(** ** Changes: each claims its submission just before it is sent *)
Definition submitted (orderId message : string) (path : string) (parameters : RzParameters)
    : Sio unit :=
  id ← lift (identifier (JStr orderId));
  response ← rz_record path (one "order-id" id :: parameters);
  entity ← lift (identifier (get "entityid" response));
  require (String.eqb entity orderId) (JsError message).
Definition changeNameservers (intent : RegistrarIntent) (orderId : string)
    (nameservers : list string) (claimSubmission : Io unit) : Sio unit :=
  _ ← rz_bind (managed intent);
  _ ← lift (parse registrarNameserversSchema (names_json nameservers));
  _ ← outside claimSubmission;
  submitted orderId "Nameserver outcome needs reconciliation." "/api/domains/modify-ns.json"
    [("ns", nameservers)].
Definition changeLock (intent : RegistrarIntent) (orderId : string) (locked : bool)
    (claimSubmission : Io unit) : Sio unit :=
  _ ← rz_bind (managed intent);
  _ ← outside claimSubmission;
  submitted orderId "Lock outcome needs reconciliation."
    (if locked then "/api/domains/enable-theft-protection.json"
     else "/api/domains/disable-theft-protection.json") [].
Definition verifyReplacementContact (intent : RegistrarIntent) (contactId : string)
    : Sio unit :=
  b ← rz_bind (managed intent);
  id ← lift (identifier (JStr contactId));
  outside (session (Some (MkBinding (bd_accountId b) (bd_localCustomerId b)
                            (bd_remoteCustomerId b) id)) (verifyContacts intent)).
Definition replacementContact (intent : RegistrarIntent) : Sio string :=
  b ← rz_bind (managed intent);
  id ← add_contact intent (bd_remoteCustomerId b);
  _ ← verifyReplacementContact intent id;
  mret id.
Definition changeContacts (intent : RegistrarIntent) (orderId contactId : string)
    (claimSubmission : Io unit) : Sio unit :=
  _ ← rz_bind (managed intent);
  id ← lift (identifier (JStr contactId));
  _ ← outside claimSubmission;
  submitted orderId "Contact change needs reconciliation." "/api/domains/modify-contact.json"
    [one "reg-contact-id" id; one "admin-contact-id" id; one "tech-contact-id" id;
     one "billing-contact-id" id; one "designated-agent" "false";
     one "sixty-day-lock-optout" "false"; one "attr-name1" "registrant-org-consent";
     one "attr-value1" (consent_text intent)].
Definition renew (intent : RegistrarIntent) (orderId : string) (previousExpiry : option Z)
    (claimSubmission : Io unit) : Sio unit :=
  let failure := JsError "Renewal cost or expiry preflight did not match." in
  _ ← lift (cost_approval "Renewal cost approval is required." intent);
  _ ← rz_bind (managed intent);
  expiry ← lift (of_option failure
                   (t ← previousExpiry; if t mod 1000 =? 0 then Some t else None));
  cost ← renewalCost (ri_domainName intent);
  _ ← require (negb (ri_costCeiling intent <? cost)) failure;
  _ ← outside claimSubmission;
  submitted orderId "Renewal needs reconciliation." "/api/domains/renew.json"
    [one "years" "1"; one "exp-date" (Z_to_string (expiry / 1000));
     one "invoice-option" "NoInvoice"; one "auto-renew" "false";
     one "purchase-privacy" "false"].
End live.
