(* ===== verification/LogicBoxesSandbox.v ===== *)
(** * The sandbox registrar of LogicBoxes

    packages/database/src/registrar/logicboxes-sandbox.ts: the class
    [LogicBoxesSandboxRegistrar].  Its transport is injected and only ever a mock;
    an answer is a status and a body, none when the request fails or takes ten seconds. *)
From S2P Require Import Prelude JsString JsDate Json Money States DomainTables Database Invoices Payments Gateways GatewayAdapters HostingPanels DomainContracts PanelOperations JsonText Registrar Resellbiz.

Class MockLogicBoxesTransport :=
  { transport_kind : string;
    mock_request : string → string → RzParameters → Io (option (Z * string)) }.
Record SandboxConfig := MkSandboxConfig
  { sc_mode : string; sc_resellerId : string; sc_apiKey : string; sc_costCurrency : string;
    sc_customerId : string; sc_contactId : string; sc_localCustomerId : string;
    sc_localAccountId : string }.
Definition sandbox_record (v : json) : result (list (string * json)) :=
  match v with JObj o => Ok o | _ => Err invalid_response end.
Definition sandbox_id (v : json) : result string :=
  of_option (JsError "Invalid registrar identifier.") (z_identifier v).
(** [if (v)]. *)
Definition js_truthy (v : json) : bool :=
  match v with
  | JUndefined | JNull => false
  | JBool b => b | JNum n => negb (n =? 0) | JStr s => truthy s
  | JFrac _ | JArr _ | JObj _ => true
  end.

Section sandbox.
Context `{ZodFormats} `{ZodUrl} `{UrlParser} `{ZodIso} `{MockLogicBoxesTransport}.
Context (config : SandboxConfig).

(** The constructor. *)
Definition sandbox_new : result unit :=
  _ ← throw_unless (String.eqb transport_kind "MOCK" && String.eqb (sc_mode config) "HTTP_MOCK" &&
                    String.eqb (sc_costCurrency config) "USD")
        (JsError "Credentialed registrar networking is disabled.");
  _ ← sandbox_id (JStr (sc_resellerId config));
  _ ← sandbox_id (JStr (sc_customerId config));
  _ ← sandbox_id (JStr (sc_contactId config));
  throw_unless (String.eqb (sc_apiKey config) "fictional-mock-key")
    (JsError "Real credentials are not accepted by the mock adapter.").
Definition outcome_unavailable : exn :=
  JsError "Registrar outcome is unavailable; reconcile without repeating the mutation.".
Definition sandbox_call (path method : string) (parameters : RzParameters) : Io json :=
  catch
    (answer ← mock_request path method
       (parameters ++ [one "auth-userid" (sc_resellerId config);
                       one "api-key" (sc_apiKey config)]);
     match answer with
     | Some (status, body) =>
         _ ← require (status =? 200) (JsError "");
         lift (losslessRegistrarJson default_limits body)
     | None => throw (JsError "")
     end)
    (λ _, throw outcome_unavailable).
Definition sandbox_get (path : string) (parameters : RzParameters) : Io (list (string * json)) :=
  v ← sandbox_call path "GET" parameters; lift (sandbox_record v).
(** Ordinary availability: nothing premium, priced apart or claimed. *)
Definition sandbox_available (a : list (string * json)) : bool :=
  is_text "available" (get "status" a) &&
  match get "isPremium" a with JUndefined => true | v => flag false v end &&
  negb (js_truthy (get "costHash" a)) && negb (js_truthy (get "claims" a)) &&
  negb (js_truthy (get "trademark-claims" a)).
Definition sandbox_quote (domainName : string) : Io RegistrarQuote :=
  name ← lift (rz_domain domainName);
  tld ← lift (domainExtension name);
  _ ← lift (requireStandardRegistryContact tld);
  answer ← sandbox_get "/api/domains/available.json"
             [one "domain-name" (before_dot name); one "tlds" tld];
  a ← lift (sandbox_record (get name answer));
  _ ← require (sandbox_available a)
        (JsError "Ordinary domain availability is not established.");
  prices ← sandbox_get cost_path [];
  key ← lift (registrarProductKey tld (get "classkey" a));
  product ← lift (sandbox_record (get key prices));
  years ← lift (sandbox_record (get "addnewdomain" product));
  cost ← lift (registrarDecimalMinor (get "1" years));
  now ← new_date;
  mret (MkRegistrarQuote true cost (sc_costCurrency config) now true).
Definition sandbox_bind (intent : RegistrarIntent) : result unit :=
  _ ← rz_domain (ri_domainName intent);
  throw_unless (String.eqb (ri_customerId intent) (sc_localCustomerId config) &&
                String.eqb (ri_accountId intent) (sc_localAccountId config) &&
                (Z.of_nat (length (ri_nameservers intent)) =? 2) && (0 <? ri_costCeiling intent))
    (JsError "Registrar intent ownership mismatch.").
Definition sandbox_evidence (c : DomainContact) : list (string * string) :=
  [("name", dc_name c); ("company", dc_company c); ("address1", dc_address c);
   ("city", dc_city c); ("state", dc_region c); ("zip", dc_postalCode c);
   ("country", dc_country c); ("emailaddr", dc_email c); ("telnocc", dc_phoneCountryCode c);
   ("telno", dc_phone c)].
(** [a || b] of checks that may throw: the conjunction stops at the first that fails. *)
Definition id_is (value : json) (expected : string) (next : result bool) : result bool :=
  id ← sandbox_id value;
  if String.eqb id expected then next else Ok false.
Definition bound_contact (intent : RegistrarIntent) (customer contact : list (string * json))
    : result bool :=
  id_is (get "customerid" customer) (sc_customerId config)
    (id_is (get "resellerid" customer) (sc_resellerId config)
       (if is_text "Active" (get "customerstatus" customer)
        then id_is (get "entityid" contact) (sc_contactId config)
               (id_is (get "customerid" contact) (sc_customerId config)
                  (Ok (is_text "Contact" (get "type" contact) &&
                       is_text "Active" (get "currentstatus" contact) &&
                       forallb (λ kv, is_text kv.2 (get kv.1 contact))
                         (sandbox_evidence (ri_contact intent)))))
        else Ok false)).
Definition sandbox_ensureContacts (intent : RegistrarIntent) (fingerprint : string) : Io unit :=
  _ ← lift (sandbox_bind intent);
  _ ← require (hex64 fingerprint) (JsError "Contact snapshot unavailable.");
  customer ← sandbox_get "/api/customers/details-by-id.json"
               [one "customer-id" (sc_customerId config)];
  contact ← sandbox_get "/api/contacts/details.json" [one "contact-id" (sc_contactId config)];
  ok ← lift (bound_contact intent customer contact);
  require ok (JsError "Bound customer/contact evidence is unavailable.").
Definition sandbox_parameters (intent : RegistrarIntent) : RzParameters :=
  let contact := sc_contactId config in
  [one "domain-name" (ri_domainName intent); one "years" "1"; ("ns", ri_nameservers intent);
   one "customer-id" (sc_customerId config); one "reg-contact-id" contact;
   one "admin-contact-id" contact; one "tech-contact-id" contact;
   one "billing-contact-id" contact; one "invoice-option" "NoInvoice";
   one "auto-renew" "false"; one "purchase-privacy" "false"; one "protect-privacy" "false"].
Definition sandbox_registerOnce (intent : RegistrarIntent) : Io unit :=
  _ ← lift (sandbox_bind intent);
  quote ← sandbox_quote (ri_domainName intent);
  _ ← require (negb (ri_costCeiling intent <? rq_costAmount quote))
        (JsError "Registrar cost ceiling exceeded.");
  v ← sandbox_call "/api/domains/register.json" "POST" (sandbox_parameters intent);
  response ← lift (sandbox_record v);
  _ ← lift (sandbox_id (get "entityid" response));
  mret tt.
Definition sandbox_owned (intent : RegistrarIntent) (o : list (string * json)) : result bool :=
  if is_text (ri_domainName intent) (get "domainname" o)
  then id_is (get "customerid" o) (sc_customerId config)
         (id_is (get "immediateresellerid" o) (sc_resellerId config) (Ok true))
  else Ok false.
Definition sandbox_status (v : json) : result string :=
  if is_text "Active" v then Ok "Active" else if is_text "InActive" v then Ok "InActive"
  else Err (JsError "Registrar status is not supported.").
Definition sandbox_expiry (v : json) : result Z :=
  seconds ← sandbox_id v;
  let ms := string_to_Z seconds * 1000 in
  _ ← throw_unless (ms <=? 8640000000000000) (JsError "Registrar expiry is invalid.");
  Ok ms.
Definition sandbox_lookup (intent : RegistrarIntent) : Io (option RegistrarObservation) :=
  _ ← lift (sandbox_bind intent);
  found ← sandbox_call "/api/domains/orderid.json" "GET"
            [one "domain-name" (ri_domainName intent)];
  orderId ← lift (sandbox_id found);
  o ← sandbox_get "/api/domains/details.json"
        [one "order-id" orderId; ("options", ["OrderDetails"])];
  owned ← lift (sandbox_owned intent o);
  _ ← require owned (JsError "Registrar order ownership mismatch.");
  status ← lift (sandbox_status (get "currentstatus" o));
  ms ← lift (sandbox_expiry (get "endtime" o));
  mret (Some (MkObservation orderId (ri_accountId intent) (ri_customerId intent)
    (ri_operationId intent) (ri_domainName intent) status ms
    (if is_text "Verified" (get "raa-verification-status" o) then "Verified" else "Pending"))).
Definition LogicBoxesSandboxRegistrar : DomainRegistrar :=
  MkRegistrar (λ name, outside (sandbox_quote name))
    (λ intent fingerprint, outside (sandbox_ensureContacts intent fingerprint))
    (λ intent, outside (sandbox_registerOnce intent)) (λ intent, outside (sandbox_lookup intent)).
End sandbox.
