(* ===== verification/RegistrarProcessor.v ===== *)
(** * The registrar processor

    packages/database/src/registrar/processor.ts and the job handler of
    apps/worker/src/registrar/registrar.module.ts.  The two transactions of
    [process] are definitions of their own: between them the provider is asked. *)
From S2P Require Import Prelude JsString JsDate Json Money States AuthTables DomainTables Database Invoices BackgroundJobs Payments Gateways GatewayAdapters Orders HostingPanels DomainContracts PanelOperations JsonText Totp Authentication Registrar Resellbiz.

Record ProcessorOptions := MkProcessorOptions
  { po_simulationAllowed : option bool; po_liveAllowed : option bool }.
(** What the first transaction hands on. *)
Record Preparation := MkPreparation
  { pn_intent : RegistrarIntent; pn_provider : DomainRegistrar;
    pn_binding : option ResellbizBinding; pn_mode : string; pn_dispatch : bool }.
Definition settled_state (state : string) : bool :=
  existsb (String.eqb state) ["REGISTERED"; "FAILED"].
Definition final_action (state : string) : bool :=
  existsb (String.eqb state) ["SUCCEEDED"; "CANCELLED"; "FAILED"].
(** An action of the account that was claimed and has no outcome. *)
Definition outstanding (accountId : string) (a : DomainAction) : bool :=
  String.eqb (da_accountId a) accountId && isSome (da_claimedAt a) &&
  negb (final_action (da_state a)).
Definition outstanding_action (accountId : string) (d : Db) : bool :=
  negb (bool_decide (rows (outstanding accountId) (domainActions d) = [])).
Definition executing_account (o : RegistrarOperation) : string :=
  default (ro_accountId o) (ro_selectedAccountId o).
(** Other registrations of the account that were claimed. *)
Definition busy_operation (accountId operationId : string) (o : RegistrarOperation) : bool :=
  String.eqb (executing_account o) accountId && negb (String.eqb (ro_id o) operationId) &&
  isSome (ro_claimedAt o).
Definition text_names (v : json) : option (list string) := z_array z_string v.
(** A stored snapshot: none when the column is null. *)
Definition stored_snapshot `{ZodFormats} `{ZodUrl} `{UrlParser} (v : json)
    : result (option DomainSelectionSnapshot) :=
  match v with JNull | JUndefined => Ok None
  | v => Some <$> parse domainSelectionSnapshotSchema v end.
Definition full_administrator (u : UserWithProfiles) : bool :=
  match up_profile u with
  | Some p => bool_decide (ap_staffRole p = StaffRole.FULL_ADMINISTRATOR) | None => false end.
Definition approving_administrator (u : option UserWithProfiles) : bool :=
  match u with
  | Some u => administrator (up_user u) && active (up_user u) && negb (deleted (up_user u)) &&
              full_administrator u && totp_enabled (up_credential u)
  | None => false
  end.
Definition eligible_owner (verified : bool) (c : option Customer) : bool :=
  match c with
  | Some c => (cus_status c ==b CustomerStatus.ACTIVE) && negb (isSome (cus_deletedAt c)) &&
              (usr_status c ==b UserStatus.ACTIVE) && negb (isSome (usr_deletedAt c)) &&
              (negb verified || isSome (usr_emailVerifiedAt c))
  | None => false
  end.
Definition fulfilling (s : OrderStatus) : bool :=
  (s ==b OrderStatus.PAID) || (s ==b OrderStatus.PROCESSING).

Section processor.
Context `{ZodFormats} `{ZodUrl} `{UrlParser} `{ZodIso} `{RegistrarCrypto}
  `{ResellbizTransport} `{RegistrarRandom} `{JsNumber}.
Context (injected : option DomainRegistrar) (options : ProcessorOptions).

(** ** The first transaction *)
(** The account may act for this operation. *)
Definition same_selection (account origin : RegistrarAccount) (o : RegistrarOperation)
    (domain : Domain) : bool :=
  String.eqb (ra_mode account) (ra_mode origin) &&
  (negb (isSome (ro_selectedAccountId o)) ||
   bool_decide (dom_executionAccountId domain = Some (ra_id account))).
Definition account_open (account : RegistrarAccount) (o : RegistrarOperation) (domain : Domain)
    : bool :=
  ra_enabled account &&
  (if String.eqb (ra_mode account) "FAKE"
   then negb (bool_decide (po_simulationAllowed options = Some false))
   else String.eqb (ra_mode account) "LIVE" &&
        bool_decide (po_liveAllowed options = Some true) && ro_priceChangeRiskAccepted o) &&
  String.eqb (ra_provider account) "stargate" && negb (settled_state (dom_state domain)).
Definition poll_due (o : RegistrarOperation) : Io bool :=
  if 10 <=? ro_pollCount o then mret false
  else match ro_claimedAt o with
       | Some _ => now ← new_date; mret (negb (now <? ro_nextPollAt o))
       | None => mret true
       end.
(** The provider of a live account, none when its configuration forbids it. *)
Definition live_preparation (account : RegistrarAccount) (operation : RegistrarOperation)
    (domain : Domain) (quote : DomainQuote) (nameservers : list string) (credentials : json)
    : Io (option (DomainRegistrar * option ResellbizBinding)) :=
  let modern := registrarConnectionIdentitySchema (ra_configuration account) in
  legacy ← match modern with
           | Some _ => mret None
           | None => lift (Some <$> parse resellbizConfigurationSchema (ra_configuration account))
           end;
  confirmed ← match modern with
              | Some _ => read (λ d, match registrarProfiles d !! ra_id account with
                                     | Some p => rpf_nativeCostConfirmed p | None => false end)
              | None => mret true
              end;
  if negb (confirmed : bool) then mret None
  else
    selection ← lift (stored_snapshot (quo_selectionSnapshot quote));
    payload ← lift (parse resellbizCredentialSchema credentials);
    mapping ← read (mapping_of (ra_id account, dom_customerId domain,
                                default (quo_fingerprint quote)
                                  (ro_selectionFingerprint operation)));
    let resellerId := match legacy with
                      | Some c => cf_resellerId c | None => default "" modern end in
    let consented :=
      match selection, legacy with
      | Some s, _ => existsb (λ e, String.eqb (rch_id e) (ra_id account))
                       (ss_eligibleRegistrars s) && isSome (ro_selectedAccountId operation)
      | None, Some c => String.eqb (json_print (names_json nameservers))
                          (json_print (names_json (cf_nameservers c)))
      | None, None => false
      end in
    if String.eqb (rz_resellerId payload) resellerId &&
       String.eqb (quo_agreement quote) "resellbiz-registration-v1" && consented
    then mret (Some (default (ResellbizLiveRegistrar payload true) injected,
                     (λ m, MkBinding (ra_id account) (dom_customerId domain)
                             (rm_remoteCustomerId m) (rm_remoteContactId m)) <$> mapping))
    else mret None.
(** A claim needs the approver, the customer, the order and the payment. *)
Definition claim_eligible (account : RegistrarAccount) (operation : RegistrarOperation)
    (domain : Domain) (orderItemId invoiceId : string) : Io bool :=
  approver ← read (user_by_id (ro_actorUserId operation));
  customer ← read (λ d, customers d !! dom_customerId domain);
  item ← row_or_throw orderItems orderItemId;
  order ← row_or_throw orders (oi_orderId item);
  if approving_administrator approver &&
     eligible_owner (String.eqb (ra_mode account) "LIVE") customer &&
     fulfilling (ord_status order)
  then verifiedDomainInvoice invoiceId (dom_customerId domain)
  else mret false.
(** No other registration of the account is without an outcome. *)
Definition registrations_settled (operations : list RegistrarOperation) : Io bool :=
  fold_each (λ settled o,
    if settled : bool then
      domain ← row_or_throw domains (ro_domainId o);
      mret (settled_state (dom_state domain))
    else mret false) true operations.
Definition reserve_poll (claim : option Z) (o : RegistrarOperation) : Io unit :=
  now ← new_date;
  change_row registrarOperations (ro_id o)
    (λ r, (match claim with Some t => r <| ro_claimedAt := Some t |> | None => r end)
            <| ro_pollCount := ro_pollCount r + 1 |> <| ro_nextPollAt := now + 360000 |>).
(** Whether the operation was claimed just now, none when it may not be. *)
Definition claim_dispatch (account : RegistrarAccount) (operation : RegistrarOperation)
    (domain : Domain) (orderItemId invoiceId : string) : Io (option unit) :=
  liveBusy ← (if String.eqb (ra_mode account) "LIVE"
              then read (outstanding_action (ra_id account)) else mret false);
  if liveBusy : bool then mret None
  else
    eligible ← claim_eligible account operation domain orderItemId invoiceId;
    if negb (eligible : bool) then
      _ ← update_domain (dom_id domain) (λ r, r <| dom_state := "AWAITING_APPROVAL" |>);
      _ ← add_evidence (ro_id operation) "PAYMENT_OR_OWNER_INELIGIBLE";
      mret None
    else
      busyAction ← read (outstanding_action (ra_id account));
      if busyAction : bool then mret None
      else
        busy ← read (λ d, rows (busy_operation (ra_id account) (ro_id operation))
                            (registrarOperations d));
        settled ← registrations_settled busy;
        if negb (settled : bool) then mret None
        else
          now ← new_date;
          _ ← reserve_poll (Some now) operation;
          _ ← update_domain (dom_id domain) (λ r, r <| dom_state := "NEEDS_RECONCILIATION" |>);
          _ ← add_evidence (ro_id operation) "DISPATCH_CLAIMED";
          mret (Some tt).
(** From the rows that were read: the intent, the provider, the claim or the slot. *)
Definition prepare_rows (operation : RegistrarOperation) (domain : Domain)
    (account origin : RegistrarAccount) (quoteId orderItemId invoiceId : string)
    : Io (option Preparation) :=
  quote ← row_or_throw domainQuotes quoteId;
  credential ← row_or_throw registrarCredentials
                 (default (ro_credentialId operation) (ro_selectedCredentialId operation));
  if negb (String.eqb (rc_accountId credential) (ra_id account)) then mret None
  else
    credentials ← lift (registrar_decrypt
      (credentialBinding (ra_id account) (rc_version credential) (ra_mode account))
      (rc_ciphertext credential));
    clear ← lift (registrar_decrypt
      (contactBinding (ra_id origin) (dom_customerId domain) (ra_mode origin))
      (quo_contactCiphertext quote));
    contact ← lift (parse domainContactSchema clear);
    nameservers ← lift (of_option (JsError "Registrar nameservers unavailable.")
                          (text_names (quo_nameservers quote)));
    let intent := MkIntent (ro_id operation) (ra_id account) (dom_customerId domain)
                    (dom_domainName domain) nameservers contact (ro_costCeiling operation) in
    provider ← (if String.eqb (ra_mode account) "LIVE"
                then live_preparation account operation domain quote nameservers credentials
                else mret (Some (default FakeDomainRegistrar injected, None)));
    match provider with
    | None => mret None
    | Some (provider, binding) =>
        let dispatch := negb (isSome (ro_claimedAt operation)) in
        reserved ← (if dispatch
                    then claim_dispatch account operation domain orderItemId invoiceId
                    else _ ← reserve_poll None operation; mret (Some tt));
        mret ((λ _, MkPreparation intent provider binding (ra_mode account) dispatch)
                <$> reserved)
    end.
(** The accounts to lock, each once and in their order. *)
Definition locked_accounts (locator : RegistrarOperation) : list string :=
  let origin := ro_accountId locator in
  let selected := executing_account locator in
  if String.eqb origin selected then [origin]
  else if String.ltb origin selected then [origin; selected] else [selected; origin].
Definition prepare_tx (locator : RegistrarOperation) (invoiceId : string)
    : Io (option Preparation) :=
  _ ← lockDomainInvoice invoiceId;
  _ ← lock_row "domains" (ro_domainId locator);
  _ ← lock_row "registrar_operations" (ro_id locator);
  _ ← for_each (locked_accounts locator) (lock_row "registrar_accounts");
  operation ← row_or_throw registrarOperations (ro_id locator);
  domain ← row_or_throw domains (ro_domainId operation);
  account ← row_or_throw registrarAccounts (executing_account operation);
  origin ← row_or_throw registrarAccounts (ro_accountId operation);
  if negb (same_selection account origin operation domain) then mret None
  else if negb (account_open account operation domain) then mret None
  else
    due ← poll_due operation;
    match due, dom_quoteId domain, dom_orderItemId domain, dom_invoiceId domain with
    | true, Some quoteId, Some orderItemId, Some invoiceId =>
        if String.eqb (dom_origin domain) "EXISTING" then mret None
        else prepare_rows operation domain account origin quoteId orderItemId invoiceId
    | _, _, _, _ => mret None
    end.

(** ** The provider *)
Definition dispatch_conflict (p : Preparation) (cost : RegistrarQuote)
    (existing : option RegistrarObservation) : bool :=
  isSome existing || negb (rq_available cost) || negb (String.eqb (rq_costCurrency cost) "USD") ||
  negb (Bool.eqb (rq_simulated cost) (String.eqb (pn_mode p) "FAKE")) ||
  (ri_costCeiling (pn_intent p) <? rq_costAmount cost) || (rq_costAmount cost <=? 0).
Definition contact_fingerprint (locator : RegistrarOperation) (quoteId : string) : Io string :=
  match ro_selectionFingerprint locator with
  | Some f => mret f
  | None => quote ← row_or_throw domainQuotes quoteId; mret (quo_fingerprint quote)
  end.
(** The registration: whether its outcome is to be read. *)
Definition dispatch_once (locator : RegistrarOperation) (quoteId : string) (p : Preparation)
    : Sio bool :=
  let evidence code_ := outside (add_evidence (ro_id locator) code_) in
  catch
    (cost ← dr_quote (pn_provider p) (ri_domainName (pn_intent p));
     existing ← dr_lookup (pn_provider p) (pn_intent p);
     if dispatch_conflict p cost existing
     then _ ← evidence "PRE_DISPATCH_CONFLICT"; mret false
     else
       fingerprint ← outside (contact_fingerprint locator quoteId);
       _ ← dr_ensureContacts (pn_provider p) (pn_intent p) fingerprint;
       _ ← dr_registerOnce (pn_provider p) (pn_intent p);
       _ ← evidence "MUTATION_RESPONSE_RECEIVED";
       mret true)
    (λ _, _ ← evidence "MUTATION_OUTCOME_UNCERTAIN"; mret true).
(** What the provider says of the order, none when there is nothing to record. *)
Definition observe (locator : RegistrarOperation) (quoteId : string) (p : Preparation)
    : Sio (option (option RegistrarObservation)) :=
  read_ ← (if pn_dispatch p then dispatch_once locator quoteId p else mret true);
  if read_ : bool then
    catch (o ← dr_lookup (pn_provider p) (pn_intent p); mret (Some o))
      (λ _, _ ← outside (add_evidence (ro_id locator) "READ_OUTCOME_UNCERTAIN"); mret None)
  else mret None.

(** ** The second transaction *)
Definition names_intent (intent : RegistrarIntent) (o : RegistrarObservation) : bool :=
  String.eqb (rob_accountId o) (ri_accountId intent) &&
  String.eqb (rob_customerId o) (ri_customerId intent) &&
  String.eqb (rob_operationId o) (ri_operationId intent) &&
  String.eqb (rob_domainName o) (ri_domainName intent).
Definition matching (intent : RegistrarIntent) (observation : option RegistrarObservation)
    : Io (option RegistrarObservation) :=
  match observation with
  | Some o =>
      if names_intent intent o
      then now ← new_date; mret (if now <? rob_expiresAt o then Some o else None)
      else mret None
  | None => mret None
  end.
Definition observed_state (match_ : option RegistrarObservation) : string :=
  match match_ with
  | Some o => if String.eqb (rob_state o) "Active" then "REGISTERED"
              else if String.eqb (rob_state o) "Rejected" then "FAILED"
              else "NEEDS_RECONCILIATION"
  | None => "NEEDS_RECONCILIATION"
  end.
Definition poll_delay (pollCount : Z) : Z :=
  (if pollCount =? 1 then 15 else if pollCount =? 2 then 30 else 360) * 1000.
Definition observed_domain (match_ : option RegistrarObservation) (r : Domain) : Domain :=
  let state := observed_state match_ in
  let r := r <| dom_state := state |> in
  match match_ with
  | Some o => if String.eqb state "REGISTERED"
              then r <| dom_providerOrderId := Some (rob_orderId o) |>
                     <| dom_expiresAt := Some (rob_expiresAt o) |>
                     <| dom_verification := rob_verification o |>
              else r
  | None => r
  end.
Definition observed_code (state : string) : string :=
  if String.eqb state "REGISTERED" then "OWNERSHIP_AND_EXPIRY_CONFIRMED"
  else if String.eqb state "FAILED" then "PROVIDER_REJECTED"
  else "MANUAL_RECONCILIATION_REQUIRED".
Definition complete_order (orderItemId : string) : Io unit :=
  item ← row_or_throw orderItems orderItemId;
  complete ← orderFulfillmentComplete (oi_orderId item);
  if complete : bool
  then now ← new_date;
       update_order (oi_orderId item)
         (λ r, r <| ord_status := OrderStatus.COMPLETED |> <| ord_completedAt := Some now |>)
  else update_order (oi_orderId item) (λ r, r <| ord_status := OrderStatus.PROCESSING |>).
Definition record_tx (locator : RegistrarOperation) (invoiceId orderItemId : string)
    (intent : RegistrarIntent) (observation : option RegistrarObservation) : Io unit :=
  _ ← lockDomainInvoice invoiceId;
  _ ← lock_row "domains" (ro_domainId locator);
  _ ← lock_row "registrar_operations" (ro_id locator);
  op ← row_or_throw registrarOperations (ro_id locator);
  current ← row_or_throw domains (ro_domainId locator);
  if settled_state (dom_state current) then mret tt
  else
    match_ ← matching intent observation;
    now ← new_date;
    _ ← change_row registrarOperations (ro_id locator)
          (λ r, r <| ro_nextPollAt := now + poll_delay (ro_pollCount op) |>);
    _ ← update_domain (ro_domainId locator) (observed_domain match_);
    _ ← add_evidence (ro_id locator) (observed_code (observed_state match_));
    when (String.eqb (observed_state match_) "REGISTERED") (complete_order orderItemId).

(** ** process *)
Definition process (operationId : string) : Io unit :=
  found ← read (λ d, registrarOperations d !! operationId);
  match found with
  | None => mret tt
  | Some locator =>
      located ← row_or_throw domains (ro_domainId locator);
      match dom_invoiceId located, dom_quoteId located, dom_orderItemId located with
      | Some invoiceId, Some quoteId, Some orderItemId =>
          if String.eqb (dom_origin located) "EXISTING" then mret tt
          else
            preparation ← transaction (prepare_tx locator invoiceId);
            match preparation with
            | None => mret tt
            | Some p =>
                observed ← session (pn_binding p) (observe locator quoteId p);
                match observed with
                | None => mret tt
                | Some observation =>
                    transaction (record_tx locator invoiceId orderItemId (pn_intent p)
                                   observation)
                end
            end
      | _, _, _ => mret tt
      end
  end.

(** ** The job handler of the worker *)
Definition registration_events : list string :=
  ["DOMAIN_REGISTRATION_REQUESTED"; "DOMAIN_REGISTRATION_RECONCILE"].
Definition registration_job (outboxEventId aggregateId eventType : string) : Io unit :=
  event ← read (λ d, outboxEvents d !! outboxEventId);
  _ ← require (match event with
               | Some e => String.eqb (out_aggregateType e) "REGISTRAR_OPERATION" &&
                           String.eqb (out_aggregateId e) aggregateId &&
                           String.eqb (out_eventType e) eventType &&
                           existsb (String.eqb (out_eventType e)) registration_events
               | None => false
               end) (JsError "Registrar job reference is invalid.");
  op ← read (λ d, registrarOperations d !! aggregateId);
  _ ← require (negb (String.eqb eventType "DOMAIN_REGISTRATION_RECONCILE") ||
               isSome (op ≫= ro_claimedAt))
        (JsError "Reconciliation cannot dispatch a registration.");
  process aggregateId.
End processor.
