(* ===== verification/DomainAdministration.v ===== *)
(** * Domain administration

    apps/api/src/modules/domains/domain-administration.service.ts: registrar
    connections, the catalogue of extensions, DNS defaults and policies, and the
    context a quote is made in. *)
From stdpp Require Import sorting.
From S2P Require Import Prelude JsString JsDate Json Money States AuthTables DomainTables Database Invoices Payments Gateways GatewayAdapters HostingPanels DomainContracts PanelOperations JsonText Totp Authentication Registrar Resellbiz RegistrarProcessor.

(** What the services read of the environment. *)
Record DomainEnvironment := MkDomainEnvironment
  { de_production : bool; de_liveEnabled : bool }.
Definition unavailable (message : string) : exn := AppException 503 "CONFLICT" message.
Definition mfa_required : exn :=
  forbidden "A full administrator with two-factor authentication is required.".
(** [authorize], [administrator]: a full administrator with a second factor. *)
Definition mfa_administrator (auth : AuthRequestContext) : bool :=
  match auth_identity auth with
  | Administrator _ _ _ _ role twoFactor =>
      bool_decide (role = StaffRole.FULL_ADMINISTRATOR) && twoFactor
  | _ => false
  end.
Definition authorize_domains (auth : AuthRequestContext) : Io unit :=
  require (mfa_administrator auth) mfa_required.
Definition lock_domains : Io unit := lock_row "advisory" "510118".
Definition audit (auth : AuthRequestContext) (action : string) (id : option string) : Io unit :=
  log_activity (MkActivityLog (Some (auth_userId auth)) action "DOMAIN_ADMINISTRATION" id
                  None None JNull).

(** Orders of the queries. *)
Definition account_before (a b : RegistrarAccount) : Prop :=
  ra_createdAt a < ra_createdAt b ∨
  (ra_createdAt a = ra_createdAt b ∧ String.leb (ra_id a) (ra_id b) = true).
#[export] Instance account_before_dec : RelDecision account_before.
Proof. intros a b. unfold account_before. apply _. Defined.
Definition account_id_before (a b : RegistrarAccount) : Prop :=
  String.leb (ra_id a) (ra_id b) = true.
#[export] Instance account_id_before_dec : RelDecision account_id_before.
Proof. intros a b. unfold account_id_before. apply _. Defined.
Definition tld_before (a b : DomainCatalogueTld) : Prop :=
  dct_displayOrder a < dct_displayOrder b ∨
  (dct_displayOrder a = dct_displayOrder b ∧ String.leb (dct_tld a) (dct_tld b) = true).
#[export] Instance tld_before_dec : RelDecision tld_before.
Proof. intros a b. unfold tld_before. apply _. Defined.
Definition entry_before (a b : string * Z) : Prop := String.leb a.1 b.1 = true.
#[export] Instance entry_before_dec : RelDecision entry_before.
Proof. intros a b. unfold entry_before. apply _. Defined.
Definition every {R} (m : gmap string R) : list R := rows (λ _, true) m.

Definition default_name : string := "StarGate/UK2 (resell.biz)".
Definition catalogue_of (tld : string) (d : Db) : option DomainCatalogueTld :=
  find_unique (domainCatalogue d) dct_tld tld.
Definition offer_of (accountId tld : string) (d : Db) : option DomainOffer :=
  find_unique (domainOffers d) (λ o, (off_accountId o, off_tld o)) (accountId, tld).
(** [registrarCredential.create] of the next version. *)
Definition create_credential (accountId : string) (version : Z) (ciphertext : string)
    : Io unit :=
  id ← random_uuid;
  let r := MkRegistrarCredential id accountId version ciphertext in
  create_row registrarCredentials id
    (λ m, unique_in m (λ c, (rc_accountId c, rc_version c)) (accountId, version)) r.
(** [domainOffer.create] and the query of its account and extension. *)
Definition create_offer (accountId productId priceId tld : string) (nameservers : json)
    : Io unit :=
  id ← random_uuid;
  create_row domainOffers id
    (λ m, unique_in m (λ o, (off_accountId o, off_tld o)) (accountId, tld))
    (MkDomainOffer id accountId productId priceId tld nameservers).
(** [registrarProfile.upsert]. *)
Definition upsert_profile (p : RegistrarProfile) (f : RegistrarProfile → RegistrarProfile)
    : Io unit :=
  write (λ d, d <| registrarProfiles :=
    <[rpf_accountId p := match registrarProfiles d !! rpf_accountId p with
                         | Some old => f old | None => p end]> (registrarProfiles d) |>).
(** A price, joined with the columns of its product. *)
Definition price_of_product (id : string) (p : Product) (amount : Z) (active : bool)
    : ProductPrice :=
  MkProductPrice id (pdt_id p) BillingPeriod.ANNUAL "BDT" amount 0 active None None None
    (pdt_kind p) (pdt_status p) (pdt_publicVisible p) (pdt_deletedAt p) (pdt_name p) None
    (pdt_slug p) None [].
Definition create_price (productId : string) (amount : Z) (active : bool) : Io string :=
  id ← random_uuid;
  product ← row_or_throw catalogueProducts productId;
  _ ← create_row productPrices id (λ _, true) (price_of_product id product amount active);
  mret id.
Definition create_product (slug name : string) : Io string :=
  id ← random_uuid;
  _ ← create_row catalogueProducts id (λ m, unique_in m pdt_slug slug)
        (MkProduct id ProductKind.DOMAIN slug name ACTIVE true None);
  mret id.

(** The extensions of the catalogue that have a price, offered by the open accounts. *)
Definition ensureOffers (accountId : option string) : Io unit :=
  accounts ← read (λ d, take 100 (rows (λ a, ra_enabled a &&
    match accountId with Some id => String.eqb (ra_id a) id | None => true end)
    (registrarAccounts d)));
  tlds ← read (λ d, take 1000 (rows (λ t, isSome (dct_registrationPriceId t))
                                 (domainCatalogue d)));
  for_each accounts (λ account,
    for_each tlds (λ tld,
      prior ← read (offer_of (ra_id account) (dct_tld tld));
      match prior, dct_registrationPriceId tld with
      | None, Some priceId =>
          create_offer (ra_id account) (dct_productId tld) priceId (dct_tld tld) (JArr [])
      | _, _ => mret tt
      end)).

Section administration.
Context `{ZodFormats} `{ZodUrl} `{UrlParser} `{ZodIso} `{RegistrarCrypto}
  `{ResellbizTransport} `{JsNumber} (environment : DomainEnvironment).

(** ** Connections *)
(** The masked identity shows the last four characters; a simulated account has none. *)
Record RegistrarConnection := MkRegistrarConnection
  { rx_id : string; rx_name : string; rx_live : bool; rx_enabled : bool; rx_isDefault : bool;
    rx_networkEnabled : bool; rx_credentialVersion : Z; rx_maskedResellerId : option string;
    rx_nativeCostConfirmed : bool; rx_renewal : bool }.
(** [id.slice(-4)]. *)
Definition last_four (s : string) : string :=
  String.substring (String.length s - 4) 4 s.
Definition is_legacy (configuration : json) : bool :=
  isSome (resellbizConfigurationSchema configuration).
Definition connection_view (a : RegistrarAccount) : Io RegistrarConnection :=
  profile ← read (λ d, registrarProfiles d !! ra_id a);
  credential ← read (latest_credential (ra_id a) None);
  let live := String.eqb (ra_mode a) "LIVE" in
  reseller ← (if live then lift (Some <$> registrarIdentity (ra_configuration a))
              else mret None);
  mret (MkRegistrarConnection (ra_id a) (default default_name (rpf_name <$> profile)) live
    (ra_enabled a) (default false (rpf_isDefault <$> profile))
    (live && de_liveEnabled environment) (default 0 (rc_version <$> credential))
    (last_four <$> reseller)
    (default (String.eqb (ra_mode a) "FAKE" || is_legacy (ra_configuration a))
       (rpf_nativeCostConfirmed <$> profile)) live).
Definition connections (auth : AuthRequestContext) : Io (list RegistrarConnection) :=
  _ ← authorize_domains auth;
  accounts ← read (λ d, take 100 (merge_sort account_before (every (registrarAccounts d))));
  fold_each (λ views a, v ← connection_view a; mret (views ++ [v])) [] accounts.
Definition same_reseller (resellerId : string) (accounts : list RegistrarAccount)
    : result bool :=
  foldr (λ a rest, id ← registrarIdentity (ra_configuration a);
                   if String.eqb id resellerId then Ok true else rest) (Ok false) accounts.
Definition createConnection_tx (input : CreateRegistrarConnection) (auth : AuthRequestContext)
    : Io unit :=
  _ ← lock_domains;
  accounts ← read (λ d, every (registrarAccounts d));
  _ ← require (negb (100 <=? Z.of_nat (length accounts)))
        (conflict "The registrar connection limit has been reached.");
  existing ← read (λ d, rows (λ a, String.eqb (ra_mode a) "LIVE") (registrarAccounts d));
  let c := cn_credential input in
  taken ← lift (same_reseller (rz_resellerId c) existing);
  _ ← require (negb taken) (conflict
        "This reseller identity is already configured. Replace its key instead.");
  id ← random_uuid;
  now ← new_date;
  _ ← create_row registrarAccounts id (λ _, true)
        (MkRegistrarAccount id "stargate" "LIVE" false
           (JObj [("schemaVersion", JNum 2); ("resellerId", JStr (rz_resellerId c))]) now);
  ciphertext ← registrar_encrypt (credentialBinding id 1 "LIVE") (credential_json c);
  _ ← create_credential id 1 ciphertext;
  _ ← create_row registrarProfiles id (λ _, true)
        (MkRegistrarProfile id (cn_name input) false false);
  audit auth "REGISTRAR_CONNECTION_SAVED_DISABLED" (Some id).
Definition createConnection (raw : json) (auth : AuthRequestContext)
    : Io (list RegistrarConnection) :=
  _ ← authorize_domains auth;
  input ← lift (parse createRegistrarConnectionSchema raw);
  _ ← catch (transaction (createConnection_tx input auth))
        (λ e, match e with
              | AppException _ _ _ => throw e
              | _ => throw (conflict
                  "The registrar connection could not be saved. Refresh before retrying.")
              end);
  connections auth.
Definition setDefault_tx (id : string) (auth : AuthRequestContext) : Io unit :=
  _ ← lock_domains;
  found ← read (λ d, registrarAccounts d !! id);
  account ← lift (of_option (conflict "Choose an enabled supported registrar.")
    (a ← found; if ra_enabled a && negb (String.eqb (ra_mode a) "FAKE" &&
                                         de_production environment) then Some a else None));
  _ ← write (λ d, d <| registrarProfiles :=
        update_rows rpf_isDefault (λ p, p <| rpf_isDefault := false |>)
          (registrarProfiles d) |>);
  _ ← upsert_profile
        (MkRegistrarProfile id default_name true
           (String.eqb (ra_mode account) "FAKE" || is_legacy (ra_configuration account)))
        (λ p, p <| rpf_isDefault := true |>);
  _ ← ensureOffers (Some id);
  audit auth "REGISTRAR_DEFAULT_CHANGED" (Some id).
Definition setDefault (id : string) (auth : AuthRequestContext)
    : Io (list RegistrarConnection) :=
  _ ← authorize_domains auth;
  _ ← transaction (setDefault_tx id auth);
  connections auth.
(** A new version of the credential; the account is closed until it is checked. *)
Definition rotate_tx (id : string) (input : ResellbizCredential) (auth : AuthRequestContext)
    : Io unit :=
  _ ← lock_domains;
  _ ← lock_row "registrar_accounts" id;
  account ← row_or_throw registrarAccounts id;
  resellerId ← (if String.eqb (ra_mode account) "LIVE"
                then lift (Some <$> registrarIdentity (ra_configuration account))
                else mret None);
  _ ← require (bool_decide (resellerId = Some (rz_resellerId input)))
        (conflict "Credential replacement must retain the same reseller identity.");
  found ← read (latest_credential id None);
  latest ← lift (of_option RecordNotFound found);
  let version := rc_version latest + 1 in
  ciphertext ← registrar_encrypt (credentialBinding id version "LIVE") (credential_json input);
  _ ← create_credential id version ciphertext;
  _ ← change_row registrarAccounts id (λ a, a <| ra_enabled := false |>);
  audit auth "REGISTRAR_CREDENTIAL_REPLACED_DISABLED" (Some id).
Definition rotate (id : string) (raw : json) (auth : AuthRequestContext)
    : Io (list RegistrarConnection) :=
  _ ← authorize_domains auth;
  input ← lift (parse resellbizCredentialSchema raw);
  _ ← transaction (rotate_tx id input auth);
  connections auth.
(** The credential the live provider of an account works with. *)
Definition live_credential (id : string) (pinned : option string)
    : Io (ResellbizCredential * RegistrarCredential) :=
  account ← row_or_throw registrarAccounts id;
  _ ← require (String.eqb (ra_mode account) "LIVE" && de_liveEnabled environment)
        (conflict "Live registrar networking is disabled.");
  resellerId ← lift (registrarIdentity (ra_configuration account));
  found ← read (latest_credential id pinned);
  credential ← lift (of_option RecordNotFound found);
  clear ← lift (registrar_decrypt (credentialBinding id (rc_version credential) "LIVE")
                  (rc_ciphertext credential));
  payload ← lift (parse resellbizCredentialSchema clear);
  _ ← require (String.eqb (rz_resellerId payload) resellerId)
        (conflict "Registrar credential ownership changed.");
  mret (payload, credential).
(** At most five reads a minute for each account. *)
Definition READ_WINDOW : Z := 60000.
Definition recent_reads (accountId : string) (since : Z) (d : Db) : Z :=
  Z.of_nat (length (List.filter (λ r, String.eqb (rr_accountId r) accountId &&
                                      (since <? rr_createdAt r)) (registrarReads d))).
Definition reserve_read (accountId : string) (log : ActivityLog) (message : string)
    : Io unit :=
  _ ← lock_row "registrar_accounts" accountId;
  now ← new_date;
  recent ← read (recent_reads accountId (now - READ_WINDOW));
  _ ← require (negb (5 <=? recent)) (conflict message);
  created ← new_date;
  _ ← write (λ d, d <| registrarReads := registrarReads d ++
                                         [MkReservation accountId created] |>);
  log_activity log.
Record ConnectionCheck := MkCheck
  { ck_available : bool; ck_costAmount : string; ck_costCurrency : string;
    ck_credentialVersion : Z }.
Definition not_verified : exn := conflict
  "Registrar availability or cost could not be verified. No registration was submitted.".
Definition check (id domainName : string) (auth : AuthRequestContext) : Io ConnectionCheck :=
  _ ← authorize_domains auth;
  '(payload, credential) ← live_credential id None;
  _ ← transaction (reserve_read id
        (MkActivityLog (Some (auth_userId auth)) "REGISTRAR_CONNECTION_CHECK_RESERVED"
           "DOMAIN_ADMINISTRATION" (Some id) None None JNull)
        "Please wait before another connection check.");
  quote ← catch (session None (live_quote payload domainName)) (λ _, throw not_verified);
  mret (MkCheck (rq_available quote) (Z_to_string (rq_costAmount quote))
          (rq_costCurrency quote) (rc_version credential)).
Definition toggle_tx (id : string) (enabled : bool) (checked : option RegistrarCredential)
    (auth : AuthRequestContext) : Io unit :=
  _ ← lock_domains;
  _ ← lock_row "registrar_accounts" id;
  _ ← (if enabled then
         found ← read (latest_credential id None);
         latest ← lift (of_option RecordNotFound found);
         require (bool_decide ((rc_id <$> checked) = Some (rc_id latest)))
           (conflict "Credentials changed during the check. Review them again.")
       else mret tt);
  _ ← change_row registrarAccounts id (λ a, a <| ra_enabled := enabled |>);
  _ ← upsert_profile (MkRegistrarProfile id default_name false enabled)
        (λ p, if enabled then p <| rpf_nativeCostConfirmed := true |> else p);
  _ ← when enabled (ensureOffers (Some id));
  audit auth (if enabled then "REGISTRAR_CONNECTION_ENABLED"
              else "REGISTRAR_CONNECTION_DISABLED") (Some id).
Definition toggle_connection (id : string) (enabled confirmNativeUsdCosts : bool)
    (auth : AuthRequestContext) : Io (list RegistrarConnection) :=
  _ ← authorize_domains auth;
  account ← row_or_throw registrarAccounts id;
  _ ← require (String.eqb (ra_mode account) "LIVE")
        (conflict "Simulation settings are development-only.");
  checked ← (if enabled then '(_, c) ← live_credential id None; mret (Some c)
             else mret None);
  _ ← when enabled
        (_ ← require confirmNativeUsdCosts (conflict
               "Confirm native USD costs from the provider account before enabling.");
         _ ← check id "ordinary-example.com" auth;
         mret tt);
  _ ← transaction (toggle_tx id enabled checked auth);
  connections auth.

(** ** Defaults *)
Definition DNS_DEFAULTS_KEY : string := "domains.dns-defaults".
Definition POLICIES_KEY : string := "domains.policies".
Record DomainDefaults := MkDomainDefaults
  { df_dns : option (list string); df_policies : option DomainPolicy }.
Definition stored {A} (s : schema A) (v : option json) : result (option A) :=
  match v with Some v => Some <$> parse s v | None => Ok None end.
Definition setting_value (key : string) : Io (option json) :=
  read (λ d, set_value <$> settings d !! key).
Definition defaults (auth : AuthRequestContext) : Io DomainDefaults :=
  _ ← authorize_domains auth;
  dns ← setting_value DNS_DEFAULTS_KEY;
  policies ← setting_value POLICIES_KEY;
  dns ← lift (stored domainDnsDefaultsSchema dns);
  policies ← lift (stored domainPolicySchema policies);
  mret (MkDomainDefaults dns policies).
Inductive DefaultsKind := DnsDefaults | PolicyDefaults.
Definition defaults_key (k : DefaultsKind) : string :=
  match k with DnsDefaults => DNS_DEFAULTS_KEY | PolicyDefaults => POLICIES_KEY end.
(** [setting.upsert]. *)
Definition upsert_setting (key category : string) (value : json) (updatedBy : string)
    : Io unit :=
  write (λ d, d <| settings := <[key :=
    match settings d !! key with
    | Some s => MkSetting value (set_category s) (set_description s) (Some updatedBy)
    | None => MkSetting value category None (Some updatedBy)
    end]> (settings d) |>).
Definition saveDefaults (k : DefaultsKind) (value : json) (auth : AuthRequestContext)
    : Io DomainDefaults :=
  _ ← authorize_domains auth;
  parsed ← match k with
           | DnsDefaults =>
               names ← lift (parse domainDnsDefaultsSchema value);
               mret (JObj [("nameservers", names_json names)])
           | PolicyDefaults =>
               policies ← lift (parse domainPolicyInputSchema value);
               revision ← random_uuid;
               mret (policy_json (MkDomainPolicy policies revision))
           end;
  _ ← transaction
        (_ ← lock_domains;
         _ ← upsert_setting (defaults_key k) "INTEGRATION" parsed (auth_userId auth);
         audit auth (match k with DnsDefaults => "DOMAIN_DNS_DEFAULTS_CHANGED"
                                | PolicyDefaults => "DOMAIN_POLICIES_CHANGED" end) None);
  defaults auth.

(** ** The catalogue *)
Record DomainTld := MkDomainTld
  { tv_row : DomainCatalogueTld; tv_registrationAmount : option Z;
    tv_registrationSupported : bool; tv_renewalSupported : bool }.
Definition is_extension (tld : string) : bool :=
  isSome (domainExtensionSchema (JStr tld)).
Definition tld_view (row : DomainCatalogueTld) : Io DomainTld :=
  amount ← match dct_registrationPriceId row with
           | Some id => price ← row_or_throw productPrices id; mret (Some (pp_amount price))
           | None => mret None
           end;
  mret (MkDomainTld row amount
    (is_extension (dct_tld row) && standardRegistryContactSupported (dct_tld row))
    (is_extension (dct_tld row))).
Definition tlds (auth : AuthRequestContext) : Io (list DomainTld) :=
  _ ← authorize_domains auth;
  found ← read (λ d, take 1000 (merge_sort tld_before (every (domainCatalogue d))));
  fold_each (λ views r, v ← tld_view r; mret (views ++ [v])) [] found.
Definition require_registrar (id : option string) : Io unit :=
  match id with
  | Some id =>
      found ← read (λ d, registrarAccounts d !! id);
      require (isSome found) (conflict "Registrar was not found.")
  | None => mret tt
  end.
Definition edited_tld (input : DomainTldRequest) (priceId : option string)
    (r : DomainCatalogueTld) : DomainCatalogueTld :=
  MkDomainCatalogueTld (dct_id r) (tr_tld input) (dct_productId r) priceId
    (tr_renewalAmount input) (tr_preferredRegistrarId input) (tr_enabled input)
    (tr_featured input) (tr_displayOrder input) (tr_revision input + 1).
Definition save_catalogue (input : DomainTldRequest) (old : option DomainCatalogueTld)
    (productId : string) (priceId : option string) : Io string :=
  match old with
  | Some r =>
      _ ← change_row domainCatalogue (dct_id r) (edited_tld input priceId);
      mret (dct_id r)
  | None =>
      id ← random_uuid;
      let r := edited_tld input priceId
        (MkDomainCatalogueTld id (tr_tld input) productId None None None false false 0 1) in
      _ ← create_row domainCatalogue id (λ m, unique_in m dct_tld (tr_tld input)) r;
      mret id
  end.
Definition saveTld_tx (input : DomainTldRequest) (auth : AuthRequestContext) : Io unit :=
  _ ← lock_domains;
  _ ← require_registrar (tr_preferredRegistrarId input);
  old ← read (catalogue_of (tr_tld input));
  _ ← require (default 0 (dct_revision <$> old) =? tr_revision input)
        (conflict "TLD pricing changed. Refresh before saving.");
  count ← read (λ d, Z.of_nat (size (domainCatalogue d)));
  _ ← require (isSome old || negb (1000 <=? count))
        (conflict "The TLD catalogue limit has been reached.");
  productId ← match old with
              | Some r => mret (dct_productId r)
              | None =>
                  suffix ← random_uuid;
                  create_product ("domain-catalogue-" ++ tr_tld input ++ "-" ++ suffix)%string
                    ("." ++ tr_tld input ++ " domain registration")%string
              end;
  priceId ← match tr_registrationAmount input with
            | Some a => id ← create_price productId a false; mret (Some id)
            | None => mret None
            end;
  saved ← save_catalogue input old productId priceId;
  _ ← ensureOffers None;
  audit auth "DOMAIN_TLD_PRICE_REVISION_SAVED" (Some saved).
Definition saveTld (raw : json) (auth : AuthRequestContext) : Io (list DomainTld) :=
  _ ← authorize_domains auth;
  input ← lift (parse domainTldRequestSchema raw);
  _ ← transaction (saveTld_tx input auth);
  tlds auth.
Definition bulk_entry_tx (input : DomainTldBulk) (auth : AuthRequestContext)
    (entry : string * Z) : Io unit :=
  found ← read (λ d, domainCatalogue d !! entry.1);
  old ← lift (of_option
    (conflict "A selected TLD changed. Refresh before applying the batch.")
    (r ← found; if dct_revision r =? entry.2 then Some r else None));
  _ ← require (negb (bool_decide (tb_enabled input = Some true) &&
                     (negb (is_extension (dct_tld old)) ||
                      negb (isSome (dct_registrationPriceId old)))))
        (conflict "A selected TLD cannot be enabled for registration.");
  _ ← change_row domainCatalogue entry.1
        (λ r, r <| dct_revision := dct_revision r + 1 |>
                <| dct_enabled := default (dct_enabled r) (tb_enabled input) |>
                <| dct_preferredRegistrarId :=
                     default (dct_preferredRegistrarId r) (tb_preferredRegistrarId input) |>);
  audit auth "DOMAIN_TLD_BULK_CHANGED" (Some entry.1).
Definition bulk (raw : json) (auth : AuthRequestContext) : Io (list DomainTld) :=
  _ ← authorize_domains auth;
  input ← lift (parse domainTldBulkSchema raw);
  _ ← require (distinct (fst <$> tb_entries input))
        (conflict "Select each TLD only once.");
  _ ← transaction
        (_ ← lock_domains;
         _ ← require_registrar (mjoin (tb_preferredRegistrarId input));
         for_each (merge_sort entry_before (tb_entries input)) (bulk_entry_tx input auth));
  tlds auth.

(** ** The context of a quote *)
Record CatalogueContext := MkCatalogueContext
  { cc_catalogue : DomainCatalogueTld; cc_originId : string; cc_nameservers : list string;
    cc_snapshot : DomainSelectionSnapshot }.
(** An account a customer may be asked to consent to. *)
Definition account_eligible (policies : DomainPolicies) (account : RegistrarAccount)
    (profile : option RegistrarProfile) : result bool :=
  let live := String.eqb (ra_mode account) "LIVE" in
  if live && negb (de_liveEnabled environment &&
                   default false (rpf_nativeCostConfirmed <$> profile)) then Ok false
  else if String.eqb (ra_mode account) "FAKE" && de_production environment then Ok false
  else if live && negb (isSome (registrarConnectionIdentitySchema (ra_configuration account)))
  then
    legacy ← parse resellbizConfigurationSchema (ra_configuration account);
    Ok (bool_decide (cf_policies legacy = policies))
  else Ok true.
Definition choice_of (account : RegistrarAccount) (profile : option RegistrarProfile)
    : RegistrarChoice :=
  MkChoice (ra_id account) (default default_name (rpf_name <$> profile)).
(** The eligible accounts and the last one marked as the default. *)
Definition eligible_registrars (policies : DomainPolicies) (accounts : list RegistrarAccount)
    : Io (list RegistrarChoice * option string) :=
  fold_each (λ found account,
    profile ← read (λ d, registrarProfiles d !! ra_id account);
    let default_ := if default false (rpf_isDefault <$> profile)
                    then Some (ra_id account) else found.2 in
    eligible ← lift (account_eligible policies account profile);
    mret (if eligible : bool then (found.1 ++ [choice_of account profile], default_)
          else (found.1, default_))) ([], None) accounts.
Definition mode_of (accounts : list RegistrarAccount) (id : option string) : option string :=
  ra_mode <$> List.find (λ a, bool_decide (Some (ra_id a) = id)) accounts.
Definition catalogue_context (catalogue : DomainCatalogueTld) (accountId : option string)
    : Io CatalogueContext :=
  let tld := dct_tld catalogue in
  priceId ← lift (of_option (conflict "This TLD is unavailable for registration.")
    (p ← dct_registrationPriceId catalogue;
     if dct_enabled catalogue && is_extension tld then Some p else None));
  dnsRow ← setting_value DNS_DEFAULTS_KEY;
  policyRow ← setting_value POLICIES_KEY;
  '(nameservers, policies) ← lift (of_option
    (conflict "Domain DNS defaults and approved policies must be configured before registration.")
    (dns ← dnsRow ≫= domainDnsDefaultsSchema; policies ← policyRow ≫= domainPolicySchema;
     Some (dns, policies)));
  accounts ← read (λ d, take 100 (merge_sort account_id_before
                                    (rows ra_enabled (registrarAccounts d))));
  '(eligible, globalDefault) ← eligible_registrars (dp_policies policies) accounts;
  let originId := match accountId, dct_preferredRegistrarId catalogue with
                  | Some id, _ => Some id | None, Some id => Some id
                  | None, None => globalDefault end in
  _ ← require (negb (bool_decide (mode_of accounts originId = Some "LIVE") &&
                     negb (standardRegistryContactSupported tld)))
        (conflict "This extension needs registry-specific registrant details before API registration. Its catalogue pricing can still be saved.");
  let sameMode := List.filter (λ e, bool_decide (mode_of accounts (Some (rch_id e)) =
                                                 mode_of accounts originId)) eligible in
  origin ← lift (of_option
    (conflict "Choose an enabled, compatible default or TLD registrar.")
    (id ← originId;
     if existsb (λ e, String.eqb (rch_id e) id) sameMode &&
        (Z.of_nat (length sameMode) <=? 32) then Some id else None));
  snapshot ← lift (parse domainSelectionSnapshotSchema (snapshot_json
    (MkSnapshot (dct_id catalogue) (dct_revision catalogue) priceId policies sameMode)));
  mret (MkCatalogueContext catalogue origin nameservers snapshot).
Definition catalogueContext (tld : string) (accountId : option string)
    : Io (option CatalogueContext) :=
  found ← read (catalogue_of tld);
  match found with
  | Some catalogue => c ← catalogue_context catalogue accountId; mret (Some c)
  | None => mret None
  end.
End administration.
