(* ===== verification/Domains.v ===== *)
(** * The domain service

    apps/api/src/modules/domains/domain.service.ts: registrar accounts as they are
    set up, offers, quotes, purchases, the view of a domain, its approval, its
    reconciliation and the context of its management. *)
From stdpp Require Import sorting.
From S2P Require Import Prelude JsString JsDate Json Money States AuthTables DomainTables Database InvoiceNumber Invoices Payments Gateways GatewayAdapters Orders HostingPanels DomainContracts PanelOperations JsonText Totp Authentication Registrar Resellbiz RegistrarProcessor DomainAdministration.

Definition domain_log (auth : AuthRequestContext) (action entityType : string)
    (entityId : string) (metadata : json) : Io unit :=
  log_activity (MkActivityLog (Some (auth_userId auth)) action entityType (Some entityId)
                  None None metadata).
Definition domain_denied (message : string) : exn := AppException 403 "FORBIDDEN" message.
(** [customer(auth)]: the customer who is signed in. *)
Definition signed_in_customer (auth : AuthRequestContext) : result string :=
  match auth_identity auth with
  | CustomerAccount _ _ customerId _ => Ok customerId
  | _ => Err (domain_denied "Sign in as the customer to accept the registration agreement.")
  end.
Definition is_admin (auth : AuthRequestContext) : bool :=
  identity_role (auth_identity auth) ==b UserRole.ADMIN.
Definition is_live (a : RegistrarAccount) : bool := String.eqb (ra_mode a) "LIVE".
Definition is_fake (a : RegistrarAccount) : bool := String.eqb (ra_mode a) "FAKE".
Definition operation_of (domainId : string) (d : Db) : option RegistrarOperation :=
  find_unique (registrarOperations d) ro_domainId domainId.

Section domains.
Context `{ZodFormats} `{ZodUrl} `{UrlParser} `{ZodIso} `{Sha256} `{DateParser}
  `{RegistrarCrypto} `{ResellbizTransport} `{RegistrarRandom} `{JsNumber}
  (environment : DomainEnvironment) (https_url : string → bool).

Definition simulationAllowed : bool := negb (de_production environment).
Definition requireSimulation : Io unit :=
  require simulationAllowed
    (unavailable "Simulated registrar writes are disabled in production.").
Definition requireRuntime : Io unit :=
  if negb simulationAllowed && negb (de_liveEnabled environment) then requireSimulation
  else mret tt.
Definition selectionRevision (snapshot nameservers : json) : string :=
  sha256_hex (json_print (JObj [("snapshot", snapshot); ("nameservers", nameservers)])).
Definition context_revision (c : CatalogueContext) : string :=
  selectionRevision (snapshot_json (cc_snapshot c)) (names_json (cc_nameservers c)).
Definition networking_disabled : exn :=
  unavailable "Live registrar networking is disabled by the installation.".
Definition requireAccount (account : RegistrarAccount) : Io unit :=
  _ ← (if is_fake account then requireSimulation
       else require (is_live account && de_liveEnabled environment) networking_disabled);
  require (ra_enabled account) (conflict "The registrar is disabled.").

(** ** Reads from a live registrar *)
Definition reserveLiveRead (accountId : string) (auth : AuthRequestContext) : Io unit :=
  _ ← require (de_liveEnabled environment) networking_disabled;
  transaction (reserve_read accountId
    (MkActivityLog (Some (auth_userId auth)) "RESELLBIZ_READ_RESERVED" "REGISTRAR"
       (Some accountId) None None JNull) "Please wait before another registrar check.").
(** [liveProvider]: the credential the provider works with. *)
Definition liveProvider (accountId : string) (pinned : option string)
    : Io ResellbizCredential :=
  account ← row_or_throw registrarAccounts accountId;
  _ ← require (is_live account) (conflict "Select the live resell.biz account.");
  resellerId ← lift (registrarIdentity (ra_configuration account));
  found ← read (latest_credential accountId pinned);
  credential ← lift (of_option RecordNotFound found);
  clear ← lift (registrar_decrypt
    (credentialBinding accountId (rc_version credential) "LIVE") (rc_ciphertext credential));
  payload ← lift (parse resellbizCredentialSchema clear);
  _ ← require (String.eqb (rz_resellerId payload) resellerId)
        (conflict "Registrar credential ownership changed.");
  mret payload.
Definition quoteFrom (accountId name : string) (auth : AuthRequestContext)
    : Io RegistrarQuote :=
  account ← row_or_throw registrarAccounts accountId;
  if is_live account then
    _ ← reserveLiveRead accountId auth;
    credential ← liveProvider accountId None;
    catch (session None (live_quote credential name)) (λ _, throw not_verified)
  else
    _ ← requireSimulation;
    catch (fake_quote name) (λ _, throw not_verified).

(** ** The live account *)
Record ResellbizSettings := MkResellbizSettings
  { st_id : string; st_enabled : bool; st_networkEnabled : bool; st_resellerId : string;
    st_credentialVersion : Z; st_policies : DomainPolicies; st_nameservers : list string;
    st_sellingAmount : Z }.
Definition liveSettings (auth : AuthRequestContext) : Io (option ResellbizSettings) :=
  _ ← authorize_domains auth;
  found ← read (λ d, head (List.filter (λ a, is_legacy (ra_configuration a))
                       (take 100 (rows is_live (registrarAccounts d)))));
  match found with
  | None => mret None
  | Some account =>
      config ← lift (parse resellbizConfigurationSchema (ra_configuration account));
      latest ← read (latest_credential (ra_id account) None);
      credential ← lift (of_option RecordNotFound latest);
      offer ← read (λ d, head (rows (λ o, String.eqb (off_accountId o) (ra_id account))
                                 (domainOffers d)));
      offer ← lift (of_option RecordNotFound offer);
      price ← row_or_throw productPrices (off_priceId offer);
      mret (Some (MkResellbizSettings (ra_id account) (ra_enabled account)
        (de_liveEnabled environment) (last_four (cf_resellerId config))
        (rc_version credential) (cf_policies config) (cf_nameservers config)
        (pp_amount price)))
  end.
Definition setupLive_tx (input : ResellbizSetup) (auth : AuthRequestContext) : Io unit :=
  _ ← lock_row "advisory" "510051";
  existing ← read (λ d, rows is_live (registrarAccounts d));
  _ ← require (bool_decide (existing = [])) (conflict
    "The live account is already configured. Replace its credential explicitly instead.");
  id ← random_uuid;
  now ← new_date;
  let c := rs_credential input in
  _ ← create_row registrarAccounts id (λ _, true)
        (MkRegistrarAccount id "stargate" "LIVE" false (configuration_json
           (MkResellbizConfiguration (rz_resellerId c) (rs_nameservers input)
              (rs_policies input))) now);
  ciphertext ← registrar_encrypt (credentialBinding id 1 "LIVE") (credential_json c);
  _ ← create_credential id 1 ciphertext;
  productId ← create_product "resellbiz-domain-com" ".com domain registration";
  priceId ← create_price productId (rs_sellingAmount input) true;
  _ ← create_offer id productId priceId "com" (names_json (rs_nameservers input));
  domain_log auth "RESELLBIZ_CONFIGURED_DISABLED" "REGISTRAR" id JNull.
Definition setupLive (raw : json) (auth : AuthRequestContext)
    : Io (option ResellbizSettings) :=
  _ ← authorize_domains auth;
  input ← lift (parse resellbizSetupSchema raw);
  _ ← transaction (setupLive_tx input auth);
  liveSettings auth.
Definition rotateLive_tx (id : string) (input : ResellbizCredential)
    (auth : AuthRequestContext) : Io unit :=
  _ ← lock_row "registrar_accounts" id;
  account ← row_or_throw registrarAccounts id;
  resellerId ← (if is_live account
                then lift ((λ c, Some (cf_resellerId c)) <$>
                           parse resellbizConfigurationSchema (ra_configuration account))
                else mret None);
  _ ← require (bool_decide (resellerId = Some (rz_resellerId input)))
        (conflict "Credential replacement must retain the same reseller identity.");
  found ← read (latest_credential id None);
  latest ← lift (of_option RecordNotFound found);
  let version := rc_version latest + 1 in
  ciphertext ← registrar_encrypt (credentialBinding id version "LIVE") (credential_json input);
  _ ← create_credential id version ciphertext;
  _ ← change_row registrarAccounts id (λ a, a <| ra_enabled := false |>);
  domain_log auth "RESELLBIZ_CREDENTIAL_REPLACED_DISABLED" "REGISTRAR" id JNull.
Definition rotateLiveCredential (id : string) (raw : json) (auth : AuthRequestContext)
    : Io (option ResellbizSettings) :=
  _ ← authorize_domains auth;
  input ← lift (parse resellbizCredentialSchema raw);
  _ ← transaction (rotateLive_tx id input auth);
  liveSettings auth.
Definition checkLive (id name : string) (auth : AuthRequestContext) : Io RegistrarQuote :=
  _ ← authorize_domains auth;
  account ← row_or_throw registrarAccounts id;
  _ ← require (is_live account) (conflict "Select the live account.");
  name ← lift (parse domainNameSchema (JStr name));
  quoteFrom id name auth.
Definition toggleLive_tx (id : string) (enabled : bool) (checked : option RegistrarCredential)
    (auth : AuthRequestContext) : Io unit :=
  _ ← lock_row "registrar_accounts" id;
  account ← row_or_throw registrarAccounts id;
  _ ← require (is_live account) (conflict "Select the live account.");
  _ ← (if enabled then
         found ← read (latest_credential id None);
         latest ← lift (of_option RecordNotFound found);
         require (bool_decide ((rc_id <$> checked) = Some (rc_id latest)))
           (conflict "Credential changed during the connection check. Check it again before enabling.")
       else mret tt);
  _ ← change_row registrarAccounts id (λ a, a <| ra_enabled := enabled |>);
  domain_log auth (if enabled then "RESELLBIZ_ENABLED" else "REGISTRAR_DISABLED")
    "REGISTRAR" id JNull.
Definition toggleLive (id : string) (enabled : bool) (auth : AuthRequestContext)
    : Io (option ResellbizSettings) :=
  _ ← authorize_domains auth;
  checked ← (if enabled then
               found ← read (latest_credential id None);
               c ← lift (of_option RecordNotFound found);
               mret (Some c)
             else mret None);
  _ ← (if enabled then _ ← checkLive id "ordinary-example.com" auth; mret tt else mret tt);
  _ ← transaction (toggleLive_tx id enabled checked auth);
  liveSettings auth.

(** ** The simulated account *)
Definition settings_of_fakes : Io (list (string * bool)) :=
  accounts ← read (λ d, take 10 (merge_sort account_before
                                   (rows is_fake (registrarAccounts d))));
  mret ((λ a, (ra_id a, ra_enabled a)) <$> accounts).
Definition setup_offer (accountId : string) (sellingAmount : Z) (tld : string) : Io unit :=
  productId ← create_product ("simulated-domain-" ++ tld)%string
                ("Simulated ." ++ tld ++ " domain registration")%string;
  priceId ← create_price productId sellingAmount true;
  create_offer accountId productId priceId tld (names_json fictionalNameservers).
Definition setup_tx (sellingAmount : Z) (auth : AuthRequestContext) : Io unit :=
  _ ← lock_row "advisory" "500050";
  existing ← read (λ d, count_rows is_fake (registrarAccounts d));
  if negb (existing =? 0) then mret tt
  else
    id ← random_uuid;
    now ← new_date;
    _ ← create_row registrarAccounts id (λ _, true)
          (MkRegistrarAccount id "stargate" "FAKE" true JNull now);
    ciphertext ← registrar_encrypt (credentialBinding id 1 "FAKE")
                   (JObj [("simulated", JBool true); ("identity", JStr id)]);
    _ ← create_credential id 1 ciphertext;
    _ ← for_each ["com"; "net"] (setup_offer id sellingAmount);
    domain_log auth "FAKE_REGISTRAR_ENABLED" "REGISTRAR" id
      (JObj [("networkEnabled", JBool false)]).
Definition setup (sellingAmount : string) (auth : AuthRequestContext)
    : Io (list (string * bool)) :=
  _ ← requireSimulation;
  _ ← authorize_domains auth;
  existing ← read (λ d, rows is_fake (registrarAccounts d));
  _ ← (if bool_decide (existing = [])
       then transaction (setup_tx (string_to_Z sellingAmount) auth) else mret tt);
  settings_of_fakes.
Definition toggle_fake (id : string) (enabled : bool) (auth : AuthRequestContext)
    : Io (list (string * bool)) :=
  _ ← requireSimulation;
  _ ← authorize_domains auth;
  found ← read (λ d, registrarAccounts d !! id);
  _ ← require (match found with Some a => is_fake a | None => false end)
        (conflict "Select a simulated account.");
  _ ← change_row registrarAccounts id (λ a, a <| ra_enabled := enabled |>);
  _ ← domain_log auth (if enabled then "FAKE_REGISTRAR_ENABLED" else "REGISTRAR_DISABLED")
        "REGISTRAR" id JNull;
  settings_of_fakes.

(** ** The view of a domain *)
Definition is_financial_attention (s : InvoiceStatus) : bool :=
  existsb (λ t, s ==b t) [InvoiceStatus.REFUNDED; InvoiceStatus.PARTIALLY_REFUNDED;
                          InvoiceStatus.CANCELLED].
(** The accounts an administrator may choose, the recommended one marked. *)
Definition registrar_choices (domain : Domain) (mode : string) (profileName : option string)
    (selection : option DomainSelectionSnapshot) (recommended : string)
    : Io (list (RegistrarChoice * bool)) :=
  let entries := match selection with
                 | Some s => ss_eligibleRegistrars s
                 | None => [MkChoice (dom_accountId domain) (default default_name profileName)]
                 end in
  fold_each (λ choices entry,
    found ← read (λ d, registrarAccounts d !! rch_id entry);
    mret (match found with
          | Some a => if ra_enabled a && String.eqb (ra_mode a) mode
                      then choices ++ [(entry, String.eqb (rch_id entry) recommended)]
                      else choices
          | None => choices
          end)) [] entries.
Definition evidence_before (a b : RegistrarEvidence) : Prop := ev_createdAt a <= ev_createdAt b.
#[local] Instance evidence_before_dec : RelDecision evidence_before.
Proof. intros a b. unfold evidence_before. apply _. Defined.
Definition evidence_of (operationId : string) (d : Db) : list (string * string) :=
  (λ e, (ev_code e, to_ISO_string (ev_createdAt e))) <$>
    take 100 (merge_sort evidence_before
      (List.filter (λ e, String.eqb (ev_operationId e) operationId) (registrarEvidence d))).
(** A stored consent, checked where there is one. *)
Definition stored_consent (v : json) : result (option OfflineConsent) :=
  match v with
  | JNull | JUndefined => Ok None
  | v => Some <$> parse adminOfflineConsentEvidenceSchema v
  end.
Definition contact_of (domain : Domain) (mode ciphertext : string) : result DomainContact :=
  clear ← registrar_decrypt
            (contactBinding (dom_accountId domain) (dom_customerId domain) mode) ciphertext;
  parse domainContactSchema clear.
Definition admin_detail (domain : Domain) (quote : DomainQuote) (account : RegistrarAccount)
    (operation : option RegistrarOperation) (catalogue : option DomainCatalogueTld)
    (choices : list (RegistrarChoice * bool)) : Io AdminDetail :=
  contact ← lift (contact_of domain (ra_mode account) (quo_contactCiphertext quote));
  consent ← lift (stored_consent (quo_offlineConsent quote));
  mapping ← read (mapping_of (ra_id account, dom_customerId domain,
    default (quo_fingerprint quote) (operation ≫= ro_selectionFingerprint)));
  evidence ← match operation with
             | Some o => read (evidence_of (ro_id o)) | None => mret [] end;
  mret (MkAdminDetail (dom_customerId domain) (ra_id account)
    (Some (Z_to_string (quo_costAmount quote), quo_costCurrency quote)) (Some contact) consent
    (ro_id <$> operation) (isSome (operation ≫= ro_claimedAt))
    ((λ c, (Z_to_string <$> dct_renewalAmount c, dct_revision c)) <$> catalogue)
    (match operation with
     | Some o => Some (default (ra_id account) (ro_selectedAccountId o)) | None => None end)
    choices (is_fake account || isSome mapping) evidence).
Definition shown_state (domain : Domain) (invoice : Invoice) : string :=
  if String.eqb (dom_state domain) "AWAITING_PAYMENT" &&
     (inv_status invoice ==b InvoiceStatus.PAID) then "AWAITING_APPROVAL"
  else dom_state domain.
Definition agreement_url (account : RegistrarAccount)
    (selection : option DomainSelectionSnapshot) : result (option string) :=
  if is_live account then
    match selection with
    | Some s => Ok (Some (po_agreementUrl (dp_policies (ss_policies s))))
    | None => (λ c, Some (po_agreementUrl (cf_policies c))) <$>
              parse resellbizConfigurationSchema (ra_configuration account)
    end
  else Ok None.
Definition checked_detail (v : DomainDetail) : Io DomainDetail :=
  _ ← require (domainDetailSchema v) ZodError; mret v.
Definition registration_detail (domain : Domain) (invoiceId orderItemId quoteId : string)
    (auth : AuthRequestContext) : Io DomainDetail :=
  invoice ← row_or_throw invoices invoiceId;
  item ← row_or_throw orderItems orderItemId;
  quote ← row_or_throw domainQuotes quoteId;
  account ← row_or_throw registrarAccounts
              (default (dom_accountId domain) (dom_executionAccountId domain));
  _ ← (if is_live account && is_admin auth then authorize_domains auth else mret tt);
  operation ← read (operation_of (dom_id domain));
  selection ← lift (stored_snapshot (quo_selectionSnapshot quote));
  profile ← read (λ d, registrarProfiles d !! ra_id account);
  tld ← lift (domainExtension (dom_domainName domain));
  catalogue ← read (catalogue_of tld);
  globalDefault ← read (λ d, head (rows rpf_isDefault (registrarProfiles d)));
  let recommended := default (dom_accountId domain)
    (match catalogue ≫= dct_preferredRegistrarId with
     | Some id => Some id | None => rpf_accountId <$> globalDefault end) in
  choices ← (if is_admin auth
             then registrar_choices domain (ra_mode account) (rpf_name <$> profile) selection
                    recommended
             else mret []);
  url ← lift (agreement_url account selection);
  admin ← (if is_admin auth then
             a ← admin_detail domain quote account operation catalogue choices;
             mret (Some a)
           else mret None);
  checked_detail (MkDomainDetail (dom_id domain) (dom_domainName domain)
    (shown_state domain invoice) (dom_verification domain)
    (to_ISO_string <$> dom_expiresAt domain) (is_fake account)
    (default default_name (rpf_name <$> profile)) false None None
    (to_ISO_string (dom_createdAt domain)) (is_financial_attention (inv_status invoice))
    (Some (MkRegistrationBilling (inv_id invoice) (inv_status invoice) (oi_orderId item)
             (Z_to_string (inv_balanceDue invoice)) (Z_to_string (quo_sellingAmount quote))
             (inv_currency invoice)))
    (quo_nameservers quote) (quo_agreement quote) url admin).
(** The invoice and the item an existing domain is billed with. *)
Definition existing_billing (domain : Domain) : Io (option BillingOrder) :=
  binding ← read (λ d, existingDomainOrders d !! dom_id domain);
  match binding with
  | None => mret None
  | Some b =>
      invoice ← row_or_throw invoices (edo_invoiceId b);
      _ ← require (String.eqb (inv_customerId invoice) (dom_customerId domain)) RecordNotFound;
      item ← row_or_throw orderItems (edo_orderItemId b);
      mret (match inv_orderId invoice with
            | Some _ => Some (MkBillingOrder (oi_orderId item) (inv_id invoice)
                (inv_status invoice) (Z_to_string (oi_lineTotal item))
                (Z_to_string (inv_balanceDue invoice)))
            | None => None
            end)
  end.
Definition link_binding (domainId : string) : string :=
  ("resellbiz:existing-link:" ++ domainId)%string.
Definition link_evidence (domain : Domain) (ciphertext : string) : result LinkEvidence :=
  clear ← registrar_decrypt (link_binding (dom_id domain)) ciphertext;
  parse existingDomainLinkEvidenceSchema clear.
Definition existingDetail (domain : Domain) (auth : AuthRequestContext) : Io DomainDetail :=
  account ← row_or_throw registrarAccounts (dom_accountId domain);
  _ ← (if is_admin auth then authorize_domains auth else mret tt);
  '(ciphertext, verifiedAt) ← lift (of_option
    (conflict "Existing domain evidence is unavailable.")
    (c ← dom_linkEvidenceCiphertext domain; t ← dom_ownershipVerifiedAt domain; Some (c, t)));
  proof ← lift (link_evidence domain ciphertext);
  profile ← read (λ d, registrarProfiles d !! dom_accountId domain);
  billing ← existing_billing domain;
  checked_detail (MkDomainDetail (dom_id domain) (dom_domainName domain) (dom_state domain)
    (dom_verification domain) (to_ISO_string <$> dom_expiresAt domain) false
    (default default_name (rpf_name <$> profile)) true (Some (to_ISO_string verifiedAt))
    billing (to_ISO_string (dom_createdAt domain)) false None
    (names_json (le_nameservers proof)) "existing-domain-link-v1" None
    (if is_admin auth
     then Some (MkAdminDetail (dom_customerId domain) (ra_id account) None None None None
                  false None None [] true [])
     else None)).
Definition visible (auth : AuthRequestContext) (customerId : option string) (domain : Domain)
    : bool :=
  match customerId with
  | Some c => String.eqb (js_lower (dom_customerId domain)) (js_lower c) | None => true end &&
  match auth_identity auth with
  | CustomerAccount _ _ own _ => String.eqb (dom_customerId domain) own | _ => true end.
Definition detail (id : string) (auth : AuthRequestContext) (customerId : option string)
    : Io DomainDetail :=
  found ← read (λ d, domains d !! id);
  domain ← lift (of_option (domain_denied "The domain request is unavailable.")
                   (r ← found; if visible auth customerId r then Some r else None));
  if String.eqb (dom_origin domain) "EXISTING" then existingDetail domain auth
  else
    '(invoiceId, orderItemId, quoteId) ← lift (of_option
      (conflict "Registration billing records are unavailable.")
      (i ← dom_invoiceId domain; o ← dom_orderItemId domain; q ← dom_quoteId domain;
       Some (i, o, q)));
    registration_detail domain invoiceId orderItemId quoteId auth.
(** Newest first. *)
Definition domain_before (a b : Domain) : Prop :=
  dom_createdAt b < dom_createdAt a ∨
  (dom_createdAt a = dom_createdAt b ∧ String.leb (dom_id b) (dom_id a) = true).
#[local] Instance domain_before_dec : RelDecision domain_before.
Proof. intros a b. unfold domain_before. apply _. Defined.
Definition list_scope (auth : AuthRequestContext) (customerId : option string) (r : Domain)
    : bool :=
  match auth_identity auth, customerId with
  | CustomerAccount _ _ own _, _ => String.eqb (dom_customerId r) own
  | _, Some c => String.eqb (dom_customerId r) c
  | _, None => true
  end.
Definition list_domains (auth : AuthRequestContext) (customerId : option string)
    : Io (list DomainDetail) :=
  _ ← require (match auth_identity auth, customerId with
               | CustomerAccount _ _ own _, Some c =>
                   negb (truthy c) || String.eqb (js_lower c) (js_lower own)
               | _, _ => true
               end) (domain_denied "The customer domain scope is unavailable.");
  found ← read (λ d, take 100 (merge_sort domain_before
                                 (rows (list_scope auth customerId) (domains d))));
  fold_each (λ views r, v ← detail (dom_id r) auth customerId; mret (views ++ [v])) [] found.
End domains.
