(* ===== verification/DomainSales.v ===== *)
(** * Offers, quotes and purchases of domains

    apps/api/src/modules/domains/domain.service.ts: what is offered, the quotes a
    customer or an administrator asks for, and the order, the invoice and the domain
    record a quote becomes. *)
From stdpp Require Import sorting.
From S2P Require Import Prelude JsString JsDate Json Money States AuthTables DomainTables Database InvoiceNumber InvoiceTotals Invoices Payments Gateways GatewayAdapters Orders HostingPanels DomainContracts PanelOperations JsonText Totp Authentication Registrar Resellbiz RegistrarProcessor DomainAdministration Domains.

(** [Boolean(v)] of a JSON column that holds an object or nothing. *)
Definition recorded (v : json) : bool :=
  match v with JNull | JUndefined => false | _ => true end.
(** [price.deletedAt || price.product...]: the price may be sold; a price of the
    managed catalogue needs no active flag. *)
Definition listed (managed : bool) (p : ProductPrice) : bool :=
  (managed || pp_isActive p) && negb (isSome (pp_deletedAt p)) &&
  negb (isSome (pr_deletedAt p)) && (pr_status p ==b ACTIVE) && pr_publicVisible p.
(** A positive price in taka, without a setup fee, of a domain product. *)
Definition domain_price (p : ProductPrice) : bool :=
  String.eqb (pp_currency p) "BDT" && (0 <? pp_amount p) && (pp_setupFee p =? 0) &&
  (pr_kind p ==b ProductKind.DOMAIN).
(** [price.validFrom !== null && price.validFrom > new Date() || ...]. *)
Definition valid_now (p : ProductPrice) : Io bool :=
  from ← match pp_validFrom p with
         | Some t => now ← new_date; mret (t <=? now) | None => mret true end;
  if negb (from : bool) then mret false
  else match pp_validUntil p with
       | Some t => now ← new_date; mret (now <? t) | None => mret true end.

Section sales.
Context `{ZodFormats} `{ZodUrl} `{UrlParser} `{ZodIso} `{Sha256} `{DateParser}
  `{RegistrarCrypto} `{ResellbizTransport} `{RegistrarRandom} `{JsNumber}
  (environment : DomainEnvironment) (https_url : string → bool).

(** ** Offers *)
Definition checked_offer (v : OfferView) : Io (option OfferView) :=
  _ ← require (domainOfferSchema v) ZodError; mret (Some v).
(** [catalogueContext], an [ApplicationException] read as no context. *)
Definition context_or_none (tld : string) : Io (option CatalogueContext) :=
  catch (catalogueContext environment tld None)
    (λ error, match error with AppException _ _ _ => mret None | e => throw e end).
Definition catalogue_offer (c : DomainCatalogueTld) (context : CatalogueContext)
    (offer : DomainOffer) : Io (option OfferView) :=
  account ← row_or_throw registrarAccounts (cc_originId context);
  price ← row_or_throw productPrices (ss_priceId (cc_snapshot context));
  if negb (listed true price) then mret None
  else
    cost ← (if is_live account then mret None
            else now ← new_date; mret (Some ("1000", to_ISO_string now)));
    checked_offer (MkOfferView (off_id offer) (dct_tld c) (Z_to_string (pp_amount price))
      (names_json (cc_nameservers context)) (is_fake account)
      (if is_live account then Some (dp_policies (ss_policies (cc_snapshot context))) else None)
      cost
      (Some (MkOfferSelection (ss_eligibleRegistrars (cc_snapshot context))
               (context_revision context) (dct_featured c)))).
Definition managed_offer (c : DomainCatalogueTld) : Io (option OfferView) :=
  if negb (dct_enabled c) then mret None
  else
    context ← context_or_none (dct_tld c);
    match context with
    | None => mret None
    | Some context =>
        offer ← read (offer_of (cc_originId context) (dct_tld c));
        match offer with
        | Some offer => catalogue_offer c context offer
        | None => mret None
        end
    end.
Definition plain_open (account : RegistrarAccount) (price : ProductPrice) : bool :=
  ra_enabled account &&
  (if is_fake account then simulationAllowed environment
   else is_live account && de_liveEnabled environment) && listed false price.
Definition plain_offer (managed : list DomainCatalogueTld) (offer : DomainOffer)
    : Io (option OfferView) :=
  if existsb (λ c, String.eqb (dct_tld c) (off_tld offer)) managed then mret None
  else
    account ← row_or_throw registrarAccounts (off_accountId offer);
    if is_live account && isSome (registrarConnectionIdentitySchema (ra_configuration account))
    then mret None
    else
      price ← row_or_throw productPrices (off_priceId offer);
      if negb (plain_open account price) then mret None
      else
        policies ← (if is_live account
                    then c ← lift (parse resellbizConfigurationSchema (ra_configuration account));
                         mret (Some (cf_policies c))
                    else mret None);
        cost ← (if is_live account then mret None
                else q ← fake_quote ("ordinary-example." ++ off_tld offer)%string;
                     now ← new_date;
                     mret (Some (Z_to_string (rq_costAmount q), to_ISO_string now)));
        checked_offer (MkOfferView (off_id offer) (off_tld offer)
          (Z_to_string (pp_amount price)) (off_nameservers offer) (is_fake account) policies
          cost None).
Definition push_some {A} (l : list A) (o : option A) : list A :=
  match o with Some a => l ++ [a] | None => l end.
Definition offers : Io (list OfferView) :=
  managed ← read (λ d, take 1000 (merge_sort tld_before (every (domainCatalogue d))));
  first ← fold_each (λ found c, o ← managed_offer c; mret (push_some found o)) [] managed;
  plain ← read (λ d, take 20 (every (domainOffers d)));
  fold_each (λ found offer, o ← plain_offer managed offer; mret (push_some found o)) first plain.

(** ** Quotes *)
Definition required_agreement (account : RegistrarAccount) : string :=
  if is_live account then "resellbiz-registration-v1" else "fictional-registration-v1".
(** What the customer accepted is what the catalogue says now. *)
Definition consents (input : DomainQuoteRequest) (c : CatalogueContext) : bool :=
  bool_decide (qr_selectionConsentRevision input = Some (context_revision c)).
Definition live_consent (input : DomainQuoteRequest) : bool :=
  isSome (resellbizContactSchema (contact_json (qr_contact input))) &&
  qr_customerPolicyConsent input.
Definition QUOTE_WINDOW : Z := 600000.
Definition QUOTE_VALIDITY : Z := 300000.
Definition recent_quotes (customerId : string) (since : Z) (d : Db) : Z :=
  count_rows (λ q, String.eqb (quo_customerId q) customerId && (since <? quo_createdAt q))
    (domainQuotes d).
Definition store_quote (input : DomainQuoteRequest) (auth : AuthRequestContext)
    (customerId : string) (consent : json) (offer : DomainOffer) (account : RegistrarAccount)
    (context : option CatalogueContext) (amount : Z) (cost : RegistrarQuote) (now : Z)
    : Io DomainQuote :=
  ciphertext ← registrar_encrypt (contactBinding (ra_id account) customerId (ra_mode account))
                 (contact_json (qr_contact input));
  id ← random_uuid;
  created ← new_date;
  let q := MkDomainQuote id customerId (ra_id account) (off_id offer) (qr_domainName input)
    amount (rq_costAmount cost) (rq_costCurrency cost) ciphertext
    (registrarFingerprint (ra_id account) (ra_mode account) customerId
       (contact_json (qr_contact input)))
    (match context with Some c => names_json (cc_nameservers c) | None => off_nameservers offer end)
    (qr_agreement input)
    (match context with Some c => snapshot_json (cc_snapshot c) | None => JNull end)
    consent created (now + QUOTE_VALIDITY) in
  _ ← create_row domainQuotes id (λ _, true) q;
  _ ← when (recorded consent)
        (domain_log auth "DOMAIN_OFFLINE_CONSENT_RECORDED" "DOMAIN_QUOTE" id
           (JObj [("customerId", JStr customerId)]));
  mret q.
Definition quote_tx (input : DomainQuoteRequest) (auth : AuthRequestContext)
    (customerId : string) (consent : json) (offer : DomainOffer) (account : RegistrarAccount)
    (context : option CatalogueContext) (amount : Z) (cost : RegistrarQuote) (now : Z)
    : Io DomainQuote :=
  _ ← match context with
      | Some _ =>
          _ ← lock_domains;
          fresh ← catalogueContext environment (off_tld offer) (Some (off_accountId offer));
          require (match fresh with Some f => consents input f | None => false end)
            (conflict "Domain configuration changed. Review a fresh quote.")
      | None => mret tt
      end;
  _ ← lock_row "customers" customerId;
  customer ← row_or_throw customers customerId;
  _ ← require (eligible_owner (is_live account) (Some customer))
        (conflict "The customer account is inactive.");
  since ← new_date;
  recent ← read (recent_quotes customerId (since - QUOTE_WINDOW));
  _ ← require (negb (10 <=? recent)) (conflict "Please wait before requesting more quotes.");
  store_quote input auth customerId consent offer account context amount cost now.
Definition quote_view (account : RegistrarAccount) (q : DomainQuote) : QuoteView :=
  MkQuoteView (quo_id q) (quo_domainName q) (Z_to_string (quo_sellingAmount q))
    (if is_fake account then Some (Z_to_string (quo_costAmount q), quo_costCurrency q)
     else None) (to_ISO_string (quo_expiresAt q)) (is_fake account).
Definition matching_offer (input : DomainQuoteRequest) : Io DomainOffer :=
  let failure := conflict "Select a matching supported domain offer." in
  found ← read (λ d, domainOffers d !! qr_offerId input);
  offer ← lift (of_option failure found);
  tld ← lift (domainExtension (qr_domainName input));
  _ ← require (String.eqb tld (off_tld offer)) failure;
  mret offer.
Definition quoteForCustomer (input : DomainQuoteRequest) (auth : AuthRequestContext)
    (customerId : string) (consent : json) : Io QuoteView :=
  offer ← matching_offer input;
  account ← row_or_throw registrarAccounts (off_accountId offer);
  _ ← requireAccount environment account;
  context ← catalogueContext environment (off_tld offer) (Some (off_accountId offer));
  _ ← require (match context with Some c => consents input c | None => true end)
        (conflict "The catalogue, DNS or registrar consent scope changed. Refresh and review the offer again.");
  _ ← require (negb (is_live account && negb (live_consent input)))
        (conflict "Complete the registrar contact fields and accept the customer terms and privacy policy.");
  _ ← require (String.eqb (qr_agreement input) (required_agreement account))
        (conflict "Accept the agreement for the selected registrar mode.");
  price ← row_or_throw productPrices
            (match context with Some c => ss_priceId (cc_snapshot c)
                              | None => off_priceId offer end);
  _ ← require (listed (isSome context) price && domain_price price)
        (conflict "This domain offer is unavailable.");
  cost ← quoteFrom environment (ra_id account) (qr_domainName input) auth;
  _ ← require (rq_available cost) (conflict "The domain is unavailable.");
  now ← new_date;
  quote ← transaction (quote_tx input auth customerId consent offer account context
                         (pp_amount price) cost now);
  let v := quote_view account quote in
  _ ← require (domainQuoteSchema v) ZodError;
  mret v.
Definition quote (input : DomainQuoteRequest) (auth : AuthRequestContext) : Io QuoteView :=
  _ ← requireRuntime environment;
  customerId ← lift (signed_in_customer auth);
  quoteForCustomer input auth customerId JNull.
Definition consent_json (c : OfflineConsent) (recordedAt : Z) (recordedBy : string) : json :=
  JObj [("method", JStr (oc_method c)); ("reference", JStr (oc_reference c));
        ("consentedAt", JStr (oc_consentedAt c));
        ("recordedAt", JStr (to_ISO_string recordedAt)); ("recordedBy", JStr recordedBy)].
(** [new Date(text) > now]: a text that is no date is not later. *)
Definition date_gt (text : string) (now : Z) : bool :=
  match date_of text with Some t => now <? t | None => false end.
Definition adminQuote (input : AdminDomainQuoteRequest) (auth : AuthRequestContext)
    : Io QuoteView :=
  _ ← authorize_domains auth;
  _ ← requireRuntime environment;
  now ← new_date;
  _ ← require (negb (date_gt (oc_consentedAt (aq_offlineConsent input)) now))
        (conflict "The recorded customer consent cannot be dated in the future.");
  recordedAt ← new_date;
  quoteForCustomer (aq_quote input) auth (aq_customerId input)
    (consent_json (aq_offlineConsent input) recordedAt (auth_userId auth)).

(** ** The domain of a hosting order *)
(** The stored selection is still what the catalogue says. *)
Definition same_catalogue (quote : DomainQuote) (selection : DomainSelectionSnapshot)
    (fresh : option CatalogueContext) : bool :=
  match fresh with
  | Some f => String.eqb (json_print (snapshot_json (cc_snapshot f)))
                (json_print (snapshot_json selection)) &&
              String.eqb (json_print (names_json (cc_nameservers f)))
                (json_print (quo_nameservers quote))
  | None => false
  end.
Definition unchanged_selection (quote : DomainQuote) (offer : DomainOffer) (message : string)
    : Io (option DomainSelectionSnapshot) :=
  selection ← lift (stored_snapshot (quo_selectionSnapshot quote));
  _ ← match selection with
      | Some s =>
          _ ← lock_domains;
          fresh ← catalogueContext environment (off_tld offer) (Some (quo_accountId quote));
          require (same_catalogue quote s fresh) (conflict message)
      | None => mret tt
      end;
  mret selection.
Definition quote_price (offer : DomainOffer) (selection : option DomainSelectionSnapshot)
    : Io ProductPrice :=
  row_or_throw productPrices
    (match selection with Some s => ss_priceId s | None => off_priceId offer end).
Definition orderable_quote (quoteId customerId domainName : string) (adminAssisted : bool)
    : Io DomainQuote :=
  let failure := conflict "This domain quote is unavailable. Request a new quote." in
  _ ← lock_row "domain_quotes" quoteId;
  found ← read (λ d, domainQuotes d !! quoteId);
  quote ← lift (of_option failure
    (q ← found;
     if String.eqb (quo_customerId q) customerId && String.eqb (quo_domainName q) domainName &&
        Bool.eqb (recorded (quo_offlineConsent q)) adminAssisted then Some q else None));
  now ← new_date;
  _ ← require (now <? quo_expiresAt quote) failure;
  mret quote.
Definition hosting_order_price (quote : DomainQuote) (account : RegistrarAccount)
    (managed : bool) (price : ProductPrice) : Io unit :=
  let failure := conflict "The domain offer changed. Request a new quote." in
  _ ← require (ra_enabled account && listed managed price && domain_price price &&
               (pp_billingPeriod price ==b BillingPeriod.ANNUAL)) failure;
  valid ← valid_now price;
  require ((valid : bool) && (pp_amount price =? quo_sellingAmount quote)) failure.
Definition quote_for_hosting_order (quoteId customerId domainName : string)
    (adminAssisted : bool) : Io (DomainQuote * ProductPrice * RegistrarAccount) :=
  _ ← (if adminAssisted then requireRuntime environment else requireSimulation environment);
  quote ← orderable_quote quoteId customerId domainName adminAssisted;
  taken ← read (λ d, find_unique (domains d) dom_quoteId (Some quoteId));
  _ ← require (negb (isSome taken)) (conflict "This domain quote already has an order.");
  offer ← row_or_throw domainOffers (quo_offerId quote);
  account ← row_or_throw registrarAccounts (quo_accountId quote);
  _ ← require (String.eqb (off_accountId offer) (ra_id account) &&
               (adminAssisted || is_fake account))
        (conflict "This domain offer cannot be combined through this route.");
  _ ← (if adminAssisted
       then _ ← lift (parse adminOfflineConsentEvidenceSchema (quo_offlineConsent quote)); mret tt
       else mret tt);
  _ ← requireAccount environment account;
  selection ← unchanged_selection quote offer
                "The domain catalogue changed. Request a new quote.";
  price ← quote_price offer selection;
  _ ← hosting_order_price quote account (isSome selection) price;
  mret (quote, price, account).

(** ** Purchases *)
Definition another_route : exn :=
  domain_denied "This quote cannot be ordered through this route.".
(** The quote of the request; a quote with recorded consent is ordered by an
    administrator. *)
Definition purchasable_quote (quoteId customerId : string) (adminAssisted : bool)
    : Io DomainQuote :=
  _ ← lock_row "domain_quotes" quoteId;
  found ← read (λ d, domainQuotes d !! quoteId);
  quote ← lift (of_option
    (domain_denied "This quote is not available to your account.")
    (q ← found; if String.eqb (quo_customerId q) customerId then Some q else None));
  _ ← require (Bool.eqb (recorded (quo_offlineConsent quote)) adminAssisted) another_route;
  mret quote.
Definition same_request (input : DomainPurchaseRequest) (customerId : string) (r : Domain)
    : bool :=
  String.eqb (dom_customerId r) customerId &&
  bool_decide (dom_quoteId r = Some (pq_quoteId input)).
Definition purchase_description (account : RegistrarAccount) : string :=
  if is_live account
  then "One-year domain registration; requires verified payment and separate administrator approval."
  else "Simulated one-year domain registration; no external calls or charges.".
Definition purchase_line (account : RegistrarAccount) (name : string) : string :=
  ((if is_live account then "Registration" else "Simulated registration") ++ " of " ++ name ++
   " for one year")%string.
Definition purchase_order (input : DomainPurchaseRequest) (quote : DomainQuote)
    (customer : Customer) (terms : json) (id number : string) (now created : Z) : Order :=
  let amount := quo_sellingAmount quote in
  MkOrder id number ("domain:" ++ pq_submissionKey input)%string (quo_customerId quote)
    OrderStatus.AWAITING_PAYMENT "BDT" amount 0 0 0 amount (usr_email customer) None terms now
    None None created.
Definition purchase_item (quote : DomainQuote) (account : RegistrarAccount)
    (price : ProductPrice) (id orderId : string) (now : Z) : OrderItem :=
  let amount := quo_sellingAmount quote in
  MkOrderItem id orderId ProductKind.DOMAIN (pp_productId price) (pp_id price) (pr_name price)
    (Some (purchase_description account)) BillingPeriod.ANNUAL "BDT" amount 0 1 amount
    (Some (quo_domainName quote)) JNull None None now.
(** An invoice issued now, due now, nothing paid. *)
Definition domain_invoice (key customerId : string) (orderId : option string) (amount : Z)
    (customer : Customer) (identity : json) (number id : string) (issued due created : Z)
    : Invoice :=
  MkInvoice id number key customerId orderId InvoiceStatus.UNPAID "BDT" amount 0 0 amount 0 0
    amount (customer_name customer) (usr_email customer) (address_json customer) identity
    (tax_identity customer) (Some issued) due None None created created.
Definition purchase_action (account : RegistrarAccount) (adminAssisted : bool) : string :=
  if adminAssisted then "SIMULATED_ADMIN_DOMAIN_ORDER_CREATED"
  else if is_live account then "LIVE_DOMAIN_ORDER_CREATED" else "SIMULATED_DOMAIN_ORDER_CREATED".
(** The rows of a purchase. *)
Definition write_purchase (input : DomainPurchaseRequest) (auth : AuthRequestContext)
    (quote : DomainQuote) (account : RegistrarAccount) (price : ProductPrice)
    (customer : Customer) (adminAssisted : bool) (terms : json) (now : Z) : Io string :=
  let amount := quo_sellingAmount quote in
  hex ← random_uuid;
  orderId ← random_uuid;
  created ← new_date;
  _ ← create_order (purchase_order input quote customer terms orderId
        (createHumanReadableNumber "ORD" now hex) now created);
  itemId ← random_uuid;
  let item := purchase_item quote account price itemId orderId created in
  _ ← create_order_item item;
  identity ← find_setting "business.identity";
  number ← allocateInvoiceNumber;
  invoiceId ← random_uuid;
  invoiceCreated ← new_date;
  _ ← create_invoice (domain_invoice ("invoice:domain:" ++ pq_submissionKey input)%string
        (quo_customerId quote) (Some orderId) amount customer
        (default (JObj [("name", JStr PROJECT_NAME)]) identity) number invoiceId now now
        invoiceCreated);
  lineId ← random_uuid;
  _ ← create_invoice_item (invoice_line invoiceId lineId 1 item
        (purchase_line account (quo_domainName quote)) amount "BDT");
  domainId ← random_uuid;
  domainCreated ← new_date;
  _ ← create_domain (new_domain domainId (quo_id quote) (quo_customerId quote) (ra_id account)
        itemId invoiceId (quo_domainName quote) (pq_submissionKey input) domainCreated);
  _ ← domain_log auth (purchase_action account adminAssisted) "DOMAIN" domainId JNull;
  mret domainId.
Definition offer_unchanged (quote : DomainQuote) (account : RegistrarAccount)
    (managed : bool) (price : ProductPrice) (customer : Customer) : bool :=
  ra_enabled account && listed managed price && (pp_amount price =? quo_sellingAmount quote) &&
  eligible_owner (is_live account) (Some customer).
Definition new_purchase (input : DomainPurchaseRequest) (auth : AuthRequestContext)
    (quote : DomainQuote) (adminAssisted : bool) : Io string :=
  expiry ← new_date;
  _ ← require (expiry <? quo_expiresAt quote)
        (conflict "The quote expired. Request a new quote explicitly.");
  offer ← row_or_throw domainOffers (quo_offerId quote);
  account ← row_or_throw registrarAccounts (quo_accountId quote);
  selection ← unchanged_selection quote offer
                "The price, DNS or consent scope changed. Request a new quote.";
  price ← quote_price offer selection;
  customer ← row_or_throw customers (quo_customerId quote);
  _ ← requireAccount environment account;
  _ ← require (negb (adminAssisted && negb (is_fake account)))
        (conflict "Admin-assisted orders currently support simulated registrar offers only.");
  _ ← require (offer_unchanged quote account (isSome selection) price customer)
        (conflict "The offer or customer changed. Request a new quote.");
  now ← new_date;
  terms ← (if adminAssisted then mret JNull
           else requireCheckoutTerms https_url (pq_acceptedTermsVersion input) now);
  write_purchase input auth quote account price customer adminAssisted terms now.
Definition purchase_tx (input : DomainPurchaseRequest) (auth : AuthRequestContext)
    (customerId : string) (adminAssisted : bool) : Io string :=
  quote ← purchasable_quote (pq_quoteId input) customerId adminAssisted;
  prior ← read (λ d, find_unique (domains d) dom_submissionKey (pq_submissionKey input));
  match prior with
  | Some prior =>
      _ ← require (same_request input customerId prior)
            (conflict "This submission key belongs to a different request.");
      mret (dom_id prior)
  | None => new_purchase input auth quote adminAssisted
  end.
(** After a unique violation: the domain of the same request, if there is one. *)
Definition replayed (input : DomainPurchaseRequest) (customerId : string)
    (adminAssisted : bool) : Io string :=
  prior ← read (λ d, find_unique (domains d) dom_submissionKey (pq_submissionKey input));
  quote ← read (λ d, r ← prior; q ← dom_quoteId r; domainQuotes d !! q);
  lift (of_option (conflict "The domain or quote already has a registration request.")
    (r ← prior;
     if same_request input customerId r &&
        Bool.eqb (recorded (default JNull (quo_offlineConsent <$> quote))) adminAssisted
     then Some (dom_id r) else None)).
Definition purchaseForCustomer (input : DomainPurchaseRequest) (auth : AuthRequestContext)
    (customerId : string) (adminAssisted : bool) : Io DomainDetail :=
  id ← catch (transaction (purchase_tx input auth customerId adminAssisted))
         (λ error, if is_unique_violation error then replayed input customerId adminAssisted
                   else throw error);
  detail id auth None.
Definition purchase (input : DomainPurchaseRequest) (auth : AuthRequestContext)
    : Io DomainDetail :=
  _ ← requireRuntime environment;
  customerId ← lift (signed_in_customer auth);
  purchaseForCustomer input auth customerId false.
Definition adminPurchase (input : DomainPurchaseRequest) (customerId : string)
    (auth : AuthRequestContext) : Io DomainDetail :=
  _ ← authorize_domains auth;
  _ ← requireSimulation environment;
  purchaseForCustomer input auth customerId true.
End sales.
