(* ===== verification/DomainManagement.v ===== *)
(** * Approval and management of domains

    apps/api/src/modules/domains/domain.service.ts: the verification of a registrar
    contact, the approval of a paid registration, its reconciliation, and the context
    in which a registered domain is managed. *)
From S2P Require Import Prelude JsString JsDate Json Money States AuthTables DomainTables Database InvoiceNumber InvoiceTotals Invoices Payments Gateways GatewayAdapters Orders HostingPanels DomainContracts PanelOperations JsonText Totp Authentication Registrar Resellbiz RegistrarProcessor DomainAdministration Domains DomainSales.

(** [quote.nameservers as string[]]. *)
Definition quoted_names (q : DomainQuote) : list string :=
  default [] (text_names (quo_nameservers q)).
Definition latest_or_throw (accountId : string) : Io RegistrarCredential :=
  found ← read (latest_credential accountId None);
  lift (of_option RecordNotFound found).
(** What a managed domain is worked on with. *)
Record ManagementContext := MkManagementContext
  { mc_domain : Domain; mc_account : RegistrarAccount; mc_customer : Customer;
    mc_credential : ResellbizCredential; mc_binding : ResellbizBinding;
    mc_intent : RegistrarIntent; mc_orderId : string }.

Section management.
Context `{ZodFormats} `{ZodUrl} `{UrlParser} `{ZodIso} `{Sha256} `{DateParser}
  `{RegistrarCrypto} `{ResellbizTransport} `{RegistrarRandom} `{JsNumber}
  (environment : DomainEnvironment).

(** ** The registrar's contact of a customer *)
Definition bound_elsewhere (remoteCustomerId remoteContactId : string)
    (prior : option RegistrarMapping) : bool :=
  match prior with
  | Some m => negb (String.eqb (rm_remoteCustomerId m) remoteCustomerId) ||
              negb (String.eqb (rm_remoteContactId m) remoteContactId)
  | None => false
  end.
Definition bind_tx (id : string) (key : contact_key) (remoteCustomerId remoteContactId : string)
    (auth : AuthRequestContext) : Io unit :=
  _ ← lock_row "domains" id;
  prior ← read (mapping_of key);
  _ ← require (negb (bound_elsewhere remoteCustomerId remoteContactId prior))
        (conflict "A different immutable registrar contact is already bound.");
  _ ← when (negb (isSome prior)) (create_mapping key remoteCustomerId remoteContactId);
  domain_log auth "RESELLBIZ_CONTACT_OWNERSHIP_VERIFIED" "DOMAIN" id JNull.
Definition contact_unverified : exn := conflict
  "Registrar customer/contact ownership or exact registrant data could not be verified. This check sent no mutation.".
Definition bindLiveContact (id remoteCustomerId remoteContactId : string)
    (auth : AuthRequestContext) : Io DomainDetail :=
  _ ← authorize_domains auth;
  domain ← row_or_throw domains id;
  quoteId ← lift (of_option
    (conflict "Linked domains use verified existing ownership, not registration contact binding.")
    (dom_quoteId domain));
  account ← row_or_throw registrarAccounts
              (default (dom_accountId domain) (dom_executionAccountId domain));
  _ ← require (is_live account) (conflict "Select a live domain request.");
  quote ← row_or_throw domainQuotes quoteId;
  contact ← lift (contact_of domain "LIVE" (quo_contactCiphertext quote));
  let fingerprint := registrarFingerprint (ra_id account) (ra_mode account)
                       (dom_customerId domain) (contact_json contact) in
  credential ← liveProvider (ra_id account) None;
  _ ← reserveLiveRead environment (ra_id account) auth;
  operationId ← random_uuid;
  let intent := MkIntent operationId (ra_id account) (dom_customerId domain)
    (dom_domainName domain) (quoted_names quote) contact (quo_costAmount quote) in
  _ ← catch (session (Some (MkBinding (ra_id account) (dom_customerId domain) remoteCustomerId
                              remoteContactId))
               (live_ensureContacts credential false intent fingerprint))
        (λ _, throw contact_unverified);
  _ ← transaction (bind_tx id (ra_id account, dom_customerId domain, fingerprint)
                     remoteCustomerId remoteContactId auth);
  detail id auth None.

(** ** Approval *)
(** The registrars the customer has consented to. *)
Definition consented_account (selection : option DomainSelectionSnapshot) (domain : Domain)
    (accountId : string) : bool :=
  match selection with
  | Some s => existsb (λ e, String.eqb (rch_id e) accountId) (ss_eligibleRegistrars s)
  | None => String.eqb (dom_accountId domain) accountId
  end.
Definition approved_cost (input : DomainApprovalRequest) (cost : RegistrarQuote) : bool :=
  rq_available cost && negb (ap_costCeiling input <? rq_costAmount cost).
Definition new_operation (id : string) (input : DomainApprovalRequest) (auth : AuthRequestContext)
    (domain : Domain) (account : RegistrarAccount) (credentialId : string)
    (selected : option (string * string * string)) (now : Z) : RegistrarOperation :=
  MkRegistrarOperation id (dom_id domain) (dom_customerId domain) (dom_accountId domain)
    credentialId ((λ s, s.1.1) <$> selected) ((λ s, s.1.2) <$> selected) (snd <$> selected)
    (auth_userId auth) (ap_costCeiling input)
    (is_live account && ap_acceptPriceChangeRisk input) None now 0.
(** [prior ?? await tx.registrarOperation.create(...)]. *)
Definition approved_operation (input : DomainApprovalRequest) (auth : AuthRequestContext)
    (prior : option RegistrarOperation) (domain : Domain) (account : RegistrarAccount)
    (credentialId : string) (selected : option (string * string * string))
    : Io RegistrarOperation :=
  match prior with
  | Some o => mret o
  | None =>
      id ← random_uuid;
      now ← new_date;
      let o := new_operation id input auth domain account credentialId selected now in
      _ ← create_row registrarOperations id
            (λ m, unique_in m ro_domainId (ro_domainId o)) o;
      mret o
  end.
Definition request_registration (operationId : string) (eventType key : string) : Io unit :=
  suffix ← random_uuid;
  create_outbox "REGISTRAR_OPERATION" operationId eventType
    (key ++ ":" ++ operationId ++ ":" ++ suffix)%string
    (JObj [("schemaVersion", JNum 1); ("operationId", JStr operationId)]).
Definition prior_selection (selectedAccountId : string) (prior : option RegistrarOperation)
    : bool :=
  match prior with
  | Some o => String.eqb (executing_account o) selectedAccountId | None => true end.
(** What was read before the transaction. *)
Record Approval := MkApproval
  { avl_domain : Domain; avl_quote : DomainQuote; avl_invoiceId : string;
    avl_selection : option DomainSelectionSnapshot; avl_accountId : string;
    avl_origin : RegistrarAccount; avl_credential : RegistrarCredential }.
(** The paid, unclaimed request whose row is locked. *)
Definition approvable (a : Approval) (account : RegistrarAccount) (id : string)
    : Io (Domain * option RegistrarOperation) :=
  current ← row_or_throw domains id;
  invoiceId ← lift (of_option (conflict "Registration billing records are unavailable.")
    (i ← dom_invoiceId current;
     if String.eqb (dom_origin current) "EXISTING" then None else Some i));
  _ ← requireAccount environment account;
  paid ← verifiedDomainInvoice invoiceId (dom_customerId current);
  _ ← require paid (conflict "A fully verified, unadjusted BDT payment is required.");
  prior ← read (operation_of id);
  _ ← require (negb (isSome (prior ≫= ro_claimedAt)))
        (conflict "This operation is already claimed. Use read-only reconciliation.");
  mret (current, prior).
Definition approve_tx (id : string) (input : DomainApprovalRequest) (auth : AuthRequestContext)
    (a : Approval) : Io unit :=
  _ ← lockDomainInvoice (avl_invoiceId a);
  _ ← lock_row "domains" id;
  account ← row_or_throw registrarAccounts (avl_accountId a);
  '(current, prior) ← approvable a account id;
  credential ← latest_or_throw (dom_accountId current);
  selected ← latest_or_throw (avl_accountId a);
  _ ← require (String.eqb (rc_id selected) (rc_id (avl_credential a)))
        (conflict "Registrar credentials changed during approval. Review again.");
  _ ← require (prior_selection (avl_accountId a) prior)
        (conflict "The approved registrar cannot be changed. Reconcile this request instead.");
  contact ← lift (registrar_decrypt
    (contactBinding (dom_accountId (avl_domain a)) (dom_customerId (avl_domain a))
       (ra_mode (avl_origin a))) (quo_contactCiphertext (avl_quote a)));
  operation ← approved_operation input auth prior current account (rc_id credential)
    (if isSome (avl_selection a)
     then Some (avl_accountId a, rc_id selected,
                registrarFingerprint (avl_accountId a) (ra_mode account)
                  (dom_customerId current) contact)
     else None);
  _ ← require (ro_costCeiling operation =? ap_costCeiling input)
        (conflict "The approved cost ceiling cannot be changed on an existing operation.");
  _ ← update_domain id (λ r,
        if isSome (avl_selection a)
        then r <| dom_state := "PENDING" |> <| dom_executionAccountId := Some (avl_accountId a) |>
        else r <| dom_state := "PENDING" |>);
  _ ← add_evidence (ro_id operation) "FULL_ADMIN_MFA_APPROVED";
  request_registration (ro_id operation) "DOMAIN_REGISTRATION_REQUESTED" "domain-registration".
Definition approvable_domain (id : string) : Io (Domain * string * string) :=
  domain ← row_or_throw domains id;
  lift (of_option
    (conflict "An existing domain cannot be registered or purchased through approval.")
    (q ← dom_quoteId domain; i ← dom_invoiceId domain;
     if String.eqb (dom_origin domain) "EXISTING" || negb (truthy q) || negb (truthy i)
     then None else Some (domain, q, i))).
Definition approve (id : string) (input : DomainApprovalRequest) (auth : AuthRequestContext)
    : Io DomainDetail :=
  _ ← authorize_domains auth;
  '(domain, quoteId, invoiceId) ← approvable_domain id;
  _ ← require (String.eqb (ap_confirmation input) (dom_domainName domain))
        (conflict "Type the exact domain name to approve.");
  quote ← row_or_throw domainQuotes quoteId;
  selection ← lift (stored_snapshot (quo_selectionSnapshot quote));
  _ ← require (negb (isSome selection && negb (isSome (ap_registrarAccountId input))))
        (conflict "Select and review the registrar before approval.");
  let accountId := default (dom_accountId domain) (ap_registrarAccountId input) in
  _ ← require (consented_account selection domain accountId)
        (conflict "This registrar was not included in the customer consent. Request new customer consent, not an automatic provider switch.");
  account ← row_or_throw registrarAccounts accountId;
  _ ← requireAccount environment account;
  origin ← row_or_throw registrarAccounts (dom_accountId domain);
  _ ← require (String.eqb (ra_mode account) (ra_mode origin))
        (conflict "Simulation and live registrar accounts cannot be mixed.");
  checked ← latest_or_throw accountId;
  _ ← require (negb (is_live account && negb (ap_acceptPriceChangeRisk input)))
        (conflict "Confirm the real purchase and non-atomic provider price-change risk.");
  cost ← quoteFrom environment accountId (dom_domainName domain) auth;
  _ ← require (approved_cost input cost)
        (conflict "Availability or the approved native cost ceiling changed.");
  _ ← transaction (approve_tx id input auth
        (MkApproval domain quote invoiceId selection accountId origin checked));
  detail id auth None.

Record RegistrationCheck := MkRegistrationCheck
  { rch_accountId : string; rch_quote : RegistrarQuote }.
Definition checkRegistration (id accountId : string) (auth : AuthRequestContext)
    : Io RegistrationCheck :=
  _ ← authorize_domains auth;
  d ← detail id auth None;
  _ ← require (negb match dd_admin d with
                    | Some a => ad_dispatchClaimed a || isSome (ad_operationId a)
                    | None => false end)
        (conflict "This request already has an immutable approval. Reconcile it instead.");
  _ ← require match dd_admin d with
              | Some a => existsb (λ c, String.eqb (rch_id c.1) accountId)
                            (ad_eligibleRegistrars a)
              | None => false end
        (conflict "Select a registrar within the customer consent scope.");
  domain ← row_or_throw domains id;
  account ← row_or_throw registrarAccounts accountId;
  _ ← requireAccount environment account;
  q ← quoteFrom environment accountId (dom_domainName domain) auth;
  mret (MkRegistrationCheck accountId q).
Definition reconcile (id : string) (auth : AuthRequestContext) : Io DomainDetail :=
  _ ← requireRuntime environment;
  _ ← authorize_domains auth;
  found ← read (operation_of id);
  _ ← match found with
      | Some o => account ← row_or_throw registrarAccounts (executing_account o);
                  requireAccount environment account
      | None => mret tt
      end;
  operation ← lift (of_option
    (conflict "Only a claimed operation can be reconciled; this action cannot register.")
    (o ← found; if isSome (ro_claimedAt o) then Some o else None));
  let failure := conflict "The read-only polling budget is exhausted or not yet available." in
  _ ← require (negb (10 <=? ro_pollCount operation)) failure;
  now ← new_date;
  _ ← require (negb (now <? ro_nextPollAt operation)) failure;
  _ ← request_registration (ro_id operation) "DOMAIN_REGISTRATION_RECONCILE" "domain-reconcile";
  detail id auth None.

(** ** The context of management *)
Definition managed_registration (account : RegistrarAccount) (domain : Domain)
    : option (string * Z) :=
  orderId ← dom_providerOrderId domain;
  expiry ← dom_expiresAt domain;
  if is_live account && String.eqb (dom_state domain) "REGISTERED" && truthy orderId
  then Some (orderId, expiry) else None.
(** The credential an existing domain was linked with names the same reseller. *)
Definition linked_identity (account : RegistrarAccount) (credentialId : string) : Io unit :=
  linked ← row_or_throw registrarCredentials credentialId;
  clear ← lift (registrar_decrypt (credentialBinding (ra_id account) (rc_version linked) "LIVE")
                  (rc_ciphertext linked));
  identity ← lift (parse resellbizCredentialSchema clear);
  let failure := conflict "The linked registrar-account identity changed." in
  _ ← require (String.eqb (rc_accountId linked) (ra_id account)) failure;
  reseller ← lift (registrarIdentity (ra_configuration account));
  require (String.eqb (rz_resellerId identity) reseller) failure.
Definition existing_context (domain : Domain) (account : RegistrarAccount) (customer : Customer)
    (orderId : string) (auth : AuthRequestContext) (credentialId : option string)
    : Io ManagementContext :=
  '(linkCredentialId, ciphertext) ← lift (of_option
    (conflict "Existing domain ownership evidence is unavailable.")
    (l ← dom_linkCredentialId domain; c ← dom_linkEvidenceCiphertext domain;
     _ ← dom_ownershipVerifiedAt domain; Some (l, c)));
  _ ← linked_identity account linkCredentialId;
  proof ← lift (link_evidence domain ciphertext);
  credential ← liveProvider (ra_id account) credentialId;
  let binding := MkBinding (ra_id account) (dom_customerId domain) (le_remoteCustomerId proof)
                   (le_remoteContactId proof) in
  let intent := MkIntent (dom_id domain) (ra_id account) (dom_customerId domain)
    (dom_domainName domain) (le_nameservers proof) (le_contact proof) 0 in
  _ ← reserveLiveRead environment (ra_id account) auth;
  _ ← catch (session (Some binding) (management credential (managed intent) orderId))
        (λ _, throw (conflict
          "Current registrar-account ownership could not be verified. No management action was sent."));
  mret (MkManagementContext domain account customer credential binding intent orderId).
Definition registered_context (domain : Domain) (account : RegistrarAccount)
    (customer : Customer) (orderId : string) (credentialId : option string)
    : Io ManagementContext :=
  quoteId ← lift (of_option (conflict "Registration ownership evidence is unavailable.")
                    (dom_quoteId domain));
  quote ← row_or_throw domainQuotes quoteId;
  operation ← read (operation_of (dom_id domain));
  found ← read (mapping_of (ra_id account, dom_customerId domain,
                  default (quo_fingerprint quote) (operation ≫= ro_selectionFingerprint)));
  mapping ← lift (of_option RecordNotFound found);
  credential ← liveProvider (ra_id account) credentialId;
  contact ← lift (contact_of domain "LIVE" (quo_contactCiphertext quote));
  mret (MkManagementContext domain account customer credential
    (MkBinding (ra_id account) (dom_customerId domain) (rm_remoteCustomerId mapping)
       (rm_remoteContactId mapping))
    (MkIntent (dom_id domain) (ra_id account) (dom_customerId domain) (dom_domainName domain)
       (quoted_names quote) contact (quo_costAmount quote)) orderId).
Definition managementContext (id : string) (auth : AuthRequestContext)
    (credentialId : option string) : Io ManagementContext :=
  _ ← detail id auth None;
  domain ← row_or_throw domains id;
  account ← row_or_throw registrarAccounts
              (default (dom_accountId domain) (dom_executionAccountId domain));
  _ ← requireAccount environment account;
  '(orderId, _) ← lift (of_option
    (conflict "Only a confirmed live registration can be managed.")
    (managed_registration account domain));
  customer ← row_or_throw customers (dom_customerId domain);
  _ ← require (eligible_owner true (Some customer))
        (conflict "The customer account is not eligible for registrar operations.");
  if String.eqb (dom_origin domain) "EXISTING"
  then existing_context domain account customer orderId auth credentialId
  else registered_context domain account customer orderId credentialId.
Definition reserveManagementRead (accountId : string) (auth : AuthRequestContext) : Io unit :=
  reserveLiveRead environment accountId auth.
End management.
