(* ===== verification/DomainLifecycle.v ===== *)
(** * Actions on registered domains

    apps/api/src/modules/domains/domain-lifecycle.service.ts: the requests that change
    name servers, the lock, the contact or the registration period of a domain, their
    execution at the registrar and their reconciliation. *)
From stdpp Require Import sorting.
From S2P Require Import Prelude JsString JsDate Json Money States AuthTables DomainTables Database InvoiceNumber InvoiceTotals Invoices Payments Gateways GatewayAdapters Orders HostingPanels DomainContracts PanelOperations JsonText Totp Authentication Registrar Resellbiz RegistrarProcessor DomainAdministration Domains DomainSales DomainManagement.

Definition name_before (a b : string) : Prop := String.leb a b = true.
#[export] Instance name_before_dec : RelDecision name_before.
Proof. intros a b. unfold name_before. apply _. Defined.
Definition action_before (a b : DomainAction) : Prop :=
  da_createdAt b < da_createdAt a ∨
  (da_createdAt a = da_createdAt b ∧ String.leb (da_id b) (da_id a) = true).
#[export] Instance action_before_dec : RelDecision action_before.
Proof. intros a b. unfold action_before. apply _. Defined.
Definition action_of (domainId actionId : string) (d : Db) : option DomainAction :=
  a ← domainActions d !! actionId;
  if String.eqb (da_domainId a) domainId then Some a else None.
Definition action_unavailable : exn := conflict "Domain action is unavailable.".
Definition confirm_domain : exn := conflict "Confirm the exact domain name.".
(** The names of the bindings of the encrypted columns. *)
Definition action_binding (actionId : string) : string :=
  ("resellbiz:domain-action:" ++ actionId)%string.
Definition current_contact_binding (domainId : string) : string :=
  ("resellbiz:current-contact:" ++ domainId)%string.
(** What an action keeps encrypted. *)
Record ActionPayload := MkActionPayload
  { apl_request : DomainActionRequest; apl_previousExpiry : string }.
Definition action_log (auth : AuthRequestContext) (action domainId : string) (metadata : json)
    : Io unit :=
  domain_log auth action "DOMAIN" domainId metadata.
Definition action_metadata (actionId : string) (fields : list (string * json)) : json :=
  JObj (("actionId", JStr actionId) :: fields).

Section lifecycle.
Context `{ZodFormats} `{ZodUrl} `{UrlParser} `{ZodIso} `{Sha256} `{DateParser}
  `{RegistrarCrypto} `{ResellbizTransport} `{RegistrarRandom} `{JsNumber}
  (environment : DomainEnvironment).

Definition payloadSchema : schema ActionPayload := λ v,
  o ← z_strict_object ["request"; "previousExpiry"] v;
  request ← domainActionRequestSchema (get "request" o);
  previous ← z_refine zod_iso z_string (get "previousExpiry" o);
  Some (MkActionPayload request previous).
Definition payload_json (p : ActionPayload) : json :=
  JObj [("request", action_request_json (apl_request p));
        ("previousExpiry", JStr (apl_previousExpiry p))].
Definition payload_of (actionId ciphertext : string) : result ActionPayload :=
  clear ← registrar_decrypt (action_binding actionId) ciphertext;
  parse payloadSchema clear.

(** ** Reading *)
Definition action_attention (a : DomainAction) (d : Db) : bool :=
  match i ← da_invoiceId a; invoices d !! i with
  | Some invoice =>
      (String.eqb (da_state a) "FAILED" && (0 <? inv_amountPaid invoice)) ||
      existsb (λ p, succeeded p && negb (pay_kind p ==b PaymentKind.CHARGE))
        (rows (λ p, String.eqb (pay_invoiceId p) (inv_id invoice)) (payments d))
  | None => false
  end.
Definition action_view (a : DomainAction) : Io ActionView :=
  attention ← read (action_attention a);
  let v := MkActionView (da_id a) (da_kind a) (da_state a) (to_ISO_string (da_createdAt a))
             (isSome (da_claimedAt a)) (da_invoiceId a) attention in
  _ ← require (domainActionSchema v) ZodError;
  mret v.
Definition list_actions (domainId : string) (auth : AuthRequestContext) : Io (list ActionView) :=
  _ ← detail domainId auth None;
  found ← read (λ d, take 50 (merge_sort action_before
                 (rows (λ a, String.eqb (da_domainId a) domainId) (domainActions d))));
  fold_each (λ views a, v ← action_view a; mret (views ++ [v])) [] found.
(** [{...state, contact}]. *)
Definition with_contact (m : DomainManagement) (contact : json) : json :=
  match management_json m with
  | JObj o => JObj (("contact", contact) :: List.filter (λ kv, negb (String.eqb kv.1 "contact")) o)
  | v => v
  end.
Definition stored_management (domainId : string) (auth : AuthRequestContext)
    : Io (option DomainManagement) :=
  _ ← detail domainId auth None;
  domain ← row_or_throw domains domainId;
  if negb (recorded (dom_managementSnapshot domain)) then mret None
  else
    m ← lift (parse domainManagementSchema (dom_managementSnapshot domain));
    v ← match dom_currentContactCiphertext domain with
        | Some c => clear ← lift (registrar_decrypt (current_contact_binding domainId) c);
                    mret (with_contact m clear)
        | None => mret (management_json m)
        end;
    m ← lift (parse domainManagementSchema v);
    mret (Some m).
(** The state without the contact, as it is stored. *)
Definition projection (m : DomainManagement) : DomainManagement :=
  MkManagement None (mg_nameservers m) (mg_locked m) (mg_observedAt m) (mg_expiresAt m)
    (mg_verification m).
Definition management_of (c : ManagementContext) (intent : RegistrarIntent)
    : Sio ResellbizManagedState :=
  management (mc_credential c) (managed intent) (mc_orderId c).
(** The methods called on the provider of the context. *)
Definition at_registrar {A} (c : ManagementContext) (m : Sio A) : Io A :=
  session (Some (mc_binding c)) m.
(** [domain.update] with what was observed. *)
Definition store_management (domainId : string) (state : DomainManagement)
    (contact : option DomainContact) : Io unit :=
  ciphertext ← match contact with
               | Some c => t ← registrar_encrypt (current_contact_binding domainId)
                                 (contact_json c);
                           mret (Some t)
               | None => mret None
               end;
  expiry ← lift (of_option (RangeError "Invalid Date") (date_of (mg_expiresAt state)));
  update_domain domainId (λ r,
    let r := r <| dom_managementSnapshot := management_json state |>
               <| dom_expiresAt := Some expiry |>
               <| dom_verification := mg_verification state |> in
    match ciphertext with
    | Some t => r <| dom_currentContactCiphertext := Some t |>
    | None => r
    end).
Definition refresh (domainId : string) (auth : AuthRequestContext) : Io DomainManagement :=
  c ← managementContext environment domainId auth None;
  _ ← reserveManagementRead environment (ra_id (mc_account c)) auth;
  observed ← catch (at_registrar c (management_of c (mc_intent c)))
    (λ _, throw (conflict "Registrar management evidence is unavailable. No mutation was sent."));
  let m := mst_management observed in
  state ← lift (parse domainManagementSchema (management_json (projection m)));
  _ ← store_management domainId state (mg_contact m);
  lift (parse domainManagementSchema
    (match mg_contact m with
     | Some k => with_contact state (contact_json k) | None => management_json state end)).

(** ** Requests *)
Definition MAX_RENEWAL : Z := 999999999999999.
Definition renewal_price_matches (selling : Z) (revision : option Z) (c : DomainCatalogueTld)
    : bool :=
  match dct_renewalAmount c with
  | Some a => negb (a =? 0) && bool_decide (revision = Some (dct_revision c)) && (selling =? a)
  | None => false
  end.
(** The invoice of a renewal. *)
Definition renewal_invoice (id : string) (current : Domain) (expiry : Z) (customer : Customer)
    (selling ceiling : Z) (revision : option Z) : Io string :=
  _ ← lock_domains;
  tld ← lift (domainExtension (dom_domainName current));
  catalogue ← read (catalogue_of tld);
  _ ← require match catalogue with
              | Some c => renewal_price_matches selling revision c | None => true end
        (conflict "Renewal pricing changed or is unavailable. Refresh the catalogue price before creating a renewal invoice.");
  _ ← require ((selling <=? MAX_RENEWAL) && (ceiling <=? MAX_RENEWAL))
        (conflict "Renewal amount exceeds the supported range.");
  identity ← find_setting "business.identity";
  number ← allocateInvoiceNumber;
  issued ← new_date;
  due ← new_date;
  invoiceId ← random_uuid;
  created ← new_date;
  _ ← create_invoice (domain_invoice ("invoice:domain-renewal:" ++ id)%string
        (dom_customerId current) None selling customer
        (default (JObj [("name", JStr PROJECT_NAME)]) identity) number invoiceId issued due
        created);
  lineId ← random_uuid;
  _ ← create_invoice_item (MkInvoiceItem lineId invoiceId 1 None None
        ("Renewal of " ++ dom_domainName current ++ " for one year after " ++
         to_ISO_string expiry)%string "BDT" 1 selling 0 0 selling None None);
  mret invoiceId.
Definition open_action (domainId : string) (a : DomainAction) : bool :=
  String.eqb (da_domainId a) domainId && negb (final_action (da_state a)).
Definition new_action (id : string) (current : Domain) (accountId credentialId : string)
    (actor kind ciphertext : string) (invoiceId : option string) (poll created : Z)
    : DomainAction :=
  MkDomainAction id (dom_id current) accountId (dom_customerId current) credentialId actor kind
    ciphertext invoiceId "REQUESTED" None None None None poll 0 created.
Definition create_tx (id domainId : string) (request : DomainActionRequest)
    (c : ManagementContext) (auth : AuthRequestContext) : Io unit :=
  _ ← lock_row "domains" domainId;
  current ← row_or_throw domains domainId;
  expiry ← lift (of_option
    (conflict "The domain state changed. Refresh before requesting an action.")
    (t ← dom_expiresAt current;
     if String.eqb (dom_state current) "REGISTERED" &&
        bool_decide (dom_providerOrderId current = Some (mc_orderId c)) then Some t else None));
  open ← read (λ d, rows (open_action domainId) (domainActions d));
  _ ← require (bool_decide (open = []))
        (conflict "Finish or reconcile the existing domain action first.");
  credential ← latest_or_throw (ra_id (mc_account c));
  invoiceId ← match request with
              | RENEW selling revision ceiling =>
                  i ← renewal_invoice id current expiry (mc_customer c) selling ceiling revision;
                  mret (Some i)
              | _ => mret None
              end;
  ciphertext ← registrar_encrypt (action_binding id)
                 (payload_json (MkActionPayload request (to_ISO_string expiry)));
  now ← new_date;
  _ ← create_row domainActions id (λ _, true)
        (new_action id current (ra_id (mc_account c)) (rc_id credential) (auth_userId auth)
           (action_kind request) ciphertext invoiceId now now);
  action_log auth "DOMAIN_ACTION_REQUESTED" domainId
    (action_metadata id [("kind", JStr (action_kind request))]).
Definition is_renewal (request : DomainActionRequest) : bool :=
  match request with RENEW _ _ _ => true | _ => false end.
Definition create_action (domainId : string) (raw : json) (confirmation : string)
    (auth : AuthRequestContext) : Io (list ActionView) :=
  _ ← authorize_domains auth;
  request ← lift (parse domainActionRequestSchema raw);
  c ← managementContext environment domainId auth None;
  _ ← require (negb (String.eqb (dom_origin (mc_domain c)) "EXISTING" && is_renewal request))
        (conflict "Linked domains have no approved renewal billing terms. This action cannot purchase a renewal.");
  _ ← require (String.eqb confirmation (dom_domainName (mc_domain c))) confirm_domain;
  id ← random_uuid;
  _ ← transaction (create_tx id domainId request c auth);
  list_actions domainId auth.

(** ** Execution *)
Definition full_and_active (u : UserWithProfiles) : bool :=
  active (up_user u) && negb (deleted (up_user u)) && full_administrator u &&
  totp_enabled (up_credential u).
Definition poll_open (a : DomainAction) : Io bool :=
  if 10 <=? da_pollCount a then mret false
  else match da_claimedAt a with
       | Some _ => now ← new_date; mret (negb (now <? da_nextPollAt a))
       | None => mret true
       end.
(** The domain, its customer and the administrator are still eligible. *)
Definition action_parties (a : DomainAction) (domainId orderId : string)
    (auth : AuthRequestContext) : Io unit :=
  account ← row_or_throw registrarAccounts (da_accountId a);
  _ ← require (ra_enabled account) (conflict "Registrar is disabled.");
  domain ← row_or_throw domains domainId;
  found ← read (user_by_id (auth_userId auth));
  actor ← lift (of_option RecordNotFound found);
  customer ← row_or_throw customers (da_customerId a);
  require (String.eqb (dom_state domain) "REGISTERED" &&
           bool_decide (dom_providerOrderId domain = Some orderId) && full_and_active actor &&
           eligible_owner true (Some customer))
    (conflict "The domain, customer or approving administrator is no longer eligible.").
Definition claimed_registration (accountId : string) (o : RegistrarOperation) : bool :=
  isSome (ro_claimedAt o) && String.eqb (executing_account o) accountId.
(** Nothing else of the account is without an outcome, and a renewal is paid. *)
Definition may_dispatch (a : DomainAction) (request : DomainActionRequest) : Io unit :=
  busy ← read (λ d, rows (λ b, negb (String.eqb (da_id b) (da_id a)) &&
                               outstanding (da_accountId a) b) (domainActions d));
  _ ← require (bool_decide (busy = []))
        (conflict "Another registrar action needs reconciliation first.");
  registrations ← read (λ d, rows (claimed_registration (da_accountId a))
                                  (registrarOperations d));
  settled ← registrations_settled registrations;
  _ ← require settled (conflict "A registration needs reconciliation first.");
  if is_renewal request then
    paid ← match da_invoiceId a with
           | Some i => verifiedDomainInvoice i (da_customerId a)
           | None => mret false
           end;
    require paid
      (conflict "A fully verified, unadjusted BDT renewal payment is required.")
  else mret tt.
Definition claim_action (actionId : string) : Io unit :=
  found ← row_or_throw domainActions actionId;
  claimed ← match da_claimedAt found with
            | Some t => mret t | None => new_date end;
  now ← new_date;
  change_row domainActions actionId
    (λ a, a <| da_state := "NEEDS_RECONCILIATION" |> <| da_claimedAt := Some claimed |>
            <| da_pollCount := da_pollCount a + 1 |> <| da_nextPollAt := now + 180000 |>).
(** The first transaction: none when the action has an outcome, else whether its
    mutation may be sent. *)
Definition execute_tx (domainId actionId accountId orderId : string) (request : DomainActionRequest)
    (auth : AuthRequestContext) (reconcileOnly : bool) : Io (option bool) :=
  _ ← lock_row "domains" domainId;
  _ ← lock_row "domain_actions" actionId;
  _ ← lock_row "registrar_accounts" accountId;
  action ← row_or_throw domainActions actionId;
  if final_action (da_state action) then mret None
  else
    slot ← poll_open action;
    _ ← require slot (conflict
          "Wait before reconciling, or resolve the exhausted read budget manually.");
    _ ← action_parties action domainId orderId auth;
    let claimed := isSome (da_claimedAt action) in
    _ ← require (negb (reconcileOnly && negb claimed))
          (conflict "Only a claimed action can be reconciled.");
    _ ← (if claimed then mret tt else may_dispatch action request);
    _ ← claim_action actionId;
    _ ← action_log auth (if claimed then "DOMAIN_ACTION_READ_RESERVED"
                         else "DOMAIN_ACTION_DISPATCH_CLAIMED") domainId
          (action_metadata actionId [("kind", JStr (action_kind request))]);
    mret (Some (negb claimed && negb reconcileOnly)).
(** [claimSubmission]: at most one mutation of an action is sent. *)
Definition unsubmitted (a : DomainAction) : bool :=
  negb (isSome (da_submittedAt a)) && String.eqb (da_state a) "NEEDS_RECONCILIATION".
Definition claimSubmission (actionId : string) : Io unit :=
  now ← new_date;
  count ← change_row_if domainActions actionId unsubmitted
            (λ a, a <| da_submittedAt := Some now |>);
  require (count =? 1)
    (conflict "The domain mutation was already submitted. Reconcile without retrying.").
Definition with_registrant (intent : RegistrarIntent) (contact : DomainContact)
    : RegistrarIntent := intent <| ri_contact := contact |>.
(** The replacement of a contact: it is claimed before it is created. *)
Definition dispatch_contact (c : ManagementContext) (intent : RegistrarIntent)
    (actionId : string) (contact : DomainContact) : Sio unit :=
  let intent := with_registrant intent contact in
  _ ← outside (now ← new_date;
               change_row domainActions actionId (λ a, a <| da_contactClaimedAt := Some now |>));
  contactId ← replacementContact (mc_credential c) intent;
  _ ← outside (change_row domainActions actionId
                 (λ a, a <| da_remoteContactId := Some contactId |>));
  changeContacts (mc_credential c) intent (mc_orderId c) contactId (claimSubmission actionId).
Definition dispatch_action (c : ManagementContext) (intent : RegistrarIntent)
    (actionId : string) (payload : ActionPayload) (before : ResellbizManagedState) : Sio unit :=
  let claim := claimSubmission actionId in
  match apl_request payload with
  | NAMESERVERS names =>
      changeNameservers (mc_credential c) intent (mc_orderId c) names claim
  | LOCK locked => changeLock (mc_credential c) intent (mc_orderId c) locked claim
  | CONTACT contact => dispatch_contact c intent actionId contact
  | RENEW _ _ _ =>
      _ ← require (String.eqb (mg_expiresAt (mst_management before))
                     (apl_previousExpiry payload))
            (conflict "Renewal expiry changed; reconcile without repeating the purchase.");
      renew (mc_credential c) intent (mc_orderId c) (date_of (apl_previousExpiry payload)) claim
  end.
Definition action_intent (c : ManagementContext) (request : DomainActionRequest)
    : RegistrarIntent :=
  match request with
  | RENEW _ _ ceiling => mc_intent c <| ri_costCeiling := ceiling |>
  | _ => mc_intent c
  end.
(** The mutation; an exception says no more than that the outcome is not known. *)
Definition send_action (c : ManagementContext) (actionId : string) (payload : ActionPayload)
    (dispatch : bool) : Io bool :=
  let intent := action_intent c (apl_request payload) in
  at_registrar c
    (catch (before ← management_of c intent;
            _ ← (if dispatch then dispatch_action c intent actionId payload before
                 else mret tt);
            mret false)
       (λ _, mret true)).
Definition fail_unsent (domainId actionId : string) (auth : AuthRequestContext) : Io unit :=
  transaction
    (_ ← change_row domainActions actionId (λ a, a <| da_state := "FAILED" |>);
     action_log auth "DOMAIN_ACTION_NOT_SUBMITTED" domainId (action_metadata actionId [])).
(** The observation proves the outcome of the action. *)
Definition same_names (a b : list string) : bool :=
  String.eqb (json_print (names_json (merge_sort name_before a)))
    (json_print (names_json (merge_sort name_before b))).
Definition DAY_MS : Z := 86400000.
Definition one_year_later (previous later : string) : bool :=
  match date_of previous, date_of later with
  | Some p, Some l => (330 * DAY_MS <=? l - p) && (l - p <=? 370 * DAY_MS)
  | _, _ => false
  end.
Definition outcome_confirmed (payload : ActionPayload) (remoteContactId : option string)
    (observed : ResellbizManagedState) : bool :=
  let m := mst_management observed in
  match apl_request payload with
  | NAMESERVERS names => same_names (mg_nameservers m) names
  | LOCK locked => Bool.eqb (mg_locked m) locked
  | CONTACT _ => match remoteContactId with
                 | Some id => truthy id && forallb (String.eqb id) (mst_contactIds observed)
                 | None => false
                 end
  | RENEW _ _ _ => one_year_later (apl_previousExpiry payload) (mg_expiresAt m)
  end.
(** The last transaction. *)
Definition settle_tx (domainId actionId : string) (request : DomainActionRequest)
    (auth : AuthRequestContext) (projected : DomainManagement) (contact : option DomainContact)
    (confirmed readFailed : bool) : Io unit :=
  _ ← lock_row "domains" domainId;
  _ ← lock_row "domain_actions" actionId;
  latest ← row_or_throw domainActions actionId;
  if String.eqb (da_state latest) "SUCCEEDED" then mret tt
  else
    _ ← store_management domainId projected contact;
    _ ← when confirmed
          (change_row domainActions actionId (λ a, a <| da_state := "SUCCEEDED" |>));
    action_log auth (if confirmed then "DOMAIN_ACTION_CONFIRMED"
                     else "DOMAIN_ACTION_OUTCOME_UNCERTAIN") domainId
      (action_metadata actionId [("kind", JStr (action_kind request));
                                 ("responseUncertain", JBool readFailed)]).
Definition settle (domainId actionId : string) (payload : ActionPayload)
    (auth : AuthRequestContext) (observed : ResellbizManagedState) (readFailed : bool)
    : Io unit :=
  current ← row_or_throw domainActions actionId;
  let confirmed := outcome_confirmed payload (da_remoteContactId current) observed in
  projected ← lift (parse domainManagementSchema
                      (management_json (projection (mst_management observed))));
  transaction (settle_tx domainId actionId (apl_request payload) auth projected
                 (mg_contact (mst_management observed)) confirmed readFailed).
(** Read the outcome, independently of what the mutation answered. *)
Definition observe_action (domainId actionId : string) (c : ManagementContext)
    (payload : ActionPayload) (auth : AuthRequestContext) (readFailed : bool) : Io unit :=
  observed ← catch
    (o ← at_registrar c (management_of c (action_intent c (apl_request payload)));
     mret (Some o))
    (λ _, _ ← action_log auth "DOMAIN_ACTION_READ_UNCERTAIN" domainId
                (action_metadata actionId []);
          mret None);
  match observed with
  | Some o => settle domainId actionId payload auth o readFailed
  | None => mret tt
  end.
Definition unsent (a : DomainAction) : bool :=
  negb (isSome (da_submittedAt a)) && negb (isSome (da_contactClaimedAt a)).
Definition run_action (domainId actionId : string) (c : ManagementContext)
    (payload : ActionPayload) (auth : AuthRequestContext) (dispatch : bool) : Io unit :=
  readFailed ← send_action c actionId payload dispatch;
  failed ← (if dispatch && (readFailed : bool)
            then a ← row_or_throw domainActions actionId; mret (unsent a)
            else mret false);
  if failed : bool then fail_unsent domainId actionId auth
  else observe_action domainId actionId c payload auth readFailed.
Definition execute (domainId actionId confirmation : string) (auth : AuthRequestContext)
    (reconcileOnly : bool) : Io (list ActionView) :=
  _ ← authorize_domains auth;
  found ← read (action_of domainId actionId);
  located ← lift (of_option action_unavailable found);
  c ← managementContext environment domainId auth (Some (da_credentialId located));
  _ ← require (String.eqb confirmation (dom_domainName (mc_domain c))) confirm_domain;
  payload ← lift (payload_of actionId (da_payloadCiphertext located));
  dispatch ← transaction
    (_ ← match da_invoiceId located with Some i => lockDomainInvoice i | None => mret tt end;
     execute_tx domainId actionId (da_accountId located) (mc_orderId c) (apl_request payload)
       auth reconcileOnly);
  _ ← match dispatch with
      | None => mret tt
      | Some dispatch => run_action domainId actionId c payload auth dispatch
      end;
  list_actions domainId auth.

(** ** Other operations *)
Definition authorizationCode (domainId confirmation : string) (auth : AuthRequestContext)
    : Io string :=
  _ ← authorize_domains auth;
  c ← managementContext environment domainId auth None;
  _ ← require (String.eqb confirmation (dom_domainName (mc_domain c))) confirm_domain;
  _ ← reserveManagementRead environment (ra_id (mc_account c)) auth;
  code_ ← catch (at_registrar c (live_authorizationCode (mc_credential c) (mc_intent c) (mc_orderId c)))
    (λ _, throw (conflict "The registrar authorization code is unavailable."));
  _ ← action_log auth "DOMAIN_AUTHORIZATION_CODE_VIEWED" domainId JNull;
  mret code_.
Definition recoverable (a : DomainAction) : bool :=
  String.eqb (da_kind a) "CONTACT" && isSome (da_contactClaimedAt a) &&
  String.eqb (da_state a) "NEEDS_RECONCILIATION".
Definition recover_tx (domainId actionId contactId : string) (auth : AuthRequestContext)
    : Io unit :=
  _ ← change_row domainActions actionId (λ a, a <| da_remoteContactId := Some contactId |>);
  action_log auth "DOMAIN_CONTACT_RECOVERY_VERIFIED" domainId (action_metadata actionId []).
Definition recoverContact (domainId actionId contactId confirmation : string)
    (auth : AuthRequestContext) : Io (list ActionView) :=
  _ ← authorize_domains auth;
  found ← read (action_of domainId actionId);
  action ← lift (of_option
    (conflict "Only an unresolved claimed contact creation can use read-only recovery.")
    (a ← found; if recoverable a then Some a else None));
  c ← managementContext environment domainId auth (Some (da_credentialId action));
  _ ← require (String.eqb confirmation (dom_domainName (mc_domain c))) confirm_domain;
  _ ← require match da_remoteContactId action with
              | Some id => negb (truthy id) || String.eqb id contactId | None => true end
        (conflict "A different immutable contact is already verified.");
  payload ← lift (payload_of actionId (da_payloadCiphertext action));
  contact ← lift (of_option (conflict "Contact intent is unavailable.")
    match apl_request payload with CONTACT k => Some k | _ => None end);
  _ ← reserveManagementRead environment (da_accountId action) auth;
  _ ← catch (at_registrar c (verifyReplacementContact (mc_credential c)
               (with_registrant (mc_intent c) contact) contactId))
        (λ _, throw (conflict
          "Replacement contact ownership or snapshot could not be verified. No mutation was sent."));
  _ ← transaction (recover_tx domainId actionId contactId auth);
  list_actions domainId auth.
Definition unpaid_invoice (invoice : Invoice) (d : Db) : bool :=
  ((inv_status invoice ==b InvoiceStatus.DRAFT) || (inv_status invoice ==b InvoiceStatus.UNPAID) ||
   (inv_status invoice ==b InvoiceStatus.OVERDUE)) && (inv_amountPaid invoice =? 0) &&
  bool_decide (rows (λ p, String.eqb (pay_invoiceId p) (inv_id invoice)) (payments d) = []).
Definition cancel_renewal (invoiceId : string) : Io unit :=
  invoice ← row_or_throw invoices invoiceId;
  unpaid ← read (unpaid_invoice invoice);
  _ ← require unpaid (conflict
        "A renewal with payment history requires financial review; it cannot be cancelled here.");
  update_invoice (inv_id invoice) (λ i, i <| inv_status := InvoiceStatus.CANCELLED |>).
Definition cancel_tx (domainId actionId : string) (auth : AuthRequestContext) : Io unit :=
  _ ← lock_row "domains" domainId;
  _ ← lock_row "domain_actions" actionId;
  action ← row_or_throw domainActions actionId;
  if String.eqb (da_state action) "CANCELLED" then mret tt
  else
    _ ← require (negb (isSome (da_claimedAt action)) &&
                 String.eqb (da_state action) "REQUESTED")
          (conflict "A claimed registrar action cannot be cancelled. Reconcile its outcome.");
    _ ← match da_invoiceId action with
        | Some i => cancel_renewal i | None => mret tt end;
    _ ← change_row domainActions actionId (λ a, a <| da_state := "CANCELLED" |>);
    action_log auth "UNSENT_DOMAIN_ACTION_CANCELLED" domainId (action_metadata actionId []).
Definition cancelUnsent (domainId actionId confirmation : string) (auth : AuthRequestContext)
    : Io (list ActionView) :=
  _ ← authorize_domains auth;
  _ ← detail domainId auth None;
  domain ← row_or_throw domains domainId;
  _ ← require (String.eqb confirmation (dom_domainName domain)) confirm_domain;
  found ← read (action_of domainId actionId);
  located ← lift (of_option action_unavailable found);
  _ ← transaction
        (_ ← match da_invoiceId located with
             | Some i => lockDomainInvoice i | None => mret tt end;
         cancel_tx domainId actionId auth);
  list_actions domainId auth.
End lifecycle.
