(* ===== verification/ExistingDomains.v ===== *)
(** * Existing domains, domains in orders, and the inventory

    apps/api/src/modules/domains/existing-domain-link.service.ts,
    apps/api/src/modules/orders/admin-order-domain.service.ts and
    apps/api/src/modules/domains/domain-inventory.service.ts; the domain services
    the order service asks for. *)
From stdpp Require Import sorting.
From S2P Require Import Prelude JsString JsDate Json Money States AuthTables DomainTables Database InvoiceNumber InvoiceTotals Invoices Payments Gateways GatewayAdapters Orders HostingPanels DomainContracts PanelOperations JsonText Totp Authentication Registrar Resellbiz RegistrarProcessor DomainAdministration Domains DomainSales DomainManagement DomainLifecycle.

Section existing.
Context `{ZodFormats} `{ZodUrl} `{UrlParser} `{ZodIso} `{Sha256} `{DateParser}
  `{RegistrarCrypto} `{ResellbizTransport} `{RegistrarRandom} `{JsNumber}
  (environment : DomainEnvironment).

(** ** Linking a domain that exists at the registrar *)
Definition eligibleCustomer (id : string) : Io unit :=
  c ← read (λ d, customers d !! id);
  require (eligible_owner true c) (conflict "Select an active, email-verified client.").
Definition same_link (input : ExistingDomainLinkRequest) (r : Domain) : bool :=
  String.eqb (dom_origin r) "EXISTING" && String.eqb (dom_customerId r) (lk_customerId input) &&
  String.eqb (dom_accountId r) (lk_registrarAccountId input).
Definition link_account (input : ExistingDomainLinkRequest) : Io RegistrarAccount :=
  found ← read (λ d, registrarAccounts d !! lk_registrarAccountId input);
  lift (of_option
    (conflict "The selected registrar connection is disabled or unavailable.")
    (a ← found;
     if String.eqb (ra_provider a) "stargate" && is_live a && ra_enabled a
     then Some a else None)).
Definition link_credential (account : RegistrarAccount)
    : Io (RegistrarCredential * ResellbizCredential) :=
  found ← read (latest_credential (ra_id account) None);
  credential ← lift (of_option
    (conflict "The selected registrar credential is unavailable.") found);
  clear ← lift (registrar_decrypt
    (credentialBinding (ra_id account) (rc_version credential) "LIVE")
    (rc_ciphertext credential));
  payload ← lift (parse resellbizCredentialSchema clear);
  reseller ← lift (registrarIdentity (ra_configuration account));
  _ ← require (String.eqb (rz_resellerId payload) reseller)
        (conflict "Registrar credential ownership changed.");
  mret (credential, payload).
Definition no_longer_eligible : exn :=
  domain_denied "The approving administrator is no longer eligible.".
Definition existing_record : exn := conflict "This domain already has a client record.".
(** The registrar account and its credential are as they were verified. *)
Definition settings_unchanged (account current : RegistrarAccount)
    (credential : RegistrarCredential) (latest : option RegistrarCredential) : bool :=
  ra_enabled current && String.eqb (ra_mode current) (ra_mode account) &&
  String.eqb (ra_provider current) (ra_provider account) &&
  String.eqb (json_print (ra_configuration current)) (json_print (ra_configuration account)) &&
  bool_decide ((rc_id <$> latest) = Some (rc_id credential)).
(** [JSON] of the state without the contact, in the order it is written. *)
Definition linked_snapshot (m : DomainManagement) : json :=
  JObj [("nameservers", names_json (mg_nameservers m)); ("locked", JBool (mg_locked m));
        ("verification", JStr (mg_verification m)); ("expiresAt", JStr (mg_expiresAt m));
        ("observedAt", JStr (mg_observedAt m))].
Definition date_or_throw (text : string) : Io Z :=
  lift (of_option (RangeError "Invalid Date") (date_of text)).
Definition create_link (id : string) (input : ExistingDomainLinkRequest)
    (auth : AuthRequestContext) (account : RegistrarAccount) (credential : RegistrarCredential)
    (observed : ResellbizManagedState) (proof : LinkEvidence) : Io string :=
  let m := mst_management observed in
  expiry ← date_or_throw (mg_expiresAt m);
  verified ← date_or_throw (mg_observedAt m);
  evidence ← registrar_encrypt (link_binding id) (evidence_json proof);
  contact ← registrar_encrypt (current_contact_binding id) (contact_json (le_contact proof));
  created ← new_date;
  _ ← create_domain (MkDomain id None (lk_customerId input) (ra_id account) (Some (ra_id account))
        None None "EXISTING" (Some (rc_id credential)) (Some evidence) (Some verified)
        (lk_domainName input) (lk_submissionKey input) "REGISTERED" (mg_verification m)
        (Some (mst_orderId observed)) (Some expiry) (linked_snapshot m) (Some contact) created);
  _ ← domain_log auth "EXISTING_DOMAIN_LINKED" "DOMAIN" id
        (JObj [("customerId", JStr (lk_customerId input)); ("accountId", JStr (ra_id account));
               ("credentialId", JStr (rc_id credential))]);
  mret id.
Definition link_tx (id : string) (input : ExistingDomainLinkRequest) (auth : AuthRequestContext)
    (account : RegistrarAccount) (credential : RegistrarCredential)
    (observed : ResellbizManagedState) (proof : LinkEvidence) : Io string :=
  _ ← lock_domains;
  _ ← lock_row "users" (auth_userId auth);
  actor ← read (user_by_id (auth_userId auth));
  _ ← require (approving_administrator actor) no_longer_eligible;
  now ← new_date;
  _ ← require (negb (date_le (mg_expiresAt (mst_management observed)) now))
        (conflict "The domain expired during verification. No domain was linked.");
  _ ← lock_row "registrar_accounts" (ra_id account);
  owner ← read (λ d, customers d !! lk_customerId input);
  _ ← match owner with
      | Some c => lock_row "users" (usr_id c) | None => mret tt end;
  _ ← lock_row "customers" (lk_customerId input);
  current ← row_or_throw registrarAccounts (ra_id account);
  latest ← read (latest_credential (ra_id account) None);
  _ ← require (settings_unchanged account current credential latest)
        (conflict "Registrar settings changed during verification. Check the domain again.");
  _ ← eligibleCustomer (lk_customerId input);
  duplicate ← read (λ d, find_unique (domains d) dom_domainName (lk_domainName input));
  match duplicate with
  | Some r =>
      _ ← require (same_link input r &&
                   String.eqb (dom_submissionKey r) (lk_submissionKey input)) existing_record;
      mret (dom_id r)
  | None => create_link id input auth account credential observed proof
  end.
(** [existingDomainLinkEvidenceSchema.parse] of what was inspected. *)
Definition link_proof (x : ExistingInspection) : result LinkEvidence :=
  let m := mst_management (xi_observed x) in
  parse existingDomainLinkEvidenceSchema
    (JObj [("remoteCustomerId", JStr (xi_remoteCustomerId x));
           ("remoteContactId", JStr (xi_remoteContactId x));
           ("contact", match mg_contact m with Some c => contact_json c | None => JUndefined end);
           ("nameservers", names_json (mg_nameservers m))]).
Definition link_new (input : ExistingDomainLinkRequest) (auth : AuthRequestContext) : Io string :=
  _ ← require (de_liveEnabled environment)
        (unavailable "Live registrar networking is disabled. No domain was linked.");
  account ← link_account input;
  _ ← eligibleCustomer (lk_customerId input);
  taken ← read (λ d, find_unique (domains d) dom_domainName (lk_domainName input));
  _ ← require (negb (isSome taken)) existing_record;
  '(credential, payload) ← link_credential account;
  _ ← reserveManagementRead environment (ra_id account) auth;
  x ← catch (session None (inspectExisting payload (ra_id account) (lk_customerId input)
                             (lk_domainName input)))
    (λ _, throw (conflict "Active domain ownership could not be verified in this registrar account. No domain was linked or purchased."));
  id ← random_uuid;
  proof ← lift (link_proof x);
  catch (transaction (link_tx id input auth account credential (xi_observed x) proof))
    (λ error, if is_unique_violation error
       then throw (conflict "This domain or submission already has a client record. Refresh saved records.")
       else throw error).
Definition link (raw : json) (auth : AuthRequestContext) : Io DomainDetail :=
  _ ← authorize_domains auth;
  input ← lift (parse existingDomainLinkRequestSchema raw);
  prior ← read (λ d, find_unique (domains d) dom_submissionKey (lk_submissionKey input));
  id ← match prior with
       | Some r =>
           _ ← require (same_link input r &&
                        String.eqb (dom_domainName r) (lk_domainName input))
                 (conflict "This submission key belongs to another request.");
           mret (dom_id r)
       | None => link_new input auth
       end;
  detail id auth (Some (lk_customerId input)).

(** ** The domains of an administrator's order *)
Definition lock_actor (id : string) : Io unit :=
  _ ← lock_row "users" id;
  actor ← read (user_by_id id);
  require (approving_administrator actor) no_longer_eligible.
(** [priceWhere]: an annual price in taka of an open domain product. *)
Definition priceWhere (now : Z) (p : ProductPrice) : bool :=
  negb (isSome (pp_deletedAt p)) && domain_price p &&
  (pp_billingPeriod p ==b BillingPeriod.ANNUAL) && price_valid now p &&
  (pr_status p ==b ACTIVE) && negb (isSome (pr_deletedAt p)).
Definition selectable (customerId : string) (now : Z) (r : Domain) : bool :=
  String.eqb (dom_customerId r) customerId && String.eqb (dom_origin r) "EXISTING" &&
  String.eqb (dom_state r) "REGISTERED" && isSome (dom_ownershipVerifiedAt r) &&
  match dom_expiresAt r with Some t => now <? t | None => false end.
Definition priced_tld (priceId tld : string) (t : DomainCatalogueTld) : bool :=
  dct_enabled t && bool_decide (dct_registrationPriceId t = Some priceId) &&
  String.eqb (dct_tld t) tld.
Definition catalogue_price (priceId domainName : string) (now : Z) : Io ProductPrice :=
  extension ← lift (domainExtension domainName);
  tld ← read (λ d, head (rows (priced_tld priceId extension) (domainCatalogue d)));
  found ← read (λ d, productPrices d !! priceId);
  lift (of_option
    (conflict "The annual domain catalogue price is unavailable. Refresh the selection.")
    (t ← tld; p ← found;
     if priceWhere now p && String.eqb (pp_productId p) (dct_productId t)
     then Some p else None)).
Definition existing_selection (domainId priceId customerId domainName : string)
    : Io ExistingSelection :=
  _ ← lock_domains;
  _ ← lock_row "domains" domainId;
  found ← read (λ d, domains d !! domainId);
  now ← new_date;
  domain ← lift (of_option
    (conflict "Select this client’s unexpired, ownership-verified existing domain. No registration was sent.")
    (r ← found;
     if selectable customerId now r && String.eqb (dom_domainName r) domainName &&
        match dom_linkEvidenceCiphertext r with Some c => truthy c | None => false end
     then Some r else None));
  bound ← read (λ d, existingDomainOrders d !! domainId);
  _ ← require (negb (isSome bound))
        (conflict "This existing domain already has an initial billing order.");
  customer ← read (λ d, customers d !! customerId);
  _ ← require match customer with Some c => isSome (usr_emailVerifiedAt c) | None => false end
        (conflict "Verify the client email before creating a domain order.");
  price ← catalogue_price priceId domainName now;
  mret (MkSelection (dom_id domain) price).
(** What an administrator may choose. *)
Record OrderPriceOption := MkPriceOption
  { pop_tld : string; pop_priceId : string; pop_name : string; pop_amount : SerializedMoney }.
Record OrderDomainOption := MkDomainOption
  { dop_id : string; dop_domainName : string; dop_ownershipVerifiedAt : string;
    dop_expiresAt : string }.
Record AdminOrderDomainOptions := MkOrderOptions
  { aoo_customerId : string; aoo_prices : list OrderPriceOption;
    aoo_domains : list OrderDomainOption }.
Definition adminOrderDomainOptionsSchema (v : AdminOrderDomainOptions) : bool :=
  zod_uuid (aoo_customerId v) &&
  forallb (λ p, text 1 50 (pop_tld p) && zod_uuid (pop_priceId p) && text 1 160 (pop_name p))
    (aoo_prices v) && (Z.of_nat (length (aoo_prices v)) <=? 100) &&
  forallb (λ r, zod_uuid (dop_id r) && isSome (requestedDomainSchema (JStr (dop_domainName r))) &&
                zod_iso (dop_ownershipVerifiedAt r) && zod_iso (dop_expiresAt r))
    (aoo_domains v) && (Z.of_nat (length (aoo_domains v)) <=? 100).
Definition by_display (a b : DomainCatalogueTld) : Prop := dct_displayOrder a <= dct_displayOrder b.
#[local] Instance by_display_dec : RelDecision by_display.
Proof. intros a b. unfold by_display. apply _. Defined.
Definition newest_first (a b : Domain) : Prop := dom_createdAt b <= dom_createdAt a.
#[local] Instance newest_first_dec : RelDecision newest_first.
Proof. intros a b. unfold newest_first. apply _. Defined.
Definition price_option (now : Z) (t : DomainCatalogueTld) : Io (list OrderPriceOption) :=
  found ← read (λ d, id ← dct_registrationPriceId t; productPrices d !! id);
  match found with
  | Some p =>
      if priceWhere now p && String.eqb (pp_productId p) (dct_productId t)
      then amount ← lift (serializeMoney (pp_amount p) (pp_currency p));
           mret [MkPriceOption (dct_tld t) (pp_id p) (pr_name p) amount]
      else mret []
  | None => mret []
  end.
Definition domain_option (r : Domain) : OrderDomainOption :=
  MkDomainOption (dom_id r) (dom_domainName r)
    (to_ISO_string (default 0 (dom_ownershipVerifiedAt r)))
    (to_ISO_string (default 0 (dom_expiresAt r))).
(** The domain has an initial billing order of the customer. *)
Definition bound_to (customerId domainId : string) (d : Db) : bool :=
  match existingDomainOrders d !! domainId with
  | Some b => String.eqb (edo_customerId b) customerId
  | None => false
  end.
Definition order_options (customerId : string) (actor : OrderActor) : Io AdminOrderDomainOptions :=
  _ ← authorize actor;
  customer ← read (λ d, customers d !! customerId);
  _ ← require (eligible_owner true customer)
        (conflict "Select an active, email-verified client.");
  now ← new_date;
  tlds ← read (λ d, take 100 (merge_sort by_display
            (rows (λ t, dct_enabled t && isSome (dct_registrationPriceId t))
               (domainCatalogue d))));
  prices ← fold_each (λ l t, p ← price_option now t; mret (l ++ p)) [] tlds;
  found ← read (λ d, take 100 (merge_sort newest_first
            (rows (λ r, selectable customerId now r &&
                        negb (bound_to customerId (dom_id r) d)) (domains d))));
  let v := MkOrderOptions customerId prices (domain_option <$> found) in
  _ ← require (adminOrderDomainOptionsSchema v) ZodError;
  mret v.

(** ** What the order service asks for *)
Definition order_quote (q : DomainQuote * ProductPrice * RegistrarAccount) : OrderQuote :=
  let '(quote, price, account) := q in
  MkOrderQuote (quo_id quote) (ra_id account) (quo_domainName quote) (quo_sellingAmount quote)
    price (is_live account).
#[export] Instance order_domain_services : DomainServices :=
  Build_DomainServices lock_actor
    (λ quoteId customerId domainName assisted,
      r ← quote_for_hosting_order environment quoteId customerId domainName assisted;
      mret (order_quote r))
    existing_selection.

(** ** The inventory *)
Record InventoryRow := MkInventoryRow
  { inr_id : string; inr_domainName : string; inr_customerId : string;
    inr_customerName : string; inr_customerNumber : string; inr_customerEmail : string;
    inr_companyName : option string; inr_state : string; inr_origin : string;
    inr_registrar : string; inr_simulated : bool; inr_requestedAt : Z;
    inr_expiresAt : option Z; inr_invoice : option (string * InvoiceStatus * Z);
    inr_currency : string }.
Definition inventory_invoice (d : Db) (r : Domain) : option Invoice :=
  id ← match dom_invoiceId r with
       | Some i => Some i | None => edo_invoiceId <$> existingDomainOrders d !! dom_id r end;
  invoices d !! id.
Definition inventory_state (invoice : option Invoice) (r : Domain) : string :=
  match invoice with Some i => shown_state r i | None => dom_state r end.
(** A domain joined with its customer and its account. *)
Definition inventory_row (d : Db) (r : Domain) : option InventoryRow :=
  c ← customers d !! dom_customerId r;
  a ← registrarAccounts d !! default (dom_accountId r) (dom_executionAccountId r);
  let invoice := inventory_invoice d r in
  let registrar := match registrarProfiles d !! ra_id a with
                   | Some p => rpf_name p
                   | None => if is_fake a then "Simulated registrar" else default_name end in
  Some (MkInventoryRow (dom_id r) (dom_domainName r) (dom_customerId r)
    (cus_firstName c ++ " " ++ cus_lastName c)%string (cus_customerNumber c) (usr_email c)
    (cus_companyName c) (inventory_state invoice r) (dom_origin r) registrar (is_fake a)
    (dom_createdAt r) (dom_expiresAt r)
    ((λ i, (inv_id i, inv_status i, inv_balanceDue i)) <$> invoice)
    (default "BDT" (inv_currency <$> invoice))).
(** [strpos(lower(field), lower(search)) > 0]. *)
Definition occurs (search field : string) : bool :=
  isSome (String.index 0 (js_lower search) (js_lower field)).
Definition filter_opt {A} (p : A → bool) (o : option A) : bool :=
  match o with Some a => p a | None => true end.
Definition inventory_matches (q : DomainInventoryQuery) (r : InventoryRow) : bool :=
  filter_opt (λ c, String.eqb (inr_customerId r) (js_lower c)) (iq_customerId q) &&
  filter_opt (String.eqb (inr_state r)) (iq_state q) &&
  filter_opt (String.eqb (inr_origin r)) (iq_origin q) &&
  filter_opt (λ s, negb (truthy s) ||
    existsb (occurs s) [inr_domainName r; inr_customerName r; inr_customerEmail r;
                        inr_customerNumber r; default "" (inr_companyName r)]) (iq_search q).
Definition inventory_before (a b : InventoryRow) : Prop :=
  inr_requestedAt b < inr_requestedAt a ∨
  (inr_requestedAt a = inr_requestedAt b ∧ String.leb (inr_id b) (inr_id a) = true).
#[local] Instance inventory_before_dec : RelDecision inventory_before.
Proof. intros a b. unfold inventory_before. apply _. Defined.
Definition inventory (q : DomainInventoryQuery) (d : Db) : list InventoryRow :=
  List.filter (inventory_matches q) (omap (inventory_row d) (every (domains d))).
Definition inventory_row_ok (r : InventoryRow) : bool :=
  zod_uuid (inr_id r) && isSome (domainNameSchema (JStr (inr_domainName r))) &&
  zod_uuid (inr_customerId r) && text 1 201 (inr_customerName r) &&
  text 1 32 (inr_customerNumber r) && zod_email (inr_customerEmail r) &&
  (slen (inr_customerEmail r) <=? 320) &&
  filter_opt (λ s, slen s <=? 200) (inr_companyName r) &&
  existsb (String.eqb (inr_state r)) domainStates &&
  existsb (String.eqb (inr_origin r)) ["REGISTRATION"; "EXISTING"] &&
  text 1 100 (inr_registrar r) && zod_iso (to_ISO_string (inr_requestedAt r)) &&
  filter_opt (λ t, zod_iso (to_ISO_string t)) (inr_expiresAt r) &&
  filter_opt (λ i, zod_uuid i.1.1 && amount_text (Z_to_string i.2)) (inr_invoice r) &&
  String.eqb (inr_currency r) "BDT".
Record Inventory := MkInventory
  { iv_data : list InventoryRow; iv_pagination : PaginationMeta;
    iv_summary : list (string * Z) }.
(** How many rows are in each state. *)
Definition state_count (rows_ : list InventoryRow) (state : string) : Z :=
  Z.of_nat (length (List.filter (λ r, String.eqb (inr_state r) state) rows_)).
Definition state_counts (rows_ : list InventoryRow) : list (string * Z) :=
  (λ s, (s, state_count rows_ s)) <$> domainStates.
Definition inventory_page (q : DomainInventoryQuery) (found : list InventoryRow)
    : list InventoryRow :=
  take (Z.to_nat (iq_pageSize q))
    (drop (Z.to_nat ((iq_page q - 1) * iq_pageSize q)) (merge_sort inventory_before found)).
Definition list_inventory (raw : json) (auth : AuthRequestContext) : Io Inventory :=
  _ ← require match auth_identity auth with
              | Administrator _ _ _ _ role _ => bool_decide (role = StaffRole.FULL_ADMINISTRATOR)
              | _ => false end (domain_denied "The domain inventory is unavailable.");
  q ← lift (parse domainInventoryQuerySchema raw);
  found ← read (inventory q);
  _ ← require (forallb (λ r, existsb (String.eqb (inr_state r)) domainStates) found)
        (JsError "Unknown stored domain state.");
  let summary := state_counts found in
  let page := inventory_page q found in
  _ ← require (forallb inventory_row_ok page) ZodError;
  meta ← lift (createPaginationMeta (iq_page q) (iq_pageSize q)
                 (sum_of snd summary));
  mret (MkInventory page meta summary).
End existing.
