(* ===== verification/DomainProtocol.v ===== *)
(** * The protocol of registrar mutations

    An abstract machine for what may be sent to a registrar: registrations with the
    state of their domains, and actions on domains.  Its invariant says that an
    account has at most one mutation without a known outcome, its traces that a
    mutation is sent at most once. *)
From S2P Require Import Prelude.

Definition settled (state : string) : bool :=
  existsb (String.eqb state) ["REGISTERED"; "FAILED"].
Definition final (state : string) : bool :=
  existsb (String.eqb state) ["SUCCEEDED"; "CANCELLED"; "FAILED"].

(** ** The state *)
Record Registration := MkRegistration
  { rg_domain : string; rg_account : string; rg_claimed : bool }.
Record Mutation := MkMutation
  { mu_account : string; mu_claimed : bool; mu_submitted : bool; mu_state : string }.
Record View := MkView
  { v_registrations : gmap string Registration; v_mutations : gmap string Mutation;
    v_domains : gmap string string }.
#[export] Instance Registration_rebuild : Rebuild Registration := λ r,
  MkRegistration (rg_domain r) (rg_account r) (rg_claimed r).
#[export] Instance Mutation_rebuild : Rebuild Mutation := λ m,
  MkMutation (mu_account m) (mu_claimed m) (mu_submitted m) (mu_state m).
#[export] Instance View_rebuild : Rebuild View := λ v,
  MkView (v_registrations v) (v_mutations v) (v_domains v).

(** What is without a known outcome at an account. *)
Inductive Pending := RegistrationOf (id : string) | MutationOf (id : string).
Inductive pending (v : View) (account : string) : Pending → Prop :=
| pending_registration id r s :
    v_registrations v !! id = Some r → rg_claimed r = true → rg_account r = account →
    v_domains v !! rg_domain r = Some s → settled s = false →
    pending v account (RegistrationOf id)
| pending_mutation id m :
    v_mutations v !! id = Some m → mu_claimed m = true → mu_account m = account →
    final (mu_state m) = false → pending v account (MutationOf id).
(** Nothing of the account is pending, but for what is excepted. *)
Definition idle (v : View) (account : string) (except : Pending) : Prop :=
  ∀ p, pending v account p → p = except.
Definition unclaimed_domain (v : View) (domain : string) : Prop :=
  ∀ id r, v_registrations v !! id = Some r → rg_domain r = domain → rg_claimed r = false.

(** ** Steps *)
Inductive Event :=
| Dispatched (operation : string)
| ActionClaimed (action : string)
| Submitted (action : string).
Inductive protocol_step : View → list Event → View → Prop :=
| step_quiet v domains :
    v_domains v ⊆ domains → protocol_step v [] (v <| v_domains := domains |>)
| step_domain v id s s' :
    v_domains v !! id = Some s → settled s = false ∨ unclaimed_domain v id →
    protocol_step v [] (v <| v_domains := <[id := s']> (v_domains v) |>)
| step_propose v id r :
    v_registrations v !! id = None → rg_claimed r = false →
    is_Some (v_domains v !! rg_domain r) →
    (∀ i r', v_registrations v !! i = Some r' → rg_domain r' ≠ rg_domain r) →
    protocol_step v [] (v <| v_registrations := <[id := r]> (v_registrations v) |>)
| step_dispatch v id r :
    v_registrations v !! id = Some r → rg_claimed r = false →
    idle v (rg_account r) (RegistrationOf id) →
    protocol_step v [Dispatched id]
      (v <| v_registrations := <[id := r <| rg_claimed := true |>]> (v_registrations v) |>)
| step_request v id m :
    v_mutations v !! id = None → mu_claimed m = false → mu_submitted m = false →
    mu_state m = "REQUESTED" →
    protocol_step v [] (v <| v_mutations := <[id := m]> (v_mutations v) |>)
| step_claim v id m :
    v_mutations v !! id = Some m → final (mu_state m) = false →
    mu_claimed m = true ∨ idle v (mu_account m) (MutationOf id) →
    protocol_step v [ActionClaimed id]
      (v <| v_mutations := <[id := m <| mu_claimed := true |>
                                     <| mu_state := "NEEDS_RECONCILIATION" |>]>
              (v_mutations v) |>)
| step_submit v id m :
    v_mutations v !! id = Some m → mu_submitted m = false →
    mu_state m = "NEEDS_RECONCILIATION" →
    protocol_step v [Submitted id]
      (v <| v_mutations := <[id := m <| mu_submitted := true |>]> (v_mutations v) |>)
| step_finish v id m s :
    v_mutations v !! id = Some m → mu_claimed m = true → s = "SUCCEEDED" ∨ s = "FAILED" →
    protocol_step v []
      (v <| v_mutations := <[id := m <| mu_state := s |>]> (v_mutations v) |>)
| step_cancel v id m :
    v_mutations v !! id = Some m → mu_claimed m = false → mu_state m = "REQUESTED" →
    protocol_step v []
      (v <| v_mutations := <[id := m <| mu_state := "CANCELLED" |>]> (v_mutations v) |>).
Inductive protocol_run : View → list Event → View → Prop :=
| run_done v : protocol_run v [] v
| run_more v es v' es' v'' :
    protocol_step v es v' → protocol_run v' es' v'' → protocol_run v (es ++ es') v''.

(** ** The invariant *)
Record protocol_ok (v : View) : Prop := MkProtocolOk
  { ok_unique : ∀ i j r r', v_registrations v !! i = Some r → v_registrations v !! j = Some r' →
      rg_domain r = rg_domain r' → i = j;
    ok_domain : ∀ i r, v_registrations v !! i = Some r → is_Some (v_domains v !! rg_domain r);
    ok_exclusive : ∀ account p q, pending v account p → pending v account q → p = q;
    ok_claimed : ∀ i m, v_mutations v !! i = Some m →
      mu_state m = "NEEDS_RECONCILIATION" ∨ mu_submitted m = true → mu_claimed m = true;
    ok_cancelled : ∀ i m, v_mutations v !! i = Some m → mu_state m = "CANCELLED" →
      mu_claimed m = false }.

(** What is pending afterwards was pending before, but for the new claim. *)
Lemma exclusive_narrows v v' :
  (∀ account p, pending v' account p → pending v account p) →
  (∀ account p q, pending v account p → pending v account q → p = q) →
  ∀ account p q, pending v' account p → pending v' account q → p = q.
Proof. intros H E a p q Hp Hq. by eapply E; apply H. Qed.
Lemma exclusive_claim v v' account new :
  (∀ a p, pending v' a p → pending v a p ∨ (a = account ∧ p = new)) →
  idle v account new →
  (∀ a p q, pending v a p → pending v a q → p = q) →
  ∀ a p q, pending v' a p → pending v' a q → p = q.
Proof.
  intros H I E a p q Hp Hq.
  destruct (H _ _ Hp) as [Hp'|[-> ->]], (H _ _ Hq) as [Hq'|[? ->]]; subst;
    [by eapply E|by apply I|symmetry; by apply I|done].
Qed.
Lemma settled_cases s : {settled s = true} + {settled s = false}.
Proof. destruct (settled s); auto. Qed.
Lemma pending_quiet v domains account p :
  protocol_ok v → v_domains v ⊆ domains →
  pending (v <| v_domains := domains |>) account p → pending v account p.
Proof.
  intros Hok Hsub. inversion 1 as [id r s Hr Hc Ha Hd Hs|]; subst; simpl in *.
  - destruct (ok_domain v Hok id r Hr) as [s' Hs'].
    rewrite (lookup_weaken _ _ _ _ Hs' Hsub) in Hd. simplify_eq.
    by econstructor.
  - by econstructor.
Qed.
Lemma pending_domain v id s s' account p :
  v_domains v !! id = Some s → settled s = false ∨ unclaimed_domain v id →
  pending (v <| v_domains := <[id := s']> (v_domains v) |>) account p → pending v account p.
Proof.
  intros Hid Hs. inversion 1 as [i r t Hr Hc Ha Hd Ht|]; subst; simpl in *; [|by econstructor].
  apply lookup_insert_Some in Hd as [[-> ->]|[? Hd]]; [|by econstructor].
  destruct Hs as [Hs|Hu]; [by econstructor|]. rewrite (Hu i r) in Hc; done.
Qed.
Lemma pending_mutations v id m account p :
  (mu_claimed m = true → final (mu_state m) = false →
   pending v (mu_account m) (MutationOf id)) →
  pending (v <| v_mutations := <[id := m]> (v_mutations v) |>) account p → pending v account p.
Proof.
  intros Hm. inversion 1 as [|i m' Hi Hc Ha Hf]; subst; simpl in *; [by econstructor|].
  apply lookup_insert_Some in Hi as [[-> ->]|[? Hi]]; [by apply Hm|by econstructor].
Qed.
Lemma pending_registrations v id r account p :
  rg_claimed r = false →
  pending (v <| v_registrations := <[id := r]> (v_registrations v) |>) account p →
  pending v account p.
Proof.
  intros Hr. inversion 1 as [i r' s Hi Hc Ha Hd Hs|]; subst; simpl in *; [|by econstructor].
  apply lookup_insert_Some in Hi as [[-> ->]|[? Hi]]; [congruence|by econstructor].
Qed.
Lemma pending_dispatch v id r account p :
  pending (v <| v_registrations := <[id := r]> (v_registrations v) |>) account p →
  pending v account p ∨ (account = rg_account r ∧ p = RegistrationOf id).
Proof.
  inversion 1 as [i r' s Hi Hc Ha Hd Hs|]; subst; simpl in *; [|left; by econstructor].
  apply lookup_insert_Some in Hi as [[-> ->]|[? Hi]]; [by right|left; by econstructor].
Qed.
Lemma pending_claim v id m account p :
  pending (v <| v_mutations := <[id := m]> (v_mutations v) |>) account p →
  pending v account p ∨ (account = mu_account m ∧ p = MutationOf id).
Proof.
  inversion 1 as [|i m' Hi Hc Ha Hf]; subst; simpl in *; [left; by econstructor|].
  apply lookup_insert_Some in Hi as [[-> ->]|[? Hi]]; [by right|left; by econstructor].
Qed.
(** An account has at most one mutation without a known outcome. *)
Lemma step_exclusive v es v' :
  protocol_ok v → protocol_step v es v' →
  ∀ account p q, pending v' account p → pending v' account q → p = q.
Proof.
  intros Hok. pose proof (ok_exclusive v Hok) as E.
  inversion 1 as [? ds Hsub|? id s s' Hid Hs|? id r ? Hc|? id r Hr Hc Hi|? id m ? Hc|
    ? id m Hm Hf Hc|? id m Hm|? id m s Hm Hc Hs|? id m Hm Hc]; subst.
  - eapply exclusive_narrows, E. intros ??. by apply pending_quiet.
  - eapply exclusive_narrows, E. intros ??. by eapply pending_domain.
  - eapply exclusive_narrows, E. intros ??. by apply pending_registrations.
  - eapply exclusive_claim, E; [|exact Hi]. intros ???.
    by apply pending_dispatch in H0.
  - eapply exclusive_narrows, E. intros ??. apply pending_mutations. congruence.
  - destruct Hc as [Hc|Hi].
    + eapply exclusive_narrows, E. intros ??. apply pending_mutations. simpl. by econstructor.
    + eapply exclusive_claim, E; [|exact Hi]. intros ???.
      by apply pending_claim in H0.
  - eapply exclusive_narrows, E. intros ??. apply pending_mutations. simpl. by econstructor.
  - eapply exclusive_narrows, E. intros ??. apply pending_mutations. simpl.
    intros _. destruct Hs as [-> | ->]; done.
  - eapply exclusive_narrows, E. intros ??. apply pending_mutations. simpl. done.
Qed.
Lemma protocol_step_ok v es v' : protocol_ok v → protocol_step v es v' → protocol_ok v'.
Proof.
  intros Hok Hst. pose proof (step_exclusive v es v' Hok Hst) as E.
  destruct Hok as [U D _ C N].
  split; [| |exact E| |]; clear E; destruct Hst as [? ds Hsub|? id s s' Hid Hs|
    ? id r Hn Hc Hd Hu|? id r Hr Hc Hi|? id m Hn Hc Hsb Hst|? id m Hm Hf Hc|? id m Hm Hsb Hst|
    ? id m s Hm Hc Hs|? id m Hm Hc Hst]; simpl in *; try done.
  (* each domain has one registration *)
  - intros i j x y Hx Hy. apply lookup_insert_Some in Hx as [[? ?]|[? Hx]],
      Hy as [[? ?]|[? Hy]]; subst; try done; [| |by eapply U];
      intros Heq; by edestruct Hu.
  - intros i j x y Hx Hy. apply lookup_insert_Some in Hx as [[? ?]|[? Hx]],
      Hy as [[? ?]|[? Hy]]; subst; simpl; eauto.
  (* and the domain of a registration exists *)
  - intros i r Hr. destruct (D i r Hr) as [s Hs]. exists s. by eapply lookup_weaken.
  - intros i r Hr. destruct (D i r Hr) as [t Ht].
    destruct (decide (id = rg_domain r)) as [->|]; [by simplify_map_eq|].
    exists t. by rewrite lookup_insert_ne.
  - intros i x [[? ?]|[? Hx]]%lookup_insert_Some; subst; eauto.
  - intros i x [[? ?]|[? Hx]]%lookup_insert_Some; subst; simpl; eauto.
  (* what was sent was claimed *)
  - intros i x [[? ?]|[? Hx]]%lookup_insert_Some; subst; [|by eauto]. rewrite Hst, Hsb. naive_solver.
  - intros i x [[? ?]|[? Hx]]%lookup_insert_Some; subst; [done|by eauto].
  - intros i x [[? ?]|[? Hx]]%lookup_insert_Some; subst; simpl; eauto.
  - intros i x [[? ?]|[? Hx]]%lookup_insert_Some; subst; simpl; eauto.
  - intros i x [[? ?]|[? Hx]]%lookup_insert_Some; subst; simpl; [|by eauto].
    intros [?|?]; [done|]. eapply C; eauto.
  (* and what was cancelled was not *)
  - intros i x [[? ?]|[? Hx]]%lookup_insert_Some; subst; [done|by eauto].
  - intros i x [[? ?]|[? Hx]]%lookup_insert_Some; subst; simpl; [done|by eauto].
  - intros i x [[? ?]|[? Hx]]%lookup_insert_Some; subst; simpl; eauto.
  - intros i x [[? ?]|[? Hx]]%lookup_insert_Some; subst; simpl; [|by eauto].
    by destruct Hs as [-> | ->].
  - intros i x [[? ?]|[? Hx]]%lookup_insert_Some; subst; simpl; eauto.
Qed.

(** ** Runs *)
Lemma protocol_run_ok v es v' : protocol_ok v → protocol_run v es v' → protocol_ok v'.
Proof. intros Hok. induction 1; eauto using protocol_step_ok. Qed.
Definition dispatches : list Event → list string :=
  omap (λ e, match e with Dispatched id => Some id | _ => None end).
Definition submissions : list Event → list string :=
  omap (λ e, match e with Submitted id => Some id | _ => None end).
Definition sent_registration (v : View) (id : string) : Prop :=
  ∃ r, v_registrations v !! id = Some r ∧ rg_claimed r = true.
Definition sent_mutation (v : View) (id : string) : Prop :=
  ∃ m, v_mutations v !! id = Some m ∧ mu_submitted m = true.
Definition claimed_mutation (v : View) (id : string) : Prop :=
  ∃ m, v_mutations v !! id = Some m ∧ mu_claimed m = true.

(** What was sent stays marked. *)
Lemma sent_registration_step v es v' id :
  protocol_step v es v' → sent_registration v id → sent_registration v' id.
Proof.
  unfold sent_registration. intros Hst (r&Hr&Hc). destruct Hst; simpl; eauto;
    match goal with |- context [<[?k := _]> _] => destruct (decide (k = id)) as [->|] end;
    rewrite ?lookup_insert_eq, ?lookup_insert_ne by done; eauto; try congruence.
Qed.
Lemma sent_mutation_step v es v' id :
  protocol_step v es v' → sent_mutation v id → sent_mutation v' id.
Proof.
  unfold sent_mutation. intros Hst (m&Hm&Hc). destruct Hst; simpl; eauto;
    match goal with |- context [<[?k := _]> _] => destruct (decide (k = id)) as [->|] end;
    rewrite ?lookup_insert_eq, ?lookup_insert_ne by done; eauto; try congruence;
    (eexists; split; [reflexivity|simpl; congruence]).
Qed.
Lemma claimed_mutation_step v es v' id :
  protocol_step v es v' → claimed_mutation v id → claimed_mutation v' id.
Proof.
  unfold claimed_mutation. intros Hst (m&Hm&Hc). destruct Hst; simpl; eauto;
    match goal with |- context [<[?k := _]> _] => destruct (decide (k = id)) as [->|] end;
    rewrite ?lookup_insert_eq, ?lookup_insert_ne by done; eauto; try congruence;
    (eexists; split; [reflexivity|simpl; congruence]).
Qed.
Lemma claimed_mutation_run v es v' id :
  protocol_run v es v' → claimed_mutation v id → claimed_mutation v' id.
Proof. induction 1; eauto using claimed_mutation_step. Qed.
(** A claim that was reported is stored. *)
Lemma reported_claim v es v' id :
  protocol_run v es v' → ActionClaimed id ∈ es → claimed_mutation v' id.
Proof.
  induction 1 as [|v es v1 es' v' Hst Hrun IH]; [by intros ?%elem_of_nil|].
  intros [Hin|Hin]%elem_of_app; [|by apply IH].
  eapply claimed_mutation_run; [exact Hrun|].
  destruct Hst; rewrite ?elem_of_nil, ?list_elem_of_singleton in Hin; simplify_eq;
    try done.
  eexists. simpl. by rewrite lookup_insert_eq.
Qed.
Lemma no_dispatch v es v' id :
  protocol_run v es v' → sent_registration v id → id ∉ dispatches es.
Proof.
  induction 1 as [|v es v1 es' v' Hst Hrun IH]; intros Hs; [by intros ?%elem_of_nil|].
  unfold dispatches. rewrite omap_app, elem_of_app. intros [Hin|Hin].
  - destruct Hs as (r&Hr&Hc). destruct Hst; simpl in Hin;
      rewrite ?elem_of_nil, ?list_elem_of_singleton in Hin; simplify_eq;
      try done. congruence.
  - by eapply IH; [eapply sent_registration_step|].
Qed.
Lemma no_submission v es v' id :
  protocol_run v es v' → sent_mutation v id → id ∉ submissions es.
Proof.
  induction 1 as [|v es v1 es' v' Hst Hrun IH]; intros Hs; [by intros ?%elem_of_nil|].
  unfold submissions. rewrite omap_app, elem_of_app. intros [Hin|Hin].
  - destruct Hs as (r&Hr&Hc). destruct Hst; simpl in Hin;
      rewrite ?elem_of_nil, ?list_elem_of_singleton in Hin; simplify_eq;
      try done. congruence.
  - by eapply IH; [eapply sent_mutation_step|].
Qed.
(** Every registration is dispatched, and every action submitted, at most once. *)
Lemma run_dispatches v es v' : protocol_run v es v' → NoDup (dispatches es).
Proof.
  induction 1 as [|v es v1 es' v' Hst Hrun IH]; [constructor|].
  unfold dispatches. rewrite omap_app.
  destruct Hst; try exact IH. simpl. constructor; [|exact IH].
  eapply no_dispatch; [exact Hrun|]. eexists. simpl. by rewrite lookup_insert_eq.
Qed.
Lemma run_submissions v es v' : protocol_run v es v' → NoDup (submissions es).
Proof.
  induction 1 as [|v es v1 es' v' Hst Hrun IH]; [constructor|].
  unfold submissions. rewrite omap_app.
  destruct Hst; try exact IH. simpl. constructor; [|exact IH].
  eapply no_submission; [exact Hrun|]. eexists. simpl. by rewrite lookup_insert_eq.
Qed.
(** A cancelled action is final: it stays as it is. *)
Lemma step_cancelled v es v' id m :
  protocol_ok v → protocol_step v es v' → v_mutations v !! id = Some m →
  mu_state m = "CANCELLED" → v_mutations v' !! id = Some m.
Proof.
  intros Hok Hst Hm Hs. pose proof (ok_cancelled v Hok id m Hm Hs) as Hc.
  destruct Hst as [| | | |? i ? Hn|? i ? Hi Hf|? i ? Hi ? Hst|? i ? ? Hi Hcl|? i ? Hi ? Hst];
    simpl; try exact Hm; (destruct (decide (i = id)) as [->|];
      [exfalso|by rewrite lookup_insert_ne]); simplify_eq; rewrite ?Hs in *; done || congruence.
Qed.
Lemma run_cancelled v es v' id m :
  protocol_ok v → protocol_run v es v' → v_mutations v !! id = Some m →
  mu_state m = "CANCELLED" → v_mutations v' !! id = Some m.
Proof. intros Hok. induction 1; eauto using protocol_step_ok, step_cancelled. Qed.
Lemma run_app v es v1 es' v' :
  protocol_run v es v1 → protocol_run v1 es' v' → protocol_run v (es ++ es') v'.
Proof.
  induction 1 as [|v es v1 es1 v2 Hst Hrun IH]; [done|]. intros H'.
  rewrite <- app_assoc. econstructor; eauto.
Qed.
Lemma run_one v es v' : protocol_step v es v' → protocol_run v es v'.
Proof. intros H. rewrite <- (app_nil_r es). econstructor; [exact H|constructor]. Qed.
