(* ===== verification/DomainTransitions.v ===== *)
(** * The transactions of domains as steps of the protocol

    Each transaction that registers, changes or cancels at a registrar, as it is
    written in the services and in the processor, is a run of the abstract machine of
    DomainProtocol on the view of its tables. *)
From S2P Require Import Prelude JsString JsDate Json Money States AuthTables DomainTables Database InvoiceNumber InvoiceTotals Invoices Payments MapSum Ledger Settlement Gateways GatewayAdapters Orders HostingPanels DomainContracts PanelOperations JsonText Totp Authentication Registrar Resellbiz RegistrarProcessor DomainAdministration Domains DomainSales DomainManagement DomainLifecycle ExistingDomains DomainProtocol.

(** ** The view *)
Definition registration_of (o : RegistrarOperation) : Registration :=
  MkRegistration (ro_domainId o) (executing_account o) (isSome (ro_claimedAt o)).
Definition mutation_of (a : DomainAction) : Mutation :=
  MkMutation (da_accountId a) (isSome (da_claimedAt a)) (isSome (da_submittedAt a)) (da_state a).
Definition domain_view (d : Db) : View :=
  MkView (registration_of <$> registrarOperations d) (mutation_of <$> domainActions d)
    (dom_state <$> domains d).
Definition protocol_tables (d : Db)
    : gmap string RegistrarOperation * gmap string DomainAction * gmap string Domain *
      gmap string RegistrarAccount :=
  (registrarOperations d, domainActions d, domains d, registrarAccounts d).
Record keyed (d : Db) : Prop := MkKeyed
  { key_operation : ∀ i o, registrarOperations d !! i = Some o → ro_id o = i;
    key_action : ∀ i a, domainActions d !! i = Some a → da_id a = i;
    key_domain : ∀ i r, domains d !! i = Some r → dom_id r = i;
    key_account : ∀ i a, registrarAccounts d !! i = Some a → ra_id a = i }.
Record registrar_ok (d : Db) : Prop := MkRegistrarOk
  { rok_keyed : keyed d; rok_protocol : protocol_ok (domain_view d) }.

Lemma view_tables d d' :
  protocol_tables d' = protocol_tables d →
  domain_view d' = domain_view d ∧ (keyed d → keyed d').
Proof.
  intros H. injection H as E1 E2 E3 E4. split; [unfold domain_view; congruence|].
  intros [K1 K2 K3 K4]. split; rewrite ?E1, ?E2, ?E3, ?E4; done.
Qed.

(** ** Table operations *)
Section rows.
Context {R : Type} (table : Db → gmap string R) `{!Setter table}.
Lemma row_or_throw_Ok id w r w' :
  row_or_throw table id w = (Ok r, w') ↔ table (db w) !! id = Some r ∧ w' = w.
Proof.
  unfold row_or_throw. split.
  - intros H. apply bind_Ok in H as (o&w1&Ho&H). apply read_Ok in Ho as [-> ->].
    apply lift_Ok in H as [H ->]. by apply of_option_Ok in H.
  - intros [H ->]. unfold mbind, M_bind, read, gets, lift. by rewrite H.
Qed.
Lemma change_row_if_Ok id p f w n w' :
  change_row_if table id p f w = (Ok n, w') →
  (n = 0 ∧ db w' = db w <| table := table (db w) |>) ∨
  (n = 1 ∧ ∃ r, table (db w) !! id = Some r ∧ p r = true ∧
     db w' = db w <| table := <[id := f r]> (table (db w)) |>).
Proof.
  unfold change_row_if, update_one. intros H. apply bind_Ok in H as (m&w1&Hm&H).
  apply read_Ok in Hm as [-> ->]. destruct (table (db w) !! id) as [r|] eqn:E;
    [destruct (p r) eqn:Hp|]; apply bind_Ok in H as (u&w1&Hw&H); apply write_Ok in Hw as ->;
    apply ret_Ok in H as [-> ->]; [right|left|left]; eauto 7.
Qed.
Lemma change_row_Ok id f w u w' :
  change_row table id f w = (Ok u, w') →
  ∃ r, table (db w) !! id = Some r ∧
       db w' = db w <| table := <[id := f r]> (table (db w)) |>.
Proof.
  unfold change_row. intros H. apply bind_Ok in H as (n&w1&Hn&H).
  apply require_Ok in H as [Hb ->]. apply Z.eqb_eq in Hb as ->.
  apply change_row_if_Ok in Hn as [[? _]|(_&r&Hr&_&Hd)]; [done|eauto].
Qed.
Lemma create_row_Ok id fresh r w u w' :
  create_row table id fresh r w = (Ok u, w') →
  table (db w) !! id = None ∧ fresh (table (db w)) = true ∧
  db w' = db w <| table := <[id := r]> (table (db w)) |>.
Proof.
  unfold create_row. intros H. apply bind_Ok in H as (m&w1&Hm&H).
  apply read_Ok in Hm as [-> ->]. apply bind_Ok in H as (u'&w1&Hr&H).
  apply require_Ok in Hr as [Hb ->]. apply write_Ok in H as ->. split_bool. done.
Qed.
End rows.
Lemma update_domain_Ok id f w u w' :
  update_domain id f w = (Ok u, w') →
  ∃ r, domains (db w) !! id = Some r ∧
       db w' = db w <| domains := <[id := f r]> (domains (db w)) |>.
Proof.
  unfold update_domain. intros H. apply bind_Ok in H as (m&w1&Hm&H).
  apply read_Ok in Hm as [-> ->]. apply bind_Ok in H as (r&w1&Hr&H).
  apply lift_Ok in Hr as [Hr ->]. apply of_option_Ok in Hr.
  apply bind_Ok in H as (?&w1&Hq&H). apply require_Ok in Hq as [_ ->].
  apply write_Ok in H as ->. eauto.
Qed.
Lemma create_domain_Ok r w u w' :
  create_domain r w = (Ok u, w') →
  domains (db w) !! dom_id r = None ∧
  db w' = db w <| domains := <[dom_id r := r]> (domains (db w)) |>.
Proof.
  unfold create_domain. intros H. apply bind_Ok in H as (m&w1&Hm&H).
  apply read_Ok in Hm as [-> ->]. apply bind_Ok in H as (?&w1&Hq&H).
  apply require_Ok in Hq as [Hq ->]. apply write_Ok in H as ->. split_bool. done.
Qed.
Lemma add_evidence_keeps id c : Keeps protocol_tables (add_evidence id c).
Proof. unfold add_evidence. apply _. Qed.
#[export] Existing Instance add_evidence_keeps.
#[global] Hint Extern 6 (Keeps _ (row_or_throw _ _)) => unfold row_or_throw : typeclass_instances.
#[global] Hint Extern 6 (Keeps _ (create_row _ _ _ _)) => unfold create_row : typeclass_instances.
#[global] Hint Extern 6 (Keeps _ (change_row _ _ _)) =>
  unfold change_row, change_row_if : typeclass_instances.
#[global] Hint Extern 6 (Keeps _ (domain_log _ _ _ _ _)) => unfold domain_log : typeclass_instances.
#[global] Typeclasses Opaque row_or_throw create_row change_row add_evidence domain_log.

(** ** Runs of tables *)
Definition db_run (d : Db) (es : list Event) (d' : Db) : Prop :=
  keyed d' ∧ protocol_run (domain_view d) es (domain_view d').
Lemma db_run_same d d' : keyed d → protocol_tables d' = protocol_tables d → db_run d [] d'.
Proof. intros K H. apply view_tables in H as [E K']. split; [auto|]. rewrite E. constructor. Qed.
Lemma db_run_app d es d1 es' d' : db_run d es d1 → db_run d1 es' d' → db_run d (es ++ es') d'.
Proof. intros [_ R1] [K R2]. split; [done|]. by eapply run_app. Qed.
Lemma view_set_domain d id r :
  domain_view (d <| domains := <[id := r]> (domains d) |>) =
  domain_view d <| v_domains := <[id := dom_state r]> (v_domains (domain_view d)) |>.
Proof. apply (f_equal3 MkView); [done..|apply fmap_insert]. Qed.
Lemma view_set_operation d id o :
  domain_view (d <| registrarOperations := <[id := o]> (registrarOperations d) |>) =
  domain_view d <| v_registrations :=
    <[id := registration_of o]> (v_registrations (domain_view d)) |>.
Proof. apply (f_equal3 MkView); [apply fmap_insert|done..]. Qed.
Lemma view_set_action d id a :
  domain_view (d <| domainActions := <[id := a]> (domainActions d) |>) =
  domain_view d <| v_mutations := <[id := mutation_of a]> (v_mutations (domain_view d)) |>.
Proof. apply (f_equal3 MkView); [done|apply fmap_insert|done]. Qed.
Lemma view_operation d id o : registrarOperations d !! id = Some o →
  v_registrations (domain_view d) !! id = Some (registration_of o).
Proof. intros H. simpl. by rewrite lookup_fmap, H. Qed.
Lemma view_action d id a : domainActions d !! id = Some a →
  v_mutations (domain_view d) !! id = Some (mutation_of a).
Proof. intros H. simpl. by rewrite lookup_fmap, H. Qed.
Lemma view_domain d id r : domains d !! id = Some r →
  v_domains (domain_view d) !! id = Some (dom_state r).
Proof. intros H. simpl. by rewrite lookup_fmap, H. Qed.
Lemma keyed_domain d id r :
  keyed d → dom_id r = id → keyed (d <| domains := <[id := r]> (domains d) |>).
Proof.
  intros [K1 K2 K3 K4] Hid. split; [exact K1|exact K2| |exact K4].
  intros i x Hx. change (<[id := r]> (domains d) !! i = Some x) in Hx.
  apply lookup_insert_Some in Hx as [[? ?]|[? Hx]]; subst; eauto.
Qed.
Lemma keyed_operation d id o :
  keyed d → ro_id o = id →
  keyed (d <| registrarOperations := <[id := o]> (registrarOperations d) |>).
Proof.
  intros [K1 K2 K3 K4] Hid. split; [|exact K2|exact K3|exact K4].
  intros i x Hx. change (<[id := o]> (registrarOperations d) !! i = Some x) in Hx.
  apply lookup_insert_Some in Hx as [[? ?]|[? Hx]]; subst; eauto.
Qed.
Lemma keyed_action d id a :
  keyed d → da_id a = id → keyed (d <| domainActions := <[id := a]> (domainActions d) |>).
Proof.
  intros [K1 K2 K3 K4] Hid. split; [exact K1| |exact K3|exact K4].
  intros i x Hx. change (<[id := a]> (domainActions d) !! i = Some x) in Hx.
  apply lookup_insert_Some in Hx as [[? ?]|[? Hx]]; subst; eauto.
Qed.
Lemma db_run_domain d id r r' :
  keyed d → domains d !! id = Some r → dom_id r' = dom_id r →
  (dom_state r' = dom_state r ∨ settled (dom_state r) = false ∨
   unclaimed_domain (domain_view d) id) →
  db_run d [] (d <| domains := <[id := r']> (domains d) |>).
Proof.
  intros K Hr Hid Hs. split; [apply keyed_domain; [done|]; rewrite Hid; by apply K|].
  rewrite view_set_domain. pose proof (view_domain _ _ _ Hr) as Hv.
  destruct Hs as [Hs|Hs].
  - rewrite Hs, insert_id by done. constructor.
  - apply run_one. apply (step_domain (domain_view d) id _ (dom_state r') Hv Hs).
Qed.
Lemma db_run_operation d id o o' :
  keyed d → registrarOperations d !! id = Some o → ro_id o' = ro_id o →
  registration_of o' = registration_of o →
  db_run d [] (d <| registrarOperations := <[id := o']> (registrarOperations d) |>).
Proof.
  intros K Ho Hid Hs. split; [apply keyed_operation; [done|]; rewrite Hid; by apply K|].
  rewrite view_set_operation, Hs, insert_id by (by apply view_operation). constructor.
Qed.
Lemma db_run_claim d id o o' :
  keyed d → registrarOperations d !! id = Some o → ro_id o' = ro_id o →
  ro_claimedAt o = None →
  registration_of o' = registration_of o <| rg_claimed := true |> →
  idle (domain_view d) (executing_account o) (RegistrationOf id) →
  db_run d [Dispatched id] (d <| registrarOperations := <[id := o']> (registrarOperations d) |>).
Proof.
  intros K Ho Hid Hc Hs Hi. split; [apply keyed_operation; [done|]; rewrite Hid; by apply K|].
  rewrite view_set_operation, Hs.
  apply run_one, (step_dispatch (domain_view d) id (registration_of o)).
  - by apply view_operation.
  - simpl. by rewrite Hc.
  - exact Hi.
Qed.
Lemma db_run_propose d id o :
  keyed d → registrarOperations d !! id = None → ro_id o = id → ro_claimedAt o = None →
  is_Some (domains d !! ro_domainId o) →
  (∀ i o', registrarOperations d !! i = Some o' → ro_domainId o' ≠ ro_domainId o) →
  db_run d [] (d <| registrarOperations := <[id := o]> (registrarOperations d) |>).
Proof.
  intros K Ho Hid Hc Hd Hu. split; [by apply keyed_operation|].
  rewrite view_set_operation.
  apply run_one, (step_propose (domain_view d) id (registration_of o)); simpl.
  - by rewrite lookup_fmap, Ho.
  - by rewrite Hc.
  - rewrite lookup_fmap. destruct Hd as [x ->]. by eexists.
  - intros i r (x&<-&Hx)%lookup_fmap_Some. by eapply Hu.
Qed.
(** The tables of actions: the step of the protocol the new row makes. *)
Lemma db_run_action d id a es :
  keyed d → da_id a = id →
  protocol_run (domain_view d) es
    (domain_view d <| v_mutations := <[id := mutation_of a]> (v_mutations (domain_view d)) |>) →
  db_run d es (d <| domainActions := <[id := a]> (domainActions d) |>).
Proof.
  intros K Hid R. split; [by apply keyed_action|].
  by rewrite view_set_action.
Qed.
Lemma db_run_keeps {A} (m : Io A) w a w' :
  Keeps protocol_tables m → keyed (db w) → m w = (Ok a, w') → db_run (db w) [] (db w').
Proof.
  intros Hm K H. apply db_run_same; [done|]. by apply keeps_run with (proj := protocol_tables) in H.
Qed.
Lemma db_run_create_domain d r :
  keyed d → domains d !! dom_id r = None →
  db_run d [] (d <| domains := <[dom_id r := r]> (domains d) |>).
Proof.
  intros K Hr. split; [by apply keyed_domain|].
  rewrite view_set_domain. apply run_one, step_quiet. simpl. apply insert_subseteq. by rewrite lookup_fmap, Hr.
Qed.

(** ** What an idle account is *)
Lemma no_outstanding account d p :
  outstanding_action account d = false → pending (domain_view d) account p →
  ∃ id, p = RegistrationOf id.
Proof.
  unfold outstanding_action. intros H. apply negb_false_iff, bool_decide_eq_true in H.
  inversion 1 as [|id m Hm Hc Ha Hf]; subst; [eauto|]. exfalso.
  simpl in Hm. apply lookup_fmap_Some in Hm as (a&<-&Ha).
  assert (a ∈ rows (outstanding (da_accountId a)) (domainActions d)) as Hin.
  { apply elem_rows. split; [|eauto]. unfold outstanding. simpl in *.
    change (final_action (da_state a) = false) in Hf.
    by rewrite String.eqb_refl, Hc, Hf. }
  simpl in H. rewrite H in Hin. by apply elem_of_nil in Hin.
Qed.
Lemma registrations_settled_Ok operations w b w' :
  registrations_settled operations w = (Ok b, w') →
  db w' = db w ∧ (b = true → Forall (λ o, ∃ r, domains (db w) !! ro_domainId o = Some r ∧
                                   settled_state (dom_state r) = true) operations).
Proof.
  intros H. assert (Keeps (λ d, d) (registrations_settled operations)) as K
    by (unfold registrations_settled; apply _).
  rewrite (keeps_run _ _ _ _ _ K H). split; [done|]. clear K.
  unfold registrations_settled in H. intros ->.
  match type of H with fold_each ?f _ _ _ = _ => set (F := f) in H;
    enough (∀ l w b0, fold_each F b0 l w = (Ok true, w') → b0 = true ∧
      Forall (λ o, ∃ r, domains (db w) !! ro_domainId o = Some r ∧
                        settled_state (dom_state r) = true) l) as G by (by eapply G) end.
  clear. intros operations. induction operations as [|o l IH]; intros w b0 H; simpl in H.
  { apply ret_Ok in H as [? _]. split; [congruence|constructor]. }
  apply bind_Ok in H as (b1&w1&H1&H). destruct b0.
  - apply bind_Ok in H1 as (r&w2&Hr&H1). apply row_or_throw_Ok in Hr as [Hr ->].
    apply ret_Ok in H1 as [-> ->]. apply IH in H as [Hs Hl].
    split; [done|]. constructor; eauto.
  - apply ret_Ok in H1 as [-> ->]. by apply IH in H as [? _].
Qed.

(** ** The first transaction of the processor *)
Lemma reserve_poll_Ok claim o w u w' :
  reserve_poll claim o w = (Ok u, w') →
  ∃ r n, registrarOperations (db w) !! ro_id o = Some r ∧
    let r' := (match claim with Some t => r <| ro_claimedAt := Some t |> | None => r end)
                <| ro_pollCount := ro_pollCount r + 1 |> <| ro_nextPollAt := n |> in
    db w' = db w <| registrarOperations := <[ro_id o := r']> (registrarOperations (db w)) |>.
Proof.
  unfold reserve_poll. intros H. apply bind_Ok in H as (n&w1&Hn&H).
  apply new_date_Ok in Hn as [_ ->]. apply change_row_Ok in H as (r&Hr&->).
  exists r, (n + 360000). done.
Qed.
Lemma busy_idle account o d busy :
  keyed d → outstanding_action account d = false → account = executing_account o →
  busy = rows (busy_operation account (ro_id o)) (registrarOperations d) →
  Forall (λ o, ∃ r, domains d !! ro_domainId o = Some r ∧
                    settled_state (dom_state r) = true) busy →
  idle (domain_view d) (executing_account o) (RegistrationOf (ro_id o)).
Proof.
  intros K Hb -> -> Hf p Hp. pose proof (no_outstanding _ _ _ Hb Hp) as [id ->].
  inversion Hp as [i r s Hr Hc Ha Hd Hs Hi|]; subst. f_equal.
  simpl in Hr. apply lookup_fmap_Some in Hr as (x&<-&Hx). simpl in *.
  destruct (decide (id = ro_id o)) as [|Hne]; [done|]. exfalso.
  rewrite Forall_forall in Hf. destruct (Hf x) as (y&Hy&Hst).
  { apply list_elem_of_In, elem_rows. split; [|eauto]. unfold busy_operation.
    rewrite Ha, String.eqb_refl, Hc, (key_operation d K _ _ Hx).
    simpl. by destruct (String.eqb_spec id (ro_id o)). }
  rewrite lookup_fmap, Hy in Hd. simpl in Hd. simplify_eq.
  change (settled_state (dom_state y) = false) in Hs. congruence.
Qed.
Definition claim_events (o : RegistrarOperation) (r : option unit) : list Event :=
  match r with Some _ => [Dispatched (ro_id o)] | None => [] end.
(** What a claim has checked. *)
Record dispatch_checks (account : RegistrarAccount) (o : RegistrarOperation) (domain : Domain)
    (orderItemId invoiceId : string) (d : Db) : Prop := MkDispatchChecks
  { dc_approver : approving_administrator (user_by_id (ro_actorUserId o) d) = true;
    dc_owner : eligible_owner (String.eqb (ra_mode account) "LIVE")
                 (customers d !! dom_customerId domain) = true;
    dc_order : ∃ item order, orderItems d !! orderItemId = Some item ∧
                 orders d !! oi_orderId item = Some order ∧ fulfilling (ord_status order) = true;
    dc_paid : verified_invoice invoiceId (dom_customerId domain) d = true }.
Lemma claim_eligible_Ok account o domain itemId invoiceId w b w' :
  claim_eligible account o domain itemId invoiceId w = (Ok b, w') →
  w' = w ∧ (b = true → dispatch_checks account o domain itemId invoiceId (db w)).
Proof.
  unfold claim_eligible, verifiedDomainInvoice. intros H.
  apply bind_Ok in H as (approver&w1&H1&H). apply read_Ok in H1 as [-> ->].
  apply bind_Ok in H as (customer&w1&H1&H). apply read_Ok in H1 as [-> ->].
  apply bind_Ok in H as (item&w1&H1&H). apply row_or_throw_Ok in H1 as [Hi ->].
  apply bind_Ok in H as (order&w1&H1&H). apply row_or_throw_Ok in H1 as [Ho ->].
  destruct (approving_administrator _ && _ && _) eqn:E.
  - apply read_Ok in H as [-> ->]. split; [done|]. intros Hp. split_bool. split; eauto.
  - apply ret_Ok in H as [-> ->]. by split.
Qed.
(** A domain changes its state with an evidence. *)
Lemma marked_domain_run id f o c (r : option unit) domain w x w' :
  (update_domain id f ≫= λ _, add_evidence o c ≫= λ _, mret r) w = (Ok x, w') →
  keyed (db w) → domains (db w) !! id = Some domain → dom_id (f domain) = dom_id domain →
  settled (dom_state domain) = false → db_run (db w) [] (db w') ∧ x = r.
Proof.
  intros H K Hd Hf Hs.
  apply bind_Ok in H as (u1&w1&H1&H). apply update_domain_Ok in H1 as (y&Hy&E).
  rewrite Hd in Hy. injection Hy as <-.
  apply bind_Ok in H as (u2&w2&H2&H). apply ret_Ok in H as [-> ->]. split; [|done].
  assert (db_run (db w) [] (db w1)) as R by (rewrite E; apply (db_run_domain _ _ domain); auto).
  apply (db_run_app _ [] _ [] _ R). eapply db_run_keeps, H2; [apply _|apply R].
Qed.
Lemma claim_dispatch_Ok account o domain itemId invoiceId w r w' :
  claim_dispatch account o domain itemId invoiceId w = (Ok r, w') →
  registrar_ok (db w) → registrarOperations (db w) !! ro_id o = Some o →
  ro_claimedAt o = None → domains (db w) !! ro_domainId o = Some domain →
  settled_state (dom_state domain) = false → ra_id account = executing_account o →
  db_run (db w) (claim_events o r) (db w') ∧
  (is_Some r → dispatch_checks account o domain itemId invoiceId (db w)).
Proof.
  unfold claim_dispatch. intros H Hok Ho Hc Hd Hs Ha. pose proof (rok_keyed _ Hok) as K.
  pose proof (key_domain _ K _ _ Hd) as Hdid.
  apply bind_Ok in H as (busy0&w1&H1&H).
  assert (w1 = w) as -> by (destruct (String.eqb _ _);
    [by apply read_Ok in H1 as [_ ->]|by apply ret_Ok in H1 as [_ ->]]). clear H1.
  destruct busy0.
  { apply ret_Ok in H as [-> ->]. split; [by apply db_run_same|by intros []]. }
  apply bind_Ok in H as (eligible&w1&H1&H). apply claim_eligible_Ok in H1 as [-> Hchk].
  destruct eligible; simpl in H; [specialize (Hchk eq_refl)|clear Hchk].
  2: { rewrite Hdid in H. by eapply marked_domain_run in H as [R ->]. }
  apply bind_Ok in H as (busyA&w1&H1&H). apply read_Ok in H1 as [Hb ->].
  destruct busyA.
  { apply ret_Ok in H as [-> ->]. split; [by apply db_run_same|by intros []]. }
  apply bind_Ok in H as (busy&w1&H1&H). apply read_Ok in H1 as [Hbusy ->].
  apply bind_Ok in H as (settled&w1&H1&H). apply registrations_settled_Ok in H1 as [E1 Hset].
  destruct settled; simpl in H.
  2: { apply ret_Ok in H as [-> ->]. split; [|by intros []]. rewrite E1. by apply db_run_same. }
  specialize (Hset eq_refl).
  apply bind_Ok in H as (now&w2&H2&H). apply new_date_Ok in H2 as [_ ->].
  apply bind_Ok in H as (u3&w2&H2&H). apply reserve_poll_Ok in H2 as (x&n&Hx&E2). simpl in Hx, E2.
  rewrite E1 in Hx, E2. rewrite Ho in Hx. injection Hx as <-.
  rewrite Hdid in H. rewrite Ha in Hb, Hbusy.
  pose proof (busy_idle _ o (db w) busy K (eq_sym Hb) eq_refl Hbusy Hset) as Hidle.
  assert (db_run (db w) [Dispatched (ro_id o)] (db w2)) as R1
    by (rewrite E2; apply (db_run_claim _ _ o); auto).
  eapply marked_domain_run in H as [R2 ->]; [|apply R1|by rewrite E2|done..].
  split; [exact (db_run_app _ [_] _ [] _ R1 R2)|done].
Qed.

Definition prepare_events (id : string) (r : option Preparation) : list Event :=
  match r with Some p => if pn_dispatch p then [Dispatched id] else [] | None => [] end.
(** What a dispatch of the operation has checked. *)
Record dispatched_state (id : string) (p : Preparation) (d : Db) : Prop := MkDispatchedState
  { ds_checks : ∃ o domain account itemId invoiceId,
      registrarOperations d !! id = Some o ∧ ro_claimedAt o = None ∧
      domains d !! ro_domainId o = Some domain ∧ settled_state (dom_state domain) = false ∧
      registrarAccounts d !! executing_account o = Some account ∧ ra_enabled account = true ∧
      dom_invoiceId domain = Some invoiceId ∧ dom_orderItemId domain = Some itemId ∧
      dispatch_checks account o domain itemId invoiceId d ∧
      ri_domainName (pn_intent p) = dom_domainName domain ∧
      ri_costCeiling (pn_intent p) = ro_costCeiling o }.
Section prepare.
Context `{ZodFormats} `{ZodUrl} `{UrlParser} `{ZodIso} `{RegistrarCrypto}
  `{ResellbizTransport} `{RegistrarRandom} `{JsNumber}.
Context (injected : option DomainRegistrar) (options : ProcessorOptions).

Lemma live_preparation_same account o domain quote names creds w r w' :
  live_preparation injected account o domain quote names creds w = (Ok r, w') → db w' = db w.
Proof.
  intros Hrun. apply keeps_run with (proj := λ d, d) in Hrun; [done|].
  unfold live_preparation. apply _.
Qed.
Lemma prepare_rows_Ok o domain account origin quoteId itemId invoiceId w r w' :
  prepare_rows injected o domain account origin quoteId itemId invoiceId w = (Ok r, w') →
  registrar_ok (db w) → registrarOperations (db w) !! ro_id o = Some o →
  domains (db w) !! ro_domainId o = Some domain → settled_state (dom_state domain) = false →
  ra_id account = executing_account o →
  db_run (db w) (prepare_events (ro_id o) r) (db w') ∧
  (∀ p, r = Some p → pn_dispatch p = true →
   ro_claimedAt o = None ∧ dispatch_checks account o domain itemId invoiceId (db w) ∧
   ri_domainName (pn_intent p) = dom_domainName domain ∧
   ri_costCeiling (pn_intent p) = ro_costCeiling o).
Proof.
  unfold prepare_rows. intros Hrun Hok Ho Hd Hs Ha. pose proof (rok_keyed _ Hok) as K.
  apply bind_Ok in Hrun as (quote&w1&G1&Hrun). apply row_or_throw_Ok in G1 as [_ ->].
  apply bind_Ok in Hrun as (credential&w1&G1&Hrun). apply row_or_throw_Ok in G1 as [_ ->].
  destruct (negb _). { apply ret_Ok in Hrun as [-> ->]. by split; [apply db_run_same|]. }
  apply bind_Ok in Hrun as (creds&w1&G1&Hrun). apply lift_Ok in G1 as [_ ->].
  apply bind_Ok in Hrun as (clear&w1&G1&Hrun). apply lift_Ok in G1 as [_ ->].
  apply bind_Ok in Hrun as (contact&w1&G1&Hrun). apply lift_Ok in G1 as [_ ->].
  apply bind_Ok in Hrun as (names&w1&G1&Hrun). apply lift_Ok in G1 as [_ ->].
  apply bind_Ok in Hrun as (provider&w1&G1&Hrun).
  assert (db w1 = db w) as E.
  { destruct (String.eqb _ _); [by eapply live_preparation_same|by apply ret_Ok in G1 as [_ ->]]. }
  clear G1. rewrite <- E in *. destruct provider as [[provider binding]|].
  2: { apply ret_Ok in Hrun as [-> ->]. by split; [apply db_run_same|]. }
  apply bind_Ok in Hrun as (reserved&w2&G2&Hrun). apply ret_Ok in Hrun as [-> ->].
  destruct (ro_claimedAt o) as [t|] eqn:Hc; simpl in G2.
  - apply bind_Ok in G2 as (u&w3&G2&G3). apply ret_Ok in G3 as [-> ->].
    apply reserve_poll_Ok in G2 as (x&n&Hx&->). rewrite Ho in Hx. injection Hx as <-.
    split; [|intros p; simpl; intros; by simplify_eq].
    simpl. by apply (db_run_operation _ _ o).
  - apply claim_dispatch_Ok in G2 as [R Hchk]; try done.
    destruct reserved as [u|]; simpl in *; (split; [exact R|]); [|done].
    intros p [= <-] _. split_and!; [done|by apply Hchk|done..].
Qed.
Lemma locked_accounts_Ok o w u w' :
  for_each (locked_accounts o) (lock_row "registrar_accounts") w = (Ok u, w') → w' = w.
Proof.
  unfold locked_accounts. intros Hrun.
  destruct (String.eqb _ _); [|destruct (String.ltb _ _)]; by injection Hrun as _ <-.
Qed.
Lemma prepare_tx_Ok locator invoiceId w r w' :
  prepare_tx injected options locator invoiceId w = (Ok r, w') → registrar_ok (db w) →
  db_run (db w) (prepare_events (ro_id locator) r) (db w') ∧
  (∀ p, r = Some p → pn_dispatch p = true → dispatched_state (ro_id locator) p (db w)).
Proof.
  unfold prepare_tx, lockDomainInvoice. intros Hrun Hok. pose proof (rok_keyed _ Hok) as K.
  apply bind_Ok in Hrun as (u1&w1&G1&Hrun). apply lock_row_Ok in G1 as ->.
  apply bind_Ok in Hrun as (u2&w1&G1&Hrun). apply lock_row_Ok in G1 as ->.
  apply bind_Ok in Hrun as (u3&w1&G1&Hrun). apply lock_row_Ok in G1 as ->.
  apply bind_Ok in Hrun as (u4&w1&G1&Hrun). apply locked_accounts_Ok in G1 as ->.
  apply bind_Ok in Hrun as (o&w1&G1&Hrun). apply row_or_throw_Ok in G1 as [Ho ->].
  apply bind_Ok in Hrun as (domain&w1&G1&Hrun). apply row_or_throw_Ok in G1 as [Hd ->].
  apply bind_Ok in Hrun as (account&w1&G1&Hrun). apply row_or_throw_Ok in G1 as [Ha ->].
  apply bind_Ok in Hrun as (origin&w1&G1&Hrun). apply row_or_throw_Ok in G1 as [_ ->].
  pose proof (key_operation _ K _ _ Ho) as Hid. pose proof (key_account _ K _ _ Ha) as Haid.
  assert (∀ w', db w' = db w → db_run (db w) [] (db w')) as Hsame.
  { intros w1 ->. by apply db_run_same. }
  destruct (negb _); [apply ret_Ok in Hrun as [-> ->]; by split; [apply Hsame|]|].
  destruct (account_open _ _ _ _) eqn:Hopen; simpl in Hrun;
    [|apply ret_Ok in Hrun as [-> ->]; by split; [apply Hsame|]].
  apply bind_Ok in Hrun as (due&w1&G1&Hrun).
  assert (db w1 = db w) as E.
  { apply keeps_run with (proj := λ d, d) in G1; [done|]. unfold poll_due. apply _. }
  destruct due, (dom_quoteId domain) as [q|], (dom_orderItemId domain) as [it|] eqn:Hit,
    (dom_invoiceId domain) as [inv|] eqn:Hinv;
    try (apply ret_Ok in Hrun as [-> ->]; by split; [apply Hsame|]).
  destruct (String.eqb _ _); [apply ret_Ok in Hrun as [-> ->]; by split; [apply Hsame|]|].
  unfold account_open in Hopen. split_bool. rewrite <- E in *.
  apply prepare_rows_Ok in Hrun as [R Hf]; try done; [|by rewrite Hid].
  rewrite Hid in R. split; [done|]. intros p Hp Hdis. destruct (Hf p Hp Hdis) as (?&?&?&?).
  split. exists o, domain, account, it, inv. split_and!; done.
Qed.
End prepare.

(** ** The second transaction of the processor *)
#[export] Instance complete_order_keeps itemId : Keeps protocol_tables (complete_order itemId).
Proof. unfold complete_order. apply _. Qed.
#[global] Typeclasses Opaque complete_order.
Lemma matching_same intent observation w m w' :
  matching intent observation w = (Ok m, w') → db w' = db w.
Proof.
  intros Hrun. apply keeps_run with (proj := λ d, d) in Hrun; [done|].
  unfold matching. apply _.
Qed.
Lemma observed_domain_id m r : dom_id (observed_domain m r) = dom_id r.
Proof. unfold observed_domain. destruct m; [|done]. by destruct (String.eqb _ _). Qed.
Lemma record_tx_run locator invoiceId itemId intent observation w u w' :
  record_tx locator invoiceId itemId intent observation w = (Ok u, w') → registrar_ok (db w) →
  db_run (db w) [] (db w').
Proof.
  unfold record_tx, lockDomainInvoice. intros Hrun Hok. pose proof (rok_keyed _ Hok) as K.
  apply bind_Ok in Hrun as (u1&w1&G1&Hrun). apply lock_row_Ok in G1 as ->.
  apply bind_Ok in Hrun as (u2&w1&G1&Hrun). apply lock_row_Ok in G1 as ->.
  apply bind_Ok in Hrun as (u3&w1&G1&Hrun). apply lock_row_Ok in G1 as ->.
  apply bind_Ok in Hrun as (o&w1&G1&Hrun). apply row_or_throw_Ok in G1 as [Ho ->].
  apply bind_Ok in Hrun as (r&w1&G1&Hrun). apply row_or_throw_Ok in G1 as [Hr ->].
  destruct (settled_state (dom_state r)) eqn:Hs.
  { apply ret_Ok in Hrun as [_ ->]. by apply db_run_same. }
  apply bind_Ok in Hrun as (m&w1&G1&Hrun). apply matching_same in G1.
  apply bind_Ok in Hrun as (now&w2&G2&Hrun). apply new_date_Ok in G2 as [_ ->].
  apply bind_Ok in Hrun as (u4&w2&G2&Hrun). apply change_row_Ok in G2 as (x&Hx&E2).
  simpl in Hx, E2. rewrite G1 in Hx, E2. rewrite Ho in Hx. injection Hx as <-.
  apply bind_Ok in Hrun as (u5&w3&G3&Hrun). apply update_domain_Ok in G3 as (y&Hy&E3).
  assert (domains (db w2) !! ro_domainId locator = Some r) as Hr2 by by rewrite E2.
  rewrite Hr2 in Hy. injection Hy as <-.
  assert (db_run (db w) [] (db w2)) as R2
    by (rewrite E2; apply (db_run_operation _ _ o); auto).
  assert (db_run (db w2) [] (db w3)) as R3.
  { rewrite E3. apply (db_run_domain _ _ r); [apply R2|done|apply observed_domain_id|auto]. }
  apply (db_run_app _ [] _ [] _ R2), (db_run_app _ [] _ [] _ R3).
  exact (db_run_keeps _ _ _ _ _ (proj1 R3) Hrun).
Qed.

(** ** Approval *)
Lemma find_unique_None {R K} `{EqDecision K} (m : gmap string R) (key : R → K) k i r :
  find_unique m key k = None → m !! i = Some r → key r ≠ k.
Proof.
  unfold find_unique. intros Hf Hr Hk. apply fmap_None in Hf.
  assert (In (i, r) (map_to_list m)) as Hin by by apply list_elem_of_In, elem_of_map_to_list.
  apply (List.find_none _ _ Hf) in Hin. simpl in Hin. by apply bool_decide_eq_false in Hin.
Qed.
Lemma operation_unclaimed d id o :
  registrar_ok d → operation_of id d = Some o → ro_claimedAt o = None →
  unclaimed_domain (domain_view d) id.
Proof.
  unfold operation_of. intros Hok Ho Hc i r Hr Hd.
  apply find_unique_Some in Ho as (j&Ho&Hj). pose proof (view_operation _ _ _ Ho) as Hv.
  assert (i = j) as -> by (eapply (ok_unique _ (rok_protocol _ Hok)); [done..|by rewrite Hd]).
  rewrite Hv in Hr. injection Hr as <-. simpl. by rewrite Hc.
Qed.

Section approval.
Context `{ZodFormats} `{ZodUrl} `{UrlParser} `{ZodIso} `{Sha256} `{DateParser}
  `{RegistrarCrypto} `{ResellbizTransport} `{RegistrarRandom} `{JsNumber}
  (environment : DomainEnvironment).

Lemma requireAccount_same a w u w' : requireAccount environment a w = (Ok u, w') → db w' = db w.
Proof.
  intros Hrun. apply keeps_run with (proj := λ d, d) in Hrun; [done|].
  unfold requireAccount, requireSimulation. apply _.
Qed.
Lemma approvable_Ok a account id w current prior w' :
  approvable environment a account id w = (Ok (current, prior), w') →
  db w' = db w ∧ domains (db w) !! id = Some current ∧ prior = operation_of id (db w) ∧
  isSome (prior ≫= ro_claimedAt) = false ∧
  ∃ i, dom_invoiceId current = Some i ∧ verified_invoice i (dom_customerId current) (db w) = true.
Proof.
  unfold approvable. intros Hrun.
  apply bind_Ok in Hrun as (r&w1&G1&Hrun). apply row_or_throw_Ok in G1 as [Hr ->].
  apply bind_Ok in Hrun as (i&w1&G1&Hrun). apply lift_Ok in G1 as [Hi ->].
  apply of_option_Ok, bind_Some in Hi as (i'&Hi&Hi').
  apply bind_Ok in Hrun as (u&w1&G1&Hrun). apply requireAccount_same in G1 as E.
  apply bind_Ok in Hrun as (paid&w2&G2&Hrun). apply read_Ok in G2 as [-> ->].
  apply bind_Ok in Hrun as (u'&w2&G2&Hrun). apply require_Ok in G2 as [Hpaid ->].
  apply bind_Ok in Hrun as (p&w2&G2&Hrun). apply read_Ok in G2 as [-> ->].
  apply bind_Ok in Hrun as (u2&w2&G2&Hrun). apply require_Ok in G2 as [Hc ->].
  apply ret_Ok in Hrun as [[= -> ->] ->]. rewrite E in *.
  destruct (String.eqb _ _); [done|]. injection Hi' as ->.
  split_and!; [done..|by apply negb_true_iff in Hc|eauto].
Qed.
Lemma approved_operation_run input auth prior domain account credentialId selected w o w' :
  approved_operation input auth prior domain account credentialId selected w = (Ok o, w') →
  registrar_ok (db w) → domains (db w) !! dom_id domain = Some domain →
  prior = operation_of (dom_id domain) (db w) → isSome (prior ≫= ro_claimedAt) = false →
  db_run (db w) [] (db w') ∧ domains (db w') = domains (db w) ∧
  unclaimed_domain (domain_view (db w')) (dom_id domain).
Proof.
  unfold approved_operation. intros Hrun Hok Hd -> Hc. pose proof (rok_keyed _ Hok) as K.
  destruct (operation_of (dom_id domain) (db w)) as [p|] eqn:Hp.
  { apply ret_Ok in Hrun as [-> ->]. split_and!; [by apply db_run_same|done|].
    eapply operation_unclaimed; [done|exact Hp|]. simpl in Hc. by destruct (ro_claimedAt p). }
  apply bind_Ok in Hrun as (id&w1&G1&Hrun). apply random_uuid_Ok in G1 as [_ ->].
  apply bind_Ok in Hrun as (now&w1&G1&Hrun). apply new_date_Ok in G1 as [_ ->].
  apply bind_Ok in Hrun as (u&w1&G1&Hrun). apply create_row_Ok in G1 as (Hn&_&E).
  apply ret_Ok in Hrun as [-> ->]. simpl in Hn, E.
  assert (∀ i x, registrarOperations (db w) !! i = Some x → ro_domainId x ≠ dom_id domain) as Hno.
  { intros i x Hx. by apply (find_unique_None _ _ _ _ _ Hp Hx). }
  split_and!.
  - rewrite E. by apply db_run_propose.
  - by rewrite E.
  - assert (domain_view (db w1) = domain_view (db w) <| v_registrations := <[id :=
        registration_of (new_operation id input auth domain account credentialId selected now)]> (v_registrations (domain_view (db w))) |>) as ->
      by (rewrite E; apply view_set_operation).
    intros i r Hr Hdom. simpl in Hr.
    apply lookup_insert_Some in Hr as [[_ <-]|[_ Hr]]; [done|].
    apply lookup_fmap_Some in Hr as (x&<-&Hx). by apply Hno in Hx.
Qed.
#[export] Instance request_registration_keeps o e k :
  Keeps protocol_tables (request_registration o e k).
Proof. unfold request_registration. apply _. Qed.
Lemma latest_or_throw_same id w r w' : latest_or_throw id w = (Ok r, w') → w' = w.
Proof.
  unfold latest_or_throw. intros Hrun. apply bind_Ok in Hrun as (x&w1&G1&Hrun).
  apply read_Ok in G1 as [_ ->]. by apply lift_Ok in Hrun as [_ ->].
Qed.
Lemma approve_tx_run id input auth a w u w' :
  approve_tx environment id input auth a w = (Ok u, w') → registrar_ok (db w) →
  db_run (db w) [] (db w').
Proof.
  unfold approve_tx, lockDomainInvoice. intros Hrun Hok. pose proof (rok_keyed _ Hok) as K.
  apply bind_Ok in Hrun as (u1&w1&G1&Hrun). apply lock_row_Ok in G1 as ->.
  apply bind_Ok in Hrun as (u2&w1&G1&Hrun). apply lock_row_Ok in G1 as ->.
  apply bind_Ok in Hrun as (account&w1&G1&Hrun). apply row_or_throw_Ok in G1 as [Ha ->].
  apply bind_Ok in Hrun as ([current prior]&w1&G1&Hrun).
  apply approvable_Ok in G1 as (E1&Hd&Hp&Hc&_). pose proof (key_domain _ K _ _ Hd) as Hid.
  apply bind_Ok in Hrun as (credential&w2&G2&Hrun). apply latest_or_throw_same in G2 as ->.
  apply bind_Ok in Hrun as (sel&w2&G2&Hrun). apply latest_or_throw_same in G2 as ->.
  apply bind_Ok in Hrun as (u3&w2&G2&Hrun). apply require_Ok in G2 as [_ ->].
  apply bind_Ok in Hrun as (u4&w2&G2&Hrun). apply require_Ok in G2 as [_ ->].
  apply bind_Ok in Hrun as (contact&w2&G2&Hrun). apply lift_Ok in G2 as [_ ->].
  apply bind_Ok in Hrun as (o&w2&G2&Hrun).
  rewrite <- E1 in *. subst id.
  apply approved_operation_run in G2 as (R2&E2&Hu); try done.
  apply bind_Ok in Hrun as (u5&w3&G3&Hrun). apply require_Ok in G3 as [_ ->].
  apply bind_Ok in Hrun as (u6&w3&G3&Hrun). apply update_domain_Ok in G3 as (x&Hx&E3).
  rewrite E2, Hd in Hx. injection Hx as <-.
  assert (db_run (db w2) [] (db w3)) as R3.
  { rewrite E3. apply (db_run_domain _ _ current); [apply R2|by rewrite E2| |auto].
    by destruct (avl_selection a). }
  apply (db_run_app _ [] _ [] _ R2), (db_run_app _ [] _ [] _ R3).
  exact (db_run_keeps _ _ _ _ _ (proj1 R3) Hrun).
Qed.
End approval.

(** ** Actions *)
#[export] Instance domain_log_protocol a b c i m : Keeps protocol_tables (domain_log a b c i m).
Proof. unfold domain_log. apply _. Qed.
#[export] Instance action_log_protocol a b i m : Keeps protocol_tables (action_log a b i m).
Proof. unfold action_log. apply _. Qed.
#[export] Instance allocate_protocol : Keeps protocol_tables allocateInvoiceNumber.
Proof. unfold allocateInvoiceNumber. apply _. Qed.
#[export] Instance create_invoice_protocol i : Keeps protocol_tables (create_invoice i).
Proof. unfold create_invoice, put_invoice. apply _. Qed.
#[export] Instance update_invoice_protocol id f : Keeps protocol_tables (update_invoice id f).
Proof. unfold update_invoice. apply _. Qed.
#[export] Instance registrar_encrypt_keeps {T} (proj : Db → T) `{RegistrarCryptoLaws} b v :
  Keeps proj (registrar_encrypt b v).
Proof.
  assert (Keeps proj registrar_iv) as K.
  { intros w. pose proof (registrar_iv_keeps w) as E. by rewrite E. }
  unfold registrar_encrypt. apply _.
Qed.
#[global] Typeclasses Opaque registrar_encrypt.
Lemma db_run_new_action d id a :
  keyed d → domainActions d !! id = None → da_id a = id → da_claimedAt a = None →
  da_submittedAt a = None → da_state a = "REQUESTED" →
  db_run d [] (d <| domainActions := <[id := a]> (domainActions d) |>).
Proof.
  intros K Hn Hid Hc Hs Hst. apply db_run_action; [done..|]. apply run_one, step_request.
  - simpl. by rewrite lookup_fmap, Hn.
  - simpl. by rewrite Hc.
  - simpl. by rewrite Hs.
  - done.
Qed.
(** A change that the protocol does not see. *)
Lemma db_run_same_action d id a a' :
  keyed d → domainActions d !! id = Some a → da_id a' = da_id a →
  mutation_of a' = mutation_of a →
  db_run d [] (d <| domainActions := <[id := a']> (domainActions d) |>).
Proof.
  intros K Ha Hid Hm. apply db_run_action; [done|rewrite Hid; by apply K|].
  rewrite Hm, insert_id by (by apply view_action). destruct (domain_view d). constructor.
Qed.
Lemma db_run_step_action d id a a' es :
  keyed d → domainActions d !! id = Some a → da_id a' = da_id a →
  protocol_step (domain_view d) es
    (domain_view d <| v_mutations := <[id := mutation_of a']> (v_mutations (domain_view d)) |>) →
  db_run d es (d <| domainActions := <[id := a']> (domainActions d) |>).
Proof.
  intros K Ha Hid Hs. apply db_run_action; [done|rewrite Hid; by apply K|]. by apply run_one.
Qed.
Section lifecycle.
Context `{ZodFormats} `{ZodUrl} `{UrlParser} `{ZodIso} `{Sha256} `{DateParser}
  `{RegistrarCryptoLaws} `{ResellbizTransport} `{RegistrarRandom} `{JsNumber}
  (environment : DomainEnvironment).

#[export] Instance renewal_invoice_keeps id r t c s k v :
  Keeps protocol_tables (renewal_invoice id r t c s k v).
Proof using Type*. unfold renewal_invoice, lock_domains. apply _. Qed.
Lemma create_tx_run id domainId request c auth w u w' :
  create_tx id domainId request c auth w = (Ok u, w') → registrar_ok (db w) →
  db_run (db w) [] (db w').
Proof using Type*.
  unfold create_tx. intros Hrun Hok. pose proof (rok_keyed _ Hok) as K.
  apply bind_Ok in Hrun as (u1&w1&G1&Hrun). apply lock_row_Ok in G1 as ->.
  apply bind_Ok in Hrun as (current&w1&G1&Hrun). apply row_or_throw_Ok in G1 as [_ ->].
  apply bind_Ok in Hrun as (expiry&w1&G1&Hrun). apply lift_Ok in G1 as [_ ->].
  apply bind_Ok in Hrun as (open&w1&G1&Hrun). apply read_Ok in G1 as [_ ->].
  apply bind_Ok in Hrun as (u2&w1&G1&Hrun). apply require_Ok in G1 as [_ ->].
  apply bind_Ok in Hrun as (credential&w1&G1&Hrun). apply latest_or_throw_same in G1 as ->.
  apply bind_Ok in Hrun as (invoiceId&w1&G1&Hrun). apply db_run_keeps in G1 as R1; [|apply _|done].
  apply bind_Ok in Hrun as (ciphertext&w2&G2&Hrun).
  apply db_run_keeps in G2 as R2; [|apply _|apply R1].
  apply bind_Ok in Hrun as (now&w3&G3&Hrun). apply new_date_Ok in G3 as [_ ->].
  apply bind_Ok in Hrun as (u3&w3&G3&Hrun). apply create_row_Ok in G3 as (Hn&_&E3).
  assert (db_run (db w2) [] (db w3)) as R3
    by (rewrite E3; apply db_run_new_action; [apply R2|done..]).
  apply (db_run_app _ [] _ [] _ R1), (db_run_app _ [] _ [] _ R2), (db_run_app _ [] _ [] _ R3).
  exact (db_run_keeps _ _ _ _ _ (proj1 R3) Hrun).
Qed.
Lemma claimSubmission_run actionId w u w' :
  claimSubmission actionId w = (Ok u, w') → registrar_ok (db w) →
  db_run (db w) [Submitted actionId] (db w').
Proof using Type*.
  unfold claimSubmission. intros Hrun Hok. pose proof (rok_keyed _ Hok) as K.
  apply bind_Ok in Hrun as (now&w1&G1&Hrun). apply new_date_Ok in G1 as [_ ->].
  apply bind_Ok in Hrun as (n&w1&G1&Hrun). apply require_Ok in Hrun as [Hn ->].
  apply Z.eqb_eq in Hn as ->.
  apply change_row_if_Ok in G1 as [[? _]|(_&a&Ha&Hp&E)]; [done|]. simpl in Ha, E. rewrite E.
  unfold unsubmitted in Hp. split_bool.
  apply (db_run_step_action _ _ a); [done..|].
  apply (step_submit (domain_view (db w)) actionId (mutation_of a)); [by apply view_action|done|].
  by apply String.eqb_eq.
Qed.
Lemma cancel_tx_run domainId actionId auth w u w' :
  cancel_tx domainId actionId auth w = (Ok u, w') → registrar_ok (db w) →
  db_run (db w) [] (db w').
Proof using Type*.
  unfold cancel_tx. intros Hrun Hok. pose proof (rok_keyed _ Hok) as K.
  apply bind_Ok in Hrun as (u1&w1&G1&Hrun). apply lock_row_Ok in G1 as ->.
  apply bind_Ok in Hrun as (u2&w1&G1&Hrun). apply lock_row_Ok in G1 as ->.
  apply bind_Ok in Hrun as (a&w1&G1&Hrun). apply row_or_throw_Ok in G1 as [Ha ->].
  destruct (String.eqb _ _). { apply ret_Ok in Hrun as [_ ->]. by apply db_run_same. }
  apply bind_Ok in Hrun as (u3&w1&G1&Hrun). apply require_Ok in G1 as [Hc ->].
  apply bind_Ok in Hrun as (u4&w1&G1&Hrun).
  assert (Keeps protocol_tables match da_invoiceId a with
    | Some i => cancel_renewal i | None => mret tt end) as Kc
    by (destruct (da_invoiceId a); unfold cancel_renewal; apply _).
  pose proof (keeps_run _ _ _ _ _ Kc G1) as E1. injection E1 as E1 E2 E3 E4.
  apply db_run_keeps in G1 as R1; [|exact Kc|done].
  apply bind_Ok in Hrun as (u5&w2&G2&Hrun). apply change_row_Ok in G2 as (x&Hx&E).
  rewrite E2 in Hx. rewrite Ha in Hx. injection Hx as <-. split_bool.
  assert (db_run (db w1) [] (db w2)) as R2.
  { rewrite E. apply (db_run_step_action _ _ a); [apply R1|by rewrite E2|done|].
    apply (step_cancel (domain_view (db w1)) actionId (mutation_of a));
      [apply view_action; by rewrite E2|done|by apply String.eqb_eq]. }
  apply (db_run_app _ [] _ [] _ R1), (db_run_app _ [] _ [] _ R2).
  exact (db_run_keeps _ _ _ _ _ (proj1 R2) Hrun).
Qed.

(** *** Execution *)
Lemma actions_idle a d busy registrations :
  keyed d →
  busy = rows (λ b, negb (String.eqb (da_id b) (da_id a)) && outstanding (da_accountId a) b)
           (domainActions d) → busy = [] →
  registrations = rows (claimed_registration (da_accountId a)) (registrarOperations d) →
  Forall (λ o, ∃ r, domains d !! ro_domainId o = Some r ∧
                    settled_state (dom_state r) = true) registrations →
  idle (domain_view d) (da_accountId a) (MutationOf (da_id a)).
Proof.
  intros K Hb He -> Hf p Hp. inversion Hp as [id r s Hr Hc Ha Hd Hs|id m Hm Hc Ha Hfin]; subst p.
  - exfalso. simpl in Hr. apply lookup_fmap_Some in Hr as (x&<-&Hx). simpl in *.
    rewrite Forall_forall in Hf. destruct (Hf x) as (y&Hy&Hst).
    { apply list_elem_of_In, elem_rows. split; [|eauto]. unfold claimed_registration.
      by rewrite Ha, String.eqb_refl, Hc. }
    rewrite lookup_fmap, Hy in Hd. simpl in Hd. simplify_eq.
    change (settled_state (dom_state y) = false) in Hs. congruence.
  - f_equal. simpl in Hm. apply lookup_fmap_Some in Hm as (x&<-&Hx). simpl in *.
    destruct (decide (id = da_id a)) as [|Hne]; [done|]. exfalso. rewrite Hb in He.
    assert (x ∈ rows (λ b, negb (String.eqb (da_id b) (da_id a)) &&
                          outstanding (da_accountId a) b) (domainActions d)) as Hin.
    { apply elem_rows. split; [|eauto]. unfold outstanding.
      change (final_action (da_state x) = false) in Hfin.
      rewrite Ha, String.eqb_refl, Hc, Hfin, (key_action d K _ _ Hx). simpl.
      by destruct (String.eqb_spec id (da_id a)). }
    rewrite He in Hin. by apply elem_of_nil in Hin.
Qed.
Lemma may_dispatch_Ok a request w u w' :
  may_dispatch a request w = (Ok u, w') → keyed (db w) →
  db w' = db w ∧ idle (domain_view (db w)) (da_accountId a) (MutationOf (da_id a)) ∧
  (is_renewal request = true → ∃ i, da_invoiceId a = Some i ∧
     verified_invoice i (da_customerId a) (db w) = true).
Proof.
  unfold may_dispatch. intros Hrun K.
  apply bind_Ok in Hrun as (busy&w1&G1&Hrun). apply read_Ok in G1 as [Hb ->].
  apply bind_Ok in Hrun as (u1&w1&G1&Hrun). apply require_Ok in G1 as [He ->]. split_bool.
  apply bind_Ok in Hrun as (regs&w1&G1&Hrun). apply read_Ok in G1 as [Hr ->].
  apply bind_Ok in Hrun as (settled&w1&G1&Hrun). apply registrations_settled_Ok in G1 as [E1 Hs].
  apply bind_Ok in Hrun as (u2&w2&G2&Hrun). apply require_Ok in G2 as [-> ->].
  pose proof (actions_idle a (db w) _ _ K Hb He Hr (Hs eq_refl)) as Hi.
  destruct (is_renewal request).
  - apply bind_Ok in Hrun as (paid&w2&G2&Hrun). apply require_Ok in Hrun as [-> ->].
    destruct (da_invoiceId a) as [i|]; [|by apply ret_Ok in G2 as [? _]].
    apply read_Ok in G2 as [Hp ->]. rewrite E1 in *. eauto 6.
  - apply ret_Ok in Hrun as [_ ->]. by rewrite E1.
Qed.
Lemma claim_action_Ok actionId a w u w' :
  claim_action actionId w = (Ok u, w') → domainActions (db w) !! actionId = Some a →
  ∃ t n, let a' := a <| da_state := "NEEDS_RECONCILIATION" |> <| da_claimedAt := Some t |>
                     <| da_pollCount := da_pollCount a + 1 |> <| da_nextPollAt := n |> in
  db w' = db w <| domainActions := <[actionId := a']> (domainActions (db w)) |>.
Proof.
  unfold claim_action. intros Hrun Ha.
  apply bind_Ok in Hrun as (x&w1&G1&Hrun). apply row_or_throw_Ok in G1 as [Hx ->].
  apply bind_Ok in Hrun as (t&w1&G1&Hrun).
  assert (db w1 = db w) as E1 by (destruct (da_claimedAt x);
    [by apply ret_Ok in G1 as [_ ->]|by apply new_date_Ok in G1 as [_ ->]]).
  apply bind_Ok in Hrun as (now&w2&G2&Hrun). apply new_date_Ok in G2 as [_ ->].
  apply change_row_Ok in Hrun as (y&Hy&E). simpl in Hy, E. rewrite E1 in Hy, E.
  rewrite Ha in Hy. injection Hy as <-. exists t, (now + 180000). exact E.
Qed.
Definition execute_events (actionId : string) (r : option bool) : list Event :=
  match r with Some _ => [ActionClaimed actionId] | None => [] end.
Lemma execute_tx_Ok domainId actionId accountId orderId request auth reconcileOnly w r w' :
  execute_tx domainId actionId accountId orderId request auth reconcileOnly w = (Ok r, w') →
  registrar_ok (db w) →
  db_run (db w) (execute_events actionId r) (db w') ∧
  (r = Some true → ∃ a, domainActions (db w) !! actionId = Some a ∧ da_claimedAt a = None ∧
     reconcileOnly = false ∧
     (is_renewal request = true → ∃ i, da_invoiceId a = Some i ∧
        verified_invoice i (da_customerId a) (db w) = true)).
Proof.
  unfold execute_tx. intros Hrun Hok. pose proof (rok_keyed _ Hok) as K.
  apply bind_Ok in Hrun as (u1&w1&G1&Hrun). apply lock_row_Ok in G1 as ->.
  apply bind_Ok in Hrun as (u2&w1&G1&Hrun). apply lock_row_Ok in G1 as ->.
  apply bind_Ok in Hrun as (u2'&w1&G1&Hrun). apply lock_row_Ok in G1 as ->.
  apply bind_Ok in Hrun as (a&w1&G1&Hrun). apply row_or_throw_Ok in G1 as [Ha ->].
  destruct (final_action _) eqn:Hf. { apply ret_Ok in Hrun as [-> ->]. by split; [apply db_run_same|]. }
  apply bind_Ok in Hrun as (slot&w1&G1&Hrun).
  assert (db w1 = db w) as E1.
  { apply keeps_run with (proj := λ d, d) in G1; [done|]. unfold poll_open. apply _. }
  apply bind_Ok in Hrun as (u3&w2&G2&Hrun). apply require_Ok in G2 as [_ ->].
  apply bind_Ok in Hrun as (u4&w2&G2&Hrun).
  assert (db w2 = db w1) as E2.
  { apply keeps_run with (proj := λ d, d) in G2; [done|]. unfold action_parties. apply _. }
  apply bind_Ok in Hrun as (u5&w3&G3&Hrun). apply require_Ok in G3 as [Hrec ->].
  apply bind_Ok in Hrun as (u6&w3&G3&Hrun).
  rewrite <- E1, <- E2 in *. pose proof (key_action _ K _ _ Ha) as Hid.
  assert (db w3 = db w2 ∧ (da_claimedAt a = None → 
    idle (domain_view (db w2)) (da_accountId a) (MutationOf actionId) ∧
    (is_renewal request = true → ∃ i, da_invoiceId a = Some i ∧
        verified_invoice i (da_customerId a) (db w2) = true))) as [E3 Hidle].
  { destruct (da_claimedAt a); simpl in G3; [by apply ret_Ok in G3 as [_ ->]|].
    apply may_dispatch_Ok in G3 as (E3&Hi&Hp); [|done]. rewrite Hid in Hi. done. }
  apply bind_Ok in Hrun as (u7&w4&G4&Hrun). apply (claim_action_Ok _ a) in G4 as (t&n&E4);
    [|by rewrite E3]. rewrite E3 in E4. simpl in E4.
  apply bind_Ok in Hrun as (u8&w5&G5&Hrun). apply ret_Ok in Hrun as [-> ->].
  assert (db_run (db w2) [ActionClaimed actionId] (db w4)) as R.
  { rewrite E4. apply (db_run_step_action _ _ a); [done..|].
    apply (step_claim (domain_view (db w2)) actionId (mutation_of a));
      [by apply view_action|exact Hf|]. simpl. destruct (da_claimedAt a); [by left|right].
    by apply Hidle. }
  split.
  - apply (db_run_app _ [_] _ [] _ R). exact (db_run_keeps _ _ _ _ _ (proj1 R) G5).
  - intros [= Hd]. split_bool. exists a. destruct (da_claimedAt a); [done|].
    split_and!; [done..|by destruct reconcileOnly|by apply Hidle].
Qed.

(** *** Outcomes *)
Lemma finish_run d actionId a s :
  keyed d → domainActions d !! actionId = Some a → isSome (da_claimedAt a) = true →
  s = "SUCCEEDED" ∨ s = "FAILED" →
  db_run d [] (d <| domainActions := <[actionId := a <| da_state := s |>]> (domainActions d) |>).
Proof.
  intros K Ha Hc Hs. apply (db_run_step_action _ _ a); [done..|].
  apply (step_finish (domain_view d) actionId (mutation_of a)); [by apply view_action|done..].
Qed.
Lemma claimed_row d actionId a :
  claimed_mutation (domain_view d) actionId → domainActions d !! actionId = Some a →
  isSome (da_claimedAt a) = true.
Proof. intros (m&Hm&Hc) Ha. rewrite (view_action _ _ _ Ha) in Hm. by injection Hm as <-. Qed.
Lemma store_management_run domainId state contact w u w' :
  store_management domainId state contact w = (Ok u, w') → keyed (db w) →
  db_run (db w) [] (db w') ∧ domainActions (db w') = domainActions (db w).
Proof using Type*.
  unfold store_management. intros Hrun K.
  apply bind_Ok in Hrun as (c&w1&G1&Hrun).
  assert (db w1 = db w) as E1.
  { apply keeps_run with (proj := λ d, d) in G1; [done|]. apply _. }
  apply bind_Ok in Hrun as (expiry&w2&G2&Hrun). apply lift_Ok in G2 as [_ ->].
  apply update_domain_Ok in Hrun as (r&Hr&E). rewrite E1 in Hr, E. rewrite E.
  split; [|done]. apply (db_run_domain _ _ r); [done..| |]; [|left]; by destruct c.
Qed.
Lemma settle_tx_run domainId actionId request auth projected contact confirmed failed w u w' :
  settle_tx domainId actionId request auth projected contact confirmed failed w = (Ok u, w') →
  registrar_ok (db w) → claimed_mutation (domain_view (db w)) actionId →
  db_run (db w) [] (db w').
Proof using Type*.
  unfold settle_tx. intros Hrun Hok Hc. pose proof (rok_keyed _ Hok) as K.
  apply bind_Ok in Hrun as (u1&w1&G1&Hrun). apply lock_row_Ok in G1 as ->.
  apply bind_Ok in Hrun as (u2&w1&G1&Hrun). apply lock_row_Ok in G1 as ->.
  apply bind_Ok in Hrun as (a&w1&G1&Hrun). apply row_or_throw_Ok in G1 as [Ha ->].
  destruct (String.eqb _ _). { apply ret_Ok in Hrun as [_ ->]. by apply db_run_same. }
  apply bind_Ok in Hrun as (u3&w1&G1&Hrun). apply store_management_run in G1 as [R1 E1]; [|done].
  apply bind_Ok in Hrun as (u4&w2&G2&Hrun).
  assert (db_run (db w1) [] (db w2)) as R2.
  { apply when_Ok in G2 as [[_ G2]|[_ ->]]; [|apply db_run_same; [apply R1|done]].
    apply change_row_Ok in G2 as (x&Hx&->). rewrite E1 in Hx. rewrite Ha in Hx. injection Hx as <-.
    apply finish_run; [apply R1|by rewrite E1|by eapply claimed_row|by left]. }
  apply (db_run_app _ [] _ [] _ R1), (db_run_app _ [] _ [] _ R2).
  exact (db_run_keeps _ _ _ _ _ (proj1 R2) Hrun).
Qed.
Lemma fail_unsent_run domainId actionId auth w u w' :
  fail_unsent domainId actionId auth w = (Ok u, w') → registrar_ok (db w) →
  claimed_mutation (domain_view (db w)) actionId → db_run (db w) [] (db w').
Proof.
  unfold fail_unsent. intros Hrun Hok Hc. pose proof (rok_keyed _ Hok) as K.
  rewrite transaction_Ok in Hrun. apply bind_Ok in Hrun as (u1&w1&G1&Hrun).
  apply change_row_Ok in G1 as (a&Ha&E).
  assert (db_run (db w) [] (db w1)) as R1.
  { rewrite E. apply finish_run; [done..|by eapply claimed_row|by right]. }
  apply (db_run_app _ [] _ [] _ R1). exact (db_run_keeps _ _ _ _ _ (proj1 R1) Hrun).
Qed.
(** A purchase and a link only add a domain. *)
Lemma create_domain_run r w u w' :
  create_domain r w = (Ok u, w') → keyed (db w) → db_run (db w) [] (db w').
Proof.
  intros Hrun K. apply create_domain_Ok in Hrun as [Hn ->]. by apply db_run_create_domain.
Qed.
End lifecycle.

(** ** Histories *)
(** A step of the program that sends nothing: it adds domains at most. *)
Definition quiet (d d' : Db) : Prop :=
  keyed d' ∧ ∃ ds, v_domains (domain_view d) ⊆ ds ∧
    domain_view d' = domain_view d <| v_domains := ds |>.
Section history.
Context `{ZodFormats} `{ZodUrl} `{UrlParser} `{ZodIso} `{Sha256} `{DateParser}
  `{RegistrarCryptoLaws} `{ResellbizTransport} `{RegistrarRandom} `{JsNumber}
  (environment : DomainEnvironment) (injected : option DomainRegistrar)
  (options : ProcessorOptions).

(** The transactions, whatever arguments the code between them computes; the last two
    run after the action was claimed.  A transaction that fails leaves the tables. *)
Inductive registrar_step (past : list Event) : World → list Event → World → Prop :=
| rs_prepare locator invoiceId w r w' :
    transaction (prepare_tx injected options locator invoiceId) w = (Ok r, w') →
    registrar_step past w (prepare_events (ro_id locator) r) w'
| rs_record locator invoiceId itemId intent observation w u w' :
    transaction (record_tx locator invoiceId itemId intent observation) w = (Ok u, w') →
    registrar_step past w [] w'
| rs_approve id input auth a w u w' :
    transaction (approve_tx environment id input auth a) w = (Ok u, w') →
    registrar_step past w [] w'
| rs_create id domainId request c auth w u w' :
    transaction (create_tx id domainId request c auth) w = (Ok u, w') →
    registrar_step past w [] w'
| rs_execute domainId actionId accountId orderId request auth reconcileOnly w r w' :
    transaction (execute_tx domainId actionId accountId orderId request auth reconcileOnly) w = (Ok r, w') →
    registrar_step past w (execute_events actionId r) w'
| rs_submit actionId w u w' :
    claimSubmission actionId w = (Ok u, w') → registrar_step past w [Submitted actionId] w'
| rs_cancel domainId actionId auth w u w' :
    transaction (cancel_tx domainId actionId auth) w = (Ok u, w') → registrar_step past w [] w'
| rs_failed domainId actionId auth w u w' :
    ActionClaimed actionId ∈ past → fail_unsent domainId actionId auth w = (Ok u, w') →
    registrar_step past w [] w'
| rs_settled domainId actionId request auth projected contact confirmed failed w u w' :
    ActionClaimed actionId ∈ past →
    transaction (settle_tx domainId actionId request auth projected contact confirmed failed) w
      = (Ok u, w') → registrar_step past w [] w'
| rs_quiet w w' : quiet (db w) (db w') → registrar_step past w [] w'.
Inductive registrar_history (w0 : World) : list Event → World → Prop :=
| rh_start : registrar_history w0 [] w0
| rh_step past w es w' :
    registrar_history w0 past w → registrar_step past w es w' →
    registrar_history w0 (past ++ es) w'.

Lemma registrar_step_run past w es w' :
  registrar_ok (db w) → (∀ id, ActionClaimed id ∈ past → claimed_mutation (domain_view (db w)) id) →
  registrar_step past w es w' → db_run (db w) es (db w').
Proof using Type*.
  intros Hok Hpast. destruct 1 as [????? Hr|???????? Hr|?????? ? Hr|???????? Hr|?????????? Hr|
    ???? Hr|????? ? Hr|????? ? Hin Hr|??????????? Hin Hr|?? [K (ds&Hds&E)]].
  - rewrite transaction_Ok in Hr. by apply prepare_tx_Ok in Hr as [? _].
  - rewrite transaction_Ok in Hr. by apply record_tx_run in Hr.
  - rewrite transaction_Ok in Hr. by apply approve_tx_run in Hr.
  - rewrite transaction_Ok in Hr. by eapply create_tx_run in Hr.
  - rewrite transaction_Ok in Hr. by apply execute_tx_Ok in Hr as [? _].
  - by eapply claimSubmission_run in Hr.
  - rewrite transaction_Ok in Hr. by eapply cancel_tx_run in Hr.
  - apply fail_unsent_run in Hr; auto.
  - rewrite transaction_Ok in Hr. eapply settle_tx_run in Hr; auto.
  - split; [done|]. rewrite E. by apply run_one, step_quiet.
Qed.
Lemma registrar_history_run w0 es w :
  registrar_ok (db w0) → registrar_history w0 es w →
  registrar_ok (db w) ∧ db_run (db w0) es (db w).
Proof using Type*.
  intros Hok. induction 1 as [|past w es w' _ [Hok' R] Hst].
  { split; [done|]. apply db_run_same; [apply Hok|done]. }
  apply registrar_step_run in Hst as R'; [|done|].
  - split; [|by eapply db_run_app]. split; [apply R'|]. eapply protocol_run_ok, R'. apply Hok'.
  - intros id Hin. eapply reported_claim; [apply R|done].
Qed.
End history.
