(* ===== verification/JsonProperties.v ===== *)
(** * JSON texts are read back

    [JSON.parse] undoes [JSON.stringify] on the values the services encrypt and
    store, and so does the cipher of the registrar: [JsonText], [Registrar].  The readers
    have the fuel they need ([JsonFuel]). *)
From S2P Require Import Prelude JsString JsDate Json Money States AuthTables DomainTables Database Invoices Payments Gateways GatewayAdapters Orders HostingAutomation HostingPanels CpanelAdapter DomainContracts PanelOperations JsonText Totp Authentication Registrar ServerProtocol.

(** Values [JSON.stringify] writes without loss: safe integers, no undefined value, and
    no repeated key. *)
Fixpoint plain_json (v : json) : bool :=
  match v with
  | JUndefined | JFrac _ => false
  | JNull | JBool _ | JStr _ => true
  | JNum n => Z.abs n <=? max_safe_integer
  | JArr l => forallb plain_json l
  | JObj o => forallb (λ kv, plain_json kv.2) o && bool_decide (NoDup (fst <$> o))
  end.
Section json_ind.
Context (P : json → Prop) (HU : P JUndefined) (HN : P JNull) (HB : ∀ b, P (JBool b))
  (HZ : ∀ n, P (JNum n)) (HF : ∀ t, P (JFrac t)) (HS : ∀ s, P (JStr s))
  (HA : ∀ l, Forall P l → P (JArr l)) (HO : ∀ o, Forall (λ kv, P kv.2) o → P (JObj o)).
Fixpoint json_induction (v : json) : P v :=
  match v with
  | JUndefined => HU | JNull => HN | JBool b => HB b | JNum n => HZ n | JFrac t => HF t
  | JStr s => HS s
  | JArr l => HA l ((fix go l : Forall P l :=
      match l with
      | [] => List.Forall_nil P
      | v :: l => List.Forall_cons P v l (json_induction v) (go l)
      end) l)
  | JObj o => HO o ((fix go o : Forall (λ kv, P kv.2) o :=
      match o with
      | [] => List.Forall_nil _
      | kv :: o => List.Forall_cons (λ kv, P kv.2) kv o (json_induction kv.2) (go o)
      end) o)
  end.
End json_ind.

(** ** Strings *)
Lemma parse_json_char c t :
  parse_chars (json_char c ++ t) = '(v, rest) ← parse_chars t; Some (String c v, rest).
Proof. destruct c as [[] [] [] [] [] [] [] []]; reflexivity. Qed.
Lemma parse_json_chars s rest :
  parse_chars (json_chars s ++ String "034" rest) = Some (s, rest).
Proof.
  induction s as [|c s IH]; [done|]. cbn [json_chars].
  rewrite <- app_string_assoc, parse_json_char, IH. done.
Qed.

(** ** Numbers *)
(** A text that does not continue a number. *)
Definition stops (s : string) : bool :=
  match s with
  | EmptyString => true
  | String c _ => negb (is_digit c || Ascii.eqb c "." || Ascii.eqb c "e" || Ascii.eqb c "E")
  end.
Lemma take_digits_all d rest :
  all_chars is_digit d = true → stops rest = true → take_digits (d ++ rest) = (d, rest).
Proof.
  induction d as [|c d IH]; simpl; intros Hd Hr.
  - destruct rest as [|c t]; [done|]. simpl in *. split_bool.
    by match goal with H : is_digit c = false |- _ => rewrite H end.
  - split_bool. match goal with H : is_digit c = true |- _ => rewrite H end. by rewrite IH.
Qed.
Lemma stops_fraction rest : stops rest = true →
  take_fraction rest = ("", rest) ∧ take_exponent rest = ("", rest).
Proof.
  destruct rest as [|c t]; [done|]. unfold stops. simpl. intros H. split_bool.
  split; repeat match goal with H : Ascii.eqb c _ = false |- _ => rewrite H; clear H end; done.
Qed.
Lemma zero_or_not c : is_digit c = true → c = "0"%char ∨ is_nonzero_digit c = true.
Proof.
  destruct c as [[] [] [] [] [] [] [] []]; intros H; try discriminate H; auto.
Qed.
Lemma nonzero_not_zero c : is_nonzero_digit c = true → Ascii.eqb c "0" = false.
Proof. intros H. destruct (Ascii.eqb_spec c "0") as [->|]; [discriminate H|done]. Qed.
Lemma take_integer_canonical d rest :
  canonical_decimal d = true → stops rest = true → take_integer (d ++ rest) = Some (d, rest).
Proof.
  destruct d as [|c d]; [done|]. simpl. intros Hd Hr.
  destruct (decide (is_digit c = true ∧ d = EmptyString ∧ c = "0"%char)) as [(?&->&->)|Hn]; [done|].
  assert (is_nonzero_digit c = true ∧ all_chars is_digit d = true) as [Hc Ha].
  { destruct d; [|by split_bool]. split; [|done].
    destruct (zero_or_not c Hd) as [->|]; [|done]. by destruct Hn. }
  rewrite nonzero_not_zero, Hc by done. by rewrite take_digits_all.
Qed.
Lemma canonical_text d : canonical_decimal d = true →
  all_chars is_digit d = true ∧ truthy d = true.
Proof. intros H. split; [by apply canonical_digits|by destruct d]. Qed.
Lemma integer_text_digits d : canonical_decimal d = true →
  integer_text d = true ∧ integer_text (String "-" d) = true ∧
  text_to_Z d = string_to_Z d ∧ text_to_Z (String "-" d) = - string_to_Z d ∧
  take_sign ["-"%char] d = ("", d).
Proof.
  intros H. destruct (canonical_text d H) as [Ha Ht]. unfold integer_text, text_to_Z.
  rewrite Ha, Ht. destruct d as [|c d]; [done|]. cbn [all_chars] in Ha. split_bool.
  assert (c ≠ "-"%char) as Hc by (intros ->; discriminate).
  destruct c as [[] [] [] [] [] [] [] []]; done.
Qed.
Lemma take_sign_digits d rest : canonical_decimal d = true →
  take_sign ["-"%char] (d ++ rest) = ("", (d ++ rest)%string).
Proof.
  intros H. destruct (integer_text_digits d H) as (_&_&_&_&Hs). destruct d as [|c d]; [done|].
  simpl in *. by destruct (Ascii.eqb c "-").
Qed.
Lemma parse_number n rest :
  stops rest = true →
  take_number (Z_to_string n ++ rest) = Some (Z_to_string n, rest) ∧
  integer_text (Z_to_string n) = true ∧ text_to_Z (Z_to_string n) = n.
Proof.
  intros Hr. destruct (stops_fraction rest Hr) as [Hf He].
  destruct (Z.ltb_spec n 0) as [Hn|Hn].
  - destruct (Z_to_string_spec (- n)) as [Hc Hv]; [lia|].
    assert (Z_to_string n = String "-" (Z_to_string (- n))) as ->.
    { unfold Z_to_string. destruct (Z.ltb_spec n 0), (Z.ltb_spec (- n) 0); lia || done. }
    destruct (integer_text_digits _ Hc) as (_&Hi&_&Ht&_). rewrite Ht, Hv.
    split_and!; [|done|lia]. unfold take_number. simpl.
    rewrite take_integer_canonical by done. simpl. rewrite Hf, He. simpl.
    by rewrite !app_string_nil_r.
  - destruct (Z_to_string_spec n Hn) as [Hc Hv].
    destruct (integer_text_digits _ Hc) as (Hi&_&Ht&_&_). rewrite Ht.
    split_and!; [|done|done]. unfold take_number. rewrite take_sign_digits by done.
    rewrite take_integer_canonical by done. simpl. rewrite Hf, He. simpl.
    by rewrite !app_string_nil_r.
Qed.

(** ** The first character of a text *)
Definition starts (c : ascii) : bool :=
  negb (is_json_space c) && negb (Ascii.eqb c "]") && negb (Ascii.eqb c "}").
Lemma digit_starts c : is_digit c || Ascii.eqb c "-" = true →
  starts c = true ∧ Ascii.eqb c "034" = false ∧ Ascii.eqb c "[" = false ∧
  Ascii.eqb c "{" = false ∧ Ascii.eqb c "t" = false ∧ Ascii.eqb c "f" = false ∧
  Ascii.eqb c "n" = false.
Proof. destruct c as [[] [] [] [] [] [] [] []]; intros H; try discriminate H; done. Qed.
Lemma number_start n : ∃ c t, Z_to_string n = String c t ∧ is_digit c || Ascii.eqb c "-" = true.
Proof.
  destruct (Z.ltb_spec n 0) as [Hn|Hn].
  - exists "-"%char, (nat_to_string (- n)). unfold Z_to_string.
    by destruct (Z.ltb_spec n 0); [|lia].
  - destruct (Z_to_string_spec n Hn) as [Hc _]. apply canonical_digits in Hc as Hd.
    destruct (Z_to_string n) as [|c t]; [done|]. simpl in Hd. split_bool.
    exists c, t. split; [done|]. by apply orb_true_iff; left.
Qed.
Lemma print_start v : plain_json v = true → ∃ c t, json_print v = String c t ∧ starts c = true.
Proof.
  destruct v as [| |[]|n|t|s|l|o]; try done; intros _; try (eexists _, _; split; reflexivity).
  destruct (number_start n) as (c&t&E&Hc). exists c, t. split; [exact E|]. by apply digit_starts.
Qed.
Lemma skip_start c t : starts c = true → skip_space (String c t) = String c t.
Proof. unfold starts. intros H. split_bool. simpl. by destruct (is_json_space c). Qed.
Lemma open_items n c t : starts c = true →
  match String c t with
  | String "]" r => Some (JArr [], r)
  | t => parse_items n t []
  end = parse_items n (String c t) [].
Proof. destruct c as [[] [] [] [] [] [] [] []]; intros H; try discriminate H; done. Qed.
Lemma open_fields n c t : starts c = true →
  match String c t with
  | String "}" r => Some (JObj [], r)
  | t => parse_fields n t []
  end = parse_fields n (String c t) [].
Proof. destruct c as [[] [] [] [] [] [] [] []]; intros H; try discriminate H; done. Qed.

(** ** Values *)
Definition reads (v : json) : Prop :=
  plain_json v = true → ∀ n rest, (2 * String.length (json_print v) ≤ n)%nat →
  stops rest = true → parse_value n (json_print v ++ rest) = Some (v, rest).
Lemma reads_number m : reads (JNum m).
Proof.
  intros Hp n rest Hn Hr. destruct (number_start m) as (c&t&E&Hc).
  destruct (parse_number m rest Hr) as (Ht&Hi&Hv). cbn [json_print plain_json] in *.
  destruct n as [|n]; [rewrite E in Hn; simpl in Hn; lia|].
  destruct (digit_starts c Hc) as (Hs&H1&H2&H3&H4&H5&H6).
  cbn [parse_value]. rewrite E in *. cbn [String.append] in *. rewrite skip_start by done.
  rewrite H1, H2, H3. unfold take_primitive.
  assert (∀ w x, Ascii.eqb w c = false → take_word (String w x) (String c (t ++ rest)) = None)
    as Hw by (intros w x Hw; simpl; by rewrite Hw).
  rewrite !Hw by (by rewrite Ascii.eqb_sym). rewrite Ht. cbn.
  unfold number_value. rewrite <- E in *. by rewrite Hi, Hv, Hp.
Qed.
Lemma reads_string s : reads (JStr s).
Proof.
  intros _ n rest Hn Hr. cbn [json_print] in *. unfold json_text, quoted in *.
  destruct n as [|n]; [simpl in Hn; lia|]. cbn [String.append].
  rewrite <- app_string_assoc. cbn [String.append parse_value skip_space].
  change (is_json_space "034") with false. change (Ascii.eqb "034" "034") with true. cbn iota.
  by rewrite parse_json_chars.
Qed.
Definition joined (l : list string) : string := String.concat "," l.
Lemma joined_cons x y l : joined (x :: y :: l) = (x ++ "," ++ joined (y :: l))%string.
Proof. done. Qed.
Lemma reads_items l : Forall reads l → ∀ v, reads v → forallb plain_json (v :: l) = true →
  ∀ n rest acc, (2 * String.length (joined (json_print <$> v :: l)) + 1 ≤ n)%nat →
  parse_items n (joined (json_print <$> v :: l) ++ String "]" rest) acc =
    Some (JArr (acc ++ v :: l), rest).
Proof.
  induction 1 as [|v' l Hv' _ IH]; intros v Hv Hp n rest acc Hn; cbn [forallb] in Hp; split_bool.
  - destruct n as [|n]; [lia|]. change (joined (json_print <$> [v])) with (json_print v) in *.
    cbn [parse_items]. rewrite Hv by (done || lia). done.
  - change (json_print <$> v :: v' :: l) with (json_print v :: json_print v' :: (json_print <$> l))
      in *. rewrite joined_cons in *. rewrite !length_app_string in Hn. simpl in Hn.
    destruct n as [|n]; [lia|]. rewrite <- !app_string_assoc. cbn [parse_items].
    rewrite Hv by (done || lia). cbn -[joined].
    change (json_print v' :: (json_print <$> l)) with (json_print <$> v' :: l) in *.
    change (is_json_space ",") with false. cbn iota.
    rewrite IH; [by rewrite <- app_assoc|done|by apply andb_true_iff|lia].
Qed.
Lemma reads_array l : Forall reads l → reads (JArr l).
Proof.
  intros Hl Hp n rest Hn Hr. cbn [json_print plain_json] in *.
  rewrite !length_app_string in Hn. simpl in Hn. destruct n as [|n]; [lia|].
  destruct l as [|v l]; [done|]. apply Forall_cons_iff in Hl as [Hv Hl].
  cbn [forallb] in Hp. split_bool. destruct (print_start v) as (c&t&E&Hs); [done|].
  assert (∃ t', joined (json_print <$> v :: l) = String c t') as [t' Et].
  { destruct l; simpl; rewrite E; by eexists. }
  rewrite <- !app_string_assoc. cbn [String.append parse_value skip_space].
  change (is_json_space "[") with false. cbn iota. 
  change (Ascii.eqb "[" "034") with false. change (Ascii.eqb "[" "[") with true. cbn iota.
  change (String.concat "," (List.map json_print (v :: l))) with (joined (json_print <$> v :: l)) in *.
  assert (skip_space (joined (json_print <$> v :: l) ++ String "]" rest) =
          (joined (json_print <$> v :: l) ++ String "]" rest)%string) as ->.
  { rewrite Et. by apply skip_start. }
  rewrite Et. etransitivity; [exact (open_items n c (t' ++ String "]" rest) Hs)|].
  change (String c (t' ++ String "]" rest)) with (String c t' ++ String "]" rest)%string.
  rewrite <- Et. apply (reads_items l Hl v Hv) with (acc := []); [by apply andb_true_iff|lia].
Qed.

(** *** Objects *)
Definition field_text (kv : string * json) : string :=
  (json_text kv.1 ++ ":" ++ json_print kv.2)%string.
Lemma fields_printed o : forallb (λ kv, plain_json kv.2) o = true →
  List.flat_map (λ kv, if is_undefined kv.2 then []
                       else [(json_text kv.1 ++ ":" ++ json_print kv.2)%string]) o =
  field_text <$> o.
Proof.
  induction o as [|[k v] o IH]; [done|]. intros H. cbn [forallb snd] in H. split_bool.
  cbn [List.flat_map]. rewrite IH by done. by destruct v.
Qed.
Lemma put_fresh k v o : k ∉ o.*1 → put k v o = o ++ [(k, v)].
Proof.
  induction o as [|[k' v'] o IH]; [done|]. simpl. intros H. apply not_elem_of_cons in H as [Hk H].
  destruct (String.eqb_spec k k'); [done|]. by rewrite IH.
Qed.
Lemma field_parsed n k v acc tail :
  (∀ rest, stops rest = true → parse_value n (json_print v ++ rest) = Some (v, rest)) →
  stops tail = true →
  parse_fields (S n) (field_text (k, v) ++ tail) acc =
    match skip_space tail with
    | String "," t => parse_fields n t (put k v acc)
    | String "}" t => Some (JObj (put k v acc), t)
    | _ => None
    end.
Proof.
  intros Hv Ht. unfold field_text, json_text, quoted. cbn [fst snd String.append].
  rewrite <- !app_string_assoc. cbn [String.append parse_fields skip_space].
  change (is_json_space "034") with false. change (Ascii.eqb "034" "034") with true. cbn iota.
  rewrite parse_json_chars. cbn [mbind option_bind skip_space].
  change (is_json_space ":") with false. cbn iota. by rewrite Hv.
Qed.
Lemma field_length kv : (String.length (json_print kv.2) + 3 ≤ String.length (field_text kv))%nat.
Proof.
  unfold field_text, json_text, quoted. rewrite !length_app_string. cbn [String.length].
  rewrite length_app_string. cbn [String.length]. lia.
Qed.
Lemma reads_fields o : Forall (λ kv, reads kv.2) o → ∀ kv, reads kv.2 →
  forallb (λ kv, plain_json kv.2) (kv :: o) = true →
  ∀ n rest acc, NoDup ((acc ++ kv :: o).*1) →
  (2 * String.length (joined (field_text <$> kv :: o)) + 1 ≤ n)%nat →
  parse_fields n (joined (field_text <$> kv :: o) ++ String "}" rest) acc =
    Some (JObj (acc ++ kv :: o), rest).
Proof.
  induction 1 as [|kv' o Hkv' _ IH]; intros [k v] Hv Hp n rest acc Hd Hn; cbn [forallb] in Hp;
    split_bool; pose proof (field_length (k, v)) as Hlen; cbn [snd] in *.
  - assert (k ∉ acc.*1) as Hk.
    { rewrite fmap_app in Hd. apply list.NoDup_app in Hd as (_&Hd&_). intros Hin.
      apply (Hd k Hin). simpl. left. }
    destruct n as [|n]; [lia|]. change (joined (field_text <$> [(k, v)])) with (field_text (k, v)) in *.
    rewrite field_parsed; [|intros; apply Hv; by (done || lia)|done]. simpl. by rewrite put_fresh.
  - assert (k ∉ acc.*1) as Hk.
    { rewrite fmap_app in Hd. apply list.NoDup_app in Hd as (_&Hd&_). intros Hin.
      apply (Hd k Hin). simpl. left. }
    change (field_text <$> (k, v) :: kv' :: o)
      with (field_text (k, v) :: field_text kv' :: (field_text <$> o)) in *.
    rewrite joined_cons in *. rewrite !length_app_string in Hn.
    change (String.length ",") with 1%nat in Hn. destruct n as [|n]; [lia|].
    rewrite <- !app_string_assoc.
    rewrite field_parsed; [|intros; apply Hv; by (done || lia)|done].
    change (field_text kv' :: (field_text <$> o)) with (field_text <$> kv' :: o) in *.
    cbn [String.append skip_space]. change (is_json_space ",") with false. cbn iota.
    rewrite put_fresh by done.
    rewrite IH; [by rewrite <- app_assoc|done|by apply andb_true_iff|by rewrite <- app_assoc|lia].
Qed.
Lemma reads_object o : Forall (λ kv, reads kv.2) o → reads (JObj o).
Proof.
  intros Ho Hp n rest Hn Hr. cbn [json_print plain_json] in *. split_bool.
  rewrite fields_printed in * by done.
  rewrite !length_app_string in Hn. change (String.length "{") with 1%nat in Hn.
  change (String.length "}") with 1%nat in Hn. destruct n as [|n]; [lia|].
  destruct o as [|kv o]; [done|]. apply Forall_cons_iff in Ho as [Hv Ho].
  assert (∃ t', joined (field_text <$> kv :: o) = String "034" t') as [t' Et].
  { destruct o; simpl; by eexists. }
  rewrite <- !app_string_assoc. cbn [String.append parse_value skip_space].
  change (is_json_space "{") with false. change (Ascii.eqb "{" "034") with false.
  change (Ascii.eqb "{" "[") with false. change (Ascii.eqb "{" "{") with true. cbn iota.
  change (String.concat "," (field_text <$> kv :: o)) with (joined (field_text <$> kv :: o)) in *.
  assert (skip_space (joined (field_text <$> kv :: o) ++ String "}" rest) =
          (joined (field_text <$> kv :: o) ++ String "}" rest)%string) as ->.
  { rewrite Et. by apply skip_start. }
  rewrite Et. etransitivity; [exact (open_fields n "034" (t' ++ String "}" rest) eq_refl)|].
  change (String "034" (t' ++ String "}" rest)) with (String "034" t' ++ String "}" rest)%string.
  rewrite <- Et. apply (reads_fields o Ho kv Hv) with (acc := []); [done|done|lia].
Qed.
Lemma all_read v : reads v.
Proof.
  apply json_induction; intros; try apply reads_number; try apply reads_string;
    try by apply reads_array. 
  - done.
  - intros _ [|n] rest Hn Hr; [simpl in Hn; lia|]. reflexivity.
  - intros _ [|n] rest Hn Hr; [destruct b; simpl in Hn; lia|]. destruct b; reflexivity.
  - done.
  - by apply reads_object.
Qed.
Lemma json_round_trip v : plain_json v = true → json_parse (json_print v) = Some v.
Proof.
  intros Hp. unfold json_parse, parse_fuel.
  pose proof (all_read v Hp (S (S (String.length (json_print v) + String.length (json_print v))))
                "" ltac:(lia) eq_refl) as H.
  rewrite app_string_nil_r in H. by rewrite H.
Qed.

(** ** Encrypted values *)
Lemma split_on_self a : split_on "." a = [a] → no_dot a = true.
Proof.
  induction a as [|c t IH]; [done|]. cbn [split_on no_dot all_chars].
  destruct (Ascii.eqb c "."); [by destruct t|]. destruct (split_on "." t) as [|p l] eqn:E.
  - by destruct t as [|d t]; [|simpl in E; destruct (Ascii.eqb d "."), (split_on "." t)].
  - intros [= -> ->]. by apply IH.
Qed.
Lemma registrar_encrypt_Ok `{RegistrarCryptoLaws} binding v w c w' :
  registrar_encrypt binding v w = (Ok c, w') →
  ∃ iv tag body, c = (iv ++ "." ++ tag ++ "." ++ body)%string ∧
    registrar_decipher binding iv tag body = Some (json_print v) ∧
    split_on "." c = [iv; tag; body].
Proof.
  unfold registrar_encrypt. intros Hrun. apply bind_Ok in Hrun as (iv&w1&Hiv&Hrun).
  destruct (registrar_encipher binding iv (json_print v)) as [tag body] eqn:E.
  apply ret_Ok in Hrun as [-> ->]. destruct (registrar_texts _ _ _ _ _ E) as [Ht Hb].
  pose proof (registrar_iv_text _ _ _ Hiv) as Hi.
  exists iv, tag, body. split_and!; [done|by eapply registrar_inverse|].
  rewrite split_dot, split_dot by (by apply split_on_self). by rewrite Hb.
Qed.
Lemma registrar_encrypt_read `{RegistrarCryptoLaws} binding v w c w' :
  plain_json v = true → registrar_encrypt binding v w = (Ok c, w') →
  registrar_decrypt binding c = Ok v.
Proof.
  intros Hv Hrun. apply registrar_encrypt_Ok in Hrun as (iv&tag&body&_&Hd&Hs).
  unfold registrar_decrypt. rewrite Hs, Hd. simpl. by rewrite json_round_trip.
Qed.

(** ** The fuel of the readers

    [parse_value] and [scan_value] recurse on a fuel; what they give does not depend on
    it once it is twice the length of the text. *)
Module JsonFuel.
#[local] Notation len := String.length.

(** *** What the readers leave is no longer than what they read *)
Lemma skip_space_len s : (len (skip_space s) ≤ len s)%nat.
Proof. induction s as [|c t IH]; simpl; [lia|]. destruct (is_json_space c); simpl; lia. Qed.
Lemma parse_chars_len s v r : parse_chars s = Some (v, r) → (len r < len s)%nat.
Proof.
  revert v r. induction s as [s IH] using (induction_ltof1 _ len). unfold ltof in IH.
  intros v r. destruct s as [|c t]; [done|]. simpl.
  assert (∀ u k w, (len u ≤ len t)%nat →
    (parse_chars u ≫= λ '(v, rest), Some (String k v, rest)) = Some (w, r) →
    (len r < S (len t))%nat) as Hu.
  { intros u k w Hu ([v' r']&E&[= <- <-])%bind_Some. apply IH in E; simpl; lia. }
  destruct (Ascii.eqb c "034"); [intros [= <- <-]; lia|].
  destruct (Ascii.eqb c "092").
  - destruct t as [|e t]; [done|].
    assert ((e' ← unescape e; '(v, rest) ← parse_chars t; Some (String e' v, rest)) = Some (v, r)
            → (len r < S (S (len t)))%nat) as Hesc.
    { intros (e'&_&E)%bind_Some. apply Hu in E; simpl in *; lia. }
    destruct e as [[] [] [] [] [] [] [] []]; try exact Hesc.
    do 4 (destruct t as [|? t]; [exact Hesc|]).
    intros (?&_&E)%bind_Some. apply bind_Some in E as (?&_&E). apply bind_Some in E as (?&_&E).
    apply bind_Some in E as (?&_&E). case_match; [|done]. apply Hu in E; simpl in *; lia.
  - destruct (_ <? _); [done|]. by apply Hu.
Qed.
Lemma take_digits_len s : (len (take_digits s).2 ≤ len s)%nat.
Proof.
  induction s as [|c t IH]; simpl; [lia|]. destruct (is_digit c); simpl; [|lia].
  destruct (take_digits t); simpl in *; lia.
Qed.
Lemma take_word_len w s r : take_word w s = Some r → (len r ≤ len s)%nat.
Proof.
  revert s r. induction w as [|a w IH]; intros [|b s] r; simpl; intros E; simplify_eq/=; try lia.
  destruct (Ascii.eqb a b); [|done]. apply IH in E. lia.
Qed.
Lemma take_sign_len signs s g r : take_sign signs s = (g, r) → (len r ≤ len s)%nat.
Proof.
  destruct s as [|c s]; simpl; [by intros [= _ <-]|].
  destruct (existsb _ signs); intros [= _ <-]; simpl; lia.
Qed.
Lemma take_number_len s t r : take_number s = Some (t, r) → (len r ≤ len s)%nat.
Proof.
  unfold take_number. destruct (take_sign _ s) as [sign s1] eqn:E1.
  pose proof (take_sign_len _ _ _ _ E1) as H1.
  intros ([i s2]&E2&E)%bind_Some.
  assert ((len s2 ≤ len s1)%nat) as H2.
  { unfold take_integer in E2. destruct s1 as [|c u]; [done|].
    pose proof (take_digits_len u). destruct (Ascii.eqb c "0"); [injection E2 as _ <-; simpl; lia|].
    destruct (is_nonzero_digit c); [|done]. destruct (take_digits u). injection E2 as _ <-.
    simpl in *; lia. }
  destruct (take_fraction s2) as [f s3] eqn:E3.
  assert ((len s3 ≤ len s2)%nat) as H3.
  { unfold take_fraction in E3. destruct s2 as [|c u]; [by injection E3 as _ <-|].
    pose proof (take_digits_len u). destruct (Ascii.eqb c "."); [|by injection E3 as _ <-].
    destruct (take_digits u) as [d q]. destruct (truthy d); injection E3 as _ <-; simpl in *; lia. }
  destruct (take_exponent s3) as [e s4] eqn:E4.
  assert ((len s4 ≤ len s3)%nat) as H4.
  { unfold take_exponent in E4. destruct s3 as [|c u]; [by injection E4 as _ <-|].
    destruct (_ || _); [|by injection E4 as _ <-]. destruct (take_sign _ u) as [sg u'] eqn:Es.
    pose proof (take_digits_len u'). pose proof (take_sign_len _ _ _ _ Es).
    destruct (take_digits u') as [d q]. destruct (truthy d); injection E4 as _ <-; simpl in *; lia. }
  injection E as _ <-. lia.
Qed.
Lemma take_primitive_len s t b r : take_primitive s = Some (t, b, r) → (len r ≤ len s)%nat.
Proof.
  unfold take_primitive. repeat case_match; try (intros [= _ _ <-]; by eapply take_word_len).
  intros ([u q]&E&[= _ _ <-])%bind_Some. by eapply take_number_len.
Qed.
Lemma value_len n :
  (∀ s v r, parse_value n s = Some (v, r) → (len r ≤ len s)%nat) ∧
  (∀ s acc v r, parse_items n s acc = Some (v, r) → (len r ≤ len s)%nat) ∧
  (∀ s acc v r, parse_fields n s acc = Some (v, r) → (len r ≤ len s)%nat).
Proof.
  induction n as [|n (IHv&IHi&IHf)]; [done|]. split_and!; intros s.
  - intros v r. cbn [parse_value]. pose proof (skip_space_len s).
    destruct (skip_space s) as [|c t]; [done|].
    pose proof (skip_space_len t). simpl in *.
    destruct (Ascii.eqb c "034").
    { intros ([? ?]&E%parse_chars_len&[= _ <-])%bind_Some. lia. }
    destruct (Ascii.eqb c "[").
    { destruct (skip_space t) as [|c2 u]; [intros E%IHi; simpl in *; lia|].
      destruct c2 as [[] [] [] [] [] [] [] []];
        first [intros [= _ <-]; simpl in *; lia | intros E%IHi; simpl in *; lia]. }
    destruct (Ascii.eqb c "{").
    { destruct (skip_space t) as [|c2 u]; [intros E%IHf; simpl in *; lia|].
      destruct c2 as [[] [] [] [] [] [] [] []];
        first [intros [= _ <-]; simpl in *; lia | intros E%IHf; simpl in *; lia]. }
    intros ([[? ?] ?]&E%take_primitive_len&[= _ <-])%bind_Some. simpl in *. lia.
  - intros acc v r. cbn [parse_items]. intros ([v1 r1]&E1%IHv&E)%bind_Some.
    pose proof (skip_space_len r1). destruct (skip_space r1) as [|c t]; [done|].
    destruct c as [[] [] [] [] [] [] [] []]; try done;
      first [injection E as _ <-; simpl in *; lia | apply IHi in E; simpl in *; lia].
  - intros acc v r. cbn [parse_fields]. pose proof (skip_space_len s).
    destruct (skip_space s) as [|c t]; [done|]. destruct (Ascii.eqb c "034"); [|done].
    intros ([k r1]&E1%parse_chars_len&E)%bind_Some.
    pose proof (skip_space_len r1). destruct (skip_space r1) as [|c1 t1]; [done|].
    destruct c1 as [[] [] [] [] [] [] [] []]; try done.
    apply bind_Some in E as ([v2 r2]&E2%IHv&E).
    pose proof (skip_space_len r2). destruct (skip_space r2) as [|c2 t2]; [done|].
    destruct c2 as [[] [] [] [] [] [] [] []]; try done;
      first [injection E as _ <-; simpl in *; lia | apply IHf in E; simpl in *; lia].
Qed.

(** *** More fuel gives the same *)
Lemma bind_same {A B} (o : option A) (f g : A → option B) :
  (∀ a, o = Some a → f a = g a) → (o ≫= f) = (o ≫= g).
Proof. destruct o; simpl; auto. Qed.
(** A text of [L] characters needs [2 L + 1] calls, an array or object one more. *)
Definition enough (k L n : nat) : Prop := (L + L + k ≤ n)%nat.
Ltac shorter := unfold enough in *; simpl in *; lia.
Lemma value_fuel L :
  (∀ s n m, (len s ≤ L)%nat → enough 1 (len s) n → enough 1 (len s) m →
     parse_value n s = parse_value m s) ∧
  (∀ s acc n m, (len s ≤ L)%nat → enough 2 (len s) n → enough 2 (len s) m →
     parse_items n s acc = parse_items m s acc) ∧
  (∀ s acc n m, (len s ≤ L)%nat → enough 2 (len s) n → enough 2 (len s) m →
     parse_fields n s acc = parse_fields m s acc).
Proof.
  induction L as [L IH] using lt_wf_ind.
  assert (∀ s n m, (len s ≤ L)%nat → enough 1 (len s) n → enough 1 (len s) m →
     parse_value n s = parse_value m s) as Hv.
  { intros s [|n] [|m] HL Hn Hm; try shorter. cbn [parse_value].
    pose proof (skip_space_len s). destruct (skip_space s) as [|c t]; [done|].
    pose proof (skip_space_len t). destruct (IH (len t)) as (_&Hi&Hf); [shorter|].
    destruct (Ascii.eqb c "034"); [done|].
    destruct (Ascii.eqb c "["); [|destruct (Ascii.eqb c "{"); [|done]];
      (destruct (skip_space t) as [|c2 u]; [first [apply Hi|apply Hf]; shorter|]);
      destruct c2 as [[] [] [] [] [] [] [] []]; first [done|apply Hi; shorter|apply Hf; shorter]. }
  split_and!; [exact Hv|..]; intros s acc [|n] [|m] HL Hn Hm; try shorter.
  - cbn [parse_items]. rewrite (Hv s n m) by shorter. apply bind_same. intros [v r] E.
    apply (proj1 (value_len _)) in E. pose proof (skip_space_len r).
    destruct (skip_space r) as [|c t]; [done|].
    destruct c as [[] [] [] [] [] [] [] []]; try done. apply (IH (len t)); shorter.
  - cbn [parse_fields]. pose proof (skip_space_len s). destruct (skip_space s) as [|c t]; [done|].
    destruct (Ascii.eqb c "034"); [|done]. apply bind_same. intros [k r] E%parse_chars_len.
    pose proof (skip_space_len r). destruct (skip_space r) as [|c1 t1]; [done|].
    destruct c1 as [[] [] [] [] [] [] [] []]; try done. rewrite (Hv t1 n m) by shorter.
    apply bind_same. intros [v r2] E2. apply (proj1 (value_len _)) in E2.
    pose proof (skip_space_len r2). destruct (skip_space r2) as [|c2 t2]; [done|].
    destruct c2 as [[] [] [] [] [] [] [] []]; try done. apply (IH (len t2)); shorter.
Qed.

(** *** The scanner of the registrar's answers *)
Lemma scan_string_len s v r : scan_string s = Some (v, r) → (len r < len s)%nat.
Proof.
  revert v r. induction s as [s IH] using (induction_ltof1 _ len). unfold ltof in IH.
  intros v r. destruct s as [|c t]; [done|]. simpl.
  destruct (Ascii.eqb c "092").
  - destruct t as [|e t]; [done|]. intros ([? ?]&E&[= _ <-])%bind_Some. apply IH in E; shorter.
  - destruct (Ascii.eqb c "034"); [intros [= _ <-]; lia|].
    intros ([? ?]&E&[= _ <-])%bind_Some. apply IH in E; shorter.
Qed.
Lemma scan_token_len s t k r : scan_token s = Some (t, k, r) → (len r < len s)%nat.
Proof.
  intros ([b q]&E%scan_string_len&E2)%bind_Some. apply bind_Some in E2 as (v&_&E2).
  destruct v; try done. by injection E2 as _ _ <-.
Qed.
(** The name of a member and its colon, when the members are those of an object. *)
Definition member_head (object : bool) (keys : list string) (s : string)
    : option (string * list string * string) :=
  if object then
    match s with
    | String "034" t =>
        '(tok, k, r) ← scan_token t;
        if existsb (String.eqb k) keys || existsb (String.eqb k) refused_keys then None
        else match skip_space r with
             | String ":" r2 => Some ((tok ++ spaces r ++ ":")%string, k :: keys, r2)
             | _ => None
             end
    | _ => None
    end
  else Some ("", keys, s).
Lemma member_head_len object keys s h k r :
  member_head object keys s = Some (h, k, r) → (len r ≤ len s)%nat.
Proof.
  unfold member_head. destruct object; [|by intros [= _ _ <-]].
  destruct s as [|[[] [] [] [] [] [] [] []] t]; try done.
  intros ([[tok k'] q]&E%scan_token_len&E2)%bind_Some. destruct (_ || _); [done|].
  pose proof (skip_space_len q). destruct (skip_space q) as [|c u]; [done|].
  destruct c as [[] [] [] [] [] [] [] []]; try done. injection E2 as _ _ <-. shorter.
Qed.
Lemma scan_members_S limit n depth nodes object close keys s :
  scan_members limit (S n) depth nodes object close keys s =
  '(head_, keys, s) ← member_head object keys s;
  '(out, nodes, r) ← scan_value limit n (depth + 1) nodes s;
  match skip_space r with
  | EmptyString => None
  | String c t =>
      let upto := (head_ ++ out ++ spaces r ++ String c "")%string in
      if Ascii.eqb c close then Some (upto, nodes, t)
      else if Ascii.eqb c "," then
        '(more, nodes, r) ←
          scan_members limit n depth nodes object close keys (skip_space t);
        Some ((upto ++ spaces t ++ more)%string, nodes, r)
      else None
  end.
Proof. reflexivity. Qed.
Lemma scan_len limit n :
  (∀ d k s o k' r, scan_value limit n d k s = Some (o, k', r) → (len r ≤ len s)%nat) ∧
  (∀ d k ob cl ks s o k' r,
     scan_members limit n d k ob cl ks s = Some (o, k', r) → (len r ≤ len s)%nat).
Proof.
  induction n as [|n (IHv&IHm)]; [done|]. split.
  - intros d k s o k' r. cbn [scan_value]. destruct (_ || _); [done|].
    pose proof (skip_space_len s). destruct (skip_space s) as [|c t]; [done|].
    pose proof (skip_space_len t). destruct (Ascii.eqb c "034").
    { intros ([[? ?] ?]&E%scan_token_len&[= _ _ <-])%bind_Some. shorter. }
    destruct (Ascii.eqb c "{" || Ascii.eqb c "[").
    + destruct (skip_space t) as [|c2 u]; [done|]. destruct (Ascii.eqb c2 _).
      { intros [= _ _ <-]. shorter. }
      intros ([[? ?] ?]&E%IHm&[= _ _ <-])%bind_Some. shorter.
    + intros ([[? ?] ?]&E%take_primitive_len&[= _ _ <-])%bind_Some. shorter.
  - intros d k ob cl ks s o k' r. rewrite scan_members_S.
    intros ([[h ks'] s']&E1%member_head_len&E)%bind_Some.
    apply bind_Some in E as ([[o2 k2] r2]&E2%IHv&E).
    pose proof (skip_space_len r2). destruct (skip_space r2) as [|c t]; [done|]. cbv zeta in E.
    pose proof (skip_space_len t). destruct (Ascii.eqb c cl); [injection E as _ _ <-; shorter|].
    destruct (Ascii.eqb c ","); [|done].
    apply bind_Some in E as ([[? ?] ?]&E3%IHm&[= _ _ <-]). shorter.
Qed.
Lemma scan_fuel limit L :
  (∀ d k s n m, (len s ≤ L)%nat → enough 1 (len s) n → enough 1 (len s) m →
     scan_value limit n d k s = scan_value limit m d k s) ∧
  (∀ d k ob cl ks s n m, (len s ≤ L)%nat → enough 2 (len s) n → enough 2 (len s) m →
     scan_members limit n d k ob cl ks s = scan_members limit m d k ob cl ks s).
Proof.
  induction L as [L IH] using lt_wf_ind.
  assert (∀ d k s n m, (len s ≤ L)%nat → enough 1 (len s) n → enough 1 (len s) m →
     scan_value limit n d k s = scan_value limit m d k s) as Hv.
  { intros d k s [|n] [|m] HL Hn Hm; try shorter. cbn [scan_value]. destruct (_ || _); [done|].
    pose proof (skip_space_len s). destruct (skip_space s) as [|c t]; [done|].
    pose proof (skip_space_len t). destruct (IH (len t)) as (_&Hi); [shorter|].
    destruct (Ascii.eqb c "034"); [done|]. destruct (_ || _); [|done].
    destruct (skip_space t) as [|c2 u]; [done|]. destruct (Ascii.eqb c2 _); [done|].
    rewrite (Hi _ _ _ _ _ _ n m) by shorter. done. }
  split; [exact Hv|]. intros d k ob cl ks s [|n] [|m] HL Hn Hm; try shorter.
  rewrite !scan_members_S. apply bind_same. intros [[h ks'] s'] E%member_head_len.
  rewrite (Hv _ _ s' n m) by shorter. apply bind_same. intros [[o k2] r] E2.
  apply (proj1 (scan_len _ _)) in E2. pose proof (skip_space_len r).
  destruct (skip_space r) as [|c t]; [done|]. cbv zeta. destruct (Ascii.eqb c cl); [done|].
  destruct (Ascii.eqb c ","); [|done]. pose proof (skip_space_len t).
  destruct (IH (len (skip_space t))) as (_&Hi); [shorter|].
  rewrite (Hi _ _ _ _ _ _ n m) by shorter. done.
Qed.

(** What [JSON.parse] and [losslessRegistrarJson] are asked to read never lacks fuel:
    with any more of it they read the same. *)
Theorem json_fuel_enough s n limit :
  (parse_fuel s ≤ n)%nat →
  parse_value n s = parse_value (parse_fuel s) s ∧
  scan_value limit n 0 0 s = scan_value limit (parse_fuel s) 0 0 s.
Proof.
  unfold parse_fuel. intros Hn. split.
  - apply (value_fuel (len s)); shorter.
  - apply (scan_fuel limit (len s)); shorter.
Qed.
End JsonFuel.
