(* ===== verification/DomainSamples.v ===== *)
(** * A sample registration

    Stand-ins for the ciphers, formats and texts the domain services rely on, and a
    database with a paid and approved registration at the simulated registrar. *)
From S2P Require Import Prelude JsString JsDate Json Money States AuthTables DomainTables Database InvoiceNumber InvoiceTotals Invoices Payments MapSum Ledger Settlement Gateways GatewayAdapters Orders HostingServices HostingAutomation HostingPanels CpanelAdapter DomainContracts PanelOperations JsonText ServerProtocol Totp TotpProperties Authentication AuthSamples Registrar Resellbiz RegistrarProcessor DomainAdministration Domains DomainSales DomainManagement DomainLifecycle ExistingDomains DomainProtocol DomainTransitions.

#[export] Instance sample_registrar_crypto : RegistrarCrypto :=
  {| registrar_iv := plain_iv; registrar_encipher := plain_cipher;
     registrar_decipher := plain_decipher |}.
Lemma dotless_spelled s : split_on "." (spell s) = [spell s].
Proof.
  apply split_dotless. induction s as [|[a b c d e f g h] t IH]; [done|].
  unfold no_dot in *. cbn [spell all_chars]. rewrite IH. by destruct a, b, c, d, e, f, g, h.
Qed.
#[export] Instance sample_registrar_laws : RegistrarCryptoLaws.
Proof.
  split.
  - intros b iv text tag c H. by apply (cipher_inverse b iv text tag c) in H.
  - intros b iv text tag c [= <- <-]. split; [done|apply dotless_spelled].
  - by intros w iv w' [= <- _].
  - done.
Qed.
#[export] Instance any_url : ZodUrl := λ _, true.
#[export] Instance no_urls : UrlParser := λ _, None.
#[export] Instance any_iso : ZodIso := λ _, true.
#[export] Instance day_one : DateParser := λ _, Some 86400000.
#[export] Instance silent_registrar : ResellbizTransport := λ path parameters,
  _ ← modify (λ w, w <| registrarRequests := registrarRequests w ++ [(path, parameters)] |>);
  throw (JsError "down").
#[export] Instance fixed_choice : RegistrarRandom := λ _, mret 0.
#[export] Instance no_numbers : JsNumber := λ _, None.
Definition development : DomainEnvironment := MkDomainEnvironment false false.
Definition simulation : ProcessorOptions := MkProcessorOptions (Some true) None.

(** ** The rows *)
Definition secret (binding : string) (v : json) : string :=
  match registrar_encrypt binding v (at_time empty_db 0) with
  | (Ok c, _) => c | _ => "" end.
Definition registrant : DomainContact :=
  MkContact "First Last" "Company" "Street 1" None "City" "Region" "1000" "BD"
    "person@example.test" "880" "1234567" None.
Definition fake_account : RegistrarAccount := MkRegistrarAccount "a" "stargate" "FAKE" true JNull 1.
Definition fake_credential : RegistrarCredential :=
  MkRegistrarCredential "k" "a" 1 (secret (credentialBinding "a" 1 "FAKE") (JObj [])).
Definition price_row : ProductPrice :=
  MkProductPrice "pp" "p" BillingPeriod.ANNUAL "BDT" 120000 0 true None None None
    ProductKind.DOMAIN ACTIVE true None "Domain" None "domain" None [].
Definition com_offer : DomainOffer :=
  MkDomainOffer "f" "a" "p" "pp" "com" (names_json fictionalNameservers).
Definition sample_quote : DomainQuote :=
  MkDomainQuote "q" "c" "a" "f" "name.com" 120000 1000 "USD"
    (secret (contactBinding "a" "c" "FAKE") (contact_json registrant))
    (repeat_char "a" 64)
    (names_json fictionalNameservers) "fictional-registration-v1" JNull JNull 1000 301000.
Definition fullAdmin : AdminTotpCredential :=
  MkTotpCredential "t" "admin" "" "v1" (Some 1) None.
Definition sample_order : Order :=
  MkOrder "or" "ORD" "domain:s" "c" OrderStatus.PROCESSING "BDT" 120000 0 0 0 120000
    "person@example.test" None JNull 1000 None None 1000.
Definition sample_item : OrderItem :=
  MkOrderItem "it" "or" ProductKind.DOMAIN "p" "pp" "Domain" None BillingPeriod.ANNUAL "BDT"
    120000 0 1 120000 (Some "name.com") JNull None None 1000.
Definition paid_invoice : Invoice :=
  MkInvoice "i" "INV" "invoice:domain:s" "c" (Some "or") InvoiceStatus.PAID "BDT" 120000 0 0
    120000 0 120000 0 "First Last" "person@example.test" JNull JNull JNull (Some 1000) 1000
    (Some 2000) None 1000 2000.
Definition verified_payment : Payment :=
  MkPayment "pay" "i" None None None PaymentKind.CHARGE PaymentStatus.SUCCEEDED "manual" None
    "key" 120000 "BDT" None None None None JNull None (Some 2000) (Some 2000) (Some 2000)
    2000 2000.
Definition requested : Domain :=
  new_domain "d" "q" "c" "a" "it" "i" "name.com" "s" 1000 <| dom_state := "PENDING" |>.
Definition operation : RegistrarOperation :=
  MkRegistrarOperation "o" "d" "c" "a" "k" None None None "admin" 1000 false None 3000 0.
Definition registrar_tables : DomainTables :=
  no_registrar <| t_accounts := {["a" := fake_account]} |>
    <| t_credentials := {["k" := fake_credential]} |> <| t_offers := {["f" := com_offer]} |>
    <| t_quotes := {["q" := sample_quote]} |>.
(** A quote the customer may order. *)
Definition quoted_db : Db :=
  empty_db <| authTables := sample_accounts <| totpCredentials := {["t" := fullAdmin]} |> |>
    <| customers := {["c" := sample_customer]} |> <| productPrices := {["pp" := price_row]} |>
    <| domainTables := registrar_tables |>.
(** It was ordered, paid and approved. *)
Definition approved_db : Db :=
  quoted_db <| orders := {["or" := sample_order]} |> <| orderItems := {["it" := sample_item]} |>
    <| invoices := {["i" := paid_invoice]} |> <| payments := {["pay" := verified_payment]} |>
    <| domains := {["d" := requested]} |>
    <| registrarOperations := {["o" := operation]} |>.
Definition dispatch_run : result (option Preparation) * World :=
  transaction (prepare_tx None simulation operation "i") (at_time approved_db 5000).
Definition dispatched : Db := db (snd dispatch_run).
(** The registrar answers that the registration is active. *)
Definition active_order : RegistrarObservation :=
  MkObservation "r" "a" "c" "o" "name.com" "Active" 31536000000 "Pending".
Definition sample_intent : RegistrarIntent :=
  MkIntent "o" "a" "c" "name.com" fictionalNameservers registrant 1000.
Definition record_run : result unit * World :=
  transaction (record_tx operation "i" "it" sample_intent (Some active_order))
    (snd dispatch_run).

(** ** The tables are well formed *)
Definition keyed_check (d : Db) : bool :=
  bool_decide (map_Forall (λ i o, ro_id o = i) (registrarOperations d)) &&
  bool_decide (map_Forall (λ i a, da_id a = i) (domainActions d)) &&
  bool_decide (map_Forall (λ i r, dom_id r = i) (domains d)) &&
  bool_decide (map_Forall (λ i a, ra_id a = i) (registrarAccounts d)).
Lemma keyed_decided d : keyed_check d = true → keyed d.
Proof. intros H. unfold keyed_check in H. split_bool. by split. Qed.
(** At most one registration and no action: nothing is shared or pending twice. *)
Lemma single_registration v id r :
  v_registrations v = {[id := r]} → v_mutations v = ∅ → is_Some (v_domains v !! rg_domain r) →
  protocol_ok v.
Proof.
  intros Hr Hm Hd. split; rewrite ?Hr, ?Hm.
  - intros i j x y [<- <-]%lookup_singleton_Some [<- <-]%lookup_singleton_Some. done.
  - by intros i x [<- <-]%lookup_singleton_Some.
  - intros account p q. inversion 1 as [i x s Hx|i x Hx]; subst p; rewrite ?Hr, ?Hm in Hx;
      [apply lookup_singleton_Some in Hx as [<- <-]|by rewrite lookup_empty in Hx].
    inversion 1 as [i x' s' Hx|i x' Hx]; subst q; rewrite ?Hr, ?Hm in Hx;
      [by apply lookup_singleton_Some in Hx as [<- <-]|by rewrite lookup_empty in Hx].
  - intros i x Hx. by rewrite lookup_empty in Hx.
  - intros i x Hx. by rewrite lookup_empty in Hx.
Qed.
Lemma approved_ok : registrar_ok approved_db.
Proof.
  split; [apply keyed_decided; vm_compute; reflexivity|].
  apply (single_registration _ "o" (registration_of operation)).
  - unfold domain_view, v_registrations. change (registrarOperations approved_db)
      with ({["o" := operation]} : gmap string RegistrarOperation). by rewrite map_fmap_singleton.
  - change (v_mutations (domain_view approved_db)) with (mutation_of <$> (∅ : gmap string DomainAction)).
    by rewrite fmap_empty.
  - vm_compute. by eexists.
Qed.

(** ** An action on the registered domain *)
Definition admin : AuthRequestContext := admin_auth.
Definition registered : World := snd record_run.
Definition sample_management : ManagementContext :=
  MkManagementContext requested fake_account sample_customer (MkResellbizCredential "1" "key")
    (MkBinding "a" "c" "2" "3") sample_intent "r".
Definition new_names : DomainActionRequest := NAMESERVERS ["ns1.other.test"; "ns2.other.test"].
Definition create_run : result unit * World :=
  transaction (create_tx "x" "d" new_names sample_management admin) registered.
Definition execute_run : result (option bool) * World :=
  transaction (execute_tx "d" "x" "a" "r" new_names admin false) (snd create_run).
Definition submit_run : result unit * World := claimSubmission "x" (snd execute_run).
Definition seen_management : DomainManagement :=
  MkManagement None ["ns1.other.test"; "ns2.other.test"] true "t" "1971-01-01T00:00:00.000Z"
    "Pending".
Definition settle_run : result unit * World :=
  transaction (settle_tx "d" "x" new_names admin seen_management None true false) (snd submit_run).

(** ** A cancelled action, and a renewal *)
Definition cancel_run : result unit * World :=
  transaction (cancel_tx "d" "x" admin) (snd create_run).
Definition again_run : result unit * World :=
  transaction (create_tx "y" "d" (LOCK true) sample_management admin) (snd cancel_run).
Definition renewal : DomainActionRequest := RENEW 120000 None 2000.
Definition renew_run : result unit * World :=
  transaction (create_tx "z" "d" renewal sample_management admin) registered.
(** The invoice of the renewal is paid. *)
Definition renewal_invoice_id : string :=
  default "" (domainActions (db (snd renew_run)) !! "z" ≫= da_invoiceId).
Definition renewal_paid : World :=
  at_time (db (snd renew_run)
    <| invoices := <[renewal_invoice_id := paid_invoice <| inv_id := renewal_invoice_id |>]>
                     (invoices (db (snd renew_run))) |>
    <| payments := <["pay2" := verified_payment <| pay_id := "pay2" |>
                                 <| pay_invoiceId := renewal_invoice_id |>]>
                     (payments (db (snd renew_run))) |>) 9000.
Definition renewal_run : result (option bool) * World :=
  transaction (execute_tx "d" "z" "a" "r" renewal admin false) renewal_paid.
