(* ===== verification/DomainProperties.v ===== *)
(** * What is sent to a registrar

    The services refine the protocol of DomainProtocol; what follows for an account,
    a registration and an action, and for the payment behind them. *)
From S2P Require Import Prelude JsString JsDate Json Money States AuthTables DomainTables Database InvoiceNumber InvoiceTotals Invoices Payments MapSum Ledger Settlement Gateways GatewayAdapters Orders HostingServices HostingAutomation HostingPanels CpanelAdapter DomainContracts PanelOperations JsonText ServerProtocol Totp Authentication AuthSamples Registrar Resellbiz RegistrarProcessor DomainAdministration Domains DomainSales DomainManagement DomainLifecycle ExistingDomains DomainProtocol DomainTransitions JsonProperties DomainSamples.

(** ** Histories *)
Lemma reported_submission v es v' id :
  protocol_run v es v' → id ∈ submissions es → sent_mutation v' id.
Proof.
  induction 1 as [|v es v1 es' v' Hst Hrun IH]; [by intros ?%elem_of_nil|].
  unfold submissions. rewrite omap_app, elem_of_app. intros [Hin|Hin]; [|by apply IH].
  assert (sent_mutation v1 id) as Hs.
  { destruct Hst; simpl in Hin; rewrite ?elem_of_nil, ?list_elem_of_singleton in Hin; try done.
    subst. eexists. simpl. by rewrite lookup_insert_eq. }
  clear -Hrun Hs. induction Hrun; eauto using sent_mutation_step.
Qed.
(** What a verified invoice is. *)
Definition paid_in_full (d : Db) (invoiceId customerId : string) : Prop :=
  ∃ i, invoices d !! invoiceId = Some i ∧ inv_customerId i = customerId ∧
    inv_status i = InvoiceStatus.PAID ∧ inv_currency i = "BDT" ∧ 0 < inv_total i ∧
    inv_balanceDue i = 0 ∧
    let its := rows (λ p, String.eqb (pay_invoiceId p) invoiceId) (payments d) in
    Forall (λ p, pay_status p = PaymentStatus.SUCCEEDED →
      pay_kind p = PaymentKind.CHARGE ∧ pay_currency p = "BDT" ∧ is_Some (pay_verifiedAt p)) its ∧
    foldr (λ p sum, sum + pay_amount p) 0 (List.filter verified_charge its) = inv_total i.
Lemma verified_invoice_paid i c d : verified_invoice i c d = true → paid_in_full d i c.
Proof.
  unfold verified_invoice. intros H. destruct (invoices d !! i) as [v|] eqn:E; [|done].
  split_bool. rewrite String.eqb_eq in *. exists v. split_and!; try done.
  split; [|done]. apply Forall_forall. intros p Hp Hs.
  match goal with Hx : existsb _ _ = false |- _ => rename Hx into Hirr end.
  assert (irregular v p = false) as Hn.
  { destruct (irregular v p) eqn:Hi; [|done]. rewrite <- Hirr. symmetry. apply existsb_exists.
    by exists p. }
  unfold irregular, succeeded in Hn. rewrite Hs in Hn. simpl in Hn.
  apply orb_false_iff in Hn as [[Hk Hcur]%orb_false_iff Hv].
  apply negb_false_iff in Hk, Hcur, Hv. split_bool.
  apply String.eqb_eq in Hcur. split_and!; [done|congruence|by destruct (pay_verifiedAt p)].
Qed.

Section histories.
Context `{ZodFormats} `{ZodUrl} `{UrlParser} `{ZodIso} `{Sha256} `{DateParser}
  `{RegistrarCryptoLaws} `{ResellbizTransport} `{RegistrarRandom} `{JsNumber}
  (environment : DomainEnvironment) (injected : option DomainRegistrar)
  (options : ProcessorOptions).
Notation history := (registrar_history environment injected options).

(** C27: The transactions of the services and of the processor implement the protocol of
    registrar mutations: every history of theirs, from well-formed tables, is a run of
    the abstract machine with the same claims and submissions, and the tables stay well
    formed. *)
Theorem registrar_implements_protocol w0 es w :
  registrar_ok (db w0) → history w0 es w →
  protocol_run (domain_view (db w0)) es (domain_view (db w)) ∧ registrar_ok (db w).
Proof using Type*. intros Hok Hh. by apply registrar_history_run in Hh as [? [_ ?]]. Qed.

(** C4: At any moment of any history a registrar account has at most one mutation that
    was claimed and has no known outcome, a registration or an action. *)
Theorem registrar_exclusive w0 es w account p q :
  registrar_ok (db w0) → history w0 es w →
  pending (domain_view (db w)) account p → pending (domain_view (db w)) account q → p = q.
Proof using Type*.
  intros Hok Hh. apply registrar_history_run in Hh as [[_ Hp] _]; [|done].
  by eapply ok_exclusive.
Qed.

(** C5: Over any history each registration is dispatched at most once and the mutation of
    each action is submitted at most once; a registration that was claimed and an action
    that was submitted at the start are never sent again. *)
Theorem mutations_sent_once w0 es w :
  registrar_ok (db w0) → history w0 es w →
  NoDup (dispatches es) ∧ NoDup (submissions es) ∧
  (∀ id o, registrarOperations (db w0) !! id = Some o → is_Some (ro_claimedAt o) →
    id ∉ dispatches es) ∧
  (∀ id a, domainActions (db w0) !! id = Some a → is_Some (da_submittedAt a) →
    id ∉ submissions es).
Proof using Type*.
  intros Hok Hh. apply registrar_history_run in Hh as [_ [_ R]]; [|done].
  split_and!; [by eapply run_dispatches|by eapply run_submissions|intros id r Hr [t Ht]..].
  - eapply no_dispatch; [exact R|]. exists (registration_of r).
    split; [by apply view_operation|]. simpl. by rewrite Ht.
  - eapply no_submission; [exact R|]. exists (mutation_of r).
    split; [by apply view_action|]. simpl. by rewrite Ht.
Qed.

(** C18: Once an action is cancelled it stays cancelled, and it is never claimed nor sent. *)
Theorem cancelled_action_never_sent w0 es w id a :
  registrar_ok (db w0) → history w0 es w →
  domainActions (db w0) !! id = Some a → da_state a = "CANCELLED" →
  id ∉ submissions es ∧ ActionClaimed id ∉ es ∧
  ∃ a', domainActions (db w) !! id = Some a' ∧ da_state a' = "CANCELLED" ∧
        da_claimedAt a' = None ∧ da_submittedAt a' = None.
Proof using Type*.
  intros Hok Hh Ha Hs. apply registrar_history_run in Hh as [Hok' [_ R]]; [|done].
  pose proof (run_cancelled _ _ _ id (mutation_of a) (rok_protocol _ Hok) R
    (view_action _ _ _ Ha) Hs) as Hm.
  pose proof (rok_protocol _ Hok') as P. pose proof (ok_cancelled _ P id _ Hm Hs) as Hc.
  assert (¬ mu_submitted (mutation_of a) = true) as Hsub.
  { intros Hsub. pose proof (ok_claimed _ P id _ Hm (or_intror Hsub)). congruence. }
  pose proof Hm as Hv. simpl in Hv. apply lookup_fmap_Some in Hv as (a'&E&Ha').
  injection E as _ E1 E2 E3. split_and!.
  - intros Hin. destruct (reported_submission _ _ _ _ R Hin) as (m&Hm'&?). congruence.
  - intros Hin. destruct (reported_claim _ _ _ _ R Hin) as (m&Hm'&?). congruence.
  - exists a'. split_and!; [done|congruence| |]; simpl in Hc, Hsub.
    + destruct (da_claimedAt a'); [simpl in E1; congruence|done].
    + destruct (da_submittedAt a'); [simpl in E2; congruence|done].
Qed.
End histories.

(** ** The payment behind a mutation *)
Section payment.
Context `{ZodFormats} `{ZodUrl} `{UrlParser} `{ZodIso} `{RegistrarCrypto}
  `{ResellbizTransport} `{RegistrarRandom} `{JsNumber}.

(** C9: The processor dispatches a registration only when it was never claimed and its
    domain has no outcome, for the name and the cost limit that were approved, while the
    approver is an active full administrator with a second factor, the customer is
    active (and verified at a live registrar), the order is paid or in progress and the
    invoice of the domain is paid in full by verified charges in its currency. *)
Theorem dispatch_is_paid injected options locator invoiceId w p w' :
  registrar_ok (db w) →
  transaction (prepare_tx injected options locator invoiceId) w = (Ok (Some p), w') →
  pn_dispatch p = true →
  ∃ o r i item order account,
    registrarOperations (db w) !! ro_id locator = Some o ∧ ro_claimedAt o = None ∧
    domains (db w) !! ro_domainId o = Some r ∧ settled_state (dom_state r) = false ∧
    ri_domainName (pn_intent p) = dom_domainName r ∧
    ri_costCeiling (pn_intent p) = ro_costCeiling o ∧
    approving_administrator (user_by_id (ro_actorUserId o) (db w)) = true ∧
    registrarAccounts (db w) !! executing_account o = Some account ∧ ra_enabled account = true ∧
    eligible_owner (String.eqb (ra_mode account) "LIVE")
      (customers (db w) !! dom_customerId r) = true ∧
    (oi ← dom_orderItemId r; orderItems (db w) !! oi) = Some item ∧
    orders (db w) !! oi_orderId item = Some order ∧
    (ord_status order = OrderStatus.PAID ∨ ord_status order = OrderStatus.PROCESSING) ∧
    dom_invoiceId r = Some i ∧ paid_in_full (db w) i (dom_customerId r).
Proof.
  intros Hok Hrun Hd. rewrite transaction_Ok in Hrun.
  apply prepare_tx_Ok in Hrun as [_ Hs]; [|done].
  destruct (Hs p eq_refl Hd) as [(o&r&account&itemId&i&Ho&Hc&Hr&Hset&Ha&Hen&Hi&Hit&[Hap Hown Hord Hpaid]&Hn&Hcost)].
  destruct Hord as (item&order&Hitem&Horder&Hf).
  exists o, r, i, item, order, account. split_and!; try done.
  - by rewrite Hit.
  - unfold fulfilling in Hf. apply orb_true_iff in Hf as [Hf|Hf]; split_bool; auto.
  - by apply verified_invoice_paid.
Qed.

(** C16: The mutation of a renewal may be sent only for an action that was never claimed,
    not while reconciling, and when the action's invoice is paid in full by verified
    charges. *)
Theorem renewal_is_paid domainId actionId accountId orderId selling revision ceiling auth reconcileOnly
    w w' :
  registrar_ok (db w) →
  transaction (execute_tx domainId actionId accountId orderId (RENEW selling revision ceiling) auth
    reconcileOnly) w = (Ok (Some true), w') →
  reconcileOnly = false ∧ ∃ a i,
    domainActions (db w) !! actionId = Some a ∧ da_claimedAt a = None ∧
    da_invoiceId a = Some i ∧ paid_in_full (db w) i (da_customerId a) ∧
    ∃ a', domainActions (db w') !! actionId = Some a' ∧ is_Some (da_claimedAt a').
Proof.
  intros Hok Hrun. rewrite transaction_Ok in Hrun. apply execute_tx_Ok in Hrun as [[_ R] Hs]; [|done].
  destruct (Hs eq_refl) as (a&Ha&Hc&->&Hp). destruct (Hp eq_refl) as (i&Hi&Hv).
  split; [done|]. exists a, i. split_and!; try done; [by apply verified_invoice_paid|].
  destruct (reported_claim _ _ _ actionId R) as (m&Hm&Hcl); [by left|].
  simpl in Hm. apply lookup_fmap_Some in Hm as (a'&<-&Ha').
  exists a'. split; [done|]. simpl in Hcl. by destruct (da_claimedAt a').
Qed.
End payment.

(** ** The outcome of a registration *)
(** An observation of this order, at an expiry still to come. *)
Definition confirms (intent : RegistrarIntent) (observation : option RegistrarObservation)
    (now : Z) (state : string) (o : RegistrarObservation) : Prop :=
  observation = Some o ∧ rob_accountId o = ri_accountId intent ∧
  rob_customerId o = ri_customerId intent ∧ rob_operationId o = ri_operationId intent ∧
  rob_domainName o = ri_domainName intent ∧ now < rob_expiresAt o ∧ rob_state o = state.
Lemma matching_Ok intent observation w m w' :
  matching intent observation w = (Ok m, w') →
  db w' = db w ∧
  ∀ o state, (m = Some o ∧ rob_state o = state) ↔
             confirms intent observation (clock w (ticks w)) state o.
Proof.
  intros H. split; [by eapply matching_same|]. unfold matching in H. unfold confirms.
  destruct observation as [x|]; [|apply ret_Ok in H as [-> _]; naive_solver].
  destruct (names_intent intent x) eqn:E; unfold names_intent in E.
  - apply bind_Ok in H as (t&w1&Ht&H). apply new_date_Ok in Ht as [-> ->].
    apply ret_Ok in H as [-> _]. split_bool. rewrite !String.eqb_eq in *.
    destruct (_ <? _) eqn:Hlt; [apply Z.ltb_lt in Hlt|apply Z.ltb_ge in Hlt];
      intros o state; split; intros; destruct_and?; simplify_eq; split_and?; try done; lia.
  - apply ret_Ok in H as [-> _]. intros o state. split; [naive_solver|].
    intros (Hx&E1&E2&E3&E4&_). simplify_eq. exfalso.
    by rewrite E1, E2, E3, E4, !String.eqb_refl in E.
Qed.
Lemma observed_state_spec m :
  (observed_state m = "REGISTERED" ↔ ∃ o, m = Some o ∧ rob_state o = "Active") ∧
  (observed_state m = "FAILED" ↔ ∃ o, m = Some o ∧ rob_state o = "Rejected").
Proof.
  unfold observed_state. destruct m as [o|]; [|split; (split; [done|by intros (?&?&?)])].
  assert (∀ s, (∃ x, Some o = Some x ∧ rob_state x = s) ↔ rob_state o = s) as Hx.
  { intros s. split; [by intros (?&[= <-]&?)|by exists o]. }
  rewrite !Hx. destruct (String.eqb_spec (rob_state o) "Active") as [E|E];
    [|destruct (String.eqb_spec (rob_state o) "Rejected") as [E'|E']];
    split; split; congruence.
Qed.
Lemma observed_state_cases m :
  observed_state m = "REGISTERED" ∨ observed_state m = "FAILED" ∨
  observed_state m = "NEEDS_RECONCILIATION".
Proof. unfold observed_state. repeat case_match; auto. Qed.
#[export] Instance complete_order_domains itemId : Keeps domains (complete_order itemId).
Proof. unfold complete_order. apply _. Qed.
#[export] Instance add_evidence_domains id c : Keeps domains (add_evidence id c).
Proof. unfold add_evidence. apply _. Qed.

(** C10: Recording an observation changes only its domain, and only one without an outcome:
    it becomes REGISTERED exactly when the observation is an active order of this very
    intent (account, customer, operation and name) that has not expired, and takes its
    order and expiry from it; it fails exactly when such an order was rejected; in every
    other case it needs reconciliation. *)
Theorem registration_recorded_exact locator invoiceId itemId intent observation w u w' r :
  transaction (record_tx locator invoiceId itemId intent observation) w = (Ok u, w') →
  domains (db w) !! ro_domainId locator = Some r →
  (settled_state (dom_state r) = true → db w' = db w) ∧
  (settled_state (dom_state r) = false →
   let now := clock w (ticks w) in
   ∃ r', domains (db w') = <[ro_domainId locator := r']> (domains (db w)) ∧
     r' = r <| dom_state := dom_state r' |> <| dom_providerOrderId := dom_providerOrderId r' |>
            <| dom_expiresAt := dom_expiresAt r' |> <| dom_verification := dom_verification r' |> ∧
     (dom_state r' = "REGISTERED" ↔ ∃ o, confirms intent observation now "Active" o) ∧
     (dom_state r' = "FAILED" ↔ ∃ o, confirms intent observation now "Rejected" o) ∧
     (dom_state r' = "REGISTERED" ∨ dom_state r' = "FAILED" ∨
      dom_state r' = "NEEDS_RECONCILIATION") ∧
     (∀ o, confirms intent observation now "Active" o →
        dom_providerOrderId r' = Some (rob_orderId o) ∧
        dom_expiresAt r' = Some (rob_expiresAt o)) ∧
     (dom_state r' ≠ "REGISTERED" → r' = r <| dom_state := dom_state r' |>)).
Proof.
  rewrite transaction_Ok. unfold record_tx, lockDomainInvoice. intros Hrun Hr.
  apply bind_Ok in Hrun as (u1&w1&G1&Hrun). apply lock_row_Ok in G1 as ->.
  apply bind_Ok in Hrun as (u2&w1&G1&Hrun). apply lock_row_Ok in G1 as ->.
  apply bind_Ok in Hrun as (u3&w1&G1&Hrun). apply lock_row_Ok in G1 as ->.
  apply bind_Ok in Hrun as (o&w1&G1&Hrun). apply row_or_throw_Ok in G1 as [_ ->].
  apply bind_Ok in Hrun as (x&w1&G1&Hrun). apply row_or_throw_Ok in G1 as [Hx ->].
  rewrite Hr in Hx. injection Hx as <-.
  destruct (settled_state (dom_state r)); [apply ret_Ok in Hrun as [_ ->]; by split|].
  split; [done|]. intros _. cbv zeta.
  apply bind_Ok in Hrun as (m&w1&G1&Hrun). apply matching_Ok in G1 as [E1 Hm].
  apply bind_Ok in Hrun as (now&w2&G2&Hrun). apply new_date_Ok in G2 as [_ ->].
  apply bind_Ok in Hrun as (u4&w2&G2&Hrun). apply change_row_Ok in G2 as (y&_&E2).
  apply bind_Ok in Hrun as (u5&w3&G3&Hrun). apply update_domain_Ok in G3 as (z&Hz&E3).
  assert (domains (db w2) = domains (db w)) as E by (rewrite E2, <- E1; done).
  rewrite E, Hr in Hz. injection Hz as <-. exists (observed_domain m r).
  assert (domains (db w') = domains (db w3)) as ->.
  { apply keeps_run with (proj := domains) in Hrun; [done|]. apply _. }
  destruct (observed_state_spec m) as [Hreg Hfail].
  assert (dom_state (observed_domain m r) = observed_state m) as Hst.
  { unfold observed_domain. destruct m; [|done]. by destruct (String.eqb _ _). }
  split; [rewrite E3; simpl; by rewrite E|]. rewrite Hst. refine (conj _ (conj _ (conj _ (conj _ (conj _ _))))).
  - rewrite <- Hst. unfold observed_domain. destruct m; [|by destruct r].
    by destruct (String.eqb _ _), r.
  - setoid_rewrite <- Hm. exact Hreg.
  - setoid_rewrite <- Hm. exact Hfail.
  - apply observed_state_cases.
  - intros a [-> Ha]%Hm. unfold observed_domain, observed_state. by rewrite Ha.
  - intros Hne. unfold observed_domain. destruct m; [|done].
    destruct (String.eqb_spec (observed_state (Some r0)) "REGISTERED"); done.
Qed.

(** ** A history of the sample *)
Notation sample_history := (registrar_history development None simulation).
Lemma history_next w0 past w es w' past' :
  registrar_history development None simulation w0 past w →
  registrar_step development None simulation past w es w' → past' = past ++ es →
  registrar_history development None simulation w0 past' w'.
Proof. intros Hh Hs ->. by econstructor. Qed.
Definition dispatch_result : option Preparation :=
  match fst dispatch_run with Ok r => r | Err _ => None end.
Definition approved : World := at_time approved_db 5000.
Lemma dispatch_history : sample_history approved [Dispatched "o"] (snd dispatch_run).
Proof.
  apply (history_next _ [] approved (prepare_events (ro_id operation) dispatch_result)).
  - constructor.
  - apply (rs_prepare _ _ _ _ operation "i"). change (transaction _ _) with dispatch_run.
    unfold dispatch_result. destruct dispatch_run as [[r|e] w'] eqn:E; [done|].
    exfalso. assert (is_ok (fst dispatch_run) = true) as Hok by (vm_compute; reflexivity).
    by rewrite E in Hok.
  - vm_compute. reflexivity.
Qed.
Lemma recorded_history : sample_history approved [Dispatched "o"] (snd record_run).
Proof.
  apply (history_next _ [Dispatched "o"] (snd dispatch_run) []); [exact dispatch_history| |done].
  apply (rs_record _ _ _ _ operation "i" "it" sample_intent (Some active_order) _ tt).
  apply run_outcome. vm_compute. reflexivity.
Qed.
Lemma created_history : sample_history approved [Dispatched "o"] (snd create_run).
Proof.
  apply (history_next _ [Dispatched "o"] (snd record_run) []); [exact recorded_history| |done].
  apply (rs_create _ _ _ _ "x" "d" new_names sample_management admin _ tt), run_outcome.
  vm_compute. reflexivity.
Qed.
Definition sample_events : list Event := [Dispatched "o"; ActionClaimed "x"; Submitted "x"].
Lemma settled_history : sample_history approved sample_events (snd settle_run).
Proof.
  apply (history_next _ sample_events (snd submit_run) []); [| |done].
  2: { apply (rs_settled _ _ _ _ "d" "x" new_names admin seen_management None true false _ tt).
       - right. by left.
       - apply run_outcome. vm_compute. reflexivity. }
  apply (history_next _ [Dispatched "o"; ActionClaimed "x"] (snd execute_run) [Submitted "x"]);
    [|apply (rs_submit _ _ _ _ "x" _ tt), run_outcome; vm_compute; reflexivity|done].
  apply (history_next _ [Dispatched "o"] (snd create_run) [ActionClaimed "x"]);
    [exact created_history| |done].
  apply (rs_execute _ _ _ _ "d" "x" "a" "r" new_names admin false _ (Some true)), run_outcome.
  vm_compute. reflexivity.
Qed.
Lemma cancelled_history : sample_history approved [Dispatched "o"] (snd cancel_run).
Proof.
  apply (history_next _ [Dispatched "o"] (snd create_run) []); [exact created_history| |done].
  apply (rs_cancel _ _ _ _ "d" "x" admin _ tt), run_outcome. vm_compute. reflexivity.
Qed.
Lemma sample_history_ok es w : sample_history approved es w → registrar_ok (db w).
Proof. intros Hh. by apply registrar_history_run in Hh as [? _]; [|exact approved_ok]. Qed.

Lemma registrar_implements_protocol_witness :
  protocol_run (domain_view approved_db) sample_events (domain_view (db (snd settle_run))) ∧
  registrar_ok (db (snd settle_run)).
Proof.
  exact (registrar_implements_protocol development None simulation approved sample_events
           (snd settle_run) approved_ok settled_history).
Defined.
(** After the dispatch the registration is all that is pending. *)
Lemma dispatched_pending : pending (domain_view dispatched) "a" (RegistrationOf "o").
Proof.
  destruct (registrarOperations dispatched !! "o") as [o|] eqn:Ho; [|by vm_compute in Ho].
  destruct (domains dispatched !! "d") as [r|] eqn:Hr; [|by vm_compute in Hr].
  vm_compute in Ho, Hr. injection Ho as <-. injection Hr as <-.
  eapply (pending_registration _ _ "o"); [vm_compute; reflexivity..|].
  vm_compute. reflexivity.
Qed.
Lemma registrar_exclusive_witness :
  pending (domain_view dispatched) "a" (RegistrationOf "o") ∧
  (∀ q, pending (domain_view dispatched) "a" q → q = RegistrationOf "o").
Proof.
  split; [exact dispatched_pending|]. intros q Hq.
  exact (registrar_exclusive development None simulation approved [Dispatched "o"]
    (snd dispatch_run) "a" q (RegistrationOf "o") approved_ok dispatch_history Hq
    dispatched_pending).
Defined.
Lemma mutations_sent_once_witness :
  NoDup (dispatches sample_events) ∧ NoDup (submissions sample_events).
Proof.
  destruct (mutations_sent_once development None simulation approved sample_events
    (snd settle_run) approved_ok settled_history) as (H1&H2&_).
  exact (conj H1 H2).
Defined.
Lemma cancelled_action_never_sent_witness :
  ∃ a, domainActions (db (snd again_run)) !! "x" = Some a ∧ da_state a = "CANCELLED" ∧
       da_claimedAt a = None ∧ da_submittedAt a = None.
Proof.
  destruct (domainActions (db (snd cancel_run)) !! "x") as [a|] eqn:Ha;
    [|by vm_compute in Ha].
  assert (da_state a = "CANCELLED") as Hs by (vm_compute in Ha; by injection Ha as <-).
  assert (sample_history (snd cancel_run) [] (snd again_run)) as Hh.
  { apply (history_next _ [] (snd cancel_run) []); [constructor| |done].
    apply (rs_create _ _ _ _ "y" "d" (LOCK true) sample_management admin _ tt), run_outcome.
    vm_compute. reflexivity. }
  destruct (cancelled_action_never_sent development None simulation (snd cancel_run) []
    (snd again_run) "x" a (sample_history_ok _ _ cancelled_history) Hh Ha Hs) as (_&_&Hx).
  exact Hx.
Defined.
Lemma dispatch_is_paid_witness :
  ∃ p i, fst dispatch_run = Ok (Some p) ∧ pn_dispatch p = true ∧ paid_in_full approved_db i "c".
Proof.
  destruct (fst dispatch_run) as [[p|]|e] eqn:E; [|exfalso..].
  2, 3: assert (match fst dispatch_run with Ok (Some _) => true | _ => false end = true) as Hx
    by (vm_compute; reflexivity); by rewrite E in Hx.
  assert (pn_dispatch p = true) as Hp.
  { assert (match fst dispatch_run with Ok (Some p) => pn_dispatch p | _ => false end = true) as Hx
      by (vm_compute; reflexivity). by rewrite E in Hx. }
  destruct (dispatch_is_paid None simulation operation "i" approved p (snd dispatch_run) approved_ok
    (run_outcome (transaction (prepare_tx None simulation operation "i")) approved _ E) Hp)
    as (o&r&i&item&order&account&Ho&_&Hr&_&_&_&_&_&_&_&_&_&_&_&Hpaid).
  exists p, i. split; [reflexivity|]. split; [exact Hp|].
  assert (o = operation) as -> by (vm_compute in Ho; by injection Ho as <-).
  assert (r = requested) as -> by (vm_compute in Hr; by injection Hr as <-).
  exact Hpaid.
Defined.
Lemma quiet_same d d' : keyed d → protocol_tables d' = protocol_tables d → quiet d d'.
Proof.
  intros K E. apply view_tables in E as [E K']. split; [auto|].
  exists (v_domains (domain_view d)). split; [done|]. by rewrite E.
Qed.
Lemma paid_tables d i p t :
  protocol_tables (db (at_time (d <| invoices := i |> <| payments := p |>) t)) = protocol_tables d.
Proof. reflexivity. Qed.
Lemma renewal_paid_ok : registrar_ok (db renewal_paid).
Proof.
  assert (sample_history approved [Dispatched "o"] (snd renew_run)) as Hh.
  { apply (history_next _ [Dispatched "o"] (snd record_run) []); [exact recorded_history| |done].
    apply (rs_create _ _ _ _ "z" "d" renewal sample_management admin _ tt), run_outcome.
    vm_compute. reflexivity. }
  apply (sample_history_ok [Dispatched "o"]).
  apply (history_next _ [Dispatched "o"] (snd renew_run) []); [exact Hh| |done].
  apply rs_quiet, quiet_same; [apply (rok_keyed _ (sample_history_ok _ _ Hh))|apply paid_tables].
Qed.
Lemma renewal_is_paid_witness :
  fst renewal_run = Ok (Some true) ∧
  ∃ i, paid_in_full (db renewal_paid) i "c".
Proof.
  assert (fst renewal_run = Ok (Some true)) as Hr by (vm_compute; reflexivity).
  split; [exact Hr|].
  destruct (renewal_is_paid "d" "z" "a" "r" 120000 None 2000 admin false renewal_paid (snd renewal_run)
    renewal_paid_ok (run_outcome (transaction (execute_tx "d" "z" "a" "r" renewal admin false))
      renewal_paid _ Hr)) as (_&a&i&Ha&_&_&Hp&_).
  exists i. assert (da_customerId a = "c") as <- by (vm_compute in Ha; by injection Ha as <-).
  exact Hp.
Defined.
Lemma registration_recorded_exact_witness :
  fst record_run = Ok tt ∧
  ∃ r', domains (db (snd record_run)) !! "d" = Some r' ∧ dom_state r' = "REGISTERED" ∧
        dom_expiresAt r' = Some (rob_expiresAt active_order).
Proof.
  assert (fst record_run = Ok tt) as Hr by (vm_compute; reflexivity).
  split; [exact Hr|].
  destruct (domains (db (snd dispatch_run)) !! "d") as [r|] eqn:Hd; [|by vm_compute in Hd].
  destruct (registration_recorded_exact operation "i" "it" sample_intent (Some active_order)
    (snd dispatch_run) tt (snd record_run) r
    (run_outcome (transaction (record_tx operation "i" "it" sample_intent (Some active_order)))
       (snd dispatch_run) _ Hr) Hd) as [_ Hx].
  assert (settled_state (dom_state r) = false) as Hs by (vm_compute in Hd; by injection Hd as <-).
  destruct (Hx Hs) as (r'&Hr'&_&Hreg&_&_&Hact&_). exists r'.
  assert (confirms sample_intent (Some active_order) (clock (snd dispatch_run)
            (ticks (snd dispatch_run))) "Active" active_order) as Hc
    by (split_and!; vm_compute; reflexivity).
  split; [by rewrite Hr', lookup_insert_eq|].
  split; [apply Hreg; by exists active_order|apply (Hact _ Hc)].
Defined.
