(* ===== verification/SalesProperties.v ===== *)
(** * Selling domains

    The domain services keep the promises the orders rely on, a purchase bills its
    quote, reads from a registrar are bounded, and what is stored encrypted is read
    back. *)
From S2P Require Import Prelude JsString JsDate Json Money States AuthTables DomainTables Database InvoiceNumber InvoiceTotals Invoices Payments MapSum Ledger Settlement Gateways GatewayAdapters Orders HostingServices HostingAutomation HostingPanels CpanelAdapter DomainContracts PanelOperations JsonText ServerProtocol Totp Authentication AuthSamples Registrar Resellbiz RenewalProperties RegistrarProcessor DomainAdministration Domains DomainSales DomainManagement DomainLifecycle ExistingDomains DomainTransitions JsonProperties DomainSamples.

(** ** The services of the orders *)
Section services.
Context `{ZodFormats} `{ZodUrl} `{UrlParser} `{ZodIso} `{Sha256} `{DateParser}
  `{RegistrarCrypto} `{ResellbizTransport} `{RegistrarRandom} `{JsNumber}
  (environment : DomainEnvironment).
#[export] Instance lock_actor_keeps {T} (proj : Db → T) u : Keeps proj (lock_actor u).
Proof. unfold lock_actor. apply _. Qed.
#[export] Instance require_simulation_keeps {T} (proj : Db → T) :
  Keeps proj (requireSimulation environment).
Proof. unfold requireSimulation. apply _. Qed.
#[export] Instance require_runtime_keeps {T} (proj : Db → T) :
  Keeps proj (requireRuntime environment).
Proof. unfold requireRuntime. apply _. Qed.
#[export] Instance require_account_keeps {T} (proj : Db → T) a :
  Keeps proj (requireAccount environment a).
Proof. unfold requireAccount. apply _. Qed.
#[export] Instance catalogue_context_keeps {T} (proj : Db → T) tld pinned :
  Keeps proj (catalogueContext environment tld pinned).
Proof. unfold catalogueContext. apply _. Qed.
#[export] Instance unchanged_selection_keeps {T} (proj : Db → T) q o m :
  Keeps proj (unchanged_selection environment q o m).
Proof. unfold unchanged_selection. apply _. Qed.
#[export] Instance orderable_quote_keeps {T} (proj : Db → T) q c n a :
  Keeps proj (orderable_quote q c n a).
Proof. unfold orderable_quote. apply _. Qed.
#[export] Instance valid_now_keeps {T} (proj : Db → T) p : Keeps proj (valid_now p).
Proof. unfold valid_now. apply _. Qed.
#[export] Instance hosting_order_price_keeps {T} (proj : Db → T) q a m p :
  Keeps proj (hosting_order_price q a m p).
Proof. unfold hosting_order_price. apply _. Qed.
#[export] Instance quote_price_keeps {T} (proj : Db → T) o s : Keeps proj (quote_price o s).
Proof. unfold quote_price. apply _. Qed.
#[export] Instance catalogue_price_keeps {T} (proj : Db → T) p n t :
  Keeps proj (catalogue_price p n t).
Proof. unfold catalogue_price. apply _. Qed.
#[export] Instance quote_for_hosting_order_keeps {T} (proj : Db → T) q c n a :
  Keeps proj (quote_for_hosting_order environment q c n a).
Proof. unfold quote_for_hosting_order. apply _. Qed.


End services.

(** ** Reads from a registrar are bounded *)
Definition reads_between (accountId : string) (since until_ : Z) (d : Db) : nat :=
  length (List.filter (λ r, String.eqb (rr_accountId r) accountId &&
                            (since <? rr_createdAt r) && (rr_createdAt r <=? until_))
            (registrarReads d)).
(** At most five in any minute. *)
Definition reads_bounded (d : Db) : Prop :=
  ∀ accountId t, (reads_between accountId (t - READ_WINDOW) t d <= 5)%nat.
(** A reservation, at an account and for a request, or a step that makes none. *)
Inductive reads_step : World → World → Prop :=
| reads_reserve accountId log message w r w' :
    (∀ i j, (i ≤ j)%nat → clock w i <= clock w j) →
    transaction (reserve_read accountId log message) w = (r, w') → reads_step w w'
| reads_other w w' : registrarReads (db w') = registrarReads (db w) → reads_step w w'.

Lemma reads_after accountId since until_ d :
  (reads_between accountId since until_ d <= Z.to_nat (recent_reads accountId since d))%nat.
Proof.
  unfold reads_between, recent_reads. rewrite Nat2Z.id.
  induction (registrarReads d) as [|r l IH]; [done|]. simpl.
  destruct (String.eqb _ _); simpl; [|done]. destruct (_ <? _); simpl; [|done].
  destruct (_ <=? _); simpl; lia.
Qed.
Lemma recent_reads_later accountId s s' d :
  s <= s' → recent_reads accountId s' d <= recent_reads accountId s d.
Proof.
  intros Hs. unfold recent_reads. apply inj_le.
  induction (registrarReads d) as [|r l IH]; [done|]. simpl.
  destruct (String.eqb _ _); simpl; [|done].
  destruct (Z.ltb_spec s' (rr_createdAt r)), (Z.ltb_spec s (rr_createdAt r)); simpl; lia.
Qed.
(** One more reservation. *)
Lemma reads_between_app accountId since until_ d d' account created :
  registrarReads d' = registrarReads d ++ [MkReservation account created] →
  reads_between accountId since until_ d' =
  (reads_between accountId since until_ d +
   if (String.eqb account accountId && (since <? created) && (created <=? until_))%Z
   then 1 else 0)%nat.
Proof.
  unfold reads_between. intros ->. rewrite List.filter_app, length_app. simpl.
  by destruct (_ && _).
Qed.
Lemma reserve_read_Ok accountId log message w u w' :
  reserve_read accountId log message w = (Ok u, w') →
  recent_reads accountId (clock w (ticks w) - READ_WINDOW) (db w) < 5 ∧
  registrarReads (db w') =
    registrarReads (db w) ++ [MkReservation accountId (clock w (S (ticks w)))].
Proof.
  unfold reserve_read. intros Hrun.
  apply bind_Ok in Hrun as (u1&w1&G1&Hrun). apply lock_row_Ok in G1 as ->.
  apply bind_Ok in Hrun as (now&w1&G1&Hrun). apply new_date_Ok in G1 as [-> ->].
  apply bind_Ok in Hrun as (n&w1&G1&Hrun). apply read_Ok in G1 as [-> ->].
  apply bind_Ok in Hrun as (u2&w1&G1&Hrun). apply require_Ok in G1 as [Hn ->].
  apply bind_Ok in Hrun as (created&w1&G1&Hrun). apply new_date_Ok in G1 as [-> ->].
  apply bind_Ok in Hrun as (u3&w1&G1&Hrun). apply write_Ok in G1 as ->.
  apply keeps_run with (proj := registrarReads) in Hrun; [|apply _]. rewrite Hrun.
  split; [|done]. apply negb_true_iff, Z.leb_gt in Hn. exact Hn.
Qed.
Lemma reads_step_bounded w w' : reads_bounded (db w) → reads_step w w' → reads_bounded (db w').
Proof.
  intros Hb. destruct 1 as [account log message w r w' Hc Hrun|w w' E].
  2: { intros id t. unfold reads_between. rewrite E. apply Hb. }
  destruct r as [u|e].
  2: { assert (db w' = db w) as E by (eapply transaction_Err_db; exact Hrun).
       intros id t. rewrite E. apply Hb. }
  rewrite transaction_Ok in Hrun. apply reserve_read_Ok in Hrun as [Hn E].
  set (now := clock w (ticks w)) in *. set (created := clock w (S (ticks w))) in *.
  assert (now <= created) as Hnow by (apply Hc; lia).
  intros id t. rewrite (reads_between_app _ _ _ (db w) _ account created) by done.
  destruct (String.eqb_spec account id) as [->|]; simpl; [|rewrite Nat.add_0_r; apply Hb].
  destruct (_ <? _); simpl; [|rewrite Nat.add_0_r; apply Hb].
  destruct (Z.leb_spec created t); [|rewrite Nat.add_0_r; apply Hb].
  pose proof (reads_after id (t - READ_WINDOW) t (db w)).
  pose proof (recent_reads_later id (now - READ_WINDOW) (t - READ_WINDOW) (db w) ltac:(lia)).
  assert (0 <= recent_reads id (t - READ_WINDOW) (db w)) by (unfold recent_reads; lia). lia.
Qed.

(** C28: While the clock does not go back, no account ever has more than five reads reserved
    in any minute, whatever requests compete for them. *)
Theorem registrar_reads_bounded w w' accountId t :
  reads_bounded (db w) → rtc reads_step w w' →
  (reads_between accountId (t - READ_WINDOW) t (db w') <= 5)%nat.
Proof. intros Hb Hr. revert accountId t. induction Hr; eauto using reads_step_bounded. Qed.

(** ** A purchase bills its quote *)
Definition sale_tables (d : Db) :=
  (invoices d, orders d, domains d, payments d, registrarOperations d, domainActions d).
Lemma create_order_sale r w u w' :
  create_order r w = (Ok u, w') →
  sale_tables (db w') = (invoices (db w), <[ord_id r := r]> (orders (db w)), domains (db w),
    payments (db w), registrarOperations (db w), domainActions (db w)).
Proof.
  unfold create_order, put_order. intros Hrun.
  apply bind_Ok in Hrun as (m&w1&G1&Hrun). apply read_Ok in G1 as [_ ->].
  apply bind_Ok in Hrun as (?&w1&G1&Hrun). apply require_Ok in G1 as [_ ->].
  by apply write_Ok in Hrun as ->.
Qed.
Lemma create_invoice_sale r w u w' :
  create_invoice r w = (Ok u, w') →
  sale_tables (db w') = (<[inv_id r := r]> (invoices (db w)), orders (db w), domains (db w),
    payments (db w), registrarOperations (db w), domainActions (db w)).
Proof. intros Hrun. by apply create_invoice_Ok in Hrun as [_ ->]. Qed.
Lemma create_domain_sale r w u w' :
  create_domain r w = (Ok u, w') →
  domains (db w) !! dom_id r = None ∧
  sale_tables (db w') = (invoices (db w), orders (db w), <[dom_id r := r]> (domains (db w)),
    payments (db w), registrarOperations (db w), domainActions (db w)).
Proof. intros Hrun. unfold sale_tables. apply create_domain_Ok in Hrun as [Hn ->]. by split. Qed.
#[export] Instance sale_item_keeps r : Keeps sale_tables (create_order_item r).
Proof. unfold create_order_item, put_order_item. apply _. Qed.
#[export] Instance sale_line_keeps r : Keeps sale_tables (create_invoice_item r).
Proof. unfold create_invoice_item, put_invoice_item. apply _. Qed.
#[export] Instance sale_number_keeps : Keeps sale_tables allocateInvoiceNumber.
Proof. unfold allocateInvoiceNumber. apply _. Qed.
#[export] Instance sale_log_keeps auth a t i m : Keeps sale_tables (domain_log auth a t i m).
Proof. unfold domain_log. apply _. Qed.
(** A step that leaves the tables: what they hold afterwards. *)
Ltac sale_step H w G :=
  apply bind_Ok in H as (?&w&G&H);
  apply keeps_run with (proj := sale_tables) in G; [|apply _].
(** The rows of a new sale: everything else of the tables is as it was. *)
Definition sold (q : DomainQuote) (r : Domain) (i : Invoice) (o : Order) (d d' : Db) : Prop :=
  sale_tables d' =
    (<[inv_id i := i]> (invoices d), <[ord_id o := o]> (orders d), <[dom_id r := r]> (domains d),
     payments d, registrarOperations d, domainActions d) ∧
  domains d !! dom_id r = None ∧
  dom_state r = "AWAITING_PAYMENT" ∧ dom_customerId r = quo_customerId q ∧
  dom_domainName r = quo_domainName q ∧ dom_quoteId r = Some (quo_id q) ∧
  dom_invoiceId r = Some (inv_id i) ∧
  ord_status o = OrderStatus.AWAITING_PAYMENT ∧ ord_customerId o = quo_customerId q ∧
  ord_total o = quo_sellingAmount q ∧ ord_currency o = "BDT" ∧
  inv_status i = InvoiceStatus.UNPAID ∧ inv_customerId i = quo_customerId q ∧
  inv_orderId i = Some (ord_id o) ∧ inv_currency i = "BDT" ∧
  inv_total i = quo_sellingAmount q ∧ inv_balanceDue i = quo_sellingAmount q ∧
  inv_amountPaid i = 0 ∧ inv_paidAt i = None.
Lemma write_purchase_Ok input auth q account p customer assisted terms now w id w' :
  write_purchase input auth q account p customer assisted terms now w = (Ok id, w') →
  ∃ r i o, dom_id r = id ∧ sold q r i o (db w) (db w') ∧
    dom_submissionKey r = pq_submissionKey input ∧ dom_accountId r = ra_id account.
Proof.
  unfold write_purchase. intros Hrun.
  sale_step Hrun w1 E1. sale_step Hrun w2 E2. sale_step Hrun w3 E3.
  apply bind_Ok in Hrun as (u&w4&G4&Hrun). apply create_order_sale in G4.
  sale_step Hrun w5 E5. sale_step Hrun w6 E6. sale_step Hrun w7 E7. sale_step Hrun w8 E8.
  sale_step Hrun w9 E9. sale_step Hrun w10 E10.
  apply bind_Ok in Hrun as (u'&w11&G11&Hrun). apply create_invoice_sale in G11.
  sale_step Hrun w12 E12. sale_step Hrun w13 E13. sale_step Hrun w14 E14. sale_step Hrun w15 E15.
  apply bind_Ok in Hrun as (u2&w16&G16&Hrun). apply create_domain_sale in G16 as [Hn G16].
  sale_step Hrun w17 E17. apply ret_Ok in Hrun as [-> ->].
  match type of G16 with context [<[_ := ?r]> _] => set (dom := r) in * end.
  match type of G11 with context [<[_ := ?i]> _] => set (inv := i) in * end.
  match type of G4 with context [<[_ := ?o]> _] => set (ord := o) in * end.
  exists dom, inv, ord. split_and!; [done| |done..].
  unfold sold. split; [unfold sale_tables in *; congruence|].
  split; [unfold sale_tables in *; congruence|]. done.
Qed.

Section purchases.
Context `{ZodFormats} `{ZodUrl} `{UrlParser} `{ZodIso} `{Sha256} `{DateParser}
  `{RegistrarCrypto} `{ResellbizTransport} `{RegistrarRandom} `{JsNumber}
  (environment : DomainEnvironment) (https_url : string → bool).
#[export] Instance checkout_terms_sale v now :
  Keeps sale_tables (requireCheckoutTerms https_url v now).
Proof. unfold requireCheckoutTerms. apply _. Qed.
(** What a new purchase has checked: the account is open, the price that the quote's
    offer, or its selection from the catalogue, names in the database may still be sold at
    the quoted amount, the customer is eligible, and the catalogue still says what was
    selected. *)
Definition still_offered (q : DomainQuote) (assisted : bool) (d : Db) : Prop :=
  ∃ account offer selection p,
    registrarAccounts d !! quo_accountId q = Some account ∧
    ra_enabled account = true ∧ (assisted = true → is_fake account = true) ∧
    domainOffers d !! quo_offerId q = Some offer ∧
    stored_snapshot (quo_selectionSnapshot q) = Ok selection ∧
    productPrices d !! default (off_priceId offer) (ss_priceId <$> selection) = Some p ∧
    listed (isSome selection) p = true ∧ pp_amount p = quo_sellingAmount q ∧
    eligible_owner (is_live account) (customers d !! quo_customerId q) = true ∧
    (∀ s, selection = Some s → ∃ fresh v v', db v = d ∧
       catalogueContext environment (off_tld offer) (Some (quo_accountId q)) v = (Ok fresh, v') ∧
       same_catalogue q s fresh = true).
Lemma unchanged_selection_Ok q offer message w selection w' :
  unchanged_selection environment q offer message w = (Ok selection, w') →
  stored_snapshot (quo_selectionSnapshot q) = Ok selection ∧
  (∀ s, selection = Some s → ∃ fresh v v', db v = db w ∧
     catalogueContext environment (off_tld offer) (Some (quo_accountId q)) v = (Ok fresh, v') ∧
     same_catalogue q s fresh = true).
Proof.
  unfold unchanged_selection. intros Hrun.
  apply bind_Ok in Hrun as (sel&w1&G1&Hrun). apply lift_Ok in G1 as [Hsel ->].
  apply bind_Ok in Hrun as (u&w2&G2&Hrun). apply ret_Ok in Hrun as [-> ->].
  split; [done|]. intros s ->.
  apply bind_Ok in G2 as (u1&w3&G3&G2). apply keeps_run with (proj := λ d, d) in G3; [|apply _].
  apply bind_Ok in G2 as (fresh&w4&G4&G2). apply require_Ok in G2 as [Hsame _].
  by exists fresh, w3, w4.
Qed.
Lemma new_purchase_Ok input auth q assisted w id w' :
  new_purchase environment https_url input auth q assisted w = (Ok id, w') →
  clock w (ticks w) < quo_expiresAt q ∧ still_offered q assisted (db w) ∧
  ∃ r i o, dom_id r = id ∧ sold q r i o (db w) (db w') ∧
    dom_submissionKey r = pq_submissionKey input.
Proof.
  unfold new_purchase. intros Hrun.
  apply bind_Ok in Hrun as (t&w1&G1&Hrun). apply new_date_Ok in G1 as [-> ->].
  apply bind_Ok in Hrun as (u&w1&G1&Hrun). apply require_Ok in G1 as [Hexp ->].
  apply bind_Ok in Hrun as (offer&w1&G1&Hrun). apply row_or_throw_Ok in G1 as [Hoff ->].
  apply bind_Ok in Hrun as (account&w1&G1&Hrun). apply row_or_throw_Ok in G1 as [Hacc ->].
  apply bind_Ok in Hrun as (sel&w1&G1&Hrun).
  pose proof (unchanged_selection_Ok _ _ _ _ _ _ G1) as [Hsel Hfresh].
  apply keeps_run with (proj := λ d, d) in G1; [|apply _].
  apply bind_Ok in Hrun as (p&w2&G2&Hrun). unfold quote_price in G2.
  apply row_or_throw_Ok in G2 as [Hp ->].
  apply bind_Ok in Hrun as (c&w3&G3&Hrun). apply row_or_throw_Ok in G3 as [Hc ->].
  apply bind_Ok in Hrun as (u2&w3&G3&Hrun).
  apply keeps_run with (proj := λ d, d) in G3; [|apply _].
  apply bind_Ok in Hrun as (u3&w4&G4&Hrun). apply require_Ok in G4 as [Hfake ->].
  apply bind_Ok in Hrun as (u4&w4&G4&Hrun). apply require_Ok in G4 as [Hun ->].
  sale_step Hrun w5 G5. sale_step Hrun w6 G6.
  rewrite G1 in Hc, Hp. simpl in Hoff, Hacc, Hc, Hp, Hfresh, G1.
  split; [by apply Z.ltb_lt in Hexp|]. split.
  - unfold offer_unchanged in Hun. split_bool. exists account, offer, sel, p.
    split_and!; try done.
    + intros ->. simpl in Hfake. by destruct (is_fake account).
    + destruct sel; exact Hp.
    + by rewrite Hc.
  - apply write_purchase_Ok in Hrun as (r&i&o&Hid&Hs&Hk&_). exists r, i, o. split_and!; [done| |done].
    assert (sale_tables (db w6) = sale_tables (db w)) as E by (rewrite G6, G5, G3, G1; done).
    unfold sold, sale_tables in *. injection E as E1 E2 E3 E4 E5 E6. rewrite E1, E2, E3, E4, E5, E6 in Hs.
    exact Hs.
Qed.

(** C17: A purchase needs a quote of the customer, made for this route.  With the key of an
    earlier request it changes nothing and answers with the domain of that request, which
    must be of the same customer and quote; otherwise, before the quote expires and while
    the offer stands at the quoted price, it adds exactly one order, one unpaid invoice of
    the quoted amount and one domain that awaits its payment, and nothing is paid nor
    sent to a registrar. *)
Theorem purchase_bills_quote input auth customerId assisted w id w' :
  transaction (purchase_tx environment https_url input auth customerId assisted) w = (Ok id, w') →
  ∃ q, domainQuotes (db w) !! pq_quoteId input = Some q ∧ quo_customerId q = customerId ∧
    recorded (quo_offlineConsent q) = assisted ∧
    match find_unique (domains (db w)) dom_submissionKey (pq_submissionKey input) with
    | Some r => db w' = db w ∧ id = dom_id r ∧ dom_customerId r = customerId ∧
                dom_quoteId r = Some (pq_quoteId input)
    | None => clock w (ticks w) < quo_expiresAt q ∧ still_offered q assisted (db w) ∧
              ∃ r i o, dom_id r = id ∧ sold q r i o (db w) (db w') ∧
                       dom_submissionKey r = pq_submissionKey input
    end.
Proof.
  rewrite transaction_Ok. unfold purchase_tx, purchasable_quote. intros Hrun.
  apply bind_Ok in Hrun as (q&w1&G&Hrun).
  apply bind_Ok in G as (u&w2&G1&G). apply lock_row_Ok in G1 as ->.
  apply bind_Ok in G as (found&w2&G1&G). apply read_Ok in G1 as [-> ->].
  apply bind_Ok in G as (x&w2&G1&G). apply lift_Ok in G1 as [G1 ->].
  apply of_option_Ok, bind_Some in G1 as (y&Hq&Hy).
  apply bind_Ok in G as (u'&w2&G1&G). apply require_Ok in G1 as [Hrec ->].
  apply ret_Ok in G as [-> ->]. apply Bool.eqb_prop in Hrec.
  destruct (String.eqb_spec (quo_customerId y) customerId) as [Hc|]; [|done]. injection Hy as ->.
  apply bind_Ok in Hrun as (prior&w2&G1&Hrun). apply read_Ok in G1 as [-> ->].
  exists x. split_and!; [done..|].
  destruct (find_unique _ _ _) as [r|]; [|by apply new_purchase_Ok in Hrun].
  apply bind_Ok in Hrun as (u2&w2&G1&Hrun). apply require_Ok in G1 as [Hs ->].
  apply ret_Ok in Hrun as [-> ->]. unfold same_request in Hs. split_bool.
  rewrite String.eqb_eq in *. done.
Qed.
End purchases.

(** ** Contacts are stored encrypted and read back *)
Lemma trim_end_idem s : trim_end (trim_end s) = trim_end s.
Proof.
  induction s as [|c t IH]; [done|]. simpl. destruct (trim_end t) as [|c' t'] eqn:E.
  - destruct (is_space c) eqn:Hc; [done|]. simpl. by rewrite Hc.
  - rewrite <- E in *. simpl. rewrite IH, E. done.
Qed.
Lemma trim_start_end s : trim_start (trim_end (trim_start s)) = trim_end (trim_start s).
Proof.
  induction s as [|c t IH]; [done|]. simpl. destruct (is_space c) eqn:Hc; [done|].
  simpl. destruct (trim_end t); rewrite ?Hc; simpl; by rewrite Hc.
Qed.
Lemma js_trim_idem s : js_trim (js_trim s) = js_trim s.
Proof. unfold js_trim. by rewrite trim_start_end, trim_end_idem. Qed.
Lemma trimmed_again lo hi v s : trimmed lo hi v = Some s → trimmed lo hi (JStr s) = Some s.
Proof.
  unfold trimmed, z_refine, z_map. destruct v; simpl; try done.
  destruct (text _ _ _) eqn:E; [|done]. intros [= <-]. by rewrite js_trim_idem, E.
Qed.
Lemma refined_again p v s : z_refine p z_string v = Some s → z_refine p z_string (JStr s) = Some s.
Proof.
  unfold z_refine. destruct v; simpl; intros Hv; try done.
  match type of Hv with context [p ?t] => destruct (p t) eqn:E end; [|done].
  injection Hv as <-. by rewrite E.
Qed.
Lemma optional_again {A} (f : A → json) (s : schema A) v (o : option A) :
  (∀ v a, s v = Some a → s (f a) = Some a ∧ f a ≠ JUndefined) →
  z_optional s v = Some o → z_optional s (default JUndefined (f <$> o)) = Some o.
Proof.
  intros Hs Hv. destruct o as [a|]; [|done]. simpl.
  assert (∃ v, s v = Some a) as [v' Hv'].
  { destruct v; simpl in Hv; try done; apply fmap_Some in Hv as (a'&Hv&[= ->]); eauto. }
  destruct (Hs _ _ Hv') as [Ha Hn]. unfold z_optional. rewrite Ha. by destruct (f a).
Qed.
Section contact.
Context `{ZodFormats}.
#[local] Arguments z_refine : simpl never.
#[local] Arguments trimmed : simpl never.
#[local] Arguments z_optional : simpl never.
(** What a contact schema accepts it accepts again, as the same contact. *)
Lemma contact_again k v c : contact_schema k v = Some c → contact_schema k (contact_json c) = Some c.
Proof.
  unfold contact_schema. intros Hc. apply bind_Some in Hc as (o&_&Hc).
  repeat match type of Hc with (_ ≫= _) = Some _ => apply bind_Some in Hc as (?&?&Hc) end.
  injection Hc as <-. unfold contact_text in *.
  repeat match goal with
    | Hx : trimmed _ _ _ = Some _ |- _ => apply trimmed_again in Hx; revert Hx
    | Hx : z_refine _ _ _ = Some _ |- _ => apply refined_again in Hx; revert Hx
    | Hx : z_optional z_bool _ = Some _ |- _ =>
        apply (optional_again JBool) in Hx; [revert Hx|by intros [] ? [= ->]]
    | Hx : z_optional _ _ = Some _ |- _ =>
        apply (optional_again JStr) in Hx; [revert Hx|by intros ? ? ?%trimmed_again]
    end.
  match goal with |- context [JBool <$> ?b] => destruct b end;
  match goal with |- context [default _ (JStr <$> ?l)] => destruct l end;
  intros; simpl in *; repeat match goal with Hx : _ = Some _ |- _ => rewrite Hx; clear Hx; simpl end;
  reflexivity.
Qed.
Lemma contact_plain c : plain_json (contact_json c) = true.
Proof. by destruct c as [???[]???????[]]. Qed.

(** C39: A contact accepted by the schema of quotes is stored encrypted so that, under the
    same binding, it is decrypted and parsed back to the very same contact. *)
Theorem contact_secret_round_trip `{RegistrarCryptoLaws} binding v c w text_ w' :
  domainContactSchema v = Some c →
  registrar_encrypt binding (contact_json c) w = (Ok text_, w') →
  registrar_decrypt binding text_ = Ok (contact_json c) ∧
  (clear ← registrar_decrypt binding text_; parse domainContactSchema clear) = Ok c.
Proof.
  intros Hc Hrun. apply registrar_encrypt_read in Hrun; [|apply contact_plain].
  split; [done|]. rewrite Hrun. simpl. unfold parse. unfold domainContactSchema in *.
  by rewrite (contact_again _ _ _ Hc).
Qed.
End contact.

(** ** Samples *)
Definition read_log : ActivityLog := MkActivityLog None "READ" "REGISTRAR" None None None JNull.
Definition read_run (w : World) : result unit * World :=
  transaction (reserve_read "a" read_log "wait") w.
Definition reads_start : World := at_time empty_db 1000.
Fixpoint read_times (n : nat) (w : World) : World :=
  match n with O => w | S n => snd (read_run (read_times n w)) end.
Lemma registrar_reads_bounded_witness :
  reads_between "a" (1000 - READ_WINDOW) 1000 (db (read_times 7 reads_start)) = 5%nat ∧
  (reads_between "a" (1000 - READ_WINDOW) 1000 (db (read_times 7 reads_start)) <= 5)%nat.
Proof.
  split; [vm_compute; reflexivity|].
  assert (rtc reads_step reads_start (read_times 7 reads_start)) as Hr.
  { assert (∀ n, clock (read_times n reads_start) = (λ _, 1000)) as Hc.
    { induction n as [|n IH]; [done|]. cbn [read_times]. unfold read_run, transaction, reserve_read.
      revert IH. generalize (read_times n reads_start). clear. intros w Hw.
      unfold log_activity, mbind, M_bind, lock_row, new_date, read, gets, require, write.
      simpl. by destruct (negb _); simpl. }
    generalize 7%nat. induction n as [|n IH]; [constructor|]. eapply rtc_r; [exact IH|].
    eapply (reads_reserve "a" read_log "wait"); [intros; by rewrite Hc|].
    apply surjective_pairing. }
  exact (registrar_reads_bounded reads_start (read_times 7 reads_start) "a" 1000
    ltac:(intros id t; vm_compute; lia) Hr).
Defined.
Definition purchase_request : DomainPurchaseRequest := MkPurchaseRequest "q" "s" None.
Definition quoted : World := at_time quoted_db 2000.
Definition purchase_run : result string * World :=
  transaction (purchase_tx development (λ _, true) purchase_request admin "c" false) quoted.
Lemma purchase_bills_quote_witness :
  ∃ id r i o, fst purchase_run = Ok id ∧ dom_id r = id ∧
    sold sample_quote r i o quoted_db (db (snd purchase_run)).
Proof.
  destruct (fst purchase_run) as [id|e] eqn:E; [|by vm_compute in E].
  destruct (purchase_bills_quote development (λ _, true) purchase_request admin "c" false quoted id
    (snd purchase_run) (run_outcome _ quoted _ E)) as (q&Hq&_&_&Hx).
  assert (q = sample_quote) as -> by (apply (inj Some); rewrite <- Hq; vm_compute; reflexivity).
  destruct Hx as (_&_&r&i&o&Hid&Hs&_). exists id, r, i, o. split; [reflexivity|].
  split; [exact Hid|exact Hs].
Defined.
Definition stored_contact : string := secret (contactBinding "a" "c" "FAKE") (contact_json registrant).
Lemma contact_secret_round_trip_witness :
  registrar_decrypt (contactBinding "a" "c" "FAKE") stored_contact = Ok (contact_json registrant).
Proof.
  assert (domainContactSchema (contact_json registrant) = Some registrant) as Hc
    by (vm_compute; reflexivity).
  destruct (contact_secret_round_trip (contactBinding "a" "c" "FAKE") (contact_json registrant)
    registrant (at_time empty_db 0) stored_contact
    (snd (registrar_encrypt (contactBinding "a" "c" "FAKE") (contact_json registrant)
            (at_time empty_db 0))) Hc (run_outcome _ _ _ ltac:(vm_compute; reflexivity))) as [Hr _].
  exact Hr.
Defined.
