(* ===== verification/DomainLedger.v ===== *)
(** * Domains and the ledger

    The transactions of the domain services that write invoices: a purchase opens the
    invoice of a registration, a requested renewal opens its own, and the cancellation
    of an action that was never sent cancels it.  Each is a sequence of moves of the
    ledger. *)
From S2P Require Import Prelude JsString JsDate Json Money States AuthTables DomainTables Database InvoiceNumber InvoiceTotals Invoices Payments MapSum Ledger Settlement Gateways GatewayAdapters Orders HostingPanels DomainContracts PanelOperations JsonText Totp Authentication Registrar Resellbiz RegistrarProcessor DomainAdministration Domains DomainSales DomainManagement DomainLifecycle ExistingDomains DomainTransitions SalesProperties.

(** Every call is a sequence of moves, each by the lemma of the call or because it
    keeps the tables. *)
Ltac post_calls tac :=
  repeat first
    [ tac
    | apply posts_bind; [first [tac | apply keeps_posts; apply _ | idtac]|intros]
    | apply keeps_posts; apply _ ].

#[export] Instance action_log_ledger auth action domainId metadata :
  Keeps ledger_tables (action_log auth action domainId metadata).
Proof. unfold action_log, domain_log. apply _. Qed.

(** ** Invoices of domains *)
Lemma domain_invoice_posts key c o amount customer identity number id issued due created :
  0 <= amount →
  Posts anywhere (create_invoice
    (domain_invoice key c o amount customer identity number id issued due created)).
Proof.
  intros Ha w a w' Hi _ Hrun. apply create_invoice_tables in Hrun as [Hn E].
  unfold ledger_of. rewrite E. apply posts_invoice; [apply Hi|done|]. apply ls_open.
  - by apply account_absent.
  - unfold fresh_account; simpl. lia.
  - right. by left.
Qed.
(** An open invoice without payments is cancelled. *)
Lemma cancel_renewal_posts invoiceId : Posts anywhere (cancel_renewal invoiceId).
Proof.
  intros w a w' Hi _ Hrun. unfold cancel_renewal in Hrun.
  apply bind_Ok in Hrun as (invoice&w1&G&Hrun). apply row_or_throw_Ok in G as [Hinv ->].
  apply bind_Ok in Hrun as (unpaid&w1&G&Hrun). apply read_Ok in G as [-> ->].
  apply bind_Ok in Hrun as (u&w1&G&Hrun). apply require_Ok in G as [Hun ->].
  apply update_invoice_tables in Hrun as (r&t&Hr&E).
  assert (inv_id invoice = invoiceId) as Hid by (by apply (proj1 (proj1 Hi))).
  rewrite Hid in Hr, E. rewrite Hinv in Hr. injection Hr as <-.
  unfold ledger_of. rewrite E. apply posts_invoice; [apply Hi|done|].
  apply (ls_status _ invoiceId (account_of invoice) InvoiceStatus.CANCELLED).
  - by apply account_lookup.
  - unfold unpaid_invoice in Hun. split_bool. rewrite !orb_true_iff, !bool_decide_eq_true in *.
    simpl. unfold open_for_payment. naive_solver.
Qed.

(** A call that only reads, and what is known of its result. *)
Lemma posts_read {A B} (P : Db → Prop) (m : Io A) (k : A → Io B) :
  Keeps (λ d, d) m → (∀ w a w', P (db w) → m w = (Ok a, w') → Posts P (k a)) →
  Posts P (m ≫= k).
Proof.
  intros Hm Hk w b w' Hi HP Hrun. apply bind_Ok in Hrun as (a&w1&H1&H2).
  specialize (Hk _ _ _ HP H1). apply keeps_run with (proj := λ d, d) in H1; [|done].
  rewrite <- H1 in *. by eapply Hk.
Qed.
Lemma posts_anywhere {A} (P : Db → Prop) (m : Io A) : Posts anywhere m → Posts P m.
Proof. intros Hm w a w' Hi _. by apply Hm. Qed.

Section ledger.
Context `{ZodFormats} `{ZodUrl} `{UrlParser} `{ZodIso} `{Sha256} `{DateParser}
  `{RegistrarCrypto} `{ResellbizTransport} `{RegistrarRandom} `{JsNumber}
  (environment : DomainEnvironment) (https_url : string → bool).

Lemma write_purchase_posts input auth q account p customer assisted terms now :
  0 <= quo_sellingAmount q →
  Posts anywhere (write_purchase input auth q account p customer assisted terms now).
Proof.
  intros Ha. unfold write_purchase. post_calls ltac:(by apply domain_invoice_posts).
Qed.

Lemma new_purchase_posts input auth q assisted :
  Posts prices_nonneg (new_purchase environment https_url input auth q assisted).
Proof.
  unfold new_purchase. do 5 (apply posts_read; [apply _|intros ? ? ? _ _]).
  apply posts_read; [apply _|]. intros v p v' Hprices Hp. apply row_or_throw_Ok in Hp as [Hp _].
  assert (0 <= pp_amount p) as Ha by (by apply (Hprices _ _ Hp)).
  do 3 (apply posts_read; [apply _|intros ? ? ? _ _]).
  apply posts_read; [apply _|]. intros ? u ? _ [Hun _]%require_Ok.
  assert (0 <= quo_sellingAmount q) as Hq by (unfold offer_unchanged in Hun; split_bool; lia).
  apply (posts_anywhere prices_nonneg).
  post_calls ltac:(by apply write_purchase_posts).
Qed.
Lemma purchase_tx_posts input auth customerId assisted :
  Posts prices_nonneg (purchase_tx environment https_url input auth customerId assisted).
Proof.
  unfold purchase_tx, purchasable_quote. do 2 (apply posts_read; [apply _|intros ? ? ? _ _]).
  case_match; [apply keeps_posts; apply _|apply new_purchase_posts].
Qed.

(** ** Actions *)
Lemma positive_amount v n : positiveAmount v = Some n → 0 <= n.
Proof.
  unfold positiveAmount, z_map, z_refine. intros Hv. destruct (z_string v) as [s|]; [|done].
  destruct (positive_digits 18 s) eqn:E; [|done]. injection Hv as <-.
  unfold positive_digits in E. apply andb_true_iff in E as [E _]. destruct s as [|c t]; [done|].
  apply string_to_Z_bound. simpl in *. apply andb_true_iff in E as [E ->].
  by rewrite (proj2 (nonzero_digit_value _ E)).
Qed.
Lemma renewal_amount v selling revision ceiling :
  domainActionRequestSchema v = Some (RENEW selling revision ceiling) → 0 <= selling.
Proof.
  unfold domainActionRequestSchema. intros Hv.
  repeat match goal with
  | H : (_ ≫= _) = Some _ |- _ => apply bind_Some in H as (?&?&H)
  | H : (if ?b then _ else _) = Some _ |- _ => destruct b
  end; simplify_eq. by eapply positive_amount.
Qed.
Lemma renewal_invoice_posts id current expiry customer selling ceiling revision :
  0 <= selling →
  Posts anywhere (renewal_invoice id current expiry customer selling ceiling revision).
Proof.
  intros Ha. unfold renewal_invoice. post_calls ltac:(by apply domain_invoice_posts).
Qed.
Lemma create_action_posts `{!RegistrarCryptoLaws} id domainId request c auth v :
  domainActionRequestSchema v = Some request →
  Posts anywhere (DomainLifecycle.create_tx id domainId request c auth).
Proof.
  intros Hv. unfold DomainLifecycle.create_tx. destruct request as [| | |selling revision ceiling];
    post_calls ltac:(by apply renewal_invoice_posts; eapply renewal_amount).
Qed.
Lemma cancel_action_posts domainId actionId auth :
  Posts anywhere (DomainLifecycle.cancel_tx domainId actionId auth).
Proof.
  unfold DomainLifecycle.cancel_tx. post_calls ltac:(apply cancel_renewal_posts || case_match).
Qed.
End ledger.
