(* ===== verification/DomainHandlers.v ===== *)
(** * The handlers as histories

    The endpoints of the domain services and the job of the processor, as they are
    composed from their reads, their transactions and the requests they send: whatever
    they answer, what they did to the tables is a history of the protocol's steps, and
    every request that registers or changes a domain has a claim of its own in it. *)
From S2P Require Import Prelude JsString JsDate Json Money States AuthTables DomainTables Database InvoiceNumber InvoiceTotals Invoices Payments MapSum Ledger Settlement Gateways GatewayAdapters Orders HostingServices HostingAutomation HostingPanels CpanelAdapter DomainContracts PanelOperations JsonText ServerProtocol Totp Authentication AuthSamples Registrar Resellbiz RegistrarProcessor DomainAdministration Domains DomainSales DomainManagement DomainLifecycle ExistingDomains DomainProtocol DomainTransitions JsonProperties DomainSamples DomainProperties SalesProperties.

(** ** What registrars are asked *)
(** The requests that register a domain, and those that change or renew one. *)
Definition is_registration (path : string) : bool :=
  String.eqb path "/api/domains/register.json".
Definition is_change (path : string) : bool :=
  existsb (String.eqb path)
    ["/api/domains/modify-ns.json"; "/api/domains/modify-contact.json";
     "/api/domains/enable-theft-protection.json"; "/api/domains/disable-theft-protection.json";
     "/api/domains/renew.json"].
Definition asked (p : string → bool) (w : World) : nat :=
  length (List.filter (λ r, p r.1) (registrarRequests w)).
(** The registrar does not write the tables of the protocol, and receives what it is
    asked, whatever it answers; the random numbers do neither. *)
Class RecordingTransport `{ResellbizTransport} : Prop :=
  { request_quiet path parameters :: Keeps protocol_tables (rz_request path parameters);
    request_recorded path parameters w :
      registrarRequests (snd (rz_request path parameters w)) =
        registrarRequests w ++ [(path, parameters)] }.
(** What asks no registrar. *)
Class Silent {A} (m : Io A) : Prop :=
  silent : ∀ w, registrarRequests (snd (m w)) = registrarRequests w.
Class QuietRandom `{RegistrarRandom} `{RegistrarCrypto} : Prop :=
  { random_quiet n :: Keeps protocol_tables (registrar_random n);
    random_silent n :: Silent (registrar_random n); iv_silent :: Silent registrar_iv }.
Section silent.
#[export] Instance silent_ret {A} (a : A) : Silent (mret a).
Proof. done. Qed.
#[export] Instance silent_throw {A} e : Silent (throw e : Io A).
Proof. done. Qed.
#[export] Instance silent_read {A} (f : Db → A) : Silent (read f).
Proof. done. Qed.
#[export] Instance silent_write f : Silent (write f).
Proof. done. Qed.
#[export] Instance silent_lift {A} (r : result A) : Silent (lift r).
Proof. done. Qed.
#[export] Instance silent_require b e : Silent (require b e).
Proof. done. Qed.
#[export] Instance silent_new_date : Silent new_date.
Proof. done. Qed.
#[export] Instance silent_random_uuid : Silent random_uuid.
Proof. done. Qed.
#[export] Instance silent_lock_row t i : Silent (lock_row t i).
Proof. done. Qed.
#[export] Instance silent_bind {A B} (m : Io A) (k : A → Io B) :
  Silent m → (∀ a, Silent (k a)) → Silent (m ≫= k).
Proof.
  intros Hm Hk w. unfold mbind, M_bind. specialize (Hm w).
  destruct (m w) as [[a|e] w1]; [|done]. by rewrite (Hk a w1).
Qed.
#[export] Instance silent_catch {A} (m : Io A) (h : exn → Io A) :
  Silent m → (∀ e, Silent (h e)) → Silent (catch m h).
Proof.
  intros Hm Hk w. unfold catch. specialize (Hm w).
  destruct (m w) as [[a|e] w1]; [done|]. by rewrite (Hk e w1).
Qed.
#[export] Instance silent_when b (m : Io unit) : Silent m → Silent (when b m).
Proof. destruct b; [done|]. intros _. apply silent_ret. Qed.
#[export] Instance silent_for_each {A} (l : list A) (f : A → Io unit) :
  (∀ a, Silent (f a)) → Silent (for_each l f).
Proof. intros Hf. induction l; simpl; apply _. Qed.
#[export] Instance silent_fold_each {A B} (f : B → A → Io B) b (l : list A) :
  (∀ b a, Silent (f b a)) → Silent (fold_each f b l).
Proof. intros Hf. revert b. induction l; intros; simpl; apply _. Qed.
#[export] Instance silent_transaction {A} (m : Io A) : Silent m → Silent (transaction m).
Proof. intros Hm w. specialize (Hm w). unfold transaction. by destruct (m w) as [[] ?]. Qed.
End silent.
#[local] Hint Extern 4 (Silent (match ?x with _ => _ end)) => destruct x : typeclass_instances.
(** The operations are unfolded down to these. *)
Ltac head_of t := match t with ?f _ => head_of f | _ => t end.
#[local] Hint Extern 9 (Silent ?m) =>
  let h := head_of m in unfold h; cbv beta : typeclass_instances.

(** Registrations and changes asked for, beyond [nr] and [nc], have an event each. *)
Record covered (nr nc : nat) (w : World) (es : list Event) (w' : World) : Prop := MkCovered
  { cov_registrations : (asked is_registration w' <=
      asked is_registration w + length (dispatches es) + nr)%nat;
    cov_changes : (asked is_change w' <=
      asked is_change w + length (submissions es) + nc)%nat }.
Lemma covered_same w es w' : registrarRequests w' = registrarRequests w → covered 0 0 w es w'.
Proof. intros E. split; unfold asked; rewrite E; lia. Qed.
Lemma covered_app nr nc nr' nc' w es w1 es' w' :
  covered nr nc w es w1 → covered nr' nc' w1 es' w' →
  covered (nr + nr') (nc + nc') w (es ++ es') w'.
Proof.
  intros [R1 C1] [R2 C2]. unfold dispatches, submissions in *.
  split; unfold dispatches, submissions; rewrite omap_app, length_app; lia.
Qed.
Lemma covered_more nr nc nr' nc' w es w' :
  covered nr nc w es w' → (nr <= nr')%nat → (nc <= nc')%nat → covered nr' nc' w es w'.
Proof. intros [R C] H1 H2. split; lia. Qed.
Lemma covered_silent {A} (m : Io A) `{!Silent m} w r es w' :
  m w = (r, w') → covered 0 0 w es w'.
Proof. intros E. apply covered_same. pose proof (silent w) as H'. by rewrite E in H'. Qed.

(** What fails has not written. *)
Lemma update_domain_Err id f w e w' : update_domain id f w = (Err e, w') → w' = w.
Proof.
  unfold update_domain, mbind, M_bind, read, gets, lift, require. intros Hrun.
  destruct (of_option _ _); [|by injection Hrun as _ <-]. by destruct (unique_opt _ _ _); simplify_eq/=.
Qed.
Lemma change_row_Err {R} (table : Db → gmap string R) `{!Setter table} id f w e w' :
  change_row table id f w = (Err e, w') → db w' = db w <| table := table (db w) |>.
Proof.
  unfold change_row, mbind, M_bind. intros Hrun.
  destruct (change_row_if table id _ f w) as [[n|x] w1] eqn:G.
  - apply change_row_if_Ok in G as [[-> E]|[-> _]]; [|done]. by injection Hrun as _ <-.
  - exfalso. unfold change_row_if, mbind, M_bind, read, gets in G.
    by destruct (update_one _ _ _ _).
Qed.
Lemma create_domain_Err r w e w' : create_domain r w = (Err e, w') → w' = w.
Proof.
  unfold create_domain, mbind, M_bind, read, gets, require. intros Hrun.
  by destruct (_ && _); simplify_eq/=.
Qed.

Section handlers.
Context `{ZodFormats} `{ZodUrl} `{UrlParser} `{ZodIso} `{Sha256} `{DateParser}
  `{RegistrarCryptoLaws} `{ResellbizTransport} `{RegistrarRandom} `{JsNumber}
  `{!RecordingTransport} `{!QuietRandom}
  (environment : DomainEnvironment) (injected : option DomainRegistrar)
  (options : ProcessorOptions).
Notation history := (registrar_history environment injected options).

(** ** Runs that extend a history *)
(** From a history with the events [C], any run of [m] extends it, and but for [nr]
    registrations and [nc] changes what it asked for has events in the extension. *)
Class Spends {S A} (nr nc : nat) (world : S → World) (C : list Event) (m : M S A) : Prop :=
  spends : ∀ w0 past s r s', registrar_ok (db w0) → C ⊆ past → history w0 past (world s) →
    m s = (r, s') →
    ∃ es, history w0 (past ++ es) (world s') ∧ covered nr nc (world s) es (world s').
Notation Extends := (Spends 0 0).

Lemma extend_quiet w0 past w w' :
  registrar_ok (db w0) → history w0 past w → protocol_tables (db w') = protocol_tables (db w) →
  registrarRequests w' = registrarRequests w →
  ∃ es, history w0 (past ++ es) w' ∧ covered 0 0 w es w'.
Proof using Type*.
  intros Hok Hh E Er. exists []. split; [|by apply covered_same].
  eapply rh_step; [exact Hh|]. apply rs_quiet, quiet_same; [|done].
  by apply registrar_history_run in Hh as [[? _] _].
Qed.
Lemma extend_step w0 past w es w' :
  history w0 past w → registrar_step environment injected options past w es w' →
  registrarRequests w' = registrarRequests w →
  ∃ es, history w0 (past ++ es) w' ∧ covered 0 0 w es w'.
Proof. intros. exists es. split; [by econstructor|by apply covered_same]. Qed.
Lemma silent_run {A} (m : Io A) `{!Silent m} w r w' :
  m w = (r, w') → registrarRequests w' = registrarRequests w.
Proof. intros E. pose proof (silent w) as H'. by rewrite E in H'. Qed.
#[export] Instance extends_keeps {A} C (m : Io A) :
  Keeps protocol_tables m → Silent m → Extends id C m | 20.
Proof using Type*.
  intros K Hs w0 past s r s' Hok _ Hh Hrun.
  eapply extend_quiet; [done|exact Hh|by eapply keeps_run in Hrun|by eapply silent_run].
Qed.

Section combinators.
Context {S : Type} (world : S → World) (C : list Event).
Lemma extends_same {A} (m : M S A) : (∀ s, world (snd (m s)) = world s) → Extends world C m.
Proof.
  intros Hm w0 past s r s' Hok _ Hh Hrun. exists []. rewrite app_nil_r.
  specialize (Hm s). rewrite Hrun in Hm. simpl in Hm. rewrite Hm.
  split; [done|by apply covered_same].
Qed.
#[export] Instance extends_ret {A} (a : A) : Extends world C (mret a).
Proof. by apply extends_same. Qed.
#[export] Instance extends_throw {A} e : Extends world C (throw e : M S A).
Proof. by apply extends_same. Qed.
#[export] Instance extends_lift {A} (r : result A) : Extends world C (lift r).
Proof. by apply extends_same. Qed.
#[export] Instance extends_require b e : Extends world C (require b e).
Proof. by apply extends_same. Qed.
#[export] Instance extends_gets {A} (f : S → A) : Extends world C (gets f).
Proof. by apply extends_same. Qed.
Lemma spends_more nr nc nr' nc' {A} (m : M S A) :
  (nr <= nr')%nat → (nc <= nc')%nat → Spends nr nc world C m → Spends nr' nc' world C m.
Proof.
  intros Hr Hc Hm w0 past s r s' Hok Hp Hh Hrun.
  eapply Hm in Hrun as (es&Hh'&Hv); [|done..]. exists es. split; [done|].
  by eapply covered_more.
Qed.
(** The parts of a run, and what the first may answer. *)
Lemma spends_bind_with nr nc nr' nc' {A B} (Q : A → Prop) (m : M S A) (k : A → M S B) :
  (∀ s a s', m s = (Ok a, s') → Q a) → Spends nr nc world C m →
  (∀ a, Q a → Spends nr' nc' world C (k a)) →
  Spends (nr + nr') (nc + nc') world C (m ≫= k).
Proof.
  intros Hq Hm Hk w0 past s r s' Hok Hc Hh Hrun. unfold mbind, M_bind in Hrun.
  destruct (m s) as [[a|e] s1] eqn:E; pose proof E as E'; eapply Hm in E as (es&Hh1&Hv1);
    try done.
  - assert (C ⊆ past ++ es) as Hc' by (intros x Hx; apply elem_of_app; left; by apply Hc).
    eapply (Hk a (Hq _ _ _ E')) in Hrun as (es'&Hh2&Hv2); [|done|exact Hc'|exact Hh1].
    exists (es ++ es'). rewrite app_assoc. split; [done|by eapply covered_app].
  - injection Hrun as _ <-. exists es. split; [done|]. eapply covered_more; [exact Hv1|lia..].
Qed.
Lemma spends_bind nr nc nr' nc' {A B} (m : M S A) (k : A → M S B) :
  Spends nr nc world C m → (∀ a, Spends nr' nc' world C (k a)) →
  Spends (nr + nr') (nc + nc') world C (m ≫= k).
Proof. intros Hm Hk. by apply (spends_bind_with _ _ _ _ (λ _, True)). Qed.
#[export] Instance extends_bind {A B} (m : M S A) (k : A → M S B) :
  Extends world C m → (∀ a, Extends world C (k a)) → Extends world C (m ≫= k).
Proof. apply (spends_bind 0 0 0 0). Qed.
Lemma spends_then nr nc {A B} (m : M S A) (k : A → M S B) :
  Extends world C m → (∀ a, Spends nr nc world C (k a)) → Spends nr nc world C (m ≫= k).
Proof. apply (spends_bind 0 0 nr nc). Qed.
Lemma spends_first nr nc {A B} (m : M S A) (k : A → M S B) :
  Spends nr nc world C m → (∀ a, Extends world C (k a)) → Spends nr nc world C (m ≫= k).
Proof.
  intros Hm Hk. eapply (spends_more (nr + 0) (nc + 0)); [lia..|]. by apply spends_bind.
Qed.
Lemma spends_catch nr nc {A} (m : M S A) (h : exn → M S A) :
  Spends nr nc world C m → (∀ e, Extends world C (h e)) → Spends nr nc world C (catch m h).
Proof.
  intros Hm Hk w0 past s r s' Hok Hc Hh Hrun. unfold catch in Hrun.
  destruct (m s) as [[a|e] s1] eqn:E; eapply Hm in E as (es&Hh1&Hv1); try done.
  - injection Hrun as _ <-. by exists es.
  - assert (C ⊆ past ++ es) as Hc' by (intros x Hx; apply elem_of_app; left; by apply Hc).
    eapply (Hk e) in Hrun as (es'&Hh2&Hv2); [|done|exact Hc'|exact Hh1].
    exists (es ++ es'). rewrite app_assoc. split; [done|].
    eapply covered_more; [by eapply covered_app|lia..].
Qed.
#[export] Instance extends_catch {A} (m : M S A) (h : exn → M S A) :
  Extends world C m → (∀ e, Extends world C (h e)) → Extends world C (catch m h).
Proof. apply spends_catch. Qed.
#[export] Instance extends_when b (m : M S unit) : Extends world C m → Extends world C (when b m).
Proof. destruct b; [done|]. intros _. apply extends_ret. Qed.
#[export] Instance extends_for_each {A} (l : list A) (f : A → M S unit) :
  (∀ a, Extends world C (f a)) → Extends world C (for_each l f).
Proof. intros Hf. induction l; simpl; apply _. Qed.
#[export] Instance extends_fold_each {A B} (f : B → A → M S B) b (l : list A) :
  (∀ b a, Extends world C (f b a)) → Extends world C (fold_each f b l).
Proof. intros Hf. revert b. induction l; intros; simpl; apply _. Qed.
Lemma extends_more C' {A} (m : M S A) : C ⊆ C' → Extends world C m → Extends world C' m.
Proof. intros Hc Hm w0 past s r s' Hok Hp. apply Hm; [done|]. by transitivity C'. Qed.
End combinators.

(** ** Objects with a binding *)
Definition outer (s : World * option ResellbizBinding) : World := s.1.
Lemma spends_outside nr nc {A} C (m : Io A) :
  Spends nr nc id C m → Spends nr nc outer C (outside m).
Proof.
  intros Hm w0 past [w b] r [w' b'] Hok Hc Hh Hrun. unfold outside in Hrun.
  destruct (m w) as [x w1] eqn:E. injection Hrun as _ <- _. by eapply Hm in E.
Qed.
#[export] Instance extends_outside {A} C (m : Io A) :
  Extends id C m → Extends outer C (outside m) := spends_outside 0 0 C m.
Lemma spends_session nr nc {A} C b (m : Sio A) :
  Spends nr nc outer C m → Spends nr nc id C (session b m).
Proof.
  intros Hm w0 past w r w' Hok Hc Hh Hrun. unfold session in Hrun.
  destruct (m (w, b)) as [x [w1 b']] eqn:E. injection Hrun as _ <-.
  by eapply (Hm _ past (w, b)) in E.
Qed.
#[export] Instance extends_session {A} C b (m : Sio A) :
  Extends outer C m → Extends id C (session b m) := spends_session 0 0 C b m.
#[export] Instance extends_set_binding C b : Extends outer C (set_binding b).
Proof. by apply extends_same. Qed.
#[export] Instance extends_the_binding C : Extends outer C the_binding.
Proof. by apply extends_same. Qed.

(** ** Transactions *)
(** A rollback would not undo a request: there is none in a transaction. *)
#[export] Instance extends_transaction {A} C (m : Io A) :
  Extends id C m → Silent m → Extends id C (transaction m).
Proof using Type*.
  intros Hm Hs w0 past w r w' Hok Hc Hh Hrun. destruct r as [a|e].
  - rewrite transaction_Ok in Hrun. by eapply Hm in Hrun.
  - eapply extend_quiet; [done|exact Hh| |exact (silent_run _ _ _ _ Hrun)].
    exact (f_equal protocol_tables (transaction_Err_db _ _ _ _ Hrun)).
Qed.
(** A transaction that is a step when it succeeds. *)
Lemma extends_step {A} C (m : Io A) `{!Silent m} :
  (∀ past w a w', C ⊆ past → transaction m w = (Ok a, w') →
     ∃ es, registrar_step environment injected options past w es w') →
  Extends id C (transaction m).
Proof using Type*.
  intros Hm w0 past w r w' Hok Hc Hh Hrun. destruct r as [a|e].
  - pose proof (silent_run _ _ _ _ Hrun) as Er.
    eapply Hm in Hrun as [es Hst]; [|done]. eapply extend_step; [exact Hh|exact Hst|exact Er].
  - eapply extend_quiet; [done|exact Hh| |exact (silent_run _ _ _ _ Hrun)].
    exact (f_equal protocol_tables (transaction_Err_db _ _ _ _ Hrun)).
Qed.
(** A lock taken first. *)
Lemma extends_locked {A} C (l : Io unit) (m : Io A) :
  Keeps protocol_tables l → Silent l → Silent m → Extends id C (transaction m) →
  Extends id C (transaction (l ≫= λ _, m)).
Proof using Type*.
  intros Hl Hsl Hsm Hm w0 past w r w' Hok Hc Hh Hrun. destruct r as [a|e].
  - rewrite transaction_Ok in Hrun. apply bind_Ok in Hrun as (u&w1&G&Hrun).
    apply transaction_Ok in Hrun.
    assert (Extends id C (l ≫= λ _, transaction m)) as Hx by apply _.
    eapply (Hx w0 past w (Ok a) w'); [done..|]. unfold mbind, M_bind. by rewrite G.
  - eapply extend_quiet; [done|exact Hh| |exact (silent_run _ _ _ _ Hrun)].
    exact (f_equal protocol_tables (transaction_Err_db _ _ _ _ Hrun)).
Qed.
#[export] Instance extends_prepare C locator invoiceId :
  Extends id C (transaction (prepare_tx injected options locator invoiceId)).
Proof using Type*. apply extends_step; [apply _|]. intros. eexists. by econstructor. Qed.
#[export] Instance extends_record C locator invoiceId itemId intent o :
  Extends id C (transaction (record_tx locator invoiceId itemId intent o)).
Proof using Type*. apply extends_step; [apply _|]. intros. eexists. by eapply rs_record. Qed.
#[export] Instance extends_approve C id_ input auth a :
  Extends id C (transaction (approve_tx environment id_ input auth a)).
Proof using Type*. apply extends_step; [apply _|]. intros. eexists. by eapply rs_approve. Qed.
#[export] Instance extends_create C id_ domainId request c auth :
  Extends id C (transaction (create_tx id_ domainId request c auth)).
Proof using Type*. apply extends_step; [apply _|]. intros. eexists. by eapply rs_create. Qed.
Lemma extends_cancel C domainId actionId auth :
  Extends id C (transaction (cancel_tx domainId actionId auth)).
Proof using Type*. apply extends_step; [apply _|]. intros. eexists. by eapply rs_cancel. Qed.
#[export] Instance extends_failed C domainId actionId auth :
  Extends id (ActionClaimed actionId :: C) (fail_unsent domainId actionId auth).
Proof using Type*.
  unfold fail_unsent. apply extends_step; [apply _|]. intros past w a w' Hin Hrun. eexists.
  eapply rs_failed; [apply Hin; by left|exact Hrun].
Qed.
(** The row of the action is written before the answer is checked; a claim that succeeds
    leaves an event for one change. *)
Class Claims (C : list Event) (claim : Io unit) : Prop :=
  claims : ∀ w0 past w r w', registrar_ok (db w0) → history w0 past w → claim w = (r, w') →
    registrarRequests w' = registrarRequests w ∧
    ∃ es, history w0 (past ++ es) w' ∧ (r = Ok tt → length (submissions es) = 1%nat).
#[export] Instance claims_submission C actionId : Claims C (claimSubmission actionId).
Proof using Type*.
  intros w0 past w r w' Hok Hh Hrun. split; [exact (silent_run _ _ _ _ Hrun)|].
  destruct r as [[]|e].
  - exists [Submitted actionId]. split; [|done]. econstructor; [exact Hh|by eapply rs_submit].
  - assert (protocol_tables (db w') = protocol_tables (db w)) as E.
    { unfold claimSubmission, mbind, M_bind, new_date in Hrun.
      destruct (change_row_if _ _ _ _ _) as [[n|e'] w1] eqn:G.
      - apply change_row_if_Ok in G as [[-> E]|[-> _]]; [|done].
        injection Hrun as _ <-. rewrite E. done.
      - exfalso. unfold change_row_if, mbind, M_bind, read, gets in G.
        by destruct (update_one _ _ _ _). }
    eapply extend_quiet in Hh as (es&Hh&_); [|done|exact E|exact (silent_run _ _ _ _ Hrun)].
    by exists es.
Qed.
(** After a claim one change may be asked for. *)
Lemma extends_claimed {A} C (claim : Io unit) (k : unit → Sio A) :
  Claims C claim → (∀ u, Spends 0 1 outer C (k u)) → Extends outer C (outside claim ≫= k).
Proof using Type*.
  intros Hm Hk w0 past [w b] r [w' b'] Hok Hc Hh Hrun. unfold mbind, M_bind, outside in Hrun.
  destruct (claim w) as [x w1] eqn:E. unfold outer in *. simpl in *.
  eapply Hm in E as (Er&es&Hh1&He); [|done|exact Hh].
  assert (C ⊆ past ++ es) as Hc' by (intros y Hy; apply elem_of_app; left; by apply Hc).
  destruct x as [[]|e].
  - eapply (Hk tt) in Hrun as (es'&Hh2&[Hv1 Hv2]); [|done|exact Hc'|exact Hh1].
    exists (es ++ es'). rewrite app_assoc. split; [exact Hh2|].
    unfold asked, outer in *. simpl in *. rewrite Er in *. specialize (He eq_refl).
    split; unfold asked, dispatches, submissions in *; rewrite omap_app, length_app; lia.
  - injection Hrun as _ <- _. exists es. split; [exact Hh1|by apply covered_same].
Qed.
#[export] Instance extends_settle C domainId actionId request auth projected contact confirmed failed :
  Extends id (ActionClaimed actionId :: C)
    (transaction (settle_tx domainId actionId request auth projected contact confirmed failed)).
Proof using Type*.
  apply extends_step; [apply _|]. intros past w a w' Hin Hrun. eexists.
  eapply rs_settled; [apply Hin; by left|exact Hrun].
Qed.

(** ** Other writes *)
#[export] Instance extends_update_domain C domainId f :
  (∀ r, dom_id (f r) = dom_id r ∧ dom_state (f r) = dom_state r) →
  Extends id C (update_domain domainId f).
Proof using Type*.
  intros Hf w0 past w r w' Hok Hc Hh Hrun. pose proof (silent_run _ _ _ _ Hrun) as Er.
  destruct r as [u|e].
  - apply update_domain_Ok in Hrun as (x&Hx&E). eexists. split; [|by apply covered_same].
    eapply rh_step; [exact Hh|].
    apply registrar_history_run in Hh as [[K _] _]; [|done]. destruct (Hf x) as [Hid Hst].
    apply rs_quiet. unfold id in *. rewrite E. split.
    + apply keyed_domain; [done|]. rewrite Hid. by apply K.
    + eexists. split; [reflexivity|]. rewrite view_set_domain, Hst, insert_id; [done|].
      by apply view_domain.
  - eapply extend_quiet; [done|exact Hh| |exact Er]. by apply update_domain_Err in Hrun as ->.
Qed.
#[export] Instance extends_create_domain C r : Extends id C (create_domain r).
Proof using Type*.
  intros w0 past w x w' Hok Hc Hh Hrun. pose proof (silent_run _ _ _ _ Hrun) as Er.
  destruct x as [u|e].
  - apply create_domain_Ok in Hrun as [Hn E]. eexists. split; [|by apply covered_same].
    eapply rh_step; [exact Hh|].
    apply registrar_history_run in Hh as [[K _] _]; [|done].
    apply rs_quiet. unfold id in *. rewrite E. split; [by apply keyed_domain|].
    eexists. split; [|by rewrite view_set_domain].
    simpl. apply insert_subseteq. by rewrite lookup_fmap, Hn.
  - eapply extend_quiet; [done|exact Hh| |exact Er]. by apply create_domain_Err in Hrun as ->.
Qed.

(** The rows of registrar accounts. *)
Lemma extend_accounts w0 past w w' m :
  registrar_ok (db w0) → history w0 past w →
  db w' = db w <| registrarAccounts := m |> → (∀ i a, m !! i = Some a → ra_id a = i) →
  registrarRequests w' = registrarRequests w →
  ∃ es, history w0 (past ++ es) w' ∧ covered 0 0 w es w'.
Proof using Type*.
  intros Hok Hh E Hm Er. exists []. split; [|by apply covered_same].
  eapply rh_step; [exact Hh|]. apply registrar_history_run in Hh as [[[K1 K2 K3 K4] _] _]; [|done].
  apply rs_quiet. rewrite E. split; [by split|].
  by exists (v_domains (domain_view (db w))).
Qed.
#[export] Instance extends_create_account C id_ fresh r :
  TCEq (ra_id r) id_ → Extends id C (create_row registrarAccounts id_ fresh r).
Proof using Type*.
  intros Hid w0 past w x w' Hok Hc Hh Hrun. pose proof (silent_run _ _ _ _ Hrun) as Er.
  destruct x as [u|e].
  - apply create_row_Ok in Hrun as (Hn&_&E). eapply extend_accounts; [done|exact Hh|exact E| |done].
    apply registrar_history_run in Hh as [[K _] _]; [|done].
    intros i a [[<- <-]|[_ Ha]]%lookup_insert_Some; [by rewrite Hid|by eapply key_account].
  - eapply extend_quiet; [done|exact Hh| |exact Er]. unfold create_row, mbind, M_bind, read, gets,
      require in Hrun. by destruct (_ && _); simplify_eq/=.
Qed.
Lemma extends_change_account C id_ f :
  (∀ a, ra_id (f a) = ra_id a) → Extends id C (change_row registrarAccounts id_ f).
Proof using Type*.
  intros Hf w0 past w r w' Hok Hc Hh Hrun. pose proof (silent_run _ _ _ _ Hrun) as Er.
  destruct r as [u|e].
  - apply change_row_Ok in Hrun as (x&Hx&E). eapply extend_accounts; [done|exact Hh|exact E| |done].
    apply registrar_history_run in Hh as [[K _] _]; [|done].
    intros i a [[<- <-]|[_ Ha]]%lookup_insert_Some; [rewrite Hf|]; by eapply key_account.
  - eapply extend_quiet; [done|exact Hh| |exact Er].
    unfold id. by rewrite (change_row_Err _ _ _ _ _ _ Hrun).
Qed.
#[local] Hint Extern 3 (Spends _ _ _ _ (change_row registrarAccounts _ _)) =>
  apply extends_change_account; intros; reflexivity : typeclass_instances.

(** ** The registrars *)
#[local] Hint Extern 4 (Spends _ _ _ _ (match ?x with _ => _ end)) =>
  destruct x : typeclass_instances.
#[export] Instance create_mapping_quiet k c r : Keeps protocol_tables (create_mapping k c r).
Proof. unfold create_mapping. apply _. Qed.
#[export] Instance create_preparation_quiet o k r :
  Keeps protocol_tables (create_preparation o k r).
Proof. unfold create_preparation. apply _. Qed.
#[export] Instance preparation_load_quiet i f : Keeps protocol_tables (preparation_load i f).
Proof. unfold preparation_load. apply _. Qed.
#[export] Instance preparation_claim_quiet i f s : Keeps protocol_tables (preparation_claim i f s).
Proof. unfold preparation_claim, claim_tx. apply _. Qed.
#[export] Instance preparation_customer_quiet i f r :
  Keeps protocol_tables (preparation_customer i f r).
Proof. unfold preparation_customer. apply _. Qed.
#[export] Instance preparation_complete_quiet i f c r :
  Keeps protocol_tables (preparation_complete i f c r).
Proof. unfold preparation_complete, complete_tx. apply _. Qed.
#[export] Instance draw_password_quiet n : Keeps protocol_tables (draw_password n).
Proof using Type*. induction n; simpl; apply _. Qed.
#[export] Instance password_quiet : Keeps protocol_tables independentCustomerPassword.
Proof using Type*.
  unfold independentCustomerPassword. generalize 64%nat. induction n; simpl; apply _.
Qed.
#[export] Instance fake_quote_quiet n : Keeps protocol_tables (fake_quote n).
Proof. unfold fake_quote. apply _. Qed.
#[export] Instance fake_contacts_quiet i f : Keeps protocol_tables (fake_ensureContacts i f).
Proof. unfold fake_ensureContacts. apply _. Qed.
#[export] Instance fake_register_quiet i : Keeps protocol_tables (fake_registerOnce i).
Proof. unfold fake_registerOnce. apply _. Qed.
#[export] Instance fake_lookup_quiet i : Keeps protocol_tables (fake_lookup i).
Proof. unfold fake_lookup. apply _. Qed.
Section live.
Context (credentials : ResellbizCredential) (C : list Event).
Notation Quiet := (Extends outer C).
Lemma request_spends p q :
  Spends (if is_registration p then 1 else 0) (if is_change p then 1 else 0) id C
    (rz_request p q).
Proof using Type*.
  intros w0 past w r w' Hok Hc Hh Hrun. pose proof (request_recorded p q w) as E.
  rewrite Hrun in E. simpl in E. exists []. split.
  - eapply rh_step; [exact Hh|]. apply rs_quiet, quiet_same.
    + by apply registrar_history_run in Hh as [[? _] _].
    + by eapply keeps_run in Hrun; [|apply request_quiet].
  - split; unfold asked, id; rewrite E, List.filter_app, length_app; simpl;
      [destruct (is_registration p)|destruct (is_change p)]; simpl; lia.
Qed.
Lemma rz_call_spends p q :
  Spends (if is_registration p then 1 else 0) (if is_change p then 1 else 0) outer C
    (rz_call credentials p q).
Proof using Type*.
  unfold rz_call. apply spends_outside, spends_catch; [|apply _].
  apply spends_first; [apply request_spends|apply _].
Qed.
Lemma rz_record_spends p q :
  Spends (if is_registration p then 1 else 0) (if is_change p then 1 else 0) outer C
    (rz_record credentials p q).
Proof using Type*. unfold rz_record. apply spends_first; [apply rz_call_spends|apply _]. Qed.
(** Reads are neither. *)
#[export] Instance rz_call_extends p q :
  TCEq (is_registration p) false → TCEq (is_change p) false → Quiet (rz_call credentials p q).
Proof using Type*. intros Hr Hc. pose proof (rz_call_spends p q) as Hs. by rewrite Hr, Hc in Hs. Qed.
#[export] Instance rz_record_extends p q :
  TCEq (is_registration p) false → TCEq (is_change p) false → Quiet (rz_record credentials p q).
Proof using Type*. intros. unfold rz_record. apply _. Qed.
#[export] Instance availability_extends n : Quiet (availability credentials n).
Proof using Type*. unfold availability. apply _. Qed.
#[export] Instance live_quote_extends n : Quiet (live_quote credentials n).
Proof using Type*. unfold live_quote. apply _. Qed.
#[export] Instance renewalCost_extends n : Quiet (renewalCost credentials n).
Proof using Type*. unfold renewalCost. apply _. Qed.
#[export] Instance rz_bind_extends i : Quiet (rz_bind i).
Proof using Type*. unfold rz_bind. apply _. Qed.
#[export] Instance verifyContacts_extends i : Quiet (verifyContacts credentials i).
Proof using Type*. unfold verifyContacts. apply _. Qed.
#[export] Instance add_contact_extends i r : Quiet (add_contact credentials i r).
Proof using Type*. unfold add_contact. apply _. Qed.
#[export] Instance remote_customer_extends i c f r : Quiet (remote_customer credentials i c f r).
Proof using Type*. unfold remote_customer. apply _. Qed.
#[export] Instance prepare_contacts_extends i c f : Quiet (prepare_contacts credentials i c f).
Proof using Type*. unfold prepare_contacts. apply _. Qed.
#[export] Instance live_ensureContacts_extends b i f : Quiet (live_ensureContacts credentials b i f).
Proof using Type*. unfold live_ensureContacts. apply _. Qed.
Lemma live_registerOnce_spends i : Spends 1 0 outer C (live_registerOnce credentials i).
Proof using Type*.
  unfold live_registerOnce. do 4 (apply spends_then; [apply _|intros]).
  apply spends_first; [apply (rz_record_spends "/api/domains/register.json")|apply _].
Qed.
#[export] Instance order_details_extends o : Quiet (order_details credentials o).
Proof using Type*. unfold order_details. apply _. Qed.
#[export] Instance live_lookup_extends i : Quiet (live_lookup credentials i).
Proof using Type*. unfold live_lookup. apply _. Qed.
#[export] Instance management_extends i o : Quiet (management credentials i o).
Proof using Type*. unfold management. apply _. Qed.
#[export] Instance inspectExisting_extends a c n : Quiet (inspectExisting credentials a c n).
Proof using Type*. unfold inspectExisting. apply _. Qed.
#[export] Instance authorizationCode_extends i o : Quiet (live_authorizationCode credentials i o).
Proof using Type*. unfold live_authorizationCode. apply _. Qed.
Lemma submitted_spends o m p q :
  is_registration p = false → Spends 0 1 outer C (submitted credentials o m p q).
Proof using Type*.
  intros Hp. unfold submitted. apply spends_then; [apply _|intros].
  apply spends_first; [|apply _]. eapply spends_more, rz_record_spends;
    [rewrite Hp; lia|destruct (is_change p); lia].
Qed.
#[export] Instance changeNameservers_extends i o n m :
  Claims C m → Quiet (changeNameservers credentials i o n m).
Proof using Type*.
  intros. unfold changeNameservers. do 2 (apply extends_bind; [apply _|intros]).
  apply extends_claimed; [done|intros]. by apply submitted_spends.
Qed.
#[export] Instance changeLock_extends i o l m :
  Claims C m → Quiet (changeLock credentials i o l m).
Proof using Type*.
  intros. unfold changeLock. apply extends_bind; [apply _|intros].
  apply extends_claimed; [done|intros]. apply submitted_spends. by destruct l.
Qed.
#[export] Instance verifyReplacement_extends i c :
  Quiet (verifyReplacementContact credentials i c).
Proof using Type*. unfold verifyReplacementContact. apply _. Qed.
#[export] Instance replacementContact_extends i : Quiet (replacementContact credentials i).
Proof using Type*. unfold replacementContact. apply _. Qed.
#[export] Instance changeContacts_extends i o c m :
  Claims C m → Quiet (changeContacts credentials i o c m).
Proof using Type*.
  intros. unfold changeContacts. do 2 (apply extends_bind; [apply _|intros]).
  apply extends_claimed; [done|intros]. by apply submitted_spends.
Qed.
#[export] Instance renew_extends i o p m :
  Claims C m → Quiet (renew credentials i o p m).
Proof using Type*.
  intros. unfold renew. do 5 (apply extends_bind; [apply _|intros]).
  apply extends_claimed; [done|intros]. by apply submitted_spends.
Qed.
End live.
(** The methods of a registrar leave the tables of the protocol; [registerOnce] asks for
    one registration, the others for none. *)
Record quiet_registrar (C : list Event) (r : DomainRegistrar) : Prop := MkQuietRegistrar
  { qr_quote n : Extends outer C (dr_quote r n);
    qr_contacts i f : Extends outer C (dr_ensureContacts r i f);
    qr_register i : Spends 1 0 outer C (dr_registerOnce r i);
    qr_lookup i : Extends outer C (dr_lookup r i) }.
Lemma live_registrar_quiet C credentials prepared :
  quiet_registrar C (ResellbizLiveRegistrar credentials prepared).
Proof using Type*. split; intros; simpl; try apply _. apply live_registerOnce_spends. Qed.
Lemma fake_registrar_quiet C : quiet_registrar C FakeDomainRegistrar.
Proof using Type*.
  split; intros; simpl; try apply _. apply (spends_more _ _ 0 0); [lia..|apply _].
Qed.

(** ** What a run answers *)
Class Returns {S A} (P : A → Prop) (m : M S A) : Prop :=
  returns : ∀ s a s', m s = (Ok a, s') → P a.
#[export] Instance returns_bind {S A B} (P : B → Prop) (m : M S A) (k : A → M S B) :
  (∀ a, Returns P (k a)) → Returns P (m ≫= k) | 10.
Proof. intros Hk s b s' Hrun. apply bind_Ok in Hrun as (a&s1&_&Hrun). by eapply Hk. Qed.
Lemma returns_ret {S A} (P : A → Prop) (a : A) : P a → Returns P (mret a : M S A).
Proof. intros Hp s b s' Hrun. by apply ret_Ok in Hrun as [-> _]. Qed.
Lemma returns_bind_with {S A B} (Q : A → Prop) (P : B → Prop) (m : M S A) (k : A → M S B) :
  Returns Q m → (∀ a, Q a → Returns P (k a)) → Returns P (m ≫= k).
Proof.
  intros Hm Hk s b s' Hrun. apply bind_Ok in Hrun as (a&s1&G&Hrun).
  eapply Hk; [by eapply Hm|exact Hrun].
Qed.
#[local] Hint Extern 4 (Returns _ (match ?x with _ => _ end)) =>
  destruct x : typeclass_instances.
#[local] Hint Extern 3 (Returns _ (mret _)) => apply returns_ret; done : typeclass_instances.
(** ** The processor *)
Section processor.
Context (C : list Event).
Context (Hinjected : ∀ r, injected = Some r → quiet_registrar C r).
Definition quiet_provider (r : option (DomainRegistrar * option ResellbizBinding)) : Prop :=
  ∀ p, fst <$> r = Some p → quiet_registrar C p.
Definition quiet_preparation (r : option Preparation) : Prop :=
  ∀ p, r = Some p → quiet_registrar C (pn_provider p).
Lemma injected_quiet r : quiet_registrar C r → quiet_registrar C (default r injected).
Proof using Type*. intros Hr. destruct injected; simpl; auto. Qed.
Lemma live_preparation_quiet account o domain quote names creds :
  Returns quiet_provider (live_preparation injected account o domain quote names creds).
Proof using Type*.
  unfold live_preparation. repeat (apply _ || (apply returns_bind; intros) || case_match);
    apply returns_ret; intros p; simpl; try done;
    intros [= <-]; apply injected_quiet, live_registrar_quiet.
Qed.
Lemma prepare_rows_quiet o domain account origin quoteId itemId invoiceId :
  Returns quiet_preparation (prepare_rows injected o domain account origin quoteId itemId invoiceId).
Proof using Type*.
  unfold prepare_rows. do 2 (apply returns_bind; intros). case_match; [by apply returns_ret|].
  do 4 (apply returns_bind; intros).
  apply (returns_bind_with quiet_provider).
  { case_match; [apply live_preparation_quiet|]. apply returns_ret. intros p. simpl.
    intros [= <-]. apply injected_quiet, fake_registrar_quiet. }
  intros [[p b]|] Hp; [|by apply returns_ret]. apply returns_bind. intros r.
  apply returns_ret. intros x Hx. destruct r; [|done]. injection Hx as <-. by apply Hp.
Qed.
Lemma prepare_tx_quiet locator invoiceId :
  Returns quiet_preparation (transaction (prepare_tx injected options locator invoiceId)).
Proof using Type*.
  intros s a s' Hrun. rewrite transaction_Ok in Hrun. revert s a s' Hrun.
  change (Returns quiet_preparation (prepare_tx injected options locator invoiceId)).
  unfold prepare_tx. repeat (apply prepare_rows_quiet || (apply returns_bind; intros) || case_match);
    by apply returns_ret.
Qed.
Lemma dispatch_once_spends locator quoteId p :
  quiet_registrar C (pn_provider p) → Spends 1 0 outer C (dispatch_once locator quoteId p).
Proof using Type*.
  intros [Hq Hc Hr Hl]. unfold dispatch_once, contact_fingerprint.
  apply spends_catch; [|apply _]. do 2 (apply spends_then; [apply _|intros]).
  case_match; [apply (spends_more _ _ 0 0); [lia..|apply _]|].
  do 2 (apply spends_then; [apply _|intros]). apply spends_first; [done|apply _].
Qed.
(** A registration is asked for only on a preparation that claimed it. *)
Lemma observe_spends locator quoteId p :
  quiet_registrar C (pn_provider p) →
  Spends (if pn_dispatch p then 1 else 0) 0 outer C (observe locator quoteId p).
Proof using Type*.
  intros Hp. pose proof Hp as [Hq Hc Hr Hl]. unfold observe. apply spends_first.
  - destruct (pn_dispatch p); [by apply dispatch_once_spends|apply _].
  - intros a. case_match; apply _.
Qed.
(** A preparation that dispatches leaves an event for one registration. *)
Lemma extends_prepared {A} locator invoiceId (k : option Preparation → Io A) :
  Extends id C (k None) →
  (∀ p, quiet_registrar C (pn_provider p) →
        Spends (if pn_dispatch p then 1 else 0) 0 id C (k (Some p))) →
  Extends id C (transaction (prepare_tx injected options locator invoiceId) ≫= k).
Proof using Type*.
  intros Hn Hs w0 past w r w' Hok Hc Hh Hrun. unfold mbind at 1, M_bind at 1 in Hrun.
  destruct (transaction _ w) as [[a|e] w1] eqn:E; pose proof (silent_run _ _ _ _ E) as Er.
  - pose proof (rh_step _ _ _ _ _ _ _ _ Hh (rs_prepare _ _ _ _ _ _ _ _ _ E)) as Hh1.
    set (es := prepare_events _ _) in Hh1.
    assert (C ⊆ past ++ es) as Hc' by (intros y Hy; apply elem_of_app; left; by apply Hc).
    assert (∃ es', history w0 ((past ++ es) ++ es') w' ∧
              covered (length (dispatches es)) 0 w1 es' w') as (es'&Hh2&[Hv1 Hv2]).
    { destruct a as [p|].
      - pose proof (prepare_tx_quiet locator invoiceId _ _ _ E p eq_refl) as Hp.
        eapply (Hs p Hp) in Hrun as (es'&Hh2&Hv); [|done|exact Hc'|exact Hh1].
        exists es'. split; [done|]. eapply covered_more; [exact Hv| |lia].
        unfold es, prepare_events. by destruct (pn_dispatch p).
      - eapply Hn in Hrun as (es'&Hh2&Hv); [|done|exact Hc'|exact Hh1]. by exists es'. }
    exists (es ++ es'). rewrite app_assoc. split; [exact Hh2|].
    unfold id, asked in *. rewrite Er in *.
    split; unfold asked, dispatches, submissions in *; rewrite omap_app, length_app; lia.
  - injection Hrun as _ <-. eapply extend_quiet; [done|exact Hh| |exact Er].
    exact (f_equal protocol_tables (transaction_Err_db _ _ _ _ E)).
Qed.
#[export] Instance process_extends operationId :
  Extends id C (process injected options operationId).
Proof using Type*.
  unfold process. apply extends_bind; [apply _|]. intros [locator|]; [|apply _].
  apply extends_bind; [apply _|]. intros located.
  destruct (dom_invoiceId located), (dom_quoteId located), (dom_orderItemId located);
    try apply _.
  destruct (String.eqb _ _); [apply _|].
  apply extends_prepared; [apply _|]. intros p Hp.
  apply spends_first; [apply spends_session; by apply observe_spends|].
  intros [o|]; apply _.
Qed.
End processor.

(** ** The lifecycle *)
(** After the transaction that claims it, the action is claimed in the history. *)
Lemma extends_claim {A} C (l : Io unit) domainId actionId accountId orderId request auth reconcileOnly
    (k : option bool → Io A) :
  Keeps protocol_tables l → Silent l → Extends id C (k None) →
  (∀ b, Extends id [ActionClaimed actionId] (k (Some b))) →
  Extends id C (transaction (l ≫= λ _,
    execute_tx domainId actionId accountId orderId request auth reconcileOnly) ≫= k).
Proof using Type*.
  intros Hl Hsl Hn Hs w0 past w r w' Hok Hc Hh Hrun. unfold mbind at 1, M_bind at 1 in Hrun.
  destruct (transaction _ w) as [[a|e] w1] eqn:E; pose proof (silent_run _ _ _ _ E) as Er.
  - rewrite transaction_Ok in E. apply bind_Ok in E as (u&w2&G&E).
    pose proof (silent_run _ _ _ _ G) as Er1. eapply keeps_run in G; [|exact Hl].
    eapply extend_quiet in Hh as (es&Hh&_); [|done|exact G|exact Er1].
    apply transaction_Ok in E.
    pose proof (rh_step _ _ _ _ _ _ _ _ Hh
      (rs_execute _ _ _ _ domainId actionId accountId orderId request auth reconcileOnly _ a _ E)) as Hh1.
    assert (∃ es', history w0 (((past ++ es) ++ execute_events actionId a) ++ es') w' ∧
              covered 0 0 w1 es' w') as (es'&Hh2&Hv).
    { destruct a as [b|]; [eapply (Hs b) in Hrun|eapply Hn in Hrun]; try done.
      - intros x Hx. rewrite elem_of_app. by right.
      - intros x Hx. rewrite !elem_of_app. left. left. by apply Hc. }
    exists ((es ++ execute_events actionId a) ++ es'). rewrite !app_assoc. split; [exact Hh2|].
    apply (covered_app 0 0 0 0 _ _ w1); [|exact Hv]. by apply covered_same.
  - injection Hrun as _ <-. eapply extend_quiet; [done|exact Hh| |exact Er].
    exact (f_equal protocol_tables (transaction_Err_db _ _ _ _ E)).
Qed.
Section lifecycle.
Context (C : list Event).
#[export] Instance authorize_domains_quiet auth : Keeps protocol_tables (authorize_domains auth).
Proof. unfold authorize_domains. apply _. Qed.
#[export] Instance detail_quiet i a c : Keeps protocol_tables (detail i a c).
Proof. unfold detail. apply _. Qed.
#[export] Instance list_actions_quiet i a : Keeps protocol_tables (list_actions i a).
Proof. unfold list_actions, action_view. apply _. Qed.
#[export] Instance reserve_quiet a l m : Keeps protocol_tables (reserve_read a l m).
Proof. unfold reserve_read. apply _. Qed.
#[export] Instance reserveLive_quiet i a : Keeps protocol_tables (reserveLiveRead environment i a).
Proof using Type*. unfold reserveLiveRead. apply _. Qed.
#[export] Instance reserve_management_quiet i a :
  Keeps protocol_tables (reserveManagementRead environment i a).
Proof using Type*. unfold reserveManagementRead. apply _. Qed.
#[export] Instance liveProvider_quiet a p : Keeps protocol_tables (liveProvider a p).
Proof. unfold liveProvider. apply _. Qed.
#[export] Instance quoteFrom_extends a n auth : Extends id C (quoteFrom environment a n auth).
Proof using Type*. unfold quoteFrom. apply _. Qed.
#[export] Instance existing_context_extends d a c o auth p :
  Extends id C (existing_context environment d a c o auth p).
Proof using Type*. unfold existing_context, linked_identity. apply _. Qed.
#[export] Instance registered_context_quiet d a c o p :
  Keeps protocol_tables (registered_context d a c o p).
Proof. unfold registered_context. apply _. Qed.
#[export] Instance managementContext_extends i a p :
  Extends id C (managementContext environment i a p).
Proof using Type*. unfold managementContext. apply _. Qed.
#[export] Instance at_registrar_extends {A} c (m : Sio A) :
  Extends outer C m → Extends id C (at_registrar c m).
Proof. intros. unfold at_registrar. apply _. Qed.
#[export] Instance management_of_extends c i : Extends outer C (management_of c i).
Proof using Type*. unfold management_of. apply _. Qed.
#[export] Instance store_management_extends i m c : Extends id C (store_management i m c).
Proof using Type*.
  unfold store_management. do 2 (apply extends_bind; [apply _|intros]).
  apply extends_update_domain. intros r. by case_match.
Qed.
(** A change of an action that the protocol does not see. *)
Lemma extends_action_row actionId f :
  (∀ a, mutation_of (f a) = mutation_of a ∧ da_id (f a) = da_id a) →
  Extends id C (change_row domainActions actionId f).
Proof using Type*.
  intros Hf w0 past w r w' Hok Hc Hh Hrun. pose proof (silent_run _ _ _ _ Hrun) as Er.
  destruct r as [u|e].
  - apply change_row_Ok in Hrun as (x&Hx&E). eexists. split; [|by apply covered_same].
    eapply rh_step; [exact Hh|].
    apply registrar_history_run in Hh as [[K _] _]; [|done]. destruct (Hf x) as [Hm Hid].
    apply rs_quiet. unfold id in *. rewrite E. split.
    + apply keyed_action; [done|]. rewrite Hid. by apply K.
    + exists (v_domains (domain_view (db w))). split; [done|].
      rewrite view_set_action, Hm, insert_id; [done|]. by apply view_action.
  - eapply extend_quiet; [done|exact Hh| |exact Er]. unfold id. by rewrite (change_row_Err _ _ _ _ _ _ Hrun).
Qed.
#[local] Hint Extern 3 (Spends _ _ _ _ (change_row domainActions _ _)) =>
  apply extends_action_row; intros; by split : typeclass_instances.
#[export] Instance dispatch_action_extends c i a p m :
  Extends outer C (dispatch_action c i a p m).
Proof using Type*. unfold dispatch_action, dispatch_contact. apply _. Qed.
#[export] Instance recover_tx_extends i a k auth : Extends id C (recover_tx i a k auth).
Proof using Type*. unfold recover_tx. apply _. Qed.
#[export] Instance send_action_extends c a p d : Extends id C (send_action c a p d).
Proof using Type*. unfold send_action. apply _. Qed.
End lifecycle.
#[export] Instance run_action_extends domainId actionId c p auth d :
  Extends id [ActionClaimed actionId] (run_action domainId actionId c p auth d).
Proof using Type*.
  unfold run_action, observe_action, settle. apply _.
Qed.
Section endpoints.
Context (C : list Event) (https_url : string → bool).
Notation Quiet := (Extends id C).
#[export] Instance execute_extends domainId actionId confirmation auth r :
  Quiet (execute environment domainId actionId confirmation auth r).
Proof using Type*.
  unfold execute. do 6 (apply extends_bind; [apply _|intros]).
  apply extends_claim; [apply _..|intros b]. apply extends_bind; apply _.
Qed.
#[export] Instance create_action_extends i raw c auth :
  Quiet (create_action environment i raw c auth).
Proof using Type*. unfold create_action. apply _. Qed.
#[export] Instance cancelUnsent_extends i a c auth : Quiet (cancelUnsent i a c auth).
Proof using Type*.
  unfold cancelUnsent. do 6 (apply extends_bind; [apply _|intros]).
  apply extends_bind; [|apply _]. apply extends_locked; [apply _..|]. apply extends_cancel.
Qed.
#[export] Instance refresh_extends i auth : Quiet (refresh environment i auth).
Proof using Type*. unfold refresh. apply _. Qed.
#[export] Instance recoverContact_extends i a k c auth :
  Quiet (recoverContact environment i a k c auth).
Proof using Type*. unfold recoverContact. apply _. Qed.
#[export] Instance approve_extends i input auth : Quiet (approve environment i input auth).
Proof using Type*. unfold approve, approvable_domain. apply _. Qed.
#[export] Instance reconcile_extends i auth : Quiet (reconcile environment i auth).
Proof using Type*. unfold reconcile. apply _. Qed.
#[export] Instance bindLiveContact_extends i r k auth :
  Quiet (bindLiveContact environment i r k auth).
Proof using Type*. unfold bindLiveContact, bind_tx. apply _. Qed.
#[export] Instance purchase_tx_extends input auth c a :
  Quiet (purchase_tx environment https_url input auth c a).
Proof using Type*.
  unfold purchase_tx, purchasable_quote, new_purchase, write_purchase, requireCheckoutTerms.
  apply _.
Qed.
#[export] Instance purchaseForCustomer_extends input auth c a :
  Quiet (purchaseForCustomer environment https_url input auth c a).
Proof using Type*. unfold purchaseForCustomer, replayed. apply _. Qed.
#[export] Instance purchase_extends input auth :
  Quiet (purchase environment https_url input auth).
Proof using Type*. unfold purchase. apply _. Qed.
#[export] Instance adminPurchase_extends input c auth :
  Quiet (adminPurchase environment https_url input c auth).
Proof using Type*. unfold adminPurchase. apply _. Qed.
#[export] Instance link_tx_extends i input auth account credential observed proof_ :
  Quiet (link_tx i input auth account credential observed proof_).
Proof using Type*. unfold link_tx, create_link, eligibleCustomer. apply _. Qed.
#[export] Instance link_extends raw auth : Quiet (link environment raw auth).
Proof using Type*. unfold link, link_new, link_account, link_credential, eligibleCustomer. apply _. Qed.
End endpoints.
End handlers.

(** ** Calls *)
(** What a client of the services, or the worker, may ask for: the routes of
    domain.controller.ts and domain-administration.controller.ts, and the worker's job. *)
Inductive Call :=
| Process (operationId : string)
| RegistrationJob (outboxEventId aggregateId eventType : string)
| ListInventory (raw : json) (auth : AuthRequestContext)
| Link (raw : json) (auth : AuthRequestContext)
| LiveSettings (auth : AuthRequestContext)
| CheckRegistration (id accountId : string) (auth : AuthRequestContext)
| SetupLive (raw : json) (auth : AuthRequestContext)
| RotateLiveCredential (id : string) (raw : json) (auth : AuthRequestContext)
| CheckLive (id name : string) (auth : AuthRequestContext)
| ToggleLive (id : string) (enabled : bool) (auth : AuthRequestContext)
| BindContact (id remoteCustomerId remoteContactId : string) (auth : AuthRequestContext)
| Settings
| Setup (sellingAmount : string) (auth : AuthRequestContext)
| ToggleFake (id : string) (enabled : bool) (auth : AuthRequestContext)
| Offers
| Quote (input : DomainQuoteRequest) (auth : AuthRequestContext)
| AdminQuote (input : AdminDomainQuoteRequest) (auth : AuthRequestContext)
| AdminPurchase (input : DomainPurchaseRequest) (customerId : string) (auth : AuthRequestContext)
| Purchase (input : DomainPurchaseRequest) (auth : AuthRequestContext)
| ListDomains (auth : AuthRequestContext) (customerId : option string)
| Detail (id : string) (auth : AuthRequestContext) (customerId : option string)
| StoredManagement (domainId : string) (auth : AuthRequestContext)
| Refresh (domainId : string) (auth : AuthRequestContext)
| ListActions (domainId : string) (auth : AuthRequestContext)
| CreateAction (domainId : string) (raw : json) (confirmation : string) (auth : AuthRequestContext)
| Execute (domainId actionId confirmation : string) (auth : AuthRequestContext)
    (reconcileOnly : bool)
| AuthorizationCode (domainId confirmation : string) (auth : AuthRequestContext)
| CancelUnsent (domainId actionId confirmation : string) (auth : AuthRequestContext)
| RecoverContact (domainId actionId contactId confirmation : string) (auth : AuthRequestContext)
| Approve (id : string) (input : DomainApprovalRequest) (auth : AuthRequestContext)
| Reconcile (id : string) (auth : AuthRequestContext)
| OrderOptions (customerId : string) (actor : OrderActor)
| Connections (auth : AuthRequestContext)
| CreateConnection (raw : json) (auth : AuthRequestContext)
| SetDefault (id : string) (auth : AuthRequestContext)
| ToggleConnection (id : string) (enabled confirmNativeUsdCosts : bool)
    (auth : AuthRequestContext)
| CheckConnection (id domainName : string) (auth : AuthRequestContext)
| RotateCredential (id : string) (raw : json) (auth : AuthRequestContext)
| Tlds (auth : AuthRequestContext)
| SaveTld (raw : json) (auth : AuthRequestContext)
| Bulk (raw : json) (auth : AuthRequestContext)
| Defaults (auth : AuthRequestContext)
| SaveDefaults (k : DefaultsKind) (value : json) (auth : AuthRequestContext).
Section calls.
Context `{ZodFormats} `{ZodUrl} `{UrlParser} `{ZodIso} `{Sha256} `{DateParser}
  `{RegistrarCryptoLaws} `{ResellbizTransport} `{RegistrarRandom} `{JsNumber}
  `{!RecordingTransport} `{!QuietRandom}
  (environment : DomainEnvironment) (options : ProcessorOptions) (https_url : string → bool).
Definition done_ {A} (m : Io A) : Io unit := _ ← m; mret tt.
Definition perform (c : Call) : Io unit :=
  match c with
  | Process operationId => process None options operationId
  | RegistrationJob event aggregate type => registration_job None options event aggregate type
  | ListInventory raw auth => done_ (list_inventory raw auth)
  | Link raw auth => done_ (link environment raw auth)
  | LiveSettings auth => done_ (liveSettings environment auth)
  | CheckRegistration id account auth => done_ (checkRegistration environment id account auth)
  | SetupLive raw auth => done_ (setupLive environment raw auth)
  | RotateLiveCredential id raw auth => done_ (rotateLiveCredential environment id raw auth)
  | CheckLive id name auth => done_ (checkLive environment id name auth)
  | ToggleLive id enabled auth => done_ (toggleLive environment id enabled auth)
  | BindContact id c k auth => done_ (bindLiveContact environment id c k auth)
  | Settings => done_ settings_of_fakes
  | Setup amount auth => done_ (setup environment amount auth)
  | ToggleFake id enabled auth => done_ (toggle_fake environment id enabled auth)
  | Offers => done_ (offers environment)
  | Quote input auth => done_ (quote environment input auth)
  | AdminQuote input auth => done_ (adminQuote environment input auth)
  | AdminPurchase input customerId auth =>
      done_ (adminPurchase environment https_url input customerId auth)
  | Purchase input auth => done_ (purchase environment https_url input auth)
  | ListDomains auth customerId => done_ (list_domains auth customerId)
  | Detail id auth customerId => done_ (detail id auth customerId)
  | StoredManagement id auth => done_ (stored_management id auth)
  | Refresh id auth => done_ (refresh environment id auth)
  | ListActions id auth => done_ (list_actions id auth)
  | CreateAction id raw c auth => done_ (create_action environment id raw c auth)
  | Execute id a c auth r => done_ (execute environment id a c auth r)
  | AuthorizationCode id c auth => done_ (authorizationCode environment id c auth)
  | CancelUnsent id a c auth => done_ (cancelUnsent id a c auth)
  | RecoverContact id a k c auth => done_ (recoverContact environment id a k c auth)
  | Approve id input auth => done_ (approve environment id input auth)
  | Reconcile id auth => done_ (reconcile environment id auth)
  | OrderOptions customerId actor => done_ (order_options customerId actor)
  | Connections auth => done_ (connections environment auth)
  | CreateConnection raw auth => done_ (createConnection environment raw auth)
  | SetDefault id auth => done_ (setDefault environment id auth)
  | ToggleConnection id enabled c auth =>
      done_ (toggle_connection environment id enabled c auth)
  | CheckConnection id name auth => done_ (check environment id name auth)
  | RotateCredential id raw auth => done_ (rotate environment id raw auth)
  | Tlds auth => done_ (tlds auth)
  | SaveTld raw auth => done_ (saveTld raw auth)
  | Bulk raw auth => done_ (bulk raw auth)
  | Defaults auth => done_ (defaults auth)
  | SaveDefaults k value auth => done_ (saveDefaults k value auth)
  end.
(** The world after the calls, one after another, whatever they answered. *)
Definition performed (calls : list Call) (w : World) : World :=
  foldl (λ w c, snd (perform c w)) w calls.
#[local] Hint Extern 4 (Spends _ _ _ _ _ _ _ (match ?x with _ => _ end)) =>
  destruct x : typeclass_instances.
#[local] Hint Extern 4 (Silent (match ?x with _ => _ end)) => destruct x : typeclass_instances.
#[local] Hint Extern 9 (Silent ?m) =>
  let h := head_of m in unfold h; cbv beta : typeclass_instances.
#[local] Hint Extern 3 (Spends _ _ _ _ _ _ _ (change_row registrarAccounts _ _)) =>
  apply extends_change_account; intros; reflexivity : typeclass_instances.
(** What has no instance is unfolded. *)
#[local] Typeclasses Opaque process registration_job execute cancelUnsent.
#[local] Hint Extern 30 (Spends _ _ _ _ _ _ _ ?m) =>
  let h := head_of m in
  first [constr_eq h @process; fail 1|constr_eq h @registration_job; fail 1|unfold h; cbv beta]
  : typeclass_instances.
Lemma perform_extends C c : Spends environment None options 0 0 id C (perform c).
Proof using Type*.
  destruct c; unfold perform; try apply _; [by apply process_extends|].
  unfold registration_job. do 4 (apply extends_bind; [apply _|intros]).
  by apply process_extends.
Qed.
Lemma performed_history calls w :
  registrar_ok (db w) →
  ∃ es, registrar_history environment None options w es (performed calls w) ∧
        covered 0 0 w es (performed calls w).
Proof using Type*.
  intros Hok. assert (∀ past w', registrar_history environment None options w past w' →
    covered 0 0 w past w' → ∃ es, registrar_history environment None options w es
      (performed calls w') ∧ covered 0 0 w es (performed calls w')) as Hg.
  { induction calls as [|c calls IH]; intros past w' Hh Hv; [by exists past|].
    destruct (perform c w') as [r w''] eqn:E.
    eapply (perform_extends []) in E as E'; [|done|by apply list_subseteq_nil|exact Hh].
    destruct E' as (es&Hh'&Hv'). unfold performed. simpl. rewrite E. simpl.
    apply (IH (past ++ es)); [done|]. by apply (covered_app 0 0 0 0 _ _ w'). }
  apply (Hg [] w); [apply rh_start|by apply covered_same].
Qed.

(** C3: Every call of the domain services and of the registration job, each of the routes of
    the two controllers, with all it reads, decrypts, sends and stores and however it fails,
    is a run of the protocol: after any calls the tables are well formed and no account has
    two mutations without an outcome; the run dispatches no registration and submits no
    action twice; and what registrars were asked, whatever they answered, is covered by it:
    no more registrations than the run dispatched, and no more changes and renewals than
    it submitted. *)
Theorem calls_follow_protocol calls w :
  registrar_ok (db w) →
  let w' := performed calls w in
  registrar_ok (db w') ∧
  ∃ es, protocol_run (domain_view (db w)) es (domain_view (db w')) ∧
    NoDup (dispatches es) ∧ NoDup (submissions es) ∧
    (asked is_registration w' <= asked is_registration w + length (dispatches es))%nat ∧
    (asked is_change w' <= asked is_change w + length (submissions es))%nat.
Proof using Type*.
  intros Hok w'. destruct (performed_history calls w Hok) as (es&Hh&[Hr Hc]).
  apply registrar_history_run in Hh as [Hok' [_ R]]; [|done]. split; [done|].
  rewrite !Nat.add_0_r in *.
  exists es. split_and!; [done|by eapply run_dispatches|by eapply run_submissions|done..].
Qed.
End calls.

(** ** A sample *)
#[export] Instance silent_records : RecordingTransport.
Proof. by split. Qed.
#[export] Instance fixed_quiet : QuietRandom.
Proof. split; try done; intros; apply _. Qed.
Definition sample_calls : list Call := [Process "o"; Process "o"; Reconcile "d" admin].
Lemma calls_follow_protocol_witness :
  (dom_state <$> domains (db (performed development simulation (λ _, true) sample_calls approved))
     !! "d") = Some "REGISTERED" ∧
  registrar_ok (db (performed development simulation (λ _, true) sample_calls approved)).
Proof.
  split; [vm_compute; reflexivity|].
  destruct (calls_follow_protocol development simulation (λ _, true) sample_calls approved
    approved_ok) as [Hok _].
  exact Hok.
Defined.
