(* ===== verification/CancellationProperties.v ===== *)
(** * Properties of cancellations

    When a request to cancel a service is carried out, what becomes of one that is
    put off, and when an add-on is billed for the last time: [HostingServices] with
    the jobs of [HostingAutomation] and the renewals of [Renewal]. *)
From stdpp Require Import sorting.
From S2P Require Import Prelude JsString JsDate Json Money States Calendar Database Invoices Payments Gateways Orders BackgroundJobs Outbox HostingServices HostingAutomation ServiceLifecycle Renewal RenewalProperties HostingProperties.

(** ** What a job for a cancellation does *)
Lemma unique_in_false {R} (m : gmap string R) (key : R → string) k :
  unique_in m key k = false → ∃ i r, m !! i = Some r ∧ key r = k.
Proof.
  intros Hb. destruct (decide (rows (λ r, bool_decide (key r = k)) m = [])) as [Hn|Hn].
  - exfalso. rewrite rows_nil in Hn. apply not_true_iff_false in Hb. apply Hb.
    apply unique_in_spec. intros i r Hr Hk. specialize (Hn i r Hr).
    by apply bool_decide_eq_false in Hn.
  - apply rows_some in Hn as (i&r&Hr&Hk). apply bool_decide_eq_true in Hk. by exists i, r.
Qed.
Lemma create_outbox_skip_at_Ok t a b c k p w u w' :
  create_outbox_skip_at t a b c k p w = (Ok u, w') →
  (db w' = db w ∧ ∃ j e, outboxEvents (db w) !! j = Some e ∧
     (j = uuids w (drawn w) ∨ out_idempotencyKey e = k)) ∨
  ∃ now, let i := uuids w (drawn w) in outboxEvents (db w) !! i = None ∧ db w' = db w <| outboxEvents :=
    <[i := pending_event i a b c k p t now]> (outboxEvents (db w)) |>.
Proof.
  unfold create_outbox_skip_at, put_outbox. intros Hrun.
  apply bind_Ok in Hrun as (i&w1&Hi&Hrun). apply random_uuid_Ok in Hi as [-> ->].
  apply bind_Ok in Hrun as (now&w1&Hi&Hrun). apply new_date_Ok in Hi as [_ ->].
  apply bind_Ok in Hrun as (m&w1&Hr&Hrun). apply read_Ok in Hr as [-> ->].
  apply when_Ok in Hrun as [[Hb Hrun]|[Hb ->]]; [right|left].
  - apply write_Ok in Hrun as ->. split_bool. by exists now.
  - split; [done|]. simpl in Hb. apply andb_false_iff in Hb as [Hb|Hb].
    + apply bool_decide_eq_false in Hb.
      destruct (outboxEvents (db w) !! uuids w (drawn w)) as [e|] eqn:He; [|done].
      exists (uuids w (drawn w)), e. split; [done|by left].
    + apply unique_in_false in Hb as (j&e&He&Hk). exists j, e. split; [done|by right].
Qed.
(** The key under which the job of an outbox event puts itself off. *)
Definition deferral_key (event : string) : string :=
  ("hosting-cancellation-deferred:" ++ event)%string.
(** The job of [event] comes again at [t], or an earlier delivery of it has seen to that:
    an event of its key exists already (or one with the identifier drawn for the new
    one).  The services are as they were. *)
Definition deferred `{ZodFormats} (s c event id : string) (t : Z) (d d' : Db) : Prop :=
  services d' = services d ∧ panelOperations d' = panelOperations d ∧
  ((outboxEvents d' = outboxEvents d ∧
    ∃ j e, outboxEvents d !! j = Some e ∧ (j = id ∨ out_idempotencyKey e = deferral_key event)) ∨
   (requests SUSPEND (ForCancellation s c) (Some t) d d' ∧
    ∃ e, outboxEvents d' !! id = Some e ∧ out_idempotencyKey e = deferral_key event)).
Lemma defer_Ok `{ZodFormats} s c event t w u w' :
  zod_uuid s && zod_uuid c = true →
  deferCancellation (ForCancellation s c) event t w = (Ok u, w') →
  deferred s c event (uuids w (drawn w)) t (db w) (db w') ∧
  cancellations (db w') = cancellations (db w).
Proof.
  intros Hu Hrun. unfold deferCancellation in Hrun.
  apply create_outbox_skip_at_Ok in Hrun as [[-> He]|(now&Hi&->)].
  - split; [|done]. split_and!; [done..|left]. by split.
  - split; [|done]. split_and!; [done..|right]. split.
    + exists (pending_event (uuids w (drawn w)) "SERVICE" s
        "HOSTING_CANCELLATION_SUSPENSION_REQUESTED" (deferral_key event)
        (payload_json (ForCancellation s c)) t now).
      split_and!; [exact Hi|done|done| |done].
      apply (ready_event SUSPEND (ForCancellation s c)); [done..|].
      by apply cancellation_schema.
    + eexists. split; [apply lookup_insert_eq|done].
Qed.
Definition cancellation_completed_at (c : string) (r : HostingCancellationRequest) (now : Z)
    (d d' : Db) : Prop :=
  cancellations d' =
    <[c := r <| hc_status := CancellationStatus.COMPLETED |> <| hc_resolvedAt := Some now |>]>
      (cancellations d).
Lemma due_request_spec s c now d r due :
  due_request s c now d = Some (r, due) ↔
  cancellations d !! c = Some r ∧ hc_serviceId r = s ∧ hc_status r = CancellationStatus.OPEN ∧
  due_at_request r = Some due ∧ due <= now.
Proof.
  unfold due_request. rewrite bind_Some. split.
  - intros (r'&Hr&H). destruct (_ && _) eqn:Hb; [|done]. split_bool.
    apply bind_Some in H as (due'&Hd&H). destruct (Z.ltb_spec now due'); [done|].
    injection H as -> ->. apply String.eqb_eq in H0. by split_and!.
  - intros (Hr&Hs&Ho&Hd&Hle). exists r. split; [done|].
    rewrite Hs, String.eqb_refl, Ho, Hd. simpl. by destruct (Z.ltb_spec now due); [lia|].
Qed.
Lemma finish_Ok s c now r w u w' :
  cancellations (db w) !! c = Some r → finishCancellation s c now w = (Ok u, w') →
  services (db w') = services (db w) ∧ panelOperations (db w') = panelOperations (db w) ∧
  cancellation_completed_at c r now (db w) (db w').
Proof.
  intros Hr Hrun. unfold finishCancellation in Hrun.
  apply bind_Ok in Hrun as (m&w1&Hm&Hrun). apply read_Ok in Hm as [-> ->].
  unfold update_one in Hrun. rewrite Hr in Hrun. destruct (_ && _).
  2: { apply bind_Ok in Hrun as (?&?&_&Hrun). apply bind_Ok in Hrun as (?&?&Hq&_).
       by apply require_Ok in Hq as [[=] _]. }
  apply bind_Ok in Hrun as (?&w1&Hw&Hrun). apply write_Ok in Hw as ->.
  apply bind_Ok in Hrun as (?&w1&Hq&Hrun). apply require_Ok in Hq as [_ ->].
  pose proof (keeps_run services _ _ _ _ _ Hrun) as H1.
  pose proof (keeps_run panelOperations _ _ _ _ _ Hrun) as H2.
  pose proof (keeps_run cancellations _ _ _ _ _ Hrun) as H3.
  unfold cancellation_completed_at. by rewrite H1, H2, H3.
Qed.
(** How a due request of the service [sv] is dealt with without the panel. *)
Definition dealt_with `{ZodFormats} (s c event id : string) (sv : Service)
    (r : HostingCancellationRequest) (due now : Z) (running : bool) (d d' : Db) : Prop :=
  (running = true ∧ now - due < 300000 ∧ cancellations d' = cancellations d ∧
   deferred s c event id (now + 60000) d d') ∨
  (running = false ∧
   (∃ t, hc_effectiveAt r = Some t ∧ t < svc_nextDueAt sv ∧
      cancellations d' =
        <[c := r <| hc_effectiveAt := Some (svc_nextDueAt sv) |>]> (cancellations d) ∧
      deferred s c event id (svc_nextDueAt sv) d d')) ∨
  (running = false ∧
   (svc_status sv = ServiceStatus.SUSPENDED ∨ svc_status sv = ServiceStatus.TERMINATED) ∧
   cancellation_completed_at c r now d d' ∧ service_statuses d' = service_statuses d ∧
   panelOperations d' = panelOperations d ∧
   ∃ sv', services d' !! s = Some sv' ∧ absent (svc_suspensionInvoiceId sv') = true).
(** How one comes to the panel: its paid time is over. *)
Definition falls_due (sv : Service) (r : HostingCancellationRequest) : Prop :=
  svc_status sv = ServiceStatus.ACTIVE ∧
  ∀ t, hc_effectiveAt r = Some t → svc_nextDueAt sv <= t.
(** Steps and a result, as a run of the steps. *)
Lemma two_steps {B} (m1 m2 : Io unit) (c c' : B) w w' :
  (_ ← m1; _ ← m2; mret c) w = (Ok c', w') →
  c' = c ∧ ∃ u, (_ ← m1; m2) w = (Ok u, w').
Proof.
  intros H. apply bind_Ok in H as (u&w1&H1&H). apply bind_Ok in H as (v&w2&H2&H).
  apply ret_Ok in H as [-> ->]. split; [done|]. exists v. apply bind_Ok. by exists u, w1.
Qed.
Lemma three_steps {A B} (m1 : Io A) (m2 m3 : Io unit) (c c' : B) w w' :
  (_ ← m1; _ ← m2; _ ← m3; mret c) w = (Ok c', w') →
  c' = c ∧ ∃ u, (_ ← m1; _ ← m2; m3) w = (Ok u, w').
Proof.
  intros H. apply bind_Ok in H as (u&w1&H1&H). apply two_steps in H as (->&v&H).
  split; [done|]. exists v. apply bind_Ok. by exists u, w1.
Qed.
Section cancellation_job.
Context `{ZodFormats} (s c event : string) (sv : Service) (w : World).
Hypothesis uuids_ok : zod_uuid s && zod_uuid c = true.
Hypothesis service_row : services (db w) !! s = Some sv.
Hypothesis service_keyed : svc_id sv = s.
Hypothesis request_keyed : ∀ r, cancellations (db w) !! c = Some r → hc_id r = c.

Lemma rescheduled_Ok r u w1 w' :
  db w1 = db w → cancellations (db w) !! c = Some r →
  (_ ← update_cancellation (hc_id r) (λ r,
         r <| hc_effectiveAt := Some (svc_nextDueAt sv) |>);
   _ ← deferCancellation (ForCancellation s c) event (svc_nextDueAt sv);
   log_activity (MkActivityLog None "HOSTING_CANCELLATION_RESCHEDULED" "SERVICE"
     (Some s) None None
     (JObj [("cancellationId", JStr (hc_id r));
            ("effectiveAt", JStr (to_ISO_string (svc_nextDueAt sv)))]))) w1 = (Ok u, w') →
  cancellations (db w') =
    <[c := r <| hc_effectiveAt := Some (svc_nextDueAt sv) |>]> (cancellations (db w)) ∧
  deferred s c event (uuids w1 (drawn w1)) (svc_nextDueAt sv) (db w) (db w').
Proof using uuids_ok request_keyed.
  intros Hdb Hr Hrun. rewrite (request_keyed r Hr) in Hrun.
  apply bind_Ok in Hrun as (?&w2&Hu&Hrun). unfold update_cancellation in Hu.
  apply bind_Ok in Hu as (m&w3&Hm&Hu). apply read_Ok in Hm as [-> ->]. rewrite Hdb, Hr in Hu.
  apply bind_Ok in Hu as (?&w3&Hw&Hu). apply write_Ok in Hw as ->.
  apply ret_Ok in Hu as [_ ->]. rewrite Hdb in Hrun.
  apply bind_Ok in Hrun as (?&w3&Hd&Hrun). apply defer_Ok in Hd as [Hd Hc]; [|done].
  pose proof (keeps_run services _ _ _ _ _ Hrun) as H1.
  pose proof (keeps_run panelOperations _ _ _ _ _ Hrun) as H2.
  pose proof (keeps_run outboxEvents _ _ _ _ _ Hrun) as H3.
  pose proof (keeps_run cancellations _ _ _ _ _ Hrun) as H4.
  split; [rewrite H4, Hc; by simpl|].
  destruct Hd as (Ha&Hb&He). simpl in Ha, Hb. split_and!; [by rewrite H1|by rewrite H2|].
  unfold requests. by rewrite H3.
Qed.
Lemma finished_Ok r now u w1 w' :
  db w1 = db w → cancellations (db w) !! c = Some r →
  (_ ← when (negb (absent (svc_suspensionInvoiceId sv)))
         (update_service s (λ s, s <| svc_suspensionInvoiceId := None |>));
   finishCancellation s c now) w1 = (Ok u, w') →
  cancellation_completed_at c r now (db w) (db w') ∧
  service_statuses (db w') = service_statuses (db w) ∧
  panelOperations (db w') = panelOperations (db w) ∧
  ∃ sv', services (db w') !! s = Some sv' ∧ absent (svc_suspensionInvoiceId sv') = true.
Proof using service_row.
  intros Hdb Hr Hrun.
  apply bind_Ok in Hrun as (?&w2&Hu&Hrun).
  pose proof (keeps_run panelOperations _ _ _ _ _ Hu) as Hp.
  pose proof (keeps_run cancellations _ _ _ _ _ Hu) as Hc.
  pose proof (keeps_run service_statuses _ _ _ _ _ Hu) as Hst.
  rewrite Hdb in *. apply (finish_Ok _ _ _ r) in Hrun as (H1&H2&H3); [|by rewrite Hc].
  unfold cancellation_completed_at in *. rewrite H3, Hc, H2, Hp.
  split_and!; [done| |done|].
  - unfold service_statuses in *. by rewrite H1, Hst.
  - rewrite H1. apply when_Ok in Hu as [[_ Hu]|[Ha ->]].
    + apply (update_service_Ok _ _ sv) in Hu as [t ->]; [|by rewrite Hdb].
      simpl. rewrite Hdb, lookup_insert_eq. eexists. by split.
    + rewrite Hdb. exists sv. split; [done|]. by apply negb_false_iff in Ha.
Qed.

Lemma prepare_cancellation_Ok running proceed w' :
  prepare_cancellation (ForCancellation s c) c event sv running w = (Ok proceed, w') →
  let now := clock w (ticks w) in
  (due_request s c now (db w) = None ∧ proceed = false ∧ db w' = db w) ∨
  ∃ r due, due_request s c now (db w) = Some (r, due) ∧
    ((proceed = false ∧ dealt_with s c event (uuids w (drawn w)) sv r due now running (db w) (db w')) ∨
     (proceed = true ∧ running = false ∧ falls_due sv r ∧ db w' = db w)).
Proof using uuids_ok service_row service_keyed request_keyed.
  intros Hrun now. unfold prepare_cancellation in Hrun.
  apply bind_Ok in Hrun as (now'&w1&Hn&Hrun). apply new_date_Ok in Hn as [-> ->].
  apply bind_Ok in Hrun as (found&w1&Hf&Hrun). apply read_Ok in Hf as [-> ->]. simpl in Hrun.
  rewrite service_keyed in Hrun. fold now in Hrun.
  destruct (due_request s c now (db w)) as [[r due]|] eqn:Hdue.
  2: { apply ret_Ok in Hrun as [-> ->]. by left. }
  right. exists r, due. split; [done|]. apply due_request_spec in Hdue as (Hr&_).
  destruct running.
  { left. apply bind_Ok in Hrun as (?&w1&Hq&Hrun). apply require_Ok in Hq as [Hlt ->].
    apply bind_Ok in Hrun as (?&w2&Hd&Hrun). apply defer_Ok in Hd as [Hd Hc]; [|done].
    apply ret_Ok in Hrun as [-> ->]. apply Z.ltb_lt in Hlt. split; [done|]. left.
    by split_and!. }
  destruct (match hc_effectiveAt r with Some t => t <? svc_nextDueAt sv | None => false end)
    eqn:Hmoved.
  { left. apply three_steps in Hrun as (->&u&Hrun).
    apply rescheduled_Ok in Hrun as [Hc Hd]; [|done..]. split; [done|]. right. left.
    split; [done|]. destruct (hc_effectiveAt r) as [t|] eqn:Ht; [|done].
    exists t. apply Z.ltb_lt in Hmoved. by split_and!. }
  destruct (_ || _) eqn:Hst.
  { left. apply two_steps in Hrun as (->&u&Hrun).
    apply (finished_Ok r) in Hrun as (Hc&Hs&Hp&Hi); [|done..]. split; [done|]. right. right.
    apply orb_true_iff in Hst. rewrite !bool_decide_eq_true in Hst. by split_and!. }
  right. apply bind_Ok in Hrun as (?&w1&Hq&Hrun). apply require_Ok in Hq as [Hact ->].
  apply ret_Ok in Hrun as [-> ->]. apply bool_decide_eq_true in Hact. split_and!; [done..| |done].
  split; [done|]. intros t Ht. rewrite Ht in Hmoved. by apply Z.ltb_ge in Hmoved.
Qed.

(** C29: a cancellation is carried out when its time has come and not before, and is
    never lost.  A job for a request goes on to the panel, with a fresh operation
    and nothing else written, only if the request is open and due, the service is
    ACTIVE with no operation of another kind running, and no time paid for is left:
    its end lies at or after the service's due date.  A job that stops before the
    panel changed nothing because the request is not due, or put itself off (by a
    minute while another operation runs, or to the new due date when a renewal was
    paid meanwhile, which moves the request too; each time by an event of its own
    key, unless one exists already), or completed the request of a service that is
    no longer running, which then cannot be reactivated by a payment. *)
Theorem cancellation_job_exact `{Sha256} action res w'
    (Hrun : prepare_tx action (ForCancellation s c) event w = (Ok res, w')) :
  let now := clock w (ticks w) in
  let existing := latest_operation (operation_key action (ForCancellation s c)) (db w) in
  let running := other_running s existing (db w) in
  match res with
  | Some (op, fresh) =>
      (∃ r due, due_request s c now (db w) = Some (r, due) ∧ falls_due sv r) ∧
      running = false ∧
      worked_on (operation_key action (ForCancellation s c)) op fresh existing (db w) (db w')
  | None =>
      (due_request s c now (db w) = None ∧ db w' = db w) ∨
      ∃ r due, due_request s c now (db w) = Some (r, due) ∧
        dealt_with s c event (uuids w (drawn w)) sv r due now running (db w) (db w')
  end.
Proof using uuids_ok service_row service_keyed request_keyed.
  intros now existing running. unfold prepare_tx in Hrun.
  apply bind_Ok in Hrun as (?&w1&Hl&Hrun). apply lock_row_Ok in Hl as ->.
  apply bind_Ok in Hrun as (e&w1&Hr&Hrun). apply read_Ok in Hr as [He ->]. fold existing in He.
  assert (prepare_operation action (ForCancellation s c) event
            (operation_key action (ForCancellation s c)) existing w = (Ok res, w')) as Ho.
  { rewrite He in Hrun. by destruct existing. }
  clear Hrun He. unfold prepare_operation in Ho.
  apply bind_Ok in Ho as (run&w1&Hr&Ho). apply read_Ok in Hr as [-> ->].
  cbn [pl_serviceId pl_cancellationId] in Ho. fold running in Ho.
  apply bind_Ok in Ho as (?&w1&Hr&Ho). apply require_Ok in Hr as [_ ->].
  apply bind_Ok in Ho as (found&w1&Hr&Ho). apply read_Ok in Hr as [Hf ->].
  apply bind_Ok in Ho as ([[service server] customer]&w1&Hr&Ho).
  apply lift_Ok in Hr as [Hr ->]. apply of_option_Ok in Hr as ->.
  rewrite service_row in Hf. symmetry in Hf. apply bind_Some in Hf as (sv'&[= <-]&Hf).
  apply bind_Some in Hf as (server'&_&Hf). apply bind_Some in Hf as (customer'&_&[= <- _ _]).
  apply bind_Ok in Ho as (proceed&w1&Hp&Ho).
  apply prepare_cancellation_Ok in Hp as
    [(Hdue&->&Hdb)|(r&due&Hdue&[(->&Hd)|(->&Hrunning&Hfalls&Hdb)])].
  - apply ret_Ok in Ho as [-> ->]. by left.
  - apply ret_Ok in Ho as [-> ->]. right. by exists r, due.
  - assert (∃ op fresh, res = Some (op, fresh) ∧
              worked_on (operation_key action (ForCancellation s c)) op fresh existing
                (db w1) (db w'))
      as (op&fresh&->&Hw); [|rewrite Hdb in Hw; eauto 6].
    apply chosen_operation in Ho as (op&fresh&->&Hw&_). by exists op, fresh.
Qed.
End cancellation_job.

(** ** Add-ons *)
(** Until [t] the item renews as before, from [t] on no more. *)
Lemma renews_until orderId period currency start t i :
  oi_renewalEndsAt i = None ∨ oi_renewalEndsAt i = Some t →
  add_on_renews orderId period currency start (i <| oi_renewalEndsAt := Some t |>) = true ↔
  add_on_renews orderId period currency start i = true ∧ start < t.
Proof.
  intros Hn. unfold add_on_renews. simpl. rewrite !andb_true_iff, Z.ltb_lt.
  destruct Hn as [-> | ->]; rewrite ?Z.ltb_lt; tauto.
Qed.
Lemma ended_renewals m d d' addOn item t sv period :
  orderItems d = m → m !! addOn = Some item →
  orderItems d' = <[addOn := item <| oi_renewalEndsAt := Some t |>]> m →
  oi_renewalEndsAt item = None ∨ oi_renewalEndsAt item = Some t →
  (item <| oi_renewalEndsAt := Some t |>) ∈ renewal_add_ons sv period d' ↔
  item ∈ renewal_add_ons sv period d ∧ svc_nextDueAt sv < t.
Proof.
  intros Hm Hitem Hd Hends. rewrite !renewal_add_ons_elem, Hd, Hm.
  assert (∀ h o, (∃ i, <[addOn := item <| oi_renewalEndsAt := Some t |>]> m !! h = Some i ∧
                       oi_orderId i = o) ↔ ∃ i, m !! h = Some i ∧ oi_orderId i = o) as Hh.
  { intros h o. destruct (decide (h = addOn)) as [->|].
    - rewrite lookup_insert_eq, Hitem. split; intros (i&[= <-]&Ho); eauto.
    - by rewrite lookup_insert_ne. }
  split.
  - intros (h&hosting&Hs&Hi&Hb&_). apply renews_until in Hb as [Hb Hlt]; [|done].
    destruct (Hh h (oi_orderId hosting)) as [(i&Hi'&Ho) _]; [eauto|].
    split; [|done]. exists h, i. rewrite Ho. eauto.
  - intros [(h&hosting&Hs&Hi&Hb&_) Hlt].
    destruct (Hh h (oi_orderId hosting)) as [_ (i&Hi'&Ho)]; [eauto|].
    exists h, i. rewrite Ho. split_and!; [done|done|by apply renews_until|].
    exists addOn. by rewrite lookup_insert_eq.
Qed.

(** a customer who ends an add-on stops being billed for it, and not before the
    time already billed is over.  The end is the date the customer was shown: the
    end of the add-on's period on an issued renewal invoice of the current period,
    or else the service's due date.  From then on no renewal bills the add-on;
    renewals of earlier periods bill it as before; no other row changes but the
    log, and ending it again changes nothing. *)
Theorem ended_add_on_exact `{DateParser} s customer addOn expected actor context w v w'
    (Hkeyed : ∀ k i, orderItems (db w) !! k = Some i → oi_id i = k)
    (Hrun : cancelAddOn_tx s customer addOn expected actor context w = (Ok v, w')) :
  ∃ sv item t, services (db w) !! s = Some sv ∧ svc_customerId sv = customer ∧
    orderItems (db w) !! addOn = Some item ∧
    orderItems (db w') = <[addOn := item <| oi_renewalEndsAt := Some t |>]> (orderItems (db w)) ∧
    (db w' = db w ∨
     oi_renewalEndsAt item = None ∧ date_of expected = Some t ∧
     t = default (svc_nextDueAt sv) (billed_until sv addOn (db w)) ∧
     ∃ logs, db w' = db w <| orderItems := orderItems (db w') |> <| activityLogs := logs |>) ∧
    ∀ sv' period,
      (item <| oi_renewalEndsAt := Some t |>) ∈ renewal_add_ons sv' period (db w') ↔
      item ∈ renewal_add_ons sv' period (db w) ∧ svc_nextDueAt sv' < t.
Proof.
  unfold cancelAddOn_tx in Hrun.
  apply bind_Ok in Hrun as (?&w1&Hl&Hrun). apply lock_row_Ok in Hl as ->.
  apply bind_Ok in Hrun as (?&w1&Hr&Hrun). apply read_Ok in Hr as [-> ->].
  apply bind_Ok in Hrun as (sv&w1&Hr&Hrun). apply lift_Ok in Hr as [Hs ->].
  apply of_option_Ok, bind_Some in Hs as (sv'&Hs&Hown).
  destruct (String.eqb_spec (svc_customerId sv') customer) as [Hcus|]; [|done].
  injection Hown as ->.
  apply bind_Ok in Hrun as (?&w1&Hr&Hrun). apply read_Ok in Hr as [-> ->].
  apply bind_Ok in Hrun as ([item billed]&w1&Hr&Hrun). apply lift_Ok in Hr as [Hf ->].
  apply of_option_Ok in Hf. unfold find_add_on in Hf.
  apply bind_Some in Hf as (hosting&_&Hf). apply bind_Some in Hf as (item'&Hitem&Hf).
  destruct (add_on_of _ _ _); [|done]. injection Hf as -> <-.
  exists sv, item. destruct (oi_renewalEndsAt item) as [t|] eqn:Hends.
  - apply lift_Ok in Hrun as [_ ->]. exists t.
    assert (item <| oi_renewalEndsAt := Some t |> = item) as Heq
      by (rewrite <- Hends; by destruct item).
    assert (orderItems (db w) = <[addOn := item <| oi_renewalEndsAt := Some t |>]>
              (orderItems (db w))) as Hid by (rewrite Heq; by rewrite insert_id).
    split_and!; [done..|by left|]. intros sv' period.
    by apply (ended_renewals _ (db w) _ addOn _ _ _ _ eq_refl Hitem Hid); right.
  - apply bind_Ok in Hrun as (t&w1&Hr&Hrun). apply lift_Ok in Hr as [Ht ->].
    apply of_option_Ok, bind_Some in Ht as (t'&Hav&Ht). case_bool_decide as Hdate; [|done].
    injection Ht as ->. exists t.
    apply bind_Ok in Hrun as (i&w1&Hu&Hrun). unfold update_order_item in Hu.
    rewrite (Hkeyed _ _ Hitem) in Hu.
    apply bind_Ok in Hu as (m&w2&Hm&Hu). apply read_Ok in Hm as [-> ->]. rewrite Hitem in Hu.
    apply bind_Ok in Hu as (?&w2&Hw&Hu). apply write_Ok in Hw as ->.
    apply ret_Ok in Hu as [_ ->].
    apply bind_Ok in Hrun as (?&w2&Hg&Hrun). apply lift_Ok in Hrun as [_ ->].
    unfold log_activity in Hg. apply write_Ok in Hg as ->.
    split_and!; [done..| |intros; apply (ended_renewals _ (db w) _ addOn _ _ _ _ eq_refl Hitem); [done|by left]].
    right. split_and!; [done..| |by eexists].
    unfold availableEndAt in Hav. destruct (_ || _); [done|]. by injection Hav.
Qed.

(** ** Examples *)
(** A request for the end of a period that ends at [t]. *)
Definition end_request (t : Z) : HostingCancellationRequest :=
  MkCancellation "x" "s" CancellationTiming.END_OF_PERIOD CancellationStatus.OPEN None (Some t)
    None 0 None.
Definition ending_world (t : Z) : World :=
  let w := hosting_world (hosted_service ServiceStatus.ACTIVE) in
  w <| db := db w <| cancellations := {["x" := end_request t]} |>
                  <| orderItems := {["hosting" := sample_item "hosting" ProductKind.HOSTING 1000;
                                     "backup" := sample_item "backup" ProductKind.ADD_ON 200]} |> |>.
Definition ending (t : Z) : result (option (HostingPanelOperation * bool)) * World :=
  @prepare_tx plain_sha SUSPEND (ForCancellation "s" "x") "e" (ending_world t).
(** At the end of the period the panel is asked; a renewal paid before puts it off. *)
Lemma cancellation_job_exact_witness :
  (∃ op, fst (ending sample_due) = Ok (Some (op, true)) ∧
         falls_due (hosted_service ServiceStatus.ACTIVE) (end_request sample_due)) ∧
  fst (ending (sample_due - 1)) = Ok None ∧
  hc_effectiveAt <$> cancellations (db (snd (ending (sample_due - 1)))) !! "x" =
    Some (Some sample_due).
Proof.
  split; [|split; vm_compute; reflexivity].
  assert (∃ op, fst (ending sample_due) = Ok (Some (op, true))) as [op Hop].
  { eexists. vm_compute. reflexivity. }
  exists op. split; [exact Hop|].
  destruct (@cancellation_job_exact all_formats "s" "x" "e" (hosted_service ServiceStatus.ACTIVE)
    (ending_world sample_due) eq_refl eq_refl eq_refl
    ltac:(intros r Hr; vm_compute in Hr; by injection Hr as <-)
    plain_sha SUSPEND (Some (op, true)) (snd (ending sample_due)) (run_outcome _ _ _ Hop))
    as [(r&due&Hdue&Hfalls) _].
  vm_compute in Hdue. injection Hdue as <- _. exact Hfalls.
Defined.

(** The customer ends the backups of the service. *)
Definition ended : result ServiceAddOn * World :=
  @cancelAddOn_tx (λ _, Some sample_due) "s" "c" "backup" "2026-03-01T00:00:00.000Z" "u"
    admin_context (ending_world sample_due).
Lemma ended_add_on_exact_witness :
  ∃ item t, orderItems (db (snd ended)) !! "backup" = Some item ∧ t = sample_due ∧
    oi_renewalEndsAt item = Some t ∧
    renewal_add_ons (hosted_service ServiceStatus.ACTIVE) MONTHLY (db (snd ended)) = [].
Proof.
  assert (∃ v, fst ended = Ok v) as [v Hv] by (eexists; vm_compute; reflexivity).
  destruct (@ended_add_on_exact (λ _, Some sample_due) "s" "c" "backup"
    "2026-03-01T00:00:00.000Z" "u" admin_context (ending_world sample_due) v (snd ended))
    as (sv&item&t&_&_&Hitem&Hset&[Hsame|(_&[= Ht]&_)]&_).
  - refine (bool_decide_unpack (map_Forall (λ k i, oi_id i = k)
      (orderItems (db (ending_world sample_due)))) _). vm_compute. exact I.
  - by apply run_outcome.
  - exfalso. apply (f_equal (λ d, oi_renewalEndsAt <$> orderItems d !! "backup")) in Hsame.
    vm_compute in Hsame. discriminate.
  - eexists _, t. split_and!; [rewrite Hset; apply lookup_insert_eq|by symmetry|done|].
    vm_compute. reflexivity.
Defined.
