(* ===== verification/Conservation.v ===== *)
(** * Money is conserved

    Histories of the database: at every step one transaction of the invoice,
    payment, gateway, order, renewal or domain service commits, with what its request read
    before it, in any earlier state of the history, or something else changes that is
    neither an invoice nor a payment.  Every database of a history satisfies the
    invariant of the ledger. *)
From S2P Require Import Prelude JsString JsDate Json Money States AuthTables DomainTables Totp Authentication Calendar Registrar Resellbiz GatewayAdapters HostingPanels PanelOperations DomainContracts RegistrarProcessor DomainAdministration Domains DomainSales DomainManagement DomainLifecycle DomainTransitions DomainSamples DomainLedger Database InvoiceNumber InvoiceTotals Invoices Payments Gateways MapSum Ledger Settlement Orders GatewayProperties Renewal RenewalProperties.

(** The CHECK constraints on prices, recurring amounts and order lines. *)
Definition constraints (d : Db) : Prop := prices_nonneg d ∧ amounts_nonneg d.

Section histories.
Context `{ZodFormats} `{Sha256} `{DateParser} `{DomainServicesLaws} `{ZodUrl} `{UrlParser}
  `{ZodIso} `{RegistrarCryptoLaws} `{ResellbizTransport} `{RegistrarRandom} `{JsNumber}.
Context (https_url : string → bool) (view_ok : OrderView → bool)
  (environment : DomainEnvironment) (late : Db → string → Prop).

(** The transactions, each with the values its request carries into it: amounts
    it has checked, and rows it has read in an earlier database [d0 ∈ h].  A provider's
    failure is recorded whatever has become of the payment, as far as [late] allows: in
    which databases, on which payments. *)
Inductive served (h : list Db) : ∀ {A}, Io A → Prop :=
| sv_create_invoice input amounts actor context :
    parseAndCalculate (rq_items (rq_fields input)) (rq_creditTotal (rq_fields input))
      = Ok amounts →
    served h (create_tx input amounts actor context)
| sv_update_draft invoiceId updatedAt input amounts actor context :
    parseAndCalculate (rq_items input) (rq_creditTotal input) = Ok amounts →
    served h (updateDraft_tx invoiceId updatedAt input amounts actor context)
| sv_invoice_action d0 invoiceId action current next now actor context :
    d0 ∈ h → invoices d0 !! invoiceId = Some current →
    nextInvoiceStatus action (inv_status current) (inv_dueAt current)
      (inv_balanceDue current) (inv_amountPaid current) now = Ok next →
    served h (applyAction_tx invoiceId action current next now actor context)
| sv_submit input actorUserId customerId context :
    served h (submitManual_tx input actorUserId customerId context)
| sv_record input actor context : served h (recordManual_tx input actor context)
| sv_reject d0 paymentId initial reason actor context :
    d0 ∈ h → payments d0 !! paymentId = Some initial →
    served h (reject_tx paymentId (pay_invoiceId initial) reason actor context)
| sv_verify d0 paymentId initial actor context :
    d0 ∈ h → payments d0 !! paymentId = Some initial →
    served h (verify_tx paymentId (pay_invoiceId initial) actor context)
| sv_adjust d0 paymentId original input actor context :
    d0 ∈ h → payments d0 !! paymentId = Some original → 0 < string_to_Z (aj_amount input) →
    served h (adjust_tx paymentId (pay_invoiceId original) input actor context)
| sv_order input actor context source allowPending :
    served h (persist https_url view_ok input actor context source allowPending)
| sv_order_status orderId current next now actor context :
    served h (updateStatus_tx orderId current next now actor context)
| sv_fulfil orderId itemId actor context :
    served h (fulfillAddOn_tx view_ok orderId itemId actor context)
| sv_renewal serviceId run now : served h (createRenewalInvoice_tx serviceId run now)
| sv_overdue invoiceId run now : served h (markOverdue_tx invoiceId run now)
| sv_session gateway key input actor : served h (createSession_tx gateway key input actor)
| sv_claim paymentId : served h (claimSession paymentId)
| sv_store_session paymentId session : served h (storeSession paymentId session)
| sv_event gateway event payloadHash : served h (event_tx gateway event payloadHash)
| sv_domain_purchase input auth customerId assisted :
    served h (purchase_tx environment https_url input auth customerId assisted)
| sv_domain_action id domainId raw request c auth :
    domainActionRequestSchema raw = Some request →
    served h (DomainLifecycle.create_tx id domainId request c auth)
| sv_domain_cancel domainId actionId auth :
    served h (DomainLifecycle.cancel_tx domainId actionId auth)
| sv_unreachable paymentId message :
    served h (update_payment paymentId (λ r, r <| pay_failureReason := Some message |>))
| sv_provider_failure d h' paymentId message outcome :
    h = d :: h' → late d paymentId →
    served h (recordProviderFailure paymentId message outcome).

(** [history h]: the databases so far, the current one first. *)
Inductive history : list Db → Prop :=
| hi_start d : constraints d → invoices d = ∅ → payments d = ∅ → history [d]
| hi_commit {A} (m : Io A) h w a w' :
    history (db w :: h) → served (db w :: h) m → m w = (Ok a, w') → constraints (db w') →
    history (db w' :: db w :: h)
| hi_other d d' h :
    history (d :: h) → ledger_tables d' = ledger_tables d → constraints d' →
    history (d' :: d :: h).
End histories.

(** ** Entries stay *)
Lemma step_entry L L' p e :
  ledger_step L L' → entries L !! p = Some e →
  ∃ e', entries L' !! p = Some e' ∧ en_invoice e' = en_invoice e.
Proof.
  intros Hs Hp. destruct Hs; simpl; eauto; rewrite lookup_insert;
    (destruct (decide _) as [<-|]; [|by eauto]); try congruence;
    eexists; (split; [reflexivity|]); simpl; congruence.
Qed.
Lemma steps_entry L L' p e :
  rtc ledger_step L L' → entries L !! p = Some e →
  ∃ e', entries L' !! p = Some e' ∧ en_invoice e' = en_invoice e.
Proof.
  intros Hs. revert e. induction Hs as [|L1 L2 L3 Hs _ IH]; intros e He; [by eauto|].
  destruct (step_entry _ _ _ _ Hs He) as (e2&He2&Heq). destruct (IH _ He2) as (e3&?&?).
  exists e3. split; congruence.
Qed.
Lemma steps_payment_at d d' p i :
  rtc ledger_step (ledger_of d) (ledger_of d') → payment_at p i d → payment_at p i d'.
Proof.
  intros Hs (r&Hr&Hi). destruct (steps_entry _ _ p (entry_of r) Hs) as (e&He&Heq).
  { by apply entry_lookup. }
  unfold ledger_of, of_tables in He. simpl in He. rewrite lookup_fmap in He.
  apply fmap_Some in He as (r'&Hr'&->). exists r'. split; [done|]. simpl in Heq. congruence.
Qed.

(** The successful charges of an invoice, and what was given back of them. *)
Definition received (invoiceId : string) (d : Db) : Z :=
  sum_amounts (rows (λ r, String.eqb (pay_invoiceId r) invoiceId &&
    (pay_status r ==b PaymentStatus.SUCCEEDED) && (pay_kind r ==b PaymentKind.CHARGE))
    (payments d)).
Definition returned (invoiceId : string) (d : Db) : Z :=
  sum_amounts (rows (λ r, String.eqb (pay_invoiceId r) invoiceId &&
    (pay_status r ==b PaymentStatus.SUCCEEDED) && negb (pay_kind r ==b PaymentKind.CHARGE))
    (payments d)).
Lemma net_paid_rows i d : net_paid (ledger_of d) i = received i d - returned i d.
Proof.
  unfold net_paid, received, returned, sum_amounts, ledger_of, of_tables. simpl.
  rewrite msum_fmap, !sum_rows. induction (payments d) as [|k r m Hk IH] using map_ind.
  - by rewrite !msum_empty.
  - rewrite !msum_insert, IH by done. unfold contribution; simpl.
    destruct (String.eqb_spec (pay_invoiceId r) i) as [->|Hne].
    + rewrite (bool_decide_eq_true_2 (i = i)) by done.
      destruct (pay_status r ==b _), (pay_kind r ==b _); simpl; lia.
    + rewrite (bool_decide_eq_false_2 (_ = i)) by done. simpl. lia.
Qed.

(** ** Histories keep the invariant *)
Section conservation.
Context `{ZodFormats} `{Sha256} `{DateParser} `{DomainServicesLaws} `{ZodUrl} `{UrlParser}
  `{ZodIso} `{RegistrarCryptoLaws} `{ResellbizTransport} `{RegistrarRandom} `{JsNumber}.
Context (https_url : string → bool) (view_ok : OrderView → bool)
  (environment : DomainEnvironment) (late : Db → string → Prop)
  (late_awaits : ∀ d paymentId, late d paymentId → awaiting paymentId d).
#[local] Notation served := (served https_url view_ok environment late).
#[local] Notation history := (history https_url view_ok environment late).

(** Where each transaction's lemma applies. *)
Definition settled_at (h : list Db) (d : Db) : Prop :=
  constraints d ∧ (∀ d0 p i, d0 ∈ h → payment_at p i d0 → payment_at p i d) ∧
  ∃ h', h = d :: h'.

Lemma posts_weaken {A} (P Q : Db → Prop) (m : Io A) :
  Posts P m → (∀ d, Q d → P d) → Posts Q m.
Proof. intros Hm HPQ w a w' Hi HQ. apply Hm; auto. Qed.
Lemma served_posts {A} h (m : Io A) : served h m → Posts (settled_at h) m.
Proof using Type*.
  intros Hm. destruct Hm.
  - by eapply posts_weaken; [apply create_tx_posts|].
  - by eapply posts_weaken; [apply updateDraft_tx_posts|].
  - by eapply posts_weaken; [eapply applyAction_tx_posts|].
  - by eapply posts_weaken; [apply submitManual_tx_posts|].
  - by eapply posts_weaken; [apply recordManual_tx_posts|].
  - by eapply posts_weaken; [apply reject_tx_posts|].
  - eapply posts_weaken; [apply verify_tx_posts|]. intros d (_&Hd&_). eapply Hd; [done|by eexists].
  - eapply posts_weaken; [by apply adjust_tx_posts|]. intros d (_&Hd&_).
    eapply Hd; [done|by eexists].
  - eapply posts_weaken; [apply persist_posts|]. by intros d [[? _] _].
  - by eapply posts_weaken; [apply updateStatus_tx_posts|].
  - eapply posts_weaken; [apply keeps_posts, fulfillAddOn_tx_keeps|done].
  - eapply posts_weaken; [apply createRenewalInvoice_tx_posts|]. by intros d [[_ ?] _].
  - by eapply posts_weaken; [apply markOverdue_tx_posts|].
  - by eapply posts_weaken; [apply createSession_tx_posts|].
  - by eapply posts_weaken; [apply claimSession_posts|].
  - by eapply posts_weaken; [apply storeSession_posts|].
  - by eapply posts_weaken; [apply event_tx_posts|].
  - eapply posts_weaken; [apply purchase_tx_posts|]. by intros d [[? _] _].
  - by eapply posts_weaken; [eapply create_action_posts|].
  - by eapply posts_weaken; [apply cancel_action_posts|].
  - by eapply posts_weaken; [by apply update_payment_posts|].
  - eapply posts_weaken; [apply recordProviderFailure_posts|].
    intros d' (_&_&h''&Heq). apply late_awaits. congruence.
Qed.
Lemma ledger_inv_start d : invoices d = ∅ → payments d = ∅ → ledger_inv d.
Proof.
  intros Hi Hp. unfold ledger_inv, keyed_tables, ledger_of, ledger_tables, of_tables, ledger_ok.
  simpl. rewrite Hi, Hp, !fmap_empty. split_and!; by intros.
Qed.
Lemma payment_at_same d d' p i :
  ledger_tables d' = ledger_tables d → payment_at p i d → payment_at p i d'.
Proof. intros [= _ Hp] Hr. unfold payment_at. by rewrite Hp. Qed.

Lemma history_inv d h :
  history (d :: h) → ledger_inv d ∧ settled_at (d :: h) d.
Proof using Type*.
  remember (d :: h) as l eqn:Hl. intros Hh. revert d h Hl.
  induction Hh as [d Hc Hi Hp|A m h w a w' Hh IH Hm Hrun Hc|d d' h Hh IH Ht Hc];
    intros d1 h1 [= <- <-].
  - split; [by apply ledger_inv_start|]. split; [done|]. split; [|by eexists].
    intros d0 p i ->%list_elem_of_singleton. done.
  - destruct (IH _ _ eq_refl) as [Hinv Hset].
    apply served_posts in Hm. pose proof (posts_inv _ _ _ _ _ Hm Hinv Hset Hrun).
    destruct (Hm _ _ _ Hinv Hset Hrun) as [_ Hs]. split; [done|]. split; [done|].
    split; [|by eexists]. intros d0 p i [->|Hd0]%elem_of_cons Hat; [done|].
    eapply steps_payment_at; [exact Hs|]. by apply (proj1 (proj2 Hset) d0).
  - destruct (IH _ _ eq_refl) as [Hinv Hset]. split.
    + unfold ledger_inv, ledger_of. by rewrite Ht.
    + split; [done|]. split; [|by eexists]. intros d0 p i [->|Hd0]%elem_of_cons Hat; [done|].
      eapply payment_at_same; [done|]. by apply (proj1 (proj2 Hset) d0).
Qed.

(** C1: whatever the invoice, payment, gateway, order, renewal and domain services do, in
    any order and however late their requests act on what they read, provided that a
    provider's failure is only recorded on a payment still pending ([late_awaits]; the
    code does not make sure of it, and without it the conclusion fails:
    GatewayFaults.callback_overwrites_settlement), the money adds up: the amount paid of
    an invoice is its successful charges less what was given back, the balance is the
    total less credit and payments and never negative, a paid invoice owes nothing, a
    refunded or draft one holds nothing, and no charge is given back beyond its amount. *)
Theorem money_is_conserved d h (Hh : history (d :: h)) :
  (∀ i r, invoices d !! i = Some r →
     inv_amountPaid r = received i d - returned i d ∧
     inv_balanceDue r = inv_total r - inv_creditTotal r - inv_amountPaid r ∧
     0 <= inv_creditTotal r ∧ 0 <= inv_amountPaid r ∧ 0 <= inv_balanceDue r ∧
     match inv_status r with
     | InvoiceStatus.PAID => inv_balanceDue r = 0
     | InvoiceStatus.OVERDUE => 0 < inv_balanceDue r
     | InvoiceStatus.DRAFT | InvoiceStatus.REFUNDED => inv_amountPaid r = 0
     | InvoiceStatus.PARTIALLY_REFUNDED => 0 < inv_amountPaid r
     | _ => True
     end) ∧
  (∀ p r, payments d !! p = Some r →
     0 < pay_amount r ∧ is_Some (invoices d !! pay_invoiceId r) ∧
     (pay_originalPaymentId r = None →
      pay_kind r = PaymentKind.CHARGE ∧
      sum_amounts (adjustments_of p d) <=
        (if pay_status r ==b PaymentStatus.SUCCEEDED then pay_amount r else 0))).
Proof using Type*.
  destruct (history_inv _ _ Hh) as [[_ [Ha He]] _]. split.
  - intros i r Hr. destruct (Ha i _ (account_lookup _ _ _ _ Hr)) as (?&?&?&?&Hn&?).
    rewrite net_paid_rows in Hn. simpl in *. split_and!; [done|lia|done..].
  - intros p r Hr. destruct (He p _ (entry_lookup _ _ _ _ Hr)) as (?&Hx&Ho). simpl in *.
    split; [done|]. split.
    + rewrite lookup_fmap, fmap_is_Some in Hx. done.
    + intros Hn. rewrite Hn in Ho. rewrite adjusted_rows. destruct Ho as [? [_ Ho]].
      split; [done|exact Ho].
Qed.
End conservation.

(** ** A history: a renewal is invoiced and paid *)
Lemma constraints_decided d :
  bool_decide (map_Forall (λ _ p, 0 <= pp_amount p ∧ 0 <= pp_setupFee p) (productPrices d)) &&
  bool_decide (map_Forall (λ i s, svc_id s = i ∧ 0 <= svc_recurringAmount s) (services d)) &&
  bool_decide (map_Forall (λ _ o, 0 <= oi_lineTotal o) (orderItems d)) = true →
  constraints d.
Proof. intros H. split_bool. by split_and!. Qed.
Definition sample_payment : SubmitManualPaymentRequest :=
  MkSubmit "d" "1200" "key" (MkProof CASH "receipt" None None None).
Definition paid (w : World) : result string * World :=
  @recordManual_tx plain_sha sample_payment (AdminIdentity "u") (MkRequestContext "" None) w.

#[local] Existing Instances all_formats plain_sha no_domains no_domains_laws.
Lemma paid_runs :
  @recordManual_tx plain_sha sample_payment (AdminIdentity "u") (MkRequestContext "" None)
    (snd (renewed 1000)) = (Ok "iiiid", snd (paid (snd (renewed 1000)))).
Proof. unfold paid. apply run_outcome. vm_compute. reflexivity. Qed.
Lemma money_is_conserved_witness :
  let w1 := snd (renewed 1000) in let w2 := snd (paid w1) in
  received "d" (db w2) = 1200 ∧
  ∃ r, invoices (db w2) !! "d" = Some r ∧
    inv_amountPaid r = received "d" (db w2) - returned "d" (db w2) ∧
    inv_balanceDue r = inv_total r - inv_creditTotal r - inv_amountPaid r.
Proof.
  intros w1 w2. split; [vm_compute; reflexivity|].
  assert (history (λ _, true) (λ _, true) development (flip awaiting) [db w2; db w1; db (due_world 1000)]) as Hh.
  { eapply hi_commit; [eapply hi_commit; [apply hi_start| | |]| | |].
    - apply constraints_decided. vm_compute. reflexivity.
    - reflexivity.
    - reflexivity.
    - apply sv_renewal.
    - exact renewed_runs.
    - apply constraints_decided. vm_compute. reflexivity.
    - apply sv_record.
    - exact paid_runs.
    - apply constraints_decided. vm_compute. reflexivity. }
  destruct (money_is_conserved (λ _, true) (λ _, true) development (flip awaiting)
    ltac:(done) _ _ Hh) as [Hi _].
  destruct (invoices (db w2) !! "d") as [r|] eqn:Hr; [|exfalso].
  2: { assert (is_Some (invoices (db w2) !! "d")) as [x Hx] by (vm_compute; eauto). congruence. }
  exists r. split; [reflexivity|]. destruct (Hi _ _ Hr) as (H1&H2&_). split; [exact H1|exact H2].
Defined.
